(* ===== verification/_CoqProject ===== *)
-Q . S2P
Prelude.v
Words.v
ExitReasons.v
Opcodes.v
Memory.v
MemorySpec.v
Bits.v
Decode.v
DecodeSpec.v
Interp.v
Initializer.v
InitializerSpec.v
Instructions.v
MetaHandlers.v
Program.v
Types.v
Config.v
Codec.v
CodecSpec.v
Encode.v
Decoders.v
Roundtrip.v
ProtocolWf.v
ProtocolSpec.v
MetaEquiv.v
HandlersSpec.v
ArithSpec.v
Invocation.v
InvocationSpec.v
PreDecodeSpec.v
Host.v
HostSpec.v
BlockSim.v
Examples.v
Shuffle.v
Mmr.v
MerkleTree.v
Trie.v
TrieSpec.v
Crypto.v
Store.v
StoreLaws.v
Accumulation.v
AccumulationSpec.v
Validate.v
Authorization.v
RecentHistory.v
Safrole.v
SafroleSpec.v
Disputes.v
Assurances.v
Guarantees.v
GuaranteesSpec.v
Statistics.v
StatisticsSpec.v
StateSer.v
StateSerSpec.v
Preimages.v
OuterAccumulation.v
ServiceAccounts.v
HostGeneral.v
HostAccumulate.v
AccumulateInvocation.v
HostRefine.v
OuterAccumulationSpec.v
AccumulateInvocationSpec.v
HostRefineSpec.v
HostCallsSpec.v
Auditing.v
Repository.v
Blockchain.v
FuzzMessages.v
STF.v
STFSpec.v
FuzzTarget.v
FuzzTargetSpec.v
ChainExamples.v
StateExamples.v
TransitionExamples.v
NodeExamples.v
