(* ===== verification/Prelude.v ===== *)
(** * JAM protocol node: verification library

    A model of the Go node under src/ (the virtual machine under src/PVM,
    the protocol under src/internal) and the theorems that make it correct.
    Numbers such as (12.16) or (B.9) are those of the protocol's paper, which
    the comments of the code use too.

    ** The program and the files that model it

    A block is decoded, checked against the state before it, and turned into
    the state after it; the state is serialized and merklized, so that the
    next block can commit to its root.

    - _Data._ Types.v has the types of blocks and states (types.go,
      state.go), Config.v the parameters of a chain and the class of hash
      functions, Codec.v the codecs of integers, Encode.v and Decoders.v the
      codecs of all types (encode.go, decode.go), Validate.v the [Validate]
      methods. ProtocolWf.v says which values of the model are values of the
      Go types; Roundtrip.v and ProtocolSpec.v are the theorems on the codec.
    - _Virtual machine._ Words.v, Bits.v, Decode.v (operands), Opcodes.v,
      ExitReasons.v, Memory.v, Interp.v (state and jumps), Initializer.v,
      Program.v (blobs, pre-decoding), Instructions.v and MetaHandlers.v (the
      two families of instruction handlers), Invocation.v (the interpreters),
      Host.v (the host-call loop, [Psi_M]). HostGeneral.v, HostAccumulate.v
      and HostRefine.v are the host calls; AccumulateInvocation.v and
      HostRefine.v the three entry points [Psi_A], [RefineInvoke], [Psi_I].
    - _Structures._ Shuffle.v, Mmr.v, MerkleTree.v, Trie.v (state trie and its
      cache of leaves), StateSer.v (state to key-value pairs and back).
    - _State transition._ Store.v is the store the components share; Crypto.v
      the classes of signature and VRF libraries. A component is a function
      on the store: Safrole.v, Disputes.v, Assurances.v, Guarantees.v,
      Accumulation.v (queue), OuterAccumulation.v (services), Preimages.v,
      RecentHistory.v, Authorization.v, Statistics.v, ServiceAccounts.v.
      STF.v composes them in the order of src/internal/stf.
    - _Node._ Repository.v (databases, batches, the tables of blocks and
      states), Blockchain.v (the chain of a node: its blocks, finality,
      ancestry, committing, restoring and pruning of states), FuzzMessages.v
      (the messages of the fuzzing protocol and their codec), FuzzTarget.v
      (the service that imports blocks, and its server), Auditing.v (the
      tranches of an audit and the bus between validators).

    A file X.v has the definitions of a part and XSpec.v its theorems (small
    parts have both in one file). Examples.v, ChainExamples.v,
    StateExamples.v, TransitionExamples.v and NodeExamples.v evaluate the
    definitions at concrete inputs and instantiate the theorems there.

    ** Conventions

    A Go computation that can panic has type [go A]; a returned error is data:
    [option], an error number or a text. Code that both fails and panics
    returns [go (option A)]. Unsigned integers are [Z] in their range, with
    every wrap-around written out (Words.v); bytes are [Z]; slices are lists;
    maps are [gmap]s. An operation on the store is a function that returns the
    store after it; where the code writes through a slice or a map that two
    owners share, the model changes both, and says so.

    Where the order of a Go map or of goroutines shows, it is an argument
    ([arrange...]) that the theorems quantify over. Hash functions,
    signatures and VRFs are classes with the laws of their results:
    the theorems hold for every instance. [AccumulateVM] is the interface by
    which the accumulation calls the virtual machine; AccumulateInvocation.v
    implements it, and AccumulateInvocationSpec.v discharges its laws.

    ** Fuel

    The loops of the code that have no bound take a fuel and return [None]
    when it is used up. Each has a theorem that enough fuel exists: the
    interpreters need one unit for each unit of gas and one more
    (InvocationSpec.v), the host-call loop the gas too, since each host call
    costs gas (HostSpec.v); [Psi_A_terminates], [RefineInvoke_spec] and
    [Psi_I_spec] carry that to the entry points.
    [OuterAccumulation_terminates] bounds the batches of a block by its
    reports and transfers; [check] of HostAccumulate.v ends since the
    accounts do not exhaust the identifiers. The dependencies of reports are
    resolved with the length of the queue for a fuel, and the theorems on
    them hold for the result.

    ** Theorems

    - _Machine._ The two families of handlers agree on every opcode
      ([meta_equiv]), and so the two interpreters do ([blocks_refine]); the
      three-register instructions compute the reference arithmetic
      ([three_reg_correct]); every handler keeps the state well-formed
      ([handlers_preserve]); pre-decoding describes the code
      ([DeBlobProgramCode_ok]); the paged memory refines a map of bytes
      (MemorySpec.v); the initial memory is the one of the standard
      ([SingleInitializer_layout]).
    - _Host calls._ Those of an accumulation keep the sum of balances and
      transfers, except [new], which does unless the payer is poor
      ([host_calls_conserve], [new_tokens]); footprints follow the maps
      ([write_footprint], [request_footprint]); [Psi_A] keeps the contract of
      its caller ([Psi_A_laws]); refinements export at most what the protocol
      allows and never crash but in [pages] ([RefineInvoke_spec],
      [refine_calls_keep]).
    - _Codec, structures._ Round trips of blocks and states, soundness of the
      decoder, round trip of the state serialization, binding of the state
      root, proofs of Merkle trees, refinement of the mountain range.
    - _Transition._ For each component, which inputs it accepts and what it
      does to the store ([..._correct], [..._spec], [..._records]); the
      accumulation is deterministic and ends; [RunSTF_accepts] puts them
      together for a block, and [RunSTFWithTiming_agrees] carries it to the
      variant that takes times.
    - _Node._ What is saved is read back and nothing else changes
      ([SaveBlock_correct], [SaveState_correct]), in a batch as in a database
      ([batches_direct]); the messages of the fuzzing protocol are read back
      ([message_roundtrip]); an import that is refused leaves the committed
      state alone ([failed_import_keeps]), one that succeeds stores the state
      of the root it returns ([import_commits]), a fork starts from the state
      of its parent ([fork_restores]), and the node keeps a bounded number of
      blocks ([import_bounded]). A report counts as audited as the protocol
      says ([IsBlockAudited_correct]), but the judgments of others are not
      counted ([audit_counts_own]).

    ** Not modelled

    Networking (QUIC, the CE handlers, the sync manager), telemetry, the
    commands, logs and metrics are input and output around the calls modelled
    here. The database providers over Pebble and Redis call those libraries. The foreign functions (Bandersnatch VRFs, erasure coding) and the
    SCALE package are libraries or submodules; the key stores and
    certificates make keys. The readers of JSON fixtures and the second
    codec of src/internal/utilities (serialization.go, beyond the integers)
    serve tests. The work-package controller mostly calls the erasure coder
    and the network. Making seals and tickets needs the key store. Locks are
    not modelled: the operations of a component run one at a time, except
    where a file says that it models the interleaving. *)

From stdpp Require Export base gmap list strings list_numbers.
From Stdlib Require Export ZArith Lia.

Global Open Scope Z_scope.

(** ** Go run-time panics

    [go A] is the result of a Go computation: a value, or an unrecovered
    run-time panic (index or slice bound out of range, nil map write,
    explicit [panic]).  Go [error] values are ordinary data ([option]). *)
Inductive go (A : Type) : Type :=
| Ret (a : A)
| Crash.
Arguments Ret {A} a.
Arguments Crash {A}.

#[export] Instance go_ret : MRet go := fun A a => Ret a.
#[export] Instance go_bind : MBind go :=
  fun A B f m => match m with Ret a => f a | Crash => Crash end.
#[export] Instance go_fmap : FMap go :=
  fun A B f m => match m with Ret a => Ret (f a) | Crash => Crash end.

(** [⟪ p ⟫ ⇠ m ⊘ e; k]: run [m]; on a Go error ([None]) continue with [e],
    otherwise bind the results to [p] in [k]. *)
Notation "⟪ p ⟫ ⇠ m ⊘ e ; k" :=
  (mbind (M:=go) (fun o => match o with None => e | Some p => k end) m)
  (at level 20, p strict pattern, m at level 100, e at level 100, k at level 200,
   only parsing).

#[export] Instance go_eq_dec {A} `{EqDecision A} : EqDecision (go A).
Proof. solve_decision. Defined.

Lemma go_bind_ret {A B} (a : A) (f : A -> go B) : (Ret a ≫= f) = f a.
Proof. reflexivity. Qed.

Lemma go_bind_assoc {A B C} (m : go A) (g : A -> go B) (f : B -> go C) :
  ((m ≫= g) ≫= f) = (m ≫= fun a => g a ≫= f).
Proof. by destruct m. Qed.

Lemma go_bind_inv {A B} (m : go A) (f : A -> go B) b :
  (m ≫= f) = Ret b -> exists a, m = Ret a /\ f a = Ret b.
Proof. destruct m; simpl; [eauto | discriminate]. Qed.

(** Both computations panic, or their results are related. *)
Definition go_rel {A B} (R : A -> B -> Prop) (x : go A) (y : go B) : Prop :=
  match x, y with Ret x, Ret y => R x y | Crash, Crash => True | _, _ => False end.

Lemma go_rel_bind {A B C D} (R : A -> B -> Prop) (Q : C -> D -> Prop) x y f g :
  go_rel R x y -> (forall a b, R a b -> go_rel Q (f a) (g b)) -> go_rel Q (x ≫= f) (y ≫= g).
Proof. destruct x, y; cbn; try done. intros Hr Hf. by apply Hf. Qed.

Definition is_ret {A} (m : go A) : bool :=
  match m with Ret _ => true | Crash => false end.

(** ** Slices

    A Go slice value: the [elems] between its offset and its length, and
    the [spare] elements between its length and its capacity, which a
    re-slice [s[a:b]] may reach. *)
Record gslice := GSlice { elems : list Z; spare : list Z }.

Definition slen (s : gslice) : Z := Z.of_nat (length (elems s)).
Definition scap (s : gslice) : Z := Z.of_nat (length (elems s ++ spare s)).

(** [l[i]] for a [list] whose length is the Go length. *)
Definition zlookup {A} (l : list A) (i : Z) : option A :=
  if i <? 0 then None else l !! Z.to_nat i.

Definition zindex {A} (l : list A) (i : Z) : go A :=
  match zlookup l i with Some a => Ret a | None => Crash end.

Definition zupdate {A} (l : list A) (i : Z) (a : A) : go (list A) :=
  if (0 <=? i) && (i <? Z.of_nat (length l)) then Ret (<[Z.to_nat i := a]> l)
  else Crash.

(** [s[i]], [s[a:b]], [s[a:]], [s[:b]]. *)
Definition sindex (s : gslice) (i : Z) : go Z := zindex (elems s) i.

Definition sslice (s : gslice) (a b : Z) : go gslice :=
  if (0 <=? a) && (a <=? b) && (b <=? scap s) then
    let all := elems s ++ spare s in
    Ret (GSlice (take (Z.to_nat (b - a)) (drop (Z.to_nat a) all))
                (drop (Z.to_nat b) all))
  else Crash.

Definition sfrom (s : gslice) (a : Z) : go gslice := sslice s a (slen s).
Definition sto (s : gslice) (b : Z) : go gslice := sslice s 0 b.

(** [v[a:b]] on a slice whose capacity is its length. *)
Definition lslice (v : list Z) (a b : Z) : go (list Z) :=
  if (0 <=? a) && (a <=? b) && (b <=? Z.of_nat (length v)) then
    Ret (take (Z.to_nat (b - a)) (drop (Z.to_nat a) v))
  else Crash.

(** [copy(dst, src)]: the new contents of [dst]. *)
Definition gcopy (dst src : list Z) : list Z :=
  take (length dst) src ++ drop (length src) dst.

(** [copy(v[i:], src)] on a slice whose capacity is its length: the new
    contents of [v]. *)
Definition copy_at (v : list Z) (i : Z) (src : list Z) : go (list Z) :=
  if (0 <=? i) && (i <=? Z.of_nat (length v)) then
    Ret (take (Z.to_nat i) v ++ gcopy (drop (Z.to_nat i) v) src)
  else Crash.

(** ** Lemmas on the above *)

Lemma zlookup_Some {A} (l : list A) i a :
  zlookup l i = Some a -> 0 <= i < Z.of_nat (length l).
Proof.
  unfold zlookup. destruct (Z.ltb_spec i 0); [done|].
  intros Hl%lookup_lt_Some. lia.
Qed.

Lemma zlookup_elem_of {A} (l : list A) i a : zlookup l i = Some a -> a ∈ l.
Proof.
  unfold zlookup. destruct (i <? 0); [done|]. apply list_elem_of_lookup_2.
Qed.

Lemma zlookup_is_Some {A} (l : list A) i :
  0 <= i < Z.of_nat (length l) -> exists a, zlookup l i = Some a.
Proof.
  intros H. unfold zlookup. destruct (Z.ltb_spec i 0); [lia|].
  apply lookup_lt_is_Some. lia.
Qed.

Lemma zindex_Ret {A} (l : list A) i a :
  zindex l i = Ret a <-> zlookup l i = Some a.
Proof. unfold zindex. destruct (zlookup l i); naive_solver. Qed.

Lemma zindex_ok {A} (l : list A) i :
  0 <= i < Z.of_nat (length l) -> exists a, zindex l i = Ret a /\ a ∈ l.
Proof.
  intros H. destruct (zlookup_is_Some l i H) as [a Ha].
  exists a. split; [by apply zindex_Ret | by eapply zlookup_elem_of].
Qed.

Lemma zupdate_ok {A} (l : list A) i a :
  0 <= i < Z.of_nat (length l) ->
  zupdate l i a = Ret (<[Z.to_nat i := a]> l).
Proof.
  intros H. unfold zupdate.
  destruct (Z.leb_spec 0 i), (Z.ltb_spec i (Z.of_nat (length l))); simpl; lia || done.
Qed.

Lemma sslice_ok s a b :
  0 <= a <= b -> b <= slen s ->
  sslice s a b =
    Ret (GSlice (take (Z.to_nat (b - a)) (drop (Z.to_nat a) (elems s)))
                (drop (Z.to_nat b) (elems s ++ spare s))).
Proof.
  intros Hab Hb. unfold sslice, scap, slen in *. rewrite length_app.
  destruct (Z.leb_spec 0 a), (Z.leb_spec a b),
    (Z.leb_spec b (Z.of_nat (length (elems s) + length (spare s)))); simpl; try lia.
  do 2 f_equal. rewrite drop_app_le by lia.
  rewrite take_app_le; [done|]. rewrite length_drop. lia.
Qed.

Lemma gcopy_length dst src : length (gcopy dst src) = length dst.
Proof. unfold gcopy. rewrite length_app, length_take, length_drop. lia. Qed.

Lemma gcopy_full dst src : length src = length dst -> gcopy dst src = src.
Proof.
  intros H. unfold gcopy. rewrite take_ge by lia.
  by rewrite (drop_ge dst) by lia; rewrite app_nil_r.
Qed.

(** Copying a source that fits: the bytes after it are kept. *)
Lemma gcopy_fit dst src :
  (length src <= length dst)%nat -> gcopy dst src = src ++ drop (length src) dst.
Proof. intros H. unfold gcopy. by rewrite take_ge by lia. Qed.

Lemma copy_at_ok v i src :
  0 <= i <= Z.of_nat (length v) ->
  copy_at v i src = Ret (take (Z.to_nat i) v ++ gcopy (drop (Z.to_nat i) v) src).
Proof.
  intros H. unfold copy_at.
  destruct (Z.leb_spec 0 i), (Z.leb_spec i (Z.of_nat (length v))); simpl; lia || done.
Qed.

Lemma copy_at_length v i src v' :
  copy_at v i src = Ret v' -> length v' = length v.
Proof.
  unfold copy_at. case_match eqn:E; intros; simplify_eq.
  apply andb_prop in E as [? ?]. rewrite length_app, gcopy_length, length_take, length_drop.
  lia.
Qed.

(** ** Lists of lists *)

Lemma fmap_concat {A B} (f : A -> B) (ls : list (list A)) : f <$> concat ls = concat ((fun l : list A => (f <$> l : list B)) <$> ls) :> list B.
Proof. induction ls as [|l ls IH]; [done|]. cbn [concat fmap list_fmap]. by rewrite fmap_app, IH. Qed.

Lemma concat_fmap_elem {A B} (f : A -> list B) l x : x ∈ concat (f <$> l) <-> exists y, y ∈ l /\ x ∈ f y.
Proof.
  induction l as [|y l IH]; cbn [fmap list_fmap concat].
  - split; [intros Hx; by apply elem_of_nil in Hx|intros (y & Hy & _); by apply elem_of_nil in Hy].
  - rewrite elem_of_app, IH. split.
    + intros [Hx|(z & Hz & Hx)]; [exists y|exists z]; (split; [|done]); [by left|by right].
    + intros (z & [->|Hz]%elem_of_cons & Hx); [by left|right; eauto].
Qed.

(** ** Automation *)

(** Split monadic equations [_ = Ret _] into their steps. *)
Ltac go_step :=
  match goal with
  | H : (_ ≫= _) = Ret _ |- _ =>
      apply go_bind_inv in H as (? & ? & ?); simpl in *
  | H : Ret _ = Ret _ |- _ => injection H as ?; subst
  | H : Crash = Ret _ |- _ => discriminate H
  | H : Ret _ = Crash |- _ => discriminate H
  end.
Ltac go_inv := repeat go_step.

(** Case analysis on the boolean tests of a definition. *)
Ltac zcase :=
  match goal with
  | |- context [?a <? ?b] => destruct (Z.ltb_spec a b)
  | |- context [?a <=? ?b] => destruct (Z.leb_spec a b)
  | |- context [?a =? ?b] => destruct (Z.eqb_spec a b)
  end.

Create HintDb u64.
Create Rewrite HintDb jam.
#[export] Hint Rewrite @length_app @length_take @length_drop @length_replicate
  @length_insert gcopy_length : jam.
