(* ===== verification/Words.v ===== *)
(** * Machine integers and bit operations

    Go's fixed-width integers as [Z] with the wrap-around written out, the
    functions of the Go packages [math/bits] and [encoding/binary] the
    virtual machine uses, and the signed/unsigned transitions of
    src/PVM/signed_unsigned_transitions.go. *)

From S2P Require Import Prelude.

(** ** Conversions: [uintN(x)] and [intN(x)] *)

Definition uN (n x : Z) : Z := x mod 2 ^ n.
Definition sN (n x : Z) : Z :=
  let y := x mod 2 ^ n in if y <? 2 ^ (n - 1) then y else y - 2 ^ n.

Abbreviation u8 := (uN 8).
Abbreviation u16 := (uN 16).
Abbreviation u32 := (uN 32).
Abbreviation u64 := (uN 64).
Abbreviation s8 := (sN 8).
Abbreviation s16 := (sN 16).
Abbreviation s32 := (sN 32).
Abbreviation s64 := (sN 64).

(** A value of type [uint64]. *)
Definition is_u64 (x : Z) : Prop := 0 <= x < 2 ^ 64.
Definition is_byte (x : Z) : Prop := 0 <= x < 256.
#[export] Instance is_u64_dec x : Decision (is_u64 x).
Proof. unfold is_u64. apply _. Defined.
#[export] Instance is_byte_dec x : Decision (is_byte x).
Proof. unfold is_byte. apply _. Defined.

(** ** [math/bits] *)

(** [uint64] shifts with a [uint64] count. *)
Definition shl64 (x k : Z) : Z := if k <? 64 then u64 (Z.shiftl x k) else 0.
Definition shr (x k : Z) : Z := Z.shiftr x k.
Definition not64 (x : Z) : Z := u64 (Z.lnot x).

Definition RotateLeft64 (x k : Z) : Z :=
  let s := Z.land k 63 in
  Z.lor (u64 (Z.shiftl x s)) (Z.shiftr x (64 - s)).
Definition RotateLeft32 (x k : Z) : Z :=
  let s := Z.land k 31 in
  Z.lor (u32 (Z.shiftl x s)) (Z.shiftr x (32 - s)).

(** [bits.Mul64]: high and low words of the 128-bit product. *)
Definition Mul64 (x y : Z) : Z * Z := ((x * y) / 2 ^ 64, (x * y) mod 2 ^ 64).

Fixpoint pos_ones (p : positive) : Z :=
  match p with
  | xH => 1
  | xO p => pos_ones p
  | xI p => 1 + pos_ones p
  end.
Definition OnesCount (x : Z) : Z :=
  match x with Zpos p => pos_ones p | _ => 0 end.

Definition BitLen (x : Z) : Z := if x <=? 0 then 0 else Z.log2 x + 1.
Definition LeadingZeros (w x : Z) : Z := w - BitLen x.
(** [bits.LeadingZeros8(^x)] *)
Definition leadingOnes8 (x : Z) : Z := LeadingZeros 8 (255 - x).

Fixpoint pos_tz (p : positive) : Z :=
  match p with xO p => 1 + pos_tz p | _ => 0 end.
Definition TrailingZeros (w x : Z) : Z :=
  match x with Zpos p => pos_tz p | _ => w end.

(** ** [encoding/binary]: little-endian *)

Definition le_bytes (n : Z) (x : Z) : list Z := Z_to_little_endian n 8 x.
Definition le_val (bs : list Z) : Z := little_endian_to_Z 8 bs.

Definition ReverseBytes64 (x : Z) : Z := le_val (reverse (le_bytes 8 x)).

(** ** src/PVM/signed_unsigned_transitions.go *)

(** [SignExtend]: the value and whether an error is returned. *)
Definition SignExtend (n x : Z) : Z * bool :=
  match n with
  | 0 => (x, false)
  | 1 => (u64 (s64 (s8 x)), false)
  | 2 => (u64 (s64 (s16 x)), false)
  | 3 =>
      let x := Z.land x 0xFFFFFF in
      (u64 (Z.shiftr (s64 (shl64 x 40)) 40), false)
  | 4 => (u64 (s64 (s32 x)), false)
  | 8 => (x, false)
  | _ => (0, true)
  end.

(** ** Ranges *)

Lemma uN_range n x : 0 <= n -> 0 <= uN n x < 2 ^ n.
Proof. intros. apply Z.mod_pos_bound. by apply Z.pow_pos_nonneg. Qed.

Lemma uN_small n x : 0 <= x < 2 ^ n -> uN n x = x.
Proof. apply Z.mod_small. Qed.

Lemma uN_uN n m x : 0 <= n <= m -> uN n (uN m x) = uN n x.
Proof.
  intros H. unfold uN. apply Z.bits_inj'; intros i Hi.
  rewrite !Z.testbit_mod_pow2 by lia.
  destruct (Z.ltb_spec i n), (Z.ltb_spec i m); simpl; lia || done.
Qed.

Lemma sN_range n x : 0 < n -> - 2 ^ (n - 1) <= sN n x < 2 ^ (n - 1).
Proof.
  intros H. unfold sN.
  pose proof (Z.mod_pos_bound x (2 ^ n) ltac:(apply Z.pow_pos_nonneg; lia)).
  assert (2 ^ n = 2 * 2 ^ (n - 1)) by (rewrite <- Z.pow_succ_r by lia; f_equal; lia).
  zcase; lia.
Qed.

Lemma uN_sN n m x : 0 < n <= m -> uN n (sN m x) = uN n x.
Proof.
  intros H. unfold sN. rewrite <- (uN_uN n m x) by lia. unfold uN.
  zcase; [done|].
  rewrite <- (Z.mod_add (_ - 2 ^ m) (2 ^ (m - n))) by lia.
  f_equal. rewrite <- Z.pow_add_r by lia.
  replace (m - n + n) with m by lia. lia.
Qed.

Lemma sN_id n x : 0 < n -> - 2 ^ (n - 1) <= x < 2 ^ (n - 1) -> sN n x = x.
Proof.
  intros Hn Hx. unfold sN.
  assert (2 ^ n = 2 * 2 ^ (n - 1)) by (rewrite <- Z.pow_succ_r by lia; f_equal; lia).
  destruct (Z.leb_spec 0 x).
  - rewrite Z.mod_small by lia. zcase; lia.
  - replace (x mod 2 ^ n) with (x + 2 ^ n).
    + zcase; lia.
    + rewrite <- (Z.mod_add x 1 (2 ^ n)) by lia. rewrite Z.mod_small; lia.
Qed.

Lemma sN_cong n x : 0 < n -> sN n x mod 2 ^ n = x mod 2 ^ n.
Proof. intros. apply (uN_sN n n). lia. Qed.

Lemma is_u64_u64 x : is_u64 (u64 x).
Proof. by apply uN_range. Qed.

Lemma is_u64_uN n x : 0 <= n <= 64 -> is_u64 (uN n x).
Proof.
  intros H. pose proof (uN_range n x ltac:(lia)).
  pose proof (Z.pow_le_mono_r 2 n 64 ltac:(lia) ltac:(lia)).
  unfold is_u64. lia.
Qed.

(** Bounds of the bitwise operations follow from the bits above 63. *)
Lemma is_u64_bits x : 0 <= x -> (forall i, 64 <= i -> Z.testbit x i = false) -> is_u64 x.
Proof.
  intros H0 H. split; [done|].
  assert (x = x mod 2 ^ 64) as ->; [|apply Z.mod_pos_bound; lia].
  apply Z.bits_inj'; intros i Hi. rewrite Z.testbit_mod_pow2 by lia.
  destruct (Z.ltb_spec i 64); simpl; [done | auto].
Qed.

Lemma u64_testbit_high x i : is_u64 x -> 64 <= i -> Z.testbit x i = false.
Proof.
  intros [? ?] ?. rewrite <- (Z.mod_small x (2 ^ 64)) by lia.
  apply Z.mod_pow2_bits_high. lia.
Qed.

Lemma is_u64_lor x y : is_u64 x -> is_u64 y -> is_u64 (Z.lor x y).
Proof.
  intros Hx Hy. apply is_u64_bits.
  - apply Z.lor_nonneg. unfold is_u64 in *. lia.
  - intros i Hi. rewrite Z.lor_spec, !u64_testbit_high; done.
Qed.

Lemma is_u64_land x y : is_u64 x -> is_u64 y -> is_u64 (Z.land x y).
Proof.
  intros Hx Hy. apply is_u64_bits.
  - apply Z.land_nonneg. unfold is_u64 in *. lia.
  - intros i Hi. rewrite Z.land_spec, !u64_testbit_high; done.
Qed.

Lemma is_u64_lxor x y : is_u64 x -> is_u64 y -> is_u64 (Z.lxor x y).
Proof.
  intros Hx Hy. apply is_u64_bits.
  - apply Z.lxor_nonneg. unfold is_u64 in *. lia.
  - intros i Hi. rewrite Z.lxor_spec, !u64_testbit_high; done.
Qed.

Lemma is_u64_shiftr x k : is_u64 x -> 0 <= k -> is_u64 (Z.shiftr x k).
Proof.
  intros Hx Hk. apply is_u64_bits.
  - apply Z.shiftr_nonneg, Hx.
  - intros i Hi. rewrite Z.shiftr_spec by lia. apply u64_testbit_high; [done | lia].
Qed.

Lemma is_u64_shl64 x k : is_u64 (shl64 x k).
Proof. unfold shl64. case_match; [apply is_u64_u64 | by split]. Qed.

Lemma is_u64_div x y : is_u64 x -> is_u64 y -> is_u64 (x / y).
Proof.
  intros [Hx1 Hx2] [Hy1 Hy2]. destruct (decide (y = 0)) as [->|].
  - rewrite Z.div_0_r. done.
  - split; [apply Z.div_pos; lia|].
    apply Z.le_lt_trans with x; [apply Z.div_le_upper_bound; nia | done].
Qed.

Lemma is_u64_mod x y : is_u64 x -> is_u64 y -> is_u64 (x mod y).
Proof.
  intros [Hx1 Hx2] [Hy1 Hy2]. destruct (decide (y = 0)) as [->|].
  - rewrite Z.mod_0_r. done.
  - pose proof (Z.mod_pos_bound x y ltac:(lia)). split; lia.
Qed.

Lemma is_u64_mul_hi x y : is_u64 x -> is_u64 y -> is_u64 (fst (Mul64 x y)).
Proof.
  intros [? ?] [? ?]. unfold Mul64, is_u64. simpl fst. split.
  - apply Z.div_pos; nia.
  - apply Z.div_lt_upper_bound; nia.
Qed.

Lemma is_u64_SignExtend n x v e : SignExtend n x = (v, e) -> is_u64 x -> is_u64 v.
Proof.
  intros H Hx. unfold SignExtend in H.
  repeat case_match; simplify_eq; done || apply is_u64_u64 || by split.
Qed.

Lemma land_63 k : Z.land k 63 = k mod 64.
Proof. apply (Z.land_ones k 6). lia. Qed.
Lemma land_31 k : Z.land k 31 = k mod 32.
Proof. apply (Z.land_ones k 5). lia. Qed.

Lemma is_u64_RotateLeft64 x k : is_u64 x -> is_u64 (RotateLeft64 x k).
Proof.
  intros Hx. unfold RotateLeft64. rewrite land_63.
  pose proof (Z.mod_pos_bound k 64).
  apply is_u64_lor; [apply is_u64_u64 | apply is_u64_shiftr; [done | lia]].
Qed.

Lemma is_u64_RotateLeft32 x k : is_u64 x -> is_u64 (RotateLeft32 x k).
Proof.
  intros Hx. unfold RotateLeft32. rewrite land_31.
  pose proof (Z.mod_pos_bound k 32).
  apply is_u64_lor; [by apply is_u64_uN | apply is_u64_shiftr; [done | lia]].
Qed.

Lemma is_byte_u8 x : is_byte (u8 x).
Proof. by apply uN_range. Qed.

Lemma le_val_range bs :
  Forall is_byte bs -> 0 <= le_val bs < 2 ^ (8 * Z.of_nat (length bs)).
Proof.
  intros H. unfold le_val.
  pose proof (little_endian_to_Z_bound 8 bs ltac:(lia) H).
  by replace (8 * Z.of_nat (length bs)) with (Z.of_nat (length bs) * 8) by lia.
Qed.

Lemma le_bytes_length n x : 0 <= n -> length (le_bytes n x) = Z.to_nat n.
Proof.
  intros. unfold le_bytes. rewrite <- (Nat2Z.id (length _)).
  f_equal. rewrite length_Z_to_little_endian; lia.
Qed.

Lemma le_bytes_byte n x : 0 <= n -> Forall is_byte (le_bytes n x).
Proof. intros. apply (Z_to_little_endian_bound n 8 x); lia. Qed.

Lemma le_val_bytes n x : 0 <= n -> le_val (le_bytes n x) = x mod 2 ^ (8 * n).
Proof.
  intros. unfold le_val, le_bytes. rewrite little_endian_to_Z_to_little_endian by lia.
  by rewrite Z.mul_comm.
Qed.

Lemma le_bytes_val bs :
  Forall is_byte bs -> le_bytes (Z.of_nat (length bs)) (le_val bs) = bs.
Proof. intros. apply Z_to_little_endian_to_Z; [done | lia | done]. Qed.
