(* ===== verification/ExitReasons.v ===== *)
(** * Exit reasons and the abstract jump rules

    src/PVM/exit_reason.go: the encoding of an exit reason in one [uint64],
    the reference functions [Branch] and [Djump] over an explicit list of
    basic-block starts, and the invalid-address rule for memory accesses. *)

From S2P Require Import Prelude Words.
From stdpp Require Import sorting.
Local Open Scope Z_scope.

(** Memory constants of src/PVM/const.go. *)
Definition ZA : Z := 2.
Definition ZI : Z := 2 ^ 24.
Definition ZP : Z := 2 ^ 12.
Definition ZZ : Z := 2 ^ 16.

(** [ExitReasonType] *)
Definition CONTINUE : Z := 0.
Definition HALT : Z := 1.
Definition PANIC : Z := 2.
Definition OUT_OF_GAS : Z := 3.
Definition PAGE_FAULT : Z := 4.
Definition HOST_CALL : Z := 5.

(** [ExitReason], a [uint64]: the type in the top byte, a value below. *)
Definition ExitContinue : Z := CONTINUE.
Definition ExitHalt : Z := Z.shiftl HALT 56.
Definition ExitPanic : Z := Z.shiftl PANIC 56.
Definition ExitOOG : Z := Z.shiftl OUT_OF_GAS 56.
Definition ExitPageFault : Z := Z.shiftl PAGE_FAULT 56.
Definition ExitHostCall : Z := Z.shiftl HOST_CALL 56.

Definition GetReasonType (e : Z) : Z := u8 (shr e 56).
Definition GetHostCallID (e : Z) : Z := u8 e.
Definition GetPageFaultAddress (e : Z) : Z := u32 e.

(** [IsBasicBlock], [Branch] (A.17), [Djump] (A.18). *)
Fixpoint IsBasicBlock (target : Z) (basicBlocks : list Z) : bool :=
  match basicBlocks with
  | [] => false
  | basicBlock :: rest =>
      if target =? basicBlock then true else IsBasicBlock target rest
  end.

Definition Branch (pc offset : Z) (condition : bool) (basicBlocks : list Z) : Z * Z :=
  let target := u32 (pc + offset) in
  if negb condition then (CONTINUE, pc)
  else if negb (IsBasicBlock target basicBlocks) then (PANIC, pc)
  else (CONTINUE, target).

Definition Djump (target : Z) (jumpTable basicBlocks : list Z) : go (Z * Z) :=
  if target =? 2 ^ 32 - 1 - ZZ + 1 then Ret (HALT, target)
  else if (target =? 0)
          || (u32 (u32 (Z.of_nat (length jumpTable)) * ZA) <? target)
          || negb (target mod ZA =? 0)
  then Ret (PANIC, target)
  else
    t ← zindex jumpTable (target / ZA);
    if negb (IsBasicBlock t basicBlocks) then Ret (PANIC, target)
    else Ret (CONTINUE, t).

(** (A.9): the exit reason of an access with the given invalid addresses.
    The loop over the addresses returns [None] from the early panic. *)
Fixpoint minAddressLoop (addrs : list Z) (minAddress : Z) : option Z :=
  match addrs with
  | [] => Some minAddress
  | addr :: rest =>
      if addr <? ZZ then None
      else minAddressLoop rest (if u32 addr <? minAddress then u32 addr else minAddress)
  end.

Definition ParseMemoryAccessError (invalidAddresses : list Z) : Z :=
  let invalidAddresses := (fun a => a mod 2 ^ 32) <$> invalidAddresses in
  match invalidAddresses with
  | [] => ExitContinue
  | _ =>
      match minAddressLoop invalidAddresses (2 ^ 32 - 1) with
      | None => ExitPanic
      | Some minAddress => Z.lor ExitPageFault minAddress
      end
  end.

(** (A.8): the accessed addresses outside the accessible pages, sorted and
    without repetitions.  A Go [map[int]bool] lookup yields [false] on an
    absent key; [int(addr)/ZP] truncates towards zero. *)
Definition mapBool (m : gmap Z bool) (k : Z) : bool := default false (m !! k).

Fixpoint uniqueAddresses (prev : option Z) (l : list Z) : list Z :=
  match l with
  | [] => []
  | addr :: rest =>
      if decide (prev = Some addr) then uniqueAddresses (Some addr) rest
      else addr :: uniqueAddresses (Some addr) rest
  end.

Definition inaccessible (m : gmap Z bool) (addr : Z) : Prop :=
  mapBool m (Z.quot (s64 addr) ZP) = false.
#[export] Instance inaccessible_dec m addr : Decision (inaccessible m addr).
Proof. unfold inaccessible. apply _. Defined.

Definition GetInvalidAddress (readAddresses writeAddresses : list Z)
    (readableAddresses writeableAddresses : gmap Z bool) : list Z :=
  let invalid := filter (inaccessible readableAddresses) readAddresses
              ++ filter (inaccessible writeableAddresses) writeAddresses in
  uniqueAddresses None (merge_sort Z.le invalid).

(** ** The encoding *)

Lemma reason_or_type t v :
  0 <= t < 256 -> 0 <= v < 2 ^ 56 ->
  GetReasonType (Z.lor (Z.shiftl t 56) v) = t.
Proof.
  intros Ht Hv. unfold GetReasonType, shr.
  rewrite Z.shiftr_lor, Z.shiftr_shiftl_l, Z.shiftl_0_r by lia.
  rewrite (Z.shiftr_div_pow2 v) by lia. rewrite Z.div_small by lia.
  rewrite Z.lor_0_r. by apply uN_small.
Qed.

Lemma low_or_type n t v :
  0 <= n <= 56 -> uN n (Z.lor (Z.shiftl t 56) v) = uN n v.
Proof.
  intros Hn. unfold uN. apply Z.bits_inj'; intros i Hi.
  rewrite !Z.testbit_mod_pow2 by lia. destruct (Z.ltb_spec i n); simpl; [|done].
  by rewrite Z.lor_spec, Z.shiftl_spec_low by lia.
Qed.

(** [minAddressLoop] and [uniqueAddresses] *)

Lemma minAddressLoop_None l m :
  minAddressLoop l m = None <-> exists a, a ∈ l /\ a < ZZ.
Proof.
  revert m. induction l as [|a l IH]; intros m; simpl.
  - split; [done|]. intros (? & H & _). by apply elem_of_nil in H.
  - destruct (Z.ltb_spec a ZZ).
    + split; [|done]. intros _. exists a. split; [apply list_elem_of_here | done].
    + rewrite IH. split.
      * intros (b & ? & ?). exists b. by split; [apply list_elem_of_further|].
      * intros (b & [->|]%elem_of_cons & ?); [lia|eauto].
Qed.

Lemma minAddressLoop_Some l m r :
  Forall (fun a => 0 <= a < 2 ^ 32) l ->
  minAddressLoop l m = Some r ->
  r <= m /\ Forall (fun a => r <= a) l /\ (r = m \/ r ∈ l).
Proof.
  revert m. induction l as [|a l IH]; intros m Hl; simpl; [intros [= <-]; split_and!; [lia | constructor | by left]|].
  destruct (Z.ltb_spec a ZZ); [done|]. intros H1.
  apply Forall_cons in Hl as [Ha Hl].
  apply IH in H1 as (? & ? & Hr); [|done].
  rewrite (uN_small 32 a) in * by lia.
  destruct (Z.ltb_spec a m).
  - split_and!; [lia | by constructor |]. right.
    destruct Hr as [->|]; [apply list_elem_of_here | by apply list_elem_of_further].
  - split_and!; [lia | constructor; [lia|done] |].
    destruct Hr as [->|]; [by left | right; by apply list_elem_of_further].
Qed.

Lemma uniqueAddresses_elem_of p l a :
  a ∈ uniqueAddresses p l -> a ∈ l.
Proof.
  revert p. induction l as [|b l IH]; intros p; simpl; [done|].
  case_decide; [intros; apply list_elem_of_further; eauto|].
  intros [->|]%elem_of_cons; [apply list_elem_of_here|].
  apply list_elem_of_further; eauto.
Qed.

Lemma uniqueAddresses_complete p l a :
  a ∈ l -> p = Some a \/ a ∈ uniqueAddresses p l.
Proof.
  revert p. induction l as [|b l IH]; intros p Ha; simpl; [by apply elem_of_nil in Ha|].
  apply elem_of_cons in Ha as [->|Ha].
  - case_decide; [by left | right; apply list_elem_of_here].
  - destruct (IH (Some b) Ha) as [Hb|Hin].
    + simplify_eq. case_decide; [by left | right; apply list_elem_of_here].
    + right. case_decide; [done | by apply list_elem_of_further].
Qed.

Lemma uniqueAddresses_sorted p l :
  StronglySorted Z.le l -> (forall q, p = Some q -> Forall (Z.le q) l) ->
  StronglySorted Z.lt (uniqueAddresses p l) /\
  (forall q, p = Some q -> Forall (Z.lt q) (uniqueAddresses p l)).
Proof.
  revert p. induction l as [|b l IH]; intros p Hs Hp; simpl.
  { split; [constructor|]. intros; constructor. }
  apply StronglySorted_inv in Hs as [Hs Hb].
  destruct (IH (Some b) Hs) as [IH1 IH2]; [by intros ? [= <-]|].
  specialize (IH2 b eq_refl).
  case_decide as Hd.
  - split; [done|]. intros q ->. by simplify_eq.
  - split; [by constructor|]. intros q ->. specialize (Hp q eq_refl).
    apply Forall_cons in Hp as [Hqb _]. assert (q < b) by (destruct (decide (q = b)); [congruence|lia]).
    constructor; [done|]. eapply Forall_impl; [apply IH2|]. simpl. lia.
Qed.
