(* ===== verification/Opcodes.v ===== *)
(** * Opcodes, bitmasks and instruction lengths

    src/PVM/opcode_info.go (the static opcode table) and the bitmask part of
    src/PVM/program_code.go: [MakeBitMasks], the two start predicates and
    [skip]. *)

From S2P Require Import Prelude Words ExitReasons.
Local Open Scope Z_scope.

(** [InstrCategory]: operand encodings (A.5). *)
Inductive InstrCategory :=
| InstrCatInvalid
| InstrCatNoArg
| InstrCatOneImm
| InstrCatOneRegExtImm
| InstrCatTwoImm
| InstrCatOneOffset
| InstrCatOneRegOneImm
| InstrCatOneRegTwoImm
| InstrCatOneRegImmOff
| InstrCatTwoReg
| InstrCatTwoRegOneImm
| InstrCatTwoRegOneOff
| InstrCatTwoRegTwoImm
| InstrCatThreeReg.

#[export] Instance InstrCategory_eq_dec : EqDecision InstrCategory.
Proof. solve_decision. Defined.

Record OpcodeInfo := OpInfo {
  Name : string;
  Category : InstrCategory;
  IsTerminator : bool
}.

(** The composite literal of [opcodeInfoTable]: index and entry; every other
    index of the [256]-entry array holds the zero value. *)
Definition opcodeInfoTable : list (Z * OpcodeInfo) :=
  [
   (* A.5.1 No-argument (terminators) *)
   (0, OpInfo "trap" InstrCatNoArg true);
   (1, OpInfo "fallthrough" InstrCatNoArg true);
   (* A.5.2 One immediate *)
   (10, OpInfo "ecalli" InstrCatOneImm false);
   (* A.5.3 One reg + extended-width immediate *)
   (20, OpInfo "load_imm_64" InstrCatOneRegExtImm false);
   (* A.5.4 Two immediates (store_imm) *)
   (30, OpInfo "store_imm_u8" InstrCatTwoImm false);
   (31, OpInfo "store_imm_u16" InstrCatTwoImm false);
   (32, OpInfo "store_imm_u32" InstrCatTwoImm false);
   (33, OpInfo "store_imm_u64" InstrCatTwoImm false);
   (* A.5.5 One offset (terminators) *)
   (40, OpInfo "jump" InstrCatOneOffset true);
   (* A.5.6 One reg + one imm *)
   (50, OpInfo "jump_ind" InstrCatOneRegOneImm true);
   (51, OpInfo "load_imm" InstrCatOneRegOneImm false);
   (52, OpInfo "load_u8" InstrCatOneRegOneImm false);
   (53, OpInfo "load_i8" InstrCatOneRegOneImm false);
   (54, OpInfo "load_u16" InstrCatOneRegOneImm false);
   (55, OpInfo "load_i16" InstrCatOneRegOneImm false);
   (56, OpInfo "load_u32" InstrCatOneRegOneImm false);
   (57, OpInfo "load_i32" InstrCatOneRegOneImm false);
   (58, OpInfo "load_u64" InstrCatOneRegOneImm false);
   (59, OpInfo "store_u8" InstrCatOneRegOneImm false);
   (60, OpInfo "store_u16" InstrCatOneRegOneImm false);
   (61, OpInfo "store_u32" InstrCatOneRegOneImm false);
   (62, OpInfo "store_u64" InstrCatOneRegOneImm false);
   (* A.5.7 One reg + two imm (store_imm_ind) *)
   (70, OpInfo "store_imm_ind_u8" InstrCatOneRegTwoImm false);
   (71, OpInfo "store_imm_ind_u16" InstrCatOneRegTwoImm false);
   (72, OpInfo "store_imm_ind_u32" InstrCatOneRegTwoImm false);
   (73, OpInfo "store_imm_ind_u64" InstrCatOneRegTwoImm false);
   (* A.5.8 One reg + imm + offset (terminators) *)
   (80, OpInfo "load_imm_jump" InstrCatOneRegImmOff true);
   (81, OpInfo "branch_eq_imm" InstrCatOneRegImmOff true);
   (82, OpInfo "branch_ne_imm" InstrCatOneRegImmOff true);
   (83, OpInfo "branch_lt_u_imm" InstrCatOneRegImmOff true);
   (84, OpInfo "branch_le_u_imm" InstrCatOneRegImmOff true);
   (85, OpInfo "branch_ge_u_imm" InstrCatOneRegImmOff true);
   (86, OpInfo "branch_gt_u_imm" InstrCatOneRegImmOff true);
   (87, OpInfo "branch_lt_s_imm" InstrCatOneRegImmOff true);
   (88, OpInfo "branch_le_s_imm" InstrCatOneRegImmOff true);
   (89, OpInfo "branch_ge_s_imm" InstrCatOneRegImmOff true);
   (90, OpInfo "branch_gt_s_imm" InstrCatOneRegImmOff true);
   (* A.5.9 Two registers *)
   (100, OpInfo "move_reg" InstrCatTwoReg false);
   (101, OpInfo "sbrk" InstrCatTwoReg false);
   (102, OpInfo "count_set_bits_64" InstrCatTwoReg false);
   (103, OpInfo "count_set_bits_32" InstrCatTwoReg false);
   (104, OpInfo "leading_zero_bits_64" InstrCatTwoReg false);
   (105, OpInfo "leading_zero_bits_32" InstrCatTwoReg false);
   (106, OpInfo "trailing_zero_bits_64" InstrCatTwoReg false);
   (107, OpInfo "trailing_zero_bits_32" InstrCatTwoReg false);
   (108, OpInfo "sign_extend_8" InstrCatTwoReg false);
   (109, OpInfo "sign_extend_16" InstrCatTwoReg false);
   (110, OpInfo "zero_extend_16" InstrCatTwoReg false);
   (111, OpInfo "reverse_bytes" InstrCatTwoReg false);
   (* A.5.10 Two reg + one imm (store_ind, load_ind, arithmetic) *)
   (120, OpInfo "store_ind_u8" InstrCatTwoRegOneImm false);
   (121, OpInfo "store_ind_u16" InstrCatTwoRegOneImm false);
   (122, OpInfo "store_ind_u32" InstrCatTwoRegOneImm false);
   (123, OpInfo "store_ind_u64" InstrCatTwoRegOneImm false);
   (124, OpInfo "load_ind_u8" InstrCatTwoRegOneImm false);
   (125, OpInfo "load_ind_i8" InstrCatTwoRegOneImm false);
   (126, OpInfo "load_ind_u16" InstrCatTwoRegOneImm false);
   (127, OpInfo "load_ind_i16" InstrCatTwoRegOneImm false);
   (128, OpInfo "load_ind_u32" InstrCatTwoRegOneImm false);
   (129, OpInfo "load_ind_i32" InstrCatTwoRegOneImm false);
   (130, OpInfo "load_ind_u64" InstrCatTwoRegOneImm false);
   (131, OpInfo "add_imm_32" InstrCatTwoRegOneImm false);
   (132, OpInfo "and_imm" InstrCatTwoRegOneImm false);
   (133, OpInfo "xor_imm" InstrCatTwoRegOneImm false);
   (134, OpInfo "or_imm" InstrCatTwoRegOneImm false);
   (135, OpInfo "mul_imm_32" InstrCatTwoRegOneImm false);
   (136, OpInfo "set_lt_u_imm" InstrCatTwoRegOneImm false);
   (137, OpInfo "set_lt_s_imm" InstrCatTwoRegOneImm false);
   (138, OpInfo "shlo_l_imm_32" InstrCatTwoRegOneImm false);
   (139, OpInfo "shlo_r_imm_32" InstrCatTwoRegOneImm false);
   (140, OpInfo "shar_r_imm_32" InstrCatTwoRegOneImm false);
   (141, OpInfo "neg_add_imm_32" InstrCatTwoRegOneImm false);
   (142, OpInfo "set_gt_u_imm" InstrCatTwoRegOneImm false);
   (143, OpInfo "set_gt_s_imm" InstrCatTwoRegOneImm false);
   (144, OpInfo "shlo_l_imm_alt_32" InstrCatTwoRegOneImm false);
   (145, OpInfo "shlo_r_imm_alt_32" InstrCatTwoRegOneImm false);
   (146, OpInfo "shar_r_imm_alt_32" InstrCatTwoRegOneImm false);
   (147, OpInfo "cmov_iz_imm" InstrCatTwoRegOneImm false);
   (148, OpInfo "cmov_nz_imm" InstrCatTwoRegOneImm false);
   (149, OpInfo "add_imm_64" InstrCatTwoRegOneImm false);
   (150, OpInfo "mul_imm_64" InstrCatTwoRegOneImm false);
   (151, OpInfo "shlo_l_imm_64" InstrCatTwoRegOneImm false);
   (152, OpInfo "shlo_r_imm_64" InstrCatTwoRegOneImm false);
   (153, OpInfo "shar_r_imm_64" InstrCatTwoRegOneImm false);
   (154, OpInfo "neg_add_imm_64" InstrCatTwoRegOneImm false);
   (155, OpInfo "shlo_l_imm_alt_64" InstrCatTwoRegOneImm false);
   (156, OpInfo "shlo_r_imm_alt_64" InstrCatTwoRegOneImm false);
   (157, OpInfo "shar_r_imm_alt_64" InstrCatTwoRegOneImm false);
   (158, OpInfo "rot_r_64_imm" InstrCatTwoRegOneImm false);
   (159, OpInfo "rot_r_64_imm_alt" InstrCatTwoRegOneImm false);
   (160, OpInfo "rot_r_32_imm" InstrCatTwoRegOneImm false);
   (161, OpInfo "rot_r_32_imm_alt" InstrCatTwoRegOneImm false);
   (* A.5.11 Two reg + one offset (terminators) *)
   (170, OpInfo "branch_eq" InstrCatTwoRegOneOff true);
   (171, OpInfo "branch_ne" InstrCatTwoRegOneOff true);
   (172, OpInfo "branch_lt_u" InstrCatTwoRegOneOff true);
   (173, OpInfo "branch_lt_s" InstrCatTwoRegOneOff true);
   (174, OpInfo "branch_ge_u" InstrCatTwoRegOneOff true);
   (175, OpInfo "branch_ge_s" InstrCatTwoRegOneOff true);
   (* A.5.12 Two reg + two imm (terminator) *)
   (180, OpInfo "load_imm_jump_ind" InstrCatTwoRegTwoImm true);
   (* A.5.13 Three registers *)
   (190, OpInfo "add_32" InstrCatThreeReg false);
   (191, OpInfo "sub_32" InstrCatThreeReg false);
   (192, OpInfo "mul_32" InstrCatThreeReg false);
   (193, OpInfo "div_u_32" InstrCatThreeReg false);
   (194, OpInfo "div_s_32" InstrCatThreeReg false);
   (195, OpInfo "rem_u_32" InstrCatThreeReg false);
   (196, OpInfo "rem_s_32" InstrCatThreeReg false);
   (197, OpInfo "shlo_l_32" InstrCatThreeReg false);
   (198, OpInfo "shlo_r_32" InstrCatThreeReg false);
   (199, OpInfo "shar_r_32" InstrCatThreeReg false);
   (200, OpInfo "add_64" InstrCatThreeReg false);
   (201, OpInfo "sub_64" InstrCatThreeReg false);
   (202, OpInfo "mul_64" InstrCatThreeReg false);
   (203, OpInfo "div_u_64" InstrCatThreeReg false);
   (204, OpInfo "div_s_64" InstrCatThreeReg false);
   (205, OpInfo "rem_u_64" InstrCatThreeReg false);
   (206, OpInfo "rem_s_64" InstrCatThreeReg false);
   (207, OpInfo "shlo_l_64" InstrCatThreeReg false);
   (208, OpInfo "shlo_r_64" InstrCatThreeReg false);
   (209, OpInfo "shar_r_64" InstrCatThreeReg false);
   (210, OpInfo "and" InstrCatThreeReg false);
   (211, OpInfo "xor" InstrCatThreeReg false);
   (212, OpInfo "or" InstrCatThreeReg false);
   (213, OpInfo "mul_upper_s_s" InstrCatThreeReg false);
   (214, OpInfo "mul_upper_u_u" InstrCatThreeReg false);
   (215, OpInfo "mul_upper_s_u" InstrCatThreeReg false);
   (216, OpInfo "set_lt_u" InstrCatThreeReg false);
   (217, OpInfo "set_lt_s" InstrCatThreeReg false);
   (218, OpInfo "cmov_iz" InstrCatThreeReg false);
   (219, OpInfo "cmov_nz" InstrCatThreeReg false);
   (220, OpInfo "rot_l_64" InstrCatThreeReg false);
   (221, OpInfo "rot_l_32" InstrCatThreeReg false);
   (222, OpInfo "rot_r_64" InstrCatThreeReg false);
   (223, OpInfo "rot_r_32" InstrCatThreeReg false);
   (224, OpInfo "and_inv" InstrCatThreeReg false);
   (225, OpInfo "or_inv" InstrCatThreeReg false);
   (226, OpInfo "xnor" InstrCatThreeReg false);
   (227, OpInfo "max" InstrCatThreeReg false);
   (228, OpInfo "max_u" InstrCatThreeReg false);
   (229, OpInfo "min" InstrCatThreeReg false);
   (230, OpInfo "min_u" InstrCatThreeReg false)  ].

(** Indexing an array given by a keyed composite literal. *)
Fixpoint keyed {A} (l : list (Z * A)) (i : Z) : option A :=
  match l with
  | [] => None
  | (k, a) :: l => if k =? i then Some a else keyed l i
  end.

Definition GetOpcodeInfo (op : Z) : OpcodeInfo :=
  default (OpInfo "" InstrCatInvalid false) (keyed opcodeInfoTable op).

Definition IsValidOpcode (op : Z) : bool :=
  negb (bool_decide (Category (GetOpcodeInfo op) = InstrCatInvalid)).
Definition IsBlockTerminator (op : Z) : bool := IsTerminator (GetOpcodeInfo op).
Definition OpcodeName (op : Z) : string := Name (GetOpcodeInfo op).

(** ** Bitmasks *)

(** Bit 0x01: start of an instruction; bit 0x02: start of a basic block. *)
Abbreviation Bitmask := (list Z).

Definition IsStartOfInstruction (bitmask : Bitmask) (addr : Z) : bool :=
  match zlookup bitmask addr with Some b => 0 <? b | None => false end.

Definition IsStartOfBasicBlock (bitmask : Bitmask) (addr : Z) : bool :=
  match zlookup bitmask addr with Some b => b =? 3 | None => false end.

(** The loop of [MakeBitMasks] from index [i] with the last instruction
    start [prev]; the result lists [bitmask[i:]]. *)
Fixpoint makeBitMasksLoop (instruction : gslice) (bitmaskData : list Z)
    (n : nat) (i prev : Z) : go Bitmask :=
  match n with
  | O => Ret []
  | S n =>
      d ← zindex bitmaskData (i / 8);
      if 0 <? Z.land d (u8 (Z.shiftl 1 (i mod 8))) then
        start ← (if i =? 0 then Ret true
                 else op ← sindex instruction prev; Ret (IsBlockTerminator op));
        rest ← makeBitMasksLoop instruction bitmaskData n (i + 1) i;
        Ret ((if start : bool then Z.lor 1 2 else 1) :: rest)
      else
        rest ← makeBitMasksLoop instruction bitmaskData n (i + 1) prev;
        Ret (0 :: rest)
  end.

(** [None] is the [ExitPanic] result. *)
Definition MakeBitMasks (instruction : gslice) (bitmaskData : list Z) : go (option Bitmask) :=
  let instSize := slen instruction in
  let bitmaskSize := instSize / 8 + (if 0 <? instSize mod 8 then 1 else 0) in
  if negb (Z.of_nat (length bitmaskData) =? bitmaskSize) then Ret None
  else
    bitmask ← makeBitMasksLoop instruction bitmaskData (Z.to_nat instSize) 0 0;
    Ret (Some bitmask).

(** The loop of [skip] (A.3): the first [j] from the given one with
    [pc + j] past the end or at the start of an instruction. *)
Fixpoint skipLoop (fuel : nat) (pc j : Z) (bitmask : Bitmask) : Z :=
  match fuel with
  | O => j
  | S fuel =>
      if pc + j <? Z.of_nat (length bitmask) then
        if IsStartOfInstruction bitmask (j + pc) then j
        else skipLoop fuel pc (j + 1) bitmask
      else j
  end.

Definition skip (pc : Z) (bitmask : Bitmask) : Z :=
  let j := skipLoop (length bitmask) pc 1 bitmask in
  u32 (Z.min 24 (j - 1)).

(** ** Lemmas *)

Lemma keyed_In {A} (l : list (Z * A)) i a : keyed l i = Some a -> (i, a) ∈ l.
Proof.
  induction l as [|[k b] l IH]; simpl; [done|].
  destruct (Z.eqb_spec k i) as [->|]; intros; simplify_eq.
  - apply list_elem_of_here.
  - apply list_elem_of_further; auto.
Qed.

Lemma keyed_None {A} (l : list (Z * A)) i : i ∉ l.*1 -> keyed l i = None.
Proof.
  induction l as [|[k b] l IH]; simpl; [done|]. intros H.
  apply not_elem_of_cons in H as [? ?]. destruct (Z.eqb_spec k i); [congruence | auto].
Qed.

Definition validOpcodes : list Z := Eval vm_compute in opcodeInfoTable.*1.

Lemma valid_opcode_elem op : IsValidOpcode op = true -> op ∈ validOpcodes.
Proof.
  intros H. destruct (decide (op ∈ validOpcodes)) as [|Hn]; [done|].
  unfold IsValidOpcode, GetOpcodeInfo in H. by rewrite keyed_None in H.
Qed.

(** A property of every valid opcode follows from its instances. *)
Lemma valid_opcode_ind (P : Z -> Prop) :
  Forall P validOpcodes -> forall op, IsValidOpcode op = true -> P op.
Proof. intros H op Hop. eapply Forall_forall; [apply H | by apply valid_opcode_elem]. Qed.

Lemma terminator_valid op : IsBlockTerminator op = true -> IsValidOpcode op = true.
Proof.
  unfold IsBlockTerminator, IsValidOpcode, GetOpcodeInfo.
  destruct (keyed opcodeInfoTable op) as [info|] eqn:E; [|done]. simpl. intros _.
  apply keyed_In in E.
  assert (Forall (fun x => bool_decide (Category x.2 = InstrCatInvalid) = false) opcodeInfoTable)
    as Hall by (repeat constructor).
  eapply (proj1 (Forall_forall _ _)) in Hall; [|apply E]. simpl in Hall. by rewrite Hall.
Qed.

Lemma skipLoop_spec fuel pc j bm :
  0 <= pc -> 1 <= j -> Z.of_nat (length bm) <= pc + j + Z.of_nat fuel ->
  let r := skipLoop fuel pc j bm in
  j <= r /\
  (forall k, j <= k < r -> pc + k < Z.of_nat (length bm) /\ IsStartOfInstruction bm (pc + k) = false) /\
  (Z.of_nat (length bm) <= pc + r \/ IsStartOfInstruction bm (pc + r) = true).
Proof.
  revert j. induction fuel as [|fuel IH]; intros j Hpc Hj Hlen; simpl.
  - split_and!; [lia | lia | left; lia].
  - destruct (Z.ltb_spec (pc + j) (Z.of_nat (length bm))); [|split_and!; [lia|lia|left; lia]].
    rewrite (Z.add_comm j pc).
    destruct (IsStartOfInstruction bm (pc + j)) eqn:Hs; [split_and!; [lia|lia|by right]|].
    destruct (IH (j + 1)) as (? & Hk & ?); [lia..|].
    split_and!; [lia| |done]. intros k Hkr.
    destruct (decide (k = j)) as [->|]; [done | apply Hk; lia].
Qed.

Lemma makeBitMasksLoop_length inst bd n i prev bm :
  makeBitMasksLoop inst bd n i prev = Ret bm -> length bm = n.
Proof.
  revert i prev bm. induction n as [|n IH]; intros i prev bm H; simpl in H; go_inv; [done|].
  case_match; go_inv; simpl; f_equal; eauto.
Qed.
