(* ===== verification/Memory.v ===== *)
(** * Paged memory

    src/PVM/memory.go, the byte-level accesses [storeIntoMemory] and
    [loadFromMemory] of src/PVM/decode.go, the range checks and [readRAM] of
    src/PVM/argument_invocation.go.  A page is its 4096 bytes and an access
    mode; pages are held by one map only, so a page pointer is modelled by
    the page value and an update by a map insertion. *)

From S2P Require Import Prelude Words ExitReasons.
Local Open Scope Z_scope.

Inductive MemoryAccess := MemoryInaccessible | MemoryReadOnly | MemoryReadWrite.
#[export] Instance MemoryAccess_eq_dec : EqDecision MemoryAccess.
Proof. solve_decision. Defined.

Record Page := MkPage { Value : list Z; Access : MemoryAccess }.

Record Memory := MkMemory {
  Pages : gmap Z Page;
  heapPointer : Z;
  heapLimit : Z
}.

Definition set_page (m : Memory) (n : Z) (p : Page) : Memory :=
  MkMemory (<[n := p]> (Pages m)) (heapPointer m) (heapLimit m).

Definition GetPageAccess (m : Memory) (index : Z) : MemoryAccess :=
  match Pages m !! index with
  | None => MemoryInaccessible
  | Some page => Access page
  end.

(** [m.Pages[n].Value]: a nil dereference when the page is absent. *)
Definition pageValue (m : Memory) (n : Z) : go (list Z) :=
  match Pages m !! n with Some p => Ret (Value p) | None => Crash end.

(** [Memory.Read]: the loop copies from the current page the bytes that fit
    in what is left of the buffer.  Every iteration on a non-empty page
    copies at least one byte, so [offset] iterations are enough. *)
Fixpoint readLoop (fuel : nat) (m : Memory) (pageNumber pageIndex remaining : Z)
    : go (list Z) :=
  if remaining <=? 0 then Ret []
  else
    match fuel with
    | O => Crash
    | S fuel =>
        value ← pageValue m pageNumber;
        src ← lslice value pageIndex (Z.of_nat (length value));
        let chunk := take (Z.to_nat remaining) src in
        rest ← readLoop fuel m (u32 (pageNumber + 1)) 0
                 (remaining - Z.of_nat (length chunk));
        Ret (chunk ++ rest)
    end.

Definition Read (m : Memory) (start offset : Z) : go (list Z) :=
  if offset =? 0 then Ret []
  else readLoop (Z.to_nat offset) m (u32 (start / ZP)) (start mod ZP) offset.

(** [Memory.Write]. *)
Fixpoint writeLoop (fuel : nat) (m : Memory) (pageNumber pageIndex : Z)
    (data : list Z) : go Memory :=
  match data with
  | [] => Ret m
  | _ =>
      match fuel with
      | O => Crash
      | S fuel =>
          match Pages m !! pageNumber with
          | None => Crash
          | Some p =>
              value ← copy_at (Value p) pageIndex data;
              let n := Nat.min (length data) (length (Value p) - Z.to_nat pageIndex) in
              writeLoop fuel (set_page m pageNumber (MkPage value (Access p)))
                (u32 (pageNumber + 1)) 0 (drop n data)
          end
      end
  end.

Definition Write (m : Memory) (start : Z) (data : list Z) : go Memory :=
  match data with
  | [] => Ret m
  | _ => writeLoop (length data) m (u32 (start / ZP)) (start mod ZP) data
  end.

(** ** src/PVM/argument_invocation.go: range checks *)

(** The page loop [for p := startPage; p <= endPage; p++]. *)
Fixpoint pagesAll (n : nat) (ok : MemoryAccess -> bool) (m : Memory) (p : Z) : bool :=
  match n with
  | O => true
  | S n => if ok (GetPageAccess m p) then pagesAll n ok m (p + 1) else false
  end.

Definition rangeCheck (ok : MemoryAccess -> bool) (start offset : Z) (m : Memory) : bool :=
  if offset =? 0 then true
  else if (2 ^ 32 <? offset) || (2 ^ 32 - offset <? start) then false
  else
    let startPage := u32 (start / ZP) in
    let endPage := u32 ((start + offset - 1) / ZP) in
    pagesAll (Z.to_nat (endPage - startPage + 1)) ok m startPage.

Definition isReadable : Z -> Z -> Memory -> bool :=
  rangeCheck (fun a => negb (bool_decide (a = MemoryInaccessible))).
Definition isWriteable : Z -> Z -> Memory -> bool :=
  rangeCheck (fun a => bool_decide (a = MemoryReadWrite)).

Definition checkOverflow (a b : Z) : Z * bool :=
  let '(hi, lo) := Mul64 a b in (lo, negb (hi =? 0)).

(** The page loop of [readRAM]; [None] is the [(nil, false)] result. *)
Fixpoint readRAMLoop (n : nat) (m : Memory) (p start fin : Z) : option (list Z) :=
  match n with
  | O => Some []
  | S n =>
      match Pages m !! p with
      | None => None
      | Some page =>
          if Z.of_nat (length (Value page)) =? 0 then None
          else
            let pageStartAddr := p * ZP in
            let pageEndAddr := pageStartAddr + ZP in
            let s := Z.max start pageStartAddr in
            let e := Z.min fin pageEndAddr in
            if e <=? s then readRAMLoop n m (p + 1) start fin
            else
              let offS := s - pageStartAddr in
              let offE := e - pageStartAddr in
              if Z.of_nat (length (Value page)) <? offE then None
              else
                out ← readRAMLoop n m (p + 1) start fin;
                Some (take (Z.to_nat (offE - offS)) (drop (Z.to_nat offS) (Value page)) ++ out)
      end
  end.

Definition readRAM (start length_ : Z) (m : Memory) : option (list Z) :=
  if length_ =? 0 then Some []
  else
    let fin := u64 (start + length_) in
    let startPage := u32 (start / ZP) in
    let endPage := u32 (u64 (fin - 1) / ZP) in
    out ← readRAMLoop (Z.to_nat (endPage - startPage + 1)) m startPage start fin;
    if Z.of_nat (length out) =? length_ then Some out else None.

(** ** src/PVM/decode.go: accesses of the load and store instructions *)

(** The bytes the [switch offset] of [storeIntoMemory] puts in [buf[:offset]]
    ([buf] stays zero for any other offset). *)
Definition storeBytes (offset immediate : Z) : list Z :=
  match offset with
  | 1 => [u8 immediate]
  | 2 => le_bytes 2 (u16 immediate)
  | 4 => le_bytes 4 (u32 immediate)
  | 8 => le_bytes 8 immediate
  | _ => replicate (Z.to_nat offset) 0
  end.

Definition storeIntoMemory (mem : Memory) (offset memIndex immediate : Z)
    : go (Memory * Z) :=
  if memIndex <? 2 ^ 16 then Ret (mem, ExitPanic)
  else
    let pageNum := memIndex / ZP in
    let pageIndex := memIndex mod ZP in
    let fault := Z.lor ExitPageFault memIndex in
    match Pages mem !! pageNum with
    | None => Ret (mem, fault)
    | Some page =>
        if negb (bool_decide (Access page = MemoryReadWrite)) then Ret (mem, fault)
        else
          let src := storeBytes offset immediate in
          if u32 (pageIndex + offset) <=? ZP then
            value ← copy_at (Value page) pageIndex src;
            Ret (set_page mem pageNum (MkPage value (Access page)), ExitContinue)
          else
            match Pages mem !! (pageNum + 1) with
            | None => Ret (mem, fault)
            | Some nextPage =>
                if negb (bool_decide (Access nextPage = MemoryReadWrite)) then Ret (mem, fault)
                else
                  let firstLen := ZP - pageIndex in
                  src1 ← lslice src 0 firstLen;
                  value ← copy_at (Value page) pageIndex src1;
                  src2 ← lslice src firstLen (Z.of_nat (length src));
                  let nextValue := gcopy (Value nextPage) src2 in
                  Ret (set_page (set_page mem pageNum (MkPage value (Access page)))
                         (pageNum + 1) (MkPage nextValue (Access nextPage)), ExitContinue)
            end
    end.

(** The cross-page path of [loadFromMemory]: eight zero bytes, of which the
    first [firstLen] come from [page] and the rest from the next page. *)
Definition loadCrossPage (mem : Memory) (page : Page) (pageNum pageIndex offset vx : Z)
    : go (Z * Z) :=
  match Pages mem !! (pageNum + 1) with
  | None => Ret (0, Z.lor ExitPageFault vx)
  | Some nextPage =>
      let buf := replicate 8 0 in
      let firstLen := u32 (ZP - pageIndex) in
      a ← lslice (Value page) pageIndex (Z.of_nat (length (Value page)));
      dst1 ← lslice buf 0 firstLen;
      let buf := gcopy dst1 a ++ drop (Z.to_nat firstLen) buf in
      dst2 ← lslice buf firstLen offset;
      b ← lslice (Value nextPage) 0 (u32 (offset - firstLen));
      let buf := take (Z.to_nat firstLen) buf ++ gcopy dst2 b ++ drop (Z.to_nat offset) buf in
      match offset with
      | 2 => Ret (le_val (take 2 buf), ExitContinue)
      | 4 => Ret (le_val (take 4 buf), ExitContinue)
      | 8 => Ret (le_val buf, ExitContinue)
      | _ => Ret (0, ExitPanic)
      end
  end.

Definition loadFromMemory (mem : Memory) (offset vx : Z) : go (Z * Z) :=
  if vx <? 2 ^ 16 then Ret (0, ExitPanic)
  else
    let pageNum := vx / ZP in
    let pageIndex := vx mod ZP in
    match Pages mem !! pageNum with
    | None => Ret (0, Z.lor ExitPageFault vx)
    | Some page =>
        let slow := loadCrossPage mem page pageNum pageIndex offset vx in
        if u32 (pageIndex + offset) <=? ZP then
          v ← lslice (Value page) pageIndex (u32 (pageIndex + offset));
          match offset with
          | 1 => b ← zindex v 0; Ret (b, ExitContinue)
          | 2 => Ret (le_val (take 2 v), ExitContinue)
          | 4 => Ret (le_val (take 4 v), ExitContinue)
          | 8 => Ret (le_val (take 8 v), ExitContinue)
          | _ => slow
          end
        else slow
    end.
