(* ===== verification/MemorySpec.v ===== *)
(** * Memory: byte-level specification

    The abstract memory is the partial map [mem_byte] from addresses to
    bytes, with the access mode of the page of an address.  The paged
    operations of Memory.v refine it: loads and reads return the bytes of
    the map, stores and writes change exactly the bytes of their range. *)

From stdpp Require Import sorting.
From S2P Require Import Prelude Words ExitReasons Memory.
Local Open Scope Z_scope.

(** ** Abstract memory *)

Definition mem_byte (m : Memory) (a : Z) : option Z :=
  p ← Pages m !! (a / ZP); zlookup (Value p) (a mod ZP).

Definition mem_access (m : Memory) (a : Z) : MemoryAccess := GetPageAccess m (a / ZP).

Fixpoint mem_bytes (m : Memory) (a : Z) (n : nat) : option (list Z) :=
  match n with
  | O => Some []
  | S n => b ← mem_byte m a; bs ← mem_bytes m (a + 1) n; Some (b :: bs)
  end.

(** The byte at [b] after writing [data] at [a]. *)
Definition over (a : Z) (data : list Z) (f : Z -> option Z) (b : Z) : option Z :=
  if decide (a <= b < a + Z.of_nat (length data)) then zlookup data (b - a) else f b.

(** Well-formed memory: every page holds [ZP] bytes. *)
Definition wf_page (p : Page) : Prop :=
  length (Value p) = Z.to_nat ZP /\ Forall is_byte (Value p).
Definition wf_mem (m : Memory) : Prop := map_Forall (fun _ p => wf_page p) (Pages m).

(** ** Addresses and pages *)

Lemma addr_split a : a = (a / ZP) * ZP + a mod ZP /\ 0 <= a mod ZP < ZP.
Proof. unfold ZP. pose proof (Z.div_mod a (2^12)). pose proof (Z.mod_pos_bound a (2^12)). lia. Qed.

Lemma page_of k i : 0 <= i < ZP -> (k * ZP + i) / ZP = k.
Proof. intros. unfold ZP in *. rewrite Z.div_add_l by lia. rewrite Z.div_small by lia. lia. Qed.
Lemma offset_of k i : 0 <= i < ZP -> (k * ZP + i) mod ZP = i.
Proof. intros. unfold ZP in *. rewrite Z.add_comm, Z.mod_add by lia. by apply Z.mod_small. Qed.

Lemma wf_mem_lookup m k p : wf_mem m -> Pages m !! k = Some p -> wf_page p.
Proof. intros H Hk. exact (H k p Hk). Qed.

Lemma wf_set_page m k p : wf_mem m -> wf_page p -> wf_mem (set_page m k p).
Proof. intros. by apply map_Forall_insert_2. Qed.

Lemma mem_byte_page m k p i :
  Pages m !! k = Some p -> 0 <= i < ZP -> mem_byte m (k * ZP + i) = zlookup (Value p) i.
Proof. intros Hk Hi. unfold mem_byte. rewrite page_of, offset_of, Hk by done. done. Qed.

Lemma zlookup_drop_take (l : list Z) i b :
  zlookup l i = Some b -> drop (Z.to_nat i) l = b :: drop (Z.to_nat (i + 1)) l.
Proof.
  intros H. pose proof (zlookup_Some _ _ _ H).
  unfold zlookup in H. destruct (Z.ltb_spec i 0); [lia|].
  rewrite (drop_S _ _ _ H). do 2 f_equal. lia.
Qed.

Lemma mem_bytes_page m k p i n :
  Pages m !! k = Some p -> wf_page p -> 0 <= i -> i + Z.of_nat n <= ZP ->
  mem_bytes m (k * ZP + i) n = Some (take n (drop (Z.to_nat i) (Value p))).
Proof.
  intros Hk [Hlen _]. revert i. induction n as [|n IH]; intros i Hi Hn; [done|].
  cbn [mem_bytes]. rewrite (mem_byte_page m k p i) by (done || lia).
  destruct (zlookup_is_Some (Value p) i) as [b Hb]; [lia|].
  rewrite Hb. cbn. replace (k * ZP + i + 1) with (k * ZP + (i + 1)) by lia.
  rewrite IH by lia. cbn. by rewrite (zlookup_drop_take _ _ _ Hb).
Qed.

Lemma mem_bytes_app m a n1 n2 :
  mem_bytes m a (n1 + n2) =
    (b1 ← mem_bytes m a n1; b2 ← mem_bytes m (a + Z.of_nat n1) n2; Some (b1 ++ b2)).
Proof.
  revert a. induction n1 as [|n1 IH]; intros a.
  - cbn. rewrite Z.add_0_r. by destruct (mem_bytes m a n2).
  - cbn [mem_bytes Nat.add]. rewrite IH.
    replace (a + 1 + Z.of_nat n1) with (a + Z.of_nat (S n1)) by lia.
    destruct (mem_byte m a); [|done]. cbn.
    destruct (mem_bytes m (a + 1) n1); [|done]. cbn.
    by destruct (mem_bytes m (a + Z.of_nat (S n1)) n2).
Qed.

Lemma mem_bytes_None m k i n :
  Pages m !! k = None -> 0 <= i < ZP -> (0 < n)%nat -> mem_bytes m (k * ZP + i) n = None.
Proof.
  intros Hk Hi Hn. destruct n as [|n]; [lia|]. cbn [mem_bytes].
  unfold mem_byte. by rewrite page_of, Hk by done.
Qed.

Lemma mem_bytes_length m a n bs : mem_bytes m a n = Some bs -> length bs = n.
Proof.
  revert a bs. induction n as [|n IH]; intros a bs; cbn; [by intros [= <-]|].
  destruct (mem_byte m a); [|done]. cbn. destruct (mem_bytes m (a + 1) n) eqn:E; [|done].
  intros [= <-]. simpl. f_equal. eauto.
Qed.

Lemma mem_byte_byte m a b : wf_mem m -> mem_byte m a = Some b -> is_byte b.
Proof.
  intros Hm. unfold mem_byte. destruct (Pages m !! _) as [p|] eqn:E; [|done]. simpl.
  intros H%zlookup_elem_of. destruct (wf_mem_lookup _ _ _ Hm E) as [_ Hb].
  by apply (proj1 (Forall_forall _ _) Hb).
Qed.

Lemma mem_bytes_bytes m a n bs : wf_mem m -> mem_bytes m a n = Some bs -> Forall is_byte bs.
Proof.
  intros Hm. revert a bs. induction n as [|n IH]; intros a bs; cbn; [by intros [= <-]|].
  destruct (mem_byte m a) eqn:Eb; [|done]. cbn.
  destruct (mem_bytes m (a + 1) n) eqn:E; [|done].
  intros [= <-]. constructor; [by eapply mem_byte_byte | eauto].
Qed.

(** The bytes read depend on [mem_byte] only. *)
Lemma mem_bytes_ext m m' a n :
  (forall b, a <= b < a + Z.of_nat n -> mem_byte m' b = mem_byte m b) ->
  mem_bytes m' a n = mem_bytes m a n.
Proof.
  revert a. induction n as [|n IH]; intros a H; [done|]. cbn.
  rewrite H by lia. destruct (mem_byte m a); [|done]. cbn. rewrite IH; [done|].
  intros b Hb. apply H. lia.
Qed.

Lemma zlookup_cons_S (x : Z) l i : 0 < i -> zlookup (x :: l) i = zlookup l (i - 1).
Proof.
  intros. unfold zlookup. destruct (Z.ltb_spec i 0), (Z.ltb_spec (i - 1) 0); try lia.
  by replace (Z.to_nat i) with (S (Z.to_nat (i - 1))) by lia.
Qed.

Lemma mem_bytes_over m m' a data :
  (forall b, mem_byte m' b = over a data (mem_byte m) b) ->
  mem_bytes m' a (length data) = Some data.
Proof.
  intros H.
  assert (forall pre suf, data = pre ++ suf ->
    mem_bytes m' (a + Z.of_nat (length pre)) (length suf) = Some suf) as Hgen.
  { intros pre suf. revert pre. induction suf as [|x suf IH]; intros pre Hd; [done|].
    cbn. rewrite H. unfold over. rewrite Hd.
    rewrite length_app. cbn [length].
    rewrite decide_True by lia.
    replace (a + Z.of_nat (length pre) - a) with (Z.of_nat (length pre)) by lia.
    unfold zlookup. destruct (Z.ltb_spec (Z.of_nat (length pre)) 0); [lia|].
    rewrite Nat2Z.id, list_lookup_middle by done. cbn.
    specialize (IH (pre ++ [x])). rewrite length_app in IH. cbn [length] in IH.
    replace (a + Z.of_nat (length pre) + 1) with (a + Z.of_nat (length pre + 1)) by lia.
    rewrite IH; [done|]. by rewrite <- app_assoc. }
  specialize (Hgen [] data eq_refl). cbn in Hgen. by rewrite Z.add_0_r in Hgen.
Qed.

(** ** Loads *)

Lemma lslice_ok v a b :
  0 <= a <= b -> b <= Z.of_nat (length v) ->
  lslice v a b = Ret (take (Z.to_nat (b - a)) (drop (Z.to_nat a) v)).
Proof.
  intros. unfold lslice.
  destruct (Z.leb_spec 0 a), (Z.leb_spec a b), (Z.leb_spec b (Z.of_nat (length v)));
    simpl; lia || done.
Qed.

Definition access_size (n : Z) : Prop := n = 1 \/ n = 2 \/ n = 4 \/ n = 8.

Lemma le_val_single b : is_byte b -> le_val [b] = b.
Proof. intros. unfold le_val. cbn. apply Z.lor_0_r. Qed.

(** The pages an access of [n] bytes at [a] touches: one, or two. *)
Lemma mem_bytes_cases m a n :
  wf_mem m -> 0 < n <= ZP ->
  let i := a mod ZP in
  let n1 := Z.to_nat (ZP - i) in
  let n2 := Z.to_nat (n - (ZP - i)) in
  mem_bytes m a (Z.to_nat n) =
    if i + n <=? ZP then
      p ← Pages m !! (a / ZP); Some (take (Z.to_nat n) (drop (Z.to_nat i) (Value p)))
    else
      p ← Pages m !! (a / ZP);
      q ← Pages m !! (a / ZP + 1);
      Some (drop (Z.to_nat i) (Value p) ++ take n2 (Value q)).
Proof.
  intros Hm Hn i n1 n2. subst i n1 n2. destruct (addr_split a) as [Ha Hi]. zcase.
  - destruct (Pages m !! (a / ZP)) as [p|] eqn:E.
    + rewrite Ha at 1. rewrite (mem_bytes_page m (a / ZP) p) by (done || lia || by eapply wf_mem_lookup). done.
    + rewrite Ha at 1. by rewrite mem_bytes_None by (done || lia).
  - replace (Z.to_nat n) with (Z.to_nat (ZP - a mod ZP) + Z.to_nat (n - (ZP - a mod ZP)))%nat by lia.
    rewrite mem_bytes_app.
    replace (a + Z.of_nat (Z.to_nat (ZP - a mod ZP))) with ((a / ZP + 1) * ZP + 0) by lia.
    destruct (Pages m !! (a / ZP)) as [p|] eqn:E.
    + pose proof (wf_mem_lookup _ _ _ Hm E) as [Hp ?].
      rewrite Ha at 1. rewrite (mem_bytes_page m (a / ZP) p) by (done || lia || by eapply wf_mem_lookup).
      destruct (Pages m !! (a / ZP + 1)) as [q|] eqn:E'.
      * rewrite (mem_bytes_page m (a / ZP + 1) q) by (done || lia || by eapply wf_mem_lookup).
        cbn. rewrite drop_0, (take_ge (drop _ _)); [done|]. rewrite length_drop. lia.
      * rewrite mem_bytes_None by (done || (unfold ZP in *; lia)). done.
    + rewrite Ha at 1. by rewrite (mem_bytes_None m (a / ZP)) by (done || lia).
Qed.

Lemma le_val_byte_in (l : list Z) i b :
  zlookup l i = Some b -> is_byte b -> le_val (take 1 (drop (Z.to_nat i) l)) = b.
Proof. intros H Hb. rewrite (zlookup_drop_take _ _ _ H). cbn [take]. by rewrite take_0, le_val_single. Qed.

Lemma load_refines m n a :
  wf_mem m -> access_size n -> 2 ^ 16 <= a < 2 ^ 32 ->
  loadFromMemory m n a =
    match mem_bytes m a (Z.to_nat n) with
    | Some bs => Ret (le_val bs, ExitContinue)
    | None => Ret (0, Z.lor ExitPageFault a)
    end.
Proof.
  intros Hm Hn Ha. unfold loadFromMemory. destruct (Z.ltb_spec a (2 ^ 16)); [lia|].
  assert (0 < n <= 8) as Hn8 by (unfold access_size in Hn; lia).
  rewrite mem_bytes_cases by (done || (unfold ZP in *; lia)).
  destruct (addr_split a) as [_ Hi].
  rewrite (uN_small 32 (a mod ZP + n)) by (unfold ZP in *; lia).
  destruct (Pages m !! (a / ZP)) as [p|] eqn:E; [|by destruct (a mod ZP + n <=? ZP)].
  destruct (wf_mem_lookup _ _ _ Hm E) as [Hlen Hbytes].
  destruct (Z.leb_spec (a mod ZP + n) ZP).
  - rewrite lslice_ok by (unfold ZP in *; lia).
    replace (a mod ZP + n - a mod ZP) with n by lia. cbn [mbind option_bind go_bind].
    assert (Hsmall : forall k : nat, Z.of_nat k = n ->
              take k (take (Z.to_nat n) (drop (Z.to_nat (a mod ZP)) (Value p)))
              = take (Z.to_nat n) (drop (Z.to_nat (a mod ZP)) (Value p)))
      by (intros k <-; by rewrite Nat2Z.id, take_take, Nat.min_id).
    destruct Hn as [-> | [-> | [-> | ->]]]; cbn [mbind go_bind].
    + destruct (zlookup_is_Some (Value p) (a mod ZP)) as [b Hb]; [unfold ZP in *; lia|].
      change (Z.to_nat 1) with 1%nat. rewrite (zlookup_drop_take _ _ _ Hb). cbn [take].
      rewrite take_0, le_val_single; [done|].
      apply (proj1 (Forall_forall _ _) Hbytes). by eapply zlookup_elem_of.
    + by rewrite (Hsmall 2%nat).
    + by rewrite (Hsmall 4%nat).
    + by rewrite (Hsmall 8%nat).
  - unfold loadCrossPage.
    destruct (Pages m !! (a / ZP + 1)) as [q|] eqn:E'; [|by destruct Hn as [-> | [-> | [-> | -> ] ] ]].
    destruct (wf_mem_lookup _ _ _ Hm E') as [Hlen' _].
    rewrite (uN_small 32) by (unfold ZP in *; lia).
    set (f := ZP - a mod ZP) in *.
    rewrite (lslice_ok (Value p)) by lia. cbn [mbind go_bind].
    rewrite (lslice_ok (replicate 8 0)) by (cbn [length replicate]; lia). cbn [mbind go_bind].
    assert (Hda : length (drop (Z.to_nat (a mod ZP)) (Value p)) = Z.to_nat f)
      by (rewrite length_drop; lia).
    rewrite (take_ge (drop (Z.to_nat (a mod ZP)) (Value p))) by (rewrite length_drop; lia).
    set (A := drop (Z.to_nat (a mod ZP)) (Value p)) in *.
    assert (Hg1 : gcopy (take (Z.to_nat (f - 0)) (drop (Z.to_nat 0) (replicate 8 0))) A = A).
    { apply gcopy_full. rewrite length_take, length_drop, length_replicate. lia. }
    rewrite Hg1.
    rewrite (lslice_ok (A ++ _)) by (rewrite ?length_app, ?length_drop, ?length_replicate; lia).
    cbn [mbind go_bind].
    rewrite (uN_small 32) by (unfold ZP in *; lia).
    rewrite (lslice_ok (Value q)) by (unfold ZP in *; lia). cbn [mbind go_bind option_bind].
    rewrite drop_0, Z.sub_0_r.
    set (B := take (Z.to_nat (n - f)) (Value q)).
    assert (HB : length B = Z.to_nat (n - f)) by (unfold B; rewrite length_take; unfold ZP in *; lia).
    assert (Hg2 : forall D, length D = Z.to_nat (n - f) -> gcopy D B = B).
    { intros D HD. apply gcopy_full. lia. }
    rewrite Hg2
      by (rewrite length_take, length_drop, length_app, length_drop, length_replicate; lia).
    rewrite (take_app_length' A _) by done.
    assert (Hpre : forall k tl, k = Z.to_nat n -> take k (A ++ B ++ tl) = A ++ B).
    { intros k tl ->. rewrite app_assoc. apply take_app_length'. rewrite length_app. lia. }
    destruct Hn as [-> | [-> | [-> | ->]]].
    + unfold f in *. lia.
    + by rewrite Hpre.
    + by rewrite Hpre.
    + rewrite drop_ge, app_nil_r; [done|].
      rewrite length_app, length_drop, length_replicate. lia.
Qed.

(** ** Stores *)

(** A byte sequence written over [v] at index [i]. *)
Definition splice (v : list Z) (i : Z) (src : list Z) : list Z :=
  take (Z.to_nat i) v ++ src ++ drop (Z.to_nat i + length src) v.

Lemma copy_at_splice v i src :
  0 <= i -> i + Z.of_nat (length src) <= Z.of_nat (length v) ->
  copy_at v i src = Ret (splice v i src).
Proof.
  intros. rewrite copy_at_ok by lia. rewrite gcopy_fit by (rewrite length_drop; lia).
  unfold splice. by rewrite drop_drop.
Qed.

Lemma splice_length v i src :
  0 <= i -> i + Z.of_nat (length src) <= Z.of_nat (length v) ->
  length (splice v i src) = length v.
Proof. intros. unfold splice. rewrite !length_app, length_take, length_drop. lia. Qed.

Lemma wf_splice v i src acc :
  wf_page (MkPage v acc) -> Forall is_byte src ->
  0 <= i -> i + Z.of_nat (length src) <= ZP -> wf_page (MkPage (splice v i src) acc).
Proof.
  intros [Hl Hb] Hs Hi Hle. cbn in *. split; cbn.
  - rewrite splice_length by lia. done.
  - unfold splice. rewrite !Forall_app. auto using Forall_take, Forall_drop.
Qed.

Lemma zlookup_app (l1 l2 : list Z) i :
  zlookup (l1 ++ l2) i =
    if i <? Z.of_nat (length l1) then zlookup l1 i else zlookup l2 (i - Z.of_nat (length l1)).
Proof.
  unfold zlookup. destruct (Z.ltb_spec i 0), (Z.ltb_spec i (Z.of_nat (length l1)));
    try lia; try done.
  - rewrite lookup_app_l by lia. done.
  - destruct (Z.ltb_spec (i - Z.of_nat (length l1)) 0); [lia|].
    rewrite lookup_app_r by lia. f_equal. lia.
Qed.

Lemma zlookup_take (l : list Z) k i : i < Z.of_nat k -> zlookup (take k l) i = zlookup l i.
Proof. intros. unfold zlookup. zcase; [done|]. by rewrite lookup_take_lt by lia. Qed.

Lemma zlookup_drop (l : list Z) k i :
  0 <= i -> zlookup (drop k l) i = zlookup l (i + Z.of_nat k).
Proof.
  intros. unfold zlookup. zcase; [lia|]. zcase; [lia|]. rewrite lookup_drop. f_equal. lia.
Qed.

Lemma zlookup_splice v i src j :
  0 <= i -> i + Z.of_nat (length src) <= Z.of_nat (length v) ->
  zlookup (splice v i src) j =
    if decide (i <= j < i + Z.of_nat (length src)) then zlookup src (j - i) else zlookup v j.
Proof.
  intros Hi Hle. unfold splice. rewrite !zlookup_app, length_take.
  replace (Z.of_nat (Z.to_nat i `min` length v)) with i by lia.
  destruct (Z.ltb_spec j i); [rewrite decide_False by lia; by apply zlookup_take; lia|].
  destruct (Z.ltb_spec (j - i) (Z.of_nat (length src))).
  - rewrite decide_True by lia. done.
  - rewrite decide_False by lia. rewrite zlookup_drop by lia. f_equal. lia.
Qed.

Lemma mem_byte_set_page m k p b :
  mem_byte (set_page m k p) b =
    if decide (b / ZP = k) then zlookup (Value p) (b mod ZP) else mem_byte m b.
Proof.
  unfold mem_byte, set_page. cbn [Pages]. case_decide as H.
  - subst. by rewrite lookup_insert_eq.
  - by rewrite lookup_insert_ne by done.
Qed.

Lemma mem_byte_splice m k p i src acc b :
  Pages m !! k = Some p -> wf_page p -> 0 <= i -> i + Z.of_nat (length src) <= ZP ->
  mem_byte (set_page m k (MkPage (splice (Value p) i src) acc)) b =
    over (k * ZP + i) src (mem_byte m) b.
Proof.
  intros Hk [Hlen _] Hi Hle. rewrite mem_byte_set_page. unfold over.
  destruct (addr_split b) as [Hb Hbi]. cbn [Value]. case_decide as Hd.
  - rewrite zlookup_splice by lia. rewrite Hd in Hb. do 2 case_decide; try lia.
    + f_equal. lia.
    + rewrite Hb at 2. by rewrite (mem_byte_page m k p) by done.
  - case_decide; [|done]. exfalso. apply Hd.
    replace b with (k * ZP + (b - k * ZP)) by lia. apply page_of. lia.
Qed.

Lemma over_app a s1 s2 f b :
  over a (s1 ++ s2) f b = over (a + Z.of_nat (length s1)) s2 (over a s1 f) b.
Proof.
  unfold over. rewrite length_app. repeat case_decide; try lia; try done.
  - rewrite zlookup_app. destruct (Z.ltb_spec (b - a) (Z.of_nat (length s1))); [lia|].
    f_equal. lia.
  - rewrite zlookup_app. by destruct (Z.ltb_spec (b - a) (Z.of_nat (length s1))); [|lia].
Qed.

Lemma over_ext a s f g b : (forall c, f c = g c) -> over a s f b = over a s g b.
Proof. intros H. unfold over. by rewrite H. Qed.

Lemma mem_access_set_page m k p q b :
  Pages m !! k = Some p -> Access q = Access p ->
  mem_access (set_page m k q) b = mem_access m b.
Proof.
  intros Hk Hq. unfold mem_access, GetPageAccess, set_page. cbn [Pages].
  destruct (decide (b / ZP = k)) as [->|].
  - by rewrite lookup_insert_eq, Hk.
  - by rewrite lookup_insert_ne by done.
Qed.

Lemma storeBytes_ok n v :
  access_size n -> length (storeBytes n v) = Z.to_nat n /\ Forall is_byte (storeBytes n v).
Proof.
  intros [-> | [-> | [-> | -> ] ] ]; cbn [storeBytes];
    rewrite ?le_bytes_length by lia; (split; [done|]);
    try (by apply le_bytes_byte). by constructor; [apply is_byte_u8|].
Qed.

(** What an operation that writes [data] at [a] does to the memory. *)
Definition updated (m m' : Memory) (a : Z) (data : list Z) : Prop :=
  wf_mem m' /\
  (forall b, mem_byte m' b = over a data (mem_byte m) b) /\
  (forall b, mem_access m' b = mem_access m b) /\
  heapPointer m' = heapPointer m /\ heapLimit m' = heapLimit m.

Definition writable (m : Memory) (a n : Z) : bool :=
  bool_decide (mem_access m a = MemoryReadWrite)
  && bool_decide (mem_access m (a + n - 1) = MemoryReadWrite).

Lemma access_Some m a acc :
  mem_access m a = acc -> acc <> MemoryInaccessible ->
  exists p, Pages m !! (a / ZP) = Some p /\ Access p = acc.
Proof.
  unfold mem_access, GetPageAccess. destruct (Pages m !! (a / ZP)) as [p|]; intros; subst; eauto; done.
Qed.

Lemma last_page a n :
  1 <= n <= ZP ->
  (a + n - 1) / ZP = if a mod ZP + n <=? ZP then a / ZP else a / ZP + 1.
Proof.
  intros Hn. destruct (addr_split a) as [Ha Hi]. zcase.
  - rewrite Ha at 1. replace (a / ZP * ZP + a mod ZP + n - 1)
      with (a / ZP * ZP + (a mod ZP + n - 1)) by lia. apply page_of. lia.
  - rewrite Ha at 1. replace (a / ZP * ZP + a mod ZP + n - 1)
      with ((a / ZP + 1) * ZP + (a mod ZP + n - 1 - ZP)) by lia. apply page_of. lia.
Qed.

Lemma page_updated m k p i src :
  wf_mem m -> Pages m !! k = Some p -> Forall is_byte src ->
  0 <= i -> i + Z.of_nat (length src) <= ZP ->
  updated m (set_page m k (MkPage (splice (Value p) i src) (Access p))) (k * ZP + i) src.
Proof.
  intros Hm Hk Hs Hi Hle. pose proof (wf_mem_lookup _ _ _ Hm Hk) as Hp.
  split_and!; [ | | | done | done].
  - apply wf_set_page; [done|]. by apply wf_splice.
  - intros b. by apply mem_byte_splice.
  - intros b. by eapply mem_access_set_page.
Qed.

Lemma updated_app m m1 m2 a s1 s2 :
  updated m m1 a s1 -> updated m1 m2 (a + Z.of_nat (length s1)) s2 -> updated m m2 a (s1 ++ s2).
Proof.
  intros (W1 & B1 & A1 & P1 & L1) (W2 & B2 & A2 & P2 & L2).
  split_and!; try congruence; try done.
  - intros b. rewrite B2, over_app. by apply over_ext.
Qed.

Lemma store_refines m n a v :
  wf_mem m -> access_size n -> 2 ^ 16 <= a < 2 ^ 32 ->
  if writable m a n then
    exists m', storeIntoMemory m n a v = Ret (m', ExitContinue)
               /\ updated m m' a (storeBytes n v)
  else storeIntoMemory m n a v = Ret (m, Z.lor ExitPageFault a).
Proof.
  intros Hm Hn Ha. unfold storeIntoMemory. destruct (Z.ltb_spec a (2 ^ 16)); [lia|].
  assert (0 < n <= 8) as Hn8 by (unfold access_size in Hn; lia).
  destruct (storeBytes_ok n v Hn) as [Hsl Hsb]. set (src := storeBytes n v) in *.
  destruct (addr_split a) as [Haa Hi]. unfold writable, mem_access.
  rewrite last_page by (unfold ZP; lia).
  rewrite (uN_small 32 (a mod ZP + n)) by (unfold ZP in *; lia).
  unfold GetPageAccess. destruct (Pages m !! (a / ZP)) as [p|] eqn:E; [|by rewrite andb_false_l].
  destruct (wf_mem_lookup _ _ _ Hm E) as [Hlen _].
  destruct (decide (Access p = MemoryReadWrite)) as [Hrw|Hrw];
    [rewrite bool_decide_eq_true_2 by done | by rewrite bool_decide_eq_false_2 by done].
  rewrite andb_true_l. cbn [negb]. destruct (Z.leb_spec (a mod ZP + n) ZP).
  - rewrite E, bool_decide_eq_true_2 by done. rewrite copy_at_splice by lia.
    eexists. split; [done|].
    pose proof (page_updated m (a / ZP) p (a mod ZP) src Hm E Hsb ltac:(lia) ltac:(lia)) as HU.
    by rewrite <- Haa in HU.
  - destruct (Pages m !! (a / ZP + 1)) as [q|] eqn:E'; [|done].
    destruct (wf_mem_lookup _ _ _ Hm E') as [Hlen' _].
    destruct (decide (Access q = MemoryReadWrite)) as [Hrw'|Hrw'];
      [rewrite bool_decide_eq_true_2 by done | by rewrite bool_decide_eq_false_2 by done].
    cbn [negb]. set (f := ZP - a mod ZP) in *.
    rewrite (lslice_ok src 0 f), (lslice_ok src f) by lia. cbn [mbind go_bind].
    rewrite Z.sub_0_r, drop_0.
    assert (Hsrc : src = take (Z.to_nat f) src ++ drop (Z.to_nat f) src) by (by rewrite take_drop).
    rewrite (take_ge (drop (Z.to_nat f) src)) by (rewrite length_drop; lia).
    set (s1 := take (Z.to_nat f) src) in *. set (s2 := drop (Z.to_nat f) src) in *.
    assert (length s1 = Z.to_nat f) by (unfold s1; rewrite length_take; lia).
    assert (length s2 = Z.to_nat (n - f)) by (unfold s2; rewrite length_drop; lia).
    assert (Forall is_byte s1) by (by apply Forall_take).
    assert (Forall is_byte s2) by (by apply Forall_drop).
    rewrite copy_at_splice by lia. cbn [mbind go_bind]. eexists. split; [done|].
    rewrite Hsrc. eapply updated_app.
    + pose proof (page_updated m (a / ZP) p (a mod ZP) s1 Hm E ltac:(done) ltac:(lia) ltac:(lia)) as HU.
      rewrite <- Haa in HU. exact HU.
    + replace (a + Z.of_nat (length s1)) with ((a / ZP + 1) * ZP + 0) by lia.
      rewrite gcopy_fit by (unfold ZP in *; lia).
      replace (s2 ++ drop (length s2) (Value q)) with (splice (Value q) 0 s2) by done.
      apply page_updated; try lia; try done.
      * apply wf_set_page; [done|]. apply wf_splice; try done; try lia.
        eapply wf_mem_lookup in E; [|done]. by destruct p.
      * cbn. rewrite lookup_insert_ne by lia. done.
      * unfold ZP in *. lia.
Qed.

(** ** Ranges that span pages: [Read], [Write], [readRAM] *)

(** Reading [n] bytes from index [i] of page [k]: the bytes in this page,
    then the rest from the next page on. *)
Lemma mem_bytes_step m k i n bs :
  wf_mem m -> 0 <= i < ZP -> (0 < n)%nat ->
  mem_bytes m (k * ZP + i) n = Some bs ->
  exists p, Pages m !! k = Some p /\ wf_page p /\
    (if Z.of_nat n <=? ZP - i then bs = take n (drop (Z.to_nat i) (Value p))
     else exists rest,
       mem_bytes m ((k + 1) * ZP + 0) (n - Z.to_nat (ZP - i)) = Some rest /\
       bs = drop (Z.to_nat i) (Value p) ++ rest).
Proof.
  intros Hm Hi Hn H. destruct (Pages m !! k) as [p|] eqn:E;
    [|by rewrite (mem_bytes_None m k) in H].
  pose proof (wf_mem_lookup _ _ _ Hm E) as Hp. exists p. split_and!; [done..|]. zcase.
  - rewrite (mem_bytes_page m k p) in H by (done || lia). congruence.
  - replace n with (Z.to_nat (ZP - i) + (n - Z.to_nat (ZP - i)))%nat in H by lia.
    rewrite mem_bytes_app in H.
    rewrite (mem_bytes_page m k p) in H by (done || lia). cbn in H.
    replace (k * ZP + i + Z.of_nat (Z.to_nat (ZP - i))) with ((k + 1) * ZP + 0) in H by lia.
    destruct (mem_bytes m ((k + 1) * ZP + 0) _) as [rest|] eqn:Er; [|done].
    cbn in H. exists rest. split; [done|]. destruct Hp as [Hl _].
    rewrite take_ge in H by (rewrite length_drop; lia). congruence.
Qed.

Lemma readLoop_spec fuel m k i n bs :
  wf_mem m -> 0 <= i < ZP -> 0 <= k -> k * ZP + i + Z.of_nat n <= 2 ^ 32 ->
  (n <= fuel)%nat -> mem_bytes m (k * ZP + i) n = Some bs ->
  readLoop fuel m k i (Z.of_nat n) = Ret bs.
Proof.
  intros Hm. revert k i n bs. induction fuel as [|fuel IH]; intros k i n bs Hi Hk Hle Hf H.
  - assert (n = 0%nat) as -> by lia. cbn in H. by simplify_eq.
  - cbn [readLoop]. destruct (Z.leb_spec (Z.of_nat n) 0).
    { assert (n = 0%nat) as -> by lia. cbn in H. by simplify_eq. }
    destruct (mem_bytes_step m k i n bs Hm Hi ltac:(lia) H) as (p & E & [Hl Hb] & Hcase).
    unfold pageValue. rewrite E. cbn [mbind go_bind].
    rewrite lslice_ok by lia. cbn [mbind go_bind]. rewrite Nat2Z.id.
    rewrite (take_ge (drop _ _)) by (rewrite length_drop; lia).
    destruct (Z.leb_spec (Z.of_nat n) (ZP - i)).
    + rewrite length_take, length_drop.
      replace (Z.of_nat n - Z.of_nat (n `min` (length (Value p) - Z.to_nat i))) with 0 by lia.
      destruct fuel; cbn; by rewrite app_nil_r, Hcase.
    + destruct Hcase as (rest & Hr & ->).
      rewrite take_ge by (rewrite length_drop; lia). rewrite length_drop.
      replace (Z.of_nat n - Z.of_nat (length (Value p) - Z.to_nat i))
        with (Z.of_nat (n - Z.to_nat (ZP - i))) by lia.
      rewrite (uN_small 32) by (unfold ZP in *; lia).
      rewrite (IH (k + 1) 0 _ rest); [done | unfold ZP in *; lia.. | done].
Qed.

Lemma page_bounds a : 0 <= a < 2 ^ 32 -> 0 <= a / ZP < 2 ^ 20.
Proof. intros. unfold ZP. split; [apply Z.div_pos | apply Z.div_lt_upper_bound]; lia. Qed.

Lemma read_refines m start n bs :
  wf_mem m -> 0 <= start -> start + Z.of_nat n <= 2 ^ 32 ->
  mem_bytes m start n = Some bs -> Read m start (Z.of_nat n) = Ret bs.
Proof.
  intros Hm Hs Hle H. unfold Read. destruct (Z.eqb_spec (Z.of_nat n) 0).
  { assert (n = 0%nat) as -> by lia. cbn in H. congruence. }
  destruct (addr_split start) as [Ha Hi].
  destruct (page_bounds start ltac:(lia)).
  rewrite (uN_small 32) by lia. rewrite Nat2Z.id.
  apply readLoop_spec; rewrite <- ?Ha; done || lia.
Qed.

Lemma writeLoop_S fuel m k i data :
  data <> [] ->
  writeLoop (S fuel) m k i data =
    match Pages m !! k with
    | None => Crash
    | Some p =>
        value ← copy_at (Value p) i data;
        let n := Nat.min (length data) (length (Value p) - Z.to_nat i) in
        writeLoop fuel (set_page m k (MkPage value (Access p))) (u32 (k + 1)) 0 (drop n data)
    end.
Proof. by destruct data. Qed.

Lemma updated_nil m a : wf_mem m -> updated m m a [].
Proof. intros. split_and!; try done. intros b. unfold over. cbn. by rewrite decide_False by lia. Qed.

Lemma length_pos {A} (l : list A) : l <> [] -> (0 < length l)%nat.
Proof. destruct l; cbn; [done | lia]. Qed.

Lemma writeLoop_spec fuel m k i data :
  wf_mem m -> 0 <= i < ZP -> 0 <= k -> k * ZP + i + Z.of_nat (length data) <= 2 ^ 32 ->
  (length data <= fuel)%nat -> Forall is_byte data ->
  is_Some (mem_bytes m (k * ZP + i) (length data)) ->
  exists m', writeLoop fuel m k i data = Ret m' /\ updated m m' (k * ZP + i) data.
Proof.
  revert m k i data. induction fuel as [|fuel IH]; intros m k i data Hm Hi Hk Hle Hf Hd [bs H].
  - destruct data; [|cbn in Hf; lia]. exists m. split; [done|]. by apply updated_nil.
  - destruct (decide (data = [])) as [->|Hne].
    { exists m. split; [done|]. by apply updated_nil. }
    rewrite writeLoop_S by done. pose proof (length_pos _ Hne).
    destruct (mem_bytes_step m k i (length data) bs Hm Hi ltac:(lia) H) as (p & E & [Hl Hb] & Hcase).
    rewrite E.
    set (n := Nat.min (length data) (length (Value p) - Z.to_nat i)).
    assert (Hcopy : copy_at (Value p) i data = Ret (splice (Value p) i (take n data))).
    { rewrite copy_at_ok by lia. unfold gcopy, splice. rewrite length_drop, length_take, drop_drop.
      replace (take (length (Value p) - Z.to_nat i) data) with (take n data)
        by (subst n; destruct (decide (length data <= length (Value p) - Z.to_nat i)%nat);
            [rewrite !take_ge by lia; done | by rewrite Nat.min_r by lia]).
      replace (drop (Z.to_nat i + n `min` length data) (Value p))
        with (drop (Z.to_nat i + length data) (Value p)); [done|].
      subst n. destruct (decide (length data <= length (Value p) - Z.to_nat i)%nat);
        [f_equal; lia | rewrite !drop_ge by lia; done]. }
    rewrite Hcopy. cbn [mbind go_bind].
    assert (length (take n data) = n) by (rewrite length_take; lia).
    assert (HU : updated m (set_page m k (MkPage (splice (Value p) i (take n data)) (Access p)))
                  (k * ZP + i) (take n data))
      by (apply page_updated; try lia; [done..| by apply Forall_take]).
    destruct (Z.leb_spec (Z.of_nat (length data)) (ZP - i)).
    + rewrite (drop_ge data) by lia. rewrite (take_ge data) in * by lia.
      eexists. split; [by destruct fuel | done].
    + destruct Hcase as (rest & Hr & _).
      rewrite (uN_small 32) by (unfold ZP in *; lia).
      destruct (IH (set_page m k (MkPage (splice (Value p) i (take n data)) (Access p)))
                  (k + 1) 0 (drop n data)) as (m' & Hw & HU').
      * apply HU.
      * unfold ZP; lia.
      * lia.
      * rewrite length_drop. unfold ZP in *. lia.
      * rewrite length_drop. lia.
      * by apply Forall_drop.
      * exists rest. rewrite length_drop.
        replace (length data - n)%nat with (length data - Z.to_nat (ZP - i))%nat by lia.
        rewrite <- Hr. apply mem_bytes_ext. intros b Hbr.
        destruct HU as (_ & -> & _). unfold over. rewrite decide_False; [done|].
        unfold ZP in *. lia.
      * exists m'. split; [done|]. rewrite <- (take_drop n data).
        eapply updated_app; [done|].
        by replace (k * ZP + i + Z.of_nat (length (take n data))) with ((k + 1) * ZP + 0) by lia.
Qed.

Lemma write_refines m start data :
  wf_mem m -> 0 <= start -> start + Z.of_nat (length data) <= 2 ^ 32 -> Forall is_byte data ->
  is_Some (mem_bytes m start (length data)) ->
  exists m', Write m start data = Ret m' /\ updated m m' start data.
Proof.
  intros Hm Hs Hle Hd H. destruct (decide (data = [])) as [->|Hne].
  { exists m. split; [done|]. by apply updated_nil. }
  replace (Write m start data)
    with (writeLoop (length data) m (u32 (start / ZP)) (start mod ZP) data) by (by destruct data).
  pose proof (length_pos _ Hne).
  destruct (addr_split start) as [Ha Hi]. destruct (page_bounds start ltac:(lia)).
  rewrite (uN_small 32) by lia.
  destruct (writeLoop_spec (length data) m (start / ZP) (start mod ZP) data)
    as (m' & Hw & HU); rewrite <- ?Ha; try lia; try done.
  exists m'. by rewrite <- Ha in HU.
Qed.

(** ** Range checks *)

Lemma pagesAll_spec n ok m p :
  pagesAll n ok m p = true <->
  (forall j, p <= j < p + Z.of_nat n -> ok (GetPageAccess m j) = true).
Proof.
  revert p. induction n as [|n IH]; intros p; cbn [pagesAll].
  - split; [intros _ j; lia | done].
  - destruct (ok (GetPageAccess m p)) eqn:E.
    + rewrite IH. split; intros H j Hj; [|apply H; lia].
      destruct (decide (j = p)) as [->|]; [done | apply H; lia].
    + split; [done|]. intros H. rewrite H in E; [done|lia].
Qed.

Lemma page_between start n j :
  0 < n -> start / ZP <= j <= (start + n - 1) / ZP ->
  exists b, start <= b < start + n /\ b / ZP = j.
Proof.
  intros Hn [H1 H2]. exists (Z.max start (j * ZP)).
  destruct (addr_split start), (addr_split (start + n - 1)).
  unfold ZP in *. split; [nia|].
  destruct (Z.max_spec start (j * 2 ^ 12)) as [[? ->] | [? ->] ].
  - by rewrite Z.div_mul by lia.
  - nia.
Qed.

(** [isReadable] and [isWriteable] check the mode of every address of the
    range and that the range ends inside the 32-bit address space. *)
Lemma rangeCheck_spec ok m start n :
  0 <= start -> 0 <= n ->
  rangeCheck ok start n m = true <->
  (n = 0 \/ (start + n <= 2 ^ 32 /\
             forall b, start <= b < start + n -> ok (mem_access m b) = true)).
Proof.
  intros Hs Hn. unfold rangeCheck. destruct (Z.eqb_spec n 0) as [->|Hn0]; [naive_solver|].
  destruct (Z.ltb_spec (2 ^ 32) n); cbn [orb].
  { split; [done|]. intros [?|[? _] ]; lia. }
  destruct (Z.ltb_spec (2 ^ 32 - n) start).
  { split; [done|]. intros [?|[? _] ]; lia. }
  pose proof (page_bounds start ltac:(lia)). pose proof (page_bounds (start + n - 1) ltac:(lia)).
  rewrite !(uN_small 32) by lia. rewrite pagesAll_spec.
  assert (start / ZP <= (start + n - 1) / ZP) by (apply Z.div_le_mono; unfold ZP; lia).
  rewrite Z2Nat.id by lia. split.
  - intros Hp. right. split; [lia|]. intros b Hb. apply Hp.
    split; [apply Z.div_le_mono; unfold ZP; lia|].
    pose proof (Z.div_le_mono b (start + n - 1) ZP ltac:(unfold ZP; lia) ltac:(lia)). lia.
  - intros [?|[_ Hb] ]; [lia|]. intros j Hj.
    destruct (page_between start n j ltac:(lia) ltac:(lia)) as (b & ? & <-). by apply Hb.
Qed.

Lemma mem_byte_accessible m b :
  wf_mem m -> mem_access m b <> MemoryInaccessible -> is_Some (mem_byte m b).
Proof.
  intros Hm Hacc. destruct (access_Some m b _ eq_refl Hacc) as (p & E & _).
  unfold mem_byte. rewrite E. cbn. destruct (wf_mem_lookup _ _ _ Hm E) as [Hl _].
  destruct (addr_split b). destruct (zlookup_is_Some (Value p) (b mod ZP)); [lia | eauto].
Qed.

Lemma mem_bytes_accessible m a n :
  wf_mem m -> (forall b, a <= b < a + Z.of_nat n -> mem_access m b <> MemoryInaccessible) ->
  is_Some (mem_bytes m a n).
Proof.
  intros Hm. revert a. induction n as [|n IH]; intros a H; cbn; [eauto|].
  destruct (mem_byte_accessible m a Hm) as [x ->]; [apply H; lia|]. cbn.
  destruct (IH (a + 1)) as [bs ->]; [intros; apply H; lia|]. cbn. eauto.
Qed.

Lemma isReadable_bytes m start n :
  wf_mem m -> 0 <= start -> 0 <= n -> isReadable start n m = true ->
  is_Some (mem_bytes m start (Z.to_nat n)).
Proof.
  intros Hm Hs Hn [->|[_ H] ]%rangeCheck_spec; [cbn; eauto| |done..].
  apply mem_bytes_accessible; [done|]. intros b Hb.
  specialize (H b ltac:(lia)). cbn in H. apply negb_true_iff, bool_decide_eq_false in H. done.
Qed.

Lemma isWriteable_isReadable m start n :
  0 <= start -> 0 <= n -> isWriteable start n m = true -> isReadable start n m = true.
Proof.
  unfold isWriteable, isReadable. intros Hs Hn. rewrite !rangeCheck_spec by done.
  intros [?|[? H] ]; [by left | right]. split; [done|]. intros b Hb.
  specialize (H b Hb). cbn in *. apply bool_decide_eq_true in H as ->. done.
Qed.

(** ** [readRAM] agrees with [Read] *)

Lemma readRAMLoop_spec n m p start fin :
  wf_mem m -> start < fin ->
  p * ZP <= Z.max start (p * ZP) < p * ZP + ZP ->
  fin <= (p + Z.of_nat n) * ZP -> (p + Z.of_nat n - 1) * ZP < fin ->
  forall bs, mem_bytes m (Z.max start (p * ZP)) (Z.to_nat (fin - Z.max start (p * ZP))) = Some bs ->
  readRAMLoop n m p start fin = Some bs.
Proof.
  intros Hm Hsf. revert p. induction n as [|n IH]; intros p Hp Hf1 Hf2 bs H.
  - cbn. replace (Z.to_nat _) with 0%nat in H by lia. done.
  - cbn [readRAMLoop]. set (s := Z.max start (p * ZP)) in *.
    assert (Hs : s = p * ZP + (s - p * ZP)) by lia. rewrite Hs in H at 1.
    destruct (mem_bytes_step m p (s - p * ZP) (Z.to_nat (fin - s)) bs Hm) as (q & E & [Hl _] & Hc);
      [lia | nia | done |].
    rewrite E. rewrite Hl. destruct (Z.eqb_spec (Z.of_nat (Z.to_nat ZP)) 0); [done|].
    destruct (Z.leb_spec (Z.min fin (p * ZP + ZP)) s); [nia|].
    destruct (Z.ltb_spec (Z.of_nat (Z.to_nat ZP)) (Z.min fin (p * ZP + ZP) - p * ZP)); [unfold ZP in *; lia|].
    destruct (Z.leb_spec (Z.of_nat (Z.to_nat (fin - s))) (ZP - (s - p * ZP))).
    + rewrite (Z.min_l fin) by lia.
      assert (n = 0%nat) as -> by (unfold ZP in *; nia). cbn.
      rewrite app_nil_r, Hc. do 2 f_equal. lia.
    + destruct Hc as (rest & Hr & ->).
      rewrite Z.min_r by lia. rewrite (IH (p + 1)) with (bs := rest); [| unfold ZP in *; lia.. |].
      * cbn. rewrite take_ge; [done|]. rewrite length_drop. lia.
      * replace (Z.max start ((p + 1) * ZP)) with ((p + 1) * ZP + 0) by (unfold ZP in *; lia).
        rewrite <- Hr. f_equal. unfold ZP in *. lia.
Qed.

Lemma readRAM_refines m start n bs :
  wf_mem m -> 0 <= start -> start + Z.of_nat n <= 2 ^ 32 ->
  mem_bytes m start n = Some bs -> readRAM start (Z.of_nat n) m = Some bs.
Proof.
  intros Hm Hs Hle H. unfold readRAM. destruct (Z.eqb_spec (Z.of_nat n) 0).
  { assert (n = 0%nat) as -> by lia. cbn in H. congruence. }
  rewrite (uN_small 64 (start + Z.of_nat n)) by lia.
  rewrite (uN_small 64 (start + Z.of_nat n - 1)) by lia.
  pose proof (page_bounds start ltac:(lia)).
  pose proof (page_bounds (start + Z.of_nat n - 1) ltac:(lia)).
  rewrite !(uN_small 32) by lia.
  assert (start / ZP <= (start + Z.of_nat n - 1) / ZP) by (apply Z.div_le_mono; unfold ZP; lia).
  destruct (addr_split start), (addr_split (start + Z.of_nat n - 1)).
  assert (Hmax : Z.max start (start / ZP * ZP) = start) by lia.
  rewrite (readRAMLoop_spec _ _ _ _ _ Hm) with (bs := bs); rewrite ?Hmax; try (unfold ZP in *; lia).
  - cbn. rewrite (mem_bytes_length _ _ _ _ H). by rewrite Z.eqb_refl.
  - by replace (Z.to_nat (start + Z.of_nat n - start)) with n by lia.
Qed.

(** * Laws of the paged memory

    What a program observes: stores and loads, [Write] and [Read], the range
    checks of the host calls, and the reports of invalid addresses. *)

Lemma storeBytes_val n v : access_size n -> le_val (storeBytes n v) = v mod 2 ^ (8 * n).
Proof.
  intros [-> | [-> | [-> | -> ] ] ]; cbn [storeBytes].
  - rewrite le_val_single by (apply is_byte_u8). done.
  - rewrite le_val_bytes by lia. unfold u16, uN. by rewrite Z.mod_mod.
  - rewrite le_val_bytes by lia. unfold u32, uN. by rewrite Z.mod_mod.
  - by rewrite le_val_bytes by lia.
Qed.

(** Bytes away from an update are the ones that were there. *)
Lemma updated_disjoint m m' a data b n :
  updated m m' a data -> b + Z.of_nat n <= a \/ a + Z.of_nat (length data) <= b ->
  mem_bytes m' b n = mem_bytes m b n.
Proof.
  intros (_ & Hb & _) Hd. apply mem_bytes_ext. intros c Hc. rewrite Hb. unfold over.
  by rewrite decide_False by lia.
Qed.

Lemma access_size_range n : access_size n -> 1 <= n <= 8.
Proof. unfold access_size. lia. Qed.

(** A store succeeds exactly on writable bytes from 2^16 on; below it is
    a panic, elsewhere a page fault at the address of the store, and in both
    cases the memory is unchanged.  A store that succeeds changes the bytes
    it covers, no other byte, and no access right. *)
Theorem store_outcome m n a v :
  wf_mem m -> access_size n -> 0 <= a < 2 ^ 32 ->
  if a <? 2 ^ 16 then storeIntoMemory m n a v = Ret (m, ExitPanic)
  else if writable m a n then
    exists m', storeIntoMemory m n a v = Ret (m', ExitContinue) /\
      updated m m' a (storeBytes n v)
  else storeIntoMemory m n a v = Ret (m, Z.lor ExitPageFault a).
Proof.
  intros Hm Hn Ha. destruct (Z.ltb_spec a (2 ^ 16)) as [Hlt|Hge].
  - unfold storeIntoMemory. by destruct (Z.ltb_spec a (2 ^ 16)); [|lia].
  - apply store_refines; [done|done|lia].
Qed.

(** A load of the same size and address after a store gives the stored
    value truncated to that size, whether or not the access crosses a page;
    a load of bytes the store does not cover gives what it gave before. *)
Theorem store_then_load m n a v m' :
  wf_mem m -> access_size n -> 2 ^ 16 <= a < 2 ^ 32 ->
  storeIntoMemory m n a v = Ret (m', ExitContinue) ->
  loadFromMemory m' n a = Ret (v mod 2 ^ (8 * n), ExitContinue) /\
  (forall k b, access_size k -> 2 ^ 16 <= b < 2 ^ 32 -> b + k <= a \/ a + n <= b ->
     loadFromMemory m' k b = loadFromMemory m k b).
Proof.
  intros Hm Hn Ha H. pose proof (store_refines m n a v Hm Hn Ha) as Hs.
  pose proof (access_size_range n Hn).
  destruct (writable m a n).
  2:{ exfalso. rewrite Hs in H. injection H as _ H. apply (f_equal GetReasonType) in H.
      unfold ExitPageFault in H. rewrite reason_or_type in H by (unfold PAGE_FAULT; lia). done. }
  destruct Hs as (m1 & Hs & Hu). rewrite Hs in H. injection H as ->.
  pose proof Hu as (Hm' & Hb & _). destruct (storeBytes_ok n v Hn) as [Hlen Hbytes]. split.
  - rewrite load_refines by done. rewrite <- Hlen, (mem_bytes_over m) by done.
    by rewrite storeBytes_val.
  - intros k b Hk Hbr Hd. pose proof (access_size_range k Hk).
    rewrite !load_refines by done. rewrite (updated_disjoint m m' a (storeBytes n v)); [done|done|].
    rewrite Hlen. lia.
Qed.

(** [Write] of bytes to a range that [isWriteable] accepts does not
    panic, [Read] and [readRAM] of that range then give the bytes back, and
    reading any other range that [isReadable] accepts gives what it gave
    before. *)
Theorem write_then_read m start data :
  wf_mem m -> 0 <= start -> Forall is_byte data ->
  isWriteable start (Z.of_nat (length data)) m = true ->
  exists m', Write m start data = Ret m' /\
    Read m' start (Z.of_nat (length data)) = Ret data /\
    readRAM start (Z.of_nat (length data)) m' = Some data /\
    (forall b n, 0 <= b -> b + Z.of_nat n <= start \/ start + Z.of_nat (length data) <= b ->
       isReadable b (Z.of_nat n) m = true ->
       Read m' b (Z.of_nat n) = Read m b (Z.of_nat n) /\
       readRAM b (Z.of_nat n) m' = readRAM b (Z.of_nat n) m).
Proof.
  intros Hm Hs Hd Hw. set (n := length data) in *.
  assert (isReadable start (Z.of_nat n) m = true) as Hr by (apply isWriteable_isReadable; [lia..|done]).
  destruct (proj1 (rangeCheck_spec _ _ start (Z.of_nat n) Hs ltac:(lia)) Hr) as [H0|[Hle _] ].
  { assert (data = []) as -> by (destruct data; [done|cbn in *; lia]).
    exists m. split_and!; done. }
  pose proof (isReadable_bytes m start (Z.of_nat n) Hm Hs ltac:(lia) Hr) as Hb. rewrite Nat2Z.id in Hb.
  destruct (write_refines m start data Hm Hs Hle Hd Hb) as (m' & Hwr & Hu).
  pose proof Hu as (Hm' & Hby & _). exists m'. split; [done|].
  assert (mem_bytes m' start n = Some data) as Hback by (by apply (mem_bytes_over m)).
  split; [by apply read_refines|]. split; [by apply readRAM_refines|].
  intros b k Hb0 Hdis Hrk.
  destruct (isReadable_bytes m b (Z.of_nat k) Hm Hb0 ltac:(lia) Hrk) as [bs Hbs]. rewrite Nat2Z.id in Hbs.
  destruct (proj1 (rangeCheck_spec _ _ b (Z.of_nat k) Hb0 ltac:(lia)) Hrk) as [Hk0|[Hle' _] ].
  { assert (k = 0%nat) as -> by lia. done. }
  assert (mem_bytes m' b k = Some bs) as Hbs' by (by rewrite (updated_disjoint m m' start data)).
  by rewrite !(read_refines _ _ _ bs), !(readRAM_refines _ _ _ bs) by done.
Qed.

(** The range checks of the host calls: a range is readable (writable)
    iff it is empty, or ends within the 2^32 bytes of the address space and
    every byte of it is on a page that is not inaccessible (that is
    read-write); on a readable range [Read] does not panic, [readRAM]
    succeeds, and both give the same bytes. *)
Theorem range_checks m start n :
  wf_mem m -> 0 <= start -> 0 <= n ->
  (isReadable start n m = true <->
    n = 0 \/ (start + n <= 2 ^ 32 /\
      forall b, start <= b < start + n -> mem_access m b <> MemoryInaccessible)) /\
  (isWriteable start n m = true <->
    n = 0 \/ (start + n <= 2 ^ 32 /\
      forall b, start <= b < start + n -> mem_access m b = MemoryReadWrite)) /\
  (isReadable start n m = true -> exists bs, Z.of_nat (length bs) = n /\
    Read m start n = Ret bs /\ readRAM start n m = Some bs).
Proof.
  intros Hm Hs Hn. unfold isReadable at 1, isWriteable. rewrite !rangeCheck_spec by done.
  assert (forall a, negb (bool_decide (a = MemoryInaccessible)) = true <-> a <> MemoryInaccessible) as E1.
  { intros a. rewrite negb_true_iff, bool_decide_eq_false. done. }
  assert (forall a, bool_decide (a = MemoryReadWrite) = true <-> a = MemoryReadWrite) as E2.
  { intros a. by rewrite bool_decide_eq_true. }
  setoid_rewrite E1. setoid_rewrite E2. split_and!; [done|done|].
  intros Hr. destruct (isReadable_bytes m start n Hm Hs Hn Hr) as [bs Hbs].
  exists bs. pose proof (mem_bytes_length _ _ _ _ Hbs).
  destruct (proj1 (rangeCheck_spec _ _ start n Hs Hn) Hr) as [->|[Hle _] ].
  { cbn in Hbs. injection Hbs as <-. split_and!; done. }
  pose proof (read_refines m start (Z.to_nat n) bs Hm Hs) as H1.
  pose proof (readRAM_refines m start (Z.to_nat n) bs Hm Hs) as H2.
  rewrite Z2Nat.id in * by lia. split_and!; [lia|auto|auto].
Qed.

(** (A.8) and (A.9): the invalid addresses of an access are exactly the
    ones outside the accessible pages, ascending and without repetitions;
    there is no error without one, a panic when one of them is below 2^16
    modulo 2^32, and otherwise a page fault at the least of them. *)
Theorem memory_access_error reads writes readable writeable :
  let l := GetInvalidAddress reads writes readable writeable in
  StronglySorted Z.lt l /\
  (forall a, a ∈ l <->
     (a ∈ reads /\ inaccessible readable a) \/ (a ∈ writes /\ inaccessible writeable a)) /\
  ((l = [] /\ ParseMemoryAccessError l = ExitContinue) \/
   ((exists a, a ∈ l /\ a mod 2 ^ 32 < ZZ) /\ ParseMemoryAccessError l = ExitPanic) \/
   (exists a, a ∈ l /\ ParseMemoryAccessError l = Z.lor ExitPageFault (a mod 2 ^ 32) /\
      Forall (fun b => a mod 2 ^ 32 <= b mod 2 ^ 32) l)).
Proof.
  intros l. set (inv := filter (inaccessible readable) reads ++ filter (inaccessible writeable) writes).
  assert (l = uniqueAddresses None (merge_sort Z.le inv)) as Hl by done. split_and!.
  - rewrite Hl. apply (uniqueAddresses_sorted None); [|done]. apply StronglySorted_merge_sort; apply _.
  - intros a. rewrite Hl. transitivity (a ∈ inv).
    + assert (a ∈ merge_sort Z.le inv <-> a ∈ inv) as Hp by (by rewrite (merge_sort_Permutation Z.le inv)).
      rewrite <- Hp. split; [apply uniqueAddresses_elem_of|].
      intros Ha. by destruct (uniqueAddresses_complete None _ a Ha).
    + unfold inv. rewrite elem_of_app, !list_elem_of_filter. tauto.
  - clearbody l. clear. destruct (decide (l = [])) as [->|Hne]; [by left|right].
    set (l' := (fun a => a mod 2 ^ 32) <$> l).
    assert (ParseMemoryAccessError l = match minAddressLoop l' (2 ^ 32 - 1) with
      None => ExitPanic | Some m => Z.lor ExitPageFault m end) as -> by (by destruct l).
    assert (Forall (fun a => 0 <= a < 2 ^ 32) l') as Hr.
    { apply Forall_fmap, Forall_true. intros a. apply Z.mod_pos_bound. lia. }
    destruct (minAddressLoop l' (2 ^ 32 - 1)) as [r|] eqn:E.
    + right. destruct (minAddressLoop_Some _ _ _ Hr E) as (Hle & Hall & Hin).
      unfold l' in Hall. rewrite List.Forall_map in Hall.
      assert (r ∈ l') as [a [-> Ha] ]%list_elem_of_fmap.
      { destruct Hin as [->|?]; [|done]. destruct l as [|a l]; [done|].
        apply Forall_cons in Hall as [Ha _]. cbn in Ha. pose proof (Z.mod_pos_bound a (2 ^ 32)).
        apply list_elem_of_fmap. exists a. split; [lia|apply list_elem_of_here]. }
      exists a. exact (conj Ha (conj eq_refl Hall)).
    + left. split; [|done]. apply minAddressLoop_None in E as (b & [a [-> Ha] ]%list_elem_of_fmap & Hb).
      eauto.
Qed.
