(* ===== verification/Bits.v ===== *)
(** * Bit sequences

    src/PVM/signed_unsigned_transitions.go: the conversions between unsigned
    integers and bit sequences (A.12 to A.15), most significant bit first,
    and in reverse order. *)

From S2P Require Import Prelude Words.
Local Open Scope Z_scope.

(** The loop [for i := 0; i < bitSize; i++] that fills [y]. *)
Definition fillBits (bitSize : Z) (bit : Z -> bool) : list bool :=
  (fun i => bit (Z.of_nat i)) <$> seq 0 (Z.to_nat bitSize).

(** [None] is a returned error. *)
Definition UnsignedToBits (x n : Z) : option (list bool) :=
  if (n <? 1) || (8 <? n) then None
  else
    let bitSize := 8 * n in
    let maxValue := u64 (shl64 1 bitSize - 1) in
    if maxValue <? x then None
    else Some (fillBits bitSize (fun i => Z.land (shr x (bitSize - 1 - i)) 1 =? 1)).

(** The loop over the bits: [y |= 1 << shift(i)] for the set ones. *)
Fixpoint orBits (shift : Z -> Z) (x : list bool) (i y : Z) : Z :=
  match x with
  | [] => y
  | bit :: x => orBits shift x (i + 1) (if bit then Z.lor y (shl64 1 (shift i)) else y)
  end.

Definition BitsToUnsigned (x : list bool) (n : Z) : option Z :=
  if (n <? 1) || (8 <? n) then None
  else
    let bitsLength := Z.of_nat (length x) in
    if negb (bitsLength =? 8 * n) then None
    else Some (orBits (fun i => bitsLength - 1 - i) x 0 0).

Definition ReverseUnsignedToBits (x n : Z) : option (list bool) :=
  if (n <? 1) || (8 <? n) then None
  else
    let bitSize := 8 * n in
    let maxValue := shl64 1 bitSize in
    if maxValue <=? x then None
    else Some (fillBits bitSize (fun i => Z.land (shr x i) 1 =? 1)).

Definition ReverseBitsToUnsigned (x : list bool) (n : Z) : option Z :=
  if (n <? 1) || (8 <? n) then None
  else if negb (Z.of_nat (length x) =? 8 * n) then None
  else Some (orBits (fun i => i) x 0 0).

(** ** Lemmas *)

Lemma bit_test x i : 0 <= i -> (Z.land (shr x i) 1 =? 1) = Z.testbit x i.
Proof.
  intros Hi. change 1 with (Z.ones 1) at 1. rewrite Z.land_ones by lia.
  unfold shr. rewrite Z.testbit_odd, Z.shiftr_div_pow2 by lia. change (2 ^ 1) with 2.
  rewrite Zmod_odd. by destruct (Z.odd _).
Qed.

Lemma fillBits_ext n f g :
  (forall i, 0 <= i < n -> f i = g i) -> fillBits n f = fillBits n g.
Proof.
  intros H. apply list_fmap_ext. intros i j Hj. apply lookup_seq in Hj as [-> Hlt]. apply H. lia.
Qed.

Lemma fillBits_length n f : length (fillBits n f) = Z.to_nat n.
Proof. unfold fillBits. by rewrite length_fmap, length_seq. Qed.

Lemma shl_one k : 0 <= k < 64 -> shl64 1 k = 2 ^ k.
Proof.
  intros Hk. unfold shl64. rewrite Z.shiftl_1_l, (proj2 (Z.ltb_lt k 64)) by lia. apply uN_small.
  split; [apply Z.pow_nonneg; lia|]. apply Z.pow_lt_mono_r; lia.
Qed.

(** The bits an [orBits] loop sets, for shifts that do not collide. *)
Lemma orBits_testbit shift x i y k :
  (forall j, i <= j < i + Z.of_nat (length x) -> 0 <= shift j < 64) -> 0 <= k ->
  Z.testbit (orBits shift x i y) k =
    Z.testbit y k || existsb (fun p : nat * bool => snd p && (shift (i + Z.of_nat (fst p)) =? k))
                       (zip (seq 0 (length x)) x).
Proof.
  intros Hs Hk. revert i y Hs. induction x as [|b x IH]; intros i y Hs; cbn [orBits].
  { cbn. by rewrite orb_false_r. }
  rewrite IH by (intros j Hj; apply Hs; cbn; lia). cbn [length seq zip_with existsb fst snd].
  assert (existsb (fun p : nat * bool => snd p && (shift (i + 1 + Z.of_nat (fst p)) =? k))
            (zip (seq 0 (length x)) x) =
          existsb (fun p : nat * bool => snd p && (shift (i + Z.of_nat (fst p)) =? k))
            (zip (seq 1 (length x)) x)) as ->.
  { rewrite <- fmap_S_seq. clear. generalize (seq 0 (length x)) as s.
    induction x as [|c x IH]; intros [|n s]; cbn [fmap list_fmap zip_with existsb fst snd]; try done.
    rewrite IH. do 4 f_equal. lia. }
  rewrite orb_assoc. f_equal. rewrite Z.add_0_r.
  destruct b; cbn [andb]; [|by rewrite orb_false_r].
  rewrite Z.lor_spec, shl_one by (apply Hs; cbn; lia).
  specialize (Hs i ltac:(cbn; lia)). by rewrite Z.pow2_bits_eqb by lia.
Qed.

(** A loop over the filled bits gives the number back. *)
Lemma orBits_fill shift n x :
  0 <= n <= 64 -> 0 <= x < 2 ^ n ->
  (forall j, 0 <= j < n -> 0 <= shift j < n) -> (forall k, 0 <= k < n -> shift (shift k) = k) ->
  orBits shift (fillBits n (fun i => Z.testbit x (shift i))) 0 0 = x.
Proof.
  intros Hn Hx Hs Hinv. apply Z.bits_inj'. intros k Hk. pose proof (fillBits_length n (fun i => Z.testbit x (shift i))) as Hlen.
  rewrite orBits_testbit; [|intros j Hj; rewrite Hlen in Hj; specialize (Hs j); lia|done].
  rewrite Z.bits_0, Hlen. cbn [orb].
  apply Bool.eq_true_iff_eq. rewrite existsb_exists.
  assert (Z.testbit x k = true -> k < n) as Hkn.
  { intros Ht. destruct (Z.ltb_spec k n) as [|Hge]; [done|].
    destruct (decide (x = 0)) as [->|]; [by rewrite Z.bits_0 in Ht|].
    rewrite Z.bits_above_log2 in Ht; [done|lia|]. apply Z.lt_le_trans with n; [|done].
    apply Z.log2_lt_pow2; lia. }
  split.
  - intros ([j b] & Hin & Hb). apply andb_prop in Hb as [Hb Heq]. cbn in Hb, Heq. subst b.
    apply Z.eqb_eq in Heq. cbn in Heq.
    apply list_elem_of_In, list_elem_of_lookup in Hin as [m Hm].
    apply lookup_zip_with_Some in Hm as (j' & b' & [= -> ->] & Hj & Hb).
    apply lookup_seq in Hj as [-> Hlt]. unfold fillBits in Hb.
    apply list_lookup_fmap_Some in Hb as (q & Hb & Hq). apply lookup_seq in Hq as [-> Hltm].
    by rewrite <- Heq, Hb.
  - intros Ht. specialize (Hkn Ht).
    exists (Z.to_nat (shift k), true). specialize (Hs k ltac:(lia)). split.
    + apply list_elem_of_In, list_elem_of_lookup. exists (Z.to_nat (shift k)).
      apply lookup_zip_with_Some. do 2 eexists. split; [reflexivity|]. split.
      { apply lookup_seq. split; [done|lia]. }
      unfold fillBits. rewrite list_lookup_fmap, lookup_seq_lt by lia. cbn.
      rewrite Z2Nat.id by lia. by rewrite Hinv, Ht by lia.
    + cbn [fst snd]. rewrite Z2Nat.id, Z.add_0_l, Hinv by lia. cbn. by apply Z.eqb_refl.
Qed.

Lemma maxValue_ok n : 1 <= n <= 8 -> u64 (shl64 1 (8 * n) - 1) = 2 ^ (8 * n) - 1.
Proof. intros Hn. assert (n ∈ [1;2;3;4;5;6;7;8]) as H by (rewrite !elem_of_cons; lia).
  apply (proj1 (Forall_forall (fun n => u64 (shl64 1 (8 * n) - 1) = 2 ^ (8 * n) - 1) [1;2;3;4;5;6;7;8])); [|done].
  repeat constructor.
Qed.

Lemma fillBits_reverse n f :
  reverse (fillBits n f) = fillBits n (fun i => f (n - 1 - i)).
Proof.
  apply list_eq. intros i. destruct (decide (i < Z.to_nat n)%nat) as [Hi|Hi].
  - rewrite reverse_lookup by (by rewrite fillBits_length). rewrite fillBits_length.
    unfold fillBits. rewrite !list_lookup_fmap, !lookup_seq_lt by lia. cbn. do 2 f_equal. lia.
  - rewrite !lookup_ge_None_2; [done|rewrite fillBits_length; lia|rewrite length_reverse, fillBits_length; lia].
Qed.

Lemma size_guard n : 1 <= n <= 8 -> (n <? 1) || (8 <? n) = false.
Proof. intros. apply orb_false_iff. lia. Qed.

Lemma UnsignedToBits_eq x n : 1 <= n <= 8 -> 0 <= x < 2 ^ (8 * n) ->
  UnsignedToBits x n = Some (fillBits (8 * n) (fun i => Z.testbit x (8 * n - 1 - i))).
Proof.
  intros Hn Hx. unfold UnsignedToBits. rewrite size_guard, maxValue_ok by done.
  destruct (Z.ltb_spec (2 ^ (8 * n) - 1) x); [lia|]. f_equal. apply fillBits_ext.
  intros i Hi. apply bit_test. lia.
Qed.

(** Bit sequences represent every number of [n] bytes, most significant
    bit first: [UnsignedToBits] gives [8 n] bits from which [BitsToUnsigned]
    recovers the number.  The reversed conversions use the reverse sequence
    and recover the number too, except for [n = 8], where
    [ReverseUnsignedToBits] rejects every number. *)
Theorem bits_roundtrip x n :
  1 <= n <= 8 -> 0 <= x < 2 ^ (8 * n) ->
  exists bits, UnsignedToBits x n = Some bits /\ Z.of_nat (length bits) = 8 * n /\
    BitsToUnsigned bits n = Some x /\ ReverseBitsToUnsigned (reverse bits) n = Some x /\
    ReverseUnsignedToBits x n = if n =? 8 then None else Some (reverse bits).
Proof.
  intros Hn Hx. eexists. rewrite UnsignedToBits_eq by done. split; [done|].
  rewrite fillBits_length. split; [lia|].
  assert (reverse (fillBits (8 * n) (fun i => Z.testbit x (8 * n - 1 - i))) =
    fillBits (8 * n) (fun i => Z.testbit x i)) as Hrev.
  { rewrite fillBits_reverse. apply fillBits_ext. intros i Hi. f_equal. lia. }
  unfold BitsToUnsigned, ReverseBitsToUnsigned, ReverseUnsignedToBits.
  rewrite Hrev, !fillBits_length, size_guard, Z2Nat.id, Z.eqb_refl by lia. cbn [negb].
  split_and!.
  - f_equal. by apply orBits_fill; [lia|done|lia|lia].
  - f_equal. by apply (orBits_fill (fun i => i)); [lia|done|lia|lia].
  - destruct (Z.eqb_spec n 8) as [->|Hne].
    + change (shl64 1 (8 * 8)) with 0. by destruct (Z.leb_spec 0 x); [|lia].
    + rewrite shl_one by lia. destruct (Z.leb_spec (2 ^ (8 * n)) x); [lia|].
      f_equal. apply fillBits_ext. intros i Hi. apply bit_test. lia.
Qed.
