(* ===== verification/Decode.v ===== *)
(** * Operand decoding

    src/PVM/decode.go (A.5.2 to A.5.13), the integer readers of
    src/PVM/single_initializer.go and [DeserializeFixedLength] of
    src/internal/utilities/deserialization.go.

    A decoder reads the instruction slice at [pc]; all positions are [uint32]
    and wrap.  [None] is a returned Go [error], [Crash] an index or slice
    bound out of range.  An operand range may reach past the length of the
    instruction slice as long as it stays inside its capacity, which is what
    Go's re-slicing allows. *)

From S2P Require Import Prelude Words ExitReasons Opcodes.
Local Open Scope Z_scope.

(** [result |= uint64(data[i]) << (8*i)] for [i < n]. *)
Fixpoint orLE (data : list Z) (i acc : Z) : Z :=
  match data with
  | [] => acc
  | b :: data => orLE data (i + 1) (Z.lor acc (shl64 b (8 * i)))
  end.

(** [DeserializeFixedLength[U64]] *)
Definition DeserializeFixedLength (data : list Z) (l : Z) : option Z :=
  if l =? 0 then Some 0
  else if negb (Z.of_nat (length data) =? l) then None
  else Some (orLE data 0 0).

(** [ReadUintFixed]: the value and the rest of the data. *)
Definition ReadUintFixed (data : gslice) (numBytes : Z) : go (option (Z * gslice)) :=
  if numBytes =? 0 then Ret (Some (0, data))
  else if (8 <? numBytes) || (numBytes <? 0) then Ret None
  else if slen data <? numBytes then Ret None
  else
    rest ← sfrom data numBytes;
    Ret (Some (orLE (take (Z.to_nat numBytes) (elems data)) 0 0, rest)).

Definition ReadUintSignExtended (data : gslice) (numBytes : Z) : go (option (Z * gslice)) :=
  ⟪ (value, data) ⟫ ⇠ ReadUintFixed data numBytes ⊘ Ret None;
  let '(value, err) := SignExtend (u8 numBytes) value in
  if err then Ret None else Ret (Some (value, data)).

(** [int64(value)] *)
Definition ReadIntFixed (data : gslice) (numBytes : Z) : go (option (Z * gslice)) :=
  ⟪ (value, data) ⟫ ⇠ ReadUintSignExtended data numBytes ⊘ Ret None;
  Ret (Some (s64 value, data)).

Definition ReadBytes (data : gslice) (numBytes : Z) : go (option (gslice * gslice)) :=
  if slen data <? numBytes then Ret None
  else
    b ← sto data numBytes;
    rest ← sfrom data numBytes;
    Ret (Some (b, rest)).

(** [min(4, max(0, x))] on a [uint32]: the [max] has no effect. *)
Definition immLen (x : Z) : Z := Z.min 4 (Z.max 0 (u32 x)).

Definition getRegModIndex (code : gslice) (pc : Z) : go Z :=
  b ← sindex code (u32 (pc + 1)); Ret (Z.min 12 (b mod 16)).

Definition getRegFloorIndex (code : gslice) (pc : Z) : go Z :=
  b ← sindex code (u32 (pc + 1)); Ret (Z.min 12 (shr b 4)).

(** A.5.2: [int(immediate)] *)
Definition decodeOneImmediate (code : gslice) (pc skipLength : Z) : go (option Z) :=
  let lX := Z.min 4 skipLength in
  immediateData ← sslice code (u32 (pc + 1)) (u32 (pc + lX + 1));
  ⟪ (immediate, _) ⟫ ⇠ ReadUintSignExtended immediateData (slen immediateData) ⊘ Ret None;
  Ret (Some (s64 immediate)).

(** A.5.4 *)
Definition decodeTwoImmediates (code : gslice) (pc skipLength : Z) : go (option (Z * Z)) :=
  b ← sindex code (u32 (pc + 1));
  let lX := Z.min 4 b in
  d1 ← sslice code (u32 (pc + 2)) (u32 (pc + 2 + lX));
  match DeserializeFixedLength (elems d1) lX with
  | None => Ret None
  | Some decodedVX =>
      let '(vX, err) := SignExtend (u8 lX) decodedVX in
      if err then Ret None
      else
        let lY := immLen (skipLength - lX - 1) in
        d2 ← sslice code (u32 (pc + 2 + lX)) (u32 (pc + 2 + lX + lY));
        match DeserializeFixedLength (elems d2) lY with
        | None => Ret None
        | Some decodedVy =>
            let '(vY, err) := SignExtend (u8 lY) decodedVy in
            if err then Ret None else Ret (Some (vX, vY))
        end
  end.

(** A.5.5: the target [pc + ProgramCounter(offset)] *)
Definition decodeOneOffset (code : gslice) (pc skipLength : Z) : go (option Z) :=
  let lX := Z.min 4 skipLength in
  offsetData ← sslice code (u32 (pc + 1)) (u32 (pc + 1 + lX));
  ⟪ (offset, _) ⟫ ⇠ ReadIntFixed offsetData (slen offsetData) ⊘ Ret None;
  Ret (Some (u32 (pc + u32 offset))).

(** A.5.6 *)
Definition decodeOneRegisterAndOneImmediate (code : gslice) (pc skipLength : Z)
    : go (option (Z * Z)) :=
  b ← sindex code (u32 (pc + 1));
  let rA := Z.min 12 (b mod 16) in
  let lX := immLen (skipLength - 1) in
  immediateData ← sslice code (u32 (pc + 2)) (u32 (pc + 2 + lX));
  ⟪ (immediate, _) ⟫ ⇠ ReadUintSignExtended immediateData (slen immediateData) ⊘ Ret None;
  Ret (Some (rA, immediate)).

(** A.5.7 *)
Definition decodeOneRegisterAndTwoImmediates (code : gslice) (pc skipLength : Z)
    : go (option (Z * Z * Z)) :=
  b ← sindex code (u32 (pc + 1));
  let rA := Z.min 12 (b mod 16) in
  let lX := Z.min 4 (shr b 4) in
  let pcMargin := u32 (pc + 2 + lX) in
  d1 ← sslice code (u32 (pc + 2)) pcMargin;
  match DeserializeFixedLength (elems d1) lX with
  | None => Ret None
  | Some decodedVX =>
      let '(vX, err) := SignExtend (u8 lX) decodedVX in
      if err then Ret None
      else
        let lY := immLen (skipLength - lX - 1) in
        d2 ← sslice code pcMargin (u32 (pcMargin + lY));
        match DeserializeFixedLength (elems d2) lY with
        | None => Ret None
        | Some decodedVY =>
            let '(vY, err) := SignExtend (u8 lY) decodedVY in
            if err then Ret None else Ret (Some (rA, vX, vY))
        end
  end.

(** A.5.8 *)
Definition decodeOneRegisterOneImmediateAndOneOffset (code : gslice) (pc skipLength : Z)
    : go (option (Z * Z * Z)) :=
  b ← sindex code (u32 (pc + 1));
  let rA := Z.min 12 (b mod 16) in
  let lX := Z.min 4 (shr b 4 mod 8) in
  let lY := immLen (skipLength - lX - 1) in
  immediateData ← sslice code (u32 (pc + 2)) (u32 (pc + 2 + lX));
  ⟪ (immediate, _) ⟫ ⇠ ReadUintSignExtended immediateData (slen immediateData) ⊘ Ret None;
  offsetData ← sslice code (u32 (pc + 2 + lX)) (u32 (pc + 2 + lX + lY));
  ⟪ (offset, _) ⟫ ⇠ ReadIntFixed offsetData (slen offsetData) ⊘ Ret None;
  Ret (Some (rA, immediate, u32 (pc + u32 offset))).

(** A.5.9: [rD], [rA] *)
Definition decodeTwoRegisters (code : gslice) (pc : Z) : go (option (Z * Z)) :=
  if slen code <=? u32 (pc + 1) then Ret None
  else
    rD ← getRegModIndex code pc;
    rA ← getRegFloorIndex code pc;
    Ret (Some (rD, rA)).

(** A.5.10 *)
Definition decodeTwoRegistersAndOneImmediate (code : gslice) (pc skipLength : Z)
    : go (option (Z * Z * Z)) :=
  b ← sindex code (u32 (pc + 1));
  let rA := Z.min 12 (Z.land b 15) in
  let rB := Z.min 12 (shr b 4) in
  let lX := immLen (skipLength - 1) in
  d ← sslice code (u32 (pc + 2)) (u32 (pc + 2 + lX));
  match DeserializeFixedLength (elems d) lX with
  | None => Ret None
  | Some decodedVX =>
      let '(vX, err) := SignExtend (u8 lX) decodedVX in
      if err then Ret None else Ret (Some (rA, rB, vX))
  end.

(** A.5.11 *)
Definition decodeTwoRegistersAndOneOffset (code : gslice) (pc skipLength : Z)
    : go (option (Z * Z * Z)) :=
  b ← sindex code (u32 (pc + 1));
  let rA := Z.min 12 (b mod 16) in
  let rB := Z.min 12 (shr b 4) in
  let lX := immLen (skipLength - 1) in
  offsetData ← sslice code (u32 (pc + 2)) (u32 (pc + 2 + lX));
  ⟪ (offset, _) ⟫ ⇠ ReadIntFixed offsetData (slen offsetData) ⊘ Ret None;
  Ret (Some (rA, rB, u32 (pc + u32 offset))).

(** A.5.12 *)
Definition decodeTwoRegistersAndTwoImmediates (code : gslice) (pc skipLength : Z)
    : go (option (Z * Z * Z * Z)) :=
  b ← sindex code (u32 (pc + 1));
  let rA := Z.min 12 (b mod 16) in
  let rB := Z.min 12 (shr b 4) in
  b2 ← sindex code (u32 (pc + 2));
  let lX := Z.min 4 (b2 mod 8) in
  let lY := immLen (skipLength - lX - 2) in
  vXData ← sslice code (u32 (pc + 3)) (u32 (pc + 3 + lX));
  ⟪ (vX, _) ⟫ ⇠ ReadUintFixed vXData (slen vXData) ⊘ Ret None;
  vYData ← sslice code (u32 (pc + 3 + lX)) (u32 (pc + 3 + lX + lY));
  ⟪ (vY, _) ⟫ ⇠ ReadUintFixed vYData (slen vYData) ⊘ Ret None;
  Ret (Some (rA, rB, vX, vY)).

(** A.5.13: [rA], [rB], [rD] *)
Definition decodeThreeRegisters (code : gslice) (pc : Z) : go (option (Z * Z * Z)) :=
  if slen code <=? u32 (pc + 2) then Ret None
  else
    rA ← getRegModIndex code pc;
    rB ← getRegFloorIndex code pc;
    b ← sindex code (u32 (pc + 2));
    Ret (Some (rA, rB, Z.min 12 b)).
