(* ===== verification/DecodeSpec.v ===== *)
(** * Facts about the operand decoders

    The byte loops read little-endian integers; an operand range always has
    the requested length, so that no decoder ever returns an error. *)

From S2P Require Import Prelude Words ExitReasons Opcodes Memory MemorySpec Decode.
Local Open Scope Z_scope.

(** ** Little-endian reading *)

Lemma shl64_byte b k : is_byte b -> 0 <= k <= 56 -> shl64 b k = Z.shiftl b k.
Proof.
  intros [? ?] ?. unfold shl64. destruct (Z.ltb_spec k 64); [|lia].
  apply uN_small. rewrite Z.shiftl_mul_pow2 by lia.
  pose proof (Z.pow_le_mono_r 2 k 56). nia.
Qed.

Lemma orLE_le_val data i acc :
  Forall is_byte data -> 0 <= i -> i + Z.of_nat (length data) <= 8 ->
  orLE data i acc = Z.lor acc (Z.shiftl (le_val data) (8 * i)).
Proof.
  intros Hb. revert i acc. induction Hb as [|b data Hb Hd IH]; intros i acc Hi Hle.
  - cbn. by rewrite Z.shiftl_0_l, Z.lor_0_r.
  - cbn [orLE length] in *. rewrite IH by lia. rewrite shl64_byte by (done || lia).
    rewrite <- Z.lor_assoc. f_equal.
    change (le_val (b :: data)) with (Z.lor b (Z.shiftl (le_val data) 8)).
    rewrite Z.shiftl_lor, Z.shiftl_shiftl by lia. do 2 f_equal. lia.
Qed.

Lemma orLE_0 data :
  Forall is_byte data -> (length data <= 8)%nat -> orLE data 0 0 = le_val data.
Proof. intros. rewrite orLE_le_val by (done || lia). by rewrite Z.lor_0_l, Z.shiftl_0_r. Qed.

Lemma orLE_u64 data :
  Forall is_byte data -> (length data <= 8)%nat -> is_u64 (orLE data 0 0).
Proof.
  intros Hb Hl. rewrite orLE_0 by done. pose proof (le_val_range data Hb).
  pose proof (Z.pow_le_mono_r 2 (8 * Z.of_nat (length data)) 64). unfold is_u64. lia.
Qed.

(** ** Operand ranges *)

Lemma immLen_range x : 0 <= immLen x <= 4.
Proof. unfold immLen. pose proof (uN_range 32 x). lia. Qed.

Lemma sslice_length s a l d :
  0 <= l < 2 ^ 32 -> sslice s (u32 a) (u32 (a + l)) = Ret d -> slen d = l.
Proof.
  intros Hl H. unfold sslice in H. destruct (_ && _) eqn:E in H; [|done]. go_inv.
  apply andb_prop in E as [E1 E2]. apply andb_prop in E1 as [E0 E1].
  apply Z.leb_le in E0, E1, E2. unfold slen, scap in *. cbn.
  rewrite length_take, length_drop.
  assert (u32 (a + l) - u32 a = l).
  { unfold uN in *. pose proof (Z.mod_pos_bound a (2 ^ 32)).
    pose proof (Z.div_mod a (2 ^ 32)). pose proof (Z.div_mod (a + l) (2 ^ 32)).
    pose proof (Z.mod_pos_bound (a + l) (2 ^ 32)). nia. }
  lia.
Qed.

Lemma sslice_bytes s a b d :
  Forall is_byte (elems s ++ spare s) -> sslice s a b = Ret d -> Forall is_byte (elems d).
Proof.
  intros Hs H. unfold sslice in H. case_match; [|done]. go_inv. cbn.
  by apply Forall_take, Forall_drop.
Qed.

Lemma sslice_Ret s a b d : sslice s a b = Ret d -> 0 <= a <= b.
Proof.
  unfold sslice. intros H. destruct (_ && _) eqn:E in H; [|done].
  apply andb_prop in E as [E _]. apply andb_prop in E as [E0 E1].
  apply Z.leb_le in E0, E1. lia.
Qed.

(** The slices of operand data: a well-formed code slice. *)
Definition wf_code (s : gslice) : Prop := Forall is_byte (elems s ++ spare s).

Lemma wf_code_index s i b : wf_code s -> sindex s i = Ret b -> is_byte b.
Proof.
  intros Hs H. apply zindex_Ret, zlookup_elem_of in H. unfold wf_code in Hs.
  apply Forall_app in Hs as [Hs _]. by apply (proj1 (Forall_forall _ _) Hs).
Qed.

(** [uint8] of a length, and the widths [SignExtend] accepts. *)
Lemma SignExtend_imm l x : 0 <= l <= 4 -> snd (SignExtend (u8 l) x) = false.
Proof.
  intros H. rewrite uN_small by lia.
  assert (l = 0 \/ l = 1 \/ l = 2 \/ l = 3 \/ l = 4) as [-> | [-> | [-> | [-> | -> ] ] ] ]
    by lia; done.
Qed.

Lemma DeserializeFixedLength_ok d l :
  slen d = l -> DeserializeFixedLength (elems d) l =
    Some (if l =? 0 then 0 else orLE (elems d) 0 0).
Proof.
  intros H. unfold DeserializeFixedLength, slen in *. destruct (Z.eqb_spec l 0); [done|].
  by destruct (Z.eqb_spec (Z.of_nat (length (elems d))) l).
Qed.

Lemma ReadUintFixed_ok d l :
  slen d = l -> 0 <= l <= 8 ->
  exists rest, ReadUintFixed d l = Ret (Some (if l =? 0 then 0 else orLE (elems d) 0 0, rest)).
Proof.
  intros Hd Hl. unfold ReadUintFixed. destruct (Z.eqb_spec l 0); [eauto|].
  destruct (Z.ltb_spec 8 l), (Z.ltb_spec l 0), (Z.ltb_spec (slen d) l); try lia. cbn [orb].
  unfold sfrom. rewrite sslice_ok by lia. cbn [mbind go_bind].
  rewrite take_ge by (unfold slen in *; lia). eauto.
Qed.

Lemma ReadUintSignExtended_ok d l :
  slen d = l -> 0 <= l <= 4 ->
  exists rest, ReadUintSignExtended d l =
    Ret (Some (fst (SignExtend (u8 l) (if l =? 0 then 0 else orLE (elems d) 0 0)), rest)).
Proof.
  intros Hd Hl. unfold ReadUintSignExtended.
  destruct (ReadUintFixed_ok d l Hd ltac:(lia)) as [rest ->]. cbn [mbind go_bind].
  pose proof (SignExtend_imm l (if l =? 0 then 0 else orLE (elems d) 0 0) Hl) as He.
  destruct (SignExtend _ _) as [v e]. cbn in *. subst. eauto.
Qed.

Lemma ReadIntFixed_ok d l :
  slen d = l -> 0 <= l <= 4 -> exists v rest, ReadIntFixed d l = Ret (Some (v, rest)).
Proof.
  intros Hd Hl. unfold ReadIntFixed.
  destruct (ReadUintSignExtended_ok d l Hd Hl) as [rest ->]. cbn. eauto.
Qed.

(** ** No decoder returns an error *)

(** Case analysis along a decoder: every operand range has its length. *)
Ltac decode_ok :=
  repeat match goal with
  | |- context [sindex ?s ?i] =>
      let b := fresh "b" in let E := fresh "E" in
      destruct (sindex s i) as [b|] eqn:E; cbn [mbind go_bind]; [|discriminate];
      try (pose proof (wf_code_index _ _ _ ltac:(eassumption) E))
  | |- context [sslice ?s (u32 ?a) (u32 (?a + ?l))] =>
      let d := fresh "d" in let E := fresh "E" in
      destruct (sslice s (u32 a) (u32 (a + l))) as [d|] eqn:E; cbn [mbind go_bind]; [|discriminate];
      apply sslice_length in E; [|cbn [is_byte] in *; lia]; rewrite ?E
  end.

Section NoError.
Context (code : gslice) (pc skipLength : Z).
Hypothesis Hcode : wf_code code.
Hypothesis Hskip : 0 <= skipLength.

Lemma shr4_range b : is_byte b -> 0 <= shr b 4 < 16.
Proof.
  intros [? ?]. unfold shr. rewrite Z.shiftr_div_pow2 by lia.
  split; [apply Z.div_pos | apply Z.div_lt_upper_bound]; lia.
Qed.

Lemma decodeOneImmediate_ok : decodeOneImmediate code pc skipLength <> Ret None.
Proof.
  unfold decodeOneImmediate. set (lX := Z.min 4 skipLength).
  replace (pc + lX + 1) with (pc + 1 + lX) by lia. decode_ok.
  destruct (ReadUintSignExtended_ok d lX E ltac:(lia)) as [? ->]. done.
Qed.

Lemma decodeOneOffset_ok : decodeOneOffset code pc skipLength <> Ret None.
Proof.
  unfold decodeOneOffset. set (lX := Z.min 4 skipLength). decode_ok.
  destruct (ReadIntFixed_ok d lX E ltac:(lia)) as (? & ? & ->). done.
Qed.

Lemma decodeOneRegisterAndOneImmediate_ok :
  decodeOneRegisterAndOneImmediate code pc skipLength <> Ret None.
Proof.
  unfold decodeOneRegisterAndOneImmediate. pose proof (immLen_range (skipLength - 1)). decode_ok.
  destruct (ReadUintSignExtended_ok d _ E0 ltac:(lia)) as [? ->]. done.
Qed.

Lemma deserialize_sign_ok d l {A} (k : Z -> go (option A)) :
  slen d = l -> 0 <= l <= 4 ->
  (forall v, k v <> Ret None) ->
  match DeserializeFixedLength (elems d) l with
  | None => Ret None
  | Some x => let '(v, err) := SignExtend (u8 l) x in if err then Ret None else k v
  end <> Ret None.
Proof.
  intros Hd Hl Hk. rewrite DeserializeFixedLength_ok by done.
  pose proof (SignExtend_imm l (if l =? 0 then 0 else orLE (elems d) 0 0) Hl).
  destruct (SignExtend _ _) as [v e]. cbn in *. subst. apply Hk.
Qed.

Lemma decodeTwoImmediates_ok : decodeTwoImmediates code pc skipLength <> Ret None.
Proof.
  unfold decodeTwoImmediates. decode_ok.
  set (lX := Z.min 4 b) in *. assert (0 <= lX <= 4) by (unfold is_byte in *; lia).
  pose proof (immLen_range (skipLength - lX - 1)). decode_ok.
  apply deserialize_sign_ok; [done..|]. intros v. decode_ok.
  apply deserialize_sign_ok; done.
Qed.

Lemma decodeOneRegisterAndTwoImmediates_ok :
  decodeOneRegisterAndTwoImmediates code pc skipLength <> Ret None.
Proof.
  unfold decodeOneRegisterAndTwoImmediates. decode_ok.
  pose proof (shr4_range b ltac:(done)). set (lX := Z.min 4 (shr b 4)) in *.
  assert (0 <= lX <= 4) by lia.
  pose proof (immLen_range (skipLength - lX - 1)). decode_ok.
  apply deserialize_sign_ok; [done..|]. intros v.
  set (lY := immLen (skipLength - lX - 1)) in *.
  replace (u32 (u32 (pc + 2 + lX) + lY)) with (u32 (pc + 2 + lX + lY))
    by (unfold uN; by rewrite Zplus_mod_idemp_l).
  decode_ok. apply deserialize_sign_ok; done.
Qed.

Lemma decodeOneRegisterOneImmediateAndOneOffset_ok :
  decodeOneRegisterOneImmediateAndOneOffset code pc skipLength <> Ret None.
Proof.
  unfold decodeOneRegisterOneImmediateAndOneOffset. decode_ok.
  set (lX := Z.min 4 (shr b 4 mod 8)) in *.
  assert (0 <= lX <= 4) by (pose proof (Z.mod_pos_bound (shr b 4) 8); lia).
  pose proof (immLen_range (skipLength - lX - 1)). decode_ok.
  destruct (ReadUintSignExtended_ok d lX E0 ltac:(lia)) as [? ->]. cbn [mbind go_bind].
  decode_ok. destruct (ReadIntFixed_ok d0 _ E1 ltac:(lia)) as (? & ? & ->). done.
Qed.

Lemma decodeTwoRegistersAndOneImmediate_ok :
  decodeTwoRegistersAndOneImmediate code pc skipLength <> Ret None.
Proof.
  unfold decodeTwoRegistersAndOneImmediate. pose proof (immLen_range (skipLength - 1)). decode_ok.
  apply deserialize_sign_ok; done.
Qed.

Lemma decodeTwoRegistersAndOneOffset_ok :
  decodeTwoRegistersAndOneOffset code pc skipLength <> Ret None.
Proof.
  unfold decodeTwoRegistersAndOneOffset. pose proof (immLen_range (skipLength - 1)). decode_ok.
  destruct (ReadIntFixed_ok d _ E0 ltac:(lia)) as (? & ? & ->). done.
Qed.

Lemma decodeTwoRegistersAndTwoImmediates_ok :
  decodeTwoRegistersAndTwoImmediates code pc skipLength <> Ret None.
Proof.
  unfold decodeTwoRegistersAndTwoImmediates. decode_ok.
  set (lX := Z.min 4 (b0 mod 8)) in *.
  assert (0 <= lX <= 4) by (pose proof (Z.mod_pos_bound b0 8); lia).
  pose proof (immLen_range (skipLength - lX - 2)). decode_ok.
  destruct (ReadUintFixed_ok d lX E1 ltac:(lia)) as [? ->]. cbn [mbind go_bind].
  decode_ok. destruct (ReadUintFixed_ok d0 _ E2 ltac:(lia)) as [? ->]. done.
Qed.

End NoError.

(** * Bitmasks

    [MakeBitMasks] marks the instruction starts of the packed bit string and
    the basic-block starts the opcodes before them determine; [skip] is the
    distance to the next instruction start, capped at 24. *)

(** Bit [q] of a packed bit string. *)
Definition bit_at (bd : list Z) (q : Z) : bool :=
  match zlookup bd (q / 8) with Some d => Z.testbit d (q mod 8) | None => false end.

(** [prev] is the last marked position below [q], at or after [i], or
    [dflt] if there is none. *)
Definition last_start (mark : Z -> bool) (i dflt q prev : Z) : Prop :=
  (i <= prev < q /\ mark prev = true /\ forall k, prev < k < q -> mark k = false) \/
  (prev = dflt /\ forall k, i <= k < q -> mark k = false).

Lemma last_start_step mark i dflt q prev :
  i < q -> last_start mark (i + 1) (if mark i then i else dflt) q prev ->
  last_start mark i dflt q prev.
Proof.
  intros Hi [(Hp & Hm & Hk)|[-> Hk]]; [left; split_and!; [lia|lia|done|done]|].
  destruct (mark i) eqn:E.
  - left. split_and!; [lia|lia|done|]. intros. apply Hk. lia.
  - right. split; [done|]. intros k Hk'. destruct (decide (k = i)) as [->|]; [done|]. apply Hk. lia.
Qed.

Lemma bit_mask d k :
  0 <= k < 8 -> is_byte d -> (0 <? Z.land d (u8 (Z.shiftl 1 k))) = Z.testbit d k.
Proof.
  intros Hk Hd.
  assert (u8 (Z.shiftl 1 k) = 2 ^ k) as ->.
  { rewrite Z.shiftl_mul_pow2, Z.mul_1_l by lia. apply uN_small.
    pose proof (Z.pow_lt_mono_r 2 k 8). lia. }
  destruct (Z.testbit d k) eqn:E.
  - apply Z.ltb_lt. assert (Z.testbit (Z.land d (2 ^ k)) k = true) as Ht
      by (by rewrite Z.land_spec, E, Z.pow2_bits_true by lia).
    destruct (Z.eq_dec (Z.land d (2 ^ k)) 0) as [H0|]; [by rewrite H0, Z.bits_0 in Ht|].
    assert (0 <= Z.land d (2 ^ k)) by (apply Z.land_nonneg; unfold is_byte in Hd; lia). lia.
  - apply Z.ltb_ge. enough (Z.land d (2 ^ k) = 0) by lia.
    apply Z.bits_inj'. intros i Hi. rewrite Z.land_spec, Z.bits_0.
    destruct (decide (i = k)) as [->|]; [by rewrite E|]. rewrite Z.pow2_bits_false by lia.
    apply andb_false_r.
Qed.

Lemma makeBitMasksLoop_spec inst bd n i prev bm :
  Forall is_byte bd -> 0 <= i ->
  makeBitMasksLoop inst bd n i prev = Ret bm ->
  forall q, i <= q < i + Z.of_nat n -> exists v, zlookup bm (q - i) = Some v /\
    ((v = 0 /\ bit_at bd q = false) \/
     (bit_at bd q = true /\ v = 3 /\ q = 0) \/
     (bit_at bd q = true /\ q <> 0 /\ exists p op, last_start (bit_at bd) i prev q p /\
       sindex inst p = Ret op /\ v = if IsBlockTerminator op then 3 else 1)).
Proof.
  intros Hbd. revert i prev bm. induction n as [|n IH]; intros i prev bm Hi H q Hq; [lia|].
  cbn [makeBitMasksLoop] in H. apply go_bind_inv in H as (d & Hd & H).
  apply zindex_Ret in Hd.
  assert (is_byte d) as Hdb by (apply (proj1 (Forall_forall _ _) Hbd); by eapply zlookup_elem_of).
  rewrite bit_mask in H by (done || apply Z.mod_pos_bound; lia).
  assert (bit_at bd i = Z.testbit d (i mod 8)) as Hbit by (unfold bit_at; by rewrite Hd).
  rewrite <- Hbit in H.
  assert (Hcons : forall (b : Z) l, i < q -> zlookup (b :: l) (q - i) = zlookup l (q - (i + 1))).
  { intros. unfold zlookup. destruct (Z.ltb_spec (q - i) 0), (Z.ltb_spec (q - (i + 1)) 0); try lia.
    replace (Z.to_nat (q - i)) with (S (Z.to_nat (q - (i + 1)))) by lia. done. }
  destruct (bit_at bd i) eqn:Eb.
  - apply go_bind_inv in H as (start & Hst & H). apply go_bind_inv in H as (rest & Hrest & H).
    injection H as <-. destruct (decide (q = i)) as [->|].
    + rewrite Z.sub_diag. eexists. split; [done|]. right.
      destruct (Z.eqb_spec i 0) as [->|]; [injection Hst as <-; by left|]. right.
      apply go_bind_inv in Hst as (op & Hop & [= <-]). split_and!; [done..|].
      exists prev, op. split_and!; [|done|by case_match]. right. split; [done|lia].
    + rewrite Hcons by lia. destruct (IH (i + 1) _ _ ltac:(lia) Hrest q ltac:(lia)) as (v & Hv & Hc).
      exists v. split; [done|]. destruct Hc as [?|[(_ & _ & ->)|(? & ? & p & op & Hl & ?)]];
        [auto|lia|]. right. right. split_and!; [done..|]. exists p, op. split; [|done].
      apply last_start_step; [lia|]. by rewrite Eb.
  - apply go_bind_inv in H as (rest & Hrest & H). injection H as <-.
    destruct (decide (q = i)) as [->|].
    + rewrite Z.sub_diag. eexists. split; [done|]. by left.
    + rewrite Hcons by lia. destruct (IH (i + 1) _ _ ltac:(lia) Hrest q ltac:(lia)) as (v & Hv & Hc).
      exists v. split; [done|]. destruct Hc as [?|[(_ & _ & ->)|(? & ? & p & op & Hl & ?)]];
        [auto|lia|]. right. right. split_and!; [done..|]. exists p, op. split; [|done].
      apply last_start_step; [lia|]. by rewrite Eb.
Qed.

(** The bitmask of a code: one mark per position, instruction starts, and
    basic blocks exactly after terminators. *)
Record wf_bitmask (code : gslice) (bm : Bitmask) : Prop := {
  bm_length : length bm = length (elems code);
  bm_block : forall q, IsStartOfBasicBlock bm q = true ->
    IsStartOfInstruction bm q = true /\
    (q = 0 \/ exists p op, last_start (IsStartOfInstruction bm) 0 0 q p /\
      sindex code p = Ret op /\ IsBlockTerminator op = true)
}.

Lemma start_range bm q : IsStartOfInstruction bm q = true -> 0 <= q < Z.of_nat (length bm).
Proof.
  unfold IsStartOfInstruction. destruct (zlookup bm q) eqn:E; [|done]. intros _.
  by eapply zlookup_Some.
Qed.

Lemma block_range bm q : IsStartOfBasicBlock bm q = true -> 0 <= q < Z.of_nat (length bm).
Proof.
  unfold IsStartOfBasicBlock. destruct (zlookup bm q) eqn:E; [|done]. intros _.
  by eapply zlookup_Some.
Qed.

Lemma makeBitMasks_marks code bd bm :
  Forall is_byte bd -> MakeBitMasks code bd = Ret (Some bm) ->
  length bm = length (elems code) /\
  forall q, 0 <= q < slen code ->
    IsStartOfInstruction bm q = bit_at bd q /\
    (IsStartOfBasicBlock bm q = true <->
      bit_at bd q = true /\
      (q = 0 \/ exists p op, last_start (bit_at bd) 0 0 q p /\
        sindex code p = Ret op /\ IsBlockTerminator op = true)).
Proof.
  intros Hbd H. unfold MakeBitMasks in H. case_match; [done|].
  apply go_bind_inv in H as (bm' & Hb & [= <-]). pose proof Hb as Hlen%makeBitMasksLoop_length.
  unfold slen in *. rewrite Nat2Z.id in *. split; [done|]. intros q Hq.
  destruct (makeBitMasksLoop_spec _ _ _ 0 _ _ Hbd ltac:(lia) Hb q ltac:(lia)) as (v & Hv & Hc).
  rewrite Z.sub_0_r in Hv. unfold IsStartOfInstruction, IsStartOfBasicBlock. rewrite Hv.
  destruct Hc as [(-> & ->)|[(-> & -> & ->)|(-> & Hq0 & p & op & Hl & Hop & ->)]].
  - split; [done|]. split; [done|]. by intros [? _].
  - split; [done|]. split; [by auto|done].
  - split; [by destruct (IsBlockTerminator op)|]. destruct (IsBlockTerminator op) eqn:Et.
    + split; [|done]. intros _. split; [done|]. right. eauto.
    + split; [done|]. intros [_ [?|(p' & op' & Hl' & Hop' & Ht')]]; [done|].
      assert (p = p') as <-; [|congruence].
      destruct Hl as [(? & Hm & Hk)|[-> Hk]], Hl' as [(? & Hm' & Hk')|[-> Hk']]; try done.
      * destruct (Z.lt_trichotomy p p') as [?|[?|?]]; [|done|];
          [by rewrite Hk in Hm' by lia | by rewrite Hk' in Hm by lia].
      * by rewrite Hk' in Hm by lia.
      * by rewrite Hk in Hm' by lia.
Qed.

Lemma makeBitMasks_wf code bd bm :
  Forall is_byte bd -> MakeBitMasks code bd = Ret (Some bm) -> wf_bitmask code bm.
Proof.
  intros Hbd H. destruct (makeBitMasks_marks _ _ _ Hbd H) as [Hlen Hq]. split; [done|].
  intros q Hb. pose proof (block_range _ _ Hb) as Hr. rewrite Hlen in Hr.
  destruct (Hq q Hr) as [Hs Hiff]. apply Hiff in Hb as [Hbit Hc]. split; [congruence|].
  destruct Hc as [?|(p & op & Hl & Hop)]; [by left|]. right. exists p, op. split; [|done].
  assert (forall k, 0 <= k < q -> IsStartOfInstruction bm k = bit_at bd k) as Hk
    by (intros; apply Hq; unfold slen in *; lia).
  destruct Hl as [(? & Hm & Hno)|[-> Hno]].
  - left. split_and!; [lia|lia|rewrite Hk by lia; done|]. intros. rewrite Hk by lia. by apply Hno.
  - right. split; [done|]. intros. rewrite Hk by lia. by apply Hno.
Qed.

(** [MakeBitMasks] marks an instruction start exactly at the set bits, and
    a basic-block start exactly at position 0 and at the instruction starts
    whose previous instruction (position 0 when there is none) is a block
    terminator. *)
Theorem MakeBitMasks_spec code bd bm :
  Forall is_byte bd -> MakeBitMasks code bd = Ret (Some bm) ->
  length bm = length (elems code) /\
  forall q, 0 <= q < slen code ->
    IsStartOfInstruction bm q = bit_at bd q /\
    (IsStartOfBasicBlock bm q = true <->
      bit_at bd q = true /\
      (q = 0 \/ exists p op, last_start (bit_at bd) 0 0 q p /\
        sindex code p = Ret op /\ IsBlockTerminator op = true)).
Proof. apply makeBitMasks_marks. Qed.
