(* ===== verification/Interp.v ===== *)
(** * Interpreter state and jumps

    src/PVM/pvm_types.go, the [Program] of src/PVM/program_code.go, the
    instruction metadata of src/PVM/block_info.go and src/PVM/branch.go. *)

From S2P Require Import Prelude Words ExitReasons Opcodes Memory MemorySpec Decode.
Local Open Scope Z_scope.

Record JumpTable := MkJumpTable { Data : gslice; Length : Z; Size : Z }.

(** The pre-resolved handler [Exec] of the Go structure is always
    [instrMetaExecForOpcode(Opcode)]; it is resolved where it is called. *)
Record InstrMeta := MkInstr {
  PC : Z; Opcode : Z; SkipLen : Z;
  Dst : Z; Src0 : Z; Src1 : Z; Imm0 : Z; Imm1 : Z
}.

Record BlockMeta := MkBlock {
  StartPC : Z; EndPC : Z; InstrStart : Z; InstrEnd : Z; GasCost : Z
}.

Definition InstrCount (b : BlockMeta) : Z := InstrEnd b - InstrStart b.

Record Program := MkProgram {
  InstructionData : gslice;
  Bitmasks : Bitmask;
  JumpTab : JumpTable;
  Instrs : list InstrMeta;
  BlockAt : list (option BlockMeta);
  InstrIdxAt : list Z
}.

Record Interpreter := MkInterp {
  Prog : Program;
  Registers : list Z;
  Mem : Memory;
  Gas : Z
}.

Definition set_regs (interp : Interpreter) (r : list Z) : Interpreter :=
  MkInterp (Prog interp) r (Mem interp) (Gas interp).
Definition set_mem (interp : Interpreter) (m : Memory) : Interpreter :=
  MkInterp (Prog interp) (Registers interp) m (Gas interp).
Definition set_gas (interp : Interpreter) (g : Z) : Interpreter :=
  MkInterp (Prog interp) (Registers interp) (Mem interp) g.

(** [interp.Registers[i]] and [interp.Registers[i] = v]: the array has 13
    elements, any other index is a run-time panic. *)
Definition reg (interp : Interpreter) (i : Z) : go Z := zindex (Registers interp) i.
Definition setReg (interp : Interpreter) (i v : Z) : go Interpreter :=
  r ← zupdate (Registers interp) i v; Ret (set_regs interp r).

(** The result of a handler: the mutated interpreter, the exit reason and
    the new program counter. *)
Abbreviation outcome := (go (Interpreter * Z * Z)).

(** A load or store with the memory of the interpreter. *)
Definition interpStore (interp : Interpreter) (offset memIndex immediate : Z)
    : go (Interpreter * Z) :=
  '(m, reason) ← storeIntoMemory (Mem interp) offset memIndex immediate;
  Ret (set_mem interp m, reason).
Definition interpLoad (interp : Interpreter) (offset vx : Z) : go (Z * Z) :=
  loadFromMemory (Mem interp) offset vx.

(** ** src/PVM/branch.go *)

Definition isOpcodeValid (code : gslice) (pc : Z) : go bool :=
  op ← sindex code pc; Ret (IsValidOpcode op).

Definition branch (pc b : Z) (C : bool) (bitmask : Bitmask) (instruction : gslice)
    : go (Z * Z) :=
  if negb C then Ret (ExitContinue, pc)
  else if negb (IsStartOfBasicBlock bitmask b) then
    valid ← isOpcodeValid instruction b;
    if valid : bool then Ret (ExitPanic, pc) else Ret (ExitContinue, b)
  else Ret (ExitContinue, b).

Definition djump (pc a : Z) (jumpTable : JumpTable) (bitmask : Bitmask) : go (Z * Z) :=
  if a =? 0xffff0000 then Ret (ExitHalt, pc)
  else if (a =? 0) || (u32 (Size jumpTable * ZA) <? a) || negb (a mod ZA =? 0)
  then Ret (ExitPanic, pc)
  else
    let index := u32 (a / ZA - 1) in
    d ← sfrom (Data jumpTable) (u32 (index * Length jumpTable));
    ⟪ (dest, _) ⟫ ⇠ ReadUintFixed d (Length jumpTable) ⊘ Crash;
    let newPC := u32 dest in
    if negb (IsStartOfBasicBlock bitmask newPC) then Ret (ExitPanic, pc)
    else Ret (ExitContinue, newPC).

(** [code.isOpcode]: an invalid opcode reads as 0 ([trap]). *)
Definition isOpcode (code : gslice) (pc : Z) : go Z :=
  op ← sindex code pc; Ret (if IsValidOpcode op then op else 0).

(** [P] and [Z] of src/PVM/single_initializer.go: [uint32] round-up. *)
Definition pageUp (x : Z) : Z := u32 (ZP * (u32 (u32 x + ZP - 1) / ZP)).
Definition zoneUp (x : Z) : Z := u32 (ZZ * (u32 (u32 x + ZZ - 1) / ZZ)).

(** [allocateMemorySegment]: the loop [for addr := start; addr < end; addr
    += ZP]; [content] is [None] for a nil slice.  [start] advances by a page
    per iteration, so [end - start] over the page size, rounded up, bounds
    the number of iterations as long as [addr + ZP] does not wrap. *)
Fixpoint allocLoop (fuel : nat) (mem : Memory) (addr fin : Z) (content : option (list Z))
    (access : MemoryAccess) : Memory :=
  match fuel with
  | O => mem
  | S fuel =>
      if addr <? fin then
        let pageNum := addr / ZP in
        match content with
        | None =>
            let mem := match Pages mem !! pageNum with
                       | Some _ => mem
                       | None => set_page mem pageNum (MkPage (replicate (Z.to_nat ZP) 0) access)
                       end in
            allocLoop fuel mem (u32 (addr + ZP)) fin None access
        | Some content =>
            let pageSize := Nat.min (length content) (Z.to_nat ZP) in
            let page := gcopy (replicate (Z.to_nat ZP) 0) (take pageSize content) in
            allocLoop fuel (set_page mem pageNum (MkPage page access)) (u32 (addr + ZP)) fin
              (Some (drop pageSize content)) access
        end
      else mem
  end.

Definition allocateMemorySegment (mem : Memory) (start fin : Z) (content : option (list Z))
    (access : MemoryAccess) : Memory :=
  allocLoop (Z.to_nat ((fin - start) / ZP + 1)) mem start fin content access.

(** ** Well-formed states *)

Definition wf_regs (r : list Z) : Prop := length r = 13%nat /\ Forall is_u64 r.

Record wf_interp (interp : Interpreter) : Prop := {
  wf_interp_regs : wf_regs (Registers interp);
  wf_interp_mem : wf_mem (Mem interp);
  wf_interp_heap : 0 <= heapPointer (Mem interp) < 2 ^ 64;
  wf_interp_limit : 0 <= heapLimit (Mem interp) < 2 ^ 64
}.

(** A register index, and the operands of a decoded instruction. *)
Definition is_reg (i : Z) : Prop := 0 <= i < 13.

Lemma reg_ok interp i :
  wf_interp interp -> is_reg i -> exists v, reg interp i = Ret v /\ is_u64 v.
Proof.
  intros [ [Hl Hr] _ _ _] Hi. unfold is_reg in Hi.
  destruct (zindex_ok (Registers interp) i) as (v & Hv & Hin); [lia|].
  exists v. split; [done|]. by apply (proj1 (Forall_forall _ _) Hr).
Qed.

Lemma setReg_ok interp i v :
  wf_interp interp -> is_reg i ->
  setReg interp i v = Ret (set_regs interp (<[Z.to_nat i := v]> (Registers interp))).
Proof.
  intros [ [Hl Hr] _ _ _] Hi. unfold is_reg in Hi. unfold setReg.
  by rewrite zupdate_ok by lia.
Qed.

Lemma wf_set_reg interp i v :
  wf_interp interp -> is_u64 v ->
  wf_interp (set_regs interp (<[Z.to_nat i := v]> (Registers interp))).
Proof.
  intros [ [Hl Hr] Hm Hh Hx] Hv. constructor; cbn; [|done..].
  split; [by rewrite length_insert|]. by apply Forall_insert.
Qed.

Lemma wf_set_mem interp m' :
  wf_interp interp -> wf_mem m' -> heapPointer m' = heapPointer (Mem interp) ->
  heapLimit m' = heapLimit (Mem interp) -> wf_interp (set_mem interp m').
Proof. intros [? ? ? ?] ? Hp Hl. constructor; cbn; rewrite ?Hp, ?Hl; done. Qed.

(** A store keeps the interpreter well-formed and never crashes. *)
Lemma interpStore_ok interp n a v :
  wf_interp interp -> access_size n -> a < 2 ^ 32 ->
  exists interp' reason, interpStore interp n a v = Ret (interp', reason) /\ wf_interp interp' /\
    Registers interp' = Registers interp /\ Gas interp' = Gas interp /\ Prog interp' = Prog interp.
Proof.
  intros Hwf Hn Ha. pose proof Hwf as [Hr Hm Hh Hx]. unfold interpStore.
  destruct (Z.ltb_spec a (2 ^ 16)) as [Hlow|Hlow].
  - unfold storeIntoMemory. rewrite (proj2 (Z.ltb_lt _ _) Hlow).
    exists (set_mem interp (Mem interp)), ExitPanic. split; [done|].
    by split_and!; [apply wf_set_mem|..].
  - pose proof (store_refines (Mem interp) n a v Hm Hn ltac:(lia)) as Hs.
    destruct (writable (Mem interp) a n).
    + destruct Hs as (m' & -> & Hwm & _ & _ & Hp & Hl). cbn.
      do 2 eexists. split; [done|]. by split_and!; [apply wf_set_mem|..].
    + rewrite Hs. cbn. do 2 eexists. split; [done|]. by split_and!; [apply wf_set_mem|..].
Qed.

Lemma interpLoad_ok interp n a :
  wf_interp interp -> access_size n -> a < 2 ^ 32 ->
  exists v reason, interpLoad interp n a = Ret (v, reason) /\ is_u64 v.
Proof.
  intros [Hr Hm Hh Hx] Hn Ha. unfold interpLoad.
  destruct (Z.ltb_spec a (2 ^ 16)) as [Hlow|Hlow].
  - unfold loadFromMemory. rewrite (proj2 (Z.ltb_lt _ _) Hlow).
    do 2 eexists. split; [done|]. by split.
  - rewrite load_refines by (done || lia).
    destruct (mem_bytes (Mem interp) a (Z.to_nat n)) as [bs|] eqn:E; do 2 eexists; (split; [done|]).
    + pose proof (le_val_range bs ltac:(by eapply mem_bytes_bytes)) as Hb.
      rewrite (mem_bytes_length _ _ _ _ E) in Hb.
      assert (8 * Z.of_nat (Z.to_nat n) <= 64) as Hle by (unfold access_size in Hn; lia).
      pose proof (Z.pow_le_mono_r 2 _ _ ltac:(lia) Hle). unfold is_u64. lia.
    + by split.
Qed.
