(* ===== verification/Initializer.v ===== *)
(** * Initial machine state

    src/PVM/single_initializer.go: the standard program format and the
    memory and registers a program starts with (A.36 to A.42). *)

From S2P Require Import Prelude Words ExitReasons Opcodes Memory MemorySpec Decode Interp.
Local Open Scope Z_scope.

(** [c], [o], [w], [z], [s]; [None] is a returned error. *)
Definition DecodeSerializedValues (p : gslice)
    : go (option (gslice * gslice * gslice * Z * Z)) :=
  ⟪ (oLen, p) ⟫ ⇠ ReadUintFixed p 3 ⊘ Ret None;
  ⟪ (wLen, p) ⟫ ⇠ ReadUintFixed p 3 ⊘ Ret None;
  ⟪ (z, p) ⟫ ⇠ ReadUintFixed p 2 ⊘ Ret None;
  ⟪ (s, p) ⟫ ⇠ ReadUintFixed p 3 ⊘ Ret None;
  ⟪ (o, p) ⟫ ⇠ ReadBytes p oLen ⊘ Ret None;
  ⟪ (w, p) ⟫ ⇠ ReadBytes p wLen ⊘ Ret None;
  ⟪ (cLen, p) ⟫ ⇠ ReadUintFixed p 4 ⊘ Ret None;
  ⟪ (c, p) ⟫ ⇠ ReadBytes p cLen ⊘ Ret None;
  Ret (Some (c, o, w, u16 z, u32 s)).

(** [allocateStack]: the loop [for addr := start; addr < end; addr += ZP]. *)
Fixpoint stackLoop (fuel : nat) (mem : Memory) (addr fin : Z) : Memory :=
  match fuel with
  | O => mem
  | S fuel =>
      if addr <? fin then
        stackLoop fuel
          (set_page mem (addr / ZP) (MkPage (replicate (Z.to_nat ZP) 0) MemoryReadWrite))
          (u32 (addr + ZP)) fin
      else mem
  end.

Definition allocateStack (mem : Memory) (start fin : Z) : Memory :=
  stackLoop (Z.to_nat ((fin - start) / ZP + 1)) mem start fin.

(** The 13 registers a program with an argument of [aLen] bytes starts with. *)
Definition initRegisters (aLen : Z) : list Z :=
  [2 ^ 32 - 2 ^ 16; 2 ^ 32 - 2 * ZZ - ZI; 0; 0; 0; 0; 0; 2 ^ 32 - ZZ - ZI; aLen; 0; 0; 0; 0].

(** The memory [SingleInitializer] builds from the decoded parts. *)
Definition initMemory (o w : list Z) (z s : Z) (a : list Z) : Memory :=
  let oLen := Z.of_nat (length o) in
  let wLen := Z.of_nat (length w) in
  let aLen := Z.of_nat (length a) in
  let readOnlyStart := ZZ in
  let readOnlyEnd := u32 (readOnlyStart + u32 oLen) in
  let readOnlyPadding := u32 (readOnlyStart + pageUp oLen) in
  let readWriteStart := u32 (2 * ZZ + zoneUp oLen) in
  let readWriteEnd := u32 (readWriteStart + u32 wLen) in
  let readWritePadding := u32 (readWriteStart + pageUp wLen + u32 (u32 z * ZP)) in
  let heapStart := readWritePadding in
  let stackEnd := 2 ^ 32 - 2 * ZZ - ZI in
  let stackStart := u32 (stackEnd - pageUp s) in
  let argumentStart := 2 ^ 32 - ZZ - ZI in
  let argumentEnd := u32 (argumentStart + u32 aLen) in
  let argumentPadding := u32 (argumentEnd + pageUp aLen) in
  let mem := MkMemory ∅ heapStart stackStart in
  let mem := allocateMemorySegment mem readOnlyStart readOnlyEnd (Some o) MemoryReadOnly in
  let mem := allocateMemorySegment mem readOnlyEnd readOnlyPadding None MemoryReadOnly in
  let mem := allocateMemorySegment mem readWriteStart readWriteEnd (Some w) MemoryReadWrite in
  let mem := allocateMemorySegment mem readWriteEnd readWritePadding None MemoryReadWrite in
  let mem := allocateStack mem stackStart stackEnd in
  let mem := allocateMemorySegment mem argumentStart argumentEnd (Some a) MemoryReadOnly in
  allocateMemorySegment mem argumentEnd argumentPadding None MemoryReadOnly.

(** The layout check: true when the segments do not fit. *)
Definition layoutTooBig (oLen wLen z s : Z) : bool :=
  2 ^ 32 <? u64 (5 * ZZ + zoneUp oLen + zoneUp (wLen + z * ZP + s + ZI)).

(** [SingleInitializer] (A.36); [None] is [ExitPanic]. *)
Definition SingleInitializer (p a : gslice) : go (option (gslice * list Z * Memory)) :=
  ⟪ (c, o, w, z, s) ⟫ ⇠ DecodeSerializedValues p ⊘ Ret None;
  if layoutTooBig (slen o) (slen w) z s then Ret None
  else
    Ret (Some (c, initRegisters (slen a), initMemory (elems o) (elems w) z s (elems a))).
