(* ===== verification/InitializerSpec.v ===== *)
(** * The initial memory

    Page by page, what [SingleInitializer] maps: read-only data, writable
    data with its zero pages, the stack and the arguments. *)

From S2P Require Import Prelude Words ExitReasons Opcodes Memory MemorySpec Decode Interp.
From S2P Require Import Initializer DecodeSpec.
Local Open Scope Z_scope.

(** The number of pages that hold [x] bytes. *)
Definition npages (x : Z) : Z := (x + ZP - 1) / ZP.

(** A page filled from the front, and an all-zero one. *)
Definition pad (l : list Z) : list Z := gcopy (replicate (Z.to_nat ZP) 0) l.
Definition zero_page (acc : MemoryAccess) : Page := MkPage (replicate (Z.to_nat ZP) 0) acc.

(** Page [k] of a segment that starts at page [k0] with [content]. *)
Definition data_page (content : list Z) (k0 : Z) (acc : MemoryAccess) (k : Z) : Page :=
  MkPage (pad (take (Z.to_nat ZP) (drop (Z.to_nat ((k - k0) * ZP)) content))) acc.

Lemma npages_spec x : ZP * (npages x - 1) < x <= ZP * npages x.
Proof.
  unfold npages. pose proof (Z.div_mod (x + ZP - 1) ZP). pose proof (Z.mod_pos_bound (x + ZP - 1) ZP).
  change ZP with 4096 in *. lia.
Qed.

Lemma npages_sub x : npages (x - ZP) = npages x - 1.
Proof.
  unfold npages. replace (x - ZP + ZP - 1) with ((x + ZP - 1) + (-1) * ZP) by lia.
  rewrite Z.div_add by done. lia.
Qed.

Definition in_range (k lo n : Z) : bool := (lo <=? k) && (k <? lo + n).

Lemma in_range_spec k lo n : BoolSpec (lo <= k < lo + n) (~ (lo <= k < lo + n)) (in_range k lo n).
Proof.
  unfold in_range. destruct (Z.leb_spec lo k), (Z.ltb_spec k (lo + n)); constructor; lia.
Qed.

Lemma u32_page k : 0 <= k -> k < 2 ^ 20 - 1 -> u32 (k * ZP + ZP) = (k + 1) * ZP.
Proof. intros. rewrite uN_small; change ZP with 4096; lia. Qed.

Lemma page_start k : (k * ZP) / ZP = k.
Proof. by apply Z.div_mul. Qed.

(** ** The allocation loops *)

Lemma data_page_drop content k0 acc k :
  k0 < k -> data_page (drop (Z.to_nat ZP) content) (k0 + 1) acc k = data_page content k0 acc k.
Proof.
  intros Hk. unfold data_page. rewrite drop_drop.
  assert ((Z.to_nat ZP + Z.to_nat ((k - (k0 + 1)) * ZP))%nat = Z.to_nat ((k - k0) * ZP)) as ->;
    [change ZP with 4096; lia|reflexivity].
Qed.

Lemma allocLoop_content fuel m k0 content acc k :
  0 <= k0 -> k0 + npages (Z.of_nat (length content)) < 2 ^ 20 ->
  npages (Z.of_nat (length content)) <= Z.of_nat fuel ->
  Pages (allocLoop fuel m (k0 * ZP) (k0 * ZP + Z.of_nat (length content)) (Some content) acc) !! k =
    if in_range k k0 (npages (Z.of_nat (length content)))
    then Some (data_page content k0 acc k) else Pages m !! k.
Proof.
  revert m k0 content. induction fuel as [|fuel IH]; intros m k0 content H0 Hle Hf.
  { cbn. destruct (in_range_spec k k0 (npages (Z.of_nat (length content)))); [lia|done]. }
  pose proof (npages_spec (Z.of_nat (length content))) as Hn. cbn [allocLoop].
  destruct (Z.ltb_spec (k0 * ZP) (k0 * ZP + Z.of_nat (length content))) as [Hl|Hl]; cycle 1.
  { destruct (in_range_spec k k0 (npages (Z.of_nat (length content)))); [|done].
    change ZP with 4096 in *. lia. }
  assert (1 <= npages (Z.of_nat (length content))) as Hn1 by (change ZP with 4096 in *; lia).
  rewrite u32_page, page_start by lia.
  set (m1 := set_page m k0 _).
  set (rest := drop _ content).
  assert (Hm1 : Pages m1 !! k = if decide (k = k0) then Some (data_page content k0 acc k) else Pages m !! k).
  { unfold m1. cbn. case_decide as Hk.
    - subst k. rewrite lookup_insert_eq. unfold data_page, pad.
      rewrite Z.sub_diag, Z.mul_0_l. change (Z.to_nat 0) with 0%nat.
      rewrite drop_0. do 3 f_equal.
      destruct (Nat.min_spec (length content) (Z.to_nat ZP)) as [[? ->]|[? ->]]; [|done].
      by rewrite !take_ge by lia.
    - by rewrite lookup_insert_ne. }
  destruct (Z.leb_spec (Z.of_nat (length content)) ZP) as [Hlast|Hmore].
  - assert (npages (Z.of_nat (length content)) = 1) as -> by (change ZP with 4096 in *; lia).
    replace (allocLoop fuel m1 _ _ _ _) with m1.
    + rewrite Hm1. destruct (in_range_spec k k0 1), (decide (k = k0)); try lia; done.
    + destruct fuel; [done|]. cbn [allocLoop].
      by destruct (Z.ltb_spec ((k0 + 1) * ZP) (k0 * ZP + Z.of_nat (length content))); [lia|].
  - assert (Z.of_nat (length rest) = Z.of_nat (length content) - ZP) as Hrest.
    { unfold rest. rewrite length_drop. change ZP with 4096 in *. lia. }
    replace (k0 * ZP + Z.of_nat (length content)) with ((k0 + 1) * ZP + Z.of_nat (length rest)) by lia.
    rewrite IH; rewrite ?Hrest, ?npages_sub; [|lia..].
    rewrite Hm1.
    destruct (in_range_spec k (k0 + 1) (npages (Z.of_nat (length content)) - 1)),
      (in_range_spec k k0 (npages (Z.of_nat (length content)))), (decide (k = k0)); try lia;
      [|reflexivity|reflexivity].
    unfold rest. rewrite Nat.min_r by (change ZP with 4096 in *; lia).
    rewrite data_page_drop by lia. reflexivity.
Qed.

Lemma allocLoop_nil fuel m a fin acc k :
  0 <= a -> fin <= 2 ^ 32 - ZP -> npages (fin - a) <= Z.of_nat fuel ->
  Pages (allocLoop fuel m a fin None acc) !! k =
    match Pages m !! k with
    | Some p => Some p
    | None => if in_range k (a / ZP) (npages (fin - a)) then Some (zero_page acc) else None
    end.
Proof.
  revert m a. induction fuel as [|fuel IH]; intros m a Ha Hfin Hf.
  { cbn. destruct (Pages m !! k); [done|].
    destruct (in_range_spec k (a / ZP) (npages (fin - a))); [lia|done]. }
  pose proof (npages_spec (fin - a)) as Hn. cbn [allocLoop].
  destruct (Z.ltb_spec a fin) as [Hl|Hl]; cycle 1.
  { destruct (Pages m !! k); [done|].
    destruct (in_range_spec k (a / ZP) (npages (fin - a))); [|done]. change ZP with 4096 in *. lia. }
  rewrite (uN_small 32) by (change ZP with 4096 in *; lia).
  assert ((a + ZP) / ZP = a / ZP + 1) as Hdiv
    by (replace (a + ZP) with (a + 1 * ZP) by lia; by rewrite Z.div_add).
  assert (npages (fin - (a + ZP)) = npages (fin - a) - 1) as Hnp
    by (replace (fin - (a + ZP)) with (fin - a - ZP) by lia; apply npages_sub).
  rewrite IH; rewrite ?Hnp, ?Hdiv; [|change ZP with 4096 in *; lia..].
  assert (1 <= npages (fin - a)) by (change ZP with 4096 in *; lia).
  destruct (Pages m !! (a / ZP)) as [p|] eqn:E; cbn.
  - destruct (Pages m !! k) eqn:Ek; [done|]. assert (k <> a / ZP) by congruence.
    destruct (in_range_spec k (a / ZP + 1) (npages (fin - a) - 1)),
      (in_range_spec k (a / ZP) (npages (fin - a))); done || lia.
  - destruct (decide (k = a / ZP)) as [->|Hk].
    + rewrite lookup_insert_eq, E.
      destruct (in_range_spec (a / ZP) (a / ZP) (npages (fin - a))); [done|lia].
    + rewrite lookup_insert_ne by done. destruct (Pages m !! k); [done|].
      destruct (in_range_spec k (a / ZP + 1) (npages (fin - a) - 1)),
        (in_range_spec k (a / ZP) (npages (fin - a))); done || lia.
Qed.

Lemma stackLoop_spec fuel m k0 n k :
  0 <= k0 -> 0 <= n -> k0 + n < 2 ^ 20 -> n <= Z.of_nat fuel ->
  Pages (stackLoop fuel m (k0 * ZP) ((k0 + n) * ZP)) !! k =
    if in_range k k0 n then Some (zero_page MemoryReadWrite) else Pages m !! k.
Proof.
  revert m k0 n. induction fuel as [|fuel IH]; intros m k0 n H0 Hn Hle Hf.
  { cbn. destruct (in_range_spec k k0 n); [lia|done]. }
  cbn [stackLoop]. destruct (Z.ltb_spec (k0 * ZP) ((k0 + n) * ZP)); cycle 1.
  { destruct (in_range_spec k k0 n); [|done]. change ZP with 4096 in *. lia. }
  assert (0 < n) by (change ZP with 4096 in *; lia).
  rewrite u32_page, page_start by lia. replace (k0 + n) with ((k0 + 1) + (n - 1)) by lia.
  rewrite IH by lia. cbn.
  destruct (in_range_spec k (k0 + 1) (n - 1)), (in_range_spec k k0 n); try lia; try done.
  - assert (k = k0) as -> by lia. by rewrite lookup_insert_eq.
  - rewrite lookup_insert_ne by lia. done.
Qed.

(** ** The layout *)

(** First pages of the segments; page numbers of 4096-byte pages. *)
Definition roPage : Z := ZZ / ZP.
Definition rwPage (oLen : Z) : Z := (2 * ZZ + zoneUp oLen) / ZP.
Definition stackTop : Z := (2 ^ 32 - 2 * ZZ - ZI) / ZP.
Definition argPage : Z := (2 ^ 32 - ZZ - ZI) / ZP.

(** Page [k] of the initial memory: read-only data, writable data, its [z]
    zero pages, the stack of [s] bytes, the argument, the padding of the
    argument.  The padding runs for [npages aLen] pages from the end of the
    argument. *)
Definition layout_page (o w : list Z) (z s : Z) (a : list Z) (k : Z) : option Page :=
  let oLen := Z.of_nat (length o) in
  let wLen := Z.of_nat (length w) in
  let aLen := Z.of_nat (length a) in
  if in_range k roPage (npages oLen) then Some (data_page o roPage MemoryReadOnly k)
  else if in_range k (rwPage oLen) (npages wLen) then
    Some (data_page w (rwPage oLen) MemoryReadWrite k)
  else if in_range k (rwPage oLen + npages wLen) z then Some (zero_page MemoryReadWrite)
  else if in_range k (stackTop - npages s) (npages s) then Some (zero_page MemoryReadWrite)
  else if in_range k argPage (npages aLen) then Some (data_page a argPage MemoryReadOnly k)
  else if in_range k (argPage + aLen / ZP) (npages aLen) then Some (zero_page MemoryReadOnly)
  else None.

(** Decoded parts that fit: the lengths are those of three-byte integers. *)
Record fits (oLen wLen z s aLen : Z) : Prop := {
  fits_o : 0 <= oLen < 2 ^ 24;
  fits_w : 0 <= wLen < 2 ^ 24;
  fits_z : 0 <= z < 2 ^ 16;
  fits_s : 0 <= s < 2 ^ 24;
  fits_a : 0 <= aLen <= ZI / 2;
  fits_layout : layoutTooBig oLen wLen z s = false
}.

Lemma pageUp_npages x : 0 <= x < 2 ^ 30 -> pageUp x = npages x * ZP.
Proof.
  intros Hx. pose proof (npages_spec x). unfold pageUp, npages in *.
  change ZP with 4096 in *. rewrite (uN_small 32 x) by lia.
  rewrite (uN_small 32 (x + 4096 - 1)) by lia. rewrite uN_small by lia. lia.
Qed.

Lemma zoneUp_small x :
  0 <= x < 2 ^ 30 -> zoneUp x = ZZ * ((x + ZZ - 1) / ZZ) /\ x <= zoneUp x < x + ZZ.
Proof.
  intros Hx. unfold zoneUp. change ZZ with 65536.
  pose proof (Z.div_mod (x + 65536 - 1) 65536). pose proof (Z.mod_pos_bound (x + 65536 - 1) 65536).
  rewrite (uN_small 32 x) by lia. rewrite (uN_small 32 (x + 65536 - 1)) by lia.
  rewrite uN_small by lia. split; [done|lia].
Qed.

(** The segments are disjoint and in order: the layout check is enough. *)
Lemma fits_order oLen wLen z s aLen :
  fits oLen wLen z s aLen ->
  rwPage oLen * ZP = 2 * ZZ + zoneUp oLen /\
  roPage + npages oLen <= rwPage oLen /\
  rwPage oLen + npages wLen + z <= stackTop - npages s /\
  stackTop + 16 = argPage /\ 0 <= npages oLen /\ 0 <= npages wLen /\ 0 <= npages s /\
  0 <= npages aLen <= 2048 /\ roPage = 16 /\ stackTop = 2 ^ 20 - 32 - 4096.
Proof.
  intros [Ho Hw Hz Hs Ha Hl]. unfold layoutTooBig in Hl.
  pose proof (npages_spec oLen). pose proof (npages_spec wLen). pose proof (npages_spec s).
  pose proof (npages_spec aLen). change (ZI / 2) with (2 ^ 23) in Ha.
  destruct (zoneUp_small oLen) as [Hzo Hzo']; [lia|].
  destruct (zoneUp_small (wLen + z * ZP + s + ZI)) as [_ Hzw]; [change ZP with 4096; change ZI with (2 ^ 24); lia|].
  change ZI with (2 ^ 24) in *.
  rewrite uN_small in Hl by (change ZP with 4096 in *; change ZZ with 65536 in *; lia).
  apply Z.ltb_ge in Hl.
  assert (rwPage oLen * ZP = 2 * ZZ + zoneUp oLen) as Hrw.
  { unfold rwPage. rewrite Hzo. change ZZ with (16 * ZP). 
    replace (2 * (16 * ZP) + 16 * ZP * ((oLen + 16 * ZP - 1) / (16 * ZP)))
      with ((32 + 16 * ((oLen + 16 * ZP - 1) / (16 * ZP))) * ZP) by lia.
    by rewrite Z.div_mul. }
  change roPage with 16. change stackTop with (2 ^ 20 - 32 - 4096). change argPage with (2 ^ 20 - 16 - 4096).
  change ZP with 4096 in *. change ZZ with 65536 in *.
  split_and!; lia.
Qed.

Lemma npages_fuel x : npages x <= Z.of_nat (Z.to_nat (x / ZP + 1)).
Proof.
  unfold npages. pose proof (Z.div_mod x ZP). pose proof (Z.mod_pos_bound x ZP).
  pose proof (Z.div_mod (x + ZP - 1) ZP). pose proof (Z.mod_pos_bound (x + ZP - 1) ZP).
  change ZP with 4096 in *. lia.
Qed.

Lemma segment_content m k0 content acc k :
  0 <= k0 -> k0 + npages (Z.of_nat (length content)) < 2 ^ 20 ->
  Pages (allocateMemorySegment m (k0 * ZP) (k0 * ZP + Z.of_nat (length content)) (Some content) acc) !! k =
    if in_range k k0 (npages (Z.of_nat (length content)))
    then Some (data_page content k0 acc k) else Pages m !! k.
Proof.
  intros. unfold allocateMemorySegment. apply allocLoop_content; [done..|].
  replace (k0 * ZP + _ - k0 * ZP) with (Z.of_nat (length content)) by lia. apply npages_fuel.
Qed.

Lemma segment_nil m a fin acc k :
  0 <= a -> fin <= 2 ^ 32 - ZP ->
  Pages (allocateMemorySegment m a fin None acc) !! k =
    match Pages m !! k with
    | Some p => Some p
    | None => if in_range k (a / ZP) (npages (fin - a)) then Some (zero_page acc) else None
    end.
Proof. intros. apply allocLoop_nil; [done..|]. apply npages_fuel. Qed.

Lemma stack_pages m k0 n k :
  0 <= k0 -> 0 <= n -> k0 + n < 2 ^ 20 ->
  Pages (allocateStack m (k0 * ZP) ((k0 + n) * ZP)) !! k =
    if in_range k k0 n then Some (zero_page MemoryReadWrite) else Pages m !! k.
Proof.
  intros. apply stackLoop_spec; [done..|].
  replace ((k0 + n) * ZP - k0 * ZP) with (n * ZP) by lia. rewrite Z.div_mul by done. lia.
Qed.

(** The padding after [len] bytes of data from page [k0], up to [extra]
    pages after the data: only those extra pages are new. *)
Lemma padding_range k0 len extra k :
  0 <= len -> 0 <= extra ->
  in_range k ((k0 * ZP + len) / ZP) (npages (npages len * ZP + extra * ZP - len)) = true ->
  k0 <= k < k0 + npages len + extra.
Proof.
  intros Hl He. pose proof (npages_spec len).
  pose proof (npages_spec (npages len * ZP + extra * ZP - len)).
  pose proof (Z.div_mod (k0 * ZP + len) ZP). pose proof (Z.mod_pos_bound (k0 * ZP + len) ZP).
  destruct (in_range_spec k ((k0 * ZP + len) / ZP) (npages (npages len * ZP + extra * ZP - len)));
    [|done]. intros _. change ZP with 4096 in *. lia.
Qed.

Lemma padding_covers k0 len extra k :
  0 <= len -> 0 <= extra -> k0 + npages len <= k < k0 + npages len + extra ->
  in_range k ((k0 * ZP + len) / ZP) (npages (npages len * ZP + extra * ZP - len)) = true.
Proof.
  intros Hl He Hk. pose proof (npages_spec len).
  pose proof (npages_spec (npages len * ZP + extra * ZP - len)).
  pose proof (Z.div_mod (k0 * ZP + len) ZP). pose proof (Z.mod_pos_bound (k0 * ZP + len) ZP).
  destruct (in_range_spec k ((k0 * ZP + len) / ZP) (npages (npages len * ZP + extra * ZP - len)));
    [done|]. change ZP with 4096 in *. lia.
Qed.

(** Data followed by its padding. *)
Lemma segment_padded m k0 content acc extra k :
  0 <= k0 -> 0 <= extra -> k0 + npages (Z.of_nat (length content)) + extra < 2 ^ 20 ->
  let len := Z.of_nat (length content) in
  Pages (allocateMemorySegment
           (allocateMemorySegment m (k0 * ZP) (k0 * ZP + len) (Some content) acc)
           (k0 * ZP + len) (k0 * ZP + npages len * ZP + extra * ZP) None acc) !! k =
    if in_range k k0 (npages len) then Some (data_page content k0 acc k)
    else match Pages m !! k with
         | Some p => Some p
         | None => if in_range k (k0 + npages len) extra then Some (zero_page acc) else None
         end.
Proof.
  intros H0 He Hle len. subst len. pose proof (npages_spec (Z.of_nat (length content))).
  rewrite segment_nil by (change ZP with 4096 in *; lia).
  rewrite segment_content by lia. set (len := Z.of_nat (length content)) in *.
  destruct (in_range_spec k k0 (npages len)) as [Hin|Hin]; [done|].
  destruct (Pages m !! k); [done|].
  replace (k0 * ZP + npages len * ZP + extra * ZP - (k0 * ZP + len))
    with (npages len * ZP + extra * ZP - len) by lia.
  destruct (in_range_spec k (k0 + npages len) extra) as [Hx|Hx].
  - by rewrite padding_covers by lia.
  - destruct (in_range _ _ _) eqn:E; [|done]. apply padding_range in E; lia.
Qed.

(** [initMemory] with its addresses in pages: no address wraps. *)
Definition initPages (o w : list Z) (z s : Z) (a : list Z) : Memory :=
  let oLen := Z.of_nat (length o) in
  let wLen := Z.of_nat (length w) in
  let aLen := Z.of_nat (length a) in
  let ro := roPage * ZP in
  let rw := rwPage oLen * ZP in
  let arg := argPage * ZP in
  let mem := MkMemory ∅ (rw + npages wLen * ZP + z * ZP) ((stackTop - npages s) * ZP) in
  let mem := allocateMemorySegment mem ro (ro + oLen) (Some o) MemoryReadOnly in
  let mem := allocateMemorySegment mem (ro + oLen) (ro + npages oLen * ZP + 0 * ZP) None MemoryReadOnly in
  let mem := allocateMemorySegment mem rw (rw + wLen) (Some w) MemoryReadWrite in
  let mem := allocateMemorySegment mem (rw + wLen) (rw + npages wLen * ZP + z * ZP) None MemoryReadWrite in
  let mem := allocateStack mem ((stackTop - npages s) * ZP) ((stackTop - npages s + npages s) * ZP) in
  let mem := allocateMemorySegment mem arg (arg + aLen) (Some a) MemoryReadOnly in
  allocateMemorySegment mem (arg + aLen) (arg + aLen + npages aLen * ZP) None MemoryReadOnly.

Lemma initMemory_initPages o w z s a :
  fits (Z.of_nat (length o)) (Z.of_nat (length w)) z s (Z.of_nat (length a)) ->
  initMemory o w z s a = initPages o w z s a.
Proof.
  intros Hf. destruct (fits_order _ _ _ _ _ Hf) as (Hrw & H1 & H2 & H3 & H4 & H5 & H6 & H7 & Hro & Hst).
  destruct Hf as [Ho Hw Hz Hs Ha _]. unfold initMemory, initPages.
  pose proof (npages_spec (Z.of_nat (length o))). pose proof (npages_spec (Z.of_nat (length w))).
  pose proof (npages_spec (Z.of_nat (length a))). pose proof (npages_spec s).
  rewrite !pageUp_npages by (change (ZI / 2) with (2 ^ 23) in Ha; lia).
  change (2 ^ 32 - 2 * ZZ - ZI) with (stackTop * ZP).
  change (2 ^ 32 - ZZ - ZI) with (argPage * ZP). change ZZ with (roPage * ZP) in Hrw |- *.
  rewrite <- Hrw.
  set (oLen := Z.of_nat (length o)) in *. set (wLen := Z.of_nat (length w)) in *.
  set (aLen := Z.of_nat (length a)) in *. change (ZI / 2) with (2 ^ 23) in Ha.
  change argPage with (2 ^ 20 - 16 - 4096) in *. rewrite Hst, Hro in *.
  assert (forall x, 0 <= x < 2 ^ 32 -> u32 x = x) as Hu by (intros; by apply uN_small).
  change ZP with 4096 in *.
  rewrite !(Hu oLen), !(Hu wLen), !(Hu aLen), !(Hu z), !(Hu (z * 4096)) by lia.
  rewrite !(Hu (16 * 4096 + oLen)), !(Hu (rwPage oLen * 4096)) by lia.
  rewrite !(Hu (16 * 4096 + npages oLen * 4096)) by lia.
  rewrite !(Hu (rwPage oLen * 4096 + wLen)) by lia.
  rewrite !(Hu (rwPage oLen * 4096 + npages wLen * 4096 + z * 4096)) by lia.
  rewrite !(Hu ((2 ^ 20 - 32 - 4096) * 4096 - npages s * 4096)) by lia.
  rewrite !(Hu ((2 ^ 20 - 16 - 4096) * 4096 + aLen)) by lia.
  rewrite !(Hu ((2 ^ 20 - 16 - 4096) * 4096 + aLen + npages aLen * 4096)) by lia.
  rewrite Z.mul_0_l, Z.add_0_r, Z.sub_add, <- Z.mul_sub_distr_r. reflexivity.
Qed.

Lemma initPages_lookup o w z s a k :
  fits (Z.of_nat (length o)) (Z.of_nat (length w)) z s (Z.of_nat (length a)) ->
  Pages (initPages o w z s a) !! k = layout_page o w z s a k.
Proof.
  intros Hf. destruct (fits_order _ _ _ _ _ Hf) as (Hrw & H1 & H2 & H3 & H4 & H5 & H6 & H7 & Hro & Hst).
  destruct Hf as [Ho Hw Hz Hs Ha _]. unfold initPages, layout_page.
  pose proof (npages_spec (Z.of_nat (length a))). change (ZI / 2) with (2 ^ 23) in Ha.
  rewrite segment_nil by (rewrite Hst in H3; change ZP with 4096 in *; lia).
  rewrite segment_content by (rewrite Hst in H3; lia).
  rewrite stack_pages by lia. rewrite segment_padded by lia. rewrite segment_padded by lia.
  cbn [Pages]. rewrite lookup_empty.
  set (oLen := Z.of_nat (length o)) in *. set (wLen := Z.of_nat (length w)) in *.
  set (aLen := Z.of_nat (length a)) in *.
  replace (argPage * ZP + aLen + npages aLen * ZP - (argPage * ZP + aLen)) with (npages aLen * ZP) by lia.
  assert (npages (npages aLen * ZP) = npages aLen) as ->.
  { pose proof (npages_spec (npages aLen * ZP)). change ZP with 4096 in *. lia. }
  rewrite Z.div_add_l by done.
  pose proof (Z.div_pos aLen ZP ltac:(lia) ltac:(done)).
  assert (in_range k (roPage + npages oLen) 0 = false) as ->.
  { destruct (in_range_spec k (roPage + npages oLen) 0); [lia|done]. }
  destruct (in_range_spec k argPage (npages aLen)), (in_range_spec k (stackTop - npages s) (npages s)),
    (in_range_spec k (rwPage oLen) (npages wLen)), (in_range_spec k roPage (npages oLen)),
    (in_range_spec k (rwPage oLen + npages wLen) z); try lia; reflexivity.
Qed.

(** ** The standard program format *)

Lemma sfrom_ok d n :
  0 <= n <= slen d -> sfrom d n = Ret (GSlice (drop (Z.to_nat n) (elems d)) (spare d)).
Proof.
  intros Hn. unfold sfrom. rewrite sslice_ok by lia. unfold slen in *.
  rewrite Nat2Z.id, drop_app_length. rewrite take_ge by (rewrite length_drop; lia). done.
Qed.

Lemma ReadUintFixed_le d n :
  Forall is_byte (elems d) -> 0 < n <= 8 ->
  ReadUintFixed d n =
    if slen d <? n then Ret None
    else Ret (Some (le_val (take (Z.to_nat n) (elems d)),
                    GSlice (drop (Z.to_nat n) (elems d)) (spare d))).
Proof.
  intros Hd Hn. unfold ReadUintFixed.
  destruct (Z.eqb_spec n 0), (Z.ltb_spec 8 n), (Z.ltb_spec n 0); try lia. cbn [orb].
  destruct (Z.ltb_spec (slen d) n); [done|]. rewrite sfrom_ok by lia. cbn.
  rewrite orLE_0; [done|by apply Forall_take|]. rewrite length_take. lia.
Qed.

Lemma ReadBytes_le d n :
  0 <= n -> ReadBytes d n =
    if slen d <? n then Ret None
    else Ret (Some (GSlice (take (Z.to_nat n) (elems d)) (drop (Z.to_nat n) (elems d ++ spare d)),
                    GSlice (drop (Z.to_nat n) (elems d)) (spare d))).
Proof.
  intros Hn. unfold ReadBytes. destruct (Z.ltb_spec (slen d) n); [done|].
  unfold sto. rewrite sslice_ok by lia. cbn [mbind go_bind]. rewrite sfrom_ok by lia.
  cbn. by rewrite drop_0, Z.sub_0_r.
Qed.

(** The encoding [DecodeSerializedValues] reads (A.37). *)
Definition encodeStandard (o w : list Z) (z s : Z) (c : list Z) : list Z :=
  le_bytes 3 (Z.of_nat (length o)) ++ le_bytes 3 (Z.of_nat (length w)) ++
  le_bytes 2 z ++ le_bytes 3 s ++ o ++ w ++ le_bytes 4 (Z.of_nat (length c)) ++ c.

Lemma read_le d n x rest :
  Forall is_byte (elems d) -> 0 < n <= 8 -> 0 <= x < 2 ^ (8 * n) ->
  elems d = le_bytes n x ++ rest ->
  ReadUintFixed d n = Ret (Some (x, GSlice rest (spare d))).
Proof.
  intros Hd Hn Hx He. rewrite ReadUintFixed_le by done.
  pose proof (le_bytes_length n x ltac:(lia)) as Hl. unfold slen. rewrite He, length_app, Hl.
  destruct (Z.ltb_spec (Z.of_nat (Z.to_nat n + length rest)) n); [lia|].
  rewrite take_app_length', drop_app_length' by done. rewrite le_val_bytes by lia.
  by rewrite Z.mod_small.
Qed.

Lemma read_bytes d l rest :
  elems d = l ++ rest ->
  exists sp, ReadBytes d (Z.of_nat (length l)) = Ret (Some (GSlice l sp, GSlice rest (spare d))).
Proof.
  intros He. rewrite ReadBytes_le by lia. unfold slen. rewrite He, length_app.
  destruct (Z.ltb_spec (Z.of_nat (length l + length rest)) (Z.of_nat (length l))); [lia|].
  rewrite Nat2Z.id, take_app_length, drop_app_length. eauto.
Qed.

(** Round trip of the standard program format: decoding an encoding,
    followed by anything, yields the parts that were encoded. *)
Theorem DecodeSerializedValues_encode o w z s c p rest :
  Forall is_byte (elems p) -> elems p = encodeStandard o w z s c ++ rest ->
  Z.of_nat (length o) < 2 ^ 24 -> Z.of_nat (length w) < 2 ^ 24 -> Z.of_nat (length c) < 2 ^ 32 ->
  0 <= z < 2 ^ 16 -> 0 <= s < 2 ^ 24 ->
  exists c' o' w', DecodeSerializedValues p = Ret (Some (c', o', w', z, s)) /\
    elems c' = c /\ elems o' = o /\ elems w' = w.
Proof.
  intros Hb He Ho Hw Hc Hz Hs. unfold encodeStandard in He. rewrite <- !app_assoc in He.
  unfold DecodeSerializedValues.
  rewrite (read_le _ 3 (Z.of_nat (length o)) _ Hb ltac:(lia) ltac:(lia) He). cbn [mbind go_bind].
  rewrite He in Hb. apply Forall_app in Hb as [_ Hb].
  erewrite (read_le _ 3); [|exact Hb|lia| |reflexivity]; [|lia]. cbn [mbind go_bind spare].
  apply Forall_app in Hb as [_ Hb].
  erewrite (read_le _ 2); [|exact Hb|lia| |reflexivity]; [|lia]. cbn [mbind go_bind spare].
  apply Forall_app in Hb as [_ Hb].
  erewrite (read_le _ 3); [|exact Hb|lia| |reflexivity]; [|lia]. cbn [mbind go_bind spare].
  apply Forall_app in Hb as [_ Hb].
  edestruct (read_bytes (GSlice (o ++ w ++ le_bytes 4 (Z.of_nat (length c)) ++ c ++ rest) (spare p)) o)
    as [sp1 E1]; [reflexivity|]. rewrite E1. cbn [mbind go_bind spare].
  edestruct (read_bytes (GSlice (w ++ le_bytes 4 (Z.of_nat (length c)) ++ c ++ rest) (spare p)) w)
    as [sp2 E2]; [reflexivity|]. rewrite E2. cbn [mbind go_bind spare].
  apply Forall_app in Hb as [_ Hb]. apply Forall_app in Hb as [_ Hb].
  erewrite (read_le _ 4); [|exact Hb|lia| |reflexivity]; [|lia]. cbn [mbind go_bind spare].
  edestruct (read_bytes (GSlice (c ++ rest) (spare p)) c) as [sp3 E3]; [reflexivity|]. rewrite E3.
  cbn [mbind go_bind spare]. do 3 eexists. rewrite !uN_small by lia. split; [reflexivity|]. done.
Qed.

(** The parts of an accepted blob have lengths that fit their encodings. *)
Lemma DecodeSerializedValues_range p c o w z s :
  Forall is_byte (elems p) -> DecodeSerializedValues p = Ret (Some (c, o, w, z, s)) ->
  0 <= slen o < 2 ^ 24 /\ 0 <= slen w < 2 ^ 24 /\ 0 <= z < 2 ^ 16 /\ 0 <= s < 2 ^ 24 /\
  Forall is_byte (elems o) /\ Forall is_byte (elems w).
Proof.
  assert (Hle : forall d n x d', Forall is_byte (elems d) -> 0 < n <= 8 ->
    ReadUintFixed d n = Ret (Some (x, d')) -> 0 <= x < 2 ^ (8 * n) /\ Forall is_byte (elems d')).
  { intros d n x d' Hd Hn. rewrite ReadUintFixed_le by done.
    destruct (Z.ltb_spec (slen d) n) as [|Hge]; [done|]. intros [= <- <-].
    split; [|by apply Forall_drop].
    pose proof (le_val_range (take (Z.to_nat n) (elems d)) ltac:(by apply Forall_take)) as Hr.
    rewrite length_take in Hr. unfold slen in Hge. by rewrite Nat.min_l, Z2Nat.id in Hr by lia. }
  assert (Hby : forall d n b d', Forall is_byte (elems d) -> 0 <= n ->
    ReadBytes d n = Ret (Some (b, d')) ->
    slen b = n /\ Forall is_byte (elems b) /\ Forall is_byte (elems d')).
  { intros d n b d' Hd Hn. rewrite ReadBytes_le by done.
    destruct (Z.ltb_spec (slen d) n) as [|Hge]; [done|]. intros [= <- <-]. unfold slen in *. cbn.
    rewrite length_take. split_and!; [lia|by apply Forall_take|by apply Forall_drop]. }
  intros Hp H. unfold DecodeSerializedValues in H.
  apply go_bind_inv in H as ([ [oLen p1] |] & E1 & H); [|done]. apply Hle in E1 as [? ?]; [|done|lia].
  apply go_bind_inv in H as ([ [wLen p2] |] & E2 & H); [|done]. apply Hle in E2 as [? ?]; [|done|lia].
  apply go_bind_inv in H as ([ [z0 p3] |] & E3 & H); [|done]. apply Hle in E3 as [? ?]; [|done|lia].
  apply go_bind_inv in H as ([ [s0 p4] |] & E4 & H); [|done]. apply Hle in E4 as [? ?]; [|done|lia].
  apply go_bind_inv in H as ([ [o' p5] |] & E5 & H); [|done]. apply Hby in E5 as (? & ? & ?); [|done|lia].
  apply go_bind_inv in H as ([ [w' p6] |] & E6 & H); [|done]. apply Hby in E6 as (? & ? & ?); [|done|lia].
  apply go_bind_inv in H as ([ [cLen p7] |] & _ & H); [|done].
  apply go_bind_inv in H as ([ [c' p8] |] & _ & H); [|done]. injection H as <- <- <- <- <-.
  rewrite !uN_small by lia. split_and!; try done; lia.
Qed.

(** ** [SingleInitializer] *)

Lemma pad_page l acc :
  Forall is_byte l -> (length l <= Z.to_nat ZP)%nat -> wf_page (MkPage (pad l) acc).
Proof.
  intros Hl Hlen. unfold pad. split.
  - cbn [Value]. rewrite gcopy_length. apply length_replicate.
  - cbn [Value]. unfold gcopy. apply Forall_app. split; [by apply Forall_take|].
    apply Forall_drop, Forall_replicate. done.
Qed.

Lemma data_page_wf l k0 acc k : Forall is_byte l -> wf_page (data_page l k0 acc k).
Proof.
  intros Hl. apply pad_page; [by apply Forall_take, Forall_drop|]. rewrite length_take. lia.
Qed.

Lemma zero_page_wf acc : wf_page (zero_page acc).
Proof. split; [apply length_replicate | by apply Forall_replicate]. Qed.

Lemma layout_page_wf o w z s a k p :
  Forall is_byte o -> Forall is_byte w -> Forall is_byte a ->
  layout_page o w z s a k = Some p -> wf_page p.
Proof.
  intros Ho Hw Ha. unfold layout_page.
  repeat match goal with |- (if ?b then _ else _) = _ -> _ => destruct b end;
    intros [= <-]; auto using data_page_wf, zero_page_wf.
Qed.

Lemma allocLoop_heap fuel m a fin content acc :
  heapPointer (allocLoop fuel m a fin content acc) = heapPointer m /\
  heapLimit (allocLoop fuel m a fin content acc) = heapLimit m.
Proof.
  revert m a content. induction fuel as [|fuel IH]; intros m a content; cbn [allocLoop]; [done|].
  destruct (a <? fin); [|done]. destruct content as [content|].
  - destruct (IH (set_page m (a / ZP) (MkPage (gcopy (replicate (Z.to_nat ZP) 0)
      (take (Nat.min (length content) (Z.to_nat ZP)) content)) acc)) (u32 (a + ZP))
      (Some (drop (Nat.min (length content) (Z.to_nat ZP)) content))) as [-> ->]. done.
  - destruct (Pages m !! (a / ZP)); [apply IH|].
    destruct (IH (set_page m (a / ZP) (MkPage (replicate (Z.to_nat ZP) 0) acc)) (u32 (a + ZP)) None)
      as [-> ->]. done.
Qed.

Lemma stackLoop_heap fuel m a fin :
  heapPointer (stackLoop fuel m a fin) = heapPointer m /\
  heapLimit (stackLoop fuel m a fin) = heapLimit m.
Proof.
  revert m a. induction fuel as [|fuel IH]; intros m a; cbn [stackLoop]; [done|].
  destruct (a <? fin); [|done].
  destruct (IH (set_page m (a / ZP) (MkPage (replicate (Z.to_nat ZP) 0) MemoryReadWrite)) (u32 (a + ZP)))
    as [-> ->]. done.
Qed.

Lemma initPages_heap o w z s a :
  heapPointer (initPages o w z s a) =
    (rwPage (Z.of_nat (length o)) + npages (Z.of_nat (length w)) + z) * ZP /\
  heapLimit (initPages o w z s a) = (stackTop - npages s) * ZP.
Proof.
  unfold initPages, allocateMemorySegment, allocateStack.
  split; rewrite ?(proj1 (allocLoop_heap _ _ _ _ _ _)), ?(proj2 (allocLoop_heap _ _ _ _ _ _)),
    ?(proj1 (stackLoop_heap _ _ _ _)), ?(proj2 (stackLoop_heap _ _ _ _)),
    ?(proj1 (allocLoop_heap _ _ _ _ _ _)), ?(proj2 (allocLoop_heap _ _ _ _ _ _)); cbn; lia.
Qed.

(** What an accepted program and argument give. *)
Lemma initializer_inv p a c regs m :
  wf_code p -> slen a <= ZI / 2 -> SingleInitializer p a = Ret (Some (c, regs, m)) ->
  exists o w z s,
    DecodeSerializedValues p = Ret (Some (c, o, w, z, s)) /\
    fits (slen o) (slen w) z s (slen a) /\ Forall is_byte (elems o) /\ Forall is_byte (elems w) /\
    regs = initRegisters (slen a) /\ m = initPages (elems o) (elems w) z s (elems a).
Proof.
  intros Hp Ha H. apply Forall_app in Hp as [Hp _]. unfold SingleInitializer in H.
  apply go_bind_inv in H as ([ [ [ [ [c' o] w] z] s] |] & Hd & H); [|done].
  destruct (layoutTooBig _ _ _ _) eqn:Hl; [done|]. injection H as <- <- <-.
  destruct (DecodeSerializedValues_range _ _ _ _ _ _ Hp Hd) as (? & ? & ? & ? & ? & ?).
  assert (fits (slen o) (slen w) z s (slen a)) as Hf.
  { constructor; try done. split; [unfold slen; lia|done]. }
  exists o, w, z, s. split_and!; try done. by apply initMemory_initPages.
Qed.

(** The initial memory of an accepted program is the standard layout:
    page by page, read-only data from 0x10000, writable data and [z] zero
    pages two zones after it, the stack below [2^32 - 2*ZZ - ZI], and the
    argument at [2^32 - ZZ - ZI]; every other page is absent.  The heap
    starts after the writable data and ends where the stack starts. *)
Theorem SingleInitializer_layout p a c regs m :
  wf_code p -> slen a <= ZI / 2 -> SingleInitializer p a = Ret (Some (c, regs, m)) ->
  exists o w z s,
    DecodeSerializedValues p = Ret (Some (c, o, w, z, s)) /\
    (forall k, Pages m !! k = layout_page (elems o) (elems w) z s (elems a) k) /\
    heapPointer m = (rwPage (slen o) + npages (slen w) + z) * ZP /\
    heapLimit m = (stackTop - npages s) * ZP /\ heapPointer m <= heapLimit m /\
    (forall k, heapPointer m <= k * ZP < heapLimit m -> Pages m !! k = None).
Proof.
  intros Hp Ha H. destruct (initializer_inv _ _ _ _ _ Hp Ha H) as (o & w & z & s & Hd & Hf & _ & _ & _ & ->).
  exists o, w, z, s. destruct (initPages_heap (elems o) (elems w) z s (elems a)) as [-> ->].
  change (Z.of_nat (length (elems o))) with (slen o). change (Z.of_nat (length (elems w))) with (slen w).
  destruct (fits_order _ _ _ _ _ Hf) as (Hrw & H1 & H2 & H3 & H4 & H5 & H6 & H7 & Hro & Hst).
  pose proof (fits_z _ _ _ _ _ Hf) as Hz.
  split_and!; try done; [intros k; by apply initPages_lookup|change ZP with 4096; lia|].
  intros k Hk. rewrite initPages_lookup by done. unfold layout_page.
  change (Z.of_nat (length (elems o))) with (slen o). change (Z.of_nat (length (elems w))) with (slen w).
  change (Z.of_nat (length (elems a))) with (slen a).
  assert (0 <= slen a / ZP) by (apply Z.div_pos; [unfold slen; lia|done]).
  assert (rwPage (slen o) + npages (slen w) + z <= k < stackTop - npages s) by (change ZP with 4096 in *; lia).
  destruct (in_range_spec k roPage (npages (slen o))); [lia|].
  destruct (in_range_spec k (rwPage (slen o)) (npages (slen w))); [lia|].
  destruct (in_range_spec k (rwPage (slen o) + npages (slen w)) z); [lia|].
  destruct (in_range_spec k (stackTop - npages s) (npages s)); [lia|].
  destruct (in_range_spec k argPage (npages (slen a))); [lia|].
  by destruct (in_range_spec k (argPage + slen a / ZP) (npages (slen a))); [lia|].
Qed.

(** The state an accepted program starts in is well-formed: 13 [uint64]
    registers with the return address, the stack pointer, the argument
    pointer and the argument length, and pages of 4096 bytes. *)
Theorem SingleInitializer_wf p a c regs m prog gas :
  wf_code p -> Forall is_byte (elems a) -> slen a <= ZI / 2 ->
  SingleInitializer p a = Ret (Some (c, regs, m)) ->
  wf_interp (MkInterp prog regs m gas) /\
  zlookup regs 0 = Some (2 ^ 32 - 2 ^ 16) /\ zlookup regs 1 = Some (stackTop * ZP) /\
  zlookup regs 7 = Some (argPage * ZP) /\ zlookup regs 8 = Some (slen a).
Proof.
  intros Hp Hab Ha H.
  destruct (initializer_inv _ _ _ _ _ Hp Ha H) as (o & w & z & s & _ & Hf & Ho & Hw & -> & ->).
  destruct (fits_order _ _ _ _ _ Hf) as (Hrw & H1 & H2 & H3 & H4 & H5 & H6 & H7 & Hro & Hst).
  split; [|done].
  destruct (initPages_heap (elems o) (elems w) z s (elems a)) as [Hhp Hhl].
  change (Z.of_nat (length (elems o))) with (slen o) in *.
  change (Z.of_nat (length (elems w))) with (slen w) in *.
  destruct (fits_z _ _ _ _ _ Hf). rewrite Hst in *.
  constructor; cbn [Registers Mem].
  - split; [done|]. change (ZI / 2) with (2 ^ 23) in Ha. assert (0 <= slen a) by (unfold slen; lia).
    unfold initRegisters. change ZZ with (2 ^ 16). change ZI with (2 ^ 24).
    repeat (apply List.Forall_cons; [unfold is_u64; lia|]). apply List.Forall_nil.
  - intros k pg Hk. rewrite initPages_lookup in Hk by done. exact (layout_page_wf _ _ _ _ _ _ _ Ho Hw Hab Hk).
  - rewrite Hhp. change ZP with 4096. lia.
  - rewrite Hhl. change ZP with 4096. lia.
Qed.

(** The padding of the argument is longer than that of the other
    segments: it ends [P(|a|)] after the end of the argument, not after its
    start, so that for an argument of at least one page zero pages past its
    last page are readable too. *)
Theorem argument_padding_excess p a c regs m :
  wf_code p -> slen a <= ZI / 2 -> SingleInitializer p a = Ret (Some (c, regs, m)) ->
  ZP <= slen a ->
  0 < slen a / ZP /\
  forall k, argPage + npages (slen a) <= k < argPage + slen a / ZP + npages (slen a) ->
    Pages m !! k = Some (zero_page MemoryReadOnly).
Proof.
  intros Hp Ha H Hlen. split; [apply Z.div_str_pos; change ZP with 4096 in *; lia|].
  destruct (initializer_inv _ _ _ _ _ Hp Ha H) as (o & w & z & s & _ & Hf & _ & _ & _ & ->).
  destruct (fits_order _ _ _ _ _ Hf) as (Hrw & H1 & H2 & H3 & H4 & H5 & H6 & H7 & Hro & Hst).
  pose proof (fits_z _ _ _ _ _ Hf). intros k Hk. rewrite initPages_lookup by done. unfold layout_page.
  change (Z.of_nat (length (elems o))) with (slen o). change (Z.of_nat (length (elems w))) with (slen w).
  change (Z.of_nat (length (elems a))) with (slen a). pose proof (npages_spec (slen a)).
  pose proof (Z.div_mod (slen a) ZP). pose proof (Z.mod_pos_bound (slen a) ZP).
  destruct (in_range_spec k roPage (npages (slen o))); [lia|].
  destruct (in_range_spec k (rwPage (slen o)) (npages (slen w))); [lia|].
  destruct (in_range_spec k (rwPage (slen o) + npages (slen w)) z); [lia|].
  destruct (in_range_spec k (stackTop - npages s) (npages s)); [lia|].
  destruct (in_range_spec k argPage (npages (slen a))); [lia|].
  destruct (in_range_spec k (argPage + slen a / ZP) (npages (slen a))) as [|Hn]; [done|].
  exfalso. change ZP with 4096 in *. lia.
Qed.
