(* ===== verification/Instructions.v ===== *)
(** * Instruction handlers that decode from the code bytes

    src/PVM/instructions.go: one handler per opcode, each taking the
    interpreter, the program counter and the skip length, and the dispatch
    table [execInstructions].  A Go [error] of a decoder selects the handler's
    exit reason; register and slice accesses out of range are [Crash]. *)

From S2P Require Import Prelude Words ExitReasons Opcodes Memory MemorySpec Decode Interp.
Local Open Scope Z_scope.

(** [smod], [abs] on [int64] *)
Definition smod (a b : Z) : Z := if b =? 0 then a else Z.rem a b.
Definition abs64 (x : Z) : Z := if x <? 0 then s64 (- x) else x.

(** ** A.5.1 Instructions without arguments *)

(** opcode 0 *)
Definition instTrap (interp : Interpreter) (pc skipLength : Z) : outcome :=
  Ret (interp, ExitPanic, pc).

(** opcode 1 *)
Definition instFallthrough (interp : Interpreter) (pc skipLength : Z) : outcome :=
  Ret (interp, ExitContinue, pc).

(** ** A.5.2 One immediate *)

(** opcode 10 *)
Definition instEcalli (interp : Interpreter) (pc skipLength : Z) : outcome :=
  let lX := Z.min 4 skipLength in
  instLength ← sslice (InstructionData (Prog interp)) (u32 (pc + 1)) (u32 (pc + lX + 1));
  match DeserializeFixedLength (elems instLength) lX with
  | None => Ret (interp, ExitPanic, pc)
  | Some x =>
      let '(nuX, err) := SignExtend (u8 lX) x in
      if err then Ret (interp, ExitPanic, pc)
      else Ret (interp, Z.lor ExitHostCall nuX, pc)
  end.

(** ** A.5.3 One register and one extended-width immediate *)

(** opcode 20 *)
Definition instLoadImm64 (interp : Interpreter) (pc skipLength : Z) : outcome :=
  b ← sindex (InstructionData (Prog interp)) (u32 (pc + 1));
  let rA := Z.min 12 (b mod 16) in
  instLength ← sslice (InstructionData (Prog interp)) (u32 (pc + 2)) (u32 (pc + 10));
  let nuX := default 0 (DeserializeFixedLength (elems instLength) 8) in
  interp ← setReg interp rA nuX;
  Ret (interp, ExitContinue, pc).

(** ** A.5.4 Two immediates *)

(** opcode 30 *)
Definition instStoreImmU8 (interp : Interpreter) (pc skipLength : Z) : outcome :=
  ⟪ (vx, vy) ⟫ ⇠ decodeTwoImmediates (InstructionData (Prog interp)) pc skipLength
    ⊘ Ret (interp, ExitPanic, pc);
  let vy := u8 vy in
  '(interp, exitReason) ← interpStore interp 1 (u32 vx) vy;
  Ret (interp, exitReason, pc).

(** opcode 31 *)
Definition instStoreImmU16 (interp : Interpreter) (pc skipLength : Z) : outcome :=
  ⟪ (vx, vy) ⟫ ⇠ decodeTwoImmediates (InstructionData (Prog interp)) pc skipLength
    ⊘ Ret (interp, ExitPanic, pc);
  let vy := u16 vy in
  '(interp, exitReason) ← interpStore interp 2 (u32 vx) vy;
  Ret (interp, exitReason, pc).

(** opcode 32 *)
Definition instStoreImmU32 (interp : Interpreter) (pc skipLength : Z) : outcome :=
  ⟪ (vx, vy) ⟫ ⇠ decodeTwoImmediates (InstructionData (Prog interp)) pc skipLength
    ⊘ Ret (interp, ExitPanic, pc);
  let vy := u32 vy in
  '(interp, exitReason) ← interpStore interp 4 (u32 vx) vy;
  Ret (interp, exitReason, pc).

(** opcode 33 *)
Definition instStoreImmU64 (interp : Interpreter) (pc skipLength : Z) : outcome :=
  ⟪ (vx, vy) ⟫ ⇠ decodeTwoImmediates (InstructionData (Prog interp)) pc skipLength
    ⊘ Ret (interp, ExitPanic, pc);
  '(interp, exitReason) ← interpStore interp 8 (u32 vx) vy;
  Ret (interp, exitReason, pc).

(** ** A.5.5 One offset *)

(** opcode 40 *)
Definition instJump (interp : Interpreter) (pc skipLength : Z) : outcome :=
  ⟪ vX ⟫ ⇠ decodeOneOffset (InstructionData (Prog interp)) pc skipLength
    ⊘ Ret (interp, ExitPanic, pc);
  '(reason, newPC) ← branch pc vX true (Bitmasks (Prog interp)) (InstructionData (Prog interp));
  if negb (reason =? ExitContinue) then Ret (interp, reason, pc)
  else Ret (interp, reason, newPC).

(** ** A.5.6 One register and one immediate *)

(** opcode 50 *)
Definition instJumpInd (interp : Interpreter) (pc skipLength : Z) : outcome :=
  ⟪ (rA, vX) ⟫ ⇠ decodeOneRegisterAndOneImmediate (InstructionData (Prog interp)) pc skipLength
    ⊘ Ret (interp, ExitHalt, pc);
  a ← reg interp rA;
  let dest := u32 (u64 (a + vX)) in
  '(reason, newPC) ← djump pc dest (JumpTab (Prog interp)) (Bitmasks (Prog interp));
  if reason =? ExitPanic then Ret (interp, reason, pc)
  else if reason =? ExitHalt then Ret (interp, reason, pc)
  else Ret (interp, reason, newPC).

(** opcode 51 *)
Definition instLoadImm (interp : Interpreter) (pc skipLength : Z) : outcome :=
  ⟪ (rA, vX) ⟫ ⇠ decodeOneRegisterAndOneImmediate (InstructionData (Prog interp)) pc skipLength
    ⊘ Ret (interp, ExitHalt, pc);
  interp ← setReg interp rA vX;
  Ret (interp, ExitContinue, pc).

(** opcode 52 *)
Definition instLoadU8 (interp : Interpreter) (pc skipLength : Z) : outcome :=
  ⟪ (rA, vX) ⟫ ⇠ decodeOneRegisterAndOneImmediate (InstructionData (Prog interp)) pc skipLength
    ⊘ Ret (interp, ExitHalt, pc);
  '(memVal, exitReason) ← interpLoad interp 1 (u32 vX);
  if negb (exitReason =? ExitContinue) then Ret (interp, exitReason, pc)
  else
    interp ← setReg interp rA memVal;
    Ret (interp, ExitContinue, pc).

(** opcode 53 *)
Definition instLoadI8 (interp : Interpreter) (pc skipLength : Z) : outcome :=
  ⟪ (rA, vX) ⟫ ⇠ decodeOneRegisterAndOneImmediate (InstructionData (Prog interp)) pc skipLength
    ⊘ Ret (interp, ExitHalt, pc);
  '(memVal, exitReason) ← interpLoad interp 1 (u32 vX);
  if negb (exitReason =? ExitContinue) then Ret (interp, exitReason, pc)
  else
    let '(extend, err) := SignExtend 1 memVal in
    if err then Ret (interp, ExitPanic, pc)
    else
      interp ← setReg interp rA extend;
      Ret (interp, ExitContinue, pc).

(** opcode 54 *)
Definition instLoadU16 (interp : Interpreter) (pc skipLength : Z) : outcome :=
  ⟪ (rA, vX) ⟫ ⇠ decodeOneRegisterAndOneImmediate (InstructionData (Prog interp)) pc skipLength
    ⊘ Ret (interp, ExitHalt, pc);
  '(memVal, exitReason) ← interpLoad interp 2 (u32 vX);
  if negb (exitReason =? ExitContinue) then Ret (interp, exitReason, pc)
  else
    interp ← setReg interp rA memVal;
    Ret (interp, ExitContinue, pc).

(** opcode 55 *)
Definition instLoadI16 (interp : Interpreter) (pc skipLength : Z) : outcome :=
  ⟪ (rA, vX) ⟫ ⇠ decodeOneRegisterAndOneImmediate (InstructionData (Prog interp)) pc skipLength
    ⊘ Ret (interp, ExitHalt, pc);
  '(memVal, exitReason) ← interpLoad interp 2 (u32 vX);
  if negb (exitReason =? ExitContinue) then Ret (interp, exitReason, pc)
  else
    let '(extend, err) := SignExtend 2 memVal in
    if err then Ret (interp, ExitPanic, pc)
    else
      interp ← setReg interp rA extend;
      Ret (interp, ExitContinue, pc).

(** opcode 56 *)
Definition instLoadU32 (interp : Interpreter) (pc skipLength : Z) : outcome :=
  ⟪ (rA, vX) ⟫ ⇠ decodeOneRegisterAndOneImmediate (InstructionData (Prog interp)) pc skipLength
    ⊘ Ret (interp, ExitHalt, pc);
  '(memVal, exitReason) ← interpLoad interp 4 (u32 vX);
  if negb (exitReason =? ExitContinue) then Ret (interp, exitReason, pc)
  else
    interp ← setReg interp rA memVal;
    Ret (interp, ExitContinue, pc).

(** opcode 57 *)
Definition instLoadI32 (interp : Interpreter) (pc skipLength : Z) : outcome :=
  ⟪ (rA, vX) ⟫ ⇠ decodeOneRegisterAndOneImmediate (InstructionData (Prog interp)) pc skipLength
    ⊘ Ret (interp, ExitHalt, pc);
  '(memVal, exitReason) ← interpLoad interp 4 (u32 vX);
  if negb (exitReason =? ExitContinue) then Ret (interp, exitReason, pc)
  else
    let '(extend, err) := SignExtend 4 memVal in
    if err then Ret (interp, ExitPanic, pc)
    else
      interp ← setReg interp rA extend;
      Ret (interp, ExitContinue, pc).

(** opcode 58 *)
Definition instLoadU64 (interp : Interpreter) (pc skipLength : Z) : outcome :=
  ⟪ (rA, vX) ⟫ ⇠ decodeOneRegisterAndOneImmediate (InstructionData (Prog interp)) pc skipLength
    ⊘ Ret (interp, ExitHalt, pc);
  '(memVal, exitReason) ← interpLoad interp 8 (u32 vX);
  if negb (exitReason =? ExitContinue) then Ret (interp, exitReason, pc)
  else
    interp ← setReg interp rA memVal;
    Ret (interp, ExitContinue, pc).

(** opcode 59 *)
Definition instStoreU8 (interp : Interpreter) (pc skipLength : Z) : outcome :=
  ⟪ (rA, vX) ⟫ ⇠ decodeOneRegisterAndOneImmediate (InstructionData (Prog interp)) pc skipLength
    ⊘ Ret (interp, ExitHalt, pc);
  a ← reg interp rA;
  '(interp, exitReason) ← interpStore interp 1 (u32 vX) (u8 a);
  Ret (interp, exitReason, pc).

(** opcode 60 *)
Definition instStoreU16 (interp : Interpreter) (pc skipLength : Z) : outcome :=
  ⟪ (rA, vX) ⟫ ⇠ decodeOneRegisterAndOneImmediate (InstructionData (Prog interp)) pc skipLength
    ⊘ Ret (interp, ExitHalt, pc);
  a ← reg interp rA;
  '(interp, exitReason) ← interpStore interp 2 (u32 vX) (u16 a);
  Ret (interp, exitReason, pc).

(** opcode 61 *)
Definition instStoreU32 (interp : Interpreter) (pc skipLength : Z) : outcome :=
  ⟪ (rA, vX) ⟫ ⇠ decodeOneRegisterAndOneImmediate (InstructionData (Prog interp)) pc skipLength
    ⊘ Ret (interp, ExitHalt, pc);
  a ← reg interp rA;
  '(interp, exitReason) ← interpStore interp 4 (u32 vX) (u32 a);
  Ret (interp, exitReason, pc).

(** opcode 62 *)
Definition instStoreU64 (interp : Interpreter) (pc skipLength : Z) : outcome :=
  ⟪ (rA, vX) ⟫ ⇠ decodeOneRegisterAndOneImmediate (InstructionData (Prog interp)) pc skipLength
    ⊘ Ret (interp, ExitHalt, pc);
  a ← reg interp rA;
  '(interp, exitReason) ← interpStore interp 8 (u32 vX) a;
  Ret (interp, exitReason, pc).

(** ** A.5.7 One register and two immediates *)

(** opcode 70 *)
Definition instStoreImmIndU8 (interp : Interpreter) (pc skipLength : Z) : outcome :=
  ⟪ (rA, vX, vY) ⟫ ⇠ decodeOneRegisterAndTwoImmediates (InstructionData (Prog interp)) pc skipLength
    ⊘ Ret (interp, ExitHalt, pc);
  a ← reg interp rA;
  '(interp, exitReason) ← interpStore interp 1 (u32 (u64 (a + vX))) (u8 vY);
  Ret (interp, exitReason, pc).

(** opcode 71 *)
Definition instStoreImmIndU16 (interp : Interpreter) (pc skipLength : Z) : outcome :=
  ⟪ (rA, vX, vY) ⟫ ⇠ decodeOneRegisterAndTwoImmediates (InstructionData (Prog interp)) pc skipLength
    ⊘ Ret (interp, ExitHalt, pc);
  a ← reg interp rA;
  '(interp, exitReason) ← interpStore interp 2 (u32 (u64 (a + vX))) (u16 vY);
  Ret (interp, exitReason, pc).

(** opcode 72 *)
Definition instStoreImmIndU32 (interp : Interpreter) (pc skipLength : Z) : outcome :=
  ⟪ (rA, vX, vY) ⟫ ⇠ decodeOneRegisterAndTwoImmediates (InstructionData (Prog interp)) pc skipLength
    ⊘ Ret (interp, ExitHalt, pc);
  a ← reg interp rA;
  '(interp, exitReason) ← interpStore interp 4 (u32 (u64 (a + vX))) (u32 vY);
  Ret (interp, exitReason, pc).

(** opcode 73 *)
Definition instStoreImmIndU64 (interp : Interpreter) (pc skipLength : Z) : outcome :=
  ⟪ (rA, vX, vY) ⟫ ⇠ decodeOneRegisterAndTwoImmediates (InstructionData (Prog interp)) pc skipLength
    ⊘ Ret (interp, ExitHalt, pc);
  a ← reg interp rA;
  '(interp, exitReason) ← interpStore interp 8 (u32 (u64 (a + vX))) vY;
  Ret (interp, exitReason, pc).

(** ** A.5.8 One register, one immediate and one offset *)

(** opcode in [80, 90] *)
Definition instImmediateBranch (interp : Interpreter) (pc skipLength : Z) : outcome :=
  ⟪ (rA, vX, vY) ⟫ ⇠ decodeOneRegisterOneImmediateAndOneOffset (InstructionData (Prog interp)) pc skipLength
    ⊘ Ret (interp, ExitHalt, pc);
  op ← sindex (InstructionData (Prog interp)) pc;
  '(interp, branchCondition) ←
    match op with
    | 80 => interp ← setReg interp rA vX; Ret (interp, Some true)
    | 81 => a ← reg interp rA; Ret (interp, Some (a =? vX))
    | 82 => a ← reg interp rA; Ret (interp, Some (negb (a =? vX)))
    | 83 => a ← reg interp rA; Ret (interp, Some (a <? vX))
    | 84 => a ← reg interp rA; Ret (interp, Some (a <=? vX))
    | 85 => a ← reg interp rA; Ret (interp, Some (vX <=? a))
    | 86 => a ← reg interp rA; Ret (interp, Some (vX <? a))
    | 87 => a ← reg interp rA; Ret (interp, Some (s64 a <? s64 vX))
    | 88 => a ← reg interp rA; Ret (interp, Some (s64 a <=? s64 vX))
    | 89 => a ← reg interp rA; Ret (interp, Some (s64 vX <=? s64 a))
    | 90 => a ← reg interp rA; Ret (interp, Some (s64 vX <? s64 a))
    | _ => Ret (interp, None)
    end;
  match branchCondition with
  | None => Ret (interp, ExitPanic, pc)
  | Some branchCondition =>
      '(reason, newPC) ← branch pc vY branchCondition (Bitmasks (Prog interp)) (InstructionData (Prog interp));
      if negb (reason =? ExitContinue) then Ret (interp, reason, pc)
      else Ret (interp, reason, newPC)
  end.

(** ** A.5.9 Two registers *)

(** opcode 100 *)
Definition instMoveReg (interp : Interpreter) (pc skipLength : Z) : outcome :=
  ⟪ (rD, rA) ⟫ ⇠ decodeTwoRegisters (InstructionData (Prog interp)) pc
    ⊘ Ret (interp, ExitHalt, pc);
  a ← reg interp rA;
  interp ← setReg interp rD a;
  Ret (interp, ExitContinue, pc).

(** opcode 101 *)
Definition instSbrk (interp : Interpreter) (pc skipLength : Z) : outcome :=
  ⟪ (rD, rA) ⟫ ⇠ decodeTwoRegisters (InstructionData (Prog interp)) pc
    ⊘ Ret (interp, ExitHalt, pc);
  a ← reg interp rA;
  if a =? 0 then
    interp ← setReg interp rD (heapPointer (Mem interp));
    Ret (interp, ExitContinue, pc)
  else
    let mem := Mem interp in
    let newHeapPointer := u64 (heapPointer mem + a) in
    if (newHeapPointer <? heapPointer mem) || (heapLimit mem <? newHeapPointer) then
      interp ← setReg interp rD 0;
      Ret (interp, ExitContinue, pc)
    else
      let nextPageBoundary := pageUp (s64 (heapPointer mem)) in
      let mem :=
        if nextPageBoundary <? newHeapPointer then
          let finalBoundary := pageUp (s64 newHeapPointer) in
          allocateMemorySegment mem (u32 (heapPointer mem)) finalBoundary None MemoryReadWrite
        else mem in
      let mem := MkMemory (Pages mem) newHeapPointer (heapLimit mem) in
      interp ← setReg (set_mem interp mem) rD newHeapPointer;
      Ret (interp, ExitContinue, pc).

(** opcode 102 *)
Definition instCountSetBits64 (interp : Interpreter) (pc skipLength : Z) : outcome :=
  ⟪ (rD, rA) ⟫ ⇠ decodeTwoRegisters (InstructionData (Prog interp)) pc
    ⊘ Ret (interp, ExitHalt, pc);
  a ← reg interp rA;
  interp ← setReg interp rD (OnesCount a);
  Ret (interp, ExitContinue, pc).

(** opcode 103 *)
Definition instCountSetBits32 (interp : Interpreter) (pc skipLength : Z) : outcome :=
  ⟪ (rD, rA) ⟫ ⇠ decodeTwoRegisters (InstructionData (Prog interp)) pc
    ⊘ Ret (interp, ExitHalt, pc);
  a ← reg interp rA;
  interp ← setReg interp rD (OnesCount (u32 a));
  Ret (interp, ExitContinue, pc).

(** opcode 104 *)
Definition instLeadingZeroBits64 (interp : Interpreter) (pc skipLength : Z) : outcome :=
  ⟪ (rD, rA) ⟫ ⇠ decodeTwoRegisters (InstructionData (Prog interp)) pc
    ⊘ Ret (interp, ExitHalt, pc);
  a ← reg interp rA;
  interp ← setReg interp rD (LeadingZeros 64 a);
  Ret (interp, ExitContinue, pc).

(** opcode 105 *)
Definition instLeadingZeroBits32 (interp : Interpreter) (pc skipLength : Z) : outcome :=
  ⟪ (rD, rA) ⟫ ⇠ decodeTwoRegisters (InstructionData (Prog interp)) pc
    ⊘ Ret (interp, ExitHalt, pc);
  a ← reg interp rA;
  interp ← setReg interp rD (LeadingZeros 32 (u32 a));
  Ret (interp, ExitContinue, pc).

(** opcode 106 *)
Definition instTrailZeroBits64 (interp : Interpreter) (pc skipLength : Z) : outcome :=
  ⟪ (rD, rA) ⟫ ⇠ decodeTwoRegisters (InstructionData (Prog interp)) pc
    ⊘ Ret (interp, ExitHalt, pc);
  a ← reg interp rA;
  interp ← setReg interp rD (TrailingZeros 64 a);
  Ret (interp, ExitContinue, pc).

(** opcode 107 *)
Definition instTrailZeroBits32 (interp : Interpreter) (pc skipLength : Z) : outcome :=
  ⟪ (rD, rA) ⟫ ⇠ decodeTwoRegisters (InstructionData (Prog interp)) pc
    ⊘ Ret (interp, ExitHalt, pc);
  a ← reg interp rA;
  interp ← setReg interp rD (TrailingZeros 32 (u32 a));
  Ret (interp, ExitContinue, pc).

(** opcode 108 *)
Definition instSignExtend8 (interp : Interpreter) (pc skipLength : Z) : outcome :=
  ⟪ (rD, rA) ⟫ ⇠ decodeTwoRegisters (InstructionData (Prog interp)) pc
    ⊘ Ret (interp, ExitHalt, pc);
  regA ← reg interp rA;
  let signedInt := s8 regA in
  let unsignedInt := u64 signedInt in
  interp ← setReg interp rD unsignedInt;
  Ret (interp, ExitContinue, pc).

(** opcode 109 *)
Definition instSignExtend16 (interp : Interpreter) (pc skipLength : Z) : outcome :=
  ⟪ (rD, rA) ⟫ ⇠ decodeTwoRegisters (InstructionData (Prog interp)) pc
    ⊘ Ret (interp, ExitHalt, pc);
  regA ← reg interp rA;
  let signedInt := s16 regA in
  let unsignedInt := u64 signedInt in
  interp ← setReg interp rD unsignedInt;
  Ret (interp, ExitContinue, pc).

(** opcode 110 *)
Definition instZeroExtend16 (interp : Interpreter) (pc skipLength : Z) : outcome :=
  ⟪ (rD, rA) ⟫ ⇠ decodeTwoRegisters (InstructionData (Prog interp)) pc
    ⊘ Ret (interp, ExitHalt, pc);
  regA ← reg interp rA;
  interp ← setReg interp rD (regA mod 2 ^ 16);
  Ret (interp, ExitContinue, pc).

(** opcode 111 *)
Definition instReverseBytes (interp : Interpreter) (pc skipLength : Z) : outcome :=
  ⟪ (rD, rA) ⟫ ⇠ decodeTwoRegisters (InstructionData (Prog interp)) pc
    ⊘ Ret (interp, ExitHalt, pc);
  a ← reg interp rA;
  interp ← setReg interp rD (ReverseBytes64 a);
  Ret (interp, ExitContinue, pc).

(** ** A.5.10 Two registers and one immediate *)

(** opcode 120 *)
Definition instStoreIndU8 (interp : Interpreter) (pc skipLength : Z) : outcome :=
  ⟪ (rA, rB, vX) ⟫ ⇠ decodeTwoRegistersAndOneImmediate (InstructionData (Prog interp)) pc skipLength
    ⊘ Ret (interp, ExitHalt, pc);
  b ← reg interp rB;
  a ← reg interp rA;
  '(interp, exitReason) ← interpStore interp 1 (u32 (u64 (b + vX))) (u8 a);
  Ret (interp, exitReason, pc).

(** opcode 121 *)
Definition instStoreIndU16 (interp : Interpreter) (pc skipLength : Z) : outcome :=
  ⟪ (rA, rB, vX) ⟫ ⇠ decodeTwoRegistersAndOneImmediate (InstructionData (Prog interp)) pc skipLength
    ⊘ Ret (interp, ExitHalt, pc);
  b ← reg interp rB;
  a ← reg interp rA;
  '(interp, exitReason) ← interpStore interp 2 (u32 (u64 (b + vX))) (u16 a);
  Ret (interp, exitReason, pc).

(** opcode 122 *)
Definition instStoreIndU32 (interp : Interpreter) (pc skipLength : Z) : outcome :=
  ⟪ (rA, rB, vX) ⟫ ⇠ decodeTwoRegistersAndOneImmediate (InstructionData (Prog interp)) pc skipLength
    ⊘ Ret (interp, ExitHalt, pc);
  b ← reg interp rB;
  a ← reg interp rA;
  '(interp, exitReason) ← interpStore interp 4 (u32 (u64 (b + vX))) (u32 a);
  Ret (interp, exitReason, pc).

(** opcode 123 *)
Definition instStoreIndU64 (interp : Interpreter) (pc skipLength : Z) : outcome :=
  ⟪ (rA, rB, vX) ⟫ ⇠ decodeTwoRegistersAndOneImmediate (InstructionData (Prog interp)) pc skipLength
    ⊘ Ret (interp, ExitHalt, pc);
  b ← reg interp rB;
  a ← reg interp rA;
  '(interp, exitReason) ← interpStore interp 8 (u32 (u64 (b + vX))) a;
  Ret (interp, exitReason, pc).

(** opcode 124 *)
Definition instLoadIndU8 (interp : Interpreter) (pc skipLength : Z) : outcome :=
  ⟪ (rA, rB, vX) ⟫ ⇠ decodeTwoRegistersAndOneImmediate (InstructionData (Prog interp)) pc skipLength
    ⊘ Ret (interp, ExitHalt, pc);
  b ← reg interp rB;
  '(memVal, exitReason) ← interpLoad interp 1 (u32 (u64 (b + vX)));
  if negb (exitReason =? ExitContinue) then Ret (interp, exitReason, pc)
  else
    interp ← setReg interp rA memVal;
    Ret (interp, ExitContinue, pc).

(** opcode 125 *)
Definition instLoadIndI8 (interp : Interpreter) (pc skipLength : Z) : outcome :=
  ⟪ (rA, rB, vX) ⟫ ⇠ decodeTwoRegistersAndOneImmediate (InstructionData (Prog interp)) pc skipLength
    ⊘ Ret (interp, ExitHalt, pc);
  b ← reg interp rB;
  '(memVal, exitReason) ← interpLoad interp 1 (u32 (u64 (b + vX)));
  if negb (exitReason =? ExitContinue) then Ret (interp, exitReason, pc)
  else
    interp ← setReg interp rA (u64 (s8 memVal));
    Ret (interp, ExitContinue, pc).

(** opcode 126 *)
Definition instLoadIndU16 (interp : Interpreter) (pc skipLength : Z) : outcome :=
  ⟪ (rA, rB, vX) ⟫ ⇠ decodeTwoRegistersAndOneImmediate (InstructionData (Prog interp)) pc skipLength
    ⊘ Ret (interp, ExitHalt, pc);
  b ← reg interp rB;
  '(memVal, exitReason) ← interpLoad interp 2 (u32 (u64 (b + vX)));
  if negb (exitReason =? ExitContinue) then Ret (interp, exitReason, pc)
  else
    interp ← setReg interp rA memVal;
    Ret (interp, ExitContinue, pc).

(** opcode 127 *)
Definition instLoadIndI16 (interp : Interpreter) (pc skipLength : Z) : outcome :=
  ⟪ (rA, rB, vX) ⟫ ⇠ decodeTwoRegistersAndOneImmediate (InstructionData (Prog interp)) pc skipLength
    ⊘ Ret (interp, ExitHalt, pc);
  b ← reg interp rB;
  '(memVal, exitReason) ← interpLoad interp 2 (u32 (u64 (b + vX)));
  if negb (exitReason =? ExitContinue) then Ret (interp, exitReason, pc)
  else
    interp ← setReg interp rA (u64 (s16 memVal));
    Ret (interp, ExitContinue, pc).

(** opcode 128 *)
Definition instLoadIndU32 (interp : Interpreter) (pc skipLength : Z) : outcome :=
  ⟪ (rA, rB, vX) ⟫ ⇠ decodeTwoRegistersAndOneImmediate (InstructionData (Prog interp)) pc skipLength
    ⊘ Ret (interp, ExitHalt, pc);
  b ← reg interp rB;
  '(memVal, exitReason) ← interpLoad interp 4 (u32 (u64 (b + vX)));
  if negb (exitReason =? ExitContinue) then Ret (interp, exitReason, pc)
  else
    interp ← setReg interp rA memVal;
    Ret (interp, ExitContinue, pc).

(** opcode 129 *)
Definition instLoadIndI32 (interp : Interpreter) (pc skipLength : Z) : outcome :=
  ⟪ (rA, rB, vX) ⟫ ⇠ decodeTwoRegistersAndOneImmediate (InstructionData (Prog interp)) pc skipLength
    ⊘ Ret (interp, ExitHalt, pc);
  b ← reg interp rB;
  '(memVal, exitReason) ← interpLoad interp 4 (u32 (u64 (b + vX)));
  if negb (exitReason =? ExitContinue) then Ret (interp, exitReason, pc)
  else
    interp ← setReg interp rA (u64 (s32 memVal));
    Ret (interp, ExitContinue, pc).

(** opcode 130 *)
Definition instLoadIndU64 (interp : Interpreter) (pc skipLength : Z) : outcome :=
  ⟪ (rA, rB, vX) ⟫ ⇠ decodeTwoRegistersAndOneImmediate (InstructionData (Prog interp)) pc skipLength
    ⊘ Ret (interp, ExitHalt, pc);
  b ← reg interp rB;
  '(memVal, exitReason) ← interpLoad interp 8 (u32 (u64 (b + vX)));
  if negb (exitReason =? ExitContinue) then Ret (interp, exitReason, pc)
  else
    interp ← setReg interp rA memVal;
    Ret (interp, ExitContinue, pc).

(** opcode 131 *)
Definition instAddImm32 (interp : Interpreter) (pc skipLength : Z) : outcome :=
  ⟪ (rA, rB, vX) ⟫ ⇠ decodeTwoRegistersAndOneImmediate (InstructionData (Prog interp)) pc skipLength
    ⊘ Ret (interp, ExitHalt, pc);
  b ← reg interp rB;
  let '(val, _) := SignExtend 4 (u32 (u64 (b + vX))) in
  interp ← setReg interp rA val;
  Ret (interp, ExitContinue, pc).

(** opcode 132 *)
Definition instAndImm (interp : Interpreter) (pc skipLength : Z) : outcome :=
  ⟪ (rA, rB, vX) ⟫ ⇠ decodeTwoRegistersAndOneImmediate (InstructionData (Prog interp)) pc skipLength
    ⊘ Ret (interp, ExitHalt, pc);
  b ← reg interp rB;
  interp ← setReg interp rA (Z.land b vX);
  Ret (interp, ExitContinue, pc).

(** opcode 133 *)
Definition instXORImm (interp : Interpreter) (pc skipLength : Z) : outcome :=
  ⟪ (rA, rB, vX) ⟫ ⇠ decodeTwoRegistersAndOneImmediate (InstructionData (Prog interp)) pc skipLength
    ⊘ Ret (interp, ExitHalt, pc);
  b ← reg interp rB;
  interp ← setReg interp rA (Z.lxor b vX);
  Ret (interp, ExitContinue, pc).

(** opcode 134 *)
Definition instORImm (interp : Interpreter) (pc skipLength : Z) : outcome :=
  ⟪ (rA, rB, vX) ⟫ ⇠ decodeTwoRegistersAndOneImmediate (InstructionData (Prog interp)) pc skipLength
    ⊘ Ret (interp, ExitHalt, pc);
  b ← reg interp rB;
  interp ← setReg interp rA (Z.lor b vX);
  Ret (interp, ExitContinue, pc).

(** opcode 135 *)
Definition instMulImm32 (interp : Interpreter) (pc skipLength : Z) : outcome :=
  ⟪ (rA, rB, vX) ⟫ ⇠ decodeTwoRegistersAndOneImmediate (InstructionData (Prog interp)) pc skipLength
    ⊘ Ret (interp, ExitHalt, pc);
  b ← reg interp rB;
  let '(val, err) := SignExtend 4 (u32 (u64 (b * vX))) in
  if err then Ret (interp, ExitHalt, pc)
  else
    interp ← setReg interp rA val;
    Ret (interp, ExitContinue, pc).

(** opcode 136 *)
Definition instSetLtUImm (interp : Interpreter) (pc skipLength : Z) : outcome :=
  ⟪ (rA, rB, vX) ⟫ ⇠ decodeTwoRegistersAndOneImmediate (InstructionData (Prog interp)) pc skipLength
    ⊘ Ret (interp, ExitHalt, pc);
  b ← reg interp rB;
  interp ← setReg interp rA (if b <? vX then 1 else 0);
  Ret (interp, ExitContinue, pc).

(** opcode 137 *)
Definition instSetLtSImm (interp : Interpreter) (pc skipLength : Z) : outcome :=
  ⟪ (rA, rB, vX) ⟫ ⇠ decodeTwoRegistersAndOneImmediate (InstructionData (Prog interp)) pc skipLength
    ⊘ Ret (interp, ExitHalt, pc);
  b ← reg interp rB;
  interp ← setReg interp rA (if s64 b <? s64 vX then 1 else 0);
  Ret (interp, ExitContinue, pc).

(** opcode 138 *)
Definition instShloLImm32 (interp : Interpreter) (pc skipLength : Z) : outcome :=
  ⟪ (rA, rB, vX) ⟫ ⇠ decodeTwoRegistersAndOneImmediate (InstructionData (Prog interp)) pc skipLength
    ⊘ Ret (interp, ExitHalt, pc);
  let vX := Z.land vX 31 in
  b ← reg interp rB;
  let '(val, err) := SignExtend 4 (u32 (shl64 b vX)) in
  if err then Ret (interp, ExitHalt, pc)
  else
    interp ← setReg interp rA val;
    Ret (interp, ExitContinue, pc).

(** opcode 139 *)
Definition instShloRImm32 (interp : Interpreter) (pc skipLength : Z) : outcome :=
  ⟪ (rA, rB, vX) ⟫ ⇠ decodeTwoRegistersAndOneImmediate (InstructionData (Prog interp)) pc skipLength
    ⊘ Ret (interp, ExitHalt, pc);
  let vX := Z.land vX 31 in
  b ← reg interp rB;
  let '(val, err) := SignExtend 4 (shr (u32 b) vX) in
  if err then Ret (interp, ExitPanic, pc)
  else
    interp ← setReg interp rA val;
    Ret (interp, ExitContinue, pc).

(** opcode 140 *)
Definition instSharRImm32 (interp : Interpreter) (pc skipLength : Z) : outcome :=
  ⟪ (rA, rB, vX) ⟫ ⇠ decodeTwoRegistersAndOneImmediate (InstructionData (Prog interp)) pc skipLength
    ⊘ Ret (interp, ExitHalt, pc);
  let vX := Z.land vX 31 in
  b ← reg interp rB;
  interp ← setReg interp rA (u64 (shr (s32 b) vX));
  Ret (interp, ExitContinue, pc).

(** opcode 141 *)
Definition instNegAddImm32 (interp : Interpreter) (pc skipLength : Z) : outcome :=
  ⟪ (rA, rB, vX) ⟫ ⇠ decodeTwoRegistersAndOneImmediate (InstructionData (Prog interp)) pc skipLength
    ⊘ Ret (interp, ExitHalt, pc);
  b ← reg interp rB;
  let '(val, err) := SignExtend 4 (u32 (u64 (u64 (vX + 2 ^ 32) - b))) in
  if err then Ret (interp, ExitHalt, pc)
  else
    interp ← setReg interp rA val;
    Ret (interp, ExitContinue, pc).

(** opcode 142 *)
Definition instSetGtUImm (interp : Interpreter) (pc skipLength : Z) : outcome :=
  ⟪ (rA, rB, vX) ⟫ ⇠ decodeTwoRegistersAndOneImmediate (InstructionData (Prog interp)) pc skipLength
    ⊘ Ret (interp, ExitHalt, pc);
  b ← reg interp rB;
  interp ← setReg interp rA (if vX <? b then 1 else 0);
  Ret (interp, ExitContinue, pc).

(** opcode 143 *)
Definition instSetGtSImm (interp : Interpreter) (pc skipLength : Z) : outcome :=
  ⟪ (rA, rB, vX) ⟫ ⇠ decodeTwoRegistersAndOneImmediate (InstructionData (Prog interp)) pc skipLength
    ⊘ Ret (interp, ExitHalt, pc);
  b ← reg interp rB;
  interp ← setReg interp rA (if s64 vX <? s64 b then 1 else 0);
  Ret (interp, ExitContinue, pc).

(** opcode 144 *)
Definition instShloLImmAlt32 (interp : Interpreter) (pc skipLength : Z) : outcome :=
  ⟪ (rA, rB, vX) ⟫ ⇠ decodeTwoRegistersAndOneImmediate (InstructionData (Prog interp)) pc skipLength
    ⊘ Ret (interp, ExitHalt, pc);
  b ← reg interp rB;
  let '(val, err) := SignExtend 4 (u32 (shl64 vX (Z.land b 31))) in
  if err then Ret (interp, ExitHalt, pc)
  else
    interp ← setReg interp rA val;
    Ret (interp, ExitContinue, pc).

(** opcode 145 *)
Definition instShloRImmAlt32 (interp : Interpreter) (pc skipLength : Z) : outcome :=
  ⟪ (rA, rB, vX) ⟫ ⇠ decodeTwoRegistersAndOneImmediate (InstructionData (Prog interp)) pc skipLength
    ⊘ Ret (interp, ExitHalt, pc);
  b ← reg interp rB;
  let '(val, err) := SignExtend 4 (shr (u32 vX) (Z.land b 31)) in
  if err then Ret (interp, ExitHalt, pc)
  else
    interp ← setReg interp rA val;
    Ret (interp, ExitContinue, pc).

(** opcode 146 *)
Definition instSharRImmAlt32 (interp : Interpreter) (pc skipLength : Z) : outcome :=
  ⟪ (rA, rB, vX) ⟫ ⇠ decodeTwoRegistersAndOneImmediate (InstructionData (Prog interp)) pc skipLength
    ⊘ Ret (interp, ExitHalt, pc);
  b ← reg interp rB;
  let imm := u64 (shr (s32 (u32 vX)) (Z.land b 31)) in
  interp ← setReg interp rA imm;
  Ret (interp, ExitContinue, pc).

(** opcode 147 *)
Definition instCmovIzImm (interp : Interpreter) (pc skipLength : Z) : outcome :=
  ⟪ (rA, rB, vX) ⟫ ⇠ decodeTwoRegistersAndOneImmediate (InstructionData (Prog interp)) pc skipLength
    ⊘ Ret (interp, ExitHalt, pc);
  b ← reg interp rB;
  interp ← (if b =? 0 then setReg interp rA vX else Ret interp);
  Ret (interp, ExitContinue, pc).

(** opcode 148 *)
Definition instCmovNzImm (interp : Interpreter) (pc skipLength : Z) : outcome :=
  ⟪ (rA, rB, vX) ⟫ ⇠ decodeTwoRegistersAndOneImmediate (InstructionData (Prog interp)) pc skipLength
    ⊘ Ret (interp, ExitHalt, pc);
  b ← reg interp rB;
  interp ← (if negb (b =? 0) then setReg interp rA vX else Ret interp);
  Ret (interp, ExitContinue, pc).

(** opcode 149 *)
Definition instAddImm64 (interp : Interpreter) (pc skipLength : Z) : outcome :=
  ⟪ (rA, rB, vX) ⟫ ⇠ decodeTwoRegistersAndOneImmediate (InstructionData (Prog interp)) pc skipLength
    ⊘ Ret (interp, ExitHalt, pc);
  b ← reg interp rB;
  interp ← setReg interp rA (u64 (b + vX));
  Ret (interp, ExitContinue, pc).

(** opcode 150 *)
Definition instMulImm64 (interp : Interpreter) (pc skipLength : Z) : outcome :=
  ⟪ (rA, rB, vX) ⟫ ⇠ decodeTwoRegistersAndOneImmediate (InstructionData (Prog interp)) pc skipLength
    ⊘ Ret (interp, ExitHalt, pc);
  b ← reg interp rB;
  interp ← setReg interp rA (u64 (b * vX));
  Ret (interp, ExitContinue, pc).

(** opcode 151 *)
Definition instShloLImm64 (interp : Interpreter) (pc skipLength : Z) : outcome :=
  ⟪ (rA, rB, vX) ⟫ ⇠ decodeTwoRegistersAndOneImmediate (InstructionData (Prog interp)) pc skipLength
    ⊘ Ret (interp, ExitHalt, pc);
  b ← reg interp rB;
  let '(val, err) := SignExtend 8 (shl64 b (vX mod 64)) in
  if err then Ret (interp, ExitHalt, pc)
  else
    interp ← setReg interp rA val;
    Ret (interp, ExitContinue, pc).

(** opcode 152 *)
Definition instShloRImm64 (interp : Interpreter) (pc skipLength : Z) : outcome :=
  ⟪ (rA, rB, vX) ⟫ ⇠ decodeTwoRegistersAndOneImmediate (InstructionData (Prog interp)) pc skipLength
    ⊘ Ret (interp, ExitHalt, pc);
  b ← reg interp rB;
  let '(val, err) := SignExtend 8 (shr b (vX mod 64)) in
  if err then Ret (interp, ExitHalt, pc)
  else
    interp ← setReg interp rA val;
    Ret (interp, ExitContinue, pc).

(** opcode 153 *)
Definition instSharRImm64 (interp : Interpreter) (pc skipLength : Z) : outcome :=
  ⟪ (rA, rB, vX) ⟫ ⇠ decodeTwoRegistersAndOneImmediate (InstructionData (Prog interp)) pc skipLength
    ⊘ Ret (interp, ExitHalt, pc);
  b ← reg interp rB;
  interp ← setReg interp rA (u64 (shr (s64 b) (Z.land vX 63)));
  Ret (interp, ExitContinue, pc).

(** opcode 154 *)
Definition instNegAddImm64 (interp : Interpreter) (pc skipLength : Z) : outcome :=
  ⟪ (rA, rB, vX) ⟫ ⇠ decodeTwoRegistersAndOneImmediate (InstructionData (Prog interp)) pc skipLength
    ⊘ Ret (interp, ExitHalt, pc);
  b ← reg interp rB;
  interp ← setReg interp rA (u64 (vX - b));
  Ret (interp, ExitContinue, pc).

(** opcode 155 *)
Definition instShloLImmAlt64 (interp : Interpreter) (pc skipLength : Z) : outcome :=
  ⟪ (rA, rB, vX) ⟫ ⇠ decodeTwoRegistersAndOneImmediate (InstructionData (Prog interp)) pc skipLength
    ⊘ Ret (interp, ExitHalt, pc);
  b ← reg interp rB;
  interp ← setReg interp rA (shl64 vX (Z.land b 63));
  Ret (interp, ExitContinue, pc).

(** opcode 156 *)
Definition instShloRImmAlt64 (interp : Interpreter) (pc skipLength : Z) : outcome :=
  ⟪ (rA, rB, vX) ⟫ ⇠ decodeTwoRegistersAndOneImmediate (InstructionData (Prog interp)) pc skipLength
    ⊘ Ret (interp, ExitHalt, pc);
  b ← reg interp rB;
  interp ← setReg interp rA (shr vX (Z.land b 63));
  Ret (interp, ExitContinue, pc).

(** opcode 157 *)
Definition instSharRImmAlt64 (interp : Interpreter) (pc skipLength : Z) : outcome :=
  ⟪ (rA, rB, vX) ⟫ ⇠ decodeTwoRegistersAndOneImmediate (InstructionData (Prog interp)) pc skipLength
    ⊘ Ret (interp, ExitHalt, pc);
  b ← reg interp rB;
  interp ← setReg interp rA (u64 (shr (s64 vX) (Z.land b 63)));
  Ret (interp, ExitContinue, pc).

(** opcode 158 *)
Definition instRotR64Imm (interp : Interpreter) (pc skipLength : Z) : outcome :=
  ⟪ (rA, rB, vX) ⟫ ⇠ decodeTwoRegistersAndOneImmediate (InstructionData (Prog interp)) pc skipLength
    ⊘ Ret (interp, ExitHalt, pc);
  b ← reg interp rB;
  interp ← setReg interp rA (RotateLeft64 b (s64 (- s64 vX)));
  Ret (interp, ExitContinue, pc).

(** opcode 159 *)
Definition instRotR64ImmAlt (interp : Interpreter) (pc skipLength : Z) : outcome :=
  ⟪ (rA, rB, vX) ⟫ ⇠ decodeTwoRegistersAndOneImmediate (InstructionData (Prog interp)) pc skipLength
    ⊘ Ret (interp, ExitHalt, pc);
  b ← reg interp rB;
  interp ← setReg interp rA (RotateLeft64 vX (s64 (- s64 (b mod 64))));
  Ret (interp, ExitContinue, pc).

(** opcode 160 *)
Definition instRotR32Imm (interp : Interpreter) (pc skipLength : Z) : outcome :=
  ⟪ (rA, rB, vX) ⟫ ⇠ decodeTwoRegistersAndOneImmediate (InstructionData (Prog interp)) pc skipLength
    ⊘ Ret (interp, ExitHalt, pc);
  b ← reg interp rB;
  let imm := RotateLeft32 (u32 b) (s64 (- s64 vX)) in
  let '(val, err) := SignExtend 4 imm in
  if err then Ret (interp, ExitPanic, pc)
  else
    interp ← setReg interp rA val;
    Ret (interp, ExitContinue, pc).

(** opcode 161 *)
Definition instRotR32ImmAlt (interp : Interpreter) (pc skipLength : Z) : outcome :=
  ⟪ (rA, rB, vX) ⟫ ⇠ decodeTwoRegistersAndOneImmediate (InstructionData (Prog interp)) pc skipLength
    ⊘ Ret (interp, ExitHalt, pc);
  b ← reg interp rB;
  let imm := RotateLeft32 (u32 vX) (s64 (- s64 b)) in
  let '(val, err) := SignExtend 4 imm in
  if err then Ret (interp, ExitPanic, pc)
  else
    interp ← setReg interp rA val;
    Ret (interp, ExitContinue, pc).

(** ** A.5.11 Two registers and one offset *)

(** opcode in [170, 175] *)
Definition instBranch (interp : Interpreter) (pc skipLength : Z) : outcome :=
  ⟪ (rA, rB, vX) ⟫ ⇠ decodeTwoRegistersAndOneOffset (InstructionData (Prog interp)) pc skipLength
    ⊘ Ret (interp, ExitHalt, pc);
  op ← sindex (InstructionData (Prog interp)) pc;
  a ← reg interp rA;
  b ← reg interp rB;
  let branchCondition :=
    match op with
    | 170 => Some (a =? b)
    | 171 => Some (negb (a =? b))
    | 172 => Some (a <? b)
    | 173 => Some (s64 a <? s64 b)
    | 174 => Some (b <=? a)
    | 175 => Some (s64 b <=? s64 a)
    | _ => None
    end in
  match branchCondition with
  | None => Ret (interp, ExitPanic, pc)
  | Some branchCondition =>
      '(reason, newPC) ← branch pc vX branchCondition (Bitmasks (Prog interp)) (InstructionData (Prog interp));
      if negb (reason =? ExitContinue) then Ret (interp, reason, pc)
      else Ret (interp, reason, newPC)
  end.

(** ** A.5.12 Two registers and two immediates *)

(** opcode 180 *)
Definition instLoadImmJumpInd (interp : Interpreter) (pc skipLength : Z) : outcome :=
  ⟪ (rA, rB, vX, vY) ⟫ ⇠ decodeTwoRegistersAndTwoImmediates (InstructionData (Prog interp)) pc skipLength
    ⊘ Ret (interp, ExitPanic, pc);
  b ← reg interp rB;
  let dest := u32 (u64 (b + vY)) in
  '(reason, newPC) ← djump pc dest (JumpTab (Prog interp)) (Bitmasks (Prog interp));
  interp ← setReg interp rA vX;
  if reason =? ExitPanic then Ret (interp, reason, pc)
  else if reason =? ExitHalt then Ret (interp, reason, pc)
  else Ret (interp, reason, newPC).

(** ** A.5.13 Three registers *)

(** opcode 190 *)
Definition instAdd32 (interp : Interpreter) (pc skipLength : Z) : outcome :=
  ⟪ (rA, rB, rD) ⟫ ⇠ decodeThreeRegisters (InstructionData (Prog interp)) pc
    ⊘ Ret (interp, ExitHalt, pc);
  a ← reg interp rA;
  b ← reg interp rB;
  let '(val, err) := SignExtend 4 (u32 (u64 (a + b))) in
  interp ← setReg interp rD val;
  if err then Ret (interp, ExitHalt, pc) else Ret (interp, ExitContinue, pc).

(** opcode 191 *)
Definition instSub32 (interp : Interpreter) (pc skipLength : Z) : outcome :=
  ⟪ (rA, rB, rD) ⟫ ⇠ decodeThreeRegisters (InstructionData (Prog interp)) pc
    ⊘ Ret (interp, ExitHalt, pc);
  a ← reg interp rA;
  b ← reg interp rB;
  let '(val, err) := SignExtend 4 (u32 (u32 a - u32 b)) in
  interp ← setReg interp rD val;
  if err then Ret (interp, ExitHalt, pc) else Ret (interp, ExitContinue, pc).

(** opcode 192 *)
Definition instMul32 (interp : Interpreter) (pc skipLength : Z) : outcome :=
  ⟪ (rA, rB, rD) ⟫ ⇠ decodeThreeRegisters (InstructionData (Prog interp)) pc
    ⊘ Ret (interp, ExitHalt, pc);
  a ← reg interp rA;
  b ← reg interp rB;
  let '(val, err) := SignExtend 4 (u32 (u64 (a * b))) in
  interp ← setReg interp rD val;
  if err then Ret (interp, ExitHalt, pc) else Ret (interp, ExitContinue, pc).

(** opcode 193 *)
Definition instDivU32 (interp : Interpreter) (pc skipLength : Z) : outcome :=
  ⟪ (rA, rB, rD) ⟫ ⇠ decodeThreeRegisters (InstructionData (Prog interp)) pc
    ⊘ Ret (interp, ExitHalt, pc);
  a ← reg interp rA;
  b ← reg interp rB;
  let bMod32 := u32 b in
  let aMod32 := u32 a in
  if bMod32 =? 0 then
    interp ← setReg interp rD (not64 0);
    Ret (interp, ExitContinue, pc)
  else
    let '(val, err) := SignExtend 4 (aMod32 / bMod32) in
    interp ← setReg interp rD val;
    if err then Ret (interp, ExitHalt, pc) else Ret (interp, ExitContinue, pc).

(** opcode 194 *)
Definition instDivS32 (interp : Interpreter) (pc skipLength : Z) : outcome :=
  ⟪ (rA, rB, rD) ⟫ ⇠ decodeThreeRegisters (InstructionData (Prog interp)) pc
    ⊘ Ret (interp, ExitHalt, pc);
  a ← reg interp rA;
  b ← reg interp rB;
  let a := s32 a in
  let b := s32 b in
  if b =? 0 then
    interp ← setReg interp rD (not64 0);
    Ret (interp, ExitContinue, pc)
  else if (a =? - 2 ^ 31) && (b =? -1) then
    interp ← setReg interp rD (u64 a);
    Ret (interp, ExitContinue, pc)
  else
    interp ← setReg interp rD (u64 (Z.quot a b));
    Ret (interp, ExitContinue, pc).

(** opcode 195 *)
Definition instRemU32 (interp : Interpreter) (pc skipLength : Z) : outcome :=
  ⟪ (rA, rB, rD) ⟫ ⇠ decodeThreeRegisters (InstructionData (Prog interp)) pc
    ⊘ Ret (interp, ExitHalt, pc);
  a ← reg interp rA;
  b ← reg interp rB;
  let bMod32 := u32 b in
  let aMod32 := u32 a in
  let '(val, err) :=
    if bMod32 =? 0 then SignExtend 4 aMod32 else SignExtend 4 (aMod32 mod bMod32) in
  interp ← setReg interp rD val;
  if err then Ret (interp, ExitHalt, pc) else Ret (interp, ExitContinue, pc).

(** opcode 196 *)
Definition instRemS32 (interp : Interpreter) (pc skipLength : Z) : outcome :=
  ⟪ (rA, rB, rD) ⟫ ⇠ decodeThreeRegisters (InstructionData (Prog interp)) pc
    ⊘ Ret (interp, ExitHalt, pc);
  a ← reg interp rA;
  b ← reg interp rB;
  let a := s32 a in
  let b := s32 b in
  if (a =? - 2 ^ 31) && (b =? -1) then
    interp ← setReg interp rD 0;
    Ret (interp, ExitContinue, pc)
  else
    interp ← setReg interp rD (u64 (smod a b));
    Ret (interp, ExitContinue, pc).

(** opcode 197 *)
Definition instShloL32 (interp : Interpreter) (pc skipLength : Z) : outcome :=
  ⟪ (rA, rB, rD) ⟫ ⇠ decodeThreeRegisters (InstructionData (Prog interp)) pc
    ⊘ Ret (interp, ExitHalt, pc);
  a ← reg interp rA;
  b ← reg interp rB;
  let shift := b mod 32 in
  let '(val, err) := SignExtend 4 (u32 (shl64 a shift)) in
  interp ← setReg interp rD val;
  if err then Ret (interp, ExitHalt, pc) else Ret (interp, ExitContinue, pc).

(** opcode 198 *)
Definition instShloR32 (interp : Interpreter) (pc skipLength : Z) : outcome :=
  ⟪ (rA, rB, rD) ⟫ ⇠ decodeThreeRegisters (InstructionData (Prog interp)) pc
    ⊘ Ret (interp, ExitHalt, pc);
  a ← reg interp rA;
  b ← reg interp rB;
  let modA := u32 a in
  let shift := b mod 32 in
  let '(val, err) := SignExtend 4 (shr modA shift) in
  interp ← setReg interp rD val;
  if err then Ret (interp, ExitHalt, pc) else Ret (interp, ExitContinue, pc).

(** opcode 199 *)
Definition instSharR32 (interp : Interpreter) (pc skipLength : Z) : outcome :=
  ⟪ (rA, rB, rD) ⟫ ⇠ decodeThreeRegisters (InstructionData (Prog interp)) pc
    ⊘ Ret (interp, ExitHalt, pc);
  a ← reg interp rA;
  b ← reg interp rB;
  let signedA := s32 a in
  let shift := b mod 32 in
  interp ← setReg interp rD (u64 (shr signedA shift));
  Ret (interp, ExitContinue, pc).

(** opcode 200 *)
Definition instAdd64 (interp : Interpreter) (pc skipLength : Z) : outcome :=
  ⟪ (rA, rB, rD) ⟫ ⇠ decodeThreeRegisters (InstructionData (Prog interp)) pc
    ⊘ Ret (interp, ExitHalt, pc);
  a ← reg interp rA;
  b ← reg interp rB;
  interp ← setReg interp rD (u64 (a + b));
  Ret (interp, ExitContinue, pc).

(** opcode 201 *)
Definition instSub64 (interp : Interpreter) (pc skipLength : Z) : outcome :=
  ⟪ (rA, rB, rD) ⟫ ⇠ decodeThreeRegisters (InstructionData (Prog interp)) pc
    ⊘ Ret (interp, ExitHalt, pc);
  a ← reg interp rA;
  b ← reg interp rB;
  interp ← setReg interp rD (u64 (a - b));
  Ret (interp, ExitContinue, pc).

(** opcode 202 *)
Definition instMul64 (interp : Interpreter) (pc skipLength : Z) : outcome :=
  ⟪ (rA, rB, rD) ⟫ ⇠ decodeThreeRegisters (InstructionData (Prog interp)) pc
    ⊘ Ret (interp, ExitHalt, pc);
  a ← reg interp rA;
  b ← reg interp rB;
  interp ← setReg interp rD (u64 (a * b));
  Ret (interp, ExitContinue, pc).

(** opcode 203 *)
Definition instDivU64 (interp : Interpreter) (pc skipLength : Z) : outcome :=
  ⟪ (rA, rB, rD) ⟫ ⇠ decodeThreeRegisters (InstructionData (Prog interp)) pc
    ⊘ Ret (interp, ExitHalt, pc);
  a ← reg interp rA;
  b ← reg interp rB;
  interp ← setReg interp rD (if b =? 0 then not64 0 else a / b);
  Ret (interp, ExitContinue, pc).

(** opcode 204 *)
Definition instDivS64 (interp : Interpreter) (pc skipLength : Z) : outcome :=
  ⟪ (rA, rB, rD) ⟫ ⇠ decodeThreeRegisters (InstructionData (Prog interp)) pc
    ⊘ Ret (interp, ExitHalt, pc);
  a ← reg interp rA;
  b ← reg interp rB;
  interp ← setReg interp rD
    (if b =? 0 then not64 0
     else if (s64 a =? - 2 ^ 63) && (s64 b =? -1) then a
     else u64 (Z.quot (s64 a) (s64 b)));
  Ret (interp, ExitContinue, pc).

(** opcode 205 *)
Definition instRemU64 (interp : Interpreter) (pc skipLength : Z) : outcome :=
  ⟪ (rA, rB, rD) ⟫ ⇠ decodeThreeRegisters (InstructionData (Prog interp)) pc
    ⊘ Ret (interp, ExitHalt, pc);
  a ← reg interp rA;
  b ← reg interp rB;
  interp ← setReg interp rD (if b =? 0 then a else a mod b);
  Ret (interp, ExitContinue, pc).

(** opcode 206 *)
Definition instRemS64 (interp : Interpreter) (pc skipLength : Z) : outcome :=
  ⟪ (rA, rB, rD) ⟫ ⇠ decodeThreeRegisters (InstructionData (Prog interp)) pc
    ⊘ Ret (interp, ExitHalt, pc);
  a ← reg interp rA;
  b ← reg interp rB;
  interp ← setReg interp rD
    (if (s64 a =? - 2 ^ 63) && (s64 b =? -1) then 0
     else u64 (smod (s64 a) (s64 b)));
  Ret (interp, ExitContinue, pc).

(** opcode 207 *)
Definition instShloL64 (interp : Interpreter) (pc skipLength : Z) : outcome :=
  ⟪ (rA, rB, rD) ⟫ ⇠ decodeThreeRegisters (InstructionData (Prog interp)) pc
    ⊘ Ret (interp, ExitHalt, pc);
  a ← reg interp rA;
  b ← reg interp rB;
  interp ← setReg interp rD (shl64 a (b mod 64));
  Ret (interp, ExitContinue, pc).

(** opcode 208 *)
Definition instShloR64 (interp : Interpreter) (pc skipLength : Z) : outcome :=
  ⟪ (rA, rB, rD) ⟫ ⇠ decodeThreeRegisters (InstructionData (Prog interp)) pc
    ⊘ Ret (interp, ExitHalt, pc);
  a ← reg interp rA;
  b ← reg interp rB;
  interp ← setReg interp rD (shr a (b mod 64));
  Ret (interp, ExitContinue, pc).

(** opcode 209 *)
Definition instSharR64 (interp : Interpreter) (pc skipLength : Z) : outcome :=
  ⟪ (rA, rB, rD) ⟫ ⇠ decodeThreeRegisters (InstructionData (Prog interp)) pc
    ⊘ Ret (interp, ExitHalt, pc);
  a ← reg interp rA;
  b ← reg interp rB;
  interp ← setReg interp rD (u64 (shr (s64 a) (b mod 64)));
  Ret (interp, ExitContinue, pc).

(** opcode 210 *)
Definition instAnd (interp : Interpreter) (pc skipLength : Z) : outcome :=
  ⟪ (rA, rB, rD) ⟫ ⇠ decodeThreeRegisters (InstructionData (Prog interp)) pc
    ⊘ Ret (interp, ExitHalt, pc);
  a ← reg interp rA;
  b ← reg interp rB;
  interp ← setReg interp rD (Z.land a b);
  Ret (interp, ExitContinue, pc).

(** opcode 211 *)
Definition instXor (interp : Interpreter) (pc skipLength : Z) : outcome :=
  ⟪ (rA, rB, rD) ⟫ ⇠ decodeThreeRegisters (InstructionData (Prog interp)) pc
    ⊘ Ret (interp, ExitHalt, pc);
  a ← reg interp rA;
  b ← reg interp rB;
  interp ← setReg interp rD (Z.lxor a b);
  Ret (interp, ExitContinue, pc).

(** opcode 212 *)
Definition instOr (interp : Interpreter) (pc skipLength : Z) : outcome :=
  ⟪ (rA, rB, rD) ⟫ ⇠ decodeThreeRegisters (InstructionData (Prog interp)) pc
    ⊘ Ret (interp, ExitHalt, pc);
  a ← reg interp rA;
  b ← reg interp rB;
  interp ← setReg interp rD (Z.lor a b);
  Ret (interp, ExitContinue, pc).

(** opcode 213 *)
Definition instMulUpperSS (interp : Interpreter) (pc skipLength : Z) : outcome :=
  ⟪ (rA, rB, rD) ⟫ ⇠ decodeThreeRegisters (InstructionData (Prog interp)) pc
    ⊘ Ret (interp, ExitHalt, pc);
  a ← reg interp rA;
  b ← reg interp rB;
  let signedA := s64 a in
  let signedB := s64 b in
  let '(hi, _) := Mul64 (u64 (abs64 signedA)) (u64 (abs64 signedB)) in
  interp ← setReg interp rD
    (if Bool.eqb (signedA <? 0) (signedB <? 0) then hi else u64 (s64 (- s64 hi)));
  Ret (interp, ExitContinue, pc).

(** opcode 214 *)
Definition instMulUpperUU (interp : Interpreter) (pc skipLength : Z) : outcome :=
  ⟪ (rA, rB, rD) ⟫ ⇠ decodeThreeRegisters (InstructionData (Prog interp)) pc
    ⊘ Ret (interp, ExitHalt, pc);
  a ← reg interp rA;
  b ← reg interp rB;
  let '(hi, _) := Mul64 a b in
  interp ← setReg interp rD hi;
  Ret (interp, ExitContinue, pc).

(** opcode 215 *)
Definition instMulUpperSU (interp : Interpreter) (pc skipLength : Z) : outcome :=
  ⟪ (rA, rB, rD) ⟫ ⇠ decodeThreeRegisters (InstructionData (Prog interp)) pc
    ⊘ Ret (interp, ExitHalt, pc);
  a ← reg interp rA;
  b ← reg interp rB;
  let signedA := s64 a in
  let '(hi, lo) := Mul64 (u64 (abs64 signedA)) b in
  interp ← setReg interp rD
    (if signedA <? 0 then
       let hi := u64 (- hi) in
       if negb (lo =? 0) then u64 (hi - 1) else hi
     else hi);
  Ret (interp, ExitContinue, pc).

(** opcode 216 *)
Definition instSetLtU (interp : Interpreter) (pc skipLength : Z) : outcome :=
  ⟪ (rA, rB, rD) ⟫ ⇠ decodeThreeRegisters (InstructionData (Prog interp)) pc
    ⊘ Ret (interp, ExitHalt, pc);
  a ← reg interp rA;
  b ← reg interp rB;
  interp ← setReg interp rD (if a <? b then 1 else 0);
  Ret (interp, ExitContinue, pc).

(** opcode 217 *)
Definition instSetLtS (interp : Interpreter) (pc skipLength : Z) : outcome :=
  ⟪ (rA, rB, rD) ⟫ ⇠ decodeThreeRegisters (InstructionData (Prog interp)) pc
    ⊘ Ret (interp, ExitHalt, pc);
  a ← reg interp rA;
  b ← reg interp rB;
  interp ← setReg interp rD (if s64 a <? s64 b then 1 else 0);
  Ret (interp, ExitContinue, pc).

(** opcode 218 *)
Definition instCmovIz (interp : Interpreter) (pc skipLength : Z) : outcome :=
  ⟪ (rA, rB, rD) ⟫ ⇠ decodeThreeRegisters (InstructionData (Prog interp)) pc
    ⊘ Ret (interp, ExitHalt, pc);
  b ← reg interp rB;
  interp ← (if b =? 0 then a ← reg interp rA; setReg interp rD a else Ret interp);
  Ret (interp, ExitContinue, pc).

(** opcode 219 *)
Definition instCmovNz (interp : Interpreter) (pc skipLength : Z) : outcome :=
  ⟪ (rA, rB, rD) ⟫ ⇠ decodeThreeRegisters (InstructionData (Prog interp)) pc
    ⊘ Ret (interp, ExitHalt, pc);
  b ← reg interp rB;
  interp ← (if negb (b =? 0) then a ← reg interp rA; setReg interp rD a else Ret interp);
  Ret (interp, ExitContinue, pc).

(** opcode 220 *)
Definition instRotL64 (interp : Interpreter) (pc skipLength : Z) : outcome :=
  ⟪ (rA, rB, rD) ⟫ ⇠ decodeThreeRegisters (InstructionData (Prog interp)) pc
    ⊘ Ret (interp, ExitHalt, pc);
  a ← reg interp rA;
  b ← reg interp rB;
  interp ← setReg interp rD (RotateLeft64 a (s64 (b mod 64)));
  Ret (interp, ExitContinue, pc).

(** opcode 221 *)
Definition instRotL32 (interp : Interpreter) (pc skipLength : Z) : outcome :=
  ⟪ (rA, rB, rD) ⟫ ⇠ decodeThreeRegisters (InstructionData (Prog interp)) pc
    ⊘ Ret (interp, ExitHalt, pc);
  a ← reg interp rA;
  b ← reg interp rB;
  let rotated := RotateLeft32 (u32 a) (s64 (b mod 32)) in
  let '(val, err) := SignExtend 4 rotated in
  if err then Ret (interp, ExitHalt, pc)
  else
    interp ← setReg interp rD val;
    Ret (interp, ExitContinue, pc).

(** opcode 222 *)
Definition instRotR64 (interp : Interpreter) (pc skipLength : Z) : outcome :=
  ⟪ (rA, rB, rD) ⟫ ⇠ decodeThreeRegisters (InstructionData (Prog interp)) pc
    ⊘ Ret (interp, ExitHalt, pc);
  a ← reg interp rA;
  b ← reg interp rB;
  interp ← setReg interp rD (RotateLeft64 a (s64 (- s64 b)));
  Ret (interp, ExitContinue, pc).

(** opcode 223 *)
Definition instRotR32 (interp : Interpreter) (pc skipLength : Z) : outcome :=
  ⟪ (rA, rB, rD) ⟫ ⇠ decodeThreeRegisters (InstructionData (Prog interp)) pc
    ⊘ Ret (interp, ExitHalt, pc);
  a ← reg interp rA;
  b ← reg interp rB;
  let rotated := RotateLeft32 (u32 a) (s64 (- s64 b)) in
  let '(val, err) := SignExtend 4 rotated in
  if err then Ret (interp, ExitHalt, pc)
  else
    interp ← setReg interp rD val;
    Ret (interp, ExitContinue, pc).

(** opcode 224 *)
Definition instAndInv (interp : Interpreter) (pc skipLength : Z) : outcome :=
  ⟪ (rA, rB, rD) ⟫ ⇠ decodeThreeRegisters (InstructionData (Prog interp)) pc
    ⊘ Ret (interp, ExitHalt, pc);
  a ← reg interp rA;
  b ← reg interp rB;
  interp ← setReg interp rD (Z.land a (not64 b));
  Ret (interp, ExitContinue, pc).

(** opcode 225 *)
Definition instOrInv (interp : Interpreter) (pc skipLength : Z) : outcome :=
  ⟪ (rA, rB, rD) ⟫ ⇠ decodeThreeRegisters (InstructionData (Prog interp)) pc
    ⊘ Ret (interp, ExitHalt, pc);
  a ← reg interp rA;
  b ← reg interp rB;
  interp ← setReg interp rD (Z.lor a (not64 b));
  Ret (interp, ExitContinue, pc).

(** opcode 226 *)
Definition instXnor (interp : Interpreter) (pc skipLength : Z) : outcome :=
  ⟪ (rA, rB, rD) ⟫ ⇠ decodeThreeRegisters (InstructionData (Prog interp)) pc
    ⊘ Ret (interp, ExitHalt, pc);
  a ← reg interp rA;
  b ← reg interp rB;
  interp ← setReg interp rD (not64 (Z.lxor a b));
  Ret (interp, ExitContinue, pc).

(** opcode 227 *)
Definition instMax (interp : Interpreter) (pc skipLength : Z) : outcome :=
  ⟪ (rA, rB, rD) ⟫ ⇠ decodeThreeRegisters (InstructionData (Prog interp)) pc
    ⊘ Ret (interp, ExitHalt, pc);
  a ← reg interp rA;
  b ← reg interp rB;
  interp ← setReg interp rD (u64 (Z.max (s64 a) (s64 b)));
  Ret (interp, ExitContinue, pc).

(** opcode 228 *)
Definition instMaxU (interp : Interpreter) (pc skipLength : Z) : outcome :=
  ⟪ (rA, rB, rD) ⟫ ⇠ decodeThreeRegisters (InstructionData (Prog interp)) pc
    ⊘ Ret (interp, ExitHalt, pc);
  a ← reg interp rA;
  b ← reg interp rB;
  interp ← setReg interp rD (if b <? a then a else b);
  Ret (interp, ExitContinue, pc).

(** opcode 229 *)
Definition instMin (interp : Interpreter) (pc skipLength : Z) : outcome :=
  ⟪ (rA, rB, rD) ⟫ ⇠ decodeThreeRegisters (InstructionData (Prog interp)) pc
    ⊘ Ret (interp, ExitHalt, pc);
  a ← reg interp rA;
  b ← reg interp rB;
  interp ← setReg interp rD (u64 (Z.min (s64 a) (s64 b)));
  Ret (interp, ExitContinue, pc).

(** opcode 230 *)
Definition instMinU (interp : Interpreter) (pc skipLength : Z) : outcome :=
  ⟪ (rA, rB, rD) ⟫ ⇠ decodeThreeRegisters (InstructionData (Prog interp)) pc
    ⊘ Ret (interp, ExitHalt, pc);
  a ← reg interp rA;
  b ← reg interp rB;
  interp ← setReg interp rD (if a <? b then a else b);
  Ret (interp, ExitContinue, pc).

(** The composite literal of [execInstructions]; the other indices are nil. *)
Definition execInstructions : list (Z * (Interpreter -> Z -> Z -> outcome)) :=
  [
   (0, instTrap);
   (1, instFallthrough);
   (10, instEcalli);
   (20, instLoadImm64);
   (30, instStoreImmU8);
   (31, instStoreImmU16);
   (32, instStoreImmU32);
   (33, instStoreImmU64);
   (40, instJump);
   (50, instJumpInd);
   (51, instLoadImm);
   (52, instLoadU8);
   (53, instLoadI8);
   (54, instLoadU16);
   (55, instLoadI16);
   (56, instLoadU32);
   (57, instLoadI32);
   (58, instLoadU64);
   (59, instStoreU8);
   (60, instStoreU16);
   (61, instStoreU32);
   (62, instStoreU64);
   (70, instStoreImmIndU8);
   (71, instStoreImmIndU16);
   (72, instStoreImmIndU32);
   (73, instStoreImmIndU64);
   (80, instImmediateBranch);
   (81, instImmediateBranch);
   (82, instImmediateBranch);
   (83, instImmediateBranch);
   (84, instImmediateBranch);
   (85, instImmediateBranch);
   (86, instImmediateBranch);
   (87, instImmediateBranch);
   (88, instImmediateBranch);
   (89, instImmediateBranch);
   (90, instImmediateBranch);
   (100, instMoveReg);
   (101, instSbrk);
   (102, instCountSetBits64);
   (103, instCountSetBits32);
   (104, instLeadingZeroBits64);
   (105, instLeadingZeroBits32);
   (106, instTrailZeroBits64);
   (107, instTrailZeroBits32);
   (108, instSignExtend8);
   (109, instSignExtend16);
   (110, instZeroExtend16);
   (111, instReverseBytes);
   (120, instStoreIndU8);
   (121, instStoreIndU16);
   (122, instStoreIndU32);
   (123, instStoreIndU64);
   (124, instLoadIndU8);
   (125, instLoadIndI8);
   (126, instLoadIndU16);
   (127, instLoadIndI16);
   (128, instLoadIndU32);
   (129, instLoadIndI32);
   (130, instLoadIndU64);
   (131, instAddImm32);
   (132, instAndImm);
   (133, instXORImm);
   (134, instORImm);
   (135, instMulImm32);
   (136, instSetLtUImm);
   (137, instSetLtSImm);
   (138, instShloLImm32);
   (139, instShloRImm32);
   (140, instSharRImm32);
   (141, instNegAddImm32);
   (142, instSetGtUImm);
   (143, instSetGtSImm);
   (144, instShloLImmAlt32);
   (145, instShloRImmAlt32);
   (146, instSharRImmAlt32);
   (147, instCmovIzImm);
   (148, instCmovNzImm);
   (149, instAddImm64);
   (150, instMulImm64);
   (151, instShloLImm64);
   (152, instShloRImm64);
   (153, instSharRImm64);
   (154, instNegAddImm64);
   (155, instShloLImmAlt64);
   (156, instShloRImmAlt64);
   (157, instSharRImmAlt64);
   (158, instRotR64Imm);
   (159, instRotR64ImmAlt);
   (160, instRotR32Imm);
   (161, instRotR32ImmAlt);
   (170, instBranch);
   (171, instBranch);
   (172, instBranch);
   (173, instBranch);
   (174, instBranch);
   (175, instBranch);
   (180, instLoadImmJumpInd);
   (190, instAdd32);
   (191, instSub32);
   (192, instMul32);
   (193, instDivU32);
   (194, instDivS32);
   (195, instRemU32);
   (196, instRemS32);
   (197, instShloL32);
   (198, instShloR32);
   (199, instSharR32);
   (200, instAdd64);
   (201, instSub64);
   (202, instMul64);
   (203, instDivU64);
   (204, instDivS64);
   (205, instRemU64);
   (206, instRemS64);
   (207, instShloL64);
   (208, instShloR64);
   (209, instSharR64);
   (210, instAnd);
   (211, instXor);
   (212, instOr);
   (213, instMulUpperSS);
   (214, instMulUpperUU);
   (215, instMulUpperSU);
   (216, instSetLtU);
   (217, instSetLtS);
   (218, instCmovIz);
   (219, instCmovNz);
   (220, instRotL64);
   (221, instRotL32);
   (222, instRotR64);
   (223, instRotR32);
   (224, instAndInv);
   (225, instOrInv);
   (226, instXnor);
   (227, instMax);
   (228, instMaxU);
   (229, instMin);
   (230, instMinU)
  ].
