(* ===== verification/MetaHandlers.v ===== *)
(** * Instruction handlers on pre-decoded metadata

    src/PVM/instructions_instrmeta.go: the handlers the block interpreter
    calls, reading their operands from an [InstrMeta], and the dispatch
    function [instrMetaExecForOpcode]. *)

From S2P Require Import Prelude Words ExitReasons Opcodes Memory MemorySpec Decode Interp.
From S2P Require Import Instructions.
Local Open Scope Z_scope.

(** ** A.5.1 Instructions without arguments *)

(** opcode 0 *)
Definition instTrapMeta (interp : Interpreter) (instr : InstrMeta) : outcome :=
  Ret (interp, ExitPanic, (PC instr)).

(** opcode 1 *)
Definition instFallthroughMeta (interp : Interpreter) (instr : InstrMeta) : outcome :=
  Ret (interp, ExitContinue, (PC instr)).

(** ** A.5.2 One immediate *)

(** opcode 10 *)
Definition instEcalliMeta (interp : Interpreter) (instr : InstrMeta) : outcome :=
  let nuX := Imm0 instr in
  Ret (interp, Z.lor ExitHostCall nuX, PC instr).

(** ** A.5.3 One register and one extended-width immediate *)

(** opcode 20 *)
Definition instLoadImm64Meta (interp : Interpreter) (instr : InstrMeta) : outcome :=
  interp ← setReg interp (Dst instr) (Imm0 instr);
  Ret (interp, ExitContinue, PC instr).

(** ** A.5.4 Two immediates *)

(** opcode 30 *)
Definition instStoreImmU8Meta (interp : Interpreter) (instr : InstrMeta) : outcome :=
  let vx := Imm0 instr in
  let vy := Imm1 instr in
  let vy := u8 vy in
  '(interp, exitReason) ← interpStore interp 1 (u32 vx) vy;
  Ret (interp, exitReason, (PC instr)).

(** opcode 31 *)
Definition instStoreImmU16Meta (interp : Interpreter) (instr : InstrMeta) : outcome :=
  let vx := Imm0 instr in
  let vy := Imm1 instr in
  let vy := u16 vy in
  '(interp, exitReason) ← interpStore interp 2 (u32 vx) vy;
  Ret (interp, exitReason, (PC instr)).

(** opcode 32 *)
Definition instStoreImmU32Meta (interp : Interpreter) (instr : InstrMeta) : outcome :=
  let vx := Imm0 instr in
  let vy := Imm1 instr in
  let vy := u32 vy in
  '(interp, exitReason) ← interpStore interp 4 (u32 vx) vy;
  Ret (interp, exitReason, (PC instr)).

(** opcode 33 *)
Definition instStoreImmU64Meta (interp : Interpreter) (instr : InstrMeta) : outcome :=
  let vx := Imm0 instr in
  let vy := Imm1 instr in
  '(interp, exitReason) ← interpStore interp 8 (u32 vx) vy;
  Ret (interp, exitReason, (PC instr)).

(** ** A.5.5 One offset *)

(** opcode 40 *)
Definition instJumpMeta (interp : Interpreter) (instr : InstrMeta) : outcome :=
  let vX := u32 (Imm0 instr) in
  '(reason, newPC) ← branch (PC instr) vX true (Bitmasks (Prog interp)) (InstructionData (Prog interp));
  if negb (reason =? ExitContinue) then Ret (interp, reason, (PC instr))
  else Ret (interp, reason, newPC).

(** ** A.5.6 One register and one immediate *)

(** opcode 50 *)
Definition instJumpIndMeta (interp : Interpreter) (instr : InstrMeta) : outcome :=
  let rA := Src0 instr in
  let vX := Imm0 instr in
  a ← reg interp rA;
  let dest := u32 (u64 (a + vX)) in
  '(reason, newPC) ← djump (PC instr) dest (JumpTab (Prog interp)) (Bitmasks (Prog interp));
  if reason =? ExitPanic then Ret (interp, reason, (PC instr))
  else if reason =? ExitHalt then Ret (interp, reason, (PC instr))
  else Ret (interp, reason, newPC).

(** opcode 51 *)
Definition instLoadImmMeta (interp : Interpreter) (instr : InstrMeta) : outcome :=
  let rA := Dst instr in
  let vX := Imm0 instr in
  interp ← setReg interp rA vX;
  Ret (interp, ExitContinue, (PC instr)).

(** opcode 52 *)
Definition instLoadU8Meta (interp : Interpreter) (instr : InstrMeta) : outcome :=
  let rA := Dst instr in
  let vX := Imm0 instr in
  '(memVal, exitReason) ← interpLoad interp 1 (u32 vX);
  if negb (exitReason =? ExitContinue) then Ret (interp, exitReason, (PC instr))
  else
    interp ← setReg interp rA memVal;
    Ret (interp, ExitContinue, (PC instr)).

(** opcode 53 *)
Definition instLoadI8Meta (interp : Interpreter) (instr : InstrMeta) : outcome :=
  let rA := Dst instr in
  let vX := Imm0 instr in
  '(memVal, exitReason) ← interpLoad interp 1 (u32 vX);
  if negb (exitReason =? ExitContinue) then Ret (interp, exitReason, (PC instr))
  else
    let '(extend, err) := SignExtend 1 memVal in
    if err then Ret (interp, ExitPanic, (PC instr))
    else
      interp ← setReg interp rA extend;
      Ret (interp, ExitContinue, (PC instr)).

(** opcode 54 *)
Definition instLoadU16Meta (interp : Interpreter) (instr : InstrMeta) : outcome :=
  let rA := Dst instr in
  let vX := Imm0 instr in
  '(memVal, exitReason) ← interpLoad interp 2 (u32 vX);
  if negb (exitReason =? ExitContinue) then Ret (interp, exitReason, (PC instr))
  else
    interp ← setReg interp rA memVal;
    Ret (interp, ExitContinue, (PC instr)).

(** opcode 55 *)
Definition instLoadI16Meta (interp : Interpreter) (instr : InstrMeta) : outcome :=
  let rA := Dst instr in
  let vX := Imm0 instr in
  '(memVal, exitReason) ← interpLoad interp 2 (u32 vX);
  if negb (exitReason =? ExitContinue) then Ret (interp, exitReason, (PC instr))
  else
    let '(extend, err) := SignExtend 2 memVal in
    if err then Ret (interp, ExitPanic, (PC instr))
    else
      interp ← setReg interp rA extend;
      Ret (interp, ExitContinue, (PC instr)).

(** opcode 56 *)
Definition instLoadU32Meta (interp : Interpreter) (instr : InstrMeta) : outcome :=
  let rA := Dst instr in
  let vX := Imm0 instr in
  '(memVal, exitReason) ← interpLoad interp 4 (u32 vX);
  if negb (exitReason =? ExitContinue) then Ret (interp, exitReason, (PC instr))
  else
    interp ← setReg interp rA memVal;
    Ret (interp, ExitContinue, (PC instr)).

(** opcode 57 *)
Definition instLoadI32Meta (interp : Interpreter) (instr : InstrMeta) : outcome :=
  let rA := Dst instr in
  let vX := Imm0 instr in
  '(memVal, exitReason) ← interpLoad interp 4 (u32 vX);
  if negb (exitReason =? ExitContinue) then Ret (interp, exitReason, (PC instr))
  else
    let '(extend, err) := SignExtend 4 memVal in
    if err then Ret (interp, ExitPanic, (PC instr))
    else
      interp ← setReg interp rA extend;
      Ret (interp, ExitContinue, (PC instr)).

(** opcode 58 *)
Definition instLoadU64Meta (interp : Interpreter) (instr : InstrMeta) : outcome :=
  let rA := Dst instr in
  let vX := Imm0 instr in
  '(memVal, exitReason) ← interpLoad interp 8 (u32 vX);
  if negb (exitReason =? ExitContinue) then Ret (interp, exitReason, (PC instr))
  else
    interp ← setReg interp rA memVal;
    Ret (interp, ExitContinue, (PC instr)).

(** opcode 59 *)
Definition instStoreU8Meta (interp : Interpreter) (instr : InstrMeta) : outcome :=
  let rA := Dst instr in
  let vX := Imm0 instr in
  a ← reg interp rA;
  '(interp, exitReason) ← interpStore interp 1 (u32 vX) (u8 a);
  Ret (interp, exitReason, (PC instr)).

(** opcode 60 *)
Definition instStoreU16Meta (interp : Interpreter) (instr : InstrMeta) : outcome :=
  let rA := Dst instr in
  let vX := Imm0 instr in
  a ← reg interp rA;
  '(interp, exitReason) ← interpStore interp 2 (u32 vX) (u16 a);
  Ret (interp, exitReason, (PC instr)).

(** opcode 61 *)
Definition instStoreU32Meta (interp : Interpreter) (instr : InstrMeta) : outcome :=
  let rA := Dst instr in
  let vX := Imm0 instr in
  a ← reg interp rA;
  '(interp, exitReason) ← interpStore interp 4 (u32 vX) (u32 a);
  Ret (interp, exitReason, (PC instr)).

(** opcode 62 *)
Definition instStoreU64Meta (interp : Interpreter) (instr : InstrMeta) : outcome :=
  let rA := Dst instr in
  let vX := Imm0 instr in
  a ← reg interp rA;
  '(interp, exitReason) ← interpStore interp 8 (u32 vX) a;
  Ret (interp, exitReason, (PC instr)).

(** ** A.5.7 One register and two immediates *)

(** opcode 70 *)
Definition instStoreImmIndU8Meta (interp : Interpreter) (instr : InstrMeta) : outcome :=
  let rA := Src0 instr in
  let vX := Imm0 instr in
  let vY := Imm1 instr in
  a ← reg interp rA;
  '(interp, exitReason) ← interpStore interp 1 (u32 (u64 (a + vX))) (u8 vY);
  Ret (interp, exitReason, (PC instr)).

(** opcode 71 *)
Definition instStoreImmIndU16Meta (interp : Interpreter) (instr : InstrMeta) : outcome :=
  let rA := Src0 instr in
  let vX := Imm0 instr in
  let vY := Imm1 instr in
  a ← reg interp rA;
  '(interp, exitReason) ← interpStore interp 2 (u32 (u64 (a + vX))) (u16 vY);
  Ret (interp, exitReason, (PC instr)).

(** opcode 72 *)
Definition instStoreImmIndU32Meta (interp : Interpreter) (instr : InstrMeta) : outcome :=
  let rA := Src0 instr in
  let vX := Imm0 instr in
  let vY := Imm1 instr in
  a ← reg interp rA;
  '(interp, exitReason) ← interpStore interp 4 (u32 (u64 (a + vX))) (u32 vY);
  Ret (interp, exitReason, (PC instr)).

(** opcode 73 *)
Definition instStoreImmIndU64Meta (interp : Interpreter) (instr : InstrMeta) : outcome :=
  let rA := Src0 instr in
  let vX := Imm0 instr in
  let vY := Imm1 instr in
  a ← reg interp rA;
  '(interp, exitReason) ← interpStore interp 8 (u32 (u64 (a + vX))) vY;
  Ret (interp, exitReason, (PC instr)).

(** ** A.5.8 One register, one immediate and one offset *)

(** opcode in [80, 90] *)
Definition instImmediateBranchMeta (interp : Interpreter) (instr : InstrMeta) : outcome :=
  let rA := Src0 instr in
  let vX := Imm0 instr in
  let vY := u32 (Imm1 instr) in
  '(interp, branchCondition) ←
    match Opcode instr with
    | 80 => interp ← setReg interp rA vX; Ret (interp, Some true)
    | 81 => a ← reg interp rA; Ret (interp, Some (a =? vX))
    | 82 => a ← reg interp rA; Ret (interp, Some (negb (a =? vX)))
    | 83 => a ← reg interp rA; Ret (interp, Some (a <? vX))
    | 84 => a ← reg interp rA; Ret (interp, Some (a <=? vX))
    | 85 => a ← reg interp rA; Ret (interp, Some (vX <=? a))
    | 86 => a ← reg interp rA; Ret (interp, Some (vX <? a))
    | 87 => a ← reg interp rA; Ret (interp, Some (s64 a <? s64 vX))
    | 88 => a ← reg interp rA; Ret (interp, Some (s64 a <=? s64 vX))
    | 89 => a ← reg interp rA; Ret (interp, Some (s64 vX <=? s64 a))
    | 90 => a ← reg interp rA; Ret (interp, Some (s64 vX <? s64 a))
    | _ => Ret (interp, None)
    end;
  match branchCondition with
  | None => Ret (interp, ExitPanic, (PC instr))
  | Some branchCondition =>
      '(reason, newPC) ← branch (PC instr) vY branchCondition (Bitmasks (Prog interp)) (InstructionData (Prog interp));
      if negb (reason =? ExitContinue) then Ret (interp, reason, (PC instr))
      else Ret (interp, reason, newPC)
  end.

(** ** A.5.9 Two registers *)

(** opcode 100 *)
Definition instMoveRegMeta (interp : Interpreter) (instr : InstrMeta) : outcome :=
  let rD := Dst instr in
  let rA := Src0 instr in
  a ← reg interp rA;
  interp ← setReg interp rD a;
  Ret (interp, ExitContinue, (PC instr)).

(** opcode 101 *)
Definition instSbrkMeta (interp : Interpreter) (instr : InstrMeta) : outcome :=
  let rD := Dst instr in
  let rA := Src0 instr in
  a ← reg interp rA;
  if a =? 0 then
    interp ← setReg interp rD (heapPointer (Mem interp));
    Ret (interp, ExitContinue, (PC instr))
  else
    let mem := Mem interp in
    let newHeapPointer := u64 (heapPointer mem + a) in
    if (newHeapPointer <? heapPointer mem) || (heapLimit mem <? newHeapPointer) then
      interp ← setReg interp rD 0;
      Ret (interp, ExitContinue, (PC instr))
    else
      let nextPageBoundary := pageUp (s64 (heapPointer mem)) in
      let mem :=
        if nextPageBoundary <? newHeapPointer then
          let finalBoundary := pageUp (s64 newHeapPointer) in
          allocateMemorySegment mem (u32 (heapPointer mem)) finalBoundary None MemoryReadWrite
        else mem in
      let mem := MkMemory (Pages mem) newHeapPointer (heapLimit mem) in
      interp ← setReg (set_mem interp mem) rD newHeapPointer;
      Ret (interp, ExitContinue, (PC instr)).

(** opcode 102 *)
Definition instCountSetBits64Meta (interp : Interpreter) (instr : InstrMeta) : outcome :=
  let rD := Dst instr in
  let rA := Src0 instr in
  a ← reg interp rA;
  interp ← setReg interp rD (OnesCount a);
  Ret (interp, ExitContinue, (PC instr)).

(** opcode 103 *)
Definition instCountSetBits32Meta (interp : Interpreter) (instr : InstrMeta) : outcome :=
  let rD := Dst instr in
  let rA := Src0 instr in
  a ← reg interp rA;
  interp ← setReg interp rD (OnesCount (u32 a));
  Ret (interp, ExitContinue, (PC instr)).

(** opcode 104 *)
Definition instLeadingZeroBits64Meta (interp : Interpreter) (instr : InstrMeta) : outcome :=
  let rD := Dst instr in
  let rA := Src0 instr in
  a ← reg interp rA;
  interp ← setReg interp rD (LeadingZeros 64 a);
  Ret (interp, ExitContinue, (PC instr)).

(** opcode 105 *)
Definition instLeadingZeroBits32Meta (interp : Interpreter) (instr : InstrMeta) : outcome :=
  let rD := Dst instr in
  let rA := Src0 instr in
  a ← reg interp rA;
  interp ← setReg interp rD (LeadingZeros 32 (u32 a));
  Ret (interp, ExitContinue, (PC instr)).

(** opcode 106 *)
Definition instTrailZeroBits64Meta (interp : Interpreter) (instr : InstrMeta) : outcome :=
  let rD := Dst instr in
  let rA := Src0 instr in
  a ← reg interp rA;
  interp ← setReg interp rD (TrailingZeros 64 a);
  Ret (interp, ExitContinue, (PC instr)).

(** opcode 107 *)
Definition instTrailZeroBits32Meta (interp : Interpreter) (instr : InstrMeta) : outcome :=
  let rD := Dst instr in
  let rA := Src0 instr in
  a ← reg interp rA;
  interp ← setReg interp rD (TrailingZeros 32 (u32 a));
  Ret (interp, ExitContinue, (PC instr)).

(** opcode 108 *)
Definition instSignExtend8Meta (interp : Interpreter) (instr : InstrMeta) : outcome :=
  let rD := Dst instr in
  let rA := Src0 instr in
  regA ← reg interp rA;
  let signedInt := s8 regA in
  let unsignedInt := u64 signedInt in
  interp ← setReg interp rD unsignedInt;
  Ret (interp, ExitContinue, (PC instr)).

(** opcode 109 *)
Definition instSignExtend16Meta (interp : Interpreter) (instr : InstrMeta) : outcome :=
  let rD := Dst instr in
  let rA := Src0 instr in
  regA ← reg interp rA;
  let signedInt := s16 regA in
  let unsignedInt := u64 signedInt in
  interp ← setReg interp rD unsignedInt;
  Ret (interp, ExitContinue, (PC instr)).

(** opcode 110 *)
Definition instZeroExtend16Meta (interp : Interpreter) (instr : InstrMeta) : outcome :=
  let rD := Dst instr in
  let rA := Src0 instr in
  regA ← reg interp rA;
  interp ← setReg interp rD (regA mod 2 ^ 16);
  Ret (interp, ExitContinue, (PC instr)).

(** opcode 111 *)
Definition instReverseBytesMeta (interp : Interpreter) (instr : InstrMeta) : outcome :=
  let rD := Dst instr in
  let rA := Src0 instr in
  a ← reg interp rA;
  interp ← setReg interp rD (ReverseBytes64 a);
  Ret (interp, ExitContinue, (PC instr)).

(** ** A.5.10 Two registers and one immediate *)

(** opcode 120 *)
Definition instStoreIndU8Meta (interp : Interpreter) (instr : InstrMeta) : outcome :=
  let rA := Dst instr in
  let rB := Src0 instr in
  let vX := Imm0 instr in
  b ← reg interp rB;
  a ← reg interp rA;
  '(interp, exitReason) ← interpStore interp 1 (u32 (u64 (b + vX))) (u8 a);
  Ret (interp, exitReason, (PC instr)).

(** opcode 121 *)
Definition instStoreIndU16Meta (interp : Interpreter) (instr : InstrMeta) : outcome :=
  let rA := Dst instr in
  let rB := Src0 instr in
  let vX := Imm0 instr in
  b ← reg interp rB;
  a ← reg interp rA;
  '(interp, exitReason) ← interpStore interp 2 (u32 (u64 (b + vX))) (u16 a);
  Ret (interp, exitReason, (PC instr)).

(** opcode 122 *)
Definition instStoreIndU32Meta (interp : Interpreter) (instr : InstrMeta) : outcome :=
  let rA := Dst instr in
  let rB := Src0 instr in
  let vX := Imm0 instr in
  b ← reg interp rB;
  a ← reg interp rA;
  '(interp, exitReason) ← interpStore interp 4 (u32 (u64 (b + vX))) (u32 a);
  Ret (interp, exitReason, (PC instr)).

(** opcode 123 *)
Definition instStoreIndU64Meta (interp : Interpreter) (instr : InstrMeta) : outcome :=
  let rA := Dst instr in
  let rB := Src0 instr in
  let vX := Imm0 instr in
  b ← reg interp rB;
  a ← reg interp rA;
  '(interp, exitReason) ← interpStore interp 8 (u32 (u64 (b + vX))) a;
  Ret (interp, exitReason, (PC instr)).

(** opcode 124 *)
Definition instLoadIndU8Meta (interp : Interpreter) (instr : InstrMeta) : outcome :=
  let rA := Dst instr in
  let rB := Src0 instr in
  let vX := Imm0 instr in
  b ← reg interp rB;
  '(memVal, exitReason) ← interpLoad interp 1 (u32 (u64 (b + vX)));
  if negb (exitReason =? ExitContinue) then Ret (interp, exitReason, (PC instr))
  else
    interp ← setReg interp rA memVal;
    Ret (interp, ExitContinue, (PC instr)).

(** opcode 125 *)
Definition instLoadIndI8Meta (interp : Interpreter) (instr : InstrMeta) : outcome :=
  let rA := Dst instr in
  let rB := Src0 instr in
  let vX := Imm0 instr in
  b ← reg interp rB;
  '(memVal, exitReason) ← interpLoad interp 1 (u32 (u64 (b + vX)));
  if negb (exitReason =? ExitContinue) then Ret (interp, exitReason, (PC instr))
  else
    interp ← setReg interp rA (u64 (s8 memVal));
    Ret (interp, ExitContinue, (PC instr)).

(** opcode 126 *)
Definition instLoadIndU16Meta (interp : Interpreter) (instr : InstrMeta) : outcome :=
  let rA := Dst instr in
  let rB := Src0 instr in
  let vX := Imm0 instr in
  b ← reg interp rB;
  '(memVal, exitReason) ← interpLoad interp 2 (u32 (u64 (b + vX)));
  if negb (exitReason =? ExitContinue) then Ret (interp, exitReason, (PC instr))
  else
    interp ← setReg interp rA memVal;
    Ret (interp, ExitContinue, (PC instr)).

(** opcode 127 *)
Definition instLoadIndI16Meta (interp : Interpreter) (instr : InstrMeta) : outcome :=
  let rA := Dst instr in
  let rB := Src0 instr in
  let vX := Imm0 instr in
  b ← reg interp rB;
  '(memVal, exitReason) ← interpLoad interp 2 (u32 (u64 (b + vX)));
  if negb (exitReason =? ExitContinue) then Ret (interp, exitReason, (PC instr))
  else
    interp ← setReg interp rA (u64 (s16 memVal));
    Ret (interp, ExitContinue, (PC instr)).

(** opcode 128 *)
Definition instLoadIndU32Meta (interp : Interpreter) (instr : InstrMeta) : outcome :=
  let rA := Dst instr in
  let rB := Src0 instr in
  let vX := Imm0 instr in
  b ← reg interp rB;
  '(memVal, exitReason) ← interpLoad interp 4 (u32 (u64 (b + vX)));
  if negb (exitReason =? ExitContinue) then Ret (interp, exitReason, (PC instr))
  else
    interp ← setReg interp rA memVal;
    Ret (interp, ExitContinue, (PC instr)).

(** opcode 129 *)
Definition instLoadIndI32Meta (interp : Interpreter) (instr : InstrMeta) : outcome :=
  let rA := Dst instr in
  let rB := Src0 instr in
  let vX := Imm0 instr in
  b ← reg interp rB;
  '(memVal, exitReason) ← interpLoad interp 4 (u32 (u64 (b + vX)));
  if negb (exitReason =? ExitContinue) then Ret (interp, exitReason, (PC instr))
  else
    interp ← setReg interp rA (u64 (s32 memVal));
    Ret (interp, ExitContinue, (PC instr)).

(** opcode 130 *)
Definition instLoadIndU64Meta (interp : Interpreter) (instr : InstrMeta) : outcome :=
  let rA := Dst instr in
  let rB := Src0 instr in
  let vX := Imm0 instr in
  b ← reg interp rB;
  '(memVal, exitReason) ← interpLoad interp 8 (u32 (u64 (b + vX)));
  if negb (exitReason =? ExitContinue) then Ret (interp, exitReason, (PC instr))
  else
    interp ← setReg interp rA memVal;
    Ret (interp, ExitContinue, (PC instr)).

(** opcode 131 *)
Definition instAddImm32Meta (interp : Interpreter) (instr : InstrMeta) : outcome :=
  let rA := Dst instr in
  let rB := Src0 instr in
  let vX := Imm0 instr in
  b ← reg interp rB;
  let '(val, _) := SignExtend 4 (u32 (u64 (b + vX))) in
  interp ← setReg interp rA val;
  Ret (interp, ExitContinue, (PC instr)).

(** opcode 132 *)
Definition instAndImmMeta (interp : Interpreter) (instr : InstrMeta) : outcome :=
  let rA := Dst instr in
  let rB := Src0 instr in
  let vX := Imm0 instr in
  b ← reg interp rB;
  interp ← setReg interp rA (Z.land b vX);
  Ret (interp, ExitContinue, (PC instr)).

(** opcode 133 *)
Definition instXORImmMeta (interp : Interpreter) (instr : InstrMeta) : outcome :=
  let rA := Dst instr in
  let rB := Src0 instr in
  let vX := Imm0 instr in
  b ← reg interp rB;
  interp ← setReg interp rA (Z.lxor b vX);
  Ret (interp, ExitContinue, (PC instr)).

(** opcode 134 *)
Definition instORImmMeta (interp : Interpreter) (instr : InstrMeta) : outcome :=
  let rA := Dst instr in
  let rB := Src0 instr in
  let vX := Imm0 instr in
  b ← reg interp rB;
  interp ← setReg interp rA (Z.lor b vX);
  Ret (interp, ExitContinue, (PC instr)).

(** opcode 135 *)
Definition instMulImm32Meta (interp : Interpreter) (instr : InstrMeta) : outcome :=
  let rA := Dst instr in
  let rB := Src0 instr in
  let vX := Imm0 instr in
  b ← reg interp rB;
  let '(val, err) := SignExtend 4 (u32 (u64 (b * vX))) in
  if err then Ret (interp, ExitHalt, (PC instr))
  else
    interp ← setReg interp rA val;
    Ret (interp, ExitContinue, (PC instr)).

(** opcode 136 *)
Definition instSetLtUImmMeta (interp : Interpreter) (instr : InstrMeta) : outcome :=
  let rA := Dst instr in
  let rB := Src0 instr in
  let vX := Imm0 instr in
  b ← reg interp rB;
  interp ← setReg interp rA (if b <? vX then 1 else 0);
  Ret (interp, ExitContinue, (PC instr)).

(** opcode 137 *)
Definition instSetLtSImmMeta (interp : Interpreter) (instr : InstrMeta) : outcome :=
  let rA := Dst instr in
  let rB := Src0 instr in
  let vX := Imm0 instr in
  b ← reg interp rB;
  interp ← setReg interp rA (if s64 b <? s64 vX then 1 else 0);
  Ret (interp, ExitContinue, (PC instr)).

(** opcode 138 *)
Definition instShloLImm32Meta (interp : Interpreter) (instr : InstrMeta) : outcome :=
  let rA := Dst instr in
  let rB := Src0 instr in
  let vX := Imm0 instr in
  let vX := Z.land vX 31 in
  b ← reg interp rB;
  let '(val, err) := SignExtend 4 (u32 (shl64 b vX)) in
  if err then Ret (interp, ExitHalt, (PC instr))
  else
    interp ← setReg interp rA val;
    Ret (interp, ExitContinue, (PC instr)).

(** opcode 139 *)
Definition instShloRImm32Meta (interp : Interpreter) (instr : InstrMeta) : outcome :=
  let rA := Dst instr in
  let rB := Src0 instr in
  let vX := Imm0 instr in
  let vX := Z.land vX 31 in
  b ← reg interp rB;
  let '(val, err) := SignExtend 4 (shr (u32 b) vX) in
  if err then Ret (interp, ExitPanic, (PC instr))
  else
    interp ← setReg interp rA val;
    Ret (interp, ExitContinue, (PC instr)).

(** opcode 140 *)
Definition instSharRImm32Meta (interp : Interpreter) (instr : InstrMeta) : outcome :=
  let rA := Dst instr in
  let rB := Src0 instr in
  let vX := Imm0 instr in
  let vX := Z.land vX 31 in
  b ← reg interp rB;
  interp ← setReg interp rA (u64 (shr (s32 b) vX));
  Ret (interp, ExitContinue, (PC instr)).

(** opcode 141 *)
Definition instNegAddImm32Meta (interp : Interpreter) (instr : InstrMeta) : outcome :=
  let rA := Dst instr in
  let rB := Src0 instr in
  let vX := Imm0 instr in
  b ← reg interp rB;
  let '(val, err) := SignExtend 4 (u32 (u64 (u64 (vX + 2 ^ 32) - b))) in
  if err then Ret (interp, ExitHalt, (PC instr))
  else
    interp ← setReg interp rA val;
    Ret (interp, ExitContinue, (PC instr)).

(** opcode 142 *)
Definition instSetGtUImmMeta (interp : Interpreter) (instr : InstrMeta) : outcome :=
  let rA := Dst instr in
  let rB := Src0 instr in
  let vX := Imm0 instr in
  b ← reg interp rB;
  interp ← setReg interp rA (if vX <? b then 1 else 0);
  Ret (interp, ExitContinue, (PC instr)).

(** opcode 143 *)
Definition instSetGtSImmMeta (interp : Interpreter) (instr : InstrMeta) : outcome :=
  let rA := Dst instr in
  let rB := Src0 instr in
  let vX := Imm0 instr in
  b ← reg interp rB;
  interp ← setReg interp rA (if s64 vX <? s64 b then 1 else 0);
  Ret (interp, ExitContinue, (PC instr)).

(** opcode 144 *)
Definition instShloLImmAlt32Meta (interp : Interpreter) (instr : InstrMeta) : outcome :=
  let rA := Dst instr in
  let rB := Src0 instr in
  let vX := Imm0 instr in
  b ← reg interp rB;
  let '(val, err) := SignExtend 4 (u32 (shl64 vX (Z.land b 31))) in
  if err then Ret (interp, ExitHalt, (PC instr))
  else
    interp ← setReg interp rA val;
    Ret (interp, ExitContinue, (PC instr)).

(** opcode 145 *)
Definition instShloRImmAlt32Meta (interp : Interpreter) (instr : InstrMeta) : outcome :=
  let rA := Dst instr in
  let rB := Src0 instr in
  let vX := Imm0 instr in
  b ← reg interp rB;
  let '(val, err) := SignExtend 4 (shr (u32 vX) (Z.land b 31)) in
  if err then Ret (interp, ExitHalt, (PC instr))
  else
    interp ← setReg interp rA val;
    Ret (interp, ExitContinue, (PC instr)).

(** opcode 146 *)
Definition instSharRImmAlt32Meta (interp : Interpreter) (instr : InstrMeta) : outcome :=
  let rA := Dst instr in
  let rB := Src0 instr in
  let vX := Imm0 instr in
  b ← reg interp rB;
  let imm := u64 (shr (s32 (u32 vX)) (Z.land b 31)) in
  interp ← setReg interp rA imm;
  Ret (interp, ExitContinue, (PC instr)).

(** opcode 147 *)
Definition instCmovIzImmMeta (interp : Interpreter) (instr : InstrMeta) : outcome :=
  let rA := Dst instr in
  let rB := Src0 instr in
  let vX := Imm0 instr in
  b ← reg interp rB;
  interp ← (if b =? 0 then setReg interp rA vX else Ret interp);
  Ret (interp, ExitContinue, (PC instr)).

(** opcode 148 *)
Definition instCmovNzImmMeta (interp : Interpreter) (instr : InstrMeta) : outcome :=
  let rA := Dst instr in
  let rB := Src0 instr in
  let vX := Imm0 instr in
  b ← reg interp rB;
  interp ← (if negb (b =? 0) then setReg interp rA vX else Ret interp);
  Ret (interp, ExitContinue, (PC instr)).

(** opcode 149 *)
Definition instAddImm64Meta (interp : Interpreter) (instr : InstrMeta) : outcome :=
  let rA := Dst instr in
  let rB := Src0 instr in
  let vX := Imm0 instr in
  b ← reg interp rB;
  interp ← setReg interp rA (u64 (b + vX));
  Ret (interp, ExitContinue, (PC instr)).

(** opcode 150 *)
Definition instMulImm64Meta (interp : Interpreter) (instr : InstrMeta) : outcome :=
  let rA := Dst instr in
  let rB := Src0 instr in
  let vX := Imm0 instr in
  b ← reg interp rB;
  interp ← setReg interp rA (u64 (b * vX));
  Ret (interp, ExitContinue, (PC instr)).

(** opcode 151 *)
Definition instShloLImm64Meta (interp : Interpreter) (instr : InstrMeta) : outcome :=
  let rA := Dst instr in
  let rB := Src0 instr in
  let vX := Imm0 instr in
  b ← reg interp rB;
  let '(val, err) := SignExtend 8 (shl64 b (Z.land vX 63)) in
  if err then Ret (interp, ExitHalt, (PC instr))
  else
    interp ← setReg interp rA val;
    Ret (interp, ExitContinue, (PC instr)).

(** opcode 152 *)
Definition instShloRImm64Meta (interp : Interpreter) (instr : InstrMeta) : outcome :=
  let rA := Dst instr in
  let rB := Src0 instr in
  let vX := Imm0 instr in
  b ← reg interp rB;
  let '(val, err) := SignExtend 8 (shr b (Z.land vX 63)) in
  if err then Ret (interp, ExitHalt, (PC instr))
  else
    interp ← setReg interp rA val;
    Ret (interp, ExitContinue, (PC instr)).

(** opcode 153 *)
Definition instSharRImm64Meta (interp : Interpreter) (instr : InstrMeta) : outcome :=
  let rA := Dst instr in
  let rB := Src0 instr in
  let vX := Imm0 instr in
  b ← reg interp rB;
  interp ← setReg interp rA (u64 (shr (s64 b) (Z.land vX 63)));
  Ret (interp, ExitContinue, (PC instr)).

(** opcode 154 *)
Definition instNegAddImm64Meta (interp : Interpreter) (instr : InstrMeta) : outcome :=
  let rA := Dst instr in
  let rB := Src0 instr in
  let vX := Imm0 instr in
  b ← reg interp rB;
  interp ← setReg interp rA (u64 (vX - b));
  Ret (interp, ExitContinue, (PC instr)).

(** opcode 155 *)
Definition instShloLImmAlt64Meta (interp : Interpreter) (instr : InstrMeta) : outcome :=
  let rA := Dst instr in
  let rB := Src0 instr in
  let vX := Imm0 instr in
  b ← reg interp rB;
  interp ← setReg interp rA (shl64 vX (Z.land b 63));
  Ret (interp, ExitContinue, (PC instr)).

(** opcode 156 *)
Definition instShloRImmAlt64Meta (interp : Interpreter) (instr : InstrMeta) : outcome :=
  let rA := Dst instr in
  let rB := Src0 instr in
  let vX := Imm0 instr in
  b ← reg interp rB;
  interp ← setReg interp rA (shr vX (Z.land b 63));
  Ret (interp, ExitContinue, (PC instr)).

(** opcode 157 *)
Definition instSharRImmAlt64Meta (interp : Interpreter) (instr : InstrMeta) : outcome :=
  let rA := Dst instr in
  let rB := Src0 instr in
  let vX := Imm0 instr in
  b ← reg interp rB;
  interp ← setReg interp rA (u64 (shr (s64 vX) (Z.land b 63)));
  Ret (interp, ExitContinue, (PC instr)).

(** opcode 158 *)
Definition instRotR64ImmMeta (interp : Interpreter) (instr : InstrMeta) : outcome :=
  let rA := Dst instr in
  let rB := Src0 instr in
  let vX := Imm0 instr in
  b ← reg interp rB;
  interp ← setReg interp rA (RotateLeft64 b (s64 (- s64 vX)));
  Ret (interp, ExitContinue, (PC instr)).

(** opcode 159 *)
Definition instRotR64ImmAltMeta (interp : Interpreter) (instr : InstrMeta) : outcome :=
  let rA := Dst instr in
  let rB := Src0 instr in
  let vX := Imm0 instr in
  b ← reg interp rB;
  interp ← setReg interp rA (RotateLeft64 vX (s64 (- s64 (Z.land b 63))));
  Ret (interp, ExitContinue, (PC instr)).

(** opcode 160 *)
Definition instRotR32ImmMeta (interp : Interpreter) (instr : InstrMeta) : outcome :=
  let rA := Dst instr in
  let rB := Src0 instr in
  let vX := Imm0 instr in
  b ← reg interp rB;
  let imm := RotateLeft32 (u32 b) (s64 (- s64 vX)) in
  let '(val, err) := SignExtend 4 imm in
  if err then Ret (interp, ExitPanic, (PC instr))
  else
    interp ← setReg interp rA val;
    Ret (interp, ExitContinue, (PC instr)).

(** opcode 161 *)
Definition instRotR32ImmAltMeta (interp : Interpreter) (instr : InstrMeta) : outcome :=
  let rA := Dst instr in
  let rB := Src0 instr in
  let vX := Imm0 instr in
  b ← reg interp rB;
  let imm := RotateLeft32 (u32 vX) (s64 (- s64 b)) in
  let '(val, err) := SignExtend 4 imm in
  if err then Ret (interp, ExitPanic, (PC instr))
  else
    interp ← setReg interp rA val;
    Ret (interp, ExitContinue, (PC instr)).

(** ** A.5.11 Two registers and one offset *)

(** opcode in [170, 175] *)
Definition instBranchMeta (interp : Interpreter) (instr : InstrMeta) : outcome :=
  let rA := Src0 instr in
  let rB := Src1 instr in
  let vX := u32 (Imm0 instr) in
  a ← reg interp rA;
  b ← reg interp rB;
  let branchCondition :=
    match Opcode instr with
    | 170 => Some (a =? b)
    | 171 => Some (negb (a =? b))
    | 172 => Some (a <? b)
    | 173 => Some (s64 a <? s64 b)
    | 174 => Some (b <=? a)
    | 175 => Some (s64 b <=? s64 a)
    | _ => None
    end in
  match branchCondition with
  | None => Ret (interp, ExitPanic, (PC instr))
  | Some branchCondition =>
      '(reason, newPC) ← branch (PC instr) vX branchCondition (Bitmasks (Prog interp)) (InstructionData (Prog interp));
      if negb (reason =? ExitContinue) then Ret (interp, reason, (PC instr))
      else Ret (interp, reason, newPC)
  end.

(** ** A.5.12 Two registers and two immediates *)

(** opcode 180 *)
Definition instLoadImmJumpIndMeta (interp : Interpreter) (instr : InstrMeta) : outcome :=
  let rA := Dst instr in
  let rB := Src0 instr in
  let vX := Imm0 instr in
  let vY := Imm1 instr in
  b ← reg interp rB;
  let dest := u32 (u64 (b + vY)) in
  '(reason, newPC) ← djump (PC instr) dest (JumpTab (Prog interp)) (Bitmasks (Prog interp));
  interp ← setReg interp rA vX;
  if reason =? ExitPanic then Ret (interp, reason, (PC instr))
  else if reason =? ExitHalt then Ret (interp, reason, (PC instr))
  else Ret (interp, reason, newPC).

(** ** A.5.13 Three registers *)

(** opcode 190 *)
Definition instAdd32Meta (interp : Interpreter) (instr : InstrMeta) : outcome :=
  let rA := Src0 instr in
  let rB := Src1 instr in
  let rD := Dst instr in
  a ← reg interp rA;
  b ← reg interp rB;
  let '(val, err) := SignExtend 4 (u32 (u64 (a + b))) in
  interp ← setReg interp rD val;
  if err then Ret (interp, ExitHalt, (PC instr)) else Ret (interp, ExitContinue, (PC instr)).

(** opcode 191 *)
Definition instSub32Meta (interp : Interpreter) (instr : InstrMeta) : outcome :=
  let rA := Src0 instr in
  let rB := Src1 instr in
  let rD := Dst instr in
  a ← reg interp rA;
  b ← reg interp rB;
  let '(val, err) := SignExtend 4 (u32 (u32 a - u32 b)) in
  interp ← setReg interp rD val;
  if err then Ret (interp, ExitHalt, (PC instr)) else Ret (interp, ExitContinue, (PC instr)).

(** opcode 192 *)
Definition instMul32Meta (interp : Interpreter) (instr : InstrMeta) : outcome :=
  let rA := Src0 instr in
  let rB := Src1 instr in
  let rD := Dst instr in
  a ← reg interp rA;
  b ← reg interp rB;
  let '(val, err) := SignExtend 4 (u32 (u64 (a * b))) in
  interp ← setReg interp rD val;
  if err then Ret (interp, ExitHalt, (PC instr)) else Ret (interp, ExitContinue, (PC instr)).

(** opcode 193 *)
Definition instDivU32Meta (interp : Interpreter) (instr : InstrMeta) : outcome :=
  let rA := Src0 instr in
  let rB := Src1 instr in
  let rD := Dst instr in
  a ← reg interp rA;
  b ← reg interp rB;
  let bMod32 := u32 b in
  let aMod32 := u32 a in
  if bMod32 =? 0 then
    interp ← setReg interp rD (not64 0);
    Ret (interp, ExitContinue, (PC instr))
  else
    let '(val, err) := SignExtend 4 (aMod32 / bMod32) in
    interp ← setReg interp rD val;
    if err then Ret (interp, ExitHalt, (PC instr)) else Ret (interp, ExitContinue, (PC instr)).

(** opcode 194 *)
Definition instDivS32Meta (interp : Interpreter) (instr : InstrMeta) : outcome :=
  let rA := Src0 instr in
  let rB := Src1 instr in
  let rD := Dst instr in
  a ← reg interp rA;
  b ← reg interp rB;
  let a := s32 a in
  let b := s32 b in
  if b =? 0 then
    interp ← setReg interp rD (not64 0);
    Ret (interp, ExitContinue, (PC instr))
  else if (a =? - 2 ^ 31) && (b =? -1) then
    interp ← setReg interp rD (u64 a);
    Ret (interp, ExitContinue, (PC instr))
  else
    interp ← setReg interp rD (u64 (Z.quot a b));
    Ret (interp, ExitContinue, (PC instr)).

(** opcode 195 *)
Definition instRemU32Meta (interp : Interpreter) (instr : InstrMeta) : outcome :=
  let rA := Src0 instr in
  let rB := Src1 instr in
  let rD := Dst instr in
  a ← reg interp rA;
  b ← reg interp rB;
  let bMod32 := u32 b in
  let aMod32 := u32 a in
  let '(val, err) :=
    if bMod32 =? 0 then SignExtend 4 aMod32 else SignExtend 4 (aMod32 mod bMod32) in
  interp ← setReg interp rD val;
  if err then Ret (interp, ExitHalt, (PC instr)) else Ret (interp, ExitContinue, (PC instr)).

(** opcode 196 *)
Definition instRemS32Meta (interp : Interpreter) (instr : InstrMeta) : outcome :=
  let rA := Src0 instr in
  let rB := Src1 instr in
  let rD := Dst instr in
  a ← reg interp rA;
  b ← reg interp rB;
  let a := s32 a in
  let b := s32 b in
  if (a =? - 2 ^ 31) && (b =? -1) then
    interp ← setReg interp rD 0;
    Ret (interp, ExitContinue, (PC instr))
  else
    interp ← setReg interp rD (u64 (smod a b));
    Ret (interp, ExitContinue, (PC instr)).

(** opcode 197 *)
Definition instShloL32Meta (interp : Interpreter) (instr : InstrMeta) : outcome :=
  let rA := Src0 instr in
  let rB := Src1 instr in
  let rD := Dst instr in
  a ← reg interp rA;
  b ← reg interp rB;
  let shift := b mod 32 in
  let '(val, err) := SignExtend 4 (u32 (shl64 a shift)) in
  interp ← setReg interp rD val;
  if err then Ret (interp, ExitHalt, (PC instr)) else Ret (interp, ExitContinue, (PC instr)).

(** opcode 198 *)
Definition instShloR32Meta (interp : Interpreter) (instr : InstrMeta) : outcome :=
  let rA := Src0 instr in
  let rB := Src1 instr in
  let rD := Dst instr in
  a ← reg interp rA;
  b ← reg interp rB;
  let modA := u32 a in
  let shift := b mod 32 in
  let '(val, err) := SignExtend 4 (shr modA shift) in
  interp ← setReg interp rD val;
  if err then Ret (interp, ExitHalt, (PC instr)) else Ret (interp, ExitContinue, (PC instr)).

(** opcode 199 *)
Definition instSharR32Meta (interp : Interpreter) (instr : InstrMeta) : outcome :=
  let rA := Src0 instr in
  let rB := Src1 instr in
  let rD := Dst instr in
  a ← reg interp rA;
  b ← reg interp rB;
  let signedA := s32 a in
  let shift := b mod 32 in
  interp ← setReg interp rD (u64 (shr signedA shift));
  Ret (interp, ExitContinue, (PC instr)).

(** opcode 200 *)
Definition instAdd64Meta (interp : Interpreter) (instr : InstrMeta) : outcome :=
  let rA := Src0 instr in
  let rB := Src1 instr in
  let rD := Dst instr in
  a ← reg interp rA;
  b ← reg interp rB;
  interp ← setReg interp rD (u64 (a + b));
  Ret (interp, ExitContinue, (PC instr)).

(** opcode 201 *)
Definition instSub64Meta (interp : Interpreter) (instr : InstrMeta) : outcome :=
  let rA := Src0 instr in
  let rB := Src1 instr in
  let rD := Dst instr in
  a ← reg interp rA;
  b ← reg interp rB;
  interp ← setReg interp rD (u64 (a - b));
  Ret (interp, ExitContinue, (PC instr)).

(** opcode 202 *)
Definition instMul64Meta (interp : Interpreter) (instr : InstrMeta) : outcome :=
  let rA := Src0 instr in
  let rB := Src1 instr in
  let rD := Dst instr in
  a ← reg interp rA;
  b ← reg interp rB;
  interp ← setReg interp rD (u64 (a * b));
  Ret (interp, ExitContinue, (PC instr)).

(** opcode 203 *)
Definition instDivU64Meta (interp : Interpreter) (instr : InstrMeta) : outcome :=
  let rA := Src0 instr in
  let rB := Src1 instr in
  let rD := Dst instr in
  a ← reg interp rA;
  b ← reg interp rB;
  interp ← setReg interp rD (if b =? 0 then not64 0 else a / b);
  Ret (interp, ExitContinue, (PC instr)).

(** opcode 204 *)
Definition instDivS64Meta (interp : Interpreter) (instr : InstrMeta) : outcome :=
  let rA := Src0 instr in
  let rB := Src1 instr in
  let rD := Dst instr in
  a ← reg interp rA;
  b ← reg interp rB;
  interp ← setReg interp rD
    (if b =? 0 then not64 0
     else if (s64 a =? - 2 ^ 63) && (s64 b =? -1) then a
     else u64 (Z.quot (s64 a) (s64 b)));
  Ret (interp, ExitContinue, (PC instr)).

(** opcode 205 *)
Definition instRemU64Meta (interp : Interpreter) (instr : InstrMeta) : outcome :=
  let rA := Src0 instr in
  let rB := Src1 instr in
  let rD := Dst instr in
  a ← reg interp rA;
  b ← reg interp rB;
  interp ← setReg interp rD (if b =? 0 then a else a mod b);
  Ret (interp, ExitContinue, (PC instr)).

(** opcode 206 *)
Definition instRemS64Meta (interp : Interpreter) (instr : InstrMeta) : outcome :=
  let rA := Src0 instr in
  let rB := Src1 instr in
  let rD := Dst instr in
  a ← reg interp rA;
  b ← reg interp rB;
  interp ← setReg interp rD
    (if (s64 a =? - 2 ^ 63) && (s64 b =? -1) then 0
     else u64 (smod (s64 a) (s64 b)));
  Ret (interp, ExitContinue, (PC instr)).

(** opcode 207 *)
Definition instShloL64Meta (interp : Interpreter) (instr : InstrMeta) : outcome :=
  let rA := Src0 instr in
  let rB := Src1 instr in
  let rD := Dst instr in
  a ← reg interp rA;
  b ← reg interp rB;
  interp ← setReg interp rD (shl64 a (b mod 64));
  Ret (interp, ExitContinue, (PC instr)).

(** opcode 208 *)
Definition instShloR64Meta (interp : Interpreter) (instr : InstrMeta) : outcome :=
  let rA := Src0 instr in
  let rB := Src1 instr in
  let rD := Dst instr in
  a ← reg interp rA;
  b ← reg interp rB;
  interp ← setReg interp rD (shr a (b mod 64));
  Ret (interp, ExitContinue, (PC instr)).

(** opcode 209 *)
Definition instSharR64Meta (interp : Interpreter) (instr : InstrMeta) : outcome :=
  let rA := Src0 instr in
  let rB := Src1 instr in
  let rD := Dst instr in
  a ← reg interp rA;
  b ← reg interp rB;
  interp ← setReg interp rD (u64 (shr (s64 a) (b mod 64)));
  Ret (interp, ExitContinue, (PC instr)).

(** opcode 210 *)
Definition instAndMeta (interp : Interpreter) (instr : InstrMeta) : outcome :=
  let rA := Src0 instr in
  let rB := Src1 instr in
  let rD := Dst instr in
  a ← reg interp rA;
  b ← reg interp rB;
  interp ← setReg interp rD (Z.land a b);
  Ret (interp, ExitContinue, (PC instr)).

(** opcode 211 *)
Definition instXorMeta (interp : Interpreter) (instr : InstrMeta) : outcome :=
  let rA := Src0 instr in
  let rB := Src1 instr in
  let rD := Dst instr in
  a ← reg interp rA;
  b ← reg interp rB;
  interp ← setReg interp rD (Z.lxor a b);
  Ret (interp, ExitContinue, (PC instr)).

(** opcode 212 *)
Definition instOrMeta (interp : Interpreter) (instr : InstrMeta) : outcome :=
  let rA := Src0 instr in
  let rB := Src1 instr in
  let rD := Dst instr in
  a ← reg interp rA;
  b ← reg interp rB;
  interp ← setReg interp rD (Z.lor a b);
  Ret (interp, ExitContinue, (PC instr)).

(** opcode 213 *)
Definition instMulUpperSSMeta (interp : Interpreter) (instr : InstrMeta) : outcome :=
  let rA := Src0 instr in
  let rB := Src1 instr in
  let rD := Dst instr in
  a ← reg interp rA;
  b ← reg interp rB;
  let signedA := s64 a in
  let signedB := s64 b in
  let '(hi, _) := Mul64 (u64 (abs64 signedA)) (u64 (abs64 signedB)) in
  interp ← setReg interp rD
    (if Bool.eqb (signedA <? 0) (signedB <? 0) then hi else u64 (s64 (- s64 hi)));
  Ret (interp, ExitContinue, (PC instr)).

(** opcode 214 *)
Definition instMulUpperUUMeta (interp : Interpreter) (instr : InstrMeta) : outcome :=
  let rA := Src0 instr in
  let rB := Src1 instr in
  let rD := Dst instr in
  a ← reg interp rA;
  b ← reg interp rB;
  let '(hi, _) := Mul64 a b in
  interp ← setReg interp rD hi;
  Ret (interp, ExitContinue, (PC instr)).

(** opcode 215 *)
Definition instMulUpperSUMeta (interp : Interpreter) (instr : InstrMeta) : outcome :=
  let rA := Src0 instr in
  let rB := Src1 instr in
  let rD := Dst instr in
  a ← reg interp rA;
  b ← reg interp rB;
  let signedA := s64 a in
  let '(hi, lo) := Mul64 (u64 (abs64 signedA)) b in
  interp ← setReg interp rD
    (if signedA <? 0 then
       let hi := u64 (- hi) in
       if negb (lo =? 0) then u64 (hi - 1) else hi
     else hi);
  Ret (interp, ExitContinue, (PC instr)).

(** opcode 216 *)
Definition instSetLtUMeta (interp : Interpreter) (instr : InstrMeta) : outcome :=
  let rA := Src0 instr in
  let rB := Src1 instr in
  let rD := Dst instr in
  a ← reg interp rA;
  b ← reg interp rB;
  interp ← setReg interp rD (if a <? b then 1 else 0);
  Ret (interp, ExitContinue, (PC instr)).

(** opcode 217 *)
Definition instSetLtSSMeta (interp : Interpreter) (instr : InstrMeta) : outcome :=
  let rA := Src0 instr in
  let rB := Src1 instr in
  let rD := Dst instr in
  a ← reg interp rA;
  b ← reg interp rB;
  interp ← setReg interp rD (if s64 a <? s64 b then 1 else 0);
  Ret (interp, ExitContinue, (PC instr)).

(** opcode 218 *)
Definition instCmovIzMeta (interp : Interpreter) (instr : InstrMeta) : outcome :=
  let rA := Src0 instr in
  let rB := Src1 instr in
  let rD := Dst instr in
  b ← reg interp rB;
  interp ← (if b =? 0 then a ← reg interp rA; setReg interp rD a else Ret interp);
  Ret (interp, ExitContinue, (PC instr)).

(** opcode 219 *)
Definition instCmovNzMeta (interp : Interpreter) (instr : InstrMeta) : outcome :=
  let rA := Src0 instr in
  let rB := Src1 instr in
  let rD := Dst instr in
  b ← reg interp rB;
  interp ← (if negb (b =? 0) then a ← reg interp rA; setReg interp rD a else Ret interp);
  Ret (interp, ExitContinue, (PC instr)).

(** opcode 220 *)
Definition instRotL64Meta (interp : Interpreter) (instr : InstrMeta) : outcome :=
  let rA := Src0 instr in
  let rB := Src1 instr in
  let rD := Dst instr in
  a ← reg interp rA;
  b ← reg interp rB;
  interp ← setReg interp rD (RotateLeft64 a (s64 (b mod 64)));
  Ret (interp, ExitContinue, (PC instr)).

(** opcode 221 *)
Definition instRotL32Meta (interp : Interpreter) (instr : InstrMeta) : outcome :=
  let rA := Src0 instr in
  let rB := Src1 instr in
  let rD := Dst instr in
  a ← reg interp rA;
  b ← reg interp rB;
  let rotated := RotateLeft32 (u32 a) (s64 (b mod 32)) in
  let '(val, err) := SignExtend 4 rotated in
  if err then Ret (interp, ExitHalt, (PC instr))
  else
    interp ← setReg interp rD val;
    Ret (interp, ExitContinue, (PC instr)).

(** opcode 222 *)
Definition instRotR64Meta (interp : Interpreter) (instr : InstrMeta) : outcome :=
  let rA := Src0 instr in
  let rB := Src1 instr in
  let rD := Dst instr in
  a ← reg interp rA;
  b ← reg interp rB;
  interp ← setReg interp rD (RotateLeft64 a (s64 (- s64 b)));
  Ret (interp, ExitContinue, (PC instr)).

(** opcode 223 *)
Definition instRotR32Meta (interp : Interpreter) (instr : InstrMeta) : outcome :=
  let rA := Src0 instr in
  let rB := Src1 instr in
  let rD := Dst instr in
  a ← reg interp rA;
  b ← reg interp rB;
  let rotated := RotateLeft32 (u32 a) (s64 (- s64 b)) in
  let '(val, err) := SignExtend 4 rotated in
  if err then Ret (interp, ExitHalt, (PC instr))
  else
    interp ← setReg interp rD val;
    Ret (interp, ExitContinue, (PC instr)).

(** opcode 224 *)
Definition instAndInvMeta (interp : Interpreter) (instr : InstrMeta) : outcome :=
  let rA := Src0 instr in
  let rB := Src1 instr in
  let rD := Dst instr in
  a ← reg interp rA;
  b ← reg interp rB;
  interp ← setReg interp rD (Z.land a (not64 b));
  Ret (interp, ExitContinue, (PC instr)).

(** opcode 225 *)
Definition instOrInvMeta (interp : Interpreter) (instr : InstrMeta) : outcome :=
  let rA := Src0 instr in
  let rB := Src1 instr in
  let rD := Dst instr in
  a ← reg interp rA;
  b ← reg interp rB;
  interp ← setReg interp rD (Z.lor a (not64 b));
  Ret (interp, ExitContinue, (PC instr)).

(** opcode 226 *)
Definition instXnorMeta (interp : Interpreter) (instr : InstrMeta) : outcome :=
  let rA := Src0 instr in
  let rB := Src1 instr in
  let rD := Dst instr in
  a ← reg interp rA;
  b ← reg interp rB;
  interp ← setReg interp rD (not64 (Z.lxor a b));
  Ret (interp, ExitContinue, (PC instr)).

(** opcode 227 *)
Definition instMaxMeta (interp : Interpreter) (instr : InstrMeta) : outcome :=
  let rA := Src0 instr in
  let rB := Src1 instr in
  let rD := Dst instr in
  a ← reg interp rA;
  b ← reg interp rB;
  interp ← setReg interp rD (u64 (Z.max (s64 a) (s64 b)));
  Ret (interp, ExitContinue, (PC instr)).

(** opcode 228 *)
Definition instMaxUMeta (interp : Interpreter) (instr : InstrMeta) : outcome :=
  let rA := Src0 instr in
  let rB := Src1 instr in
  let rD := Dst instr in
  a ← reg interp rA;
  b ← reg interp rB;
  interp ← setReg interp rD (if b <? a then a else b);
  Ret (interp, ExitContinue, (PC instr)).

(** opcode 229 *)
Definition instMinMeta (interp : Interpreter) (instr : InstrMeta) : outcome :=
  let rA := Src0 instr in
  let rB := Src1 instr in
  let rD := Dst instr in
  a ← reg interp rA;
  b ← reg interp rB;
  interp ← setReg interp rD (u64 (Z.min (s64 a) (s64 b)));
  Ret (interp, ExitContinue, (PC instr)).

(** opcode 230 *)
Definition instMinUMeta (interp : Interpreter) (instr : InstrMeta) : outcome :=
  let rA := Src0 instr in
  let rB := Src1 instr in
  let rD := Dst instr in
  a ← reg interp rA;
  b ← reg interp rB;
  interp ← setReg interp rD (if a <? b then a else b);
  Ret (interp, ExitContinue, (PC instr)).

Definition instrMetaExecForOpcode (op : Z) : Interpreter -> InstrMeta -> outcome :=
  match op with
  | 0 => instTrapMeta
  | 1 => instFallthroughMeta
  | 10 => instEcalliMeta
  | 20 => instLoadImm64Meta
  | 30 => instStoreImmU8Meta
  | 31 => instStoreImmU16Meta
  | 32 => instStoreImmU32Meta
  | 33 => instStoreImmU64Meta
  | 40 => instJumpMeta
  | 50 => instJumpIndMeta
  | 51 => instLoadImmMeta
  | 52 => instLoadU8Meta
  | 53 => instLoadI8Meta
  | 54 => instLoadU16Meta
  | 55 => instLoadI16Meta
  | 56 => instLoadU32Meta
  | 57 => instLoadI32Meta
  | 58 => instLoadU64Meta
  | 59 => instStoreU8Meta
  | 60 => instStoreU16Meta
  | 61 => instStoreU32Meta
  | 62 => instStoreU64Meta
  | 70 => instStoreImmIndU8Meta
  | 71 => instStoreImmIndU16Meta
  | 72 => instStoreImmIndU32Meta
  | 73 => instStoreImmIndU64Meta
  | 80 => instImmediateBranchMeta
  | 81 => instImmediateBranchMeta
  | 82 => instImmediateBranchMeta
  | 83 => instImmediateBranchMeta
  | 84 => instImmediateBranchMeta
  | 85 => instImmediateBranchMeta
  | 86 => instImmediateBranchMeta
  | 87 => instImmediateBranchMeta
  | 88 => instImmediateBranchMeta
  | 89 => instImmediateBranchMeta
  | 90 => instImmediateBranchMeta
  | 100 => instMoveRegMeta
  | 101 => instSbrkMeta
  | 102 => instCountSetBits64Meta
  | 103 => instCountSetBits32Meta
  | 104 => instLeadingZeroBits64Meta
  | 105 => instLeadingZeroBits32Meta
  | 106 => instTrailZeroBits64Meta
  | 107 => instTrailZeroBits32Meta
  | 108 => instSignExtend8Meta
  | 109 => instSignExtend16Meta
  | 110 => instZeroExtend16Meta
  | 111 => instReverseBytesMeta
  | 120 => instStoreIndU8Meta
  | 121 => instStoreIndU16Meta
  | 122 => instStoreIndU32Meta
  | 123 => instStoreIndU64Meta
  | 124 => instLoadIndU8Meta
  | 125 => instLoadIndI8Meta
  | 126 => instLoadIndU16Meta
  | 127 => instLoadIndI16Meta
  | 128 => instLoadIndU32Meta
  | 129 => instLoadIndI32Meta
  | 130 => instLoadIndU64Meta
  | 131 => instAddImm32Meta
  | 132 => instAndImmMeta
  | 133 => instXORImmMeta
  | 134 => instORImmMeta
  | 135 => instMulImm32Meta
  | 136 => instSetLtUImmMeta
  | 137 => instSetLtSImmMeta
  | 138 => instShloLImm32Meta
  | 139 => instShloRImm32Meta
  | 140 => instSharRImm32Meta
  | 141 => instNegAddImm32Meta
  | 142 => instSetGtUImmMeta
  | 143 => instSetGtSImmMeta
  | 144 => instShloLImmAlt32Meta
  | 145 => instShloRImmAlt32Meta
  | 146 => instSharRImmAlt32Meta
  | 147 => instCmovIzImmMeta
  | 148 => instCmovNzImmMeta
  | 149 => instAddImm64Meta
  | 150 => instMulImm64Meta
  | 151 => instShloLImm64Meta
  | 152 => instShloRImm64Meta
  | 153 => instSharRImm64Meta
  | 154 => instNegAddImm64Meta
  | 155 => instShloLImmAlt64Meta
  | 156 => instShloRImmAlt64Meta
  | 157 => instSharRImmAlt64Meta
  | 158 => instRotR64ImmMeta
  | 159 => instRotR64ImmAltMeta
  | 160 => instRotR32ImmMeta
  | 161 => instRotR32ImmAltMeta
  | 170 => instBranchMeta
  | 171 => instBranchMeta
  | 172 => instBranchMeta
  | 173 => instBranchMeta
  | 174 => instBranchMeta
  | 175 => instBranchMeta
  | 180 => instLoadImmJumpIndMeta
  | 190 => instAdd32Meta
  | 191 => instSub32Meta
  | 192 => instMul32Meta
  | 193 => instDivU32Meta
  | 194 => instDivS32Meta
  | 195 => instRemU32Meta
  | 196 => instRemS32Meta
  | 197 => instShloL32Meta
  | 198 => instShloR32Meta
  | 199 => instSharR32Meta
  | 200 => instAdd64Meta
  | 201 => instSub64Meta
  | 202 => instMul64Meta
  | 203 => instDivU64Meta
  | 204 => instDivS64Meta
  | 205 => instRemU64Meta
  | 206 => instRemS64Meta
  | 207 => instShloL64Meta
  | 208 => instShloR64Meta
  | 209 => instSharR64Meta
  | 210 => instAndMeta
  | 211 => instXorMeta
  | 212 => instOrMeta
  | 213 => instMulUpperSSMeta
  | 214 => instMulUpperUUMeta
  | 215 => instMulUpperSUMeta
  | 216 => instSetLtUMeta
  | 217 => instSetLtSSMeta
  | 218 => instCmovIzMeta
  | 219 => instCmovNzMeta
  | 220 => instRotL64Meta
  | 221 => instRotL32Meta
  | 222 => instRotR64Meta
  | 223 => instRotR32Meta
  | 224 => instAndInvMeta
  | 225 => instOrInvMeta
  | 226 => instXnorMeta
  | 227 => instMaxMeta
  | 228 => instMaxUMeta
  | 229 => instMinMeta
  | 230 => instMinUMeta
  | _ => instTrapMeta
  end.
