(* ===== verification/Program.v ===== *)
(** * Loading a program blob

    src/PVM/program_code.go ([ReadUintVariable], the fixed-length readers,
    [DeBlobProgramCode]) and src/PVM/block_info.go ([decodeOperands],
    [preDecodeBlocks], [LookupBlock]).  [None] is an [ExitPanic] result. *)

From S2P Require Import Prelude Words ExitReasons Opcodes Memory MemorySpec Decode Interp.
Local Open Scope Z_scope.

(** ** Integer readers *)

(** The value read and the number of bytes used. *)
Definition ReadUintVariable (data : gslice) : go (option (Z * Z)) :=
  if slen data <? 1 then Ret None
  else
    prefix ← sindex data 0;
    if prefix <? 0x80 then Ret (Some (prefix, 1))
    else if prefix =? 0xFF then
      if slen data <? 9 then Ret None
      else d ← sslice data 1 9; Ret (Some (le_val (take 8 (elems d)), 9))
    else
      let l := leadingOnes8 prefix in
      let needed := l + 1 in
      if slen data <? needed then Ret None
      else
        let base := u8 (u8 (0xFF - u8 (Z.shiftl 1 (8 - l))) + 1) in
        let floorVal := u8 (prefix - base) in
        x ← match l with
            | 1 => b ← sindex data 1; Ret (Z.lor (shl64 floorVal 8) b)
            | 2 => d ← sslice data 1 3; Ret (Z.lor (shl64 floorVal 16) (le_val (take 2 (elems d))))
            | 3 =>
                if 5 <=? slen data then
                  d ← sslice data 1 5;
                  Ret (Z.lor (shl64 floorVal 24) (Z.land (le_val (take 4 (elems d))) 0xFFFFFF))
                else
                  b1 ← sindex data 1; b2 ← sindex data 2; b3 ← sindex data 3;
                  Ret (Z.lor (Z.lor (Z.lor (shl64 floorVal 24) b1) (shl64 b2 8)) (shl64 b3 16))
            | 4 => d ← sslice data 1 5; Ret (Z.lor (shl64 floorVal 32) (le_val (take 4 (elems d))))
            | _ =>
                let remainder := orLE (take (Z.to_nat l) (drop 1 (elems data))) 0 0 in
                Ret (Z.lor (shl64 floorVal (8 * l)) remainder)
            end;
        if x <? shl64 1 (7 * l) then Ret None else Ret (Some (x, needed)).

(** [decodeRemainderManual]: the loop [for i < l && i+1 < len(data)]. *)
Definition decodeRemainderManual (data : list Z) (l : Z) : Z :=
  orLE (take (Z.to_nat l) (drop 1 data)) 0 0.

Definition decodeRemainderLong (data : list Z) (l : Z) : Z :=
  if 9 <=? Z.of_nat (length data) then
    Z.land (le_val (take 8 (drop 1 data))) (u64 (shl64 1 (l * 8) - 1))
  else decodeRemainderManual data l.

Definition decodeUintFixedLength (data : gslice) (l : Z) : go (option Z) :=
  if slen data <? l then Ret None
  else
    match l with
    | 1 => b ← sindex data 0; Ret (Some b)
    | 2 => d ← sslice data 0 2; Ret (Some (le_val (take 2 (elems d))))
    | 3 =>
        if 4 <=? slen data then
          d ← sslice data 0 4; Ret (Some (Z.land (le_val (take 4 (elems d))) 0x00FFFFFF))
        else Ret (Some (decodeRemainderManual (elems data) l))
    | 4 => d ← sslice data 0 4; Ret (Some (le_val (take 4 (elems d))))
    | 5 | 6 | 7 => Ret (Some (decodeRemainderLong (elems data) l))
    | _ => Ret None
    end.

(** ** Pre-decoding *)

Definition set_ops (i : InstrMeta) (dst src0 src1 imm0 imm1 : Z) : InstrMeta :=
  MkInstr (PC i) (Opcode i) (SkipLen i) dst src0 src1 imm0 imm1.

Definition decodeOperands (instr : InstrMeta) (idata : gslice) : go InstrMeta :=
  let pc := PC instr in
  let skipLen := SkipLen instr in
  let instr := set_ops instr 0xFF 0xFF 0xFF (Imm0 instr) (Imm1 instr) in
  let set dst src0 src1 imm0 imm1 := set_ops instr dst src0 src1 imm0 imm1 in
  let instrCategory := Category (GetOpcodeInfo (Opcode instr)) in
  if negb (bool_decide (instrCategory = InstrCatNoArg)) && (slen idata <=? pc + 1) then Ret instr
  else
    match instrCategory with
    | InstrCatInvalid | InstrCatNoArg => Ret instr
    | InstrCatOneImm =>
        if skipLen <? 1 then Ret instr
        else
          ⟪ callID ⟫ ⇠ decodeOneImmediate idata pc skipLen ⊘ Ret instr;
          Ret (set 0xFF 0xFF 0xFF (u64 callID) (Imm1 instr))
    | InstrCatOneRegExtImm =>
        b ← sindex idata (u32 (pc + 1));
        let dst := Z.min 12 (b mod 16) in
        if u32 (pc + 10) <=? slen idata then
          d ← sslice idata (u32 (pc + 2)) (u32 (pc + 10));
          Ret (set dst 0xFF 0xFF (le_val (take 8 (elems d))) (Imm1 instr))
        else Ret (set dst 0xFF 0xFF (Imm0 instr) (Imm1 instr))
    | InstrCatTwoImm =>
        ⟪ (vx, vy) ⟫ ⇠ decodeTwoImmediates idata pc skipLen ⊘ Ret instr;
        Ret (set 0xFF 0xFF 0xFF vx vy)
    | InstrCatOneOffset =>
        ⟪ target ⟫ ⇠ decodeOneOffset idata pc skipLen ⊘ Ret instr;
        Ret (set 0xFF 0xFF 0xFF target (Imm1 instr))
    | InstrCatOneRegOneImm =>
        ⟪ (rA, vX) ⟫ ⇠ decodeOneRegisterAndOneImmediate idata pc skipLen ⊘ Ret instr;
        Ret (set rA rA 0xFF vX (Imm1 instr))
    | InstrCatOneRegTwoImm =>
        ⟪ (rA, vX, vY) ⟫ ⇠ decodeOneRegisterAndTwoImmediates idata pc skipLen ⊘ Ret instr;
        Ret (set rA rA 0xFF vX vY)
    | InstrCatOneRegImmOff =>
        ⟪ (rA, vX, target) ⟫ ⇠ decodeOneRegisterOneImmediateAndOneOffset idata pc skipLen
          ⊘ Ret instr;
        Ret (set rA rA 0xFF vX target)
    | InstrCatTwoReg =>
        ⟪ (rD, rA) ⟫ ⇠ decodeTwoRegisters idata pc ⊘ Ret instr;
        Ret (set rD rA 0xFF (Imm0 instr) (Imm1 instr))
    | InstrCatTwoRegOneImm =>
        ⟪ (rA, rB, vX) ⟫ ⇠ decodeTwoRegistersAndOneImmediate idata pc skipLen ⊘ Ret instr;
        Ret (set rA rB 0xFF vX (Imm1 instr))
    | InstrCatTwoRegOneOff =>
        ⟪ (rA, rB, target) ⟫ ⇠ decodeTwoRegistersAndOneOffset idata pc skipLen ⊘ Ret instr;
        Ret (set 0xFF rA rB target (Imm1 instr))
    | InstrCatTwoRegTwoImm =>
        ⟪ (rA, rB, vX, vY) ⟫ ⇠ decodeTwoRegistersAndTwoImmediates idata pc skipLen ⊘ Ret instr;
        Ret (set rA rB 0xFF vX vY)
    | InstrCatThreeReg =>
        ⟪ (rA, rB, rD) ⟫ ⇠ decodeThreeRegisters idata pc ⊘ Ret instr;
        Ret (set rD rA rB (Imm0 instr) (Imm1 instr))
    end.

(** The tables [preDecodeBlocks] fills. *)
Record Tables := MkTables {
  tInstrs : list InstrMeta;
  tBlockAt : list (option BlockMeta);
  tInstrIdxAt : list Z
}.

(** The metadata before its operands are decoded. *)
Definition newInstr (pc op skipLen : Z) : InstrMeta := MkInstr pc op (u8 skipLen) 0 0 0 0 0.

(** The inner loop, over the instructions of the block that starts at
    [startPC] with instruction index [instrStart].  It ends at a terminator
    with the tables and the next [pc]. *)
Fixpoint blockLoop (fuel : nat) (idata : gslice) (bitmask : Bitmask)
    (startPC instrStart : Z) (t : Tables) (pc : Z) : go (option (Tables * Z)) :=
  match fuel with
  | O => Crash
  | S fuel =>
      if u32 (slen idata) <=? pc then Ret None
      else
        op ← sindex idata pc;
        if negb (IsValidOpcode op) then Ret None
        else
          let skipLen := skip pc bitmask in
          let idx := Z.of_nat (length (tInstrs t)) in
          idxAt ← zupdate (tInstrIdxAt t) pc (s32 idx);
          instr ← decodeOperands (newInstr pc op skipLen) idata;
          let instrs := tInstrs t ++ [instr] in
          if IsBlockTerminator op then
            let instrEnd := Z.of_nat (length instrs) in
            let block := MkBlock startPC pc instrStart instrEnd (instrEnd - instrStart) in
            blockAt ← zupdate (tBlockAt t) startPC (Some block);
            Ret (Some (MkTables instrs blockAt idxAt, u32 (pc + skipLen + 1)))
          else
            blockLoop fuel idata bitmask startPC instrStart
              (MkTables instrs (tBlockAt t) idxAt) (u32 (pc + skipLen + 1))
  end.

(** The outer loop over [pc]. *)
Fixpoint scanLoop (fuel : nat) (idata : gslice) (bitmask : Bitmask) (t : Tables) (pc : Z)
    : go (option Tables) :=
  match fuel with
  | O => Crash
  | S fuel =>
      if pc <? u32 (slen idata) then
        if negb (IsStartOfBasicBlock bitmask pc) then
          scanLoop fuel idata bitmask t (u32 (pc + 1))
        else
          ⟪ (t, pc) ⟫ ⇠ blockLoop (S (length (elems idata))) idata bitmask pc
                          (Z.of_nat (length (tInstrs t))) t pc ⊘ Ret None;
          scanLoop fuel idata bitmask t pc
      else Ret (Some t)
  end.

Definition preDecodeBlocks (idata : gslice) (bitmask : Bitmask) : go (option Tables) :=
  let n := length (elems idata) in
  scanLoop (S n) idata bitmask (MkTables [] (replicate n None) (replicate n (-1))) 0.

(** [Program.LookupBlock]; the bound check precedes the index. *)
Definition LookupBlock (p : Program) (pc : Z) : option BlockMeta :=
  if Z.of_nat (length (BlockAt p)) <=? pc then None
  else default None (zlookup (BlockAt p) pc).

(** [DeBlobProgramCode] (A.2): the program, or [None] for [ExitPanic]. *)
Definition DeBlobProgramCode (data : gslice) : go (option Program) :=
  ⟪ (jumpTableSize, dataUsed) ⟫ ⇠ ReadUintVariable data ⊘ Ret None;
  data ← sfrom data dataUsed;
  ⟪ jumpTableLength ⟫ ⇠ decodeUintFixedLength data 1 ⊘ Ret None;
  data ← sfrom data 1;
  ⟪ (instSize, dataUsed) ⟫ ⇠ ReadUintVariable data ⊘ Ret None;
  data ← sfrom data dataUsed;
  if 2 ^ 32 <=? u64 (jumpTableLength * jumpTableSize) then Ret None
  else
    ⟪ (jumpTableData, data) ⟫ ⇠ ReadBytes data (u64 (jumpTableLength * jumpTableSize)) ⊘ Ret None;
    instructions ← sto data instSize;
    bitmaskData ← sfrom data instSize;
    ⟪ bitmask ⟫ ⇠ MakeBitMasks instructions (elems bitmaskData) ⊘ Ret None;
    ⟪ t ⟫ ⇠ preDecodeBlocks instructions bitmask ⊘ Ret None;
    Ret (Some (MkProgram instructions bitmask
                 (MkJumpTable jumpTableData (u32 jumpTableLength) (u32 jumpTableSize))
                 (tInstrs t) (tBlockAt t) (tInstrIdxAt t))).
