(* ===== verification/Types.v ===== *)
(** * Protocol types

    The data of blocks and of the state: src/internal/types/types.go and
    state.go.  Unsigned integers are [Z], byte arrays and byte sequences are
    lists of bytes (a nil and an empty byte sequence are the same list unless
    the code tells them apart), slices are lists, pointers are options, maps
    are [gmap]s.  The fields of a Go struct carry a prefix of their type. *)

From S2P Require Import Prelude.
Local Open Scope Z_scope.

Abbreviation Bytes := (list Z).

(** ** Validators and services *)

Record Validator := MkValidator {
  v_Bandersnatch : Bytes; v_Ed25519 : Bytes; v_Bls : Bytes; v_Metadata : Bytes }.

Record ServiceInfo := MkServiceInfo {
  si_Version : Z; si_CodeHash : Bytes; si_Balance : Z; si_MinItemGas : Z; si_MinMemoGas : Z;
  si_Bytes : Z; si_DepositOffset : Z; si_Items : Z; si_CreationSlot : Z;
  si_LastAccumulationSlot : Z; si_ParentService : Z }.

Record MetaCode := MkMetaCode { mc_Metadata : Bytes; mc_Code : Bytes }.

(** ** Work packages and reports *)

Record RefineContext := MkRefineContext {
  rc_Anchor : Bytes; rc_StateRoot : Bytes; rc_BeefyRoot : Bytes; rc_LookupAnchor : Bytes;
  rc_LookupAnchorSlot : Z; rc_Prerequisites : list Bytes }.

Record Authorizer := MkAuthorizer { au_CodeHash : Bytes; au_Params : Bytes }.

Record ImportSpec := MkImportSpec { im_TreeRoot : Bytes; im_Index : Z }.

Record ExtrinsicSpec := MkExtrinsicSpec { es_Hash : Bytes; es_Len : Z }.

Record WorkItem := MkWorkItem {
  wi_Service : Z; wi_CodeHash : Bytes; wi_RefineGasLimit : Z; wi_AccumulateGasLimit : Z;
  wi_ExportCount : Z; wi_Payload : Bytes; wi_ImportSegments : list ImportSpec;
  wi_Extrinsic : list ExtrinsicSpec }.

Record WorkPackage := MkWorkPackage {
  wp_AuthCodeHost : Z; wp_AuthCodeHash : Bytes; wp_Context : RefineContext; wp_Authorization : Bytes;
  wp_AuthorizerConfig : Bytes; wp_Items : list WorkItem }.

Inductive WorkExecResultType :=
| WorkExecResultOk
| WorkExecResultOutOfGas
| WorkExecResultPanic
| WorkExecResultBadExports
| WorkExecResultReportOversize
| WorkExecResultBadCode
| WorkExecResultCodeOversize.

#[export] Instance WorkExecResultType_eq_dec : EqDecision WorkExecResultType.
Proof. solve_decision. Defined.

Record WorkExecResult := MkWorkExecResult { wer_Type : WorkExecResultType; wer_Data : Bytes }.

Record RefineLoad := MkRefineLoad {
  rl_GasUsed : Z; rl_Imports : Z; rl_ExtrinsicCount : Z; rl_ExtrinsicSize : Z; rl_Exports : Z }.

Record WorkResult := MkWorkResult {
  wr_ServiceID : Z; wr_CodeHash : Bytes; wr_PayloadHash : Bytes; wr_AccumulateGas : Z;
  wr_Result : WorkExecResult; wr_RefineLoad : RefineLoad }.

Record WorkPackageSpec := MkWorkPackageSpec {
  ps_Hash : Bytes; ps_Length : Z; ps_ErasureRoot : Bytes; ps_ExportsRoot : Bytes; ps_ExportsCount : Z }.

Record SegmentRootLookupItem := MkSegmentRootLookupItem {
  sl_WorkPackageHash : Bytes; sl_SegmentTreeRoot : Bytes }.

Abbreviation SegmentRootLookup := (list SegmentRootLookupItem).

Record WorkReport := MkWorkReport {
  rp_PackageSpec : WorkPackageSpec; rp_Context : RefineContext; rp_CoreIndex : Z;
  rp_AuthorizerHash : Bytes; rp_AuthGasUsed : Z; rp_AuthOutput : Bytes;
  rp_SegmentRootLookup : SegmentRootLookup; rp_Results : list WorkResult }.

Record AvailabilityAssignment := MkAvailabilityAssignment {
  aa_Report : WorkReport; aa_AssignedSlot : Z }.

(** ** Recent blocks and statistics *)

Record ReportedWorkPackage := MkReportedWorkPackage { rw_Hash : Bytes; rw_ExportsRoot : Bytes }.

Record BlockInfo := MkBlockInfo {
  bi_HeaderHash : Bytes; bi_BeefyRoot : Bytes; bi_StateRoot : Bytes; bi_Reported : list ReportedWorkPackage }.

Record RecentBlocks := MkRecentBlocks { rb_History : list BlockInfo; rb_Mmr : list (option Bytes) }.

Record ValidatorActivityRecord := MkValidatorActivityRecord {
  va_Blocks : Z; va_Tickets : Z; va_PreImages : Z; va_PreImagesSize : Z; va_Guarantees : Z; va_Assurances : Z }.

Record CoreActivityRecord := MkCoreActivityRecord {
  ca_DALoad : Z; ca_Popularity : Z; ca_Imports : Z; ca_ExtrinsicCount : Z; ca_ExtrinsicSize : Z;
  ca_Exports : Z; ca_BundleSize : Z; ca_GasUsed : Z }.

Record ServiceActivityRecord := MkServiceActivityRecord {
  sa_ProvidedCount : Z; sa_ProvidedSize : Z; sa_RefinementCount : Z; sa_RefinementGasUsed : Z;
  sa_Imports : Z; sa_ExtrinsicCount : Z; sa_ExtrinsicSize : Z; sa_Exports : Z;
  sa_AccumulateCount : Z; sa_AccumulateGasUsed : Z }.

Record Statistics := MkStatistics {
  st_ValsCurr : list ValidatorActivityRecord; st_ValsLast : list ValidatorActivityRecord;
  st_Cores : list CoreActivityRecord; st_Services : gmap Z ServiceActivityRecord }.

(** ** Tickets *)

Record TicketEnvelope := MkTicketEnvelope { te_Attempt : Z; te_Signature : Bytes }.

Record TicketBody := MkTicketBody { tb_ID : Bytes; tb_Attempt : Z }.

#[export] Instance TicketBody_eq_dec : EqDecision TicketBody.
Proof. solve_decision. Defined.

(** [None] is a nil slice. *)
Record TicketsOrKeys := MkTicketsOrKeys {
  tk_Tickets : option (list TicketBody); tk_Keys : option (list Bytes) }.

(** ** Disputes *)

Record Judgement := MkJudgement { j_Vote : bool; j_Index : Z; j_Signature : Bytes }.

Record Verdict := MkVerdict { vd_Target : Bytes; vd_Age : Z; vd_Votes : list Judgement }.

Record Culprit := MkCulprit { cu_Target : Bytes; cu_Key : Bytes; cu_Signature : Bytes }.

Record Fault := MkFault { f_Target : Bytes; f_Vote : bool; f_Key : Bytes; f_Signature : Bytes }.

Record DisputesRecords := MkDisputesRecords {
  dr_Good : list Bytes; dr_Bad : list Bytes; dr_Wonky : list Bytes; dr_Offenders : list Bytes }.

Record DisputesExtrinsic := MkDisputesExtrinsic {
  de_Verdicts : list Verdict; de_Culprits : list Culprit; de_Faults : list Fault }.

(** ** Extrinsics *)

Record Preimage := MkPreimage { p_Requester : Z; p_Blob : Bytes }.

(** One byte, 0 or 1, per core. *)
Abbreviation Bitfield := (list Z).

Record AvailAssurance := MkAvailAssurance {
  av_Anchor : Bytes; av_Bitfield : Bitfield; av_ValidatorIndex : Z; av_Signature : Bytes }.

Record ValidatorSignature := MkValidatorSignature { vs_ValidatorIndex : Z; vs_Signature : Bytes }.

Record ReportGuarantee := MkReportGuarantee {
  rg_Report : WorkReport; rg_Slot : Z; rg_Signatures : list ValidatorSignature }.

Record Extrinsic := MkExtrinsic {
  ex_Tickets : list TicketEnvelope; ex_Preimages : list Preimage; ex_Guarantees : list ReportGuarantee;
  ex_Assurances : list AvailAssurance; ex_Disputes : DisputesExtrinsic }.

(** ** Blocks *)

Record EpochMarkValidatorKeys := MkEpochMarkValidatorKeys { ek_Bandersnatch : Bytes; ek_Ed25519 : Bytes }.

Record EpochMark := MkEpochMark {
  em_Entropy : Bytes; em_TicketsEntropy : Bytes; em_Validators : list EpochMarkValidatorKeys }.

Record Header := MkHeader {
  h_Parent : Bytes; h_ParentStateRoot : Bytes; h_ExtrinsicHash : Bytes; h_Slot : Z;
  h_EpochMark : option EpochMark; h_TicketsMark : option (list TicketBody); h_AuthorIndex : Z;
  h_EntropySource : Bytes; h_OffendersMark : list Bytes; h_Seal : Bytes }.

Record Block := MkBlock { b_Header : Header; b_Extrinsic : Extrinsic }.

(** ** Accumulation *)

Record ReadyRecord := MkReadyRecord { rr_Report : WorkReport; rr_Dependencies : list Bytes }.

Abbreviation ReadyQueueItem := (list ReadyRecord).
Abbreviation AccumulatedQueueItem := (list Bytes).

Record Privileges := MkPrivileges {
  pr_Bless : Z; pr_Designate : Z; pr_CreateAcct : Z; pr_Assign : list Z; pr_AlwaysAccum : gmap Z Z }.

Record Operand := MkOperand {
  op_Hash : Bytes; op_ExportsRoot : Bytes; op_AuthorizerHash : Bytes; op_PayloadHash : Bytes;
  op_GasLimit : Z; op_Result : WorkExecResult; op_AuthOutput : Bytes }.

Record DeferredTransfer := MkDeferredTransfer {
  dt_SenderID : Z; dt_ReceiverID : Z; dt_Balance : Z; dt_Memo : Bytes; dt_GasLimit : Z }.

Record OperandOrDeferredTransfer := MkOperandOrDeferredTransfer {
  od_Operand : option Operand; od_DeferredTransfer : option DeferredTransfer }.

Record GasAndNumAccumulatedReports := MkGasAndNum { gn_Gas : Z; gn_NumAccumulatedReports : Z }.

Abbreviation AccumulationStatisticsMap := (gmap Z GasAndNumAccumulatedReports).

Record ServiceGasUsed := MkServiceGasUsed { gu_ServiceID : Z; gu_Gas : Z }.

Record AccumulatedServiceHash := MkAccumulatedServiceHash { as_ServiceID : Z; as_Hash : Bytes }.

#[export] Instance AccumulatedServiceHash_eq_dec : EqDecision AccumulatedServiceHash.
Proof. solve_decision. Defined.

(** Go's [AuditReport] and the other types of the auditing and networking
    code are not modelled. *)
Record WorkPackageBundle := MkWorkPackageBundle {
  wb_Package : WorkPackage; wb_Extrinsics : list Bytes; wb_ImportSegments : list (list Bytes);
  wb_ImportProofs : list (list Bytes) }.

Record SliceHash := MkSliceHash { sh_A : list Bytes; sh_B : list Bytes }.

Record BoundaryNode := MkBoundaryNode {
  bn_Key : Bytes; bn_Hash : Bytes; bn_Parent : option Bytes; bn_IsLeaf : bool }.

Record StateKeyVal := MkKV { Key : Bytes; Value : Bytes }.

#[export] Instance StateKeyVal_eq_dec : EqDecision StateKeyVal.
Proof. solve_decision. Defined.

Record AncestryItem := MkAncestryItem { an_Slot : Z; an_HeaderHash : Bytes }.

(** ** State *)

(** A pool of authorizers: [None] is a nil slice, which the authorization
    code tells from an empty one. *)
Abbreviation AuthPool := (option (list Bytes)).

Record LookupMetaMapkey := MkLookupMetaMapkey { lk_Hash : Bytes; lk_Length : Z }.

#[export] Instance LookupMetaMapkey_eq_dec : EqDecision LookupMetaMapkey.
Proof. solve_decision. Defined.

#[export] Instance LookupMetaMapkey_countable : Countable LookupMetaMapkey.
Proof.
  refine (inj_countable' (fun k => (lk_Hash k, lk_Length k)) (fun p => MkLookupMetaMapkey (fst p) (snd p)) _).
  by intros [].
Defined.

Record ServiceAccount := MkServiceAccount {
  ac_ServiceInfo : ServiceInfo; ac_PreimageLookup : gmap Bytes Bytes;
  ac_LookupDict : gmap LookupMetaMapkey (list Z); ac_StorageDict : gmap Bytes Bytes }.

Abbreviation ServiceAccountState := (gmap Z ServiceAccount).

Record SafroleState := MkSafroleState {
  sf_GammaK : list Validator; sf_GammaZ : Bytes; sf_GammaS : TicketsOrKeys; sf_GammaA : list TicketBody }.

Record State := MkState {
  s_Alpha : list AuthPool; s_Varphi : list (list Bytes); s_Beta : RecentBlocks; s_Gamma : SafroleState;
  s_Psi : DisputesRecords; s_Eta : list Bytes; s_Iota : list Validator; s_Kappa : list Validator;
  s_Lambda : list Validator; s_Rho : list (option AvailabilityAssignment); s_Tau : Z; s_Chi : Privileges;
  s_Pi : Statistics; s_Vartheta : list ReadyQueueItem; s_Theta : list AccumulatedServiceHash;
  s_Xi : list AccumulatedQueueItem; s_Delta : ServiceAccountState }.

(** ** Chain specification *)

Record ProtocolParameters := MkProtocolParameters {
  pp_BI : Z; pp_BL : Z; pp_BS : Z; pp_C : Z; pp_D : Z; pp_E : Z; pp_GA : Z; pp_GI : Z; pp_GR : Z; pp_GT : Z;
  pp_H : Z; pp_I : Z; pp_J : Z; pp_K : Z; pp_L : Z; pp_N : Z; pp_O : Z; pp_P : Z; pp_Q : Z; pp_R : Z; pp_T : Z;
  pp_U : Z; pp_V : Z; pp_WA : Z; pp_WB : Z; pp_WC : Z; pp_WE : Z; pp_WM : Z; pp_WP : Z; pp_WR : Z; pp_WT : Z;
  pp_WX : Z; pp_Y : Z }.
