(* ===== verification/Config.v ===== *)
(** * Chain parameters and hash functions

    The parameters that depend on the chain specification
    (src/internal/types/const.go) and the hash functions
    (src/internal/utilities/hash/hash.go).  The hash functions are those of
    golang.org/x/crypto: a class gives them, with the laws of their results
    the node relies on. *)

From S2P Require Import Prelude Words.
Local Open Scope Z_scope.

(** ** Parameters

    The Go variables are of type [int]; those used by the modelled code. *)
Record ChainSpec := MkSpec {
  ValidatorsCount : Z;
  CoresCount : Z;
  EpochLength : Z;
  SlotSubmissionEnd : Z;
  RotationPeriod : Z;
  MaxTicketsPerBlock : Z;
  TicketsPerValidator : Z;
  ValidatorsSuperMajority : Z;
  AvailBitfieldBytes : Z;
  UnreferencedPreimageTimeslots : Z;
  TotalGas : Z;
  MaxRefineGas : Z;
  ECPiecesPerSegment : Z;
  ECBasicSize : Z;
  MaxLookupAge : Z
}.

Definition SetTinyMode : ChainSpec :=
  MkSpec 6 2 12 10 4 3 3 5 1 32 20000000 1000000000 1026 4 24.

(** [LookupAnchorMaxAge + 4800] is 14400 + 4800. *)
Definition SetFullMode : ChainSpec :=
  MkSpec 1023 341 600 500 10 16 2 683 43 (14400 + 4800) 3500000000 5000000000 6 684 14400.

(** The constants of a chain fit their uses: they are positive, the
    validators are shared out evenly between the cores, and the counts fit
    the index types ([U16] validator and core indices, [U32] slots). *)
Record wf_spec (cs : ChainSpec) : Prop := {
  wf_cores : 0 < CoresCount cs < 2 ^ 16;
  wf_validators : 0 < ValidatorsCount cs < 2 ^ 16;
  wf_even : (CoresCount cs | ValidatorsCount cs);
  wf_rotation : 0 < RotationPeriod cs <= EpochLength cs;
  wf_epoch : EpochLength cs < 2 ^ 31;
  wf_rotation_divides : (RotationPeriod cs | EpochLength cs) ;
  wf_submission : 0 < SlotSubmissionEnd cs < EpochLength cs
}.

(** Permanent constants. *)
Definition MaxBlocksHistory : Z := 8.
Definition AuthPoolMaxSize : Z := 8.
Definition AuthQueueSize : Z := 80.
Definition MaximumWorkItems : Z := 16.
Definition MaximumDependencyItems : Z := 8.
Definition WorkReportOutputBlobsMaximumSize : Z := 48 * 1024.
Definition MaxTotalSize : Z := 13791360.
Definition SegmentFootprint : Z := 4488.
Definition MaxImportCount : Z := 3072.
Definition MaxExportCount : Z := 3072.
Definition MaxExtrinsics : Z := 128.
Definition MaxAccumulateGas : Z := 10000000.
Definition GuaranteeMinCount : Z := 2.
Definition GuaranteeMaxCount : Z := 3.

(** ** Hash functions *)

Class HashFunctions := {
  blake2b_Sum256 : list Z -> list Z;
  keccak256 : list Z -> list Z
}.

(** A [OpaqueHash] is an array of 32 bytes. *)
Definition is_hash (h : list Z) : Prop := length h = 32%nat /\ Forall is_byte h.

Class HashLaws `{HashFunctions} : Prop := {
  blake2b_hash x : is_hash (blake2b_Sum256 x);
  keccak_hash x : is_hash (keccak256 x)
}.

Definition zeroHash : list Z := replicate 32 0.

Lemma zeroHash_hash : is_hash zeroHash.
Proof. split; [done|]. apply Forall_replicate. unfold is_byte. lia. Qed.

Section Hash.
Context `{HashFunctions}.

Definition Blake2bHash (input : list Z) : list Z := blake2b_Sum256 input.

Definition Blake2bHashPartial (input : list Z) (x : Z) : go (list Z) :=
  lslice (blake2b_Sum256 input) 0 x.

Definition KeccakHash (input : list Z) : list Z := keccak256 input.

End Hash.

Lemma tiny_wf : wf_spec SetTinyMode.
Proof. split; cbn; try lia; [by exists 3|by exists 3]. Qed.

Lemma full_wf : wf_spec SetFullMode.
Proof. split; cbn; try lia; [by exists 3|by exists 60]. Qed.
