(* ===== verification/Codec.v ===== *)
(** * Integer codecs

    The natural-number codecs of the node (C.5, C.6): [EncodeUint],
    [DecodeUint] and the reader of src/internal/types/encoder.go and
    decoder.go; [SerializeFixedLength], [SerializeU64] and [DeserializeU64]
    of src/internal/utilities.  The byte reader of the PVM
    ([ReadUintVariable]) is in Program.v.

    The buffer of an encoder or decoder is the list of the bytes written so
    far or still to read. *)

From S2P Require Import Prelude Words Decode.
Local Open Scope Z_scope.

(** ** Encoders *)

(** [out[i] = byte(x & 0xFF); x >>= 8] for [l] bytes. *)
Fixpoint leLoop (l : nat) (x : Z) : list Z :=
  match l with
  | O => []
  | S l => Z.land x 0xFF :: leLoop l (shr x 8)
  end.

(** [SerializeFixedLength[T]] *)
Definition SerializeFixedLength (x l : Z) : list Z :=
  if l =? 0 then [] else leLoop (Z.to_nat l) x.

Definition EncodeUintWithLength (value l : Z) : list Z :=
  if l =? 0 then [] else leLoop (Z.to_nat l) value.

Definition EncodeUint (value : Z) : list Z :=
  if value =? 0 then [0]
  else if value <? 0x80 then [u8 value]
  else if shl64 1 56 <=? value then 0xFF :: EncodeUintWithLength value 8
  else
    let k := BitLen value - 1 in
    let l := k / 7 in
    let power8l := shl64 1 (8 * l) in
    let remainder := value mod power8l in
    let floor := value / power8l in
    let prefix := u8 (u64 ((256 - shl64 1 (8 - l)) + floor)) in
    prefix :: EncodeUintWithLength remainder l.

(** The search of [SerializeU64] for [l] in [0..7]. *)
Fixpoint serializeSearch (ls : list Z) (x : Z) : option (list Z) :=
  match ls with
  | [] => None
  | l :: ls =>
      let lowerBound := shl64 1 (7 * l) in
      let upperBound := shl64 1 (7 * (l + 1)) in
      if (lowerBound <=? x) && (x <? upperBound) then
        let power8l := shl64 1 (8 * l) in
        let remainder := x mod power8l in
        let floor := x / power8l in
        let prefix := u8 (u64 ((256 - shl64 1 (8 - l)) + floor)) in
        Some (prefix :: SerializeFixedLength remainder l)
      else serializeSearch ls x
  end.

Definition SerializeU64 (x : Z) : list Z :=
  if x =? 0 then [0]
  else
    match serializeSearch [0; 1; 2; 3; 4; 5; 6; 7] x with
    | Some out => out
    | None => 0xFF :: SerializeFixedLength x 8
    end.

(** [Encoder.EncodeInteger], [EncodeLength] and [WriteByte] on the buffer. *)
Definition EncodeInteger (buf : list Z) (value : Z) : list Z := buf ++ EncodeUint value.
Definition EncodeLength (buf : list Z) (length_ : Z) : list Z := buf ++ EncodeUint length_.
Definition WriteByte (buf : list Z) (b : Z) : list Z := buf ++ [b].

(** ** Decoders *)

(** [None] is a returned error. *)
Definition DecodeUint (data : gslice) : go (option Z) :=
  if slen data <? 1 then Ret None
  else
    prefix ← sindex data 0;
    if prefix <? 0x80 then Ret (Some prefix)
    else if prefix =? 0xFF then
      if slen data <? 9 then Ret None
      else d ← sslice data 1 9; Ret (Some (le_val (take 8 (elems d))))
    else
      let l := leadingOnes8 prefix in
      let needed := l + 1 in
      if slen data <? needed then Ret None
      else
        let base := u8 (u8 (0xFF - u8 (Z.shiftl 1 (8 - l))) + 1) in
        let floorVal := u8 (prefix - base) in
        x ← match l with
            | 1 => b ← sindex data 1; Ret (Z.lor (shl64 floorVal 8) b)
            | 2 => d ← sslice data 1 3; Ret (Z.lor (shl64 floorVal 16) (le_val (take 2 (elems d))))
            | 3 =>
                if 5 <=? slen data then
                  d ← sslice data 1 5;
                  Ret (Z.lor (shl64 floorVal 24) (Z.land (le_val (take 4 (elems d))) 0xFFFFFF))
                else
                  b1 ← sindex data 1; b2 ← sindex data 2; b3 ← sindex data 3;
                  Ret (Z.lor (Z.lor (Z.lor (shl64 floorVal 24) b1) (shl64 b2 8)) (shl64 b3 16))
            | 4 => d ← sslice data 1 5; Ret (Z.lor (shl64 floorVal 32) (le_val (take 4 (elems d))))
            | _ =>
                let remainder := orLE (take (Z.to_nat l) (drop 1 (elems data))) 0 0 in
                Ret (Z.lor (shl64 floorVal (8 * l)) remainder)
            end;
        if x <? shl64 1 (7 * l) then Ret None else Ret (Some x).

Definition IdentifyLength (byteValue : Z) : Z := u8 (leadingOnes8 byteValue).

(** [bytes.Reader.Read] of up to [n] bytes, [0 < n]: the bytes read and the
    bytes left; [None] is the end-of-file error. *)
Definition readerRead (buf : list Z) (n : Z) : option (list Z * list Z) :=
  match buf with
  | [] => None
  | _ => Some (take (Z.to_nat n) buf, drop (Z.to_nat n) buf)
  end.

(** The decoder's reader: the value (or an error) and the bytes left. *)
Definition decodeUintFromReader (buf : list Z) : go (option Z * list Z) :=
  match buf with
  | [] => Ret (None, [])
  | lengthFlag :: buf =>
      let remainingByteSize := IdentifyLength lengthFlag in
      if 0 <? remainingByteSize then
        match readerRead buf remainingByteSize with
        | None => Ret (None, buf)
        | Some (bytesValue, buf) =>
            if negb (Z.of_nat (length bytesValue) =? remainingByteSize) then Ret (None, buf)
            else v ← DecodeUint (GSlice (lengthFlag :: bytesValue) []); Ret (v, buf)
        end
      else v ← DecodeUint (GSlice [lengthFlag] []); Ret (v, buf)
  end.

Definition DecodeInteger (buf : list Z) : go (option Z * list Z) := decodeUintFromReader buf.
Definition DecodeLength (buf : list Z) : go (option Z * list Z) := decodeUintFromReader buf.

(** The candidate loop of [DeserializeU64] over [tryL]. *)
Fixpoint deserializeSearch (ls : list Z) (prefix : Z) (data : list Z) : option Z :=
  match ls with
  | [] => None
  | tryL :: ls =>
      let base := 256 - Z.shiftl 1 (8 - tryL) in
      if base <=? prefix then
        let floorVal := prefix - base in
        if Z.of_nat (length data) <? tryL then deserializeSearch ls prefix data
        else
          let remainder := orLE (take (Z.to_nat tryL) data) 0 0 in
          let power8l := shl64 1 (8 * tryL) in
          let x := u64 (u64 (floorVal * power8l) + remainder) in
          let lowerBound := shl64 1 (7 * tryL) in
          let upperBound := shl64 1 (7 * (tryL + 1)) in
          if (lowerBound <=? x) && (x <? upperBound) then Some x
          else deserializeSearch ls prefix data
      else deserializeSearch ls prefix data
  end.

Definition DeserializeU64 (data : list Z) : option Z :=
  match data with
  | [] => None
  | prefix :: data =>
      if prefix =? 0 then Some 0
      else if prefix =? 0xFF then
        if Z.of_nat (length data) <? 8 then None
        else Some (orLE (take 8 data) 0 0)
      else deserializeSearch [0; 1; 2; 3; 4; 5; 6; 7] prefix data
  end.
