(* ===== verification/CodecSpec.v ===== *)
(** * Integer codecs: properties

    The encoders compute one reference encoding, the decoders invert it, and
    they agree with each other on every input. *)

From S2P Require Import Prelude Words Decode DecodeSpec Program Codec.
Local Open Scope Z_scope.

(** ** The reference encoding (C.6) *)

(** The number of bytes after the prefix. *)
Definition extra_bytes (x : Z) : Z :=
  if x <? 2 ^ 7 then 0 else if x <? 2 ^ 14 then 1 else if x <? 2 ^ 21 then 2
  else if x <? 2 ^ 28 then 3 else if x <? 2 ^ 35 then 4 else if x <? 2 ^ 42 then 5
  else if x <? 2 ^ 49 then 6 else if x <? 2 ^ 56 then 7 else 8.

Definition nat_encode (x : Z) : list Z :=
  let l := extra_bytes x in
  if l =? 8 then 255 :: le_bytes 8 x
  else (2 ^ 8 - 2 ^ (8 - l) + x / 2 ^ (8 * l)) :: le_bytes l (x mod 2 ^ (8 * l)).

Lemma extra_bytes_spec x :
  0 <= x < 2 ^ 64 ->
  let l := extra_bytes x in
  0 <= l <= 8 /\ (0 < l -> 2 ^ (7 * l) <= x) /\ (l < 8 -> x < 2 ^ (7 * (l + 1))).
Proof.
  intros Hx. unfold extra_bytes.
  repeat zcase; cbn zeta; (split; [lia|]); split; intros; try lia.
Qed.

Lemma extra_bytes_unique x l :
  0 <= l <= 7 -> (0 < l -> 2 ^ (7 * l) <= x) -> 0 <= x < 2 ^ (7 * (l + 1)) -> extra_bytes x = l.
Proof.
  intros Hl H1 H2. assert (l ∈ [0;1;2;3;4;5;6;7]) as Hin by (rewrite !elem_of_cons; lia).
  repeat (apply elem_of_cons in Hin as [->|Hin]; [unfold extra_bytes; repeat zcase; lia|]).
  by apply elem_of_nil in Hin.
Qed.

(** ** Little-endian loops *)

Lemma leLoop_le_bytes l x : leLoop l x = le_bytes (Z.of_nat l) x.
Proof.
  revert x. induction l as [|l IH]; intros x; [done|].
  cbn [leLoop]. rewrite IH. unfold le_bytes.
  rewrite Nat2Z.inj_succ, Z_to_little_endian_succ by lia. done.
Qed.

Lemma EncodeUintWithLength_le x l : 0 <= l -> EncodeUintWithLength x l = le_bytes l x.
Proof.
  intros Hl. unfold EncodeUintWithLength. destruct (Z.eqb_spec l 0) as [->|]; [done|].
  by rewrite leLoop_le_bytes, Z2Nat.id by lia.
Qed.

Lemma SerializeFixedLength_le x l : 0 <= l -> SerializeFixedLength x l = le_bytes l x.
Proof. apply EncodeUintWithLength_le. Qed.

(** ** The encoders *)

(** The prefix of a number with [l] extra bytes. *)
Lemma prefix_ok x l :
  0 <= l <= 7 -> 0 <= x < 2 ^ (7 * (l + 1)) ->
  u8 (u64 ((256 - shl64 1 (8 - l)) + x / shl64 1 (8 * l))) = 2 ^ 8 - 2 ^ (8 - l) + x / 2 ^ (8 * l).
Proof.
  intros Hl Hx.
  assert (shl64 1 (8 - l) = 2 ^ (8 - l) /\ shl64 1 (8 * l) = 2 ^ (8 * l)) as [-> ->].
  { assert (l ∈ [0;1;2;3;4;5;6;7]) as Hin by (rewrite !elem_of_cons; lia).
    repeat (apply elem_of_cons in Hin as [->|Hin]; [done|]). by apply elem_of_nil in Hin. }
  assert (0 <= x / 2 ^ (8 * l) < 2 ^ (7 - l)) as Hq.
  { split; [apply Z.div_pos; lia|]. apply Z.div_lt_upper_bound; [lia|].
    rewrite <- Z.pow_add_r by lia. replace (8 * l + (7 - l)) with (7 * (l + 1)) by lia. lia. }
  assert (2 ^ (8 - l) = 2 * 2 ^ (7 - l)) as Hp.
  { replace (8 - l) with (1 + (7 - l)) by lia. rewrite Z.pow_add_r by lia. done. }
  pose proof (Z.pow_le_mono_r 2 (8 - l) 8 ltac:(lia) ltac:(lia)).
  change (2 ^ 8) with 256 in *. rewrite (uN_small 64), (uN_small 8) by lia. lia.
Qed.

Lemma shl64_pow k : 0 <= k < 64 -> shl64 1 k = 2 ^ k.
Proof.
  intros Hk. unfold shl64. rewrite Z.shiftl_1_l, (proj2 (Z.ltb_lt k 64)) by lia. apply uN_small.
  split; [apply Z.pow_nonneg; lia|]. apply Z.pow_lt_mono_r; lia.
Qed.

Lemma EncodeUint_ok x : 0 <= x < 2 ^ 64 -> EncodeUint x = nat_encode x.
Proof.
  intros Hx. unfold EncodeUint. destruct (Z.eqb_spec x 0) as [->|H0]; [done|].
  destruct (Z.ltb_spec x 0x80).
  { unfold nat_encode. rewrite (extra_bytes_unique x 0) by lia. cbn.
    rewrite Z.div_1_r, (uN_small 8) by lia. done. }
  rewrite (shl64_pow 56) by lia. destruct (Z.leb_spec (2 ^ 56) x).
  { unfold nat_encode. pose proof (extra_bytes_spec x Hx) as (Hr & _ & Hl).
    assert (extra_bytes x = 8) as ->.
    { destruct (decide (extra_bytes x < 8)) as [Hlt|]; [|lia]. specialize (Hl Hlt).
      pose proof (Z.pow_le_mono_r 2 (7 * (extra_bytes x + 1)) 56 ltac:(lia) ltac:(lia)). lia. }
    cbn [Z.eqb]. by rewrite EncodeUintWithLength_le by lia. }
  unfold BitLen. destruct (Z.leb_spec x 0); [lia|].
  replace (Z.log2 x + 1 - 1) with (Z.log2 x) by lia. set (l := Z.log2 x / 7).
  pose proof (Z.log2_spec x ltac:(lia)) as [Hlo Hhi].
  pose proof (Z.log2_nonneg x). pose proof (Z.log2_lt_pow2 x 56 ltac:(lia)) as [Hlog _].
  specialize (Hlog ltac:(lia)).
  assert (0 <= l <= 7) as Hl.
  { assert (l < 8) by (apply Z.div_lt_upper_bound; lia). split; [apply Z.div_pos; lia|lia]. }
  pose proof (Z.div_mod (Z.log2 x) 7 ltac:(lia)) as Hdm.
  pose proof (Z.mod_pos_bound (Z.log2 x) 7 ltac:(lia)) as Hmb. fold l in Hdm.
  assert (2 ^ (7 * l) <= x < 2 ^ (7 * (l + 1))) as Hb.
  { pose proof (Z.pow_le_mono_r 2 (7 * l) (Z.log2 x)).
    pose proof (Z.pow_le_mono_r 2 (Z.succ (Z.log2 x)) (7 * (l + 1))). lia. }
  rewrite prefix_ok by lia. rewrite EncodeUintWithLength_le by lia.
  unfold nat_encode. rewrite (extra_bytes_unique x l) by lia.
  destruct (Z.eqb_spec l 8); [lia|]. rewrite shl64_pow by lia. done.
Qed.

Lemma serializeSearch_skip l ls x :
  0 <= l <= 7 -> ~ (2 ^ (7 * l) <= x < 2 ^ (7 * (l + 1))) ->
  serializeSearch (l :: ls) x = serializeSearch ls x.
Proof.
  intros Hl Hn. cbn [serializeSearch]. rewrite !shl64_pow by lia.
  destruct (Z.leb_spec (2 ^ (7 * l)) x), (Z.ltb_spec x (2 ^ (7 * (l + 1)))); cbn; lia || done.
Qed.

Lemma serializeSearch_hit l ls x :
  0 <= l <= 7 -> 2 ^ (7 * l) <= x < 2 ^ (7 * (l + 1)) ->
  serializeSearch (l :: ls) x =
    Some ((2 ^ 8 - 2 ^ (8 - l) + x / 2 ^ (8 * l)) :: le_bytes l (x mod 2 ^ (8 * l))).
Proof.
  intros Hl Hx. cbn [serializeSearch]. rewrite !(shl64_pow (7 * _)) by lia.
  destruct (Z.leb_spec (2 ^ (7 * l)) x), (Z.ltb_spec x (2 ^ (7 * (l + 1)))); try lia. cbn [andb].
  rewrite prefix_ok by lia. by rewrite SerializeFixedLength_le, shl64_pow by lia.
Qed.

Lemma SerializeU64_ok x : 0 <= x < 2 ^ 64 -> SerializeU64 x = nat_encode x.
Proof.
  intros Hx. unfold SerializeU64. destruct (Z.eqb_spec x 0) as [->|H0]; [done|].
  pose proof (extra_bytes_spec x Hx) as (Hr & Hlo & Hhi). unfold nat_encode.
  set (l := extra_bytes x) in *. destruct (Z.eqb_spec l 8) as [H8|H8].
  - rewrite !serializeSearch_skip by (rewrite H8 in Hlo; specialize (Hlo ltac:(lia)); lia).
    cbn [serializeSearch]. by rewrite SerializeFixedLength_le by lia.
  - assert (2 ^ (7 * l) <= x < 2 ^ (7 * (l + 1))) as Hb.
    { split; [|apply Hhi; lia]. destruct (decide (l = 0)) as [->|]; [cbn; lia|apply Hlo; lia]. }
    clearbody l. clear Hlo Hhi. assert (l ∈ [0;1;2;3;4;5;6;7]) as Hin by (rewrite !elem_of_cons; lia).
    repeat (apply elem_of_cons in Hin as [->|Hin];
      [rewrite ?serializeSearch_skip by lia; by rewrite serializeSearch_hit by lia|]).
    by apply elem_of_nil in Hin.
Qed.

(** ** The decoders *)

(** The leading ones of a prefix say how many bytes follow. *)
Definition prefix_ok_at (p : Z) : bool :=
  let l := leadingOnes8 p in
  let base := u8 (u8 (0xFF - u8 (Z.shiftl 1 (8 - l))) + 1) in
  (1 <=? l) && (l <=? 7) && (base =? 256 - 2 ^ (8 - l)) && (base <=? p) && (p <? 256 - 2 ^ (7 - l)).

Lemma prefix_facts p :
  128 <= p < 255 ->
  let l := leadingOnes8 p in
  1 <= l <= 7 /\ u8 (u8 (0xFF - u8 (Z.shiftl 1 (8 - l))) + 1) = 256 - 2 ^ (8 - l) /\
  256 - 2 ^ (8 - l) <= p < 256 - 2 ^ (7 - l).
Proof.
  intros Hp l. assert (prefix_ok_at p = true) as H.
  { assert (forallb prefix_ok_at (seqZ 128 127) = true) as Hall by (vm_compute; reflexivity).
    apply (proj1 (forallb_forall _ _) Hall), list_elem_of_In, elem_of_seqZ. lia. }
  unfold prefix_ok_at in H. fold l in H. rewrite !andb_true_iff in H. lia.
Qed.

(** The value a prefix and the bytes after it stand for. *)
Definition dec_val (p : Z) (d : list Z) : option Z :=
  if p <? 128 then Some p
  else if p =? 255 then
    if Z.of_nat (length d) <? 8 then None else Some (le_val (take 8 d))
  else
    let l := leadingOnes8 p in
    if Z.of_nat (length d) <? l then None
    else
      let x := (p - (256 - 2 ^ (8 - l))) * 2 ^ (8 * l) + le_val (take (Z.to_nat l) d) in
      if x <? 2 ^ (7 * l) then None else Some x.

Lemma lor_disjoint x y k :
  0 <= k -> 0 <= y < 2 ^ k -> Z.lor (Z.shiftl x k) y = x * 2 ^ k + y.
Proof.
  intros Hk Hy. assert (Z.land (Z.shiftl x k) y = 0) as Hl.
  { apply Z.bits_inj'. intros i Hi. rewrite Z.land_spec, Z.bits_0.
    destruct (Z.ltb_spec i k); [by rewrite Z.shiftl_spec_low by lia|].
    rewrite <- (Z.mod_small y (2 ^ k)) by lia. rewrite Z.mod_pow2_bits_high by lia. apply andb_false_r. }
  pose proof (Z.add_lor_land (Z.shiftl x k) y) as H. rewrite Hl in H.
  rewrite Z.shiftl_mul_pow2 in * by lia. lia.
Qed.

Lemma lor_shift_add f r k :
  0 <= k < 64 -> 0 <= f -> f * 2 ^ k < 2 ^ 64 -> 0 <= r < 2 ^ k ->
  Z.lor (shl64 f k) r = f * 2 ^ k + r.
Proof.
  intros Hk Hf Hfk Hr. unfold shl64. destruct (Z.ltb_spec k 64); [|lia].
  rewrite uN_small; [by apply lor_disjoint; lia|]. rewrite Z.shiftl_mul_pow2 by lia.
  split; [|done]. apply Z.mul_nonneg_nonneg; lia.
Qed.

Lemma le_val_cons x a : is_byte x -> le_val (x :: a) = x + le_val a * 2 ^ 8.
Proof.
  intros Hx. change (le_val (x :: a)) with (Z.lor x (Z.shiftl (le_val a) 8)).
  rewrite Z.lor_comm, lor_disjoint; unfold is_byte in *; lia.
Qed.

Lemma le_val_app a b :
  Forall is_byte a ->
  le_val (a ++ b) = le_val a + le_val b * 2 ^ (8 * Z.of_nat (length a)).
Proof.
  induction 1 as [|x a Hx Ha IH].
  { cbn [app length]. change (8 * Z.of_nat 0) with 0. change (le_val []) with 0. lia. }
  cbn [app length]. rewrite !le_val_cons, IH, Nat2Z.inj_succ by done.
  replace (8 * Z.succ (Z.of_nat (length a))) with (8 * Z.of_nat (length a) + 8) by lia.
  rewrite Z.pow_add_r by lia. ring.
Qed.

(** The three-byte remainder, read as four bytes and masked, or as bytes. *)
Lemma le_val_masked d :
  Forall is_byte d -> (4 <= length d)%nat ->
  Z.land (le_val (take 4 d)) 0xFFFFFF = le_val (take 3 d).
Proof.
  intros Hd Hl. destruct d as [|a [|b [|c [|e d] ] ] ]; cbn in Hl; try lia.
  change (take 4 (a :: b :: c :: e :: d)) with ([a; b; c] ++ [e]).
  change (take 3 (a :: b :: c :: e :: d)) with [a; b; c].
  repeat (apply Forall_cons in Hd as [? Hd]).
  assert (Forall is_byte [a; b; c]) as Habc by auto.
  rewrite le_val_app by done. pose proof (le_val_range _ Habc) as Hr. cbn [length] in Hr |- *.
  change 0xFFFFFF with (Z.ones 24). rewrite Z.land_ones by lia.
  change (8 * Z.of_nat 3) with 24 in *. rewrite Z_mod_plus_full. by apply Z.mod_small.
Qed.

Lemma le_val_three a b c f :
  is_byte a -> is_byte b -> is_byte c -> 0 <= f < 2 ^ 4 ->
  Z.lor (Z.lor (Z.lor (shl64 f 24) a) (shl64 b 8)) (shl64 c 16) = f * 2 ^ 24 + le_val [a; b; c].
Proof.
  intros Ha Hb Hc Hf. rewrite <- !Z.lor_assoc.
  rewrite (shl64_byte b 8 Hb ltac:(lia)), (shl64_byte c 16 Hc ltac:(lia)).
  change (Z.lor a (Z.lor (Z.shiftl b 8) (Z.shiftl c 16))) with
    (Z.lor a (Z.lor (Z.shiftl b 8) (Z.shiftl c (8 + 8)))).
  rewrite <- (Z.shiftl_shiftl c) by lia. rewrite <- Z.shiftl_lor.
  replace (Z.lor b (Z.shiftl c 8)) with (le_val [b; c]).
  2:{ change (le_val [b; c]) with (Z.lor b (Z.shiftl (Z.lor c (Z.shiftl 0 8)) 8)).
      by rewrite Z.shiftl_0_l, Z.lor_0_r. }
  change (Z.lor a (Z.shiftl (le_val [b; c]) 8)) with (le_val [a; b; c]).
  apply lor_shift_add; try lia.
  apply (le_val_range [a; b; c]). auto.
Qed.

(** The remainder of a prefix with [l] leading ones, in whichever way the
    readers assemble it. *)
Lemma remainder_range d l :
  Forall is_byte d -> 0 <= l <= Z.of_nat (length d) ->
  0 <= le_val (take (Z.to_nat l) d) < 2 ^ (8 * l).
Proof.
  intros Hd Hl. pose proof (le_val_range (take (Z.to_nat l) d) (Forall_take _ _ _ Hd)) as Hr.
  rewrite length_take in Hr. by replace (Z.of_nat (Z.to_nat l `min` length d)) with l in Hr by lia.
Qed.

(** The five ways the readers assemble the value from [floorVal] and the
    bytes [d] after the prefix. *)
Definition assemble (data : gslice) (l floorVal : Z) : go Z :=
  match l with
  | 1 => b ← sindex data 1; Ret (Z.lor (shl64 floorVal 8) b)
  | 2 => d ← sslice data 1 3; Ret (Z.lor (shl64 floorVal 16) (le_val (take 2 (elems d))))
  | 3 =>
      if 5 <=? slen data then
        d ← sslice data 1 5;
        Ret (Z.lor (shl64 floorVal 24) (Z.land (le_val (take 4 (elems d))) 0xFFFFFF))
      else
        b1 ← sindex data 1; b2 ← sindex data 2; b3 ← sindex data 3;
        Ret (Z.lor (Z.lor (Z.lor (shl64 floorVal 24) b1) (shl64 b2 8)) (shl64 b3 16))
  | 4 => d ← sslice data 1 5; Ret (Z.lor (shl64 floorVal 32) (le_val (take 4 (elems d))))
  | _ =>
      let remainder := orLE (take (Z.to_nat l) (drop 1 (elems data))) 0 0 in
      Ret (Z.lor (shl64 floorVal (8 * l)) remainder)
  end.

Lemma sslice_tail p d sp n :
  0 <= n <= Z.of_nat (length d) ->
  exists sp', sslice (GSlice (p :: d) sp) 1 (1 + n) = Ret (GSlice (take (Z.to_nat n) d) sp').
Proof.
  intros Hn. rewrite sslice_ok by (unfold slen; cbn [elems length]; lia).
  replace (1 + n - 1) with n by lia. eauto.
Qed.

Lemma assemble_ok p d sp l f :
  Forall is_byte d -> 1 <= l <= 7 -> l <= Z.of_nat (length d) -> 0 <= f < 2 ^ (7 - l) ->
  assemble (GSlice (p :: d) sp) l f = Ret (f * 2 ^ (8 * l) + le_val (take (Z.to_nat l) d)).
Proof.
  intros Hd Hl Hlen Hf.
  assert (forall r, 0 <= r < 2 ^ (8 * l) -> Z.lor (shl64 f (8 * l)) r = f * 2 ^ (8 * l) + r) as Hor.
  { intros r Hr. apply lor_shift_add; [lia|lia| |done].
    apply Z.lt_le_trans with (2 ^ (7 - l) * 2 ^ (8 * l)); [apply Z.mul_lt_mono_pos_r; lia|].
    rewrite <- Z.pow_add_r by lia. apply Z.pow_le_mono_r; lia. }
  pose proof (remainder_range d l Hd ltac:(lia)) as Hr.
  assert (l = 1 \/ l = 2 \/ l = 3 \/ l = 4 \/ 5 <= l) as [->|[->|[->|[->|H5] ] ] ] by lia.
  - destruct d as [|b d]; [cbn in Hlen; lia|]. apply Forall_cons in Hd as [Hb _].
    cbn [assemble]. change (sindex _ 1) with (Ret b). cbn [mbind go_bind].
    change (take (Z.to_nat 1) (b :: d)) with [b] in *.
    change 8 with (8 * 1) at 1. rewrite le_val_cons in * by done. change (le_val []) with 0 in *.
    rewrite Hor by lia. f_equal. lia.
  - cbn [assemble]. destruct (sslice_tail p d sp 2 ltac:(lia)) as [sp' E].
    change (1 + 2) with 3 in E. rewrite E. cbn [mbind go_bind elems].
    rewrite take_take. change 16 with (8 * 2). by rewrite Hor.
  - cbn [assemble]. unfold slen. cbn [elems length].
    destruct (Z.leb_spec 5 (Z.of_nat (S (length d)))).
    + destruct (sslice_tail p d sp 4 ltac:(lia)) as [sp' E].
      change (1 + 4) with 5 in E. rewrite E. cbn [mbind go_bind elems].
      rewrite take_take. change (take (4 `min` Z.to_nat 4) d) with (take 4 d).
      rewrite le_val_masked by (done || lia). change 24 with (8 * 3). by rewrite Hor.
    + destruct d as [|a [|b [|c [|e d] ] ] ]; cbn [length] in *; try lia.
      repeat (apply Forall_cons in Hd as [? Hd]).
      change (sindex _ 1) with (Ret a). change (sindex _ 2) with (Ret b).
      change (sindex _ 3) with (Ret c). cbn [mbind go_bind].
      rewrite le_val_three by (done || (change (2 ^ (7 - 3)) with (2 ^ 4) in Hf; lia)). done.
  - cbn [assemble]. destruct (sslice_tail p d sp 4 ltac:(lia)) as [sp' E].
    change (1 + 4) with 5 in E. rewrite E. cbn [mbind go_bind elems].
    rewrite take_take. change 32 with (8 * 4). by rewrite Hor.
  - assert (l = 5 \/ l = 6 \/ l = 7) as [-> | [-> | -> ] ] by lia; cbn [assemble elems];
      change (drop 1 (p :: d)) with d; (rewrite orLE_0; [|by apply Forall_take|rewrite length_take; lia]);
      by rewrite Hor.
Qed.

Lemma shl64_bound l : 0 <= l <= 7 -> shl64 1 (7 * l) = 2 ^ (7 * l).
Proof. intros. apply shl64_pow. lia. Qed.

(** The two variable-length readers up to the shape of their result. *)
Lemma reader_ok {A} p d sp (k : Z -> go (option A)) (wide : list Z -> go (option A)) (small : Z -> go (option A)) :
  is_byte p -> Forall is_byte d ->
  let data := GSlice (p :: d) sp in
  (if p <? 0x80 then small p
   else if p =? 0xFF then
     if slen data <? 9 then Ret None else s ← sslice data 1 9; wide (elems s)
   else
     let l := leadingOnes8 p in
     if slen data <? l + 1 then Ret None
     else
       x ← assemble data l (u8 (p - u8 (u8 (0xFF - u8 (Z.shiftl 1 (8 - l))) + 1)));
       if x <? shl64 1 (7 * l) then Ret None else k x) =
  if p <? 128 then small p
  else if p =? 255 then
    if Z.of_nat (length d) <? 8 then Ret None else wide (take 8 d)
  else match dec_val p d with None => Ret None | Some x => k x end.
Proof.
  intros Hp Hd data. unfold is_byte in Hp. destruct (Z.ltb_spec p 0x80) as [|Hge]; [done|].
  destruct (Z.eqb_spec p 0xFF) as [->|Hne].
  - unfold slen, data. cbn [elems length].
    destruct (Z.ltb_spec (Z.of_nat (S (length d))) 9), (Z.ltb_spec (Z.of_nat (length d)) 8); try lia; [done|].
    destruct (sslice_tail 255 d sp 8 ltac:(lia)) as [sp' E]. change (1 + 8) with 9 in E. by rewrite E.
  - destruct (prefix_facts p ltac:(lia)) as (Hl & Hbase & Hrange). cbn zeta in *.
    set (l := leadingOnes8 p) in *. unfold dec_val. fold l.
    destruct (Z.ltb_spec p 128); [lia|]. destruct (Z.eqb_spec p 255); [lia|].
    unfold slen, data. cbn [elems length].
    destruct (Z.ltb_spec (Z.of_nat (S (length d))) (l + 1)), (Z.ltb_spec (Z.of_nat (length d)) l); try lia; [done|].
    assert (2 ^ (8 - l) = 2 * 2 ^ (7 - l)) as Hp2.
    { replace (8 - l) with (1 + (7 - l)) by lia. by rewrite Z.pow_add_r by lia. }
    assert (0 < 2 ^ (7 - l) <= 2 ^ 7) by (split; [apply Z.pow_pos_nonneg; lia|apply Z.pow_le_mono_r; lia]).
    rewrite Hbase, (uN_small 8) by lia. rewrite assemble_ok by (done || lia). cbn [mbind go_bind].
    rewrite shl64_bound by lia. by destruct (_ <? _).
Qed.

Lemma slen_cons p d sp : (slen (GSlice (p :: d) sp) <? 1) = false.
Proof. apply Z.ltb_ge. unfold slen. cbn [elems length]. lia. Qed.

Lemma DecodeUint_ok p d sp :
  is_byte p -> Forall is_byte d -> DecodeUint (GSlice (p :: d) sp) = Ret (dec_val p d).
Proof.
  intros Hp Hd.
  pose proof (reader_ok p d sp (fun x => Ret (Some x)) (fun l => Ret (Some (le_val (take 8 l))))
    (fun x => Ret (Some x)) Hp Hd) as H.
  unfold DecodeUint. rewrite slen_cons.
  transitivity (if p <? 128 then Ret (Some p)
    else if p =? 255 then
      if Z.of_nat (length d) <? 8 then Ret None else Ret (Some (le_val (take 8 (take 8 d))))
    else match dec_val p d with None => Ret None | Some x => Ret (Some x) end); [exact H|].
  rewrite take_take. unfold dec_val. repeat case_match; done.
Qed.

Lemma ReadUintVariable_ok p d sp :
  is_byte p -> Forall is_byte d ->
  ReadUintVariable (GSlice (p :: d) sp) =
    Ret ((fun x => (x, if p <? 128 then 1 else 1 + leadingOnes8 p)) <$> dec_val p d).
Proof.
  intros Hp Hd.
  pose proof (reader_ok p d sp (fun x => Ret (Some (x, leadingOnes8 p + 1)))
    (fun l => Ret (Some (le_val (take 8 l), 9))) (fun x => Ret (Some (x, 1))) Hp Hd) as H.
  unfold ReadUintVariable. rewrite slen_cons.
  transitivity (if p <? 128 then Ret (Some (p, 1))
    else if p =? 255 then
      if Z.of_nat (length d) <? 8 then Ret None else Ret (Some (le_val (take 8 (take 8 d)), 9))
    else match dec_val p d with None => Ret None | Some x => Ret (Some (x, leadingOnes8 p + 1)) end);
    [exact H|].
  rewrite take_take. unfold dec_val.
  destruct (Z.ltb_spec p 128); [done|]. destruct (Z.eqb_spec p 255) as [->|]; [by destruct (_ <? _)|].
  destruct (_ <? leadingOnes8 p); [done|]. destruct (_ <? 2 ^ _); [done|]. cbn. do 3 f_equal. lia.
Qed.

(** ** The search of [DeserializeU64] *)

Lemma search_skip t ls p d :
  1 <= leadingOnes8 p <= 7 -> 256 - 2 ^ (8 - leadingOnes8 p) <= p < 256 - 2 ^ (7 - leadingOnes8 p) ->
  Forall is_byte d -> 0 <= t <= 7 -> t <> leadingOnes8 p ->
  deserializeSearch (t :: ls) p d = deserializeSearch ls p d.
Proof.
  set (l := leadingOnes8 p). intros Hl Hp Hd Ht Hne. cbn [deserializeSearch].
  rewrite Z.shiftl_1_l. destruct (Z.leb_spec (256 - 2 ^ (8 - t)) p) as [Hle|]; [|done].
  assert (t < l) as Htl.
  { destruct (Z.lt_total t l) as [|[?|Hgt] ]; [done|lia|].
    pose proof (Z.pow_le_mono_r 2 (8 - t) (7 - l) ltac:(lia) ltac:(lia)). lia. }
  destruct (Z.ltb_spec (Z.of_nat (length d)) t); [done|].
  assert (2 ^ (7 - t) <= p - (256 - 2 ^ (8 - t)) < 2 ^ (8 - t)) as Hf.
  { pose proof (Z.pow_le_mono_r 2 (8 - l) (7 - t) ltac:(lia) ltac:(lia)).
    assert (2 ^ (8 - t) = 2 * 2 ^ (7 - t)).
    { replace (8 - t) with (1 + (7 - t)) by lia. by rewrite Z.pow_add_r by lia. }
    assert (0 < 2 ^ (7 - l)) by (apply Z.pow_pos_nonneg; lia). lia. }
  set (f := p - (256 - 2 ^ (8 - t))) in *.
  rewrite orLE_0 by (by apply Forall_take || (rewrite length_take; lia)).
  pose proof (remainder_range d t Hd ltac:(lia)) as Hr.
  rewrite !shl64_pow by lia.
  destruct (decide (t = 7)) as [->|]; [lia|].
  assert (f * 2 ^ (8 * t) + le_val (take (Z.to_nat t) d) < 2 ^ 64 /\
          2 ^ (7 * (t + 1)) <= f * 2 ^ (8 * t)) as [Hub Hlb].
  { split.
    - assert ((f + 1) * 2 ^ (8 * t) <= 2 ^ (8 - t) * 2 ^ (8 * t)) by (apply Z.mul_le_mono_nonneg_r; lia).
      rewrite <- Z.pow_add_r in * by lia.
      pose proof (Z.pow_le_mono_r 2 (8 - t + 8 * t) 64 ltac:(lia) ltac:(lia)).
      destruct (decide (t = 7)); lia.
    - assert (2 ^ (7 - t) * 2 ^ (8 * t) <= f * 2 ^ (8 * t)) by (apply Z.mul_le_mono_nonneg_r; lia).
      rewrite <- Z.pow_add_r in * by lia. replace (7 * (t + 1)) with (7 - t + 8 * t) by lia. lia. }
  assert (0 <= f * 2 ^ (8 * t)) by (apply Z.mul_nonneg_nonneg; lia).
  rewrite !(uN_small 64) by (rewrite ?(uN_small 64); lia).
  destruct (Z.ltb_spec (f * 2 ^ (8 * t) + le_val (take (Z.to_nat t) d)) (2 ^ (7 * (t + 1)))); [lia|].
  by rewrite andb_false_r.
Qed.

Lemma search_hit l ls p d :
  leadingOnes8 p = l -> 1 <= l <= 7 -> 256 - 2 ^ (8 - l) <= p < 256 - 2 ^ (7 - l) ->
  Forall is_byte d -> (forall t, t ∈ ls -> 0 <= t <= 7 /\ t <> l) ->
  deserializeSearch (l :: ls) p d = dec_val p d.
Proof.
  intros Hlp Hl Hp Hd Hls.
  assert (deserializeSearch ls p d = None) as Hrest.
  { clear -Hlp Hl Hp Hd Hls. induction ls as [|t ls IH]; [done|].
    destruct (Hls t ltac:(apply list_elem_of_here)).
    rewrite search_skip by (rewrite ?Hlp; done).
    apply IH. intros s Hs. apply Hls. by apply list_elem_of_further. }
  cbn [deserializeSearch]. rewrite Hrest, Z.shiftl_1_l.
  assert (128 <= p < 255).
  { pose proof (Z.pow_le_mono_r 2 (8 - l) 7 ltac:(lia) ltac:(lia)).
    assert (0 < 2 ^ (7 - l)) by (apply Z.pow_pos_nonneg; lia). lia. }
  unfold dec_val. rewrite Hlp.
  destruct (Z.ltb_spec p 128); [lia|]. destruct (Z.eqb_spec p 255); [lia|].
  destruct (Z.leb_spec (256 - 2 ^ (8 - l)) p); [|lia].
  destruct (Z.ltb_spec (Z.of_nat (length d)) l); [done|].
  assert (2 ^ (8 - l) = 2 * 2 ^ (7 - l)) as Hp2.
  { replace (8 - l) with (1 + (7 - l)) by lia. by rewrite Z.pow_add_r by lia. }
  set (f := p - (256 - 2 ^ (8 - l))). assert (0 <= f < 2 ^ (7 - l)) as Hf by lia.
  rewrite orLE_0 by (by apply Forall_take || (rewrite length_take; lia)).
  pose proof (remainder_range d l Hd ltac:(lia)) as Hr. set (r := le_val _) in *.
  rewrite !shl64_pow by lia.
  assert (f * 2 ^ (8 * l) + r < 2 ^ (7 * (l + 1))) as Hub.
  { assert ((f + 1) * 2 ^ (8 * l) <= 2 ^ (7 - l) * 2 ^ (8 * l)) by (apply Z.mul_le_mono_nonneg_r; lia).
    rewrite <- Z.pow_add_r in * by lia. replace (7 * (l + 1)) with (7 - l + 8 * l) by lia. lia. }
  assert (0 <= f * 2 ^ (8 * l)) by (apply Z.mul_nonneg_nonneg; lia).
  pose proof (Z.pow_le_mono_r 2 (7 * (l + 1)) 56 ltac:(lia) ltac:(lia)).
  rewrite !(uN_small 64) by (rewrite ?(uN_small 64); lia).
  destruct (Z.ltb_spec (f * 2 ^ (8 * l) + r) (2 ^ (7 * (l + 1)))); [|lia]. rewrite andb_true_r.
  by destruct (Z.leb_spec (2 ^ (7 * l)) (f * 2 ^ (8 * l) + r)), (Z.ltb_spec (f * 2 ^ (8 * l) + r) (2 ^ (7 * l))); try lia.
Qed.

Lemma search_all ls p d :
  1 <= leadingOnes8 p <= 7 -> 256 - 2 ^ (8 - leadingOnes8 p) <= p < 256 - 2 ^ (7 - leadingOnes8 p) ->
  Forall is_byte d -> NoDup ls -> (forall t, t ∈ ls -> 0 <= t <= 7) -> leadingOnes8 p ∈ ls ->
  deserializeSearch ls p d = dec_val p d.
Proof.
  intros Hl Hp Hd Hnd Hr Hin. induction Hnd as [|t ls Ht Hnd IH]; [by apply elem_of_nil in Hin|].
  destruct (decide (t = leadingOnes8 p)) as [->|Hne].
  - apply search_hit; try done. intros s Hs. split; [apply Hr; by apply list_elem_of_further|].
    by intros ->.
  - apply elem_of_cons in Hin as [Heq|Hin]; [by subst t|].
    rewrite search_skip; [|done|done|done|apply Hr, list_elem_of_here|done].
    apply IH; [|done]. intros s Hs. apply Hr. by apply list_elem_of_further.
Qed.

Lemma search_zero ls p d : 0 < p < 128 -> deserializeSearch (0 :: ls) p d = Some p.
Proof.
  intros Hp. cbn [deserializeSearch]. rewrite Z.shiftl_1_l. change (256 - 2 ^ (8 - 0)) with 0.
  destruct (Z.leb_spec 0 p); [|lia]. destruct (Z.ltb_spec (Z.of_nat (length d)) 0); [lia|].
  change (take (Z.to_nat 0) d) with (@nil Z). cbn [orLE]. rewrite !shl64_pow by lia.
  change (2 ^ (8 * 0)) with 1. change (2 ^ (7 * 0)) with 1. change (2 ^ (7 * (0 + 1))) with 128.
  rewrite !(uN_small 64) by (rewrite ?(uN_small 64); lia).
  destruct (Z.leb_spec 1 ((p - 0) * 1 + 0)), (Z.ltb_spec ((p - 0) * 1 + 0) 128); try lia.
  cbn [andb]. f_equal. lia.
Qed.

Lemma DeserializeU64_ok p d :
  is_byte p -> Forall is_byte d -> DeserializeU64 (p :: d) = dec_val p d.
Proof.
  intros Hp Hd. unfold is_byte in Hp. cbn [DeserializeU64].
  destruct (Z.eqb_spec p 0) as [->|H0]; [done|].
  destruct (Z.eqb_spec p 0xFF) as [->|Hne].
  { unfold dec_val. cbn [Z.ltb Z.eqb Z.compare Pos.compare Pos.compare_cont Pos.eqb].
    destruct (Z.ltb_spec (Z.of_nat (length d)) 8); [done|].
    rewrite orLE_0; [done|by apply Forall_take|rewrite length_take; lia]. }
  destruct (Z.ltb_spec p 128) as [Hlt|Hge].
  { rewrite search_zero by lia. unfold dec_val. by rewrite (proj2 (Z.ltb_lt p 128)) by lia. }
  destruct (prefix_facts p ltac:(lia)) as (Hl & _ & Hr). cbn zeta in *.
  change [0; 1; 2; 3; 4; 5; 6; 7] with (seqZ 0 8).
  apply search_all; [lia|lia|done|apply NoDup_seqZ|intros t Ht%elem_of_seqZ; lia|apply elem_of_seqZ; lia].
Qed.

(** ** The reader *)

Lemma leadingOnes8_low p : 0 <= p < 128 -> leadingOnes8 p = 0.
Proof.
  intros Hp. assert (forallb (fun p => leadingOnes8 p =? 0) (seqZ 0 128) = true) as Hall
    by (vm_compute; reflexivity).
  apply Z.eqb_eq, (proj1 (forallb_forall _ _) Hall), list_elem_of_In, elem_of_seqZ. lia.
Qed.

Lemma dec_val_take p d :
  is_byte p -> leadingOnes8 p <= Z.of_nat (length d) ->
  dec_val p (take (Z.to_nat (leadingOnes8 p)) d) = dec_val p d.
Proof.
  intros Hp Hd. unfold dec_val. destruct (Z.ltb_spec p 128); [done|].
  destruct (Z.eqb_spec p 255) as [->|].
  - change (leadingOnes8 255) with 8 in *. rewrite length_take, take_take.
    replace (Z.of_nat (Z.to_nat 8 `min` length d)) with 8 by lia.
    rewrite (proj2 (Z.ltb_ge (Z.of_nat (length d)) 8)) by lia. done.
  - unfold is_byte in Hp. destruct (prefix_facts p ltac:(lia)) as (Hl & _ & _). cbn zeta in Hl.
    rewrite length_take, take_take, Nat.min_id.
    replace (Z.of_nat (Z.to_nat (leadingOnes8 p) `min` length d)) with (leadingOnes8 p) by lia.
    rewrite Z.ltb_irrefl. by rewrite (proj2 (Z.ltb_ge (Z.of_nat (length d)) (leadingOnes8 p))) by lia.
Qed.

Lemma leadingOnes8_range p : is_byte p -> 0 <= leadingOnes8 p <= 8.
Proof.
  unfold is_byte. intros Hp. destruct (decide (p < 128)); [rewrite leadingOnes8_low; lia|].
  destruct (decide (p = 255)) as [->|]; [done|].
  destruct (prefix_facts p ltac:(lia)) as (Hl & _ & _). cbn zeta in Hl. lia.
Qed.

(** The reader consumes the prefix and the bytes it announces. *)
Lemma reader_spec p d :
  is_byte p -> Forall is_byte d ->
  if Z.of_nat (length d) <? leadingOnes8 p then
    exists rest, decodeUintFromReader (p :: d) = Ret (None, rest)
  else decodeUintFromReader (p :: d) = Ret (dec_val p d, drop (Z.to_nat (leadingOnes8 p)) d).
Proof.
  intros Hp Hd. pose proof (leadingOnes8_range p Hp) as Hr. cbn [decodeUintFromReader].
  unfold IdentifyLength. rewrite uN_small by lia.
  destruct (Z.ltb_spec 0 (leadingOnes8 p)) as [Hpos|Hz].
  - destruct (Z.ltb_spec (Z.of_nat (length d)) (leadingOnes8 p)) as [Hlt|Hge].
    + destruct d as [|b d]; [by eexists|]. cbn [readerRead]. rewrite length_take.
      destruct (Z.eqb_spec (Z.of_nat (Z.to_nat (leadingOnes8 p) `min` length (b :: d))) (leadingOnes8 p)); [lia|].
      by eexists.
    + destruct d as [|b d]; [cbn in Hge; lia|]. cbn [readerRead]. rewrite length_take.
      destruct (Z.eqb_spec (Z.of_nat (Z.to_nat (leadingOnes8 p) `min` length (b :: d))) (leadingOnes8 p)); [|lia].
      cbn [negb]. rewrite DecodeUint_ok by (done || by apply Forall_take). cbn [mbind go_bind].
      by rewrite dec_val_take by (done || lia).
  - assert (leadingOnes8 p = 0) as Hz0 by lia. rewrite Hz0.
    destruct (Z.ltb_spec (Z.of_nat (length d)) 0); [lia|].
    rewrite DecodeUint_ok by done. cbn [mbind go_bind drop Z.to_nat]. do 2 f_equal.
    rewrite <- (dec_val_take p d) by (done || lia). by rewrite Hz0.
Qed.

(** ** Encoding, then decoding *)

Lemma leadingOnes8_prefix l f :
  0 <= l <= 7 -> 0 <= f < 2 ^ (7 - l) -> leadingOnes8 (2 ^ 8 - 2 ^ (8 - l) + f) = l.
Proof.
  intros Hl Hf. assert (2 ^ (8 - l) = 2 * 2 ^ (7 - l)) as Hp2.
  { replace (8 - l) with (1 + (7 - l)) by lia. by rewrite Z.pow_add_r by lia. }
  destruct (decide (l = 0)) as [->|]; [apply leadingOnes8_low; cbn in *; lia|].
  assert (1 <= 2 ^ (7 - l)) by (apply Z.lt_pred_le, Z.pow_pos_nonneg; lia).
  pose proof (Z.pow_le_mono_r 2 (8 - l) 7 ltac:(lia) ltac:(lia)). change (2 ^ 8) with 256.
  set (p := 256 - 2 ^ (8 - l) + f). destruct (prefix_facts p ltac:(lia)) as (Hk & _ & Hr). cbn zeta in *.
  set (k := leadingOnes8 p) in *. clearbody k.
  destruct (Z.lt_total k l) as [Hlt|[?|Hgt] ]; [|done|].
  - pose proof (Z.pow_le_mono_r 2 (8 - l) (7 - k) ltac:(lia) ltac:(lia)). lia.
  - pose proof (Z.pow_le_mono_r 2 (8 - k) (7 - l) ltac:(lia) ltac:(lia)). lia.
Qed.

Lemma nat_encode_dec x :
  0 <= x < 2 ^ 64 ->
  exists p d, nat_encode x = p :: d /\ is_byte p /\ Forall is_byte d /\
    Z.of_nat (length d) = leadingOnes8 p /\ forall rest, dec_val p (d ++ rest) = Some x.
Proof.
  intros Hx. destruct (extra_bytes_spec x Hx) as (Hl & Hlo & Hhi). unfold nat_encode.
  set (l := extra_bytes x) in *. clearbody l. destruct (Z.eqb_spec l 8) as [H8|H8].
  - exists 255, (le_bytes 8 x). pose proof (le_bytes_length 8 x ltac:(lia)) as Hlen.
    split_and!; [done|unfold is_byte; lia|apply le_bytes_byte; lia|rewrite Hlen; done|].
    intros rest. unfold dec_val. cbn [Z.ltb Z.eqb Z.compare Pos.compare Pos.compare_cont Pos.eqb].
    rewrite length_app, Hlen. destruct (Z.ltb_spec (Z.of_nat (Z.to_nat 8 + length rest)) 8); [lia|].
    rewrite take_app_length' by (rewrite Hlen; done). by rewrite le_val_bytes, Z.mod_small by lia.
  - specialize (Hhi ltac:(lia)). do 2 eexists. split; [reflexivity|].
    set (f := x / 2 ^ (8 * l)). set (r := x mod 2 ^ (8 * l)).
    pose proof (Z.div_mod x (2 ^ (8 * l)) ltac:(lia)) as Hdm. fold f r in Hdm.
    pose proof (Z.mod_pos_bound x (2 ^ (8 * l)) ltac:(lia)) as Hr. fold r in Hr.
    assert (0 <= f < 2 ^ (7 - l)) as Hf.
    { split; [apply Z.div_pos; lia|]. apply Z.div_lt_upper_bound; [lia|].
      rewrite <- Z.pow_add_r by lia. replace (8 * l + (7 - l)) with (7 * (l + 1)) by lia. lia. }
    pose proof (le_bytes_length l r ltac:(lia)) as Hlen.
    assert (2 ^ (8 - l) = 2 * 2 ^ (7 - l)) as Hp2.
    { replace (8 - l) with (1 + (7 - l)) by lia. by rewrite Z.pow_add_r by lia. }
    pose proof (Z.pow_le_mono_r 2 (8 - l) 8 ltac:(lia) ltac:(lia)).
    rewrite leadingOnes8_prefix by lia.
    split_and!; [unfold is_byte; change (2 ^ 8) with 256 in *; lia|apply le_bytes_byte; lia|rewrite Hlen; lia|].
    intros rest. unfold dec_val. rewrite leadingOnes8_prefix by lia. change (2 ^ 8) with 256.
    rewrite length_app, Hlen, (take_app_length' (le_bytes l r) rest (Z.to_nat l)) by (rewrite Hlen; done).
    destruct (Z.ltb_spec (Z.of_nat (Z.to_nat l + length rest)) l); [lia|].
    rewrite le_val_bytes, (Z.mod_small r) by lia.
    replace (256 - 2 ^ (8 - l) + f - (256 - 2 ^ (8 - l))) with f by lia.
    assert (f * 2 ^ (8 * l) + r = x) as -> by lia.
    destruct (decide (l = 0)) as [->|].
    + change (2 ^ (8 - 0)) with 256 in *. change (2 ^ (8 * 0)) with 1 in *. change (2 ^ (7 * 0)) with 1.
      change (2 ^ (7 - 0)) with 128 in *. destruct (Z.ltb_spec (256 - 256 + f) 128); [f_equal; lia|lia].
    + pose proof (Z.pow_le_mono_r 2 (8 - l) 7 ltac:(lia) ltac:(lia)).
      destruct (Z.ltb_spec (256 - 2 ^ (8 - l) + f) 128); [lia|].
      destruct (Z.eqb_spec (256 - 2 ^ (8 - l) + f) 255) as [E|]; [|].
      { exfalso. assert (1 <= 2 ^ (7 - l)) by (apply Z.lt_pred_le, Z.pow_pos_nonneg; lia). lia. }
      destruct (Z.ltb_spec x (2 ^ (7 * l))); [specialize (Hlo ltac:(lia)); lia|done].
Qed.

Lemma reader_encode x rest :
  0 <= x < 2 ^ 64 -> Forall is_byte rest ->
  decodeUintFromReader (nat_encode x ++ rest) = Ret (Some x, rest).
Proof.
  intros Hx Hrest. destruct (nat_encode_dec x Hx) as (p & d & -> & Hp & Hd & Hlen & Hdec).
  cbn [app]. pose proof (reader_spec p (d ++ rest) Hp ltac:(by apply Forall_app)) as H.
  rewrite length_app in H. destruct (Z.ltb_spec (Z.of_nat (length d + length rest)) (leadingOnes8 p)); [lia|].
  rewrite H, Hdec. do 2 f_equal. rewrite drop_app_length'; [done|lia].
Qed.

(** The value read determines the bytes read, but for the nine-byte form. *)
Lemma dec_val_inv p d x :
  is_byte p -> Forall is_byte d -> Z.of_nat (length d) = leadingOnes8 p -> dec_val p d = Some x ->
  0 <= x < 2 ^ 64 /\ (p :: d = nat_encode x \/ (x < 2 ^ 56 /\ p :: d = 255 :: le_bytes 8 x)).
Proof.
  intros Hp Hd Hlen. unfold dec_val. unfold is_byte in Hp.
  destruct (Z.ltb_spec p 128).
  { intros [= <-]. rewrite leadingOnes8_low in Hlen by lia. destruct d; [|cbn in Hlen; lia].
    split; [lia|]. left. unfold nat_encode. rewrite (extra_bytes_unique p 0) by lia.
    change (0 =? 8) with false. cbv iota. change (2 ^ (8 * 0)) with 1. rewrite Z.div_1_r. done. }
  destruct (Z.eqb_spec p 255) as [->|].
  { change (leadingOnes8 255) with 8 in Hlen. destruct (Z.ltb_spec (Z.of_nat (length d)) 8); [lia|].
    intros [= <-]. rewrite take_ge by lia. pose proof (le_val_range d Hd) as Hr. rewrite Hlen in Hr.
    change (8 * 8) with 64 in Hr. split; [done|].
    assert (le_bytes 8 (le_val d) = d) as Hb by (rewrite <- Hlen; by apply le_bytes_val).
    rewrite Hb. destruct (decide (le_val d < 2 ^ 56)); [by right|left].
    unfold nat_encode. destruct (extra_bytes_spec (le_val d) Hr) as (H1 & _ & H2).
    assert (extra_bytes (le_val d) = 8) as ->; [|by rewrite Hb].
    destruct (decide (extra_bytes (le_val d) < 8)) as [Hlt|]; [|lia]. specialize (H2 Hlt).
    pose proof (Z.pow_le_mono_r 2 (7 * (extra_bytes (le_val d) + 1)) 56 ltac:(lia) ltac:(lia)). lia. }
  destruct (prefix_facts p ltac:(lia)) as (Hl & _ & Hr). cbn zeta in *. set (l := leadingOnes8 p) in *.
  clearbody l. destruct (Z.ltb_spec (Z.of_nat (length d)) l); [lia|].
  rewrite take_ge by lia. pose proof (le_val_range d Hd) as Hrd. rewrite Hlen in Hrd.
  set (f := p - (256 - 2 ^ (8 - l))). set (r := le_val d) in *.
  destruct (Z.ltb_spec (f * 2 ^ (8 * l) + r) (2 ^ (7 * l))); [done|]. intros [= <-].
  assert (2 ^ (8 - l) = 2 * 2 ^ (7 - l)) as Hp2.
  { replace (8 - l) with (1 + (7 - l)) by lia. by rewrite Z.pow_add_r by lia. }
  assert (0 <= f < 2 ^ (7 - l)) as Hf by lia.
  assert (f * 2 ^ (8 * l) + r < 2 ^ (7 * (l + 1))) as Hub.
  { assert ((f + 1) * 2 ^ (8 * l) <= 2 ^ (7 - l) * 2 ^ (8 * l)) by (apply Z.mul_le_mono_nonneg_r; lia).
    rewrite <- Z.pow_add_r in * by lia. replace (7 * (l + 1)) with (7 - l + 8 * l) by lia. lia. }
  assert (0 <= f * 2 ^ (8 * l)) by (apply Z.mul_nonneg_nonneg; lia).
  pose proof (Z.pow_le_mono_r 2 (7 * (l + 1)) 56 ltac:(lia) ltac:(lia)).
  split; [lia|]. left. unfold nat_encode. rewrite (extra_bytes_unique _ l) by lia.
  destruct (Z.eqb_spec l 8); [lia|].
  rewrite Z.div_add_l, (Z.div_small r) by lia. rewrite (Z.add_comm (f * _) r), Z_mod_plus_full, Z.mod_small by lia.
  assert (le_bytes l r = d) as -> by (rewrite <- Hlen; by apply le_bytes_val).
  f_equal. change (2 ^ 8) with 256. lia.
Qed.

(** The integer codecs of the node agree: [DecodeUint] and
    [DeserializeU64] are the same function on byte strings, neither of them
    and no call of [ReadUintVariable] panics, and all three give the same
    value or error; [EncodeUint] and [SerializeU64] are the same function. *)
Theorem codecs_agree data sp x :
  Forall is_byte data -> 0 <= x < 2 ^ 64 ->
  DecodeUint (GSlice data sp) = Ret (DeserializeU64 data) /\
  (exists o, ReadUintVariable (GSlice data sp) = Ret o /\ fst <$> o = DeserializeU64 data) /\
  EncodeUint x = SerializeU64 x.
Proof.
  intros Hd Hx. split_and!; [| |by rewrite EncodeUint_ok, SerializeU64_ok].
  all: destruct data as [|p d]; [by eauto|]; apply Forall_cons in Hd as [Hp Hd].
  - by rewrite DecodeUint_ok, DeserializeU64_ok.
  - rewrite ReadUintVariable_ok, DeserializeU64_ok by done. eexists. split; [done|].
    by destruct (dec_val p d).
Qed.

(** Decoding what was encoded gives the number back and leaves exactly
    the bytes after it, for the reader of the decoder, for [DeserializeU64]
    and for the byte reader of the PVM; an encoding has one to nine bytes. *)
Theorem uint_roundtrip x rest sp :
  0 <= x < 2 ^ 64 -> Forall is_byte rest ->
  decodeUintFromReader (EncodeUint x ++ rest) = Ret (Some x, rest) /\
  DeserializeU64 (SerializeU64 x ++ rest) = Some x /\
  ReadUintVariable (GSlice (EncodeUint x ++ rest) sp) =
    Ret (Some (x, Z.of_nat (length (EncodeUint x)))) /\
  (1 <= length (EncodeUint x) <= 9)%nat.
Proof.
  intros Hx Hrest. rewrite EncodeUint_ok, SerializeU64_ok by done. split; [by apply reader_encode|].
  destruct (nat_encode_dec x Hx) as (p & d & -> & Hp & Hd & Hlen & Hdec). cbn [app length].
  pose proof (leadingOnes8_range p Hp).
  rewrite DeserializeU64_ok, ReadUintVariable_ok by (done || by apply Forall_app).
  rewrite Hdec. split_and!; [done| |lia|lia]. cbn. do 3 f_equal.
  destruct (Z.ltb_spec p 128); [|lia]. rewrite leadingOnes8_low in Hlen by (unfold is_byte in Hp; lia). lia.
Qed.

(** What the reader returns, and the bytes it consumes. *)
Lemma reader_cases data : Forall is_byte data ->
  match decodeUintFromReader data with
  | Ret (Some x, rest) =>
      0 <= x < 2 ^ 64 /\
      exists used, data = used ++ rest /\
        (used = EncodeUint x \/ (x < 2 ^ 56 /\ used = 255 :: le_bytes 8 x))
  | Ret (None, _) => True
  | Crash => False
  end.
Proof.
  intros Hb. destruct data as [|p d]; [done|]. apply Forall_cons in Hb as [Hp Hd].
  pose proof (leadingOnes8_range p Hp). pose proof (reader_spec p d Hp Hd) as Hr.
  destruct (Z.ltb_spec (Z.of_nat (length d)) (leadingOnes8 p)).
  { destruct Hr as [r ->]. done. }
  rewrite Hr. destruct (dec_val p d) as [x|] eqn:Hv; [|done].
  rewrite <- dec_val_take in Hv by (done || lia).
  destruct (dec_val_inv p (take (Z.to_nat (leadingOnes8 p)) d) x) as [Hx Hu];
    [done|by apply Forall_take|rewrite length_take; lia|done|].
  split; [done|]. exists (p :: take (Z.to_nat (leadingOnes8 p)) d). cbn [app]. rewrite take_drop.
  split; [done|]. by rewrite EncodeUint_ok.
Qed.

(** Encodings are canonical: the bytes the reader consumes for a number
    are its encoding, except that a number below 2^56 is also accepted in
    the nine-byte form. *)
Theorem uint_canonical data x rest :
  Forall is_byte data -> decodeUintFromReader data = Ret (Some x, rest) ->
  0 <= x < 2 ^ 64 /\
  exists used, data = used ++ rest /\
    (used = EncodeUint x \/ (x < 2 ^ 56 /\ used = 255 :: le_bytes 8 x)).
Proof. intros Hb H. pose proof (reader_cases data Hb) as Hc. by rewrite H in Hc. Qed.
