(* ===== verification/Encode.v ===== *)
(** * Encoders of the protocol types

    src/internal/types/encode.go: the [Encode] method of a type [T] is
    [enc_T].  A method appends to the buffer of the encoder; the model
    returns the bytes it appends, a returned error ([None]) or a panic.
    [cs] are the chain parameters and [hsm] the [HashSegmentMap] of the
    encoder. *)

From stdpp Require Import sorting.
From S2P Require Import Prelude Words Types Config Codec.
Local Open Scope Z_scope.

(** ** The writer *)

Abbreviation W := (go (option Bytes)).

Definition put (b : Bytes) : W := Ret (Some b).
Definition fail : W := Ret None.

Definition wapp (a b : W) : W :=
  match a with
  | Ret (Some x) => match b with Ret (Some y) => Ret (Some (x ++ y)) | _ => b end
  | _ => a
  end.

Definition cat (l : list W) : W := foldr wapp (put []) l.

(** [for _, x := range l { x.Encode(e) }] *)
Definition each {A} (f : A -> W) (l : list A) : W := cat (f <$> l).

(** [e.EncodeLength], [e.EncodeInteger], [e.buf.Write([]byte{b})]. *)
Definition wLength (n : Z) : W := put (EncodeUint n).
Definition wInteger (n : Z) : W := put (EncodeUint n).
Definition wByte (b : Z) : W := put [b].

Definition lenOf {A} (l : list A) : Z := Z.of_nat (length l).

(** The length, and then the elements. *)
Definition sequence {A} (f : A -> W) (l : list A) : W := cat [wLength (lenOf l); each f l].

(** [bytes.Compare]. *)
Fixpoint bytesCompare (a b : Bytes) : comparison :=
  match a, b with
  | [], [] => Eq
  | [], _ :: _ => Lt
  | _ :: _, [] => Gt
  | x :: a, y :: b => match x ?= y with Eq => bytesCompare a b | c => c end
  end.
Definition bytesLe (a b : Bytes) : Prop := bytesCompare a b <> Gt.
#[export] Instance bytesLe_dec : RelDecision bytesLe.
Proof. intros a b. unfold bytesLe. apply _. Defined.

(** The entries of a map in the order of its sorted keys. *)
Definition keyLe {K V} (le : K -> K -> Prop) (p q : K * V) : Prop := le (fst p) (fst q).
#[export] Instance keyLe_dec {K V} le `{!RelDecision le} : RelDecision (@keyLe K V le).
Proof. intros p q. unfold keyLe. apply _. Defined.

Definition sortedEntries {K V} `{Countable K} (le : K -> K -> Prop) `{!RelDecision le} (m : gmap K V)
  : list (K * V) := merge_sort (keyLe le) (map_to_list m).

(** The length of a map, and its sorted entries. *)
Definition wMap {K V} `{Countable K} (le : K -> K -> Prop) `{!RelDecision le} (f : K -> W) (g : V -> W)
    (m : gmap K V) : W :=
  cat [wLength (Z.of_nat (size m)); each (fun p => cat [f (fst p); g (snd p)]) (sortedEntries le m)].

(** ** Simple types *)

Definition enc_U8 (u : Z) : W := put (EncodeUintWithLength u 1).
Definition enc_U16 (u : Z) : W := put (EncodeUintWithLength u 2).
Definition enc_U32 (u : Z) : W := put (EncodeUintWithLength u 4).
Definition enc_U64 (u : Z) : W := put (EncodeUintWithLength u 8).
Definition enc_HeaderHash (h : Bytes) : W := put h.
Definition enc_StateRoot (s : Bytes) : W := put s.
Definition enc_OpaqueHash (o : Bytes) : W := put o.
Definition enc_TimeSlot (t : Z) : W := put (EncodeUintWithLength t 4).
Definition enc_TimeSlotSet (t : list Z) : W := sequence enc_TimeSlot t.
Definition enc_Entropy (e : Bytes) : W := put e.
Definition enc_BandersnatchPublic (b : Bytes) : W := put b.
Definition enc_TicketID (t : Bytes) : W := put t.
Definition enc_TicketAttempt (t : Z) : W := wLength t.
Definition enc_Ed25519Public (e : Bytes) : W := put e.
Definition enc_ValidatorIndex (v : Z) : W := put (EncodeUintWithLength v 2).
Definition enc_BandersnatchVrfSignature (b : Bytes) : W := put b.
Definition enc_BandersnatchRingVrfSignature (b : Bytes) : W := put b.
Definition enc_ServiceID (s : Z) : W := put (EncodeUintWithLength s 4).
Definition enc_ServiceIDList (s : list Z) : W := each enc_ServiceID s.
Definition enc_ByteSequence (b : Bytes) : W := cat [wLength (lenOf b); put b].
Definition enc_WorkPackageHash (w : Bytes) : W := put w.
Definition enc_ErasureRoot (e : Bytes) : W := put e.
Definition enc_ExportsRoot (e : Bytes) : W := put e.
Definition enc_BeefyRoot (b : Bytes) : W := put b.
Definition enc_CoreIndex (c : Z) : W := put (EncodeUintWithLength c 2).
Definition enc_Gas (g : Z) : W := put (EncodeUintWithLength g 8).
Definition enc_Ed25519Signature (e : Bytes) : W := put e.
Definition enc_WorkReportHash (w : Bytes) : W := put w.
Definition enc_ValidatorMetadata (v : Bytes) : W := put v.
Definition enc_BlsPublic (b : Bytes) : W := put b.
Definition enc_BandersnatchRingCommitment (b : Bytes) : W := put b.
Definition enc_AuthorizerHash (a : Bytes) : W := put a.
Definition enc_ExtrinsicData (d : Bytes) : W := cat [wLength (lenOf d); put d].
Definition enc_ExportSegment (s : Bytes) : W := put s.
Definition enc_StateKey (s : Bytes) : W := put s.

(** [if vote { Write([]byte{1}) } else { Write([]byte{0}) }] *)
Definition wBool (b : bool) : W := if b then wByte 1 else wByte 0.

(** A nil pointer is the byte 0, any other the byte 1 and the value. *)
Definition wPointer {A} (f : A -> W) (p : option A) : W :=
  match p with None => wByte 0 | Some x => cat [wByte 1; f x] end.

(** [ToOctetSlice]: [bytes[i/8] |= b << (i % 8)]. *)
Fixpoint octetLoop (bf : Bitfield) (i : Z) (bytes : Bytes) : go Bytes :=
  match bf with
  | [] => Ret bytes
  | b :: bf =>
      x ← zindex bytes (i / 8);
      bytes ← zupdate bytes (i / 8) (Z.lor x (u8 (Z.shiftl b (i mod 8))));
      octetLoop bf (i + 1) bytes
  end.

Section Encode.
Context (cs : ChainSpec) (hsm : option (gmap Bytes Bytes)).

Definition ToOctetSlice (bf : Bitfield) : go Bytes :=
  octetLoop bf 0 (replicate (Z.to_nat (AvailBitfieldBytes cs)) 0).

Definition enc_Bitfield (bf : Bitfield) : W := b ← ToOctetSlice bf; put b.

(** ** Headers *)

Definition enc_EpochMarkValidatorKeys (k : EpochMarkValidatorKeys) : W :=
  cat [enc_BandersnatchPublic (ek_Bandersnatch k); enc_Ed25519Public (ek_Ed25519 k)].

Definition enc_EpochMark (em : EpochMark) : W :=
  cat [enc_Entropy (em_Entropy em); enc_Entropy (em_TicketsEntropy em);
       if negb (lenOf (em_Validators em) =? ValidatorsCount cs) then fail
       else each enc_EpochMarkValidatorKeys (em_Validators em)].

Definition enc_TicketBody (tb : TicketBody) : W :=
  cat [enc_TicketID (tb_ID tb); enc_TicketAttempt (tb_Attempt tb)].

Definition enc_TicketsMark (tm : list TicketBody) : W :=
  if negb (lenOf tm =? EpochLength cs) then fail else each enc_TicketBody tm.

Definition enc_OffendersMark (om : list Bytes) : W := sequence enc_Ed25519Public om.

Definition enc_Header (h : Header) : W :=
  cat [enc_HeaderHash (h_Parent h); enc_StateRoot (h_ParentStateRoot h);
       enc_OpaqueHash (h_ExtrinsicHash h); enc_TimeSlot (h_Slot h);
       wPointer enc_EpochMark (h_EpochMark h); wPointer enc_TicketsMark (h_TicketsMark h);
       enc_ValidatorIndex (h_AuthorIndex h); enc_BandersnatchVrfSignature (h_EntropySource h);
       enc_OffendersMark (h_OffendersMark h); enc_BandersnatchVrfSignature (h_Seal h)].

(** ** Extrinsics *)

Definition enc_TicketEnvelope (t : TicketEnvelope) : W :=
  cat [enc_TicketAttempt (te_Attempt t); enc_BandersnatchRingVrfSignature (te_Signature t)].

Definition enc_TicketsExtrinsic (t : list TicketEnvelope) : W := sequence enc_TicketEnvelope t.

Definition enc_Preimage (p : Preimage) : W :=
  cat [enc_ServiceID (p_Requester p); enc_ByteSequence (p_Blob p)].

Definition enc_PreimagesExtrinsic (p : list Preimage) : W := sequence enc_Preimage p.

Definition enc_WorkPackageSpec (w : WorkPackageSpec) : W :=
  cat [enc_WorkPackageHash (ps_Hash w); enc_U32 (ps_Length w); enc_ErasureRoot (ps_ErasureRoot w);
       enc_ExportsRoot (ps_ExportsRoot w); enc_U16 (ps_ExportsCount w)].

Definition enc_RefineContext (r : RefineContext) : W :=
  cat [enc_HeaderHash (rc_Anchor r); enc_StateRoot (rc_StateRoot r); enc_BeefyRoot (rc_BeefyRoot r);
       enc_HeaderHash (rc_LookupAnchor r); enc_TimeSlot (rc_LookupAnchorSlot r);
       wLength (lenOf (rc_Prerequisites r)); each enc_OpaqueHash (rc_Prerequisites r)].

Definition enc_SegmentRootLookupItem (s : SegmentRootLookupItem) : W :=
  cat [enc_WorkPackageHash (sl_WorkPackageHash s); enc_OpaqueHash (sl_SegmentTreeRoot s)].

Definition enc_SegmentRootLookup (s : SegmentRootLookup) : W := sequence enc_SegmentRootLookupItem s.

Definition enc_WorkExecResult (w : WorkExecResult) : W :=
  match wer_Type w with
  | WorkExecResultOk => cat [wByte 0; wLength (lenOf (wer_Data w)); put (wer_Data w)]
  | WorkExecResultOutOfGas => wByte 1
  | WorkExecResultPanic => wByte 2
  | WorkExecResultBadExports => wByte 3
  | WorkExecResultReportOversize => wByte 4
  | WorkExecResultBadCode => wByte 5
  | WorkExecResultCodeOversize => wByte 6
  end.

Definition enc_RefineLoad (r : RefineLoad) : W :=
  cat [wInteger (rl_GasUsed r); wInteger (rl_Imports r); wInteger (rl_ExtrinsicCount r);
       wInteger (rl_ExtrinsicSize r); wInteger (rl_Exports r)].

Definition enc_WorkResult (w : WorkResult) : W :=
  cat [enc_ServiceID (wr_ServiceID w); enc_OpaqueHash (wr_CodeHash w); enc_OpaqueHash (wr_PayloadHash w);
       enc_Gas (wr_AccumulateGas w); enc_WorkExecResult (wr_Result w); enc_RefineLoad (wr_RefineLoad w)].

Definition enc_WorkReport (w : WorkReport) : W :=
  cat [enc_WorkPackageSpec (rp_PackageSpec w); enc_RefineContext (rp_Context w); wLength (rp_CoreIndex w);
       enc_OpaqueHash (rp_AuthorizerHash w); wInteger (rp_AuthGasUsed w); enc_ByteSequence (rp_AuthOutput w);
       enc_SegmentRootLookup (rp_SegmentRootLookup w); wLength (lenOf (rp_Results w));
       each enc_WorkResult (rp_Results w)].

Definition enc_ValidatorSignature (v : ValidatorSignature) : W :=
  cat [enc_ValidatorIndex (vs_ValidatorIndex v); enc_Ed25519Signature (vs_Signature v)].

Definition enc_ReportGuarantee (r : ReportGuarantee) : W :=
  cat [enc_WorkReport (rg_Report r); enc_TimeSlot (rg_Slot r); wLength (lenOf (rg_Signatures r));
       each enc_ValidatorSignature (rg_Signatures r)].

Definition enc_GuaranteesExtrinsic (g : list ReportGuarantee) : W := sequence enc_ReportGuarantee g.

Definition enc_AvailAssurance (a : AvailAssurance) : W :=
  cat [enc_HeaderHash (av_Anchor a); enc_Bitfield (av_Bitfield a); enc_ValidatorIndex (av_ValidatorIndex a);
       enc_Ed25519Signature (av_Signature a)].

Definition enc_AssurancesExtrinsic (a : list AvailAssurance) : W := sequence enc_AvailAssurance a.

Definition enc_Judgement (j : Judgement) : W :=
  cat [wBool (j_Vote j); enc_ValidatorIndex (j_Index j); enc_Ed25519Signature (j_Signature j)].

Definition enc_Verdict (v : Verdict) : W :=
  cat [enc_WorkReportHash (vd_Target v); enc_U32 (vd_Age v);
       if negb (lenOf (vd_Votes v) =? ValidatorsSuperMajority cs) then fail
       else each enc_Judgement (vd_Votes v)].

Definition enc_Culprit (c : Culprit) : W :=
  cat [enc_WorkReportHash (cu_Target c); enc_Ed25519Public (cu_Key c); enc_Ed25519Signature (cu_Signature c)].

Definition enc_Fault (f : Fault) : W :=
  cat [enc_WorkReportHash (f_Target f); wBool (f_Vote f); enc_Ed25519Public (f_Key f);
       enc_Ed25519Signature (f_Signature f)].

Definition enc_DisputesExtrinsic (d : DisputesExtrinsic) : W :=
  cat [wLength (lenOf (de_Verdicts d)); each enc_Verdict (de_Verdicts d);
       wLength (lenOf (de_Culprits d)); each enc_Culprit (de_Culprits d);
       wLength (lenOf (de_Faults d)); each enc_Fault (de_Faults d)].

Definition enc_Extrinsic (e : Extrinsic) : W :=
  cat [enc_TicketsExtrinsic (ex_Tickets e); enc_PreimagesExtrinsic (ex_Preimages e);
       enc_GuaranteesExtrinsic (ex_Guarantees e); enc_AssurancesExtrinsic (ex_Assurances e);
       enc_DisputesExtrinsic (ex_Disputes e)].

Definition enc_Block (b : Block) : W := cat [enc_Header (b_Header b); enc_Extrinsic (b_Extrinsic b)].

(** ** Work packages *)

Definition enc_Authorizer (a : Authorizer) : W :=
  cat [enc_OpaqueHash (au_CodeHash a); enc_ByteSequence (au_Params a)].

Definition enc_ImportSpec (i : ImportSpec) : W :=
  match hsm with
  | None => fail
  | Some m =>
      cat [enc_OpaqueHash (im_TreeRoot i);
           if decide (is_Some (m !! im_TreeRoot i))
           then put (EncodeUintWithLength (u16 (im_Index i + 32768)) 2)
           else enc_U16 (im_Index i)]
  end.

Definition enc_ExtrinsicSpec (e : ExtrinsicSpec) : W := cat [enc_OpaqueHash (es_Hash e); enc_U32 (es_Len e)].

Definition enc_WorkItem (w : WorkItem) : W :=
  cat [enc_ServiceID (wi_Service w); enc_OpaqueHash (wi_CodeHash w); enc_Gas (wi_RefineGasLimit w);
       enc_Gas (wi_AccumulateGasLimit w); enc_U16 (wi_ExportCount w); enc_ByteSequence (wi_Payload w);
       wLength (lenOf (wi_ImportSegments w)); each enc_ImportSpec (wi_ImportSegments w);
       wLength (lenOf (wi_Extrinsic w)); each enc_ExtrinsicSpec (wi_Extrinsic w)].

Definition enc_WorkPackage (w : WorkPackage) : W :=
  cat [enc_ServiceID (wp_AuthCodeHost w); enc_OpaqueHash (wp_AuthCodeHash w); enc_RefineContext (wp_Context w);
       enc_ByteSequence (wp_Authorization w); enc_ByteSequence (wp_AuthorizerConfig w);
       wLength (lenOf (wp_Items w)); each enc_WorkItem (wp_Items w)].

Definition enc_ExtrinsicDataList (l : list Bytes) : W := sequence enc_ExtrinsicData l.

Definition enc_ExportSegmentMatrix (m : list (list Bytes)) : W := sequence (sequence enc_ExportSegment) m.

Definition enc_OpaqueHashMatrix (m : list (list Bytes)) : W := sequence (sequence enc_OpaqueHash) m.

Definition enc_WorkPackageBundle (b : WorkPackageBundle) : W :=
  cat [enc_WorkPackage (wb_Package b); enc_ExtrinsicDataList (wb_Extrinsics b);
       enc_ExportSegmentMatrix (wb_ImportSegments b); enc_OpaqueHashMatrix (wb_ImportProofs b)].

(** ** Statistics *)

Definition enc_ValidatorActivityRecord (a : ValidatorActivityRecord) : W :=
  cat [enc_U32 (va_Blocks a); enc_U32 (va_Tickets a); enc_U32 (va_PreImages a);
       enc_U32 (va_PreImagesSize a); enc_U32 (va_Guarantees a); enc_U32 (va_Assurances a)].

Definition enc_ValidatorsStatistics (a : list ValidatorActivityRecord) : W :=
  if negb (lenOf a =? ValidatorsCount cs) then fail else each enc_ValidatorActivityRecord a.

Definition enc_CoreActivityRecord (c : CoreActivityRecord) : W :=
  cat [wInteger (ca_DALoad c); wInteger (ca_Popularity c); wInteger (ca_Imports c);
       wInteger (ca_ExtrinsicCount c); wInteger (ca_ExtrinsicSize c); wInteger (ca_Exports c);
       wInteger (ca_BundleSize c); wInteger (ca_GasUsed c)].

Definition enc_ServiceActivityRecord (s : ServiceActivityRecord) : W :=
  cat [wInteger (sa_ProvidedCount s); wInteger (sa_ProvidedSize s); wInteger (sa_RefinementCount s);
       wInteger (sa_RefinementGasUsed s); wInteger (sa_Imports s); wInteger (sa_ExtrinsicCount s);
       wInteger (sa_ExtrinsicSize s); wInteger (sa_Exports s); wInteger (sa_AccumulateCount s);
       wInteger (sa_AccumulateGasUsed s)].

Definition enc_ServicesStatistics (s : gmap Z ServiceActivityRecord) : W :=
  wMap Z.le enc_ServiceID enc_ServiceActivityRecord s.

Definition enc_CoresStatistics (c : list CoreActivityRecord) : W :=
  if negb (lenOf c =? CoresCount cs) then fail else each enc_CoreActivityRecord c.

Definition enc_Statistics (s : Statistics) : W :=
  cat [enc_ValidatorsStatistics (st_ValsCurr s); enc_ValidatorsStatistics (st_ValsLast s);
       enc_CoresStatistics (st_Cores s); enc_ServicesStatistics (st_Services s)].

(** ** Validators and tickets *)

Definition enc_Validator (v : Validator) : W :=
  cat [enc_BandersnatchPublic (v_Bandersnatch v); enc_Ed25519Public (v_Ed25519 v); enc_BlsPublic (v_Bls v);
       enc_ValidatorMetadata (v_Metadata v)].

Definition enc_ValidatorsData (v : list Validator) : W :=
  if negb (lenOf v =? ValidatorsCount cs) then fail else each enc_Validator v.

Definition enc_EntropyBuffer (e : list Bytes) : W :=
  if negb (lenOf e =? 4) then fail else each enc_Entropy e.

Definition enc_TicketsAccumulator (t : list TicketBody) : W := sequence enc_TicketBody t.

Definition enc_TicketsOrKeys (t : TicketsOrKeys) : W :=
  match tk_Tickets t, tk_Keys t with
  | None, None | Some _, Some _ => fail
  | Some tickets, None =>
      cat [wByte 0; if negb (lenOf tickets =? EpochLength cs) then fail else each enc_TicketBody tickets]
  | None, Some keys =>
      cat [wByte 1; if negb (lenOf keys =? EpochLength cs) then fail else each enc_BandersnatchPublic keys]
  end.

Definition enc_SafroleState (g : SafroleState) : W :=
  cat [enc_ValidatorsData (sf_GammaK g); enc_BandersnatchRingCommitment (sf_GammaZ g);
       enc_TicketsOrKeys (sf_GammaS g); enc_TicketsAccumulator (sf_GammaA g)].

(** ** The rest of the state *)

Definition enc_AvailabilityAssignment (a : AvailabilityAssignment) : W :=
  cat [enc_WorkReport (aa_Report a); enc_TimeSlot (aa_AssignedSlot a)].

Definition enc_AvailabilityAssignments (a : list (option AvailabilityAssignment)) : W :=
  if negb (lenOf a =? CoresCount cs) then fail else each (wPointer enc_AvailabilityAssignment) a.

Definition enc_Mmr (peaks : list (option Bytes)) : W :=
  sequence (fun peak => match peak with None => wLength 0 | Some p => cat [wLength 1; enc_OpaqueHash p] end) peaks.

Definition enc_ReportedWorkPackage (r : ReportedWorkPackage) : W :=
  cat [enc_WorkReportHash (rw_Hash r); enc_ExportsRoot (rw_ExportsRoot r)].

Definition enc_BlockInfo (b : BlockInfo) : W :=
  cat [enc_HeaderHash (bi_HeaderHash b); enc_OpaqueHash (bi_BeefyRoot b); enc_StateRoot (bi_StateRoot b);
       wLength (lenOf (bi_Reported b)); each enc_ReportedWorkPackage (bi_Reported b)].

Definition enc_BlocksHistory (b : list BlockInfo) : W :=
  if MaxBlocksHistory <? lenOf b then fail else sequence enc_BlockInfo b.

Definition enc_RecentBlocks (b : RecentBlocks) : W :=
  cat [enc_BlocksHistory (rb_History b); enc_Mmr (rb_Mmr b)].

Definition enc_AuthPool (a : AuthPool) : W :=
  if AuthPoolMaxSize <? lenOf (default [] a) then fail else sequence enc_AuthorizerHash (default [] a).

Definition enc_AuthPools (a : list AuthPool) : W :=
  if negb (lenOf a =? CoresCount cs) then fail else each enc_AuthPool a.

Definition enc_AuthQueue (a : list Bytes) : W :=
  if negb (lenOf a =? AuthQueueSize) then fail else each enc_AuthorizerHash a.

Definition enc_AuthQueues (a : list (list Bytes)) : W :=
  if negb (lenOf a =? CoresCount cs) then fail else each enc_AuthQueue a.

Definition enc_ServiceInfo (s : ServiceInfo) : W :=
  cat [enc_U8 (si_Version s); enc_OpaqueHash (si_CodeHash s); enc_U64 (si_Balance s); enc_Gas (si_MinItemGas s);
       enc_Gas (si_MinMemoGas s); enc_U64 (si_Bytes s); enc_U64 (si_DepositOffset s); enc_U32 (si_Items s);
       enc_TimeSlot (si_CreationSlot s); enc_TimeSlot (si_LastAccumulationSlot s);
       enc_ServiceID (si_ParentService s)].

Definition enc_MetaCode (m : MetaCode) : W :=
  cat [wLength (lenOf (mc_Metadata m)); put (mc_Metadata m); put (mc_Code m)].

Definition enc_DisputesRecords (d : DisputesRecords) : W :=
  cat [wLength (lenOf (dr_Good d)); each enc_WorkReportHash (dr_Good d);
       wLength (lenOf (dr_Bad d)); each enc_WorkReportHash (dr_Bad d);
       wLength (lenOf (dr_Wonky d)); each enc_WorkReportHash (dr_Wonky d);
       wLength (lenOf (dr_Offenders d)); each enc_Ed25519Public (dr_Offenders d)].

Definition enc_ReadyRecord (r : ReadyRecord) : W :=
  cat [enc_WorkReport (rr_Report r); wLength (lenOf (rr_Dependencies r));
       each enc_WorkPackageHash (rr_Dependencies r)].

Definition enc_ReadyQueueItem (r : ReadyQueueItem) : W := sequence enc_ReadyRecord r.

Definition enc_ReadyQueue (r : list ReadyQueueItem) : W :=
  if negb (lenOf r =? EpochLength cs) then fail else each enc_ReadyQueueItem r.

Definition enc_AccumulatedQueueItem (a : AccumulatedQueueItem) : W := sequence enc_WorkPackageHash a.

Definition enc_AccumulatedQueue (a : list AccumulatedQueueItem) : W :=
  if negb (lenOf a =? EpochLength cs) then fail else each enc_AccumulatedQueueItem a.

Definition enc_AlwaysAccumulateMap (a : gmap Z Z) : W := wMap Z.le enc_ServiceID enc_Gas a.

Definition enc_Privileges (p : Privileges) : W :=
  cat [enc_ServiceID (pr_Bless p); enc_ServiceIDList (pr_Assign p); enc_ServiceID (pr_Designate p);
       enc_ServiceID (pr_CreateAcct p); enc_AlwaysAccumulateMap (pr_AlwaysAccum p)].

(** The length of a key is written twice. *)
Definition enc_Storage (s : gmap Bytes Bytes) : W :=
  wMap bytesLe (fun key => cat [wLength (lenOf key); enc_ByteSequence key]) enc_ByteSequence s.

Definition enc_LookupMetaMapkey (l : LookupMetaMapkey) : W :=
  cat [enc_OpaqueHash (lk_Hash l); enc_U32 (lk_Length l)].

Definition enc_PreimagesMapEntry (p : gmap Bytes Bytes) : W := wMap bytesLe enc_OpaqueHash enc_ByteSequence p.

Definition lookupKeyLe (k l : LookupMetaMapkey) : Prop :=
  match bytesCompare (lk_Hash k) (lk_Hash l) with
  | Lt => True | Gt => False | Eq => lk_Length k <= lk_Length l end.
#[local] Instance lookupKeyLe_dec : RelDecision lookupKeyLe.
Proof. intros k l. unfold lookupKeyLe. destruct (bytesCompare _ _); apply _. Defined.

Definition enc_LookupMetaMapEntry (l : gmap LookupMetaMapkey (list Z)) : W :=
  wMap lookupKeyLe enc_LookupMetaMapkey (fun value => cat [wLength (lenOf value); each enc_TimeSlot value]) l.

Definition enc_ServiceAccount (s : ServiceAccount) : W :=
  cat [enc_ServiceInfo (ac_ServiceInfo s); enc_PreimagesMapEntry (ac_PreimageLookup s);
       enc_LookupMetaMapEntry (ac_LookupDict s); enc_Storage (ac_StorageDict s)].

Definition enc_ServiceAccountState (s : ServiceAccountState) : W := wMap Z.le enc_ServiceID enc_ServiceAccount s.

(** [Theta] is not encoded. *)
Definition enc_State (s : State) : W :=
  cat [enc_AuthPools (s_Alpha s); enc_AuthQueues (s_Varphi s); enc_RecentBlocks (s_Beta s);
       enc_SafroleState (s_Gamma s); enc_DisputesRecords (s_Psi s); enc_EntropyBuffer (s_Eta s);
       enc_ValidatorsData (s_Iota s); enc_ValidatorsData (s_Kappa s); enc_ValidatorsData (s_Lambda s);
       enc_AvailabilityAssignments (s_Rho s); enc_TimeSlot (s_Tau s); enc_Privileges (s_Chi s);
       enc_Statistics (s_Pi s); enc_ReadyQueue (s_Vartheta s); enc_AccumulatedQueue (s_Xi s);
       enc_ServiceAccountState (s_Delta s)].

(** ** Accumulation inputs and outputs *)

Definition enc_DeferredTransfer (d : DeferredTransfer) : W :=
  cat [enc_ServiceID (dt_SenderID d); enc_ServiceID (dt_ReceiverID d); enc_U64 (dt_Balance d);
       put (dt_Memo d); enc_Gas (dt_GasLimit d)].

Definition enc_Operand (o : Operand) : W :=
  cat [enc_WorkPackageHash (op_Hash o); enc_ExportsRoot (op_ExportsRoot o); enc_OpaqueHash (op_AuthorizerHash o);
       enc_OpaqueHash (op_PayloadHash o); wInteger (op_GasLimit o); enc_WorkExecResult (op_Result o);
       enc_ByteSequence (op_AuthOutput o)].

Definition enc_OperandOrDeferredTransfer (o : OperandOrDeferredTransfer) : W :=
  match od_Operand o, od_DeferredTransfer o with
  | None, None | Some _, Some _ => fail
  | Some operand, None => cat [wByte 0; enc_Operand operand]
  | None, Some transfer => cat [wByte 1; enc_DeferredTransfer transfer]
  end.

Definition enc_SliceHash (s : SliceHash) : W :=
  cat [wLength (lenOf (sh_A s)); each enc_OpaqueHash (sh_A s);
       wLength (lenOf (sh_B s)); each enc_OpaqueHash (sh_B s)].

Definition enc_BoundaryNode (b : BoundaryNode) : W :=
  cat [enc_StateKey (bn_Key b); put (bn_Hash b); wPointer enc_StateKey (bn_Parent b); wBool (bn_IsLeaf b)].

Definition enc_StateKeyVal (s : StateKeyVal) : W := cat [enc_StateKey (Key s); enc_ByteSequence (Value s)].

Definition enc_StateKeyVals (s : list StateKeyVal) : W :=
  sequence (fun kv => cat [put (Key kv); wLength (lenOf (Value kv)); put (Value kv)]) s.

Definition enc_AccumulatedServiceHash (a : AccumulatedServiceHash) : W :=
  cat [enc_ServiceID (as_ServiceID a); enc_OpaqueHash (as_Hash a)].

(** The keys of the map in the order the loop ranges over them, which Go
    does not specify. *)
Definition enc_AccumulatedServiceOutput (order : list AccumulatedServiceHash) : W :=
  sequence enc_AccumulatedServiceHash order.

Definition enc_LastAccOut (l : list AccumulatedServiceHash) : W := sequence enc_AccumulatedServiceHash l.

Definition enc_AncestryItem (a : AncestryItem) : W :=
  cat [enc_TimeSlot (an_Slot a); enc_HeaderHash (an_HeaderHash a)].

Definition enc_Ancestry (a : list AncestryItem) : W := sequence enc_AncestryItem a.

End Encode.
