(* ===== verification/Decoders.v ===== *)
(** * Decoders of the protocol types

    src/internal/types/decode.go: the [Decode] method of a type [T] into a
    zero value is [dec_T].  The reader of the decoder is the list of the
    bytes left; a decoder returns the value and the bytes left, a returned
    error ([None]), or a panic.

    [makeOK n] tells whether the run time can make a slice of [n] elements:
    [make] panics (or the process dies) when it cannot.  [cs] are the chain
    parameters and [hsm] the [HashSegmentMap] of the decoder. *)

From S2P Require Import Prelude Words Types Config Codec.
Local Open Scope Z_scope.

(** ** The reader *)

Definition D (A : Type) : Type := Bytes -> go (option (A * Bytes)).

#[export] Instance D_ret : MRet D := fun A a buf => Ret (Some (a, buf)).
#[export] Instance D_bind : MBind D := fun A B k m buf =>
  match m buf with
  | Ret (Some (a, buf)) => k a buf
  | Ret None => Ret None
  | Crash => Crash
  end.

Definition dfail {A} : D A := fun _ => Ret None.
Definition dcrash {A} : D A := fun _ => Crash.

(** [binary.Read] of an array of [n] bytes: an error if fewer are left. *)
Definition readFull (n : nat) : D Bytes := fun buf =>
  if (length buf <? n)%nat then Ret None else Ret (Some (take n buf, drop n buf)).

(** [binary.Read] of a little-endian unsigned integer of [n] bytes. *)
Definition readLE (n : nat) : D Z := b ← readFull n; mret (le_val b).

(** [d.buf.ReadByte()], [d.ReadPointerFlag()] *)
Definition ReadByte : D Z := fun buf =>
  match buf with [] => Ret None | b :: buf => Ret (Some (b, buf)) end.
Definition ReadPointerFlag : D Z := ReadByte.

(** [d.buf.Read(b)] of a slice of [n] zero bytes: an error at the end of the
    input; fewer bytes than asked for are no error, and the rest of the
    slice keeps its zeros. *)
Definition bufRead (n : nat) : D Bytes := fun buf =>
  match buf with
  | [] => Ret None
  | _ => Ret (Some (take n buf ++ replicate (n - length buf) 0, drop n buf))
  end.

(** The number of bytes left, [d.buf.Len()]. *)
Definition bufLen : D Z := fun buf => Ret (Some (Z.of_nat (length buf), buf)).

Definition dLength : D Z := fun buf =>
  match DecodeLength buf with
  | Ret (Some n, buf) => Ret (Some (n, buf))
  | Ret (None, _) => Ret None
  | Crash => Crash
  end.
Definition dInteger : D Z := fun buf =>
  match DecodeInteger buf with
  | Ret (Some n, buf) => Ret (Some (n, buf))
  | Ret (None, _) => Ret None
  | Crash => Crash
  end.

(** [for i := 0; i < n; i++ { x[i].Decode(d) }] *)
Fixpoint times {A} (n : nat) (f : D A) : D (list A) :=
  match n with
  | O => mret []
  | S n => x ← f; xs ← times n f; mret (x :: xs)
  end.

(** ** Simple types *)

Definition dec_HeaderHash : D Bytes := readFull 32.
Definition dec_StateRoot : D Bytes := readFull 32.
Definition dec_OpaqueHash : D Bytes := readFull 32.
Definition dec_TimeSlot : D Z := readLE 4.
Definition dec_Entropy : D Bytes := readFull 32.
Definition dec_BandersnatchPublic : D Bytes := readFull 32.
Definition dec_TicketID : D Bytes := readFull 32.
Definition dec_TicketAttempt : D Z := dLength.
Definition dec_Ed25519Public : D Bytes := readFull 32.
Definition dec_ValidatorIndex : D Z := readLE 2.
Definition dec_BandersnatchVrfSignature : D Bytes := readFull 96.
Definition dec_BandersnatchRingVrfSignature : D Bytes := readFull 784.
Definition dec_ServiceID : D Z := readLE 4.
Definition dec_Ed25519Signature : D Bytes := readFull 64.
Definition dec_ErasureRoot : D Bytes := readFull 32.
Definition dec_ExportsRoot : D Bytes := readFull 32.
Definition dec_BeefyRoot : D Bytes := readFull 32.
Definition dec_CoreIndex : D Z := readLE 2.
Definition dec_WorkPackageHash : D Bytes := readFull 32.
Definition dec_Gas : D Z := readLE 8.
Definition dec_WorkReportHash : D Bytes := readFull 32.
Definition dec_U8 : D Z := readLE 1.
Definition dec_U16 : D Z := readLE 2.
Definition dec_U32 : D Z := readLE 4.
Definition dec_U64 : D Z := readLE 8.
Definition dec_BlsPublic : D Bytes := readFull 144.
Definition dec_ValidatorMetadata : D Bytes := readFull 128.
Definition dec_BandersnatchRingCommitment : D Bytes := readFull 144.
Definition dec_ExportSegment : D Bytes := readFull 4104.
Definition dec_StateKey : D Bytes := readFull 31.

(** [AuthorizerHash.Decode] calls itself on a variable of its own type: for
    any number of calls it has not returned. *)
Fixpoint dec_AuthorizerHash (fuel : nat) (buf : Bytes) : option (go (option (Bytes * Bytes))) :=
  match fuel with
  | O => None
  | S fuel => dec_AuthorizerHash fuel buf
  end.

Section Decode.
Context (makeOK : Z -> bool) (cs : ChainSpec) (hsm : option (gmap Bytes Bytes)).

(** [make([]T, n)], and [n] elements decoded into it. *)
Definition makeSlice {A} (n : Z) (f : D A) : D (list A) :=
  if makeOK n then times (Z.to_nat n) f else dcrash.

(** [length, err := d.DecodeLength(); if length == 0 { return nil }; ...] *)
Definition dSequence {A} (f : D A) : D (list A) :=
  n ← dLength; if n =? 0 then mret [] else makeSlice n f.

(** A slice of a fixed length. *)
Definition dFixed {A} (n : Z) (f : D A) : D (list A) := makeSlice n f.

(** [make([]byte, n)] and [d.buf.Read]. *)
Definition makeRead (n : Z) : D Bytes := if makeOK n then bufRead (Z.to_nat n) else dcrash.

(** A pointer: the flag 0 is nil, any other flag a value. *)
Definition dPointer {A} (f : D A) : D (option A) :=
  flag ← ReadPointerFlag; if flag =? 0 then mret None else x ← f; mret (Some x).

Definition dec_TimeSlotSet : D (list Z) := dSequence dec_TimeSlot.

Definition dec_ServiceIDList : D (list Z) := dFixed (CoresCount cs) dec_ServiceID.

Definition dec_ByteSequence : D Bytes :=
  n ← dLength; if n =? 0 then mret [] else makeRead n.

(** ** Headers *)

Definition dec_EpochMarkValidatorKeys : D EpochMarkValidatorKeys :=
  a ← dec_BandersnatchPublic; b ← dec_Ed25519Public; mret (MkEpochMarkValidatorKeys a b).

Definition dec_EpochMark : D EpochMark :=
  a ← dec_Entropy; b ← dec_Entropy; c ← dFixed (ValidatorsCount cs) dec_EpochMarkValidatorKeys;
  mret (MkEpochMark a b c).

Definition dec_TicketBody : D TicketBody := a ← dec_TicketID; b ← dec_TicketAttempt; mret (MkTicketBody a b).

Definition dec_TicketsMark : D (list TicketBody) := dFixed (EpochLength cs) dec_TicketBody.

Definition dec_OffendersMark : D (list Bytes) := dSequence dec_Ed25519Public.

Definition dec_Header : D Header :=
  a ← dec_HeaderHash; b ← dec_StateRoot; c ← dec_OpaqueHash; d ← dec_TimeSlot;
  e ← dPointer dec_EpochMark; f ← dPointer dec_TicketsMark; g ← dec_ValidatorIndex;
  h ← dec_BandersnatchVrfSignature; i ← dec_OffendersMark; j ← dec_BandersnatchVrfSignature;
  mret (MkHeader a b c d e f g h i j).

(** ** Extrinsics *)

Definition dec_TicketEnvelope : D TicketEnvelope :=
  a ← dec_TicketAttempt; b ← dec_BandersnatchRingVrfSignature; mret (MkTicketEnvelope a b).

Definition dec_TicketsExtrinsic : D (list TicketEnvelope) := dSequence dec_TicketEnvelope.

Definition dec_Preimage : D Preimage := a ← dec_ServiceID; b ← dec_ByteSequence; mret (MkPreimage a b).

Definition dec_PreimagesExtrinsic : D (list Preimage) := dSequence dec_Preimage.

Definition dec_ValidatorSignature : D ValidatorSignature :=
  a ← dec_ValidatorIndex; b ← dec_Ed25519Signature; mret (MkValidatorSignature a b).

Definition dec_WorkPackageSpec : D WorkPackageSpec :=
  a ← dec_WorkPackageHash; b ← dec_U32; c ← dec_ErasureRoot; d ← dec_ExportsRoot; e ← dec_U16;
  mret (MkWorkPackageSpec a b c d e).

Definition dec_RefineContext : D RefineContext :=
  a ← dec_HeaderHash; b ← dec_StateRoot; c ← dec_BeefyRoot; d ← dec_HeaderHash; e ← dec_TimeSlot;
  f ← dSequence dec_OpaqueHash; mret (MkRefineContext a b c d e f).

Definition dec_SegmentRootLookupItem : D SegmentRootLookupItem :=
  a ← dec_WorkPackageHash; b ← dec_OpaqueHash; mret (MkSegmentRootLookupItem a b).

Definition dec_SegmentRootLookup : D SegmentRootLookup := dSequence dec_SegmentRootLookupItem.

Definition dec_WorkExecResult : D WorkExecResult :=
  firstByte ← ReadByte;
  if firstByte =? 0 then data ← dec_ByteSequence; mret (MkWorkExecResult WorkExecResultOk data)
  else if firstByte =? 1 then mret (MkWorkExecResult WorkExecResultOutOfGas [])
  else if firstByte =? 2 then mret (MkWorkExecResult WorkExecResultPanic [])
  else if firstByte =? 3 then mret (MkWorkExecResult WorkExecResultBadExports [])
  else if firstByte =? 4 then mret (MkWorkExecResult WorkExecResultReportOversize [])
  else if firstByte =? 5 then mret (MkWorkExecResult WorkExecResultBadCode [])
  else if firstByte =? 6 then mret (MkWorkExecResult WorkExecResultCodeOversize [])
  else dfail.

Definition dec_RefineLoad : D RefineLoad :=
  a ← dInteger; b ← dInteger; c ← dInteger; d ← dInteger; e ← dInteger;
  mret (MkRefineLoad a (u16 b) (u16 c) (u32 d) (u16 e)).

Definition dec_WorkResult : D WorkResult :=
  a ← dec_ServiceID; b ← dec_OpaqueHash; c ← dec_OpaqueHash; d ← dec_Gas; e ← dec_WorkExecResult;
  f ← dec_RefineLoad; mret (MkWorkResult a b c d e f).

Definition dec_WorkReport : D WorkReport :=
  a ← dec_WorkPackageSpec; b ← dec_RefineContext; c ← dLength; d ← dec_OpaqueHash; e ← dInteger;
  f ← dec_ByteSequence; g ← dec_SegmentRootLookup; h ← dSequence dec_WorkResult;
  mret (MkWorkReport a b (u16 c) d e f g h).

Definition dec_ReportGuarantee : D ReportGuarantee :=
  a ← dec_WorkReport; b ← dec_TimeSlot; c ← dSequence dec_ValidatorSignature; mret (MkReportGuarantee a b c).

Definition dec_GuaranteesExtrinsic : D (list ReportGuarantee) := dSequence dec_ReportGuarantee.

(** [bitfield[i] = (bytes[i/8] >> (i % 8)) & 1]; [None] is a returned error. *)
Definition MakeBitfieldFromByteSlice (bytes : Bytes) : go (option Bitfield) :=
  if negb (Z.of_nat (length bytes) =? AvailBitfieldBytes cs) then Ret None
  else
    bits ← foldr (fun i acc => acc ← acc; b ← zindex bytes (Z.of_nat i / 8);
                               Ret (Z.land (shr b (Z.of_nat i mod 8)) 1 :: acc))
             (Ret []) (seq 0 (Z.to_nat (CoresCount cs)));
    Ret (Some bits).

Definition dec_Bitfield : D Bitfield := fun buf =>
  match makeRead (AvailBitfieldBytes cs) buf with
  | Ret (Some (bytes, buf)) =>
      bf ← MakeBitfieldFromByteSlice bytes;
      Ret (match bf with Some bf => Some (bf, buf) | None => None end)
  | Ret None => Ret None
  | Crash => Crash
  end.

Definition dec_AvailAssurance : D AvailAssurance :=
  a ← dec_HeaderHash; b ← dec_Bitfield; c ← dec_ValidatorIndex; d ← dec_Ed25519Signature;
  mret (MkAvailAssurance a b c d).

Definition dec_AssurancesExtrinsic : D (list AvailAssurance) := dSequence dec_AvailAssurance.

Definition dec_Culprit : D Culprit :=
  a ← dec_WorkReportHash; b ← dec_Ed25519Public; c ← dec_Ed25519Signature; mret (MkCulprit a b c).

(** [vote == 1]: any other byte is a negative vote. *)
Definition dec_Fault : D Fault :=
  a ← dec_WorkReportHash; vote ← ReadByte; b ← dec_Ed25519Public; c ← dec_Ed25519Signature;
  mret (MkFault a (vote =? 1) b c).

Definition dec_Judgement : D Judgement :=
  vote ← ReadByte; b ← dec_ValidatorIndex; c ← dec_Ed25519Signature; mret (MkJudgement (vote =? 1) b c).

Definition dec_Verdict : D Verdict :=
  a ← dec_WorkReportHash; b ← dec_U32; c ← dFixed (ValidatorsSuperMajority cs) dec_Judgement;
  mret (MkVerdict a b c).

Definition dec_DisputesExtrinsic : D DisputesExtrinsic :=
  a ← dSequence dec_Verdict; b ← dSequence dec_Culprit; c ← dSequence dec_Fault;
  mret (MkDisputesExtrinsic a b c).

Definition dec_Extrinsic : D Extrinsic :=
  a ← dec_TicketsExtrinsic; b ← dec_PreimagesExtrinsic; c ← dec_GuaranteesExtrinsic;
  d ← dec_AssurancesExtrinsic; e ← dec_DisputesExtrinsic; mret (MkExtrinsic a b c d e).

Definition dec_Block : D Block := a ← dec_Header; b ← dec_Extrinsic; mret (MkBlock a b).

(** ** Work packages *)

Definition dec_ImportSpec : D ImportSpec :=
  match hsm with
  | None => dfail
  | Some m =>
      a ← dec_OpaqueHash; i ← dec_U16;
      mret (MkImportSpec a (if decide (is_Some (m !! a)) then u16 (i - 32768) else i))
  end.

Definition dec_ExtrinsicSpec : D ExtrinsicSpec := a ← dec_OpaqueHash; b ← dec_U32; mret (MkExtrinsicSpec a b).

(** Without import segments the method returns before it reads the
    extrinsics. *)
Definition dec_WorkItem : D WorkItem :=
  a ← dec_ServiceID; b ← dec_OpaqueHash; c ← dec_Gas; d ← dec_Gas; e ← dec_U16; f ← dec_ByteSequence;
  n ← dLength;
  if n =? 0 then mret (MkWorkItem a b c d e f [] [])
  else
    g ← makeSlice n dec_ImportSpec;
    h ← dSequence dec_ExtrinsicSpec;
    mret (MkWorkItem a b c d e f g h).

Definition dec_Authorizer : D Authorizer := a ← dec_OpaqueHash; b ← dec_ByteSequence; mret (MkAuthorizer a b).

Definition dec_WorkPackage : D WorkPackage :=
  a ← dec_ServiceID; b ← dec_OpaqueHash; c ← dec_RefineContext; d ← dec_ByteSequence; e ← dec_ByteSequence;
  f ← dSequence dec_WorkItem; mret (MkWorkPackage a b c d e f).

Definition dec_ExtrinsicData : D Bytes :=
  n ← dLength; if n =? 0 then mret [] else makeRead n.

(** The lists of a bundle: no early return for the length 0. *)
Definition dList {A} (f : D A) : D (list A) := n ← dLength; makeSlice n f.

Definition dec_ExtrinsicDataList : D (list Bytes) := dList dec_ExtrinsicData.
Definition dec_ExportSegmentMatrix : D (list (list Bytes)) := dList (dList dec_ExportSegment).
Definition dec_OpaqueHashMatrix : D (list (list Bytes)) := dList (dList dec_OpaqueHash).

Definition dec_WorkPackageBundle : D WorkPackageBundle :=
  a ← dec_WorkPackage; b ← dec_ExtrinsicDataList; c ← dec_ExportSegmentMatrix; d ← dec_OpaqueHashMatrix;
  mret (MkWorkPackageBundle a b c d).

(** ** Statistics *)

Definition dec_ValidatorActivityRecord : D ValidatorActivityRecord :=
  a ← dec_U32; b ← dec_U32; c ← dec_U32; d ← dec_U32; e ← dec_U32; f ← dec_U32;
  mret (MkValidatorActivityRecord a b c d e f).

Definition dec_ValidatorsStatistics : D (list ValidatorActivityRecord) :=
  dFixed (ValidatorsCount cs) dec_ValidatorActivityRecord.

Definition dec_CoreActivityRecord : D CoreActivityRecord :=
  a ← dInteger; b ← dInteger; c ← dInteger; d ← dInteger; e ← dInteger; f ← dInteger; g ← dInteger; h ← dInteger;
  mret (MkCoreActivityRecord (u32 a) (u16 b) (u16 c) (u16 d) (u32 e) (u16 f) (u32 g) h).

Definition dec_CoresStatistics : D (list CoreActivityRecord) := dFixed (CoresCount cs) dec_CoreActivityRecord.

Definition dec_ServiceActivityRecord : D ServiceActivityRecord :=
  a ← dInteger; b ← dInteger; c ← dInteger; d ← dInteger; e ← dInteger; f ← dInteger; g ← dInteger; h ← dInteger;
  i ← dInteger; j ← dInteger;
  mret (MkServiceActivityRecord (u16 a) (u32 b) (u32 c) d (u32 e) (u32 f) (u32 g) (u32 h) (u32 i) j).

(** [m[key] = val] for [n] decoded entries. *)
Definition dEntries {K V} `{Countable K} (n : Z) (f : D K) (g : D V) : D (gmap K V) :=
  es ← times (Z.to_nat n) (k ← f; v ← g; mret (k, v));
  mret (foldl (fun m p => <[fst p := snd p]> m) ∅ es).

(** A map with its length; the capacity hint of [make] never panics. *)
Definition dMap {K V} `{Countable K} (f : D K) (g : D V) : D (gmap K V) :=
  n ← dLength; if n =? 0 then mret ∅ else dEntries n f g.

Definition dec_ServicesStatistics : D (gmap Z ServiceActivityRecord) := dMap dec_ServiceID dec_ServiceActivityRecord.

Definition dec_Statistics : D Statistics :=
  a ← dec_ValidatorsStatistics; b ← dec_ValidatorsStatistics; c ← dec_CoresStatistics; d ← dec_ServicesStatistics;
  mret (MkStatistics a b c d).

(** ** Validators and tickets *)

Definition dec_Validator : D Validator :=
  a ← dec_BandersnatchPublic; b ← dec_Ed25519Public; c ← dec_BlsPublic; d ← dec_ValidatorMetadata;
  mret (MkValidator a b c d).

Definition dec_ValidatorsData : D (list Validator) := dFixed (ValidatorsCount cs) dec_Validator.

(** An array of four: no [make]. *)
Definition dec_EntropyBuffer : D (list Bytes) := times 4 dec_Entropy.

Definition dec_TicketsAccumulator : D (list TicketBody) := dSequence dec_TicketBody.

(** An unknown flag is no error and leaves both slices nil. *)
Definition dec_TicketsOrKeys : D TicketsOrKeys :=
  firstByte ← ReadPointerFlag;
  if firstByte =? 0 then
    tickets ← dFixed (EpochLength cs) dec_TicketBody; mret (MkTicketsOrKeys (Some tickets) None)
  else if firstByte =? 1 then
    keys ← dFixed (EpochLength cs) dec_BandersnatchPublic; mret (MkTicketsOrKeys None (Some keys))
  else mret (MkTicketsOrKeys None None).

Definition dec_SafroleState : D SafroleState :=
  a ← dec_ValidatorsData; b ← dec_BandersnatchRingCommitment; c ← dec_TicketsOrKeys; d ← dec_TicketsAccumulator;
  mret (MkSafroleState a b c d).

(** ** The rest of the state *)

Definition dec_AvailabilityAssignment : D AvailabilityAssignment :=
  a ← dec_WorkReport; b ← dec_TimeSlot; mret (MkAvailabilityAssignment a b).

Definition dec_AvailabilityAssignments : D (list (option AvailabilityAssignment)) :=
  times (Z.to_nat (CoresCount cs)) (dPointer dec_AvailabilityAssignment).

Definition dec_Mmr : D (list (option Bytes)) := dSequence (dPointer dec_OpaqueHash).

Definition dec_ReportedWorkPackage : D ReportedWorkPackage :=
  a ← dec_WorkReportHash; b ← dec_ExportsRoot; mret (MkReportedWorkPackage a b).

Definition dec_BlockInfo : D BlockInfo :=
  a ← dec_HeaderHash; b ← dec_OpaqueHash; c ← dec_StateRoot; d ← dSequence dec_ReportedWorkPackage;
  mret (MkBlockInfo a b c d).

Definition dec_BlocksHistory : D (list BlockInfo) := dSequence dec_BlockInfo.

Definition dec_RecentBlocks : D RecentBlocks := a ← dec_BlocksHistory; b ← dec_Mmr; mret (MkRecentBlocks a b).

(** An empty pool stays nil. *)
Definition dec_AuthPool : D AuthPool :=
  n ← dLength; if n =? 0 then mret None else l ← makeSlice n dec_OpaqueHash; mret (Some l).

Definition dec_AuthPools : D (list AuthPool) := dFixed (CoresCount cs) dec_AuthPool.

Definition dec_AuthQueue : D (list Bytes) := dFixed AuthQueueSize dec_OpaqueHash.

Definition dec_AuthQueues : D (list (list Bytes)) := dFixed (CoresCount cs) dec_AuthQueue.

Definition dec_ServiceInfo : D ServiceInfo :=
  a ← dec_U8; b ← dec_OpaqueHash; c ← dec_U64; d ← dec_Gas; e ← dec_Gas; f ← dec_U64; g ← dec_U64; h ← dec_U32;
  i ← dec_TimeSlot; j ← dec_TimeSlot; k ← dec_ServiceID;
  mret (MkServiceInfo a b c d e f g h i j k).

(** Without metadata the method returns before it reads the code. *)
Definition dec_MetaCode : D MetaCode :=
  left ← bufLen;
  if left =? 0 then mret (MkMetaCode [] [])
  else
    n ← dLength;
    if n =? 0 then mret (MkMetaCode [] [])
    else
      metadata ← makeRead n;
      left ← bufLen;
      code ← makeRead left;
      mret (MkMetaCode metadata code).

Definition dec_DisputesRecords : D DisputesRecords :=
  a ← dSequence dec_WorkReportHash; b ← dSequence dec_WorkReportHash; c ← dSequence dec_WorkReportHash;
  d ← dSequence dec_Ed25519Public; mret (MkDisputesRecords a b c d).

Definition dec_ReadyRecord : D ReadyRecord :=
  a ← dec_WorkReport; b ← dSequence dec_WorkPackageHash; mret (MkReadyRecord a b).

Definition dec_ReadyQueueItem : D ReadyQueueItem := dSequence dec_ReadyRecord.

Definition dec_ReadyQueue : D (list ReadyQueueItem) := dFixed (EpochLength cs) dec_ReadyQueueItem.

Definition dec_AccumulatedQueueItem : D AccumulatedQueueItem := dSequence dec_WorkPackageHash.

Definition dec_AccumulatedQueue : D (list AccumulatedQueueItem) := dFixed (EpochLength cs) dec_AccumulatedQueueItem.

Definition dec_AlwaysAccumulateMap : D (gmap Z Z) := n ← dLength; dEntries n dec_ServiceID dec_Gas.

Definition dec_Privileges : D Privileges :=
  a ← dec_ServiceID; b ← dec_ServiceIDList; c ← dec_ServiceID; d ← dec_ServiceID; e ← dec_AlwaysAccumulateMap;
  mret (MkPrivileges a c d b e).

Definition dec_LookupMetaMapkey : D LookupMetaMapkey := a ← dec_OpaqueHash; b ← dec_U32; mret (MkLookupMetaMapkey a b).

Definition dec_LookupMetaMapEntry : D (gmap LookupMetaMapkey (list Z)) :=
  dMap dec_LookupMetaMapkey (dSequence dec_TimeSlot).

Definition dec_PreimagesMapEntry : D (gmap Bytes Bytes) := dMap dec_OpaqueHash dec_ByteSequence.

(** A key length 0 ends the method, with the entries read so far. *)
Fixpoint storageLoop (n : nat) (s : gmap Bytes Bytes) : D (gmap Bytes Bytes) :=
  match n with
  | O => mret s
  | S n =>
      k ← dLength;
      if k =? 0 then mret s
      else
        key ← dec_ByteSequence; val ← dec_ByteSequence;
        storageLoop n (<[key := val]> s)
  end.

Definition dec_Storage : D (gmap Bytes Bytes) :=
  n ← dLength; if n =? 0 then mret ∅ else storageLoop (Z.to_nat n) ∅.

Definition dec_ServiceAccount : D ServiceAccount :=
  a ← dec_ServiceInfo; b ← dec_PreimagesMapEntry; c ← dec_LookupMetaMapEntry; d ← dec_Storage;
  mret (MkServiceAccount a b c d).

Definition dec_ServiceAccountState : D ServiceAccountState := dMap dec_ServiceID dec_ServiceAccount.

(** [Theta] keeps its zero value. *)
Definition dec_State : D State :=
  a ← dec_AuthPools; b ← dec_AuthQueues; c ← dec_RecentBlocks; d ← dec_SafroleState; e ← dec_DisputesRecords;
  f ← dec_EntropyBuffer; g ← dec_ValidatorsData; h ← dec_ValidatorsData; i ← dec_ValidatorsData;
  j ← dec_AvailabilityAssignments; k ← dec_TimeSlot; l ← dec_Privileges; m ← dec_Statistics; n ← dec_ReadyQueue;
  o ← dec_AccumulatedQueue; p ← dec_ServiceAccountState;
  mret (MkState a b c d e f g h i j k l m n [] o p).

(** ** Accumulation inputs and outputs *)

Definition dec_DeferredTransfer : D DeferredTransfer :=
  a ← dec_ServiceID; b ← dec_ServiceID; c ← dec_U64; d ← readFull 128; e ← dec_Gas;
  mret (MkDeferredTransfer a b c d e).

(** The gas limit is read twice, in two formats. *)
Definition dec_Operand : D Operand :=
  a ← dec_WorkPackageHash; b ← dec_ExportsRoot; c ← dec_OpaqueHash; d ← dec_OpaqueHash;
  _ ← dInteger; e ← dec_Gas; f ← dec_WorkExecResult; g ← dec_ByteSequence;
  mret (MkOperand a b c d e f g).

(** The pointers are nil: the methods called on them take the address of a
    field of nil. *)
Definition dec_OperandOrDeferredTransfer : D OperandOrDeferredTransfer :=
  firstByte ← ReadPointerFlag;
  if firstByte =? 0 then dcrash
  else if firstByte =? 1 then dcrash
  else mret (MkOperandOrDeferredTransfer None None).

Definition dec_BoundaryNode : D BoundaryNode :=
  a ← dec_StateKey; b ← readFull 32; c ← dPointer dec_StateKey; d ← ReadByte;
  mret (MkBoundaryNode a b c (negb (d =? 0))).

Definition dec_StateKeyVal : D StateKeyVal := a ← dec_StateKey; b ← dec_ByteSequence; mret (MkKV a b).

Definition dec_StateKeyVals : D (list StateKeyVal) := dSequence dec_StateKeyVal.

Definition dec_AccumulatedServiceHash : D AccumulatedServiceHash :=
  a ← dec_ServiceID; b ← dec_OpaqueHash; mret (MkAccumulatedServiceHash a b).

(** The set of the decoded keys, as the list without repetitions. *)
Definition dec_AccumulatedServiceOutput : D (list AccumulatedServiceHash) :=
  n ← dLength; if n =? 0 then mret [] else
    xs ← times (Z.to_nat n) dec_AccumulatedServiceHash; mret (remove_dups xs).

Definition dec_LastAccOut : D (list AccumulatedServiceHash) := dSequence dec_AccumulatedServiceHash.

Definition dec_AncestryItem : D AncestryItem := a ← dec_TimeSlot; b ← dec_HeaderHash; mret (MkAncestryItem a b).

Definition dec_Ancestry : D (list AncestryItem) :=
  n ← dLength; if MaxLookupAge cs <? n then dfail else makeSlice n dec_AncestryItem.

Definition dec_ProtocolParameters : D ProtocolParameters :=
  bI ← dec_U64; bL ← dec_U64; bS ← dec_U64; c ← dec_U16; d ← dec_U32; e ← dec_U32; gA ← dec_U64; gI ← dec_U64;
  gR ← dec_U64; gT ← dec_U64; h ← dec_U16; i ← dec_U16; j ← dec_U16; k ← dec_U16; l ← dec_U32; n ← dec_U16;
  o ← dec_U16; p ← dec_U16; q ← dec_U16; r ← dec_U16; t ← dec_U16; u ← dec_U16; v ← dec_U16; wA ← dec_U32;
  wB ← dec_U32; wC ← dec_U32; wE ← dec_U32; wM ← dec_U32; wP ← dec_U32; wR ← dec_U32; wT ← dec_U32; wX ← dec_U32;
  y ← dec_U32;
  mret (MkProtocolParameters bI bL bS c d e gA gI gR gT h i j k l n o p q r t u v wA wB wC wE wM wP wR wT wX y).

End Decode.
