(* ===== verification/Roundtrip.v ===== *)
(** * Encoding and decoding: the rules

    [codes m g y]: the writer [m] succeeds, and the decoder [g] reads the
    value [y] back from what it wrote, leaving exactly the bytes after it.
    One rule per construct of Encode.v and Decoders.v; the hints of the
    database [codec] apply them. *)

From stdpp Require Import sorting.
From S2P Require Import Prelude Words Types Config Codec DecodeSpec CodecSpec Encode Decoders.
Local Open Scope Z_scope.

Definition bytes_ok (b : Bytes) : Prop := Forall is_byte b.

Definition codes {A} (m : W) (g : D A) (y : A) : Prop :=
  exists bs, m = Ret (Some bs) /\ bytes_ok bs /\
    forall rest, bytes_ok rest -> g (bs ++ rest) = Ret (Some (y, rest)).

(** Well-formed data: an array of [n] bytes, an unsigned integer of [n] bits. *)
Definition arr (n : nat) (b : Bytes) : Prop := length b = n /\ bytes_ok b.
Definition uint (n : Z) (v : Z) : Prop := 0 <= v < 2 ^ n.

#[export] Instance arr_dec n b : Decision (arr n b).
Proof. unfold arr, bytes_ok. apply _. Defined.
#[export] Instance uint_dec n v : Decision (uint n v).
Proof. unfold uint. apply _. Defined.

Lemma uint_64 n v : n <= 64 -> uint n v -> 0 <= v < 2 ^ 64.
Proof.
  unfold uint. intros Hn [H0 H1]. split; [done|]. eapply Z.lt_le_trans; [exact H1|].
  apply Z.pow_le_mono_r; lia.
Qed.

(** A list of a fixed length. *)
Definition sized {A} (n : Z) (P : A -> Prop) (l : list A) : Prop := lenOf l = n /\ Forall P l.
#[export] Instance sized_dec {A} n (P : A -> Prop) `{!∀ x, Decision (P x)} l : Decision (sized n P l).
Proof. unfold sized. apply _. Defined.
#[export] Instance opt_dec {A} (P : A -> Prop) `{!∀ x, Decision (P x)} p : Decision (from_option P True p).
Proof. destruct p; apply _. Defined.

(** ** Sequencing *)

Lemma codes_ret {A} (y : A) : codes (cat []) (mret y) y.
Proof. exists []. split_and!; [done|apply Forall_nil_2|done]. Qed.

Lemma codes_bind {A B} (m : W) (g : D A) x (ms : list W) (k : A -> D B) y :
  codes m g x -> codes (cat ms) (k x) y -> codes (cat (m :: ms)) (g ≫= k) y.
Proof.
  intros (b1 & E1 & H1 & D1) (b2 & E2 & H2 & D2). exists (b1 ++ b2). split_and!.
  - cbn [cat foldr]. fold (cat ms). by rewrite E1, E2.
  - by apply Forall_app.
  - intros rest Hr. rewrite <- app_assoc. unfold mbind, D_bind.
    rewrite D1 by (by apply Forall_app). by apply D2.
Qed.

Lemma codes_to_cat {A} (m : W) (g : D A) y : codes m g y -> codes (cat [m]) g y.
Proof. intros (bs & E & H & Hd). exists bs. cbn [cat foldr]. rewrite E. cbn. by rewrite app_nil_r. Qed.

Lemma codes_of_cat {A} (m : W) (g : D A) y : codes (cat [m]) g y -> codes m g y.
Proof.
  intros (bs & E & H & Hd). exists bs. destruct m as [ [b|] |]; try done.
  cbn in E. rewrite app_nil_r in E. done.
Qed.

(** The last writer of a list, and a decoder that goes on with the value. *)
Lemma codes_map1 {A B} (m : W) (g : D A) x (h : A -> B) :
  codes m g x -> codes m (v ← g; mret (h v)) (h x).
Proof. intros Hc. apply codes_of_cat. eapply codes_bind; [exact Hc|apply codes_ret]. Qed.

(** ** Primitives *)

Lemma codes_full n b : arr n b -> codes (put b) (readFull n) b.
Proof.
  intros [Hl Hb]. exists b. split_and!; [done|done|]. intros rest _. unfold readFull.
  rewrite length_app. destruct (Nat.ltb_spec (length b + length rest) n); [lia|].
  by rewrite take_app_length', drop_app_length' by done.
Qed.

Lemma codes_LE n k v : k = Z.of_nat n -> uint (8 * Z.of_nat n) v ->
  codes (put (EncodeUintWithLength v k)) (readLE n) v.
Proof.
  intros -> Hv. assert (EncodeUintWithLength v (Z.of_nat n) = le_bytes (Z.of_nat n) v) as ->.
  { unfold EncodeUintWithLength. destruct (Z.eqb_spec (Z.of_nat n) 0) as [->|]; [done|].
    by rewrite leLoop_le_bytes, Nat2Z.id. }
  assert (arr n (le_bytes (Z.of_nat n) v)) as Ha.
  { split.
    - apply Nat2Z.inj. unfold le_bytes. rewrite length_Z_to_little_endian by lia. lia.
    - apply Forall_forall. intros x Hx.
      exact (proj1 (Forall_forall _ _) (Z_to_little_endian_bound (Z.of_nat n) 8 v ltac:(lia) ltac:(lia)) x Hx). }
  destruct (codes_full _ _ Ha) as (bs & E & Hb & Hd). injection E as <-.
  exists (le_bytes (Z.of_nat n) v). split_and!; [done|done|]. intros rest Hr. unfold readLE, mbind, D_bind.
  rewrite Hd by done. cbn. rewrite le_val_bytes by lia. unfold uint in Hv. by rewrite Z.mod_small.
Qed.

Lemma nat_encode_bytes v : 0 <= v < 2 ^ 64 -> bytes_ok (nat_encode v).
Proof.
  intros Hv. destruct (nat_encode_dec v Hv) as (p & d & -> & Hp & Hd & _). by constructor.
Qed.

Lemma codes_length v : 0 <= v < 2 ^ 64 -> codes (wLength v) dLength v.
Proof.
  intros Hv. exists (EncodeUint v). rewrite EncodeUint_ok by done.
  split_and!; [unfold wLength; by rewrite EncodeUint_ok|by apply nat_encode_bytes|].
  intros rest Hr. unfold dLength, DecodeLength. by rewrite reader_encode.
Qed.

Lemma codes_integer v : 0 <= v < 2 ^ 64 -> codes (wInteger v) dInteger v.
Proof. exact (codes_length v). Qed.

Lemma codes_bool {A} (b : bool) ms (k : Z -> D A) y :
  codes (cat ms) (k (if b then 1 else 0)) y -> codes (cat (wBool b :: ms)) (ReadByte ≫= k) y.
Proof.
  intros (bs & E & H & Hd). exists ((if b then 1 else 0) :: bs). split_and!.
  - cbn [cat foldr]. fold (cat ms). rewrite E. by destruct b.
  - constructor; [unfold is_byte; destruct b; lia|done].
  - intros rest Hr. destruct b; by apply Hd.
Qed.

Lemma codes_flag {A} (c : Z) (g : D A) y ms (k : Z -> D A) :
  is_byte c -> k c = g -> codes (cat ms) g y -> codes (cat (wByte c :: ms)) (v ← ReadByte; k v) y.
Proof.
  intros Hc <- (bs & E & H & Hd). exists (c :: bs). split_and!.
  - cbn [cat foldr]. fold (cat ms). by rewrite E.
  - by constructor.
  - intros rest Hr. by apply Hd.
Qed.

Lemma codes_pointer {A} (f : A -> W) (g : D A) p :
  (forall x, p = Some x -> codes (f x) g x) -> codes (wPointer f p) (dPointer g) p.
Proof.
  intros Hp. destruct p as [x|]; cbn [wPointer]; unfold dPointer, ReadPointerFlag.
  - eapply codes_flag; [unfold is_byte; lia|reflexivity|]. cbn [Z.eqb].
    eapply codes_bind; [by apply Hp|apply codes_ret].
  - apply codes_of_cat. eapply codes_flag; [unfold is_byte; lia|reflexivity|]. apply codes_ret.
Qed.

(** ** Lists *)

Lemma codes_times {A} (f : A -> W) (g : D A) l :
  Forall (fun x => codes (f x) g x) l -> codes (each f l) (times (length l) g) l.
Proof.
  induction 1 as [|x l Hx Hl IH]; [apply codes_ret|]. unfold each. cbn [fmap list_fmap length times].
  eapply codes_bind; [exact Hx|]. by apply codes_map1 with (h := cons x).
Qed.

Lemma codes_sized {A} (f : A -> W) (g : D A) P n l :
  sized n P l -> (forall x, P x -> codes (f x) g x) -> codes (each f l) (times (Z.to_nat n) g) l.
Proof.
  intros [<- HP] Hc. unfold lenOf. rewrite Nat2Z.id. apply codes_times. by eapply Forall_impl.
Qed.

Lemma codes_sized_guarded {A} (f : A -> W) (g : D A) P n l :
  sized n P l -> (forall x, P x -> codes (f x) g x) ->
  codes (if negb (lenOf l =? n) then fail else each f l) (times (Z.to_nat n) g) l.
Proof. intros Hl Hc. rewrite (proj2 (Z.eqb_eq _ _) (proj1 Hl)). by eapply codes_sized. Qed.

Lemma codes_opt {A} (f : A -> W) (g : D A) (P : A -> Prop) p :
  from_option P True p -> (forall x, P x -> codes (f x) g x) -> codes (wPointer f p) (dPointer g) p.
Proof. intros Hp Hc. apply codes_pointer. intros x ->. by apply Hc. Qed.

Lemma codes_eq {A} (m : W) (g : D A) y y' : codes m g y' -> y' = y -> codes m g y.
Proof. by intros Hc <-. Qed.

Section Slices.
Context (makeOK : Z -> bool).

(** A slice the run time can make. *)
Definition fits {A} (l : list A) : Prop := lenOf l < 2 ^ 64 /\ (l <> [] -> makeOK (lenOf l) = true).

Definition blob (b : Bytes) : Prop := bytes_ok b /\ fits b.

#[export] Instance fits_dec {A} (l : list A) : Decision (fits l).
Proof. unfold fits. apply _. Defined.
#[export] Instance blob_dec b : Decision (blob b).
Proof. unfold blob, bytes_ok. apply _. Defined.

Lemma codes_fixed {A} n (f : A -> W) (g : D A) l :
  lenOf l = n -> makeOK n = true -> Forall (fun x => codes (f x) g x) l ->
  codes (each f l) (dFixed makeOK n g) l.
Proof.
  intros <- Hn Hl. unfold dFixed, makeSlice. rewrite Hn. unfold lenOf. rewrite Nat2Z.id. by apply codes_times.
Qed.

Lemma codes_guarded {A} n (f : A -> W) (g : D A) l :
  lenOf l = n -> makeOK n = true -> Forall (fun x => codes (f x) g x) l ->
  codes (if negb (lenOf l =? n) then fail else each f l) (dFixed makeOK n g) l.
Proof. intros Hl. rewrite (proj2 (Z.eqb_eq _ _) Hl). by apply codes_fixed. Qed.

Lemma codes_seq {A} (f : A -> W) (g : D A) l :
  fits l -> Forall (fun x => codes (f x) g x) l -> codes (sequence f l) (dSequence makeOK g) l.
Proof.
  intros [Hl Hm] Hf. unfold sequence, dSequence. unfold lenOf in *.
  eapply codes_bind; [apply codes_length; lia|].
  destruct (Z.eqb_spec (Z.of_nat (length l)) 0) as [E|].
  - destruct l; [|cbn in E; lia]. apply codes_to_cat. apply codes_ret.
  - apply codes_to_cat. apply codes_fixed; [done|apply Hm; by intros ->|done].
Qed.

(** The length and the elements written separately. *)
Lemma codes_seq_split {A B} (f : A -> W) (g : D A) l ms (k : list A -> D B) y :
  codes (sequence f l) (dSequence makeOK g) l -> codes (cat ms) (k l) y ->
  codes (cat (wLength (lenOf l) :: each f l :: ms)) (dSequence makeOK g ≫= k) y.
Proof.
  intros Hs Hk. pose proof (codes_bind _ _ _ _ _ _ Hs Hk) as (bs & E & H & Hd). exists bs.
  split_and!; [|done|done]. rewrite <- E. unfold sequence. cbn [cat foldr]. fold (cat ms).
  destruct (wLength (lenOf l)) as [ [b1|] |], (each f l) as [ [b2|] |], (cat ms) as [ [b3|] |]; cbn; try done.
  by rewrite app_nil_r, app_assoc.
Qed.

Lemma codes_blob b : blob b -> codes (enc_ByteSequence b) (dec_ByteSequence makeOK) b.
Proof.
  intros [Hb [Hl Hm] ]. unfold enc_ByteSequence, dec_ByteSequence, lenOf in *.
  eapply codes_bind; [apply codes_length; lia|].
  destruct (Z.eqb_spec (Z.of_nat (length b)) 0) as [E|Hne].
  - destruct b; [|cbn in E; lia]. apply codes_to_cat. apply codes_ret.
  - apply codes_to_cat. exists b. split_and!; [done|done|]. intros rest Hr.
    unfold makeRead. rewrite Hm, Nat2Z.id by (by intros ->). unfold bufRead. rewrite take_app_length, drop_app_length, length_app.
    destruct (b ++ rest) eqn:Eb; [destruct b; [cbn in Hne; lia|done]|].
    replace (length b - (length b + length rest))%nat with 0%nat by lia. cbn [replicate]. by rewrite app_nil_r.
Qed.

(** ** Maps *)

Lemma foldl_insert {K V} `{Countable K} (es : list (K * V)) (m m0 : gmap K V) :
  es ≡ₚ map_to_list m -> m0 ##ₘ m -> foldl (fun m p => <[fst p := snd p]> m) m0 es = m ∪ m0.
Proof.
  revert m m0. induction es as [|[k v] es IH]; intros m m0 Hp Hd; cbn [foldl fst snd].
  { apply Permutation_nil_l in Hp. symmetry in Hp. apply map_to_list_empty_iff in Hp as ->.
    by rewrite map_empty_union. }
  assert (m !! k = Some v) as Hk by (apply elem_of_map_to_list; rewrite <- Hp; apply list_elem_of_here).
  assert (es ≡ₚ map_to_list (delete k m)) as Hp'.
  { rewrite <- (insert_delete_id m k v Hk), map_to_list_insert in Hp by apply lookup_delete_eq.
    by apply Permutation_cons_inv in Hp. }
  rewrite (IH (delete k m) _ Hp').
  - apply map_eq. intros i. rewrite !lookup_union. destruct (decide (i = k)) as [->|Hne].
    + rewrite lookup_delete_eq, lookup_insert_eq, Hk. cbn. by destruct (m0 !! k).
    + by rewrite lookup_delete_ne, lookup_insert_ne by done.
  - apply map_disjoint_insert_l_2; [apply lookup_delete_eq|]. by apply map_disjoint_delete_r.
Qed.

Lemma sortedEntries_perm {K V} `{Countable K} le `{!RelDecision le} (m : gmap K V) :
  sortedEntries le m ≡ₚ map_to_list m.
Proof. apply merge_sort_Permutation. Qed.

Lemma codes_entries {K V} `{Countable K} le `{!RelDecision le} (f : K -> W) (df : D K) (g : V -> W) (dg : D V) (m : gmap K V) :
  map_Forall (fun k v => codes (f k) df k /\ codes (g v) dg v) m ->
  codes (each (fun p => cat [f (fst p); g (snd p)]) (sortedEntries le m))
    (dEntries (Z.of_nat (size m)) df dg) m.
Proof.
  intros Hm. unfold dEntries. rewrite Nat2Z.id.
  pose proof (sortedEntries_perm le m) as Hp. set (es := sortedEntries le m) in *.
  assert (foldl (fun m p => <[fst p := snd p]> m) ∅ es = m) as Hf.
  { rewrite (foldl_insert es m ∅ Hp); [apply map_union_empty|apply map_disjoint_empty_l]. }
  rewrite <- Hf at 2. apply codes_map1 with (h := foldl (fun m p => <[fst p := snd p]> m) ∅).
  assert (size m = length es) as -> by (rewrite Hp; by rewrite length_map_to_list).
  apply codes_times. rewrite Hp. apply Forall_forall. intros [k v] Hkv%elem_of_map_to_list.
  destruct (Hm k v Hkv) as [Hk Hv]. cbn [fst snd]. eapply codes_bind; [exact Hk|].
  eapply codes_bind; [exact Hv|]. apply codes_ret.
Qed.

Lemma codes_map {K V} `{Countable K} le `{!RelDecision le} (f : K -> W) (df : D K) (g : V -> W) (dg : D V) (m : gmap K V) :
  Z.of_nat (size m) < 2 ^ 64 -> map_Forall (fun k v => codes (f k) df k /\ codes (g v) dg v) m ->
  codes (wMap le f g m) (dMap df dg) m.
Proof.
  intros Hs Hm. unfold wMap, dMap. eapply codes_bind; [apply codes_length; lia|].
  apply codes_to_cat. destruct (Z.eqb_spec (Z.of_nat (size m)) 0) as [E|].
  - assert (m = ∅) as -> by (apply map_size_empty_inv; lia). apply codes_ret.
  - by apply codes_entries.
Qed.


Lemma codes_list {A} (f : A -> W) (g : D A) l :
  makeOK 0 = true -> fits l -> Forall (fun x => codes (f x) g x) l -> codes (sequence f l) (dList makeOK g) l.
Proof.
  intros H0 [Hl Hm] Hf. unfold sequence, dList. unfold lenOf in *.
  eapply codes_bind; [apply codes_length; lia|]. apply codes_to_cat. apply codes_fixed; [done| |done].
  destruct l; [done|]. by apply Hm.
Qed.

(** ** Well-formed lists *)

Definition slice {A} (P : A -> Prop) (l : list A) : Prop := fits l /\ Forall P l.
Definition exactly {A} (n : Z) (P : A -> Prop) (l : list A) : Prop :=
  lenOf l = n /\ makeOK n = true /\ Forall P l.

#[export] Instance slice_dec {A} (P : A -> Prop) `{!∀ x, Decision (P x)} l : Decision (slice P l).
Proof. unfold slice. apply _. Defined.
#[export] Instance exactly_dec {A} n (P : A -> Prop) `{!∀ x, Decision (P x)} l : Decision (exactly n P l).
Proof. unfold exactly. apply _. Defined.

Lemma codes_slice {A} (f : A -> W) (g : D A) P l :
  slice P l -> (forall x, P x -> codes (f x) g x) -> codes (sequence f l) (dSequence makeOK g) l.
Proof. intros [Hf Hl] Hc. apply codes_seq; [done|]. by eapply Forall_impl. Qed.

Lemma codes_slice_list {A} (f : A -> W) (g : D A) P l :
  slice P l -> makeOK 0 = true -> (forall x, P x -> codes (f x) g x) -> codes (sequence f l) (dList makeOK g) l.
Proof. intros [Hf Hl] H0 Hc. apply codes_list; [done..|]. by eapply Forall_impl. Qed.

Lemma codes_exactly {A} (f : A -> W) (g : D A) P n l :
  exactly n P l -> (forall x, P x -> codes (f x) g x) -> codes (each f l) (dFixed makeOK n g) l.
Proof. intros (Hl & Hn & HP) Hc. apply codes_fixed; [done..|]. by eapply Forall_impl. Qed.

Lemma codes_exactly_guarded {A} (f : A -> W) (g : D A) P n l :
  exactly n P l -> (forall x, P x -> codes (f x) g x) ->
  codes (if negb (lenOf l =? n) then fail else each f l) (dFixed makeOK n g) l.
Proof. intros (Hl & Hn & HP) Hc. apply codes_guarded; [done..|]. by eapply Forall_impl. Qed.

Lemma codes_slice_split {A B} (f : A -> W) (g : D A) P l ms (k : list A -> D B) y :
  slice P l -> (forall x, P x -> codes (f x) g x) -> codes (cat ms) (k l) y ->
  codes (cat (wLength (lenOf l) :: each f l :: ms)) (dSequence makeOK g ≫= k) y.
Proof. intros Hl Hc Hk. eapply codes_seq_split; [by eapply codes_slice|done]. Qed.

(** ** What decoders return

    [makes g P]: whatever [g] reads from a byte string satisfies [P], and
    the only run-time panic is an allocation the run time refuses. *)
Definition makes {A} (g : D A) (P : A -> Prop) : Prop :=
  forall buf, bytes_ok buf ->
    match g buf with
    | Ret (Some (y, rest)) => P y /\ bytes_ok rest
    | Ret None => True
    | Crash => exists n, 0 <= n < 2 ^ 64 /\ makeOK n = false
    end.

Lemma makes_ret {A} (y : A) (P : A -> Prop) : P y -> makes (mret y) P.
Proof. by intros Hy buf Hb. Qed.

Lemma makes_fail {A} (P : A -> Prop) : makes dfail P.
Proof. by intros buf Hb. Qed.

Lemma makes_bind {A B} (g : D A) (k : A -> D B) Q P :
  makes g Q -> (forall x, Q x -> makes (k x) P) -> makes (g ≫= k) P.
Proof.
  intros Hg Hk buf Hb. unfold mbind, D_bind. specialize (Hg buf Hb).
  destruct (g buf) as [ [ [x rest] |] |]; [|exact Hg..]. destruct Hg. by apply Hk.
Qed.

Lemma makes_weaken {A} (g : D A) (P Q : A -> Prop) : makes g P -> (forall x, P x -> Q x) -> makes g Q.
Proof.
  intros Hg HPQ buf Hb. specialize (Hg buf Hb). destruct (g buf) as [ [ [x rest] |] |]; [|done..].
  split; [apply HPQ|]; apply Hg.
Qed.

Lemma makes_full n : makes (readFull n) (arr n).
Proof.
  intros buf Hb. unfold readFull. destruct (Nat.ltb_spec (length buf) n); [done|].
  split; [split; [rewrite length_take; lia|by apply Forall_take]|by apply Forall_drop].
Qed.

Lemma makes_LE n k : k = 8 * Z.of_nat n -> makes (readLE n) (uint k).
Proof.
  intros ->. unfold readLE. eapply makes_bind; [apply makes_full|]. intros b [<- Hb].
  apply makes_ret. unfold uint. by apply le_val_range.
Qed.

Lemma makes_byte : makes ReadByte is_byte.
Proof. intros [|b buf] Hb; [done|]. by apply Forall_cons in Hb. Qed.

Lemma makes_length : makes dLength (uint 64).
Proof.
  intros buf Hb. unfold dLength, DecodeLength. pose proof (reader_cases buf Hb) as Hc.
  destruct (decodeUintFromReader buf) as [ [ [x|] rest] |]; [|done..].
  destruct Hc as (Hx & used & -> & _). split; [done|]. by apply Forall_app in Hb as [_ ?].
Qed.

Lemma makes_integer : makes dInteger (uint 64).
Proof. exact makes_length. Qed.

Lemma makes_pointer {A} (g : D A) P : makes g P -> makes (dPointer g) (from_option P True).
Proof.
  intros Hg. unfold dPointer, ReadPointerFlag. eapply makes_bind; [apply makes_byte|]. intros x _.
  destruct (x =? 0); [by apply makes_ret|]. eapply makes_bind; [exact Hg|]. intros y Hy. by apply makes_ret.
Qed.

Lemma makes_times {A} (g : D A) P n :
  makes g P -> makes (times n g) (fun l => length l = n /\ Forall P l).
Proof.
  intros Hg. induction n as [|n IH]; [by apply makes_ret|]. cbn [times].
  eapply makes_bind; [exact Hg|]. intros x Hx. eapply makes_bind; [exact IH|]. intros l [<- Hl].
  apply makes_ret. split; [done|]. by constructor.
Qed.

Lemma makes_exactly {A} (g : D A) P n :
  0 <= n < 2 ^ 64 -> makes g P -> makes (dFixed makeOK n g) (exactly n P).
Proof.
  intros Hn Hg. unfold dFixed, makeSlice. destruct (makeOK n) eqn:Hm.
  - eapply makes_weaken; [by apply makes_times|]. intros l [Hl HP]. unfold exactly, lenOf.
    split_and!; [lia|done..].
  - intros buf _. by exists n.
Qed.

Lemma exactly_slice {A} P n (l : list A) : 0 <= n < 2 ^ 64 -> exactly n P l -> slice P l.
Proof. intros Hn (<- & Hm & HP). split; [|done]. split; [lia|done]. Qed.

Lemma makes_slice {A} (g : D A) P : makes g P -> makes (dSequence makeOK g) (slice P).
Proof.
  intros Hg. unfold dSequence. eapply makes_bind; [apply makes_length|]. intros n Hn.
  destruct (n =? 0).
  - apply makes_ret. split; [|constructor]. split; [unfold lenOf; cbn; lia|done].
  - eapply makes_weaken; [by apply makes_exactly|]. intros l. by apply exactly_slice.
Qed.

Lemma makes_slice_list {A} (g : D A) P : makes g P -> makes (dList makeOK g) (slice P).
Proof.
  intros Hg. unfold dList. eapply makes_bind; [apply makes_length|]. intros n Hn.
  eapply makes_weaken; [by apply makes_exactly|]. intros l. by apply exactly_slice.
Qed.

Lemma makes_read n : 0 <= n < 2 ^ 64 ->
  makes (makeRead makeOK n) (fun b => lenOf b = n /\ bytes_ok b /\ makeOK n = true).
Proof.
  intros Hn buf Hb. unfold makeRead. destruct (makeOK n) eqn:Hm; [|by exists n].
  unfold bufRead. destruct buf as [|x buf]; [done|]. set (b := x :: buf) in *. split; [|by apply Forall_drop].
  split_and!; [unfold lenOf; rewrite length_app, length_take, length_replicate; lia| |done].
  apply Forall_app. split; [by apply Forall_take|]. apply Forall_replicate. unfold is_byte. lia.
Qed.

Lemma makes_blob : makes (dec_ByteSequence makeOK) blob.
Proof.
  unfold dec_ByteSequence. eapply makes_bind; [apply makes_length|]. intros n Hn. destruct (n =? 0).
  - apply makes_ret. split; [constructor|]. split; [unfold lenOf; cbn; lia|done].
  - eapply makes_weaken; [by apply makes_read|]. intros b (<- & Hb & Hm). split; [done|]. split; [|done].
    unfold uint in Hn. lia.
Qed.

Lemma makes_entries {K V} `{Countable K} (f : D K) (g : D V) P Q n : 0 <= n < 2 ^ 64 ->
  makes f P -> makes g Q ->
  makes (dEntries n f g) (fun m => Z.of_nat (size m) < 2 ^ 64 /\ map_Forall (fun k v => P k /\ Q v) m).
Proof.
  intros Hn Hf Hg. unfold dEntries.
  eapply makes_bind; [apply (makes_times _ (fun p => P (fst p) /\ Q (snd p)))|].
  - eapply makes_bind; [exact Hf|]. intros k Hk. eapply makes_bind; [exact Hg|]. intros v Hv. by apply makes_ret.
  - intros es [Hl Hes]. apply makes_ret.
    assert (forall m0 : gmap K V, map_Forall (fun k v => P k /\ Q v) m0 ->
      (size (foldl (fun m p => <[fst p := snd p]> m) m0 es) <= size m0 + length es)%nat /\
      map_Forall (fun k v => P k /\ Q v) (foldl (fun m p => <[fst p := snd p]> m) m0 es)) as Hm.
    { clear Hl. induction Hes as [|[k v] es Hp Hes IH]; intros m0 H0; cbn [foldl length fst snd]; [split; [lia|done] |].
      destruct (IH (<[k := v]> m0)) as [Hs Hfa]; [by apply map_Forall_insert_2|]. split; [|done].
      rewrite map_size_insert in Hs. destruct (m0 !! k); cbn in Hs; lia. }
    destruct (Hm ∅) as [Hs Hfa]; [apply map_Forall_empty|]. rewrite map_size_empty in Hs. split; [lia|done].
Qed.

Definition dict {K V} `{Countable K} (P : K -> Prop) (Q : V -> Prop) (m : gmap K V) : Prop :=
  Z.of_nat (size m) < 2 ^ 64 /\ map_Forall (fun k v => P k /\ Q v) m.

#[export] Instance dict_dec {K V} `{Countable K} (P : K -> Prop) (Q : V -> Prop) `{!∀ k, Decision (P k), !∀ v, Decision (Q v)}
  (m : gmap K V) : Decision (dict P Q m).
Proof. unfold dict. apply _. Defined.

Lemma makes_dict {K V} `{Countable K} (f : D K) (g : D V) P Q :
  makes f P -> makes g Q -> makes (dMap f g) (dict P Q).
Proof.
  intros Hf Hg. unfold dMap. eapply makes_bind; [apply makes_length|]. intros n Hn.
  destruct (n =? 0); [|by apply makes_entries]. apply makes_ret. split; [by rewrite map_size_empty|].
  apply map_Forall_empty.
Qed.

Lemma codes_dict {K V} `{Countable K} le `{!RelDecision le} (f : K -> W) (df : D K) (g : V -> W) (dg : D V) P Q
    (m : gmap K V) :
  dict P Q m -> (forall k, P k -> codes (f k) df k) -> (forall v, Q v -> codes (g v) dg v) ->
  codes (wMap le f g m) (dMap df dg) m.
Proof. intros [Hs Hm] Hf Hg. apply codes_map; [done|]. intros k v Hkv. destruct (Hm k v Hkv). auto. Qed.

End Slices.
