(* ===== verification/ProtocolWf.v ===== *)
(** * Well-formed protocol data

    The values of the Go types as the model represents them: the sizes of
    arrays, the ranges of unsigned integers, the lengths the chain
    parameters fix, slices the run time can make.  [ok_T] is the predicate
    of the type [T].  Both directions of the codec use it: what an encoder
    writes is read back for such a value (ProtocolSpec.v), and a decoder
    returns such a value. *)

From S2P Require Import Prelude Words Types Config Encode Decoders Roundtrip.
Local Open Scope Z_scope.

Section Wf.
Context (makeOK : Z -> bool) (cs : ChainSpec).

(** The chain parameters are lengths, and a bit field holds a bit per core. *)
Record codec_spec : Prop := {
  csp_validators : 0 <= ValidatorsCount cs < 2 ^ 64;
  csp_cores : 0 <= CoresCount cs < 2 ^ 64;
  csp_epoch : 0 <= EpochLength cs < 2 ^ 64;
  csp_majority : 0 <= ValidatorsSuperMajority cs < 2 ^ 64;
  csp_bitfield : 0 < AvailBitfieldBytes cs < 2 ^ 64;
  csp_bits : CoresCount cs <= 8 * AvailBitfieldBytes cs
}.

Abbreviation hash := (arr 32).
Abbreviation u8_ok := (uint 8).
Abbreviation u16_ok := (uint 16).
Abbreviation u32_ok := (uint 32).
Abbreviation u64_ok := (uint 64).
Abbreviation opt P := (from_option P True).
Abbreviation slice := (Roundtrip.slice makeOK).
Abbreviation exactly := (Roundtrip.exactly makeOK).
Abbreviation blob := (Roundtrip.blob makeOK).

(** ** Headers *)

Definition ok_EpochMarkValidatorKeys (k : EpochMarkValidatorKeys) : Prop :=
  hash (ek_Bandersnatch k) /\ hash (ek_Ed25519 k).
#[export] Instance ok_EpochMarkValidatorKeys_dec (k : EpochMarkValidatorKeys) : Decision (ok_EpochMarkValidatorKeys k).
Proof. unfold ok_EpochMarkValidatorKeys. apply _. Defined.

Definition ok_EpochMark (em : EpochMark) : Prop :=
  hash (em_Entropy em) /\ hash (em_TicketsEntropy em) /\
  exactly (ValidatorsCount cs) ok_EpochMarkValidatorKeys (em_Validators em).
#[export] Instance ok_EpochMark_dec (em : EpochMark) : Decision (ok_EpochMark em).
Proof. unfold ok_EpochMark. apply _. Defined.

Definition ok_TicketBody (tb : TicketBody) : Prop := hash (tb_ID tb) /\ u64_ok (tb_Attempt tb).
#[export] Instance ok_TicketBody_dec (tb : TicketBody) : Decision (ok_TicketBody tb).
Proof. unfold ok_TicketBody. apply _. Defined.

Definition ok_Header (h : Header) : Prop :=
  hash (h_Parent h) /\ hash (h_ParentStateRoot h) /\ hash (h_ExtrinsicHash h) /\ u32_ok (h_Slot h) /\
  opt ok_EpochMark (h_EpochMark h) /\ opt (exactly (EpochLength cs) ok_TicketBody) (h_TicketsMark h) /\
  u16_ok (h_AuthorIndex h) /\ arr 96 (h_EntropySource h) /\ slice hash (h_OffendersMark h) /\ arr 96 (h_Seal h).
#[export] Instance ok_Header_dec (h : Header) : Decision (ok_Header h).
Proof. unfold ok_Header. apply _. Defined.

(** ** Extrinsics *)

Definition ok_TicketEnvelope (t : TicketEnvelope) : Prop := u64_ok (te_Attempt t) /\ arr 784 (te_Signature t).
#[export] Instance ok_TicketEnvelope_dec (t : TicketEnvelope) : Decision (ok_TicketEnvelope t).
Proof. unfold ok_TicketEnvelope. apply _. Defined.

Definition ok_Preimage (p : Preimage) : Prop := u32_ok (p_Requester p) /\ blob (p_Blob p).
#[export] Instance ok_Preimage_dec (p : Preimage) : Decision (ok_Preimage p).
Proof. unfold ok_Preimage. apply _. Defined.

Definition ok_WorkPackageSpec (w : WorkPackageSpec) : Prop :=
  hash (ps_Hash w) /\ u32_ok (ps_Length w) /\ hash (ps_ErasureRoot w) /\ hash (ps_ExportsRoot w) /\
  u16_ok (ps_ExportsCount w).
#[export] Instance ok_WorkPackageSpec_dec (w : WorkPackageSpec) : Decision (ok_WorkPackageSpec w).
Proof. unfold ok_WorkPackageSpec. apply _. Defined.

Definition ok_RefineContext (r : RefineContext) : Prop :=
  hash (rc_Anchor r) /\ hash (rc_StateRoot r) /\ hash (rc_BeefyRoot r) /\ hash (rc_LookupAnchor r) /\
  u32_ok (rc_LookupAnchorSlot r) /\ slice hash (rc_Prerequisites r).
#[export] Instance ok_RefineContext_dec (r : RefineContext) : Decision (ok_RefineContext r).
Proof. unfold ok_RefineContext. apply _. Defined.

Definition ok_SegmentRootLookupItem (s : SegmentRootLookupItem) : Prop :=
  hash (sl_WorkPackageHash s) /\ hash (sl_SegmentTreeRoot s).
#[export] Instance ok_SegmentRootLookupItem_dec (s : SegmentRootLookupItem) : Decision (ok_SegmentRootLookupItem s).
Proof. unfold ok_SegmentRootLookupItem. apply _. Defined.

(** Only a successful result carries data. *)
Definition ok_WorkExecResult (w : WorkExecResult) : Prop :=
  match wer_Type w with WorkExecResultOk => blob (wer_Data w) | _ => wer_Data w = [] end.
#[export] Instance ok_WorkExecResult_dec (w : WorkExecResult) : Decision (ok_WorkExecResult w).
Proof. unfold ok_WorkExecResult. destruct (wer_Type w); apply _. Defined.

Definition ok_RefineLoad (r : RefineLoad) : Prop :=
  u64_ok (rl_GasUsed r) /\ u16_ok (rl_Imports r) /\ u16_ok (rl_ExtrinsicCount r) /\ u32_ok (rl_ExtrinsicSize r) /\
  u16_ok (rl_Exports r).
#[export] Instance ok_RefineLoad_dec (r : RefineLoad) : Decision (ok_RefineLoad r).
Proof. unfold ok_RefineLoad. apply _. Defined.

Definition ok_WorkResult (w : WorkResult) : Prop :=
  u32_ok (wr_ServiceID w) /\ hash (wr_CodeHash w) /\ hash (wr_PayloadHash w) /\ u64_ok (wr_AccumulateGas w) /\
  ok_WorkExecResult (wr_Result w) /\ ok_RefineLoad (wr_RefineLoad w).
#[export] Instance ok_WorkResult_dec (w : WorkResult) : Decision (ok_WorkResult w).
Proof. unfold ok_WorkResult. apply _. Defined.

Definition ok_WorkReport (w : WorkReport) : Prop :=
  ok_WorkPackageSpec (rp_PackageSpec w) /\ ok_RefineContext (rp_Context w) /\ u16_ok (rp_CoreIndex w) /\
  hash (rp_AuthorizerHash w) /\ u64_ok (rp_AuthGasUsed w) /\ blob (rp_AuthOutput w) /\
  slice ok_SegmentRootLookupItem (rp_SegmentRootLookup w) /\ slice ok_WorkResult (rp_Results w).
#[export] Instance ok_WorkReport_dec (w : WorkReport) : Decision (ok_WorkReport w).
Proof. unfold ok_WorkReport. apply _. Defined.

Definition ok_ValidatorSignature (v : ValidatorSignature) : Prop :=
  u16_ok (vs_ValidatorIndex v) /\ arr 64 (vs_Signature v).
#[export] Instance ok_ValidatorSignature_dec (v : ValidatorSignature) : Decision (ok_ValidatorSignature v).
Proof. unfold ok_ValidatorSignature. apply _. Defined.

Definition ok_ReportGuarantee (r : ReportGuarantee) : Prop :=
  ok_WorkReport (rg_Report r) /\ u32_ok (rg_Slot r) /\ slice ok_ValidatorSignature (rg_Signatures r).
#[export] Instance ok_ReportGuarantee_dec (r : ReportGuarantee) : Decision (ok_ReportGuarantee r).
Proof. unfold ok_ReportGuarantee. apply _. Defined.

(** A byte per core, 0 or 1. *)
Definition ok_Bitfield (bf : Bitfield) : Prop :=
  lenOf bf = CoresCount cs /\ makeOK (AvailBitfieldBytes cs) = true /\ Forall (fun b => b = 0 \/ b = 1) bf.
#[export] Instance ok_Bitfield_dec (bf : Bitfield) : Decision (ok_Bitfield bf).
Proof. unfold ok_Bitfield. apply _. Defined.

Definition ok_AvailAssurance (a : AvailAssurance) : Prop :=
  hash (av_Anchor a) /\ ok_Bitfield (av_Bitfield a) /\ u16_ok (av_ValidatorIndex a) /\ arr 64 (av_Signature a).
#[export] Instance ok_AvailAssurance_dec (a : AvailAssurance) : Decision (ok_AvailAssurance a).
Proof. unfold ok_AvailAssurance. apply _. Defined.

Definition ok_Judgement (j : Judgement) : Prop := u16_ok (j_Index j) /\ arr 64 (j_Signature j).
#[export] Instance ok_Judgement_dec (j : Judgement) : Decision (ok_Judgement j).
Proof. unfold ok_Judgement. apply _. Defined.

Definition ok_Verdict (v : Verdict) : Prop :=
  hash (vd_Target v) /\ u32_ok (vd_Age v) /\ exactly (ValidatorsSuperMajority cs) ok_Judgement (vd_Votes v).
#[export] Instance ok_Verdict_dec (v : Verdict) : Decision (ok_Verdict v).
Proof. unfold ok_Verdict. apply _. Defined.

Definition ok_Culprit (c : Culprit) : Prop := hash (cu_Target c) /\ hash (cu_Key c) /\ arr 64 (cu_Signature c).
#[export] Instance ok_Culprit_dec (c : Culprit) : Decision (ok_Culprit c).
Proof. unfold ok_Culprit. apply _. Defined.

Definition ok_Fault (f : Fault) : Prop := hash (f_Target f) /\ hash (f_Key f) /\ arr 64 (f_Signature f).
#[export] Instance ok_Fault_dec (f : Fault) : Decision (ok_Fault f).
Proof. unfold ok_Fault. apply _. Defined.

Definition ok_DisputesExtrinsic (d : DisputesExtrinsic) : Prop :=
  slice ok_Verdict (de_Verdicts d) /\ slice ok_Culprit (de_Culprits d) /\ slice ok_Fault (de_Faults d).
#[export] Instance ok_DisputesExtrinsic_dec (d : DisputesExtrinsic) : Decision (ok_DisputesExtrinsic d).
Proof. unfold ok_DisputesExtrinsic. apply _. Defined.

Definition ok_Extrinsic (e : Extrinsic) : Prop :=
  slice ok_TicketEnvelope (ex_Tickets e) /\ slice ok_Preimage (ex_Preimages e) /\
  slice ok_ReportGuarantee (ex_Guarantees e) /\ slice ok_AvailAssurance (ex_Assurances e) /\
  ok_DisputesExtrinsic (ex_Disputes e).
#[export] Instance ok_Extrinsic_dec (e : Extrinsic) : Decision (ok_Extrinsic e).
Proof. unfold ok_Extrinsic. apply _. Defined.

Definition ok_Block (b : Block) : Prop := ok_Header (b_Header b) /\ ok_Extrinsic (b_Extrinsic b).
#[export] Instance ok_Block_dec (b : Block) : Decision (ok_Block b).
Proof. unfold ok_Block. apply _. Defined.

(** ** Work packages *)

Definition ok_ImportSpec (i : ImportSpec) : Prop := hash (im_TreeRoot i) /\ u16_ok (im_Index i).
#[export] Instance ok_ImportSpec_dec (i : ImportSpec) : Decision (ok_ImportSpec i).
Proof. unfold ok_ImportSpec. apply _. Defined.

Definition ok_ExtrinsicSpec (e : ExtrinsicSpec) : Prop := hash (es_Hash e) /\ u32_ok (es_Len e).
#[export] Instance ok_ExtrinsicSpec_dec (e : ExtrinsicSpec) : Decision (ok_ExtrinsicSpec e).
Proof. unfold ok_ExtrinsicSpec. apply _. Defined.

Definition ok_WorkItem (w : WorkItem) : Prop :=
  u32_ok (wi_Service w) /\ hash (wi_CodeHash w) /\ u64_ok (wi_RefineGasLimit w) /\
  u64_ok (wi_AccumulateGasLimit w) /\ u16_ok (wi_ExportCount w) /\ blob (wi_Payload w) /\
  slice ok_ImportSpec (wi_ImportSegments w) /\ slice ok_ExtrinsicSpec (wi_Extrinsic w).
#[export] Instance ok_WorkItem_dec (w : WorkItem) : Decision (ok_WorkItem w).
Proof. unfold ok_WorkItem. apply _. Defined.

(** The decoder reads the extrinsics of an item that imports segments. *)
Definition imports (w : WorkItem) : Prop := wi_ImportSegments w <> [].
#[export] Instance imports_dec w : Decision (imports w).
Proof. unfold imports. apply _. Defined.

Definition ok_WorkPackage (P : WorkItem -> Prop) (w : WorkPackage) : Prop :=
  u32_ok (wp_AuthCodeHost w) /\ hash (wp_AuthCodeHash w) /\ ok_RefineContext (wp_Context w) /\
  blob (wp_Authorization w) /\ blob (wp_AuthorizerConfig w) /\ slice P (wp_Items w).
#[export] Instance ok_WorkPackage_dec (P : WorkItem -> Prop) `{!∀ i, Decision (P i)} (w : WorkPackage) : Decision (ok_WorkPackage P w).
Proof. unfold ok_WorkPackage. apply _. Defined.

Definition ok_WorkPackageBundle (P : WorkItem -> Prop) (b : WorkPackageBundle) : Prop :=
  ok_WorkPackage P (wb_Package b) /\ slice blob (wb_Extrinsics b) /\
  slice (slice (arr 4104)) (wb_ImportSegments b) /\ slice (slice hash) (wb_ImportProofs b).
#[export] Instance ok_WorkPackageBundle_dec (P : WorkItem -> Prop) `{!∀ i, Decision (P i)} (b : WorkPackageBundle) : Decision (ok_WorkPackageBundle P b).
Proof. unfold ok_WorkPackageBundle. apply _. Defined.

(** ** Statistics *)

Definition ok_ValidatorActivityRecord (a : ValidatorActivityRecord) : Prop :=
  u32_ok (va_Blocks a) /\ u32_ok (va_Tickets a) /\ u32_ok (va_PreImages a) /\ u32_ok (va_PreImagesSize a) /\
  u32_ok (va_Guarantees a) /\ u32_ok (va_Assurances a).
#[export] Instance ok_ValidatorActivityRecord_dec (a : ValidatorActivityRecord) : Decision (ok_ValidatorActivityRecord a).
Proof. unfold ok_ValidatorActivityRecord. apply _. Defined.

Definition ok_CoreActivityRecord (c : CoreActivityRecord) : Prop :=
  u32_ok (ca_DALoad c) /\ u16_ok (ca_Popularity c) /\ u16_ok (ca_Imports c) /\ u16_ok (ca_ExtrinsicCount c) /\
  u32_ok (ca_ExtrinsicSize c) /\ u16_ok (ca_Exports c) /\ u32_ok (ca_BundleSize c) /\ u64_ok (ca_GasUsed c).
#[export] Instance ok_CoreActivityRecord_dec (c : CoreActivityRecord) : Decision (ok_CoreActivityRecord c).
Proof. unfold ok_CoreActivityRecord. apply _. Defined.

Definition ok_ServiceActivityRecord (s : ServiceActivityRecord) : Prop :=
  u16_ok (sa_ProvidedCount s) /\ u32_ok (sa_ProvidedSize s) /\ u32_ok (sa_RefinementCount s) /\
  u64_ok (sa_RefinementGasUsed s) /\ u32_ok (sa_Imports s) /\ u32_ok (sa_ExtrinsicCount s) /\
  u32_ok (sa_ExtrinsicSize s) /\ u32_ok (sa_Exports s) /\ u32_ok (sa_AccumulateCount s) /\
  u64_ok (sa_AccumulateGasUsed s).
#[export] Instance ok_ServiceActivityRecord_dec (s : ServiceActivityRecord) : Decision (ok_ServiceActivityRecord s).
Proof. unfold ok_ServiceActivityRecord. apply _. Defined.

Definition ok_Statistics (s : Statistics) : Prop :=
  exactly (ValidatorsCount cs) ok_ValidatorActivityRecord (st_ValsCurr s) /\
  exactly (ValidatorsCount cs) ok_ValidatorActivityRecord (st_ValsLast s) /\
  exactly (CoresCount cs) ok_CoreActivityRecord (st_Cores s) /\
  dict u32_ok ok_ServiceActivityRecord (st_Services s).
#[export] Instance ok_Statistics_dec (s : Statistics) : Decision (ok_Statistics s).
Proof. unfold ok_Statistics. apply _. Defined.

(** ** State *)

Definition ok_Validator (v : Validator) : Prop :=
  hash (v_Bandersnatch v) /\ hash (v_Ed25519 v) /\ arr 144 (v_Bls v) /\ arr 128 (v_Metadata v).
#[export] Instance ok_Validator_dec (v : Validator) : Decision (ok_Validator v).
Proof. unfold ok_Validator. apply _. Defined.

Definition ok_ValidatorsData : list Validator -> Prop := exactly (ValidatorsCount cs) ok_Validator.
#[export] Instance ok_ValidatorsData_dec (v : list Validator) : Decision (ok_ValidatorsData v).
Proof. unfold ok_ValidatorsData. apply _. Defined.

(** Either tickets or keys. *)
Definition ok_TicketsOrKeys (t : TicketsOrKeys) : Prop :=
  match tk_Tickets t, tk_Keys t with
  | Some tickets, None => exactly (EpochLength cs) ok_TicketBody tickets
  | None, Some keys => exactly (EpochLength cs) hash keys
  | _, _ => False
  end.
#[export] Instance ok_TicketsOrKeys_dec (t : TicketsOrKeys) : Decision (ok_TicketsOrKeys t).
Proof. unfold ok_TicketsOrKeys. destruct (tk_Tickets t), (tk_Keys t); apply _. Defined.

Definition ok_SafroleState (g : SafroleState) : Prop :=
  ok_ValidatorsData (sf_GammaK g) /\ arr 144 (sf_GammaZ g) /\ ok_TicketsOrKeys (sf_GammaS g) /\
  slice ok_TicketBody (sf_GammaA g).
#[export] Instance ok_SafroleState_dec (g : SafroleState) : Decision (ok_SafroleState g).
Proof. unfold ok_SafroleState. apply _. Defined.

Definition ok_AvailabilityAssignment (a : AvailabilityAssignment) : Prop :=
  ok_WorkReport (aa_Report a) /\ u32_ok (aa_AssignedSlot a).
#[export] Instance ok_AvailabilityAssignment_dec (a : AvailabilityAssignment) : Decision (ok_AvailabilityAssignment a).
Proof. unfold ok_AvailabilityAssignment. apply _. Defined.

Definition ok_ReportedWorkPackage (r : ReportedWorkPackage) : Prop := hash (rw_Hash r) /\ hash (rw_ExportsRoot r).
#[export] Instance ok_ReportedWorkPackage_dec (r : ReportedWorkPackage) : Decision (ok_ReportedWorkPackage r).
Proof. unfold ok_ReportedWorkPackage. apply _. Defined.

Definition ok_BlockInfo (b : BlockInfo) : Prop :=
  hash (bi_HeaderHash b) /\ hash (bi_BeefyRoot b) /\ hash (bi_StateRoot b) /\
  slice ok_ReportedWorkPackage (bi_Reported b).
#[export] Instance ok_BlockInfo_dec (b : BlockInfo) : Decision (ok_BlockInfo b).
Proof. unfold ok_BlockInfo. apply _. Defined.

Definition ok_RecentBlocks (b : RecentBlocks) : Prop :=
  (slice ok_BlockInfo (rb_History b) /\ lenOf (rb_History b) <= MaxBlocksHistory) /\ slice (opt hash) (rb_Mmr b).
#[export] Instance ok_RecentBlocks_dec (b : RecentBlocks) : Decision (ok_RecentBlocks b).
Proof. unfold ok_RecentBlocks. apply _. Defined.

(** A pool without authorizers is nil. *)
Definition ok_AuthPool (a : AuthPool) : Prop := opt (fun l => slice hash l /\ lenOf l <= AuthPoolMaxSize /\ l <> []) a.
#[export] Instance ok_AuthPool_dec (a : AuthPool) : Decision (ok_AuthPool a).
Proof. unfold ok_AuthPool. apply _. Defined.

Definition ok_ServiceInfo (s : ServiceInfo) : Prop :=
  u8_ok (si_Version s) /\ hash (si_CodeHash s) /\ u64_ok (si_Balance s) /\ u64_ok (si_MinItemGas s) /\
  u64_ok (si_MinMemoGas s) /\ u64_ok (si_Bytes s) /\ u64_ok (si_DepositOffset s) /\ u32_ok (si_Items s) /\
  u32_ok (si_CreationSlot s) /\ u32_ok (si_LastAccumulationSlot s) /\ u32_ok (si_ParentService s).
#[export] Instance ok_ServiceInfo_dec (s : ServiceInfo) : Decision (ok_ServiceInfo s).
Proof. unfold ok_ServiceInfo. apply _. Defined.

Definition ok_DisputesRecords (d : DisputesRecords) : Prop :=
  slice hash (dr_Good d) /\ slice hash (dr_Bad d) /\ slice hash (dr_Wonky d) /\ slice hash (dr_Offenders d).
#[export] Instance ok_DisputesRecords_dec (d : DisputesRecords) : Decision (ok_DisputesRecords d).
Proof. unfold ok_DisputesRecords. apply _. Defined.

Definition ok_ReadyRecord (r : ReadyRecord) : Prop := ok_WorkReport (rr_Report r) /\ slice hash (rr_Dependencies r).
#[export] Instance ok_ReadyRecord_dec (r : ReadyRecord) : Decision (ok_ReadyRecord r).
Proof. unfold ok_ReadyRecord. apply _. Defined.

Definition ok_Privileges (p : Privileges) : Prop :=
  u32_ok (pr_Bless p) /\ exactly (CoresCount cs) u32_ok (pr_Assign p) /\ u32_ok (pr_Designate p) /\
  u32_ok (pr_CreateAcct p) /\ dict u32_ok u64_ok (pr_AlwaysAccum p).
#[export] Instance ok_Privileges_dec (p : Privileges) : Decision (ok_Privileges p).
Proof. unfold ok_Privileges. apply _. Defined.

Definition ok_LookupMetaMapkey (l : LookupMetaMapkey) : Prop := hash (lk_Hash l) /\ u32_ok (lk_Length l).
#[export] Instance ok_LookupMetaMapkey_dec (l : LookupMetaMapkey) : Decision (ok_LookupMetaMapkey l).
Proof. unfold ok_LookupMetaMapkey. apply _. Defined.

(** A storage key is not empty: the decoder stops at an empty one. *)
Definition ok_storageKey (k : Bytes) : Prop := blob k /\ k <> [].
#[export] Instance ok_storageKey_dec (k : Bytes) : Decision (ok_storageKey k).
Proof. unfold ok_storageKey. apply _. Defined.

Definition ok_ServiceAccount (s : ServiceAccount) : Prop :=
  ok_ServiceInfo (ac_ServiceInfo s) /\ dict hash blob (ac_PreimageLookup s) /\
  dict ok_LookupMetaMapkey (slice u32_ok) (ac_LookupDict s) /\ dict ok_storageKey blob (ac_StorageDict s).
#[export] Instance ok_ServiceAccount_dec (s : ServiceAccount) : Decision (ok_ServiceAccount s).
Proof. unfold ok_ServiceAccount. apply _. Defined.

(** [Theta] is not written. *)
Definition ok_State (s : State) : Prop :=
  exactly (CoresCount cs) ok_AuthPool (s_Alpha s) /\
  exactly (CoresCount cs) (exactly AuthQueueSize hash) (s_Varphi s) /\
  ok_RecentBlocks (s_Beta s) /\ ok_SafroleState (s_Gamma s) /\ ok_DisputesRecords (s_Psi s) /\
  sized 4 hash (s_Eta s) /\ ok_ValidatorsData (s_Iota s) /\ ok_ValidatorsData (s_Kappa s) /\
  ok_ValidatorsData (s_Lambda s) /\ sized (CoresCount cs) (opt ok_AvailabilityAssignment) (s_Rho s) /\
  u32_ok (s_Tau s) /\ ok_Privileges (s_Chi s) /\ ok_Statistics (s_Pi s) /\
  exactly (EpochLength cs) (slice ok_ReadyRecord) (s_Vartheta s) /\ s_Theta s = [] /\
  exactly (EpochLength cs) (slice hash) (s_Xi s) /\ dict u32_ok ok_ServiceAccount (s_Delta s).
#[export] Instance ok_State_dec (s : State) : Decision (ok_State s).
Proof. unfold ok_State. apply _. Defined.

(** ** Accumulation *)

Definition ok_DeferredTransfer (d : DeferredTransfer) : Prop :=
  u32_ok (dt_SenderID d) /\ u32_ok (dt_ReceiverID d) /\ u64_ok (dt_Balance d) /\ arr 128 (dt_Memo d) /\
  u64_ok (dt_GasLimit d).
#[export] Instance ok_DeferredTransfer_dec (d : DeferredTransfer) : Decision (ok_DeferredTransfer d).
Proof. unfold ok_DeferredTransfer. apply _. Defined.

Definition ok_Operand (o : Operand) : Prop :=
  hash (op_Hash o) /\ hash (op_ExportsRoot o) /\ hash (op_AuthorizerHash o) /\ hash (op_PayloadHash o) /\
  u64_ok (op_GasLimit o) /\ ok_WorkExecResult (op_Result o) /\ blob (op_AuthOutput o).
#[export] Instance ok_Operand_dec (o : Operand) : Decision (ok_Operand o).
Proof. unfold ok_Operand. apply _. Defined.

Definition ok_BoundaryNode (b : BoundaryNode) : Prop :=
  arr 31 (bn_Key b) /\ hash (bn_Hash b) /\ opt (arr 31) (bn_Parent b).
#[export] Instance ok_BoundaryNode_dec (b : BoundaryNode) : Decision (ok_BoundaryNode b).
Proof. unfold ok_BoundaryNode. apply _. Defined.

Definition ok_StateKeyVal (s : StateKeyVal) : Prop := arr 31 (Key s) /\ blob (Value s).
#[export] Instance ok_StateKeyVal_dec (s : StateKeyVal) : Decision (ok_StateKeyVal s).
Proof. unfold ok_StateKeyVal. apply _. Defined.

Definition ok_AccumulatedServiceHash (a : AccumulatedServiceHash) : Prop := u32_ok (as_ServiceID a) /\ hash (as_Hash a).
#[export] Instance ok_AccumulatedServiceHash_dec (a : AccumulatedServiceHash) : Decision (ok_AccumulatedServiceHash a).
Proof. unfold ok_AccumulatedServiceHash. apply _. Defined.

Definition ok_AncestryItem (a : AncestryItem) : Prop := u32_ok (an_Slot a) /\ hash (an_HeaderHash a).
#[export] Instance ok_AncestryItem_dec (a : AncestryItem) : Decision (ok_AncestryItem a).
Proof. unfold ok_AncestryItem. apply _. Defined.

End Wf.
