(* ===== verification/ProtocolSpec.v ===== *)
(** * Round trips of the protocol types

    [rt_T]: what the encoder of [T] writes for a well-formed value is read
    back by its decoder; [mk_T]: what the decoder of [T] returns is
    well-formed.  The rules of Roundtrip.v do the work; a record is a chain
    of them. *)

From S2P Require Import Prelude Words Types Config Codec Encode Decoders Roundtrip ProtocolWf.
Local Open Scope Z_scope.

Create HintDb codec discriminated.
Create HintDb decoder discriminated.

(** ** Bit fields *)

Definition bitAt (bytes : Bytes) (j : Z) : bool :=
  match zlookup bytes (j / 8) with Some b => Z.testbit b (j mod 8) | None => false end.

Lemma zlookup_insert {A} (l : list A) i j x :
  0 <= i < Z.of_nat (length l) -> zlookup (<[Z.to_nat i := x]> l) j = if j =? i then Some x else zlookup l j.
Proof.
  intros Hi. unfold zlookup. destruct (Z.eqb_spec j i) as [->|Hne].
  - destruct (Z.ltb_spec i 0); [lia|]. apply list_lookup_insert_eq. lia.
  - destruct (Z.ltb_spec j 0); [done|]. apply list_lookup_insert_ne. lia.
Qed.

Lemma bit_byte b k : b = 0 \/ b = 1 -> 0 <= k < 8 ->
  u8 (Z.shiftl b k) = if b =? 1 then 2 ^ k else 0.
Proof.
  intros Hb Hk. rewrite Z.shiftl_mul_pow2 by lia. destruct Hb as [-> | ->]; cbn [Z.eqb]; [done|].
  rewrite Z.mul_1_l. apply Z.mod_small. split; [by apply Z.pow_nonneg|].
  apply Z.pow_lt_mono_r; lia.
Qed.

Lemma lor_byte a b : is_byte a -> is_byte b -> is_byte (Z.lor a b).
Proof.
  unfold is_byte. intros Ha Hb. split; [apply Z.lor_nonneg; lia|].
  destruct (decide (Z.lor a b = 0)) as [->|]; [lia|]. apply Z.log2_lt_pow2 with (b := 8); [|].
  - assert (0 <= Z.lor a b) by (apply Z.lor_nonneg; lia). lia.
  - rewrite Z.log2_lor by lia. destruct (Z.max_spec (Z.log2 a) (Z.log2 b)) as [ [_ ->] | [_ ->] ];
      [destruct (decide (b = 0)) as [->|]|destruct (decide (a = 0)) as [->|] ]; try done;
      apply Z.log2_lt_pow2; lia.
Qed.

Lemma octetLoop_spec bf i bytes :
  bytes_ok bytes -> 0 <= i -> i + lenOf bf <= 8 * lenOf bytes -> Forall (fun b => b = 0 \/ b = 1) bf ->
  exists bytes', octetLoop bf i bytes = Ret bytes' /\ length bytes' = length bytes /\ bytes_ok bytes' /\
    forall j, 0 <= j -> bitAt bytes' j = bitAt bytes j || match zlookup bf (j - i) with Some b => b =? 1 | None => false end.
Proof.
  unfold lenOf. revert i bytes. induction bf as [|b bf IH]; intros i bytes Hok Hi Hlen Hbf.
  { exists bytes. split_and!; [done..|]. intros j Hj. unfold zlookup. destruct (j - i <? 0); by rewrite orb_false_r. }
  apply Forall_cons in Hbf as [Hb Hbf]. cbn [length] in Hlen. cbn [octetLoop].
  assert (0 <= i / 8 < Z.of_nat (length bytes)) as Hdiv by (split; [apply Z.div_pos; lia|apply Z.div_lt_upper_bound; lia]).
  destruct (zindex_ok bytes (i / 8) Hdiv) as (x & Hx & Hin).
  pose proof (Z.mod_pos_bound i 8 ltac:(lia)) as Hm.
  assert (is_byte x) as Hxb by exact (proj1 (Forall_forall _ _) Hok x Hin).
  rewrite Hx, go_bind_ret, zupdate_ok by done. rewrite go_bind_ret.
  set (y := Z.lor x (u8 (Z.shiftl b (i mod 8)))).
  assert (is_byte y) as Hyb by (apply lor_byte; [done|apply is_byte_u8]).
  destruct (IH (i + 1) (<[Z.to_nat (i / 8) := y]> bytes)) as (bytes' & E & Hl & Hok' & Hbits).
  - by apply Forall_insert.
  - lia.
  - rewrite length_insert. lia.
  - done.
  - exists bytes'. rewrite length_insert in Hl. split_and!; [done..|]. intros j Hj. rewrite Hbits by done.
    apply zindex_Ret in Hx.
    unfold bitAt at 1. rewrite zlookup_insert by done.
    assert (zlookup (b :: bf) (j - i) = if j =? i then Some b else zlookup bf (j - (i + 1))) as ->.
    { unfold zlookup. destruct (Z.eqb_spec j i) as [->|]; [by rewrite Z.sub_diag|].
      destruct (Z.ltb_spec (j - i) 0), (Z.ltb_spec (j - (i + 1)) 0); try lia; [done|].
      replace (Z.to_nat (j - i)) with (S (Z.to_nat (j - (i + 1)))) by lia. done. }
    destruct (Z.eqb_spec (j / 8) (i / 8)) as [Hd|Hd].
    + unfold bitAt. rewrite Hd, Hx. unfold y. rewrite Z.lor_spec, bit_byte by done.
      destruct (Z.eqb_spec j i) as [->|Hne].
      * replace (zlookup bf (i - (i + 1))) with (@None Z)
          by (unfold zlookup; destruct (Z.ltb_spec (i - (i + 1)) 0); [done|lia]).
        rewrite orb_false_r. destruct (b =? 1); [by rewrite Z.pow2_bits_true by lia|by rewrite Z.testbit_0_l].
      * rewrite (Z.div_mod j 8), (Z.div_mod i 8) in Hne by lia.
        pose proof (Z.mod_pos_bound j 8 ltac:(lia)).
        destruct (b =? 1); [rewrite Z.pow2_bits_false by lia|rewrite Z.testbit_0_l]; by rewrite orb_false_r.
    + destruct (Z.eqb_spec j i) as [->|Hne]; [done|]. done.
Qed.

Section Bitfields.
Context (makeOK : Z -> bool) (cs : ChainSpec) (Hcs : codec_spec cs).

(** The bits of a byte slice. *)
Definition bitsOf (bytes : Bytes) (n : nat) : Bitfield :=
  (fun i => if bitAt bytes (Z.of_nat i) then 1 else 0) <$> seq 0 n.

Lemma bit_and x k : 0 <= k -> Z.land (shr x k) 1 = if Z.testbit x k then 1 else 0.
Proof.
  intros Hk. unfold shr. change 1 with (Z.ones 1) at 1. rewrite Z.land_ones by lia. change (2 ^ 1) with 2.
  rewrite Z.testbit_odd, Zmod_odd. done.
Qed.

Lemma bits_eq bytes (n : nat) i : Z.of_nat n <= 8 * lenOf bytes ->
  (i <= n)%nat ->
  foldr (fun i acc => acc ← acc; b ← zindex bytes (Z.of_nat i / 8);
                      Ret (Z.land (shr b (Z.of_nat i mod 8)) 1 :: acc)) (Ret []) (seq i (n - i)) =
  Ret ((fun i => if bitAt bytes (Z.of_nat i) then 1 else 0) <$> seq i (n - i)).
Proof.
  unfold lenOf. intros Hn. remember (n - i)%nat as k eqn:Hk. revert i Hk.
  induction k as [|k IH]; intros i Hk Hi; [done|]. cbn [seq foldr fmap list_fmap].
  rewrite IH, go_bind_ret by lia.
  destruct (zindex_ok bytes (Z.of_nat i / 8)) as (b & Hb & _).
  { split; [apply Z.div_pos; lia|apply Z.div_lt_upper_bound; lia]. }
  rewrite Hb, go_bind_ret, bit_and by (apply Z.mod_pos_bound; lia).
  unfold bitAt. apply zindex_Ret in Hb. by rewrite Hb.
Qed.

Lemma MakeBitfield_ok bytes : lenOf bytes = AvailBitfieldBytes cs ->
  MakeBitfieldFromByteSlice cs bytes = Ret (Some (bitsOf bytes (Z.to_nat (CoresCount cs)))).
Proof.
  intros Hl. destruct Hcs. unfold MakeBitfieldFromByteSlice, bitsOf. unfold lenOf in Hl.
  rewrite (proj2 (Z.eqb_eq _ _) Hl). cbn [negb].
  pose proof (bits_eq bytes (Z.to_nat (CoresCount cs)) 0 ltac:(unfold lenOf; lia) ltac:(lia)) as E.
  rewrite Nat.sub_0_r in E. by rewrite E.
Qed.

Lemma ToOctetSlice_ok bf : lenOf bf = CoresCount cs -> Forall (fun b => b = 0 \/ b = 1) bf ->
  exists bytes, ToOctetSlice cs bf = Ret bytes /\ lenOf bytes = AvailBitfieldBytes cs /\ bytes_ok bytes /\
    bitsOf bytes (Z.to_nat (CoresCount cs)) = bf.
Proof.
  intros Hl Hbf. destruct Hcs. unfold ToOctetSlice.
  destruct (octetLoop_spec bf 0 (replicate (Z.to_nat (AvailBitfieldBytes cs)) 0)) as (bytes & E & Hlen & Hok & Hb).
  - apply Forall_replicate. unfold is_byte. lia.
  - lia.
  - unfold lenOf in *. rewrite length_replicate. lia.
  - done.
  - exists bytes. rewrite length_replicate in Hlen. split_and!; [done|unfold lenOf; lia|done|].
    unfold bitsOf. apply list_eq. intros i. rewrite list_lookup_fmap.
    destruct (decide (i < length bf)%nat) as [Hi|Hi].
    + rewrite lookup_seq_lt by (unfold lenOf in *; lia). cbn [fmap option_fmap option_map].
      destruct (lookup_lt_is_Some_2 bf i Hi) as [b Hbi]. rewrite Hbi. f_equal.
      rewrite Hb by lia. cbn [Nat.add]. rewrite Z.sub_0_r.
      replace (bitAt (replicate _ 0) (Z.of_nat i)) with false.
      * unfold zlookup. destruct (Z.ltb_spec (Z.of_nat i) 0); [lia|]. rewrite Nat2Z.id, Hbi.
        destruct (proj1 (Forall_lookup _ bf) Hbf i b Hbi) as [-> | ->]; done.
      * unfold bitAt, zlookup. destruct (_ <? 0); [done|].
        destruct (replicate _ 0 !! _) eqn:Er; [|done].
        apply lookup_replicate in Er as [-> _]. by rewrite Z.testbit_0_l.
    + rewrite !lookup_ge_None_2; [done|unfold lenOf in *; lia|]. rewrite length_seq. unfold lenOf in *; lia.
Qed.

Lemma rt_Bitfield bf : ok_Bitfield makeOK cs bf -> codes (enc_Bitfield cs bf) (dec_Bitfield makeOK cs) bf.
Proof.
  intros (Hl & Hm & Hbf). destruct (ToOctetSlice_ok bf Hl Hbf) as (bytes & E & Hlen & Hok & Hbits).
  exists bytes. unfold enc_Bitfield. rewrite E. split_and!; [done|done|]. intros rest Hr.
  unfold dec_Bitfield, makeRead, bufRead. rewrite Hm. destruct Hcs. unfold lenOf in Hlen.
  destruct (bytes ++ rest) as [|x xs] eqn:Ex.
  { apply app_eq_nil in Ex as [-> _]. cbn in Hlen. lia. }
  rewrite <- Ex. rewrite take_app_length', drop_app_length' by lia.
  replace (Z.to_nat (AvailBitfieldBytes cs) - length (bytes ++ rest))%nat with 0%nat by (rewrite length_app; lia).
  cbn [replicate]. rewrite app_nil_r, MakeBitfield_ok by done. cbn. by rewrite Hbits.
Qed.

Lemma mk_Bitfield : makes makeOK (dec_Bitfield makeOK cs) (ok_Bitfield makeOK cs).
Proof.
  intros buf Hb. unfold dec_Bitfield. destruct Hcs.
  pose proof (makes_read makeOK (AvailBitfieldBytes cs) ltac:(lia) buf Hb) as Hr.
  destruct (makeRead makeOK (AvailBitfieldBytes cs) buf) as [ [ [bytes rest] |] |]; [|done..].
  destruct Hr as [ (Hl & Hok & Hm) Hrest]. rewrite MakeBitfield_ok by done. cbn. split; [|done].
  split_and!; [|done|].
  - unfold lenOf, bitsOf. rewrite length_fmap, length_seq. lia.
  - unfold bitsOf. apply Forall_fmap, Forall_forall. intros i _. cbn. destruct (bitAt _ _); [by right|by left].
Qed.

End Bitfields.

(** ** Tactics *)

#[export] Hint Resolve codes_slice codes_opt codes_exactly codes_exactly_guarded codes_blob codes_sized
  codes_sized_guarded codes_length codes_integer codes_dict : codec.
#[export] Hint Resolve makes_slice makes_pointer makes_exactly makes_blob makes_length makes_integer makes_dict
  makes_byte : decoder.
#[export] Hint Resolve rt_Bitfield : codec.
#[export] Hint Resolve mk_Bitfield : decoder.
#[export] Hint Extern 1 (codes _ _ _) => apply codes_full; assumption : codec.
#[export] Hint Extern 1 (codes _ _ _) => apply codes_LE; [reflexivity|assumption] : codec.
#[export] Hint Extern 1 (makes _ _ _) => apply makes_full : decoder.
#[export] Hint Extern 1 (makes _ _ _) => apply makes_LE; reflexivity : decoder.

#[export] Hint Resolve csp_validators csp_cores csp_epoch csp_majority : decoder.

Lemma uint_mono n m v : n <= m -> uint n v -> uint m v.
Proof.
  unfold uint. intros Hn [H0 H1]. split; [done|]. eapply Z.lt_le_trans; [exact H1|].
  apply Z.pow_le_mono_r; lia.
Qed.

Lemma uN_uint n v : uint n v -> uN n v = v.
Proof. apply uN_small. Qed.

Lemma uint_uN n v : 0 <= n -> uint n (uN n v).
Proof. intros Hn. unfold uint, uN. apply Z.mod_pos_bound. lia. Qed.

#[export] Hint Extern 2 (0 <= _ < 2 ^ 64) => eapply uint_64; [|eassumption]; lia : codec.

(** The fields of a record, one after the other. *)
Ltac codec_step :=
  first
    [ eapply codes_slice_split; [eassumption|solve [eauto 4 with codec]|]
    | eapply codes_bool
    | eapply codes_bind; [solve [eauto 4 with codec]|] ].
Ltac codec_end x :=
  first [apply codes_ret | eapply codes_eq; [apply codes_ret|]; rewrite ?uN_uint by assumption; destruct x;
    repeat match goal with b : bool |- _ => destruct b end; reflexivity].
Ltac codec_record x := intros H; hnf in H; destruct_and?; repeat codec_step; codec_end x.

Ltac decoder_step := eapply makes_bind; [solve [eauto 4 with decoder]|cbn beta; intros ? ?].
Ltac decoder_record :=
  repeat decoder_step; apply makes_ret; hnf; cbn; split_and?; first [done|by apply uint_uN].

Section Codec.
Context (makeOK : Z -> bool) (cs : ChainSpec) (hsm : option (gmap Bytes Bytes)) (Hcs : codec_spec cs).

Lemma rt_EpochMarkValidatorKeys x : ok_EpochMarkValidatorKeys x -> codes (enc_EpochMarkValidatorKeys x) dec_EpochMarkValidatorKeys x.
Proof. unfold enc_EpochMarkValidatorKeys, dec_EpochMarkValidatorKeys. codec_record x. Qed.
#[local] Hint Resolve rt_EpochMarkValidatorKeys : codec.
Lemma mk_EpochMarkValidatorKeys : makes makeOK dec_EpochMarkValidatorKeys ok_EpochMarkValidatorKeys.
Proof. unfold dec_EpochMarkValidatorKeys. decoder_record. Qed.
#[local] Hint Resolve mk_EpochMarkValidatorKeys : decoder.

Lemma rt_EpochMark x : ok_EpochMark makeOK cs x -> codes (enc_EpochMark cs x) (dec_EpochMark makeOK cs) x.
Proof. unfold enc_EpochMark, dec_EpochMark. codec_record x. Qed.
#[local] Hint Resolve rt_EpochMark : codec.
Lemma mk_EpochMark : makes makeOK (dec_EpochMark makeOK cs) (ok_EpochMark makeOK cs).
Proof. unfold dec_EpochMark. decoder_record. Qed.
#[local] Hint Resolve mk_EpochMark : decoder.

Lemma rt_TicketBody x : ok_TicketBody x -> codes (enc_TicketBody x) dec_TicketBody x.
Proof. unfold enc_TicketBody, dec_TicketBody. codec_record x. Qed.
#[local] Hint Resolve rt_TicketBody : codec.
Lemma mk_TicketBody : makes makeOK dec_TicketBody ok_TicketBody.
Proof. unfold dec_TicketBody. decoder_record. Qed.
#[local] Hint Resolve mk_TicketBody : decoder.

Lemma rt_Header x : ok_Header makeOK cs x -> codes (enc_Header cs x) (dec_Header makeOK cs) x.
Proof. unfold enc_Header, dec_Header. codec_record x. Qed.
#[local] Hint Resolve rt_Header : codec.
Lemma mk_Header : makes makeOK (dec_Header makeOK cs) (ok_Header makeOK cs).
Proof. unfold dec_Header. decoder_record. Qed.
#[local] Hint Resolve mk_Header : decoder.

Lemma rt_TicketEnvelope x : ok_TicketEnvelope x -> codes (enc_TicketEnvelope x) dec_TicketEnvelope x.
Proof. unfold enc_TicketEnvelope, dec_TicketEnvelope. codec_record x. Qed.
#[local] Hint Resolve rt_TicketEnvelope : codec.
Lemma mk_TicketEnvelope : makes makeOK dec_TicketEnvelope ok_TicketEnvelope.
Proof. unfold dec_TicketEnvelope. decoder_record. Qed.
#[local] Hint Resolve mk_TicketEnvelope : decoder.

Lemma rt_Preimage x : ok_Preimage makeOK x -> codes (enc_Preimage x) (dec_Preimage makeOK) x.
Proof. unfold enc_Preimage, dec_Preimage. codec_record x. Qed.
#[local] Hint Resolve rt_Preimage : codec.
Lemma mk_Preimage : makes makeOK (dec_Preimage makeOK) (ok_Preimage makeOK).
Proof. unfold dec_Preimage. decoder_record. Qed.
#[local] Hint Resolve mk_Preimage : decoder.

Lemma rt_WorkPackageSpec x : ok_WorkPackageSpec x -> codes (enc_WorkPackageSpec x) dec_WorkPackageSpec x.
Proof. unfold enc_WorkPackageSpec, dec_WorkPackageSpec. codec_record x. Qed.
#[local] Hint Resolve rt_WorkPackageSpec : codec.
Lemma mk_WorkPackageSpec : makes makeOK dec_WorkPackageSpec ok_WorkPackageSpec.
Proof. unfold dec_WorkPackageSpec. decoder_record. Qed.
#[local] Hint Resolve mk_WorkPackageSpec : decoder.

Lemma rt_RefineContext x : ok_RefineContext makeOK x -> codes (enc_RefineContext x) (dec_RefineContext makeOK) x.
Proof. unfold enc_RefineContext, dec_RefineContext. codec_record x. Qed.
#[local] Hint Resolve rt_RefineContext : codec.
Lemma mk_RefineContext : makes makeOK (dec_RefineContext makeOK) (ok_RefineContext makeOK).
Proof. unfold dec_RefineContext. decoder_record. Qed.
#[local] Hint Resolve mk_RefineContext : decoder.

Lemma rt_SegmentRootLookupItem x : ok_SegmentRootLookupItem x -> codes (enc_SegmentRootLookupItem x) dec_SegmentRootLookupItem x.
Proof. unfold enc_SegmentRootLookupItem, dec_SegmentRootLookupItem. codec_record x. Qed.
#[local] Hint Resolve rt_SegmentRootLookupItem : codec.
Lemma mk_SegmentRootLookupItem : makes makeOK dec_SegmentRootLookupItem ok_SegmentRootLookupItem.
Proof. unfold dec_SegmentRootLookupItem. decoder_record. Qed.
#[local] Hint Resolve mk_SegmentRootLookupItem : decoder.

Lemma rt_WorkExecResult w : ok_WorkExecResult makeOK w -> codes (enc_WorkExecResult w) (dec_WorkExecResult makeOK) w.
Proof.
  destruct w as [t data]. unfold ok_WorkExecResult, enc_WorkExecResult, dec_WorkExecResult. cbn [wer_Type wer_Data].
  destruct t; intros H; [|subst data; apply codes_of_cat; (eapply codes_flag; [unfold is_byte; lia|reflexivity|apply codes_ret])..].
  eapply codes_flag; [unfold is_byte; lia|reflexivity|]. cbn [Z.eqb Pos.eqb].
  change (cat [wLength (lenOf data); put data]) with (enc_ByteSequence data).
  apply codes_map1 with (h := MkWorkExecResult WorkExecResultOk). by apply codes_blob.
Qed.
#[local] Hint Resolve rt_WorkExecResult : codec.
Lemma mk_WorkExecResult : makes makeOK (dec_WorkExecResult makeOK) (ok_WorkExecResult makeOK).
Proof.
  unfold dec_WorkExecResult. eapply makes_bind; [apply makes_byte|]. intros b _.
  destruct (b =? 0); [eapply makes_bind; [apply makes_blob|]; intros data Hd; by apply makes_ret|].
  do 6 (destruct (_ =? _); [by apply makes_ret|]). apply makes_fail.
Qed.
#[local] Hint Resolve mk_WorkExecResult : decoder.

Lemma rt_RefineLoad x : ok_RefineLoad x -> codes (enc_RefineLoad x) dec_RefineLoad x.
Proof. unfold enc_RefineLoad, dec_RefineLoad. codec_record x. Qed.
#[local] Hint Resolve rt_RefineLoad : codec.
Lemma mk_RefineLoad : makes makeOK dec_RefineLoad ok_RefineLoad.
Proof. unfold dec_RefineLoad. decoder_record. Qed.
#[local] Hint Resolve mk_RefineLoad : decoder.

Lemma rt_WorkResult x : ok_WorkResult makeOK x -> codes (enc_WorkResult x) (dec_WorkResult makeOK) x.
Proof. unfold enc_WorkResult, dec_WorkResult. codec_record x. Qed.
#[local] Hint Resolve rt_WorkResult : codec.
Lemma mk_WorkResult : makes makeOK (dec_WorkResult makeOK) (ok_WorkResult makeOK).
Proof. unfold dec_WorkResult. decoder_record. Qed.
#[local] Hint Resolve mk_WorkResult : decoder.

Lemma rt_WorkReport x : ok_WorkReport makeOK x -> codes (enc_WorkReport x) (dec_WorkReport makeOK) x.
Proof. unfold enc_WorkReport, dec_WorkReport. codec_record x. Qed.
#[local] Hint Resolve rt_WorkReport : codec.
Lemma mk_WorkReport : makes makeOK (dec_WorkReport makeOK) (ok_WorkReport makeOK).
Proof. unfold dec_WorkReport. decoder_record. Qed.
#[local] Hint Resolve mk_WorkReport : decoder.

Lemma rt_ValidatorSignature x : ok_ValidatorSignature x -> codes (enc_ValidatorSignature x) dec_ValidatorSignature x.
Proof. unfold enc_ValidatorSignature, dec_ValidatorSignature. codec_record x. Qed.
#[local] Hint Resolve rt_ValidatorSignature : codec.
Lemma mk_ValidatorSignature : makes makeOK dec_ValidatorSignature ok_ValidatorSignature.
Proof. unfold dec_ValidatorSignature. decoder_record. Qed.
#[local] Hint Resolve mk_ValidatorSignature : decoder.

Lemma rt_ReportGuarantee x : ok_ReportGuarantee makeOK x -> codes (enc_ReportGuarantee x) (dec_ReportGuarantee makeOK) x.
Proof. unfold enc_ReportGuarantee, dec_ReportGuarantee. codec_record x. Qed.
#[local] Hint Resolve rt_ReportGuarantee : codec.
Lemma mk_ReportGuarantee : makes makeOK (dec_ReportGuarantee makeOK) (ok_ReportGuarantee makeOK).
Proof. unfold dec_ReportGuarantee. decoder_record. Qed.
#[local] Hint Resolve mk_ReportGuarantee : decoder.

Lemma rt_AvailAssurance x : ok_AvailAssurance makeOK cs x -> codes (enc_AvailAssurance cs x) (dec_AvailAssurance makeOK cs) x.
Proof. unfold enc_AvailAssurance, dec_AvailAssurance. codec_record x. Qed.
#[local] Hint Resolve rt_AvailAssurance : codec.
Lemma mk_AvailAssurance : makes makeOK (dec_AvailAssurance makeOK cs) (ok_AvailAssurance makeOK cs).
Proof. unfold dec_AvailAssurance. decoder_record. Qed.
#[local] Hint Resolve mk_AvailAssurance : decoder.

Lemma rt_Judgement x : ok_Judgement x -> codes (enc_Judgement x) dec_Judgement x.
Proof. unfold enc_Judgement, dec_Judgement. codec_record x. Qed.
#[local] Hint Resolve rt_Judgement : codec.
Lemma mk_Judgement : makes makeOK dec_Judgement ok_Judgement.
Proof. unfold dec_Judgement. decoder_record. Qed.
#[local] Hint Resolve mk_Judgement : decoder.

Lemma rt_Verdict x : ok_Verdict makeOK cs x -> codes (enc_Verdict cs x) (dec_Verdict makeOK cs) x.
Proof. unfold enc_Verdict, dec_Verdict. codec_record x. Qed.
#[local] Hint Resolve rt_Verdict : codec.
Lemma mk_Verdict : makes makeOK (dec_Verdict makeOK cs) (ok_Verdict makeOK cs).
Proof. unfold dec_Verdict. decoder_record. Qed.
#[local] Hint Resolve mk_Verdict : decoder.

Lemma rt_Culprit x : ok_Culprit x -> codes (enc_Culprit x) dec_Culprit x.
Proof. unfold enc_Culprit, dec_Culprit. codec_record x. Qed.
#[local] Hint Resolve rt_Culprit : codec.
Lemma mk_Culprit : makes makeOK dec_Culprit ok_Culprit.
Proof. unfold dec_Culprit. decoder_record. Qed.
#[local] Hint Resolve mk_Culprit : decoder.

Lemma rt_Fault x : ok_Fault x -> codes (enc_Fault x) dec_Fault x.
Proof. unfold enc_Fault, dec_Fault. codec_record x. Qed.
#[local] Hint Resolve rt_Fault : codec.
Lemma mk_Fault : makes makeOK dec_Fault ok_Fault.
Proof. unfold dec_Fault. decoder_record. Qed.
#[local] Hint Resolve mk_Fault : decoder.

Lemma rt_DisputesExtrinsic x : ok_DisputesExtrinsic makeOK cs x -> codes (enc_DisputesExtrinsic cs x) (dec_DisputesExtrinsic makeOK cs) x.
Proof. unfold enc_DisputesExtrinsic, dec_DisputesExtrinsic. codec_record x. Qed.
#[local] Hint Resolve rt_DisputesExtrinsic : codec.
Lemma mk_DisputesExtrinsic : makes makeOK (dec_DisputesExtrinsic makeOK cs) (ok_DisputesExtrinsic makeOK cs).
Proof. unfold dec_DisputesExtrinsic. decoder_record. Qed.
#[local] Hint Resolve mk_DisputesExtrinsic : decoder.

Lemma rt_Extrinsic x : ok_Extrinsic makeOK cs x -> codes (enc_Extrinsic cs x) (dec_Extrinsic makeOK cs) x.
Proof. unfold enc_Extrinsic, dec_Extrinsic. codec_record x. Qed.
#[local] Hint Resolve rt_Extrinsic : codec.
Lemma mk_Extrinsic : makes makeOK (dec_Extrinsic makeOK cs) (ok_Extrinsic makeOK cs).
Proof. unfold dec_Extrinsic. decoder_record. Qed.
#[local] Hint Resolve mk_Extrinsic : decoder.

Lemma rt_Block x : ok_Block makeOK cs x -> codes (enc_Block cs x) (dec_Block makeOK cs) x.
Proof. unfold enc_Block, dec_Block. codec_record x. Qed.
#[local] Hint Resolve rt_Block : codec.
Lemma mk_Block : makes makeOK (dec_Block makeOK cs) (ok_Block makeOK cs).
Proof. unfold dec_Block. decoder_record. Qed.
#[local] Hint Resolve mk_Block : decoder.

Lemma rt_ExtrinsicSpec x : ok_ExtrinsicSpec x -> codes (enc_ExtrinsicSpec x) dec_ExtrinsicSpec x.
Proof. unfold enc_ExtrinsicSpec, dec_ExtrinsicSpec. codec_record x. Qed.
#[local] Hint Resolve rt_ExtrinsicSpec : codec.
Lemma mk_ExtrinsicSpec : makes makeOK dec_ExtrinsicSpec ok_ExtrinsicSpec.
Proof. unfold dec_ExtrinsicSpec. decoder_record. Qed.
#[local] Hint Resolve mk_ExtrinsicSpec : decoder.

Lemma rt_ValidatorActivityRecord x : ok_ValidatorActivityRecord x -> codes (enc_ValidatorActivityRecord x) dec_ValidatorActivityRecord x.
Proof. unfold enc_ValidatorActivityRecord, dec_ValidatorActivityRecord. codec_record x. Qed.
#[local] Hint Resolve rt_ValidatorActivityRecord : codec.
Lemma mk_ValidatorActivityRecord : makes makeOK dec_ValidatorActivityRecord ok_ValidatorActivityRecord.
Proof. unfold dec_ValidatorActivityRecord. decoder_record. Qed.
#[local] Hint Resolve mk_ValidatorActivityRecord : decoder.

Lemma rt_CoreActivityRecord x : ok_CoreActivityRecord x -> codes (enc_CoreActivityRecord x) dec_CoreActivityRecord x.
Proof. unfold enc_CoreActivityRecord, dec_CoreActivityRecord. codec_record x. Qed.
#[local] Hint Resolve rt_CoreActivityRecord : codec.
Lemma mk_CoreActivityRecord : makes makeOK dec_CoreActivityRecord ok_CoreActivityRecord.
Proof. unfold dec_CoreActivityRecord. decoder_record. Qed.
#[local] Hint Resolve mk_CoreActivityRecord : decoder.

Lemma rt_ServiceActivityRecord x : ok_ServiceActivityRecord x -> codes (enc_ServiceActivityRecord x) dec_ServiceActivityRecord x.
Proof. unfold enc_ServiceActivityRecord, dec_ServiceActivityRecord. codec_record x. Qed.
#[local] Hint Resolve rt_ServiceActivityRecord : codec.
Lemma mk_ServiceActivityRecord : makes makeOK dec_ServiceActivityRecord ok_ServiceActivityRecord.
Proof. unfold dec_ServiceActivityRecord. decoder_record. Qed.
#[local] Hint Resolve mk_ServiceActivityRecord : decoder.

Lemma rt_Statistics x : ok_Statistics makeOK cs x -> codes (enc_Statistics cs x) (dec_Statistics makeOK cs) x.
Proof. unfold enc_Statistics, dec_Statistics. codec_record x. Qed.
#[local] Hint Resolve rt_Statistics : codec.
Lemma mk_Statistics : makes makeOK (dec_Statistics makeOK cs) (ok_Statistics makeOK cs).
Proof. unfold dec_Statistics. decoder_record. Qed.
#[local] Hint Resolve mk_Statistics : decoder.

Lemma rt_Validator x : ok_Validator x -> codes (enc_Validator x) dec_Validator x.
Proof. unfold enc_Validator, dec_Validator. codec_record x. Qed.
#[local] Hint Resolve rt_Validator : codec.
Lemma mk_Validator : makes makeOK dec_Validator ok_Validator.
Proof. unfold dec_Validator. decoder_record. Qed.
#[local] Hint Resolve mk_Validator : decoder.

Lemma rt_AvailabilityAssignment x : ok_AvailabilityAssignment makeOK x -> codes (enc_AvailabilityAssignment x) (dec_AvailabilityAssignment makeOK) x.
Proof. unfold enc_AvailabilityAssignment, dec_AvailabilityAssignment. codec_record x. Qed.
#[local] Hint Resolve rt_AvailabilityAssignment : codec.

Lemma rt_ReportedWorkPackage x : ok_ReportedWorkPackage x -> codes (enc_ReportedWorkPackage x) dec_ReportedWorkPackage x.
Proof. unfold enc_ReportedWorkPackage, dec_ReportedWorkPackage. codec_record x. Qed.
#[local] Hint Resolve rt_ReportedWorkPackage : codec.

Lemma rt_BlockInfo x : ok_BlockInfo makeOK x -> codes (enc_BlockInfo x) (dec_BlockInfo makeOK) x.
Proof. unfold enc_BlockInfo, dec_BlockInfo. codec_record x. Qed.
#[local] Hint Resolve rt_BlockInfo : codec.

Lemma rt_ServiceInfo x : ok_ServiceInfo x -> codes (enc_ServiceInfo x) dec_ServiceInfo x.
Proof. unfold enc_ServiceInfo, dec_ServiceInfo. codec_record x. Qed.
#[local] Hint Resolve rt_ServiceInfo : codec.

Lemma rt_DisputesRecords x : ok_DisputesRecords makeOK x -> codes (enc_DisputesRecords x) (dec_DisputesRecords makeOK) x.
Proof. unfold enc_DisputesRecords, dec_DisputesRecords. codec_record x. Qed.
#[local] Hint Resolve rt_DisputesRecords : codec.

Lemma rt_ReadyRecord x : ok_ReadyRecord makeOK x -> codes (enc_ReadyRecord x) (dec_ReadyRecord makeOK) x.
Proof. unfold enc_ReadyRecord, dec_ReadyRecord. codec_record x. Qed.
#[local] Hint Resolve rt_ReadyRecord : codec.

Lemma rt_LookupMetaMapkey x : ok_LookupMetaMapkey x -> codes (enc_LookupMetaMapkey x) dec_LookupMetaMapkey x.
Proof. unfold enc_LookupMetaMapkey, dec_LookupMetaMapkey. codec_record x. Qed.
#[local] Hint Resolve rt_LookupMetaMapkey : codec.

Lemma rt_DeferredTransfer x : ok_DeferredTransfer x -> codes (enc_DeferredTransfer x) dec_DeferredTransfer x.
Proof. unfold enc_DeferredTransfer, dec_DeferredTransfer. codec_record x. Qed.
#[local] Hint Resolve rt_DeferredTransfer : codec.
Lemma mk_DeferredTransfer : makes makeOK dec_DeferredTransfer ok_DeferredTransfer.
Proof. unfold dec_DeferredTransfer. decoder_record. Qed.
#[local] Hint Resolve mk_DeferredTransfer : decoder.

Lemma rt_StateKeyVal x : ok_StateKeyVal makeOK x -> codes (enc_StateKeyVal x) (dec_StateKeyVal makeOK) x.
Proof. unfold enc_StateKeyVal, dec_StateKeyVal. codec_record x. Qed.
#[local] Hint Resolve rt_StateKeyVal : codec.
Lemma mk_StateKeyVal : makes makeOK (dec_StateKeyVal makeOK) (ok_StateKeyVal makeOK).
Proof. unfold dec_StateKeyVal. decoder_record. Qed.
Lemma rt_StateKeyVals kvs : slice makeOK (ok_StateKeyVal makeOK) kvs -> codes (enc_StateKeyVals kvs) (dec_StateKeyVals makeOK) kvs.
Proof.
  intros Hk. apply (codes_slice _ _ _ (ok_StateKeyVal makeOK)); [done|]. intros x Hx.
  pose proof (rt_StateKeyVal x Hx) as Hc. unfold enc_StateKeyVal in Hc. cbn in Hc |- *.
  by rewrite (app_nil_r (EncodeUint _ ++ _)) in Hc.
Qed.
#[local] Hint Resolve mk_StateKeyVal : decoder.

Lemma rt_AccumulatedServiceHash x : ok_AccumulatedServiceHash x -> codes (enc_AccumulatedServiceHash x) dec_AccumulatedServiceHash x.
Proof. unfold enc_AccumulatedServiceHash, dec_AccumulatedServiceHash. codec_record x. Qed.
#[local] Hint Resolve rt_AccumulatedServiceHash : codec.
Lemma mk_AccumulatedServiceHash : makes makeOK dec_AccumulatedServiceHash ok_AccumulatedServiceHash.
Proof. unfold dec_AccumulatedServiceHash. decoder_record. Qed.
#[local] Hint Resolve mk_AccumulatedServiceHash : decoder.

Lemma rt_AncestryItem x : ok_AncestryItem x -> codes (enc_AncestryItem x) dec_AncestryItem x.
Proof. unfold enc_AncestryItem, dec_AncestryItem. codec_record x. Qed.
#[local] Hint Resolve rt_AncestryItem : codec.
Lemma mk_AncestryItem : makes makeOK dec_AncestryItem ok_AncestryItem.
Proof. unfold dec_AncestryItem. decoder_record. Qed.
#[local] Hint Resolve mk_AncestryItem : decoder.

(** ** Work packages *)

Lemma u16_flip i : uint 16 i -> u16 (u16 (i + 32768) - 32768) = i.
Proof. unfold uint, uN. intros Hi. rewrite Zminus_mod_idemp_l, Z.add_simpl_r. by apply Z.mod_small. Qed.

Lemma rt_ImportSpec i : is_Some hsm -> ok_ImportSpec i -> codes (enc_ImportSpec hsm i) (dec_ImportSpec hsm) i.
Proof.
  intros [m ->] [Hr Hi]. unfold enc_ImportSpec, dec_ImportSpec.
  eapply codes_bind; [eauto with codec|]. destruct (decide (is_Some (m !! im_TreeRoot i))).
  - eapply codes_bind; [apply codes_LE; [reflexivity|apply uint_uN; lia]|].
    eapply codes_eq; [apply codes_ret|]. rewrite u16_flip by done. by destruct i.
  - eapply codes_bind; [eauto with codec|]. eapply codes_eq; [apply codes_ret|]. by destruct i.
Qed.
#[local] Hint Resolve rt_ImportSpec : codec.

Lemma mk_ImportSpec : makes makeOK (dec_ImportSpec hsm) ok_ImportSpec.
Proof.
  unfold dec_ImportSpec. destruct hsm as [m|]; [|apply makes_fail]. repeat decoder_step. apply makes_ret.
  split; [done|]. cbn. destruct (decide _); [apply uint_uN; lia|done].
Qed.
#[local] Hint Resolve mk_ImportSpec : decoder.

Lemma fits_nonempty {A} (l : list A) : l <> [] -> (lenOf l =? 0) = false.
Proof. intros Hl. apply Z.eqb_neq. unfold lenOf. destruct l; [done|cbn; lia]. Qed.

Lemma rt_WorkItem w : is_Some hsm -> ok_WorkItem makeOK w -> imports w ->
  codes (enc_WorkItem hsm w) (dec_WorkItem makeOK hsm) w.
Proof.
  intros Hh H Hi. hnf in H; destruct_and?. unfold enc_WorkItem, dec_WorkItem. unfold imports in Hi.
  do 6 codec_step.
  match goal with H : Roundtrip.slice _ _ (wi_ImportSegments w) |- _ => destruct H as [ [Hl Hm] Him] end.
  eapply codes_bind; [apply codes_length; unfold lenOf in *; lia|]. rewrite fits_nonempty by done.
  eapply codes_bind.
  { apply (codes_fixed makeOK _ _ (dec_ImportSpec hsm)); [done|by apply Hm|]. eapply Forall_impl; [done|auto with codec]. }
  codec_step. codec_end w.
Qed.
#[local] Hint Resolve rt_WorkItem : codec.

Lemma mk_WorkItem : makes makeOK (dec_WorkItem makeOK hsm) (ok_WorkItem makeOK).
Proof.
  unfold dec_WorkItem. do 7 decoder_step. destruct (_ =? 0).
  - apply makes_ret. hnf. cbn. split_and!; try done; (split; [|constructor]; split; [unfold lenOf; cbn; lia|done]).
  - eapply makes_bind; [apply makes_exactly; [done|apply mk_ImportSpec]|]. intros l Hl.
    decoder_step. apply makes_ret. hnf. cbn. split_and!; try done. eapply exactly_slice; [|done]. done.
Qed.
#[local] Hint Resolve mk_WorkItem : decoder.

Lemma rt_WorkPackage w : is_Some hsm -> ok_WorkPackage makeOK (fun i => ok_WorkItem makeOK i /\ imports i) w ->
  codes (enc_WorkPackage hsm w) (dec_WorkPackage makeOK hsm) w.
Proof.
  intros Hh H. hnf in H; destruct_and?. unfold enc_WorkPackage, dec_WorkPackage. do 5 codec_step.
  eapply codes_slice_split; [eassumption|intros i []; by apply rt_WorkItem|]. codec_end w.
Qed.
#[local] Hint Resolve rt_WorkPackage : codec.

Lemma mk_WorkPackage : makes makeOK (dec_WorkPackage makeOK hsm) (ok_WorkPackage makeOK (ok_WorkItem makeOK)).
Proof. unfold dec_WorkPackage. decoder_record. Qed.
#[local] Hint Resolve mk_WorkPackage : decoder.

Lemma rt_WorkPackageBundle b : makeOK 0 = true -> is_Some hsm ->
  ok_WorkPackageBundle makeOK (fun i => ok_WorkItem makeOK i /\ imports i) b ->
  codes (enc_WorkPackageBundle hsm b) (dec_WorkPackageBundle makeOK hsm) b.
Proof.
  intros H0 Hh (Hp & He & Hi & Ho). unfold enc_WorkPackageBundle, dec_WorkPackageBundle.
  eapply codes_bind; [by apply rt_WorkPackage|].
  eapply codes_bind; [eapply codes_slice_list; [exact He|done|intros d; apply codes_blob]|].
  eapply codes_bind; [eapply codes_slice_list; [exact Hi|done|] |].
  { intros x Hx. eapply codes_slice_list; [exact Hx|done|]. intros y Hy. by apply codes_full. }
  eapply codes_bind; [eapply codes_slice_list; [exact Ho|done|] |].
  { intros x Hx. eapply codes_slice_list; [exact Hx|done|]. intros y Hy. by apply codes_full. }
  codec_end b.
Qed.

Lemma mk_WorkPackageBundle :
  makes makeOK (dec_WorkPackageBundle makeOK hsm) (ok_WorkPackageBundle makeOK (ok_WorkItem makeOK)).
Proof.
  unfold dec_WorkPackageBundle. decoder_step.
  eapply makes_bind; [apply makes_slice_list, makes_blob|]. intros ? ?.
  eapply makes_bind; [apply makes_slice_list, makes_slice_list, makes_full|]. intros ? ?.
  eapply makes_bind; [apply makes_slice_list, makes_slice_list, makes_full|]. intros ? ?.
  by apply makes_ret.
Qed.

(** ** State *)

Lemma rt_TicketsOrKeys t : ok_TicketsOrKeys makeOK cs t -> codes (enc_TicketsOrKeys cs t) (dec_TicketsOrKeys makeOK cs) t.
Proof.
  destruct t as [ [tk|] [ks|] ]; unfold ok_TicketsOrKeys; cbn [tk_Tickets tk_Keys]; try done; intros H;
    unfold enc_TicketsOrKeys, dec_TicketsOrKeys, ReadPointerFlag; cbn [tk_Tickets tk_Keys];
    (eapply codes_flag; [unfold is_byte; lia|reflexivity|]); cbn [Z.eqb Pos.eqb]; codec_step; apply codes_ret.
Qed.
#[local] Hint Resolve rt_TicketsOrKeys : codec.

Lemma rt_SafroleState x : ok_SafroleState makeOK cs x -> codes (enc_SafroleState cs x) (dec_SafroleState makeOK cs) x.
Proof. unfold enc_SafroleState, dec_SafroleState, ok_SafroleState, ok_ValidatorsData. codec_record x. Qed.
#[local] Hint Resolve rt_SafroleState : codec.

Lemma rt_Mmr l : Roundtrip.slice makeOK (from_option (arr 32) True) l -> codes (enc_Mmr l) (dec_Mmr makeOK) l.
Proof.
  intros H. unfold enc_Mmr, dec_Mmr. eapply codes_slice; [exact H|]. intros p Hp.
  pose proof (codes_pointer enc_OpaqueHash dec_OpaqueHash p) as Hc. destruct p; apply Hc.
  - intros ? [= <-]. by apply codes_full.
  - done.
Qed.
#[local] Hint Resolve rt_Mmr : codec.

Lemma codes_limited {A} (f : A -> W) (g : D (list A)) l n :
  lenOf l <= n -> codes (sequence f l) g l -> codes (if n <? lenOf l then fail else sequence f l) g l.
Proof. intros Hl. destruct (Z.ltb_spec n (lenOf l)); [lia|done]. Qed.

Lemma rt_RecentBlocks b : ok_RecentBlocks makeOK b -> codes (enc_RecentBlocks b) (dec_RecentBlocks makeOK) b.
Proof.
  intros [ [Hs Hl] Hm]. unfold enc_RecentBlocks, dec_RecentBlocks.
  eapply codes_bind; [apply codes_limited; [done|]; eauto with codec|]. codec_step. codec_end b.
Qed.
#[local] Hint Resolve rt_RecentBlocks : codec.

Lemma rt_AuthPool a : ok_AuthPool makeOK a -> codes (enc_AuthPool a) (dec_AuthPool makeOK) a.
Proof.
  destruct a as [l|]; unfold ok_AuthPool, enc_AuthPool, dec_AuthPool; cbn [from_option id].
  - intros ([ [Hl Hm] Hh] & Hmax & Hne). destruct (Z.ltb_spec AuthPoolMaxSize (lenOf l)); [lia|].
    eapply codes_bind; [apply codes_length; unfold lenOf in *; lia|]. rewrite fits_nonempty by done.
    eapply codes_bind; [|apply codes_ret]. apply (codes_fixed makeOK _ _ dec_OpaqueHash); [done|by apply Hm|].
    eapply Forall_impl; [done|]. intros h. apply codes_full.
  - intros _. change (codes (cat [wLength 0; cat []])
      (n ← dLength; if n =? 0 then mret None else l ← makeSlice makeOK n dec_OpaqueHash; mret (Some l)) None).
    eapply codes_bind; [apply codes_length; lia|]. apply codes_to_cat, codes_ret.
Qed.
#[local] Hint Resolve rt_AuthPool : codec.

Lemma codes_alwaysAccumulate m : dict (uint 32) (uint 64) m -> codes (enc_AlwaysAccumulateMap m) dec_AlwaysAccumulateMap m.
Proof.
  intros [Hs Hm]. unfold enc_AlwaysAccumulateMap, wMap, dec_AlwaysAccumulateMap.
  eapply codes_bind; [apply codes_length; lia|]. apply codes_to_cat. apply codes_entries.
  intros k v Hkv. destruct (Hm k v Hkv). eauto with codec.
Qed.
#[local] Hint Resolve codes_alwaysAccumulate : codec.

Lemma rt_Privileges p : ok_Privileges makeOK cs p -> codes (enc_Privileges p) (dec_Privileges makeOK cs) p.
Proof. unfold enc_Privileges, dec_Privileges. codec_record p. Qed.
#[local] Hint Resolve rt_Privileges : codec.

Lemma wapp_nil_l m : wapp (put []) m = m.
Proof. by destruct m as [ [b|] |]. Qed.

Lemma each_cons {A} (f : A -> W) x l : each f (x :: l) = wapp (f x) (each f l).
Proof. reflexivity. Qed.

(** The entries of a storage, one call of the loop each. *)
Lemma codes_storageLoop (es : list (Bytes * Bytes)) (m0 : gmap Bytes Bytes) :
  Forall (fun p => ok_storageKey makeOK (fst p) /\ blob makeOK (snd p)) es ->
  codes (each (fun p => cat [cat [wLength (lenOf (fst p)); enc_ByteSequence (fst p)]; enc_ByteSequence (snd p)]) es)
    (storageLoop makeOK (length es) m0) (foldl (fun m p => <[fst p := snd p]> m) m0 es).
Proof.
  intros Hes. revert m0. induction Hes as [|[k v] es [ [Hk Hne] Hv] Hes IH]; intros m0; [apply codes_ret|].
  cbn [fst snd] in *. destruct (Hk) as [_ [Hl _] ].
  destruct (codes_length (lenOf k)) as (b0 & E0 & H0 & D0); [unfold lenOf in *; lia|].
  destruct (codes_blob _ _ Hk) as (b1 & E1 & H1 & D1). destruct (codes_blob _ _ Hv) as (b2 & E2 & H2 & D2).
  destruct (IH (<[k := v]> m0)) as (b3 & E3 & H3 & D3). exists (((b0 ++ b1) ++ b2) ++ b3). split_and!.
  - rewrite each_cons, E3. cbn [cat foldr fst snd]. rewrite E0, E1, E2. cbn [wapp put]. by rewrite !app_nil_r.
  - unfold bytes_ok in *. by rewrite !Forall_app.
  - intros rest Hr. rewrite <- !app_assoc. cbn [length storageLoop]. unfold mbind, D_bind.
    assert (bytes_ok (b3 ++ rest)) by (by apply Forall_app).
    assert (bytes_ok (b2 ++ b3 ++ rest)) by (by apply Forall_app).
    rewrite D0 by (by apply Forall_app). rewrite fits_nonempty by done. rewrite D1 by done. rewrite D2 by done.
    cbn [foldl fst snd]. by apply D3.
Qed.

Lemma rt_Storage m : dict (ok_storageKey makeOK) (blob makeOK) m -> codes (enc_Storage m) (dec_Storage makeOK) m.
Proof.
  intros [Hs Hm]. unfold enc_Storage, wMap, dec_Storage.
  eapply codes_bind; [apply codes_length; lia|]. apply codes_to_cat.
  destruct (Z.eqb_spec (Z.of_nat (size m)) 0) as [E|].
  - assert (m = ∅) as -> by (apply map_size_empty_inv; lia). apply codes_ret.
  - pose proof (sortedEntries_perm bytesLe m) as Hp.
    assert (foldl (fun m p => <[fst p := snd p]> m) ∅ (sortedEntries bytesLe m) = m) as Hf.
    { rewrite (foldl_insert _ m ∅ Hp); [apply map_union_empty|apply map_disjoint_empty_l]. }
    rewrite <- Hf at 3.
    assert (Z.to_nat (Z.of_nat (size m)) = length (sortedEntries bytesLe m)) as ->
      by (rewrite Hp, length_map_to_list; lia).
    apply codes_storageLoop. rewrite Hp. apply Forall_forall. intros [k v] Hkv%elem_of_map_to_list.
    by apply Hm.
Qed.
#[local] Hint Resolve rt_Storage : codec.

Lemma rt_ServiceAccount x : ok_ServiceAccount makeOK x -> codes (enc_ServiceAccount x) (dec_ServiceAccount makeOK) x.
Proof.
  intros (Hi & Hp & Hl & Hs). unfold enc_ServiceAccount, dec_ServiceAccount. codec_step.
  eapply codes_bind; [eapply codes_dict; [exact Hp|eauto with codec..] |].
  eapply codes_bind; [eapply codes_dict; [exact Hl|eauto with codec|] |].
  { intros v Hv. eapply codes_slice; [exact Hv|eauto with codec]. }
  codec_step. codec_end x.
Qed.
#[local] Hint Resolve rt_ServiceAccount : codec.

Lemma rt_State s : ok_State makeOK cs s -> codes (enc_State cs s) (dec_State makeOK cs) s.
Proof.
  intros H. hnf in H; destruct_and?. unfold ok_ValidatorsData in *. unfold enc_State, dec_State.
  codec_step.
  eapply codes_bind; [eapply codes_exactly_guarded; [eassumption|] |].
  { intros q Hq. eapply codes_exactly_guarded; [exact Hq|]. intros h. apply codes_full. }
  repeat codec_step. eapply codes_eq; [apply codes_ret|]. destruct s; cbn in *. by subst.
Qed.

End Codec.

(** ** The codec *)

Section Theorems.
Context (makeOK : Z -> bool) (cs : ChainSpec) (hsm : option (gmap Bytes Bytes)) (Hcs : codec_spec cs).

(** C36: the encoding of a well-formed block is read back by the block
    decoder, whatever bytes follow it, and no well-formed block has an
    encoding that is the beginning of that of another. *)
Theorem block_roundtrip b : ok_Block makeOK cs b ->
  codes (enc_Block cs b) (dec_Block makeOK cs) b /\
  forall b' bs bs' rest rest', ok_Block makeOK cs b' -> enc_Block cs b = Ret (Some bs) ->
    enc_Block cs b' = Ret (Some bs') -> bytes_ok rest -> bytes_ok rest' -> bs ++ rest = bs' ++ rest' ->
    b' = b /\ rest' = rest.
Proof.
  intros Hb. pose proof (rt_Block makeOK cs Hcs b Hb) as Hc. split; [done|].
  intros b' bs bs' rest rest' Hb' E E' Hr Hr' Heq.
  destruct Hc as (bs1 & E1 & _ & D1). destruct (rt_Block makeOK cs Hcs b' Hb') as (bs2 & E2 & _ & D2).
  rewrite E in E1. injection E1 as <-. rewrite E' in E2. injection E2 as <-.
  specialize (D1 rest Hr). specialize (D2 rest' Hr'). rewrite Heq in D1. rewrite D1 in D2. by injection D2.
Qed.

(** Whatever bytes it is given, the block decoder returns an error, or a
    well-formed block; the only run-time panic is a slice the run time
    cannot make.  The block it returns is encoded again, and decoded to
    itself. *)
Theorem block_decoder_sound buf : bytes_ok buf ->
  match dec_Block makeOK cs buf with
  | Ret (Some (b, rest)) =>
      ok_Block makeOK cs b /\ bytes_ok rest /\ codes (enc_Block cs b) (dec_Block makeOK cs) b
  | Ret None => True
  | Crash => exists n, 0 <= n < 2 ^ 64 /\ makeOK n = false
  end.
Proof.
  intros Hb. pose proof (mk_Block makeOK cs Hcs buf Hb) as Hm.
  destruct (dec_Block makeOK cs buf) as [ [ [b rest] |] |]; [|done..].
  destruct Hm as [Hok Hr]. split_and!; [done..|]. by apply rt_Block.
Qed.

(** The encoding of a well-formed state without a last-accumulation
    output is read back. *)
Theorem state_roundtrip s : ok_State makeOK cs s -> codes (enc_State cs s) (dec_State makeOK cs) s.
Proof. apply rt_State. Qed.

(** The item the decoder returns for an item without import segments. *)
Definition dropExtrinsics (w : WorkItem) : WorkItem :=
  MkWorkItem (wi_Service w) (wi_CodeHash w) (wi_RefineGasLimit w) (wi_AccumulateGasLimit w) (wi_ExportCount w)
    (wi_Payload w) [] [].

(** A well-formed work item with import segments is read back from its
    encoding.  Of one without, the decoder drops the extrinsics, and leaves
    their encoding in the input. *)
Theorem work_item_roundtrip w : is_Some hsm -> ok_WorkItem makeOK w ->
  (wi_ImportSegments w <> [] -> codes (enc_WorkItem hsm w) (dec_WorkItem makeOK hsm) w) /\
  (wi_ImportSegments w = [] -> exists bs extrinsics,
     enc_WorkItem hsm w = Ret (Some (bs ++ extrinsics)) /\
     sequence enc_ExtrinsicSpec (wi_Extrinsic w) = Ret (Some extrinsics) /\
     forall rest, bytes_ok rest ->
       dec_WorkItem makeOK hsm (bs ++ extrinsics ++ rest) = Ret (Some (dropExtrinsics w, extrinsics ++ rest))).
Proof.
  intros Hh Hw. split; [by apply rt_WorkItem|]. intros Hi.
  pose proof Hw as (Ha & Hb & Hc & Hd & He & Hf & _ & Hx).
  destruct (codes_slice makeOK enc_ExtrinsicSpec dec_ExtrinsicSpec _ _ Hx rt_ExtrinsicSpec) as (xs & Ex & Hxs & _).
  assert (codes (cat [enc_ServiceID (wi_Service w); enc_OpaqueHash (wi_CodeHash w); enc_Gas (wi_RefineGasLimit w);
       enc_Gas (wi_AccumulateGasLimit w); enc_U16 (wi_ExportCount w); enc_ByteSequence (wi_Payload w); wLength 0])
       (dec_WorkItem makeOK hsm) (dropExtrinsics w)) as (bs & E & Hbs & Hdec).
  { unfold dec_WorkItem. repeat codec_step.
    eapply codes_bind; [apply codes_length; lia|]. apply codes_ret. }
  exists bs, xs. split_and!; [|done|].
  - unfold enc_WorkItem. rewrite Hi.
    assert (forall l l' b b', cat l = Ret (Some b) -> cat l' = Ret (Some b') -> cat (l ++ l') = Ret (Some (b ++ b'))) as Happ.
    { clear. intros l l' b b' El El'. revert b El. induction l as [|m l IH]; intros b El.
      - injection El as <-. done.
      - cbn [app cat foldr] in *. fold (cat (l ++ l')). fold (cat l) in El.
        destruct m as [ [mb|] |]; [|done..]. destruct (cat l) as [ [lb|] |]; [|done..].
        injection El as <-. rewrite (IH lb eq_refl). cbn. by rewrite app_assoc. }
    pose proof (Happ _ _ _ _ E Ex) as Eall. cbn [app] in Eall. rewrite <- Eall.
    change (each (enc_ImportSpec hsm) []) with (put []). cbn [cat foldr]. by rewrite (wapp_nil_l (wapp (wLength _) _)).
  - intros rest Hr. apply Hdec. by apply Forall_app.
Qed.

(** The encoding of a well-formed work-package bundle whose items all
    import segments is read back; what the decoder returns from any bytes is
    well-formed. *)
Theorem bundle_roundtrip : makeOK 0 = true -> is_Some hsm ->
  (forall b, ok_WorkPackageBundle makeOK (fun i => ok_WorkItem makeOK i /\ imports i) b ->
     codes (enc_WorkPackageBundle hsm b) (dec_WorkPackageBundle makeOK hsm) b) /\
  makes makeOK (dec_WorkPackageBundle makeOK hsm) (ok_WorkPackageBundle makeOK (ok_WorkItem makeOK)).
Proof. intros H0 Hh. split; [intros b; by apply rt_WorkPackageBundle|apply mk_WorkPackageBundle]. Qed.

(** The metadata and the code of a service are read back if neither is
    empty.  Without metadata the code is lost, without code the input is
    refused. *)
Theorem meta_code_decode m : bytes_ok (mc_Metadata m) -> bytes_ok (mc_Code m) ->
  fits makeOK (mc_Metadata m) -> fits makeOK (mc_Code m) -> makeOK 0 = true ->
  exists bs, enc_MetaCode m = Ret (Some bs) /\
    dec_MetaCode makeOK bs =
      match mc_Metadata m, mc_Code m with
      | [], [] => Ret (Some (m, []))
      | [], code => Ret (Some (MkMetaCode [] [], code))
      | _, [] => Ret None
      | _, _ => Ret (Some (m, []))
      end.
Proof.
  destruct m as [md code]. cbn [mc_Metadata mc_Code]. intros Hmd Hcode [Hl Hm] [Hl' Hm'] H0.
  destruct (codes_length (lenOf md)) as (b0 & E0 & Hb0 & D0); [unfold lenOf in *; lia|].
  exists (b0 ++ md ++ code). unfold enc_MetaCode. cbn [mc_Metadata mc_Code cat foldr]. rewrite E0.
  split; [cbn; by rewrite app_nil_r|].
  assert (b0 <> []) as Hne.
  { intros ->. specialize (D0 [] (Forall_nil_2 _)). done. }
  unfold dec_MetaCode, bufLen, mbind, D_bind.
  destruct (Z.eqb_spec (Z.of_nat (length (b0 ++ md ++ code))) 0) as [E|_].
  { rewrite length_app in E. destruct b0; [done|cbn in E; lia]. }
  rewrite D0 by (by apply Forall_app). destruct md as [|x md].
  - destruct code; done.
  - rewrite fits_nonempty by done. set (md' := x :: md) in *.
    assert (Z.to_nat (lenOf md') = length md') as Hn by (unfold lenOf; lia).
    unfold makeRead at 1. rewrite Hm by done. rewrite Hn. unfold bufRead at 1.
    change (md' ++ code) with (x :: (md ++ code)) at 1. cbn [app].
    rewrite take_app_length, drop_app_length.
    replace (length md' - length (md' ++ code))%nat with 0%nat by (rewrite length_app; lia).
    cbn [replicate]. rewrite app_nil_r. destruct code as [|y code].
    + unfold makeRead. cbn [length]. change (Z.of_nat 0) with 0. by rewrite H0.
    + unfold lenOf in Hm'. unfold makeRead. rewrite Hm' by done. unfold bufRead. rewrite Nat2Z.id.
      replace (length (y :: code) - length (y :: code))%nat with 0%nat by lia.
      by rewrite take_ge, drop_ge, app_nil_r by lia.
Qed.

(** No encoding of an operand or a deferred transfer is decoded: the
    decoder dereferences a nil pointer. *)
Theorem operand_or_transfer_panics o bs rest :
  enc_OperandOrDeferredTransfer o = Ret (Some bs) -> dec_OperandOrDeferredTransfer (bs ++ rest) = Crash.
Proof.
  unfold enc_OperandOrDeferredTransfer.
  destruct (od_Operand o) as [x|], (od_DeferredTransfer o) as [y|]; cbn [cat foldr]; try done;
    [destruct (enc_Operand x) as [ [b|] |]|destruct (enc_DeferredTransfer y) as [ [b|] |] ];
    cbn; try done; intros [= <-]; reflexivity.
Qed.

End Theorems.
