(* ===== verification/MetaEquiv.v ===== *)
(** * The pre-decoded handlers agree with the byte-decoding ones

    For every opcode, running the handler of [execInstructions] at [pc] is
    running the handler of [instrMetaExecForOpcode] on the metadata that
    [decodeOperands] computes there, as long as the operand bytes the format
    needs lie inside the code. *)

From S2P Require Import Prelude Words ExitReasons Opcodes Memory MemorySpec Decode DecodeSpec.
From S2P Require Import Interp Instructions MetaHandlers Program.
Local Open Scope Z_scope.

(** The operand bytes that must lie inside the code, per format: the first
    operand byte, the third one of a three-register instruction, the eight
    bytes of an extended-width immediate; and an [ecalli] has an operand. *)
Definition operands_present (code : gslice) (pc skipLength op : Z) : bool :=
  match Category (GetOpcodeInfo op) with
  | InstrCatNoArg => true
  | InstrCatOneImm => (pc + 1 <? slen code) && (1 <=? skipLength)
  | InstrCatOneRegExtImm => pc + 10 <=? slen code
  | InstrCatThreeReg => pc + 2 <? slen code
  | _ => pc + 1 <? slen code
  end.

#[local] Set Default Proof Using "Type*".

Section Equiv.
Context (code : gslice) (pc skipLength : Z).
Hypothesis Hcode : wf_code code.
Hypothesis Hlen : slen code < 2 ^ 32.
Hypothesis Hpc : 0 <= pc.
Hypothesis Hskip : 0 <= skipLength < 256.

Lemma u32_next : pc + 1 < slen code -> u32 (pc + 1) = pc + 1.
Proof. intros. apply uN_small. lia. Qed.

(** The target of an offset format is a [uint32]. *)
Ltac target_u32 :=
  intros Ht; repeat first
    [ go_step
    | match goal with H : (match ?o with Some _ => _ | None => _ end) = Ret _ |- _ => destruct o end
    | match goal with H : (let (_, _) := ?p in _) = Ret _ |- _ => destruct p end
    | simplify_eq ];
  apply uN_uN; lia.

Lemma decodeOneOffset_u32 target :
  decodeOneOffset code pc skipLength = Ret (Some target) -> u32 target = target.
Proof. unfold decodeOneOffset. target_u32. Qed.

Lemma decodeOneRegisterOneImmediateAndOneOffset_u32 rA vX target :
  decodeOneRegisterOneImmediateAndOneOffset code pc skipLength = Ret (Some (rA, vX, target)) ->
  u32 target = target.
Proof. unfold decodeOneRegisterOneImmediateAndOneOffset. target_u32. Qed.

Lemma decodeTwoRegistersAndOneOffset_u32 rA rB target :
  decodeTwoRegistersAndOneOffset code pc skipLength = Ret (Some (rA, rB, target)) ->
  u32 target = target.
Proof. unfold decodeTwoRegistersAndOneOffset. target_u32. Qed.

(** Unfold [decodeOperands] at the category of [Hc]: the length guard holds. *)
Ltac operands_start Hc Hp :=
  unfold operands_present in Hp; rewrite Hc in Hp;
  rewrite ?andb_true_iff, ?Z.ltb_lt, ?Z.leb_le in Hp;
  unfold decodeOperands, newInstr; cbn [PC SkipLen Opcode Imm0 Imm1 set_ops];
  rewrite Hc, (uN_small 8 skipLength) by lia;
  rewrite (proj2 (Z.leb_gt (slen code) (pc + 1))) by lia;
  rewrite andb_false_r; cbn [set_ops].

Lemma operands_OneOffset op instr :
  Category (GetOpcodeInfo op) = InstrCatOneOffset ->
  operands_present code pc skipLength op = true ->
  decodeOperands (newInstr pc op skipLength) code = Ret instr ->
  exists target, decodeOneOffset code pc skipLength = Ret (Some target) /\ u32 target = target /\
    instr = MkInstr pc op skipLength 0xFF 0xFF 0xFF target 0.
Proof.
  intros Hc Hp. operands_start Hc Hp.
  destruct (decodeOneOffset code pc skipLength) as [ [target|] |] eqn:E; cbn [mbind go_bind]; intros Hd;
    [| by destruct (decodeOneOffset_ok code pc skipLength ltac:(lia) E) | done].
  injection Hd as <-. eauto 10 using decodeOneOffset_u32.
Qed.

Lemma operands_TwoImm op instr :
  Category (GetOpcodeInfo op) = InstrCatTwoImm ->
  operands_present code pc skipLength op = true ->
  decodeOperands (newInstr pc op skipLength) code = Ret instr ->
  exists vx vy, decodeTwoImmediates code pc skipLength = Ret (Some (vx, vy)) /\
    instr = MkInstr pc op skipLength 0xFF 0xFF 0xFF vx vy.
Proof.
  intros Hc Hp. operands_start Hc Hp.
  destruct (decodeTwoImmediates code pc skipLength) as [ [[vx vy]|] |] eqn:E; cbn [mbind go_bind]; intros Hd;
    [| by destruct (decodeTwoImmediates_ok code pc skipLength Hcode E) | done].
  injection Hd as <-. eauto 10.
Qed.

Lemma operands_OneRegOneImm op instr :
  Category (GetOpcodeInfo op) = InstrCatOneRegOneImm ->
  operands_present code pc skipLength op = true ->
  decodeOperands (newInstr pc op skipLength) code = Ret instr ->
  exists rA vX, decodeOneRegisterAndOneImmediate code pc skipLength = Ret (Some (rA, vX)) /\
    instr = MkInstr pc op skipLength rA rA 0xFF vX 0.
Proof.
  intros Hc Hp. operands_start Hc Hp.
  destruct (decodeOneRegisterAndOneImmediate code pc skipLength) as [ [[rA vX]|] |] eqn:E; cbn [mbind go_bind]; intros Hd;
    [| by destruct (decodeOneRegisterAndOneImmediate_ok code pc skipLength Hcode E) | done].
  injection Hd as <-. eauto 10.
Qed.

Lemma operands_OneRegTwoImm op instr :
  Category (GetOpcodeInfo op) = InstrCatOneRegTwoImm ->
  operands_present code pc skipLength op = true ->
  decodeOperands (newInstr pc op skipLength) code = Ret instr ->
  exists rA vX vY, decodeOneRegisterAndTwoImmediates code pc skipLength = Ret (Some (rA, vX, vY)) /\
    instr = MkInstr pc op skipLength rA rA 0xFF vX vY.
Proof.
  intros Hc Hp. operands_start Hc Hp.
  destruct (decodeOneRegisterAndTwoImmediates code pc skipLength) as [ [[ [rA vX] vY]|] |] eqn:E; cbn [mbind go_bind]; intros Hd;
    [| by destruct (decodeOneRegisterAndTwoImmediates_ok code pc skipLength Hcode E) | done].
  injection Hd as <-. eauto 10.
Qed.

Lemma operands_OneRegImmOff op instr :
  Category (GetOpcodeInfo op) = InstrCatOneRegImmOff ->
  operands_present code pc skipLength op = true ->
  decodeOperands (newInstr pc op skipLength) code = Ret instr ->
  exists rA vX target, decodeOneRegisterOneImmediateAndOneOffset code pc skipLength = Ret (Some (rA, vX, target)) /\ u32 target = target /\
    instr = MkInstr pc op skipLength rA rA 0xFF vX target.
Proof.
  intros Hc Hp. operands_start Hc Hp.
  destruct (decodeOneRegisterOneImmediateAndOneOffset code pc skipLength) as [ [[ [rA vX] target]|] |] eqn:E; cbn [mbind go_bind]; intros Hd;
    [| by destruct (decodeOneRegisterOneImmediateAndOneOffset_ok code pc skipLength Hcode E) | done].
  injection Hd as <-. eauto 10 using decodeOneRegisterOneImmediateAndOneOffset_u32.
Qed.

Lemma operands_TwoReg op instr :
  Category (GetOpcodeInfo op) = InstrCatTwoReg ->
  operands_present code pc skipLength op = true ->
  decodeOperands (newInstr pc op skipLength) code = Ret instr ->
  exists rD rA, decodeTwoRegisters code pc = Ret (Some (rD, rA)) /\
    instr = MkInstr pc op skipLength rD rA 0xFF 0 0.
Proof.
  intros Hc Hp. operands_start Hc Hp.
  destruct (decodeTwoRegisters code pc) as [ [[rD rA]|] |] eqn:E; cbn [mbind go_bind]; intros Hd;
    [| by unfold decodeTwoRegisters in E; rewrite u32_next in E by done; destruct (Z.leb_spec (slen code) (pc + 1)); [lia|]; repeat go_step | done].
  injection Hd as <-. eauto 10.
Qed.

Lemma operands_TwoRegOneImm op instr :
  Category (GetOpcodeInfo op) = InstrCatTwoRegOneImm ->
  operands_present code pc skipLength op = true ->
  decodeOperands (newInstr pc op skipLength) code = Ret instr ->
  exists rA rB vX, decodeTwoRegistersAndOneImmediate code pc skipLength = Ret (Some (rA, rB, vX)) /\
    instr = MkInstr pc op skipLength rA rB 0xFF vX 0.
Proof.
  intros Hc Hp. operands_start Hc Hp.
  destruct (decodeTwoRegistersAndOneImmediate code pc skipLength) as [ [[ [rA rB] vX]|] |] eqn:E; cbn [mbind go_bind]; intros Hd;
    [| by destruct (decodeTwoRegistersAndOneImmediate_ok code pc skipLength Hcode E) | done].
  injection Hd as <-. eauto 10.
Qed.

Lemma operands_TwoRegOneOff op instr :
  Category (GetOpcodeInfo op) = InstrCatTwoRegOneOff ->
  operands_present code pc skipLength op = true ->
  decodeOperands (newInstr pc op skipLength) code = Ret instr ->
  exists rA rB target, decodeTwoRegistersAndOneOffset code pc skipLength = Ret (Some (rA, rB, target)) /\ u32 target = target /\
    instr = MkInstr pc op skipLength 0xFF rA rB target 0.
Proof.
  intros Hc Hp. operands_start Hc Hp.
  destruct (decodeTwoRegistersAndOneOffset code pc skipLength) as [ [[ [rA rB] target]|] |] eqn:E; cbn [mbind go_bind]; intros Hd;
    [| by destruct (decodeTwoRegistersAndOneOffset_ok code pc skipLength Hcode E) | done].
  injection Hd as <-. eauto 10 using decodeTwoRegistersAndOneOffset_u32.
Qed.

Lemma operands_TwoRegTwoImm op instr :
  Category (GetOpcodeInfo op) = InstrCatTwoRegTwoImm ->
  operands_present code pc skipLength op = true ->
  decodeOperands (newInstr pc op skipLength) code = Ret instr ->
  exists rA rB vX vY, decodeTwoRegistersAndTwoImmediates code pc skipLength = Ret (Some (rA, rB, vX, vY)) /\
    instr = MkInstr pc op skipLength rA rB 0xFF vX vY.
Proof.
  intros Hc Hp. operands_start Hc Hp.
  destruct (decodeTwoRegistersAndTwoImmediates code pc skipLength) as [ [[ [ [rA rB] vX] vY]|] |] eqn:E; cbn [mbind go_bind]; intros Hd;
    [| by destruct (decodeTwoRegistersAndTwoImmediates_ok code pc skipLength Hcode E) | done].
  injection Hd as <-. eauto 10.
Qed.

Lemma operands_ThreeReg op instr :
  Category (GetOpcodeInfo op) = InstrCatThreeReg ->
  operands_present code pc skipLength op = true ->
  decodeOperands (newInstr pc op skipLength) code = Ret instr ->
  exists rA rB rD, decodeThreeRegisters code pc = Ret (Some (rA, rB, rD)) /\
    instr = MkInstr pc op skipLength rD rA rB 0 0.
Proof.
  intros Hc Hp. operands_start Hc Hp.
  destruct (decodeThreeRegisters code pc) as [ [[ [rA rB] rD]|] |] eqn:E; cbn [mbind go_bind]; intros Hd;
    [| by unfold decodeThreeRegisters in E; rewrite (uN_small 32 (pc + 2)) in E by lia; destruct (Z.leb_spec (slen code) (pc + 2)); [lia|]; repeat go_step | done].
  injection Hd as <-. eauto 10.
Qed.

Lemma operands_NoArg op instr :
  Category (GetOpcodeInfo op) = InstrCatNoArg ->
  decodeOperands (newInstr pc op skipLength) code = Ret instr ->
  instr = MkInstr pc op skipLength 0xFF 0xFF 0xFF 0 0.
Proof.
  intros Hc. unfold decodeOperands, newInstr. cbn [PC SkipLen Opcode Imm0 Imm1 set_ops].
  rewrite Hc. cbn. intros [= <-]. by rewrite (uN_small 8 skipLength) by lia.
Qed.

(** [ecalli]: the sign-extended immediate, as the byte handler computes it. *)
Lemma operands_OneImm op instr :
  Category (GetOpcodeInfo op) = InstrCatOneImm ->
  operands_present code pc skipLength op = true ->
  decodeOperands (newInstr pc op skipLength) code = Ret instr ->
  exists d x, sslice code (u32 (pc + 1)) (u32 (pc + Z.min 4 skipLength + 1)) = Ret d /\
    DeserializeFixedLength (elems d) (Z.min 4 skipLength) = Some x /\
    is_u64 (fst (SignExtend (u8 (Z.min 4 skipLength)) x)) /\
    instr = MkInstr pc op skipLength 0xFF 0xFF 0xFF
              (fst (SignExtend (u8 (Z.min 4 skipLength)) x)) 0.
Proof.
  intros Hc Hp. operands_start Hc Hp.
  destruct (Z.ltb_spec skipLength 1); [lia|]. unfold decodeOneImmediate.
  set (lX := Z.min 4 skipLength).
  destruct (sslice code (u32 (pc + 1)) (u32 (pc + lX + 1))) as [d|] eqn:E; [|done].
  pose proof (sslice_bytes _ _ _ _ Hcode E) as Hd.
  replace (pc + lX + 1) with (pc + 1 + lX) in E by lia.
  apply sslice_length in E; [|lia]. cbn [mbind go_bind]. rewrite E.
  destruct (ReadUintSignExtended_ok d lX E ltac:(lia)) as [rest ->]. cbn [mbind go_bind].
  intros [= <-]. exists d, (if lX =? 0 then 0 else orLE (elems d) 0 0).
  assert (is_u64 (if lX =? 0 then 0 else orLE (elems d) 0 0)).
  { case_match; [by split|]. apply orLE_u64; [done|]. unfold slen in E. lia. }
  assert (Hu : is_u64 (fst (SignExtend (u8 lX) (if lX =? 0 then 0 else orLE (elems d) 0 0)))).
  { destruct (SignExtend _ _) as [v e] eqn:Es. cbn. by eapply is_u64_SignExtend. }
  split_and!; [done | by apply DeserializeFixedLength_ok | done |].
  rewrite (uN_sN 64 64) by lia. by rewrite (uN_small 64) by done.
Qed.

Lemma operands_OneRegExtImm op instr :
  Category (GetOpcodeInfo op) = InstrCatOneRegExtImm ->
  operands_present code pc skipLength op = true ->
  decodeOperands (newInstr pc op skipLength) code = Ret instr ->
  exists b d, sindex code (u32 (pc + 1)) = Ret b /\ is_byte b /\
    sslice code (u32 (pc + 2)) (u32 (pc + 10)) = Ret d /\
    DeserializeFixedLength (elems d) 8 = Some (le_val (elems d)) /\ is_u64 (le_val (elems d)) /\
    instr = MkInstr pc op skipLength (Z.min 12 (b mod 16)) 0xFF 0xFF (le_val (elems d)) 0.
Proof.
  intros Hc Hp. operands_start Hc Hp.
  destruct (sindex code (u32 (pc + 1))) as [b|] eqn:Eb; [|done]. cbn [mbind go_bind].
  rewrite (uN_small 32 (pc + 10)) by lia.
  destruct (Z.leb_spec (pc + 10) (slen code)); [|lia].
  destruct (sslice code (u32 (pc + 2)) (pc + 10)) as [d|] eqn:E; [|done]. cbn [mbind go_bind].
  pose proof (sslice_bytes _ _ _ _ Hcode E) as Hd.
  assert (slen d = 8) as Hl.
  { apply (sslice_length code (pc + 2) 8); [lia|].
    replace (pc + 2 + 8) with (pc + 10) by lia. by rewrite (uN_small 32 (pc + 10)) by lia. }
  unfold slen in Hl. rewrite take_ge by lia. intros [= <-]. exists b, d.
  split_and!; try done.
  - by eapply wf_code_index.
  - unfold DeserializeFixedLength. cbn. rewrite Hl. cbn. by rewrite orLE_0 by (done || lia).
  - pose proof (le_val_range _ Hd) as Hr. by rewrite Hl in Hr.
Qed.

End Equiv.

(** ** Agreement, opcode by opcode *)

Definition agree (op : Z) : Prop :=
  forall interp pc skipLength instr,
    wf_code (InstructionData (Prog interp)) -> slen (InstructionData (Prog interp)) < 2 ^ 32 ->
    0 <= pc -> 0 <= skipLength < 256 ->
    sindex (InstructionData (Prog interp)) pc = Ret op ->
    operands_present (InstructionData (Prog interp)) pc skipLength op = true ->
    decodeOperands (newInstr pc op skipLength) (InstructionData (Prog interp)) = Ret instr ->
    exists h, keyed execInstructions op = Some h /\
      h interp pc skipLength = instrMetaExecForOpcode op interp instr.

(** Solve [agree op] for a concrete opcode with the lemma of its category. *)
Ltac handlers :=
  eexists; split; [lazy [keyed execInstructions Z.eqb Pos.eqb]; reflexivity|];
  lazy [instrMetaExecForOpcode];
  match goal with |- ?h _ _ _ = ?g _ _ => unfold h, g end;
  cbn [Dst Src0 Src1 Imm0 Imm1 PC Opcode].

Ltac agree_cat lem :=
  intros interp pc skipLength instr Hc Hl Hpc Hs Hop Hpres Hdec;
  let H := fresh in let E := fresh in let U := fresh in
  match type of Hop with _ = Ret ?o =>
    pose proof (lem _ _ _ Hc Hl Hpc Hs o instr eq_refl Hpres Hdec) as H end;
  repeat match type of H with ex _ => destruct H as [? H] end;
  first [ destruct H as (E & U & ->) | destruct H as [E ->] ]; handlers;
  rewrite ?E, ?Hop; cbn [mbind go_bind]; rewrite ?U; first
    [ reflexivity
    | repeat (match goal with |- context [reg ?i ?r] => destruct (reg i r) end; cbn [mbind go_bind]);
      rewrite ?land_63; reflexivity ].

Ltac agree_noarg :=
  intros interp pc skipLength instr Hc Hl Hpc Hs Hop _ Hdec;
  match type of Hop with _ = Ret ?o =>
    rewrite (operands_NoArg _ _ _ Hc Hl Hpc Hs o instr eq_refl Hdec) end; handlers; reflexivity.

Lemma agree_ecalli : agree 10.
Proof.
  intros interp pc skipLength instr Hc Hl Hpc Hs _ Hpres Hdec.
  destruct (operands_OneImm _ _ _ Hc Hl Hpc Hs 10 instr eq_refl Hpres Hdec)
    as (d & x & E & Ex & Hu & ->). handlers. rewrite E. cbn [mbind go_bind]. rewrite Ex.
  pose proof (SignExtend_imm (4 `min` skipLength) x ltac:(lia)) as Herr.
  destruct (SignExtend _ _) as [v e]. cbn in *. by subst.
Qed.

Lemma agree_load_imm_64 : agree 20.
Proof.
  intros interp pc skipLength instr Hc Hl Hpc Hs _ Hpres Hdec.
  destruct (operands_OneRegExtImm _ _ _ Hc Hl Hpc Hs 20 instr eq_refl Hpres Hdec)
    as (b & d & Eb & Hb & E & Ed & Hu & ->).
  handlers. rewrite Eb. cbn [mbind go_bind]. by rewrite E; cbn [mbind go_bind]; rewrite Ed.
Qed.

Ltac agree_any :=
  first [ agree_cat operands_OneOffset | agree_cat operands_TwoImm
        | agree_cat operands_OneRegOneImm | agree_cat operands_OneRegTwoImm
        | agree_cat operands_OneRegImmOff | agree_cat operands_TwoReg
        | agree_cat operands_TwoRegOneImm | agree_cat operands_TwoRegOneOff
        | agree_cat operands_TwoRegTwoImm | agree_cat operands_ThreeReg
        | exact agree_ecalli | exact agree_load_imm_64
        | agree_noarg ].

Lemma agree_all : Forall agree validOpcodes.
Proof.
  let l := eval vm_compute in validOpcodes in change validOpcodes with l.
  repeat (apply List.Forall_cons; [agree_any|]). apply List.Forall_nil.
Qed.

Lemma meta_agree interp pc skipLength op instr :
  wf_code (InstructionData (Prog interp)) ->
  slen (InstructionData (Prog interp)) < 2 ^ 32 ->
  0 <= pc -> 0 <= skipLength < 256 ->
  IsValidOpcode op = true ->
  sindex (InstructionData (Prog interp)) pc = Ret op ->
  operands_present (InstructionData (Prog interp)) pc skipLength op = true ->
  decodeOperands (newInstr pc op skipLength) (InstructionData (Prog interp)) = Ret instr ->
  exists h, keyed execInstructions op = Some h /\
    h interp pc skipLength = instrMetaExecForOpcode op interp instr.
Proof.
  intros Hc Hl Hpc Hs Hop%valid_opcode_elem. revert op Hop interp pc skipLength instr Hc Hl Hpc Hs.
  pose proof (proj1 (Forall_forall _ _) agree_all) as H.
  intros op Hop interp pc skipLength instr. by apply (H op Hop).
Qed.


(** In code that is cut off after the opcode of [add_64] the byte-decoding
    handler halts, and the pre-decoded one panics: the metadata has the
    register 0xFF. *)
Lemma truncated_differs :
  let code := GSlice [200] [] in
  let interp := MkInterp (MkProgram code [] (MkJumpTable (GSlice [] []) 0 0) [] [] []) (replicate 13 0) (MkMemory ∅ 0 0) 9 in
  operands_present code 0 0 200 = false /\
  match keyed execInstructions 200 with Some h => h interp 0 0 = Ret (interp, ExitHalt, 0) | None => False end /\
  exists instr, decodeOperands (newInstr 0 200 0) code = Ret instr /\ instrMetaExecForOpcode 200 interp instr = Crash.
Proof.
  intros code interp. split_and!; [reflexivity| |].
  - vm_compute. reflexivity.
  - exists (MkInstr 0 200 0 255 255 255 0 0). split; vm_compute; reflexivity.
Qed.
