(* ===== verification/HandlersSpec.v ===== *)
(** * What every instruction handler preserves

    One Hoare-style rule per access of the interpreter state, a decision
    procedure over the handlers, and the resulting post-condition of
    [instrMetaExecForOpcode] for all opcodes. *)

From S2P Require Import Prelude Words ExitReasons Opcodes Memory MemorySpec Decode DecodeSpec.
From S2P Require Import Interp Instructions MetaHandlers Program.
Local Open Scope Z_scope.

(** ** Values of the bit-counting operations *)

Lemma pos_ones_range p : 0 < pos_ones p <= Zpos p.
Proof. induction p; cbn [pos_ones]; lia. Qed.

Lemma is_u64_OnesCount x : is_u64 x -> is_u64 (OnesCount x).
Proof. unfold is_u64. destruct x as [|p|p]; cbn; try lia. pose proof (pos_ones_range p). lia. Qed.

Lemma pos_tz_range p : 0 <= pos_tz p < Zpos p.
Proof. induction p; cbn [pos_tz]; lia. Qed.

Lemma is_u64_TrailingZeros w x : 0 <= w <= 64 -> is_u64 x -> is_u64 (TrailingZeros w x).
Proof.
  unfold is_u64. intros Hw Hx. destruct x as [|p|p]; cbn; try lia.
  pose proof (pos_tz_range p). lia.
Qed.

Lemma is_u64_LeadingZeros w x :
  0 <= w <= 64 -> 0 <= x < 2 ^ w -> is_u64 (LeadingZeros w x).
Proof.
  intros Hw Hx. unfold LeadingZeros, BitLen, is_u64. destruct (Z.leb_spec x 0); [lia|].
  pose proof (Z.log2_lt_pow2 x w). pose proof (Z.log2_nonneg x). lia.
Qed.

Lemma is_u64_ReverseBytes64 x : is_u64 (ReverseBytes64 x).
Proof.
  unfold ReverseBytes64. pose proof (le_val_range (reverse (le_bytes 8 x))) as H.
  rewrite length_reverse, le_bytes_length in H by lia. apply H.
  apply Forall_reverse, le_bytes_byte. lia.
Qed.

Lemma is_u64_bool (b : bool) : is_u64 (if b then 1 else 0).
Proof. by destruct b; split. Qed.

Lemma is_u64_if (b : bool) x y : is_u64 x -> is_u64 y -> is_u64 (if b then x else y).
Proof. by destruct b. Qed.

Lemma is_u64_const x : (0 <=? x) && (x <? 2 ^ 64) = true -> is_u64 x.
Proof. rewrite andb_true_iff, Z.leb_le, Z.ltb_lt. done. Qed.

Lemma is_u64_shr x k : is_u64 x -> is_u64 k -> is_u64 (shr x k).
Proof. intros Hx [Hk _]. by apply is_u64_shiftr. Qed.

Lemma is_u64_not64 x : is_u64 (not64 x).
Proof. apply is_u64_u64. Qed.

Lemma LeadingZeros_u32 x : is_u64 (LeadingZeros 32 (u32 x)).
Proof. apply is_u64_LeadingZeros; [lia|]. by apply uN_range. Qed.

#[export] Hint Resolve is_u64_OnesCount is_u64_ReverseBytes64 is_u64_bool is_u64_if is_u64_shr
  is_u64_not64 LeadingZeros_u32 is_u64_u64 is_u64_lor is_u64_land is_u64_lxor is_u64_shl64
  is_u64_div is_u64_mod is_u64_RotateLeft64 is_u64_RotateLeft32 : u64.
#[export] Hint Extern 1 (is_u64 (uN _ _)) => apply is_u64_uN; lia : u64.
#[export] Hint Extern 1 (is_u64 (TrailingZeros _ _)) => apply is_u64_TrailingZeros; [lia|] : u64.
#[export] Hint Extern 1 (is_u64 (LeadingZeros 64 _)) => apply is_u64_LeadingZeros; [lia|] : u64.
#[export] Hint Extern 5 (is_u64 _) => apply is_u64_const; reflexivity : u64.

(** ** The frame of a handler *)

(** The opcodes whose handler may write the memory. *)
Definition writes_memory (op : Z) : bool :=
  ((30 <=? op) && (op <=? 33)) || ((59 <=? op) && (op <=? 62)) ||
  ((70 <=? op) && (op <=? 73)) || (op =? 101) || ((120 <=? op) && (op <=? 123)).

(** A destination [branch] and [djump] let through: the start of a basic
    block, or a position that holds no valid opcode. *)
Definition may_jump (p : Program) (pc : Z) : Prop :=
  IsStartOfBasicBlock (Bitmasks p) pc = true \/
  isOpcodeValid (InstructionData p) pc = Ret false.

Record keeps (instr : InstrMeta) (i i' : Interpreter) : Prop := {
  keeps_wf : wf_interp i';
  keeps_gas : Gas i' = Gas i;
  keeps_prog : Prog i' = Prog i;
  keeps_regs : forall k, k <> Dst instr -> zlookup (Registers i') k = zlookup (Registers i) k;
  keeps_mem : writes_memory (Opcode instr) = false -> Mem i' = Mem i
}.

(** Normal completion, panic and halt; never a page fault or a host call. *)
Definition benign (r : Z) : Prop := r = ExitContinue \/ r = ExitPanic \/ r = ExitHalt.

Record exec_post (instr : InstrMeta) (i i' : Interpreter) (r pc' : Z) : Prop := {
  post_keeps : keeps instr i i';
  post_reason : benign r \/ i' = i;
  post_pc : pc' = PC instr \/ (r = ExitContinue /\ may_jump (Prog i) pc')
}.

Definition safe (instr : InstrMeta) (i : Interpreter) (o : outcome) : Prop :=
  exists i' r pc', o = Ret (i', r, pc') /\ exec_post instr i i' r pc'.

(** ** Operands a handler may rely on *)

Definition target_ok (p : Program) (t : Z) : Prop :=
  IsStartOfBasicBlock (Bitmasks p) t = true \/ 0 <= t < slen (InstructionData p).

(** The jump table holds [Size] entries of [Length] bytes. *)
Definition wf_jump_table (jt : JumpTable) : Prop :=
  0 <= Length jt <= 8 /\ 0 <= Size jt /\ Length jt * Size jt <= slen (Data jt) < 2 ^ 32.

Definition wf_operands (p : Program) (i : InstrMeta) : Prop :=
  is_u64 (Imm0 i) /\ is_u64 (Imm1 i) /\
  match Category (GetOpcodeInfo (Opcode i)) with
  | InstrCatInvalid | InstrCatNoArg | InstrCatOneImm | InstrCatTwoImm => True
  | InstrCatOneRegExtImm => is_reg (Dst i)
  | InstrCatOneOffset => u32 (Imm0 i) = Imm0 i /\ target_ok p (Imm0 i)
  | InstrCatOneRegOneImm | InstrCatOneRegTwoImm => is_reg (Dst i) /\ Src0 i = Dst i
  | InstrCatOneRegImmOff =>
      is_reg (Dst i) /\ Src0 i = Dst i /\ u32 (Imm1 i) = Imm1 i /\ target_ok p (Imm1 i)
  | InstrCatTwoReg | InstrCatTwoRegOneImm => is_reg (Dst i) /\ is_reg (Src0 i)
  | InstrCatTwoRegTwoImm => is_reg (Dst i) /\ is_reg (Src0 i) /\ wf_jump_table (JumpTab p)
  | InstrCatTwoRegOneOff =>
      is_reg (Src0 i) /\ is_reg (Src1 i) /\ u32 (Imm0 i) = Imm0 i /\ target_ok p (Imm0 i)
  | InstrCatThreeReg => is_reg (Dst i) /\ is_reg (Src0 i) /\ is_reg (Src1 i)
  end /\ (Opcode i = 50 -> wf_jump_table (JumpTab p)).

(** ** One rule per access *)

Section Rules.
Context (instr : InstrMeta) (i : Interpreter).
Hypothesis Hi : wf_interp i.

Lemma keeps_refl : keeps instr i i.
Proof using Hi. by constructor. Qed.

Lemma safe_here r pc' :
  pc' = PC instr -> safe instr i (Ret (i, r, pc')).
Proof using Hi. intros ->. do 3 eexists. split; [done|]. split; eauto using keeps_refl. Qed.

Lemma safe_ret i' r pc' :
  keeps instr i i' -> benign r -> pc' = PC instr \/ (r = ExitContinue /\ may_jump (Prog i) pc') ->
  safe instr i (Ret (i', r, pc')).
Proof using. intros. do 3 eexists. split; [done|]. split; eauto. Qed.

Lemma safe_reg i' r k :
  keeps instr i i' -> is_reg r -> (forall v, is_u64 v -> safe instr i (k v)) ->
  safe instr i (reg i' r ≫= k).
Proof using.
  intros Hk Hr H. destruct (reg_ok i' r (keeps_wf _ _ _ Hk) Hr) as (v & -> & Hv). by apply H.
Qed.

Lemma zlookup_insert_ne {A} (l : list A) j k v :
  0 <= k -> j <> k -> zlookup (<[Z.to_nat k := v]> l) j = zlookup l j.
Proof using.
  intros Hk Hj. unfold zlookup. destruct (Z.ltb_spec j 0); [done|].
  apply list_lookup_insert_ne. lia.
Qed.

Lemma keeps_set_reg i' v :
  keeps instr i i' -> is_reg (Dst instr) -> is_u64 v ->
  keeps instr i (set_regs i' (<[Z.to_nat (Dst instr) := v]> (Registers i'))).
Proof using.
  intros [Hw Hg Hp Hr Hm] Hd Hv. constructor; cbn; [by apply wf_set_reg|done|done| |done].
  intros k Hk. rewrite zlookup_insert_ne; [auto | unfold is_reg in Hd; lia | done].
Qed.

Lemma safe_setReg i' v k :
  keeps instr i i' -> is_reg (Dst instr) -> is_u64 v ->
  (forall i'', keeps instr i i'' -> safe instr i (k i'')) ->
  safe instr i (setReg i' (Dst instr) v ≫= k).
Proof using.
  intros Hk Hd Hv H. rewrite setReg_ok by (done || apply Hk). apply H. by apply keeps_set_reg.
Qed.

(** A store is complete, or leaves the interpreter as it is. *)
Lemma interpStore_cases j n a v :
  wf_interp j -> access_size n -> a < 2 ^ 32 ->
  (exists m', interpStore j n a v = Ret (set_mem j m', ExitContinue) /\ wf_interp (set_mem j m'))
  \/ exists r, interpStore j n a v = Ret (j, r).
Proof using.
  intros Hj Hn Ha. pose proof Hj as [_ Hm _ _]. unfold interpStore.
  assert (set_mem j (Mem j) = j) as Hid by (by destruct j).
  destruct (Z.ltb_spec a (2 ^ 16)) as [Hlow|Hlow].
  - unfold storeIntoMemory. rewrite (proj2 (Z.ltb_lt _ _) Hlow). cbn. rewrite Hid. eauto.
  - pose proof (store_refines (Mem j) n a v Hm Hn ltac:(lia)) as Hs.
    destruct (writable (Mem j) a n).
    + destruct Hs as (m' & -> & Hwm & _ & _ & Hp & Hl). left. exists m'.
      split; [done|]. by apply wf_set_mem.
    + rewrite Hs. cbn. rewrite Hid. eauto.
Qed.

Lemma safe_store n a v :
  writes_memory (Opcode instr) = true -> access_size n -> a < 2 ^ 32 ->
  safe instr i ('(i', r) ← interpStore i n a v; Ret (i', r, PC instr)).
Proof using Hi.
  intros Hw Hn Ha. destruct (interpStore_cases i n a v Hi Hn Ha) as [(m' & -> & Hm)|(r & ->)]; cbn.
  - apply safe_ret; [|by left|by left]. constructor; try done. cbn. congruence.
  - by apply safe_here.
Qed.

Lemma safe_load n a k :
  access_size n -> a < 2 ^ 32 ->
  (forall v r, is_u64 v -> safe instr i (k (v, r))) ->
  safe instr i (interpLoad i n a ≫= k).
Proof using Hi.
  intros Hn Ha H. destruct (interpLoad_ok i n a Hi Hn Ha) as (v & r & -> & Hv). by apply H.
Qed.

Lemma branch_cases b C (p : Program) :
  (C = true -> target_ok p b) ->
  exists r pc', branch (PC instr) b C (Bitmasks p) (InstructionData p) = Ret (r, pc') /\
    benign r /\ (pc' = PC instr \/ (r = ExitContinue /\ may_jump p pc')).
Proof using.
  intros Hb. unfold branch, benign, may_jump, target_ok in *. destruct C; cbn [negb]; [|eauto 10].
  destruct (IsStartOfBasicBlock (Bitmasks p) b) eqn:Es; cbn [negb]; [eauto 10|].
  destruct (Hb eq_refl) as [|Hr]; [done|].
  destruct (zindex_ok (elems (InstructionData p)) b) as (op & Hop & _); [done|].
  unfold isOpcodeValid, sindex. rewrite Hop. cbn.
  destruct (IsValidOpcode op) eqn:Ev; cbn; [eauto 10|].
  do 2 eexists. split; [done|]. split; [eauto|]. right. split; [done|]. right.
  rewrite Hop. cbn. by rewrite Ev.
Qed.

Lemma safe_branch i' b C :
  keeps instr i i' -> target_ok (Prog i) b ->
  safe instr i ('(reason, newPC) ← branch (PC instr) b C (Bitmasks (Prog i')) (InstructionData (Prog i'));
    if negb (reason =? ExitContinue) then Ret (i', reason, PC instr)
    else Ret (i', reason, newPC)).
Proof using.
  intros Hk Hb. rewrite (keeps_prog _ _ _ Hk).
  destruct (branch_cases b C (Prog i)) as (r & pc' & -> & Hr & Hpc); [done|]. cbn.
  destruct (Z.eqb_spec r ExitContinue); cbn; apply safe_ret; auto.
Qed.

Lemma djump_cases a (p : Program) :
  wf_jump_table (JumpTab p) -> 0 <= a < 2 ^ 32 ->
  exists r pc', djump (PC instr) a (JumpTab p) (Bitmasks p) = Ret (r, pc') /\
    benign r /\ (r = ExitContinue -> may_jump p pc').
Proof using.
  intros (Hl & Hs & Hd) Ha. unfold djump, benign, may_jump.
  destruct (a =? _); [by do 2 eexists; split_and!; auto|].
  destruct (_ || _) eqn:E; [by do 2 eexists; split_and!; auto|].
  apply orb_false_iff in E as [E E2]. apply orb_false_iff in E as [E0 E1].
  apply Z.eqb_neq in E0. apply Z.ltb_ge in E1. apply negb_false_iff, Z.eqb_eq in E2.
  change ZA with 2 in *.
  assert (u32 (Size (JumpTab p) * 2) <= Size (JumpTab p) * 2) by (apply Z.mod_le; lia).
  assert (1 <= a / 2 <= Size (JumpTab p)) by (pose proof (Z.div_mod a 2); lia).
  rewrite (uN_small 32 (a / 2 - 1)) by (pose proof (Z.div_mod a 2); lia).
  set (jt := JumpTab p) in *. set (idx := a / 2 - 1).
  assert (0 <= idx * Length jt /\ idx * Length jt + Length jt <= slen (Data jt)) as [? ?] by nia.
  rewrite (uN_small 32) by lia. unfold sfrom. rewrite sslice_ok by lia. cbn [mbind go_bind].
  unfold ReadUintFixed.
  destruct (Z.eqb_spec (Length jt) 0) as [|Hnz]; cbn [mbind go_bind];
    [by destruct (IsStartOfBasicBlock _ _) eqn:Es; do 2 eexists; split_and!; auto|].
  destruct (Z.ltb_spec 8 (Length jt)), (Z.ltb_spec (Length jt) 0); try lia. cbn [orb].
  match goal with |- context [slen ?s <? _] => set (d := s) end.
  assert (slen d = slen (Data jt) - idx * Length jt) as Hsd.
  { revert H1 H2. unfold d, slen. cbn. rewrite length_take, length_drop. intros. nia. }
  destruct (Z.ltb_spec (slen d) (Length jt)); [lia|]. unfold sfrom. rewrite sslice_ok by lia.
  cbn [mbind go_bind]. by destruct (IsStartOfBasicBlock _ _) eqn:Es; do 2 eexists; split_and!; auto.
Qed.

End Rules.

(** ** All handlers *)

Lemma access_size_1 : access_size 1. Proof. unfold access_size. lia. Qed.
Lemma access_size_2 : access_size 2. Proof. unfold access_size. lia. Qed.
Lemma access_size_4 : access_size 4. Proof. unfold access_size. lia. Qed.
Lemma access_size_8 : access_size 8. Proof. unfold access_size. lia. Qed.
#[export] Hint Resolve access_size_1 access_size_2 access_size_4 access_size_8 : u64.

Lemma u32_lt x : u32 x < 2 ^ 32.
Proof. pose proof (uN_range 32 x). lia. Qed.
#[export] Hint Resolve u32_lt keeps_refl : u64.

(** Case analysis on the pure parts of a handler. *)
Ltac handler_case :=
  match goal with
  | |- safe _ _ (let '(_, _) := SignExtend ?n ?x in _) =>
      let E := fresh "E" in
      destruct (SignExtend n x) eqn:E;
      apply is_u64_SignExtend in E; [|by eauto 10 with u64]
  | |- safe _ _ (let '(_, _) := (if ?b then _ else _) in _) => destruct b eqn:?
  | |- safe _ _ (let '(_, _) := Mul64 ?x ?y in _) =>
      let E := fresh "E" in
      pose proof (is_u64_mul_hi x y ltac:(by eauto with u64) ltac:(by eauto with u64)) as E;
      destruct (Mul64 x y); cbn [fst] in E
  | |- safe _ _ (if ?b then _ else _) => destruct b eqn:?
  | |- safe _ _ ((if ?b then _ else _) ≫= _) => destruct b eqn:?
  end.

Ltac handler_step :=
  cbn [mbind go_bind] in *; cbv beta in *;
  match goal with
  | |- safe _ _ (Ret (?i, _, _)) =>
      first [ by apply safe_here | apply safe_ret; [done | by unfold benign; auto | by auto] ]
  | |- safe _ _ (mbind _ (mbind _ _)) => rewrite go_bind_assoc
  | |- safe _ _ ('(_, _) ← interpStore _ _ _ _; _) =>
      apply safe_store; [done | done | by eauto with u64 | by eauto with u64]
  | |- safe _ _ (mbind _ (reg _ _)) => apply safe_reg; [by eauto with u64 | done | intros ? ?]
  | |- safe _ _ (mbind _ (setReg _ _ _)) =>
      apply safe_setReg; [by eauto with u64 | done | by eauto 10 with u64 | intros ? ?]
  | |- safe _ _ (mbind _ (interpLoad _ _ _)) =>
      apply safe_load; [done | by eauto with u64 | by eauto with u64 | intros ? ? ?]
  | |- safe _ _ (mbind _ (branch _ _ _ _ _)) =>
      apply safe_branch; [by eauto with u64 | done]
  | _ => handler_case
  end.

Definition handler_safe (op : Z) : Prop :=
  forall instr i, Opcode instr = op -> wf_interp i -> wf_operands (Prog i) instr ->
    safe instr i (instrMetaExecForOpcode op i instr).

Ltac handler_start :=
  let Ho := fresh in
  intros [pc o sk d s0 s1 i0 i1] i Ho Hi Hw; cbn [Opcode] in Ho; subst o;
  unfold wf_operands in Hw; cbn [Imm0 Imm1 Dst Src0 Src1 Opcode] in Hw;
  match type of Hw with context [Category (GetOpcodeInfo ?k)] =>
    let c := eval vm_compute in (Category (GetOpcodeInfo k)) in
    change (Category (GetOpcodeInfo k)) with c in Hw end;
  cbv match in Hw; destruct_and! Hw; subst;
  lazy [instrMetaExecForOpcode];
  match goal with |- safe _ _ (?h _ _) => unfold h end;
  cbn [Imm0 Imm1 Dst Src0 Src1 PC Opcode];
  repeat match goal with H : u32 ?x = ?x |- _ => rewrite ?H; clear H end.

Ltac handler := handler_start; repeat handler_step.


Definition plain (op : Z) : bool := negb (bool_decide (op ∈ [50; 101; 180])).

Lemma handlers_safe : Forall handler_safe (filter (fun op => plain op = true) validOpcodes).
Proof.
  let l := eval vm_compute in (filter (fun op => plain op = true) validOpcodes) in
  change (filter (fun op => plain op = true) validOpcodes) with l.
  repeat (apply List.Forall_cons; [solve [handler]|]). apply List.Forall_nil.
Qed.

Lemma handler_jump_ind : handler_safe 50.
Proof.
  handler_start. apply safe_reg; [by eauto with u64 | done | intros a Ha]. cbn.
  pose proof (djump_cases (MkInstr pc 50 sk d d s1 i0 i1) (u32 (u64 (a + i0))) (Prog i) ltac:(auto) ltac:(by apply uN_range)) as Hdj.
  cbn [PC] in Hdj. destruct Hdj as (r & pc' & -> & Hr & Hj). cbn.
  repeat case_match; try by apply safe_here. apply safe_ret; auto using keeps_refl.
  right. destruct Hr as [-> | [-> | ->]]; auto; done.
Qed.

Lemma handler_load_imm_jump_ind : handler_safe 180.
Proof.
  handler_start. apply safe_reg; [by eauto with u64 | done | intros b Hb]. cbn.
  pose proof (djump_cases (MkInstr pc 180 sk d s0 s1 i0 i1) (u32 (u64 (b + i1))) (Prog i) ltac:(auto) ltac:(by apply uN_range)) as Hdj.
  cbn [PC] in Hdj. destruct Hdj as (r & pc' & -> & Hr & Hj). cbn.
  apply safe_setReg; [by eauto with u64 | done | done | intros i'' Hk]. cbn.
  repeat case_match; apply safe_ret; auto.
  right. destruct Hr as [-> | [-> | ->]]; auto; done.
Qed.

(** Pages added for the heap are zeroed read-write pages. *)
Lemma allocLoop_None_wf fuel m addr fin acc :
  wf_mem m -> wf_mem (allocLoop fuel m addr fin None acc) /\
  heapPointer (allocLoop fuel m addr fin None acc) = heapPointer m /\
  heapLimit (allocLoop fuel m addr fin None acc) = heapLimit m.
Proof.
  revert m addr. induction fuel as [|fuel IH]; intros m addr Hm; cbn; [done|].
  destruct (addr <? fin); [|done]. destruct (Pages m !! (addr / ZP)); [by apply IH|].
  assert (wf_page (MkPage (replicate (Z.to_nat ZP) 0) acc)) as Hp.
  { split; [apply length_replicate | by apply Forall_replicate]. }
  exact (IH (set_page m (addr / ZP) _) (u32 (addr + ZP)) (wf_set_page _ _ _ Hm Hp)).
Qed.

Lemma handler_sbrk : handler_safe 101.
Proof.
  handler_start. apply safe_reg; [by eauto with u64 | done | intros a Ha]. cbn.
  pose proof Hi as [Hr Hm Hh Hx].
  destruct (a =? 0); [repeat handler_step|].
  destruct (_ || _) eqn:E; [repeat handler_step|].
  apply orb_false_iff in E as [E1 E2]. apply Z.ltb_ge in E1, E2.
  assert (is_u64 (u64 (heapPointer (Mem i) + a))) as Hu by (by eauto with u64).
  apply safe_setReg; [|done|done|intros i'' Hk; by repeat handler_step].
  constructor; try done. cbn. constructor; cbn; try done.
  - case_match; [|done]. by apply allocLoop_None_wf.
  - case_match; [|done]. unfold allocateMemorySegment.
    by destruct (allocLoop_None_wf (Z.to_nat ((pageUp (s64 (u64 (heapPointer (Mem i) + a)))
      - u32 (heapPointer (Mem i))) / ZP + 1)) (Mem i) (u32 (heapPointer (Mem i)))
      (pageUp (s64 (u64 (heapPointer (Mem i) + a)))) MemoryReadWrite Hm) as (_ & _ & ->).
Qed.

Lemma all_handlers_safe op : IsValidOpcode op = true -> handler_safe op.
Proof.
  intros Hv%valid_opcode_elem. destruct (plain op) eqn:E.
  - eapply Forall_forall; [apply handlers_safe|]. by apply list_elem_of_filter.
  - unfold plain in E. apply negb_false_iff, bool_decide_eq_true in E.
    rewrite !elem_of_cons, elem_of_nil in E. destruct E as [-> | [-> | [-> | []]]];
      auto using handler_jump_ind, handler_sbrk, handler_load_imm_jump_ind.
Qed.

(** C39: on a well-formed interpreter and well-formed operands, the handler of
    every valid opcode returns without a run-time panic; it keeps the
    interpreter well-formed, charges no gas, keeps the program, writes no
    register but the destination and no memory unless it is a store or
    [sbrk]; on a page fault or a host call nothing at all has changed; and
    the new counter is the old one or an allowed destination. *)
Theorem handlers_preserve op instr i :
  IsValidOpcode op = true -> Opcode instr = op ->
  wf_interp i -> wf_operands (Prog i) instr ->
  exists i' r pc', instrMetaExecForOpcode op i instr = Ret (i', r, pc') /\
    exec_post instr i i' r pc'.
Proof. intros Hv Ho Hi Hw. by apply all_handlers_safe. Qed.

(** * What a handler can return *)


Definition same_gas (i i' : Interpreter) : Prop := Gas i' = Gas i /\ Prog i' = Prog i.

Definition fault_reason (r : Z) : Prop :=
  exists a, 0 <= a < 2 ^ 32 /\ r = Z.lor ExitPageFault a.

(** [hc] is the set of host-call reasons of the opcode, [dest r] the set of
    program counters the handler may return with the exit reason [r]. *)
Definition framed (hc : Z -> Prop) (dest : Z -> Z -> Prop) (i : Interpreter) (o : outcome) : Prop :=
  forall i' r pc', o = Ret (i', r, pc') ->
    same_gas i i' /\ (benign r \/ fault_reason r \/ hc r) /\ dest r pc'.

Section Rules.
Context (hc : Z -> Prop) (dest : Z -> Z -> Prop) (i : Interpreter).

Lemma same_gas_refl : same_gas i i.
Proof using. done. Qed.

Lemma framed_ret j r pc :
  same_gas i j -> benign r \/ fault_reason r \/ hc r -> dest r pc ->
  framed hc dest i (Ret (j, r, pc)).
Proof using. by intros ? ? ? ? ? ? [= <- <- <-]. Qed.

Lemma framed_bind {A} (m : go A) k : (forall a, framed hc dest i (k a)) -> framed hc dest i (m ≫= k).
Proof using. intros H ? ? ?. destruct m; [apply H|done]. Qed.

Lemma framed_setReg j d v k :
  same_gas i j -> (forall j', same_gas i j' -> framed hc dest i (k j')) ->
  framed hc dest i (setReg j d v ≫= k).
Proof using.
  intros Hj H. unfold setReg. destruct (zupdate _ _ _); cbn; [|by intros ? ? ?]. by apply H.
Qed.

Definition mem_reason (r : Z) : Prop := benign r \/ fault_reason r.

Lemma mem_reason_fault a : 0 <= a < 2 ^ 32 -> mem_reason (Z.lor ExitPageFault a).
Proof using. intros. right. by exists a. Qed.

Lemma mem_reason_continue : mem_reason ExitContinue.
Proof using. by left; left. Qed.

Lemma mem_reason_panic : mem_reason ExitPanic.
Proof using. by left; right; left. Qed.
Hint Resolve mem_reason_fault mem_reason_continue mem_reason_panic : u64.

Lemma store_reason m n a v m' r :
  0 <= a < 2 ^ 32 -> storeIntoMemory m n a v = Ret (m', r) -> mem_reason r.
Proof using.
  intros Ha. unfold storeIntoMemory.
  repeat case_match; intros; go_inv; simplify_eq; auto with u64.
Qed.

Lemma load_reason m n a v r :
  0 <= a < 2 ^ 32 -> loadFromMemory m n a = Ret (v, r) -> mem_reason r.
Proof using.
  intros Ha. unfold loadFromMemory, loadCrossPage.
  repeat case_match; intros; go_inv; repeat case_match; go_inv; simplify_eq; auto with u64.
Qed.

Lemma framed_store j n a v k :
  same_gas i j -> 0 <= a < 2 ^ 32 ->
  (forall j' r, same_gas i j' -> mem_reason r -> framed hc dest i (k (j', r))) ->
  framed hc dest i (interpStore j n a v ≫= k).
Proof using.
  intros Hj Ha H. unfold interpStore. destruct (storeIntoMemory _ _ _ _) as [[m r]|] eqn:E; cbn.
  - apply H; [done|]. by eapply store_reason.
  - by intros ? ? ?.
Qed.

Lemma framed_load j n a k :
  0 <= a < 2 ^ 32 -> (forall v r, mem_reason r -> framed hc dest i (k (v, r))) ->
  framed hc dest i (interpLoad j n a ≫= k).
Proof using.
  intros Ha H. unfold interpLoad. destruct (loadFromMemory _ _ _) as [[v r]|] eqn:E; cbn.
  - apply H. by eapply load_reason.
  - by intros ? ? ?.
Qed.

Lemma framed_branch j pc b C k :
  same_gas i j -> (forall r, dest r pc) ->
  (forall q, IsStartOfBasicBlock (Bitmasks (Prog i)) q = true -> dest ExitContinue q) ->
  (isOpcodeValid (InstructionData (Prog i)) b = Ret false -> dest ExitContinue b) ->
  (forall r pc', benign r -> dest r pc' -> framed hc dest i (k (r, pc'))) ->
  framed hc dest i (branch pc b C (Bitmasks (Prog j)) (InstructionData (Prog j)) ≫= k).
Proof using.
  intros [_ Hj] Hpc Hbb Hb H. rewrite Hj. unfold branch, benign in *.
  destruct C; cbn [negb]; [|by apply H; auto].
  destruct (IsStartOfBasicBlock _ b) eqn:E; cbn [negb]; [by apply H; auto|].
  destruct (isOpcodeValid _ b) as [ [] |]; cbn; [apply H; auto | apply H; auto | by intros ? ? ?].
Qed.

Lemma framed_djump j pc a jt k :
  same_gas i j -> (forall r, dest r pc) ->
  (forall q, IsStartOfBasicBlock (Bitmasks (Prog i)) q = true -> dest ExitContinue q) ->
  (forall r pc', benign r -> dest r pc' -> framed hc dest i (k (r, pc'))) ->
  framed hc dest i (djump pc a jt (Bitmasks (Prog j)) ≫= k).
Proof using.
  intros [_ Hj] Hpc Hbb H. rewrite Hj.
  destruct (djump pc a jt _) as [[r pc']|] eqn:E; cbn; [|by intros ? ? ?].
  assert (benign r /\ dest r pc') as [? ?]; [|by apply H]. revert E. unfold djump, benign.
  repeat first [ case_match | intros; go_step ]; simplify_eq; auto 10.
  split; [auto|]. apply Hbb. by apply negb_false_iff.
Qed.

End Rules.

Lemma u32_range x : 0 <= u32 x < 2 ^ 32.
Proof. by apply uN_range. Qed.
#[export] Hint Resolve u32_range same_gas_refl : u64.

#[export] Hint Resolve mem_reason_fault mem_reason_continue mem_reason_panic : u64.

(** The jump target an instruction encodes. *)
Definition static_target (instr : InstrMeta) : option Z :=
  match Category (GetOpcodeInfo (Opcode instr)) with
  | InstrCatOneOffset => Some (u32 (Imm0 instr))
  | InstrCatOneRegImmOff => Some (u32 (Imm1 instr))
  | InstrCatTwoRegOneOff => Some (u32 (Imm0 instr))
  | _ => None
  end.

(** Where an instruction can continue: at the start of a basic block, or at
    its own target when no valid opcode is there. *)
Definition jump_dest (i : Interpreter) (instr : InstrMeta) (r q : Z) : Prop :=
  q = PC instr \/ (r = ExitContinue /\
  (IsStartOfBasicBlock (Bitmasks (Prog i)) q = true \/
   (isOpcodeValid (InstructionData (Prog i)) q = Ret false /\ static_target instr = Some q))).

Ltac frame_step :=
  cbn [mbind go_bind]; cbv beta;
  match goal with
  | |- framed _ _ _ (Ret _) =>
      apply framed_ret;
        [ done
        | first [by left | by right; left | unfold mem_reason in *; tauto
                | left; unfold benign; tauto | right; right; eauto ]
        | done ]
  | |- framed _ _ _ Crash => by intros ? ? ?
  | |- framed _ _ _ (mbind _ (mbind _ _)) => rewrite go_bind_assoc
  | |- framed _ _ _ (mbind _ (setReg _ _ _)) => apply framed_setReg; [done | intros ? ?]
  | |- framed _ _ _ (mbind _ (interpStore _ _ _ _)) =>
      apply framed_store; [done | by eauto with u64 | intros ? ? ? ?]
  | |- framed _ _ _ (mbind _ (interpLoad _ _ _)) =>
      apply framed_load; [by eauto with u64 | intros ? ? ?]
  | |- framed _ _ _ (mbind _ (branch _ _ _ _ _)) =>
      apply framed_branch; [done | done | by auto | by auto | intros ? ? ? ?]
  | |- framed _ _ _ (mbind _ (djump _ _ _ _)) =>
      apply framed_djump; [done | done | by auto | intros ? ? ? ?]
  | |- framed _ _ _ (mbind _ (match ?x with _ => _ end)) => destruct x eqn:?
  | |- framed _ _ _ (mbind _ _) => apply framed_bind; intros ?
  | |- framed _ _ _ (match ?x with _ => _ end) => destruct x eqn:?
  end.

(** The host-call reasons of an opcode. *)
Definition hostcall_of (op : Z) (v r : Z) : Prop := op = 10 /\ r = Z.lor ExitHostCall v.

Definition meta_framed (op : Z) : Prop :=
  forall i instr, Opcode instr = op ->
    framed (hostcall_of op (Imm0 instr)) (jump_dest i instr) i (instrMetaExecForOpcode op i instr).

Definition byte_framed (op : Z) : Prop :=
  forall h, keyed execInstructions op = Some h ->
  forall i pc skipLength,
    framed (fun r => exists v, hostcall_of op v r) (fun _ _ => True) i (h i pc skipLength).

Ltac frame_meta :=
  let Ho := fresh in
  intros i [pc o sk d s0 s1 i0 i1] Ho; cbn [Opcode] in Ho; subst o;
  match goal with |- framed _ (jump_dest i ?instr) _ _ =>
    pose proof ((fun r => or_introl eq_refl) : forall r, jump_dest i instr r pc);
    pose proof ((fun q H => or_intror (conj eq_refl (or_introl H))) : forall q,
      IsStartOfBasicBlock (Bitmasks (Prog i)) q = true -> jump_dest i instr ExitContinue q);
    pose proof ((fun q H1 H2 => or_intror (conj eq_refl (or_intror (conj H1 H2)))) : forall q,
      isOpcodeValid (InstructionData (Prog i)) q = Ret false ->
      static_target instr = Some q -> jump_dest i instr ExitContinue q)
  end;
  lazy [instrMetaExecForOpcode];
  match goal with |- framed _ _ _ (?h _ _) => unfold h end;
  cbn [Imm0 Imm1 Dst Src0 Src1 PC Opcode];
  pose proof (same_gas_refl i); unfold hostcall_of; repeat frame_step.

Ltac frame_byte :=
  let E := fresh in
  intros h E; lazy [keyed execInstructions Z.eqb Pos.eqb] in E; injection E as <-; intros i pc skipLength;
  match goal with |- framed _ _ _ (?h _ _ _) => unfold h end;
  pose proof (same_gas_refl i); unfold hostcall_of; repeat frame_step.

Lemma all_meta_framed : Forall meta_framed validOpcodes.
Proof.
  let l := eval vm_compute in validOpcodes in change validOpcodes with l.
  repeat (apply List.Forall_cons; [solve [frame_meta]|]). apply List.Forall_nil.
Qed.

Lemma all_byte_framed : Forall byte_framed validOpcodes.
Proof.
  let l := eval vm_compute in validOpcodes in change validOpcodes with l.
  repeat (apply List.Forall_cons; [solve [frame_byte]|]). apply List.Forall_nil.
Qed.
