(* ===== verification/ArithSpec.v ===== *)
(** * The arithmetic instructions

    A reference semantics of the three-register instructions (A.5.13) in
    integer arithmetic, and its equivalence with the handlers. *)

From S2P Require Import Prelude Words ExitReasons Opcodes Memory MemorySpec Decode Interp.
From S2P Require Import Instructions MetaHandlers HandlersSpec.
Local Open Scope Z_scope.

(** ** Machine words *)

Lemma sN_uN n m x : 0 < n <= m -> sN n (uN m x) = sN n x.
Proof.
  intros H. unfold sN. pose proof (uN_uN n m x ltac:(lia)) as He. unfold uN in He. unfold uN. by rewrite He.
Qed.

Lemma u64_s32 x : u64 (s64 (s32 x)) = u64 (s32 x).
Proof. by rewrite uN_sN. Qed.

(** Sign extension from 32 bits. *)
Definition X4 (x : Z) : Z := u64 (s32 x).

Lemma SignExtend4 x : SignExtend 4 x = (X4 x, false).
Proof. unfold SignExtend, X4. by rewrite u64_s32. Qed.

Lemma X4_u32 x : X4 (u32 x) = X4 x.
Proof. unfold X4. by rewrite sN_uN. Qed.

Lemma X4_u64 x : X4 (u64 x) = X4 x.
Proof. unfold X4. by rewrite sN_uN. Qed.

Lemma shl64_mul x k : 0 <= k < 64 -> shl64 x k = u64 (x * 2 ^ k).
Proof.
  intros Hk. unfold shl64. destruct (Z.ltb_spec k 64); [|lia]. by rewrite Z.shiftl_mul_pow2 by lia.
Qed.

Lemma shr_div x k : 0 <= k -> shr x k = x / 2 ^ k.
Proof. intros. unfold shr. by rewrite Z.shiftr_div_pow2. Qed.

Lemma mod64_range b : 0 <= b mod 64 < 64.
Proof. apply Z.mod_pos_bound. lia. Qed.
Lemma mod32_range b : 0 <= b mod 32 < 32.
Proof. apply Z.mod_pos_bound. lia. Qed.

(** Operands of a sum without common bits. *)
Lemma lor_add x y : Z.land x y = 0 -> Z.lor x y = x + y.
Proof. intros H. rewrite <- Z.lxor_lor by done. symmetry. by apply Z.add_nocarry_lxor. Qed.

(** Rotation by [s] of a [w]-bit word. *)
Lemma rotate_add w x s :
  0 < w -> 0 <= s < w -> 0 <= x < 2 ^ w ->
  Z.lor (uN w (Z.shiftl x s)) (Z.shiftr x (w - s)) = (x * 2 ^ s) mod 2 ^ w + x / 2 ^ (w - s).
Proof.
  intros Hw Hs Hx. rewrite lor_add.
  - unfold uN. by rewrite Z.shiftl_mul_pow2, Z.shiftr_div_pow2 by lia.
  - apply Z.bits_inj'. intros i Hi. rewrite Z.land_spec, Z.bits_0. unfold uN.
    rewrite Z.testbit_mod_pow2 by lia. rewrite Z.shiftl_spec, Z.shiftr_spec by lia.
    destruct (Z.ltb_spec i s).
    + rewrite (Z.testbit_neg_r x (i - s)) by lia. by rewrite andb_false_r.
    + rewrite <- (Z.mod_small x (2 ^ w)) at 2 by lia. rewrite Z.mod_pow2_bits_high by lia.
      apply andb_false_r.
Qed.

Definition rotl (w x r : Z) : Z := (x * 2 ^ r) mod 2 ^ w + x / 2 ^ (w - r).
Definition rotr (w x r : Z) : Z := x / 2 ^ r + (x mod 2 ^ r) * 2 ^ (w - r).

Lemma rotl_rotr w x r :
  0 <= r < w -> 0 <= x < 2 ^ w -> rotl w x ((w - r) mod w) = rotr w x r.
Proof.
  intros Hr Hx. unfold rotl, rotr. destruct (Z.eq_dec r 0) as [->|Hr0].
  - rewrite Z.sub_0_r, Z.mod_same, Z.pow_0_r, !Z.mul_1_r, Z.div_1_r, Z.mod_1_r by lia.
    rewrite Z.sub_0_r, Z.mod_small, Z.div_small by lia. lia.
  - rewrite (Z.mod_small (w - r)) by lia. replace (w - (w - r)) with r by lia.
    rewrite Z.add_comm. f_equal. replace (2 ^ w) with (2 ^ r * 2 ^ (w - r)) by
      (rewrite <- Z.pow_add_r by lia; f_equal; lia).
    rewrite Z.mul_mod_distr_r; [done|apply Z.pow_nonzero; lia|apply Z.pow_nonzero; lia].
Qed.

Lemma RotateLeft64_rotl x k : is_u64 x -> RotateLeft64 x k = rotl 64 x (k mod 64).
Proof.
  intros Hx. unfold RotateLeft64. rewrite land_63. apply rotate_add; [lia|apply mod64_range|done].
Qed.

Lemma RotateLeft32_rotl x k : 0 <= x < 2 ^ 32 -> RotateLeft32 x k = rotl 32 x (k mod 32).
Proof.
  intros Hx. unfold RotateLeft32. rewrite land_31. apply rotate_add; [lia|apply mod32_range|done].
Qed.

(** The amount of a right rotation, computed in [int64]. *)
Lemma neg_mod b w : 0 < w -> (w | 2 ^ 64) -> s64 (- s64 b) mod w = (w - b mod w) mod w.
Proof.
  intros Hw Hd.
  assert (H : forall x, s64 x mod w = x mod w).
  { intros x. pose proof (sN_cong 64 x ltac:(lia)) as Hc. destruct Hd as [c Hc'].
    pose proof (Z.div_mod (s64 x) (2 ^ 64) ltac:(lia)) as H1.
    pose proof (Z.div_mod x (2 ^ 64) ltac:(lia)) as H2.
    set (q1 := s64 x / 2 ^ 64) in *. set (q2 := x / 2 ^ 64) in *.
    assert (s64 x = x + (q1 - q2) * c * w) as ->; [|by apply Z.mod_add; lia].
    rewrite <- Z.mul_assoc, <- Hc'. lia. }
  rewrite H, <- (Z.sub_0_l (s64 b)), Zminus_mod, H, <- Zminus_mod.
  rewrite <- (Z.mod_add (0 - b) (b / w + 1) w) by lia. f_equal. pose proof (Z.div_mod b w ltac:(lia)). lia.
Qed.

(** ** Reference semantics *)

Definition MAX64 : Z := 2 ^ 64 - 1.
Definition b2z (b : bool) : Z := if b then 1 else 0.

(** The result of the three-register instruction [op] on the register values
    [a] and [b], both in [0, 2^64); [None] leaves the destination as it is.
    [s64] and [s32] read a word as a two's complement number, [/] and [mod]
    round down, [Z.quot] and [Z.rem] towards zero. *)
Definition ref3 (op a b : Z) : option Z :=
  match op with
  | 190 => Some (X4 (a + b))
  | 191 => Some (X4 (a - b))
  | 192 => Some (X4 (a * b))
  | 193 => Some (if u32 b =? 0 then MAX64 else X4 (u32 a / u32 b))
  | 194 => Some (if s32 b =? 0 then MAX64
                 else if (s32 a =? - 2 ^ 31) && (s32 b =? -1) then u64 (s32 a)
                 else u64 (Z.quot (s32 a) (s32 b)))
  | 195 => Some (if u32 b =? 0 then X4 a else X4 (u32 a mod u32 b))
  | 196 => Some (if (s32 a =? - 2 ^ 31) && (s32 b =? -1) then 0
                 else if s32 b =? 0 then u64 (s32 a) else u64 (Z.rem (s32 a) (s32 b)))
  | 197 => Some (X4 (a * 2 ^ (b mod 32)))
  | 198 => Some (X4 (u32 a / 2 ^ (b mod 32)))
  | 199 => Some (u64 (s32 a / 2 ^ (b mod 32)))
  | 200 => Some (u64 (a + b))
  | 201 => Some (u64 (a - b))
  | 202 => Some (u64 (a * b))
  | 203 => Some (if b =? 0 then MAX64 else a / b)
  | 204 => Some (if b =? 0 then MAX64
                 else if (s64 a =? - 2 ^ 63) && (s64 b =? -1) then a
                 else u64 (Z.quot (s64 a) (s64 b)))
  | 205 => Some (if b =? 0 then a else a mod b)
  | 206 => Some (if (s64 a =? - 2 ^ 63) && (s64 b =? -1) then 0
                 else if b =? 0 then a else u64 (Z.rem (s64 a) (s64 b)))
  | 207 => Some (u64 (a * 2 ^ (b mod 64)))
  | 208 => Some (a / 2 ^ (b mod 64))
  | 209 => Some (u64 (s64 a / 2 ^ (b mod 64)))
  | 210 => Some (Z.land a b)
  | 211 => Some (Z.lxor a b)
  | 212 => Some (Z.lor a b)
  | 213 => Some (u64 (s64 a * s64 b / 2 ^ 64))
  | 214 => Some (a * b / 2 ^ 64)
  | 215 => Some (u64 (s64 a * b / 2 ^ 64))
  | 216 => Some (b2z (a <? b))
  | 217 => Some (b2z (s64 a <? s64 b))
  | 218 => if b =? 0 then Some a else None
  | 219 => if b =? 0 then None else Some a
  | 220 => Some (rotl 64 a (b mod 64))
  | 221 => Some (X4 (rotl 32 (u32 a) (b mod 32)))
  | 222 => Some (rotr 64 a (b mod 64))
  | 223 => Some (X4 (rotr 32 (u32 a) (b mod 32)))
  | 224 => Some (Z.land a (MAX64 - b))
  | 225 => Some (Z.lor a (MAX64 - b))
  | 226 => Some (MAX64 - Z.lxor a b)
  | 227 => Some (u64 (Z.max (s64 a) (s64 b)))
  | 228 => Some (Z.max a b)
  | 229 => Some (u64 (Z.min (s64 a) (s64 b)))
  | 230 => Some (Z.min a b)
  | _ => None
  end.

(** [op] writes [f a b] to its destination. *)
Definition computes3 (f : Z -> Z -> option Z) (op : Z) : Prop :=
  forall i instr a b, wf_interp i -> is_reg (Dst instr) ->
    reg i (Src0 instr) = Ret a -> reg i (Src1 instr) = Ret b -> is_u64 a -> is_u64 b ->
    instrMetaExecForOpcode op i instr =
      Ret (match f a b with
           | Some v => set_regs i (<[Z.to_nat (Dst instr) := v]> (Registers i))
           | None => i
           end, ExitContinue, PC instr).

Lemma not64_sub b : is_u64 b -> not64 b = MAX64 - b.
Proof.
  intros Hb. unfold not64, MAX64, is_u64 in *. replace (Z.lnot b) with (- b - 1) by (unfold Z.lnot; lia).
  unfold uN. rewrite <- (Z.mod_add (- b - 1) 1) by lia. rewrite Z.mod_small; lia.
Qed.

Lemma abs64_abs x : u64 (abs64 (s64 x)) = Z.abs (s64 x).
Proof.
  pose proof (sN_range 64 x ltac:(lia)) as Hr. unfold abs64.
  destruct (Z.ltb_spec (s64 x) 0).
  - rewrite uN_sN by lia. rewrite uN_small by lia. lia.
  - rewrite uN_small by lia. lia.
Qed.

Lemma s64_0 b : is_u64 b -> (s64 b =? 0) = (b =? 0).
Proof.
  intros Hb. unfold sN, is_u64 in *. rewrite Z.mod_small by lia.
  destruct (Z.eqb_spec b 0); [apply Z.eqb_eq|apply Z.eqb_neq];
    destruct (Z.ltb_spec b (2 ^ (64 - 1))); lia.
Qed.

Lemma u64_s64 x : is_u64 x -> u64 (s64 x) = x.
Proof. intros. rewrite uN_sN by lia. by apply uN_small. Qed.

(** [hi] and [lo] of a product, and the floor of its negation. *)
Lemma neg_div p : (- p) / 2 ^ 64 = - (p / 2 ^ 64) - (if p mod 2 ^ 64 =? 0 then 0 else 1).
Proof.
  pose proof (Z.div_mod p (2 ^ 64) ltac:(lia)). pose proof (Z.mod_pos_bound p (2 ^ 64) ltac:(lia)).
  destruct (Z.eqb_spec (p mod 2 ^ 64) 0).
  - symmetry. apply (Z.div_unique _ _ _ 0); lia.
  - symmetry. apply (Z.div_unique _ _ _ (2 ^ 64 - p mod 2 ^ 64)); lia.
Qed.

Lemma u64_neg_u64 x : u64 (s64 (- s64 x)) = u64 (- x).
Proof.
  rewrite uN_sN by lia. unfold uN. rewrite <- (Z.sub_0_l (s64 x)), <- (Z.sub_0_l x).
  rewrite Zminus_mod, (Zminus_mod 0 x). by rewrite sN_cong.
Qed.

Ltac arith3 :=
  intros i instr a b Hi Hd Ha Hb Hua Hub; lazy [instrMetaExecForOpcode];
  match goal with |- ?h _ _ = _ => unfold h end; cbv zeta;
  rewrite ?Ha, ?Hb; cbn [mbind go_bind];
  rewrite ?Ha; cbn [mbind go_bind ref3];
  rewrite ?SignExtend4; rewrite ?(setReg_ok _ _ _ Hi Hd); cbn [mbind go_bind].

Lemma arith_plain :
  Forall (fun op => computes3 (ref3 op) op) [190; 192; 200; 201; 202; 210; 211; 212; 214; 216; 217].
Proof.
  repeat (apply List.Forall_cons;
    [arith3; rewrite ?X4_u32, ?X4_u64; first [reflexivity | by unfold Mul64; cbn; rewrite ?setReg_ok by done]|]).
  apply List.Forall_nil.
Qed.

Lemma X4_cong x y : u32 x = u32 y -> X4 x = X4 y.
Proof. intros H. by rewrite <- (X4_u32 x), H, X4_u32. Qed.

Lemma u32_sub a b : u32 (u32 a - u32 b) = u32 (a - b).
Proof. unfold uN. by rewrite <- Zminus_mod. Qed.

Lemma arith_sub32 : computes3 (ref3 191) 191.
Proof. arith3. by rewrite X4_u32, (X4_cong _ _ (u32_sub a b)). Qed.

Lemma not64_0 : not64 0 = MAX64.
Proof. reflexivity. Qed.

Lemma arith_div : Forall (fun op => computes3 (ref3 op) op) [193; 194; 203; 204].
Proof.
  repeat (apply List.Forall_cons;
    [arith3; rewrite ?not64_0; repeat case_match; cbn [mbind go_bind];
     rewrite ?SignExtend4, ?(setReg_ok _ _ _ Hi Hd); cbn [mbind go_bind] in *; simplify_eq; done|]).
  apply List.Forall_nil.
Qed.

Lemma arith_rem : Forall (fun op => computes3 (ref3 op) op) [195; 196; 205; 206].
Proof.
  repeat (apply List.Forall_cons;
    [arith3; unfold smod; rewrite ?X4_u32, ?s64_0 by done; repeat case_match; cbn [mbind go_bind];
     rewrite ?SignExtend4, ?X4_u32, ?u64_s64, ?(setReg_ok _ _ _ Hi Hd) by done;
     cbn [mbind go_bind] in *; simplify_eq; rewrite ?X4_u32; done|]).
  apply List.Forall_nil.
Qed.

Lemma arith_shift : Forall (fun op => computes3 (ref3 op) op) [197; 198; 199; 207; 208; 209].
Proof.
  repeat (apply List.Forall_cons;
    [arith3; pose proof (mod64_range b); pose proof (mod32_range b);
     rewrite ?shl64_mul, ?shr_div, ?X4_u32, ?X4_u64 by lia; reflexivity|]).
  apply List.Forall_nil.
Qed.

Lemma arith_logic : Forall (fun op => computes3 (ref3 op) op) [224; 225; 226].
Proof.
  repeat (apply List.Forall_cons;
    [arith3; rewrite not64_sub by (done || by apply is_u64_lxor); reflexivity|]).
  apply List.Forall_nil.
Qed.

Lemma arith_minmax : Forall (fun op => computes3 (ref3 op) op) [227; 228; 229; 230].
Proof.
  repeat (apply List.Forall_cons;
    [arith3; first [reflexivity
      | do 5 f_equal; match goal with |- (if ?a <? ?b then _ else _) = _ => destruct (Z.ltb_spec a b) end; lia]|]).
  apply List.Forall_nil.
Qed.

Lemma arith_cmov : Forall (fun op => computes3 (ref3 op) op) [218; 219].
Proof.
  repeat (apply List.Forall_cons;
    [arith3; destruct (b =? 0); cbn [negb]; rewrite ?Ha; cbn [mbind go_bind];
     rewrite ?(setReg_ok _ _ _ Hi Hd); reflexivity|]).
  apply List.Forall_nil.
Qed.

Lemma u32_word x : 0 <= u32 x < 2 ^ 32.
Proof. by apply uN_range. Qed.

Lemma mod_mod_64 b : s64 (b mod 64) mod 64 = b mod 64.
Proof. pose proof (mod64_range b). rewrite sN_id by lia. apply Z.mod_small. lia. Qed.

Lemma mod_mod_32 b : s64 (b mod 32) mod 32 = b mod 32.
Proof. pose proof (mod32_range b). rewrite sN_id by lia. apply Z.mod_small. lia. Qed.

Lemma div_64_pow : (64 | 2 ^ 64).
Proof. by exists (2 ^ 58). Qed.
Lemma div_32_pow : (32 | 2 ^ 64).
Proof. by exists (2 ^ 59). Qed.

Lemma RotateRight64 x b : is_u64 x -> RotateLeft64 x (s64 (- s64 b)) = rotr 64 x (b mod 64).
Proof.
  intros Hx. rewrite RotateLeft64_rotl by done. rewrite neg_mod by (lia || apply div_64_pow).
  apply rotl_rotr; [apply mod64_range|done].
Qed.

Lemma RotateRight32 x b : 0 <= x < 2 ^ 32 -> RotateLeft32 x (s64 (- s64 b)) = rotr 32 x (b mod 32).
Proof.
  intros Hx. rewrite RotateLeft32_rotl by done. rewrite neg_mod by (lia || apply div_32_pow).
  apply rotl_rotr; [apply mod32_range|done].
Qed.

Lemma arith_rot : Forall (fun op => computes3 (ref3 op) op) [220; 221; 222; 223].
Proof.
  repeat (apply List.Forall_cons;
    [arith3; pose proof (u32_word a);
     rewrite ?RotateRight64, ?RotateRight32, ?RotateLeft64_rotl, ?RotateLeft32_rotl by done;
     rewrite ?mod_mod_64, ?mod_mod_32; reflexivity|]).
  apply List.Forall_nil.
Qed.

Lemma arith_mul_su : computes3 (ref3 215) 215.
Proof.
  arith3. unfold Mul64. rewrite abs64_abs.
  rewrite ?(setReg_ok _ _ _ Hi Hd); cbn [mbind go_bind]. do 6 f_equal.
  pose proof (sN_range 64 a ltac:(lia)). unfold is_u64 in *.
  destruct (Z.ltb_spec (s64 a) 0).
  - replace (s64 a * b) with (- (Z.abs (s64 a) * b)) by nia. rewrite neg_div.
    destruct (_ =? 0) eqn:E; cbn [negb].
    + by rewrite Z.sub_0_r.
    + unfold uN. by rewrite Zminus_mod_idemp_l.
  - rewrite Z.abs_eq by lia. rewrite uN_small; [done|].
    split; [apply Z.div_pos; nia|apply Z.div_lt_upper_bound; nia].
Qed.

(** All three-register instructions but [mul_upper_s_s]. *)
Lemma arith_all op : 190 <= op <= 230 -> op <> 213 -> computes3 (ref3 op) op.
Proof.
  intros Hop Hne.
  assert (op ∈ [190; 192; 200; 201; 202; 210; 211; 212; 214; 216; 217] \/ op = 191 \/
          op ∈ [193; 194; 203; 204] \/ op ∈ [195; 196; 205; 206] \/
          op ∈ [197; 198; 199; 207; 208; 209] \/ op ∈ [224; 225; 226] \/
          op ∈ [227; 228; 229; 230] \/ op ∈ [218; 219] \/ op ∈ [220; 221; 222; 223] \/ op = 215) as H.
  { rewrite !elem_of_cons, !elem_of_nil. lia. }
  assert (Hin : forall l, Forall (fun op => computes3 (ref3 op) op) l -> op ∈ l -> computes3 (ref3 op) op).
  { intros l Hl Hol. exact (proj1 (Forall_forall _ _) Hl _ Hol). }
  destruct H as [H|[->|[H|[H|[H|[H|[H|[H|[H| ->]]]]]]]]];
    eauto using arith_plain, arith_div, arith_rem, arith_shift, arith_logic, arith_minmax, arith_cmov,
      arith_rot, arith_sub32, arith_mul_su.
Qed.

(** C40: every three-register instruction except [mul_upper_s_s] computes the
    reference result: for all register values the handler writes exactly
    [ref3 op a b] to its destination register and continues. *)
Theorem three_reg_correct op i instr a b :
  190 <= op <= 230 -> op <> 213 ->
  wf_interp i -> is_reg (Dst instr) ->
  reg i (Src0 instr) = Ret a -> reg i (Src1 instr) = Ret b -> is_u64 a -> is_u64 b ->
  instrMetaExecForOpcode op i instr =
    Ret (match ref3 op a b with
         | Some v => set_regs i (<[Z.to_nat (Dst instr) := v]> (Registers i))
         | None => i
         end, ExitContinue, PC instr).
Proof. intros Hop Hne. by apply arith_all. Qed.

(** [mul_upper_s_s] is one too large exactly when the operands have
    different signs and the low word of their product is not zero: the
    handler negates the high word without the borrow. *)
Theorem mul_upper_s_s_error i instr a b :
  wf_interp i -> is_reg (Dst instr) ->
  reg i (Src0 instr) = Ret a -> reg i (Src1 instr) = Ret b -> is_u64 a -> is_u64 b ->
  exists v, instrMetaExecForOpcode 213 i instr =
    Ret (set_regs i (<[Z.to_nat (Dst instr) := v]> (Registers i)), ExitContinue, PC instr) /\
  v = u64 (s64 a * s64 b / 2 ^ 64 +
           b2z (negb (Bool.eqb (s64 a <? 0) (s64 b <? 0)) && negb (a * b mod 2 ^ 64 =? 0))).
Proof.
  intros Hi Hd Ha Hb Hua Hub. eexists. split; [lazy [instrMetaExecForOpcode]; unfold instMulUpperSSMeta;
    rewrite Ha, Hb; cbn [mbind go_bind]; unfold Mul64; rewrite !abs64_abs, (setReg_ok _ _ _ Hi Hd); reflexivity|].
  pose proof (sN_range 64 a ltac:(lia)). pose proof (sN_range 64 b ltac:(lia)).
  assert (Habs : Z.abs (s64 a) * Z.abs (s64 b) = Z.abs (s64 a * s64 b)) by (by rewrite Z.abs_mul).
  assert (Hrange : 0 <= Z.abs (s64 a) * Z.abs (s64 b) / 2 ^ 64 < 2 ^ 64).
  { split; [apply Z.div_pos; nia|apply Z.div_lt_upper_bound; nia]. }
  destruct (Bool.eqb _ _) eqn:Es; cbn [negb andb b2z].
  - rewrite Z.add_0_r, Habs, Z.abs_eq; [symmetry; apply uN_small; rewrite Habs, Z.abs_eq in Hrange|];
      destruct (Z.ltb_spec (s64 a) 0), (Z.ltb_spec (s64 b) 0); cbn in Es; try done; nia.
  - rewrite u64_neg_u64. assert (Hneg : s64 a * s64 b = - (Z.abs (s64 a) * Z.abs (s64 b))).
    { rewrite Habs. destruct (Z.ltb_spec (s64 a) 0), (Z.ltb_spec (s64 b) 0); cbn in Es; try done; nia. }
    rewrite Hneg, neg_div.
    assert (((Z.abs (s64 a) * Z.abs (s64 b)) mod 2 ^ 64 =? 0) = (a * b mod 2 ^ 64 =? 0)) as ->.
    { assert (Hm : (s64 a * s64 b) mod 2 ^ 64 = (a * b) mod 2 ^ 64).
      { by rewrite Z.mul_mod, !sN_cong, <- Z.mul_mod by lia. }
      rewrite <- Hm, Hneg. set (x := Z.abs (s64 a) * Z.abs (s64 b)).
      pose proof (Z.div_mod x (2 ^ 64) ltac:(lia)). pose proof (Z.mod_pos_bound x (2 ^ 64) ltac:(lia)).
      pose proof (Z.div_mod (- x) (2 ^ 64) ltac:(lia)). pose proof (Z.mod_pos_bound (- x) (2 ^ 64) ltac:(lia)).
      destruct (Z.eqb_spec (x mod 2 ^ 64) 0), (Z.eqb_spec (- x mod 2 ^ 64) 0); try done; lia. }
    f_equal. destruct (a * b mod 2 ^ 64 =? 0); cbn; lia.
Qed.

(** ** Register-and-immediate forms *)

(** The three-register instruction an immediate form [op] is an instance of,
    and whether the immediate is its first operand. *)
Definition imm_form (op : Z) : option (Z * bool) :=
  match op with
  | 131 => Some (190, false) | 132 => Some (210, false) | 133 => Some (211, false)
  | 134 => Some (212, false) | 135 => Some (192, false) | 136 => Some (216, false)
  | 137 => Some (217, false) | 138 => Some (197, false) | 139 => Some (198, false)
  | 140 => Some (199, false) | 141 => Some (191, true) | 142 => Some (216, true)
  | 143 => Some (217, true) | 144 => Some (197, true) | 145 => Some (198, true)
  | 146 => Some (199, true) | 147 => Some (218, true) | 148 => Some (219, true)
  | 149 => Some (200, false) | 150 => Some (202, false) | 151 => Some (207, false)
  | 152 => Some (208, false) | 153 => Some (209, false) | 154 => Some (201, true)
  | 155 => Some (207, true) | 156 => Some (208, true) | 157 => Some (209, true)
  | 158 => Some (222, false) | 159 => Some (222, true) | 160 => Some (223, false)
  | 161 => Some (223, true)
  | _ => None
  end.

Definition ref_imm (op b x : Z) : option Z :=
  match imm_form op with
  | Some (op3, swap) => if swap : bool then ref3 op3 x b else ref3 op3 b x
  | None => None
  end.

Definition computes_imm (op : Z) : Prop :=
  forall i instr b, wf_interp i -> is_reg (Dst instr) ->
    reg i (Src0 instr) = Ret b -> is_u64 b -> is_u64 (Imm0 instr) ->
    instrMetaExecForOpcode op i instr =
      Ret (match ref_imm op b (Imm0 instr) with
           | Some v => set_regs i (<[Z.to_nat (Dst instr) := v]> (Registers i))
           | None => i
           end, ExitContinue, PC instr).

Lemma mod_mod_land b : s64 (- s64 (Z.land b 63)) mod 64 = (64 - b mod 64) mod 64.
Proof. rewrite neg_mod by (lia || apply div_64_pow). by rewrite land_63, Z.mod_mod. Qed.

Lemma RotateRight64_land x b : is_u64 x -> RotateLeft64 x (s64 (- s64 (Z.land b 63))) = rotr 64 x (b mod 64).
Proof.
  intros Hx. rewrite RotateLeft64_rotl by done. rewrite mod_mod_land.
  apply rotl_rotr; [apply mod64_range|done].
Qed.

Lemma SignExtend8 x : SignExtend 8 x = (x, false).
Proof. reflexivity. Qed.

Lemma X4_neg_add x b : X4 (u64 (x + 2 ^ 32) - b) = X4 (x - b).
Proof.
  apply X4_cong. rewrite <- u32_sub. rewrite uN_uN by lia.
  rewrite <- (u32_sub x b). do 2 f_equal. unfold uN.
  replace (x + 2 ^ 32) with (x + 1 * 2 ^ 32) by lia. apply Z.mod_add. lia.
Qed.

Ltac arith_imm :=
  intros i instr b Hi Hd Hb Hub Hux; lazy [instrMetaExecForOpcode];
  match goal with |- ?h _ _ = _ => unfold h end; cbv zeta;
  rewrite ?Hb; cbn [mbind go_bind];
  unfold ref_imm; cbn [imm_form ref3];
  pose proof (mod64_range b); pose proof (mod32_range b);
  pose proof (mod64_range (Imm0 instr)); pose proof (mod32_range (Imm0 instr));
  pose proof (u32_word b); pose proof (u32_word (Imm0 instr));
  rewrite ?RotateRight64_land by done; rewrite ?land_63, ?land_31;
  rewrite ?RotateRight64, ?RotateRight32 by done;
  rewrite ?shl64_mul, ?shr_div by lia;
  rewrite ?SignExtend8, ?SignExtend4, ?X4_u32, ?X4_u64, ?X4_neg_add, ?(sN_uN 32 32) by lia;
  rewrite ?(setReg_ok _ _ _ Hi Hd); cbn [mbind go_bind].

Definition immOpcodes : list Z :=
  [131; 132; 133; 134; 135; 136; 137; 138; 139; 140; 141; 142; 143; 144; 145; 146; 147; 148; 149;
   150; 151; 152; 153; 154; 155; 156; 157; 158; 159; 160; 161].

Lemma arith_imm_all : Forall computes_imm immOpcodes.
Proof.
  unfold immOpcodes.
  repeat (apply List.Forall_cons; [arith_imm; first [reflexivity
     | destruct (b =? 0); cbn [negb mbind go_bind]; rewrite ?(setReg_ok _ _ _ Hi Hd); reflexivity]|]).
  apply List.Forall_nil.
Qed.

(** Every register-and-immediate arithmetic instruction computes the
    reference result of its three-register form with the immediate as one of
    the operands, in the order [imm_form] gives. *)
Theorem imm_correct op i instr b :
  131 <= op <= 161 -> wf_interp i -> is_reg (Dst instr) ->
  reg i (Src0 instr) = Ret b -> is_u64 b -> is_u64 (Imm0 instr) ->
  instrMetaExecForOpcode op i instr =
    Ret (match ref_imm op b (Imm0 instr) with
         | Some v => set_regs i (<[Z.to_nat (Dst instr) := v]> (Registers i))
         | None => i
         end, ExitContinue, PC instr).
Proof.
  intros Hop. assert (op ∈ immOpcodes) as Hin by (unfold immOpcodes; rewrite !elem_of_cons; lia).
  exact (proj1 (Forall_forall _ _) arith_imm_all op Hin i instr b).
Qed.
