(* ===== verification/Invocation.v ===== *)
(** * Invocation

    src/PVM/invocation.go: the per-instruction interpreter [SingleStepInvoke],
    the interpreter over pre-decoded blocks [SingleStepInvokeDecodedBlocks]
    and the block-at-a-time interpreter [BlockBasedInvoke].

    The loops are unbounded in the code: here they take a fuel and [None] is
    its exhaustion; the termination theorems bound the fuel by the gas. *)

From S2P Require Import Prelude Words ExitReasons Opcodes Memory MemorySpec Decode Interp.
From S2P Require Import Instructions MetaHandlers Program.
Local Open Scope Z_scope.

(** The result of a run: interpreter, exit reason and program counter, or a
    run-time panic; [None] when the fuel ran out. *)
Abbreviation run := (option outcome).

(** Charge one unit of gas.  [Gas] is an [int64] that is at least 1 here. *)
Definition charge (interp : Interpreter) : Interpreter := set_gas interp (Gas interp - 1).

(** ** The per-instruction interpreter *)

Definition SingleStepStateTransition (interp : Interpreter) (pc : Z) : outcome :=
  if slen (InstructionData (Prog interp)) <=? pc then Ret (interp, ExitPanic, pc)
  else
    opcodeData ← isOpcode (InstructionData (Prog interp)) pc;
    if Gas interp <? 1 then Ret (interp, ExitOOG, pc)
    else
      let interp := charge interp in
      match keyed execInstructions opcodeData with
      | None => Ret (interp, ExitPanic, pc)
      | Some target =>
          let skipLength := skip pc (Bitmasks (Prog interp)) in
          '(interp, exitReason, newPC) ← target interp pc skipLength;
          let reason := GetReasonType exitReason in
          if (reason =? PANIC) || (reason =? HALT) then Ret (interp, exitReason, 0)
          else if reason =? HOST_CALL then Ret (interp, exitReason, newPC)
          else if negb (pc =? newPC) then Ret (interp, exitReason, newPC)
          else Ret (interp, exitReason, u32 (newPC + skipLength + 1))
      end.

Fixpoint SingleStepInvoke (fuel : nat) (interp : Interpreter) (pc : Z) : run :=
  match fuel with
  | O => None
  | S fuel =>
      match SingleStepStateTransition interp pc with
      | Crash => Some Crash
      | Ret (interp, exitReason, pcPrime) =>
          let reason := GetReasonType exitReason in
          if reason =? CONTINUE then SingleStepInvoke fuel interp pcPrime
          else if (reason =? HALT) || (reason =? PANIC) then Some (Ret (interp, exitReason, 0))
          else Some (Ret (interp, exitReason, pcPrime))
      end
  end.

(** ** The interpreter over pre-decoded blocks *)

(** How the loop over the instructions of a block ends: with a result, a
    taken branch, or after the last instruction. *)
Inductive blockEnd :=
| Stop (exitReason pc : Z)
| BranchTaken (pc : Z)
| BlockDone.

Fixpoint execBlock (interp : Interpreter) (instrs : list InstrMeta)
    : go (Interpreter * blockEnd) :=
  match instrs with
  | [] => Ret (interp, BlockDone)
  | instr :: rest =>
      if Gas interp <? 1 then Ret (interp, Stop ExitOOG (PC instr))
      else
        '(interp, exitReason, newPC) ←
          instrMetaExecForOpcode (Opcode instr) (charge interp) instr;
        let t := GetReasonType exitReason in
        if (t =? HALT) || (t =? PANIC) then Ret (interp, Stop exitReason 0)
        else if (t =? PAGE_FAULT) || (t =? OUT_OF_GAS) then
          Ret (interp, Stop exitReason (PC instr))
        else if t =? HOST_CALL then
          Ret (interp, Stop exitReason (u32 (PC instr + SkipLen instr + 1)))
        else if negb (PC instr =? newPC) then Ret (interp, BranchTaken newPC)
        else execBlock interp rest
  end.

(** The instructions from the front of the list to its first terminator. *)
Fixpoint toTerminator (instrs : list InstrMeta) : option (list InstrMeta) :=
  match instrs with
  | [] => None
  | instr :: rest =>
      if IsBlockTerminator (Opcode instr) then Some [instr]
      else l ← toTerminator rest; Some (instr :: l)
  end.

(** The instruction range executed from [pc]; [None] is [ExitPanic].  The
    range of a block is inside [Instrs]. *)
Definition blockInstrs (prog : Program) (pc : Z) : go (option (list InstrMeta)) :=
  block ← zindex (BlockAt prog) pc;
  match block with
  | Some block =>
      let startIdx := InstrStart block in
      let endIdx := InstrEnd block in
      if (0 <=? startIdx) && (startIdx <=? endIdx)
         && (endIdx <=? Z.of_nat (length (Instrs prog)))
      then Ret (Some (take (Z.to_nat (endIdx - startIdx)) (drop (Z.to_nat startIdx) (Instrs prog))))
      else Crash
  | None =>
      idx ← zindex (InstrIdxAt prog) pc;
      if 0 <=? idx then Ret (toTerminator (drop (Z.to_nat idx) (Instrs prog)))
      else Ret None
  end.

Fixpoint SingleStepInvokeDecodedBlocks (fuel : nat) (interp : Interpreter) (pc : Z) : run :=
  match fuel with
  | O => None
  | S fuel =>
      let prog := Prog interp in
      if Z.of_nat (length (BlockAt prog)) <=? pc then Some (Ret (interp, ExitPanic, 0))
      else
        match blockInstrs prog pc with
        | Crash => Some Crash
        | Ret None => Some (Ret (interp, ExitPanic, 0))
        | Ret (Some instrs) =>
            match execBlock interp instrs with
            | Crash => Some Crash
            | Ret (interp, Stop exitReason pc) => Some (Ret (interp, exitReason, pc))
            | Ret (interp, BranchTaken pc) => SingleStepInvokeDecodedBlocks fuel interp pc
            | Ret (interp, BlockDone) =>
                match last instrs with
                | None => Some Crash
                | Some l => SingleStepInvokeDecodedBlocks fuel interp (u32 (PC l + SkipLen l + 1))
                end
            end
        end
  end.

(** ** The block-at-a-time interpreter *)

(** The end of the block at [pc], its instruction count and [ExitContinue],
    or [ExitPanic] with [pc] and 0. *)
Fixpoint decodeBlockLoop (fuel : nat) (instructionData : gslice) (bitmask : Bitmask)
    (pc pcPrime count : Z) : option (go (Z * Z * Z)) :=
  match fuel with
  | O => None
  | S fuel =>
      if u32 (slen instructionData) <=? pcPrime then Some (Ret (pc, 0, ExitPanic))
      else
        match sindex instructionData pcPrime with
        | Crash => Some Crash
        | Ret op =>
            if negb (IsValidOpcode op) then Some (Ret (pc, 0, ExitPanic))
            else if IsBlockTerminator op then Some (Ret (pcPrime, count, ExitContinue))
            else decodeBlockLoop fuel instructionData bitmask pc
                   (u32 (pcPrime + skip pcPrime bitmask + 1)) (count + 1)
        end
  end.

Definition DecodeInstructionBlock (fuel : nat) (instructionData : gslice) (pc : Z)
    (bitmask : Bitmask) : option (go (Z * Z * Z)) :=
  decodeBlockLoop fuel instructionData bitmask pc pc 1.

(** [execInstructions] has 231 entries: indexing past it and calling a nil
    entry are both run-time panics. *)
Fixpoint ExecuteInstructions (fuel : nat) (interp : Interpreter) (pc pcPrime : Z)
    : option (go (Interpreter * Z * Z)) :=
  match fuel with
  | O => None
  | S fuel =>
      if pc <=? pcPrime then
        if Gas interp <? 1 then Some (Ret (interp, pc, ExitOOG))
        else
          match
            opcodeData ← sindex (InstructionData (Prog interp)) pc;
            let skipLength := skip pc (Bitmasks (Prog interp)) in
            match keyed execInstructions opcodeData with
            | None => Crash
            | Some target =>
                r ← target interp pc skipLength; Ret (r, skipLength)
            end
          with
          | Crash => Some Crash
          | Ret (interp, exitReason, newPC, skipLength) =>
              let interp := charge interp in
              let reason := GetReasonType exitReason in
              if (reason =? PANIC) || (reason =? HALT) then Some (Ret (interp, 0, exitReason))
              else if reason =? HOST_CALL then
                Some (Ret (interp, u32 (pc + skipLength + 1), exitReason))
              else if negb (pc =? newPC) then Some (Ret (interp, newPC, exitReason))
              else ExecuteInstructions fuel interp (u32 (pc + skipLength + 1)) pcPrime
          end
      else Some (Ret (interp, pc, ExitContinue))
  end.

(** The recursion of [BlockBasedInvoke]; [blockFuel] bounds the decoding and
    execution loops of one block. *)
Fixpoint BlockBasedInvoke (fuel blockFuel : nat) (interp : Interpreter) (pc : Z) : run :=
  match fuel with
  | O => None
  | S fuel =>
      match DecodeInstructionBlock blockFuel (InstructionData (Prog interp)) pc
              (Bitmasks (Prog interp)) with
      | None => None
      | Some Crash => Some Crash
      | Some (Ret (pcPrime, _, exitReason)) =>
          if negb (GetReasonType exitReason =? CONTINUE) then Some (Ret (interp, exitReason, 0))
          else
            match ExecuteInstructions blockFuel interp pc pcPrime with
            | None => None
            | Some Crash => Some Crash
            | Some (Ret (interp, pc, exitReason)) =>
                let reason := GetReasonType exitReason in
                if (reason =? PANIC) || (reason =? HALT) then Some (Ret (interp, exitReason, 0))
                else if (reason =? HOST_CALL) || (reason =? OUT_OF_GAS) then
                  Some (Ret (interp, exitReason, pc))
                else BlockBasedInvoke fuel blockFuel interp pc
            end
      end
  end.
