(* ===== verification/InvocationSpec.v ===== *)
(** * The interpreters: termination and gas

    A run is a sequence of instruction steps, each paid with one unit of gas;
    the gas bounds the length of every run. *)

From S2P Require Import Prelude Words ExitReasons Opcodes Memory MemorySpec Decode Interp.
From S2P Require Import Instructions MetaHandlers Program HandlersSpec Invocation.
Local Open Scope Z_scope.

(** ** One step *)

Lemma execInstructions_valid op h :
  keyed execInstructions op = Some h -> op ∈ validOpcodes.
Proof.
  intros H. assert (execInstructions.*1 = validOpcodes) as <- by reflexivity.
  apply keyed_In in H. apply list_elem_of_fmap. by exists (op, h).
Qed.

(** An executed instruction: the gas was there and one unit of it is gone. *)
Definition paid (i i' : Interpreter) : Prop :=
  1 <= Gas i /\ Gas i' = Gas i - 1 /\ Prog i' = Prog i.

Definition unpaid (i i' : Interpreter) (r : Z) : Prop :=
  i' = i /\ (r = ExitPanic \/ (r = ExitOOG /\ Gas i < 1)).

Lemma step_paid i pc i' r pc' :
  SingleStepStateTransition i pc = Ret (i', r, pc') -> paid i i' \/ unpaid i i' r.
Proof.
  unfold SingleStepStateTransition, paid, unpaid. destruct (_ <=? pc); [intros [= <- <- <-]; auto|].
  destruct (isOpcode _ _) as [op|]; cbn [mbind go_bind]; [|done].
  destruct (Z.ltb_spec (Gas i) 1); [intros [= <- <- <-]; auto|].
  destruct (keyed execInstructions op) as [h|] eqn:E.
  - destruct (h (charge i) pc _) as [ [ [j r1] pc1]|] eqn:Eh; cbn [mbind go_bind]; [|done].
    pose proof (proj1 (Forall_forall _ _) all_byte_framed op (execInstructions_valid _ _ E) h E
                  (charge i) pc _ _ _ _ Eh) as [ [Hg Hp] _].
    cbn in Hg, Hp. repeat case_match; intros [= <- <- <-]; left; done.
  - intros [= <- <- <-]. by left.
Qed.

(** ** Runs as sequences of steps *)

(** [n] instructions that end in [CONTINUE]. *)
Inductive steps : nat -> Interpreter -> Z -> Interpreter -> Z -> Prop :=
| steps_0 i pc : steps 0 i pc i pc
| steps_S n i pc i1 r1 pc1 i2 pc2 :
    SingleStepStateTransition i pc = Ret (i1, r1, pc1) -> GetReasonType r1 = CONTINUE ->
    steps n i1 pc1 i2 pc2 -> steps (S n) i pc i2 pc2.

Lemma unpaid_not_continue i i' r : unpaid i i' r -> GetReasonType r <> CONTINUE.
Proof. by intros [_ [-> | [-> _]]]. Qed.

Lemma steps_gas n i pc i' pc' :
  steps n i pc i' pc' -> (n <> 0%nat -> Z.of_nat n <= Gas i) /\
  Gas i' = Gas i - Z.of_nat n /\ Prog i' = Prog i.
Proof.
  induction 1 as [|n i pc i1 r1 pc1 i2 pc2 Hs Hr _ (IHn & IHg & IHp)]; [split_and!; [done|lia|done]|].
  destruct (step_paid _ _ _ _ _ Hs) as [(? & ? & Hp)|Hu]; [|by apply unpaid_not_continue in Hu].
  split_and!; [|lia|congruence]. intros _. destruct n; [lia|]. specialize (IHn ltac:(done)). lia.
Qed.

(** The counter [SingleStepInvoke] reports: 0 after [HALT] and [PANIC]. *)
Definition reported (r pc : Z) : Z :=
  if (GetReasonType r =? HALT) || (GetReasonType r =? PANIC) then 0 else pc.

Lemma invoke_steps fuel i pc i' r pc' :
  SingleStepInvoke fuel i pc = Some (Ret (i', r, pc')) ->
  exists n j q pc'', (n < fuel)%nat /\ steps n i pc j q /\
    SingleStepStateTransition j q = Ret (i', r, pc'') /\
    GetReasonType r <> CONTINUE /\ pc' = reported r pc''.
Proof.
  revert i pc. induction fuel as [|fuel IH]; intros i pc; cbn [SingleStepInvoke]; [done|].
  destruct (SingleStepStateTransition i pc) as [ [ [i1 r1] pc1]|] eqn:E; [|done].
  destruct (Z.eqb_spec (GetReasonType r1) CONTINUE) as [Hc|Hc].
  - intros (n & j & q & pc'' & Hn & Hs & Hj & Hr & Hpc)%IH.
    exists (S n), j, q, pc''. split_and!; try done; [lia|]. by econstructor.
  - intros H. exists 0%nat, i, pc, pc1. unfold reported.
    repeat case_match; simplify_eq; split_and!; try done; try lia; constructor.
Qed.

Lemma steps_invoke n i pc j q fuel :
  steps n i pc j q -> SingleStepInvoke (n + fuel) i pc = SingleStepInvoke fuel j q.
Proof.
  induction 1 as [|n i pc i1 r1 pc1 i2 pc2 Hs Hr _ IH]; [done|].
  cbn [Nat.add SingleStepInvoke]. by rewrite Hs, Hr.
Qed.

(** Enough gas for [n] more steps, or a result within [n] steps. *)
Lemma invoke_progress fuel i pc :
  (Z.to_nat (Gas i) < fuel)%nat -> is_Some (SingleStepInvoke fuel i pc).
Proof.
  revert i pc. induction fuel as [|fuel IH]; intros i pc Hf; [lia|]. cbn [SingleStepInvoke].
  destruct (SingleStepStateTransition i pc) as [ [ [i1 r1] pc1]|] eqn:E; [|done].
  destruct (Z.eqb_spec (GetReasonType r1) CONTINUE) as [Hc|Hc]; [|by repeat case_match].
  destruct (step_paid _ _ _ _ _ E) as [(? & Hg & _)|Hu]; [|by apply unpaid_not_continue in Hu].
  apply IH. lia.
Qed.

Lemma invoke_mono n i pc out fuel :
  SingleStepInvoke n i pc = Some out -> (n <= fuel)%nat -> SingleStepInvoke fuel i pc = Some out.
Proof.
  revert i pc fuel. induction n as [|n IH]; intros i pc [|fuel] Hs Hle; try done; [lia|].
  cbn [SingleStepInvoke] in *. repeat case_match; try done. apply IH; [done | lia].
Qed.

(** [SingleStepInvoke] always ends: fuel above the gas is enough for a
    result, for every interpreter state and program, however corrupted. *)
Theorem SingleStepInvoke_terminates i pc :
  exists out, forall fuel, (Z.to_nat (Gas i) < fuel)%nat -> SingleStepInvoke fuel i pc = Some out.
Proof.
  destruct (invoke_progress (S (Z.to_nat (Gas i))) i pc ltac:(lia)) as [out Hout].
  exists out. intros fuel Hf. apply (invoke_mono _ _ _ _ _ Hout). lia.
Qed.

(** Gas accounting: a run that returns has executed some number [n] of
    instructions to completion, each for one unit; the last instruction
    either cost one unit too, or was not executed (panic before execution,
    or out of gas with less than one unit left). *)
Theorem SingleStepInvoke_gas fuel i pc i' r pc' :
  SingleStepInvoke fuel i pc = Some (Ret (i', r, pc')) ->
  exists n j q, steps n i pc j q /\ Gas j = Gas i - Z.of_nat n /\
    ((Gas i' = Gas j - 1 /\ 1 <= Gas j) \/
     (i' = j /\ (r = ExitPanic \/ (r = ExitOOG /\ Gas j < 1)))).
Proof.
  intros (n & j & q & pc'' & _ & Hs & Hj & _)%invoke_steps.
  exists n, j, q. split; [done|]. split; [by apply (steps_gas _ _ _ _ _ Hs)|].
  destruct (step_paid _ _ _ _ _ Hj) as [(? & ? & ?)|]; auto.
Qed.

(** ** The block interpreter *)

Lemma execBlock_gas i instrs i' e :
  Forall (fun instr => IsValidOpcode (Opcode instr) = true) instrs ->
  execBlock i instrs = Ret (i', e) ->
  Prog i' = Prog i /\ Gas i' <= Gas i /\
  (match e with Stop _ _ => True | _ => instrs <> [] -> Gas i' < Gas i /\ 0 < Gas i end).
Proof.
  revert i. induction instrs as [|instr rest IH]; intros i Hv; cbn [execBlock].
  { intros [= <- <-]. done. }
  apply Forall_cons in Hv as [Hv Hrest].
  destruct (Z.ltb_spec (Gas i) 1); [intros [= <- <-]; split_and!; done || lia|].
  destruct (instrMetaExecForOpcode _ _ _) as [ [ [j r] q]|] eqn:E; cbn [mbind go_bind]; [|done].
  apply valid_opcode_elem in Hv.
  pose proof (proj1 (Forall_forall _ _) all_meta_framed _ Hv (charge i) instr eq_refl _ _ _ E)
    as [ [Hg Hp] _]. cbn in Hg, Hp.
  repeat match goal with
    |- (if ?b then _ else _) = _ -> _ => destruct b; [intros [= <- <-]; split_and!; done || lia|] end.
  intros He. destruct (IH j Hrest He) as (Hp' & Hg' & He'). split_and!; [congruence | lia |].
  destruct e; [done| |]; intros _; lia.
Qed.

Lemma execBlock_gas_nonneg i instrs i' e :
  Forall (fun instr => IsValidOpcode (Opcode instr) = true) instrs ->
  execBlock i instrs = Ret (i', e) -> 0 <= Gas i -> 0 <= Gas i'.
Proof.
  revert i. induction instrs as [|instr rest IH]; intros i Hv; cbn [execBlock].
  { by intros [= <- <-]. }
  apply Forall_cons in Hv as [Hv Hrest].
  destruct (Z.ltb_spec (Gas i) 1); [by intros [= <- <-]|].
  destruct (instrMetaExecForOpcode _ _ _) as [ [ [j r] q]|] eqn:E; cbn [mbind go_bind]; [|done].
  apply valid_opcode_elem in Hv.
  pose proof (proj1 (Forall_forall _ _) all_meta_framed _ Hv (charge i) instr eq_refl _ _ _ E)
    as [ [Hg _] _]. cbn in Hg.
  repeat match goal with
    |- (if ?b then _ else _) = _ -> _ => destruct b; [intros [= <- <-] ?; lia|] end.
  intros He _. apply (IH j Hrest He). lia.
Qed.

Lemma blocks_mono n i pc out fuel :
  SingleStepInvokeDecodedBlocks n i pc = Some out -> (n <= fuel)%nat ->
  SingleStepInvokeDecodedBlocks fuel i pc = Some out.
Proof.
  revert i pc fuel. induction n as [|n IH]; intros i pc [|fuel] Hs Hle; try done; [lia|].
  cbn [SingleStepInvokeDecodedBlocks] in *.
  repeat (case_match; try done); apply IH; done || lia.
Qed.

(** The instructions a program can run have valid opcodes. *)
Definition valid_instrs (p : Program) : Prop :=
  Forall (fun instr => IsValidOpcode (Opcode instr) = true) (Instrs p).

Lemma toTerminator_elem l r x : toTerminator l = Some r -> x ∈ r -> x ∈ l.
Proof.
  revert r. induction l as [|y l IH]; intros r; cbn; [done|].
  destruct (IsBlockTerminator _).
  - intros [= <-] ->%list_elem_of_singleton. apply list_elem_of_here.
  - destruct (toTerminator l) as [r'|]; [|done]. intros [= <-] [->|Hx]%elem_of_cons.
    + apply list_elem_of_here.
    + apply list_elem_of_further. by eapply IH.
Qed.

Lemma blockInstrs_valid p pc l :
  valid_instrs p -> blockInstrs p pc = Ret (Some l) ->
  Forall (fun instr => IsValidOpcode (Opcode instr) = true) l.
Proof.
  unfold valid_instrs, blockInstrs. intros Hv H. apply go_bind_inv in H as (b & _ & H).
  destruct b as [b|].
  - destruct (_ && _); [|done]. injection H as <-. by apply Forall_take, Forall_drop.
  - apply go_bind_inv in H as (idx & _ & H). destruct (0 <=? idx); [|done]. injection H as H.
    apply Forall_forall. intros x Hx. eapply toTerminator_elem in Hx; [|exact H].
    exact (proj1 (Forall_forall _ _) (Forall_drop _ _ _ Hv) x Hx).
Qed.

Lemma blocks_progress fuel i pc :
  valid_instrs (Prog i) -> (Z.to_nat (Gas i) < fuel)%nat ->
  is_Some (SingleStepInvokeDecodedBlocks fuel i pc).
Proof.
  revert i pc. induction fuel as [|fuel IH]; intros i pc Hv Hf; [lia|].
  cbn [SingleStepInvokeDecodedBlocks].
  destruct (_ <=? pc); [done|]. destruct (blockInstrs _ _) as [[l|]|] eqn:Hb; [|done|done].
  destruct (execBlock i l) as [[i' e]|] eqn:He; [|done].
  pose proof (execBlock_gas _ _ _ _ (blockInstrs_valid _ _ _ Hv Hb) He) as (Hp & _ & Hg).
  destruct e as [r q|q|]; [done| |]; cycle 1.
  - destruct (last l) as [y|] eqn:Hl; [|done]. assert (l <> []) as Hne by (by intros ->).
    specialize (Hg Hne). apply IH; [by rewrite Hp|lia].
  - assert (l <> []) as Hne by (by intros ->; injection He). specialize (Hg Hne).
    apply IH; [by rewrite Hp|lia].
Qed.

(** [SingleStepInvokeDecodedBlocks] always ends, whatever the tables of
    the program: fuel above the gas is enough for a result. *)
Theorem blocks_terminates i pc :
  valid_instrs (Prog i) ->
  exists out, forall fuel, (Z.to_nat (Gas i) < fuel)%nat ->
    SingleStepInvokeDecodedBlocks fuel i pc = Some out.
Proof.
  intros Hv. destruct (blocks_progress (S (Z.to_nat (Gas i))) i pc Hv ltac:(lia)) as [out Hout].
  exists out. intros fuel Hf. apply (blocks_mono _ _ _ _ _ Hout). lia.
Qed.
