(* ===== verification/PreDecodeSpec.v ===== *)
(** * Pre-decoding

    The tables [preDecodeBlocks] builds describe the code: every instruction
    is decoded at its own counter, instructions of a block are consecutive,
    every basic-block start has its block. *)

From S2P Require Import Prelude Words ExitReasons Opcodes DecodeSpec Decode.
From S2P Require Import Memory MemorySpec Interp Program MetaHandlers Instructions Invocation InvocationSpec.
Local Open Scope Z_scope.

(** ** [skip] *)

Lemma skip_spec pc bm :
  0 <= pc ->
  0 <= skip pc bm <= 24 /\
  forall k, 1 <= k <= skip pc bm -> IsStartOfInstruction bm (pc + k) = false.
Proof.
  intros Hpc. unfold skip.
  destruct (skipLoop_spec (length bm) pc 1 bm Hpc ltac:(lia) ltac:(lia)) as (Hj & Hk & _).
  set (r := skipLoop _ _ _ _) in *. rewrite uN_small by lia.
  split; [lia|]. intros k Hkr. apply Hk. lia.
Qed.

(** ** Operand decoding keeps the header *)

Lemma decodeOperands_header i code i' :
  decodeOperands i code = Ret i' ->
  PC i' = PC i /\ Opcode i' = Opcode i /\ SkipLen i' = SkipLen i.
Proof.
  unfold decodeOperands, set_ops. cbn [PC Opcode SkipLen Imm0 Imm1].
  destruct (_ && _); [by intros [= <-]|].
  destruct (Category _); try (by intros [= <-]); intros H;
    repeat first
      [ go_step
      | match goal with
        | H : (if ?b then _ else _) = Ret _ |- _ => destruct b
        | H : (match ?o with Some _ => _ | None => _ end) = Ret _ |- _ => destruct o
        | H : (let (_, _) := ?p in _) = Ret _ |- _ => destruct p
        end ]; done.
Qed.

(** ** Block ranges *)

Lemma toTerminator_app l l' r : toTerminator l = Some r -> toTerminator (l ++ l') = Some r.
Proof.
  revert r. induction l as [|x l IH]; intros r; cbn; [done|].
  case_match; [done|]. destruct (toTerminator l) as [r'|]; [|done]. cbn.
  rewrite (IH r' eq_refl). done.
Qed.

Definition nonterm (x : InstrMeta) : Prop := IsBlockTerminator (Opcode x) = false.

Lemma toTerminator_last l x :
  Forall nonterm l -> IsBlockTerminator (Opcode x) = true -> toTerminator (l ++ [x]) = Some (l ++ [x]).
Proof.
  induction 1 as [|y l Hy Hl IH]; intros Hx; cbn; [by rewrite Hx|].
  rewrite Hy, IH by done. done.
Qed.

Section PreDecode.
Context (code : gslice) (bm : Bitmask).
Hypothesis Hbm : wf_bitmask code bm.
Hypothesis Hn : slen code < 2 ^ 31.

(** An instruction as decoded at its counter. *)
Definition instr_at (instr : InstrMeta) : Prop :=
  exists op, sindex code (PC instr) = Ret op /\ IsValidOpcode op = true /\
    decodeOperands (newInstr (PC instr) op (skip (PC instr) bm)) code = Ret instr.

Definition next_pc (instr : InstrMeta) : Z := PC instr + SkipLen instr + 1.

Lemma instr_at_range instr : instr_at instr -> 0 <= PC instr < slen code.
Proof using. intros (op & Hop & _). apply zindex_Ret, zlookup_Some in Hop. done. Qed.

Lemma instr_at_header instr :
  instr_at instr -> sindex code (PC instr) = Ret (Opcode instr) /\
    IsValidOpcode (Opcode instr) = true /\ SkipLen instr = skip (PC instr) bm.
Proof using.
  intros Hi. pose proof (instr_at_range _ Hi). destruct Hi as (op & Hop & Hv & Hd).
  apply decodeOperands_header in Hd as (_ & Ho & Hs). cbn in Ho, Hs. rewrite Ho.
  split_and!; [done..|]. rewrite Hs. apply uN_small.
  destruct (skip_spec (PC instr) bm); lia.
Qed.

Lemma instr_at_next instr :
  instr_at instr -> PC instr < next_pc instr <= PC instr + 25 /\
    u32 (PC instr + SkipLen instr + 1) = next_pc instr /\
    forall q, PC instr < q < next_pc instr -> IsStartOfInstruction bm q = false.
Proof using Hn.
  intros Hi. pose proof (instr_at_range _ Hi). destruct (instr_at_header _ Hi) as (_ & _ & Hs).
  destruct (skip_spec (PC instr) bm) as [? Hk]; [lia|]. unfold next_pc. rewrite Hs.
  split_and!; [lia..|apply uN_small; lia|]. intros q Hq.
  replace q with (PC instr + (q - PC instr)) by lia. apply Hk. lia.
Qed.

(** What the tables say when the scan has reached [pc]; [opened] is the
    start of the block being read. *)
Record tables_ok (t : Tables) (pc : Z) (opened : option (Z * Z)) : Prop := {
  ok_blocks_length : length (tBlockAt t) = length (elems code);
  ok_count : Z.of_nat (length (tInstrs t)) <= pc;
  ok_idx_length : length (tInstrIdxAt t) = length (elems code);
  ok_instr : forall k instr, tInstrs t !! k = Some instr ->
    instr_at instr /\ PC instr < pc /\
    zlookup (tInstrIdxAt t) (PC instr) = Some (Z.of_nat k);
  ok_idx : forall q idx, zlookup (tInstrIdxAt t) q = Some idx ->
    idx = -1 \/ (0 <= idx /\ exists instr, tInstrs t !! Z.to_nat idx = Some instr /\ PC instr = q);
  ok_next : forall k instr, tInstrs t !! k = Some instr -> nonterm instr ->
    (exists instr', tInstrs t !! S k = Some instr' /\ PC instr' = next_pc instr) \/
    (S k = length (tInstrs t) /\ next_pc instr = pc /\ opened <> None);
  ok_block : forall q b, zlookup (tBlockAt t) q = Some (Some b) ->
    0 <= InstrStart b /\ InstrStart b <= InstrEnd b <= Z.of_nat (length (tInstrs t)) /\
    zlookup (tInstrIdxAt t) q = Some (InstrStart b) /\
    toTerminator (drop (Z.to_nat (InstrStart b)) (tInstrs t)) =
      Some (take (Z.to_nat (InstrEnd b - InstrStart b)) (drop (Z.to_nat (InstrStart b)) (tInstrs t)));
  ok_starts : forall q, q < match opened with Some (s, _) => s | None => pc end ->
    IsStartOfBasicBlock bm q = true -> exists b, zlookup (tBlockAt t) q = Some (Some b);
  ok_opened : forall s first, opened = Some (s, first) ->
    0 <= s <= pc /\ IsStartOfBasicBlock bm s = true /\
    0 <= first <= Z.of_nat (length (tInstrs t)) /\
    Forall nonterm (drop (Z.to_nat first) (tInstrs t)) /\
    (s < pc -> zlookup (tInstrIdxAt t) s = Some first /\
       exists r op, s <= r < pc /\ IsStartOfInstruction bm r = true /\
         (forall k, r < k < pc -> IsStartOfInstruction bm k = false) /\
         sindex code r = Ret op /\ IsBlockTerminator op = false) /\
    (s = pc -> first = Z.of_nat (length (tInstrs t))) /\
    (forall q, s < q < pc -> IsStartOfBasicBlock bm q = false)
}.

Lemma zlookup_zupdate {A} (l l' : list A) i a j :
  zupdate l i a = Ret l' ->
  zlookup l' j = (if decide (j = i) then Some a else zlookup l j) /\ length l' = length l /\
  0 <= i < Z.of_nat (length l).
Proof using.
  unfold zupdate. intros H. destruct (_ && _) eqn:E in H; [|done]. injection H as <-.
  apply andb_prop in E as [E1 E2]. apply Z.leb_le in E1. apply Z.ltb_lt in E2.
  split_and!; [|by rewrite length_insert|lia..]. unfold zlookup.
  destruct (decide (j = i)) as [->|].
  - destruct (Z.ltb_spec i 0); [lia|]. apply list_lookup_insert_eq. lia.
  - destruct (Z.ltb_spec j 0); [done|]. apply list_lookup_insert_ne. lia.
Qed.

Lemma lookup_snoc_cases {A} (l : list A) x k y :
  (l ++ [x]) !! k = Some y -> l !! k = Some y \/ (k = length l /\ y = x).
Proof using.
  intros [H|[H1 H2]]%lookup_app_Some; [by left|]. right.
  destruct (k - length l)%nat eqn:E; [|done]. cbn in H2. injection H2 as <-. split; [lia|done].
Qed.

(** Inside a block, after a non-terminator, no basic block starts. *)
Lemma not_block_start t pc s first :
  tables_ok t pc (Some (s, first)) -> s < pc -> IsStartOfBasicBlock bm pc = false.
Proof using Hbm.
  intros Hok Hlt. destruct (ok_opened _ _ _ Hok s first eq_refl) as (Hs & _ & _ & _ & Hr & _).
  destruct (Hr Hlt) as (_ & r & op & Hrange & Hst & Hbetween & Hop & Ht).
  destruct (IsStartOfBasicBlock bm pc) eqn:E; [|done].
  apply (bm_block _ _ Hbm) in E as [_ [->|(p & op' & Hl & Hop' & Ht')]]; [lia|].
  assert (p = r) as ->; [|congruence].
  destruct Hl as [(Hp & Hm & Hk)|[-> Hk]]; [|by rewrite Hk in Hst by lia].
  destruct (Z.lt_trichotomy p r) as [?|[?|?]]; [|done|].
  - by rewrite Hk in Hst by lia.
  - by rewrite Hbetween in Hm by lia.
Qed.

Lemma not_start_not_block q : IsStartOfInstruction bm q = false -> IsStartOfBasicBlock bm q = false.
Proof using Hbm.
  intros H. destruct (IsStartOfBasicBlock bm q) eqn:E; [|done].
  apply (bm_block _ _ Hbm) in E as [E _]. congruence.
Qed.

Section Append.
Context (t : Tables) (pc s first : Z) (op : Z) (idxAt : list Z) (instr : InstrMeta).
Hypothesis Hok : tables_ok t pc (Some (s, first)).
Hypothesis Hop : sindex code pc = Ret op.
Hypothesis Hv : IsValidOpcode op = true.
Hypothesis Hidx : zupdate (tInstrIdxAt t) pc (s32 (Z.of_nat (length (tInstrs t)))) = Ret idxAt.
Hypothesis Hd : decodeOperands (newInstr pc op (skip pc bm)) code = Ret instr.

Lemma append_pc : PC instr = pc /\ Opcode instr = op /\ instr_at instr.
Proof using Hop Hv Hd.
  pose proof Hd as (Hpc & Ho & _)%decodeOperands_header. cbn in Hpc, Ho.
  split_and!; [done..|]. exists op. by rewrite Hpc.
Qed.

Lemma append_s32 : s32 (Z.of_nat (length (tInstrs t))) = Z.of_nat (length (tInstrs t)).
Proof using Hn Hok Hop.
  pose proof (ok_count _ _ _ Hok). pose proof Hop as Hr%zindex_Ret%zlookup_Some.
  change (Z.of_nat (length (elems code))) with (slen code) in Hr.
  apply sN_id; lia.
Qed.

Lemma append_lookup q :
  zlookup idxAt q = (if decide (q = pc) then Some (Z.of_nat (length (tInstrs t)))
                     else zlookup (tInstrIdxAt t) q).
Proof using Hn Hok Hop Hidx.
  destruct (zlookup_zupdate _ _ _ _ q Hidx) as [-> _]. by rewrite append_s32.
Qed.

Lemma append_instr k x :
  (tInstrs t ++ [instr]) !! k = Some x ->
  instr_at x /\ PC x < next_pc instr /\ zlookup idxAt (PC x) = Some (Z.of_nat k).
Proof using Hn Hok Hop Hv Hidx Hd.
  destruct append_pc as (Hpc & _ & Hi). destruct (instr_at_next _ Hi) as (Hnext & _).
  rewrite append_lookup. intros [Hk|[-> ->]]%lookup_snoc_cases.
  - destruct (ok_instr _ _ _ Hok _ _ Hk) as (? & ? & ?). rewrite decide_False by lia.
    split_and!; [done|lia|done].
  - rewrite decide_True by done. split_and!; [done|lia|done].
Qed.

Lemma append_idx q idx :
  zlookup idxAt q = Some idx ->
  idx = -1 \/ (0 <= idx /\ exists x, (tInstrs t ++ [instr]) !! Z.to_nat idx = Some x /\ PC x = q).
Proof using Hn Hok Hop Hv Hidx Hd.
  destruct append_pc as (Hpc & _ & _). rewrite append_lookup. case_decide as Hq.
  - intros [= <-]. right. split; [lia|]. exists instr. rewrite Nat2Z.id.
    split; [by rewrite list_lookup_middle|congruence].
  - intros [?|(? & x & Hx & ?)]%(ok_idx _ _ _ Hok); [by left|]. right. split; [done|].
    exists x. split; [by apply lookup_app_l_Some|done].
Qed.

Lemma append_next k x o :
  (tInstrs t ++ [instr]) !! k = Some x -> nonterm x ->
  (nonterm instr -> o <> None) ->
  (exists x', (tInstrs t ++ [instr]) !! S k = Some x' /\ PC x' = next_pc x) \/
  (S k = length (tInstrs t ++ [instr]) /\ next_pc x = next_pc instr /\ o <> (None : option (Z * Z))).
Proof using Hok Hop Hv Hd.
  destruct append_pc as (Hpc & _ & _). intros [Hk|[-> ->]]%lookup_snoc_cases Hx Ho.
  - left. destruct (ok_next _ _ _ Hok _ _ Hk Hx) as [(x' & Hx' & ?)|(Hl & ? & _)].
    + exists x'. split; [by apply lookup_app_l_Some|done].
    + exists instr. rewrite Hl. split; [by rewrite list_lookup_middle|congruence].
  - right. rewrite length_app. cbn. split_and!; [lia|done|auto].
Qed.

Lemma append_block_old q b :
  zlookup (tBlockAt t) q = Some (Some b) ->
  0 <= InstrStart b /\ InstrStart b <= InstrEnd b <= Z.of_nat (length (tInstrs t ++ [instr])) /\
  zlookup (tInstrIdxAt t) q = Some (InstrStart b) /\
  toTerminator (drop (Z.to_nat (InstrStart b)) (tInstrs t ++ [instr])) =
    Some (take (Z.to_nat (InstrEnd b - InstrStart b))
            (drop (Z.to_nat (InstrStart b)) (tInstrs t ++ [instr]))).
Proof using Hok.
  intros (H0 & Hr & Hi & Ht)%(ok_block _ _ _ Hok). rewrite length_app.
  split_and!; [done|lia|lia|done|].
  rewrite drop_app_le by lia. rewrite (toTerminator_app _ _ _ Ht).
  f_equal. rewrite take_app_le; [done|]. rewrite length_drop. lia.
Qed.

Lemma append_block q b :
  zlookup (tBlockAt t) q = Some (Some b) ->
  zlookup idxAt q = Some (InstrStart b).
Proof using Hn Hok Hop Hidx.
  intros (H0 & _ & Hi & _)%(ok_block _ _ _ Hok). rewrite append_lookup, decide_False; [done|].
  intros ->. destruct (ok_idx _ _ _ Hok _ _ Hi) as [?|(_ & x & Hx & Hp)]; [lia|].
  destruct (ok_instr _ _ _ Hok _ _ Hx) as (_ & ? & _). lia.
Qed.

Lemma append_no_block q : s < q < next_pc instr -> IsStartOfBasicBlock bm q = false.
Proof using Hbm Hn Hok Hop Hv Hd.
  destruct append_pc as (Hpc & _ & Hi). destruct (instr_at_next _ Hi) as (_ & _ & Hno).
  destruct (ok_opened _ _ _ Hok s first eq_refl) as (_ & _ & _ & _ & _ & _ & Hnb).
  intros Hq. destruct (Z.lt_trichotomy q pc) as [?|[->|?]].
  - apply Hnb. lia.
  - apply (not_block_start _ _ _ _ Hok). lia.
  - apply not_start_not_block, Hno. lia.
Qed.

(** The instruction extends the open block. *)
Lemma append_open :
  nonterm instr ->
  tables_ok (MkTables (tInstrs t ++ [instr]) (tBlockAt t) idxAt) (next_pc instr) (Some (s, first)).
Proof using Hbm Hn Hok Hop Hv Hidx Hd.
  intros Hnt. destruct append_pc as (Hpc & Ho & Hi). destruct (instr_at_next _ Hi) as (Hnext & _ & Hno).
  destruct (zlookup_zupdate _ _ _ _ 0 Hidx) as (_ & Hlen & _).
  destruct (ok_opened _ _ _ Hok s first eq_refl) as (Hs & Hbb & Hf & Hnts & Hr & Heq & _).
  pose proof (ok_count _ _ _ Hok) as Hcount.
  constructor; cbn [tInstrs tBlockAt tInstrIdxAt].
  - apply (ok_blocks_length _ _ _ Hok).
  - rewrite length_app. cbn. lia.
  - rewrite Hlen. apply (ok_idx_length _ _ _ Hok).
  - apply append_instr.
  - apply append_idx.
  - intros k x Hk Hx. destruct (append_next k x (Some (s, first)) Hk Hx ltac:(done)) as [?|?]; auto.
  - intros q b Hb. destruct (append_block_old q b Hb) as (? & ? & _ & ?).
    split_and!; [done|lia|lia|by apply append_block|done].
  - apply (ok_starts _ _ _ Hok).
  - intros ? ? [= <- <-]. rewrite length_app. cbn [length].
    split_and!; [lia|lia|done|lia|lia| | | |apply append_no_block].
    + rewrite drop_app_le by lia. apply Forall_app. split; [done|]. by constructor.
    + intros _. rewrite append_lookup. split.
      * case_decide as Hspc; [|apply Hr; lia]. by rewrite (Heq Hspc).
      * destruct (IsStartOfInstruction bm pc) eqn:E.
        -- exists pc, op. unfold nonterm in Hnt. rewrite Ho in Hnt. split_and!; try done; [lia|lia|].
           intros k Hk. apply Hno. lia.
        -- assert (s < pc) as Hlt.
           { destruct (decide (s = pc)) as [->|]; [|lia].
             apply (bm_block _ _ Hbm) in Hbb as [Hst _]. congruence. }
           destruct (Hr Hlt) as (_ & r & op' & Hr1 & Hr2 & Hr3 & Hr4 & Hr5).
           exists r, op'. split_and!; try done; [lia|lia|]. intros k Hk.
           destruct (Z.lt_trichotomy k pc) as [?|[->|?]]; [apply Hr3; lia|done|apply Hno; lia].
    + lia.
Qed.

(** The terminator closes the open block. *)
Lemma append_close blockAt :
  IsBlockTerminator (Opcode instr) = true ->
  zupdate (tBlockAt t) s (Some (MkBlock s pc first (Z.of_nat (length (tInstrs t ++ [instr])))
    (Z.of_nat (length (tInstrs t ++ [instr])) - first))) = Ret blockAt ->
  tables_ok (MkTables (tInstrs t ++ [instr]) blockAt idxAt) (next_pc instr) None.
Proof using Hbm Hn Hok Hop Hv Hidx Hd.
  intros Hterm Hb. destruct append_pc as (Hpc & Ho & Hi).
  destruct (instr_at_next _ Hi) as (Hnext & _ & Hno).
  destruct (zlookup_zupdate _ _ _ _ 0 Hidx) as (_ & Hlen & _).
  destruct (zlookup_zupdate _ _ _ _ 0 Hb) as (_ & Hblen & _).
  destruct (ok_opened _ _ _ Hok s first eq_refl) as (Hs & Hbb & Hf & Hnts & Hr & Heq & _).
  pose proof (ok_count _ _ _ Hok) as Hcount.
  constructor; cbn [tInstrs tBlockAt tInstrIdxAt]; [..|done].
  - rewrite Hblen. apply (ok_blocks_length _ _ _ Hok).
  - rewrite length_app. cbn. lia.
  - rewrite Hlen. apply (ok_idx_length _ _ _ Hok).
  - apply append_instr.
  - apply append_idx.
  - intros k x Hk Hx. destruct (append_next k x (Some (s, first)) Hk Hx ltac:(done)) as [?|(Hl & ? & _)].
    + by left.
    + exfalso. apply lookup_snoc_cases in Hk as [Hk|[_ ->]]; [|unfold nonterm in Hx; congruence].
      apply lookup_lt_Some in Hk. rewrite length_app in Hl. cbn in Hl. lia.
  - intros q b. destruct (zlookup_zupdate _ _ _ _ q Hb) as (-> & _ & _).
    case_decide as Hq; [|intros Hqb; destruct (append_block_old q b Hqb) as (? & ? & _ & ?);
                         split_and!; [done|lia|lia|by apply append_block|done] ].
    subst q. intros [= <-]. cbn [InstrStart InstrEnd]. rewrite length_app. cbn [length].
    split_and!; [lia|lia|lia| | ].
    + rewrite append_lookup. case_decide as Hspc; [|apply Hr; lia]. by rewrite (Heq Hspc).
    + rewrite drop_app_le by lia. rewrite take_ge
        by (rewrite length_app, length_drop; cbn; lia).
      by apply toTerminator_last.
  - intros q Hq Hqb. destruct (zlookup_zupdate _ _ _ _ q Hb) as (-> & _ & _).
    case_decide as Hqs; [eauto|]. destruct (Z.lt_trichotomy q s) as [?|[?|?]]; [|done|].
    + by apply (ok_starts _ _ _ Hok).
    + by rewrite append_no_block in Hqb by lia.
Qed.
End Append.

(** ** The loops *)

Lemma ok_open t pc :
  tables_ok t pc None -> IsStartOfBasicBlock bm pc = true ->
  tables_ok t pc (Some (pc, Z.of_nat (length (tInstrs t)))).
Proof using.
  intros [? ? ? Hi ? Hnx ? ? ?] Hb. pose proof (block_range _ _ Hb).
  constructor; try done.
  - intros k x Hk Hx. destruct (Hnx k x Hk Hx) as [?|(_ & _ & ?)]; [by left|done].
  - intros ? ? [= <- <-]. split_and!; try done; try lia. rewrite drop_ge by lia. done.
Qed.

Lemma ok_skip t pc :
  tables_ok t pc None -> IsStartOfBasicBlock bm pc = false ->
  tables_ok t (pc + 1) None.
Proof using.
  intros [? ? ? Hi ? Hnx ? Hst ?] Hb. constructor; try done; try lia.
  - intros k x Hk. destruct (Hi k x Hk) as (? & ? & ?). split_and!; [done|lia|done].
  - intros k x Hk Hx. destruct (Hnx k x Hk Hx) as [?|(_ & _ & ?)]; [by left|done].
  - intros q Hq Hqb. apply Hst; [|done]. destruct (decide (q = pc)) as [->|]; [congruence|lia].
Qed.

Lemma u32_slen : u32 (slen code) = slen code.
Proof using Hn. apply uN_small. unfold slen in *. lia. Qed.

Lemma blockLoop_ok fuel s first t pc t' pc' :
  tables_ok t pc (Some (s, first)) ->
  blockLoop fuel code bm s first t pc = Ret (Some (t', pc')) -> tables_ok t' pc' None.
Proof using Hbm Hn.
  revert t pc. induction fuel as [|fuel IH]; intros t pc Hok H; cbn [blockLoop] in H; [done|].
  destruct (_ <=? pc); [done|]. apply go_bind_inv in H as (op & Hop & H).
  destruct (IsValidOpcode op) eqn:Hv; cbn [negb] in H; [|done].
  apply go_bind_inv in H as (idxAt & Hidx & H). apply go_bind_inv in H as (instr & Hd & H).
  pose proof Hd as (Hpc & Ho & _)%decodeOperands_header. cbn in Hpc, Ho.
  assert (instr_at instr) as Hi by (exists op; by rewrite Hpc).
  destruct (instr_at_header _ Hi) as (_ & _ & Hs). rewrite Hpc in Hs.
  destruct (instr_at_next _ Hi) as (_ & Hnp & _). rewrite Hpc, Hs in Hnp.
  destruct (IsBlockTerminator op) eqn:Ht.
  - apply go_bind_inv in H as (blockAt & Hb & [= <- <-]). rewrite Hnp.
    eapply append_close; try done. by rewrite Ho.
  - eapply IH; [|exact H]. rewrite Hnp. eapply append_open; try done. unfold nonterm. by rewrite Ho.
Qed.

Lemma scanLoop_ok fuel t pc t' :
  tables_ok t pc None -> 0 <= pc ->
  scanLoop fuel code bm t pc = Ret (Some t') -> exists pc', slen code <= pc' /\ tables_ok t' pc' None.
Proof using Hbm Hn.
  revert t pc. induction fuel as [|fuel IH]; intros t pc Hok Hpc H; cbn [scanLoop] in H; [done|].
  rewrite u32_slen in H. destruct (Z.ltb_spec pc (slen code)); [|go_inv; simplify_eq; eauto].
  destruct (IsStartOfBasicBlock bm pc) eqn:Hb; cbn [negb] in H.
  - apply go_bind_inv in H as ([ [t1 pc1] |] & Hbl & H); [|done].
    pose proof (blockLoop_ok _ _ _ _ _ _ _ (ok_open _ _ Hok Hb) Hbl) as Hok1.
    eapply IH; [exact Hok1| |exact H]. pose proof (ok_count _ _ _ Hok1). lia.
  - rewrite uN_small in H by lia. eapply IH; [by apply ok_skip|lia|done].
Qed.

Lemma zlookup_replicate {A} (a b : A) n i : zlookup (replicate n a) i = Some b -> b = a.
Proof using. unfold zlookup. case_match; [done|]. by intros [? _]%lookup_replicate. Qed.

Lemma init_ok :
  let n := length (elems code) in
  tables_ok (MkTables [] (replicate n None) (replicate n (-1))) 0 None.
Proof using.
  constructor; cbn; try done; rewrite ?length_replicate; try done.
  - intros q idx ->%zlookup_replicate. by left.
  - by intros q b [=]%zlookup_replicate.
  - intros q Hq Hb. apply block_range in Hb. lia.
Qed.

End PreDecode.

(** ** The tables of a program *)

(** The contract of pre-decoding, on which the block interpreter relies. *)
Record pre_decoded (p : Program) : Prop := {
  pd_block_length : length (BlockAt p) = length (elems (InstructionData p));
  pd_instr : forall k instr, Instrs p !! k = Some instr ->
    instr_at (InstructionData p) (Bitmasks p) instr /\
    zlookup (InstrIdxAt p) (PC instr) = Some (Z.of_nat k);
  pd_idx : forall q idx, zlookup (InstrIdxAt p) q = Some idx ->
    idx = -1 \/ (0 <= idx /\ exists instr, Instrs p !! Z.to_nat idx = Some instr /\ PC instr = q);
  pd_idx_length : length (InstrIdxAt p) = length (elems (InstructionData p));
  pd_next : forall k instr, Instrs p !! k = Some instr ->
    IsBlockTerminator (Opcode instr) = false ->
    exists instr', Instrs p !! S k = Some instr' /\ PC instr' = next_pc instr;
  pd_block : forall q b, zlookup (BlockAt p) q = Some (Some b) ->
    0 <= InstrStart b /\ InstrStart b <= InstrEnd b <= Z.of_nat (length (Instrs p)) /\
    zlookup (InstrIdxAt p) q = Some (InstrStart b) /\
    toTerminator (drop (Z.to_nat (InstrStart b)) (Instrs p)) =
      Some (take (Z.to_nat (InstrEnd b - InstrStart b)) (drop (Z.to_nat (InstrStart b)) (Instrs p)));
  pd_starts : forall q, IsStartOfBasicBlock (Bitmasks p) q = true ->
    exists b, zlookup (BlockAt p) q = Some (Some b)
}.

Lemma preDecodeBlocks_ok code bm jt t :
  wf_bitmask code bm -> slen code < 2 ^ 31 ->
  preDecodeBlocks code bm = Ret (Some t) ->
  pre_decoded (MkProgram code bm jt (tInstrs t) (tBlockAt t) (tInstrIdxAt t)).
Proof.
  intros Hbm Hn H. unfold preDecodeBlocks in H.
  apply scanLoop_ok in H as (pc & Hpc & [? ? ? Hi Hidx Hnx Hbk Hst _]);
    [|done|done|apply init_ok|done].
  constructor; cbn; try done.
  - intros k x Hk. destruct (Hi k x Hk) as (? & _ & ?). done.
  - intros k x Hk Hx. by destruct (Hnx k x Hk Hx) as [?|(_ & _ & ?)].
  - intros q Hq. apply Hst; [|done]. pose proof (block_range _ _ Hq).
    rewrite (bm_length _ _ Hbm) in *. unfold slen in *. lia.
Qed.

(** ** Loading a blob *)

Lemma sslice_bytes_cap s a b d :
  wf_code s -> sslice s a b = Ret d -> wf_code d.
Proof.
  unfold wf_code, sslice. intros Hs. destruct (_ && _) eqn:E; [|done]. intros [= <-]. cbn.
  apply Forall_app. split; [by apply Forall_take, Forall_drop | by apply Forall_drop].
Qed.

Lemma ReadBytes_bytes s n b rest :
  wf_code s -> ReadBytes s n = Ret (Some (b, rest)) -> wf_code rest.
Proof.
  unfold ReadBytes. intros Hs H. destruct (_ <? _); [done|].
  apply go_bind_inv in H as (b' & _ & H). apply go_bind_inv in H as (r & Hr & [= _ <-]).
  by eapply sslice_bytes_cap.
Qed.

Lemma deblob_contract data p :
  wf_code data -> DeBlobProgramCode data = Ret (Some p) -> slen (InstructionData p) < 2 ^ 31 ->
  pre_decoded p /\ wf_code (InstructionData p) /\ wf_bitmask (InstructionData p) (Bitmasks p).
Proof.
  intros H0 H Hn. unfold DeBlobProgramCode, sfrom, sto in H.
  apply go_bind_inv in H as ([ [sz used] |] & _ & H); [|done].
  apply go_bind_inv in H as (d1 & H1 & H). apply (sslice_bytes_cap _ _ _ _ H0) in H1.
  apply go_bind_inv in H as ([len|] & _ & H); [|done].
  apply go_bind_inv in H as (d2 & H2 & H). apply (sslice_bytes_cap _ _ _ _ H1) in H2.
  apply go_bind_inv in H as ([ [isz used2] |] & _ & H); [|done].
  apply go_bind_inv in H as (d3 & H3 & H). apply (sslice_bytes_cap _ _ _ _ H2) in H3.
  destruct (2 ^ 32 <=? _); [done|].
  apply go_bind_inv in H as ([ [jt d4] |] & H4 & H); [|done]. apply (ReadBytes_bytes _ _ _ _ H3) in H4.
  apply go_bind_inv in H as (code & Hcode & H). apply (sslice_bytes_cap _ _ _ _ H4) in Hcode.
  apply go_bind_inv in H as (bd & Hbd & H). apply (sslice_bytes_cap _ _ _ _ H4) in Hbd.
  apply go_bind_inv in H as ([bm|] & Hbm & H); [|done].
  apply makeBitMasks_wf in Hbm; [|by apply Forall_app in Hbd as [? _]].
  apply go_bind_inv in H as ([t|] & Ht & H); [|done]. injection H as <-. cbn in *.
  split_and!; [by apply preDecodeBlocks_ok|done|done].
Qed.

(** A program [DeBlobProgramCode] accepts satisfies the contract of
    pre-decoding: each instruction of [Instrs] is decoded at its counter with
    the skip length of the bitmask and found there through [InstrIdxAt], a
    non-terminator is followed by the instruction at the next counter, each
    block range ends at the first terminator after its start, and every
    basic-block start of the bitmask has a block. *)
Theorem DeBlobProgramCode_ok data p :
  wf_code data -> DeBlobProgramCode data = Ret (Some p) -> slen (InstructionData p) < 2 ^ 31 ->
  pre_decoded p /\ wf_code (InstructionData p) /\ wf_bitmask (InstructionData p) (Bitmasks p).
Proof. apply deblob_contract. Qed.

(** ** The fuel of the loops *)

Section Fuel.
Context (code : gslice) (bm : Bitmask).
Hypothesis Hn : slen code < 2 ^ 31.

Lemma skip_advances pc : 0 <= pc < slen code -> pc < u32 (pc + skip pc bm + 1).
Proof using Hn.
  intros Hpc. destruct (skip_spec pc bm) as [? _]; [lia|]. rewrite uN_small by lia. lia.
Qed.

Lemma blockLoop_fuel k m s first t pc :
  0 <= pc -> slen code - pc < Z.of_nat k -> slen code - pc < Z.of_nat m -> (0 < k)%nat -> (0 < m)%nat ->
  blockLoop k code bm s first t pc = blockLoop m code bm s first t pc.
Proof using Hn.
  revert m t pc. induction k as [|k IH]; intros m t pc Hpc Hk Hm H0 H1; [lia|].
  destruct m as [|m]; [lia|]. cbn [blockLoop].
  destruct (_ <=? pc) eqn:E; [done|]. apply Z.leb_gt in E. rewrite u32_slen in E by done.
  destruct (sindex code pc) as [op|]; cbn [mbind go_bind]; [|done].
  destruct (negb _); [done|].
  destruct (zupdate _ _ _); cbn [mbind go_bind]; [|done].
  destruct (decodeOperands _ _); cbn [mbind go_bind]; [|done].
  destruct (IsBlockTerminator op); [done|].
  pose proof (skip_advances pc ltac:(lia)). apply IH; lia.
Qed.

Lemma blockLoop_advances k s first t pc t' pc' :
  0 <= pc -> blockLoop k code bm s first t pc = Ret (Some (t', pc')) -> pc < pc'.
Proof using Hn.
  revert t pc. induction k as [|k IH]; intros t pc Hpc; cbn [blockLoop]; [done|].
  destruct (_ <=? pc) eqn:E; [done|]. apply Z.leb_gt in E. rewrite u32_slen in E by done.
  pose proof (skip_advances pc ltac:(lia)).
  destruct (sindex code pc) as [op|]; cbn [mbind go_bind]; [|done].
  destruct (negb _); [done|].
  destruct (zupdate _ _ _); cbn [mbind go_bind]; [|done].
  destruct (decodeOperands _ _); cbn [mbind go_bind]; [|done].
  destruct (IsBlockTerminator op).
  - destruct (zupdate _ _ _); cbn [mbind go_bind]; [|done]. intros [= _ <-]. done.
  - intros Hb. apply IH in Hb; lia.
Qed.

Lemma scanLoop_fuel k m t pc :
  0 <= pc -> slen code - pc < Z.of_nat k -> slen code - pc < Z.of_nat m -> (0 < k)%nat -> (0 < m)%nat ->
  scanLoop k code bm t pc = scanLoop m code bm t pc.
Proof using Hn.
  revert m t pc. induction k as [|k IH]; intros m t pc Hpc Hk Hm H0 H1; [lia|].
  destruct m as [|m]; [lia|]. cbn [scanLoop]. rewrite u32_slen by done.
  destruct (Z.ltb_spec pc (slen code)); [|done].
  destruct (negb _); [rewrite uN_small by lia; apply IH; lia|].
  destruct (blockLoop _ _ _ _ _ _ _) as [ [ [t1 pc1] |] |] eqn:E; cbn [mbind go_bind]; [|done|done].
  apply blockLoop_advances in E; [|done]. apply IH; lia.
Qed.

End Fuel.

(** Pre-decoding terminates within its fuel: with any larger fuel in the
    loop over the blocks and in the loop over the instructions of a block the
    result is the same, so that no result comes from the fuel running out. *)
Theorem preDecodeBlocks_fuel code bm k :
  slen code < 2 ^ 31 -> (length (elems code) < k)%nat ->
  let n := length (elems code) in
  (forall s first t pc, 0 <= pc ->
     blockLoop k code bm s first t pc = blockLoop (S n) code bm s first t pc) /\
  scanLoop k code bm (MkTables [] (replicate n None) (replicate n (-1))) 0 =
    preDecodeBlocks code bm.
Proof.
  intros Hn Hk n. subst n. split.
  - intros. apply blockLoop_fuel; unfold slen in *; lia.
  - unfold preDecodeBlocks. apply scanLoop_fuel; unfold slen in *; lia.
Qed.

(** ** Loaded programs *)

Lemma blockLoop_valid fuel idata bm start first t pc t' pc' :
  Forall (fun instr => IsValidOpcode (Opcode instr) = true) (tInstrs t) ->
  blockLoop fuel idata bm start first t pc = Ret (Some (t', pc')) ->
  Forall (fun instr => IsValidOpcode (Opcode instr) = true) (tInstrs t').
Proof.
  revert t pc. induction fuel as [|fuel IH]; intros t pc Hv; cbn [blockLoop]; [done|].
  destruct (_ <=? pc); [done|]. intros (op & _ & H)%go_bind_inv.
  destruct (IsValidOpcode op) eqn:Hop; cbn [negb] in H; [|done].
  apply go_bind_inv in H as (idxAt & _ & H). apply go_bind_inv in H as (instr & Hi & H).
  apply decodeOperands_header in Hi as (_ & Ho & _). cbn in Ho.
  assert (Forall (fun instr => IsValidOpcode (Opcode instr) = true) (tInstrs t ++ [instr])) as Hv'.
  { apply Forall_app. split; [done|]. apply Forall_singleton. by rewrite Ho. }
  destruct (IsBlockTerminator op).
  - by apply go_bind_inv in H as (blockAt & _ & [= <- _]).
  - by apply IH in H.
Qed.

Lemma scanLoop_valid fuel idata bm t pc t' :
  Forall (fun instr => IsValidOpcode (Opcode instr) = true) (tInstrs t) ->
  scanLoop fuel idata bm t pc = Ret (Some t') ->
  Forall (fun instr => IsValidOpcode (Opcode instr) = true) (tInstrs t').
Proof.
  revert t pc. induction fuel as [|fuel IH]; intros t pc Hv; cbn [scanLoop]; [done|].
  destruct (pc <? _); [|by intros [= <-]]. destruct (negb _); [by apply IH|].
  intros ([ [t1 pc1] |] & Hb & H)%go_bind_inv; [|done]. apply blockLoop_valid in Hb; [|done].
  by apply IH in H.
Qed.

(** Whatever the bytes of the blob are. *)
Lemma DeBlobProgramCode_valid data p : DeBlobProgramCode data = Ret (Some p) -> valid_instrs p.
Proof.
  unfold DeBlobProgramCode. intros H.
  repeat first
    [ go_step
    | match goal with
      | H : (if ?b then _ else _) = Ret _ |- _ => destruct b
      | H : (match ?o with Some _ => _ | None => _ end) = Ret _ |- _ => destruct o eqn:?
      | H : (let (_, _) := ?p in _) = Ret _ |- _ => destruct p eqn:?
      end ]; try done; subst.
  all: simplify_eq; by eapply (scanLoop_valid _ _ _ (MkTables [] _ _)); [apply List.Forall_nil|].
Qed.
