(* ===== verification/Host.v ===== *)
(** * Host calls and argument invocation

    src/PVM/host_call_invocation.go: the loop [HostCall] that runs the
    interpreter up to the next host call and dispatches it;
    the generic host calls of src/PVM/host_call_general.go ([gas],
    [hostCallException], [hostCallOutOfGas]); src/PVM/argument_invocation.go:
    [Psi_M] and [R].

    The host-call functions are an argument of the loop, as in the code
    ([Omegas]).  A function mutates registers, memory and gas through the
    pointers of [VMState] and returns an exit reason and the context; here it
    returns the mutated [VMState].  The loop passes the context on unread, so
    its type is a parameter. *)

From S2P Require Import Prelude Words ExitReasons Opcodes Memory MemorySpec Decode Interp.
From S2P Require Import Types Instructions MetaHandlers Program Invocation Initializer.
Local Open Scope Z_scope.

Record VMState := MkVM { vmRegisters : list Z; vmMemory : Memory; vmGas : Z }.

Section Host.
Context {Args : Type}.

(** [HostCallArgs]: the embedded [*Program] and the rest. *)
Record HostCallArgs := MkArgs { argProgram : option Program; argRest : Args }.

(** [Omega]: the operation and the VM state, to the exit reason, the VM
    state and the new context. *)
Definition Omega : Type := Z -> VMState -> HostCallArgs -> go (Z * VMState * HostCallArgs).
(** A table of host calls; [None] is a nil entry. *)
Definition Omegas : Type := list (option Omega).

Record Psi_H_ReturnType := MkPsiH {
  psiReason : Z; psiCounter : Z; psiVM : VMState; psiAddition : HostCallArgs
}.

Definition vm_of (interp : Interpreter) : VMState :=
  MkVM (Registers interp) (Mem interp) (Gas interp).
Definition with_vm (interp : Interpreter) (vm : VMState) : Interpreter :=
  MkInterp (Prog interp) (vmRegisters vm) (vmMemory vm) (vmGas vm).

(** ** The generic host calls *)

Definition WHAT : Z := 2 ^ 64 - 2.

(** [chargeGasAndCheck]: ten units of the [int64] gas; true when that is too
    much. *)
Definition chargeGasAndCheck (vm : VMState) : VMState * bool :=
  let vm := MkVM (vmRegisters vm) (vmMemory vm) (s64 (vmGas vm - 10)) in
  (vm, vmGas vm <? 0).

Definition vmSetReg (vm : VMState) (i v : Z) : go VMState :=
  r ← zupdate (vmRegisters vm) i v; Ret (MkVM r (vmMemory vm) (vmGas vm)).

Definition hostCallException : Omega := fun _ vm addition =>
  let '(vm, oog) := chargeGasAndCheck vm in
  if oog then Ret (ExitOOG, vm, addition)
  else vm ← vmSetReg vm 7 WHAT; Ret (ExitContinue, vm, addition).

Definition hostCallOutOfGas : Omega := fun _ vm addition => Ret (ExitOOG, vm, addition).

(** Host call 0. *)
Definition gas : Omega := fun _ vm addition =>
  let '(vm, oog) := chargeGasAndCheck vm in
  if oog then Ret (ExitOOG, vm, addition)
  else vm ← vmSetReg vm 7 (u64 (vmGas vm)); Ret (ExitContinue, vm, addition).

(** ** The loop *)

(** [hostCallName]: a slice literal whose last index is 100. *)
Definition hostCallName : list string :=
  ["gas"; "fetch"; "lookup"; "read"; "write"; "info"; "historicalLookup"; "export"; "machine";
   "peek"; "poke"; "pages"; "invoke"; "expunge"; "bless"; "assign"; "designate"; "checkpoint";
   "new"; "upgrade"; "transfer"; "eject"; "query"; "solicit"; "forget"; "yield"; "provide"]%string
  ++ replicate 73 ""%string ++ ["log"%string].

Definition getOmega (omegas : Omegas) (operation : Z) : option Omega :=
  if (operation <? 0) || (Z.of_nat (length omegas) <=? operation) then None
  else default None (zlookup omegas operation).

(** The dispatch of one host call: the function of the table, or one of the
    generic ones; the log line after the call reads [hostCallName]. *)
Definition dispatch (omegas : Omegas) (interp : Interpreter) (addition : HostCallArgs)
    (operation : Z) : go (Z * VMState * HostCallArgs) :=
  let omega :=
    match getOmega omegas operation with
    | Some omega => omega
    | None => if Gas interp <? 0 then hostCallOutOfGas else hostCallException
    end in
  result ← omega operation (vm_of interp) addition;
  _ ← zindex hostCallName operation;
  Ret result.

(** [HostCall] (A.34).  [fuel] bounds the host calls; the interpreter run
    before each is bounded by its gas. *)
Fixpoint HostCall (fuel : nat) (omegas : Omegas) (interp : Interpreter)
    (addition : HostCallArgs) (pc : Z) : option (go Psi_H_ReturnType) :=
  match fuel with
  | O => None
  | S fuel =>
      match SingleStepInvokeDecodedBlocks (S (Z.to_nat (Gas interp))) interp pc with
      | None => None
      | Some Crash => Some Crash
      | Some (Ret (interp, exitReason, pcPrime)) =>
          let t := GetReasonType exitReason in
          if (t =? HALT) || (t =? PANIC) || (t =? OUT_OF_GAS) || (t =? PAGE_FAULT) then
            Some (Ret (MkPsiH exitReason pcPrime (vm_of interp) addition))
          else
            match dispatch omegas interp addition (GetHostCallID exitReason) with
            | Crash => Some Crash
            | Ret (reason, vm, addition') =>
                if reason =? ExitContinue then
                  HostCall fuel omegas (with_vm interp vm) addition' pcPrime
                else Some (Ret (MkPsiH reason pcPrime vm addition'))
            end
      end
  end.

(** ** Argument invocation *)

(** [ReasonOrBytes any]: nil, a [[]byte], an [ExitReasonType], or an
    [ExitReason]; values of different dynamic types are never equal. *)
Inductive ReasonOrBytes := RNil | RBytes (b : list Z) | RType (t : Z) | RExit (e : Z).
#[export] Instance ReasonOrBytes_eq_dec : EqDecision ReasonOrBytes.
Proof. solve_decision. Defined.

(** [R] (A.41): the gas used, the result and the context. *)
Definition R (priorGas : Z) (res : Psi_H_ReturnType) : go (Z * ReasonOrBytes * HostCallArgs) :=
  let u := u64 (priorGas - u64 (Z.max (vmGas (psiVM res)) 0)) in
  let t := GetReasonType (psiReason res) in
  if t =? OUT_OF_GAS then Ret (s64 u, RType OUT_OF_GAS, psiAddition res)
  else if t =? HALT then
    start ← zindex (vmRegisters (psiVM res)) 7;
    length_ ← zindex (vmRegisters (psiVM res)) 8;
    if isReadable start length_ (vmMemory (psiVM res)) then
      if length_ =? 0 then Ret (s64 u, RNil, psiAddition res)
      else
        match readRAM start length_ (vmMemory (psiVM res)) with
        | None => Ret (s64 u, RBytes [], psiAddition res)
        | Some value => Ret (s64 u, RBytes value, psiAddition res)
        end
    else Ret (s64 u, RBytes [], psiAddition res)
  else Ret (s64 u, RType PANIC, psiAddition res).

(** A program that does not load gives the [ExitReason] [ExitPanic]. *)
Definition Psi_M (fuel : nat) (code : gslice) (counter gasLimit : Z) (argument : gslice)
    (omegas : Omegas) (addition : HostCallArgs)
    : option (go (Z * ReasonOrBytes * HostCallArgs)) :=
  match
    ⟪ (programCode, registers, memory) ⟫ ⇠ SingleInitializer code argument ⊘ Ret None;
    ⟪ program ⟫ ⇠ DeBlobProgramCode programCode ⊘ Ret None;
    Ret (Some (program, registers, memory))
  with
  | Crash => Some Crash
  | Ret None => Some (Ret (0, RExit ExitPanic, addition))
  | Ret (Some (program, registers, memory)) =>
      let addition := MkArgs (Some program) (argRest addition) in
      match HostCall fuel omegas (MkInterp program registers memory (s64 gasLimit)) addition counter with
      | None => None
      | Some Crash => Some Crash
      | Some (Ret psiHResult) =>
          Some ('(g, v, a) ← R gasLimit psiHResult; Ret (u64 g, v, a))
      end
  end.

(** ** What the callers make of the result *)



(** The end of [RefineInvoke]: work result and output. *)
Definition refineResult (res : ReasonOrBytes) : WorkExecResultType * list Z :=
  if decide (res = RType PANIC) then (WorkExecResultPanic, [])
  else if decide (res = RType OUT_OF_GAS) then (WorkExecResultOutOfGas, [])
  else (WorkExecResultOk, match res with RBytes output => output | _ => [] end).

(** The end of [Psi_I]. *)
Definition isAuthorizedResult (res : ReasonOrBytes) : WorkExecResultType * list Z :=
  if decide (res = RType PANIC) then (WorkExecResultPanic, [])
  else if decide (res = RType OUT_OF_GAS) then (WorkExecResultOutOfGas, [])
  else match res with
       | RBytes workOutput => (WorkExecResultOk, workOutput)
       | _ => (WorkExecResultPanic, [])
       end.

End Host.

(** [C] (B.13): the accumulation context that is committed.  [C] moves the
    components of a context as they are, so their types are parameters; the
    service blobs are listed in the iteration order of the map. *)
Section Collapse.
Context {PartialStateSet DeferredTransfers ServiceBlob StateKeyVals : Type}.

Record ResultContext := MkContext {
  PartialState : PartialStateSet;
  CtxTransfers : DeferredTransfers;
  Exception : option (list Z);
  ServiceBlobs : list ServiceBlob;
  StorageKeyVal : StateKeyVals
}.

Definition committed (x : ResultContext) (exception : option (list Z)) (gasUsed : Z)
    (blobs : list ServiceBlob) :=
  (PartialState x, CtxTransfers x, exception, gasUsed, blobs, StorageKeyVal x).

Definition C (gasUsed : Z) (res : ReasonOrBytes) (x y : ResultContext) :=
  match res with
  | RBytes b =>
      if negb (Z.of_nat (length b) =? 32) then committed x (Exception x) gasUsed []
      else committed x (Some b) gasUsed (ServiceBlobs x)
  | _ =>
      if decide (res = RType OUT_OF_GAS \/ res = RType PANIC) then
        committed y (Exception y) gasUsed (ServiceBlobs y)
      else committed x (Exception x) gasUsed (ServiceBlobs x)
  end.

End Collapse.
Arguments HostCallArgs : clear implicits.
Arguments Psi_H_ReturnType : clear implicits.
Arguments Omega : clear implicits.
Arguments Omegas : clear implicits.
