(* ===== verification/HostSpec.v ===== *)
(** * Host-call loop and argument invocation: properties

    The loop ends because every host call costs gas; what each outcome of a
    run is turned into by [R] and its callers. *)

From S2P Require Import Types Prelude Words ExitReasons Opcodes Memory MemorySpec Decode Interp.
From S2P Require Import Instructions MetaHandlers Program Invocation Initializer Host.
From S2P Require Import HandlersSpec InvocationSpec PreDecodeSpec.
Local Open Scope Z_scope.

(** ** Gas across a run *)

Lemma execBlock_stop_gas i instrs i' r q :
  Forall (fun instr => IsValidOpcode (Opcode instr) = true) instrs ->
  execBlock i instrs = Ret (i', Stop r q) -> r = ExitOOG \/ (Gas i' < Gas i /\ 0 <= Gas i').
Proof.
  revert i. induction instrs as [|x rest IH]; intros i Hv; cbn [execBlock]; [done|].
  apply Forall_cons in Hv as [Hv Hrest].
  destruct (Z.ltb_spec (Gas i) 1); [intros [= _ <- _]; by left|].
  destruct (instrMetaExecForOpcode _ _ _) as [ [ [j r'] q']|] eqn:E; cbn [mbind go_bind]; [|done].
  apply valid_opcode_elem in Hv.
  pose proof (proj1 (Forall_forall _ _) all_meta_framed _ Hv (charge i) x eq_refl _ _ _ E)
    as [ [Hg _] _]. cbn in Hg.
  repeat match goal with
    |- (if ?b then _ else _) = _ -> _ => destruct b; [intros H1; right; simplify_eq; lia|] end.
  intros He. destruct (IH j Hrest He) as [?|[? ?]]; [by left|right; lia].
Qed.

Lemma blocks_gas n i pc i' r q :
  valid_instrs (Prog i) -> SingleStepInvokeDecodedBlocks n i pc = Some (Ret (i', r, q)) ->
  Prog i' = Prog i /\ (r = ExitOOG \/ r = ExitPanic \/ (Gas i' < Gas i /\ 0 <= Gas i')).
Proof.
  revert i pc. induction n as [|n IH]; intros i pc Hv; cbn [SingleStepInvokeDecodedBlocks]; [done|].
  destruct (_ <=? pc); [intros [= <- <- _]; auto|].
  destruct (blockInstrs _ _) as [[l|]|] eqn:Hb; [|intros [= <- <- _]; auto|done].
  pose proof (blockInstrs_valid _ _ _ Hv Hb) as Hvl.
  destruct (execBlock i l) as [[j e]|] eqn:He; [|done].
  destruct (execBlock_gas _ _ _ _ Hvl He) as (Hp & Hle & Hg).
  destruct e as [r' q'|q'|].
  - intros [= <- <- <-]. split; [done|].
    destruct (execBlock_stop_gas _ _ _ _ _ Hvl He) as [?|?]; auto.
  - intros H. destruct (IH j q' ltac:(by rewrite Hp) H) as [Hp' Hr]. split; [congruence|].
    destruct Hr as [?|[?|[? ?]]]; auto. right. right. lia.
  - destruct (last l); [|done]. intros H.
    destruct (IH j _ ltac:(by rewrite Hp) H) as [Hp' Hr]. split; [congruence|].
    destruct Hr as [?|[?|[? ?]]]; auto. right. right. lia.
Qed.

Section HostSpec.
Context {Args : Type} (omegas : Omegas Args).

(** What the loop needs of the host-call functions to terminate: a call that
    lets the program continue does not give it gas. *)
Definition gas_bounded (omega : Omega Args) : Prop :=
  forall op vm a vm' a', 0 <= vmGas vm < 2 ^ 63 ->
    omega op vm a = Ret (ExitContinue, vm', a') -> vmGas vm' <= vmGas vm.

Definition table_bounded : Prop :=
  Forall (fun o => match o with Some omega => gas_bounded omega | None => True end) omegas.

Lemma charge_gas vm : 0 <= vmGas vm < 2 ^ 63 -> vmGas (fst (chargeGasAndCheck vm)) = vmGas vm - 10.
Proof. intros H. cbn. apply sN_id; lia. Qed.

(** The generic host calls charge ten units. *)
Lemma exception_bounded : gas_bounded (@hostCallException Args).
Proof.
  intros op vm a vm' a' Hg. unfold hostCallException.
  pose proof (charge_gas vm Hg) as Hc. destruct (chargeGasAndCheck vm) as [vm1 oog]. cbn [fst] in Hc.
  destruct oog; [done|]. unfold vmSetReg.
  destruct (zupdate _ _ _); cbn; [|done]. intros [= <- _]. cbn. lia.
Qed.

Lemma outofgas_bounded : gas_bounded (@hostCallOutOfGas Args).
Proof. intros op vm a vm' a' Hg. done. Qed.

Lemma gas_call_bounded : gas_bounded (@gas Args).
Proof.
  intros op vm a vm' a' Hg. unfold gas.
  pose proof (charge_gas vm Hg) as Hc. destruct (chargeGasAndCheck vm) as [vm1 oog]. cbn [fst] in Hc.
  destruct oog; [done|]. unfold vmSetReg.
  destruct (zupdate _ _ _); cbn; [|done]. intros [= <- _]. cbn. lia.
Qed.

Lemma dispatch_gas interp a op vm' a' :
  table_bounded -> 0 <= Gas interp < 2 ^ 63 ->
  dispatch omegas interp a op = Ret (ExitContinue, vm', a') -> vmGas vm' <= Gas interp.
Proof.
  intros Ht Hg. unfold dispatch.
  set (omega := match getOmega omegas op with Some o => o | None => _ end).
  assert (gas_bounded omega) as Hb.
  { unfold omega, getOmega. destruct (_ || _).
    { destruct (_ <? _); [apply outofgas_bounded | apply exception_bounded]. }
    destruct (zlookup omegas op) as [[o|]|] eqn:E; cbn;
      try (destruct (_ <? _); [apply outofgas_bounded | apply exception_bounded]).
    apply zlookup_elem_of in E. exact (proj1 (Forall_forall _ _) Ht _ E). }
  destruct (omega op (vm_of interp) a) as [[[r vm1] a1]|] eqn:E; cbn; [|done].
  destruct (zindex _ _); cbn; [|done]. intros [= -> -> ->]. by apply (Hb op (vm_of interp) a vm' a' Hg E).
Qed.

Lemma host_progress fuel interp a pc :
  table_bounded -> valid_instrs (Prog interp) -> Gas interp < 2 ^ 63 ->
  (Z.to_nat (Gas interp) < fuel)%nat -> is_Some (HostCall fuel omegas interp a pc).
Proof.
  intros Ht. revert interp a pc. induction fuel as [|fuel IH]; intros i a pc Hv Hg Hf; [lia|].
  cbn [HostCall].
  destruct (blocks_progress (S (Z.to_nat (Gas i))) i pc Hv ltac:(lia)) as [out Hout].
  rewrite Hout. destruct out as [[[i' r] q]|]; [|done].
  destruct (blocks_gas _ _ _ _ _ _ Hv Hout) as [Hp Hr].
  destruct (_ || _) eqn:Ecase; [done|].
  destruct Hr as [->|[->|[Hlt Hge]]]; [done|done|].
  destruct (dispatch _ _ _ _) as [[[reason vm] a']|] eqn:Ed; [|done].
  destruct (Z.eqb_spec reason ExitContinue) as [->|]; [|done].
  apply dispatch_gas in Ed; [|done|lia].
  apply IH; cbn; [by rewrite Hp|lia|lia].
Qed.

(** The host-call loop always ends: with host-call functions that never
    add gas, fuel above the gas is enough for a result, for any program
    whose instructions have valid opcodes. *)
Theorem HostCall_terminates interp a pc :
  table_bounded -> valid_instrs (Prog interp) -> Gas interp < 2 ^ 63 ->
  forall fuel, (Z.to_nat (Gas interp) < fuel)%nat ->
    exists out, HostCall fuel omegas interp a pc = Some out.
Proof. intros Ht Hv Hg fuel Hf. by apply host_progress. Qed.

Lemma dispatch_unknown interp a op : 100 < op -> dispatch omegas interp a op = Crash.
Proof.
  intros Hop. unfold dispatch. destruct (_ op _ a); cbn [mbind go_bind]; [|done].
  unfold zindex. destruct (zlookup hostCallName op) as [n|] eqn:E; [|done].
  apply zlookup_Some in E. change (Z.of_nat (length hostCallName)) with 101 in E. lia.
Qed.

(** A host call with a number above 100 is a run-time panic of the node:
    the log line after the call indexes [hostCallName] past its end, whatever
    table of host calls is in use. *)
Theorem HostCall_unknown_panics fuel interp a pc i' r q :
  SingleStepInvokeDecodedBlocks (S (Z.to_nat (Gas interp))) interp pc = Some (Ret (i', r, q)) ->
  GetReasonType r = HOST_CALL -> 100 < GetHostCallID r ->
  HostCall (S fuel) omegas interp a pc = Some Crash.
Proof. intros Hrun Ht Hid. cbn [HostCall]. by rewrite Hrun, Ht, dispatch_unknown. Qed.

(** ** Results *)

(** [R] reports the gas used, and on a halt the readable bytes the
    program points to with registers 7 and 8: nil for length 0, empty when
    they are not readable; every other end but out-of-gas is [PANIC]. *)
Theorem R_spec prior res start len :
  0 <= vmGas (psiVM res) <= prior -> prior < 2 ^ 63 ->
  wf_mem (vmMemory (psiVM res)) ->
  zlookup (vmRegisters (psiVM res)) 7 = Some start -> zlookup (vmRegisters (psiVM res)) 8 = Some len ->
  is_u64 start -> is_u64 len ->
  R prior res = Ret (prior - vmGas (psiVM res),
    if GetReasonType (psiReason res) =? OUT_OF_GAS then RType OUT_OF_GAS
    else if GetReasonType (psiReason res) =? HALT then
      if len =? 0 then RNil
      else if isReadable start len (vmMemory (psiVM res)) then
        RBytes (default [] (mem_bytes (vmMemory (psiVM res)) start (Z.to_nat len)))
      else RBytes []
    else RType PANIC, @psiAddition Args res).
Proof.
  intros Hg Hp Hm H7 H8 Hs Hl. unfold R. rewrite Z.max_l by lia.
  rewrite (uN_small 64 (vmGas _)) by lia. rewrite (uN_small 64) by lia.
  rewrite sN_id by lia.
  destruct (_ =? OUT_OF_GAS); [done|]. destruct (_ =? HALT); [|done].
  unfold zindex. rewrite H7, H8. cbn [mbind go_bind].
  destruct (Z.eqb_spec len 0) as [->|Hne]; [done|].
  destruct (isReadable _ _ _) eqn:Er; [|done].
  unfold is_u64 in *.
  destruct (isReadable_bytes (vmMemory (psiVM res)) start len Hm ltac:(lia) ltac:(lia) Er) as [bs Hbs].
  destruct (proj1 (rangeCheck_spec _ _ start len ltac:(lia) ltac:(lia)) Er) as [?|[Hle _] ]; [lia|].
  pose proof (readRAM_refines _ start (Z.to_nat len) bs Hm ltac:(lia) ltac:(lia) Hbs) as Hr.
  rewrite Z2Nat.id in Hr by lia. by rewrite Hr, Hbs.
Qed.

(** A refinement whose code does not load is reported as a success with
    empty output: [Psi_M] returns the [ExitReason] [ExitPanic], which
    [RefineInvoke] compares with the [ExitReasonType] [PANIC]. *)
Theorem refine_unloadable_ok fuel code counter g argument (a : HostCallArgs Args) :
  (SingleInitializer code argument = Ret None \/
   exists c regs m, SingleInitializer code argument = Ret (Some (c, regs, m)) /\
     DeBlobProgramCode c = Ret None) ->
  exists res, Psi_M fuel code counter g argument omegas a = Some (Ret (0, res, a)) /\
    refineResult res = (WorkExecResultOk, []) /\
    isAuthorizedResult res = (WorkExecResultPanic, []).
Proof.
  intros H. exists (RExit ExitPanic). unfold Psi_M. split; [|done].
  destruct H as [->|(c & regs & m & -> & Hd)]; [done|]. cbn [mbind go_bind]. by rewrite Hd.
Qed.

(** A program that halts with an empty output is a success for
    [RefineInvoke] and a panic for [Psi_I]. *)
Theorem empty_output_disagrees prior (res : Psi_H_ReturnType Args) start :
  GetReasonType (psiReason res) = HALT ->
  zlookup (vmRegisters (psiVM res)) 7 = Some start -> zlookup (vmRegisters (psiVM res)) 8 = Some 0 ->
  exists u out, R prior res = Ret (u, out, psiAddition res) /\
    refineResult out = (WorkExecResultOk, []) /\ isAuthorizedResult out = (WorkExecResultPanic, []).
Proof.
  intros Ht H7 H8. unfold R, zindex. rewrite Ht, H7, H8. cbn. eauto.
Qed.

End HostSpec.

(** ** Rules for the loop *)

Lemma blocks_gas_range n i pc i' r q :
  valid_instrs (Prog i) -> 0 <= Gas i -> SingleStepInvokeDecodedBlocks n i pc = Some (Ret (i', r, q)) ->
  Prog i' = Prog i /\ 0 <= Gas i' <= Gas i.
Proof.
  revert i pc. induction n as [|n IH]; intros i pc Hv H0; cbn [SingleStepInvokeDecodedBlocks]; [done|].
  destruct (_ <=? pc); [intros [= <- _ _]; split; [done|lia]|].
  destruct (blockInstrs _ _) as [[l|]|] eqn:Hb; [|intros [= <- _ _]; split; [done|lia]|done].
  pose proof (blockInstrs_valid _ _ _ Hv Hb) as Hvl.
  destruct (execBlock i l) as [[j e]|] eqn:He; [|done].
  destruct (execBlock_gas _ _ _ _ Hvl He) as (Hp & Hle & _).
  pose proof (execBlock_gas_nonneg _ _ _ _ Hvl He H0) as Hj.
  destruct e as [r' q'|q'|]; [intros [= <- _ _]; by split| |destruct (last l); [|done]];
    intros H; (destruct (IH j _ ltac:(by rewrite Hp) Hj H) as [Hp' Hr]; split; [congruence|lia]).
Qed.

(** An interpreter stops with one of its four reasons. *)
Definition stops (r : Z) : Prop :=
  GetReasonType r = HALT \/ GetReasonType r = PANIC \/ GetReasonType r = OUT_OF_GAS \/ GetReasonType r = PAGE_FAULT.

Section Rules.
Context {Args : Type} (omegas : Omegas Args).

(** [inv g a] holds of the gas and the context before a call, [fin r g a] at
    the end. *)
Section Unary.
Context (inv : Z -> HostCallArgs Args -> Prop) (fin : Z -> Z -> HostCallArgs Args -> Prop).

Definition omega_rule (omega : Omega Args) : Prop := forall op vm a r vm' a',
  0 <= vmGas vm < 2 ^ 63 -> inv (vmGas vm) a -> omega op vm a = Ret (r, vm', a') ->
  (r = ExitContinue /\ 0 <= vmGas vm' <= vmGas vm /\ inv (vmGas vm') a') \/ (r <> ExitContinue /\ fin r (vmGas vm') a').

Hypothesis Hspend : forall g g' a, 0 <= g' <= g -> inv g a -> inv g' a.
Hypothesis Hstop : forall r g a, stops r -> 0 <= g -> inv g a -> fin r g a.
Hypothesis Htable : Forall (fun o => match o with Some omega => omega_rule omega | None => True end) omegas.
Hypothesis Hoog : forall g a, 0 <= g -> inv g a -> fin ExitOOG (g - 10) a /\ fin ExitOOG g a.

Lemma exception_rule : omega_rule (@hostCallException Args).
Proof using Hspend Hoog.
  intros op vm a r vm' a' Hg Hi. unfold hostCallException. pose proof (charge_gas vm Hg) as Hc.
  destruct (chargeGasAndCheck vm) as [vm1 oog] eqn:E. cbn [fst] in Hc.
  assert (oog = (vmGas vm1 <? 0)) as -> by by injection E as <- <-. destruct (Z.ltb_spec (vmGas vm1) 0).
  - intros [= <- <- <-]. right. split; [done|]. rewrite Hc. exact (proj1 (Hoog _ _ (proj1 Hg) Hi)).
  - unfold vmSetReg. destruct (zupdate _ _ _); cbn; [|done]. intros [= <- <- <-]. left. cbn.
    split_and!; [done|lia|lia|]. apply (Hspend (vmGas vm)); [lia|done].
Qed.

Lemma outofgas_rule : omega_rule (@hostCallOutOfGas Args).
Proof using Hoog. intros op vm a r vm' a' Hg Hi [= <- <- <-]. right. split; [done|]. exact (proj2 (Hoog _ _ (proj1 Hg) Hi)). Qed.

Lemma dispatch_rule interp a op r vm' a' :
  0 <= Gas interp < 2 ^ 63 -> inv (Gas interp) a -> dispatch omegas interp a op = Ret (r, vm', a') ->
  (r = ExitContinue /\ 0 <= vmGas vm' <= Gas interp /\ inv (vmGas vm') a') \/ (r <> ExitContinue /\ fin r (vmGas vm') a').
Proof using Hspend Htable Hoog.
  intros Hg Hi. unfold dispatch.
  set (omega := match getOmega omegas op with Some o => o | None => _ end).
  assert (omega_rule omega) as Hb.
  { unfold omega, getOmega. destruct (_ || _).
    { destruct (_ <? _); [apply outofgas_rule | apply exception_rule]. }
    destruct (zlookup omegas op) as [[o|]|] eqn:E; cbn;
      try (destruct (_ <? _); [apply outofgas_rule | apply exception_rule]).
    apply zlookup_elem_of in E. exact (proj1 (Forall_forall _ _) Htable _ E). }
  intros ([[r1 vm1] a1] & E & H)%go_bind_inv. apply go_bind_inv in H as (_ & _ & [= <- <- <-]).
  by apply (Hb op (vm_of interp) a).
Qed.

Lemma HostCall_rule fuel interp a pc res :
  valid_instrs (Prog interp) -> 0 <= Gas interp < 2 ^ 63 -> inv (Gas interp) a ->
  HostCall fuel omegas interp a pc = Some (Ret res) ->
  fin (psiReason res) (vmGas (psiVM res)) (psiAddition res).
Proof using Hspend Hstop Htable Hoog.
  revert interp a pc. induction fuel as [|fuel IH]; intros i a pc Hv Hg Hi; cbn [HostCall]; [done|].
  destruct (SingleStepInvokeDecodedBlocks _ i pc) as [[[[i' r] q]|]|] eqn:Hrun; [|done..].
  destruct (blocks_gas_range _ _ _ _ _ _ Hv ltac:(lia) Hrun) as [Hp Hg'].
  apply (Hspend _ (Gas i')) in Hi; [|lia].
  destruct (_ || _) eqn:Ecase.
  - intros [= <-]. cbn. apply Hstop; [|lia|done]. unfold stops. revert Ecase. rewrite !orb_true_iff, !Z.eqb_eq. tauto.
  - destruct (dispatch _ _ _ _) as [[[reason vm] a']|] eqn:Ed; [|done].
    apply dispatch_rule in Ed; [|lia|done]. destruct Ed as [(-> & Hvm & Hi')|[Hr Hf]].
    + change (ExitContinue =? ExitContinue) with true. cbv match. apply IH; cbn; [by rewrite Hp|lia|done].
    + rewrite (proj2 (Z.eqb_neq _ _) Hr). by intros [= <-].
Qed.

End Unary.

(** Calls that take related contexts to related contexts, and else do the same. *)
Section Relational.
Context (R : HostCallArgs Args -> HostCallArgs Args -> Prop).

Definition same_out (x y : Z * VMState * HostCallArgs Args) : Prop := fst x = fst y /\ R (snd x) (snd y).

Definition omega_rel (omega : Omega Args) : Prop :=
  forall op vm a b, R a b -> go_rel same_out (omega op vm a) (omega op vm b).

Hypothesis Htable : Forall (fun o => match o with Some omega => omega_rel omega | None => True end) omegas.

Lemma exception_rel : omega_rel (@hostCallException Args).
Proof using.
  intros op vm a b Hr. unfold hostCallException. destruct (chargeGasAndCheck vm) as [vm1 [|] ]; [done|].
  unfold vmSetReg. by destruct (zupdate _ _ _).
Qed.

Lemma dispatch_rel interp a b op : R a b -> go_rel same_out (dispatch omegas interp a op) (dispatch omegas interp b op).
Proof using Htable.
  intros Hr. unfold dispatch. set (omega := match getOmega omegas op with Some o => o | None => _ end).
  assert (omega_rel omega) as Hb.
  { assert (omega_rel (@hostCallOutOfGas Args)) by by intros ????.
    unfold omega, getOmega. destruct (_ || _); [destruct (_ <? _); auto using exception_rel|].
    destruct (zlookup omegas op) as [[o|]|] eqn:E; cbn; [|destruct (_ <? _); auto using exception_rel..].
    apply zlookup_elem_of in E. exact (proj1 (Forall_forall _ _) Htable _ E). }
  apply (go_rel_bind same_out); [by apply Hb|]. intros x y Hxy. by destruct (zindex _ _).
Qed.

Definition same_end (x y : Psi_H_ReturnType Args) : Prop :=
  psiReason x = psiReason y /\ psiCounter x = psiCounter y /\ psiVM x = psiVM y /\ R (psiAddition x) (psiAddition y).

Lemma HostCall_rel fuel interp a b pc : R a b ->
  option_Forall2 (go_rel same_end) (HostCall fuel omegas interp a pc) (HostCall fuel omegas interp b pc).
Proof using Htable.
  revert interp a b pc. induction fuel as [|fuel IH]; intros i a b pc Hr; cbn [HostCall]; [constructor|].
  destruct (SingleStepInvokeDecodedBlocks _ i pc) as [[[[i' r] q]|]|]; [|by constructor|constructor].
  destruct (_ || _); [by constructor|].
  pose proof (dispatch_rel i' a b (GetHostCallID r) Hr) as Hd.
  destruct (dispatch omegas i' a _) as [[[r1 vm1] a1]|], (dispatch omegas i' b _) as [[[r2 vm2] b1]|]; try done; [|by constructor].
  destruct Hd as [[= <- <-] Hr']. destruct (r1 =? ExitContinue); [by apply IH|by constructor].
Qed.

End Relational.
End Rules.

(** ** Argument invocation *)

Section Argument.
Context {Args : Type} (omegas : Omegas Args).

(** Without gas there is no host call. *)
Lemma HostCall_broke fuel interp a pc res : valid_instrs (Prog interp) -> Gas interp < 0 ->
  HostCall fuel omegas interp a pc = Some (Ret res) -> psiAddition res = a /\ (psiReason res = ExitOOG \/ psiReason res = ExitPanic).
Proof.
  destruct fuel as [|fuel]; cbn [HostCall]; [done|]. intros Hv Hg.
  destruct (SingleStepInvokeDecodedBlocks _ interp pc) as [[[[i' r] q]|]|] eqn:Hrun; [|done..].
  destruct (blocks_gas _ _ _ _ _ _ Hv Hrun) as [_ Hr]. destruct Hr as [->|[->|[? ?]]]; [intros [= <-]; auto..|lia].
Qed.

(** What [R] makes of the end of a run. *)
Lemma R_cases prior (res : Psi_H_ReturnType Args) g v a : R prior res = Ret (g, v, a) ->
  a = psiAddition res /\ g = s64 (u64 (prior - u64 (Z.max (vmGas (psiVM res)) 0))) /\
  (v = RType OUT_OF_GAS \/ v = RType PANIC \/ GetReasonType (psiReason res) = HALT /\ (v = RNil \/ exists b, v = RBytes b)).
Proof.
  unfold R. destruct (_ =? OUT_OF_GAS); [intros [= <- <- <-]; auto|].
  destruct (Z.eqb_spec (GetReasonType (psiReason res)) HALT) as [Hh|]; [|intros [= <- <- <-]; auto].
  intros (start & _ & H)%go_bind_inv. apply go_bind_inv in H as (len & _ & H).
  split_and!; revert H; repeat case_match; intros [= <- <- <-]; eauto 10.
Qed.

(** A result comes from a run, or the code does not load. *)
Lemma Psi_M_inv fuel code counter g argument a g' v a' :
  Psi_M fuel code counter g argument omegas a = Some (Ret (g', v, a')) ->
  (v = RExit ExitPanic /\ g' = 0 /\ a' = a) \/
  exists p regs m res, valid_instrs p /\
    HostCall fuel omegas (MkInterp p regs m (s64 g)) (MkArgs (Some p) (argRest a)) counter = Some (Ret res) /\
    a' = psiAddition res /\ g' = u64 (s64 (u64 (g - u64 (Z.max (vmGas (psiVM res)) 0)))) /\
    (v = RType OUT_OF_GAS \/ v = RType PANIC \/ GetReasonType (psiReason res) = HALT /\ (v = RNil \/ exists b, v = RBytes b)).
Proof.
  unfold Psi_M. destruct (mbind _ _) as [[[[p regs] m]|]|] eqn:E; [|intros [= <- <- <-]; auto|done].
  apply go_bind_inv in E as ([[[c regs'] m']|] & _ & E); [|done]. apply go_bind_inv in E as ([p'|] & Hp & E); [|done]. injection E as -> -> ->.
  apply DeBlobProgramCode_valid in Hp.
  destruct (HostCall _ _ _ _ _) as [[res|]|] eqn:Hh; [|done..]. intros Hr%(inj Some).
  apply go_bind_inv in Hr as ([[g1 v1] a1] & Hr & [= <- <- <-]). apply R_cases in Hr as (-> & -> & Hv).
  right. by exists p, regs, m, res.
Qed.

Lemma Psi_M_terminates code counter g argument a : table_bounded omegas -> 0 <= g < 2 ^ 63 ->
  is_Some (Psi_M (S (Z.to_nat g)) code counter g argument omegas a).
Proof.
  intros Ht Hg. unfold Psi_M. destruct (mbind _ _) as [[[[p regs] m]|]|] eqn:E; [|done..].
  apply go_bind_inv in E as ([[[c regs'] m']|] & _ & E); [|done]. apply go_bind_inv in E as ([p'|] & Hp & E); [|done]. injection E as -> -> ->.
  apply DeBlobProgramCode_valid in Hp. rewrite sN_id by lia.
  destruct (host_progress omegas (S (Z.to_nat g)) (MkInterp p regs m g) (MkArgs (Some p) (argRest a)) counter Ht Hp) as [out ->]; cbn; [lia|lia|].
  by destruct out.
Qed.

Lemma Psi_M_rel (Rel : HostCallArgs Args -> HostCallArgs Args -> Prop) fuel code counter g argument a b :
  Forall (fun o => match o with Some omega => omega_rel Rel omega | None => True end) omegas ->
  Rel a b -> (forall p, Rel (MkArgs (Some p) (argRest a)) (MkArgs (Some p) (argRest b))) ->
  option_Forall2 (go_rel (fun x y => fst x = fst y /\ Rel (snd x) (snd y)))
    (Psi_M fuel code counter g argument omegas a) (Psi_M fuel code counter g argument omegas b).
Proof.
  intros Ht Hr Hp. unfold Psi_M. destruct (mbind _ _) as [[[[p regs] m]|]|]; [|by constructor..].
  pose proof (HostCall_rel omegas Rel Ht fuel (MkInterp p regs m (s64 g)) _ _ counter (Hp p)) as Hh.
  destruct Hh as [[x|] [y|] Hxy|]; try done; [|by constructor..]. constructor.
  destruct Hxy as (E1 & _ & E3 & Hxy). apply (go_rel_bind (fun x y => fst x = fst y /\ Rel (snd x) (snd y))).
  - unfold R. rewrite <- E1, <- E3. destruct (_ =? OUT_OF_GAS); [done|]. destruct (_ =? HALT); [|done].
    destruct (zindex _ 7) as [start|]; [|done]. destruct (zindex _ 8) as [len|]; [|done]. cbn [mbind go_bind].
    destruct (isReadable _ _ _); [|done]. destruct (len =? 0); [done|]. by destruct (readRAM _ _ _).
  - intros [[g1 v1] a1] [[g2 v2] a2] [[= <- <-] Ha]. done.
Qed.

End Argument.

(** What (B.13) asks: the checkpoint after running out of gas or a panic,
    else the final context, with a 32-byte output as the accumulation hash. *)
Definition collapse {P D B K : Type} (g : Z) (res : ReasonOrBytes) (x y : @ResultContext P D B K) :=
  match res with
  | RType _ | RExit _ => committed y (Exception y) g (ServiceBlobs y)
  | RNil => committed x (Exception x) g (ServiceBlobs x)
  | RBytes b =>
      committed x (if decide (length b = 32%nat) then Some b else Exception x) g (ServiceBlobs x)
  end.

(** On the results [R] returns, [C] is the collapse of (B.13) except for
    an output whose length is not 32: there the provided service blobs are
    dropped, so that it differs exactly when there are some. *)
Theorem C_collapse {P D B K : Type} g res (x y : @ResultContext P D B K) :
  (match res with RType t => t = OUT_OF_GAS \/ t = PANIC | RExit _ => False | _ => True end) ->
  C g res x y = collapse g res x y <->
  (forall b, res = RBytes b -> length b <> 32%nat -> ServiceBlobs x = []).
Proof.
  intros Hres. unfold C, collapse. destruct res as [|b|t|e]; cbn.
  - rewrite decide_False by naive_solver. naive_solver.
  - unfold committed. destruct (Z.eqb_spec (Z.of_nat (length b)) 32); cbn; case_decide; try lia.
    + naive_solver.
    + split; [by intros [= <-]|]. intros H0. by rewrite (H0 b).
  - rewrite decide_True by naive_solver. naive_solver.
  - done.
Qed.
