(* ===== verification/BlockSim.v ===== *)
(** * The block interpreter refines the per-instruction interpreter

    On a pre-decoded program whose instructions have their operand bytes,
    [SingleStepInvokeDecodedBlocks] and [SingleStepInvoke] run the same
    instructions with the same gas and end in the same state with the same
    exit reason; only the reported counter of page faults and host calls
    differs, by one instruction. *)

From S2P Require Import Prelude Words ExitReasons Opcodes Memory MemorySpec Decode DecodeSpec.
From S2P Require Import Interp Instructions MetaHandlers Program MetaEquiv.
From S2P Require Import HandlersSpec Invocation InvocationSpec PreDecodeSpec.
Local Open Scope Z_scope.

(** ** Programs the two interpreters agree on *)

Definition decoded (p : Program) (q : Z) : bool :=
  match zlookup (InstrIdxAt p) q with Some idx => 0 <=? idx | None => false end.

(** No jump to a position that neither starts a block nor holds an opcode. *)
Definition clean_target (p : Program) (x : InstrMeta) : bool :=
  match static_target x with
  | None => true
  | Some q =>
      match isOpcodeValid (InstructionData p) q with
      | Ret false => IsStartOfBasicBlock (Bitmasks p) q
      | _ => true
      end
  end.

(** The operand bytes are there, an [ecalli] number leaves the reason type
    alone, jumps are clean, and what follows a terminator is an instruction
    or the end of the code. *)
Definition clean_instr (p : Program) (x : InstrMeta) : bool :=
  operands_present (InstructionData p) (PC x) (SkipLen x) (Opcode x)
  && (negb (Opcode x =? 10) || ((0 <=? Imm0 x) && (Imm0 x <? 2 ^ 56)))
  && clean_target p x
  && (negb (IsBlockTerminator (Opcode x)) || (slen (InstructionData p) <=? next_pc x)
      || decoded p (next_pc x)).

Definition clean (p : Program) : bool := forallb (clean_instr p) (Instrs p).

(** The counters the two interpreters report for the same exit: the block
    interpreter stops at a page-faulting instruction and after a host call,
    the per-instruction one after the fault and at the host call. *)
Definition pc_rel (p : Program) (r q q' : Z) : Prop :=
  if GetReasonType r =? PAGE_FAULT then q' = u32 (q + skip q (Bitmasks p) + 1)
  else if GetReasonType r =? HOST_CALL then q = u32 (q' + skip q' (Bitmasks p) + 1)
  else q = q'.

Definition out_rel (p : Program) (o o' : outcome) : Prop :=
  match o, o' with
  | Crash, Crash => True
  | Ret (i, r, q), Ret (i', r', q') => i = i' /\ r = r' /\ pc_rel p r q q'
  | _, _ => False
  end.

Section Sim.
Context (p : Program).
Hypothesis Hpd : pre_decoded p.
Hypothesis Hcode : wf_code (InstructionData p).
Hypothesis Hn : slen (InstructionData p) < 2 ^ 31.
Hypothesis Hclean : clean p = true.

Lemma clean_at k x : Instrs p !! k = Some x -> clean_instr p x = true.
Proof using Hclean.
  intros Hk. unfold clean in Hclean. rewrite forallb_forall in Hclean.
  apply Hclean, list_elem_of_In. by eapply list_elem_of_lookup_2.
Qed.

(** ** Block ranges *)

Lemma blockInstrs_idx q idx :
  zlookup (InstrIdxAt p) q = Some idx -> 0 <= idx ->
  blockInstrs p q = Ret (toTerminator (drop (Z.to_nat idx) (Instrs p))).
Proof using Hpd.
  intros Hq Hidx. unfold blockInstrs.
  pose proof (zlookup_Some _ _ _ Hq) as Hr. rewrite (pd_idx_length _ Hpd) in Hr.
  destruct (zlookup_is_Some (BlockAt p) q) as [b Hb]; [by rewrite (pd_block_length _ Hpd)|].
  unfold zindex. rewrite Hb. cbn [mbind go_bind]. destruct b as [b|].
  - destruct (pd_block _ Hpd _ _ Hb) as (H0 & Hle & Hi & Ht). rewrite Hq in Hi. injection Hi as ->.
    destruct (Z.leb_spec 0 (InstrStart b)), (Z.leb_spec (InstrStart b) (InstrEnd b)),
      (Z.leb_spec (InstrEnd b) (Z.of_nat (length (Instrs p)))); try lia. cbn. by rewrite Ht.
  - rewrite Hq. cbn. by rewrite (proj2 (Z.leb_le 0 idx) Hidx).
Qed.

Lemma toTerminator_total k x : Instrs p !! k = Some x -> is_Some (toTerminator (drop k (Instrs p))).
Proof using Hpd.
  remember (length (Instrs p) - k)%nat as n eqn:En. revert k x En.
  induction n as [|n IH]; intros k x En Hk; [apply lookup_lt_Some in Hk; lia|].
  rewrite (drop_S _ _ _ Hk). cbn. destruct (IsBlockTerminator (Opcode x)) eqn:Ht; [done|].
  destruct (pd_next _ Hpd _ _ Hk Ht) as (x' & Hx' & _).
  destruct (IH (S k) x') as [r ->]; [lia|done|]. done.
Qed.

Lemma toTerminator_nil l : toTerminator l <> Some [].
Proof using.
  destruct l as [|x l]; cbn; [done|]. destruct (IsBlockTerminator _); [done|].
  by destruct (toTerminator l).
Qed.

(** ** One instruction *)

Lemma instr_facts k x :
  Instrs p !! k = Some x ->
  sindex (InstructionData p) (PC x) = Ret (Opcode x) /\ IsValidOpcode (Opcode x) = true /\
  SkipLen x = skip (PC x) (Bitmasks p) /\ 0 <= PC x < slen (InstructionData p) /\
  u32 (PC x + SkipLen x + 1) = next_pc x /\ PC x < next_pc x /\
  decodeOperands (newInstr (PC x) (Opcode x) (SkipLen x)) (InstructionData p) = Ret x.
Proof using Hpd Hn.
  intros Hk. destruct (pd_instr _ Hpd _ _ Hk) as [Hi _].
  destruct (instr_at_header _ _ _ Hi) as (Hop & Hv & Hs).
  destruct (instr_at_next _ _ Hn _ Hi) as (? & ? & _).
  split_and!; try done; try apply (instr_at_range _ _ _ Hi); [lia|].
  destruct Hi as (op & Hop' & _ & Hd). rewrite Hop in Hop'. injection Hop' as <-. by rewrite Hs.
Qed.

(** The transition function computes the pre-decoded handler. *)
Lemma step_meta i k x :
  Prog i = p -> Instrs p !! k = Some x ->
  SingleStepStateTransition i (PC x) =
    if Gas i <? 1 then Ret (i, ExitOOG, PC x)
    else
      '(i', r, newPC) ← instrMetaExecForOpcode (Opcode x) (charge i) x;
      if (GetReasonType r =? PANIC) || (GetReasonType r =? HALT) then Ret (i', r, 0)
      else if GetReasonType r =? HOST_CALL then Ret (i', r, newPC)
      else if negb (PC x =? newPC) then Ret (i', r, newPC)
      else Ret (i', r, u32 (newPC + SkipLen x + 1)).
Proof using Hpd Hcode Hn Hclean.
  intros Hp Hk. destruct (instr_facts _ _ Hk) as (Hop & Hv & Hs & Hr & _ & _ & Hd).
  pose proof (clean_at _ _ Hk) as Hc. unfold clean_instr in Hc. rewrite !andb_true_iff in Hc.
  destruct Hc as [ [ [Hpres _] _] _]. rewrite <- Hp in *.
  unfold SingleStepStateTransition, isOpcode. rewrite Hop. cbn [mbind go_bind]. rewrite Hv.
  destruct (Z.leb_spec (slen (InstructionData (Prog i))) (PC x)); [lia|].
  destruct (Gas i <? 1); [done|].
  assert (0 <= SkipLen x < 256) as Hsk
    by (rewrite Hs; destruct (skip_spec (PC x) (Bitmasks (Prog i))); lia).
  destruct (meta_agree (charge i) (PC x) (SkipLen x) (Opcode x) x) as (h & Hh & He);
    try done; [cbn; lia|lia|]. rewrite Hh. cbn [charge set_gas Prog] in *.
  rewrite <- Hs. fold (charge i) in *. rewrite He. done.
Qed.

#[local] Opaque SingleStepStateTransition instrMetaExecForOpcode.

Lemma fault_type r : fault_reason r -> GetReasonType r = PAGE_FAULT.
Proof using. intros (a & Ha & ->). apply reason_or_type; [done|lia]. Qed.

(** What an instruction of a clean program can do. *)
Inductive instr_case (x : InstrMeta) (r q : Z) : Prop :=
| case_next : r = ExitContinue -> q = PC x -> instr_case x r q
| case_jump : r = ExitContinue -> q <> PC x -> decoded p q = true -> instr_case x r q
| case_end : r = ExitPanic \/ r = ExitHalt -> instr_case x r q
| case_fault : GetReasonType r = PAGE_FAULT -> q = PC x -> instr_case x r q
| case_host : GetReasonType r = HOST_CALL -> q = PC x -> instr_case x r q.

Lemma block_start_decoded q : IsStartOfBasicBlock (Bitmasks p) q = true -> decoded p q = true.
Proof using Hpd.
  intros (b & Hb)%(pd_starts _ Hpd). destruct (pd_block _ Hpd _ _ Hb) as (H0 & _ & Hi & _).
  unfold decoded. rewrite Hi. by apply Z.leb_le.
Qed.

Lemma meta_cases i k x i' r q :
  Prog i = p -> Instrs p !! k = Some x ->
  instrMetaExecForOpcode (Opcode x) i x = Ret (i', r, q) ->
  Prog i' = p /\ Gas i' = Gas i /\ instr_case x r q.
Proof using Hpd Hn Hclean.
  intros Hp Hk He. destruct (instr_facts _ _ Hk) as (_ & Hv%valid_opcode_elem & _).
  pose proof (proj1 (Forall_forall _ _) all_meta_framed _ Hv i x eq_refl _ _ _ He)
    as ([Hg Hp'] & Hr & Hq).
  split_and!; [congruence|done|]. pose proof (clean_at _ _ Hk) as Hc. unfold clean_instr in Hc.
  rewrite !andb_true_iff in Hc. destruct Hc as [ [ [_ Hec] Htg] _].
  unfold jump_dest in Hq. rewrite Hp in Hq. destruct Hq as [->|(-> & Hq)].
  - destruct Hr as [[-> | [-> | ->]]|[Hf|(Ho & ->)]].
    + by apply case_next.
    + apply case_end. auto.
    + apply case_end. auto.
    + apply case_fault; [by apply fault_type|done].
    + apply case_host; [|done]. rewrite Ho in Hec. cbn in Hec. apply andb_prop in Hec as [H1 H2].
      apply Z.leb_le in H1. apply Z.ltb_lt in H2. by apply reason_or_type.
  - destruct (decide (q = PC x)) as [->|Hne]; [by apply case_next|]. apply case_jump; [done..|].
    apply block_start_decoded. destruct Hq as [?|[Hinv Hst]]; [done|].
    unfold clean_target in Htg. by rewrite Hst, Hinv in Htg.
Qed.

(** ** One block *)

Definition reach (q : Z) : Prop := decoded p q = true \/ slen (InstructionData p) <= q.

Definition block_sim (i : Interpreter) (pc : Z) (l : list InstrMeta)
    (o : go (Interpreter * blockEnd)) : Prop :=
  match o with
  | Crash => exists n, SingleStepInvoke n i pc = Some Crash
  | Ret (i', Stop r q) =>
      exists n q', SingleStepInvoke n i pc = Some (Ret (i', r, q')) /\ pc_rel p r q q'
  | Ret (i', BranchTaken q) => exists n, steps n i pc i' q /\ reach q /\ Prog i' = p
  | Ret (i', BlockDone) =>
      exists n y, last l = Some y /\ steps n i pc i' (next_pc y) /\ reach (next_pc y) /\ Prog i' = p /\
        u32 (PC y + SkipLen y + 1) = next_pc y
  end.

Lemma invoke_next n i pc i' pc' :
  SingleStepStateTransition i pc = Ret (i', ExitContinue, pc') ->
  SingleStepInvoke (S n) i pc = SingleStepInvoke n i' pc'.
Proof using. intros Hs. cbn [SingleStepInvoke]. rewrite Hs. reflexivity. Qed.

(** A run whose first instruction ends in [CONTINUE]. *)
Lemma block_sim_cons i pc i' pc' x l o :
  SingleStepStateTransition i pc = Ret (i', ExitContinue, pc') -> l <> [] ->
  block_sim i' pc' l o -> block_sim i pc (x :: l) o.
Proof using.
  intros Hs Hl. assert (last (x :: l) = last l) as Hlast by (by destruct l).
  unfold block_sim. rewrite Hlast. destruct o as [[j [r q|q|]]|].
  - intros (n & q' & Hr & Hrel). exists (S n), q'. rewrite (invoke_next n _ _ _ _ Hs).
    exact (conj Hr Hrel).
  - intros (n & ? & ?). exists (S n). split; [by econstructor|done].
  - intros (n & y & ? & ? & ?). exists (S n), y. split; [done|]. split; [by econstructor|done].
  - intros (n & Hr). exists (S n). rewrite (invoke_next n _ _ _ _ Hs). exact Hr.
Qed.

Lemma execBlock_sim l i k x :
  Prog i = p -> Instrs p !! k = Some x -> toTerminator (drop k (Instrs p)) = Some l ->
  block_sim i (PC x) l (execBlock i l).
Proof using Hpd Hcode Hn Hclean.
  revert i k x. induction l as [|y l IH]; intros i k x Hp Hk Hl.
  { by apply toTerminator_nil in Hl. }
  rewrite (drop_S _ _ _ Hk) in Hl. cbn [toTerminator] in Hl.
  assert (y = x) as ->.
  { destruct (IsBlockTerminator _); [by injection Hl|].
    destruct (toTerminator (drop (S k) _)); cbn in Hl; [by injection Hl | discriminate Hl]. }
  pose proof (step_meta i k x Hp Hk) as Hstep. cbn [execBlock].
  destruct (instr_facts _ _ Hk) as (_ & _ & Hs & Hr & Hnx & _ & _).
  destruct (Gas i <? 1) eqn:Hg.
  { exists 1%nat, (PC x). cbn [SingleStepInvoke]. rewrite Hstep. done. }
  destruct (instrMetaExecForOpcode _ _ _) as [ [ [i' r] q]|] eqn:He; cbn [mbind go_bind] in *;
    [|exists 1%nat; cbn [SingleStepInvoke]; by rewrite Hstep].
  destruct (meta_cases (charge i) k x i' r q Hp Hk He) as (Hp' & _ & Hcase).
  destruct Hcase as [-> -> | -> Hne Hdec | [-> | ->] | Ht -> | Ht -> ].
  - (* next instruction *)
    cbn in Hstep |- *. rewrite Z.eqb_refl in *. cbn in Hstep |- *. rewrite Hnx in Hstep.
    destruct (IsBlockTerminator (Opcode x)) eqn:Hterm.
    + injection Hl as <-. cbn [execBlock]. exists 1%nat, x.
      split_and!; [done| |  |done|done].
      * by econstructor; [exact Hstep|done|constructor].
      * pose proof (clean_at _ _ Hk) as Hc. unfold clean_instr in Hc.
        apply andb_prop in Hc as [_ Hc]. rewrite Hterm in Hc. cbn [negb orb] in Hc.
        apply orb_prop in Hc as [Hc%Z.leb_le|Hc]; [by right|by left].
    + destruct (pd_next _ Hpd _ _ Hk Hterm) as (x' & Hx' & Hpc').
      destruct (toTerminator (drop (S k) (Instrs p))) as [l'|] eqn:Hl'; [|done].
      injection Hl as <-. apply (block_sim_cons _ _ _ _ _ _ _ Hstep).
      * intros ->. by apply toTerminator_nil in Hl'.
      * rewrite <- Hpc'. by eapply IH.
  - (* taken branch *)
    cbn in Hstep |- *. assert ((PC x =? q) = false) as Hneq by (apply Z.eqb_neq; congruence).
    rewrite Hneq in *. cbn in Hstep |- *. exists 1%nat. split_and!; [|by left|done].
    by econstructor; [exact Hstep|done|constructor].
  - exists 1%nat, 0. cbn [SingleStepInvoke]. rewrite Hstep. done.
  - exists 1%nat, 0. cbn [SingleStepInvoke]. rewrite Hstep. done.
  - rewrite Ht in *. cbn in Hstep |- *. rewrite Z.eqb_refl in Hstep. cbn in Hstep.
    exists 1%nat. eexists. cbn [SingleStepInvoke]. rewrite Hstep, Ht. split; [done|].
    unfold pc_rel. rewrite Ht. cbn. by rewrite <- Hs.
  - rewrite Ht in *. cbn in Hstep |- *.
    exists 1%nat. eexists. cbn [SingleStepInvoke]. rewrite Hstep, Ht. split; [done|].
    unfold pc_rel. rewrite Ht. cbn. by rewrite <- Hs.
Qed.

(** ** Runs *)

Lemma decoded_instr q : decoded p q = true ->
  exists idx x l, zlookup (InstrIdxAt p) q = Some idx /\ 0 <= idx /\
    Instrs p !! Z.to_nat idx = Some x /\ PC x = q /\
    toTerminator (drop (Z.to_nat idx) (Instrs p)) = Some l /\ blockInstrs p q = Ret (Some l).
Proof using Hpd.
  unfold decoded. destruct (zlookup (InstrIdxAt p) q) as [idx|] eqn:Hq; [|done].
  intros H0%Z.leb_le. destruct (pd_idx _ Hpd _ _ Hq) as [?|(_ & x & Hx & Hpc)]; [lia|].
  destruct (toTerminator_total _ _ Hx) as [l Hl]. exists idx, x, l.
  split_and!; [done..|]. rewrite (blockInstrs_idx _ _ Hq H0). by rewrite Hl.
Qed.

Lemma past_end i q n :
  Prog i = p -> slen (InstructionData p) <= q ->
  SingleStepInvoke (S n) i q = Some (Ret (i, ExitPanic, 0)).
Proof using.
  intros Hp Hq. cbn [SingleStepInvoke].
  assert (SingleStepStateTransition i q = Ret (i, ExitPanic, q)) as ->; [|reflexivity].
  Transparent SingleStepStateTransition. unfold SingleStepStateTransition. rewrite Hp.
  by rewrite (proj2 (Z.leb_le _ _) Hq).
  Opaque SingleStepStateTransition.
Qed.

Lemma blocks_sim n i pc out :
  Prog i = p -> reach pc -> SingleStepInvokeDecodedBlocks n i pc = Some out ->
  exists m out', SingleStepInvoke m i pc = Some out' /\ out_rel p out out'.
Proof using Hpd Hcode Hn Hclean.
  revert i pc. induction n as [|n IH]; intros i pc Hp Hreach H; [done|].
  cbn [SingleStepInvokeDecodedBlocks] in H. rewrite Hp in H.
  rewrite (pd_block_length _ Hpd) in H.
  change (Z.of_nat (length (elems (InstructionData p)))) with (slen (InstructionData p)) in H.
  destruct (Z.leb_spec (slen (InstructionData p)) pc) as [Hpc|Hpc].
  { injection H as <-. exists 1%nat, (Ret (i, ExitPanic, 0)).
    exact (conj (past_end i pc 0 Hp Hpc) (conj eq_refl (conj eq_refl eq_refl))). }
  destruct Hreach as [Hdec|?]; [|lia].
  destruct (decoded_instr _ Hdec) as (idx & x & l & Hidx & H0 & Hx & Hxpc & Hl & Hb).
  rewrite Hb in H. pose proof (execBlock_sim l i _ x Hp Hx Hl) as Hsim. rewrite Hxpc in Hsim.
  assert (forall m i' q out, steps m i pc i' q ->
    (exists k out', SingleStepInvoke k i' q = Some out' /\ out_rel p out out') ->
    exists k out', SingleStepInvoke k i pc = Some out' /\ out_rel p out out') as Hcat.
  { intros m i' q out0 Hs (k & out' & Hk & Hrel). exists (m + k)%nat, out'.
    rewrite (steps_invoke _ _ _ _ _ k Hs). exact (conj Hk Hrel). }
  destruct (execBlock i l) as [[i' [r q|q|]]|]; cbn [block_sim] in Hsim.
  - destruct Hsim as (m & q' & Hm & Hrel). injection H as <-. exists m, (Ret (i', r, q')).
    exact (conj Hm (conj eq_refl (conj eq_refl Hrel))).
  - destruct Hsim as (m & Hm & Hq & Hp'). apply (Hcat _ _ _ _ Hm). by apply IH.
  - destruct Hsim as (m & y & Hy & Hm & Hq & Hp' & Hu). rewrite Hy, Hu in H.
    apply (Hcat _ _ _ _ Hm). by apply IH.
  - destruct Hsim as (m & Hm). injection H as <-. exists m, Crash. exact (conj Hm I).
Qed.

Lemma pd_valid : valid_instrs p.
Proof using Hpd Hn.
  apply Forall_lookup_2. intros k x Hk. by destruct (instr_facts _ _ Hk) as (_ & ? & _).
Qed.

(** C10: the block interpreter refines the per-instruction interpreter.  From
    a decoded counter of a clean program both return, and they return the
    same interpreter state (registers, memory, gas) with the same exit
    reason and corresponding counters, or panic both. *)
Theorem blocks_refine i pc :
  Prog i = p -> decoded p pc = true ->
  exists out out',
    (forall fuel, (Z.to_nat (Gas i) < fuel)%nat ->
       SingleStepInvokeDecodedBlocks fuel i pc = Some out /\ SingleStepInvoke fuel i pc = Some out') /\
    out_rel p out out'.
Proof using Hpd Hcode Hn Hclean.
  intros Hp Hdec. set (f := S (Z.to_nat (Gas i))).
  assert (valid_instrs (Prog i)) as Hv by (rewrite Hp; exact pd_valid).
  destruct (blocks_progress f i pc Hv ltac:(lia)) as [out Hout].
  destruct (invoke_progress f i pc ltac:(lia)) as [out' Hout'].
  exists out, out'. split.
  - intros fuel Hf. split; [apply (blocks_mono _ _ _ _ _ Hout)|apply (invoke_mono _ _ _ _ _ Hout')]; lia.
  - destruct (blocks_sim f i pc out Hp (or_introl Hdec) Hout) as (m & out2 & Hm & Hrel).
    assert (out2 = out') as <-; [|done].
    pose proof (invoke_mono _ _ _ _ (Nat.max m f) Hm ltac:(lia)) as H1.
    pose proof (invoke_mono _ _ _ _ (Nat.max m f) Hout' ltac:(lia)) as H2. congruence.
Qed.

End Sim.
