(* ===== verification/Examples.v ===== *)
(** * Concrete programs and instances

    A program blob that is loaded, pre-decoded and run, and the instances of
    the theorems of the library at concrete inputs. *)

From S2P Require Import Prelude Words ExitReasons Opcodes Memory MemorySpec Bits Decode.
From S2P Require Import DecodeSpec Interp Initializer InitializerSpec Instructions MetaHandlers.
From S2P Require Import Program Types Codec CodecSpec MetaEquiv HandlersSpec ArithSpec.
From S2P Require Import Invocation InvocationSpec Host HostSpec PreDecodeSpec BlockSim.
Local Open Scope Z_scope.

(** ** A program

    [load_imm r7 5; add_64 r8 r7 r7; fallthrough; ecalli 3; trap]. *)
Definition ex_code : gslice := GSlice [51; 7; 5; 200; 0x77; 8; 1; 10; 3; 0] [].
Definition ex_bits : list Z := [201; 2].
Definition ex_blob : gslice := GSlice ([0; 0; 10] ++ elems ex_code ++ ex_bits) [].

Definition ex_prog : Program :=
  match DeBlobProgramCode ex_blob with
  | Ret (Some p) => p
  | _ => MkProgram (GSlice [] []) [] (MkJumpTable (GSlice [] []) 0 0) [] [] []
  end.

Definition ex_interp (g : Z) : Interpreter :=
  MkInterp ex_prog (replicate 13 0) (MkMemory ∅ 0 0) g.

Lemma ex_loads : DeBlobProgramCode ex_blob = Ret (Some ex_prog).
Proof. vm_compute. reflexivity. Qed.

Lemma ex_run : SingleStepInvokeDecodedBlocks 10 (ex_interp 9) 0 =
  Some (Ret (MkInterp ex_prog [0; 0; 0; 0; 0; 0; 0; 5; 10; 0; 0; 0; 0] (MkMemory ∅ 0 0) 5,
    u64 (Z.lor ExitHostCall 3), 9)).
Proof. vm_compute. reflexivity. Qed.

Lemma ex_bytes l : forallb (fun b => (0 <=? b) && (b <? 256)) l = true -> Forall is_byte l.
Proof.
  intros H. apply List.Forall_forall. intros x Hx.
  pose proof (proj1 (List.forallb_forall _ _) H x Hx) as Hb. apply andb_prop in Hb as [? ?].
  unfold is_byte. lia.
Qed.

Lemma ex_wf g : wf_interp (ex_interp g).
Proof.
  constructor; cbn; [|intros ???; done|lia|lia].
  split; [done|]. repeat (apply List.Forall_cons; [unfold is_u64; lia|]). apply List.Forall_nil.
Qed.

Lemma ex_contract :
  pre_decoded ex_prog /\ wf_code (InstructionData ex_prog) /\
  wf_bitmask (InstructionData ex_prog) (Bitmasks ex_prog).
Proof.
  apply (deblob_contract ex_blob); [|exact ex_loads|vm_compute; reflexivity].
  apply ex_bytes. vm_compute. reflexivity.
Qed.

Lemma ex_valid : valid_instrs ex_prog.
Proof.
  apply List.Forall_forall. intros x. apply (proj1 (List.forallb_forall (fun x => IsValidOpcode (Opcode x)) _)).
  vm_compute. reflexivity.
Qed.

(** ** Instances *)

Lemma blocks_refine_witness : exists out out',
  (forall fuel, (9 < fuel)%nat ->
     SingleStepInvokeDecodedBlocks fuel (ex_interp 9) 0 = Some out /\
     SingleStepInvoke fuel (ex_interp 9) 0 = Some out') /\ out_rel ex_prog out out'.
Proof.
  apply (fun H1 H2 => blocks_refine ex_prog (proj1 ex_contract) (proj1 (proj2 ex_contract)) H1 H2 (ex_interp 9) 0).
  - vm_compute. reflexivity.
  - vm_compute. reflexivity.
  - reflexivity.
  - vm_compute. reflexivity.
Defined.

Definition ex_add : InstrMeta := MkInstr 3 200 2 8 7 7 0 0.


Lemma handlers_preserve_witness : exists i1 r1 pc1,
  instrMetaExecForOpcode 200 (ex_interp 9) ex_add = Ret (i1, r1, pc1) /\
  exec_post ex_add (ex_interp 9) i1 r1 pc1.
Proof.
  apply (handlers_preserve 200 ex_add (ex_interp 9) eq_refl eq_refl (ex_wf 9)).
  unfold wf_operands, is_u64, is_reg. cbn. repeat split; lia.
Defined.

Lemma DeBlobProgramCode_ok_witness : pre_decoded ex_prog /\
  wf_code (InstructionData ex_prog) /\ wf_bitmask (InstructionData ex_prog) (Bitmasks ex_prog).
Proof.
  apply (DeBlobProgramCode_ok ex_blob); [|exact ex_loads|vm_compute; reflexivity].
  apply ex_bytes. vm_compute. reflexivity.
Defined.

Lemma MakeBitMasks_spec_witness : exists bm,
  MakeBitMasks ex_code ex_bits = Ret (Some bm) /\ length bm = length (elems ex_code) /\
  forall q, 0 <= q < slen ex_code ->
    IsStartOfInstruction bm q = bit_at ex_bits q /\
    (IsStartOfBasicBlock bm q = true <->
      bit_at ex_bits q = true /\
      (q = 0 \/ exists p op, last_start (bit_at ex_bits) 0 0 q p /\
        sindex ex_code p = Ret op /\ IsBlockTerminator op = true)).
Proof.
  eexists. split; [vm_compute; reflexivity|].
  apply MakeBitMasks_spec; [|vm_compute; reflexivity].
  apply ex_bytes. vm_compute. reflexivity.
Defined.

Lemma preDecodeBlocks_fuel_witness :
  (forall s first t pc, 0 <= pc ->
     blockLoop 20 ex_code (Bitmasks ex_prog) s first t pc =
     blockLoop 11 ex_code (Bitmasks ex_prog) s first t pc) /\
  scanLoop 20 ex_code (Bitmasks ex_prog) (MkTables [] (replicate 10 None) (replicate 10 (-1))) 0 =
    preDecodeBlocks ex_code (Bitmasks ex_prog).
Proof.
  apply (preDecodeBlocks_fuel ex_code (Bitmasks ex_prog) 20); [vm_compute; reflexivity|].
  cbn. lia.
Defined.

Lemma three_reg_correct_witness :
  instrMetaExecForOpcode 200 (ex_interp 9) ex_add =
    Ret (set_regs (ex_interp 9) (<[8%nat := 0]> (Registers (ex_interp 9))), ExitContinue, 3).
Proof.
  apply (three_reg_correct 200 (ex_interp 9) ex_add 0 0);
    [lia|lia|exact (ex_wf 9)|unfold is_reg; cbn; lia|reflexivity|reflexivity| |]; unfold is_u64; lia.
Defined.

(** Registers 7 and 9 hold -1 and 1. *)
Definition ex_signed : Interpreter :=
  set_regs (ex_interp 9) [0; 0; 0; 0; 0; 0; 0; 2 ^ 64 - 1; 0; 1; 0; 0; 0].

Lemma ex_signed_wf : wf_interp ex_signed.
Proof.
  constructor; cbn; [|intros ???; done|lia|lia].
  split; [done|]. repeat (apply List.Forall_cons; [unfold is_u64; lia|]). apply List.Forall_nil.
Qed.

(** The high word of [-1 * 1] is [-1]; the handler gives [0]. *)
Lemma mul_upper_s_s_error_witness : exists v,
  instrMetaExecForOpcode 213 ex_signed (MkInstr 3 213 2 8 7 9 0 0) =
    Ret (set_regs ex_signed (<[8%nat := v]> (Registers ex_signed)), ExitContinue, 3) /\ v = 0.
Proof.
  apply (mul_upper_s_s_error ex_signed (MkInstr 3 213 2 8 7 9 0 0) (2 ^ 64 - 1) 1);
    [exact ex_signed_wf|unfold is_reg; cbn; lia|reflexivity|reflexivity| |]; unfold is_u64; lia.
Defined.

(** [add_imm_64 r8 r9 41]. *)
Lemma imm_correct_witness :
  instrMetaExecForOpcode 149 ex_signed (MkInstr 0 149 3 8 9 0xFF 41 0) =
    Ret (set_regs ex_signed (<[8%nat := 42]> (Registers ex_signed)), ExitContinue, 0).
Proof.
  apply (imm_correct 149 ex_signed (MkInstr 0 149 3 8 9 0xFF 41 0) 1);
    [lia|exact ex_signed_wf|unfold is_reg; cbn; lia|reflexivity| |]; unfold is_u64; cbn; lia.
Defined.

Lemma SingleStepInvoke_gas_witness : exists i' r pc',
  SingleStepInvoke 20 (ex_interp 9) 0 = Some (Ret (i', r, pc')) /\
  exists n j q, steps n (ex_interp 9) 0 j q /\ Gas j = Gas (ex_interp 9) - Z.of_nat n /\
    ((Gas i' = Gas j - 1 /\ 1 <= Gas j) \/
     (i' = j /\ (r = ExitPanic \/ (r = ExitOOG /\ Gas j < 1)))).
Proof.
  do 3 eexists. split; [vm_compute; reflexivity|].
  eapply (SingleStepInvoke_gas 20). vm_compute. reflexivity.
Defined.

Lemma blocks_terminates_witness :
  exists out, forall fuel, (9 < fuel)%nat ->
    SingleStepInvokeDecodedBlocks fuel (ex_interp 9) 0 = Some out.
Proof. apply (blocks_terminates (ex_interp 9) 0). exact ex_valid. Defined.

(** ** A standard program *)

Definition ex_std : gslice := GSlice (encodeStandard [1; 2; 3] [4] 1 4096 (elems ex_blob)) [].
Definition ex_arg : gslice := GSlice (replicate 4100 7) [].

Lemma ex_std_wf : wf_code ex_std.
Proof. apply ex_bytes. vm_compute. reflexivity. Qed.
Lemma ex_arg_wf : Forall is_byte (elems ex_arg).
Proof. apply ex_bytes. vm_compute. reflexivity. Qed.

Lemma DecodeSerializedValues_encode_witness :
  exists c' o' w', DecodeSerializedValues ex_std = Ret (Some (c', o', w', 1, 4096)) /\
    elems c' = elems ex_blob /\ elems o' = [1; 2; 3] /\ elems w' = [4].
Proof.
  apply (DecodeSerializedValues_encode [1; 2; 3] [4] 1 4096 (elems ex_blob) ex_std []);
    [|vm_compute; reflexivity..|lia|lia].
  pose proof ex_std_wf as H. by apply Forall_app in H as [? _].
Defined.

Lemma ex_accepted : exists c regs m, SingleInitializer ex_std ex_arg = Ret (Some (c, regs, m)).
Proof.
  destruct (SingleInitializer ex_std ex_arg) as [ [ [ [c regs] m] |] |] eqn:E.
  - eauto.
  - assert (match SingleInitializer ex_std ex_arg with Ret (Some _) => true | _ => false end = true)
      as H by (vm_compute; reflexivity). by rewrite E in H.
  - assert (match SingleInitializer ex_std ex_arg with Ret (Some _) => true | _ => false end = true)
      as H by (vm_compute; reflexivity). by rewrite E in H.
Qed.

Lemma ex_arg_small : slen ex_arg <= ZI / 2.
Proof. apply Z.leb_le. vm_compute. reflexivity. Qed.
Lemma ex_arg_page : ZP <= slen ex_arg.
Proof. apply Z.leb_le. vm_compute. reflexivity. Qed.

Lemma SingleInitializer_layout_witness :
  exists c regs m, SingleInitializer ex_std ex_arg = Ret (Some (c, regs, m)) /\
  exists o w z s,
    DecodeSerializedValues ex_std = Ret (Some (c, o, w, z, s)) /\
    (forall k, Pages m !! k = layout_page (elems o) (elems w) z s (elems ex_arg) k) /\
    heapPointer m = (rwPage (slen o) + npages (slen w) + z) * ZP /\
    heapLimit m = (stackTop - npages s) * ZP /\ heapPointer m <= heapLimit m /\
    (forall k, heapPointer m <= k * ZP < heapLimit m -> Pages m !! k = None).
Proof.
  destruct ex_accepted as (c & regs & m & H). exists c, regs, m. split; [exact H|].
  exact (SingleInitializer_layout ex_std ex_arg c regs m ex_std_wf ex_arg_small H).
Defined.

Lemma SingleInitializer_wf_witness :
  exists c regs m, SingleInitializer ex_std ex_arg = Ret (Some (c, regs, m)) /\
  wf_interp (MkInterp ex_prog regs m 100) /\
  zlookup regs 0 = Some (2 ^ 32 - 2 ^ 16) /\ zlookup regs 1 = Some (stackTop * ZP) /\
  zlookup regs 7 = Some (argPage * ZP) /\ zlookup regs 8 = Some (slen ex_arg).
Proof.
  destruct ex_accepted as (c & regs & m & H). exists c, regs, m. split; [exact H|].
  exact (SingleInitializer_wf ex_std ex_arg c regs m ex_prog 100 ex_std_wf ex_arg_wf ex_arg_small H).
Defined.

Lemma argument_padding_excess_witness :
  exists c regs m, SingleInitializer ex_std ex_arg = Ret (Some (c, regs, m)) /\
  0 < slen ex_arg / ZP /\
  forall k, argPage + npages (slen ex_arg) <= k < argPage + slen ex_arg / ZP + npages (slen ex_arg) ->
    Pages m !! k = Some (zero_page MemoryReadOnly).
Proof.
  destruct ex_accepted as (c & regs & m & H). exists c, regs, m. split; [exact H|].
  exact (argument_padding_excess ex_std ex_arg c regs m ex_std_wf ex_arg_small H ex_arg_page).
Defined.

(** ** Host calls *)

Definition ex_args : HostCallArgs unit := MkArgs None tt.

Lemma HostCall_terminates_witness :
  exists out, HostCall 10 [Some (@gas unit)] (ex_interp 9) ex_args 0 = Some out.
Proof.
  apply (HostCall_terminates [Some (@gas unit)] (ex_interp 9) ex_args 0).
  - apply List.Forall_cons; [exact gas_call_bounded|apply List.Forall_nil].
  - exact ex_valid.
  - reflexivity.
  - cbn. lia.
Defined.

(** [ecalli 101; trap]. *)
Definition ex_bad : Program :=
  match DeBlobProgramCode (GSlice [0; 0; 3; 10; 101; 0; 5] []) with
  | Ret (Some p) => p
  | _ => MkProgram (GSlice [] []) [] (MkJumpTable (GSlice [] []) 0 0) [] [] []
  end.

Lemma HostCall_unknown_panics_witness :
  HostCall 5 [Some (@gas unit)] (MkInterp ex_bad (replicate 13 0) (MkMemory ∅ 0 0) 20) ex_args 0 = Some Crash.
Proof.
  eapply (HostCall_unknown_panics [Some (@gas unit)] 4).
  - vm_compute. reflexivity.
  - reflexivity.
  - reflexivity.
Defined.

Definition ex_halt (start len : Z) : Psi_H_ReturnType unit :=
  MkPsiH ExitHalt 0 (MkVM [0; 0; 0; 0; 0; 0; 0; start; len; 0; 0; 0; 0]
    (MkMemory {[ 16 := MkPage (replicate 4096 9) MemoryReadOnly ]} 0 0) 30) ex_args.

Lemma R_spec_witness : R 100 (ex_halt 65536 4) = Ret (70, RBytes [9; 9; 9; 9], ex_args).
Proof.
  apply (R_spec 100 (ex_halt 65536 4) 65536 4);
    [cbn; lia|lia| |reflexivity|reflexivity|unfold is_u64; lia|unfold is_u64; lia].
  intros k pg. cbn [ex_halt vmMemory psiVM Pages]. intros [<- <-]%lookup_singleton_Some.
  split; [reflexivity|]. apply Forall_replicate. unfold is_byte. lia.
Defined.

Lemma refine_unloadable_ok_witness : exists res,
  Psi_M 10 (GSlice [1] []) 0 100 (GSlice [] []) [Some (@gas unit)] ex_args = Some (Ret (0, res, ex_args)) /\
  refineResult res = (WorkExecResultOk, []) /\ isAuthorizedResult res = (WorkExecResultPanic, []).
Proof. apply refine_unloadable_ok. left. vm_compute. reflexivity. Defined.

Lemma empty_output_disagrees_witness : exists u out,
  R 100 (ex_halt 65536 0) = Ret (u, out, ex_args) /\
  refineResult out = (WorkExecResultOk, []) /\ isAuthorizedResult out = (WorkExecResultPanic, []).
Proof.
  apply (empty_output_disagrees 100 (ex_halt 65536 0) 65536); reflexivity.
Defined.

Definition ex_context : @ResultContext unit unit nat unit := MkContext tt tt None [1%nat] tt.

Lemma C_collapse_witness :
  C 5 (RBytes [1; 2]) ex_context ex_context = collapse 5 (RBytes [1; 2]) ex_context ex_context <->
  (forall b, RBytes [1; 2] = RBytes b -> length b <> 32%nat -> ServiceBlobs ex_context = []).
Proof. apply (C_collapse 5 (RBytes [1; 2]) ex_context ex_context). exact I. Defined.

(** * Memory laws, bit sequences, integer codecs *)


(** Two adjacent writable pages, so that an access may cross them. *)
Definition ex_memory : Memory :=
  MkMemory {[ 16 := MkPage (replicate 4096 0) MemoryReadWrite;
              17 := MkPage (replicate 4096 1) MemoryReadWrite ]} 0 0.

Lemma ex_memory_wf : wf_mem ex_memory.
Proof.
  intros k p. cbn [ex_memory Pages]. intros [ [_ <-] | [_ [_ <-]%lookup_singleton_Some] ]%lookup_insert_Some;
    (split; [reflexivity|]; apply Forall_replicate; unfold is_byte; lia).
Qed.

Lemma store_outcome_witness : exists m',
  storeIntoMemory ex_memory 8 (2 ^ 16 + 4092) 77 = Ret (m', ExitContinue) /\
  updated ex_memory m' (2 ^ 16 + 4092) (storeBytes 8 77).
Proof.
  apply (store_outcome ex_memory 8 (2 ^ 16 + 4092) 77 ex_memory_wf); [unfold access_size; lia|lia].
Defined.

Lemma ex_store_ok n a v : match storeIntoMemory ex_memory n a v with
  Ret (_, r) => r =? ExitContinue | Crash => false end = true ->
  exists m', storeIntoMemory ex_memory n a v = Ret (m', ExitContinue).
Proof.
  destruct (storeIntoMemory ex_memory n a v) as [ [m' r] |]; [|done].
  intros ->%Z.eqb_eq. eauto.
Qed.

Lemma store_then_load_witness : exists m',
  loadFromMemory m' 4 (2 ^ 16 + 4094) = Ret (0x11223344, ExitContinue) /\
  (forall k b, access_size k -> 2 ^ 16 <= b < 2 ^ 32 -> b + k <= 2 ^ 16 + 4094 \/ 2 ^ 16 + 4094 + 4 <= b ->
     loadFromMemory m' k b = loadFromMemory ex_memory k b).
Proof.
  destruct (ex_store_ok 4 (2 ^ 16 + 4094) 0x11223344) as [m' H]; [vm_compute; reflexivity|].
  exists m'.
  apply (store_then_load ex_memory 4 (2 ^ 16 + 4094) 0x11223344 m' ex_memory_wf);
    [unfold access_size; lia|lia|exact H].
Defined.

Lemma write_then_read_witness : exists m', Write ex_memory (2 ^ 16 + 4094) [1; 2; 3; 4] = Ret m' /\
  Read m' (2 ^ 16 + 4094) 4 = Ret [1; 2; 3; 4] /\ readRAM (2 ^ 16 + 4094) 4 m' = Some [1; 2; 3; 4].
Proof.
  destruct (write_then_read ex_memory (2 ^ 16 + 4094) [1; 2; 3; 4] ex_memory_wf) as (m' & H1 & H2 & H3 & _).
  - lia.
  - repeat (apply List.Forall_cons; [unfold is_byte; lia|]). apply List.Forall_nil.
  - vm_compute. reflexivity.
  - exact (ex_intro _ m' (conj H1 (conj H2 H3))).
Defined.

Lemma range_checks_witness : exists bs, Z.of_nat (length bs) = 3 /\
  Read ex_memory (2 ^ 16 + 5) 3 = Ret bs /\ readRAM (2 ^ 16 + 5) 3 ex_memory = Some bs.
Proof.
  apply (range_checks ex_memory (2 ^ 16 + 5) 3 ex_memory_wf); [lia|lia|]. vm_compute. reflexivity.
Defined.

Lemma bits_roundtrip_witness :
  exists bits, UnsignedToBits 0xA5 8 = Some bits /\ Z.of_nat (length bits) = 64 /\
    BitsToUnsigned bits 8 = Some 0xA5 /\ ReverseBitsToUnsigned (reverse bits) 8 = Some 0xA5 /\
    ReverseUnsignedToBits 0xA5 8 = None.
Proof. apply (bits_roundtrip 0xA5 8); lia. Defined.

Lemma codecs_agree_witness :
  DecodeUint (GSlice [0xC1; 0; 2] []) = Ret (DeserializeU64 [0xC1; 0; 2]) /\
  (exists o, ReadUintVariable (GSlice [0xC1; 0; 2] []) = Ret o /\ fst <$> o = DeserializeU64 [0xC1; 0; 2]) /\
  EncodeUint (2 ^ 63) = SerializeU64 (2 ^ 63).
Proof.
  apply (codecs_agree [0xC1; 0; 2] [] (2 ^ 63)); [|lia].
  repeat (apply List.Forall_cons; [unfold is_byte; lia|]). apply List.Forall_nil.
Defined.

Lemma uint_roundtrip_witness :
  decodeUintFromReader (EncodeUint 70000 ++ [9]) = Ret (Some 70000, [9]) /\
  DeserializeU64 (SerializeU64 70000 ++ [9]) = Some 70000 /\
  ReadUintVariable (GSlice (EncodeUint 70000 ++ [9]) []) = Ret (Some (70000, 3)) /\
  (1 <= length (EncodeUint 70000) <= 9)%nat.
Proof.
  apply (uint_roundtrip 70000 [9] []); [lia|].
  apply List.Forall_cons; [unfold is_byte; lia|apply List.Forall_nil].
Defined.

(** The nine-byte form of 5 is accepted. *)
Lemma uint_canonical_witness : 0 <= 5 < 2 ^ 64 /\
  exists used, [255; 5; 0; 0; 0; 0; 0; 0; 0; 7] = used ++ [7] /\
    (used = EncodeUint 5 \/ (5 < 2 ^ 56 /\ used = 255 :: le_bytes 8 5)).
Proof.
  apply (uint_canonical [255; 5; 0; 0; 0; 0; 0; 0; 0; 7] 5 [7]); [|vm_compute; reflexivity].
  repeat (apply List.Forall_cons; [unfold is_byte; lia|]). apply List.Forall_nil.
Defined.
