(* ===== verification/Shuffle.v ===== *)
(** * Shuffling and guarantor assignments

    src/internal/utilities/shuffle/shuffle.go (F.1 to F.3) and the core
    assignment of src/internal/extrinsic/guarantor_assignments.go.

    [FisherYatesShuffle] permutes its slice argument in place and re-slices
    it for the recursive call; the model returns the contents the caller's
    slice has afterwards next to the result. *)

From S2P Require Import Prelude Words Decode Config Codec CodecSpec.
Local Open Scope Z_scope.

(** [out[i] = byte(x & 0xFF); x >>= 8] *)
Fixpoint serializeLoop (l : nat) (x : Z) : list Z :=
  match l with
  | O => []
  | S l => u8 (Z.land x 0xFF) :: serializeLoop l (shr x 8)
  end.

Definition SerializeFixedLength (x l : Z) : list Z :=
  if l =? 0 then [] else serializeLoop (Z.to_nat l) x.

(** The loop from the last byte to the first. *)
Definition DeserializeFixedLength (data : list Z) : Z :=
  foldr (fun b x => Z.lor (shl64 x 8) b) 0 data.

Section Shuffle.
Context `{HashFunctions}.

(** The body of the loop for index [i]. *)
Definition numericValue (hash : list Z) (i : Z) : go Z :=
  let floor := i / 8 in
  let serializeOutput := SerializeFixedLength floor 4 in
  let hashOutput := Blake2bHash (hash ++ serializeOutput) in
  let startIndex := u32 (4 * i) mod 32 in
  hashOutputSlice ← lslice hashOutput startIndex (u32 (startIndex + 4));
  Ret (u32 (DeserializeFixedLength hashOutputSlice)).

Fixpoint numericLoop (n : nat) (hash : list Z) (i : Z) : go (list Z) :=
  match n with
  | O => Ret []
  | S n => v ← numericValue hash i; vs ← numericLoop n hash (i + 1); Ret (v :: vs)
  end.

Definition numericSequenceFromHash (hash : list Z) (length_ : Z) : go (list Z) :=
  numericLoop (Z.to_nat length_) hash 0.

End Shuffle.

(** The recursion on [s[:l-1]]; [l] is [len(s)].  The second component is
    what [s] holds afterwards. *)
Fixpoint fisherYates (l : nat) (s r : list Z) : go (list Z * list Z) :=
  match l with
  | O => Ret ([], s)
  | S l' =>
      r0 ← zindex r 0;
      if u32 (Z.of_nat l) =? 0 then Crash
      else
        let index := r0 mod u32 (Z.of_nat l) in
        selected ← zindex s index;
        last ← zindex s (Z.of_nat l - 1);
        s1 ← zupdate s index last;
        s2 ← zupdate s1 (Z.of_nat l - 1) selected;
        q ← fisherYates l' (take l' s2) (drop 1 r);
        let '(shuffledRest, s3) := q in
        Ret (selected :: shuffledRest, s3 ++ drop l' s2)
  end.

Definition FisherYatesShuffle (s r : list Z) : go (list Z * list Z) :=
  fisherYates (length s) s r.

Definition Shuffle `{HashFunctions} (s hash : list Z) : go (list Z) :=
  numericSequence ← numericSequenceFromHash hash (u32 (Z.of_nat (length s)));
  q ← FisherYatesShuffle s numericSequence;
  Ret (fst q).

(** ** Core assignments *)

Section Assignments.
Context (cs : ChainSpec).

Definition rotateCores (in_ : list Z) (n : Z) : list Z :=
  (fun x => u32 (x + n) mod u32 (CoresCount cs)) <$> in_.

(** [base[i] = U32(CoresCount * i / ValidatorsCount)] *)
Definition baseCores : list Z :=
  (fun i => u32 (CoresCount cs * Z.of_nat i / ValidatorsCount cs)) <$>
    seq 0 (Z.to_nat (ValidatorsCount cs)).

Definition permute `{HashFunctions} (e : list Z) (currentSlot : Z) : go (list Z) :=
  shuffled ← Shuffle baseCores e;
  let subEpoch := (currentSlot mod EpochLength cs) / RotationPeriod cs in
  let rotatedU32 := rotateCores shuffled (u32 subEpoch) in
  Ret (u16 <$> rotatedU32).

End Assignments.

(** * Correctness

    [FisherYatesShuffle] returns a permutation and every permutation is the
    result of some random sequence; the core assignment of an epoch gives
    every core the same number of validators. *)


Definition is_u32 (x : Z) : Prop := 0 <= x < 2 ^ 32.

(** Taking out the element at [idx] by moving the last one there. *)
Definition swap_out (l idx : nat) (last : Z) (s : list Z) : list Z := take l (<[idx:=last]> s).

Lemma swap_out_length l idx last s : length s = S l -> length (swap_out l idx last s) = l.
Proof. intros H. unfold swap_out. rewrite length_take, length_insert. lia. Qed.

Lemma swap_out_perm l idx last selected s :
  length s = S l -> s !! idx = Some selected -> s !! l = Some last ->
  selected :: swap_out l idx last s ≡ₚ s.
Proof.
  intros Hl Hi Hlast. unfold swap_out. assert (s = take l s ++ [last]) as Hs.
  { rewrite <- (take_drop l s) at 1. f_equal. rewrite (drop_S s last l Hlast), drop_ge by lia. done. }
  assert (length (take l s) = l) as Hlen by (rewrite length_take; lia).
  destruct (decide (idx = l)) as [->|Hne].
  - rewrite list_insert_id by done. rewrite Hs at 2. assert (selected = last) as -> by congruence.
    rewrite Permutation_app_comm. done.
  - assert (idx < l)%nat as Hlt by (apply lookup_lt_Some in Hi; lia).
    rewrite Hs at 1. rewrite insert_app_l by lia. rewrite take_app_le by (rewrite length_insert; lia).
    rewrite take_ge by (rewrite length_insert; lia).
    assert (take l s !! idx = Some selected) as Hi' by (rewrite lookup_take_lt; [done|lia]).
    rewrite <- (take_drop_middle _ _ _ Hi') in Hs.
    rewrite insert_take_drop by lia. rewrite Hs at 3. solve_Permutation.
Qed.

Lemma fisherYates_step l s r0 r :
  length s = S l -> Z.of_nat (S l) < 2 ^ 32 -> 0 <= r0 ->
  let idx := Z.to_nat (r0 mod Z.of_nat (S l)) in
  exists selected last, s !! idx = Some selected /\ s !! l = Some last /\
    fisherYates (S l) s (r0 :: r) =
      (q ← fisherYates l (swap_out l idx last s) r; Ret (selected :: fst q, snd q ++ [selected])).
Proof.
  intros Hl Hlt Hr idx. pose proof (Z.mod_pos_bound r0 (Z.of_nat (S l)) ltac:(lia)) as Hb.
  destruct (lookup_lt_is_Some_2 s idx ltac:(lia)) as [selected Hsel].
  destruct (lookup_lt_is_Some_2 s l ltac:(lia)) as [last Hlast].
  exists selected, last. split_and!; [done|done|]. cbn [fisherYates].
  assert (u32 (Z.of_nat (S l)) = Z.of_nat (S l)) as -> by (apply uN_small; lia).
  replace (Z.of_nat (S l) - 1) with (Z.of_nat l) by lia.
  change (zindex (r0 :: r) 0) with (Ret r0). cbn [mbind go_bind].
  destruct (Z.eqb_spec (Z.of_nat (S l)) 0); [lia|].
  assert (zindex s (r0 mod Z.of_nat (S l)) = Ret selected) as ->.
  { apply zindex_Ret. unfold zlookup. destruct (Z.ltb_spec (r0 mod Z.of_nat (S l)) 0); [lia|done]. }
  assert (zindex s (Z.of_nat l) = Ret last) as ->.
  { apply zindex_Ret. unfold zlookup. destruct (Z.ltb_spec (Z.of_nat l) 0); [lia|].
    by rewrite Nat2Z.id. }
  cbn [mbind go_bind]. rewrite zupdate_ok by lia. cbn [mbind go_bind].
  rewrite zupdate_ok by (rewrite length_insert; lia). cbn [mbind go_bind].
  rewrite Nat2Z.id. fold idx. rewrite take_insert_ge by lia. fold (swap_out l idx last s).
  assert (drop l (<[l:=selected]> (<[idx:=last]> s)) = [selected]) as ->.
  { erewrite drop_S by (apply list_lookup_insert_eq; rewrite length_insert; lia).
    by rewrite drop_ge by (rewrite !length_insert; lia). }
  change (drop 1 (r0 :: r)) with r.
  by destruct (fisherYates l (swap_out l idx last s) r) as [ [rest s3] |].
Qed.

Lemma fisherYates_spec l s r :
  length s = l -> (l <= length r)%nat -> Z.of_nat l < 2 ^ 32 -> Forall is_u32 r ->
  exists out, fisherYates l s r = Ret (out, reverse out) /\ out ≡ₚ s.
Proof.
  revert s r. induction l as [|l IH]; intros s r Hl Hlen Hlt Hr.
  { destruct s; [|done]. by exists []. }
  destruct r as [|r0 r]; [cbn in Hlen; lia|]. apply Forall_cons in Hr as [Hr0 Hr].
  destruct (fisherYates_step l s r0 r Hl Hlt ltac:(unfold is_u32 in Hr0; lia)) as (x & y & Hx & Hy & ->).
  destruct (IH (swap_out l (Z.to_nat (r0 mod Z.of_nat (S l))) y s) r) as (out & -> & Hp);
    [by apply swap_out_length|cbn in Hlen; lia|lia|done|].
  exists (x :: out). cbn [mbind go_bind fst snd]. rewrite reverse_cons. split; [done|].
  rewrite Hp. by apply swap_out_perm.
Qed.

Lemma fisherYates_short l s r :
  length s = l -> (length r < l)%nat -> Z.of_nat l < 2 ^ 32 -> Forall is_u32 r ->
  fisherYates l s r = Crash.
Proof.
  revert s r. induction l as [|l IH]; intros s r Hl Hlen Hlt Hr; [lia|].
  destruct r as [|r0 r]; [done|]. apply Forall_cons in Hr as [Hr0 Hr].
  destruct (fisherYates_step l s r0 r Hl Hlt ltac:(unfold is_u32 in Hr0; lia)) as (x & y & Hx & Hy & ->).
  rewrite IH; [done|by apply swap_out_length|cbn in Hlen; lia|lia|done].
Qed.

Lemma fisherYates_onto l s p :
  length s = l -> Z.of_nat l < 2 ^ 32 -> p ≡ₚ s ->
  exists r, length r = l /\ Forall is_u32 r /\ fisherYates l s r = Ret (p, reverse p).
Proof.
  revert s p. induction l as [|l IH]; intros s p Hl Hlt Hp.
  { destruct s; [|done]. apply Permutation_nil_r in Hp as ->. by exists []. }
  assert (length p = S l) as Hlp by (by rewrite Hp).
  destruct p as [|x p]; [done|].
  assert (x ∈ s) as [idx Hidx]%list_elem_of_lookup by (rewrite <- Hp; apply list_elem_of_here).
  pose proof (lookup_lt_Some _ _ _ Hidx).
  assert (Z.to_nat (Z.of_nat idx mod Z.of_nat (S l)) = idx) as Hmod.
  { rewrite Z.mod_small by lia. apply Nat2Z.id. }
  destruct (lookup_lt_is_Some_2 s l ltac:(lia)) as [y Hy].
  destruct (IH (swap_out l idx y s) p) as (r & Hr & Hur & Hrun); [by apply swap_out_length|lia| |].
  { apply (Permutation_cons_inv (a:=x)). rewrite Hp. symmetry. by apply swap_out_perm. }
  exists (Z.of_nat idx :: r). split_and!; [cbn; lia| |].
  { constructor; [unfold is_u32; lia|done]. }
  destruct (fisherYates_step l s (Z.of_nat idx) r Hl Hlt ltac:(lia)) as (x' & y' & Hx' & Hy' & ->).
  rewrite Hmod in *. simplify_eq. rewrite Hrun. cbn [mbind go_bind fst snd]. by rewrite reverse_cons.
Qed.

(** [FisherYatesShuffle] gives a permutation of its argument, which it
    leaves in the reverse order of the result; it panics iff there are fewer
    random numbers than elements, and every permutation of the elements is
    the result for some random numbers. *)
Theorem FisherYatesShuffle_permutes s r :
  Z.of_nat (length s) < 2 ^ 32 -> Forall is_u32 r ->
  (if decide (length s <= length r)%nat
   then exists out, FisherYatesShuffle s r = Ret (out, reverse out) /\ out ≡ₚ s
   else FisherYatesShuffle s r = Crash) /\
  (forall p, p ≡ₚ s -> exists r', length r' = length s /\ Forall is_u32 r' /\
     FisherYatesShuffle s r' = Ret (p, reverse p)).
Proof.
  intros Hs Hr. unfold FisherYatesShuffle. split.
  - case_decide; [by apply fisherYates_spec|]. apply fisherYates_short; [done|lia|done|done].
  - intros p Hp. by apply fisherYates_onto.
Qed.

(** ** The numeric sequence *)

Lemma serializeLoop_le_bytes l x : serializeLoop l x = le_bytes (Z.of_nat l) x.
Proof.
  rewrite <- leLoop_le_bytes. revert x. induction l as [|l IH]; intros x; cbn; [done|].
  rewrite IH. f_equal. apply uN_small. change 0xFF with (Z.ones 8). rewrite Z.land_ones by lia.
  apply Z.mod_pos_bound. lia.
Qed.

Lemma DeserializeFixedLength_val data :
  Forall is_byte data -> (length data <= 8)%nat -> DeserializeFixedLength data = le_val data.
Proof.
  induction data as [|b data IH]; intros Hb Hlen; [done|]. apply Forall_cons in Hb as [Hb Hd].
  cbn in Hlen. pose proof (le_val_range data Hd) as Hr. rewrite le_val_cons by done.
  unfold DeserializeFixedLength in *. cbn [foldr]. rewrite IH by (done || lia).
  assert (2 ^ (8 * Z.of_nat (length data)) <= 2 ^ 56) by (apply Z.pow_le_mono_r; lia).
  rewrite lor_shift_add; [lia|lia|lia|lia|]. unfold is_byte in Hb. lia.
Qed.

(** (F.2): the four octets at [4 i mod 32] of the hash of the seed and
    [E_4(i / 8)]. *)
Definition Q_value `{HashFunctions} (hash : list Z) (i : Z) : Z :=
  le_val (take 4 (drop (Z.to_nat (4 * (i mod 8))) (Blake2bHash (hash ++ le_bytes 4 (i / 8))))).

Section WithHash.
Context `{HashLaws}.

Lemma Q_value_range hash i : is_u32 (Q_value hash i).
Proof.
  unfold Q_value, is_u32, Blake2bHash. destruct (blake2b_hash (hash ++ le_bytes 4 (i / 8))) as [Hl Hb].
  pose proof (Z.mod_pos_bound i 8 ltac:(lia)).
  pose proof (le_val_range (take 4 (drop (Z.to_nat (4 * (i mod 8))) (blake2b_Sum256 (hash ++ le_bytes 4 (i / 8)))))
    ltac:(by apply Forall_take, Forall_drop)) as Hr.
  rewrite length_take, length_drop, Hl in Hr.
  replace (Z.of_nat (4 `min` (32 - Z.to_nat (4 * (i mod 8))))) with 4 in Hr by lia. lia.
Qed.

Lemma numericValue_ok hash i : 0 <= i < 2 ^ 32 -> numericValue hash i = Ret (Q_value hash i).
Proof.
  intros Hi. pose proof (Q_value_range hash i) as Hq. unfold numericValue, Blake2bHash in *.
  assert (u32 (4 * i) mod 32 = 4 * (i mod 8)) as ->.
  { unfold uN. rewrite Z.mod_mod_divide by (by exists (2 ^ 27)).
    change 32 with (4 * 8). by rewrite Z.mul_mod_distr_l by lia. }
  unfold SerializeFixedLength. change (4 =? 0) with false. cbv iota. rewrite serializeLoop_le_bytes.
  change (Z.of_nat (Z.to_nat 4)) with 4. pose proof (Z.mod_pos_bound i 8 ltac:(lia)).
  rewrite uN_small by lia. unfold Q_value, Blake2bHash in *.
  destruct (blake2b_hash (hash ++ le_bytes 4 (i / 8))) as [Hl Hb]. unfold lslice.
  assert ((0 <=? 4 * (i mod 8)) && (4 * (i mod 8) <=? 4 * (i mod 8) + 4) &&
    (4 * (i mod 8) + 4 <=? Z.of_nat (length (blake2b_Sum256 (hash ++ le_bytes 4 (i / 8))))) = true) as ->
    by (rewrite Hl, !andb_true_iff, !Z.leb_le; lia).
  cbn [mbind go_bind]. replace (Z.to_nat (4 * (i mod 8) + 4 - 4 * (i mod 8))) with 4%nat by lia.
  rewrite DeserializeFixedLength_val; [by rewrite uN_small| by apply Forall_take, Forall_drop|].
  rewrite length_take. lia.
Qed.

Lemma numericLoop_ok n hash i : 0 <= i -> i + Z.of_nat n <= 2 ^ 32 ->
  numericLoop n hash i = Ret ((fun k => Q_value hash (i + Z.of_nat k)) <$> seq 0 n).
Proof.
  revert i. induction n as [|n IH]; intros i Hi Hn; [done|]. cbn [numericLoop].
  rewrite numericValue_ok by lia. cbn [mbind go_bind]. rewrite IH by lia. cbn [mbind go_bind seq fmap list_fmap].
  rewrite Z.add_0_r, <- fmap_S_seq, <- list_fmap_compose. do 2 f_equal.
  apply list_fmap_ext. intros k j _. cbn. f_equal. lia.
Qed.

Lemma numericSequence_ok hash n : 0 <= n < 2 ^ 32 ->
  exists r, numericSequenceFromHash hash n = Ret r /\ length r = Z.to_nat n /\ Forall is_u32 r.
Proof.
  intros Hn. unfold numericSequenceFromHash. rewrite numericLoop_ok by lia. eexists.
  split; [done|]. rewrite length_fmap, length_seq. split; [done|].
  apply Forall_fmap, Forall_true. intros k. apply Q_value_range.
Qed.

Lemma Shuffle_perm s hash : Z.of_nat (length s) < 2 ^ 32 ->
  exists out, Shuffle s hash = Ret out /\ out ≡ₚ s.
Proof.
  intros Hs. unfold Shuffle. rewrite uN_small by lia.
  destruct (numericSequence_ok hash (Z.of_nat (length s)) ltac:(lia)) as (r & -> & Hr & Hu).
  cbn [mbind go_bind]. destruct (fisherYates_spec (length s) s r) as (out & Hout & Hp);
    [done|lia|lia|done|].
  unfold FisherYatesShuffle. rewrite Hout. cbn. eauto.
Qed.

End WithHash.

(** ** Core assignments *)

Definition count (c : Z) (l : list Z) : nat := length (filter (fun x => x = c) l).

#[export] Instance count_proper c : Proper ((≡ₚ) ==> eq) (count c).
Proof. intros l l' Hp. unfold count. by rewrite Hp. Qed.

Lemma count_app c l l' : count c (l ++ l') = (count c l + count c l')%nat.
Proof. unfold count. by rewrite filter_app, length_app. Qed.

Lemma count_replicate c x n : count c (replicate n x) = if decide (x = c) then n else 0%nat.
Proof.
  induction n as [|n IH]; [by case_decide|]. unfold count in *. cbn [replicate]. rewrite filter_cons.
  repeat case_decide; cbn [length]; lia.
Qed.

Lemma count_fmap f c c' l :
  Forall (fun x => f x = c <-> x = c') l -> count c (f <$> l) = count c' l.
Proof.
  induction 1 as [|x l Hx Hl IH]; [done|]. unfold count in *. cbn [fmap list_fmap].
  rewrite !filter_cons. destruct (decide (f x = c)), (decide (x = c')); cbn; [by f_equal|tauto|tauto|done].
Qed.

(** [k] validators for every core, in the order of the cores. *)
Lemma count_blocks (k n : nat) (c : Z) : (0 < k)%nat -> 0 <= c ->
  count c ((fun i => Z.of_nat i / Z.of_nat k) <$> seq 0 (n * k)) =
    if decide (c < Z.of_nat n) then k else 0%nat.
Proof.
  intros Hk Hc. induction n as [|n IH]; [by rewrite decide_False by lia|].
  replace (S n * k)%nat with (n * k + k)%nat by lia. rewrite seq_app, fmap_app, count_app, IH.
  assert ((fun i => Z.of_nat i / Z.of_nat k) <$> seq (0 + n * k) k = replicate k (Z.of_nat n)) as ->.
  { apply list_eq_same_length with k; [by rewrite length_replicate|by rewrite length_fmap, length_seq|].
    intros i x y Hi. rewrite list_lookup_fmap, lookup_seq_lt, lookup_replicate_2 by lia.
    cbn. intros [= <-] [= <-]. symmetry. apply Z.div_unique with (Z.of_nat i); lia. }
  rewrite count_replicate. repeat case_decide; lia.
Qed.

Section Assign.
Context (cs : ChainSpec) (Hcs : wf_spec cs) `{HashLaws}.

Let C := CoresCount cs.
Let V := ValidatorsCount cs.

Definition per_core : nat := Z.to_nat (V / C).

Lemma per_core_mul : 0 < C /\ V = C * Z.of_nat per_core /\ (0 < per_core)%nat.
Proof.
  destruct Hcs as [HC HV [k Hk] _ _ _ _]. unfold per_core, C, V in *. rewrite Hk in *.
  rewrite Z.div_mul by lia. split; [lia|]. assert (0 < k) by nia. lia.
Qed.

Lemma baseCores_blocks :
  baseCores cs = (fun i => Z.of_nat i / Z.of_nat per_core) <$> seq 0 (Z.to_nat C * per_core).
Proof.
  destruct per_core_mul as (HC & HV & Hk). destruct Hcs as [HC' HV' _ _ _ _ _].
  unfold baseCores. fold V C. fold C in HC'. fold V in HV'. replace (Z.to_nat V) with (Z.to_nat C * per_core)%nat by nia.
  apply list_fmap_ext. intros i j Hj. apply lookup_seq in Hj as [-> Hj]. cbn.
  rewrite HV, Z.div_mul_cancel_l by lia. apply uN_small.
  split; [apply Z.div_pos; lia|]. apply Z.le_lt_trans with (Z.of_nat i); [|nia].
  apply Z.div_le_upper_bound; nia.
Qed.

Lemma baseCores_length : length (baseCores cs) = Z.to_nat V.
Proof. unfold baseCores. by rewrite length_fmap, length_seq. Qed.

Lemma baseCores_range : Forall (fun x => 0 <= x < C) (baseCores cs).
Proof.
  destruct per_core_mul as (HC & HV & Hk). rewrite baseCores_blocks.
  apply Forall_fmap, Forall_forall. intros i Hi%elem_of_seq. cbn.
  split; [apply Z.div_pos; lia|]. apply Z.div_lt_upper_bound; nia.
Qed.

Definition rotate (n : Z) (cores : list Z) : list Z := (fun x => (x + n) mod C) <$> cores.

Lemma rotateCores_rotate n cores :
  Forall (fun x => 0 <= x < C) cores -> 0 <= n < 2 ^ 31 ->
  (u16 <$> rotateCores cs cores n) = rotate n cores.
Proof.
  destruct Hcs as [HC _ _ _ _ _ _]. fold C in HC.
  intros Hc Hn. unfold rotateCores, rotate. rewrite <- list_fmap_compose.
  apply list_fmap_ext. intros i x Hx. cbn. fold C.
  pose proof (proj1 (Forall_lookup _ _) Hc i x Hx) as Hr. cbn in Hr.
  rewrite (uN_small 32 C), (uN_small 32 (x + n)) by lia.
  pose proof (Z.mod_pos_bound (x + n) C ltac:(lia)). by rewrite uN_small by lia.
Qed.

Lemma rotate_count n cores c :
  Forall (fun x => 0 <= x < C) cores -> 0 <= c < C ->
  count c (rotate n cores) = count ((c - n) mod C) cores.
Proof.
  destruct per_core_mul as (HC & _). intros Hr Hc. apply count_fmap. eapply Forall_impl; [exact Hr|].
  cbn. intros x Hx. split; intros E.
  - rewrite <- E, <- (Z.mod_small x C) at 1 by lia. rewrite Zminus_mod_idemp_l. f_equal. lia.
  - subst x. rewrite Zplus_mod_idemp_l. replace (c - n + n) with c by lia. by apply Z.mod_small.
Qed.

Lemma permute_rotate e slot : 0 <= slot ->
  exists sh, Shuffle (baseCores cs) e = Ret sh /\ sh ≡ₚ baseCores cs /\
    permute cs e slot = Ret (rotate ((slot mod EpochLength cs) / RotationPeriod cs) sh).
Proof.
  intros Hs. destruct Hcs as [HC HV _ HR HE _ _].
  destruct (Shuffle_perm (baseCores cs) e) as (sh & Hsh & Hp).
  { rewrite baseCores_length. fold V in HV. lia. }
  exists sh. split_and!; [done|done|]. unfold permute. rewrite Hsh. cbn [mbind go_bind].
  pose proof (Z.mod_pos_bound slot (EpochLength cs) ltac:(lia)) as Hm.
  assert (0 <= slot mod EpochLength cs / RotationPeriod cs < 2 ^ 31) as Hq.
  { split; [apply Z.div_pos; lia|]. apply Z.div_lt_upper_bound; nia. }
  rewrite (uN_small 32 (_ / _)) by lia. f_equal. apply rotateCores_rotate; [|done].
  rewrite Hp. apply baseCores_range.
Qed.

End Assign.

(** The guarantor assignment of a slot gives every validator a core of
    the chain and every core the same number of validators; a rotation
    period later in the same epoch every validator moves on to the next
    core. *)
Theorem permute_balanced cs `{HashLaws} e slot :
  wf_spec cs -> 0 <= slot ->
  exists cores, permute cs e slot = Ret cores /\
    length cores = Z.to_nat (ValidatorsCount cs) /\
    Forall (fun c => 0 <= c < CoresCount cs) cores /\
    (forall c, 0 <= c < CoresCount cs ->
       Z.of_nat (count c cores) = ValidatorsCount cs / CoresCount cs) /\
    ((slot + RotationPeriod cs) / EpochLength cs = slot / EpochLength cs ->
       permute cs e (slot + RotationPeriod cs) =
         Ret ((fun c => (c + 1) mod CoresCount cs) <$> cores)).
Proof.
  intros Hcs Hs. pose proof Hcs as [HC HV _ HR HE _ _].
  destruct (permute_rotate cs Hcs e slot Hs) as (sh & Hsh & Hp & ->).
  assert (Forall (fun x => 0 <= x < CoresCount cs) sh) as Hr by (rewrite Hp; by apply baseCores_range).
  eexists. split; [done|]. split_and!.
  - unfold rotate. rewrite length_fmap, Hp. apply baseCores_length.
  - apply Forall_fmap, Forall_true. intros x. apply Z.mod_pos_bound. lia.
  - intros c Hc. rewrite rotate_count, Hp, baseCores_blocks, count_blocks by
      (try apply Z.mod_pos_bound; try apply (per_core_mul cs Hcs); done || lia).
    pose proof (Z.mod_pos_bound (c - slot mod EpochLength cs / RotationPeriod cs) (CoresCount cs) ltac:(lia)).
    rewrite decide_True by lia. unfold per_core. apply Z2Nat.id, Z.div_pos; lia.
  - intros Hep. destruct (permute_rotate cs Hcs e (slot + RotationPeriod cs) ltac:(lia)) as (sh' & Hsh' & _ & ->).
    assert (sh' = sh) as -> by congruence. f_equal. unfold rotate. rewrite <- list_fmap_compose.
    apply list_fmap_ext. intros i x _. cbn. rewrite Zplus_mod_idemp_l. f_equal.
    rewrite !Z.mod_eq, Hep by lia.
    replace (slot + RotationPeriod cs - EpochLength cs * (slot / EpochLength cs))
      with (slot - EpochLength cs * (slot / EpochLength cs) + 1 * RotationPeriod cs) by lia.
    rewrite Z.div_add by lia. lia.
Qed.
