(* ===== verification/Mmr.v ===== *)
(** * Merkle mountain range

    src/internal/utilities/mmr/mmr.go (E.8 to E.10).  A peak is a pointer to
    a hash: [None] is a nil pointer.  A hash array always has 32 bytes, so
    the tests [len( *peak ) == 0] are false. *)

From S2P Require Import Prelude Words Config Codec.
Local Open Scope Z_scope.

Abbreviation MmrPeak := (option (list Z)).

Definition HashFunction : Type := list Z -> list Z.

Record MMR := MkMMR { Peaks : list MmrPeak; hashFn : HashFunction }.

(** [None] is a nil hash function, or the nil [*MMR] returned for it. *)
Definition NewMMR (hashFn : option HashFunction) : option MMR := MkMMR [] <$> hashFn.

Definition NewMMRFromPeaks (peaks : list MmrPeak) (hashFn : option HashFunction) : option MMR :=
  MkMMR peaks <$> hashFn.

Definition MmrWrapper (ext : option (list MmrPeak)) (hashFn : option HashFunction) : option MMR :=
  match ext, hashFn with
  | Some peaks, Some _ => NewMMRFromPeaks peaks hashFn
  | _, _ => None
  end.

(** Dereferencing a nil peak is a panic. *)
Definition concatenateAndHash (hashFn : HashFunction) (left right : MmrPeak) : go MmrPeak :=
  match left, right with
  | Some l, Some r => Ret (Some (hashFn (l ++ r)))
  | _, _ => Crash
  end.

Definition Replace (sequence : list MmrPeak) (index : Z) (value : MmrPeak) : go (list MmrPeak) :=
  if index <? Z.of_nat (length sequence) then zupdate sequence index value else Ret sequence.

(** The recursion of [P]: [fuel] bounds the distance of [n] to the end. *)
Fixpoint P_rec (hashFn : HashFunction) (fuel : nat) (peaks : list MmrPeak) (l : MmrPeak) (n : Z)
  : option (go (list MmrPeak)) :=
  match fuel with
  | O => None
  | S fuel =>
      if Z.of_nat (length peaks) <=? n then Some (Ret (peaks ++ [l]))
      else
        match zindex peaks n with
        | Crash => Some Crash
        | Ret None => Some (Replace peaks n l)
        | Ret current =>
            match Replace peaks n None, concatenateAndHash hashFn current l with
            | Ret peaks, Ret newHash => P_rec hashFn fuel peaks newHash (n + 1)
            | _, _ => Some Crash
            end
        end
  end.

(** The value of [P]; [P_total] in Mmr.v shows that the fuel suffices. *)
Definition P (hashFn : HashFunction) (peaks : list MmrPeak) (l : MmrPeak) (n : Z) : go (list MmrPeak) :=
  default Crash (P_rec hashFn (S (length peaks)) peaks l n).

(** The result and the receiver afterwards.  [P] works on a copy of
    [m.Peaks], so the caller's slice is unchanged. *)
Definition AppendOne (m : MMR) (data : MmrPeak) : go (list MmrPeak * MMR) :=
  match data with
  | None => Ret (Peaks m, m)
  | Some _ =>
      newPeaks ← P (hashFn m) (Peaks m) data 0;
      Ret (newPeaks, MkMMR newPeaks (hashFn m))
  end.

(** [Discriminator{peaks}.Serialize()] *)
Definition Serialize (m : MMR) : list Z :=
  SerializeU64 (Z.of_nat (length (Peaks m))) ++
  concat ((fun peak => match peak with
                       | None => SerializeU64 0
                       | Some h => SerializeU64 1 ++ h
                       end) <$> Peaks m).

(** The bytes of ["peak"]. *)
Definition peakPrefix : list Z := [112; 101; 97; 107].

Section SuperPeak.
Context `{HashFunctions}.

(** The recursion on [h[:len(h)-1]]; [fuel] is at least the number of
    peaks, so the zero branch is only reached without peaks. *)
Fixpoint superPeak (fuel : nat) (peaks : list MmrPeak) : list Z :=
  let h := omap id peaks in
  match fuel, h with
  | _, [] => zeroHash
  | _, [h0] => h0
  | O, _ => zeroHash
  | S fuel, _ =>
      let partial := superPeak fuel (Some <$> take (length h - 1) h) in
      let finalPeak := default [] (last h) in
      KeccakHash (peakPrefix ++ partial ++ finalPeak)
  end.

Definition SuperPeak (peaks : list MmrPeak) : list Z := superPeak (length peaks) peaks.

End SuperPeak.

(** * The mountain range as a binary counter

    The peaks after a sequence of appends are the roots of the perfect trees
    of the binary decomposition of the number of leaves, the oldest leaves
    in the highest tree; the super-peak commits to all the leaves. *)

Local Open Scope nat_scope.

Section Tree.
Context (h : HashFunction).

(** The root of the perfect tree over [2 ^ k] leaves. *)
Fixpoint perfect (k : nat) (ls : list (list Z)) : list Z :=
  match k with
  | O => default [] (head ls)
  | S k => h (perfect k (take (2 ^ k) ls) ++ perfect k (drop (2 ^ k) ls))
  end.

Definition bitlen (n : nat) : nat := if n =? 0 then 0 else S (Nat.log2 n).

(** The peak of height [i]: the tree over the [2 ^ i] leaves after the
    leaves of the higher peaks. *)
Definition peak_at (ls : list (list Z)) (i : nat) : MmrPeak :=
  if Nat.testbit (length ls) i
  then Some (perfect i (take (2 ^ i) (drop (2 ^ S i * (length ls / 2 ^ S i)) ls)))
  else None.

Definition mmr_peaks (ls : list (list Z)) : list MmrPeak :=
  peak_at ls <$> seq 0 (bitlen (length ls)).

(** The same decomposition from height [i] up, as a relation. *)
Inductive mountains : nat -> list MmrPeak -> list (list Z) -> Prop :=
| mountains_nil i : mountains i [] []
| mountains_none i peaks ls : mountains (S i) peaks ls -> mountains i (None :: peaks) ls
| mountains_peak i peaks ls l :
    mountains (S i) peaks ls -> length l = 2 ^ i ->
    mountains i (Some (perfect i l) :: peaks) (ls ++ l).

(** The highest peak is there. *)
Definition topped (peaks : list MmrPeak) : Prop := last peaks <> Some None.

Lemma perfect_merge k l l' :
  length l = 2 ^ k -> perfect (S k) (l ++ l') = h (perfect k l ++ perfect k l').
Proof. intros Hl. cbn [perfect]. by rewrite take_app_length', drop_app_length' by done. Qed.

Lemma topped_tail p peaks : topped (p :: peaks) -> topped peaks.
Proof. unfold topped. by destruct peaks. Qed.

Lemma Replace_app pre p suf v :
  Replace (pre ++ p :: suf) (Z.of_nat (length pre)) v = Ret (pre ++ v :: suf).
Proof.
  unfold Replace. rewrite length_app. cbn [length].
  destruct (Z.ltb_spec (Z.of_nat (length pre)) (Z.of_nat (length pre + S (length suf)))); [|lia].
  rewrite zupdate_ok by (rewrite length_app; cbn; lia). rewrite Nat2Z.id.
  by rewrite insert_app_r_alt, Nat.sub_diag by lia.
Qed.

Lemma zindex_app pre (p : MmrPeak) suf : zindex (pre ++ p :: suf) (Z.of_nat (length pre)) = Ret p.
Proof.
  apply zindex_Ret. unfold zlookup. destruct (Z.ltb_spec (Z.of_nat (length pre)) 0); [lia|].
  rewrite Nat2Z.id, lookup_app_r, Nat.sub_diag by lia. done.
Qed.

(** Adding a tree of height [n] carries like a binary counter. *)
Lemma P_carry fuel pre suf n ls l :
  length suf < fuel -> length pre = n -> mountains n suf ls -> topped suf -> length l = 2 ^ n ->
  exists suf', P_rec h fuel (pre ++ suf) (Some (perfect n l)) (Z.of_nat n) = Some (Ret (pre ++ suf')) /\
    mountains n suf' (ls ++ l) /\ topped suf' /\ suf' <> [].
Proof.
  intros Hf Hpre Hm. revert fuel pre l Hf Hpre.
  induction Hm as [i|i peaks ls Hm IH|i peaks ls l0 Hm IH Hl0]; intros fuel pre l Hf Hpre Ht Hl;
    (destruct fuel as [|fuel]; [cbn in Hf; lia|]); cbn [P_rec]; cbn in Hf.
  - rewrite app_nil_r. destruct (Z.leb_spec (Z.of_nat (length pre)) (Z.of_nat i)); [|lia].
    exists [Some (perfect i l)]. split_and!; [done| |done|done].
    apply (mountains_peak i [] []); [constructor|done].
  - rewrite length_app. cbn [length].
    destruct (Z.leb_spec (Z.of_nat (length pre + S (length peaks))) (Z.of_nat i)); [lia|].
    rewrite <- Hpre, zindex_app, Replace_app, Hpre. exists (Some (perfect i l) :: peaks).
    split_and!; [done|by constructor| |done].
    destruct peaks; [by unfold topped in *|]. exact Ht.
  - rewrite length_app. cbn [length].
    destruct (Z.leb_spec (Z.of_nat (length pre + S (length peaks))) (Z.of_nat i)); [lia|].
    rewrite <- Hpre, zindex_app, Replace_app, Hpre. cbn [concatenateAndHash].
    rewrite <- perfect_merge by done. rewrite (cons_middle None), app_assoc.
    replace (Z.of_nat i + 1)%Z with (Z.of_nat (S i)) by lia.
    destruct (IH fuel (pre ++ [None]) (l0 ++ l)) as (suf' & -> & Hm' & Ht' & Hne);
      [lia|rewrite length_app; cbn; lia|by eapply topped_tail|rewrite length_app, Nat.pow_succ_r'; lia|].
    exists (None :: suf'). rewrite <- app_assoc. split_and!; [done| | |done].
    + rewrite <- app_assoc. by constructor.
    + by destruct suf'.
Qed.

(** The relation determines the peaks. *)
Lemma mountains_spec i peaks ls :
  mountains i peaks ls -> topped peaks ->
  exists q, length ls = 2 ^ i * q /\ length peaks = bitlen q /\
    forall j p, peaks !! j = Some p ->
      p = if Nat.testbit q j
          then Some (perfect (i + j) (take (2 ^ (i + j)) (drop (2 ^ S (i + j) * (q / 2 ^ S j)) ls)))
          else None.
Proof.
  induction 1 as [i|i peaks ls Hm IH|i peaks ls l Hm IH Hl]; intros Ht.
  { exists 0. split_and!; [cbn; lia|done|done]. }
  all: destruct (IH (topped_tail _ _ Ht)) as (q & Hq & Hlen & Hp).
  all: assert (bitlen q = 0 <-> q = 0) as Hb0 by (unfold bitlen; destruct (Nat.eqb_spec q 0); [done|lia]).
  all: rewrite Nat.pow_succ_r' in Hq.
  - exists (2 * q). assert (q <> 0) as Hq0.
    { intros ->. destruct peaks; [by apply Ht|]. cbn in Hlen. lia. }
    split_and!; [lia| |].
    { cbn [length]. rewrite Hlen. unfold bitlen. destruct (Nat.eqb_spec q 0), (Nat.eqb_spec (2 * q) 0); try lia.
      by rewrite Nat.log2_double by lia. }
    intros [|j] p Hj; cbn in Hj.
    + injection Hj as <-. by rewrite Nat.testbit_even_0.
    + rewrite Nat.testbit_even_succ by lia. rewrite (Hp j p Hj).
      replace (i + S j) with (S i + j) by lia. rewrite (Nat.pow_succ_r' 2 (S j)), <- Nat.Div0.div_div, (Nat.mul_comm 2 q), Nat.div_mul by lia.
      done.
  - exists (2 * q + 1). split_and!.
    { rewrite length_app, Hq, Hl. lia. }
    { cbn [length]. rewrite Hlen. unfold bitlen. destruct (Nat.eqb_spec (2 * q + 1) 0); [lia|].
      destruct (Nat.eqb_spec q 0) as [->|]; [done|]. by rewrite Nat.log2_succ_double by lia. }
    intros [|j] p Hj; cbn in Hj.
    + injection Hj as <-. rewrite Nat.testbit_odd_0, Nat.add_0_r. do 2 f_equal.
      assert ((2 * q + 1) / 2 ^ 1 = q) as -> by (symmetry; apply Nat.div_unique with 1; cbn; lia).
      rewrite drop_app_length' by (rewrite Hq, Nat.pow_succ_r'; lia). by rewrite take_ge by lia.
    + rewrite Nat.testbit_odd_succ by lia. rewrite (Hp j p Hj). replace (i + S j) with (S i + j) by lia.
      rewrite (Nat.pow_succ_r' 2 (S j)), <- Nat.Div0.div_div.
      assert ((2 * q + 1) / 2 = q) as -> by (symmetry; apply Nat.div_unique with 1; lia).
      destruct (Nat.testbit q j) eqn:Hb; [|done]. do 2 f_equal.
      assert (2 ^ (S i + j) + 2 ^ S (S i + j) * (q / 2 ^ S j) <= length ls) as Hle.
      { rewrite Hq. pose proof (Nat.testbit_spec' q j) as Hs. rewrite Hb in Hs. change (Nat.b2n true) with 1 in Hs.
        rewrite (Nat.pow_succ_r' 2 j), (Nat.mul_comm 2 (2 ^ j)), <- Nat.Div0.div_div.
        assert (2 ^ j * (q / 2 ^ j) <= q) by apply Nat.Div0.mul_div_le.
        pose proof (Nat.div_mod (q / 2 ^ j) 2 ltac:(lia)) as Hd. rewrite <- Hs in Hd.
        rewrite !Nat.pow_succ_r', Nat.pow_add_r, Nat.pow_succ_r'. nia. }
      rewrite drop_app_le by lia. by rewrite take_app_le by (rewrite length_drop; lia).
Qed.

Lemma mountains_peaks peaks ls : mountains 0 peaks ls -> topped peaks -> peaks = mmr_peaks ls.
Proof.
  intros Hm Ht. destruct (mountains_spec 0 peaks ls Hm Ht) as (q & Hq & Hlen & Hp).
  rewrite Nat.pow_0_r, Nat.mul_1_l in Hq. subst q. unfold mmr_peaks.
  apply list_eq_same_length with (bitlen (length ls)); [by rewrite length_fmap, length_seq|done|].
  intros j x y Hj Hx. rewrite list_lookup_fmap, lookup_seq_lt by lia. intros [= <-].
  by rewrite (Hp j x Hx).
Qed.

Lemma mmr_peaks_mountains ls : mountains 0 (mmr_peaks ls) ls /\ topped (mmr_peaks ls).
Proof.
  induction ls as [|x ls [IHm IHt] ] using rev_ind; [by split; [constructor|]|].
  destruct (P_carry (S (length (mmr_peaks ls))) [] (mmr_peaks ls) 0 ls [x]) as (suf & _ & Hm & Ht & _);
    [lia|done|done|done|done|].
  by rewrite <- (mountains_peaks suf).
Qed.

Lemma P_total ls x :
  P_rec h (S (length (mmr_peaks ls))) (mmr_peaks ls) (Some x) 0 = Some (Ret (mmr_peaks (ls ++ [x]))).
Proof.
  destruct (mmr_peaks_mountains ls) as [Hm Ht].
  destruct (P_carry (S (length (mmr_peaks ls))) [] (mmr_peaks ls) 0 ls [x]) as (suf & Hs & Hm' & Ht' & _);
    [lia|done|done|done|done|].
  etransitivity; [exact Hs|]. cbn [app]. do 2 f_equal. by apply mountains_peaks.
Qed.

Lemma AppendOne_peaks ls x :
  AppendOne (MkMMR (mmr_peaks ls) h) (Some x) =
    Ret (mmr_peaks (ls ++ [x]), MkMMR (mmr_peaks (ls ++ [x])) h).
Proof. unfold AppendOne, P. cbn [Peaks hashFn]. by rewrite P_total. Qed.

End Tree.

(** Appending a list of leaves one by one. *)
Fixpoint appendAll (m : MMR) (xs : list (list Z)) : go MMR :=
  match xs with
  | [] => Ret m
  | x :: xs => p ← AppendOne m (Some x); appendAll (snd p) xs
  end.

Lemma appendAll_peaks h ls xs :
  appendAll (MkMMR (mmr_peaks h ls) h) xs = Ret (MkMMR (mmr_peaks h (ls ++ xs)) h).
Proof.
  revert ls. induction xs as [|x xs IH]; intros ls; [by rewrite app_nil_r|].
  cbn [appendAll]. rewrite AppendOne_peaks. cbn [mbind go_bind snd]. rewrite IH.
  by rewrite <- app_assoc.
Qed.

(** Appending refines a binary counter: the mountain range of a list of
    leaves has a peak of height [i] iff bit [i] of the number of leaves is
    set, the root of the perfect tree over the [2^i] leaves that follow
    those of the higher peaks; [AppendOne] takes the range of [ls] to the
    range of [ls] and one more leaf, never dereferencing a nil peak, and
    appends from the empty range give the range of all the leaves. *)
Theorem AppendOne_refines h ls x :
  AppendOne (MkMMR (mmr_peaks h ls) h) (Some x) =
    Ret (mmr_peaks h (ls ++ [x]), MkMMR (mmr_peaks h (ls ++ [x])) h) /\
  appendAll (MkMMR [] h) ls = Ret (MkMMR (mmr_peaks h ls) h).
Proof. split; [apply AppendOne_peaks|]. exact (appendAll_peaks h [] ls). Qed.

(** ** Commitments *)

Definition is_some {A} (o : option A) : bool := match o with Some _ => true | None => false end.

Lemma options_eq {A} (l l' : list (option A)) :
  (is_some <$> l) = (is_some <$> l') -> omap id l = omap id l' -> l = l'.
Proof.
  revert l'. induction l as [|x l IH]; intros [|y l'] Hs Ho; cbn in *; try done.
  injection Hs as Hxy Hs. destruct x, y; cbn in *; try done.
  - injection Ho as -> Ho. f_equal. by apply IH.
  - f_equal. by apply IH.
Qed.

Section Commit.
Context `{HashLaws}.

(** Two inputs with the same Keccak hash. *)
Definition keccak_collision : Prop := exists x y, x <> y /\ KeccakHash x = KeccakHash y.

Lemma keccak_binding x y : KeccakHash x = KeccakHash y -> x = y \/ keccak_collision.
Proof. intros Hh. destruct (decide (x = y)); [by left|right]. by exists x, y. Qed.

Lemma hash_pair_binding p a b a' b' : is_hash a -> is_hash a' ->
  KeccakHash (p ++ a ++ b) = KeccakHash (p ++ a' ++ b') -> (a = a' /\ b = b') \/ keccak_collision.
Proof.
  intros [Ha _] [Ha' _] [Hh|]%keccak_binding; [left|by right].
  apply app_inj_2 in Hh as [_ Hh].
  - apply app_inj_1 in Hh; [done|congruence].
  - apply (f_equal length) in Hh. rewrite !length_app in *. lia.
Qed.

Definition superStep (acc x : list Z) : list Z := KeccakHash (peakPrefix ++ acc ++ x).

(** The recursion is the left fold over the peaks that are there. *)
Lemma superPeak_fold fuel peaks : length (omap id peaks) <= fuel ->
  superPeak fuel peaks = match omap id peaks with [] => zeroHash | h0 :: hs => foldl superStep h0 hs end.
Proof.
  revert peaks. induction fuel as [|fuel IH]; intros peaks Hlen; cbn [superPeak];
    destruct (omap id peaks) as [|h0 hs] eqn:E; [done|cbn in Hlen; lia|done|].
  destruct hs as [|h1 hs _] using rev_ind; [done|].
  rewrite foldl_snoc.
  assert (take (length (h0 :: hs ++ [h1]) - 1) (h0 :: hs ++ [h1]) = h0 :: hs) as ->.
  { change (h0 :: hs ++ [h1]) with ((h0 :: hs) ++ [h1]).
    by rewrite length_app, Nat.add_sub, take_app_length. }
  assert (last (h0 :: hs ++ [h1]) = Some h1) as -> by (change (h0 :: hs ++ [h1]) with ((h0 :: hs) ++ [h1]); apply last_snoc).
  assert (omap id (Some <$> h0 :: hs) = h0 :: hs) as Ho.
  { generalize (h0 :: hs). clear. induction l as [|x l IH]; [done|]. cbn in *. by rewrite IH. }
  rewrite IH, Ho by (rewrite Ho; cbn in *; rewrite length_app in Hlen; cbn in Hlen; lia).
  by destruct hs.
Qed.

Lemma SuperPeak_fold peaks :
  SuperPeak peaks = match omap id peaks with [] => zeroHash | h0 :: hs => foldl superStep h0 hs end.
Proof.
  apply superPeak_fold. clear. induction peaks as [|p peaks IH]; [done|]. destruct p; cbn in *; lia.
Qed.

Lemma fold_binding h0 h0' hs hs' :
  length hs = length hs' -> Forall is_hash (h0 :: hs) -> Forall is_hash (h0' :: hs') ->
  foldl superStep h0 hs = foldl superStep h0' hs' -> (h0 = h0' /\ hs = hs') \/ keccak_collision.
Proof.
  assert (forall h0 hs, is_hash h0 -> is_hash (foldl superStep h0 hs)) as Hhash.
  { intros g gs Hg. destruct gs as [|x gs _] using rev_ind; [done|]. rewrite foldl_snoc. apply keccak_hash. }
  revert hs'. induction hs as [|x hs IH] using rev_ind; intros hs' Hlen Hh Hh' He.
  { destruct hs'; [|done]. by left. }
  destruct hs' as [|y hs' _] using rev_ind; [rewrite length_app in Hlen; cbn in Hlen; lia|].
  rewrite !foldl_snoc in He. rewrite !length_app in Hlen. cbn in Hlen.
  change (h0 :: hs ++ [x]) with ((h0 :: hs) ++ [x]) in Hh.
  change (h0' :: hs' ++ [y]) with ((h0' :: hs') ++ [y]) in Hh'.
  apply Forall_app in Hh as [Hh Hx]. apply Forall_app in Hh' as [Hh' Hy].
  unfold superStep in He at 1 3. apply hash_pair_binding in He as [ [He ->] |]; [|by right| | ].
  - destruct (IH hs' ltac:(lia) Hh Hh' He) as [ [-> ->] |]; [by left|by right].
  - apply Hhash. by inversion Hh.
  - apply Hhash. by inversion Hh'.
Qed.

Lemma perfect_hash k ls :
  length ls = 2 ^ k -> Forall is_hash ls -> is_hash (perfect KeccakHash k ls).
Proof.
  destruct k; intros Hl Hh; [|apply keccak_hash]. destruct ls as [|x [|y ls] ]; try done.
  by inversion Hh.
Qed.

Lemma perfect_binding k ls ls' :
  length ls = 2 ^ k -> length ls' = 2 ^ k -> Forall is_hash ls -> Forall is_hash ls' ->
  perfect KeccakHash k ls = perfect KeccakHash k ls' -> ls = ls' \/ keccak_collision.
Proof.
  revert ls ls'. induction k as [|k IH]; intros ls ls' Hl Hl' Hh Hh' He.
  { destruct ls as [|x [|y ls] ], ls' as [|x' [|y' ls'] ]; try done. cbn in He. subst. by left. }
  cbn [perfect] in He. rewrite Nat.pow_succ_r' in Hl, Hl'.
  apply (hash_pair_binding []) in He as [ [He1 He2] |]; [|by right| | ].
  - apply IH in He1 as [He1|]; [|by right|rewrite length_take; lia|rewrite length_take; lia|by apply Forall_take|by apply Forall_take].
    apply IH in He2 as [He2|]; [|by right|rewrite length_drop; lia|rewrite length_drop; lia|by apply Forall_drop|by apply Forall_drop].
    left. rewrite <- (take_drop (2 ^ k) ls), <- (take_drop (2 ^ k) ls'). by f_equal.
  - apply perfect_hash; [rewrite length_take; lia|by apply Forall_take].
  - apply perfect_hash; [rewrite length_take; lia|by apply Forall_take].
Qed.

Lemma mountains_binding i peaks ls ls' :
  mountains KeccakHash i peaks ls -> mountains KeccakHash i peaks ls' ->
  Forall is_hash ls -> Forall is_hash ls' -> ls = ls' \/ keccak_collision.
Proof.
  intros Hm. revert ls'. induction Hm as [i|i peaks ls Hm IH|i peaks ls l Hm IH Hl];
    intros ls' Hm' Hh Hh'; inversion Hm' as [|? ? ? Hm1|? ? l1 l2 Hm1 Hl2 Hi Hp]; subst; [by left|by apply IH|].
  apply Forall_app in Hh as [Hh Hhl]. apply Forall_app in Hh' as [Hh' Hhl'].
  destruct (perfect_binding i l2 l) as [->|]; [done..| |by right].
  destruct (IH l1) as [->|]; [done..|by left|by right].
Qed.

Lemma mountains_hashes i peaks ls :
  mountains KeccakHash i peaks ls -> Forall is_hash ls -> Forall is_hash (omap id peaks).
Proof.
  induction 1 as [i|i peaks ls Hm IH|i peaks ls l Hm IH Hl]; intros Hh; cbn; [done|by apply IH|].
  apply Forall_app in Hh as [Hh Hl']. constructor; [by apply perfect_hash|by apply IH].
Qed.

End Commit.

(** The super-peak of the mountain ranges of the beefy belt is binding:
    two lists of the same number of leaf hashes with the same super-peak are
    equal, or exhibit a collision of the hash function. *)
Theorem SuperPeak_binding `{HashLaws} ls ls' :
  Forall is_hash ls -> Forall is_hash ls' -> length ls = length ls' ->
  SuperPeak (mmr_peaks KeccakHash ls) = SuperPeak (mmr_peaks KeccakHash ls') ->
  ls = ls' \/ keccak_collision.
Proof.
  intros Hh Hh' Hlen He.
  destruct (mmr_peaks_mountains KeccakHash ls) as [Hm _].
  destruct (mmr_peaks_mountains KeccakHash ls') as [Hm' _].
  assert ((is_some <$> mmr_peaks KeccakHash ls) = (is_some <$> mmr_peaks KeccakHash ls')) as Hs.
  { unfold mmr_peaks. rewrite Hlen, <- !list_fmap_compose. apply list_fmap_ext. intros i j _. cbn.
    unfold peak_at. rewrite Hlen. by case_match. }
  pose proof (mountains_hashes _ _ _ Hm Hh) as Hp. pose proof (mountains_hashes _ _ _ Hm' Hh') as Hp'.
  assert (length (omap id (mmr_peaks KeccakHash ls)) = length (omap id (mmr_peaks KeccakHash ls'))) as Hl.
  { revert Hs. generalize (mmr_peaks KeccakHash ls) (mmr_peaks KeccakHash ls'). clear.
    intros l. induction l as [|x l IH]; intros [|y l'] Hs; cbn in *; try done. injection Hs as Hx Hs.
    specialize (IH _ Hs). destruct x, y; cbn in *; try done; lia. }
  assert (omap id (mmr_peaks KeccakHash ls) = omap id (mmr_peaks KeccakHash ls') \/ keccak_collision) as [Ho|];
    [| |by right].
  - rewrite !SuperPeak_fold in He.
    destruct (omap id (mmr_peaks KeccakHash ls)) as [|h0 hs], (omap id (mmr_peaks KeccakHash ls')) as [|h0' hs'];
      try done; [by left|]. injection Hl as Hl.
    destruct (fold_binding h0 h0' hs hs') as [ [-> ->] |]; [done..|by left|by right].
  - apply (options_eq _ _ Hs) in Ho. rewrite <- Ho in Hm'. by eapply mountains_binding.
Qed.
