(* ===== verification/MerkleTree.v ===== *)
(** * Binary Merkle trees

    src/internal/utilities/merkle_tree/merkle_tree.go (E.1 to E.6).  A
    [types.ByteSequence] is a list of bytes or nil ([None]); the hash
    function is an argument, as in the source.  Slices are only read, and
    memory exhaustion is not modelled. *)

From S2P Require Import Prelude Words Config.
Local Open Scope Z_scope.

Abbreviation ByteSequence := (option (list Z)).

(** [append(dst, b...)]: nil appends nothing. *)
Definition bytes_of (b : ByteSequence) : list Z := default [] b.

(** The bytes of ["node"] and ["leaf"]. *)
Definition nodePrefix : list Z := [110; 111; 100; 101].
Definition leafPrefix : list Z := [108; 101; 97; 102].

(** [types.OpaqueHash(b)]: a panic if the slice is shorter than 32. *)
Definition toOpaqueHash (b : ByteSequence) : go (list Z) :=
  if 32 <=? Z.of_nat (length (bytes_of b)) then Ret (take 32 (bytes_of b)) else Crash.

Section Merkle.
Context (hashFunc : list Z -> list Z).

(** The recursion of [N]: the halves are shorter, so [length v] is enough
    fuel ([N_eq] in MerkleTree.v). *)
Fixpoint N_rec (fuel : nat) (v : list ByteSequence) : ByteSequence :=
  match v with
  | [] => Some zeroHash
  | None :: _ => Some zeroHash
  | [v0] => v0
  | _ =>
      match fuel with
      | O => None
      | S fuel =>
          let mid := Nat.div (length v + 1) 2 in
          let a := N_rec fuel (take mid v) in
          let b := N_rec fuel (drop mid v) in
          Some (hashFunc (nodePrefix ++ bytes_of a ++ bytes_of b))
      end
  end.

Definition N (v : list ByteSequence) : ByteSequence := N_rec (length v) v.

Definition Mb (v : list ByteSequence) : go (list Z) :=
  match v with
  | [Some v0] => Ret (hashFunc v0)
  | _ => toOpaqueHash (N v)
  end.

Definition Ps (v : list ByteSequence) (i : Z) : list ByteSequence :=
  let mid := u32 (Z.of_nat (length v) / 2) in
  if i <? mid then take (Z.to_nat mid) v else drop (Z.to_nat mid) v.

Definition PI (v : list ByteSequence) (i : Z) : Z :=
  let half := u32 ((Z.of_nat (length v) + 1) / 2) in
  if i <? half then 0 else half.

Fixpoint T_rec (fuel : nat) (v : list ByteSequence) (i : Z) : list ByteSequence :=
  if Z.of_nat (length v) <=? 1 then []
  else
    match fuel with
    | O => []
    | S fuel =>
        let mid := u32 (Z.of_nat (length v) / 2) in
        let left := take (Z.to_nat mid) v in
        let right := drop (Z.to_nat mid) v in
        let '(siblingHalf, traverseHalf, newIndex) :=
          if i <? mid then (right, left, i) else (left, right, u32 (i - mid)) in
        let sibling := N siblingHalf in
        let suffix := T_rec fuel traverseHalf newIndex in
        sibling :: suffix
    end.

Definition T (v : list ByteSequence) (i : Z) : list ByteSequence := T_rec (length v) v i.

(** The leaf hash of an element. *)
Definition leafHash (b : ByteSequence) : list Z := hashFunc (leafPrefix ++ bytes_of b).

Definition Lx (x : Z) (v : list ByteSequence) (i : Z) : list (list Z) :=
  let pageSize := shl64 1 x in
  let start := u32 (i * u32 pageSize) in
  let fin := Z.min (u32 (start + u32 pageSize)) (u32 (Z.of_nat (length v))) in
  leafHash <$> take (Z.to_nat (fin - start)) (drop (Z.to_nat start) v).

(** [for sz < n { sz *= 2 }], for an [n] that fits an [int]. *)
Fixpoint sizeLoop (fuel : nat) (sz n : Z) : Z :=
  match fuel with
  | O => sz
  | S fuel => if sz <? n then sizeLoop fuel (sz * 2) n else sz
  end.

Definition C (v : list ByteSequence) : list (list Z) :=
  let sz := sizeLoop 64 1 (Z.of_nat (length v)) in
  (fun i => match v !! i with
            | Some b => leafHash b
            | None => zeroHash
            end) <$> seq 0 (Z.to_nat sz).

(** [for (1 << log) < num { log++ }] *)
Fixpoint logLoop (fuel : nat) (log num : Z) : Z :=
  match fuel with
  | O => log
  | S fuel => if Z.shiftl 1 log <? num then logLoop fuel (log + 1) num else log
  end.

Definition Jx (x : Z) (v : list ByteSequence) (i : Z) : list (list Z) :=
  let C_res := C v in
  let seq_ := Some <$> C_res in
  let num := Z.max 1 (Z.of_nat (length v)) in
  let log := logLoop 64 0 num in
  let sz := Z.max 0 (log - x) in
  let res := T seq_ (u32 (i * u32 (shl64 1 x))) in
  (fun k => match res !! k with
            | Some r => gcopy zeroHash (bytes_of r)
            | None => zeroHash
            end) <$> seq 0 (Z.to_nat sz).

Definition M (v : list ByteSequence) : list Z :=
  gcopy zeroHash (bytes_of (N (Some <$> C v))).

(** The loop of [VerifyMerkleProof] over the proof from its last element to
    its first. *)
Fixpoint verifyLoop (rproof : list (list Z)) (current : list Z) (index : Z) : list Z :=
  match rproof with
  | [] => current
  | sibling :: rproof =>
      let node := if Z.rem index 2 =? 0 then nodePrefix ++ current ++ sibling
                  else nodePrefix ++ sibling ++ current in
      verifyLoop rproof (hashFunc node) (Z.quot index 2)
  end.

Definition VerifyMerkleProof (leaf : list Z) (proof : list (list Z)) (index : Z) (root : list Z) : bool :=
  let current := hashFunc (leafPrefix ++ leaf) in
  bool_decide (verifyLoop (reverse proof) current index = root).

End Merkle.

(** * Correctness *)

Local Open Scope nat_scope.

Section MerkleSpec.
Context (h : list Z -> list Z) (Hh : forall x, is_hash (h x)).

(** The perfect tree over [2 ^ k] hashes. *)
Definition node (l r : list Z) : list Z := h (nodePrefix ++ l ++ r).

Fixpoint mtree (k : nat) (ls : list (list Z)) : list Z :=
  match k with
  | O => default [] (head ls)
  | S k => node (mtree k (take (2 ^ k) ls)) (mtree k (drop (2 ^ k) ls))
  end.

(** The siblings from the root to the leaf [i]. *)
Fixpoint mpath (k : nat) (ls : list (list Z)) (i : nat) : list (list Z) :=
  match k with
  | O => []
  | S k =>
      if i <? 2 ^ k then mtree k (drop (2 ^ k) ls) :: mpath k (take (2 ^ k) ls) i
      else mtree k (take (2 ^ k) ls) :: mpath k (drop (2 ^ k) ls) (i - 2 ^ k)
  end.

Definition collision : Prop := exists x y, x <> y /\ h x = h y.

Lemma hash_binding x y : h x = h y -> x = y \/ collision.
Proof. intros He. destruct (decide (x = y)); [by left|right]. by exists x, y. Qed.

Lemma node_binding a b a' b' : is_hash a -> is_hash a' ->
  node a b = node a' b' -> (a = a' /\ b = b') \/ collision.
Proof.
  intros [Ha _] [Ha' _] [He|]%hash_binding; [left|by right].
  apply (inj (app _)) in He. apply app_inj_1 in He; [done|congruence].
Qed.

(** ** The recursion of [N] *)

Lemma N_rec_fuel fuel fuel' v :
  length v <= fuel -> length v <= fuel' -> N_rec h fuel v = N_rec h fuel' v.
Proof.
  revert fuel' v. induction fuel as [|fuel IH]; intros fuel' v Hf Hf'.
  { by destruct v; [destruct fuel'|cbn in Hf; lia]. }
  destruct fuel' as [|fuel']; [by destruct v; [|cbn in Hf'; lia] |].
  destruct v as [|[x|] [|y v] ]; [done|done| |done|done].
  cbn [N_rec]. set (w := Some x :: y :: v) in *.
  assert (2 <= length w) as Hw by (cbn; lia).
  assert (1 <= (length w + 1) / 2 /\ 2 * ((length w + 1) / 2) <= length w + 1) as [H1 H2].
  { split; [apply Nat.div_le_lower_bound; lia|apply Nat.Div0.mul_div_le]. }
  clearbody w. do 4 f_equal; f_equal; apply IH; rewrite ?length_take, ?length_drop; lia.
Qed.

Lemma N_rec_step fuel x y v :
  let w := Some x :: y :: v in
  let mid := (length w + 1) / 2 in
  N_rec h (S fuel) w =
    Some (h (nodePrefix ++ bytes_of (N_rec h fuel (take mid w)) ++ bytes_of (N_rec h fuel (drop mid w)))).
Proof. reflexivity. Qed.

(** The recursion equation of [N] (E.1). *)
Lemma N_eq v : N h v =
  match v with
  | [] | None :: _ => Some zeroHash
  | [v0] => v0
  | _ => let mid := (length v + 1) / 2 in
         Some (h (nodePrefix ++ bytes_of (N h (take mid v)) ++ bytes_of (N h (drop mid v))))
  end.
Proof.
  unfold N at 1. destruct v as [|[x|] [|y v] ]; [done|done| |done|done].
  change (length (Some x :: y :: v)) with (S (S (length v))) at 1. rewrite N_rec_step.
  set (w := Some x :: y :: v) in *. assert (2 <= length w) as Hw by (cbn; lia).
  assert (S (length v) = length w - 1) as -> by (cbn; lia).
  assert (1 <= (length w + 1) / 2 /\ 2 * ((length w + 1) / 2) <= length w + 1) as [H1 H2].
  { split; [apply Nat.div_le_lower_bound; lia|apply Nat.Div0.mul_div_le]. }
  clearbody w. cbn zeta. unfold N.
  do 4 f_equal; f_equal; apply N_rec_fuel; rewrite ?length_take, ?length_drop; lia.
Qed.

Lemma N_node v w : 2 <= length v -> v = Some <$> w ->
  N h v = Some (h (nodePrefix ++ bytes_of (N h (take ((length v + 1) / 2) v)) ++
                   bytes_of (N h (drop ((length v + 1) / 2) v)))).
Proof.
  intros Hv ->. rewrite N_eq. destruct w as [|x [|y w] ]; cbn in Hv; [lia|lia|]. done.
Qed.

Lemma N_perfect k ls : length ls = 2 ^ k -> N h (Some <$> ls) = Some (mtree k ls).
Proof.
  revert ls. induction k as [|k IH]; intros ls Hl.
  { destruct ls as [|x [|y ls] ]; try done. }
  rewrite Nat.pow_succ_r' in Hl. pose proof (Nat.pow_nonzero 2 k ltac:(lia)).
  rewrite N_node with (w := ls) by (done || rewrite length_fmap; lia). rewrite length_fmap.
  assert ((length ls + 1) / 2 = 2 ^ k) as -> by (symmetry; apply Nat.div_unique with 1; lia).
  rewrite <- fmap_take, <- fmap_drop, !IH by (rewrite ?length_take, ?length_drop; lia). done.
Qed.

Lemma mtree_hash k ls : length ls = 2 ^ k -> Forall is_hash ls -> is_hash (mtree k ls).
Proof.
  destruct k; intros Hl Hls; [|apply Hh]. destruct ls as [|x [|y ls] ]; try done. by inversion Hls.
Qed.

(** ** The recursion of [T] on perfect trees *)

Lemma T_rec_perfect k fuel ls i :
  length ls = 2 ^ k -> k <= 31 -> 2 ^ k <= S fuel -> i < 2 ^ k ->
  T_rec h fuel (Some <$> ls) (Z.of_nat i) = Some <$> mpath k ls i.
Proof.
  revert fuel ls i. induction k as [|k IH]; intros fuel ls i Hl Hk Hf Hi.
  { destruct fuel; cbn [T_rec]; rewrite length_fmap, Hl; done. }
  rewrite Nat.pow_succ_r' in *. pose proof (Nat.pow_nonzero 2 k ltac:(lia)).
  destruct fuel as [|fuel]; [lia|]. cbn [T_rec]. rewrite length_fmap, Hl.
  destruct (Z.leb_spec (Z.of_nat (2 * 2 ^ k)) 1); [lia|].
  assert (Z.of_nat (2 ^ k) < 2 ^ 32)%Z as Hlt.
  { rewrite Nat2Z.inj_pow. apply Z.pow_lt_mono_r; lia. }
  assert (u32 (Z.of_nat (2 * 2 ^ k) / 2) = Z.of_nat (2 ^ k)) as ->.
  { replace (Z.of_nat (2 * 2 ^ k)) with (Z.of_nat (2 ^ k) * 2)%Z by lia.
    rewrite Z.div_mul by lia. apply uN_small. lia. }
  rewrite Nat2Z.id, <- fmap_take, <- fmap_drop. cbn [mpath].
  assert (length (take (2 ^ k) ls) = 2 ^ k) as Ht by (rewrite length_take; lia).
  assert (length (drop (2 ^ k) ls) = 2 ^ k) as Hd by (rewrite length_drop; lia).
  destruct (Nat.ltb_spec i (2 ^ k)), (Z.ltb_spec (Z.of_nat i) (Z.of_nat (2 ^ k))); try lia.
  - rewrite (N_perfect k), IH by lia. done.
  - replace (u32 (Z.of_nat i - Z.of_nat (2 ^ k))) with (Z.of_nat (i - 2 ^ k))
      by (rewrite uN_small; lia).
    rewrite (N_perfect k), IH by lia. done.
Qed.

Lemma mpath_length k ls i : length (mpath k ls i) = k.
Proof. revert ls i. induction k as [|k IH]; intros ls i; [done|]. cbn. case_match; cbn; by rewrite IH. Qed.

Lemma mpath_hash k ls i :
  length ls = 2 ^ k -> Forall is_hash ls -> Forall is_hash (mpath k ls i).
Proof.
  revert ls i. induction k as [|k IH]; intros ls i Hl Hls; [constructor|]. rewrite Nat.pow_succ_r' in Hl.
  assert (is_hash (mtree k (take (2 ^ k) ls)) /\ is_hash (mtree k (drop (2 ^ k) ls))) as [H1 H2].
  { split; apply mtree_hash; rewrite ?length_take, ?length_drop; try lia; [by apply Forall_take|by apply Forall_drop]. }
  cbn [mpath]. case_match; constructor; try done; apply IH; rewrite ?length_take, ?length_drop; try lia;
    [by apply Forall_take|by apply Forall_drop].
Qed.

(** ** The verification loop *)

Lemma verifyLoop_app l1 l2 c (j : nat) :
  verifyLoop h (l1 ++ l2) c (Z.of_nat j) =
  verifyLoop h l2 (verifyLoop h l1 c (Z.of_nat j)) (Z.of_nat (j / 2 ^ length l1)).
Proof.
  revert c j. induction l1 as [|s l1 IH]; intros c j; [by rewrite Nat.div_1_r|].
  cbn [app verifyLoop length]. rewrite Z.quot_div_nonneg by lia.
  change 2%Z with (Z.of_nat 2). rewrite <- Nat2Z.inj_div, IH, Nat.Div0.div_div, <- Nat.pow_succ_r'. done.
Qed.

Lemma verifyLoop_mod l c (j b : nat) : j < 2 ^ length l ->
  verifyLoop h l c (Z.of_nat (j + 2 ^ length l * b)) = verifyLoop h l c (Z.of_nat j).
Proof.
  revert c j. induction l as [|s l IH]; intros c j Hj; [done|].
  cbn [length] in *. rewrite Nat.pow_succ_r' in *. cbn [verifyLoop].
  rewrite !Z.rem_mod_nonneg, !Z.quot_div_nonneg by lia. change 2%Z with (Z.of_nat 2).
  rewrite <- !Nat2Z.inj_mod, <- !Nat2Z.inj_div.
  replace (j + 2 * 2 ^ length l * b) with (j + (2 ^ length l * b) * 2) by lia.
  rewrite Nat.Div0.mod_add, Nat.div_add, IH by (try apply Nat.Div0.div_lt_upper_bound; lia). done.
Qed.

(** The last step, at the children of the root. *)
Lemma verifyLoop_last l s c (b : bool) (j : nat) : j < 2 ^ length l ->
  verifyLoop h (l ++ [s]) c (Z.of_nat (if b then j + 2 ^ length l else j)) =
  if b then node s (verifyLoop h l c (Z.of_nat j)) else node (verifyLoop h l c (Z.of_nat j)) s.
Proof.
  intros Hj. rewrite verifyLoop_app. destruct b.
  - rewrite <- (Nat.mul_1_r (2 ^ length l)) at 1 2.
    rewrite verifyLoop_mod by done. rewrite (Nat.mul_comm _ 1), Nat.div_add by lia.
    rewrite Nat.div_small by done. done.
  - rewrite Nat.div_small by done. done.
Qed.

Section Climb.
Context (x : nat).

(** The hashes of page [j], and the path of its root. *)
Definition page (j : nat) (ls : list (list Z)) : list (list Z) := take (2 ^ x) (drop (j * 2 ^ x) ls).
Definition page_path (k j : nat) (ls : list (list Z)) : list (list Z) := take (k - x) (mpath k ls (j * 2 ^ x)).

Lemma page_path_length k j ls : length (page_path k j ls) = k - x.
Proof. unfold page_path. rewrite length_take, mpath_length. lia. Qed.

Lemma page_whole k ls : k = x -> length ls = 2 ^ k -> page 0 ls = ls.
Proof. intros -> Hl. unfold page. rewrite Nat.mul_0_l, drop_0, take_ge by lia. done. Qed.

(** A page is in the left or in the right half. *)
Lemma page_halves k j ls : x <= k -> length ls = 2 ^ S k -> j < 2 ^ (S k - x) ->
  exists b j', j' < 2 ^ (k - x) /\ j = (if b : bool then j' + 2 ^ (k - x) else j') /\
    let half := if b then drop (2 ^ k) ls else take (2 ^ k) ls in
    let other := if b then take (2 ^ k) ls else drop (2 ^ k) ls in
    length half = 2 ^ k /\ length other = 2 ^ k /\
    page j ls = page j' half /\ page_path (S k) j ls = mtree k other :: page_path k j' half.
Proof.
  intros Hx Hl Hj. replace (S k - x) with (S (k - x)) in Hj by lia. rewrite Nat.pow_succ_r' in *.
  pose proof (Nat.pow_nonzero 2 k ltac:(lia)). pose proof (Nat.pow_nonzero 2 x ltac:(lia)).
  assert (2 ^ k = 2 ^ (k - x) * 2 ^ x) as Hk by (rewrite <- Nat.pow_add_r; f_equal; lia).
  unfold page, page_path. replace (S k - x) with (S (k - x)) by lia. cbn [mpath].
  destruct (Nat.ltb_spec j (2 ^ (k - x))) as [Hlt|Hge].
  - exists false, j. assert (j * 2 ^ x + 2 ^ x <= 2 ^ k) by nia.
    destruct (Nat.ltb_spec (j * 2 ^ x) (2 ^ k)); [|lia].
    split_and!; [done|done|rewrite length_take; lia|rewrite length_drop; lia| |done].
    rewrite !take_drop_commute, take_take. do 2 f_equal. lia.
  - exists true, (j - 2 ^ (k - x)). assert (2 ^ k <= j * 2 ^ x) by nia.
    destruct (Nat.ltb_spec (j * 2 ^ x) (2 ^ k)); [lia|].
    replace (j * 2 ^ x - 2 ^ k) with ((j - 2 ^ (k - x)) * 2 ^ x) by (rewrite Nat.mul_sub_distr_r; lia).
    split_and!; [lia|lia|rewrite length_drop; lia|rewrite length_take; lia| |done].
    rewrite drop_drop. do 2 f_equal. rewrite Nat.mul_sub_distr_r. lia.
Qed.

Lemma climb k ls j : x <= k -> length ls = 2 ^ k -> j < 2 ^ (k - x) ->
  verifyLoop h (reverse (page_path k j ls)) (mtree x (page j ls)) (Z.of_nat j) = mtree k ls.
Proof.
  revert ls j. induction k as [|k IH]; intros ls j Hx Hl Hj.
  { assert (x = 0) as Hx0 by lia. rewrite Hx0 in Hj. cbn in Hj. assert (j = 0) as -> by lia.
    assert (page_path 0 0 ls = []) as -> by (apply nil_length_inv; rewrite page_path_length; lia).
    cbn [reverse verifyLoop]. rewrite page_whole with 0 ls by (done || lia). by rewrite Hx0. }
  destruct (decide (x = S k)) as [He|Hne].
  { rewrite He, Nat.sub_diag in Hj. cbn in Hj. assert (j = 0) as -> by lia.
    assert (page_path (S k) 0 ls = []) as -> by (apply nil_length_inv; rewrite page_path_length; lia).
    cbn [reverse verifyLoop]. rewrite page_whole with (S k) ls by done. by rewrite He. }
  destruct (page_halves k j ls) as (b & j' & Hj' & -> & Hlen & _ & -> & ->); [lia|done|done|].
  rewrite reverse_cons.
  assert (length (reverse (page_path k j' (if b then drop (2 ^ k) ls else take (2 ^ k) ls))) = k - x) as Hr
    by (by rewrite length_reverse, page_path_length).
  rewrite <- Hr. rewrite verifyLoop_last by (by rewrite Hr). rewrite IH by (done || lia). by destruct b.
Qed.

Lemma climb_sound k ls j proof c : x <= k -> length ls = 2 ^ k -> j < 2 ^ (k - x) ->
  length proof = k - x -> Forall is_hash ls -> Forall is_hash proof -> is_hash c ->
  verifyLoop h (reverse proof) c (Z.of_nat j) = mtree k ls -> c = mtree x (page j ls) \/ collision.
Proof.
  revert ls j proof. induction k as [|k IH]; intros ls j proof Hx Hl Hj Hp Hls Hpr Hc.
  { assert (x = 0) as Hx0 by lia. rewrite Hx0 in Hj. cbn in Hj. assert (j = 0) as -> by lia.
    destruct proof; [|done]. rewrite page_whole with 0 ls by (done || lia). rewrite Hx0. by left. }
  destruct (decide (x = S k)) as [He|Hne].
  { rewrite He, Nat.sub_diag in Hj, Hp. cbn in Hj. assert (j = 0) as -> by lia.
    destruct proof; [|done]. rewrite page_whole with (S k) ls by done. rewrite He. by left. }
  destruct (page_halves k j ls) as (b & j' & Hj' & -> & Hlen & Hlen' & -> & _); [lia|done|done|].
  destruct proof as [|s proof]; [cbn in Hp; lia|]. cbn in Hp. apply Forall_cons in Hpr as [Hs Hpr].
  rewrite reverse_cons. replace (k - x) with (length (reverse proof)) by (rewrite length_reverse; lia).
  rewrite verifyLoop_last by (rewrite length_reverse; replace (length proof) with (k - x) by lia; done).
  set (cur := verifyLoop h (reverse proof) c (Z.of_nat j')).
  assert (is_hash cur) as Hcur.
  { unfold cur. generalize (Z.of_nat j'). generalize (reverse proof). clear - Hc Hh. intros l. revert c Hc.
    induction l as [|y l IHl]; intros c Hc z; [done|]. cbn. apply IHl, Hh. }
  assert (Forall is_hash (if b then drop (2 ^ k) ls else take (2 ^ k) ls)) as Hhalf
    by (by destruct b; [apply Forall_drop|apply Forall_take]).
  intros Heq. assert (cur = mtree k (if b then drop (2 ^ k) ls else take (2 ^ k) ls) \/ collision) as [He|]; [| |by right].
  - cbn [mtree] in Heq. assert (is_hash (mtree k (take (2 ^ k) ls))).
    { rewrite Nat.pow_succ_r' in Hl. apply mtree_hash; [rewrite length_take; lia|by apply Forall_take]. }
    destruct b; apply node_binding in Heq as [ [? ?] |]; auto.
  - eapply IH; [| | | | | | |exact He]; [lia|done|done|lia|done|done|done].
Qed.

End Climb.

Lemma mtree_binding k ls ls' :
  length ls = 2 ^ k -> length ls' = 2 ^ k -> Forall is_hash ls -> Forall is_hash ls' ->
  mtree k ls = mtree k ls' -> ls = ls' \/ collision.
Proof.
  revert ls ls'. induction k as [|k IH]; intros ls ls' Hl Hl' Hls Hls' He.
  { destruct ls as [|y [|? ls] ], ls' as [|y' [|? ls'] ]; try done. cbn in He. subst. by left. }
  cbn [mtree] in He. rewrite Nat.pow_succ_r' in Hl, Hl'.
  apply node_binding in He as [ [He1 He2] |]; [|by right| |].
  - apply IH in He1 as [He1|]; [|by right|rewrite length_take; lia|rewrite length_take; lia|by apply Forall_take|by apply Forall_take].
    apply IH in He2 as [He2|]; [|by right|rewrite length_drop; lia|rewrite length_drop; lia|by apply Forall_drop|by apply Forall_drop].
    left. rewrite <- (take_drop (2 ^ k) ls), <- (take_drop (2 ^ k) ls'). by f_equal.
  - apply mtree_hash; [rewrite length_take; lia|by apply Forall_take].
  - apply mtree_hash; [rewrite length_take; lia|by apply Forall_take].
Qed.

End MerkleSpec.

(** ** The constant-depth tree of a list of blobs *)

Section Blobs.
Context (h : list Z -> list Z) (Hh : forall x, is_hash (h x)).

Definition depth (v : list ByteSequence) : nat := Nat.log2_up (length v).

Lemma depth_bounds v : length v <= 2 ^ depth v /\ (depth v <> 0 -> 2 ^ pred (depth v) < length v).
Proof.
  unfold depth. destruct (decide (1 < length v)) as [Hl|Hl].
  - pose proof (Nat.log2_up_spec (length v) Hl). lia.
  - rewrite Nat.log2_up_eqn0 by lia. cbn. lia.
Qed.

Lemma depth_small v : length v <= 2 ^ 31 -> depth v <= 31.
Proof. intros Hv. unfold depth. apply Nat.log2_up_le_mono in Hv. rewrite Nat.log2_up_pow2 in Hv; lia. Qed.

Lemma sizeLoop_ok fuel j v : j <= depth v -> depth v - j < fuel ->
  sizeLoop fuel (Z.of_nat (2 ^ j)) (Z.of_nat (length v)) = Z.of_nat (2 ^ depth v).
Proof.
  destruct (depth_bounds v) as [H1 H2]. remember (depth v - j) as d eqn:Hd. revert j Hd fuel.
  induction d as [|d IH]; intros j Hd fuel Hj Hf; (destruct fuel as [|fuel]; [lia|]); cbn [sizeLoop].
  - replace j with (depth v) by lia.
    destruct (Z.ltb_spec (Z.of_nat (2 ^ depth v)) (Z.of_nat (length v))); [lia|done].
  - assert (2 ^ j <= 2 ^ pred (depth v)) by (apply Nat.pow_le_mono_r; lia).
    destruct (Z.ltb_spec (Z.of_nat (2 ^ j)) (Z.of_nat (length v))); [|lia].
    replace (Z.of_nat (2 ^ j) * 2)%Z with (Z.of_nat (2 ^ S j)) by (rewrite Nat.pow_succ_r'; lia).
    apply IH; lia.
Qed.

Lemma logLoop_ok fuel j v : j <= depth v -> depth v - j < fuel ->
  logLoop fuel (Z.of_nat j) (Z.max 1 (Z.of_nat (length v))) = Z.of_nat (depth v).
Proof.
  destruct (depth_bounds v) as [H1 H2]. pose proof (Nat.pow_nonzero 2 (depth v) ltac:(lia)).
  remember (depth v - j) as d eqn:Hd. revert j Hd fuel.
  induction d as [|d IH]; intros j Hd fuel Hj Hf; (destruct fuel as [|fuel]; [lia|]); cbn [logLoop];
    rewrite Z.shiftl_1_l; change 2%Z with (Z.of_nat 2); rewrite <- Nat2Z.inj_pow.
  - replace j with (depth v) by lia.
    destruct (Z.ltb_spec (Z.of_nat (2 ^ depth v)) (Z.max 1 (Z.of_nat (length v)))); [lia|done].
  - assert (2 ^ j <= 2 ^ pred (depth v)) by (apply Nat.pow_le_mono_r; lia).
    destruct (Z.ltb_spec (Z.of_nat (2 ^ j)) (Z.max 1 (Z.of_nat (length v)))); [|lia].
    replace (Z.of_nat j + 1)%Z with (Z.of_nat (S j)) by lia. apply IH; lia.
Qed.

Lemma C_eq v : length v <= 2 ^ 31 ->
  C h v = (leafHash h <$> v) ++ replicate (2 ^ depth v - length v) zeroHash.
Proof.
  intros Hv. pose proof (depth_small v Hv). destruct (depth_bounds v) as [Hd _]. unfold C.
  change 1%Z with (Z.of_nat (2 ^ 0)). rewrite sizeLoop_ok by lia. rewrite Nat2Z.id.
  apply list_eq. intros i. rewrite list_lookup_fmap, lookup_app, list_lookup_fmap.
  destruct (v !! i) as [b|] eqn:E; cbn [fmap option_fmap option_map].
  - apply lookup_lt_Some in E as Hi. rewrite lookup_seq_lt by lia. cbn. by rewrite E.
  - apply lookup_ge_None in E as Hi. rewrite length_fmap.
    destruct (decide (i < 2 ^ depth v)) as [Hlt|Hge].
    + rewrite lookup_seq_lt, lookup_replicate_2 by lia. cbn. by rewrite E.
    + rewrite lookup_seq_ge by lia. symmetry. apply lookup_ge_None_2. rewrite length_replicate. lia.
Qed.

Lemma C_length v : length v <= 2 ^ 31 -> length (C h v) = 2 ^ depth v.
Proof.
  intros Hv. destruct (depth_bounds v) as [Hd _].
  rewrite C_eq, length_app, length_fmap, length_replicate by done. lia.
Qed.

Lemma C_hash v : length v <= 2 ^ 31 -> Forall is_hash (C h v).
Proof.
  intros Hv. rewrite C_eq by done. apply Forall_app. split.
  - apply Forall_fmap, Forall_true. intros b. apply Hh.
  - apply Forall_replicate, zeroHash_hash.
Qed.

Lemma copy_hash x : is_hash x -> gcopy zeroHash x = x.
Proof. intros [Hx _]. apply gcopy_full. by rewrite Hx. Qed.

Lemma M_mtree v : length v <= 2 ^ 31 -> M h v = mtree h (depth v) (C h v).
Proof.
  intros Hv. unfold M. rewrite N_perfect with (k := depth v) by (by apply C_length).
  apply copy_hash, mtree_hash; [done|by apply C_length|by apply C_hash].
Qed.

Lemma u32_pageSize x j v : length v <= 2 ^ 31 -> x <= depth v -> j * 2 ^ x < 2 ^ depth v ->
  u32 (shl64 1 (Z.of_nat x)) = Z.of_nat (2 ^ x) /\
  u32 (Z.of_nat j * Z.of_nat (2 ^ x)) = Z.of_nat (j * 2 ^ x).
Proof.
  intros Hv Hx Hj. pose proof (depth_small v Hv).
  assert (Z.of_nat (2 ^ x) <= 2 ^ 31)%Z by (rewrite Nat2Z.inj_pow; apply Z.pow_le_mono_r; lia).
  assert (Z.of_nat (2 ^ depth v) <= 2 ^ 31)%Z by (rewrite Nat2Z.inj_pow; apply Z.pow_le_mono_r; lia).
  split.
  - unfold shl64. destruct (Z.ltb_spec (Z.of_nat x) 64); [|lia].
    rewrite Z.shiftl_1_l. change 2%Z with (Z.of_nat 2) at 1. rewrite <- Nat2Z.inj_pow.
    rewrite (uN_small 64) by lia. apply uN_small. lia.
  - rewrite <- Nat2Z.inj_mul. apply uN_small. lia.
Qed.

Lemma Jx_page x v j : length v <= 2 ^ 31 -> x <= depth v -> j * 2 ^ x < 2 ^ depth v ->
  Jx h (Z.of_nat x) v (Z.of_nat j) = page_path h x (depth v) j (C h v).
Proof.
  intros Hv Hx Hj. pose proof (depth_small v Hv). destruct (u32_pageSize x j v Hv Hx Hj) as [E1 E2].
  unfold Jx. rewrite E1, E2. change (logLoop 64 0) with (logLoop 64 (Z.of_nat 0)). rewrite logLoop_ok by lia.
  replace (Z.to_nat (Z.max 0 (Z.of_nat (depth v) - Z.of_nat x))) with (depth v - x) by lia.
  unfold T. rewrite length_fmap, C_length by done.
  rewrite T_rec_perfect with (k := depth v) by (try apply C_length; lia || done).
  unfold page_path. set (l := mpath h (depth v) (C h v) (j * 2 ^ x)).
  assert (length l = depth v) as Hl by apply mpath_length.
  assert (Forall is_hash l) as Hf by (apply mpath_hash; [done|by apply C_length|by apply C_hash]).
  clearbody l. apply list_eq_same_length with (depth v - x);
    [rewrite length_take; lia|by rewrite length_fmap, length_seq|].
  intros i a b Hi. rewrite list_lookup_fmap, lookup_seq_lt by lia. cbn. rewrite lookup_take_lt by lia.
  rewrite list_lookup_fmap. destruct (lookup_lt_is_Some_2 l i ltac:(lia)) as [y Hy]. rewrite Hy. cbn.
  intros [= <-] [= <-]. apply copy_hash. by apply (proj1 (Forall_lookup _ _) Hf i).
Qed.

(** The page of leaf hashes, padded like the tree. *)
Definition padded (x : nat) (hs : list (list Z)) : list (list Z) :=
  hs ++ replicate (2 ^ x - length hs) zeroHash.

Lemma Lx_page x v j : length v <= 2 ^ 31 -> x <= depth v -> j * 2 ^ x < length v ->
  padded x (Lx h (Z.of_nat x) v (Z.of_nat j)) = page x j (C h v).
Proof.
  intros Hv Hx Hj. pose proof (depth_small v Hv). destruct (depth_bounds v) as [Hd _].
  destruct (u32_pageSize x j v Hv Hx ltac:(lia)) as [E1 E2].
  assert (Z.of_nat (2 ^ x) <= 2 ^ 31)%Z by (rewrite Nat2Z.inj_pow; apply Z.pow_le_mono_r; lia).
  assert (Z.of_nat (length v) <= 2 ^ 31)%Z as Hv'.
  { apply Z.le_trans with (Z.of_nat (2 ^ 31)); [lia|]. rewrite Nat2Z.inj_pow. done. }
  unfold Lx. rewrite E1, E2, !(uN_small 32) by lia. rewrite Nat2Z.id.
  replace (Z.to_nat (Z.min (Z.of_nat (j * 2 ^ x) + Z.of_nat (2 ^ x)) (Z.of_nat (length v)) - Z.of_nat (j * 2 ^ x)))
    with (min (2 ^ x) (length v - j * 2 ^ x)) by lia.
  unfold page, padded. rewrite C_eq by done. rewrite drop_app_le by (rewrite length_fmap; lia).
  rewrite take_app, length_drop, length_fmap, length_take, <- fmap_drop, <- fmap_take, take_replicate.
  rewrite !length_drop. f_equal.
  - f_equal. destruct (decide (2 ^ x <= length v - j * 2 ^ x)); [f_equal; lia|].
    rewrite !take_ge by (rewrite length_drop; lia). done.
  - f_equal. assert (j * 2 ^ x + 2 ^ x <= 2 ^ depth v); [|rewrite ?length_fmap, ?length_take, ?length_drop; lia].
    assert (2 ^ depth v = 2 ^ (depth v - x) * 2 ^ x) as Hk by (rewrite <- Nat.pow_add_r; f_equal; lia).
    assert (j < 2 ^ (depth v - x)) as Hjq by nia.
    pose proof (Nat.mul_le_mono_r (S j) _ (2 ^ x) Hjq). lia.
Qed.

Lemma page_index x v j : x <= depth v -> j * 2 ^ x < 2 ^ depth v -> j < 2 ^ (depth v - x).
Proof.
  intros Hx Hj. assert (2 ^ depth v = 2 ^ (depth v - x) * 2 ^ x) as Hk by (rewrite <- Nat.pow_add_r; f_equal; lia).
  nia.
Qed.

Lemma page_leaf i v b : length v <= 2 ^ 31 -> v !! i = Some b -> mtree h 0 (page 0 i (C h v)) = leafHash h b.
Proof.
  intros Hv Hi. pose proof (lookup_lt_Some _ _ _ Hi). unfold page. rewrite C_eq, Nat.mul_1_r by done.
  rewrite drop_app_le by (rewrite length_fmap; lia). rewrite <- fmap_drop, (drop_S _ _ _ Hi). done.
Qed.

End Blobs.

(** Page proofs are complete: from the leaf hashes [Lx] of a page of the
    segments, padded to the page size, and its co-path [Jx], the
    verification loop computes the root [M] of all the segments. *)
Theorem page_proof_complete h x v j :
  (forall y, is_hash (h y)) -> length v <= 2 ^ 31 -> x <= depth v -> j * 2 ^ x < length v ->
  length (Jx h (Z.of_nat x) v (Z.of_nat j)) = depth v - x /\
  verifyLoop h (reverse (Jx h (Z.of_nat x) v (Z.of_nat j)))
    (mtree h x (padded x (Lx h (Z.of_nat x) v (Z.of_nat j)))) (Z.of_nat j) = M h v.
Proof.
  intros Hh Hv Hx Hj. destruct (depth_bounds v) as [Hd _].
  rewrite Jx_page, Lx_page, M_mtree by (done || lia). split; [apply page_path_length|].
  apply climb; [done|by apply C_length|]. by apply page_index; [|lia].
Qed.

(** [VerifyMerkleProof] decides membership: against the root of [v] it
    accepts the element at [i] with the proof [Jx 0 v i], and whatever it
    accepts at [i] with a proof of the right length is that element, unless
    the hash function has a collision. *)
Theorem VerifyMerkleProof_correct h v i b leaf proof :
  (forall y, is_hash (h y)) -> length v <= 2 ^ 31 -> v !! i = Some b ->
  length proof = depth v -> Forall is_hash proof ->
  VerifyMerkleProof h (bytes_of b) (Jx h 0 v (Z.of_nat i)) (Z.of_nat i) (M h v) = true /\
  (VerifyMerkleProof h leaf proof (Z.of_nat i) (M h v) = true -> leaf = bytes_of b \/ collision h).
Proof.
  intros Hh Hv Hi Hp Hpr. pose proof (lookup_lt_Some _ _ _ Hi). destruct (depth_bounds v) as [Hd _].
  pose proof (page_index 0 v i ltac:(lia) ltac:(rewrite Nat.pow_0_r; lia)) as Hj.
  unfold VerifyMerkleProof. rewrite !bool_decide_eq_true.
  change (h (leafPrefix ++ bytes_of b)) with (leafHash h b).
  rewrite (Jx_page h Hh 0), M_mtree by (done || cbn; lia). rewrite <- (page_leaf h i v b) by done. split.
  - apply climb; [lia|by apply C_length|done].
  - intros Hacc. apply (climb_sound h Hh 0) in Hacc; [|lia|by apply C_length|done|lia|by apply C_hash|done|by apply Hh].
    destruct Hacc as [He|]; [|by right]. rewrite (page_leaf h i v b) in He by done.
    apply hash_binding in He as [He|]; [|by right]. left. by apply (inj (app _)) in He.
Qed.

(** [T] and [N] disagree on an odd number of elements: the root of three
    elements has the first two on the left, but [T] gives as the co-path of
    the first the hash of the other two. *)
Theorem T_odd_mismatch h a b c :
  N h [Some a; Some b; Some c] = Some (node h (node h a b) c) /\
  T h [Some a; Some b; Some c] 0 = [Some (node h b c)] /\
  ((forall y, is_hash (h y)) -> is_hash a -> ~ collision h -> a <> node h a b ->
     node h a (node h b c) <> node h (node h a b) c).
Proof.
  split_and!; [reflexivity|reflexivity|]. intros Hh Ha Hc Hne He.
  apply node_binding in He as [ [He _] |]; [done..|apply Hh].
Qed.
