(* ===== verification/Trie.v ===== *)
(** * State trie

    The merklization of the serialized state
    (src/internal/utilities/merklization/merklization.go), the state keys
    (state_key_constructor.go, state_key_deconstructor.go), and the cache of
    leaf hashes (src/internal/blockchain/key_level_cache.go and
    [merklizeWithKeyCache] of chain_state.go).

    [MerklizationSerializedState] works on a copy of its argument, which
    [partitionByBit] permutes in place; the recursive calls get disjoint
    halves of it, so each call is given the contents of its own half. *)

From S2P Require Import Prelude Words Types Codec Config.
Local Open Scope Z_scope.

Record leafCacheEntry := MkEntry { valueHash : list Z; leafHash : list Z }.

(** [KeyLevelCache]: its [entries] map. *)
Abbreviation KeyLevelCache := (gmap (list Z) leafCacheEntry).

(** ** Nodes *)

(** [node[0] = left[0] & 0x7F; copy(node[1:32], left[1:]); copy(node[32:], right)] *)
Definition encodeBranchNode (left right : list Z) : go (list Z) :=
  l0 ← zindex left 0;
  tl ← lslice left 1 (Z.of_nat (length left));
  Ret (Z.land l0 0x7F :: gcopy (replicate 31 0) tl ++ gcopy (replicate 32 0) right).

Section Merklize.
Context `{HashFunctions}.

Definition encodeLeafNode (key value : list Z) : list Z :=
  if Z.of_nat (length value) <=? 32 then
    Z.lor 0x80 (u8 (Z.of_nat (length value))) ::
      gcopy (replicate 31 0) key ++ gcopy (replicate 32 0) value
  else
    0xC0 :: gcopy (replicate 31 0) key ++ gcopy (replicate 32 0) (Blake2bHash value).

Definition EncodeLeafNodeHash (key value : list Z) : list Z :=
  Blake2bHash (encodeLeafNode key value).

(** [entries[right].Key[byteIdx] & bitMask == 0] *)
Definition bitIsZero (entry : StateKeyVal) (byteIdx bitMask : Z) : go bool :=
  b ← zindex (Key entry) byteIdx; Ret (Z.land b bitMask =? 0).

(** The loop of [partitionByBit] for the [n] remaining values of [right]. *)
Fixpoint partitionLoop (n : nat) (entries : list StateKeyVal) (byteIdx bitMask : Z) (left right : nat)
  : go (list StateKeyVal * nat) :=
  match n with
  | O => Ret (entries, left)
  | S n =>
      match entries !! right, entries !! left with
      | Some er, Some el =>
          z ← bitIsZero er byteIdx bitMask;
          if z : bool then
            partitionLoop n (<[right:=el]> (<[left:=er]> entries)) byteIdx bitMask (S left) (S right)
          else partitionLoop n entries byteIdx bitMask left (S right)
      | _, _ => Crash
      end
  end.

Definition partitionByBit (entries : list StateKeyVal) (depth : Z) : go (list StateKeyVal * nat) :=
  let byteIdx := depth / 8 in
  let bitMask := u8 (Z.shiftl 1 (7 - depth mod 8)) in
  partitionLoop (length entries) entries byteIdx bitMask 0 0.

(** [merklize], by the number of key bits left: at [depth] 248 and beyond
    [partitionByBit] indexes the 31 bytes of a key out of range, so a call
    without bits left and with two entries panics. *)
Fixpoint merklizeAt (bits : nat) (entries : list StateKeyVal) (depth : Z) : go (list Z) :=
  match entries with
  | [] => Ret zeroHash
  | [e] => Ret (Blake2bHash (encodeLeafNode (Key e) (Value e)))
  | _ =>
      match bits with
      | O => Crash
      | S bits =>
          p ← partitionByBit entries depth;
          let '(entries, pivot) := p in
          leftHash ← merklizeAt bits (take pivot entries) (depth + 1);
          rightHash ← merklizeAt bits (drop pivot entries) (depth + 1);
          node ← encodeBranchNode leftHash rightHash;
          Ret (Blake2bHash node)
      end
  end.

Definition merklize (entries : list StateKeyVal) (depth : Z) : go (list Z) :=
  merklizeAt (Z.to_nat (248 - depth)) entries depth.

Definition MerklizationSerializedState (serializedState : list StateKeyVal) : go (list Z) :=
  merklize serializedState 0.

(** ** The leaf cache

    A [LeafHashCache] is a closure over the state of type [S] it updates;
    [None] is a nil callback. *)
Section WithCache.
Context {S : Type}.

Definition LeafHashCache : Type := S -> list Z -> list Z -> list Z * S.

Fixpoint merklizeWithCacheAt (bits : nat) (entries : list StateKeyVal) (depth : Z)
    (cache : option LeafHashCache) (s : S) : go (list Z * S) :=
  match entries with
  | [] => Ret (zeroHash, s)
  | [e] =>
      match cache with
      | Some cache => Ret (cache s (Key e) (Value e))
      | None => Ret (Blake2bHash (encodeLeafNode (Key e) (Value e)), s)
      end
  | _ =>
      match bits with
      | O => Crash
      | Datatypes.S bits =>
          p ← partitionByBit entries depth;
          let '(entries, pivot) := p in
          l ← merklizeWithCacheAt bits (take pivot entries) (depth + 1) cache s;
          let '(leftHash, s) := l in
          r ← merklizeWithCacheAt bits (drop pivot entries) (depth + 1) cache s;
          let '(rightHash, s) := r in
          node ← encodeBranchNode leftHash rightHash;
          Ret (Blake2bHash node, s)
      end
  end.

Definition merklizeWithCache (entries : list StateKeyVal) (depth : Z) (cache : option LeafHashCache) (s : S)
  : go (list Z * S) :=
  merklizeWithCacheAt (Z.to_nat (248 - depth)) entries depth cache s.

Definition MerklizationSerializedStateWithCache (serializedState : list StateKeyVal)
    (cache : option LeafHashCache) (s : S) : go (list Z * S) :=
  match cache with
  | Some _ => merklizeWithCache serializedState 0 cache s
  | None => r ← merklize serializedState 0; Ret (r, s)
  end.

End WithCache.

Definition NewKeyLevelCache : KeyLevelCache := ∅.

Definition GetLeafHash (c : KeyLevelCache) (key value : list Z) : list Z * list Z * bool :=
  let vh := Blake2bHash value in
  match c !! key with
  | Some entry =>
      if bool_decide (valueHash entry = vh) then (leafHash entry, vh, true) else (zeroHash, vh, false)
  | None => (zeroHash, vh, false)
  end.

Definition Len (c : KeyLevelCache) : Z := Z.of_nat (size c).

Definition PutLeafHash (c : KeyLevelCache) (key valueHash leafHash : list Z) : KeyLevelCache :=
  <[key := MkEntry valueHash leafHash]> c.

Definition GetOrComputeLeafHash (c : KeyLevelCache) (key value : list Z)
    (computeFn : list Z -> list Z -> list Z) : list Z * KeyLevelCache :=
  let '(lh, vh, ok) := GetLeafHash c key value in
  if ok : bool then (lh, c)
  else let lh := computeFn key value in (lh, PutLeafHash c key vh lh).

Definition Clear (c : KeyLevelCache) : KeyLevelCache := ∅.

(** The callback of [merklizeWithKeyCache]; [MaxKeyLevelCacheSize] is
    [EpochLength * 50]. *)
Definition cacheFn (cs : ChainSpec) : LeafHashCache (S := KeyLevelCache) := fun c key value =>
  let '(lh, vh, ok) := GetLeafHash c key value in
  if ok : bool then (lh, c)
  else
    let c := if EpochLength cs * 50 <=? Len c then Clear c else c in
    let lh := EncodeLeafNodeHash key value in
    (lh, PutLeafHash c key vh lh).

Definition merklizeWithKeyCache (cs : ChainSpec) (c : KeyLevelCache) (fullStateKeyVals : list StateKeyVal)
  : go (list Z * KeyLevelCache) :=
  MerklizationSerializedStateWithCache fullStateKeyVals (Some (cacheFn cs)) c.

Definition ComputeStateRootWithCache (cs : ChainSpec) (c : KeyLevelCache) (stateKeyVals : list StateKeyVal)
  : go (list Z * KeyLevelCache) := merklizeWithKeyCache cs c stateKeyVals.

(** ** State keys (D.1) *)

Definition zeroKey : list Z := replicate 31 0.

Definition encodeServiceID (serviceID : Z) : list Z := EncodeUintWithLength serviceID 4.

(** [StateWrapper.StateKeyConstruct] *)
Definition StateWrapper_StateKeyConstruct (stateIndex : Z) : list Z := <[0%nat := stateIndex]> zeroKey.

(** The loop [output[i0 + step * i] = n[i]] for [i] from 0. *)
Fixpoint setLoop (n : list Z) (i0 step : nat) (output : list Z) : list Z :=
  match n with
  | [] => output
  | b :: n => setLoop n (i0 + step) step (<[i0 := b]> output)
  end.

Definition StateServiceWrapper_StateKeyConstruct (stateIndex serviceIndex : Z) : list Z :=
  setLoop (encodeServiceID serviceIndex) 1 2 (<[0%nat := stateIndex]> zeroKey).

Definition ServiceWrapper_StateKeyConstruct (serviceIndex : Z) (h : list Z) : go (list Z) :=
  let n := encodeServiceID serviceIndex in
  a ← Blake2bHashPartial h 27;
  Ret (setLoop (drop 4 a) 8 1 (setLoop (take 4 a) 1 2 (setLoop n 0 2 zeroKey))).

End Merklize.

(** [C], the key of a state component. *)
Definition C (stateIndex : Z) : list Z := StateWrapper_StateKeyConstruct stateIndex.

(** [DecodeServiceIDFromType2] and [DecodeServiceIDFromType3]: the decoder
    reads the four bytes in little-endian order. *)
Definition DecodeServiceIDFromType2 (stateKey : list Z) : go Z :=
  k1 ← zindex stateKey 1; k3 ← zindex stateKey 3; k5 ← zindex stateKey 5; k7 ← zindex stateKey 7;
  Ret (le_val [k1; k3; k5; k7]).

Definition DecodeServiceIDFromType3 (stateKey : list Z) : go Z :=
  k0 ← zindex stateKey 0; k2 ← zindex stateKey 2; k4 ← zindex stateKey 4; k6 ← zindex stateKey 6;
  Ret (le_val [k0; k2; k4; k6]).
