(* ===== verification/TrieSpec.v ===== *)
(** * Correctness of the state trie

    The root does not depend on the order of the entries and is computed
    without a panic exactly when the keys are distinct; it commits to the
    entries; the cache of leaf hashes does not change it. *)

From S2P Require Import Prelude Words Types Codec CodecSpec Config Trie.
Local Open Scope nat_scope.

Definition key_bit (key : list Z) (d : nat) : bool :=
  match key !! (d / 8) with Some b => Z.testbit b (7 - Z.of_nat (d mod 8)) | None => false end.

Definition wf_entry (e : StateKeyVal) : Prop := length (Key e) = 31 /\ Forall is_byte (Key e).

Definition zeros (d : nat) (l : list StateKeyVal) := filter (fun e => key_bit (Key e) d = false) l.
Definition ones (d : nat) (l : list StateKeyVal) := filter (fun e => key_bit (Key e) d = true) l.

Lemma zeros_cons d e l : zeros d (e :: l) = if key_bit (Key e) d then zeros d l else e :: zeros d l.
Proof. unfold zeros. rewrite filter_cons. by destruct (key_bit (Key e) d), (decide _). Qed.
Lemma ones_cons d e l : ones d (e :: l) = if key_bit (Key e) d then e :: ones d l else ones d l.
Proof. unfold ones. rewrite filter_cons. by destruct (key_bit (Key e) d), (decide _). Qed.

Lemma zeros_ones d l : l ≡ₚ zeros d l ++ ones d l.
Proof.
  induction l as [|e l IH]; [done|]. rewrite zeros_cons, ones_cons.
  destruct (key_bit (Key e) d); rewrite IH at 1; cbn; [|done]. by rewrite Permutation_middle.
Qed.

Lemma key_bit_test key d b :
  length key = 31 -> Forall is_byte key -> d < 248 ->
  zindex key (Z.of_nat d / 8) = Ret b ->
  (Z.land b (u8 (Z.shiftl 1 (7 - Z.of_nat d mod 8))) =? 0)%Z = negb (key_bit key d).
Proof.
  intros Hl Hb Hd Hz. apply zindex_Ret in Hz. pose proof (zlookup_elem_of _ _ _ Hz) as Hin.
  pose proof (proj1 (Forall_forall _ _) Hb b Hin) as Hbb. unfold is_byte in Hbb.
  pose proof (Z.mod_pos_bound (Z.of_nat d) 8 ltac:(lia)) as Hm.
  assert (key_bit key d = Z.testbit b (7 - Z.of_nat d mod 8)) as ->.
  { unfold key_bit. unfold zlookup in Hz. rewrite (proj2 (Z.ltb_ge (Z.of_nat d / 8) 0)) in Hz by (apply Z.div_pos; lia).
    change 8%Z with (Z.of_nat 8) in *. rewrite <- Nat2Z.inj_div, Nat2Z.id in Hz. rewrite Hz.
    by rewrite Nat2Z.inj_mod. }
  set (k := (7 - Z.of_nat d mod 8)%Z) in *. assert (0 <= k < 8)%Z as Hk by lia. clearbody k.
  rewrite Z.shiftl_1_l, uN_small by (split; [apply Z.pow_nonneg; lia|apply Z.pow_lt_mono_r; lia]).
  destruct (Z.testbit b k) eqn:E; cbn [negb].
  - apply Z.eqb_neq. intros H0. assert (Z.testbit (Z.land b (2 ^ k)) k = true) as Ht.
    { rewrite Z.land_spec, E, Z.pow2_bits_true by lia. done. }
    rewrite H0, Z.bits_0 in Ht. done.
  - apply Z.eqb_eq. apply Z.bits_inj'. intros i Hi. rewrite Z.land_spec, Z.bits_0, Z.pow2_bits_eqb by lia.
    destruct (Z.eqb_spec k i) as [<-|]; [by rewrite E|apply andb_false_r].
Qed.

(** ** The partition *)

Lemma bitIsZero_ok e d : wf_entry e -> d < 248 ->
  bitIsZero e (Z.of_nat d / 8) (u8 (Z.shiftl 1 (7 - Z.of_nat d mod 8))) = Ret (negb (key_bit (Key e) d)).
Proof.
  intros [Hl Hb] Hd. unfold bitIsZero.
  destruct (zindex_ok (Key e) (Z.of_nat d / 8)) as (b & Hz & _).
  { split; [apply Z.div_pos; lia|]. apply Z.div_lt_upper_bound; lia. }
  rewrite Hz. cbn. by rewrite (key_bit_test (Key e) d b).
Qed.

Lemma partitionLoop_ok d A B R : d < 248 -> Forall wf_entry R ->
  exists B', B' ≡ₚ B ++ ones d R /\
  partitionLoop (length R) (A ++ B ++ R) (Z.of_nat d / 8) (u8 (Z.shiftl 1 (7 - Z.of_nat d mod 8)))
    (length A) (length A + length B) =
  Ret ((A ++ zeros d R) ++ B', length (A ++ zeros d R)).
Proof.
  intros Hd Hwf. revert A B. induction R as [|e R IH]; intros A B.
  { exists B. rewrite !app_nil_r. done. }
  apply Forall_cons in Hwf as [He Hwf]. cbn [length partitionLoop].
  assert ((A ++ B ++ e :: R) !! (length A + length B) = Some e) as ->.
  { rewrite app_assoc, lookup_app_r by (rewrite length_app; lia). by rewrite length_app, Nat.sub_diag. }
  assert (exists el, (A ++ B ++ e :: R) !! length A = Some el) as [el Hel].
  { apply lookup_lt_is_Some_2. rewrite !length_app. cbn. lia. }
  rewrite Hel, bitIsZero_ok by done. cbn [mbind go_bind]. rewrite zeros_cons, ones_cons.
  destruct (key_bit (Key e) d); cbn [negb].
  - destruct (IH Hwf A (B ++ [e])) as (B' & Hp & Hrun). rewrite length_app in Hrun. cbn [length] in Hrun.
    rewrite <- (app_assoc B) in Hrun. cbn [app] in Hrun.
    replace (length A + (length B + 1)) with (S (length A + length B)) in Hrun by lia.
    exists B'. split; [|done]. rewrite Hp. by rewrite <- app_assoc.
  - rewrite lookup_app_r, Nat.sub_diag in Hel by lia.
    destruct B as [|b B].
    + cbn in Hel. injection Hel as <-.
      destruct (IH Hwf (A ++ [e]) []) as (B' & Hp & Hrun).
      rewrite length_app in Hrun. cbn [length app] in *. rewrite !Nat.add_0_r in *.
      rewrite !list_insert_id.
      * replace (S (length A)) with (length A + 1) by lia. rewrite <- app_assoc in Hrun. cbn [app] in Hrun.
        exists B'. split; [done|]. by rewrite Hrun, <- (app_assoc A [e] (zeros d R)).
      * rewrite lookup_app_r, Nat.sub_diag by lia. done.
      * rewrite list_lookup_insert_eq; [done|rewrite length_app; cbn; lia].
    + cbn in Hel. injection Hel as <-.
      destruct (IH Hwf (A ++ [e]) (B ++ [b])) as (B' & Hp & Hrun).
      rewrite (length_app A [e]), (length_app B [b]) in Hrun. cbn [length] in *.
      replace (length A + 1 + (length B + 1)) with (S (length A + S (length B))) in Hrun by lia.
      replace (S (length A)) with (length A + 1) by lia.
      assert (<[length A + S (length B):=b]> (<[length A:=e]> (A ++ (b :: B) ++ e :: R)) =
        (A ++ [e]) ++ (B ++ [b]) ++ R) as ->.
      { rewrite (insert_app_r_alt A), Nat.sub_diag by lia.
        change (<[0:=e]> ((b :: B) ++ e :: R)) with (e :: (B ++ e :: R)).
        rewrite (insert_app_r_alt A) by lia. replace (length A + S (length B) - length A) with (S (length B)) by lia.
        change (<[S (length B):=b]> (e :: B ++ e :: R)) with (e :: <[length B:=b]> (B ++ e :: R)).
        rewrite (insert_app_r_alt B), Nat.sub_diag by lia.
        change (<[0:=b]> (e :: R)) with (b :: R). by rewrite <- !app_assoc. }
      exists B'. split; [rewrite Hp; solve_Permutation|]. by rewrite Hrun, <- (app_assoc A [e] (zeros d R)).
Qed.

Lemma partitionByBit_ok l d : d < 248 -> Forall wf_entry l ->
  exists l' pivot, partitionByBit l (Z.of_nat d) = Ret (l', pivot) /\
    take pivot l' = zeros d l /\ drop pivot l' ≡ₚ ones d l.
Proof.
  intros Hd Hwf. destruct (partitionLoop_ok d [] [] l Hd Hwf) as (B' & Hp & Hrun). cbn [app] in *.
  do 2 eexists. split; [exact Hrun|]. rewrite take_app_length, drop_app_length. done.
Qed.

(** ** The trie as a function of the set of entries *)

Section Root.
Context `{HashLaws}.

Definition branch (l r : list Z) : list Z :=
  match l with [] => [] | b :: l => Blake2bHash ((Z.land b 127 :: l) ++ r) end.

Fixpoint trie (bits : nat) (l : list StateKeyVal) (d : nat) : list Z :=
  match l with
  | [] => zeroHash
  | [e] => EncodeLeafNodeHash (Key e) (Value e)
  | _ => match bits with
         | O => zeroHash
         | S bits => branch (trie bits (zeros d l) (S d)) (trie bits (ones d l) (S d))
         end
  end.

Lemma trie_perm bits l l' d : l ≡ₚ l' -> trie bits l d = trie bits l' d.
Proof.
  revert l l' d. induction bits as [|bits IH]; intros l l' d Hp.
  all: destruct l as [|e [|e1 l] ]; [by apply Permutation_nil_l in Hp as ->|by apply Permutation_singleton_l in Hp as ->|].
  all: destruct l' as [|e' [|e1' l'] ]; [by apply Permutation_length in Hp|by apply Permutation_length in Hp|].
  - done.
  - cbn [trie]. f_equal; apply IH; unfold zeros, ones; by rewrite Hp.
Qed.

Lemma trie_hash bits l d : is_hash (trie bits l d).
Proof.
  revert l d. induction bits as [|bits IH]; intros [|e [|e1 l] ] d; cbn [trie];
    try apply zeroHash_hash; try apply blake2b_hash.
  unfold branch. pose proof (IH (zeros d (e :: e1 :: l)) (S d)) as [Hl _].
  destruct (trie bits (zeros d (e :: e1 :: l)) (S d)); [done|]. apply blake2b_hash.
Qed.

Lemma encodeBranchNode_ok l r : is_hash l -> is_hash r ->
  exists node, encodeBranchNode l r = Ret node /\ Blake2bHash node = branch l r.
Proof.
  intros [Hl _] [Hr _]. destruct l as [|b l]; [done|]. cbn in Hl. injection Hl as Hl. unfold encodeBranchNode.
  change (zindex (b :: l) 0) with (Ret b). cbn [mbind go_bind].
  assert (lslice (b :: l) 1 (Z.of_nat (length (b :: l))) = Ret l) as ->.
  { unfold lslice. cbn [length]. rewrite Hl. change ((0 <=? 1)%Z && (1 <=? Z.of_nat 32)%Z && (Z.of_nat 32 <=? Z.of_nat 32)%Z) with true.
    cbv iota. f_equal. change (Z.to_nat (Z.of_nat 32 - 1)) with 31. change (Z.to_nat 1) with 1. cbn [drop].
    rewrite drop_0. apply take_ge. lia. }
  cbn [mbind go_bind]. eexists. split; [done|]. cbn [branch].
  rewrite !gcopy_full by (rewrite length_replicate; lia). done.
Qed.

(** The entries below a node agree on the bits above it. *)
Definition prefix_eq (d : nat) (l : list StateKeyVal) : Prop :=
  forall e e', e ∈ l -> e' ∈ l -> forall i, i < d -> key_bit (Key e) i = key_bit (Key e') i.

Definition distinct (l : list StateKeyVal) : Prop := NoDup (Key <$> l).

Lemma key_bits_inj k k' : length k = 31 -> length k' = 31 -> Forall is_byte k -> Forall is_byte k' ->
  (forall i, i < 248 -> key_bit k i = key_bit k' i) -> k = k'.
Proof.
  intros Hk Hk' Hb Hb' Hbits. apply list_eq_same_length with 31; [done|done|].
  intros i x y Hi Hx Hy. pose proof (proj1 (Forall_lookup _ _) Hb i x Hx) as Hbx.
  pose proof (proj1 (Forall_lookup _ _) Hb' i y Hy) as Hby. unfold is_byte in *.
  apply Z.bits_inj'. intros n Hn. destruct (Z.ltb_spec n 8) as [Hlt|Hge].
  - specialize (Hbits (8 * i + Z.to_nat (7 - n)) ltac:(lia)). unfold key_bit in Hbits.
    assert ((8 * i + Z.to_nat (7 - n)) / 8 = i) as Hdiv by (symmetry; apply Nat.div_unique with (Z.to_nat (7 - n)); lia).
    assert ((8 * i + Z.to_nat (7 - n)) mod 8 = Z.to_nat (7 - n)) as Hmod by (symmetry; apply Nat.mod_unique with i; lia).
    rewrite Hdiv, Hmod, Hx, Hy in Hbits. replace (7 - Z.of_nat (Z.to_nat (7 - n)))%Z with n in Hbits by lia. done.
  - assert (forall z, (0 <= z < 256)%Z -> Z.testbit z n = false) as Hz.
    { intros z Hz. destruct (decide (z = 0%Z)) as [->|]; [apply Z.bits_0|].
      apply Z.bits_above_log2; [lia|]. apply Z.lt_le_trans with 8%Z; [|done]. apply Z.log2_lt_pow2; lia. }
    by rewrite !Hz.
Qed.

Lemma one_entry l : Forall wf_entry l -> prefix_eq 248 l -> distinct l -> length l <= 1.
Proof.
  intros Hwf Hp Hd. destruct l as [|e [|e' l] ]; [cbn; lia|cbn; lia|]. exfalso.
  unfold distinct in Hd. cbn in Hd. apply NoDup_cons in Hd as [Hn _]. apply Hn.
  apply Forall_cons in Hwf as [ [H1 H2] Hwf]. apply Forall_cons in Hwf as [ [H1' H2'] _].
  assert (Key e = Key e') as ->; [|apply list_elem_of_here]. apply key_bits_inj; [done..|].
  intros i Hi. apply (Hp e e'); [apply list_elem_of_here|apply list_elem_of_further, list_elem_of_here|done].
Qed.

Lemma wf_filter (P : StateKeyVal -> Prop) `{forall e, Decision (P e)} l :
  Forall wf_entry l -> Forall wf_entry (filter P l).
Proof. intros Hl. apply Forall_forall. intros e [_ He]%list_elem_of_filter. by apply (proj1 (Forall_forall _ _) Hl). Qed.

Lemma distinct_perm l l' : l ≡ₚ l' -> distinct l -> distinct l'.
Proof. unfold distinct. by intros ->. Qed.

Lemma distinct_app l l' : distinct (l ++ l') -> distinct l /\ distinct l'.
Proof. unfold distinct. rewrite fmap_app. intros [? [_ ?] ]%NoDup_app. done. Qed.

Lemma prefix_zeros d l : prefix_eq d l -> prefix_eq (S d) (zeros d l).
Proof.
  intros Hp e e' [He Hl]%list_elem_of_filter [He' Hl']%list_elem_of_filter i Hi.
  destruct (decide (i = d)) as [->|]; [congruence|]. apply (Hp e e'); [done|done|lia].
Qed.
Lemma prefix_ones d l : prefix_eq d l -> prefix_eq (S d) (ones d l).
Proof.
  intros Hp e e' [He Hl]%list_elem_of_filter [He' Hl']%list_elem_of_filter i Hi.
  destruct (decide (i = d)) as [->|]; [congruence|]. apply (Hp e e'); [done|done|lia].
Qed.

(** The halves of a list of entries. *)
Lemma halves d l l' pivot : Forall wf_entry l -> take pivot l' = zeros d l -> drop pivot l' ≡ₚ ones d l ->
  l ≡ₚ zeros d l ++ drop pivot l' /\ Forall wf_entry (zeros d l) /\ Forall wf_entry (drop pivot l').
Proof.
  intros Hwf Hz Ho. split_and!.
  - rewrite Ho. apply zeros_ones.
  - by apply wf_filter.
  - rewrite Ho. by apply wf_filter.
Qed.

(** With distinct keys the in-place recursion computes the trie; with a
    repeated key it runs out of key bits. *)
Lemma merklizeAt_ok bits l d : bits + d = 248 -> Forall wf_entry l -> prefix_eq d l ->
  merklizeAt bits l (Z.of_nat d) =
    if decide (distinct l) then Ret (trie bits l d) else Crash.
Proof.
  revert l d. induction bits as [|bits IH]; intros l d Hbd Hwf Hp.
  - replace d with 248 in * by lia.
    destruct l as [|e [|e' l] ]; cbn [merklizeAt trie].
    + rewrite decide_True by apply NoDup_nil_2. done.
    + rewrite decide_True by apply NoDup_singleton. done.
    + rewrite decide_False; [done|]. intros Hd. apply one_entry in Hd; [cbn in Hd; lia|done|done].
  - destruct l as [|e0 [|e1 l0] ] eqn:El; cbn [merklizeAt trie].
    + rewrite decide_True by apply NoDup_nil_2. done.
    + rewrite decide_True by apply NoDup_singleton. done.
    + rewrite <- El in *. destruct (partitionByBit_ok l d ltac:(lia) Hwf) as (l' & pivot & -> & Hz & Ho).
      cbn [mbind go_bind]. rewrite Hz. destruct (halves d l l' pivot Hwf Hz Ho) as (Hl & Hwz & Hwo).
      replace (Z.of_nat d + 1)%Z with (Z.of_nat (S d)) by lia.
      assert (prefix_eq (S d) (drop pivot l')) as Hpo by (intros e e'; rewrite !Ho; apply (prefix_ones d l Hp)).
      rewrite (IH (zeros d l)), (IH (drop pivot l')) by (done || lia || by apply prefix_zeros).
      rewrite (trie_perm _ _ _ (S d) Ho).
      destruct (decide (distinct l)) as [Hd|Hd].
      * apply (distinct_perm _ _ Hl), distinct_app in Hd as [Hdz Hdo].
        rewrite !decide_True by done. cbn [mbind go_bind].
        destruct (encodeBranchNode_ok _ _ (trie_hash bits (zeros d l) (S d)) (trie_hash bits (ones d l) (S d))) as (node & -> & Hn).
        cbn [mbind go_bind]. by rewrite Hn.
      * destruct (decide (distinct (zeros d l))) as [Hdz|]; [|done]. cbn [mbind go_bind].
        rewrite decide_False; [done|]. intros Hdo. apply Hd. apply (distinct_perm (zeros d l ++ drop pivot l')); [done|].
        unfold distinct. rewrite fmap_app. apply NoDup_app. split_and!; [done| |done].
        intros k (e & -> & He)%list_elem_of_fmap (e' & Hk & He')%list_elem_of_fmap.
        rewrite Ho in He'. apply list_elem_of_filter in He as [He _]. apply list_elem_of_filter in He' as [He' _].
        congruence.
Qed.

(** The root of a state. *)
Definition state_root (l : list StateKeyVal) : list Z := trie 248 l 0.

Lemma prefix_eq_0 l : prefix_eq 0 l.
Proof. intros e e' _ _ i Hi. lia. Qed.

Lemma root_ok l : Forall wf_entry l ->
  MerklizationSerializedState l = if decide (distinct l) then Ret (state_root l) else Crash.
Proof.
  intros Hwf. unfold MerklizationSerializedState, merklize. change 0%Z with (Z.of_nat 0).
  change (Z.to_nat (248 - Z.of_nat 0)) with 248. apply merklizeAt_ok; [lia|done|apply prefix_eq_0].
Qed.

(** ** The cache *)

Definition blake_collision : Prop := exists x y, x <> y /\ Blake2bHash x = Blake2bHash y.

(** Every entry comes from a value of its key. *)
Definition cache_ok (c : KeyLevelCache) : Prop :=
  forall k e, c !! k = Some e ->
    exists v, valueHash e = Blake2bHash v /\ leafHash e = EncodeLeafNodeHash k v.

Lemma cache_ok_put c k v : cache_ok c ->
  cache_ok (PutLeafHash c k (Blake2bHash v) (EncodeLeafNodeHash k v)).
Proof.
  intros Hc k' e. unfold PutLeafHash. rewrite lookup_insert_Some.
  intros [ [<- <-] | [_ He] ]; [by exists v|by apply Hc].
Qed.

(** What the cache answers is the leaf hash of a value with the same hash. *)
Lemma cacheFn_ok cs c k v lh c' : cache_ok c -> cacheFn cs c k v = (lh, c') ->
  cache_ok c' /\ exists v', lh = EncodeLeafNodeHash k v' /\ Blake2bHash v' = Blake2bHash v.
Proof.
  intros Hc. unfold cacheFn, GetLeafHash.
  assert (cache_ok (PutLeafHash (if (EpochLength cs * 50 <=? Len c)%Z then Clear c else c) k
    (Blake2bHash v) (EncodeLeafNodeHash k v))) as Hput.
  { apply cache_ok_put. case_match; [by intros ??|done]. }
  destruct (c !! k) as [e|] eqn:E; [case_bool_decide as Hb|]; intros [= <- <-]; eauto.
  destruct (Hc k e E) as (v' & Hv & Hl). split; [done|]. exists v'. split; [done|congruence].
Qed.

Lemma withCache_ok cs bits l d c : bits + d = 248 -> Forall wf_entry l -> prefix_eq d l -> distinct l ->
  cache_ok c ->
  exists r c', merklizeWithCacheAt bits l (Z.of_nat d) (Some (cacheFn cs)) c = Ret (r, c') /\
    is_hash r /\ cache_ok c' /\ (r = trie bits l d \/ blake_collision).
Proof.
  assert (forall e c, cache_ok c -> exists r c', Ret (cacheFn cs c (Key e) (Value e)) = Ret (r, c') /\
    is_hash r /\ cache_ok c' /\ (r = EncodeLeafNodeHash (Key e) (Value e) \/ blake_collision)) as Hleaf.
  { intros e c0 Hc0. destruct (cacheFn cs c0 (Key e) (Value e)) as [lh c1] eqn:E.
    destruct (cacheFn_ok _ _ _ _ _ _ Hc0 E) as [Hc1 (v' & -> & Hv)]. do 2 eexists.
    split_and!; [done|apply blake2b_hash|done|]. destruct (decide (v' = Value e)) as [->|Hne]; [by left|].
    right. by exists v', (Value e). }
  revert l d c. induction bits as [|bits IH]; intros l d c Hbd Hwf Hp Hd Hc;
    (destruct l as [|e [|e' l0] ] eqn:El;
      [by exists zeroHash, c; split_and!; [|apply zeroHash_hash| |left]|by apply Hleaf|]); rewrite <- El in *.
  { replace d with 248 in * by lia. apply one_entry in Hd; [|done|done]. subst l. cbn in Hd. lia. }
  assert (forall b, merklizeWithCacheAt (S bits) l (Z.of_nat d) b c = p ← partitionByBit l (Z.of_nat d);
    let '(entries, pivot) := p in
    l ← merklizeWithCacheAt bits (take pivot entries) (Z.of_nat d + 1) b c;
    let '(leftHash, s) := l in
    r ← merklizeWithCacheAt bits (drop pivot entries) (Z.of_nat d + 1) b s;
    let '(rightHash, s) := r in
    node ← encodeBranchNode leftHash rightHash; Ret (Blake2bHash node, s)) as -> by (by rewrite El).
  assert (trie (S bits) l d = branch (trie bits (zeros d l) (S d)) (trie bits (ones d l) (S d))) as -> by (by rewrite El).
  clear El. destruct (partitionByBit_ok l d ltac:(lia) Hwf) as (l' & pivot & -> & Hz & Ho).
  cbn [mbind go_bind]. rewrite Hz. destruct (halves d l l' pivot Hwf Hz Ho) as (Hl & Hwz & Hwo).
  replace (Z.of_nat d + 1)%Z with (Z.of_nat (S d)) by lia.
  apply (distinct_perm _ _ Hl), distinct_app in Hd as [Hdz Hdo].
  destruct (IH (zeros d l) (S d) c) as (r1 & c1 & -> & Hr1 & Hc1 & He1); [lia|done|by apply prefix_zeros|done|done|].
  cbn [mbind go_bind].
  destruct (IH (drop pivot l') (S d) c1) as (r2 & c2 & -> & Hr2 & Hc2 & He2);
    [lia|done|intros x x'; rewrite !Ho; apply (prefix_ones d l Hp)|done|done|].
  cbn [mbind go_bind]. destruct (encodeBranchNode_ok r1 r2 Hr1 Hr2) as (node & -> & Hn).
  cbn [mbind go_bind]. do 2 eexists. split_and!; [done|apply blake2b_hash|done|].
  destruct He1 as [-> |]; [|by right]. destruct He2 as [-> |]; [|by right].
  left. by rewrite Hn, (trie_perm _ _ _ (S d) Ho).
Qed.

(** ** Binding *)

(** A hash without its top bit, which branch nodes drop. *)
Definition mask (x : list Z) : list Z := match x with [] => [] | b :: x => Z.land b 127 :: x end.

(** Among these inputs of the hash of two computations there are two, one of
    each, whose hashes agree up to the top bit, or there is one whose hash is
    zero up to the top bit. *)
Definition clash (I J : list (list Z)) : Prop :=
  Exists (fun x => Exists (fun y => x <> y /\ mask (Blake2bHash x) = mask (Blake2bHash y)) J) I \/
  Exists (fun x => mask (Blake2bHash x) = mask zeroHash) (I ++ J).
#[global] Instance clash_dec I J : Decision (clash I J).
Proof. unfold clash. apply _. Defined.

Lemma clash_intro I J x y : x ∈ I -> y ∈ J -> mask (Blake2bHash x) = mask (Blake2bHash y) -> x = y \/ clash I J.
Proof. intros Hx Hy He. destruct (decide (x = y)); [by left|right; left]. apply Exists_exists. exists x. split; [done|]. apply Exists_exists. by exists y. Qed.

Lemma clash_zero I J x : x ∈ I ++ J -> mask (Blake2bHash x) = mask zeroHash -> clash I J.
Proof. intros Hx He. right. apply Exists_exists. by exists x. Qed.

Lemma clash_mono I J I' J' : I ⊆ I' -> J ⊆ J' -> clash I J -> clash I' J'.
Proof.
  intros HI HJ [Hc|Hc]; [left|right].
  - apply Exists_exists in Hc as (x & Hx & Hc). apply Exists_exists. exists x. split; [by apply HI|].
    apply Exists_exists in Hc as (y & Hy & Hc). apply Exists_exists. exists y. by split; [apply HJ|].
  - apply Exists_exists in Hc as (x & Hx & Hc). apply Exists_exists. exists x. split; [|done].
    apply elem_of_app. apply elem_of_app in Hx as [Hx|Hx]; [left; by apply HI|right; by apply HJ].
Qed.

Definition leaf_node (e : StateKeyVal) : list Z := encodeLeafNode (Key e) (Value e).

Lemma leaf_node_eq e : wf_entry e ->
  leaf_node e =
    if (Z.of_nat (length (Value e)) <=? 32)%Z
    then (128 + Z.of_nat (length (Value e)))%Z :: Key e ++ Value e ++ replicate (32 - length (Value e)) 0%Z
    else 192%Z :: Key e ++ Blake2bHash (Value e).
Proof.
  intros [Hl _]. unfold leaf_node, encodeLeafNode. rewrite (gcopy_full _ (Key e)) by (by rewrite length_replicate).
  destruct (Z.leb_spec (Z.of_nat (length (Value e))) 32).
  - rewrite gcopy_fit by (rewrite length_replicate; lia). rewrite drop_replicate. f_equal.
    rewrite (uN_small 8) by lia.
    assert (forall n, (0 <= n <= 32)%Z -> Z.lor 128 n = (128 + n)%Z) as Hlor.
    { intros n Hn. rewrite <- Z.add_lor_land. assert (Z.land 128 n = 0%Z) as ->; [|lia].
      apply Z.bits_inj'. intros i Hi. rewrite Z.land_spec, Z.bits_0. change 128%Z with (2 ^ 7)%Z.
      rewrite Z.pow2_bits_eqb by lia. destruct (Z.eqb_spec 7 i) as [<-|]; [|done]. cbn [andb].
      destruct (decide (n = 0%Z)) as [->|]; [done|]. apply Z.bits_above_log2; [lia|]. apply Z.log2_lt_pow2; lia. }
    apply Hlor. lia.
  - destruct (blake2b_hash (Value e)) as [Hb _]. unfold Blake2bHash. by rewrite gcopy_full by (by rewrite length_replicate).
Qed.

(** The inputs of the hash for a leaf. *)
Definition leafInputs (e : StateKeyVal) : list (list Z) := leaf_node e :: if (Z.of_nat (length (Value e)) <=? 32)%Z then [] else [Value e].

Lemma leaf_binding e e' : wf_entry e -> wf_entry e' -> leaf_node e = leaf_node e' -> e = e' \/ clash (leafInputs e) (leafInputs e').
Proof.
  unfold leafInputs. intros He He'. rewrite !leaf_node_eq by done. destruct He as [Hk _], He' as [Hk' _].
  destruct e as [k v], e' as [k' v']. cbn in *.
  destruct (Z.leb_spec (Z.of_nat (length v)) 32), (Z.leb_spec (Z.of_nat (length v')) 32); intros Heq.
  - injection Heq as Hlen Heq. apply app_inj_1 in Heq as [-> Heq]; [|congruence].
    apply app_inj_1 in Heq as [-> _]; [by left|lia].
  - injection Heq as Hlen Heq. lia.
  - injection Heq as Hlen Heq. lia.
  - injection Heq as Heq. apply app_inj_1 in Heq as [-> Heq]; [|congruence].
    eapply (f_equal mask), clash_intro in Heq as [-> |Hc]; [by left|right; exact Hc|by right; left|by right; left].
Qed.

Definition branch_node (l r : list Z) : list Z := mask l ++ r.

(** Every root is zero, or the hash of a leaf or of a branch. *)
Lemma trie_leaf bits e d : trie bits [e] d = Blake2bHash (leaf_node e).
Proof. by destruct bits. Qed.

Lemma trie_branch bits l d : 1 < length l ->
  trie (S bits) l d = Blake2bHash (branch_node (trie bits (zeros d l) (S d)) (trie bits (ones d l) (S d))).
Proof.
  intros Hl. destruct l as [|e [|e' l] ]; [cbn in Hl; lia|cbn in Hl; lia|]. cbn [trie].
  pose proof (trie_hash bits (zeros d (e :: e' :: l)) (S d)) as [Hz _].
  unfold branch, branch_node, mask. by destruct (trie bits (zeros d (e :: e' :: l)) (S d)).
Qed.

Lemma leaf_branch e l r : wf_entry e -> is_hash l -> leaf_node e <> branch_node l r.
Proof.
  intros He [Hl Hb]. rewrite leaf_node_eq by done. destruct l as [|b l]; [done|].
  apply Forall_cons in Hb as [Hb _]. unfold is_byte in Hb. cbn.
  assert (0 <= Z.land b 127 < 128)%Z.
  { change 127%Z with (Z.ones 7). rewrite Z.land_ones by lia. apply Z.mod_pos_bound. lia. }
  destruct (Z.leb_spec (Z.of_nat (length (Value e))) 32); intros [= Heq _]; lia.
Qed.

Lemma branch_binding l r l' r' : is_hash l -> is_hash l' ->
  branch_node l r = branch_node l' r' -> mask l = mask l' /\ r = r'.
Proof.
  intros [Hl _] [Hl' _] He. destruct l as [|b l], l' as [|b' l']; try done.
  apply app_inj_1 in He; [done|]. cbn in *. congruence.
Qed.

(** The inputs of the hash in the trie of some entries: its nodes and the
    values that are hashed. *)
Fixpoint trieInputs (bits : nat) (l : list StateKeyVal) (d : nat) : list (list Z) :=
  match l with
  | [] => []
  | [e] => leafInputs e
  | _ => match bits with
         | O => []
         | S bits => branch_node (trie bits (zeros d l) (S d)) (trie bits (ones d l) (S d)) ::
             trieInputs bits (zeros d l) (S d) ++ trieInputs bits (ones d l) (S d)
         end
  end.

Lemma trieInputs_leaf bits e d : trieInputs bits [e] d = leafInputs e.
Proof. by destruct bits. Qed.

Lemma trieInputs_branch bits l d : 1 < length l -> trieInputs (S bits) l d =
  branch_node (trie bits (zeros d l) (S d)) (trie bits (ones d l) (S d)) ::
    trieInputs bits (zeros d l) (S d) ++ trieInputs bits (ones d l) (S d).
Proof. intros Hl. by destruct l as [|e [|e' l] ]; [cbn in Hl; lia|cbn in Hl; lia|]. Qed.

Abbreviation clashes bits l l' d := (clash (trieInputs bits l d) (trieInputs bits l' d)).

Lemma short_binding bits l l' d : length l <= 1 -> length l' <= 1 -> Forall wf_entry l -> Forall wf_entry l' ->
  mask (trie bits l d) = mask (trie bits l' d) -> l ≡ₚ l' \/ clashes bits l l' d.
Proof.
  intros Hl Hl' Hwf Hwf' He.
  destruct l as [|e [|? l] ]; [|clear Hl|cbn in Hl; lia];
  (destruct l' as [|e' [|? l'] ]; [|clear Hl'|cbn in Hl'; lia]);
    rewrite ?trie_leaf, ?trieInputs_leaf in *.
  - by left.
  - right. apply (clash_zero _ _ (leaf_node e')); [apply elem_of_app; right; by left|]. rewrite <- He. by destruct bits.
  - right. apply (clash_zero _ _ (leaf_node e)); [apply elem_of_app; left; by left|]. rewrite He. by destruct bits.
  - apply (clash_intro (leafInputs e) (leafInputs e')) in He as [He|]; [|by right|by left|by left].
    apply leaf_binding in He as [-> |]; [by left|by right|by inversion Hwf|by inversion Hwf'].
Qed.

Lemma long_short bits l l' d : 1 < length l -> length l' <= 1 -> Forall wf_entry l' ->
  mask (trie (S bits) l d) = mask (trie (S bits) l' d) -> clashes (S bits) l l' d /\ clashes (S bits) l' l d.
Proof.
  intros Hl Hl' Hwf He. rewrite trie_branch in He by done. rewrite trieInputs_branch by done.
  set (b := branch_node _ _) in *. set (rest := _ ++ _).
  destruct l' as [|e [|? l'] ]; [| |cbn in Hl'; lia].
  - split; (apply (clash_zero _ _ b); [|exact He]); apply elem_of_app; [left|right]; by left.
  - rewrite trie_leaf in He. rewrite trieInputs_leaf.
    assert (leaf_node e <> b) as Hn by (apply leaf_branch; [by inversion Hwf|apply trie_hash]).
    split; [eapply clash_intro in He as [He|Hc]; [congruence|exact Hc|by left|by left]|].
    symmetry in He. eapply clash_intro in He as [He|Hc]; [congruence|exact Hc|by left|by left].
Qed.

Lemma trie_binding bits l l' d : bits + d = 248 ->
  Forall wf_entry l -> Forall wf_entry l' -> prefix_eq d l -> prefix_eq d l' -> distinct l -> distinct l' ->
  mask (trie bits l d) = mask (trie bits l' d) -> l ≡ₚ l' \/ clashes bits l l' d.
Proof.
  revert l l' d. induction bits as [|bits IH]; intros l l' d Hbd Hwf Hwf' Hp Hp' Hd Hd' He.
  { replace d with 248 in * by lia. apply one_entry in Hd; [|done..]. apply one_entry in Hd'; [|done..].
    by apply short_binding. }
  destruct (decide (length l <= 1 /\ length l' <= 1)) as [ [Hl Hl'] |Hlong]; [by apply short_binding|].
  destruct (decide (length l <= 1)) as [Hl|Hl].
  { right. apply (long_short bits l' l d); [lia|done|done|by symmetry]. }
  destruct (decide (length l' <= 1)) as [Hl'|Hl'].
  { right. apply (long_short bits l l' d); [lia|done|done|done]. }
  rewrite !trie_branch in He by lia. rewrite !trieInputs_branch by lia.
  eapply clash_intro in He as [He|Hc]; [|right; exact Hc|by left|by left].
  apply branch_binding in He as [Hz Ho]; [|apply trie_hash..]. apply (f_equal mask) in Ho.
  pose proof (zeros_ones d l) as Hs. pose proof (zeros_ones d l') as Hs'.
  apply (distinct_perm _ _ Hs), distinct_app in Hd as [Hdz Hdo].
  apply (distinct_perm _ _ Hs'), distinct_app in Hd' as [Hdz' Hdo'].
  apply IH in Hz as [Hz|Hc]; [|right|lia|by apply wf_filter|by apply wf_filter|by apply prefix_zeros|by apply prefix_zeros|done|done].
  2: eapply clash_mono; [| |exact Hc]; intros x Hx; right; apply elem_of_app; by left.
  apply IH in Ho as [Ho|Hc]; [|right|lia|by apply wf_filter|by apply wf_filter|by apply prefix_ones|by apply prefix_ones|done|done].
  2: eapply clash_mono; [| |exact Hc]; intros x Hx; right; apply elem_of_app; by right.
  left. by rewrite Hs, Hs', Hz, Ho.
Qed.

(** What is hashed for the root of some entries. *)
Definition hashInputs (l : list StateKeyVal) : list (list Z) := trieInputs 248 l 0.

Lemma root_bits : exists b, b + 0 = 248 /\ (forall l, state_root l = trie b l 0) /\ forall l, hashInputs l = trieInputs b l 0.
Proof. exists 248. split_and!; [done|intros l; unfold state_root; reflexivity|intros l; unfold hashInputs; reflexivity]. Qed.

Lemma root_binding l l' : Forall wf_entry l -> Forall wf_entry l' -> distinct l -> distinct l' -> state_root l = state_root l' ->
  l ≡ₚ l' \/ clash (hashInputs l) (hashInputs l').
Proof.
  intros Hwf Hwf' Hd Hd' He. destruct root_bits as (b & Hb & Hr & Hi). rewrite !Hi. rewrite !Hr in He.
  apply (trie_binding b l l' 0 Hb Hwf Hwf' (prefix_eq_0 _) (prefix_eq_0 _) Hd Hd'). by rewrite He.
Qed.

End Root.

Lemma root_order `{HashLaws} l l' : Forall wf_entry l -> l ≡ₚ l' -> MerklizationSerializedState l' = MerklizationSerializedState l.
Proof.
  intros Hwf Hp.
  assert (Forall wf_entry l') as Hwf' by (by rewrite <- Hp).
  rewrite !root_ok by done. unfold state_root. rewrite (trie_perm 248 l l' 0 Hp).
  destruct (decide (distinct l)) as [Hd|Hd], (decide (distinct l')) as [Hd'|Hd']; try done.
  - exfalso. apply Hd'. by eapply distinct_perm.
  - exfalso. apply Hd. by eapply distinct_perm.
Qed.

(** ** Properties of the state root *)

(** The root of a serialized state is computed without a panic exactly
    when its keys are distinct; it is then the trie over the key bits, and
    does not depend on the order of the entries. *)
Theorem state_root_order `{HashLaws} l l' :
  Forall wf_entry l -> l ≡ₚ l' ->
  MerklizationSerializedState l = (if decide (distinct l) then Ret (state_root l) else Crash) /\
  MerklizationSerializedState l' = MerklizationSerializedState l.
Proof. intros Hwf Hp. split; [by apply root_ok|by apply root_order]. Qed.

(** C32: The state root is binding: two states with the same root have the
    same entries, if among what is hashed for the two roots, the nodes of
    their tries and the values over 32 octets, no two inputs have hashes that
    agree up to the bit that branch nodes drop, and no hash is zero up to
    it. *)
Theorem state_root_binding `{HashLaws} l l' r :
  Forall wf_entry l -> Forall wf_entry l' -> ~ clash (hashInputs l) (hashInputs l') ->
  MerklizationSerializedState l = Ret r -> MerklizationSerializedState l' = Ret r -> l ≡ₚ l'.
Proof.
  intros Hwf Hwf' Hn. rewrite !root_ok by done.
  destruct (decide (distinct l)) as [Hd|]; [|done]. destruct (decide (distinct l')) as [Hd'|]; [|done].
  intros [= <-] [= He]. symmetry in He. by destruct (root_binding l l' Hwf Hwf' Hd Hd' He).
Qed.

(** The cache of leaf hashes does not change the state root: from a
    cache whose entries are leaf hashes of values of their keys the cached
    computation gives the same root and such a cache again, unless two
    values have the same hash. *)
Theorem cached_root_agrees cs `{HashLaws} c l r :
  Forall wf_entry l -> cache_ok c -> MerklizationSerializedState l = Ret r ->
  exists r' c', ComputeStateRootWithCache cs c l = Ret (r', c') /\ cache_ok c' /\
    (r' = r \/ blake_collision).
Proof.
  intros Hwf Hc. rewrite root_ok by done. destruct (decide (distinct l)) as [Hd|]; [|done]. intros [= <-].
  destruct (withCache_ok cs 248 l 0 c) as (r' & c' & Hrun & _ & Hc' & He); [lia|done|apply prefix_eq_0|done|done|].
  exists r', c'. split_and!; [|done|done]. exact Hrun.
Qed.

(** ** State keys *)

Lemma encodeServiceID_bytes s : (0 <= s < 2 ^ 32)%Z -> exists a b c d, encodeServiceID s = [a; b; c; d] /\
  le_val [a; b; c; d] = s.
Proof.
  intros Hs. unfold encodeServiceID, EncodeUintWithLength. change (4 =? 0)%Z with false. cbv iota.
  rewrite leLoop_le_bytes. change (Z.of_nat (Z.to_nat 4)) with 4%Z.
  assert (length (le_bytes 4 s) = 4) as Hl by (apply (Nat2Z.inj _ 4); unfold le_bytes; rewrite length_Z_to_little_endian; lia).
  pose proof (le_val_bytes 4 s ltac:(lia)) as Hv. rewrite Z.mod_small in Hv by lia.
  destruct (le_bytes 4 s) as [|a [|b [|c [|d [|? ?] ] ] ] ]; try done. eauto 10.
Qed.

Lemma type2_decode i a b c d :
  DecodeServiceIDFromType2 (setLoop [a; b; c; d] 1 2 (<[0 := i]> zeroKey)) = Ret (le_val [a; b; c; d]).
Proof. reflexivity. Qed.

Lemma setLoop_length n i0 st o : length (setLoop n i0 st o) = length o.
Proof. revert i0 o. induction n as [|b n IH]; intros; [done|]. cbn. by rewrite IH, length_insert. Qed.

Lemma setLoop_low n i0 o j : j < i0 -> setLoop n i0 1 o !! j = o !! j.
Proof.
  revert i0 o. induction n as [|y n IH]; intros i0 o Hj; [done|]. cbn.
  rewrite IH by lia. apply list_lookup_insert_ne. lia.
Qed.

Lemma type3_decode n a b c d x0 x1 x2 x3 :
  DecodeServiceIDFromType3 (setLoop n 8 1 (setLoop [x0; x1; x2; x3] 1 2 (setLoop [a; b; c; d] 0 2 zeroKey))) =
    Ret (le_val [a; b; c; d]).
Proof.
  set (o := setLoop [x0; x1; x2; x3] 1 2 (setLoop [a; b; c; d] 0 2 zeroKey)).
  assert (forall k, (0 <= k < 8)%Z -> zindex (setLoop n 8 1 o) k = zindex o k) as Hz.
  { intros k Hk. unfold zindex, zlookup. destruct (k <? 0)%Z; [done|]. by rewrite setLoop_low by lia. }
  unfold DecodeServiceIDFromType3. rewrite !Hz by lia. reflexivity.
Qed.

Lemma ServiceWrapper_key `{HashLaws} s h : (0 <= s < 2 ^ 32)%Z ->
  exists k, ServiceWrapper_StateKeyConstruct s h = Ret k /\ length k = 31 /\
    DecodeServiceIDFromType3 k = Ret s.
Proof.
  intros Hs. destruct (encodeServiceID_bytes s Hs) as (a & b & c & d & E & Hv).
  unfold ServiceWrapper_StateKeyConstruct, Blake2bHashPartial. rewrite E. destruct (blake2b_hash h) as [Hl _].
  set (x := blake2b_Sum256 h) in *. clearbody x.
  assert (lslice x 0 27 = Ret (take 27 x)) as -> by (unfold lslice; rewrite Hl; done).
  cbn [mbind go_bind]. destruct x as [|x0 [|x1 [|x2 [|x3 x] ] ] ]; try done.
  eexists. split; [reflexivity|]. split; [by rewrite !setLoop_length|]. rewrite <- Hv. apply type3_decode.
Qed.

(** State keys are well formed and determine what they are made from:
    keys of components and of service records with different arguments
    differ, and the service index is recovered from the keys of the service
    records (type 2) and of the service dictionaries (type 3). *)
Theorem state_keys_decode `{HashLaws} i i' s s' h :
  (0 <= i < 255)%Z -> (0 <= i' < 255)%Z -> (0 <= s < 2 ^ 32)%Z -> (0 <= s' < 2 ^ 32)%Z ->
  (C i = C i' -> i = i') /\
  C i <> StateServiceWrapper_StateKeyConstruct 255 s /\
  (StateServiceWrapper_StateKeyConstruct 255 s = StateServiceWrapper_StateKeyConstruct 255 s' -> s = s') /\
  DecodeServiceIDFromType2 (StateServiceWrapper_StateKeyConstruct 255 s) = Ret s /\
  exists k, ServiceWrapper_StateKeyConstruct s h = Ret k /\ length k = 31 /\
    DecodeServiceIDFromType3 k = Ret s.
Proof.
  intros Hi Hi' Hs Hs'. destruct (encodeServiceID_bytes s Hs) as (a & b & c & d & E & Hv).
  destruct (encodeServiceID_bytes s' Hs') as (a' & b' & c' & d' & E' & Hv').
  unfold C, StateWrapper_StateKeyConstruct, StateServiceWrapper_StateKeyConstruct.
  rewrite E, E'. split_and!.
  - intros [= He]. done.
  - intros [= He]. lia.
  - intros [= -> -> -> ->]. congruence.
  - rewrite <- Hv. apply type2_decode.
  - by apply ServiceWrapper_key.
Qed.
