(* ===== verification/Crypto.v ===== *)
(** * Signatures and verifiable random functions

    The signature checks the node makes are calls of libraries: Ed25519 of
    github.com/hdevalence/ed25519consensus, and the Bandersnatch ring and
    plain VRFs of a submodule (pkg/Rust-VRF).  Classes give them, so that a
    theorem holds for every implementation.  The context strings are those
    of src/internal/types/const.go. *)

From Stdlib Require Import Ascii.
From S2P Require Import Prelude Words Types Config Codec Encode.
Local Open Scope Z_scope.

Class Ed25519 := {
  (** public key, message, signature *)
  ed25519_Verify : Bytes -> Bytes -> Bytes -> bool
}.

(** What a ring verifier is made of: the concatenated keys and their number. *)
Record Verifier := MkVerifier { vf_Ring : Bytes; vf_RingSize : Z }.

(** Context, message and signature. *)
Record VerifyItem := MkVerifyItem { vi_Context : Bytes; vi_Message : Bytes; vi_Signature : Bytes }.

(** The methods are given for the nil pointer too; [None] is an error. *)
Class VRF := {
  vrf_NewVerifier_ok : Verifier -> bool;
  vrf_GetCommitment : option Verifier -> go (option Bytes);
  vrf_RingVerifyBatch : option Verifier -> list VerifyItem -> go (option (list (option Bytes)));
  vrf_VRFIetfOutput : Bytes -> option Bytes;
  (** context, message, signature, key *)
  vrf_IETFVerify : Bytes -> Bytes -> Bytes -> Bytes -> option Bytes
}.

Definition vrf_NewVerifier `{VRF} (ring : Bytes) (ringSize : Z) : option Verifier :=
  let v := MkVerifier ring ringSize in if vrf_NewVerifier_ok v then Some v else None.

(** What the node relies on: a verifier can be made of keys of the right size,
    and a commitment and the outputs have the sizes of their types; the
    results of a batch are those of its items. *)
Class VRFLaws `{VRF} : Prop := {
  vrf_NewVerifier_law v : lenOf (vf_Ring v) = 32 * vf_RingSize v -> vrf_NewVerifier_ok v = true;
  vrf_GetCommitment_law v : exists o, vrf_GetCommitment (Some v) = Ret o /\ forall c, o = Some c -> length c = 144%nat;
  vrf_RingVerifyBatch_law v items : exists o, vrf_RingVerifyBatch (Some v) items = Ret o /\
    forall results, o = Some results ->
      length results = length items /\ Forall (fun r => forall output, r = Some output -> length output = 32%nat) results
}.

(** [[]byte(s)] *)
Definition bytes_of_string (s : string) : Bytes := (fun c => Z.of_nat (nat_of_ascii c)) <$> String.list_ascii_of_string s.

Definition JamEntropy : Bytes := bytes_of_string "jam_entropy".
Definition JamFallbackSeal : Bytes := bytes_of_string "jam_fallback_seal".
Definition JamTicketSeal : Bytes := bytes_of_string "jam_ticket_seal".
Definition JamValid : Bytes := bytes_of_string "jam_valid".
Definition JamInvalid : Bytes := bytes_of_string "jam_invalid".
Definition JamAvailable : Bytes := bytes_of_string "jam_available".
Definition JamGuarantee : Bytes := bytes_of_string "jam_guarantee".

(** ** The first error of a loop *)

Fixpoint firstErr {A E} (f : A -> option E) (l : list A) : option E :=
  match l with
  | [] => None
  | x :: l => match f x with Some e => Some e | None => firstErr f l end
  end.

Fixpoint firstErrGo {A E} (f : A -> go (option E)) (l : list A) : go (option E) :=
  match l with
  | [] => Ret None
  | x :: l => e ← f x; match e with Some e => Ret (Some e) | None => firstErrGo f l end
  end.

(** [if err := a; err != nil { return err }; b] *)
Definition orElse {E} (a b : option E) : option E := match a with Some e => Some e | None => b end.

(** [bytes.Compare(a, b) > 0] *)
Definition bytesGt (a b : Bytes) : bool := negb (bool_decide (bytesLe a b)).

(** Whether some element and the next one satisfy [p]. *)
Fixpoint existsAdjacent {A} (p : A -> A -> bool) (l : list A) : bool :=
  match l with
  | x :: (y :: _) as l => p x y || existsAdjacent p l
  | _ => false
  end.

Lemma orElse_None {E} (a b : option E) : orElse a b = None <-> a = None /\ b = None.
Proof. destruct a; cbn; firstorder congruence. Qed.

Lemma if_None {E} (b : bool) (e : E) : (if b then Some e else None) = None <-> b = false.
Proof. by destruct b. Qed.

Lemma if_None' {E} (b : bool) (e : E) : (if b then None else Some e) = None <-> b = true.
Proof. by destruct b. Qed.

Lemma firstErr_None {A E} (f : A -> option E) l : firstErr f l = None <-> Forall (fun x => f x = None) l.
Proof.
  induction l as [|x l IH]; cbn; [by split; [constructor|]|]. rewrite Forall_cons, <- IH. destruct (f x); firstorder congruence.
Qed.

Lemma firstErrGo_None {A E} (f : A -> go (option E)) l :
  firstErrGo f l = Ret None <-> Forall (fun x => f x = Ret None) l.
Proof.
  induction l as [|x l IH]; cbn; [by split; [constructor|]|]. rewrite Forall_cons, <- IH.
  destruct (f x) as [[]|]; cbn; firstorder congruence.
Qed.

(** The loop does not panic if its body does not. *)
Lemma firstErrGo_total {A E} (f : A -> go (option E)) l :
  Forall (fun x => exists e, f x = Ret e) l -> exists e, firstErrGo f l = Ret e.
Proof.
  induction l as [|x l IH]; cbn; [by eexists|]. intros [[e He] Hl]%Forall_cons. rewrite He. cbn.
  destruct e; [by eexists|by apply IH].
Qed.
