(* ===== verification/Store.v ===== *)
(** * The chain state

    The global store of src/internal/blockchain: the state before the block,
    the state after it, the intermediate states of the transition and the
    block being imported (chain_state.go, prior_state.go, posterior_state.go,
    intermediate_state.go).  The components of the state transition read and
    write it; a component is a function from store to store here.  Locks are
    not modelled: each getter and setter holds its own.

    A getter returns a slice or a map that shares its memory with the store;
    a component that writes through it changes the store, and its model says
    so. *)

From S2P Require Import Prelude Types Config Crypto.
Local Open Scope Z_scope.

(** ** Writing a field of a state *)

Definition SetAlpha (v : list AuthPool) (s : State) : State :=
  MkState v (s_Varphi s) (s_Beta s) (s_Gamma s) (s_Psi s) (s_Eta s) (s_Iota s) (s_Kappa s) (s_Lambda s) (s_Rho s)
    (s_Tau s) (s_Chi s) (s_Pi s) (s_Vartheta s) (s_Theta s) (s_Xi s) (s_Delta s).

Definition SetVarphi (v : list (list Bytes)) (s : State) : State :=
  MkState (s_Alpha s) v (s_Beta s) (s_Gamma s) (s_Psi s) (s_Eta s) (s_Iota s) (s_Kappa s) (s_Lambda s) (s_Rho s)
    (s_Tau s) (s_Chi s) (s_Pi s) (s_Vartheta s) (s_Theta s) (s_Xi s) (s_Delta s).

Definition SetBeta (v : RecentBlocks) (s : State) : State :=
  MkState (s_Alpha s) (s_Varphi s) v (s_Gamma s) (s_Psi s) (s_Eta s) (s_Iota s) (s_Kappa s) (s_Lambda s) (s_Rho s)
    (s_Tau s) (s_Chi s) (s_Pi s) (s_Vartheta s) (s_Theta s) (s_Xi s) (s_Delta s).

Definition SetGamma (v : SafroleState) (s : State) : State :=
  MkState (s_Alpha s) (s_Varphi s) (s_Beta s) v (s_Psi s) (s_Eta s) (s_Iota s) (s_Kappa s) (s_Lambda s) (s_Rho s)
    (s_Tau s) (s_Chi s) (s_Pi s) (s_Vartheta s) (s_Theta s) (s_Xi s) (s_Delta s).

Definition SetPsi (v : DisputesRecords) (s : State) : State :=
  MkState (s_Alpha s) (s_Varphi s) (s_Beta s) (s_Gamma s) v (s_Eta s) (s_Iota s) (s_Kappa s) (s_Lambda s)
    (s_Rho s) (s_Tau s) (s_Chi s) (s_Pi s) (s_Vartheta s) (s_Theta s) (s_Xi s) (s_Delta s).

Definition SetEta (v : list Bytes) (s : State) : State :=
  MkState (s_Alpha s) (s_Varphi s) (s_Beta s) (s_Gamma s) (s_Psi s) v (s_Iota s) (s_Kappa s) (s_Lambda s)
    (s_Rho s) (s_Tau s) (s_Chi s) (s_Pi s) (s_Vartheta s) (s_Theta s) (s_Xi s) (s_Delta s).

Definition SetIota (v : list Validator) (s : State) : State :=
  MkState (s_Alpha s) (s_Varphi s) (s_Beta s) (s_Gamma s) (s_Psi s) (s_Eta s) v (s_Kappa s) (s_Lambda s) (s_Rho s)
    (s_Tau s) (s_Chi s) (s_Pi s) (s_Vartheta s) (s_Theta s) (s_Xi s) (s_Delta s).

Definition SetKappa (v : list Validator) (s : State) : State :=
  MkState (s_Alpha s) (s_Varphi s) (s_Beta s) (s_Gamma s) (s_Psi s) (s_Eta s) (s_Iota s) v (s_Lambda s) (s_Rho s)
    (s_Tau s) (s_Chi s) (s_Pi s) (s_Vartheta s) (s_Theta s) (s_Xi s) (s_Delta s).

Definition SetLambda (v : list Validator) (s : State) : State :=
  MkState (s_Alpha s) (s_Varphi s) (s_Beta s) (s_Gamma s) (s_Psi s) (s_Eta s) (s_Iota s) (s_Kappa s) v (s_Rho s)
    (s_Tau s) (s_Chi s) (s_Pi s) (s_Vartheta s) (s_Theta s) (s_Xi s) (s_Delta s).

Definition SetRho (v : list (option AvailabilityAssignment)) (s : State) : State :=
  MkState (s_Alpha s) (s_Varphi s) (s_Beta s) (s_Gamma s) (s_Psi s) (s_Eta s) (s_Iota s) (s_Kappa s)
    (s_Lambda s) v (s_Tau s) (s_Chi s) (s_Pi s) (s_Vartheta s) (s_Theta s) (s_Xi s) (s_Delta s).

Definition SetTau (v : Z) (s : State) : State :=
  MkState (s_Alpha s) (s_Varphi s) (s_Beta s) (s_Gamma s) (s_Psi s) (s_Eta s) (s_Iota s) (s_Kappa s) (s_Lambda s)
    (s_Rho s) v (s_Chi s) (s_Pi s) (s_Vartheta s) (s_Theta s) (s_Xi s) (s_Delta s).

Definition SetChi (v : Privileges) (s : State) : State :=
  MkState (s_Alpha s) (s_Varphi s) (s_Beta s) (s_Gamma s) (s_Psi s) (s_Eta s) (s_Iota s) (s_Kappa s) (s_Lambda s)
    (s_Rho s) (s_Tau s) v (s_Pi s) (s_Vartheta s) (s_Theta s) (s_Xi s) (s_Delta s).

Definition SetPi (v : Statistics) (s : State) : State :=
  MkState (s_Alpha s) (s_Varphi s) (s_Beta s) (s_Gamma s) (s_Psi s) (s_Eta s) (s_Iota s) (s_Kappa s) (s_Lambda s)
    (s_Rho s) (s_Tau s) (s_Chi s) v (s_Vartheta s) (s_Theta s) (s_Xi s) (s_Delta s).

Definition SetVartheta (v : list ReadyQueueItem) (s : State) : State :=
  MkState (s_Alpha s) (s_Varphi s) (s_Beta s) (s_Gamma s) (s_Psi s) (s_Eta s) (s_Iota s) (s_Kappa s) (s_Lambda s)
    (s_Rho s) (s_Tau s) (s_Chi s) (s_Pi s) v (s_Theta s) (s_Xi s) (s_Delta s).

Definition SetTheta (v : list AccumulatedServiceHash) (s : State) : State :=
  MkState (s_Alpha s) (s_Varphi s) (s_Beta s) (s_Gamma s) (s_Psi s) (s_Eta s) (s_Iota s) (s_Kappa s) (s_Lambda s)
    (s_Rho s) (s_Tau s) (s_Chi s) (s_Pi s) (s_Vartheta s) v (s_Xi s) (s_Delta s).

Definition SetXi (v : list AccumulatedQueueItem) (s : State) : State :=
  MkState (s_Alpha s) (s_Varphi s) (s_Beta s) (s_Gamma s) (s_Psi s) (s_Eta s) (s_Iota s) (s_Kappa s) (s_Lambda s)
    (s_Rho s) (s_Tau s) (s_Chi s) (s_Pi s) (s_Vartheta s) (s_Theta s) v (s_Delta s).

Definition SetDelta (v : ServiceAccountState) (s : State) : State :=
  MkState (s_Alpha s) (s_Varphi s) (s_Beta s) (s_Gamma s) (s_Psi s) (s_Eta s) (s_Iota s) (s_Kappa s) (s_Lambda s)
    (s_Rho s) (s_Tau s) (s_Chi s) (s_Pi s) (s_Vartheta s) (s_Theta s) (s_Xi s) v.

Definition SetGammaK (v : list Validator) (s : State) : State :=
  SetGamma (MkSafroleState v (sf_GammaZ (s_Gamma s)) (sf_GammaS (s_Gamma s)) (sf_GammaA (s_Gamma s))) s.

(** ** Intermediate states *)

Record IntermediateState := MkIntermediate {
  BetaHDagger : list BlockInfo;
  RhoDagger : list (option AvailabilityAssignment);
  RhoDoubleDagger : list (option AvailabilityAssignment);
  DeltaDagger : ServiceAccountState;
  DeltaDoubleDagger : ServiceAccountState;
  AvailableWorkReports : list WorkReport;
  PresentWorkReports : list WorkReport;
  AccumulatedWorkReports : list WorkReport;
  QueuedWorkReports : ReadyQueueItem;
  AccumulatableWorkReports : list WorkReport;
  AccumulationStatistics : gmap Z GasAndNumAccumulatedReports;
  MmrCommitment : Bytes }.

Definition SetBetaHDagger (v : list BlockInfo) (s : IntermediateState) : IntermediateState :=
  MkIntermediate v (RhoDagger s) (RhoDoubleDagger s) (DeltaDagger s) (DeltaDoubleDagger s)
    (AvailableWorkReports s) (PresentWorkReports s) (AccumulatedWorkReports s) (QueuedWorkReports s)
    (AccumulatableWorkReports s) (AccumulationStatistics s) (MmrCommitment s).

Definition SetRhoDagger (v : list (option AvailabilityAssignment)) (s : IntermediateState) : IntermediateState :=
  MkIntermediate (BetaHDagger s) v (RhoDoubleDagger s) (DeltaDagger s) (DeltaDoubleDagger s)
    (AvailableWorkReports s) (PresentWorkReports s) (AccumulatedWorkReports s) (QueuedWorkReports s)
    (AccumulatableWorkReports s) (AccumulationStatistics s) (MmrCommitment s).

Definition SetRhoDoubleDagger (v : list (option AvailabilityAssignment))
    (s : IntermediateState) : IntermediateState :=
  MkIntermediate (BetaHDagger s) (RhoDagger s) v (DeltaDagger s) (DeltaDoubleDagger s) (AvailableWorkReports s)
    (PresentWorkReports s) (AccumulatedWorkReports s) (QueuedWorkReports s) (AccumulatableWorkReports s)
    (AccumulationStatistics s) (MmrCommitment s).

Definition SetDeltaDagger (v : ServiceAccountState) (s : IntermediateState) : IntermediateState :=
  MkIntermediate (BetaHDagger s) (RhoDagger s) (RhoDoubleDagger s) v (DeltaDoubleDagger s)
    (AvailableWorkReports s) (PresentWorkReports s) (AccumulatedWorkReports s) (QueuedWorkReports s)
    (AccumulatableWorkReports s) (AccumulationStatistics s) (MmrCommitment s).

Definition SetDeltaDoubleDagger (v : ServiceAccountState) (s : IntermediateState) : IntermediateState :=
  MkIntermediate (BetaHDagger s) (RhoDagger s) (RhoDoubleDagger s) (DeltaDagger s) v (AvailableWorkReports s)
    (PresentWorkReports s) (AccumulatedWorkReports s) (QueuedWorkReports s) (AccumulatableWorkReports s)
    (AccumulationStatistics s) (MmrCommitment s).

Definition SetAvailableWorkReports (v : list WorkReport) (s : IntermediateState) : IntermediateState :=
  MkIntermediate (BetaHDagger s) (RhoDagger s) (RhoDoubleDagger s) (DeltaDagger s) (DeltaDoubleDagger s) v
    (PresentWorkReports s) (AccumulatedWorkReports s) (QueuedWorkReports s) (AccumulatableWorkReports s)
    (AccumulationStatistics s) (MmrCommitment s).

Definition SetPresentWorkReports (v : list WorkReport) (s : IntermediateState) : IntermediateState :=
  MkIntermediate (BetaHDagger s) (RhoDagger s) (RhoDoubleDagger s) (DeltaDagger s) (DeltaDoubleDagger s)
    (AvailableWorkReports s) v (AccumulatedWorkReports s) (QueuedWorkReports s) (AccumulatableWorkReports s)
    (AccumulationStatistics s) (MmrCommitment s).

Definition SetAccumulatedWorkReports (v : list WorkReport) (s : IntermediateState) : IntermediateState :=
  MkIntermediate (BetaHDagger s) (RhoDagger s) (RhoDoubleDagger s) (DeltaDagger s) (DeltaDoubleDagger s)
    (AvailableWorkReports s) (PresentWorkReports s) v (QueuedWorkReports s) (AccumulatableWorkReports s)
    (AccumulationStatistics s) (MmrCommitment s).

Definition SetQueuedWorkReports (v : ReadyQueueItem) (s : IntermediateState) : IntermediateState :=
  MkIntermediate (BetaHDagger s) (RhoDagger s) (RhoDoubleDagger s) (DeltaDagger s) (DeltaDoubleDagger s)
    (AvailableWorkReports s) (PresentWorkReports s) (AccumulatedWorkReports s) v (AccumulatableWorkReports s)
    (AccumulationStatistics s) (MmrCommitment s).

Definition SetAccumulatableWorkReports (v : list WorkReport) (s : IntermediateState) : IntermediateState :=
  MkIntermediate (BetaHDagger s) (RhoDagger s) (RhoDoubleDagger s) (DeltaDagger s) (DeltaDoubleDagger s)
    (AvailableWorkReports s) (PresentWorkReports s) (AccumulatedWorkReports s) (QueuedWorkReports s) v
    (AccumulationStatistics s) (MmrCommitment s).

Definition SetAccumulationStatistics (v : gmap Z GasAndNumAccumulatedReports)
    (s : IntermediateState) : IntermediateState :=
  MkIntermediate (BetaHDagger s) (RhoDagger s) (RhoDoubleDagger s) (DeltaDagger s) (DeltaDoubleDagger s)
    (AvailableWorkReports s) (PresentWorkReports s) (AccumulatedWorkReports s) (QueuedWorkReports s)
    (AccumulatableWorkReports s) v (MmrCommitment s).

Definition SetMmrCommitment (v : Bytes) (s : IntermediateState) : IntermediateState :=
  MkIntermediate (BetaHDagger s) (RhoDagger s) (RhoDoubleDagger s) (DeltaDagger s) (DeltaDoubleDagger s)
    (AvailableWorkReports s) (PresentWorkReports s) (AccumulatedWorkReports s) (QueuedWorkReports s)
    (AccumulatableWorkReports s) (AccumulationStatistics s) v.

(** ** Shared slices and maps

    A state holds slices and maps, and copying one copies the references: a
    write to the elements of a slice, or to a map, is seen by all that hold
    it. Three kinds of them are written while others hold them: the
    assignments of the cores, the validator sets, and the maps of accounts.
    (The current statistics are the slice of the prior state within an
    epoch, Statistics.v, and the accumulated ranges that of the history,
    RecentHistory.v; both are written where they are shared.)

    The arrays of the four validator sets of a state, by number; equal
    numbers are one array. *)
Record ValidatorArrays := MkValidatorArrays { va_GammaK : nat; va_Iota : nat; va_Kappa : nat; va_Lambda : nat }.

(** The arrays of the prior and of the posterior state, the number of the
    next new one, and the services whose maps of preimages and requests are,
    in the accounts that the accumulation works on, those of the prior
    accounts. *)
Record Sharing := MkSharing {
  priorArrays : ValidatorArrays;
  posteriorArrays : ValidatorArrays;
  nextArray : nat;
  carriedAccounts : gset Z }.

Definition SetPriorArrays (a : ValidatorArrays) (sh : Sharing) : Sharing :=
  MkSharing a (posteriorArrays sh) (nextArray sh) (carriedAccounts sh).
Definition SetPosteriorArrays (a : ValidatorArrays) (sh : Sharing) : Sharing :=
  MkSharing (priorArrays sh) a (nextArray sh) (carriedAccounts sh).
Definition SetCarriedAccounts (c : gset Z) (sh : Sharing) : Sharing :=
  MkSharing (priorArrays sh) (posteriorArrays sh) (nextArray sh) c.

(** Arrays of a state that shares none. *)
Definition newArrays (next : nat) : ValidatorArrays := MkValidatorArrays next (S next) (S (S next)) (S (S (S next))).
Definition nextArrays (next : nat) : nat := S (S (S (S next))).

(** The [nil] slices of a new posterior state: there is nothing to write. *)
Definition nilArrays : ValidatorArrays := MkValidatorArrays 0 0 0 0.
Definition noSharing : Sharing := MkSharing nilArrays nilArrays 1 ∅.

(** ** The store

    [priorRhoShared] and [posteriorRhoShared] say whether the assignments of
    the two states are the array of the intermediate [RhoDoubleDagger]: the
    posterior ones are once the guarantees are processed, and the prior state
    of the next block takes it over. *)
Record ChainState := MkChainState {
  priorStates : State;
  posteriorStates : State;
  intermediateStates : IntermediateState;
  latestBlock : Block;
  processingBlock : Block;
  preStateUnmatchedKeyVals : list StateKeyVal;
  postStateUnmatchedKeyVals : list StateKeyVal;
  ancestry : list AncestryItem;
  verifierCache : option (Z * Verifier);
  priorRhoShared : bool;
  posteriorRhoShared : bool;
  sharing : Sharing }.

(** Writing to the prior, the posterior and the intermediate states. *)
Definition onPrior (f : State -> State) (cs : ChainState) : ChainState :=
  MkChainState (f (priorStates cs)) (posteriorStates cs) (intermediateStates cs) (latestBlock cs) (processingBlock
    cs) (preStateUnmatchedKeyVals cs) (postStateUnmatchedKeyVals cs) (ancestry cs) (verifierCache cs)
    (priorRhoShared cs) (posteriorRhoShared cs) (sharing cs).

Definition onPosterior (f : State -> State) (cs : ChainState) : ChainState :=
  MkChainState (priorStates cs) (f (posteriorStates cs)) (intermediateStates cs) (latestBlock cs) (processingBlock
    cs) (preStateUnmatchedKeyVals cs) (postStateUnmatchedKeyVals cs) (ancestry cs) (verifierCache cs)
    (priorRhoShared cs) (posteriorRhoShared cs) (sharing cs).

Definition onIntermediate (f : IntermediateState -> IntermediateState) (cs : ChainState) : ChainState :=
  MkChainState (priorStates cs) (posteriorStates cs) (f (intermediateStates cs)) (latestBlock cs) (processingBlock
    cs) (preStateUnmatchedKeyVals cs) (postStateUnmatchedKeyVals cs) (ancestry cs) (verifierCache cs)
    (priorRhoShared cs) (posteriorRhoShared cs) (sharing cs).

Definition onProcessing (f : Header -> Header) (cs : ChainState) : ChainState :=
  MkChainState (priorStates cs) (posteriorStates cs) (intermediateStates cs) (latestBlock cs) (MkBlock (f
    (b_Header (processingBlock cs))) (b_Extrinsic (processingBlock cs))) (preStateUnmatchedKeyVals cs)
    (postStateUnmatchedKeyVals cs) (ancestry cs) (verifierCache cs) (priorRhoShared cs) (posteriorRhoShared cs) (sharing cs).

Definition SetPostStateUnmatchedKeyVals (v : list StateKeyVal) (cs : ChainState) : ChainState :=
  MkChainState (priorStates cs) (posteriorStates cs) (intermediateStates cs) (latestBlock cs) (processingBlock cs)
    (preStateUnmatchedKeyVals cs) v (ancestry cs) (verifierCache cs) (priorRhoShared cs) (posteriorRhoShared cs) (sharing cs).

Definition SetVerifierCache (v : option (Z * Verifier)) (cs : ChainState) : ChainState :=
  MkChainState (priorStates cs) (posteriorStates cs) (intermediateStates cs) (latestBlock cs) (processingBlock cs)
    (preStateUnmatchedKeyVals cs) (postStateUnmatchedKeyVals cs) (ancestry cs) v (priorRhoShared cs)
    (posteriorRhoShared cs) (sharing cs).

(** [SetRhoDagger] with the slice of the prior state, and writing to the
    elements of that slice. *)
Definition writePriorRho (v : list (option AvailabilityAssignment)) (cs : ChainState) : ChainState :=
  let cs := onIntermediate (SetRhoDagger v) (onPrior (SetRho v) cs) in
  if priorRhoShared cs then onIntermediate (SetRhoDoubleDagger v) cs else cs.

(** Writing to the elements of [RhoDoubleDagger]. *)
Definition writeRhoDoubleDagger (v : list (option AvailabilityAssignment)) (cs : ChainState) : ChainState :=
  let cs := onIntermediate (SetRhoDoubleDagger v) cs in
  let cs := if priorRhoShared cs then onIntermediate (SetRhoDagger v) (onPrior (SetRho v) cs) else cs in
  if posteriorRhoShared cs then onPosterior (SetRho v) cs else cs.

(** [SetRho] of the posterior state with the slice [RhoDoubleDagger]. *)
Definition shareRho (cs : ChainState) : ChainState :=
  MkChainState (priorStates cs) (SetRho (RhoDoubleDagger (intermediateStates cs)) (posteriorStates cs))
    (intermediateStates cs) (latestBlock cs) (processingBlock cs) (preStateUnmatchedKeyVals cs)
    (postStateUnmatchedKeyVals cs) (ancestry cs) (verifierCache cs) (priorRhoShared cs) true (sharing cs).

Definition onSharing (f : Sharing -> Sharing) (cs : ChainState) : ChainState :=
  MkChainState (priorStates cs) (posteriorStates cs) (intermediateStates cs) (latestBlock cs) (processingBlock cs)
    (preStateUnmatchedKeyVals cs) (postStateUnmatchedKeyVals cs) (ancestry cs) (verifierCache cs) (priorRhoShared cs)
    (posteriorRhoShared cs) (f (sharing cs)).

(** Writing to the elements of the array [a]: to the validator sets of both
    states that are that array. *)
Definition inArray (a b : nat) (f : list Validator -> list Validator) (v : list Validator) : list Validator :=
  if Nat.eqb b a then f v else v.
Definition writeArrays (a : nat) (f : list Validator -> list Validator) (arrays : ValidatorArrays) (s : State) : State :=
  SetGammaK (inArray a (va_GammaK arrays) f (sf_GammaK (s_Gamma s))) (SetIota (inArray a (va_Iota arrays) f (s_Iota s))
    (SetKappa (inArray a (va_Kappa arrays) f (s_Kappa s)) (SetLambda (inArray a (va_Lambda arrays) f (s_Lambda s)) s))).
Definition writeValidators (a : nat) (f : list Validator -> list Validator) (cs : ChainState) : ChainState :=
  onPosterior (writeArrays a f (posteriorArrays (sharing cs))) (onPrior (writeArrays a f (priorArrays (sharing cs))) cs).

(** Writing to the maps of preimages and requests of accounts: the accounts
    [d] have the same maps as those of [written], for the services in
    [shared]. *)
Definition withMaps (written : option ServiceAccount) (a : ServiceAccount) : ServiceAccount :=
  match written with
  | Some w => MkServiceAccount (ac_ServiceInfo a) (ac_PreimageLookup w) (ac_LookupDict w) (ac_StorageDict a)
  | None => a
  end.
Definition takeMaps (shared : gset Z) (written d : ServiceAccountState) : ServiceAccountState :=
  map_imap (fun s a => Some (if decide (s ∈ shared) then withMaps (written !! s) a else a)) d.
Definition writePriorMaps (written : ServiceAccountState) (cs : ChainState) : ChainState :=
  onPrior (fun s => SetDelta (takeMaps (carriedAccounts (sharing cs)) written (s_Delta s)) s) cs.

(** A new posterior state: the zero value of [types.State] but for slices of
    the lengths of the chain parameters. *)
Definition zeroArray (n : nat) : Bytes := replicate n 0.
Definition zeroSafrole : SafroleState := MkSafroleState [] (zeroArray 144) (MkTicketsOrKeys None None) [].
Definition zeroPrivileges : Privileges := MkPrivileges 0 0 0 [] ∅.

Definition NewPosteriorStates (spec : ChainSpec) : State :=
  MkState (replicate (Z.to_nat (CoresCount spec)) None) [] (MkRecentBlocks [] []) zeroSafrole
    (MkDisputesRecords [] [] [] []) (replicate 4 (zeroArray 32)) [] [] []
    (replicate (Z.to_nat (CoresCount spec)) None) 0 zeroPrivileges (MkStatistics [] [] [] ∅)
    (replicate (Z.to_nat (EpochLength spec)) []) [] (replicate (Z.to_nat (EpochLength spec)) []) ∅.

(** The state part of [StateCommit]: the posterior state becomes the prior
    state of the next block.  The persistence of the block and its state, and
    the entry of the block in the ancestry, are not modelled. *)
Definition StateCommit (spec : ChainSpec) (cs : ChainState) : ChainState :=
  MkChainState (posteriorStates cs) (NewPosteriorStates spec) (intermediateStates cs) (latestBlock cs)
    (processingBlock cs) (postStateUnmatchedKeyVals cs) (postStateUnmatchedKeyVals cs) (ancestry cs) (verifierCache
    cs) (posteriorRhoShared cs) false
    (MkSharing (posteriorArrays (sharing cs)) nilArrays (nextArray (sharing cs)) ∅).
