(* ===== verification/StoreLaws.v ===== *)
(** * Lemmas shared by the components over the store

    Writes through shared slices and maps, slices that keep their last elements, slices filled by index in a loop,
    and the reflection of the tests the components make. *)

From stdpp Require Import sorting.
From S2P Require Import Prelude Types Config Encode Crypto Store.
Local Open Scope Z_scope.

(** ** Shared slices and maps *)

Lemma inArray_id a b f v : f v = v -> inArray a b f v = v.
Proof. intros Hf. unfold inArray. by destruct (Nat.eqb b a). Qed.

Lemma writeArrays_id a f arrays s : (forall v, f v = v) -> writeArrays a f arrays s = s.
Proof. intros Hf. unfold writeArrays. rewrite !inArray_id by done. by destruct s as [? ? ? []]. Qed.

(** A write that changes no element. *)
Lemma writeValidators_id a f cs : (forall v, f v = v) -> writeValidators a f cs = cs.
Proof.
  intros Hf. unfold writeValidators, onPosterior, onPrior. cbn. rewrite !writeArrays_id by done. by destruct cs.
Qed.

Lemma takeMaps_lookup shared written d s : takeMaps shared written d !! s =
  (fun a => if decide (s ∈ shared) then withMaps (written !! s) a else a) <$> d !! s.
Proof. unfold takeMaps. rewrite map_lookup_imap. by destruct (d !! s). Qed.

Lemma takeMaps_dom shared written d : dom (takeMaps shared written d) = dom d.
Proof. apply set_eq. intros s. rewrite !elem_of_dom, takeMaps_lookup, fmap_is_Some. done. Qed.

(** ** The last elements of a list *)

Definition lastN {A} (n : nat) (l : list A) : list A := drop (length l - n) l.

Lemma lastN_snoc {A} n (l : list A) x : lastN (S n) (l ++ [x]) = lastN n l ++ [x].
Proof.
  unfold lastN. rewrite length_app. cbn. replace (length l + 1 - S n)%nat with (length l - n)%nat by lia.
  apply drop_app_le. lia.
Qed.

Lemma lastN_length {A} n (l : list A) : length (lastN n l) = (length l `min` n)%nat.
Proof. unfold lastN. rewrite length_drop. lia. Qed.

Lemma lastN_S {A} n (l : list A) : (n < length l)%nat -> drop 1 (lastN (S n) l) = lastN n l.
Proof. intros Hl. unfold lastN. rewrite drop_drop. f_equal. lia. Qed.

Lemma lastN_all {A} n (l : list A) : (length l <= n)%nat -> lastN n l = l.
Proof. intros Hl. unfold lastN. by replace (length l - n)%nat with 0%nat by lia. Qed.

(** ** Lists by index *)

Lemma zindex_lookup {A} (l : list A) i x : 0 <= i -> l !! Z.to_nat i = Some x -> zindex l i = Ret x.
Proof. intros Hi Hl. apply zindex_Ret. unfold zlookup. by destruct (Z.ltb_spec i 0); [lia|]. Qed.

Lemma zupdate_lookup {A} (l : list A) i x y :
  0 <= i -> l !! Z.to_nat i = Some x -> zupdate l i y = Ret (<[Z.to_nat i := y]> l).
Proof. intros Hi Hl%lookup_lt_Some. apply zupdate_ok. lia. Qed.

Lemma lenOf_lookup {A} (l : list A) n i : lenOf l = n -> 0 <= i < n -> exists x, l !! Z.to_nat i = Some x.
Proof. unfold lenOf. intros Hl Hi. apply lookup_lt_is_Some. lia. Qed.

(** ** The order of byte strings *)

Definition bytesLt (a b : Bytes) : Prop := bytesCompare a b = Lt.

Lemma bytesCompare_refl a : bytesCompare a a = Eq.
Proof. induction a as [|x a IH]; cbn; [done|]. by rewrite Z.compare_refl. Qed.

Lemma bytesCompare_eq a b : bytesCompare a b = Eq -> a = b.
Proof.
  revert b. induction a as [|x a IH]; intros [|y b]; cbn; try done.
  destruct (Z.compare_spec x y) as [->|?|?]; try done. intros H. f_equal. by apply IH.
Qed.

Lemma bytesCompare_antisym a b : bytesCompare b a = CompOpp (bytesCompare a b).
Proof.
  revert b. induction a as [|x a IH]; intros [|y b]; cbn; try done.
  rewrite (Z.compare_antisym x y). destruct (x ?= y); cbn; [apply IH|done|done].
Qed.

Lemma bytesCompare_lt_trans a b c : bytesCompare a b = Lt -> bytesCompare b c = Lt -> bytesCompare a c = Lt.
Proof.
  revert b c. induction a as [|x a IH]; intros [|y b] [|z c]; cbn; try done.
  destruct (Z.compare_spec x y), (Z.compare_spec y z), (Z.compare_spec x z); try done; try lia; subst; eauto.
Qed.

Lemma bytesLe_lt a b : bytesLe a b <-> bytesLt a b \/ a = b.
Proof.
  unfold bytesLe, bytesLt. destruct (bytesCompare a b) eqn:E; split; intros H; try done; try (by left).
  - right. by apply bytesCompare_eq.
  - destruct H as [?| ->]; [done|]. by rewrite bytesCompare_refl in E.
Qed.

#[export] Instance bytesLt_trans : Transitive bytesLt.
Proof. intros a b c. apply bytesCompare_lt_trans. Qed.

#[export] Instance bytesLt_irrefl : Irreflexive bytesLt.
Proof. intros a. unfold complement, bytesLt. by rewrite bytesCompare_refl. Qed.

#[export] Instance bytesLe_trans : Transitive bytesLe.
Proof. intros a b c. rewrite !bytesLe_lt. intros [H1| ->] [H2| ->]; eauto. left. by transitivity b. Qed.

#[export] Instance bytesLe_total : Total bytesLe.
Proof.
  intros a b. unfold bytesLe. rewrite (bytesCompare_antisym a b). destruct (bytesCompare a b); cbn; auto.
Qed.

Lemma bytesGt_false a b : bytesGt a b = false <-> bytesLe a b.
Proof. unfold bytesGt. rewrite negb_false_iff, bool_decide_eq_true. done. Qed.

(** ** Tests of adjacent elements *)

Lemma Sorted_weaken {A} (R S : A -> A -> Prop) l : (forall x y, R x y -> S x y) -> Sorted R l -> Sorted S l.
Proof.
  intros Hi. induction 1 as [|x l Hs IH Hx]; constructor; [done|]. destruct Hx; constructor. by apply Hi.
Qed.

Lemma existsAdjacent_false {A} (p : A -> A -> bool) l :
  existsAdjacent p l = false <-> Sorted (fun x y => p x y = false) l.
Proof.
  induction l as [|x l IH]; [by split; [constructor|]|]. destruct l as [|y l].
  { split; [by repeat constructor|done]. }
  change (existsAdjacent p (x :: y :: l)) with (p x y || existsAdjacent p (y :: l)). rewrite orb_false_iff, IH. split.
  - intros [Hp Hs]. constructor; [done|by constructor].
  - intros Hs. apply Sorted_inv in Hs as [Hs Hh]. apply HdRel_inv in Hh. done.
Qed.

(** Sorted by a key without equal neighbours is strictly sorted. *)
Lemma strictly_sorted {A} (key : A -> Bytes) l :
  Sorted (fun s t => bytesLe (key s) (key t)) l -> Sorted (fun s t => key s <> key t) l ->
  StronglySorted (fun s t => bytesLt (key s) (key t)) l.
Proof.
  intros Hle Hne. apply Sorted_StronglySorted; [intros a b c; apply bytesLt_trans|].
  induction Hle as [|x l Hle IH Hx]; [constructor|]. apply Sorted_inv in Hne as [Hne Hxn].
  constructor; [by apply IH|]. destruct l as [|y l]; constructor. apply HdRel_inv in Hx, Hxn.
  apply bytesLe_lt in Hx as [?|?]; done.
Qed.

Lemma strictly_sorted_NoDup {A} (key : A -> Bytes) l :
  StronglySorted (fun s t => bytesLt (key s) (key t)) l -> NoDup (key <$> l).
Proof.
  induction 1 as [|x l Hs IH Hx]; cbn; [constructor|]. constructor; [|done].
  intros (y & Hy & Hin)%list_elem_of_fmap. rewrite Forall_forall in Hx. specialize (Hx _ Hin).
  rewrite Hy in Hx. by apply (bytesLt_irrefl (key y)).
Qed.

Lemma NoDup_adjacent {A} (l : list A) : NoDup l -> Sorted (fun s t => s <> t) l.
Proof.
  induction 1 as [|x l Hx _ IH]; constructor; [done|]. destruct l as [|y l]; constructor. intros ->. apply Hx. by left.
Qed.

(** A list of distinct byte strings, sorted. *)
Lemma sort_NoDup_strict l : NoDup l -> StronglySorted bytesLt (merge_sort bytesLe l).
Proof.
  intros Hn. apply (strictly_sorted id); [apply Sorted_merge_sort; apply _|]. apply NoDup_adjacent.
  by rewrite merge_sort_Permutation.
Qed.

(** ** The arrays of the validator sets *)

(** Each validator set with its array. *)
Definition slotsOf (a : ValidatorArrays) (s : State) : list (nat * list Validator) :=
  [(va_GammaK a, sf_GammaK (s_Gamma s)); (va_Iota a, s_Iota s); (va_Kappa a, s_Kappa s); (va_Lambda a, s_Lambda s)].
Definition slots (cs : ChainState) : list (nat * list Validator) :=
  slotsOf (priorArrays (sharing cs)) (priorStates cs) ++ slotsOf (posteriorArrays (sharing cs)) (posteriorStates cs).

(** The numbers tell the arrays: sets with one number have the same elements,
    [nil] has none, and the next number is new. *)
Record coherent (cs : ChainState) : Prop := {
  co_same a v w : (a, v) ∈ slots cs -> (a, w) ∈ slots cs -> v = w;
  co_nil v : (0%nat, v) ∈ slots cs -> v = [];
  co_next a v : (a, v) ∈ slots cs -> (a < nextArray (sharing cs))%nat }.

Lemma slots_prior cs b v : (b, v) ∈ slotsOf (priorArrays (sharing cs)) (priorStates cs) -> (b, v) ∈ slots cs.
Proof. intros Hin. apply elem_of_app. by left. Qed.
Lemma slots_posterior cs b v : (b, v) ∈ slotsOf (posteriorArrays (sharing cs)) (posteriorStates cs) -> (b, v) ∈ slots cs.
Proof. intros Hin. apply elem_of_app. by right. Qed.

(** A set of one of the states. *)
Ltac slot := first [apply slots_prior; unfold slotsOf; by repeat first [apply list_elem_of_here|apply list_elem_of_further]
                   |apply slots_posterior; unfold slotsOf; by repeat first [apply list_elem_of_here|apply list_elem_of_further]].

Definition coherentSlots (next : nat) (l : list (nat * list Validator)) : Prop :=
  (forall a v w, (a, v) ∈ l -> (a, w) ∈ l -> v = w) /\ (forall v, (0%nat, v) ∈ l -> v = []) /\ forall a v, (a, v) ∈ l -> (a < next)%nat.

Lemma coherent_slots cs : coherent cs <-> coherentSlots (nextArray (sharing cs)) (slots cs).
Proof. split; [intros []; by split_and!|intros (? & ? & ?); by split]. Qed.

(** Deciding it. *)
#[export] Instance validator_eq_dec : EqDecision Validator.
Proof. solve_decision. Defined.

Lemma coherent_check cs : Forall (fun p => Forall (fun q => fst p = fst q -> snd p = snd q) (slots cs) /\
  (fst p = 0%nat -> snd p = []) /\ (fst p < nextArray (sharing cs))%nat) (slots cs) -> coherent cs.
Proof.
  rewrite Forall_forall. intros Hs. apply coherent_slots. split_and!.
  - intros a v w Hv Hw. destruct (Hs _ Hv) as [Hq _]. rewrite Forall_forall in Hq. by apply (Hq _ Hw).
  - intros v Hv. by apply (Hs _ Hv).
  - intros a v Hv. apply (Hs _ Hv).
Qed.

(** Sets that were there, on their own arrays. *)
Lemma coherent_incl next l l' : l' ⊆ l -> coherentSlots next l -> coherentSlots next l'.
Proof. intros Hl (H1 & H2 & H3). split_and!; eauto. Qed.

(** A set on a new array. *)
Lemma coherent_new next n v l : (next <= n)%nat -> (0 < next)%nat -> coherentSlots next l -> coherentSlots (S n) ((n, v) :: l).
Proof.
  intros Hn H0 (H1 & H2 & H3). split_and!.
  - intros a w w' [[= Ha Hv]|Hw]%elem_of_cons [[= Ha' Hv']|Hw']%elem_of_cons; subst; try done; [apply H3 in Hw'; lia|apply H3 in Hw; lia|by eapply H1].
  - intros w [[= ? ?]|Hw]%elem_of_cons; [lia|by apply H2].
  - intros a w [[= -> _]|Hw]%elem_of_cons; [lia|]. apply H3 in Hw. lia.
Qed.

(** A write to an array. *)
Lemma slots_write a f cs : slots (writeValidators a f cs) = (fun '(b, v) => (b, inArray a b f v)) <$> slots cs.
Proof. done. Qed.

Lemma coherent_write a f cs : f [] = [] -> coherent cs -> coherent (writeValidators a f cs).
Proof.
  intros Hf [H1 H2 H3]. assert (forall b v, (b, v) ∈ slots (writeValidators a f cs) -> exists w, v = inArray a b f w /\ (b, w) ∈ slots cs) as Hs.
  { intros b v. rewrite slots_write. intros ([b' w] & [= -> ->] & Hin)%list_elem_of_fmap. eauto. }
  split.
  - intros b v w (v' & -> & Hv)%Hs (w' & -> & Hw)%Hs. by rewrite (H1 _ _ _ Hv Hw).
  - intros v (w & -> & Hw)%Hs. rewrite (H2 _ Hw). by apply inArray_id.
  - intros b v (w & _ & Hw)%Hs. by eapply H3.
Qed.
