(* ===== verification/Accumulation.v ===== *)
(** * The accumulation queue

    src/internal/accumulation/accumulation.go (12.1 to 12.12), and of
    deferred_transfers.go the statistics of a block, the history of
    accumulated packages and the ready queue (12.20 to 12.33).

    A slice and the copies of its header share their elements; where a
    function writes to elements that the prior state also holds, the model
    changes both. *)

From stdpp Require Import sorting.
From S2P Require Import Prelude Words Types Config Encode Store.
Local Open Scope Z_scope.

(** [l[:n]] and [l[n:]], the capacity of a slice being its length. *)
Definition sliceTo {A} (l : list A) (n : Z) : go (list A) :=
  if (0 <=? n) && (n <=? lenOf l) then Ret (take (Z.to_nat n) l) else Crash.
Definition sliceFrom {A} (l : list A) (n : Z) : go (list A) :=
  if (0 <=? n) && (n <=? lenOf l) then Ret (drop (Z.to_nat n) l) else Crash.

Definition reportHash (w : WorkReport) : Bytes := ps_Hash (rp_PackageSpec w).

(** ** Ready reports *)

Definition GetAccumulatedHashes (cs : ChainState) : list Bytes := concat (s_Xi (priorStates cs)).

(** [len(report.Context.Prerequisites) == 0 && len(report.SegmentRootLookup) == 0] *)
Definition independent (w : WorkReport) : bool :=
  (lenOf (rc_Prerequisites (rp_Context w)) =? 0) && (lenOf (rp_SegmentRootLookup w) =? 0).

Definition UpdateImmediatelyAccumulateWorkReports (cs : ChainState) : ChainState :=
  let availableReports := AvailableWorkReports (intermediateStates cs) in
  onIntermediate (SetAccumulatedWorkReports (filter independent availableReports)) cs.

Definition GetDependencyFromWorkReport (report : WorkReport) : ReadyRecord :=
  MkReadyRecord report (rc_Prerequisites (rp_Context report) ++ (sl_WorkPackageHash <$> rp_SegmentRootLookup report)).

(** The map of finished reports as the list of its keys. *)
Definition exist (finishedReportHashes : list Bytes) (h : Bytes) : bool := bool_decide (h ∈ finishedReportHashes).

Definition QueueEditingFunction (r : ReadyQueueItem) (x : list Bytes) : ReadyQueueItem :=
  (fun item => MkReadyRecord (rr_Report item) (filter (fun dep => exist x dep = false) (rr_Dependencies item))) <$>
    filter (fun item => exist x (reportHash (rr_Report item)) = false) r.

Definition UpdateQueuedWorkReports (cs : ChainState) : ChainState :=
  let availableReports := AvailableWorkReports (intermediateStates cs) in
  let reportsWithDependency :=
    GetDependencyFromWorkReport <$> filter (fun w => independent w = false) availableReports in
  onIntermediate (SetQueuedWorkReports (QueueEditingFunction reportsWithDependency (GetAccumulatedHashes cs))) cs.

Definition ExtractWorkReportHashes (w : list WorkReport) : list Bytes := reportHash <$> w.

(** The reports without dependencies. *)
Definition readyReports (r : ReadyQueueItem) : list WorkReport :=
  rr_Report <$> filter (fun item => lenOf (rr_Dependencies item) = 0) r.

(** The recursion; [None] when the calls exceed [fuel]. *)
Fixpoint priorityQueue (fuel : nat) (r : ReadyQueueItem) : option (list WorkReport) :=
  match fuel with
  | O => None
  | S fuel =>
      let g := readyReports r in
      if lenOf g =? 0 then Some []
      else
        let hashes := ExtractWorkReportHashes g in
        recursivelyReadyReports ← priorityQueue fuel (QueueEditingFunction r hashes);
        Some (g ++ recursivelyReadyReports)
  end.

(** One call more than there are records is enough. *)
Definition AccumulationPriorityQueue (r : ReadyQueueItem) : list WorkReport :=
  default [] (priorityQueue (S (length r)) r).

Section Queue.
Context (spec : ChainSpec).

Definition UpdateAccumulatableWorkReports (cs : ChainState) : go ChainState :=
  let m := h_Slot (b_Header (latestBlock cs)) mod EpochLength spec in
  let vartheta := s_Vartheta (priorStates cs) in
  let WQ := QueuedWorkReports (intermediateStates cs) in
  let Wbang := AccumulatedWorkReports (intermediateStates cs) in
  later ← sliceFrom vartheta m;
  earlier ← sliceTo vartheta m;
  let composedQueue := concat later ++ concat earlier ++ WQ in
  let accumulatedHashes := ExtractWorkReportHashes Wbang in
  let q := QueueEditingFunction composedQueue accumulatedHashes in
  let qResult := AccumulationPriorityQueue q in
  Ret (onIntermediate (SetAccumulatableWorkReports (Wbang ++ qResult)) cs).

Definition ProcessAccumulation (cs : ChainState) : go ChainState :=
  let cs := UpdateImmediatelyAccumulateWorkReports cs in
  let cs := UpdateQueuedWorkReports cs in
  UpdateAccumulatableWorkReports cs.

(** ** After accumulation *)

(** [uint64] sums wrap. *)
Definition sumPrivilegesGas (alwaysAccumulateMap : gmap Z Z) : Z :=
  map_fold (fun _ value sum => u64 (sum + value)) 0 alwaysAccumulateMap.


Definition calculateMaxGasUsed (alwaysAccumulateMap : gmap Z Z) : Z :=
  let GT := u64 (TotalGas spec) in
  let C := u64 (CoresCount spec) in
  let sum := sumPrivilegesGas alwaysAccumulateMap in
  Z.max GT (u64 (u64 (MaxAccumulateGas * C) + sum)).

Definition getWorkResultByService (cs : ChainState) (s n : Z) : go (list WorkResult) :=
  reports ← sliceTo (AccumulatableWorkReports (intermediateStates cs)) n;
  Ret (filter (fun result => wr_ServiceID result = s) (concat (rp_Results <$> reports))).

(** [G[serviceGasUsed.ServiceID] += serviceGasUsed.Gas] *)
Definition sumGas (serviceGasUsedList : list ServiceGasUsed) : gmap Z Z :=
  foldl (fun G u => <[gu_ServiceID u := u64 (default 0 (G !! gu_ServiceID u) + gu_Gas u)]> G) ∅ serviceGasUsedList.

Definition calculateAccumulationStatistics (cs : ChainState) (serviceGasUsedList : list ServiceGasUsed) (n : Z)
  : go AccumulationStatisticsMap :=
  map_fold (fun s Gs acc =>
      S ← acc;
      results ← getWorkResultByService cs s n;
      let Ns := lenOf results in
      if u64 (Gs + Ns) =? 0 then Ret S else Ret (<[s := MkGasAndNum Gs Ns]> S))
    (Ret ∅) (sumGas serviceGasUsedList).

Definition SetLastAccumulationSlot (v : Z) (s : ServiceInfo) : ServiceInfo :=
  MkServiceInfo (si_Version s) (si_CodeHash s) (si_Balance s) (si_MinItemGas s) (si_MinMemoGas s) (si_Bytes s)
    (si_DepositOffset s) (si_Items s) (si_CreationSlot s) v (si_ParentService s).

Definition updateDeltaDoubleDagger (accumulationStatistics : AccumulationStatisticsMap) (cs : ChainState) : ChainState :=
  let deltaDagger := DeltaDagger (intermediateStates cs) in
  let tauPrime := s_Tau (posteriorStates cs) in
  let deltaDoubleDagger := map_imap (fun serviceID acc =>
    Some (if decide (is_Some (accumulationStatistics !! serviceID)) then
            MkServiceAccount (SetLastAccumulationSlot tauPrime (ac_ServiceInfo acc)) (ac_PreimageLookup acc)
              (ac_LookupDict acc) (ac_StorageDict acc)
          else acc)) deltaDagger in
  onIntermediate (SetDeltaDoubleDagger deltaDoubleDagger) cs.

Definition sortHashes (x : AccumulatedQueueItem) : AccumulatedQueueItem := merge_sort bytesLe x.

(** [for i := 0; i < EpochLength-1; i++ { posteriorXi[i] = priorXi[i+1] }] *)
Fixpoint shiftLoop (n : nat) (i : Z) (priorXi posteriorXi : list AccumulatedQueueItem) : go (list AccumulatedQueueItem) :=
  match n with
  | O => Ret posteriorXi
  | S n =>
      x ← zindex priorXi (i + 1);
      posteriorXi ← zupdate posteriorXi i x;
      shiftLoop n (i + 1) priorXi posteriorXi
  end.

(** The lists that the posterior history takes over from the prior one are
    sorted in place, in both. *)
Definition updateXi (n : Z) (cs : ChainState) : go ChainState :=
  let priorXi := s_Xi (priorStates cs) in
  let posteriorXi := s_Xi (posteriorStates cs) in
  reports ← sliceTo (AccumulatableWorkReports (intermediateStates cs)) n;
  posteriorXi ← zupdate posteriorXi (EpochLength spec - 1) (ExtractWorkReportHashes reports);
  posteriorXi ← shiftLoop (Z.to_nat (EpochLength spec - 1)) 0 priorXi posteriorXi;
  let k := Z.to_nat (EpochLength spec) in
  let priorXi := take 1 priorXi ++ (sortHashes <$> drop 1 (take k priorXi)) ++ drop k priorXi in
  Ret (onPosterior (SetXi (sortHashes <$> posteriorXi)) (onPrior (SetXi priorXi) cs)).

(** The body of the loop of [updateVartheta] for the value [i]. *)
Definition varthetaStep (m tauOffset : Z) (queueWorkReports : ReadyQueueItem) (priorVartheta : list ReadyQueueItem)
    (posteriorXi : list AccumulatedQueueItem) (i : Z) (posteriorVartheta : list ReadyQueueItem)
  : go (list ReadyQueueItem) :=
  if lenOf posteriorVartheta =? 0 then Crash
  else
    let index := Z.rem (Z.rem (m - i + EpochLength spec) (EpochLength spec)) (lenOf posteriorVartheta) in
    if i =? 0 then
      x ← zindex posteriorXi (EpochLength spec - 1);
      zupdate posteriorVartheta index (QueueEditingFunction queueWorkReports x)
    else if (1 <=? i) && (i <? tauOffset) then zupdate posteriorVartheta index []
    else
      item ← zindex priorVartheta index;
      x ← zindex posteriorXi (EpochLength spec - 1);
      zupdate posteriorVartheta index (QueueEditingFunction item x).

Fixpoint varthetaLoop (n : nat) (m tauOffset : Z) (queueWorkReports : ReadyQueueItem)
    (priorVartheta : list ReadyQueueItem) (posteriorXi : list AccumulatedQueueItem) (i : Z)
    (posteriorVartheta : list ReadyQueueItem) : go (list ReadyQueueItem) :=
  match n with
  | O => Ret posteriorVartheta
  | S n =>
      v ← varthetaStep m tauOffset queueWorkReports priorVartheta posteriorXi i posteriorVartheta;
      varthetaLoop n m tauOffset queueWorkReports priorVartheta posteriorXi (i + 1) v
  end.

(** The difference of the slots is a [uint32]. *)
Definition updateVartheta (cs : ChainState) : go ChainState :=
  let m := h_Slot (b_Header (latestBlock cs)) mod EpochLength spec in
  let tauOffset := u32 (s_Tau (posteriorStates cs) - s_Tau (priorStates cs)) in
  posteriorVartheta ← varthetaLoop (Z.to_nat (EpochLength spec)) m tauOffset
    (QueuedWorkReports (intermediateStates cs)) (s_Vartheta (priorStates cs)) (s_Xi (posteriorStates cs)) 0
    (s_Vartheta (posteriorStates cs));
  Ret (onPosterior (SetVartheta posteriorVartheta) cs).

End Queue.
