(* ===== verification/AccumulationSpec.v ===== *)
(** * Correctness of the accumulation queue

    The recursion that resolves dependencies terminates, accumulates a report
    only after everything it depends on, and leaves no report whose
    dependencies are met; the ready queue never waits for a package that has
    been accumulated. *)

From stdpp Require Import sorting.
From S2P Require Import Prelude Words Types Config Encode Store Accumulation.
Local Open Scope Z_scope.

Definition recordHash (r : ReadyRecord) : Bytes := reportHash (rr_Report r).

(** ** Queue editing *)

Lemma exist_true x h : exist x h = true <-> h ∈ x.
Proof. unfold exist. by rewrite bool_decide_eq_true. Qed.
Lemma exist_false x h : exist x h = false <-> h ∉ x.
Proof. unfold exist. by rewrite bool_decide_eq_false. Qed.

Definition pruned (x : list Bytes) (item : ReadyRecord) : ReadyRecord :=
  MkReadyRecord (rr_Report item) (filter (fun dep => exist x dep = false) (rr_Dependencies item)).

Lemma elem_of_edit r x rec :
  rec ∈ QueueEditingFunction r x <-> exists item, item ∈ r /\ (recordHash item ∉ x) /\ rec = pruned x item.
Proof.
  unfold QueueEditingFunction. rewrite list_elem_of_fmap. split.
  - intros (item & -> & [Hx Hr]%list_elem_of_filter). exists item. by rewrite exist_false in Hx.
  - intros (item & Hr & Hx & ->). exists item. split; [done|]. apply list_elem_of_filter. by rewrite exist_false.
Qed.

Lemma pruned_dep x item d : d ∈ rr_Dependencies (pruned x item) <-> d ∈ rr_Dependencies item /\ (d ∉ x).
Proof. cbn. rewrite list_elem_of_filter, exist_false. tauto. Qed.

Lemma recordHash_pruned x item : recordHash (pruned x item) = recordHash item.
Proof. done. Qed.

Lemma edit_hashes r x : recordHash <$> QueueEditingFunction r x = recordHash <$> filter (fun i => exist x (recordHash i) = false) r.
Proof. unfold QueueEditingFunction. rewrite <- list_fmap_compose. by apply list_fmap_ext. Qed.

Lemma filter_lt {A} (P : A -> Prop) `{!∀ a, Decision (P a)} l y :
  y ∈ l -> ~ P y -> (length (filter P l) < length l)%nat.
Proof.
  intros Hy Hn. induction l as [|a l IH]; [by apply elem_of_nil in Hy|].
  rewrite filter_cons. pose proof (length_filter P l). apply elem_of_cons in Hy as [<- | Hy].
  - rewrite decide_False by done. cbn. lia.
  - specialize (IH Hy). destruct (decide (P a)); cbn; lia.
Qed.

(** ** The recursion *)

Lemma readyReports_spec r w : w ∈ readyReports r <-> exists item, item ∈ r /\ rr_Dependencies item = [] /\ rr_Report item = w.
Proof.
  unfold readyReports. rewrite list_elem_of_fmap. split.
  - intros (item & -> & [Hd Hr]%list_elem_of_filter). exists item. split_and!; [done| |done].
    unfold lenOf in Hd. by destruct (rr_Dependencies item).
  - intros (item & Hr & Hd & <-). exists item. split; [done|]. apply list_elem_of_filter. by rewrite Hd.
Qed.

Lemma ready_cases r : lenOf (readyReports r) = 0 \/
  (exists item, item ∈ r /\ recordHash item ∈ ExtractWorkReportHashes (readyReports r)).
Proof.
  destruct (readyReports r) as [|w g] eqn:E; [by left|right].
  destruct (proj1 (readyReports_spec r w)) as (item & Hr & _ & Hw); [rewrite E; apply list_elem_of_here|].
  exists item. split; [done|]. unfold recordHash. rewrite Hw. apply list_elem_of_here.
Qed.

Lemma edit_shorter r item x : item ∈ r -> recordHash item ∈ x -> (length (QueueEditingFunction r x) < length r)%nat.
Proof.
  intros Hr Hx. unfold QueueEditingFunction. rewrite length_fmap. eapply filter_lt; [exact Hr|].
  rewrite exist_false. unfold recordHash in Hx. tauto.
Qed.

Lemma priorityQueue_total fuel r : (length r < fuel)%nat -> exists out, priorityQueue fuel r = Some out.
Proof.
  revert r. induction fuel as [|fuel IH]; intros r Hf; [lia|]. cbn [priorityQueue].
  destruct (ready_cases r) as [E|(item & Hr & Hx)]; [by rewrite E; eexists|].
  destruct (_ =? 0); [by eexists|]. pose proof (edit_shorter r item _ Hr Hx).
  destruct (IH (QueueEditingFunction r (ExtractWorkReportHashes (readyReports r)))) as [out ->]; [lia|]. by eexists.
Qed.

Lemma priorityQueue_fuel fuel fuel' r out :
  priorityQueue fuel r = Some out -> (fuel <= fuel')%nat -> priorityQueue fuel' r = Some out.
Proof.
  revert fuel' r out. induction fuel as [|fuel IH]; intros fuel' r out; [done|]. intros H Hf.
  destruct fuel' as [|fuel']; [lia|]. cbn [priorityQueue] in *. destruct (_ =? 0); [done|].
  destruct (priorityQueue fuel _) as [out'|] eqn:E; [|done]. by rewrite (IH fuel' _ out') by (done || lia).
Qed.

(** The equation of the source's recursion. *)
Lemma AccumulationPriorityQueue_eq r :
  AccumulationPriorityQueue r =
    let g := readyReports r in
    if lenOf g =? 0 then [] else g ++ AccumulationPriorityQueue (QueueEditingFunction r (ExtractWorkReportHashes g)).
Proof.
  unfold AccumulationPriorityQueue at 1. cbn [priorityQueue].
  destruct (ready_cases r) as [E|(item & Hr & Hx)]; [by rewrite E|].
  destruct (_ =? 0); [done|]. pose proof (edit_shorter r item _ Hr Hx) as Hlt.
  set (r' := QueueEditingFunction r _) in *. unfold AccumulationPriorityQueue.
  destruct (priorityQueue_total (S (length r')) r' ltac:(lia)) as [out E].
  rewrite E. by rewrite (priorityQueue_fuel _ (length r) _ _ E) by lia.
Qed.

(** Induction along the recursion. *)
Lemma queue_ind (P : ReadyQueueItem -> list WorkReport -> Prop) :
  (forall r, readyReports r = [] -> P r []) ->
  (forall r, readyReports r <> [] ->
     P (QueueEditingFunction r (ExtractWorkReportHashes (readyReports r)))
       (AccumulationPriorityQueue (QueueEditingFunction r (ExtractWorkReportHashes (readyReports r)))) ->
     P r (readyReports r ++ AccumulationPriorityQueue (QueueEditingFunction r (ExtractWorkReportHashes (readyReports r))))) ->
  forall r, P r (AccumulationPriorityQueue r).
Proof.
  intros H0 H1 r. induction r as [r IH] using (induction_ltof1 _ length). unfold ltof in IH.
  rewrite AccumulationPriorityQueue_eq. cbn. destruct (ready_cases r) as [E|(item & Hr & Hx)].
  - rewrite E. cbn. apply H0. unfold lenOf in E. by destruct (readyReports r).
  - assert (readyReports r <> []) as Hne by (intros E; rewrite E in Hx; by apply elem_of_nil in Hx).
    destruct (Z.eqb_spec (lenOf (readyReports r)) 0) as [E|_].
    { unfold lenOf in E. by destruct (readyReports r). }
    apply H1; [done|]. apply IH. by eapply edit_shorter.
Qed.

(** A report comes after everything it depends on. *)
Lemma queue_order r l1 w l2 :
  AccumulationPriorityQueue r = l1 ++ w :: l2 ->
  exists item, item ∈ r /\ rr_Report item = w /\
    forall d, d ∈ rr_Dependencies item -> d ∈ ExtractWorkReportHashes l1.
Proof.
  revert l1 w l2. pattern r, (AccumulationPriorityQueue r). revert r. apply queue_ind.
  - intros r _ l1 w l2 E. by destruct l1.
  - intros r _ IH l1 w l2 E. set (g := readyReports r) in *. set (r' := QueueEditingFunction r _) in *.
    destruct (decide (length l1 < length g)%nat) as [Hl|Hl].
    + assert (w ∈ g) as Hw.
      { apply list_elem_of_lookup. exists (length l1). rewrite <- (lookup_app_l g (AccumulationPriorityQueue r')) by done.
        rewrite E. by rewrite list_lookup_middle. }
      apply readyReports_spec in Hw as (item & Hr & Hd & Hw). exists item. split_and!; [done|done|].
      rewrite Hd. intros d Hd'. by apply elem_of_nil in Hd'.
    + assert (exists l1', l1 = g ++ l1' /\ AccumulationPriorityQueue r' = l1' ++ w :: l2) as (l1' & -> & E').
      { assert (take (length g) l1 = g) as Ht.
        { rewrite <- (take_app_length g (AccumulationPriorityQueue r')) at 2. rewrite E. symmetry. apply take_app_le. lia. }
        exists (drop (length g) l1). rewrite <- Ht at 1. rewrite take_drop. split; [done|].
        rewrite <- (drop_app_length g (AccumulationPriorityQueue r')). rewrite E. by rewrite drop_app_le by lia. }
      destruct (IH _ _ _ E') as (item' & Hr' & Hw & Hd).
      apply elem_of_edit in Hr' as (item & Hr & _ & ->). exists item. split_and!; [done|done|].
      intros d Hdi. unfold ExtractWorkReportHashes. rewrite fmap_app. apply elem_of_app.
      destruct (decide (d ∈ ExtractWorkReportHashes g)) as [Hg|Hg]; [by left|right].
      apply Hd. by apply pruned_dep.
Qed.

(** Nothing that is ready is left. *)
Lemma queue_complete r item :
  item ∈ r -> (forall d, d ∈ rr_Dependencies item -> d ∈ ExtractWorkReportHashes (AccumulationPriorityQueue r)) ->
  recordHash item ∈ ExtractWorkReportHashes (AccumulationPriorityQueue r).
Proof.
  revert item. pattern r, (AccumulationPriorityQueue r). revert r. apply queue_ind.
  - intros r Hg item Hr Hd. exfalso. destruct (rr_Dependencies item) as [|d ds] eqn:E.
    + assert (rr_Report item ∈ readyReports r) as Hin by (apply readyReports_spec; eauto).
      rewrite Hg in Hin. by apply elem_of_nil in Hin.
    + specialize (Hd d (list_elem_of_here _ _)). by apply elem_of_nil in Hd.
  - intros r _ IH item Hr Hd. set (g := readyReports r) in *. set (r' := QueueEditingFunction r _) in *.
    unfold ExtractWorkReportHashes in *. rewrite fmap_app in *. apply elem_of_app.
    destruct (decide (recordHash item ∈ reportHash <$> g)) as [Hg|Hg]; [by left|right].
    rewrite <- (recordHash_pruned (ExtractWorkReportHashes g)). apply IH.
    + apply elem_of_edit. by exists item.
    + intros d [Hdi Hdx]%pruned_dep. specialize (Hd d Hdi). apply elem_of_app in Hd as [Hd|Hd]; [done|exact Hd].
Qed.

Lemma NoDup_fmap_filter {A B} (f : A -> B) (P : A -> Prop) `{!∀ a, Decision (P a)} l :
  NoDup (f <$> l) -> NoDup (f <$> filter P l).
Proof. intros Hl. apply (sublist_NoDup _ (f <$> l)); [done|]. apply fmap_sublist, sublist_filter. Qed.

(** Every output report is one of the queue. *)
Lemma queue_subset r h : h ∈ ExtractWorkReportHashes (AccumulationPriorityQueue r) -> h ∈ recordHash <$> r.
Proof.
  intros (w & -> & (l1 & l2 & E)%list_elem_of_split)%list_elem_of_fmap.
  destruct (queue_order _ _ _ _ E) as (item & Hr & <- & _). apply list_elem_of_fmap. by exists item.
Qed.

(** Distinct packages are accumulated once. *)
Lemma queue_NoDup r : NoDup (recordHash <$> r) -> NoDup (ExtractWorkReportHashes (AccumulationPriorityQueue r)).
Proof.
  pattern r, (AccumulationPriorityQueue r). revert r. apply queue_ind; [intros; constructor|].
  intros r _ IH Hr. set (g := readyReports r) in *. unfold ExtractWorkReportHashes in *. rewrite fmap_app.
  apply NoDup_app. split_and!.
  - unfold g, readyReports. rewrite <- list_fmap_compose. by apply (NoDup_fmap_filter recordHash).
  - intros h Hg Hh. apply (queue_subset _ h) in Hh. rewrite edit_hashes in Hh.
    apply list_elem_of_fmap in Hh as (item & -> & [Hx _]%list_elem_of_filter). by apply exist_false in Hx.
  - apply IH. rewrite edit_hashes. by apply NoDup_fmap_filter.
Qed.

(** The reports [Wi], and those of the queue that they make ready. *)
Lemma resolve_order Wi r l1 w l2 :
  Wi ++ AccumulationPriorityQueue (QueueEditingFunction r (ExtractWorkReportHashes Wi)) = l1 ++ w :: l2 ->
  w ∈ Wi \/
  exists item, item ∈ r /\ rr_Report item = w /\ forall d, d ∈ rr_Dependencies item -> d ∈ ExtractWorkReportHashes l1.
Proof.
  set (q := QueueEditingFunction r _). intros EW. destruct (decide (length l1 < length Wi)%nat) as [Hl|Hl].
  - left. apply list_elem_of_lookup. exists (length l1).
    rewrite <- (lookup_app_l Wi (AccumulationPriorityQueue q)) by done. rewrite EW. by rewrite list_lookup_middle.
  - right. assert (l1 = Wi ++ drop (length Wi) l1) as El1.
    { rewrite <- (take_drop (length Wi) l1) at 1. f_equal.
      transitivity (take (length Wi) (Wi ++ AccumulationPriorityQueue q)); [|apply take_app_length].
      rewrite EW. symmetry. apply take_app_le. lia. }
    assert (AccumulationPriorityQueue q = drop (length Wi) l1 ++ w :: l2) as Eq.
    { rewrite <- (drop_app_length Wi (AccumulationPriorityQueue q)). rewrite EW. by rewrite drop_app_le by lia. }
    destruct (queue_order _ _ _ _ Eq) as (it & Hit & Hw & Hd). apply elem_of_edit in Hit as (item & Hi & _ & ->).
    exists item. split_and!; [done..|]. intros d Hdi. rewrite El1. unfold ExtractWorkReportHashes.
    rewrite fmap_app. apply elem_of_app.
    destruct (decide (d ∈ ExtractWorkReportHashes Wi)) as [Hw'|Hw']; [by left|right]. apply Hd. by apply pruned_dep.
Qed.

Lemma resolve_complete Wi r item :
  let chosen := ExtractWorkReportHashes (Wi ++ AccumulationPriorityQueue (QueueEditingFunction r (ExtractWorkReportHashes Wi))) in
  item ∈ r -> (forall d, d ∈ rr_Dependencies item -> d ∈ chosen) -> recordHash item ∈ chosen.
Proof.
  intros chosen Hi Hd. unfold chosen, ExtractWorkReportHashes in *. rewrite fmap_app in *. apply elem_of_app.
  destruct (decide (recordHash item ∈ reportHash <$> Wi)) as [Hw|Hw]; [by left|right].
  rewrite <- (recordHash_pruned (ExtractWorkReportHashes Wi)). apply queue_complete.
  - apply elem_of_edit. by exists item.
  - intros d [Hdi Hdx]%pruned_dep. specialize (Hd d Hdi). by apply elem_of_app in Hd as [Hd|Hd].
Qed.

(** ** The reports of a block *)

Section Block.
Context (spec : ChainSpec) (HE : 0 < EpochLength spec).

(** The lengths of the queues. *)
Definition queues_sized (s : State) : Prop :=
  lenOf (s_Xi s) = EpochLength spec /\ lenOf (s_Vartheta s) = EpochLength spec.

Definition blockSlot (cs : ChainState) : Z := h_Slot (b_Header (latestBlock cs)).

(** The queue that [UpdateAccumulatableWorkReports] resolves. *)
Definition composed (cs : ChainState) : ReadyQueueItem :=
  let m := Z.to_nat (blockSlot cs mod EpochLength spec) in
  concat (drop m (s_Vartheta (priorStates cs))) ++ concat (take m (s_Vartheta (priorStates cs))) ++
  QueuedWorkReports (intermediateStates (UpdateQueuedWorkReports cs)).

Lemma ProcessAccumulation_eq cs : queues_sized (priorStates cs) ->
  let W := filter independent (AvailableWorkReports (intermediateStates cs)) in
  exists cs', ProcessAccumulation spec cs = Ret cs' /\
    AccumulatableWorkReports (intermediateStates cs') =
      W ++ AccumulationPriorityQueue (QueueEditingFunction (composed cs) (ExtractWorkReportHashes W)) /\
    QueuedWorkReports (intermediateStates cs') =
      QueueEditingFunction (GetDependencyFromWorkReport <$>
        filter (fun w => independent w = false) (AvailableWorkReports (intermediateStates cs))) (GetAccumulatedHashes cs) /\
    priorStates cs' = priorStates cs /\ posteriorStates cs' = posteriorStates cs /\ latestBlock cs' = latestBlock cs.
Proof.
  intros [_ Hv] W. unfold ProcessAccumulation, UpdateAccumulatableWorkReports. cbn [latestBlock priorStates
    intermediateStates onIntermediate UpdateQueuedWorkReports UpdateImmediatelyAccumulateWorkReports].
  pose proof (Z.mod_pos_bound (blockSlot cs) (EpochLength spec) HE) as Hm. unfold blockSlot in Hm.
  unfold sliceFrom, sliceTo. rewrite (proj2 (Z.leb_le 0 _)), (proj2 (Z.leb_le _ (lenOf _))) by lia.
  cbn [andb mbind go_bind]. eexists. split; [reflexivity|]. split_and!; reflexivity.
Qed.

Lemma elem_of_concat_split {A} n (l : list (list A)) x : x ∈ concat l <-> x ∈ concat (drop n l) \/ x ∈ concat (take n l).
Proof. rewrite <- (take_drop n l) at 1. rewrite concat_app, elem_of_app. tauto. Qed.

(** What a record of the composed queue comes from. *)
Lemma composed_cases cs item : item ∈ composed cs ->
  item ∈ concat (s_Vartheta (priorStates cs)) \/
  (exists w, w ∈ AvailableWorkReports (intermediateStates cs) /\ rr_Report item = w /\
     (reportHash w ∉ GetAccumulatedHashes cs) /\
     forall d, d ∈ rr_Dependencies item <->
       d ∈ rr_Dependencies (GetDependencyFromWorkReport w) /\ (d ∉ GetAccumulatedHashes cs)).
Proof.
  unfold composed. rewrite !elem_of_app. intros [Hi|[Hi|Hi] ].
  - left. apply (elem_of_concat_split (Z.to_nat (blockSlot cs mod EpochLength spec))). by left.
  - left. apply (elem_of_concat_split (Z.to_nat (blockSlot cs mod EpochLength spec))). by right.
  - right. cbn in Hi. apply elem_of_edit in Hi as (i & Hi & Hx & ->).
    apply list_elem_of_fmap in Hi as (w & -> & [_ Hw]%list_elem_of_filter). exists w. split_and!; [done..|].
    intros d. apply pruned_dep.
Qed.

(** All that a report depends on. *)
Definition dependencies (w : WorkReport) : list Bytes := rr_Dependencies (GetDependencyFromWorkReport w).

Lemma independent_dependencies w : independent w = true -> dependencies w = [].
Proof.
  unfold independent, dependencies, lenOf. cbn. intros [H1 H2]%andb_prop. apply Z.eqb_eq in H1, H2.
  destruct (rc_Prerequisites _); [|cbn in H1; lia]. by destruct (rp_SegmentRootLookup w); [|cbn in H2; lia].
Qed.

(** C9: The reports chosen for accumulation are in an order of dependency: a
    newly available report comes after everything it depends on that has not
    been accumulated before, and a report of the ready queue after
    everything its record waits for; and none is left out: a record of the
    ready queue, or an available report that was not accumulated before, all
    of whose dependencies are accumulated before or chosen, is chosen. *)
Theorem ProcessAccumulation_order cs : queues_sized (priorStates cs) ->
  exists cs', ProcessAccumulation spec cs = Ret cs' /\
    let W := AccumulatableWorkReports (intermediateStates cs') in
    let chosen := ExtractWorkReportHashes W in
    (forall l1 w l2, W = l1 ++ w :: l2 ->
       (w ∈ AvailableWorkReports (intermediateStates cs) /\
        forall d, d ∈ dependencies w -> d ∈ GetAccumulatedHashes cs \/ d ∈ ExtractWorkReportHashes l1) \/
       (exists item, item ∈ concat (s_Vartheta (priorStates cs)) /\ rr_Report item = w /\
          forall d, d ∈ rr_Dependencies item -> d ∈ ExtractWorkReportHashes l1)) /\
    (forall item, item ∈ concat (s_Vartheta (priorStates cs)) ->
       (forall d, d ∈ rr_Dependencies item -> d ∈ chosen) -> recordHash item ∈ chosen) /\
    (forall w, w ∈ AvailableWorkReports (intermediateStates cs) -> (reportHash w ∉ GetAccumulatedHashes cs) ->
       (forall d, d ∈ dependencies w -> d ∈ GetAccumulatedHashes cs \/ d ∈ chosen) -> reportHash w ∈ chosen).
Proof.
  intros Hs. destruct (ProcessAccumulation_eq cs Hs) as (cs' & E & EW & _). exists cs'. split; [done|]. cbn zeta.
  rewrite EW. clear E EW. set (Wi := filter independent _).
  split_and!.
  - intros l1 w l2 [Hw|(item & Hi & Hw & Hd)]%resolve_order.
    + left. apply list_elem_of_filter in Hw as [Hind Hw]. split; [done|].
      rewrite independent_dependencies by (by destruct (independent w)). intros d Hd. by apply elem_of_nil in Hd.
    + destruct (composed_cases cs item Hi) as [Hv|(w' & Hw' & Er & _ & Hdep)]; [right; by exists item|].
      left. rewrite Er in Hw. subst w'. split; [done|]. intros d Hdw.
      destruct (decide (d ∈ GetAccumulatedHashes cs)) as [Hx|Hx]; [by left|right]. apply Hd, Hdep. by split.
  - intros item Hi. apply resolve_complete. unfold composed. rewrite !elem_of_app.
    apply (elem_of_concat_split (Z.to_nat (blockSlot cs mod EpochLength spec))) in Hi. tauto.
  - intros w Hw Hx Hd. destruct (independent w) eqn:Hind.
    + unfold ExtractWorkReportHashes. rewrite fmap_app. apply elem_of_app. left. apply list_elem_of_fmap. exists w.
      split; [done|]. apply list_elem_of_filter. by rewrite Hind.
    + change (reportHash w) with (recordHash (pruned (GetAccumulatedHashes cs) (GetDependencyFromWorkReport w))).
      apply resolve_complete.
      * unfold composed. rewrite !elem_of_app. right; right. cbn. apply elem_of_edit.
        exists (GetDependencyFromWorkReport w). split_and!; [|done|done]. apply list_elem_of_fmap. exists w.
        split; [done|]. by apply list_elem_of_filter.
      * intros d [Hdi Hdx]%pruned_dep. by destruct (Hd d Hdi).
Qed.

(** ** The history of accumulated packages *)

Lemma zindex_Some {A} (l : list A) i : 0 <= i < lenOf l -> exists x, zindex l i = Ret x /\ l !! Z.to_nat i = Some x.
Proof.
  unfold lenOf. intros Hi. destruct (lookup_lt_is_Some_2 l (Z.to_nat i)) as [x Hx]; [lia|]. exists x. split; [|done].
  apply zindex_Ret. unfold zlookup. by destruct (Z.ltb_spec i 0); [lia|].
Qed.

Lemma shiftLoop_spec n i prior post : 0 <= i ->
  i + Z.of_nat n + 1 <= lenOf prior -> i + Z.of_nat n <= lenOf post ->
  shiftLoop n i prior post =
    Ret (take (Z.to_nat i) post ++ take n (drop (Z.to_nat i + 1) prior) ++ drop (Z.to_nat i + n) post).
Proof.
  revert i post. unfold lenOf. induction n as [|n IH]; intros i post Hi Hp Hq; cbn [shiftLoop].
  { rewrite Nat.add_0_r, take_0, app_nil_l, take_drop. done. }
  destruct (zindex_Some prior (i + 1)) as (x & Ex & Hx); [unfold lenOf; lia|]. rewrite Ex, go_bind_ret, zupdate_ok by lia.
  rewrite go_bind_ret, IH by (rewrite ?length_insert; lia). f_equal.
  replace (Z.to_nat (i + 1)) with (S (Z.to_nat i)) in * by lia.
  rewrite (take_S_r _ _ x) by (rewrite list_lookup_insert_eq; [done|lia]).
  rewrite take_insert_ge by lia. rewrite <- app_assoc. f_equal. cbn [app].
  rewrite drop_insert_lt by lia.
  replace (Z.to_nat i + 1)%nat with (S (Z.to_nat i)) by lia. rewrite (drop_S prior x (S (Z.to_nat i))) by done.
  replace (S (Z.to_nat i) + 1)%nat with (S (S (Z.to_nat i))) by lia.
  by replace (S (Z.to_nat i) + n)%nat with (Z.to_nat i + S n)%nat by lia.
Qed.

Lemma elem_of_sortHashes h x : h ∈ sortHashes x <-> h ∈ x.
Proof. unfold sortHashes. by rewrite merge_sort_Permutation. Qed.

Lemma elem_of_sorted_concat h l : h ∈ concat (sortHashes <$> l) <-> h ∈ concat l.
Proof.
  induction l as [|x l IH]; cbn; [done|]. rewrite !elem_of_app, elem_of_sortHashes.
  change (list_fmap _ _ sortHashes l) with (sortHashes <$> l). by rewrite IH.
Qed.

(** The history moves on by one slot, and ends with the packages of the
    first [n] chosen reports; every list in it is sorted. *)
Lemma updateXi_ok n cs : lenOf (s_Xi (priorStates cs)) = EpochLength spec ->
  lenOf (s_Xi (posteriorStates cs)) = EpochLength spec ->
  0 <= n <= lenOf (AccumulatableWorkReports (intermediateStates cs)) ->
  exists cs', updateXi spec n cs = Ret cs' /\
    s_Xi (posteriorStates cs') = sortHashes <$> drop 1 (s_Xi (priorStates cs)) ++
      [ExtractWorkReportHashes (take (Z.to_nat n) (AccumulatableWorkReports (intermediateStates cs)))] /\
    s_Vartheta (priorStates cs') = s_Vartheta (priorStates cs) /\
    s_Vartheta (posteriorStates cs') = s_Vartheta (posteriorStates cs) /\
    s_Tau (priorStates cs') = s_Tau (priorStates cs) /\ s_Tau (posteriorStates cs') = s_Tau (posteriorStates cs) /\
    intermediateStates cs' = intermediateStates cs /\ latestBlock cs' = latestBlock cs.
Proof.
  intros Hp Hq Hn. unfold updateXi, sliceTo. unfold lenOf in *.
  rewrite (proj2 (Z.leb_le 0 n)), (proj2 (Z.leb_le n _)) by (unfold lenOf; lia). cbn [andb]. rewrite go_bind_ret.
  rewrite zupdate_ok, go_bind_ret by lia. rewrite shiftLoop_spec by (unfold lenOf; rewrite ?length_insert; lia).
  eexists. split; [reflexivity|]. cbn [onPosterior onPrior posteriorStates priorStates SetXi s_Xi]. split_and!; try reflexivity.
  f_equal. change (Z.to_nat 0) with 0%nat. cbn [take app Nat.add].
  rewrite take_0, app_nil_l, (take_ge (drop 1 _)) by (rewrite length_drop; lia). f_equal.
  rewrite drop_insert_ge by lia. replace (Z.to_nat (EpochLength spec - 1) - Z.to_nat (EpochLength spec - 1))%nat with 0%nat by lia.
  assert (exists y, drop (Z.to_nat (EpochLength spec - 1)) (s_Xi (posteriorStates cs)) = [y]) as [y ->]; [|done].
  destruct (drop _ (s_Xi (posteriorStates cs))) as [|y [|z l] ] eqn:E; apply (f_equal length) in E;
    rewrite length_drop in E; cbn in E; [lia|by exists y|lia].
Qed.

(** ** The ready queue *)

(** The place of the loop value [i]. *)
Definition place (m i : Z) : Z := (m - i) mod EpochLength spec.

Lemma place_range m i : 0 <= place m i < EpochLength spec.
Proof. apply Z.mod_pos_bound. lia. Qed.

Lemma place_place m i : 0 <= i < EpochLength spec -> place m (place m i) = i.
Proof.
  intros Hi. unfold place. rewrite Zminus_mod_idemp_r. replace (m - (m - i)) with i by lia. by apply Z.mod_small.
Qed.

Lemma place_index m i : 0 <= m < EpochLength spec -> 0 <= i < EpochLength spec ->
  Z.rem (Z.rem (m - i + EpochLength spec) (EpochLength spec)) (EpochLength spec) = place m i.
Proof.
  intros Hm Hi. rewrite (Z.rem_mod_nonneg (m - i + _)) by lia. rewrite Z.rem_mod_nonneg by (pose proof (Z.mod_pos_bound
    (m - i + EpochLength spec) (EpochLength spec) HE); lia). rewrite Z.mod_mod by lia. unfold place.
  rewrite <- (Z.mul_1_l (EpochLength spec)) at 1. by rewrite Z.mod_add by lia.
Qed.

Section Loop.
Context (m off : Z) (WQ : ReadyQueueItem) (prior : list ReadyQueueItem) (xi : list AccumulatedQueueItem).
Context (Hm : 0 <= m < EpochLength spec) (Hp : lenOf prior = EpochLength spec) (Hx : lenOf xi = EpochLength spec).

(** The packages accumulated last. *)
Definition latest : AccumulatedQueueItem := default [] (xi !! Z.to_nat (EpochLength spec - 1)).

(** What the loop puts at its value [i]. *)
Definition entry (i : Z) : ReadyQueueItem :=
  if i =? 0 then QueueEditingFunction WQ latest
  else if i <? off then []
  else QueueEditingFunction (default [] (prior !! Z.to_nat (place m i))) latest.

Lemma varthetaStep_ok i v : 0 <= i < EpochLength spec -> lenOf v = EpochLength spec ->
  varthetaStep spec m off WQ prior xi i v = Ret (<[Z.to_nat (place m i) := entry i]> v).
Proof.
  intros Hi Hv. unfold varthetaStep, entry. rewrite Hv, (proj2 (Z.eqb_neq _ 0)), place_index by lia.
  pose proof (place_range m i) as Hr. unfold latest.
  destruct (zindex_Some xi (EpochLength spec - 1)) as (x & Ex & ->); [lia|]. rewrite Ex. cbn [default].
  destruct (zindex_Some prior (place m i)) as (p & Ep & ->); [lia|]. rewrite Ep.
  rewrite !go_bind_ret. rewrite !zupdate_ok by (unfold lenOf in Hv; lia).
  destruct (Z.eqb_spec i 0) as [|Hne]; [done|]. rewrite (proj2 (Z.leb_le 1 i)) by lia. cbn [andb]. by destruct (i <? off).
Qed.

(** After the values from [i] on, those places hold their entries, the
    others what they held. *)
Lemma varthetaLoop_ok n i v : 0 <= i -> i + Z.of_nat n = EpochLength spec -> lenOf v = EpochLength spec ->
  exists v', varthetaLoop spec n m off WQ prior xi i v = Ret v' /\ lenOf v' = EpochLength spec /\
    forall j, 0 <= j < EpochLength spec ->
      v' !! Z.to_nat j = if i <=? place m j then Some (entry (place m j)) else v !! Z.to_nat j.
Proof.
  revert i v. induction n as [|n IH]; intros i v Hi Hn Hv; cbn [varthetaLoop].
  { exists v. split_and!; [done..|]. intros j Hj. pose proof (place_range m j). by destruct (Z.leb_spec i (place m j)); [lia|]. }
  rewrite varthetaStep_ok, go_bind_ret by lia.
  destruct (IH (i + 1) (<[Z.to_nat (place m i) := entry i]> v)) as (v' & E & Hl & Hj'); [lia|lia| |].
  { unfold lenOf. by rewrite length_insert. }
  exists v'. split_and!; [done..|]. intros j Hj. rewrite Hj' by done. pose proof (place_range m j). pose proof (place_range m i).
  destruct (Z.leb_spec (i + 1) (place m j)), (Z.leb_spec i (place m j)); [done|lia| |].
  - assert (place m j = i) as Ei by lia. rewrite Ei. rewrite <- Ei at 1. rewrite place_place by lia.
    apply list_lookup_insert_eq. unfold lenOf in Hv. lia.
  - apply list_lookup_insert_ne. intros Ej%Z2Nat.inj; [|lia..]. subst j. rewrite place_place in *; lia.
Qed.

End Loop.

Lemma updateVartheta_ok cs : queues_sized (priorStates cs) -> queues_sized (posteriorStates cs) ->
  let m := blockSlot cs mod EpochLength spec in
  let off := u32 (s_Tau (posteriorStates cs) - s_Tau (priorStates cs)) in
  exists cs' v, updateVartheta spec cs = Ret cs' /\ cs' = onPosterior (SetVartheta v) cs /\
    lenOf v = EpochLength spec /\
    forall j, 0 <= j < EpochLength spec ->
      v !! Z.to_nat j = Some (entry m off (QueuedWorkReports (intermediateStates cs)) (s_Vartheta (priorStates cs))
        (s_Xi (posteriorStates cs)) (place m j)).
Proof.
  intros [_ Hp] [Hx Hq] m off. unfold updateVartheta. fold m. fold off.
  destruct (varthetaLoop_ok m off (QueuedWorkReports (intermediateStates cs)) (s_Vartheta (priorStates cs))
    (s_Xi (posteriorStates cs)) (Z.mod_pos_bound _ _ HE) Hp Hx (Z.to_nat (EpochLength spec)) 0
    (s_Vartheta (posteriorStates cs))) as (v & E & Hl & Hv); [lia|lia|done|].
  fold (blockSlot cs). fold m. rewrite E. eexists _, v. split_and!; [reflexivity|reflexivity|done|].
  intros j Hj. rewrite Hv by done. pose proof (place_range m j). by destruct (Z.leb_spec 0 (place m j)); [|lia].
Qed.

(** No record of the ready queue is of an accumulated package, or waits for
    one. *)
Definition queue_fresh (s : State) : Prop :=
  forall item, item ∈ concat (s_Vartheta s) ->
    (recordHash item ∉ concat (s_Xi s)) /\ forall d, d ∈ rr_Dependencies item -> d ∉ concat (s_Xi s).

(** A record that is fresh for [x], edited with [y]. *)
Lemma edit_fresh r (X Y : list Bytes) item :
  (forall i, i ∈ r -> (recordHash i ∉ X) /\ forall d, d ∈ rr_Dependencies i -> d ∉ X) ->
  item ∈ QueueEditingFunction r Y ->
  (recordHash item ∉ X ++ Y) /\ forall d, d ∈ rr_Dependencies item -> d ∉ X ++ Y.
Proof.
  intros Hr (i & Hi & Hy & ->)%elem_of_edit. destruct (Hr i Hi) as [Hh Hd]. split.
  - rewrite recordHash_pruned, not_elem_of_app. done.
  - intros d [Hdi Hdy]%pruned_dep. rewrite not_elem_of_app. split; [by apply Hd|done].
Qed.

Lemma elem_of_concat {A} (x : A) (ls : list (list A)) : x ∈ concat ls <-> exists l, l ∈ ls /\ x ∈ l.
Proof.
  induction ls as [|l ls IH]; cbn [concat].
  - split; [intros Hx; by apply elem_of_nil in Hx|]. intros (l & Hl & _). by apply elem_of_nil in Hl.
  - rewrite elem_of_app, IH. split.
    + intros [Hx|(l' & Hl & Hx)]; [exists l|exists l']; (split; [|done]); by constructor.
    + intros (l' & [-> |Hl]%elem_of_cons & Hx); [by left|right]. by exists l'.
Qed.

Lemma shifted_history prior post new : lenOf prior = EpochLength spec ->
  post = sortHashes <$> drop 1 prior ++ [new] ->
  lenOf post = EpochLength spec /\ latest post = sortHashes new /\
  forall h, h ∈ concat post -> h ∈ concat prior ++ sortHashes new.
Proof.
  unfold lenOf. intros Hl ->. split_and!.
  - rewrite length_fmap, length_app, length_drop. cbn. lia.
  - unfold latest. rewrite fmap_app, lookup_app_r by (rewrite length_fmap, length_drop; lia).
    rewrite length_fmap, length_drop.
    by replace (Z.to_nat (EpochLength spec - 1) - (length prior - 1))%nat with 0%nat by lia.
  - intros h. rewrite elem_of_sorted_concat, concat_app, !elem_of_app, elem_of_sortHashes. cbn [concat].
    rewrite app_nil_r. intros [Hh|Hh]; [left|by right]. apply (elem_of_concat_split 1). by left.
Qed.

Lemma updateXi_prior n cs cs' : updateXi spec n cs = Ret cs' ->
  lenOf (s_Xi (priorStates cs')) = lenOf (s_Xi (priorStates cs)).
Proof.
  unfold updateXi. intros H. go_inv. subst. unfold lenOf. cbn [onPosterior onPrior priorStates SetXi s_Xi].
  f_equal. rewrite !length_app, length_fmap, !length_drop, !length_take. lia.
Qed.

(** C29: The ready queue stays fresh over a block: if no record of it is of
    an accumulated package or waits for one before the block, none is after
    the first [n] chosen reports have been accumulated, the history has moved
    on and the queue has been edited; none of these steps panics, and the
    two queues keep their length. *)
Theorem accumulation_keeps_queue_fresh cs : queues_sized (priorStates cs) -> queues_sized (posteriorStates cs) ->
  queue_fresh (priorStates cs) ->
  exists cs1, ProcessAccumulation spec cs = Ret cs1 /\
    forall n, 0 <= n <= lenOf (AccumulatableWorkReports (intermediateStates cs1)) ->
      exists cs2 cs3, updateXi spec n cs1 = Ret cs2 /\ updateVartheta spec cs2 = Ret cs3 /\
        queues_sized (posteriorStates cs3) /\ queue_fresh (posteriorStates cs3).
Proof.
  intros Hs Hs' Hf. destruct (ProcessAccumulation_eq cs Hs) as (cs1 & E1 & _ & EQ & Ep & Eq & _).
  exists cs1. split; [done|]. intros n Hn. destruct Hs as [Hxi Hv], Hs' as [Hxi' Hv'].
  destruct (updateXi_ok n cs1) as (cs2 & E2 & Exi & Ev & Ev' & _ & _ & Ei & _);
    [by rewrite Ep|by rewrite Eq|done|]. exists cs2.
  set (new := ExtractWorkReportHashes _) in Exi. rewrite Ep in Exi, Ev. rewrite Eq in Ev'.
  destruct (shifted_history _ _ _ Hxi Exi) as (Hl2 & Hlast & Hsub).
  destruct (updateVartheta_ok cs2) as (cs3 & v & E3 & -> & Hlv & Hj);
    [split; [|by rewrite Ev]|split; [done|by rewrite Ev']|].
  { pose proof (updateXi_prior _ _ _ E2) as Hpx. rewrite Ep in Hpx. by rewrite Hpx. }
  exists (onPosterior (SetVartheta v) cs2). split_and!; [done|done|by split|].
  intros item (l & Hl & Hi)%elem_of_concat. cbn in Hl. apply list_elem_of_lookup in Hl as [j Hl].
  pose proof (lookup_lt_Some _ _ _ Hl) as Hlt. unfold lenOf in Hlv.
  specialize (Hj (Z.of_nat j) ltac:(lia)). rewrite Nat2Z.id, Hl in Hj. injection Hj as ->.
  assert (forall h, h ∉ concat (s_Xi (priorStates cs)) ++ sortHashes new -> h ∉ concat (s_Xi (posteriorStates cs2))) as Hn'.
  { intros h Hh Hin. apply Hh. by apply Hsub. }
  cut ((recordHash item ∉ concat (s_Xi (priorStates cs)) ++ sortHashes new) /\
    forall d, d ∈ rr_Dependencies item -> d ∉ concat (s_Xi (priorStates cs)) ++ sortHashes new).
  { intros [H1 H2]. split; [by apply Hn'|]. intros d Hd. by apply Hn', H2. }
  revert Hi. unfold entry. rewrite Hlast, Ei, EQ, Ev. destruct (_ =? 0); [|destruct (_ <? _)].
  - apply edit_fresh. intros i (i' & Hi' & Hx & ->)%elem_of_edit. split; [done|]. by intros d [_ Hd]%pruned_dep.
  - intros Hi. by apply elem_of_nil in Hi.
  - apply edit_fresh. intros i Hi. apply Hf. apply elem_of_concat.
    destruct (s_Vartheta (priorStates cs) !! _) as [p|] eqn:El; [|by apply elem_of_nil in Hi].
    exists p. split; [|done]. by eapply list_elem_of_lookup_2.
Qed.

End Block.
