(* ===== verification/Validate.v ===== *)
(** * Validation of protocol data

    The [Validate] methods of src/internal/types/types.go: [T_Validate] is
    [T.Validate].  The result is [None] for no error, or the text of the
    error (the format string, for one that is formatted). *)

From S2P Require Import Prelude Words Types Config Encode Roundtrip ProtocolWf.
Local Open Scope string_scope.
Local Open Scope Z_scope.

Abbreviation error := (option string).

(** [if err := a; err != nil { return err }; b] *)
Definition check (a b : error) : error := match a with Some e => Some e | None => b end.

(** [if c { return e }; b] *)
Definition guard_error (c : bool) (e : string) (b : error) : error := if c then Some e else b.

(** The first error of a list of values. *)
Definition validateAll {A} (f : A -> error) (l : list A) : error := foldr (fun x acc => check (f x) acc) None l.

(** An error wrapped with a text. *)
Definition wrap (text : string) (e : error) : error := (fun s => text ++ s)%string <$> e.


(** [a > b] *)
Definition gt (a b : Z) : bool := b <? a.

Section Validate.
Context (cs : ChainSpec).

Definition ValidatorsData_Validate (v : list Validator) : error :=
  guard_error (negb (lenOf v =? ValidatorsCount cs)) "ValidatorsData must have exactly %v ValidatorData entries" None.

Definition WorkResult_Validate (w : WorkResult) : error := None.

Definition WorkReport_Validate (w : WorkReport) : error :=
  guard_error (lenOf (rp_Results w) <? 1) "missing_work_results"
  (guard_error (gt (lenOf (rp_Results w)) MaximumWorkItems) "too_many_work_results" None).

Definition WorkReport_ValidateLookupDictAndPrerequisites (w : WorkReport) : error :=
  guard_error (gt (lenOf (rp_SegmentRootLookup w) + lenOf (rc_Prerequisites (rp_Context w))) MaximumDependencyItems)
    "too_many_dependencies" None.

Definition WorkReport_ValidateOutputSize (w : WorkReport) : error :=
  let totalSize := foldl (fun total result =>
    if decide (wer_Type (wr_Result result) = WorkExecResultOk) then total + lenOf (wer_Data (wr_Result result)) else total)
    (lenOf (rp_AuthOutput w)) (rp_Results w) in
  guard_error (gt totalSize WorkReportOutputBlobsMaximumSize) "work_report_too_big" None.

Definition AvailabilityAssignment_Validate (a : AvailabilityAssignment) : error :=
  check (wrap "AvailabilityAssignment Report validation failed: " (WorkReport_Validate (aa_Report a)))
  (guard_error (aa_AssignedSlot a =? 0) "AvailabilityAssignment AssignedSlot cannot be 0" None).

Definition AvailabilityAssignments_Validate (a : list (option AvailabilityAssignment)) : error :=
  guard_error (negb (lenOf a =? CoresCount cs)) "AvailabilityAssignments length %d is not equal to CoresCount %d" None.

Definition AuthPool_Validate (a : AuthPool) : error :=
  guard_error (gt (lenOf (default [] a)) AuthPoolMaxSize) "AuthPool length %d is greater than AuthPoolMaxSize %d" None.

Definition AuthPools_Validate (a : list AuthPool) : error :=
  guard_error (negb (lenOf a =? CoresCount cs)) "AuthPools length %d is not equal to CoresCount %d"
  (validateAll AuthPool_Validate a).

Definition AuthQueue_Validate (a : list Bytes) : error :=
  guard_error (negb (lenOf a =? AuthQueueSize)) "AuthQueue length %d is not equal to AuthQueueSize %d" None.

Definition AuthQueues_Validate (a : list (list Bytes)) : error :=
  guard_error (negb (lenOf a =? CoresCount cs)) "AuthQueues length %d is not equal to CoresCount %d"
  (validateAll AuthQueue_Validate a).

(** The sizes are [int]s (sums of lengths and of [U32]s), the gas totals
    [uint64]s that wrap. *)
Definition packageSize (w : WorkPackage) : Z :=
  foldl (fun total item =>
      total + lenOf (wi_Payload item) + lenOf (wi_ImportSegments item) * SegmentFootprint
        + foldl (fun n e => n + es_Len e) 0 (wi_Extrinsic item))
    (lenOf (wp_Authorization w) + lenOf (wp_AuthorizerConfig w)) (wp_Items w).

Definition total {A} (f : A -> Z) (l : list A) : Z := foldl (fun n x => n + f x) 0 l.
Definition totalGas {A} (f : A -> Z) (l : list A) : Z := foldl (fun n x => u64 (n + f x)) 0 l.

Definition WorkPackage_Validate (w : WorkPackage) : error :=
  let items := wp_Items w in
  guard_error ((lenOf items <? 1) || gt (lenOf items) MaximumWorkItems)
    "WorkPackage items length %d is not between 1 and %d"
  (guard_error (gt (packageSize w) MaxTotalSize) "total size %d is greater than MaxTotalSize %d"
  (guard_error (gt (total (fun i => lenOf (wi_ImportSegments i)) items) MaxImportCount)
    "total import segments %d is greater than MaxImportCount %d"
  (guard_error (gt (total wi_ExportCount items) MaxExportCount)
    "total export segments %d is greater than MaxExportCount %d"
  (guard_error (gt (total (fun i => lenOf (wi_Extrinsic i)) items) MaxExtrinsics)
    "total extrinsics %d is greater than MaxExtrinsics %d"
  (guard_error (gt (totalGas wi_RefineGasLimit items) (u64 (MaxRefineGas cs)))
    "refine gas limit %d is greater than MaxRefineGas %d"
  (guard_error (gt (totalGas wi_AccumulateGasLimit items) MaxAccumulateGas)
    "accumulate gas limit %d is greater than MaxAccumulateGas %d" None)))))).

Definition BlockInfo_Validate (b : BlockInfo) : error :=
  guard_error (gt (lenOf (bi_Reported b)) (CoresCount cs)) "BlockInfo Reported length %d is greater than CoresCount %d" None.

Definition BlocksHistory_Validate (b : list BlockInfo) : error :=
  guard_error (gt (lenOf b) MaxBlocksHistory) "BlocksHistory length %d is greater than MaxBlocksHistory %d"
  (validateAll BlockInfo_Validate b).

Definition ValidatorsStatistics_Validate (a : list ValidatorActivityRecord) : error :=
  guard_error (negb (lenOf a =? ValidatorsCount cs)) "ActivityRecords length %d is not equal to ValidatorsCount %d" None.

Definition CoresStatistics_Validate (c : list CoreActivityRecord) : error :=
  guard_error (negb (lenOf c =? CoresCount cs)) "CoresStatisitics length %d is not equal to CoresCount %d" None.

Definition TicketsAccumulator_Validate (t : list TicketBody) : error :=
  guard_error (gt (lenOf t) (EpochLength cs)) "TicketsAccumulator length %d is greater than EpochLength %d" None.

(** The length of a slice that may be nil. *)
Definition lenOpt {A} (l : option (list A)) : Z := lenOf (default [] l).

Definition TicketsOrKeys_Validate (t : TicketsOrKeys) : error :=
  guard_error (gt (lenOpt (tk_Tickets t)) 0 && negb (lenOpt (tk_Tickets t) =? EpochLength cs))
    "TicketsOrKeys Tickets length %d is not equal to EpochLength %d"
  (guard_error (gt (lenOpt (tk_Keys t)) 0 && negb (lenOpt (tk_Keys t) =? EpochLength cs))
    "TicketsOrKeys Keys length %d is not equal to EpochLength %d"
  (guard_error ((lenOpt (tk_Tickets t) =? 0) && (lenOpt (tk_Keys t) =? 0)) "TicketsOrKeys Tickets and Keys are empty" None)).

Definition TicketsExtrinsic_Validate (t : list TicketEnvelope) : error :=
  guard_error (gt (lenOf t) (MaxTicketsPerBlock cs)) "TicketsExtrinsic length %d is greater than MaxTicketsPerBlock %d" None.

Definition Verdict_Validate (v : Verdict) : error :=
  guard_error (negb (lenOf (vd_Votes v) =? ValidatorsSuperMajority cs))
    "verdict Votes length %d is not equal to ValidatorsSuperMajority %d" None.

Definition DisputesExtrinsic_Validate (d : DisputesExtrinsic) : error := validateAll Verdict_Validate (de_Verdicts d).

Definition Preimage_Validate (p : Preimage) : error := None.
Definition PreimagesExtrinsic_Validate (p : list Preimage) : error := validateAll Preimage_Validate p.

Definition Bitfield_Validate (bf : Bitfield) : error :=
  guard_error (negb (lenOf bf =? CoresCount cs)) "Bitfield length %d is not equal to CoresCount %d" None.

Definition AvailAssurance_Validate (a : AvailAssurance) : error := Bitfield_Validate (av_Bitfield a).

Definition AssurancesExtrinsic_Validate (a : list AvailAssurance) : error :=
  guard_error (gt (lenOf a) (ValidatorsCount cs)) "AssurancesExtrinsic length %d is greater than ValidatorsCount %d" None.

Definition ValidatorSignature_Validate (v : ValidatorSignature) : error :=
  guard_error (ValidatorsCount cs <=? vs_ValidatorIndex v) "bad_validator_index" None.

Definition ValidateGuaranteeSignatures (sigs : list ValidatorSignature) : error :=
  guard_error (lenOf sigs <? GuaranteeMinCount) "insufficient_guarantees"
  (guard_error (gt (lenOf sigs) GuaranteeMaxCount) "too_many_guarantees"
  (wrap "guarantee signature[%d]: " (validateAll ValidatorSignature_Validate sigs))).

(** Too many signatures are only logged. *)
Definition ReportGuarantee_Validate (r : ReportGuarantee) : error :=
  check (WorkReport_Validate (rg_Report r))
  (guard_error (lenOf (rg_Signatures r) <? GuaranteeMinCount) "insufficient_guarantees"
  (check (validateAll ValidatorSignature_Validate (rg_Signatures r))
  (check (WorkReport_ValidateLookupDictAndPrerequisites (rg_Report r))
  (check (WorkReport_ValidateOutputSize (rg_Report r)) None)))).

Definition GuaranteesExtrinsic_Validate (g : list ReportGuarantee) : error :=
  guard_error (gt (lenOf g) (CoresCount cs)) "GuaranteesExtrinsic length %d is greater than CoresCount %d"
  (wrap "GuaranteesExtrinsic report[%d] validation failed: " (validateAll ReportGuarantee_Validate g)).

Definition ReadyQueue_Validate (r : list ReadyQueueItem) : error :=
  guard_error (negb (lenOf r =? EpochLength cs)) "ReadyQueue length %d is not equal to EpochLength %d" None.

Definition AccumulatedQueue_Validate (a : list AccumulatedQueueItem) : error :=
  guard_error (negb (lenOf a =? EpochLength cs)) "AccumulatedQueue length %d is not equal to EpochLength %d" None.

Definition EpochMark_Validate (e : EpochMark) : error :=
  guard_error (negb (lenOf (em_Validators e) =? ValidatorsCount cs))
    "EpochMark Validators length %d is not equal to ValidatorsCount %d" None.

Definition TicketsMark_Validate (t : list TicketBody) : error :=
  guard_error (gt (lenOf t) 0 && negb (lenOf t =? EpochLength cs)) "TicketsMark length %d is not equal to EpochLength %d" None.

Definition Header_Validate (h : Header) : error :=
  check (match h_EpochMark h with Some e => EpochMark_Validate e | None => None end)
  (check (match h_TicketsMark h with Some t => TicketsMark_Validate t | None => None end) None).

Definition Extrinsic_Validate (e : Extrinsic) : error :=
  check (TicketsExtrinsic_Validate (ex_Tickets e))
  (check (PreimagesExtrinsic_Validate (ex_Preimages e))
  (check (GuaranteesExtrinsic_Validate (ex_Guarantees e))
  (check (AssurancesExtrinsic_Validate (ex_Assurances e))
  (check (DisputesExtrinsic_Validate (ex_Disputes e)) None)))).

(** The extrinsic is not looked at. *)
Definition Block_Validate (b : Block) : error := check (Header_Validate (b_Header b)) None.

End Validate.

(** * What validation accepts

    The conditions under which the [Validate] methods return no error. *)


(** ** Errors *)

Lemma check_None a b : check a b = None <-> a = None /\ b = None.
Proof. destruct a; cbn; firstorder congruence. Qed.

Lemma guard_None c e b : guard_error c e b = None <-> c = false /\ b = None.
Proof. destruct c; cbn; firstorder congruence. Qed.

Lemma wrap_None t e : wrap t e = None <-> e = None.
Proof. destruct e; cbn; firstorder congruence. Qed.

Lemma gt_false a b : gt a b = false <-> a <= b.
Proof. unfold gt. rewrite Z.ltb_ge. lia. Qed.

Lemma validateAll_None {A} (f : A -> error) l : validateAll f l = None <-> Forall (fun x => f x = None) l.
Proof.
  induction l as [|x l IH]; cbn; [by split; [constructor|]|]. rewrite check_None, IH, Forall_cons. done.
Qed.

Lemma len_not_eqb {A} (l : list A) n : negb (lenOf l =? n) = false <-> lenOf l = n.
Proof. rewrite negb_false_iff, Z.eqb_eq. done. Qed.

Create Rewrite HintDb validate.
#[export] Hint Rewrite check_None guard_None @wrap_None gt_false @validateAll_None @len_not_eqb : validate.

Section Validate.
Context (cs : ChainSpec).

(** ** Blocks *)

(** A well-formed header is valid, and that is all [Block.Validate] looks at. *)
Lemma ok_header_valid makeOK h : ok_Header makeOK cs h -> Header_Validate cs h = None.
Proof.
  intros (_ & _ & _ & _ & He & Ht & _). unfold Header_Validate. autorewrite with validate. split; [|split; [|done]].
  - destruct (h_EpochMark h) as [e|]; [|done]. destruct He as (_ & _ & Hv & _). unfold EpochMark_Validate.
    autorewrite with validate. by split.
  - destruct (h_TicketsMark h) as [t|]; [|done]. destruct Ht as [Hl _]. unfold TicketsMark_Validate.
    autorewrite with validate. split; [|done]. apply andb_false_intro2. by apply len_not_eqb.
Qed.

(** An invalid extrinsic does not make a block invalid. *)
Lemma Block_Validate_ignores_extrinsic h e e' :
  Block_Validate cs (MkBlock h e) = Block_Validate cs (MkBlock h e').
Proof. done. Qed.

(** ** Guarantees *)

(** Accepted guarantees may have any number of signatures from two on. *)
Lemma ReportGuarantee_Validate_spec r : ReportGuarantee_Validate cs r = None <->
  1 <= lenOf (rp_Results (rg_Report r)) <= MaximumWorkItems /\
  GuaranteeMinCount <= lenOf (rg_Signatures r) /\
  Forall (fun v => vs_ValidatorIndex v < ValidatorsCount cs) (rg_Signatures r) /\
  lenOf (rp_SegmentRootLookup (rg_Report r)) + lenOf (rc_Prerequisites (rp_Context (rg_Report r))) <= MaximumDependencyItems /\
  WorkReport_ValidateOutputSize (rg_Report r) = None.
Proof.
  unfold ReportGuarantee_Validate, WorkReport_Validate, WorkReport_ValidateLookupDictAndPrerequisites.
  autorewrite with validate. rewrite !Z.ltb_ge.
  assert (Forall (fun v => ValidatorSignature_Validate cs v = None) (rg_Signatures r) <->
    Forall (fun v => vs_ValidatorIndex v < ValidatorsCount cs) (rg_Signatures r)) as ->; [|tauto].
  apply Forall_proper; [|done]. intros v. unfold ValidatorSignature_Validate. autorewrite with validate.
  rewrite Z.leb_gt. tauto.
Qed.

(** ** Work packages *)

Definition sumOf {A} (f : A -> Z) (l : list A) : Z := foldr (fun x n => f x + n) 0 l.

Lemma fold_sum {A} (f : A -> Z) l n : foldl (fun n x => n + f x) n l = n + sumOf f l.
Proof. revert n. induction l as [|x l IH]; intros n; cbn [foldl]; [by rewrite Z.add_0_r|]. rewrite IH. cbn [sumOf foldr]. fold (sumOf f l). lia. Qed.

Lemma total_sum {A} (f : A -> Z) l : total f l = sumOf f l.
Proof. unfold total. by rewrite fold_sum. Qed.

Lemma totalGas_sum {A} (f : A -> Z) l : totalGas f l = sumOf f l mod 2 ^ 64.
Proof.
  unfold totalGas. change (sumOf f l) with (0 + sumOf f l).
  enough (forall n, foldl (fun n x => u64 (n + f x)) (n mod 2 ^ 64) l = (n + sumOf f l) mod 2 ^ 64) as H by apply (H 0).
  induction l as [|x l IH]; intros n; cbn [foldl sumOf foldr]; [by rewrite Z.add_0_r|].
  change (uN 64 (n mod 2 ^ 64 + f x)) with ((n mod 2 ^ 64 + f x) mod 2 ^ 64).
  rewrite Zplus_mod_idemp_l, IH. f_equal. fold (sumOf f l). lia.
Qed.

(** The bytes of an item, its segments at their full size. *)
Definition itemSize (i : WorkItem) : Z :=
  lenOf (wi_Payload i) + SegmentFootprint * lenOf (wi_ImportSegments i) + sumOf es_Len (wi_Extrinsic i).

Lemma packageSize_sum w :
  packageSize w = lenOf (wp_Authorization w) + lenOf (wp_AuthorizerConfig w) + sumOf itemSize (wp_Items w).
Proof.
  unfold packageSize. generalize (lenOf (wp_Authorization w) + lenOf (wp_AuthorizerConfig w)) as n.
  induction (wp_Items w) as [|i l IH]; intros n; cbn [foldl sumOf foldr]; [by rewrite Z.add_0_r|].
  rewrite IH, fold_sum. fold (sumOf itemSize l). unfold itemSize. lia.
Qed.

(** A work package is accepted exactly when it has one to sixteen items,
    its total size, imports, exports and extrinsics are within the limits,
    and its two gas totals are, taken modulo 2^64: totals that wrap around
    are accepted. *)
Theorem WorkPackage_Validate_spec w :
  (WorkPackage_Validate cs w = None <->
    1 <= lenOf (wp_Items w) <= MaximumWorkItems /\
    lenOf (wp_Authorization w) + lenOf (wp_AuthorizerConfig w) + sumOf itemSize (wp_Items w) <= MaxTotalSize /\
    sumOf (fun i => lenOf (wi_ImportSegments i)) (wp_Items w) <= MaxImportCount /\
    sumOf wi_ExportCount (wp_Items w) <= MaxExportCount /\
    sumOf (fun i => lenOf (wi_Extrinsic i)) (wp_Items w) <= MaxExtrinsics /\
    sumOf wi_RefineGasLimit (wp_Items w) mod 2 ^ 64 <= u64 (MaxRefineGas cs) /\
    sumOf wi_AccumulateGasLimit (wp_Items w) mod 2 ^ 64 <= MaxAccumulateGas) /\
  (forall code, let item := MkWorkItem 0 code (2 ^ 63) 0 0 [] [] [] in
    let w := MkWorkPackage 0 code (wp_Context w) [] [] [item; item] in
    WorkPackage_Validate cs w = None /\ sumOf wi_RefineGasLimit (wp_Items w) = 2 ^ 64).
Proof.
  assert (forall w, WorkPackage_Validate cs w = None <->
    1 <= lenOf (wp_Items w) <= MaximumWorkItems /\ packageSize w <= MaxTotalSize /\
    sumOf (fun i => lenOf (wi_ImportSegments i)) (wp_Items w) <= MaxImportCount /\
    sumOf wi_ExportCount (wp_Items w) <= MaxExportCount /\
    sumOf (fun i => lenOf (wi_Extrinsic i)) (wp_Items w) <= MaxExtrinsics /\
    sumOf wi_RefineGasLimit (wp_Items w) mod 2 ^ 64 <= u64 (MaxRefineGas cs) /\
    sumOf wi_AccumulateGasLimit (wp_Items w) mod 2 ^ 64 <= MaxAccumulateGas) as H.
  { intros v. unfold WorkPackage_Validate. autorewrite with validate.
    rewrite orb_false_iff, Z.ltb_ge, gt_false, !total_sum, !totalGas_sum. tauto. }
  split; [rewrite <- packageSize_sum; apply H|]. intros code item w'. split; [|done].
  apply H. subst w' item. cbn [wp_Items sumOf foldr wi_RefineGasLimit wi_AccumulateGasLimit].
  split_and!; [vm_compute; discriminate..| |vm_compute; discriminate].
  change ((2 ^ 63 + (2 ^ 63 + 0)) mod 2 ^ 64) with 0. apply (Z.mod_pos_bound (MaxRefineGas cs) (2 ^ 64)). done.
Qed.

End Validate.
