(* ===== verification/Authorization.v ===== *)
(** * Authorization

    src/internal/authorization/authorization.go (8.2, 8.3): the pools of
    authorizers of the cores are updated with the guarantees of a block and
    the queues of authorizers.

    The slice of pools is the one the prior state holds: the model returns
    its contents together with the error. *)

From S2P Require Import Prelude Words Types Config Encode Store StoreLaws Validate.
Local Open Scope Z_scope.

(** The pool's own array is filled while the pool is read; the elements read are never
    behind the ones written. *)
Definition RemoveLeftMostPairedValue (a : list Bytes) (h : Bytes) : list Bytes :=
  fst (foldl (fun '(result, removed) v =>
    if removed || negb (bool_decide (v = h)) then (result ++ [v], removed) else (result, true)) ([], false) a).

(** The pools after the call, and the error. *)
Definition updatePoolFromQueue (coreIndex : Z) (eg : ReportGuarantee) (alpha : list AuthPool)
  : go (list AuthPool * error) :=
  pool ← zindex alpha coreIndex;
  match pool with
  | None => Ret (alpha, Some "alpha[%d] is nil"%string)
  | Some pool =>
      let authHashToRemoved := rp_AuthorizerHash (rg_Report eg) in
      alpha ← zupdate alpha coreIndex (Some (RemoveLeftMostPairedValue pool authHashToRemoved));
      Ret (alpha, None)
  end.

(** The loop over the guarantees ends with the first error. *)
Fixpoint guaranteeLoop (guarantees : list ReportGuarantee) (alpha : list AuthPool) : go (list AuthPool * error) :=
  match guarantees with
  | [] => Ret (alpha, None)
  | guarantee :: guarantees =>
      r ← updatePoolFromQueue (rp_CoreIndex (rg_Report guarantee)) guarantee alpha;
      match snd r with
      | Some err => Ret (fst r, Some err)
      | None => guaranteeLoop guarantees (fst r)
      end
  end.

(** [pool = append(pool, x)], and the last [AuthPoolMaxSize] of them. *)
Definition appendPool (pool : AuthPool) (x : Bytes) : AuthPool :=
  let pool := default [] pool ++ [x] in
  Some (if AuthPoolMaxSize <? lenOf pool then drop (Z.to_nat (lenOf pool - AuthPoolMaxSize)) pool else pool).

(** The body of the loop over the cores. *)
Definition appendFromQueue (slot : Z) (varphi : list (list Bytes)) (coreIndex : Z) (alpha : list AuthPool)
  : go (list AuthPool) :=
  queue ← zindex varphi coreIndex;
  if lenOf queue =? 0 then Ret alpha
  else
    let index := slot mod lenOf queue in
    pool ← zindex alpha coreIndex;
    x ← zindex queue index;
    zupdate alpha coreIndex (appendPool pool x).

Fixpoint queueLoop (n : nat) (slot : Z) (varphi : list (list Bytes)) (coreIndex : Z) (alpha : list AuthPool)
  : go (list AuthPool) :=
  match n with
  | O => Ret alpha
  | S n =>
      alpha ← appendFromQueue slot varphi coreIndex alpha;
      queueLoop n slot varphi (coreIndex + 1) alpha
  end.

Section Authorization.
Context (spec : ChainSpec).

Definition STFAlpha2AlphaPrime (slot : Z) (guarantees : list ReportGuarantee) (alpha : list AuthPool)
    (varphi : list (list Bytes)) : go (list AuthPool * error) :=
  r ← guaranteeLoop guarantees alpha;
  let '(alpha, err) := r in
  match err with
  | Some err => Ret (alpha, Some err)
  | None =>
      alpha ← queueLoop (Z.to_nat (CoresCount spec)) slot varphi 0 alpha;
      Ret (alpha, wrap "post alpha validation failed: "%string (AuthPools_Validate spec alpha))
  end.

(** The validation of the guarantees is only logged.  The prior state sees
    the new pools in every case, the posterior state if there is no error. *)
Definition Authorization (cs : ChainState) : go (ChainState * error) :=
  let block := latestBlock cs in
  let slot := h_Slot (b_Header block) in
  let guarantees := ex_Guarantees (b_Extrinsic block) in
  let posteriorVarphi := s_Varphi (posteriorStates cs) in
  match AuthQueues_Validate spec posteriorVarphi with
  | Some err => Ret (cs, Some ("posterior_varphi validation failed: " ++ err)%string)
  | None =>
      let priorAlpha := s_Alpha (priorStates cs) in
      match AuthPools_Validate spec priorAlpha with
      | Some err => Ret (cs, Some ("prior_alpha validation failed: " ++ err)%string)
      | None =>
          r ← STFAlpha2AlphaPrime slot guarantees priorAlpha posteriorVarphi;
          let '(postAlpha, err) := r in
          let cs := onPrior (SetAlpha postAlpha) cs in
          match err with
          | Some err => Ret (cs, Some ("stf_alpha_to_alpha_prime raised Error: " ++ err)%string)
          | None => Ret (onPosterior (SetAlpha postAlpha) cs, None)
          end
      end
  end.

End Authorization.

(** * Correctness

    [Authorization] against the description of the pools (8.2, 8.3): per
    core, the pool loses the authorizers that the guarantees of the core
    used, gains the one the queue has for the slot, and keeps its last
    elements. *)


(** ** The pools described per core *)

(** A list without the first occurrence of [h]. *)
Fixpoint remove_first (h : Bytes) (l : list Bytes) : list Bytes :=
  match l with
  | [] => []
  | x :: l => if decide (x = h) then l else x :: remove_first h l
  end.

(** The authorizers that the guarantees of core [c] use, in order. *)
Definition usedBy (c : Z) (guarantees : list ReportGuarantee) : list Bytes :=
  (fun g => rp_AuthorizerHash (rg_Report g)) <$> filter (fun g => rp_CoreIndex (rg_Report g) = c) guarantees.

Definition poolAfter (used pool : list Bytes) : list Bytes := foldl (fun p h => remove_first h p) pool used.

(** Pools as [AuthPools.Validate] accepts them, none of them nil. *)
Definition pools_ok (spec : ChainSpec) (alpha : list AuthPool) : Prop :=
  lenOf alpha = CoresCount spec /\
  Forall (fun p => exists pool, p = Some pool /\ lenOf pool <= AuthPoolMaxSize) alpha.

Definition queues_ok (spec : ChainSpec) (varphi : list (list Bytes)) : Prop :=
  lenOf varphi = CoresCount spec /\ Forall (fun q => lenOf q = AuthQueueSize) varphi.

(** ** The loops *)

Lemma remove_fold_true l r (h : Bytes) : foldl (fun '(result, removed) v =>
    if removed || negb (bool_decide (v = h)) then (result ++ [v], removed) else (result, true)) (r, true) l = (r ++ l, true).
Proof. revert r. induction l as [|x l IH]; intros r; cbn; [by rewrite app_nil_r|]. rewrite IH. by rewrite <- app_assoc. Qed.

Lemma RemoveLeftMostPairedValue_ok l h : RemoveLeftMostPairedValue l h = remove_first h l.
Proof.
  unfold RemoveLeftMostPairedValue.
  assert (forall r, fst (foldl (fun '(result, removed) v =>
    if removed || negb (bool_decide (v = h)) then (result ++ [v], removed) else (result, true)) (r, false) l) =
    r ++ remove_first h l) as Hr; [|apply Hr].
  induction l as [|x l IH]; intros r; cbn; [by rewrite app_nil_r|]. destruct (decide (x = h)) as [->|Hn].
  - rewrite bool_decide_true by done. cbn. by rewrite remove_fold_true.
  - rewrite bool_decide_false by done. cbn. rewrite IH. by rewrite <- app_assoc.
Qed.

Lemma remove_first_length h l : (length (remove_first h l) <= length l)%nat.
Proof. induction l; cbn; [done|]. case_decide; cbn; lia. Qed.

Lemma poolAfter_length used pool : (length (poolAfter used pool) <= length pool)%nat.
Proof.
  revert pool. induction used as [|h used IH]; intros pool; cbn; [done|].
  etrans; [apply IH|apply remove_first_length].
Qed.

(** One guarantee, then the loop over them. *)
Lemma updatePoolFromQueue_ok c g alpha pool : 0 <= c -> alpha !! Z.to_nat c = Some (Some pool) ->
  updatePoolFromQueue c g alpha =
    Ret (<[Z.to_nat c := Some (remove_first (rp_AuthorizerHash (rg_Report g)) pool)]> alpha, None).
Proof.
  intros Hc Hl. unfold updatePoolFromQueue. rewrite (zindex_lookup _ _ _ Hc Hl), go_bind_ret.
  rewrite (zupdate_lookup _ _ _ _ Hc Hl), go_bind_ret. by rewrite RemoveLeftMostPairedValue_ok.
Qed.

Lemma guaranteeLoop_ok guarantees alpha :
  Forall (fun g => 0 <= rp_CoreIndex (rg_Report g) < lenOf alpha) guarantees ->
  Forall is_Some alpha ->
  exists alpha', guaranteeLoop guarantees alpha = Ret (alpha', None) /\ length alpha' = length alpha /\
    forall c pool, 0 <= c -> alpha !! Z.to_nat c = Some (Some pool) ->
      alpha' !! Z.to_nat c = Some (Some (poolAfter (usedBy c guarantees) pool)).
Proof.
  revert alpha. induction guarantees as [|g gs IH]; intros alpha Hg Hs; [by exists alpha|].
  apply Forall_cons_1 in Hg as [Hc Hg]. set (c0 := rp_CoreIndex (rg_Report g)) in *.
  destruct (lenOf_lookup alpha _ _ eq_refl Hc) as [p Hp].
  destruct (Forall_lookup_1 _ _ _ _ Hs Hp) as [pool0 ->]. cbn [guaranteeLoop]. fold c0.
  rewrite (updatePoolFromQueue_ok _ g alpha pool0), go_bind_ret by (done || lia). cbn [snd fst].
  edestruct (IH (<[Z.to_nat c0 := Some (remove_first (rp_AuthorizerHash (rg_Report g)) pool0)]> alpha)) as (alpha' & E & Hlen & Hl).
  { eapply Forall_impl; [exact Hg|]. cbn. unfold lenOf. intros x Hx. by rewrite length_insert. }
  { by apply Forall_insert. }
  exists alpha'. split; [exact E|]. split; [by rewrite Hlen, length_insert|]. intros c pool Hc' Hlk. unfold usedBy.
  destruct (decide (c = c0)) as [->|Hn].
  - assert (pool0 = pool) as -> by congruence. rewrite filter_cons_True by done. cbn.
    apply Hl; [done|]. apply list_lookup_insert_eq. by eapply lookup_lt_Some.
  - rewrite filter_cons_False by (cbn; intros ?; by apply Hn). apply Hl; [done|].
    rewrite list_lookup_insert_ne by lia. done.
Qed.

Lemma appendPool_lastN pool x :
  appendPool (Some pool) x = Some (lastN (Z.to_nat AuthPoolMaxSize) (pool ++ [x])).
Proof.
  unfold appendPool, lastN, lenOf. cbn [default id]. f_equal. unfold AuthPoolMaxSize.
  destruct (Z.ltb_spec 8 (Z.of_nat (length (pool ++ [x])))); [f_equal; lia|].
  replace (length (pool ++ [x]) - Z.to_nat 8)%nat with 0%nat by lia. done.
Qed.

(** The authorizer the queue has for a slot. *)
Definition queued (slot : Z) (queue : list Bytes) : Bytes := default [] (queue !! Z.to_nat (slot mod AuthQueueSize)).

Definition queueStep (slot : Z) (queue : list Bytes) (pool : AuthPool) : AuthPool :=
  appendPool pool (queued slot queue).

Lemma appendFromQueue_ok slot varphi c alpha queue pool : 0 <= c -> varphi !! Z.to_nat c = Some queue ->
  lenOf queue = AuthQueueSize -> alpha !! Z.to_nat c = Some pool ->
  appendFromQueue slot varphi c alpha = Ret (<[Z.to_nat c := queueStep slot queue pool]> alpha).
Proof.
  intros Hc Hq Hl Hp. unfold appendFromQueue. rewrite (zindex_lookup _ _ _ Hc Hq), go_bind_ret, Hl.
  cbn [Z.eqb AuthQueueSize]. rewrite (zindex_lookup _ _ _ Hc Hp), go_bind_ret.
  pose proof (Z.mod_pos_bound slot AuthQueueSize ltac:(done)) as Hm.
  destruct (lenOf_lookup queue _ _ Hl Hm) as [x Hx].
  rewrite (zindex_lookup _ _ _ (proj1 Hm) Hx), go_bind_ret.
  rewrite (zupdate_lookup _ _ _ _ Hc Hp). unfold queueStep, queued. by rewrite Hx.
Qed.

Lemma queueLoop_ok slot varphi n i alpha : 0 <= i -> Forall (fun q => lenOf q = AuthQueueSize) varphi ->
  length varphi = length alpha -> (Z.to_nat i + n <= length alpha)%nat ->
  exists alpha', queueLoop n slot varphi i alpha = Ret alpha' /\ length alpha' = length alpha /\
    forall c, alpha' !! c =
      (if decide (Z.to_nat i <= c < Z.to_nat i + n)%nat
       then pool ← alpha !! c; queue ← varphi !! c; Some (queueStep slot queue pool) else alpha !! c).
Proof.
  revert i alpha. induction n as [|n IH]; intros i alpha Hi Hq Hl Hn.
  { exists alpha. split; [done|]. split; [done|]. intros c. by rewrite decide_False by lia. }
  destruct (lookup_lt_is_Some_2 alpha (Z.to_nat i)) as [pool Hp]; [lia|].
  destruct (lookup_lt_is_Some_2 varphi (Z.to_nat i)) as [queue Hqu]; [lia|].
  cbn [queueLoop]. rewrite (appendFromQueue_ok _ _ _ _ queue pool), go_bind_ret;
    [|done|done|by eapply (Forall_lookup_1 _ _ _ _ Hq)|done].
  edestruct (IH (i + 1) (<[Z.to_nat i := queueStep slot queue pool]> alpha)) as (alpha' & E & Hlen & Hlk);
    [lia|done|by rewrite length_insert|rewrite length_insert; lia|].
  exists alpha'. split; [exact E|]. split; [by rewrite Hlen, length_insert|]. intros c. rewrite Hlk.
  destruct (decide (c = Z.to_nat i)) as [->|Hc].
  - rewrite decide_False, decide_True by lia. rewrite list_lookup_insert_eq by lia. by rewrite Hp, Hqu.
  - rewrite list_lookup_insert_ne by lia. by do 2 case_decide; try lia.
Qed.

Section Authorization.
Context (spec : ChainSpec).

Lemma pools_validate alpha : pools_ok spec alpha -> AuthPools_Validate spec alpha = None.
Proof.
  intros [Hl Hp]. unfold AuthPools_Validate. rewrite Hl, Z.eqb_refl. cbn. clear Hl.
  induction Hp as [|p l (pool & -> & Hs) Hp IH]; [done|]. cbn. unfold AuthPool_Validate, gt. cbn.
  destruct (Z.ltb_spec AuthPoolMaxSize (lenOf pool)); [lia|]. exact IH.
Qed.

Lemma queues_validate varphi : queues_ok spec varphi -> AuthQueues_Validate spec varphi = None.
Proof.
  intros [Hl Hp]. unfold AuthQueues_Validate. rewrite Hl, Z.eqb_refl. cbn. clear Hl.
  induction Hp as [|q l Hs Hp IH]; [done|]. cbn. unfold AuthQueue_Validate. rewrite Hs. exact IH.
Qed.

(** The pools after a block. *)
Definition pools_after (slot : Z) (guarantees : list ReportGuarantee) (varphi : list (list Bytes))
    (alpha alpha' : list AuthPool) : Prop :=
  forall c pool queue, 0 <= c -> alpha !! Z.to_nat c = Some (Some pool) -> varphi !! Z.to_nat c = Some queue ->
    alpha' !! Z.to_nat c =
      Some (Some (lastN (Z.to_nat AuthPoolMaxSize) (poolAfter (usedBy c guarantees) pool ++ [queued slot queue]))).

Lemma STFAlpha2AlphaPrime_ok slot guarantees alpha varphi : 0 <= CoresCount spec -> pools_ok spec alpha ->
  queues_ok spec varphi -> Forall (fun g => 0 <= rp_CoreIndex (rg_Report g) < CoresCount spec) guarantees ->
  exists alpha', STFAlpha2AlphaPrime spec slot guarantees alpha varphi = Ret (alpha', None) /\
    pools_ok spec alpha' /\ pools_after slot guarantees varphi alpha alpha'.
Proof.
  intros Hcores [Hl Hp] [Hvl Hq] Hg. unfold STFAlpha2AlphaPrime.
  destruct (guaranteeLoop_ok guarantees alpha) as (alpha1 & E1 & Hl1 & Hlk1).
  { by rewrite Hl. } { eapply Forall_impl; [exact Hp|]. intros p (pool & -> & _). by eexists. }
  rewrite E1, go_bind_ret. unfold lenOf in Hl, Hvl.
  destruct (queueLoop_ok slot varphi (Z.to_nat (CoresCount spec)) 0 alpha1) as (alpha2 & E2 & Hl2 & Hlk2);
    [done|done|lia|lia|]. rewrite E2, go_bind_ret.
  assert (pools_after slot guarantees varphi alpha alpha2) as Ha.
  { intros c pool queue Hc Ha Hv. pose proof (lookup_lt_Some _ _ _ Ha). rewrite Hlk2, decide_True by lia.
    rewrite (Hlk1 _ _ Hc Ha), Hv. cbn. f_equal. apply appendPool_lastN. }
  assert (pools_ok spec alpha2) as Hok.
  { split; [unfold lenOf; lia|]. apply Forall_lookup_2. intros i p Hi. pose proof (lookup_lt_Some _ _ _ Hi).
    destruct (lookup_lt_is_Some_2 alpha i) as [p0 Hp0]; [lia|]. destruct (Forall_lookup_1 _ _ _ _ Hp Hp0) as (pool & -> & _).
    destruct (lookup_lt_is_Some_2 varphi i) as [queue Hqu]; [lia|].
    specialize (Ha (Z.of_nat i) pool queue). rewrite Nat2Z.id in Ha. rewrite Ha in Hi by (done || lia).
    injection Hi as <-. eexists. split; [reflexivity|]. unfold lenOf. rewrite lastN_length. unfold AuthPoolMaxSize. lia. }
  exists alpha2. split; [|done]. by rewrite (pools_validate _ Hok).
Qed.

(** C38: Authorization computes the pools of the protocol and keeps them well
    formed.  For pools and queues of the right sizes and guarantees of
    existing cores it succeeds; the pool of each core is then the last eight
    of: the old pool without the leftmost occurrence of the authorizer of
    each guarantee of that core, followed by the entry of its queue for the
    slot of the block.  No pool is nil or longer than eight, and the prior
    state shares the new pools. *)
Theorem Authorization_correct cs : 0 <= CoresCount spec -> pools_ok spec (s_Alpha (priorStates cs)) ->
  queues_ok spec (s_Varphi (posteriorStates cs)) ->
  Forall (fun g => 0 <= rp_CoreIndex (rg_Report g) < CoresCount spec) (ex_Guarantees (b_Extrinsic (latestBlock cs))) ->
  exists alpha', Authorization spec cs = Ret (onPosterior (SetAlpha alpha') (onPrior (SetAlpha alpha') cs), None) /\
    pools_ok spec alpha' /\
    pools_after (h_Slot (b_Header (latestBlock cs))) (ex_Guarantees (b_Extrinsic (latestBlock cs)))
      (s_Varphi (posteriorStates cs)) (s_Alpha (priorStates cs)) alpha'.
Proof.
  intros Hcores Ha Hq Hg. edestruct STFAlpha2AlphaPrime_ok as (alpha' & E & Hok & Haft); [done|exact Ha|exact Hq|exact Hg|].
  exists alpha'. split; [|by split]. unfold Authorization.
  rewrite (queues_validate _ Hq), (pools_validate _ Ha), E. done.
Qed.

End Authorization.
