(* ===== verification/RecentHistory.v ===== *)
(** * Recent history

    src/internal/recent_history/recent_history_controller.go (7.5 to 7.8):
    the recent blocks and the beefy belt. *)

From stdpp Require Import sorting.
From S2P Require Import Prelude Words Types Config Encode Mmr MerkleTree.
From S2P Require Import Store StoreLaws.
Local Open Scope Z_scope.

Definition CheckDuplicate (blocksHistory : list BlockInfo) (headerhash : Bytes) : bool :=
  existsb (fun blockInfo => bool_decide (bi_HeaderHash blockInfo = headerhash)) blocksHistory.

Definition SetStateRoot (v : Bytes) (b : BlockInfo) : BlockInfo :=
  MkBlockInfo (bi_HeaderHash b) (bi_BeefyRoot b) v (bi_Reported b).

(** [historyDagger] is the argument itself: the caller's slice changes. *)
Definition History2HistoryDagger (history : list BlockInfo) (parentStateRoot : Bytes) : list BlockInfo :=
  alter (SetStateRoot parentStateRoot) (length history - 1)%nat history.

(** [None] is an error of the encoder. *)
Fixpoint serLastAccOut (lastAccOut : list AccumulatedServiceHash) : go (option (list Bytes)) :=
  match lastAccOut with
  | [] => Ret (Some [])
  | x :: lastAccOut =>
      ⟪ data ⟫ ⇠ enc_AccumulatedServiceHash x ⊘ Ret None;
      ⟪ output ⟫ ⇠ serLastAccOut lastAccOut ⊘ Ret None;
      Ret (Some (data :: output))
  end.

(** Work packages in the order of their hashes.  Go's sort leaves the order
    of equal hashes open; the model keeps it. *)
Definition reportedLe (p q : ReportedWorkPackage) : Prop := bytesLe (rw_Hash p) (rw_Hash q).
#[export] Instance reportedLe_dec : RelDecision reportedLe.
Proof. intros p q. unfold reportedLe. apply _. Defined.

Definition MapWorkReportFromEg (eg : list ReportGuarantee) : list ReportedWorkPackage :=
  merge_sort reportedLe
    ((fun g => let spec := rp_PackageSpec (rg_Report g) in MkReportedWorkPackage (ps_Hash spec) (ps_ExportsRoot spec)) <$> eg).

Definition NewItem (headerHash : Bytes) (workReportHash : list ReportedWorkPackage) (accumulationResultMmr : Bytes)
  : BlockInfo := MkBlockInfo headerHash accumulationResultMmr zeroHash workReportHash.

(** [copy(dst[:n], src)] into a new slice of [n] elements, the last of which
    is then [item]. *)
Definition AddItem2BetaHPrime (historyDagger : list BlockInfo) (item : BlockInfo) : list BlockInfo :=
  let n := lenOf historyDagger in
  if n <? MaxBlocksHistory then historyDagger ++ [item]
  else take (Z.to_nat (MaxBlocksHistory - 1)) (drop 1 historyDagger) ++ [item].

Section History.
Context `{HashFunctions} (spec : ChainSpec).

Definition lastAccOutRoot (serializedLastAccOut : list Bytes) : go Bytes :=
  Mb KeccakHash (Some <$> serializedLastAccOut).

Definition AppendAndCommitMmr (beefyBelt : list MmrPeak) (merkleRoot : Bytes) : go (list MmrPeak * Bytes) :=
  let m := if lenOf beefyBelt =? 0 then NewMMR (Some KeccakHash) else NewMMRFromPeaks beefyBelt (Some KeccakHash) in
  match m with
  | None => Crash
  | Some m => r ← AppendOne m (Some merkleRoot); Ret (fst r, SuperPeak (fst r))
  end.

(** [BlocksHistory.Validate] only logs here. *)
Definition STFBetaH2BetaHDagger (cs : ChainState) : ChainState :=
  let beta := s_Beta (priorStates cs) in
  let betaDagger := History2HistoryDagger (rb_History beta) (h_ParentStateRoot (b_Header (latestBlock cs))) in
  onIntermediate (SetBetaHDagger betaDagger)
    (onPrior (SetBeta (MkRecentBlocks betaDagger (rb_Mmr beta))) cs).

Definition SetBetaB (betaB : list MmrPeak) (s : State) : State :=
  SetBeta (MkRecentBlocks (rb_History (s_Beta s)) betaB) s.
Definition SetBetaH (betaH : list BlockInfo) (s : State) : State :=
  SetBeta (MkRecentBlocks betaH (rb_Mmr (s_Beta s))) s.

(** The hash of a header; of no bytes if it cannot be encoded. *)
Definition headerHashOf (h : Header) : go Bytes :=
  headser ← enc_Header spec h; Ret (Blake2bHash (default [] headser)).

(** [None] is a returned error. *)
Definition STFBetaHDagger2BetaHPrime (cs : ChainState) : go (option ChainState) :=
  let historyDagger := BetaHDagger (intermediateStates cs) in
  let beefyBelt := rb_Mmr (s_Beta (priorStates cs)) in
  let lastAccOut := s_Theta (posteriorStates cs) in
  let block := latestBlock cs in
  ⟪ serializedLastAccOut ⟫ ⇠ serLastAccOut lastAccOut ⊘ Ret None;
  merkleRoot ← lastAccOutRoot serializedLastAccOut;
  r ← AppendAndCommitMmr beefyBelt merkleRoot;
  let '(beefyBeltPrime, commitment) := r in
  let workReportHash := MapWorkReportFromEg (ex_Guarantees (b_Extrinsic block)) in
  hashed ← headerHashOf (b_Header block);
  let item := NewItem hashed workReportHash commitment in
  let historyPrime := AddItem2BetaHPrime historyDagger item in
  Ret (Some (onPosterior (SetBetaH historyPrime) (onPosterior (SetBetaB beefyBeltPrime) cs))).

Definition STFBetaHDagger2BetaHPrime_ForTestVector (cs : ChainState) : ChainState :=
  let historyDagger := BetaHDagger (intermediateStates cs) in
  let block := latestBlock cs in
  let commitment := MmrCommitment (intermediateStates cs) in
  let workReportHash := MapWorkReportFromEg (ex_Guarantees (b_Extrinsic block)) in
  let item := NewItem (h_Parent (b_Header block)) workReportHash commitment in
  onPosterior (SetBetaH (AddItem2BetaHPrime historyDagger item)) cs.

End History.

(** * Correctness

    The recent history refines an unbounded log of blocks and the list of all
    accumulation roots: it is the last blocks of the log, and the mountain
    range of the roots. *)


(** ** The abstract log *)

(** Writing the state root of the last block. *)
Lemma dagger_snoc l x r : History2HistoryDagger (l ++ [x]) r = l ++ [SetStateRoot r x].
Proof.
  unfold History2HistoryDagger. rewrite length_app. cbn.
  replace (length l + 1 - 1)%nat with (length l + 0)%nat by lia. by rewrite alter_app_r.
Qed.

Lemma dagger_lastN n l r : History2HistoryDagger (lastN (S n) l) r = lastN (S n) (History2HistoryDagger l r).
Proof.
  destruct l as [|x l _] using rev_ind; [done|]. by rewrite lastN_snoc, !dagger_snoc, lastN_snoc.
Qed.

Lemma dagger_length l r : length (History2HistoryDagger l r) = length l.
Proof. apply length_alter. Qed.

(** Appending keeps the last blocks. *)
Lemma AddItem_lastN l x :
  AddItem2BetaHPrime (lastN (Z.to_nat MaxBlocksHistory) l) x = lastN (Z.to_nat MaxBlocksHistory) (l ++ [x]).
Proof.
  change (Z.to_nat MaxBlocksHistory) with (S 7). rewrite lastN_snoc. unfold AddItem2BetaHPrime, lenOf.
  rewrite lastN_length. unfold MaxBlocksHistory. destruct (Z.ltb_spec (Z.of_nat (length l `min` 8)) 8).
  - rewrite !lastN_all by lia. done.
  - rewrite lastN_S by lia. rewrite take_ge; [done|]. rewrite lastN_length. lia.
Qed.

(** ** Roots *)

Lemma serLastAccOut_ok l : exists out, serLastAccOut l = Ret (Some out) /\ length out = length l.
Proof.
  induction l as [|x l (out & E & Hl)]; [by exists []|]. cbn [serLastAccOut]. rewrite E. eexists. split; [reflexivity|].
  cbn. by rewrite Hl.
Qed.

Section Refines.
Context `{HashLaws} (spec : ChainSpec).

(** The root of the accumulation output always exists. *)
Lemma Mb_ok l : exists root, lastAccOutRoot l = Ret root /\ is_hash root.
Proof.
  unfold lastAccOutRoot. destruct l as [|a [|b l] ].
  - exists zeroHash. split; [done|apply zeroHash_hash].
  - exists (KeccakHash a). split; [done|apply keccak_hash].
  - change (Mb KeccakHash (Some <$> a :: b :: l)) with (toOpaqueHash (N KeccakHash (Some <$> a :: b :: l))).
    rewrite (N_node KeccakHash _ (a :: b :: l)) by (done || (rewrite length_fmap; cbn; lia)).
    set (x := nodePrefix ++ _). pose proof (keccak_hash x) as [Hl Hb]. exists (KeccakHash x). split; [|done].
    unfold toOpaqueHash. change (bytes_of (Some (KeccakHash x))) with (keccak256 x). rewrite Hl.
    change (32 <=? Z.of_nat 32) with true. cbn iota. by rewrite take_ge by lia.
Qed.

(** What the state holds of the log: its last blocks, with the state root of
    the last one still open, and the mountain range of the roots. *)
Definition represents (log : list BlockInfo) (roots : list Bytes) (b : RecentBlocks) : Prop :=
  rb_History b = lastN (Z.to_nat MaxBlocksHistory) log /\ rb_Mmr b = mmr_peaks KeccakHash roots.

Lemma AppendAndCommitMmr_ok roots root :
  AppendAndCommitMmr (mmr_peaks KeccakHash roots) root =
    Ret (mmr_peaks KeccakHash (roots ++ [root]), SuperPeak (mmr_peaks KeccakHash (roots ++ [root]))).
Proof.
  unfold AppendAndCommitMmr.
  assert ((if lenOf (mmr_peaks KeccakHash roots) =? 0 then NewMMR (Some KeccakHash)
    else NewMMRFromPeaks (mmr_peaks KeccakHash roots) (Some KeccakHash)) =
    Some (MkMMR (mmr_peaks KeccakHash roots) KeccakHash)) as ->.
  { unfold lenOf. destruct (mmr_peaks KeccakHash roots) as [|p l]; [done|].
    destruct (Z.eqb_spec (Z.of_nat (length (p :: l))) 0) as [E|]; [cbn in E; lia|done]. }
  by rewrite AppendOne_peaks, go_bind_ret.
Qed.

(** The entry of a block. *)
Definition blockItem (headerHash : Bytes) (guarantees : list ReportGuarantee) (roots : list Bytes) : BlockInfo :=
  MkBlockInfo headerHash (SuperPeak (mmr_peaks KeccakHash roots)) zeroHash (MapWorkReportFromEg guarantees).

(** C37: The recent history refines an unbounded log of blocks: a block writes
    its parent state root into the last entry of the log (of the prior state
    too, which shares it), and appends an entry with the hash of its header,
    its packages and the super-peak of all the accumulation roots so far,
    the new one included; what the state holds are the last eight entries of
    that log and the mountain range of those roots.  Neither step fails if
    the header can be encoded. *)
Theorem recent_history_refines cs log roots headser :
  let header := b_Header (latestBlock cs) in
  let patched := History2HistoryDagger log (h_ParentStateRoot header) in
  represents log roots (s_Beta (priorStates cs)) -> enc_Header spec header = Ret (Some headser) ->
  exists root cs',
    (outputs ← serLastAccOut (s_Theta (posteriorStates cs));
     lastAccOutRoot (default [] outputs)) = Ret root /\
    STFBetaHDagger2BetaHPrime spec (STFBetaH2BetaHDagger cs) = Ret (Some cs') /\
    represents patched roots (s_Beta (priorStates cs')) /\
    represents
      (patched ++ [blockItem (Blake2bHash headser) (ex_Guarantees (b_Extrinsic (latestBlock cs))) (roots ++ [root])])
      (roots ++ [root]) (s_Beta (posteriorStates cs')).
Proof.
  intros header patched [Hh Hm] He. destruct (serLastAccOut_ok (s_Theta (posteriorStates cs))) as (ser & Es & _).
  destruct (Mb_ok ser) as (root & Er & _). rewrite Es. exists root. eexists. split; [exact Er|].
  unfold STFBetaHDagger2BetaHPrime, STFBetaH2BetaHDagger, headerHashOf.
  cbn [onIntermediate onPrior onPosterior priorStates posteriorStates intermediateStates latestBlock
    SetBetaHDagger BetaHDagger SetBeta s_Beta rb_Mmr rb_History].
  fold header. rewrite Es, go_bind_ret, Er, go_bind_ret, Hm, AppendAndCommitMmr_ok, go_bind_ret, He, !go_bind_ret.
  split; [reflexivity|].
  assert (History2HistoryDagger (rb_History (s_Beta (priorStates cs))) (h_ParentStateRoot header) =
    lastN (Z.to_nat MaxBlocksHistory) patched) as Hp by (rewrite Hh; apply dagger_lastN).
  cbn. rewrite Hp. split; (split; [|done]); [done|]. cbn. rewrite AddItem_lastN. done.
Qed.

End Refines.
