(* ===== verification/Safrole.v ===== *)
(** * Safrole

    src/internal/safrole: epochs and key rotation (safrole.go), the keys of
    the slots (slot_key_sequence.go), the ticket accumulator
    (extrinsic_tickets.go), the entropy and the checks of seals (sealing.go)
    and the header markers (markers.go), with the verifier cache of
    src/internal/blockchain/ring_verifier.go.  Making seals needs the node's
    key store and is not modelled. *)

From stdpp Require Import sorting.
From S2P Require Import Prelude Words Types Config Codec Encode Crypto Store Validate.
From S2P Require Decode.
Local Open Scope Z_scope.

Module SafroleErrorCode.
Definition BadSlot : Z := 0.
Definition UnexpectedTicket : Z := 1.
Definition BadTicketOrder : Z := 2.
Definition BadTicketProof : Z := 3.
Definition BadTicketAttempt : Z := 4.
Definition DuplicateTicket : Z := 6.
Definition VrfSealInvalid : Z := 7.
Definition VrfEntropyInvalid : Z := 8.
Definition InvalidEpochMark : Z := 9.
Definition InvalidTicketsMark : Z := 10.
Definition InvalidOffenderMarker : Z := 11.
Definition UnexpectedAuthor : Z := 12.
Definition AuthorIndexOutOfRange : Z := 13.
Definition InvalidExtrinsicHash : Z := 14.
Definition InvalidParentStateRoot : Z := 15.
End SafroleErrorCode.

(** An [EntropyBuffer] is an array of four. *)
Definition etaAt (eta : list Bytes) (i : nat) : Bytes := default [] (eta !! i).

(** ** Validator keys *)

Definition ValidatorIsOffender (validator : Validator) (offendersMark : list Bytes) : bool :=
  existsb (fun o => bool_decide (o = v_Ed25519 validator)) offendersMark.

Definition nullValidator : Validator := MkValidator (zeroArray 32) (zeroArray 32) (zeroArray 144) (zeroArray 128).

(** The loop over [validators], which writes to the places of the offenders
    in a slice that holds [old]. *)
Definition nullOffenders (offendersMark : list Bytes) (validators old : list Validator) : list Validator :=
  imap (fun i v => match validators !! i with
                   | Some validator => if ValidatorIsOffender validator offendersMark then nullValidator else v
                   | None => v
                   end) old.

(** The elements of the argument itself are written: callers pass the slice
    of a state, the array [a], and what else is that array changes too. The
    result is the argument. *)
Definition ReplaceOffenderKeys (a : nat) (validators : list Validator) (cs : ChainState) : ChainState * list Validator :=
  let null := nullOffenders (dr_Offenders (s_Psi (posteriorStates cs))) validators in
  (writeValidators a null cs, null validators).

(** ** Setters of parts of a state *)

Definition SetGammaZ (v : Bytes) (s : State) : State :=
  SetGamma (MkSafroleState (sf_GammaK (s_Gamma s)) v (sf_GammaS (s_Gamma s)) (sf_GammaA (s_Gamma s))) s.
Definition SetGammaS (v : TicketsOrKeys) (s : State) : State :=
  SetGamma (MkSafroleState (sf_GammaK (s_Gamma s)) (sf_GammaZ (s_Gamma s)) v (sf_GammaA (s_Gamma s))) s.
Definition SetGammaA (v : list TicketBody) (s : State) : State :=
  SetGamma (MkSafroleState (sf_GammaK (s_Gamma s)) (sf_GammaZ (s_Gamma s)) (sf_GammaS (s_Gamma s)) v) s.
Definition SetEta0 (v : Bytes) (s : State) : State :=
  SetEta [v; etaAt (s_Eta s) 1; etaAt (s_Eta s) 2; etaAt (s_Eta s) 3] s.
Definition SetEpochMark (v : option EpochMark) (h : Header) : Header :=
  MkHeader (h_Parent h) (h_ParentStateRoot h) (h_ExtrinsicHash h) (h_Slot h) v (h_TicketsMark h) (h_AuthorIndex h)
    (h_EntropySource h) (h_OffendersMark h) (h_Seal h).
Definition SetTicketsMark (v : option (list TicketBody)) (h : Header) : Header :=
  MkHeader (h_Parent h) (h_ParentStateRoot h) (h_ExtrinsicHash h) (h_Slot h) (h_EpochMark h) v (h_AuthorIndex h)
    (h_EntropySource h) (h_OffendersMark h) (h_Seal h).

(** ** Entropy and tickets *)

Definition UpdateEntropy (e ePrime : Z) (cs : ChainState) : ChainState :=
  let eta := s_Eta (priorStates cs) in
  let tail := if e <? ePrime then [etaAt eta 0; etaAt eta 1; etaAt eta 2] else [etaAt eta 1; etaAt eta 2; etaAt eta 3] in
  onPosterior (SetEta (etaAt (s_Eta (posteriorStates cs)) 0 :: tail)) cs.

Definition createSignatureContext (X_T posteriorEta2 : Bytes) (r : Z) : Bytes := X_T ++ posteriorEta2 ++ [u8 r].

(** Tickets by identifier. *)
Definition ticketLe (p q : TicketBody) : Prop := bytesLe (tb_ID p) (tb_ID q).
#[export] Instance ticketLe_dec : RelDecision ticketLe.
Proof. intros p q. unfold ticketLe. apply _. Defined.

Definition VerifyTicketsOrder (tickets : list TicketBody) : option Z :=
  if existsAdjacent (fun s t => bytesGt (tb_ID s) (tb_ID t)) tickets then Some SafroleErrorCode.BadTicketOrder else None.

Definition VerifyTicketsDuplicate (tickets : list TicketBody) : option Z :=
  if existsAdjacent (fun s t => bool_decide (tb_ID s = tb_ID t)) tickets then Some SafroleErrorCode.DuplicateTicket
  else None.

Definition Contains (tickets : list TicketBody) (ticketID : Bytes) : bool :=
  existsb (fun ticket => bool_decide (tb_ID ticket = ticketID)) tickets.

Definition RemoveTicketsInGammaA (tickets gammaA : list TicketBody) : list TicketBody :=
  filter (fun ticket => Contains gammaA (tb_ID ticket) = false) tickets.

Section Safrole.
Context `{HashFunctions} `{VRF} (spec : ChainSpec).

Definition GetEpochIndex (t : Z) : Z := t / u32 (EpochLength spec).
Definition GetSlotIndex (t : Z) : Z := t mod u32 (EpochLength spec).
Definition R (time : Z) : Z * Z := (time / u32 (EpochLength spec), time mod u32 (EpochLength spec)).

(** The setters store the slices of the prior state themselves. *)
Definition KeyRotate (e ePrime : Z) (cs : ChainState) : ChainState :=
  let pa := priorArrays (sharing cs) in
  let iota' := va_Iota (posteriorArrays (sharing cs)) in
  if e <? ePrime then
    let '(cs, gammaK) := ReplaceOffenderKeys (va_Iota pa) (s_Iota (priorStates cs)) cs in
    let prior := priorStates cs in
    onSharing (SetPosteriorArrays (MkValidatorArrays (va_Iota pa) iota' (va_GammaK pa) (va_Kappa pa)))
      (onPosterior (fun s => SetLambda (s_Kappa prior) (SetKappa (sf_GammaK (s_Gamma prior)) (SetGammaK gammaK s))) cs)
  else
    let prior := priorStates cs in
    onSharing (SetPosteriorArrays (MkValidatorArrays (va_GammaK pa) iota' (va_Kappa pa) (va_Lambda pa)))
      (onPosterior (fun s => SetGammaZ (sf_GammaZ (s_Gamma prior)) (SetLambda (s_Lambda prior)
        (SetKappa (s_Kappa prior) (SetGammaK (sf_GammaK (s_Gamma prior)) s)))) cs).

(** ** Slot keys *)

(** The loop with its counters; [out[i]] is written for [i] in order. *)
Fixpoint outsideInLoop (n : nat) (i left right : Z) (t : list TicketBody) : go (list TicketBody) :=
  match n with
  | O => Ret []
  | S n =>
      if i mod 2 =? 0 then
        x ← zindex t left; out ← outsideInLoop n (i + 1) (left + 1) right t; Ret (x :: out)
      else
        x ← zindex t right; out ← outsideInLoop n (i + 1) left (right - 1) t; Ret (x :: out)
  end.

Definition OutsideInSequencer (t : list TicketBody) : go (list TicketBody) :=
  outsideInLoop (Z.to_nat (EpochLength spec)) 0 0 (EpochLength spec - 1) t.

Definition fallbackKey (entropy : Bytes) (validators : list Validator) (i : Z) : go Bytes :=
  let serial := SerializeFixedLength i 4 in
  let concatenation := entropy ++ serial in
  hash ← Blake2bHashPartial concatenation 4;
  let validatorIndex := default 0 (Decode.DeserializeFixedLength hash 4) in
  v ← zindex validators (validatorIndex mod u32 (ValidatorsCount spec));
  Ret (v_Bandersnatch v).

Fixpoint fallbackLoop (n : nat) (i : Z) (entropy : Bytes) (validators : list Validator) : go (list Bytes) :=
  match n with
  | O => Ret []
  | S n =>
      key ← fallbackKey entropy validators i;
      keys ← fallbackLoop n (i + 1) entropy validators;
      Ret (key :: keys)
  end.

Definition FallbackKeySequence (entropy : Bytes) (validators : list Validator) : go (list Bytes) :=
  fallbackLoop (Z.to_nat (EpochLength spec)) 0 entropy validators.

Definition UpdateSlotKeySequence (e ePrime slotIndex : Z) (cs : ChainState) : go ChainState :=
  let gammaA := sf_GammaA (s_Gamma (priorStates cs)) in
  let etaPrime := s_Eta (posteriorStates cs) in
  newGammaS ←
    if (ePrime =? u32 (e + 1)) && (lenOf gammaA =? EpochLength spec) && (SlotSubmissionEnd spec <=? slotIndex) then
      tickets ← OutsideInSequencer gammaA; Ret (MkTicketsOrKeys (Some tickets) None)
    else if ePrime =? e then Ret (sf_GammaS (s_Gamma (priorStates cs)))
    else
      keys ← FallbackKeySequence (etaAt etaPrime 2) (s_Kappa (posteriorStates cs)); Ret (MkTicketsOrKeys None (Some keys));
  Ret (onPosterior (SetGammaS newGammaS) cs).

(** ** Ring verifier *)

(** The verifier, and the store with the cache: a cached verifier is found by
    its epoch alone. *)
Definition GetVerifier (epoch : Z) (gammaK : list Validator) (cs : ChainState) : option Verifier * ChainState :=
  if negb (lenOf gammaK =? ValidatorsCount spec) then (None, cs)
  else
    let create :=
      match vrf_NewVerifier (concat (v_Bandersnatch <$> gammaK)) (lenOf gammaK) with
      | None => (None, SetVerifierCache None cs)
      | Some v => (Some v, SetVerifierCache (Some (epoch, v)) cs)
      end in
    match verifierCache cs with
    | Some (cached, v) => if cached =? epoch then (Some v, cs) else create
    | None => create
    end.

Definition UpdateEtaPrime0 (cs : ChainState) : ChainState :=
  let entropySource := h_EntropySource (b_Header (latestBlock cs)) in
  let eta := s_Eta (priorStates cs) in
  match vrf_VRFIetfOutput entropySource with
  | None => cs
  | Some vrfOutput => onPosterior (SetEta0 (Blake2bHash (etaAt eta 0 ++ vrfOutput))) cs
  end.

(** ** Ticket extrinsic *)

Definition VerifyEpochTail (cs : ChainState) (tickets : list TicketEnvelope) : option Z :=
  let mPrime := GetSlotIndex (s_Tau (posteriorStates cs)) in
  if mPrime <? u32 (SlotSubmissionEnd spec) then
    if ValidatorsCount spec <? lenOf tickets then Some SafroleErrorCode.UnexpectedTicket else None
  else if negb (lenOf tickets =? 0) then Some SafroleErrorCode.UnexpectedTicket
  else None.

Definition VerifyTicketsAttempt (tickets : list TicketEnvelope) : option Z :=
  firstErr (fun ticket => if u64 (TicketsPerValidator spec) <=? te_Attempt ticket
                          then Some SafroleErrorCode.BadTicketAttempt else None) tickets.

(** The results are paired with the tickets by index; a [TicketID] is an
    array of 32 bytes. *)
Fixpoint collectTickets (tickets : list TicketEnvelope) (results : list (option Bytes)) {struct results}
  : go (list TicketBody * option Z) :=
  match results, tickets with
  | [], _ => Ret ([], None)
  | None :: _, _ => Ret ([], Some SafroleErrorCode.BadTicketProof)
  | Some output :: results, tickets =>
      if lenOf output <? 32 then Crash
      else
        match tickets with
        | [] => Crash
        | ticket :: tickets =>
            r ← collectTickets tickets results;
            Ret (MkTicketBody (take 32 output) (te_Attempt ticket) :: fst r, snd r)
        end
  end.

Definition VerifyTicketsProof (cs : ChainState) (ringVerifier : option Verifier) (tickets : list TicketEnvelope)
  : go (list TicketBody * option Z) :=
  let posteriorEta := s_Eta (posteriorStates cs) in
  let items := (fun ticket =>
    MkVerifyItem (createSignatureContext JamTicketSeal (etaAt posteriorEta 2) (te_Attempt ticket)) []
      (te_Signature ticket)) <$> tickets in
  results ← vrf_RingVerifyBatch ringVerifier items;
  match results with
  | None => Ret ([], Some SafroleErrorCode.BadTicketProof)
  | Some results =>
      r ← collectTickets tickets results;
      match snd r with Some e => Ret ([], Some e) | None => Ret r end
  end.

Definition GetPreviousTicketsAccumulator (cs : ChainState) : list TicketBody :=
  let e := GetEpochIndex (s_Tau (priorStates cs)) in
  let ePrime := GetEpochIndex (s_Tau (posteriorStates cs)) in
  if e <? ePrime then [] else sf_GammaA (s_Gamma (priorStates cs)).

Definition CreateNewTicketAccumulator (ringVerifier : option Verifier) (cs : ChainState) : go (ChainState * option Z) :=
  let extrinsicTickets := ex_Tickets (b_Extrinsic (latestBlock cs)) in
  match orElse (VerifyEpochTail cs extrinsicTickets) (VerifyTicketsAttempt extrinsicTickets) with
  | Some err => Ret (cs, Some err)
  | None =>
      r ← VerifyTicketsProof cs ringVerifier extrinsicTickets;
      let '(newTickets, err) := r in
      match orElse err (orElse (VerifyTicketsOrder newTickets) (VerifyTicketsDuplicate newTickets)) with
      | Some err => Ret (cs, Some err)
      | None =>
          let newTicketsAccumulator := merge_sort ticketLe (newTickets ++ GetPreviousTicketsAccumulator cs) in
          match VerifyTicketsDuplicate newTicketsAccumulator with
          | Some err => Ret (cs, Some err)
          | None => Ret (onPosterior (SetGammaA (take (Z.to_nat (EpochLength spec)) newTicketsAccumulator)) cs, None)
          end
      end
  end.

(** ** Markers *)

Definition CreateEpochMarker (e ePrime : Z) (cs : ChainState) : ChainState :=
  if e <? ePrime then
    let eta := s_Eta (priorStates cs) in
    let gammaK := sf_GammaK (s_Gamma (posteriorStates cs)) in
    onProcessing (SetEpochMark (Some (MkEpochMark (etaAt eta 0) (etaAt eta 1)
      ((fun v => MkEpochMarkValidatorKeys (v_Bandersnatch v) (v_Ed25519 v)) <$> gammaK)))) cs
  else onProcessing (SetEpochMark None) cs.

Definition CreateWinningTickets (e ePrime m mPrime : Z) (cs : ChainState) : go ChainState :=
  let gammaA := sf_GammaA (s_Gamma (priorStates cs)) in
  let condition1 := ePrime =? e in
  let condition2 := (m <? u32 (SlotSubmissionEnd spec)) && (u32 (SlotSubmissionEnd spec) <=? mPrime) in
  let condition3 := lenOf gammaA =? EpochLength spec in
  if condition1 && condition2 && condition3 then
    ticketsMark ← OutsideInSequencer gammaA;
    Ret (onProcessing (SetTicketsMark (Some ticketsMark)) cs)
  else Ret (onProcessing (SetTicketsMark None) cs).

(** ** The transition *)

(** The new ring commitment; an error of the library is only logged, and the
    conversion of the commitment to an array may panic. *)
Definition updateGammaZ (e ePrime : Z) (ringVerifier : option Verifier) (cs : ChainState) : go ChainState :=
  if e <? ePrime then
    commitment ← vrf_GetCommitment ringVerifier;
    match commitment with
    | None | Some [] => Ret cs
    | Some commitment =>
        if lenOf commitment <? 144 then Crash else Ret (onPosterior (SetGammaZ (take 144 commitment)) cs)
    end
  else Ret cs.

Definition OuterUsedSafrole (cs : ChainState) : go (ChainState * option Z) :=
  let tau := s_Tau (priorStates cs) in
  let tauPrime := s_Tau (posteriorStates cs) in
  let '(e, m) := R tau in
  let '(ePrime, mPrime) := R tauPrime in
  if tauPrime <=? tau then Ret (cs, Some SafroleErrorCode.BadSlot)
  else
    let cs := UpdateEntropy e ePrime cs in
    let cs := KeyRotate e ePrime cs in
    cs ← UpdateSlotKeySequence e ePrime m cs;
    let postGammaK := sf_GammaK (s_Gamma (posteriorStates cs)) in
    let '(ringVerifier, cs) := GetVerifier ePrime postGammaK cs in
    cs ← updateGammaZ e ePrime ringVerifier cs;
    let cs := UpdateEtaPrime0 cs in
    r ← CreateNewTicketAccumulator ringVerifier cs;
    let '(cs, HtErrCode) := r in
    match HtErrCode with
    | Some err => Ret (cs, Some err)
    | None =>
        cs ← CreateWinningTickets e ePrime m mPrime cs;
        Ret (CreateEpochMarker e ePrime cs, None)
    end.

(** ** Checks of a header *)

Definition ValidateHeaderEpochMark (header : Header) (priorState posteriorState : State) : option Z :=
  let e := fst (R (s_Tau priorState)) in
  let ePrime := fst (R (h_Slot header)) in
  let bad := Some SafroleErrorCode.InvalidEpochMark in
  match h_EpochMark header with
  | None => if e <? ePrime then bad else None
  | Some em =>
      if negb (e <? ePrime) then bad
      else if negb (bool_decide (em_Entropy em = etaAt (s_Eta priorState) 0)) ||
              negb (bool_decide (em_TicketsEntropy em = etaAt (s_Eta priorState) 1)) then bad
      else if (0 <? ValidatorsCount spec) && negb (lenOf (em_Validators em) =? ValidatorsCount spec) then bad
      else if negb (lenOf (sf_GammaK (s_Gamma posteriorState)) =? lenOf (em_Validators em)) then bad
      else firstErr (fun '(actualValidator, expectedValidator) =>
        if negb (bool_decide (ek_Bandersnatch actualValidator = v_Bandersnatch expectedValidator)) ||
           negb (bool_decide (ek_Ed25519 actualValidator = v_Ed25519 expectedValidator)) then bad else None)
        (combine (em_Validators em) (sf_GammaK (s_Gamma posteriorState)))
  end.

Definition ValidateHeaderTicketsMark (header : Header) (state : State) : go (option Z) :=
  let '(e, m) := R (s_Tau state) in
  let '(ePrime, mPrime) := R (h_Slot header) in
  let gammaA := sf_GammaA (s_Gamma state) in
  let condition1 := ePrime =? e in
  let condition2 := (m <? u32 (SlotSubmissionEnd spec)) && (u32 (SlotSubmissionEnd spec) <=? mPrime) in
  let condition3 := lenOf gammaA =? EpochLength spec in
  let bad := Some SafroleErrorCode.InvalidTicketsMark in
  if negb (condition1 && condition2 && condition3) then
    Ret (match h_TicketsMark header with Some _ => bad | None => None end)
  else
    match h_TicketsMark header with
    | None => Ret bad
    | Some tm =>
        expectedTm ← OutsideInSequencer gammaA;
        Ret (if bool_decide (tm = expectedTm) then None else bad)
    end.

Definition ValidateHeaderOffenderMarker (cs : ChainState) (header : Header) : option Z :=
  let block := latestBlock cs in
  if negb (h_Slot (b_Header block) =? h_Slot header) then None
  else
    let disputes := ex_Disputes (b_Extrinsic block) in
    let expected := (cu_Key <$> de_Culprits disputes) ++ (f_Key <$> de_Faults disputes) in
    if bool_decide (h_OffendersMark header = expected) then None else Some SafroleErrorCode.InvalidOffenderMarker.

(** The encoding of a header without its seal, an array of 96 bytes. *)
Definition HeaderUSerialization (header : Header) : go (option Bytes) :=
  ⟪ serializedHeader ⟫ ⇠ enc_Header spec header ⊘ Ret None;
  let validLength := lenOf serializedHeader - lenOf (h_Seal header) in
  if validLength <? 0 then Crash else Ret (Some (take (Z.to_nat validLength) serializedHeader)).

Definition ValidateHeaderEntropy (header : Header) (priorState : State) : go (option Z) :=
  let vrfOutput := default [] (vrf_VRFIetfOutput (h_Seal header)) in
  let context := JamEntropy ++ vrfOutput in
  signer ← zindex (s_Kappa priorState) (h_AuthorIndex header);
  Ret (match vrf_IETFVerify context [] (h_EntropySource header) (v_Bandersnatch signer) with
       | None => Some SafroleErrorCode.VrfEntropyInvalid
       | Some _ => None
       end).

Definition verifySeal (header : Header) (signer : Validator) (context : Bytes) : go (option Z) :=
  ⟪ message ⟫ ⇠ HeaderUSerialization header ⊘ Ret (Some SafroleErrorCode.VrfSealInvalid);
  Ret (match vrf_IETFVerify context message (h_Seal header) (v_Bandersnatch signer) with
       | None => Some SafroleErrorCode.VrfSealInvalid
       | Some _ => None
       end).

Definition ValidateByBandersnatchs (header : Header) (state : State) : go (option Z) :=
  let gammaSKeys := default [] (tk_Keys (sf_GammaS (s_Gamma state))) in
  if lenOf gammaSKeys =? 0 then Ret (Some SafroleErrorCode.VrfSealInvalid)
  else
    let index := h_Slot header mod lenOf gammaSKeys in
    expectedPublicKey ← zindex gammaSKeys index;
    author ← zindex (s_Kappa state) (h_AuthorIndex header);
    if negb (bool_decide (expectedPublicKey = v_Bandersnatch author)) then Ret (Some SafroleErrorCode.UnexpectedAuthor)
    else verifySeal header author (JamFallbackSeal ++ etaAt (s_Eta state) 3).

(** The signer's key is read after the header is serialized. *)
Definition ValidateByTickets (header : Header) (state : State) : go (option Z) :=
  let gammaSTickets := default [] (tk_Tickets (sf_GammaS (s_Gamma state))) in
  if lenOf gammaSTickets =? 0 then Ret (Some SafroleErrorCode.VrfSealInvalid)
  else
    let index := h_Slot header mod lenOf gammaSTickets in
    ticket ← zindex gammaSTickets index;
    match vrf_VRFIetfOutput (h_Seal header) with
    | None => Ret (Some SafroleErrorCode.VrfSealInvalid)
    | Some vrfOutput =>
        if negb (bool_decide (vrfOutput = tb_ID ticket)) then Ret (Some SafroleErrorCode.VrfSealInvalid)
        else
          ⟪ message ⟫ ⇠ HeaderUSerialization header ⊘ Ret (Some SafroleErrorCode.VrfSealInvalid);
          signer ← zindex (s_Kappa state) (h_AuthorIndex header);
          Ret (match vrf_IETFVerify (JamTicketSeal ++ etaAt (s_Eta state) 3 ++ [u8 (tb_Attempt ticket)]) message
                       (h_Seal header) (v_Bandersnatch signer) with
               | None => Some SafroleErrorCode.VrfSealInvalid
               | Some _ => None
               end)
    end.

Definition ValidateHeaderSeal (header : Header) (state : State) : go (option Z) :=
  let gammaS := sf_GammaS (s_Gamma state) in
  match TicketsOrKeys_Validate spec gammaS with
  | Some _ => Ret (Some SafroleErrorCode.VrfSealInvalid)
  | None =>
      if 0 <? lenOpt (tk_Tickets gammaS) then ValidateByTickets header state
      else ValidateByBandersnatchs header state
  end.

End Safrole.
