(* ===== verification/SafroleSpec.v ===== *)
(** * Correctness of Safrole

    The slot keys, the ticket accumulator and the whole transition
    ([OuterUsedSafrole]) against sections 6.3 to 6.7 of the protocol. *)

From stdpp Require Import sorting.
From S2P Require Import Prelude Words Types Config Codec CodecSpec Encode Crypto Store StoreLaws Validate Safrole.
From S2P Require Decode.
Local Open Scope Z_scope.

(** ** Outside-in order *)

Lemma half_succ k : (S k / 2 = if Nat.even k then k / 2 else S (k / 2))%nat.
Proof.
  destruct (Nat.even k) eqn:E.
  - apply Nat.even_spec in E as [m ->]. rewrite <- Nat.add_1_r, !(Nat.mul_comm 2). rewrite Nat.div_add_l, Nat.div_mul by lia. cbn. lia.
  - assert (Nat.odd k = true) as [m ->]%Nat.odd_spec by (unfold Nat.odd; by rewrite E).
    replace (S (2 * m + 1))%nat with ((m + 1) * 2)%nat by lia. rewrite Nat.div_mul by lia.
    replace (2 * m + 1)%nat with (m * 2 + 1)%nat by lia. rewrite Nat.div_add_l by lia. cbn. lia.
Qed.

Lemma even_of_nat k : Z.even (Z.of_nat k) = Nat.even k.
Proof.
  induction k as [|k IH]; [done|]. rewrite Nat2Z.inj_succ, Z.even_succ, <- Z.negb_even, IH.
  rewrite Nat.even_succ. by rewrite <- Nat.negb_even.
Qed.

(** The element at place [k] of what is left when the loop is at [i]. *)
Definition outsideAt {A} (i left right : Z) (t : list A) (k : nat) : option A :=
  if Z.even (i + Z.of_nat k) then t !! (Z.to_nat left + k / 2)%nat else t !! (Z.to_nat right - k / 2)%nat.

Lemma outsideAt_succ {A} i left right (t : list A) k : 0 <= left -> 1 <= right ->
  outsideAt i left right t (S k) =
    if Z.even i then outsideAt (i + 1) (left + 1) right t k else outsideAt (i + 1) left (right - 1) t k.
Proof.
  intros Hl Hr. unfold outsideAt. replace (i + Z.of_nat (S k)) with (i + 1 + Z.of_nat k) by lia.
  rewrite half_succ, !Z.even_add, even_of_nat. cbn [Z.even].
  destruct (Z.even i), (Nat.even k); cbn [eqb]; f_equal; lia.
Qed.

Lemma outsideInLoop_ok n i left right t : 0 <= left -> left + Z.of_nat n = right + 1 -> right < lenOf t ->
  exists out, outsideInLoop n i left right t = Ret out /\ out ≡ₚ take n (drop (Z.to_nat left) t) /\
    forall k, (k < n)%nat -> out !! k = outsideAt i left right t k.
Proof.
  unfold lenOf. revert i left right. induction n as [|n IH]; intros i left right Hl Hs Hr.
  { exists []. split_and!; try done. intros k Hk. lia. }
  destruct (lookup_lt_is_Some_2 t (Z.to_nat left)) as [x Hx]; [lia|].
  destruct (lookup_lt_is_Some_2 t (Z.to_nat right)) as [y Hy]; [lia|].
  cbn [outsideInLoop]. rewrite <- Zeven_mod. destruct (Z.even i) eqn:Ei.
  - rewrite (zindex_lookup t left x), go_bind_ret by done.
    destruct (IH (i + 1) (left + 1) right) as (out & E & Hp & Hk); [lia..|]. rewrite E, go_bind_ret.
    exists (x :: out). split; [done|]. split.
    + rewrite Hp. rewrite (drop_S t x (Z.to_nat left)) by done. by replace (Z.to_nat (left + 1)) with (S (Z.to_nat left)) by lia.
    + intros [|k] Hkn; [unfold outsideAt; rewrite Z.add_0_r, Ei; cbn; rewrite <- Hx; f_equal; lia|].
      cbn. rewrite Hk by lia. destruct (decide (n = 0)%nat) as [->|]; [lia|]. by rewrite outsideAt_succ, Ei by lia.
  - rewrite (zindex_lookup t right y), go_bind_ret by (done || lia).
    destruct (IH (i + 1) left (right - 1)) as (out & E & Hp & Hk); [lia..|]. rewrite E, go_bind_ret.
    exists (y :: out). split; [done|]. split.
    + rewrite Hp. rewrite (take_S_r _ _ y); [by rewrite Permutation_cons_append|].
      rewrite lookup_drop. rewrite <- Hy. f_equal. lia.
    + intros [|k] Hkn; [unfold outsideAt; rewrite Z.add_0_r, Ei; cbn; rewrite <- Hy; f_equal; lia|].
      cbn. rewrite Hk by lia. destruct (decide (n = 0)%nat) as [->|]; [lia|]. by rewrite outsideAt_succ, Ei by lia.
Qed.

Section Safrole.
Context `{HashFunctions} `{VRF} (spec : ChainSpec).

Lemma OutsideInSequencer_ok t : lenOf t = EpochLength spec ->
  exists out, OutsideInSequencer spec t = Ret out /\ out ≡ₚ t /\
    forall k, (k < length t)%nat -> out !! k = outsideAt 0 0 (lenOf t - 1) t k.
Proof.
  intros Hl. unfold OutsideInSequencer. rewrite <- Hl. unfold lenOf. rewrite Nat2Z.id.
  destruct (outsideInLoop_ok (length t) 0 0 (Z.of_nat (length t) - 1) t) as (out & E & Hp & Hk); unfold lenOf; [lia..|].
  exists out. split; [done|]. split; [|done]. by rewrite Hp, take_ge.
Qed.

(** The outside-in sequence of an epoch of tickets is a rearrangement of
    them: the even places take the tickets from the front in order, the odd
    ones from the back. *)
Theorem OutsideInSequencer_spec t : lenOf t = EpochLength spec ->
  exists out, OutsideInSequencer spec t = Ret out /\ out ≡ₚ t /\
    forall k, (k < length t)%nat ->
      out !! k = if Nat.even k then t !! (k / 2)%nat else t !! (length t - 1 - k / 2)%nat.
Proof.
  intros Hl. destruct (OutsideInSequencer_ok t Hl) as (out & E & Hp & Hk). exists out. split_and!; try done.
  intros k Hlt. rewrite (Hk k Hlt). unfold outsideAt, lenOf. rewrite Z.add_0_l, even_of_nat.
  destruct (Nat.even k); [done|]. f_equal. lia.
Qed.

(** ** Fallback keys *)

Lemma fallbackKey_ok `{!HashLaws} entropy validators i : 0 < ValidatorsCount spec < 2 ^ 32 ->
  lenOf validators = ValidatorsCount spec ->
  exists v, fallbackKey spec entropy validators i = Ret (v_Bandersnatch v) /\ v ∈ validators.
Proof.
  intros Hv Hl. unfold fallbackKey, Blake2bHashPartial. cbv zeta.
  destruct (blake2b_hash (entropy ++ SerializeFixedLength i 4)) as [Hh _].
  unfold lslice. rewrite Hh. change ((0 <=? 0) && (0 <=? 4) && (4 <=? Z.of_nat 32)) with true. cbn iota. rewrite go_bind_ret.
  set (x := default 0 _). replace (u32 (ValidatorsCount spec)) with (ValidatorsCount spec)
    by (unfold uN; rewrite Z.mod_small; lia).
  pose proof (Z.mod_pos_bound x (ValidatorsCount spec)) as Hx. unfold lenOf in Hl.
  destruct (zindex_ok validators (x mod ValidatorsCount spec)) as (v & Ev & Hin); [lia|].
  exists v. by rewrite Ev, go_bind_ret.
Qed.

Lemma fallbackLoop_ok `{!HashLaws} n i entropy validators : 0 < ValidatorsCount spec < 2 ^ 32 ->
  lenOf validators = ValidatorsCount spec ->
  exists keys, fallbackLoop spec n i entropy validators = Ret keys /\ length keys = n /\
    Forall (fun key => key ∈ v_Bandersnatch <$> validators) keys.
Proof.
  intros Hv Hl. revert i. induction n as [|n IH]; intros i; [exists []; by split_and!|]. cbn [fallbackLoop].
  destruct (fallbackKey_ok entropy validators i Hv Hl) as (v & -> & Hin). rewrite go_bind_ret.
  destruct (IH (i + 1)) as (keys & -> & Hlen & Hk). rewrite go_bind_ret. exists (v_Bandersnatch v :: keys).
  split; [done|]. split; [by cbn; rewrite Hlen|]. constructor; [|done]. apply list_elem_of_fmap. eauto.
Qed.

(** ** The ticket accumulator *)

Definition tickets_sorted (l : list TicketBody) : Prop := StronglySorted (fun s t => bytesLt (tb_ID s) (tb_ID t)) l.

#[local] Instance ticketLe_trans : Transitive ticketLe.
Proof. intros a b c. apply bytesLe_trans. Qed.
#[local] Instance ticketLe_total : Total ticketLe.
Proof. intros a b. apply bytesLe_total. Qed.

Lemma duplicate_None l : VerifyTicketsDuplicate l = None <-> Sorted (fun s t => tb_ID s <> tb_ID t) l.
Proof.
  unfold VerifyTicketsDuplicate. destruct (existsAdjacent _ l) eqn:E.
  - split; [done|]. intros Hs. exfalso. apply not_true_iff_false in E; [done|]. apply existsAdjacent_false.
    eapply Sorted_weaken; [|exact Hs]. intros s t Hn. by apply bool_decide_eq_false.
  - split; [intros _|done]. apply existsAdjacent_false in E. eapply Sorted_weaken; [|exact E]. intros s t.
    apply bool_decide_eq_false.
Qed.

Lemma order_None l : VerifyTicketsOrder l = None <-> Sorted ticketLe l.
Proof.
  unfold VerifyTicketsOrder. destruct (existsAdjacent _ l) eqn:E.
  - split; [done|]. intros Hs. exfalso. apply not_true_iff_false in E; [done|]. apply existsAdjacent_false.
    eapply Sorted_weaken; [|exact Hs]. intros s t Hn. by apply bytesGt_false.
  - split; [intros _|done]. apply existsAdjacent_false in E. eapply Sorted_weaken; [|exact E]. intros s t.
    apply bytesGt_false.
Qed.

Lemma new_tickets_sorted l : VerifyTicketsOrder l = None -> VerifyTicketsDuplicate l = None -> tickets_sorted l.
Proof. rewrite order_None, duplicate_None. apply (strictly_sorted tb_ID). Qed.

Lemma sort_tickets_sorted l : VerifyTicketsDuplicate (merge_sort ticketLe l) = None -> tickets_sorted (merge_sort ticketLe l).
Proof. rewrite duplicate_None. apply (strictly_sorted tb_ID). apply Sorted_merge_sort. apply _. Qed.

Lemma StronglySorted_split {A} (R : A -> A -> Prop) l1 l2 :
  StronglySorted R (l1 ++ l2) -> forall a b, a ∈ l1 -> b ∈ l2 -> R a b.
Proof.
  induction l1 as [|x l1 IH]; intros Hs a b Ha Hb; [by apply not_elem_of_nil in Ha|].
  apply StronglySorted_inv in Hs as [Hs Hx]. apply elem_of_cons in Ha as [->|Ha]; [|by apply IH].
  rewrite Forall_app in Hx. destruct Hx as [_ Hx]. rewrite Forall_forall in Hx. by apply Hx.
Qed.

Lemma StronglySorted_take {A} (R : A -> A -> Prop) n l : StronglySorted R l -> StronglySorted R (take n l).
Proof. intros Hs. revert n. induction Hs as [|x l Hs IH Hx]; intros [|n]; cbn; constructor; [by apply IH|by apply Forall_take]. Qed.

(** The tickets a block brings in: their proofs hold, the identifiers are the
    outputs of the proofs. *)
Definition proved_tickets (results : list (option Bytes)) (tickets : list TicketEnvelope) (new : list TicketBody) : Prop :=
  length new = length results /\
  Forall2 (fun r t => exists output, r = Some output /\ tb_ID t = take 32 output) results new /\
  tb_Attempt <$> new = te_Attempt <$> take (length results) tickets.

Lemma collectTickets_ok results tickets new : collectTickets tickets results = Ret (new, None) ->
  proved_tickets results tickets new.
Proof.
  revert tickets new. induction results as [|[output|] results IH]; intros tickets new; cbn [collectTickets].
  - intros [= <-]. by split_and!; try done; constructor.
  - destruct (lenOf output <? 32); [done|]. destruct tickets as [|ticket tickets]; [done|].
    intros ([l e] & E & Heq)%go_bind_inv. cbn in Heq. injection Heq as <- ->.
    destruct (IH _ _ E) as (Hl & Hf & Ha). split; [by cbn; rewrite Hl|]. split.
    + constructor; [eexists; done|done].
    + cbn. by rewrite Ha.
  - done.
Qed.

(** The accumulator takes the smallest of the new and the old tickets. *)
Definition accumulates (new old acc : list TicketBody) : Prop :=
  tickets_sorted acc /\ lenOf acc <= EpochLength spec /\
  exists dropped, new ++ old ≡ₚ acc ++ dropped /\
    (forall a d, a ∈ acc -> d ∈ dropped -> bytesLt (tb_ID a) (tb_ID d)) /\
    (dropped <> [] -> lenOf acc = EpochLength spec).

Lemma accumulate_ok new old : 0 <= EpochLength spec -> VerifyTicketsDuplicate (merge_sort ticketLe (new ++ old)) = None ->
  accumulates new old (take (Z.to_nat (EpochLength spec)) (merge_sort ticketLe (new ++ old))).
Proof.
  intros HE Hd. pose proof (sort_tickets_sorted _ Hd) as Hs. set (l := merge_sort _ _) in *.
  unfold accumulates, lenOf. split; [by apply StronglySorted_take|]. rewrite length_take. split; [lia|].
  exists (drop (Z.to_nat (EpochLength spec)) l). rewrite take_drop. split; [subst l; by rewrite merge_sort_Permutation|].
  split.
  - apply (StronglySorted_split (fun s t => bytesLt (tb_ID s) (tb_ID t))). by rewrite take_drop.
  - intros Hn. destruct (decide (length l <= Z.to_nat (EpochLength spec))%nat) as [Hle|]; [|lia].
    by rewrite drop_ge in Hn.
Qed.

(** What [CreateNewTicketAccumulator] does when it succeeds. *)
Definition tickets_accepted (cs : ChainState) (verifier : option Verifier) (acc : list TicketBody) : Prop :=
  let tickets := ex_Tickets (b_Extrinsic (latestBlock cs)) in
  (if GetSlotIndex spec (s_Tau (posteriorStates cs)) <? u32 (SlotSubmissionEnd spec)
   then lenOf tickets <= ValidatorsCount spec else tickets = []) /\
  Forall (fun t => te_Attempt t < u64 (TicketsPerValidator spec)) tickets /\
  exists results new,
    vrf_RingVerifyBatch verifier ((fun t => MkVerifyItem
      (createSignatureContext JamTicketSeal (etaAt (s_Eta (posteriorStates cs)) 2) (te_Attempt t)) [] (te_Signature t)) <$> tickets)
      = Ret (Some results) /\
    proved_tickets results tickets new /\ tickets_sorted new /\
    accumulates new (GetPreviousTicketsAccumulator spec cs) acc.

Lemma CreateNewTicketAccumulator_ok verifier cs cs' : 0 <= EpochLength spec ->
  CreateNewTicketAccumulator spec verifier cs = Ret (cs', None) ->
  exists acc, cs' = onPosterior (SetGammaA acc) cs /\ tickets_accepted cs verifier acc.
Proof.
  intros HE. unfold CreateNewTicketAccumulator. set (tickets := ex_Tickets _).
  destruct (orElse _ _) eqn:E1; [done|]. apply orElse_None in E1 as [Et Ea].
  intros ([new err] & Ep & Hr)%go_bind_inv. destruct (orElse err _) eqn:E2; [done|].
  apply orElse_None in E2 as [-> [Eo Ed]%orElse_None].
  destruct (VerifyTicketsDuplicate (merge_sort _ _)) eqn:E3; [done|]. injection Hr as <-.
  eexists. split; [reflexivity|]. unfold tickets_accepted. fold tickets. split; [|split].
  - unfold VerifyEpochTail in Et. destruct (_ <? u32 _).
    + destruct (Z.ltb_spec (ValidatorsCount spec) (lenOf tickets)); [done|lia].
    + destruct (lenOf tickets =? 0) eqn:El; [|done]. apply Z.eqb_eq in El. unfold lenOf in El.
      destruct tickets; [done|cbn in El; lia].
  - apply firstErr_None in Ea. eapply Forall_impl; [exact Ea|]. cbn. intros t. zcase; [done|lia].
  - unfold VerifyTicketsProof in Ep. fold tickets in Ep. apply go_bind_inv in Ep as ([results|] & Er & Ep); [|done].
    apply go_bind_inv in Ep as ([l e] & Ec & Ep). cbn in Ep. destruct e as [e|]; [done|]. injection Ep as ->.
    exists results, new. split_and!; [exact Er|by apply collectTickets_ok|by apply new_tickets_sorted|].
    by apply accumulate_ok.
Qed.

(** The ticket accumulator (6.29 to 6.34).  If the ticket extrinsic is
    accepted, it is empty in the tail of the epoch, its attempts are in
    range, every ring proof in it holds, and the tickets of the proofs are in
    strictly ascending order; the posterior accumulator is then the smallest
    [EpochLength] of these and the tickets of the prior accumulator (of none,
    in a new epoch), in strictly ascending order, and nothing else changes. *)
Theorem CreateNewTicketAccumulator_spec verifier cs cs' : 0 <= EpochLength spec ->
  CreateNewTicketAccumulator spec verifier cs = Ret (cs', None) ->
  exists acc, cs' = onPosterior (SetGammaA acc) cs /\ tickets_accepted cs verifier acc.
Proof. apply CreateNewTicketAccumulator_ok. Qed.

(** ** The transition *)

(** The parts of a state Safrole does not write. *)
Definition safrole_frame (s s' : State) : Prop :=
  s' = SetGamma (s_Gamma s') (SetEta (s_Eta s') (SetIota (s_Iota s') (SetKappa (s_Kappa s') (SetLambda (s_Lambda s') s)))).

Lemma frame_refl s : safrole_frame s s.
Proof. by destruct s. Qed.
Lemma frame_trans s1 s2 s3 : safrole_frame s1 s2 -> safrole_frame s2 s3 -> safrole_frame s1 s3.
Proof. unfold safrole_frame. intros -> ->. by destruct s1. Qed.

(** Validators without the keys of the offenders. *)
Definition without (off : list Bytes) (validators : list Validator) : list Validator :=
  (fun validator => if ValidatorIsOffender validator off then nullValidator else validator) <$> validators.

Lemma nullOffenders_self off vs : nullOffenders off vs vs = without off vs.
Proof.
  unfold nullOffenders, without. apply list_eq. intros i. rewrite list_lookup_imap, list_lookup_fmap.
  by destruct (vs !! i).
Qed.

Lemma without_idem off vs : without off (without off vs) = without off vs.
Proof.
  unfold without. rewrite <- list_fmap_compose. apply list_fmap_ext. intros i v _. cbn.
  destruct (ValidatorIsOffender v off) eqn:E; [|by rewrite E]. by destruct (ValidatorIsOffender nullValidator _).
Qed.

(** Nulling the offenders of an array takes them from each set that is that
    array. *)
Lemma inArray_self off a vs cs b v : coherent cs -> (a, vs) ∈ slots cs -> (b, v) ∈ slots cs ->
  inArray a b (nullOffenders off vs) v = inArray a b (without off) v.
Proof.
  intros [Hs _ _] Ha Hb. unfold inArray. destruct (Nat.eqb_spec b a) as [->|]; [|done].
  rewrite (Hs _ _ _ Hb Ha). apply nullOffenders_self.
Qed.

Lemma write_self off a vs cs : coherent cs -> (a, vs) ∈ slots cs ->
  writeValidators a (nullOffenders off vs) cs = writeValidators a (without off) cs.
Proof.
  intros Hc Ha. unfold writeValidators, writeArrays, onPosterior, onPrior. cbn.
  rewrite !(inArray_self off a vs cs) by (done || slot). done.
Qed.

(** The validators [v] of the array [b] once the prior incoming keys lost
    the offenders: if that is the same array, so did these. *)
Definition nulled (cs : ChainState) (b : nat) (v : list Validator) : list Validator :=
  inArray (va_Iota (priorArrays (sharing cs))) b (without (dr_Offenders (s_Psi (posteriorStates cs)))) v.

Lemma nulled_ok cs b v : coherent cs -> (b, v) ∈ slots cs ->
  inArray (va_Iota (priorArrays (sharing cs))) b
    (nullOffenders (dr_Offenders (s_Psi (posteriorStates cs))) (s_Iota (priorStates cs))) v = nulled cs b v.
Proof. intros Hc Hin. eapply inArray_self; [done| |done]. slot. Qed.

(** The slot keys (6.24). *)
Definition slot_keys (e e' m : Z) (gammaA : list TicketBody) (prior : TicketsOrKeys) (eta2 : Bytes) (kappa : list Validator)
    (gammaS : TicketsOrKeys) : Prop :=
  if (e' =? u32 (e + 1)) && (lenOf gammaA =? EpochLength spec) && (SlotSubmissionEnd spec <=? m)
  then exists tickets, OutsideInSequencer spec gammaA = Ret tickets /\ gammaS = MkTicketsOrKeys (Some tickets) None
  else if e' =? e then gammaS = prior
  else exists keys, FallbackKeySequence spec eta2 kappa = Ret keys /\ gammaS = MkTicketsOrKeys None (Some keys).

(** The relation of the store before, with [prior] its prior state, and the
    posterior state (6.13, 6.22 to 6.24). *)
Record safrole_transition (cs : ChainState) (prior post : State) : Prop := {
  st_tau : s_Tau prior < s_Tau post;
  st_keys : let e := GetEpochIndex spec (s_Tau prior) in let e' := GetEpochIndex spec (s_Tau post) in
    let pa := priorArrays (sharing cs) in
    if e <? e' then
      sf_GammaK (s_Gamma post) = without (dr_Offenders (s_Psi post)) (s_Iota prior) /\
      s_Kappa post = nulled cs (va_GammaK pa) (sf_GammaK (s_Gamma prior)) /\ s_Lambda post = nulled cs (va_Kappa pa) (s_Kappa prior)
    else
      sf_GammaK (s_Gamma post) = sf_GammaK (s_Gamma prior) /\ sf_GammaZ (s_Gamma post) = sf_GammaZ (s_Gamma prior) /\
      s_Kappa post = s_Kappa prior /\ s_Lambda post = s_Lambda prior;
  st_entropy : let e := GetEpochIndex spec (s_Tau prior) in let e' := GetEpochIndex spec (s_Tau post) in
    let k := if e <? e' then 0%nat else 1%nat in
    length (s_Eta post) = 4%nat /\
    (forall i, (i < 3)%nat -> etaAt (s_Eta post) (S i) = etaAt (s_Eta prior) (i + k)) /\
    forall y, vrf_VRFIetfOutput (h_EntropySource (b_Header (latestBlock cs))) = Some y ->
      etaAt (s_Eta post) 0 = Blake2bHash (etaAt (s_Eta prior) 0 ++ y);
  st_slots : slot_keys (GetEpochIndex spec (s_Tau prior)) (GetEpochIndex spec (s_Tau post))
    (GetSlotIndex spec (s_Tau prior)) (sf_GammaA (s_Gamma prior)) (sf_GammaS (s_Gamma prior))
    (etaAt (s_Eta post) 2) (s_Kappa post) (sf_GammaS (s_Gamma post));
  st_tickets : tickets_sorted (sf_GammaA (s_Gamma post)) /\ lenOf (sf_GammaA (s_Gamma post)) <= EpochLength spec;
  st_iota : s_Iota post = (if GetEpochIndex spec (s_Tau prior) <? GetEpochIndex spec (s_Tau post)
    then nulled cs (va_Iota (posteriorArrays (sharing cs))) (s_Iota (posteriorStates cs)) else s_Iota (posteriorStates cs));
  st_frame : safrole_frame (posteriorStates cs) post }.

(** What becomes of the prior state, and whose slices the posterior sets are. *)
Definition prior_nulled (cs : ChainState) (newEpoch : bool) : State :=
  let pa := priorArrays (sharing cs) in
  if newEpoch then writeArrays (va_Iota pa) (without (dr_Offenders (s_Psi (posteriorStates cs)))) pa (priorStates cs) else priorStates cs.

Definition rotated_arrays (cs : ChainState) (newEpoch : bool) : Sharing :=
  let pa := priorArrays (sharing cs) in let iota := va_Iota (posteriorArrays (sharing cs)) in
  SetPosteriorArrays (if newEpoch then MkValidatorArrays (va_Iota pa) iota (va_GammaK pa) (va_Kappa pa)
                      else MkValidatorArrays (va_GammaK pa) iota (va_Kappa pa) (va_Lambda pa)) (sharing cs).

(** The states after the key rotation. *)
Lemma rotated cs : let e := GetEpochIndex spec (s_Tau (priorStates cs)) in
  let e' := GetEpochIndex spec (s_Tau (posteriorStates cs)) in
  let cs1 := KeyRotate e e' (UpdateEntropy e e' cs) in
  let post := posteriorStates cs1 in let prior := priorStates cs in
  let pa := priorArrays (sharing cs) in
  let null := nullOffenders (dr_Offenders (s_Psi (posteriorStates cs))) (s_Iota prior) in
  let written b v := inArray (va_Iota pa) b null v in
  (if e <? e' then
      sf_GammaK (s_Gamma post) = null (s_Iota prior) /\
      s_Kappa post = written (va_GammaK pa) (sf_GammaK (s_Gamma prior)) /\ s_Lambda post = written (va_Kappa pa) (s_Kappa prior) /\
      s_Iota post = written (va_Iota (posteriorArrays (sharing cs))) (s_Iota (posteriorStates cs))
    else
      sf_GammaK (s_Gamma post) = sf_GammaK (s_Gamma prior) /\ sf_GammaZ (s_Gamma post) = sf_GammaZ (s_Gamma prior) /\
      s_Kappa post = s_Kappa prior /\ s_Lambda post = s_Lambda prior /\ s_Iota post = s_Iota (posteriorStates cs)) /\
  length (s_Eta post) = 4%nat /\
  (forall i, (i < 3)%nat -> etaAt (s_Eta post) (S i) = etaAt (s_Eta prior) (i + if e <? e' then 0 else 1)) /\
  safrole_frame (posteriorStates cs) post /\ latestBlock cs1 = latestBlock cs /\
  priorStates cs1 = (if e <? e' then writeArrays (va_Iota pa) null pa prior else prior) /\
  sharing cs1 = rotated_arrays cs (e <? e').
Proof.
  intros e e' cs1 post prior pa null written. subst cs1 post. unfold KeyRotate, UpdateEntropy, ReplaceOffenderKeys. destruct (e <? e'); cbn.
  all: split_and!; try done; try (by destruct (posteriorStates cs)).
  all: intros [|[|[|i]]] Hi; cbn; by (done || lia).
Qed.

Lemma rotated_coherent e e' cs : coherent cs -> coherent (KeyRotate e e' (UpdateEntropy e e' cs)).
Proof.
  assert (coherent cs -> coherent (UpdateEntropy e e' cs)) as Hu by by rewrite !coherent_slots.
  intros Hc%Hu. unfold KeyRotate, ReplaceOffenderKeys. revert Hc. generalize (UpdateEntropy e e' cs). intros cs1 Hc.
  destruct (e <? e'); rewrite coherent_slots.
  - set (null := nullOffenders _ _). assert (coherent (writeValidators (va_Iota (priorArrays (sharing cs1))) null cs1)) as Hw by by apply coherent_write.
    apply coherent_slots in Hw. eapply coherent_incl; [|exact Hw]. unfold slots, slotsOf. cbn.
    assert (forall v, null v = inArray (va_Iota (priorArrays (sharing cs1))) (va_Iota (priorArrays (sharing cs1))) null v) as Hi
      by (intros v; unfold inArray; by rewrite Nat.eqb_refl).
    rewrite (Hi (s_Iota (priorStates cs1))). intros x. rewrite !elem_of_cons. tauto.
  - apply coherent_slots in Hc. eapply coherent_incl; [|exact Hc]. unfold slots, slotsOf. cbn. intros x. rewrite !elem_of_cons. tauto.
Qed.

Lemma UpdateSlotKeySequence_ok e e' m cs cs' : UpdateSlotKeySequence spec e e' m cs = Ret cs' ->
  exists gammaS, cs' = onPosterior (SetGammaS gammaS) cs /\
    slot_keys e e' m (sf_GammaA (s_Gamma (priorStates cs))) (sf_GammaS (s_Gamma (priorStates cs)))
      (etaAt (s_Eta (posteriorStates cs)) 2) (s_Kappa (posteriorStates cs)) gammaS.
Proof.
  unfold UpdateSlotKeySequence, slot_keys. intros (g & Eg & Hr)%go_bind_inv. injection Hr as <-.
  exists g. split; [done|]. destruct (_ && _); [|destruct (e' =? e)].
  - apply go_bind_inv in Eg as (t & Et & Eg). injection Eg as <-. eauto.
  - by injection Eg as <-.
  - apply go_bind_inv in Eg as (t & Et & Eg). injection Eg as <-. eauto.
Qed.

Lemma GetVerifier_ok epoch gammaK cs :
  exists c, snd (GetVerifier spec epoch gammaK cs) = SetVerifierCache c cs.
Proof.
  assert (cs = SetVerifierCache (verifierCache cs) cs) as Hid by by destruct cs.
  unfold GetVerifier. destruct (negb _); [eauto|]. cbv zeta.
  assert (exists c, snd (match vrf_NewVerifier (concat (v_Bandersnatch <$> gammaK)) (lenOf gammaK) with
    | Some v => (Some v, SetVerifierCache (Some (epoch, v)) cs) | None => (None, SetVerifierCache None cs) end)
    = SetVerifierCache c cs) as Hc by (destruct (vrf_NewVerifier _ _); eauto).
  destruct (verifierCache cs) as [[cached v]|]; [|exact Hc]. destruct (cached =? epoch); [eauto|exact Hc].
Qed.

Lemma updateGammaZ_ok e e' v cs cs' : updateGammaZ e e' v cs = Ret cs' ->
  exists z, cs' = onPosterior (SetGammaZ z) cs /\ ((e <? e') = false -> z = sf_GammaZ (s_Gamma (posteriorStates cs))).
Proof.
  assert (cs = onPosterior (SetGammaZ (sf_GammaZ (s_Gamma (posteriorStates cs)))) cs) as Hid.
  { by destruct cs as [? [? ? ? [] ? ? ? ? ? ? ? ? ? ? ? ? ?]]. }
  unfold updateGammaZ. destruct (e <? e'); [|intros [= <-]; eauto]. intros (c & _ & Hr)%go_bind_inv.
  destruct c as [[|b c]|]; [injection Hr as <-; eauto| |injection Hr as <-; eauto].
  destruct (_ <? 144); [done|]. injection Hr as <-. by eexists.
Qed.

Lemma UpdateEtaPrime0_ok cs : length (s_Eta (posteriorStates cs)) = 4%nat ->
  exists h, UpdateEtaPrime0 cs = onPosterior (SetEta0 h) cs /\
    forall y, vrf_VRFIetfOutput (h_EntropySource (b_Header (latestBlock cs))) = Some y ->
      h = Blake2bHash (etaAt (s_Eta (priorStates cs)) 0 ++ y).
Proof.
  intros Hl. unfold UpdateEtaPrime0. destruct (vrf_VRFIetfOutput _) as [y|]; [eexists; split; [done|]; congruence|].
  exists (etaAt (s_Eta (posteriorStates cs)) 0). split; [|done]. destruct cs as [? [? ? ? ? ? eta ? ? ? ? ? ? ? ? ? ? ?]].
  cbn in *. destruct eta as [|? [|? [|? [|? []]]]]; try done.
Qed.

Lemma CreateWinningTickets_ok e e' m m' cs cs' : CreateWinningTickets spec e e' m m' cs = Ret cs' ->
  priorStates cs' = priorStates cs /\ posteriorStates cs' = posteriorStates cs /\ sharing cs' = sharing cs.
Proof.
  unfold CreateWinningTickets. cbv zeta. destruct (_ && _); [intros (t & _ & Hr)%go_bind_inv|intros Hr]; by injection Hr as <-.
Qed.

(** The transition, whether or not the numbers of the arrays are right. *)
Lemma OuterUsedSafrole_raw cs cs' : 0 <= EpochLength spec -> OuterUsedSafrole spec cs = Ret (cs', None) ->
  let e := GetEpochIndex spec (s_Tau (priorStates cs)) in let e' := GetEpochIndex spec (s_Tau (posteriorStates cs)) in
  let cs1 := KeyRotate e e' (UpdateEntropy e e' cs) in
  s_Tau (priorStates cs) < s_Tau (posteriorStates cs) /\
  (exists acc h z gS, posteriorStates cs' = SetGammaA acc (SetEta0 h (SetGammaZ z (SetGammaS gS (posteriorStates cs1)))) /\
    ((e <? e') = false -> z = sf_GammaZ (s_Gamma (posteriorStates cs1))) /\
    (forall y, vrf_VRFIetfOutput (h_EntropySource (b_Header (latestBlock cs))) = Some y ->
      h = Blake2bHash (etaAt (s_Eta (priorStates cs)) 0 ++ y)) /\
    slot_keys e e' (GetSlotIndex spec (s_Tau (priorStates cs))) (sf_GammaA (s_Gamma (priorStates cs))) (sf_GammaS (s_Gamma (priorStates cs)))
      (etaAt (s_Eta (posteriorStates cs1)) 2) (s_Kappa (posteriorStates cs1)) gS /\
    tickets_sorted acc /\ lenOf acc <= EpochLength spec) /\
  priorStates cs' = priorStates cs1 /\ sharing cs' = sharing cs1.
Proof.
  intros HE. unfold OuterUsedSafrole, R. fold (GetEpochIndex spec (s_Tau (priorStates cs)))
    (GetEpochIndex spec (s_Tau (posteriorStates cs))) (GetSlotIndex spec (s_Tau (priorStates cs))).
  set (e := GetEpochIndex spec (s_Tau (priorStates cs))). set (e' := GetEpochIndex spec (s_Tau (posteriorStates cs))). cbv zeta.
  destruct (Z.leb_spec (s_Tau (posteriorStates cs)) (s_Tau (priorStates cs))) as [|Ht]; [done|].
  destruct (rotated cs) as (_ & Hlen & _ & _ & Hb & Hp & _). fold e e' in Hlen, Hb, Hp.
  set (cs1 := KeyRotate e e' (UpdateEntropy e e' cs)) in *. intros (cs2 & E2 & Hr)%go_bind_inv.
  apply UpdateSlotKeySequence_ok in E2 as (gS & -> & Hslots).
  destruct (GetVerifier_ok e' (sf_GammaK (s_Gamma (posteriorStates (onPosterior (SetGammaS gS) cs1))))
    (onPosterior (SetGammaS gS) cs1)) as [c Hc].
  destruct (GetVerifier _ _ _ _) as [verifier cs3]. cbn [snd] in Hc. subst cs3.
  apply go_bind_inv in Hr as (cs4 & E4 & Hr). apply updateGammaZ_ok in E4 as (z & -> & Hz).
  edestruct UpdateEtaPrime0_ok as (h & E5 & Hh); [|rewrite E5 in Hr]; [exact Hlen|].
  apply go_bind_inv in Hr as ([cs6 err] & E6 & Hr). destruct err as [err|]; [done|].
  apply CreateNewTicketAccumulator_ok in E6 as (acc & -> & _ & _ & _ & new & _ & _ & _ & Hs & Hl & _); [|done].
  apply go_bind_inv in Hr as (cs7 & E7 & Hr). apply CreateWinningTickets_ok in E7 as (Hp7 & Hq7 & Hs7).
  injection Hr as Hr.
  assert (priorStates cs' = priorStates cs1 /\ sharing cs' = sharing cs1 /\
    posteriorStates cs' = SetGammaA acc (SetEta0 h (SetGammaZ z (SetGammaS gS (posteriorStates cs1))))) as (Hpr & Hsh & Hpo).
  { subst cs'. unfold CreateEpochMarker. destruct (e <? e'); cbn; by rewrite Hp7, Hq7, Hs7. }
  split; [done|]. split; [|done]. exists acc, h, z, gS. split_and!; try done.
  - intros y Hy. cbn in Hh. rewrite (Hh y); [|by rewrite Hb]. rewrite Hp. by destruct (e <? e').
  - rewrite Hp in Hslots. by destruct (e <? e').
Qed.

Lemma OuterUsedSafrole_ok cs cs' : 0 <= EpochLength spec -> coherent cs -> OuterUsedSafrole spec cs = Ret (cs', None) ->
  let newEpoch := GetEpochIndex spec (s_Tau (priorStates cs)) <? GetEpochIndex spec (s_Tau (posteriorStates cs)) in
  safrole_transition cs (priorStates cs) (posteriorStates cs') /\ priorStates cs' = prior_nulled cs newEpoch /\
  sharing cs' = rotated_arrays cs newEpoch /\ coherent cs'.
Proof.
  intros HE Hco Eq. apply OuterUsedSafrole_raw in Eq as (Ht & (acc & h & z & gS & Hpo & Hz & Hh & Hslots & Hs & Hl) & Hpr & Hsh); [|done].
  destruct (rotated cs) as (Hk & Hlen & Heta & Hf & _ & Hp & Hsh1).
  set (e := GetEpochIndex spec (s_Tau (priorStates cs))) in *. set (e' := GetEpochIndex spec (s_Tau (posteriorStates cs))) in *.
  pose proof (rotated_coherent e e' cs Hco) as Hco1. set (cs1 := KeyRotate e e' (UpdateEntropy e e' cs)) in *. cbv zeta.
  split; [|split_and!].
  - rewrite Hpo. assert (s_Tau (posteriorStates cs1) = s_Tau (posteriorStates cs)) as Htau by by rewrite Hf.
    assert (s_Psi (posteriorStates cs1) = s_Psi (posteriorStates cs)) as Hpsi by by rewrite Hf.
    split; cbn -[slot_keys etaAt]; rewrite ?Htau, ?Hpsi; fold e e'.
    + lia.
    + destruct (e <? e') eqn:El.
      * destruct Hk as (-> & -> & -> & _). rewrite nullOffenders_self, !nulled_ok by (done || slot). done.
      * destruct Hk as (-> & Hkz & -> & -> & _). by rewrite (Hz eq_refl).
    + split; [done|]. split; [|exact Hh]. intros i Hi. rewrite <- Heta by done. destruct i as [|[|[|]]]; [done..|lia].
    + exact Hslots.
    + done.
    + destruct (e <? e') eqn:El; [destruct Hk as (_ & _ & _ & ->)|by destruct Hk as (_ & _ & _ & _ & ->)].
      apply nulled_ok; [done|]. slot.
    + eapply frame_trans; [exact Hf|]. by destruct (posteriorStates cs1).
  - rewrite Hpr, Hp. unfold prior_nulled. destruct (e <? e'); [|done]. unfold writeArrays.
    by rewrite !nulled_ok by (done || slot).
  - by rewrite Hsh.
  - rewrite coherent_slots in *. assert (slots cs' = slots cs1) as -> by (unfold slots; by rewrite Hsh, Hpr, Hpo). by rewrite Hsh.
Qed.

(** C6: The Safrole transition.  When it succeeds, the slot has advanced; in
    a new epoch the pending keys become the incoming ones without the
    offenders, the incoming keys the current ones and those the previous
    ones, else the keys stay; the entropies shift in a new epoch, and the
    current one is mixed with the output of the block's VRF; the slot keys
    are the outside-in tickets of a full accumulator of the previous epoch,
    unchanged within an epoch, and the fallback keys otherwise; the ticket
    accumulator is strictly sorted and no longer than an epoch; and no other
    part of the posterior state is written.  The sets of the posterior state
    are the slices of the prior one, so that the offenders are taken from
    every set, of both states, that is the slice of the prior incoming keys:
    also from the new current keys, if the old incoming ones are that slice.
    The numbers of the arrays stay right. *)
Theorem OuterUsedSafrole_spec cs cs' : 0 <= EpochLength spec -> coherent cs -> OuterUsedSafrole spec cs = Ret (cs', None) ->
  let newEpoch := GetEpochIndex spec (s_Tau (priorStates cs)) <? GetEpochIndex spec (s_Tau (posteriorStates cs)) in
  safrole_transition cs (priorStates cs) (posteriorStates cs') /\ priorStates cs' = prior_nulled cs newEpoch /\
  sharing cs' = rotated_arrays cs newEpoch /\ coherent cs'.
Proof. apply OuterUsedSafrole_ok. Qed.

(** ** Safety *)

Definition keys_ok (l : list Validator) : Prop :=
  lenOf l = ValidatorsCount spec /\ Forall (fun v => length (v_Bandersnatch v) = 32%nat) l.

Definition slots_ok (t : TicketsOrKeys) : Prop :=
  match tk_Tickets t, tk_Keys t with
  | Some l, None => lenOf l = EpochLength spec
  | None, Some l => lenOf l = EpochLength spec
  | _, _ => False
  end.

(** The sizes of the parts of a state that Safrole reads and writes. *)
Record safrole_sized (s : State) : Prop := {
  sz_gammaK : keys_ok (sf_GammaK (s_Gamma s));
  sz_kappa : keys_ok (s_Kappa s);
  sz_lambda : keys_ok (s_Lambda s);
  sz_eta : length (s_Eta s) = 4%nat;
  sz_slots : slots_ok (sf_GammaS (s_Gamma s));
  sz_tickets : tickets_sorted (sf_GammaA (s_Gamma s)) /\ lenOf (sf_GammaA (s_Gamma s)) <= EpochLength spec }.

Lemma nullOffenders_keys off vs l : keys_ok l -> keys_ok (nullOffenders off vs l).
Proof.
  unfold keys_ok, nullOffenders, lenOf. intros [Hl Hk]. rewrite length_imap. split; [done|].
  rewrite Forall_lookup in Hk |- *. intros i v. rewrite list_lookup_imap. intros (w & Hw & ->)%fmap_Some.
  destruct (vs !! i); [|by eapply Hk]. destruct (ValidatorIsOffender _ _); [done|by eapply Hk].
Qed.

Lemma inArray_keys a b off vs l : keys_ok l -> keys_ok (inArray a b (nullOffenders off vs) l).
Proof. intros Hl. unfold inArray. destruct (Nat.eqb b a); [by apply nullOffenders_keys|done]. Qed.

Lemma slot_keys_ok `{!HashLaws} e e' m gammaA prior eta2 kappa : 0 < ValidatorsCount spec < 2 ^ 32 -> 0 <= EpochLength spec ->
  slots_ok prior -> keys_ok kappa ->
  (exists g, slot_keys e e' m gammaA prior eta2 kappa g) /\
  forall g, slot_keys e e' m gammaA prior eta2 kappa g -> slots_ok g.
Proof.
  intros Hv HE Hp [Hk _]. unfold slot_keys.
  destruct ((_ =? _) && (lenOf gammaA =? EpochLength spec) && _) eqn:Ec; [|destruct (e' =? e)].
  - apply andb_prop in Ec as [[_ Hl%Z.eqb_eq]%andb_prop _]. destruct (OutsideInSequencer_ok gammaA Hl) as (out & E & Hpe & _).
    split; [by eauto|]. intros g (t & Et & ->). rewrite E in Et. injection Et as <-. cbn. unfold lenOf in *.
    by rewrite Hpe.
  - split; [by eexists|]. by intros g ->.
  - destruct (fallbackLoop_ok (Z.to_nat (EpochLength spec)) 0 eta2 kappa Hv Hk) as (keys & E & Hl & _).
    split; [by eauto|]. intros g (t & Et & ->). unfold FallbackKeySequence in Et. rewrite E in Et. injection Et as <-.
    cbn. unfold lenOf. lia.
Qed.

Lemma UpdateSlotKeySequence_total e e' m cs g :
  slot_keys e e' m (sf_GammaA (s_Gamma (priorStates cs))) (sf_GammaS (s_Gamma (priorStates cs)))
    (etaAt (s_Eta (posteriorStates cs)) 2) (s_Kappa (posteriorStates cs)) g ->
  UpdateSlotKeySequence spec e e' m cs = Ret (onPosterior (SetGammaS g) cs).
Proof.
  unfold slot_keys, UpdateSlotKeySequence. cbv zeta. destruct (_ && _); [|destruct (e' =? e)].
  - by intros (t & -> & ->).
  - by intros ->.
  - by intros (t & -> & ->).
Qed.

Lemma GetVerifier_some `{!VRFLaws} epoch gammaK cs : keys_ok gammaK ->
  exists v c, GetVerifier spec epoch gammaK cs = (Some v, SetVerifierCache c cs).
Proof.
  intros [Hl Hk]. destruct (GetVerifier_ok epoch gammaK cs) as [c Hc].
  enough (exists v, fst (GetVerifier spec epoch gammaK cs) = Some v) as [v Hv].
  { exists v, c. rewrite <- Hv, <- Hc. apply surjective_pairing. }
  unfold GetVerifier. rewrite (proj2 (len_not_eqb _ _) Hl). cbv zeta.
  assert (exists v, fst (match vrf_NewVerifier (concat (v_Bandersnatch <$> gammaK)) (lenOf gammaK) with
    | Some v => (Some v, SetVerifierCache (Some (epoch, v)) cs) | None => (None, SetVerifierCache None cs) end) = Some v) as Hv.
  { unfold vrf_NewVerifier. rewrite vrf_NewVerifier_law; [by eexists|]. cbn. clear Hl Hc. unfold lenOf.
    induction Hk as [|v l Hv _ IH]; [done|]. cbn [fmap list_fmap concat]. rewrite length_app, Hv. cbn. lia. }
  destruct (verifierCache cs) as [[cached v]|]; [|exact Hv]. destruct (cached =? epoch); [by eexists|exact Hv].
Qed.

Lemma updateGammaZ_total `{!VRFLaws} e e' v cs : exists cs', updateGammaZ e e' (Some v) cs = Ret cs'.
Proof.
  unfold updateGammaZ. destruct (e <? e'); [|by eexists]. destruct (vrf_GetCommitment_law v) as (o & -> & Hc).
  rewrite go_bind_ret. destruct o as [[|b c]|]; [by eexists| |by eexists]. specialize (Hc _ eq_refl).
  unfold lenOf. rewrite Hc. by eexists.
Qed.

Lemma collectTickets_total tickets results : (length results <= length tickets)%nat ->
  Forall (fun r => forall output, r = Some output -> length output = 32%nat) results ->
  exists r, collectTickets tickets results = Ret r.
Proof.
  intros Hl Hr. revert tickets Hl. induction Hr as [|[output|] results Ho Hr IH]; intros tickets Hl; cbn; [by eexists| |by eexists].
  unfold lenOf. rewrite (Ho _ eq_refl). cbn. destruct tickets as [|t tickets]; [cbn in Hl; lia|].
  destruct (IH tickets) as [r ->]; [cbn in Hl; lia|]. by eexists.
Qed.

Lemma CreateNewTicketAccumulator_total `{!VRFLaws} v cs :
  exists r, CreateNewTicketAccumulator spec (Some v) cs = Ret r /\ priorStates (fst r) = priorStates cs.
Proof.
  unfold CreateNewTicketAccumulator. destruct (orElse _ _); [by eexists|]. unfold VerifyTicketsProof.
  edestruct vrf_RingVerifyBatch_law as (o & -> & Ho). rewrite go_bind_ret.
  assert (exists r, match o with None => Ret ([], Some SafroleErrorCode.BadTicketProof)
    | Some results => r ← collectTickets (ex_Tickets (b_Extrinsic (latestBlock cs))) results;
        match snd r with Some e => Ret ([], Some e) | None => Ret r end end = Ret r) as [[new err] ->].
  { destruct o as [results|]; [|by eexists]. destruct (Ho _ eq_refl) as [Hl Hr].
    rewrite length_fmap in Hl. destruct (collectTickets_total (ex_Tickets (b_Extrinsic (latestBlock cs))) results) as [r ->];
      [lia|done|]. cbn. destruct (snd r); by eexists. }
  rewrite go_bind_ret. destruct (orElse err _); [by eexists|]. destruct (VerifyTicketsDuplicate _); by eexists.
Qed.

Lemma CreateWinningTickets_total e e' m m' cs : exists cs', CreateWinningTickets spec e e' m m' cs = Ret cs'.
Proof.
  unfold CreateWinningTickets. cbv zeta. destruct (_ && (lenOf _ =? _)) eqn:Ec; [|by eexists].
  apply andb_prop in Ec as [_ Hl%Z.eqb_eq]. destruct (OutsideInSequencer_ok _ Hl) as (out & -> & _). by eexists.
Qed.

Lemma OuterUsedSafrole_total `{!HashLaws} `{!VRFLaws} cs : 0 < ValidatorsCount spec < 2 ^ 32 -> 0 <= EpochLength spec ->
  keys_ok (s_Iota (priorStates cs)) -> safrole_sized (priorStates cs) ->
  exists r, OuterUsedSafrole spec cs = Ret r.
Proof.
  intros Hv HE Hi Hs. unfold OuterUsedSafrole, R. fold (GetEpochIndex spec (s_Tau (priorStates cs)))
    (GetEpochIndex spec (s_Tau (posteriorStates cs))).
  set (e := GetEpochIndex spec (s_Tau (priorStates cs))). set (e' := GetEpochIndex spec (s_Tau (posteriorStates cs))).
  destruct (_ <=? _); [by eexists|].
  destruct (rotated cs) as (Hk & _ & _ & _ & _ & Hp & _). fold e e' in Hk, Hp.
  set (cs1 := KeyRotate e e' (UpdateEntropy e e' cs)) in *.
  assert (keys_ok (s_Kappa (posteriorStates cs1)) /\ keys_ok (sf_GammaK (s_Gamma (posteriorStates cs1)))) as [Hkk Hkg].
  { destruct Hs. destruct (e <? e'); [destruct Hk as (-> & -> & _)|destruct Hk as (-> & _ & -> & _)]; split; try done.
    all: by first [apply inArray_keys|apply nullOffenders_keys]. }
  assert (slots_ok (sf_GammaS (s_Gamma (priorStates cs1)))) as Hsl by (rewrite Hp; destruct Hs; by destruct (e <? e')).
  edestruct slot_keys_ok as [[g Hg] _]; [exact Hv|exact HE|exact Hsl|exact Hkk|].
  erewrite UpdateSlotKeySequence_total, go_bind_ret by exact Hg.
  destruct (GetVerifier_some e' (sf_GammaK (s_Gamma (posteriorStates (onPosterior (SetGammaS g) cs1))))
    (onPosterior (SetGammaS g) cs1) Hkg) as (v & c & ->).
  edestruct updateGammaZ_total as [cs4 ->]. rewrite go_bind_ret.
  edestruct CreateNewTicketAccumulator_total as ([cs5 err] & -> & _). rewrite go_bind_ret.
  destruct err; [by eexists|]. edestruct CreateWinningTickets_total as [cs6 ->]. by eexists.
Qed.

(** C30: Safrole never panics, and keeps the sizes of what it works on: if the
    three key sets have a key per validator, there are four entropies, the
    slot keys are an epoch of tickets or of keys, and the accumulator is
    strictly sorted and no longer than an epoch, the same holds after a
    successful transition, whatever the block brings. *)
Theorem OuterUsedSafrole_safe `{!HashLaws} `{!VRFLaws} cs : 0 < ValidatorsCount spec < 2 ^ 32 -> 0 <= EpochLength spec ->
  keys_ok (s_Iota (priorStates cs)) -> safrole_sized (priorStates cs) ->
  exists cs' err, OuterUsedSafrole spec cs = Ret (cs', err) /\ (err = None -> safrole_sized (posteriorStates cs')).
Proof.
  intros Hv HE Hi Hs. destruct (OuterUsedSafrole_total cs Hv HE Hi Hs) as [[cs' err] E].
  exists cs', err. split; [done|]. intros ->. apply OuterUsedSafrole_raw in E as (_ & (acc & h & z & gS & -> & _ & _ & Hsl & Ht & Hle) & _); [|done].
  destruct (rotated cs) as (Hk & Hlen & _). set (cs1 := KeyRotate _ _ _) in *. destruct Hs.
  assert (keys_ok (sf_GammaK (s_Gamma (posteriorStates cs1))) /\ keys_ok (s_Kappa (posteriorStates cs1)) /\
    keys_ok (s_Lambda (posteriorStates cs1))) as (? & ? & ?).
  { destruct (_ <? _); [destruct Hk as (-> & -> & -> & _)|destruct Hk as (-> & _ & -> & -> & _)]; split_and!; try done.
    all: by first [apply inArray_keys|apply nullOffenders_keys]. }
  split; try done. eapply slot_keys_ok; [exact Hv|exact HE|exact sz_slots0| |exact Hsl]. done.
Qed.

End Safrole.
