(* ===== verification/Disputes.v ===== *)
(** * Disputes

    src/internal/extrinsic: verdicts (verdict_controller.go), culprits
    (culprit_controller.go), faults (fault_controller.go), the records of
    judged reports and offenders (dispute_controller.go) and the processing
    of the extrinsic (dispute.go).  Errors are the texts of the code; the
    entry point turns them into numbers.  A map whose values are all [true]
    is the list of its keys. *)

From stdpp Require Import sorting.
From S2P Require Import Prelude Words Types Config Encode Crypto Store StoreLaws.
Local Open Scope Z_scope.

Module DisputesErrorCode.
Definition AlreadyJudged : Z := 0.
Definition BadVoteSplit : Z := 1.
Definition VerdictsNotSortedUnique : Z := 2.
Definition JudgementsNotSortedUnique : Z := 3.
Definition CulpritsNotSortedUnique : Z := 4.
Definition FaultsNotSortedUnique : Z := 5.
Definition NotEnoughCulprits : Z := 6.
Definition NotEnoughFaults : Z := 7.
Definition CulpritsVerdictNotBad : Z := 8.
Definition FaultVerdictWrong : Z := 9.
Definition OffenderAlreadyReported : Z := 10.
Definition BadJudgementAge : Z := 11.
Definition BadValidatorIndex : Z := 12.
Definition BadSignature : Z := 13.
Definition BadGuarantorKey : Z := 14.
Definition BadAuditorKey : Z := 15.

Definition DisputesErrorMap : list (string * Z) := [
  ("already_judged"%string, AlreadyJudged);
  ("bad_vote_split"%string, BadVoteSplit);
  ("verdicts_not_sorted_unique"%string, VerdictsNotSortedUnique);
  ("judgements_not_sorted_unique"%string, JudgementsNotSortedUnique);
  ("culprits_not_sorted_unique"%string, CulpritsNotSortedUnique);
  ("faults_not_sorted_unique"%string, FaultsNotSortedUnique);
  ("not_enough_culprits"%string, NotEnoughCulprits);
  ("not_enough_faults"%string, NotEnoughFaults);
  ("culprits_verdict_not_bad"%string, CulpritsVerdictNotBad);
  ("fault_verdict_wrong"%string, FaultVerdictWrong);
  ("offender_already_reported"%string, OffenderAlreadyReported);
  ("bad_judgement_age"%string, BadJudgementAge);
  ("bad_validator_index"%string, BadValidatorIndex);
  ("bad_signature"%string, BadSignature);
  ("bad_guarantor_key"%string, BadGuarantorKey);
  ("bad_auditor_key"%string, BadAuditorKey)].

(** A missing key gives zero. *)
Definition lookup (err : string) : Z :=
  default 0 (snd <$> List.find (fun p => bool_decide (fst p = err)) DisputesErrorMap).
End DisputesErrorCode.

Abbreviation derror := (option string).

(** [set[x]] for a map of trues. *)
Definition member (l : list Bytes) (x : Bytes) : bool := bool_decide (x ∈ l).

Record VerdictSummary := MkVerdictSummary { vs_ReportHash : Bytes; vs_PositiveJudgmentsSum : Z }.

(** ** Order and uniqueness *)

Definition VerdictController_CheckUnique (verdicts : list Verdict) : derror :=
  if bool_decide (NoDup (vd_Target <$> verdicts)) then
    firstErr (fun v => if bool_decide (NoDup (j_Index <$> vd_Votes v)) then None
                       else Some "judgements_not_sorted_unique"%string) verdicts
  else Some "verdicts_not_sorted_unique"%string.

Definition VerdictController_CheckSorted (verdicts : list Verdict) : derror :=
  if existsAdjacent (fun v w => bytesGt (vd_Target v) (vd_Target w)) verdicts
  then Some "verdicts_not_sorted_unique"%string
  else firstErr (fun v => if existsAdjacent (fun p q => j_Index q <? j_Index p) (vd_Votes v)
                          then Some "judgements_not_sorted_unique"%string else None) verdicts.

Definition VerdictController_CheckSortUnique (verdicts : list Verdict) : derror :=
  orElse (VerdictController_CheckUnique verdicts) (VerdictController_CheckSorted verdicts).

Definition CulpritController_CheckUnique (culprits : list Culprit) : derror :=
  if bool_decide (NoDup (cu_Key <$> culprits)) then None else Some "culprits_not_sorted_unique"%string.
Definition CulpritController_CheckSorted (culprits : list Culprit) : derror :=
  if existsAdjacent (fun c d => bytesGt (cu_Key c) (cu_Key d)) culprits
  then Some "culprits_not_sorted_unique"%string else None.
Definition CulpritController_CheckSortUnique (culprits : list Culprit) : derror :=
  orElse (CulpritController_CheckUnique culprits) (CulpritController_CheckSorted culprits).

Definition FaultController_CheckUnique (faults : list Fault) : derror :=
  if bool_decide (NoDup (f_Key <$> faults)) then None else Some "faults_not_sorted_unique"%string.
Definition FaultController_CheckSorted (faults : list Fault) : derror :=
  if existsAdjacent (fun c d => bytesGt (f_Key c) (f_Key d)) faults then Some "faults_not_sorted_unique"%string else None.
Definition FaultController_CheckSortUnique (faults : list Fault) : derror :=
  orElse (FaultController_CheckUnique faults) (FaultController_CheckSorted faults).

(** ** Judged reports *)

Definition SetDisjoint (cs : ChainState) (verdicts : list Verdict) : derror :=
  let psi := s_Psi (priorStates cs) in
  let judged := dr_Good psi ++ dr_Bad psi ++ dr_Wonky psi in
  firstErr (fun v => if member judged (vd_Target v) then Some "already_judged"%string else None) verdicts.

Definition GenerateVerdictSumSequence (verdicts : list Verdict) : list VerdictSummary :=
  (fun verdict => MkVerdictSummary (vd_Target verdict) (lenOf (filter (fun j => j_Vote j = true) (vd_Votes verdict))))
    <$> verdicts.

(** [result] is a copy of the list, to which the items that are neither in it
    nor appended before are appended. *)
Definition updateListAndMap (l newItems : list Bytes) : list Bytes :=
  fst (foldl (fun '(result, itemMap) item =>
    if member itemMap item then (result, itemMap) else (result ++ [item], item :: itemMap)) (l, l) newItems).

Definition UpdatePsiG (priorPsi updateVerdicts : DisputesRecords) : list Bytes :=
  updateListAndMap (dr_Good priorPsi) (dr_Good updateVerdicts).
Definition UpdatePsiB (priorPsi updateVerdicts : DisputesRecords) : list Bytes :=
  updateListAndMap (dr_Bad priorPsi) (dr_Bad updateVerdicts).
Definition UpdatePsiW (priorPsi updateVerdicts : DisputesRecords) : list Bytes :=
  updateListAndMap (dr_Wonky priorPsi) (dr_Wonky updateVerdicts).

Definition SetPsiG (v : list Bytes) (s : State) : State :=
  SetPsi (MkDisputesRecords v (dr_Bad (s_Psi s)) (dr_Wonky (s_Psi s)) (dr_Offenders (s_Psi s))) s.
Definition SetPsiB (v : list Bytes) (s : State) : State :=
  SetPsi (MkDisputesRecords (dr_Good (s_Psi s)) v (dr_Wonky (s_Psi s)) (dr_Offenders (s_Psi s))) s.
Definition SetPsiW (v : list Bytes) (s : State) : State :=
  SetPsi (MkDisputesRecords (dr_Good (s_Psi s)) (dr_Bad (s_Psi s)) v (dr_Offenders (s_Psi s))) s.
Definition SetPsiO (v : list Bytes) (s : State) : State :=
  SetPsi (MkDisputesRecords (dr_Good (s_Psi s)) (dr_Bad (s_Psi s)) (dr_Wonky (s_Psi s)) v) s.

Section Disputes.
Context `{HashFunctions} `{Ed25519} (spec : ChainSpec).

(** [ValidatorsCount*2/3], [ValidatorsCount*2/3 + 1], [ValidatorsCount*1/3]. *)
Definition twoThirds : Z := Z.quot (ValidatorsCount spec * 2) 3.
Definition oneThird : Z := Z.quot (ValidatorsCount spec * 1) 3.

(** The message of a judgement. *)
Definition judgementMessage (vote : bool) (target : Bytes) : Bytes := (if vote then JamValid else JamInvalid) ++ target.

(** The loop over the votes: [invalid] is whether a signature was invalid. *)
Fixpoint voteLoop (k : list Validator) (target : Bytes) (votes : list Judgement) (invalid : bool) : derror :=
  match votes with
  | [] => if invalid then Some "bad_signature"%string else None
  | vote :: votes =>
      match zlookup k (j_Index vote) with
      | None => Some "bad_guarantor_key"%string
      | Some validator =>
          let ok := ed25519_Verify (v_Ed25519 validator) (judgementMessage (j_Vote vote) target) (j_Signature vote) in
          voteLoop k target votes (invalid || negb ok)
      end
  end.

Definition VerifySignature (cs : ChainState) (v : Verdict) : derror :=
  let state := priorStates cs in
  let a := u32 (s_Tau state) / u32 (EpochLength spec) in
  if negb (vd_Age v =? a) && negb (vd_Age v =? u32 (a - 1)) then Some "bad_judgement_age"%string
  else
    let k := if vd_Age v =? a then s_Kappa state else s_Lambda state in
    voteLoop k (vd_Target v) (vd_Votes v) false.

(** The reports of cores that are not voted good are taken off; the slice is
    the one of the prior state. *)
Definition clearReport (clearReports : list Bytes) (a : option AvailabilityAssignment)
  : go (option AvailabilityAssignment) :=
  match a with
  | None => Ret None
  | Some aa =>
      encoded ← enc_WorkReport (aa_Report aa);
      let hashReport := Blake2bHash (default [] encoded) in
      Ret (if member clearReports hashReport then None else Some aa)
  end.

Fixpoint clearLoop (clearReports : list Bytes) (rho : list (option AvailabilityAssignment))
  : go (list (option AvailabilityAssignment)) :=
  match rho with
  | [] => Ret []
  | a :: rho => a ← clearReport clearReports a; rho ← clearLoop clearReports rho; Ret (a :: rho)
  end.

Definition ClearWorkReports (verdictSumSequence : list VerdictSummary) (cs : ChainState) : go ChainState :=
  let clearReports :=
    vs_ReportHash <$> filter (fun verdict => vs_PositiveJudgmentsSum verdict < twoThirds) verdictSumSequence in
  priorStatesRho ← clearLoop clearReports (s_Rho (priorStates cs));
  Ret (writePriorRho priorStatesRho cs).

(** ** Records *)

Definition ValidateFaults (faults : list Fault) (verdictSumSequence : list VerdictSummary) : derror :=
  let good := twoThirds + 1 in
  firstErr (fun report =>
    if (vs_PositiveJudgmentsSum report =? good) && negb (member (f_Target <$> faults) (vs_ReportHash report))
    then Some "not_enough_faults"%string else None) verdictSumSequence.

Definition ValidateCulprits (culprits : list Culprit) (verdictSumSequence : list VerdictSummary) : derror :=
  firstErr (fun report =>
    if (vs_PositiveJudgmentsSum report =? 0) &&
       (lenOf (filter (fun c => cu_Target c = vs_ReportHash report) culprits) <? 2)
    then Some "not_enough_culprits"%string else None) verdictSumSequence.

(** The verdicts by kind; [None] is a bad vote split. *)
Fixpoint CompareVerdictsWithPsi (verdictSumSequence : list VerdictSummary) : option DisputesRecords :=
  match verdictSumSequence with
  | [] => Some (MkDisputesRecords [] [] [] [])
  | verdict :: rest =>
      let n := vs_PositiveJudgmentsSum verdict in
      let h := vs_ReportHash verdict in
      updates ← CompareVerdictsWithPsi rest;
      let '(MkDisputesRecords good bad wonky offenders) := updates in
      if n =? twoThirds + 1 then Some (MkDisputesRecords (h :: good) bad wonky offenders)
      else if n =? 0 then Some (MkDisputesRecords good (h :: bad) wonky offenders)
      else if n =? oneThird then Some (MkDisputesRecords good bad (h :: wonky) offenders)
      else None
  end.

Definition UpdatePsiGBW (newVerdicts : list VerdictSummary) (cs : ChainState) : ChainState * derror :=
  let priorPsi := s_Psi (priorStates cs) in
  match CompareVerdictsWithPsi newVerdicts with
  | None => (cs, Some "bad_vote_split"%string)
  | Some updateVerdicts =>
      (onPosterior (fun s => SetPsiW (UpdatePsiW priorPsi updateVerdicts) (SetPsiB (UpdatePsiB priorPsi updateVerdicts)
        (SetPsiG (UpdatePsiG priorPsi updateVerdicts) s))) cs, None)
  end.

(** The keys of culprits and faults that were not offenders, in the order of
    the extrinsic and each once, with the prior offenders, sorted. *)
Definition UpdatePsiO (culprits : list Culprit) (faults : list Fault) (cs : ChainState) : ChainState :=
  let priorPsi := s_Psi (priorStates cs) in
  let psiO := updateListAndMap (dr_Offenders priorPsi) ((cu_Key <$> culprits) ++ (f_Key <$> faults)) in
  onPosterior (SetPsiO (merge_sort bytesLe psiO)) cs.

Definition HeaderOffenders (newCulprits : list Culprit) (newFaults : list Fault) : list Bytes :=
  (cu_Key <$> newCulprits) ++ (f_Key <$> newFaults).

(** ** Culprits and faults *)

(** The keys of the current and the previous validators, without the
    posterior offenders. *)
Definition validKeySet (cs : ChainState) : list Bytes :=
  filter (fun key => member (dr_Offenders (s_Psi (posteriorStates cs))) key = false)
    (v_Ed25519 <$> (s_Kappa (priorStates cs) ++ s_Lambda (priorStates cs))).

Definition VerifyCulpritSignature (cs : ChainState) (culprits : list Culprit) : derror :=
  firstErr (fun culprit =>
    if negb (member (validKeySet cs) (cu_Key culprit)) then Some "bad_guarantor_key"%string
    else if negb (ed25519_Verify (cu_Key culprit) (JamGuarantee ++ cu_Target culprit) (cu_Signature culprit))
    then Some "bad_signature"%string else None) culprits.

Definition CulpritController_VerifyReportHashValidty (cs : ChainState) (culprits : list Culprit) : derror :=
  firstErr (fun report => if negb (member (dr_Bad (s_Psi (posteriorStates cs))) (cu_Target report))
                          then Some "culprits_verdict_not_bad"%string else None) culprits.

Definition CulpritController_ExcludeOffenders (cs : ChainState) (culprits : list Culprit) : derror :=
  firstErr (fun c => if member (dr_Offenders (s_Psi (priorStates cs))) (cu_Key c)
                     then Some "offender_already_reported"%string else None) culprits.

Definition VerifyCulpritValidity (cs : ChainState) (culprits : list Culprit) : derror :=
  orElse (CulpritController_VerifyReportHashValidty cs culprits)
    (orElse (VerifyCulpritSignature cs culprits) (CulpritController_ExcludeOffenders cs culprits)).

Definition VerifyFaultSignature (cs : ChainState) (faults : list Fault) : derror :=
  firstErr (fun vote =>
    if negb (member (validKeySet cs) (f_Key vote)) then Some "bad_auditor_key"%string
    else if negb (ed25519_Verify (f_Key vote) (judgementMessage (f_Vote vote) (f_Target vote)) (f_Signature vote))
    then Some "bad_signature"%string else None) faults.

Definition FaultController_VerifyReportHashValidty (cs : ChainState) (faults : list Fault) : derror :=
  let psi := s_Psi (posteriorStates cs) in
  firstErr (fun fault =>
    let good := member (dr_Good psi) (f_Target fault) in
    let bad := member (dr_Bad psi) (f_Target fault) in
    let inGood := good && negb bad in
    let inBad := negb good && bad in
    if (f_Vote fault && inGood) || (negb (f_Vote fault) && inBad) then Some "fault_verdict_wrong"%string else None) faults.

Definition FaultController_ExcludeOffenders (cs : ChainState) (faults : list Fault) : derror :=
  firstErr (fun f => if member (dr_Offenders (s_Psi (priorStates cs))) (f_Key f)
                     then Some "offender_already_reported"%string else None) faults.

Definition VerifyFaultValidity (cs : ChainState) (faults : list Fault) : derror :=
  orElse (FaultController_VerifyReportHashValidty cs faults)
    (orElse (VerifyFaultSignature cs faults) (FaultController_ExcludeOffenders cs faults)).

(** ** The extrinsic *)

(** The checks made before the state is written. *)
Definition disputeChecks (cs : ChainState) (d : DisputesExtrinsic) : derror :=
  let sums := GenerateVerdictSumSequence (de_Verdicts d) in
  orElse (firstErr (VerifySignature cs) (de_Verdicts d))
  (orElse (VerdictController_CheckSortUnique (de_Verdicts d))
  (orElse (SetDisjoint cs (de_Verdicts d))
  (orElse (ValidateCulprits (de_Culprits d) sums)
  (orElse (ValidateFaults (de_Faults d) sums)
  (orElse (CulpritController_CheckSortUnique (de_Culprits d)) (FaultController_CheckSortUnique (de_Faults d))))))).

(** The offenders mark, or the number of the error; the state written before
    an error is kept. *)
Definition Disputes (cs : ChainState) : go (ChainState * (list Bytes + Z)) :=
  let disputeExtrinsic := ex_Disputes (b_Extrinsic (latestBlock cs)) in
  let culprits := de_Culprits disputeExtrinsic in
  let faults := de_Faults disputeExtrinsic in
  match disputeChecks cs disputeExtrinsic with
  | Some err => Ret (cs, inr (DisputesErrorCode.lookup err))
  | None =>
      let sums := GenerateVerdictSumSequence (de_Verdicts disputeExtrinsic) in
      cs ← ClearWorkReports sums cs;
      let '(cs, err) := UpdatePsiGBW sums cs in
      match orElse err (orElse (VerifyCulpritValidity cs culprits) (VerifyFaultValidity cs faults)) with
      | Some err => Ret (cs, inr (DisputesErrorCode.lookup err))
      | None => Ret (UpdatePsiO culprits faults cs, inl (HeaderOffenders culprits faults))
      end
  end.

End Disputes.

(** * Correctness *)


(** Each report is judged once, and the offenders are strictly sorted. *)
Definition psi_ok (psi : DisputesRecords) : Prop :=
  NoDup (dr_Good psi ++ dr_Bad psi ++ dr_Wonky psi) /\ StronglySorted bytesLt (dr_Offenders psi).

(** ** Helpers *)

Lemma member_true l x : member l x = true <-> x ∈ l.
Proof. unfold member. apply bool_decide_eq_true. Qed.
Lemma member_false l x : member l x = false <-> x ∉ l.
Proof. unfold member. apply bool_decide_eq_false. Qed.

Definition updateStep : list Bytes * list Bytes -> Bytes -> list Bytes * list Bytes :=
  fun '(result, itemMap) item => if member itemMap item then (result, itemMap) else (result ++ [item], item :: itemMap).

Lemma updateFold_ok new r m : NoDup r -> (forall x, x ∈ m <-> x ∈ r) ->
  let r' := fst (foldl updateStep (r, m) new) in
  NoDup r' /\ (forall x, x ∈ r' <-> x ∈ r \/ x ∈ new) /\
  (NoDup new -> (forall x, x ∈ new -> x ∉ r) -> r' = r ++ new).
Proof.
  revert r m. induction new as [|item new IH]; intros r m Hr Hm.
  { cbn. split_and!; [done| |by rewrite app_nil_r]. intros x. rewrite elem_of_nil. tauto. }
  cbn [foldl updateStep]. destruct (member m item) eqn:E.
  - apply member_true, Hm in E. destruct (IH r m Hr Hm) as (H1 & H2 & H3). split_and!; [done| |].
    + intros x. rewrite H2, elem_of_cons. split; [tauto|]. intros [?|[->|?]]; auto.
    + intros _ Hd. destruct (Hd item); [by left|done].
  - apply member_false in E. rewrite Hm in E. destruct (IH (r ++ [item]) (item :: m)) as (H1 & H2 & H3).
    + apply NoDup_app. split_and!; [done| |apply NoDup_singleton]. intros x Hx ->%list_elem_of_singleton. done.
    + intros x. rewrite elem_of_cons, elem_of_app, list_elem_of_singleton, Hm. tauto.
    + split_and!; [done| |].
      * intros x. rewrite H2, elem_of_app, list_elem_of_singleton, elem_of_cons. tauto.
      * intros [Hn Hnd]%NoDup_cons Hd. rewrite H3; [by rewrite <- app_assoc|done|].
        intros x Hx. rewrite elem_of_app, list_elem_of_singleton. intros [?| ->]; [|done].
        by apply (Hd x); [right|].
Qed.

Lemma updateListAndMap_ok l new : NoDup l ->
  NoDup (updateListAndMap l new) /\ (forall x, x ∈ updateListAndMap l new <-> x ∈ l \/ x ∈ new) /\
  (NoDup new -> (forall x, x ∈ new -> x ∉ l) -> updateListAndMap l new = l ++ new).
Proof. intros Hl. apply (updateFold_ok new l l Hl). done. Qed.

Section Disputes.
Context `{HashFunctions} `{Ed25519} (spec : ChainSpec).

(** ** Verdicts *)

Definition positives (v : Verdict) : Z := lenOf (filter (fun j => j_Vote j = true) (vd_Votes v)).

(** The targets of the verdicts with [n] positive judgements. *)
Definition judged (n : Z) (verdicts : list Verdict) : list Bytes := vd_Target <$> filter (fun v => positives v = n) verdicts.

(** The validators a verdict's votes are of. *)
Definition judges (s : State) (v : Verdict) : list Validator :=
  if vd_Age v =? u32 (s_Tau s) / u32 (EpochLength spec) then s_Kappa s else s_Lambda s.

(** The votes are of distinct validators of the current or the previous epoch
    and their signatures are valid. *)
Definition verdict_valid (s : State) (v : Verdict) : Prop :=
  let a := u32 (s_Tau s) / u32 (EpochLength spec) in
  (vd_Age v = a \/ vd_Age v = u32 (a - 1)) /\ NoDup (j_Index <$> vd_Votes v) /\
  Forall (fun j => exists k, zlookup (judges s v) (j_Index j) = Some k /\
    ed25519_Verify (v_Ed25519 k) (judgementMessage (j_Vote j) (vd_Target v)) (j_Signature j) = true) (vd_Votes v).

Lemma voteLoop_ok k target votes invalid : voteLoop k target votes invalid = None ->
  invalid = false /\ Forall (fun j => exists v, zlookup k (j_Index j) = Some v /\
    ed25519_Verify (v_Ed25519 v) (judgementMessage (j_Vote j) target) (j_Signature j) = true) votes.
Proof.
  revert invalid. induction votes as [|j votes IH]; intros invalid; cbn [voteLoop].
  - destruct invalid; [done|]. intros _. by split; [|constructor].
  - destruct (zlookup k (j_Index j)) as [v|] eqn:E; [|done]. intros (Hi & Hf)%IH.
    apply orb_false_iff in Hi as [-> Hv%negb_false_iff]. split; [done|]. constructor; [eauto|done].
Qed.

Lemma judged_cons n v l : judged n (v :: l) = if decide (positives v = n) then vd_Target v :: judged n l else judged n l.
Proof. unfold judged. rewrite filter_cons. by case_decide. Qed.

(** The sums of accepted verdicts and their classes. *)
Lemma CompareVerdicts_ok verdicts u : 3 <= ValidatorsCount spec ->
  CompareVerdictsWithPsi spec (GenerateVerdictSumSequence verdicts) = Some u ->
  u = MkDisputesRecords (judged (twoThirds spec + 1) verdicts) (judged 0 verdicts) (judged (oneThird spec) verdicts) [] /\
  Forall (fun v => positives v = twoThirds spec + 1 \/ positives v = 0 \/ positives v = oneThird spec) verdicts.
Proof.
  intros HV. assert (0 < oneThird spec <= twoThirds spec) as Ht.
  { unfold oneThird, twoThirds. rewrite !Z.quot_div_nonneg by lia. split; [apply Z.div_str_pos; lia|].
    apply Z.div_le_mono; lia. }
  revert u. induction verdicts as [|v verdicts IH]; intros u.
  { intros [= <-]. by split; [|constructor]. }
  change (GenerateVerdictSumSequence (v :: verdicts)) with
    (MkVerdictSummary (vd_Target v) (positives v) :: GenerateVerdictSumSequence verdicts).
  cbn [CompareVerdictsWithPsi vs_PositiveJudgmentsSum vs_ReportHash].
  destruct (CompareVerdictsWithPsi spec (GenerateVerdictSumSequence verdicts)) as [u0|]; cbn [mbind option_bind]; [|done].
  destruct (IH u0 eq_refl) as [-> Hf]. rewrite !judged_cons.
  destruct (Z.eqb_spec (positives v) (twoThirds spec + 1)) as [E|E]; [|destruct (Z.eqb_spec (positives v) 0) as [E'|E'];
    [|destruct (Z.eqb_spec (positives v) (oneThird spec)) as [E''|E'']; [|done]]].
  all: intros [= <-]; do 3 (case_decide; try lia).
  all: split; [done|constructor; [tauto|done]].
Qed.

(** The targets of verdicts that are accepted: distinct and new. *)
Lemma judged_elem n verdicts x : x ∈ judged n verdicts <-> exists v, v ∈ verdicts /\ vd_Target v = x /\ positives v = n.
Proof.
  unfold judged. rewrite list_elem_of_fmap. split.
  - intros (v & -> & [Hp Hv]%list_elem_of_filter). eauto.
  - intros (v & Hv & <- & Hp). exists v. split; [done|]. by apply list_elem_of_filter.
Qed.

Lemma judged_NoDup n verdicts : NoDup (vd_Target <$> verdicts) -> NoDup (judged n verdicts).
Proof.
  induction verdicts as [|v l IH]; [constructor|]. rewrite fmap_cons, judged_cons. intros [Hn Hd]%NoDup_cons.
  case_decide; [|by apply IH]. constructor; [|by apply IH].
  intros (w & Hw & Ht & _)%judged_elem. apply Hn. rewrite <- Ht. by apply list_elem_of_fmap_2.
Qed.

Lemma judged_disjoint n m verdicts x : n <> m -> NoDup (vd_Target <$> verdicts) -> x ∈ judged n verdicts -> x ∉ judged m verdicts.
Proof.
  rewrite !judged_elem. intros Hnm Hd (v & Hv & Hx & Hn) (w & Hw & Hy & Hm). apply Hnm. rewrite <- Hn, <- Hm. f_equal.
  apply list_elem_of_lookup in Hv as [i Hi]. apply list_elem_of_lookup in Hw as [j Hj].
  assert (i = j) as ->; [|congruence]. eapply NoDup_lookup; [exact Hd| |]; rewrite list_lookup_fmap.
  - rewrite Hi. cbn. by rewrite Hx.
  - rewrite Hj. cbn. by rewrite Hy.
Qed.

(** ** What the checks establish *)

Record disputes_checked (cs : ChainState) (d : DisputesExtrinsic) : Prop := {
  dc_verdicts : Forall (verdict_valid (priorStates cs)) (de_Verdicts d);
  dc_distinct : NoDup (vd_Target <$> de_Verdicts d);
  dc_sorted : Sorted (fun v w => bytesLe (vd_Target v) (vd_Target w)) (de_Verdicts d);
  dc_new : forall v psi, v ∈ de_Verdicts d -> psi = s_Psi (priorStates cs) ->
    vd_Target v ∉ dr_Good psi ++ dr_Bad psi ++ dr_Wonky psi;
  dc_culprits : forall v, v ∈ de_Verdicts d -> positives v = 0 ->
    2 <= lenOf (filter (fun c => cu_Target c = vd_Target v) (de_Culprits d));
  dc_faults : forall v, v ∈ de_Verdicts d -> positives v = twoThirds spec + 1 -> vd_Target v ∈ f_Target <$> de_Faults d;
  dc_culprit_keys : NoDup (cu_Key <$> de_Culprits d);
  dc_fault_keys : NoDup (f_Key <$> de_Faults d) }.

Lemma VerifySignature_ok cs v : VerifySignature spec cs v = None -> NoDup (j_Index <$> vd_Votes v) ->
  verdict_valid (priorStates cs) v.
Proof.
  intros Hv Hn. unfold VerifySignature in Hv. cbv zeta in Hv. destruct (_ && _) eqn:Ea; [done|].
  apply voteLoop_ok in Hv as [_ Hv]. split; [|split; [done|]]; [|exact Hv].
  apply andb_false_iff in Ea as [Ea|Ea]; apply negb_false_iff, Z.eqb_eq in Ea; auto.
Qed.

Lemma sums_elem P verdicts : Forall P (GenerateVerdictSumSequence verdicts) <->
  forall v, v ∈ verdicts -> P (MkVerdictSummary (vd_Target v) (positives v)).
Proof. unfold GenerateVerdictSumSequence. rewrite Forall_fmap, Forall_forall. done. Qed.

Lemma disputeChecks_ok cs d : disputeChecks spec cs d = None -> disputes_checked cs d.
Proof.
  unfold disputeChecks. cbv zeta. rewrite !orElse_None, !firstErr_None.
  intros (Hs & [Hu Ho]%orElse_None & Hn & Hc & Hf & [Hcu _]%orElse_None & [Hfu _]%orElse_None).
  unfold VerdictController_CheckUnique in Hu. case_bool_decide as Hnd; [|done]. rewrite firstErr_None in Hu.
  unfold VerdictController_CheckSorted in Ho. destruct (existsAdjacent _ _) eqn:Eo; [done|].
  apply existsAdjacent_false in Eo. unfold ValidateCulprits, ValidateFaults in Hc, Hf. rewrite !firstErr_None, !sums_elem in Hc, Hf.
  unfold CulpritController_CheckUnique in Hcu. unfold FaultController_CheckUnique in Hfu.
  rewrite if_None', bool_decide_eq_true in Hcu, Hfu. split; try done.
  - apply Forall_forall. intros v Hv. apply VerifySignature_ok; [rewrite Forall_forall in Hs; by apply Hs|].
    rewrite Forall_forall in Hu. specialize (Hu v Hv). cbv beta in Hu. by apply if_None', bool_decide_eq_true in Hu.
  - eapply Sorted_weaken; [|exact Eo]. intros v w. apply bytesGt_false.
  - intros v psi Hv ->. unfold SetDisjoint in Hn. rewrite firstErr_None, Forall_forall in Hn.
    specialize (Hn v Hv). cbv beta in Hn. by apply if_None, member_false in Hn.
  - intros v Hv Hp. specialize (Hc v Hv). cbn [vs_PositiveJudgmentsSum vs_ReportHash] in Hc. rewrite Hp in Hc. cbn [Z.eqb andb] in Hc.
    apply if_None, Z.ltb_ge in Hc. done.
  - intros v Hv Hp. specialize (Hf v Hv). cbn [vs_PositiveJudgmentsSum vs_ReportHash] in Hf. rewrite Hp, Z.eqb_refl in Hf.
    cbn [andb] in Hf. apply if_None, negb_false_iff, member_true in Hf. done.
Qed.

(** ** Reports taken off the cores *)

Definition cleared (bad : list Bytes) (a b : option AvailabilityAssignment) : Prop :=
  match a with
  | None => b = None
  | Some aa => exists encoded, enc_WorkReport (aa_Report aa) = Ret encoded /\
      b = if member bad (Blake2bHash (default [] encoded)) then None else Some aa
  end.

Lemma clearLoop_ok bad rho rho' : clearLoop bad rho = Ret rho' -> Forall2 (cleared bad) rho rho'.
Proof.
  revert rho'. induction rho as [|a rho IH]; intros rho'; cbn [clearLoop]; [by intros [= <-]; constructor|].
  intros (a' & Ea & (r & Er & Hr)%go_bind_inv)%go_bind_inv. injection Hr as <-. constructor; [|by apply IH].
  destruct a as [aa|]; cbn in *; [|by injection Ea as <-].
  apply go_bind_inv in Ea as (enc & Ee & Ea). injection Ea as <-. eauto.
Qed.

(** The parts of a state other than the assignments. *)
Lemma writePriorRho_ok v cs : let cs' := writePriorRho v cs in
  priorStates cs' = SetRho v (priorStates cs) /\ posteriorStates cs' = posteriorStates cs /\
  RhoDagger (intermediateStates cs') = v /\ latestBlock cs' = latestBlock cs.
Proof. cbv zeta. unfold writePriorRho. cbn. by destruct (priorRhoShared cs). Qed.

(** The targets of the verdicts that are not good. *)
Definition not_good (verdicts : list Verdict) : list Bytes :=
  vd_Target <$> filter (fun v => positives v < twoThirds spec) verdicts.

Lemma not_good_sums verdicts :
  vs_ReportHash <$> filter (fun v => vs_PositiveJudgmentsSum v < twoThirds spec) (GenerateVerdictSumSequence verdicts) =
  not_good verdicts.
Proof.
  unfold not_good, GenerateVerdictSumSequence. induction verdicts as [|v l IH]; [done|].
  rewrite fmap_cons, !filter_cons. cbn [vs_PositiveJudgmentsSum]. fold (positives v). case_decide; cbn; by rewrite IH.
Qed.

(** ** The records after the extrinsic *)

(** The culprits and faults that are accepted with posterior records [psi]. *)
Record offences_valid (cs : ChainState) (psi : DisputesRecords) (d : DisputesExtrinsic) : Prop := {
  ov_culprits : Forall (fun c => cu_Target c ∈ dr_Bad psi /\ cu_Key c ∈ validKeySet cs /\
    ed25519_Verify (cu_Key c) (JamGuarantee ++ cu_Target c) (cu_Signature c) = true /\
    cu_Key c ∉ dr_Offenders (s_Psi (priorStates cs))) (de_Culprits d);
  ov_faults : Forall (fun f => f_Key f ∈ validKeySet cs /\
    ed25519_Verify (f_Key f) (judgementMessage (f_Vote f) (f_Target f)) (f_Signature f) = true /\
    (f_Key f ∉ dr_Offenders (s_Psi (priorStates cs))) /\
    ~ (f_Target f ∈ (if f_Vote f then dr_Good psi else dr_Bad psi) /\
       f_Target f ∉ (if f_Vote f then dr_Bad psi else dr_Good psi))) (de_Faults d) }.

Lemma offences_ok cs cs0 d : priorStates cs = SetRho (s_Rho (priorStates cs)) (priorStates cs0) ->
  dr_Offenders (s_Psi (posteriorStates cs)) = dr_Offenders (s_Psi (posteriorStates cs0)) ->
  orElse (VerifyCulpritValidity cs (de_Culprits d)) (VerifyFaultValidity cs (de_Faults d)) = None ->
  offences_valid cs0 (s_Psi (posteriorStates cs)) d.
Proof.
  intros Hp Ho Hc. assert (validKeySet cs = validKeySet cs0) as Hk by (unfold validKeySet; by rewrite Hp, Ho).
  assert (s_Psi (priorStates cs) = s_Psi (priorStates cs0)) as Hpsi by by rewrite Hp.
  unfold VerifyCulpritValidity, VerifyFaultValidity, CulpritController_VerifyReportHashValidty, VerifyCulpritSignature,
    CulpritController_ExcludeOffenders, FaultController_VerifyReportHashValidty, VerifyFaultSignature,
    FaultController_ExcludeOffenders in Hc. rewrite !orElse_None, !firstErr_None, Hk, Hpsi in Hc.
  destruct Hc as ((H1 & H2 & H3) & (H4 & H5 & H6)). split.
  - rewrite !Forall_forall in *. intros c Hin. specialize (H1 c Hin). specialize (H2 c Hin). specialize (H3 c Hin).
    cbv beta in *. apply if_None, negb_false_iff, member_true in H1. apply if_None, member_false in H3.
    destruct (member _ _) eqn:Em in H2; [|done]. apply member_true in Em. cbn [negb] in H2.
    apply if_None, negb_false_iff in H2. done.
  - rewrite !Forall_forall in *. intros f Hin. specialize (H4 f Hin). specialize (H5 f Hin). specialize (H6 f Hin).
    cbv beta zeta in *. apply if_None in H4. apply if_None, member_false in H6.
    destruct (member _ _) eqn:Em in H5; [|done]. apply member_true in Em. cbn [negb] in H5.
    apply if_None, negb_false_iff in H5. split_and!; try done. intros [Hg Hb]. apply orb_false_iff in H4 as [Ha Hb'].
    destruct (f_Vote f); [apply member_true in Hg; apply member_false in Hb|apply member_true in Hg; apply member_false in Hb];
      by rewrite Hg, Hb in Ha, Hb'.
Qed.

(** Appending new and distinct items. *)
Lemma update_new l new : NoDup l -> NoDup new -> (forall x, x ∈ new -> x ∉ l) -> updateListAndMap l new = l ++ new.
Proof. intros Hl Hn Hd. by apply updateListAndMap_ok. Qed.

(** The posterior records of an accepted extrinsic. *)
Definition records_after (prior : DisputesRecords) (d : DisputesExtrinsic) (offenders : list Bytes) : DisputesRecords :=
  MkDisputesRecords (dr_Good prior ++ judged (twoThirds spec + 1) (de_Verdicts d))
    (dr_Bad prior ++ judged 0 (de_Verdicts d)) (dr_Wonky prior ++ judged (oneThird spec) (de_Verdicts d)) offenders.

Lemma thirds : 3 <= ValidatorsCount spec -> 0 < oneThird spec <= twoThirds spec.
Proof.
  intros HV. unfold oneThird, twoThirds. rewrite !Z.quot_div_nonneg by lia. split; [apply Z.div_str_pos; lia|].
  apply Z.div_le_mono; lia.
Qed.

Lemma records_NoDup cs d offenders : 3 <= ValidatorsCount spec -> disputes_checked cs d ->
  let psi := records_after (s_Psi (priorStates cs)) d offenders in
  NoDup (dr_Good (s_Psi (priorStates cs)) ++ dr_Bad (s_Psi (priorStates cs)) ++ dr_Wonky (s_Psi (priorStates cs))) ->
  NoDup (dr_Good psi ++ dr_Bad psi ++ dr_Wonky psi).
Proof.
  intros HV Hc psi Hn. pose proof (thirds HV) as Ht. destruct Hc as [_ Hd _ Hnew _ _ _ _]. subst psi. cbn.
  set (g := judged _ _). set (b := judged 0 _). set (w := judged (oneThird spec) _).
  assert (Permutation ((dr_Good (s_Psi (priorStates cs)) ++ g) ++ (dr_Bad (s_Psi (priorStates cs)) ++ b) ++
      dr_Wonky (s_Psi (priorStates cs)) ++ w)
    ((dr_Good (s_Psi (priorStates cs)) ++ dr_Bad (s_Psi (priorStates cs)) ++ dr_Wonky (s_Psi (priorStates cs))) ++ g ++ b ++ w))
    as -> by solve_Permutation.
  apply NoDup_app. split; [done|]. split.
  - intros x Hx Hy. rewrite !elem_of_app in Hy. destruct Hy as [Hy|[Hy|Hy]];
      apply judged_elem in Hy as (v & Hv & <- & _); by eapply Hnew.
  - apply NoDup_app. split; [by apply judged_NoDup|]. split.
    + intros x Hx. rewrite elem_of_app. intros [Hy|Hy].
      * by apply (judged_disjoint (twoThirds spec + 1) 0 _ _ ltac:(lia) Hd Hx).
      * by apply (judged_disjoint (twoThirds spec + 1) (oneThird spec) _ _ ltac:(lia) Hd Hx).
    + apply NoDup_app. split; [by apply judged_NoDup|]. split; [|by apply judged_NoDup].
      intros x Hx. by apply (judged_disjoint 0 (oneThird spec) _ _ ltac:(lia) Hd Hx).
Qed.

Lemma orElse_inv cs d : forall err, orElse err (orElse (VerifyCulpritValidity cs (de_Culprits d)) (VerifyFaultValidity cs (de_Faults d))) = None ->
  err = None /\ orElse (VerifyCulpritValidity cs (de_Culprits d)) (VerifyFaultValidity cs (de_Faults d)) = None.
Proof. intros err. apply orElse_None. Qed.

(** What an accepted extrinsic does, from its parts. *)
Lemma Disputes_ok cs cs' mark : 3 <= ValidatorsCount spec -> psi_ok (s_Psi (priorStates cs)) ->
  Disputes spec cs = Ret (cs', inl mark) ->
  let d := ex_Disputes (b_Extrinsic (latestBlock cs)) in
  let prior := s_Psi (priorStates cs) in
  exists offenders rho,
    mark = (cu_Key <$> de_Culprits d) ++ (f_Key <$> de_Faults d) /\
    offenders = merge_sort bytesLe (updateListAndMap (dr_Offenders prior) mark) /\
    posteriorStates cs' = SetPsi (records_after prior d offenders) (posteriorStates cs) /\
    priorStates cs' = SetRho rho (priorStates cs) /\ RhoDagger (intermediateStates cs') = rho /\
    Forall2 (cleared (not_good (de_Verdicts d))) (s_Rho (priorStates cs)) rho /\
    disputes_checked cs d /\ Forall (fun v => positives v = twoThirds spec + 1 \/ positives v = 0 \/ positives v = oneThird spec) (de_Verdicts d) /\
    offences_valid cs (records_after prior d offenders) d.
Proof.
  intros HV [Hn Hs] HD d prior. unfold Disputes in HD. fold d in HD.
  destruct (disputeChecks spec cs d) eqn:Ec; [done|]. apply disputeChecks_ok in Ec.
  apply go_bind_inv in HD as (cs1 & E1 & HD). unfold ClearWorkReports in E1. rewrite not_good_sums in E1.
  apply go_bind_inv in E1 as (rho & Er & E1). injection E1 as E1. apply clearLoop_ok in Er.
  destruct (writePriorRho_ok rho cs) as (Hp1 & Hq1 & Hr1 & _). rewrite E1 in Hp1, Hq1, Hr1. unfold UpdatePsiGBW in HD.
  destruct (CompareVerdictsWithPsi spec _) as [u|] eqn:Eu; [|by cbn in HD].
  apply CompareVerdicts_ok in Eu as [-> Hcl]; [|done].
  destruct (orElse None _) eqn:Eo in HD; [done|]. injection HD as Hcs Hm. apply orElse_inv in Eo as [_ Eo].
  assert (s_Psi (priorStates cs1) = prior) as Hpr by by rewrite Hp1.
  cbv zeta in Eo, Hcs. rewrite Hpr in Eo, Hcs. unfold UpdatePsiG, UpdatePsiB, UpdatePsiW in Eo, Hcs.
  cbn [dr_Good dr_Bad dr_Wonky] in Eo, Hcs.
  assert (NoDup (dr_Good prior) /\ NoDup (dr_Bad prior) /\ NoDup (dr_Wonky prior)) as (Hg & Hb & Hw).
  { apply NoDup_app in Hn as (? & _ & (? & _ & ?)%NoDup_app). done. }
  assert (forall n x, x ∈ judged n (de_Verdicts d) -> x ∉ dr_Good prior ++ dr_Bad prior ++ dr_Wonky prior) as Hnew.
  { intros n x (v & Hv & <- & _)%judged_elem. by apply (dc_new _ _ Ec). }
  pose proof (dc_distinct _ _ Ec) as Hd.
  rewrite !update_new in Eo, Hcs; try done; try (by apply judged_NoDup);
    try (intros x Hx Hy; apply (Hnew _ _ Hx); rewrite !elem_of_app; tauto).
  set (offenders := merge_sort bytesLe (updateListAndMap (dr_Offenders prior) mark)).
  exists offenders, rho. split; [done|]. split; [done|].
  apply (offences_ok _ cs) in Eo; [|cbn; by rewrite Hp1|cbn; by rewrite Hq1]. cbn [onPosterior posteriorStates] in Eo.
  assert (posteriorStates cs' = SetPsi (records_after prior d offenders) (posteriorStates cs)) as Hpost.
  { subst cs'. unfold UpdatePsiO. cbn. rewrite Hpr, Hq1. unfold offenders. rewrite <- Hm. done. }
  split; [done|]. split; [by subst cs'; cbn|]. split; [by subst cs'|]. split; [done|]. split; [done|]. split; [done|].
  destruct Eo as [Ho1 Ho2]. by split.
Qed.

(** C8: The records of judged reports.  After an accepted disputes extrinsic
    the good, bad and wonky reports are the old ones followed by the targets
    of the verdicts with two thirds plus one, no, and one third of positive
    judgements; every verdict is of one of these kinds.  The offenders are
    the old ones and the keys of the culprits and faults, which are also the
    offenders mark.  No report is judged twice and the offenders stay
    strictly sorted.  The reports of cores that were not found good are
    dropped, from the prior state too, and nothing else is written. *)
Theorem Disputes_records cs cs' mark : 3 <= ValidatorsCount spec -> psi_ok (s_Psi (priorStates cs)) ->
  Disputes spec cs = Ret (cs', inl mark) ->
  let d := ex_Disputes (b_Extrinsic (latestBlock cs)) in
  exists offenders rho,
    posteriorStates cs' = SetPsi (records_after (s_Psi (priorStates cs)) d offenders) (posteriorStates cs) /\
    Forall (fun v => positives v = twoThirds spec + 1 \/ positives v = 0 \/ positives v = oneThird spec) (de_Verdicts d) /\
    mark = (cu_Key <$> de_Culprits d) ++ (f_Key <$> de_Faults d) /\
    (forall key, key ∈ offenders <-> key ∈ dr_Offenders (s_Psi (priorStates cs)) \/ key ∈ mark) /\
    psi_ok (s_Psi (posteriorStates cs')) /\
    priorStates cs' = SetRho rho (priorStates cs) /\ RhoDagger (intermediateStates cs') = rho /\
    Forall2 (cleared (not_good (de_Verdicts d))) (s_Rho (priorStates cs)) rho.
Proof.
  intros HV Hok HD d. destruct (Disputes_ok cs cs' mark HV Hok HD) as (off & rho & Hm & Ho & Hpost & Hpr & Hr & Hcl & Hc & Hk & _).
  fold d in Hm, Hpost, Hcl, Hc, Hk. destruct Hok as [Hn Hs]. exists off, rho. pose proof (strictly_sorted_NoDup id _ Hs) as Hnd.
  rewrite list_fmap_id in Hnd. destruct (updateListAndMap_ok (dr_Offenders (s_Psi (priorStates cs))) mark Hnd) as (Hd & Hel & _).
  split_and!; try done.
  - intros key. rewrite Ho, merge_sort_Permutation. apply Hel.
  - rewrite Hpost. split; [by apply records_NoDup|]. cbn. rewrite Ho. by apply sort_NoDup_strict.
Qed.

(** C31: Every entry of the records is backed by signatures: if a disputes
    extrinsic is accepted, the votes of each verdict are signed by distinct
    validators of the current or the previous epoch, and its report was not
    judged before; every bad report comes with two culprits and every good
    one with a fault; a culprit has signed a guarantee of a bad report, a
    fault a judgement that does not agree with the records, both with a
    validator key that was not an offender's. *)
Theorem Disputes_backed cs cs' mark : 3 <= ValidatorsCount spec -> psi_ok (s_Psi (priorStates cs)) ->
  Disputes spec cs = Ret (cs', inl mark) ->
  let d := ex_Disputes (b_Extrinsic (latestBlock cs)) in
  disputes_checked cs d /\ offences_valid cs (s_Psi (posteriorStates cs')) d.
Proof.
  intros HV Hok HD d. destruct (Disputes_ok cs cs' mark HV Hok HD) as (off & rho & _ & _ & Hpost & _ & _ & _ & Hc & _ & Hv).
  split; [exact Hc|]. rewrite Hpost. exact Hv.
Qed.

End Disputes.
