(* ===== verification/Assurances.v ===== *)
(** * Availability assurances

    src/internal/extrinsic/assurance_controller.go and assurance.go (11.10 to
    11.17): the checks of the assurances of a block, the reports that become
    available and those that time out. *)

From stdpp Require Import sorting.
From S2P Require Import Prelude Words Types Config Encode Roundtrip ProtocolWf ProtocolSpec.
From S2P Require Import Crypto Store StoreLaws.
Local Open Scope Z_scope.

Module AssuranceErrorCode.
Definition BadAttestationParent : Z := 0.
Definition BadValidatorIndex : Z := 1.
Definition CoreNotEngaged : Z := 2.
Definition BadSignature : Z := 3.
Definition NotSortedOrUniqueAssurers : Z := 4.
End AssuranceErrorCode.

Definition WorkReportTimeout : Z := 5.

Definition GetBit (bf : Bitfield) (index : Z) : go Z := zindex bf index.

Definition ValidateAnchor (cs : ChainState) (a : list AvailAssurance) : option Z :=
  let headerParent := h_Parent (b_Header (latestBlock cs)) in
  firstErr (fun x => if negb (bool_decide (av_Anchor x = headerParent))
                     then Some AssuranceErrorCode.BadAttestationParent else None) a.

(** The loop with the indices seen and the last one. *)
Fixpoint uniqueSortLoop (a : list AvailAssurance) (uniqueMap : list Z) (last : Z) : option Z :=
  match a with
  | [] => None
  | x :: a =>
      let i := av_ValidatorIndex x in
      if i <? last then Some AssuranceErrorCode.NotSortedOrUniqueAssurers
      else if bool_decide (i ∈ uniqueMap) then Some AssuranceErrorCode.NotSortedOrUniqueAssurers
      else uniqueSortLoop a (i :: uniqueMap) i
  end.

Definition CheckUniqueAndSort (a : list AvailAssurance) : option Z := uniqueSortLoop a [] 0.

(** [copy(dst, src)] for slices of assignments. *)
Definition copyAssignments (dst src : list (option AvailabilityAssignment)) : list (option AvailabilityAssignment) :=
  take (length dst) src ++ drop (length src) dst.

Section Assurances.
Context `{HashFunctions} `{Ed25519} (spec : ChainSpec).

Definition CheckValidatorIndex (a : list AvailAssurance) : option Z :=
  firstErr (fun x => if ValidatorsCount spec <=? av_ValidatorIndex x
                     then Some AssuranceErrorCode.BadValidatorIndex else None) a.

(** The message an assurer signs. *)
Definition assuranceMessage (x : AvailAssurance) : go Bytes :=
  bitfield ← ToOctetSlice spec (av_Bitfield x);
  let hashed := Blake2bHash (av_Anchor x ++ bitfield) in
  Ret (JamAvailable ++ hashed).

Definition Assurances_ValidateSignature (cs : ChainState) (a : list AvailAssurance) : go (option Z) :=
  let kappa := s_Kappa (priorStates cs) in
  firstErrGo (fun x =>
    message ← assuranceMessage x;
    validator ← zindex kappa (av_ValidatorIndex x);
    Ret (if ed25519_Verify (v_Ed25519 validator) message (av_Signature x) then None
         else Some AssuranceErrorCode.BadSignature)) a.

(** The cores, as the loops over them run. *)
Definition cores : list Z := seqZ 0 (CoresCount spec).

(** The body of the two loops: assurers cannot set a core without a report. *)
Definition checkBit (rhoDagger : list (option AvailabilityAssignment)) (x : AvailAssurance) (j : Z) : go (option Z) :=
  bit ← GetBit (av_Bitfield x) j;
  if bit =? 1 then
    r ← zindex rhoDagger j;
    Ret (match r with None => Some AssuranceErrorCode.CoreNotEngaged | Some _ => None end)
  else Ret None.

Definition ValidateBitField (cs : ChainState) (a : list AvailAssurance) : go (option Z) :=
  let rhoDagger := RhoDagger (intermediateStates cs) in
  firstErrGo (fun x => firstErrGo (checkBit rhoDagger x) cores) a.

(** [totalAvailable[j]]: the inner loop over the assurances. *)
Fixpoint totalAvailable (a : list AvailAssurance) (j : Z) : go Z :=
  match a with
  | [] => Ret 0
  | x :: a =>
      bit ← GetBit (av_Bitfield x) j;
      n ← totalAvailable a j;
      Ret (if bit =? 1 then n + 1 else n)
  end.

(** The available reports of a list of cores, in order. *)
Fixpoint availableLoop (a : list AvailAssurance) (rhoDagger : list (option AvailabilityAssignment)) (js : list Z)
  : go (list WorkReport) :=
  match js with
  | [] => Ret []
  | j :: js =>
      n ← totalAvailable a j;
      if ValidatorsSuperMajority spec <=? n then
        r ← zindex rhoDagger j;
        rest ← availableLoop a rhoDagger js;
        Ret (match r with None => rest | Some aa => aa_Report aa :: rest end)
      else availableLoop a rhoDagger js
  end.

Definition UpdateNewlyAvailableWorkReports (a : list AvailAssurance) (rhoDagger : list (option AvailabilityAssignment))
    (cs : ChainState) : go (list WorkReport * ChainState) :=
  availableWorkReports ← availableLoop a rhoDagger cores;
  Ret (availableWorkReports, onIntermediate (SetAvailableWorkReports availableWorkReports) cs).

(** The keys of the map of reports. *)
Definition CreateWorkReportMap (workReports : list WorkReport) : list Z := rp_CoreIndex <$> workReports.

(** A core without a report in the prior state is skipped; each core is read
    before it is written, so that it does not matter which of the three
    slices are one. *)
Fixpoint dropLoop (availableWorkReportsMap : list Z) (headerTimeSlot : Z) (rho rhoDagger : list (option AvailabilityAssignment))
    (js : list Z) (rhoDoubleDagger : list (option AvailabilityAssignment)) : go (list (option AvailabilityAssignment)) :=
  match js with
  | [] => Ret rhoDoubleDagger
  | coreIndex :: js =>
      r ← zindex rho coreIndex;
      match r with
      | None => dropLoop availableWorkReportsMap headerTimeSlot rho rhoDagger js rhoDoubleDagger
      | Some aa =>
          let reportIsAvailable := bool_decide (rp_CoreIndex (aa_Report aa) ∈ availableWorkReportsMap) in
          d ← zindex rhoDagger coreIndex;
          match d with
          | None => Crash
          | Some dd =>
              let reportIsTimeout := u32 (aa_AssignedSlot dd + WorkReportTimeout) <=? headerTimeSlot in
              if reportIsAvailable || reportIsTimeout then
                rhoDoubleDagger ← zupdate rhoDoubleDagger coreIndex None;
                dropLoop availableWorkReportsMap headerTimeSlot rho rhoDagger js rhoDoubleDagger
              else dropLoop availableWorkReportsMap headerTimeSlot rho rhoDagger js rhoDoubleDagger
          end
      end
  end.

Definition FilterAvailableReports (a : list AvailAssurance) (cs : ChainState) : go ChainState :=
  let rhoDagger := RhoDagger (intermediateStates cs) in
  let rho := s_Rho (priorStates cs) in
  let rhoDoubleDagger := copyAssignments (RhoDoubleDagger (intermediateStates cs)) rhoDagger in
  let headerTimeSlot := h_Slot (b_Header (latestBlock cs)) in
  r ← UpdateNewlyAvailableWorkReports a rhoDagger cs;
  let '(availableWorkReports, cs) := r in
  let availableWorkReportsMap := CreateWorkReportMap availableWorkReports in
  rhoDoubleDagger ← dropLoop availableWorkReportsMap headerTimeSlot rho rhoDagger cores rhoDoubleDagger;
  Ret (writeRhoDoubleDagger rhoDoubleDagger cs).

Definition Assurance (cs : ChainState) : go (ChainState * option Z) :=
  let assurances := ex_Assurances (b_Extrinsic (latestBlock cs)) in
  match orElse (ValidateAnchor cs assurances) (orElse (CheckValidatorIndex assurances) (CheckUniqueAndSort assurances)) with
  | Some err => Ret (cs, Some err)
  | None =>
      err ← Assurances_ValidateSignature cs assurances;
      match err with
      | Some err => Ret (cs, Some err)
      | None =>
          err ← ValidateBitField cs assurances;
          match err with
          | Some err => Ret (cs, Some err)
          | None => cs ← FilterAvailableReports assurances cs; Ret (cs, None)
          end
      end
  end.

End Assurances.

(** * Correctness *)


(** ** The order of the assurers *)

(** [seen] holds nothing above [last], and [last] unless it is empty. *)
Lemma uniqueSortLoop_ok a seen last : (forall s, s ∈ seen -> s <= last) -> (seen = [] \/ last ∈ seen) ->
  uniqueSortLoop a seen last = None <->
    StronglySorted Z.lt (av_ValidatorIndex <$> a) /\
    Forall (fun x => if decide (seen = []) then last <= av_ValidatorIndex x else last < av_ValidatorIndex x) a.
Proof.
  revert seen last. induction a as [|x a IH]; intros seen last Hs Hl; cbn [uniqueSortLoop].
  { split; [|done]. by split; constructor. }
  set (i := av_ValidatorIndex x). assert (i ∈ seen -> i <= last) as Hi by apply Hs.
  rewrite fmap_cons. fold i. destruct (Z.ltb_spec i last) as [Hlt|Hge].
  { split; [done|]. intros [_ Hf]. apply Forall_cons in Hf as [Hf _]. fold i in Hf. case_decide; lia. }
  destruct (bool_decide (i ∈ seen)) eqn:Em; [apply bool_decide_eq_true in Em|apply bool_decide_eq_false in Em].
  { split; [done|]. intros [_ Hf]. apply Forall_cons in Hf as [Hf _]. fold i in Hf.
    rewrite decide_False in Hf by (intros ->; by apply not_elem_of_nil in Em). specialize (Hi Em). lia. }
  rewrite (IH (i :: seen) i).
  - rewrite Forall_cons. split.
    + intros [H1 H2].
      assert (Forall (fun y => i < av_ValidatorIndex y) a) as H3.
      { eapply Forall_impl; [exact H2|]. cbv beta. intros y. by rewrite decide_False. }
      clear H2. split_and!.
      * constructor; [done|]. by apply Forall_fmap.
      * fold i. case_decide; [lia|]. destruct Hl as [?|Hl]; [done|]. destruct (decide (i = last)) as [Heq|]; [|lia].
        by rewrite Heq in Em.
      * eapply Forall_impl; [exact H3|]. cbv beta. intros y Hy. case_decide; lia.
    + intros [H1 [_ _]]. apply StronglySorted_inv in H1 as [H1 H2]. split; [done|]. rewrite Forall_fmap in H2.
      eapply Forall_impl; [exact H2|]. cbv beta. intros y Hy. by rewrite decide_False.
  - intros s [->|Hin]%elem_of_cons; [lia|]. specialize (Hs s Hin). lia.
  - right. by left.
Qed.

Lemma CheckUniqueAndSort_ok a : Forall (fun x => 0 <= av_ValidatorIndex x) a ->
  CheckUniqueAndSort a = None <-> StronglySorted Z.lt (av_ValidatorIndex <$> a).
Proof.
  intros Ha. unfold CheckUniqueAndSort. rewrite uniqueSortLoop_ok; [|by intros s ?%not_elem_of_nil|by left].
  split; [tauto|]. intros Hs. split; [done|]. eapply Forall_impl; [exact Ha|]. intros x Hx. by rewrite decide_True.
Qed.

Section Assurances.
Context `{HashFunctions} `{Ed25519} (spec : ChainSpec) (Hspec : codec_spec spec).

(** ** Well-formed input *)

(** The assurances of a decoded block, and the assignments as disputes leave
    them: the prior ones, each report on its own core. *)
Record assurance_input (cs : ChainState) : Prop := {
  ai_kappa : lenOf (s_Kappa (priorStates cs)) = ValidatorsCount spec;
  ai_rho : s_Rho (priorStates cs) = RhoDagger (intermediateStates cs);
  ai_len : lenOf (RhoDagger (intermediateStates cs)) = CoresCount spec;
  ai_len2 : lenOf (RhoDoubleDagger (intermediateStates cs)) = CoresCount spec;
  ai_core : forall c aa, RhoDagger (intermediateStates cs) !! c = Some (Some aa) -> rp_CoreIndex (aa_Report aa) = Z.of_nat c;
  ai_bits : Forall (fun x => 0 <= av_ValidatorIndex x /\ lenOf (av_Bitfield x) = CoresCount spec /\
    Forall (fun b => b = 0 \/ b = 1) (av_Bitfield x)) (ex_Assurances (b_Extrinsic (latestBlock cs))) }.

(** Whether an assurance is for core [c]. *)
Definition assures (x : AvailAssurance) (c : nat) : Prop := av_Bitfield x !! c = Some 1.
#[global] Instance assures_dec x c : Decision (assures x c).
Proof. unfold assures. apply _. Defined.

Definition votes (a : list AvailAssurance) (c : nat) : Z := lenOf (filter (fun x => assures x c) a).

Definition signed (cs : ChainState) (x : AvailAssurance) : Prop :=
  exists message validator, assuranceMessage spec x = Ret message /\
    zlookup (s_Kappa (priorStates cs)) (av_ValidatorIndex x) = Some validator /\
    ed25519_Verify (v_Ed25519 validator) message (av_Signature x) = true.

(** The conditions of a valid extrinsic (11.10 to 11.15). *)
Record accepted (cs : ChainState) (a : list AvailAssurance) : Prop := {
  ac_anchor : Forall (fun x => av_Anchor x = h_Parent (b_Header (latestBlock cs))) a;
  ac_index : Forall (fun x => av_ValidatorIndex x < ValidatorsCount spec) a;
  ac_sorted : StronglySorted Z.lt (av_ValidatorIndex <$> a);
  ac_signed : Forall (signed cs) a;
  ac_engaged : forall x c, x ∈ a -> assures x c -> RhoDagger (intermediateStates cs) !! c <> Some None }.

(** ** The checks *)

Lemma cores_elem j : j ∈ cores spec <-> 0 <= j < CoresCount spec.
Proof. unfold cores. rewrite elem_of_seqZ. lia. Qed.

Lemma GetBit_ok bf j : lenOf bf = CoresCount spec -> 0 <= j < CoresCount spec ->
  exists b, GetBit bf j = Ret b /\ bf !! Z.to_nat j = Some b.
Proof.
  intros Hl Hj. destruct (lenOf_lookup bf _ _ Hl Hj) as [b Hb]. exists b. split; [|done].
  unfold GetBit. apply zindex_lookup; [lia|done].
Qed.

Lemma signature_ok cs a : assurance_input cs -> a = ex_Assurances (b_Extrinsic (latestBlock cs)) ->
  Forall (fun x => av_ValidatorIndex x < ValidatorsCount spec) a ->
  exists e, Assurances_ValidateSignature spec cs a = Ret e /\ (e = None <-> Forall (signed cs) a).
Proof.
  intros [Hk _ _ _ _ Hb] -> Hi. unfold Assurances_ValidateSignature. set (f := fun x : AvailAssurance => _).
  assert (Forall (fun x => (exists e, f x = Ret e) /\ (f x = Ret None <-> signed cs x))
    (ex_Assurances (b_Extrinsic (latestBlock cs)))) as Hf.
  { apply Forall_forall. intros x Hx. rewrite Forall_forall in Hb, Hi. specialize (Hb x Hx). specialize (Hi x Hx).
    destruct Hb as (H0i & Hl & Hbits). cbv beta in Hi. destruct (ToOctetSlice_ok spec Hspec (av_Bitfield x) Hl Hbits) as (bytes & E & _).
    assert (assuranceMessage spec x = Ret (JamAvailable ++ Blake2bHash (av_Anchor x ++ bytes))) as Em
      by (unfold assuranceMessage; by rewrite E).
    destruct (zlookup_is_Some (s_Kappa (priorStates cs)) (av_ValidatorIndex x)) as [v Hv]; [unfold lenOf in Hk; lia|].
    remember (JamAvailable ++ Blake2bHash (av_Anchor x ++ bytes)) as msg eqn:Hmsg. clear Hmsg.
    unfold f, signed. rewrite Em, go_bind_ret. rewrite (proj2 (zindex_Ret _ _ _) Hv), go_bind_ret. split; [by eexists|].
    split.
    - intros Hr. destruct (ed25519_Verify _ _ _) eqn:Ev; [|done]. eauto.
    - intros (m & v' & [= <-] & Hv' & Hr). rewrite Hv in Hv'. injection Hv' as <-. by rewrite Hr. }
  destruct (firstErrGo_total f (ex_Assurances (b_Extrinsic (latestBlock cs)))) as [e He].
  { eapply Forall_impl; [exact Hf|]. by intros x [? _]. }
  exists e. split; [done|]. transitivity (firstErrGo f (ex_Assurances (b_Extrinsic (latestBlock cs))) = Ret None).
  { rewrite He. split; congruence. }
  rewrite firstErrGo_None, !Forall_forall. rewrite Forall_forall in Hf. split; intros Hx x Hin; by apply Hf, Hx.
Qed.

Lemma bitfield_ok cs a : assurance_input cs -> a = ex_Assurances (b_Extrinsic (latestBlock cs)) ->
  exists e, ValidateBitField spec cs a = Ret e /\
    (e = None <-> forall x c, x ∈ a -> assures x c -> RhoDagger (intermediateStates cs) !! c <> Some None).
Proof.
  intros [_ _ Hl _ _ Hb] ->. unfold ValidateBitField. set (a := ex_Assurances _) in *.
  set (g := checkBit (RhoDagger (intermediateStates cs))).
  assert (forall x j, x ∈ a -> j ∈ cores spec -> (exists e, g x j = Ret e) /\
    (g x j = Ret None <-> ~ (assures x (Z.to_nat j) /\ RhoDagger (intermediateStates cs) !! Z.to_nat j = Some None))) as Hg.
  { intros x j Hx Hj%cores_elem. rewrite Forall_forall in Hb. destruct (Hb x Hx) as (_ & Hlx & _).
    destruct (GetBit_ok _ _ Hlx Hj) as (b & E & Hlk). destruct (lenOf_lookup _ _ _ Hl Hj) as [r Hr].
    unfold g, checkBit, assures. rewrite E, go_bind_ret, Hlk, Hr. destruct (Z.eqb_spec b 1) as [->|Hn].
    - rewrite (zindex_lookup _ _ _ (proj1 Hj) Hr), go_bind_ret. destruct r; (split; [by eexists|]); split; intros; try done.
      + by intros [_ ?].
      + exfalso. by apply H1.
    - split; [by eexists|]. split; [|done]. intros _ [[= ->] _]. done. }
  set (f := fun x => firstErrGo (g x) (cores spec)).
  assert (Forall (fun x => (exists e, f x = Ret e)) a) as Hf.
  { apply Forall_forall. intros x Hx. apply firstErrGo_total, Forall_forall. intros j Hj. by apply Hg. }
  destruct (firstErrGo_total f a Hf) as [e He]. exists e. split; [exact He|].
  transitivity (firstErrGo f a = Ret None); [rewrite He; split; congruence|]. rewrite firstErrGo_None, Forall_forall. split.
  - intros Ha x c Hx Hc Hn. specialize (Ha x Hx). unfold f in Ha. rewrite firstErrGo_None, Forall_forall in Ha.
    assert (Z.of_nat c ∈ cores spec) as Hcc.
    { apply cores_elem. apply lookup_lt_Some in Hn. unfold lenOf in Hl. lia. }
    specialize (Ha _ Hcc). apply Hg in Ha; [|done|done]. rewrite Nat2Z.id in Ha. by apply Ha.
  - intros Ha x Hx. unfold f. rewrite firstErrGo_None, Forall_forall. intros j Hj. apply Hg; [done..|].
    intros [H1 H2]. by apply (Ha x (Z.to_nat j)).
Qed.

(** ** The effects *)

Lemma totalAvailable_ok a j : Forall (fun x => lenOf (av_Bitfield x) = CoresCount spec) a -> 0 <= j < CoresCount spec ->
  totalAvailable a j = Ret (votes a (Z.to_nat j)).
Proof.
  intros Ha Hj. induction Ha as [|x a Hx Ha IH]; [done|]. cbn [totalAvailable].
  destruct (GetBit_ok _ _ Hx Hj) as (b & E & Hl). rewrite E, go_bind_ret, IH, go_bind_ret. f_equal.
  unfold votes. rewrite filter_cons. assert (assures x (Z.to_nat j) <-> b = 1) as Hb by (unfold assures; rewrite Hl; split; congruence).
  destruct (Z.eqb_spec b 1) as [->|Hn].
  - rewrite decide_True by by apply Hb. unfold lenOf. cbn [length]. lia.
  - rewrite decide_False by by rewrite Hb. done.
Qed.

(** Whether the report of core [c] becomes available. *)
Definition becomesAvailable (a : list AvailAssurance) (c : nat) : Prop := ValidatorsSuperMajority spec <= votes a c.
#[global] Instance becomesAvailable_dec a c : Decision (becomesAvailable a c).
Proof. unfold becomesAvailable. apply _. Defined.

(** The reports that become available, in the order of their cores. *)
Definition available (a : list AvailAssurance) (rhoDagger : list (option AvailabilityAssignment)) (js : list Z) : list WorkReport :=
  omap (fun j => r ← rhoDagger !! Z.to_nat j;
                 if decide (becomesAvailable a (Z.to_nat j)) then aa_Report <$> r else None) js.

Lemma availableLoop_ok a rhoDagger js : Forall (fun x => lenOf (av_Bitfield x) = CoresCount spec) a ->
  lenOf rhoDagger = CoresCount spec -> (forall j, j ∈ js -> 0 <= j < CoresCount spec) ->
  availableLoop spec a rhoDagger js = Ret (available a rhoDagger js).
Proof.
  intros Ha Hl. induction js as [|j js IH]; intros Hj; [done|]. cbn [availableLoop available omap list_omap].
  assert (0 <= j < CoresCount spec) as Hj0 by (apply Hj; by left).
  rewrite totalAvailable_ok, go_bind_ret by done. destruct (lenOf_lookup _ _ _ Hl Hj0) as [r Hr]. rewrite Hr.
  cbn [mbind option_bind]. fold (available a rhoDagger js). rewrite IH by (intros k Hk; apply Hj; by right).
  destruct (Z.leb_spec (ValidatorsSuperMajority spec) (votes a (Z.to_nat j))) as [Hle|Hlt].
  - rewrite (zindex_lookup _ _ _ (proj1 Hj0) Hr), !go_bind_ret. rewrite decide_True by done. by destruct r.
  - rewrite decide_False by (unfold becomesAvailable; lia). done.
Qed.

(** A report leaves its core when it is available or has timed out. *)
Definition leaves (a : list AvailAssurance) (slot : Z) (c : nat) (aa : AvailabilityAssignment) : Prop :=
  becomesAvailable a c \/ u32 (aa_AssignedSlot aa + WorkReportTimeout) <= slot.
#[global] Instance leaves_dec a slot c aa : Decision (leaves a slot c aa).
Proof. unfold leaves. apply _. Defined.

Definition afterAssurances (a : list AvailAssurance) (slot : Z) (rho : list (option AvailabilityAssignment))
  : list (option AvailabilityAssignment) :=
  imap (fun c r => aa ← r; if decide (leaves a slot c aa) then None else Some aa) rho.

(** The cores of the available reports are those whose report is available. *)
Lemma available_cores a rho c aa : lenOf rho = CoresCount spec ->
  (forall c aa, rho !! c = Some (Some aa) -> rp_CoreIndex (aa_Report aa) = Z.of_nat c) -> rho !! c = Some (Some aa) ->
  rp_CoreIndex (aa_Report aa) ∈ CreateWorkReportMap (available a rho (cores spec)) <-> becomesAvailable a c.
Proof.
  intros Hl Hc Hlk. unfold CreateWorkReportMap, available. rewrite (Hc _ _ Hlk), list_elem_of_fmap. split.
  - intros (w & Hw & (j & Hj & Hlk')%list_elem_of_omap).
    destruct (rho !! Z.to_nat j) as [[aa'|]|] eqn:E; cbn in Hlk'; try done; [|by case_decide].
    case_decide as Hd; [|done]. cbn in Hlk'. injection Hlk' as <-. rewrite (Hc _ _ E) in Hw.
    by assert (c = Z.to_nat j) as -> by lia.
  - intros Hb. exists (aa_Report aa). split; [by rewrite (Hc _ _ Hlk)|]. apply list_elem_of_omap. exists (Z.of_nat c).
    rewrite Nat2Z.id, Hlk. cbn. rewrite decide_True by done. split; [|done]. apply cores_elem.
    apply lookup_lt_Some in Hlk. unfold lenOf in Hl. lia.
Qed.

(** One core after the loop. *)
Definition dropped (a : list AvailAssurance) (slot : Z) (c : nat) (r : option (option AvailabilityAssignment))
    (d : option (option AvailabilityAssignment)) : option (option AvailabilityAssignment) :=
  match r with
  | Some (Some aa) => if decide (leaves a slot c aa) then Some None else d
  | _ => d
  end.

Lemma dropLoop_ok m slot rho a n i dd : length dd = length rho -> (i + n = length rho)%nat ->
  (forall c aa, rho !! c = Some (Some aa) -> rp_CoreIndex (aa_Report aa) ∈ m <-> becomesAvailable a c) ->
  exists dd', dropLoop m slot rho rho (seqZ (Z.of_nat i) (Z.of_nat n)) dd = Ret dd' /\ length dd' = length rho /\
    forall c, dd' !! c = if decide (i <= c)%nat then dropped a slot c (rho !! c) (dd !! c) else dd !! c.
Proof.
  intros Hl Hin Hm. revert i dd Hl Hin. induction n as [|n IH]; intros i dd Hl Hin.
  { exists dd. split_and!; [done|done|]. intros c. case_decide; [|done]. rewrite !lookup_ge_None_2 by lia. done. }
  rewrite seqZ_cons by lia. replace (Z.pred (Z.of_nat (S n))) with (Z.of_nat n) by lia.
  replace (Z.succ (Z.of_nat i)) with (Z.of_nat (S i)) by lia. cbn [dropLoop].
  destruct (lookup_lt_is_Some_2 rho i) as [r Hr]; [lia|].
  assert (zindex rho (Z.of_nat i) = Ret r) as Ez by (apply zindex_lookup; [lia|by rewrite Nat2Z.id]).
  rewrite Ez, go_bind_ret. destruct r as [aa|].
  - rewrite go_bind_ret.
    assert (bool_decide (rp_CoreIndex (aa_Report aa) ∈ m) || (u32 (aa_AssignedSlot aa + WorkReportTimeout) <=? slot) =
      bool_decide (leaves a slot i aa)) as ->.
    { apply eq_bool_prop_intro. rewrite orb_True, !bool_decide_spec, Is_true_true, Z.leb_le. unfold leaves. by rewrite (Hm _ _ Hr). }
    destruct (bool_decide (leaves a slot i aa)) eqn:El; [apply bool_decide_eq_true in El|apply bool_decide_eq_false in El].
    + rewrite zupdate_ok, go_bind_ret, Nat2Z.id by lia. destruct (IH (S i) (<[i:=None]> dd)) as (dd' & E & Hlen & Hlk);
        [by rewrite length_insert|lia|]. exists dd'. split_and!; [done|done|]. intros c. rewrite Hlk.
      destruct (decide (c = i)) as [->|Hn].
      * rewrite decide_False, decide_True by lia. rewrite list_lookup_insert_eq by lia. rewrite Hr. cbn. by rewrite decide_True.
      * rewrite list_lookup_insert_ne by done. do 2 case_decide; try done; lia.
    + destruct (IH (S i) dd) as (dd' & E & Hlen & Hlk); [done|lia|]. exists dd'. split_and!; [done|done|]. intros c. rewrite Hlk.
      destruct (decide (c = i)) as [->|Hn]; [|do 2 case_decide; try done; lia].
      rewrite decide_False, decide_True by lia. rewrite Hr. cbn. by rewrite decide_False.
  - destruct (IH (S i) dd) as (dd' & E & Hlen & Hlk); [done|lia|]. exists dd'. split_and!; [done|done|]. intros c. rewrite Hlk.
    destruct (decide (c = i)) as [->|Hn]; [|do 2 case_decide; try done; lia].
    rewrite decide_False, decide_True by lia. by rewrite Hr.
Qed.

Lemma copyAssignments_full dst src : length dst = length src -> copyAssignments dst src = src.
Proof. intros Hl. unfold copyAssignments. rewrite Hl, take_ge, drop_ge, app_nil_r by lia. done. Qed.

Lemma FilterAvailableReports_ok cs a : assurance_input cs -> a = ex_Assurances (b_Extrinsic (latestBlock cs)) ->
  let rho := RhoDagger (intermediateStates cs) in
  FilterAvailableReports spec a cs =
    Ret (writeRhoDoubleDagger (afterAssurances a (h_Slot (b_Header (latestBlock cs))) rho)
      (onIntermediate (SetAvailableWorkReports (available a rho (cores spec))) cs)).
Proof.
  intros [_ Hr Hl Hl2 Hc Hb] Ha rho. rewrite <- Ha in Hb. unfold FilterAvailableReports, UpdateNewlyAvailableWorkReports.
  cbv zeta. rewrite Hr. fold rho. fold rho in Hl, Hc. rewrite availableLoop_ok; [|..|done|by intros j ?%cores_elem].
  2: { eapply Forall_impl; [exact Hb|]. intros x Hx. apply Hx. }
  rewrite !go_bind_ret, copyAssignments_full by (unfold lenOf in *; lia).
  set (m := CreateWorkReportMap _). set (slot := h_Slot _).
  destruct (dropLoop_ok m slot rho a (length rho) 0 rho) as (dd' & E & Hlen & Hlk); [done|lia| |].
  { intros c aa Hlk. by apply available_cores. }
  assert (cores spec = seqZ (Z.of_nat 0) (Z.of_nat (length rho))) as -> by (unfold cores, lenOf in *; by rewrite Hl).
  rewrite E, go_bind_ret. do 2 f_equal. apply list_eq. intros c. rewrite Hlk, decide_True by lia.
  unfold afterAssurances. rewrite list_lookup_imap. destruct (rho !! c) as [[aa|]|]; cbn; [|done..]. by case_decide.
Qed.

(** C22: Assurances (11.10 to 11.17).  For well-formed input the processing
    never panics.  It accepts an extrinsic exactly if all assurances are for
    the parent block, from distinct validators in ascending order, validly
    signed, and only for cores with a report; otherwise nothing is written.
    Accepted, the reports that a super-majority assures become available, in
    the order of their cores, and exactly these and the ones that timed out
    leave their core. *)
Theorem Assurance_correct cs : assurance_input cs ->
  let a := ex_Assurances (b_Extrinsic (latestBlock cs)) in
  let rho := RhoDagger (intermediateStates cs) in
  (accepted cs a ->
     Assurance spec cs = Ret (writeRhoDoubleDagger (afterAssurances a (h_Slot (b_Header (latestBlock cs))) rho)
       (onIntermediate (SetAvailableWorkReports (available a rho (cores spec))) cs), None)) /\
  (~ accepted cs a -> exists err, Assurance spec cs = Ret (cs, Some err)).
Proof.
  intros Hi a rho. pose proof (ai_bits _ Hi) as Hb. fold a in Hb. unfold Assurance. fold a.
  assert (Forall (fun x => 0 <= av_ValidatorIndex x) a) as H0i by (eapply Forall_impl; [exact Hb|]; intros x Hx; apply Hx).
  destruct (orElse _ _) as [e|] eqn:Ee.
  { split; [|by eexists]. intros [Ha Hx Hs _ _]. exfalso. enough (Some e = None) by done.
    rewrite <- Ee, !orElse_None. split_and!.
    - unfold ValidateAnchor. apply firstErr_None. eapply Forall_impl; [exact Ha|]. cbv beta. intros x ->. by rewrite bool_decide_true.
    - unfold CheckValidatorIndex. apply firstErr_None. eapply Forall_impl; [exact Hx|]. cbv beta. intros x Hlt. by zcase; [lia|].
    - by apply CheckUniqueAndSort_ok. }
  rewrite !orElse_None, (CheckUniqueAndSort_ok _ H0i) in Ee. destruct Ee as (Ea & Ex & Es).
  unfold ValidateAnchor in Ea. unfold CheckValidatorIndex in Ex. rewrite firstErr_None in Ea, Ex.
  assert (Forall (fun x => av_Anchor x = h_Parent (b_Header (latestBlock cs))) a) as Ha.
  { eapply Forall_impl; [exact Ea|]. cbv beta. intros x. by case_bool_decide. }
  assert (Forall (fun x => av_ValidatorIndex x < ValidatorsCount spec) a) as Hx.
  { eapply Forall_impl; [exact Ex|]. cbv beta. intros x. zcase; [done|lia]. }
  destruct (signature_ok cs a Hi eq_refl Hx) as (e1 & -> & H1'). rewrite go_bind_ret.
  destruct e1 as [e1|].
  { split; [|by eexists]. intros [_ _ _ Hs _]. by apply H1' in Hs. }
  destruct (bitfield_ok cs a Hi eq_refl) as (e2 & -> & H2'). rewrite go_bind_ret. destruct e2 as [e2|].
  { split; [|by eexists]. intros [_ _ _ _ He]. by apply H2' in He. }
  split.
  - intros _. by rewrite (FilterAvailableReports_ok cs a Hi eq_refl).
  - intros Hn. exfalso. apply Hn. split; try done; [by apply H1'|by apply H2'].
Qed.

End Assurances.
