(* ===== verification/Guarantees.v ===== *)
(** * Guarantees

    src/internal/extrinsic: the assignment of validators to cores
    (guarantor_assignments.go), the checks of the guarantees of a block and
    their effect (guarantee_controller.go, guarantee.go; 11.18 to 11.43).

    The signatures are checked in concurrent tasks, of which one that fails
    gives the error: the model returns the list of the errors that may be
    returned, empty if there is none. *)

From S2P Require Import Prelude Words Types Config Encode Crypto Store Validate Shuffle Safrole.
Local Open Scope Z_scope.

Module ReportsErrorCode.
Definition BadCoreIndex : Z := 0.
Definition FutureReportSlot : Z := 1.
Definition ReportEpochBeforeLast : Z := 2.
Definition InsufficientGuarantees : Z := 3.
Definition OutOfOrderGuarantee : Z := 4.
Definition NotSortedOrUniqueGuarantors : Z := 5.
Definition WrongAssignment : Z := 6.
Definition CoreEngaged : Z := 7.
Definition AnchorNotRecent : Z := 8.
Definition BadServiceID : Z := 9.
Definition BadCodeHash : Z := 10.
Definition DependencyMissing : Z := 11.
Definition DuplicatePackage : Z := 12.
Definition BadStateRoot : Z := 13.
Definition BadBeefyMmrRoot : Z := 14.
Definition CoreUnauthorized : Z := 15.
Definition BadValidatorIndex : Z := 16.
Definition WorkReportGasTooHigh : Z := 17.
Definition ServiceItemGasTooLow : Z := 18.
Definition TooManyDependencies : Z := 19.
Definition SegmentRootLookupInvalid : Z := 20.
Definition BadSignature : Z := 21.
Definition WorkReportTooBig : Z := 22.
Definition BannedValidator : Z := 23.
Definition LookupAnchorNotRecent : Z := 24.
Definition MissingWorkResults : Z := 25.
Definition TooManyWorkResults : Z := 26.

(** The entries of the map for the errors that validation returns; the other
    keys are not looked up.  A missing key gives zero. *)
Definition ReportsErrorMap : list (string * Z) := [
  ("insufficient_guarantees"%string, InsufficientGuarantees);
  ("bad_validator_index"%string, BadValidatorIndex);
  ("too_many_dependencies"%string, TooManyDependencies);
  ("work_report_too_big"%string, WorkReportTooBig);
  ("missing_work_results"%string, MissingWorkResults);
  ("too_many_work_results"%string, TooManyWorkResults)].

Definition lookup (err : string) : Z :=
  default 0 (snd <$> List.find (fun p => bool_decide (fst p = err)) ReportsErrorMap).
End ReportsErrorCode.

(** An error is a number of the protocol, or another error (of an encoder). *)
Inductive ReportError :=
| Code (c : Z)
| OtherError.

Record GuranatorAssignments := MkGuranatorAssignments {
  CoreAssignments : list Z; PublicKeys : list Validator }.

Definition isAuthPoolContains (authPool : AuthPool) (authorizerHash : Bytes) : bool :=
  existsb (fun auth => bool_decide (auth = authorizerHash)) (default [] authPool).

Definition CheckSignaturesAreSorted (signatures : list ValidatorSignature) : option ReportError :=
  if existsAdjacent (fun s t => vs_ValidatorIndex t <=? vs_ValidatorIndex s) signatures
  then Some (Code ReportsErrorCode.NotSortedOrUniqueGuarantors) else None.

(** The loop from the second guarantee on. *)
Fixpoint sortLoop (prev : ReportGuarantee) (guarantees : list ReportGuarantee) : option ReportError :=
  match guarantees with
  | [] => None
  | g :: guarantees =>
      if rp_CoreIndex (rg_Report g) <=? rp_CoreIndex (rg_Report prev) then Some (Code ReportsErrorCode.OutOfOrderGuarantee)
      else orElse (CheckSignaturesAreSorted (rg_Signatures g)) (sortLoop g guarantees)
  end.

Definition GuaranteeController_Sort (guarantees : list ReportGuarantee) : option ReportError :=
  match guarantees with
  | [] => None
  | g :: guarantees => orElse (CheckSignaturesAreSorted (rg_Signatures g)) (sortLoop g guarantees)
  end.

Definition WorkReportSet (guarantees : list ReportGuarantee) : list WorkReport := rg_Report <$> guarantees.

Definition packageHash (w : WorkReport) : Bytes := ps_Hash (rp_PackageSpec w).

(** The keys of a map, each once; Go iterates over them in any order. *)
Definition WorkPackageHashSet (guarantees : list ReportGuarantee) : list Bytes :=
  remove_dups (packageHash <$> WorkReportSet guarantees).

Definition CardinalityCheck (guarantees : list ReportGuarantee) : option ReportError :=
  if negb (lenOf (WorkReportSet guarantees) =? lenOf (WorkPackageHashSet guarantees))
  then Some (Code ReportsErrorCode.DuplicatePackage) else None.

Definition ContextSet (guarantees : list ReportGuarantee) : list RefineContext := rp_Context <$> WorkReportSet guarantees.

(** The hashes of the packages of the recent blocks. *)
Definition recentPackages (s : State) : list Bytes :=
  rw_Hash <$> concat (bi_Reported <$> rb_History (s_Beta s)).

Definition ValidateWorkPackageHashes (cs : ChainState) (guarantees : list ReportGuarantee) : option ReportError :=
  let prior := priorStates cs in
  let qMap := packageHash ∘ rr_Report <$> concat (s_Vartheta prior) in
  let aMap := packageHash ∘ aa_Report <$> omap id (s_Rho prior) in
  let xiMap := concat (s_Xi prior) in
  let known := qMap ++ aMap ++ xiMap ++ recentPackages prior in
  firstErr (fun h => if bool_decide (h ∈ known) then Some (Code ReportsErrorCode.DuplicatePackage) else None)
    (WorkPackageHashSet guarantees).

Definition CheckExtrinsicOrRecentHistory (cs : ChainState) (guarantees : list ReportGuarantee) : option ReportError :=
  let w := WorkReportSet guarantees in
  let dependencySet := concat ((fun v => rc_Prerequisites (rp_Context v)) <$> w) in
  let segmentRootSet := concat ((fun v => sl_WorkPackageHash <$> rp_SegmentRootLookup v) <$> w) in
  let checkPackageSet := WorkPackageHashSet guarantees ++ recentPackages (priorStates cs) in
  orElse (firstErr (fun k => if bool_decide (k ∈ checkPackageSet) then None
                             else Some (Code ReportsErrorCode.DependencyMissing)) dependencySet)
    (firstErr (fun k => if bool_decide (k ∈ checkPackageSet) then None
                        else Some (Code ReportsErrorCode.SegmentRootLookupInvalid)) segmentRootSet).

(** The map of packages to export roots: the guarantees, overwritten by the
    recent blocks. *)
Definition exportsMap (cs : ChainState) (guarantees : list ReportGuarantee) : gmap Bytes Bytes :=
  let pSet := foldl (fun m w => <[packageHash w := ps_ExportsRoot (rp_PackageSpec w)]> m) (∅ : gmap Bytes Bytes)
    (WorkReportSet guarantees) in
  foldl (fun m r => <[rw_Hash r := rw_ExportsRoot r]> m) pSet
    (concat (bi_Reported <$> rb_History (s_Beta (priorStates cs)))).

Definition CheckSegmentRootLookup (cs : ChainState) (guarantees : list ReportGuarantee) : option ReportError :=
  let pSet := exportsMap cs guarantees in
  firstErr (fun v => firstErr (fun w =>
      if bool_decide (pSet !! sl_WorkPackageHash w = Some (sl_SegmentTreeRoot w)) then None
      else Some (Code ReportsErrorCode.SegmentRootLookupInvalid)) (rp_SegmentRootLookup v)) (WorkReportSet guarantees).

(** The code hash of a service, zeros if there is none. *)
Definition serviceCodeHash (delta : ServiceAccountState) (s : Z) : Bytes :=
  match delta !! s with Some a => si_CodeHash (ac_ServiceInfo a) | None => zeroHash end.

Definition CheckWorkResult (cs : ChainState) (guarantees : list ReportGuarantee) : option ReportError :=
  let delta := s_Delta (priorStates cs) in
  firstErr (fun v => firstErr (fun w =>
      if bool_decide (wr_CodeHash w = serviceCodeHash delta (wr_ServiceID w)) then None
      else Some (Code ReportsErrorCode.BadCodeHash)) (rp_Results v)) (WorkReportSet guarantees).

(** The loop over the results of a report, with the gas so far. *)
Fixpoint resultLoop (delta : ServiceAccountState) (results : list WorkResult) (totalGas : Z) : Z * option ReportError :=
  match results with
  | [] => (totalGas, None)
  | w :: results =>
      let totalGas := u64 (totalGas + wr_AccumulateGas w) in
      match delta !! wr_ServiceID w with
      | None => (totalGas, Some (Code ReportsErrorCode.BadServiceID))
      | Some account =>
          if wr_AccumulateGas w <? si_MinItemGas (ac_ServiceInfo account)
          then (totalGas, Some (Code ReportsErrorCode.ServiceItemGasTooLow))
          else resultLoop delta results totalGas
      end
  end.

Definition ValidateWorkReport (cs : ChainState) (workReport : WorkReport) : go (option ReportError) :=
  engaged ← zindex (RhoDoubleDagger (intermediateStates cs)) (rp_CoreIndex workReport);
  match engaged with
  | Some _ => Ret (Some (Code ReportsErrorCode.CoreEngaged))
  | None =>
      authPool ← zindex (s_Alpha (priorStates cs)) (rp_CoreIndex workReport);
      if negb (isAuthPoolContains authPool (rp_AuthorizerHash workReport))
      then Ret (Some (Code ReportsErrorCode.CoreUnauthorized))
      else
        let '(totalGas, err) := resultLoop (s_Delta (priorStates cs)) (rp_Results workReport) 0 in
        match err with
        | Some err => Ret (Some err)
        | None => Ret (if MaxAccumulateGas <? totalGas then Some (Code ReportsErrorCode.WorkReportGasTooHigh) else None)
        end
  end.

Definition ValidateWorkReports (cs : ChainState) (guarantees : list ReportGuarantee) : go (option ReportError) :=
  firstErrGo (ValidateWorkReport cs) (WorkReportSet guarantees).

(** The transition of the assignments (11.43); the posterior ones are the
    slice of [RhoDoubleDagger]. *)
Fixpoint assignLoop (posteriorTau : Z) (guarantees : list ReportGuarantee) (rho : list (option AvailabilityAssignment))
  : go (list (option AvailabilityAssignment)) :=
  match guarantees with
  | [] => Ret rho
  | g :: guarantees =>
      rho ← zupdate rho (rp_CoreIndex (rg_Report g)) (Some (MkAvailabilityAssignment (rg_Report g) posteriorTau));
      assignLoop posteriorTau guarantees rho
  end.

Definition TransitionWorkReport (guarantees : list ReportGuarantee) (cs : ChainState) : go ChainState :=
  let posteriorTau := s_Tau (posteriorStates cs) in
  rhoDoubleDagger ← assignLoop posteriorTau guarantees (RhoDoubleDagger (intermediateStates cs));
  let cs := shareRho (writeRhoDoubleDagger rhoDoubleDagger cs) in
  Ret (onIntermediate (SetPresentWorkReports (WorkReportSet guarantees)) cs).

Section Guarantees.
Context `{HashFunctions} `{Ed25519} (spec : ChainSpec).

(** ** Guarantor assignments *)

(** Replacing the keys of offenders writes the validators' own slice, the
    array [a]. *)
Definition NewGuranatorAssignments (epochEntropy : Bytes) (currentSlot : Z) (a : nat) (validators : list Validator) (cs : ChainState)
  : go (ChainState * GuranatorAssignments) :=
  coreAssignments ← permute spec epochEntropy currentSlot;
  let '(cs, result) := ReplaceOffenderKeys a validators cs in
  Ret (cs, MkGuranatorAssignments coreAssignments result).

Definition banned (offendersMap : list Bytes) (validators : list Validator) : bool :=
  existsb (fun validator => bool_decide (v_Ed25519 validator ∈ offendersMap)) validators.

(** The assignments or an error, and the store, whose posterior validators,
    and whatever is the same slice, lose the keys of the offenders. *)
Definition GFunc (offendersMap : list Bytes) (cs : ChainState) : go (ChainState * (GuranatorAssignments + ReportError)) :=
  let state := posteriorStates cs in
  let validators := s_Kappa state in
  if banned offendersMap validators then Ret (cs, inr (Code ReportsErrorCode.BannedValidator))
  else
    r ← NewGuranatorAssignments (etaAt (s_Eta state) 2) (s_Tau state) (va_Kappa (posteriorArrays (sharing cs))) validators cs;
    Ret (fst r, inl (snd r)).

(** [int] division, of a possibly negative dividend. *)
Definition GStarFunc (offendersMap : list Bytes) (cs : ChainState) : go (ChainState * (GuranatorAssignments + ReportError)) :=
  let state := posteriorStates cs in
  let same := Z.quot (s_Tau state - RotationPeriod spec) (EpochLength spec) =? Z.quot (s_Tau state) (EpochLength spec) in
  let e := if same then etaAt (s_Eta state) 2 else etaAt (s_Eta state) 3 in
  let validators := if same then s_Kappa state else s_Lambda state in
  let a := (if same then va_Kappa else va_Lambda) (posteriorArrays (sharing cs)) in
  if banned offendersMap validators then Ret (cs, inr (Code ReportsErrorCode.BannedValidator))
  else
    r ← NewGuranatorAssignments e (u32 (s_Tau state - u32 (RotationPeriod spec))) a validators cs;
    Ret (fst r, inl (snd r)).

(** ** Checks *)

Definition GuaranteeController_Validate (guarantees : list ReportGuarantee) : option ReportError :=
  orElse (firstErr (fun g => if u16 (CoresCount spec) <=? rp_CoreIndex (rg_Report g)
                             then Some (Code ReportsErrorCode.BadCoreIndex) else None) guarantees)
    (if CoresCount spec <? lenOf guarantees then Some (Code ReportsErrorCode.BadCoreIndex)
     else firstErr (fun g => Code ∘ ReportsErrorCode.lookup <$> ReportGuarantee_Validate spec g) guarantees).

(** The message that guarantors sign; [None] if the encoder fails. *)
Definition guaranteeMessage (w : WorkReport) : go (option Bytes) :=
  ⟪ reportSerial ⟫ ⇠ enc_WorkReport w ⊘ Ret None;
  Ret (Some (JamGuarantee ++ Blake2bHash reportSerial)).

(** The check of one signature, a task of its own. *)
Definition checkSignature (assignments : GuranatorAssignments) (message : Bytes) (core : Z) (sig : ValidatorSignature)
  : go (option ReportError) :=
  c ← zindex (CoreAssignments assignments) (vs_ValidatorIndex sig);
  if negb (c =? core) then Ret (Some (Code ReportsErrorCode.WrongAssignment))
  else
    k ← zindex (PublicKeys assignments) (vs_ValidatorIndex sig);
    Ret (if ed25519_Verify (v_Ed25519 k) message (vs_Signature sig) then None else Some (Code ReportsErrorCode.BadSignature)).

(** The errors of all tasks. *)
Fixpoint runTasks (tasks : list (go (option ReportError))) : go (list ReportError) :=
  match tasks with
  | [] => Ret []
  | task :: tasks => e ← task; es ← runTasks tasks; Ret (match e with Some e => e :: es | None => es end)
  end.

(** [int] quotients of slots. *)
Definition rotation (slot : Z) : Z := slot / RotationPeriod spec.

(** One guarantee: the store, an error that ends the loop, or the tasks. *)
Definition signatureTasks (cs : ChainState) (guarantee : ReportGuarantee)
  : go (ChainState * (list (go (option ReportError)) + ReportError)) :=
  let tau := s_Tau (posteriorStates cs) in
  let offendersMap := dr_Offenders (s_Psi (posteriorStates cs)) in
  r ← if rotation tau =? rotation (rg_Slot guarantee) then GFunc offendersMap cs else GStarFunc offendersMap cs;
  let '(cs, r) := r in
  match r with
  | inr err => Ret (cs, inr err)
  | inl assignments =>
      if negb ((rotation tau - 1) * RotationPeriod spec <=? rg_Slot guarantee)
      then Ret (cs, inr (Code ReportsErrorCode.ReportEpochBeforeLast))
      else if negb (rg_Slot guarantee <=? tau) then Ret (cs, inr (Code ReportsErrorCode.FutureReportSlot))
      else
        message ← guaranteeMessage (rg_Report guarantee);
        match message with
        | None => Ret (cs, inr OtherError)
        | Some message =>
            Ret (cs, inl (checkSignature assignments message (rp_CoreIndex (rg_Report guarantee)) <$> rg_Signatures guarantee))
        end
  end.

(** The tasks started before an error that ends the loop are not waited for. *)
Fixpoint signatureLoop (guarantees : list ReportGuarantee) (tasks : list (go (option ReportError))) (cs : ChainState)
  : go (ChainState * list ReportError) :=
  match guarantees with
  | [] => errs ← runTasks tasks; Ret (cs, errs)
  | g :: guarantees =>
      r ← signatureTasks cs g;
      let '(cs, r) := r in
      match r with
      | inr err => Ret (cs, [err])
      | inl more => signatureLoop guarantees (tasks ++ more) cs
      end
  end.

Definition Guarantees_ValidateSignatures (guarantees : list ReportGuarantee) (cs : ChainState)
  : go (ChainState * list ReportError) := signatureLoop guarantees [] cs.

(** The recent block a context is anchored at, the first with its hash. *)
Definition ValidateContext (cs : ChainState) (context : RefineContext) : option ReportError :=
  let betaDagger := BetaHDagger (intermediateStates cs) in
  let headerTimeSlot := h_Slot (b_Header (latestBlock cs)) in
  match List.find (fun b => bool_decide (rc_Anchor context = bi_HeaderHash b)) betaDagger with
  | None => Some (Code ReportsErrorCode.AnchorNotRecent)
  | Some blockInfo =>
      if negb (bool_decide (rc_StateRoot context = bi_StateRoot blockInfo)) then Some (Code ReportsErrorCode.BadStateRoot)
      else if negb (bool_decide (rc_BeefyRoot context = bi_BeefyRoot blockInfo)) then Some (Code ReportsErrorCode.BadBeefyMmrRoot)
      else if u32 (MaxLookupAge spec) <? u32 (headerTimeSlot - rc_LookupAnchorSlot context)
      then Some (Code ReportsErrorCode.ReportEpochBeforeLast) else None
  end.

Definition ValidateContexts (cs : ChainState) (guarantees : list ReportGuarantee) : option ReportError :=
  let contexts := ContextSet guarantees in
  orElse (firstErr (ValidateContext cs) contexts)
    (if 0 <? lenOf (ancestry cs) then
       firstErr (fun context =>
         if existsb (fun item => (an_Slot item =? rc_LookupAnchorSlot context) &&
                                 bool_decide (an_HeaderHash item = rc_LookupAnchor context)) (ancestry cs)
         then None else Some (Code ReportsErrorCode.LookupAnchorNotRecent)) contexts
     else None).

(** The checks after the signatures, and those of the reports. *)
Definition reportChecks (cs : ChainState) (guarantees : list ReportGuarantee) : option ReportError :=
  orElse (CardinalityCheck guarantees)
  (orElse (ValidateContexts cs guarantees)
  (orElse (ValidateWorkPackageHashes cs guarantees)
  (orElse (CheckExtrinsicOrRecentHistory cs guarantees)
  (orElse (CheckSegmentRootLookup cs guarantees) (CheckWorkResult cs guarantees))))).

Definition Guarantee (cs : ChainState) : go (ChainState * list ReportError) :=
  let guarantees := ex_Guarantees (b_Extrinsic (latestBlock cs)) in
  match orElse (GuaranteeController_Validate guarantees) (GuaranteeController_Sort guarantees) with
  | Some err => Ret (cs, [err])
  | None =>
      r ← Guarantees_ValidateSignatures guarantees cs;
      let '(cs, errs) := r in
      match errs with
      | _ :: _ => Ret (cs, errs)
      | [] =>
          err ← ValidateWorkReports cs guarantees;
          match orElse err (reportChecks cs guarantees) with
          | Some err => Ret (cs, [err])
          | None => cs ← TransitionWorkReport guarantees cs; Ret (cs, [])
          end
      end
  end.

End Guarantees.
