(* ===== verification/GuaranteesSpec.v ===== *)
(** * Correctness of the guarantees

    Which guarantees a block is accepted with, and how they take their
    cores. *)

From stdpp Require Import sorting.
From S2P Require Import Prelude Words Types Config Encode Roundtrip ProtocolWf ProtocolSpec Crypto Store StoreLaws Validate.
From S2P Require Import Shuffle Safrole Guarantees.
Local Open Scope Z_scope.

(** ** Generic lemmas *)

Lemma remove_dups_length {A} `{EqDecision A} (l : list A) : (length (remove_dups l) <= length l)%nat.
Proof. induction l as [|x l IH]; cbn; [done|]. case_decide; cbn; lia. Qed.

Lemma remove_dups_same {A} `{EqDecision A} (l : list A) : lenOf l = lenOf (remove_dups l) <-> NoDup l.
Proof.
  unfold lenOf. rewrite Nat2Z.inj_iff. induction l as [|x l IH]; cbn; [by split; [constructor|]|].
  pose proof (remove_dups_length l). rewrite NoDup_cons. case_decide; cbn.
  - split; [lia|]. tauto.
  - rewrite Nat.succ_inj_wd, IH. tauto.
Qed.

Lemma strictly_ascending l : Sorted (fun x y : Z => (y <=? x) = false) l <-> StronglySorted Z.lt l.
Proof.
  split.
  - intros Hs. apply Sorted_StronglySorted; [intros x y z; lia|]. eapply Sorted_weaken; [|exact Hs]. cbv beta. lia.
  - intros Hs%StronglySorted_Sorted. eapply Sorted_weaken; [|exact Hs]. cbv beta. lia.
Qed.

Lemma Sorted_fmap {A B} (R : B -> B -> Prop) (f : A -> B) l : Sorted R (f <$> l) <-> Sorted (fun x y => R (f x) (f y)) l.
Proof.
  induction l as [|x l IH]; cbn; [by split; constructor|]. split; intros [Hs Hh]%Sorted_inv; (constructor; [by apply IH|]);
    destruct l; constructor; by apply HdRel_inv in Hh.
Qed.

(** The tests of adjacent elements of a list of keys. *)
Lemma existsAdjacent_ascending {A} (key : A -> Z) l :
  existsAdjacent (fun s t => key t <=? key s) l = false <-> StronglySorted Z.lt (key <$> l).
Proof. by rewrite existsAdjacent_false, <- strictly_ascending, Sorted_fmap. Qed.

(** A task list without panics: the errors are those of the tasks. *)
Lemma runTasks_ok tasks : Forall (fun t => exists e, t = Ret e) tasks ->
  exists errs, runTasks tasks = Ret errs /\ (errs = [] <-> Forall (fun t => t = Ret None) tasks).
Proof.
  induction 1 as [|t tasks [e He] _ (errs & IH & Hn)]; [by exists []|]. cbn [runTasks]. rewrite He, go_bind_ret, IH, go_bind_ret.
  eexists. split; [done|]. rewrite Forall_cons. destruct e as [e|]; [|rewrite Hn; tauto].
  split; [done|]. by intros [? _].
Qed.

(** Ascending indices below a bound are no more than the bound. *)
Lemma ascending_length l lo n : StronglySorted Z.lt l -> Forall (fun x => lo <= x < n) l -> lo <= n -> lenOf l <= n - lo.
Proof.
  intros Hs. revert lo. induction Hs as [|x l Hs IH Hx]; intros lo Hl Hn; [unfold lenOf; cbn; lia|].
  apply Forall_cons in Hl as [Hlo Hl]. assert (lenOf l <= n - (x + 1)) as Hlen.
  { apply IH; [|lia]. rewrite Forall_forall in Hl, Hx |- *. intros y Hy. specialize (Hl y Hy). specialize (Hx y Hy). lia. }
  unfold lenOf in *. cbn [length]. lia.
Qed.

Section Guarantees.
Context (spec : ChainSpec) (Hspec : wf_spec spec) `{HashLaws} `{Ed25519} (makeOK : Z -> bool).

(** ** Well-formed input *)

(** The guarantees of a decoded block; validators and assignments of the
    sizes of the chain. *)
Record guarantee_input (cs : ChainState) : Prop := {
  gi_kappa : lenOf (s_Kappa (posteriorStates cs)) = ValidatorsCount spec;
  gi_lambda : lenOf (s_Lambda (posteriorStates cs)) = ValidatorsCount spec;
  gi_rho : lenOf (RhoDoubleDagger (intermediateStates cs)) = CoresCount spec;
  gi_alpha : lenOf (s_Alpha (priorStates cs)) = CoresCount spec;
  gi_tau : 0 <= s_Tau (posteriorStates cs) < 2 ^ 32;
  gi_ok : Forall (ok_ReportGuarantee makeOK) (ex_Guarantees (b_Extrinsic (latestBlock cs))) }.

(** ** The conditions of a valid extrinsic *)

Definition coreOf (g : ReportGuarantee) : Z := rp_CoreIndex (rg_Report g).

Definition sameRotation (cs : ChainState) (g : ReportGuarantee) : Prop :=
  rotation spec (s_Tau (posteriorStates cs)) = rotation spec (rg_Slot g).
#[global] Instance sameRotation_dec cs g : Decision (sameRotation cs g).
Proof. unfold sameRotation. apply _. Defined.

(** The previous rotation was in the same epoch. *)
Definition sameEpoch (cs : ChainState) : Prop :=
  (s_Tau (posteriorStates cs) - RotationPeriod spec) / EpochLength spec = s_Tau (posteriorStates cs) / EpochLength spec.
#[global] Instance sameEpoch_dec cs : Decision (sameEpoch cs).
Proof. unfold sameEpoch. apply _. Defined.

(** The validators that may guarantee, and their cores: those of this
    rotation, or of the previous one (11.18 to 11.22). *)
Definition guarantors (cs : ChainState) (g : ReportGuarantee) : list Validator :=
  if decide (sameRotation cs g \/ sameEpoch cs) then s_Kappa (posteriorStates cs) else s_Lambda (posteriorStates cs).

Definition assignedCores (cs : ChainState) (g : ReportGuarantee) : go (list Z) :=
  let eta := s_Eta (posteriorStates cs) in
  let tau := s_Tau (posteriorStates cs) in
  permute spec (etaAt eta (if decide (sameRotation cs g \/ sameEpoch cs) then 2 else 3)%nat)
    (if decide (sameRotation cs g) then tau else tau - RotationPeriod spec).

(** A signature of a validator assigned to the core of the report. *)
Definition signs (cs : ChainState) (g : ReportGuarantee) (sig : ValidatorSignature) : Prop :=
  exists cores validator message, assignedCores cs g = Ret cores /\
    zlookup cores (vs_ValidatorIndex sig) = Some (coreOf g) /\
    zlookup (guarantors cs g) (vs_ValidatorIndex sig) = Some validator /\
    guaranteeMessage (rg_Report g) = Ret (Some message) /\
    ed25519_Verify (v_Ed25519 validator) message (vs_Signature sig) = true.

(** The guarantee of one report (11.23 to 11.28): of this or the previous
    rotation, by at least two validators assigned to its core. *)
Record well_guaranteed (cs : ChainState) (g : ReportGuarantee) : Prop := {
  wg_core : coreOf g < CoresCount spec;
  wg_form : ReportGuarantee_Validate spec g = None;
  wg_order : StronglySorted Z.lt (vs_ValidatorIndex <$> rg_Signatures g);
  wg_slot : (rotation spec (s_Tau (posteriorStates cs)) - 1) * RotationPeriod spec <= rg_Slot g <= s_Tau (posteriorStates cs);
  wg_banned : Forall (fun v => v_Ed25519 v ∉ dr_Offenders (s_Psi (posteriorStates cs))) (guarantors cs g);
  wg_signed : Forall (signs cs g) (rg_Signatures g) }.

(** A report fits its core (11.29, 11.30): the core is free and authorizes
    it, and every result has the gas that its service asks for. *)
Record fits (cs : ChainState) (w : WorkReport) : Prop := {
  ft_free : RhoDoubleDagger (intermediateStates cs) !! Z.to_nat (rp_CoreIndex w) = Some None;
  ft_authorized : exists pool, s_Alpha (priorStates cs) !! Z.to_nat (rp_CoreIndex w) = Some pool /\
    rp_AuthorizerHash w ∈ default [] pool;
  ft_services : Forall (fun r => exists account, s_Delta (priorStates cs) !! wr_ServiceID r = Some account /\
    si_MinItemGas (ac_ServiceInfo account) <= wr_AccumulateGas r /\ wr_CodeHash r = si_CodeHash (ac_ServiceInfo account))
    (rp_Results w);
  ft_gas : u64 (sumOf wr_AccumulateGas (rp_Results w)) <= MaxAccumulateGas }.

(** The context of a report (11.33 to 11.35). *)
Record anchored (cs : ChainState) (c : RefineContext) : Prop := {
  an_block : exists b, List.find (fun b => bool_decide (rc_Anchor c = bi_HeaderHash b)) (BetaHDagger (intermediateStates cs)) = Some b /\
    rc_StateRoot c = bi_StateRoot b /\ rc_BeefyRoot c = bi_BeefyRoot b;
  an_age : u32 (h_Slot (b_Header (latestBlock cs)) - rc_LookupAnchorSlot c) <= u32 (MaxLookupAge spec);
  an_ancestor : ancestry cs = [] \/ exists item, item ∈ ancestry cs /\ an_Slot item = rc_LookupAnchorSlot c /\
    an_HeaderHash item = rc_LookupAnchor c }.

(** The packages of the reports waiting to be accumulated, of the cores, of
    the accumulated reports and of the recent blocks. *)
Definition known (cs : ChainState) (h : Bytes) : Prop :=
  let s := priorStates cs in
  h ∈ packageHash ∘ rr_Report <$> concat (s_Vartheta s) \/ h ∈ packageHash ∘ aa_Report <$> omap id (s_Rho s) \/
  h ∈ concat (s_Xi s) \/ h ∈ recentPackages s.

(** What a report refers to is in the extrinsic or in the recent blocks. *)
Definition refers (cs : ChainState) (gs : list ReportGuarantee) (w : WorkReport) : Prop :=
  (forall h, h ∈ rc_Prerequisites (rp_Context w) \/ h ∈ sl_WorkPackageHash <$> rp_SegmentRootLookup w ->
     h ∈ packageHash <$> WorkReportSet gs \/ h ∈ recentPackages (priorStates cs)) /\
  Forall (fun l => exportsMap cs gs !! sl_WorkPackageHash l = Some (sl_SegmentTreeRoot l)) (rp_SegmentRootLookup w).

Record guaranteed (cs : ChainState) (gs : list ReportGuarantee) : Prop := {
  ge_order : StronglySorted Z.lt (coreOf <$> gs);
  ge_guaranteed : Forall (well_guaranteed cs) gs;
  ge_fits : Forall (fits cs) (WorkReportSet gs);
  ge_distinct : NoDup (packageHash <$> WorkReportSet gs);
  ge_fresh : Forall (fun w => ~ known cs (packageHash w)) (WorkReportSet gs);
  ge_anchored : Forall (anchored cs) (rp_Context <$> WorkReportSet gs);
  ge_refers : Forall (refers cs gs) (WorkReportSet gs) }.

(** ** The assignments *)

Lemma banned_false off vs : banned off vs = false <-> Forall (fun v => v_Ed25519 v ∉ off) vs.
Proof.
  unfold banned. induction vs as [|v vs IH]; cbn; [by split; [constructor|]|].
  rewrite orb_false_iff, IH, bool_decide_eq_false, Forall_cons. done.
Qed.

(** Without offenders among the validators nothing is written. *)
Lemma nullOffenders_id off vs old : banned off vs = false -> nullOffenders off vs old = old.
Proof.
  rewrite banned_false, Forall_forall. intros Hb. unfold nullOffenders. apply list_eq. intros i. rewrite list_lookup_imap.
  destruct (old !! i) as [v|]; [|done]. cbn. f_equal. destruct (vs !! i) as [w|] eqn:Ew; [|done].
  destruct (ValidatorIsOffender w off) eqn:E; [|done]. exfalso. apply (Hb w); [by eapply list_elem_of_lookup_2|].
  unfold ValidatorIsOffender in E. apply existsb_exists in E as (o & Ho & Ee%bool_decide_eq_true). rewrite <- Ee. by apply list_elem_of_In.
Qed.

Lemma ReplaceOffenderKeys_id a cs vs : banned (dr_Offenders (s_Psi (posteriorStates cs))) vs = false ->
  ReplaceOffenderKeys a vs cs = (cs, vs).
Proof.
  intros Hb. unfold ReplaceOffenderKeys. rewrite nullOffenders_id, writeValidators_id; [done| |done]. intros v. by apply nullOffenders_id.
Qed.

(** One of the two assignments, for arguments whose core assignment does not
    panic: the store is left as it was. *)
Lemma assignments_ok cs e slot a vs : 0 <= slot ->
  exists cores, permute spec e slot = Ret cores /\ length cores = Z.to_nat (ValidatorsCount spec) /\
    (let off := dr_Offenders (s_Psi (posteriorStates cs)) in
     (if banned off vs then Ret (cs, inr (Code ReportsErrorCode.BannedValidator))
      else r ← NewGuranatorAssignments spec e slot a vs cs; Ret (fst r, inl (snd r))) =
     Ret (cs, if banned off vs then inr (Code ReportsErrorCode.BannedValidator) else inl (MkGuranatorAssignments cores vs))).
Proof.
  intros Hs. destruct (permute_balanced spec e slot Hspec Hs) as (cores & Hp & Hl & _).
  exists cores. split_and!; [done..|]. cbv zeta. destruct (banned _ vs) eqn:Eb; [done|].
  unfold NewGuranatorAssignments. by rewrite Hp, go_bind_ret, (ReplaceOffenderKeys_id _ _ _ Eb), go_bind_ret.
Qed.

(** The slots of this and of the previous rotation. *)
Definition inRange (cs : ChainState) (slot : Z) : Prop :=
  (rotation spec (s_Tau (posteriorStates cs)) - 1) * RotationPeriod spec <= slot <= s_Tau (posteriorStates cs).

#[global] Instance inRange_dec cs slot : Decision (inRange cs slot).
Proof. unfold inRange. apply _. Defined.

Lemma previous_rotation cs g : 0 <= rg_Slot g -> inRange cs (rg_Slot g) -> ~ sameRotation cs g ->
  RotationPeriod spec <= s_Tau (posteriorStates cs).
Proof.
  destruct Hspec as [_ _ _ HR _ _ _]. unfold inRange, sameRotation, rotation. intros Hs [_ Hle] Hn.
  destruct (Z.le_gt_cases (RotationPeriod spec) (s_Tau (posteriorStates cs))) as [|Hlt]; [done|]. exfalso. apply Hn.
  rewrite !Z.div_small; lia.
Qed.

(** The assignment a guarantee is checked against. *)
Lemma assignment_step cs g : guarantee_input cs -> 0 <= rg_Slot g ->
  let off := dr_Offenders (s_Psi (posteriorStates cs)) in
  exists r, (if rotation spec (s_Tau (posteriorStates cs)) =? rotation spec (rg_Slot g) then GFunc spec off cs else GStarFunc spec off cs)
      = Ret (cs, r) /\
    (inRange cs (rg_Slot g) -> exists cores, assignedCores cs g = Ret cores /\ length cores = Z.to_nat (ValidatorsCount spec) /\
       r = if banned off (guarantors cs g) then inr (Code ReportsErrorCode.BannedValidator)
           else inl (MkGuranatorAssignments cores (guarantors cs g))).
Proof.
  intros Hi Hs off. destruct Hspec as [_ _ _ HR HE _ _]. pose proof (gi_tau _ Hi) as Ht.
  destruct (Z.eqb_spec (rotation spec (s_Tau (posteriorStates cs))) (rotation spec (rg_Slot g))) as [Hr|Hr].
  - destruct (assignments_ok cs (etaAt (s_Eta (posteriorStates cs)) 2) (s_Tau (posteriorStates cs))
      (va_Kappa (posteriorArrays (sharing cs))) (s_Kappa (posteriorStates cs))) as (cores & Hp & Hl & E); [lia|].
    eexists. split; [exact E|]. intros _. exists cores. unfold assignedCores, guarantors.
    rewrite !(decide_True (P := sameRotation _ _ \/ _)), (decide_True (P := sameRotation _ _)) by (try left; exact Hr). done.
  - unfold GStarFunc. set (tau := s_Tau (posteriorStates cs)) in *.
    pose proof (Z.mod_pos_bound (tau - u32 (RotationPeriod spec)) (2 ^ 32)) as Hb. fold (u32 (tau - u32 (RotationPeriod spec))) in Hb.
    set (slot := u32 (tau - u32 (RotationPeriod spec))) in *.
    assert (inRange cs (rg_Slot g) -> slot = tau - RotationPeriod spec /\
      (Z.quot (tau - RotationPeriod spec) (EpochLength spec) = Z.quot tau (EpochLength spec) <-> sameEpoch cs)) as Hq.
    { intros Hin. pose proof (previous_rotation cs g Hs Hin Hr). unfold slot, sameEpoch. fold tau.
      rewrite !Z.quot_div_nonneg by lia. unfold u32. rewrite (Z.mod_small (RotationPeriod spec)), Z.mod_small by lia. done. }
    assert (0 <= slot) as Hslot by lia.
    destruct (Z.eqb_spec (Z.quot (tau - RotationPeriod spec) (EpochLength spec)) (Z.quot tau (EpochLength spec))) as [He|He].
    + destruct (assignments_ok cs (etaAt (s_Eta (posteriorStates cs)) 2) slot (va_Kappa (posteriorArrays (sharing cs))) (s_Kappa (posteriorStates cs)))
        as (cores & Hp & Hl & E); [done|]. eexists. split; [exact E|].
      intros [Hsl Heq]%Hq. exists cores. unfold assignedCores, guarantors.
      rewrite !(decide_True (P := sameRotation _ _ \/ _)), decide_False by (try (right; apply Heq); done).
      fold tau. by rewrite <- Hsl.
    + destruct (assignments_ok cs (etaAt (s_Eta (posteriorStates cs)) 3) slot (va_Lambda (posteriorArrays (sharing cs))) (s_Lambda (posteriorStates cs)))
        as (cores & Hp & Hl & E); [done|]. eexists. split; [exact E|].
      intros [Hsl Heq]%Hq. exists cores. unfold assignedCores, guarantors.
      rewrite !(decide_False (P := sameRotation _ _ \/ _)), decide_False by (done || by intros [?|?%Heq]).
      fold tau. by rewrite <- Hsl.
Qed.

Lemma guaranteeMessage_ok w : ok_WorkReport makeOK w -> exists m, guaranteeMessage w = Ret (Some m).
Proof.
  intros Hw. destruct (rt_WorkReport makeOK w Hw) as (bs & E & _). unfold guaranteeMessage. rewrite E. by eexists.
Qed.

Lemma guarantors_length cs g : guarantee_input cs -> lenOf (guarantors cs g) = ValidatorsCount spec.
Proof. intros [Hk Hl _ _ _ _]. unfold guarantors. by case_decide. Qed.

Lemma checkSignature_ok cs g cores message sig : guarantee_input cs ->
  assignedCores cs g = Ret cores -> length cores = Z.to_nat (ValidatorsCount spec) ->
  guaranteeMessage (rg_Report g) = Ret (Some message) -> 0 <= vs_ValidatorIndex sig < ValidatorsCount spec ->
  exists e, checkSignature (MkGuranatorAssignments cores (guarantors cs g)) message (coreOf g) sig = Ret e /\
    (e = None <-> signs cs g sig).
Proof.
  intros Hi Hc Hl Hm Hidx. pose proof (guarantors_length cs g Hi) as Hg.
  destruct (zlookup_is_Some cores (vs_ValidatorIndex sig)) as [c Hlc]; [lia|].
  destruct (zlookup_is_Some (guarantors cs g) (vs_ValidatorIndex sig)) as [v Hlv]; [unfold lenOf in Hg; lia|].
  unfold checkSignature. cbn [CoreAssignments PublicKeys].
  rewrite (proj2 (zindex_Ret _ _ _) Hlc), go_bind_ret, (proj2 (zindex_Ret _ _ _) Hlv).
  destruct (Z.eqb_spec c (coreOf g)) as [->|Hn]; cbn [negb].
  - rewrite go_bind_ret. eexists. split; [done|]. rewrite if_None'. split.
    + intros Hv. exists cores, v, message. done.
    + intros (cs' & v' & m' & Ha & Hb & Hd & He & Hf). congruence.
  - eexists. split; [done|]. split; [done|]. intros (cs' & v' & m' & Ha & Hb & Hd & He & Hf). congruence.
Qed.

(** The tasks of one guarantee. *)
Lemma signatureTasks_ok cs g : guarantee_input cs -> ok_ReportGuarantee makeOK g ->
  Forall (fun v => vs_ValidatorIndex v < ValidatorsCount spec) (rg_Signatures g) ->
  let valid := inRange cs (rg_Slot g) /\ Forall (fun v => v_Ed25519 v ∉ dr_Offenders (s_Psi (posteriorStates cs))) (guarantors cs g) in
  exists r, signatureTasks spec cs g = Ret (cs, r) /\
    match r with
    | inr _ => ~ valid
    | inl tasks => valid /\ Forall (fun t => exists e, t = Ret e) tasks /\
        (Forall (fun t => t = Ret None) tasks <-> Forall (signs cs g) (rg_Signatures g))
    end.
Proof.
  intros Hi (Hw & Hsl & _ & Hsig) Hidx valid. assert (0 <= rg_Slot g) as Hs0 by (unfold uint in Hsl; lia).
  destruct (assignment_step cs g Hi Hs0) as (r & Er & Hr). destruct (guaranteeMessage_ok _ Hw) as [m Em].
  destruct (decide (inRange cs (rg_Slot g))) as [Hin|Hin].
  2: { unfold signatureTasks. rewrite Er, go_bind_ret. destruct r as [asg|err]; [|exists (inr err); split; [done|]; by intros [? _]].
    unfold inRange in Hin. destruct (Z.leb_spec ((rotation spec (s_Tau (posteriorStates cs)) - 1) * RotationPeriod spec) (rg_Slot g));
      cbn [negb]; [|eexists (inr _); split; [done|]; by intros [? _]].
    destruct (Z.leb_spec (rg_Slot g) (s_Tau (posteriorStates cs))); [lia|]. eexists (inr _). split; [done|]. by intros [? _]. }
  destruct (Hr Hin) as (cores & Hc & Hl & ->). unfold signatureTasks. rewrite Er, go_bind_ret.
  destruct (banned _ _) eqn:Eb.
  { eexists (inr _). split; [done|]. intros [_ Hv%banned_false]. congruence. }
  destruct Hin as [Hlo Hhi]. rewrite (proj2 (Z.leb_le _ _) Hlo), (proj2 (Z.leb_le _ _) Hhi), Em. cbn [negb]. rewrite go_bind_ret.
  eexists (inl _). split; [done|]. apply banned_false in Eb. split; [by split|split].
  - apply Forall_fmap, Forall_forall. intros sig Hin. rewrite Forall_forall in Hidx, Hsig.
    destruct (Hsig _ Hin) as [Hu _]. specialize (Hidx _ Hin). unfold uint in Hu. cbv beta in Hidx.
    destruct (checkSignature_ok cs g cores m sig Hi Hc Hl Em) as (e & He & _); [lia|]. exists e. exact He.
  - rewrite Forall_fmap, !Forall_forall. rewrite Forall_forall in Hidx, Hsig. split; intros Hall sig Hin;
      specialize (Hall sig Hin); destruct (Hsig _ Hin) as [Hu _]; specialize (Hidx _ Hin); unfold uint in Hu; cbv beta in Hidx;
      destruct (checkSignature_ok cs g cores m sig Hi Hc Hl Em) as (e & He & Hn); try lia; cbn [compose] in *; fold (coreOf g) in *.
    + rewrite He in Hall. injection Hall as ->. by apply Hn.
    + rewrite He. f_equal. by apply Hn.
Qed.

(** ** The checks *)

(** What the signature checks of a guarantee ask for. *)
Definition properly_signed (cs : ChainState) (g : ReportGuarantee) : Prop :=
  (inRange cs (rg_Slot g) /\ Forall (fun v => v_Ed25519 v ∉ dr_Offenders (s_Psi (posteriorStates cs))) (guarantors cs g)) /\
  Forall (signs cs g) (rg_Signatures g).

Lemma signatureLoop_ok cs gs tasks : guarantee_input cs -> Forall (ok_ReportGuarantee makeOK) gs ->
  Forall (fun g => Forall (fun v => vs_ValidatorIndex v < ValidatorsCount spec) (rg_Signatures g)) gs ->
  Forall (fun t => exists e, t = Ret e) tasks ->
  exists errs, signatureLoop spec gs tasks cs = Ret (cs, errs) /\
    (errs = [] <-> Forall (fun t => t = Ret None) tasks /\ Forall (properly_signed cs) gs).
Proof.
  intros Hi Hok Hidx. revert tasks. induction gs as [|g gs IH]; intros tasks Ht; cbn [signatureLoop].
  { destruct (runTasks_ok tasks Ht) as (errs & E & Hn). rewrite E, go_bind_ret. exists errs. split; [done|]. rewrite Hn.
    split; [|tauto]. by split. }
  apply Forall_cons in Hok as [Hg Hok], Hidx as [Hx Hidx].
  destruct (signatureTasks_ok cs g Hi Hg Hx) as (r & E & Hr). rewrite E, go_bind_ret. destruct r as [more|err].
  - destruct Hr as (Hv & Hm & Hs). destruct (IH Hok Hidx (tasks ++ more)) as (errs & E' & Hn); [by apply Forall_app|].
    exists errs. split; [done|]. rewrite Hn, Forall_app, Hs, Forall_cons. unfold properly_signed at 2. tauto.
  - exists [err]. split; [done|]. split; [done|]. intros (_ & [[Hv _] _]%Forall_cons). by apply Hr in Hv.
Qed.

Lemma resultLoop_ok delta results total : 0 <= total < 2 ^ 64 ->
  let '(t, e) := resultLoop delta results total in
  (e = None <-> Forall (fun r => exists account, delta !! wr_ServiceID r = Some account /\
     si_MinItemGas (ac_ServiceInfo account) <= wr_AccumulateGas r) results) /\
  (e = None -> t = u64 (total + sumOf wr_AccumulateGas results)).
Proof.
  revert total. induction results as [|r results IH]; intros total Ht; cbn [resultLoop].
  { split; [by split; [constructor|]|]. intros _. cbn. rewrite Z.add_0_r. symmetry. by apply Z.mod_small. }
  destruct (delta !! wr_ServiceID r) as [account|] eqn:Ed.
  2: { split; [|done]. split; [done|]. intros [(? & ? & _) _]%Forall_cons. congruence. }
  zcase; [split; [|done]; split; [done|]; intros [(a & Ha & ?) _]%Forall_cons; rewrite Ed in Ha; injection Ha as <-; lia|].
  specialize (IH (u64 (total + wr_AccumulateGas r))). destruct (resultLoop _ _ _) as [t e].
  destruct IH as [H1' H2']; [apply Z.mod_pos_bound; lia|].
  split; [rewrite H1', Forall_cons; split; [intros ?; split; [by eexists|done]|by intros [_ ?]]|].
  intros He. rewrite (H2' He). cbn [sumOf foldr]. fold (sumOf wr_AccumulateGas results).
  unfold u64. rewrite Zplus_mod_idemp_l. f_equal. lia.
Qed.

(** The checks of one report against its core and its services. *)
Lemma ValidateWorkReport_ok cs w : guarantee_input cs -> 0 <= rp_CoreIndex w < CoresCount spec ->
  exists e, ValidateWorkReport cs w = Ret e /\
    (e = None <-> RhoDoubleDagger (intermediateStates cs) !! Z.to_nat (rp_CoreIndex w) = Some None /\
      (exists pool, s_Alpha (priorStates cs) !! Z.to_nat (rp_CoreIndex w) = Some pool /\ rp_AuthorizerHash w ∈ default [] pool) /\
      Forall (fun r => exists account, s_Delta (priorStates cs) !! wr_ServiceID r = Some account /\
        si_MinItemGas (ac_ServiceInfo account) <= wr_AccumulateGas r) (rp_Results w) /\
      u64 (sumOf wr_AccumulateGas (rp_Results w)) <= MaxAccumulateGas).
Proof.
  intros Hi Hc. destruct (lenOf_lookup _ _ _ (gi_rho _ Hi) Hc) as [r Hr]. destruct (lenOf_lookup _ _ _ (gi_alpha _ Hi) Hc) as [p Hp].
  unfold ValidateWorkReport. rewrite (zindex_lookup _ _ _ (proj1 Hc) Hr), go_bind_ret, Hr.
  destruct r as [r|]; [eexists; split; [done|]; split; [done|by intros [? _]]|].
  rewrite (zindex_lookup _ _ _ (proj1 Hc) Hp), go_bind_ret, Hp.
  assert (isAuthPoolContains p (rp_AuthorizerHash w) = true <-> rp_AuthorizerHash w ∈ default [] p) as Ha.
  { unfold isAuthPoolContains. rewrite existsb_exists. split.
    - intros (x & Hx & ->%bool_decide_eq_true). by apply list_elem_of_In.
    - intros Hin. exists (rp_AuthorizerHash w). split; [by apply list_elem_of_In|]. by apply bool_decide_eq_true. }
  destruct (isAuthPoolContains _ _); cbn [negb].
  2: { eexists. split; [done|]. split; [done|]. intros (_ & (? & [= <-] & Hin) & _). by apply Ha in Hin. }
  pose proof (resultLoop_ok (s_Delta (priorStates cs)) (rp_Results w) 0) as Hl. destruct (resultLoop _ _ _) as [t e].
  destruct Hl as [H1' H2']; [lia|]. destruct e as [e|].
  { eexists. split; [done|]. split; [done|]. intros (_ & _ & Hf & _). by apply H1' in Hf. }
  rewrite (H2' eq_refl), Z.add_0_l. eexists. split; [done|]. rewrite if_None, Z.ltb_ge. split; [|tauto]. intros Hg.
  split; [done|]. split; [exists p; split; [done|by apply Ha]|]. split; [by apply H1'|done].
Qed.

Lemma WorkPackageHashSet_elem gs h : h ∈ WorkPackageHashSet gs <-> h ∈ packageHash <$> WorkReportSet gs.
Proof. unfold WorkPackageHashSet. apply elem_of_remove_dups. Qed.

Lemma ValidateContext_ok cs c : ValidateContext spec cs c = None <->
  (exists b, List.find (fun b => bool_decide (rc_Anchor c = bi_HeaderHash b)) (BetaHDagger (intermediateStates cs)) = Some b /\
    rc_StateRoot c = bi_StateRoot b /\ rc_BeefyRoot c = bi_BeefyRoot b) /\
  u32 (h_Slot (b_Header (latestBlock cs)) - rc_LookupAnchorSlot c) <= u32 (MaxLookupAge spec).
Proof.
  unfold ValidateContext. destruct (List.find _ _) as [b|]; [|split; [done|]; by intros [(? & ? & _) _]].
  do 2 (case_bool_decide; cbn [negb]; [|by split; [|intros [(? & [= <-] & ? & ?) _]]]).
  rewrite if_None, Z.ltb_ge. split; [intros ?; split; [by exists b|done]|by intros [_ ?]].
Qed.

Lemma ValidateContexts_ok cs gs : ValidateContexts spec cs gs = None <-> Forall (anchored cs) (rp_Context <$> WorkReportSet gs).
Proof.
  unfold ValidateContexts, ContextSet. set (contexts := rp_Context <$> WorkReportSet gs). rewrite orElse_None, firstErr_None.
  destruct (ancestry cs) as [|a l] eqn:Ea; cbn [lenOf length].
  - rewrite Z.ltb_irrefl. split.
    + intros [Hf _]. eapply Forall_impl; [exact Hf|]. cbv beta. intros c Hc%ValidateContext_ok. destruct Hc. split; [done..|by left].
    + intros Hf. split; [|done]. eapply Forall_impl; [exact Hf|]. intros c [Hb Hage _]. by apply ValidateContext_ok.
  - rewrite (proj2 (Z.ltb_lt 0 _)) by (unfold lenOf; cbn; lia). rewrite <- Ea, firstErr_None, <- Forall_and.
    apply Forall_proper; [|done]. intros c. cbv beta. rewrite ValidateContext_ok, if_None', existsb_exists.
    assert ((exists x, In x (ancestry cs) /\ (an_Slot x =? rc_LookupAnchorSlot c) && bool_decide (an_HeaderHash x = rc_LookupAnchor c) = true)
      <-> (exists item, item ∈ ancestry cs /\ an_Slot item = rc_LookupAnchorSlot c /\ an_HeaderHash item = rc_LookupAnchor c)) as ->.
    { f_equiv. intros x. by rewrite andb_true_iff, Z.eqb_eq, bool_decide_eq_true, list_elem_of_In. }
    split; [intros [[? ?] ?]; split; [done..|by right]|]. intros [? ? [Hn|?]]; [by rewrite Ea in Hn|done].
Qed.

Lemma ValidateWorkPackageHashes_ok cs gs : ValidateWorkPackageHashes cs gs = None <->
  Forall (fun w => ~ known cs (packageHash w)) (WorkReportSet gs).
Proof.
  unfold ValidateWorkPackageHashes. rewrite firstErr_None.
  transitivity (Forall (fun h => ~ known cs h) (packageHash <$> WorkReportSet gs)); [|by rewrite Forall_fmap].
  rewrite !Forall_forall. apply forall_proper. intros h. rewrite WorkPackageHashSet_elem.
  rewrite if_None, bool_decide_eq_false, !elem_of_app. done.
Qed.

(** All dependencies and lookups of the reports. *)
Lemma references_ok cs gs :
  CheckExtrinsicOrRecentHistory cs gs = None /\ CheckSegmentRootLookup cs gs = None <-> Forall (refers cs gs) (WorkReportSet gs).
Proof.
  unfold CheckExtrinsicOrRecentHistory, CheckSegmentRootLookup. rewrite orElse_None, !firstErr_None, !Forall_forall.
  setoid_rewrite firstErr_None. setoid_rewrite if_None'. setoid_rewrite bool_decide_eq_true. setoid_rewrite elem_of_app.
  setoid_rewrite WorkPackageHashSet_elem. setoid_rewrite concat_fmap_elem. unfold refers. split.
  - intros [[Hd Hs] Hl] w Hw. split; [|by apply Hl]. intros h [Hh|Hh]; [apply Hd|apply Hs]; by exists w.
  - intros Hr. split; [split|].
    + intros h (w & Hw & Hh). destruct (Hr w Hw) as [Hk _]. apply Hk. by left.
    + intros h (w & Hw & Hh). destruct (Hr w Hw) as [Hk _]. apply Hk. by right.
    + intros w Hw. by destruct (Hr w Hw).
Qed.

Lemma CheckWorkResult_ok cs gs : CheckWorkResult cs gs = None <->
  Forall (fun w => Forall (fun r => wr_CodeHash r = serviceCodeHash (s_Delta (priorStates cs)) (wr_ServiceID r)) (rp_Results w))
    (WorkReportSet gs).
Proof.
  unfold CheckWorkResult. rewrite firstErr_None. apply Forall_proper; [|done]. intros w. rewrite firstErr_None.
  apply Forall_proper; [|done]. intros r. cbv beta. by rewrite if_None', bool_decide_eq_true.
Qed.

Lemma reportChecks_ok cs gs : reportChecks spec cs gs = None <->
  NoDup (packageHash <$> WorkReportSet gs) /\ Forall (anchored cs) (rp_Context <$> WorkReportSet gs) /\
  Forall (fun w => ~ known cs (packageHash w)) (WorkReportSet gs) /\ Forall (refers cs gs) (WorkReportSet gs) /\
  Forall (fun w => Forall (fun r => wr_CodeHash r = serviceCodeHash (s_Delta (priorStates cs)) (wr_ServiceID r)) (rp_Results w))
    (WorkReportSet gs).
Proof.
  unfold reportChecks, CardinalityCheck.
  rewrite !orElse_None, ValidateContexts_ok, ValidateWorkPackageHashes_ok, CheckWorkResult_ok, <- references_ok,
    if_None, negb_false_iff, Z.eqb_eq, <- remove_dups_same.
  unfold WorkPackageHashSet. unfold lenOf at 3. rewrite length_fmap. tauto.
Qed.

(** Fitting is what the two groups of checks ask for together. *)
Lemma fits_split cs w : fits cs w <->
  (RhoDoubleDagger (intermediateStates cs) !! Z.to_nat (rp_CoreIndex w) = Some None /\
   (exists pool, s_Alpha (priorStates cs) !! Z.to_nat (rp_CoreIndex w) = Some pool /\ rp_AuthorizerHash w ∈ default [] pool) /\
   Forall (fun r => exists account, s_Delta (priorStates cs) !! wr_ServiceID r = Some account /\
     si_MinItemGas (ac_ServiceInfo account) <= wr_AccumulateGas r) (rp_Results w) /\
   u64 (sumOf wr_AccumulateGas (rp_Results w)) <= MaxAccumulateGas) /\
  Forall (fun r => wr_CodeHash r = serviceCodeHash (s_Delta (priorStates cs)) (wr_ServiceID r)) (rp_Results w).
Proof.
  split.
  - intros [Hf Ha Hs Hg]. split_and!; try done; (eapply Forall_impl; [exact Hs|]); cbv beta; intros r (a & Hd & Hm & Hc); [by exists a|].
    unfold serviceCodeHash. by rewrite Hd.
  - intros [(Hf & Ha & Hs & Hg) Hc]. split; try done. rewrite Forall_forall in Hs, Hc |- *. intros r Hr.
    destruct (Hs r Hr) as (a & Hd & Hm). exists a. split_and!; [done..|]. specialize (Hc r Hr). unfold serviceCodeHash in Hc.
    by rewrite Hd in Hc.
Qed.

(** ** The effect *)

(** The assignments after the guarantees: each report on its core. *)
Definition afterGuarantees (tau : Z) (gs : list ReportGuarantee) (rho : list (option AvailabilityAssignment))
  : list (option AvailabilityAssignment) :=
  imap (fun c r => match List.find (fun g => coreOf g =? Z.of_nat c) gs with
                   | Some g => Some (MkAvailabilityAssignment (rg_Report g) tau)
                   | None => r
                   end) rho.

Lemma assignLoop_ok tau gs rho : Forall (fun g => 0 <= coreOf g < lenOf rho) gs -> StronglySorted Z.lt (coreOf <$> gs) ->
  assignLoop tau gs rho = Ret (afterGuarantees tau gs rho).
Proof.
  revert rho. induction gs as [|g gs IH]; intros rho Hc Hs.
  - cbn. f_equal. apply list_eq. intros c. unfold afterGuarantees. rewrite list_lookup_imap. cbn. by destruct (rho !! c).
  - apply Forall_cons in Hc as [Hg Hc]. rewrite fmap_cons in Hs. apply StronglySorted_inv in Hs as [Hs Hlt].
    cbn [assignLoop]. fold (coreOf g). rewrite zupdate_ok, go_bind_ret by exact Hg.
    rewrite IH; [|by unfold lenOf; rewrite length_insert|done]. f_equal. apply list_eq. intros c.
    unfold afterGuarantees. rewrite !list_lookup_imap. cbn [List.find].
    destruct (Z.eqb_spec (coreOf g) (Z.of_nat c)) as [He|Hn].
    + assert (Z.to_nat (coreOf g) = c) as -> by lia. unfold lenOf in Hg.
      rewrite list_lookup_insert_eq by lia. destruct (lookup_lt_is_Some_2 rho c) as [r Hr]; [lia|]. rewrite Hr. cbn. f_equal.
      destruct (List.find _ _) as [g'|] eqn:Ef; [|done]. apply List.find_some in Ef as [Hin Hcore%Z.eqb_eq].
      rewrite Forall_fmap, Forall_forall in Hlt. apply list_elem_of_In in Hin. specialize (Hlt g' Hin). cbn in Hlt. lia.
    + by rewrite list_lookup_insert_ne by lia.
Qed.

(** ** All together *)

Lemma Sort_ok gs : GuaranteeController_Sort gs = None <->
  StronglySorted Z.lt (coreOf <$> gs) /\ Forall (fun g => StronglySorted Z.lt (vs_ValidatorIndex <$> rg_Signatures g)) gs.
Proof.
  assert (forall l, CheckSignaturesAreSorted l = None <-> StronglySorted Z.lt (vs_ValidatorIndex <$> l)) as Hsig.
  { intros l. unfold CheckSignaturesAreSorted. by rewrite if_None, existsAdjacent_ascending. }
  rewrite <- existsAdjacent_ascending. destruct gs as [|g gs]; cbn [GuaranteeController_Sort].
  { split; [by repeat constructor|done]. }
  rewrite Forall_cons, orElse_None, Hsig. revert g. induction gs as [|g' gs IH]; intros g; cbn [sortLoop].
  { cbn. rewrite Forall_nil. tauto. }
  change (existsAdjacent _ (g :: g' :: gs)) with
    ((coreOf g' <=? coreOf g) || existsAdjacent (fun s t => coreOf t <=? coreOf s) (g' :: gs)).
  fold (coreOf g') (coreOf g). destruct (coreOf g' <=? coreOf g); cbn [orb]; [by split; [intros [_ ?]|intros (? & _)]|].
  rewrite orElse_None, Hsig, Forall_cons, IH. tauto.
Qed.

(** The checks of the form of the extrinsic. *)
Lemma formChecks_ok gs : Forall (ok_ReportGuarantee makeOK) gs ->
  orElse (GuaranteeController_Validate spec gs) (GuaranteeController_Sort gs) = None <->
  StronglySorted Z.lt (coreOf <$> gs) /\ Forall (fun g => coreOf g < CoresCount spec /\ ReportGuarantee_Validate spec g = None /\
    StronglySorted Z.lt (vs_ValidatorIndex <$> rg_Signatures g)) gs.
Proof.
  intros Hok. destruct Hspec as [HC _ _ _ _ _ _]. rewrite orElse_None, Sort_ok. unfold GuaranteeController_Validate.
  unfold u16. rewrite Z.mod_small by lia. rewrite orElse_None, firstErr_None.
  setoid_rewrite if_None. setoid_rewrite Z.leb_gt. rewrite !Forall_and.
  assert (Forall (fun g => coreOf g < CoresCount spec) gs -> StronglySorted Z.lt (coreOf <$> gs) -> lenOf gs <= CoresCount spec) as Hlen.
  { intros Hc Hs. assert (lenOf (coreOf <$> gs) <= CoresCount spec - 0) as Hl.
    - apply ascending_length; [done| |lia]. rewrite Forall_fmap, Forall_forall. rewrite Forall_forall in Hc, Hok.
      intros g Hg. specialize (Hc g Hg). destruct (Hok g Hg) as ((_ & _ & Hu & _) & _). unfold uint in Hu. cbn in *.
      unfold coreOf. unfold coreOf in Hc. lia.
    - unfold lenOf in *. rewrite length_fmap in Hl. lia. }
  assert (firstErr (fun g => Code ∘ ReportsErrorCode.lookup <$> ReportGuarantee_Validate spec g) gs = None <->
    Forall (fun g => ReportGuarantee_Validate spec g = None) gs) as Hv.
  { rewrite firstErr_None. apply Forall_proper; [|done]. intros g. cbv beta. by rewrite fmap_None. }
  split.
  - intros [[Hc Hr] [Hs Hsig]]. specialize (Hlen Hc Hs). rewrite (proj2 (Z.ltb_ge _ _) Hlen), Hv in Hr. done.
  - intros (Hs & Hc & Hf & Hsig). specialize (Hlen Hc Hs). rewrite (proj2 (Z.ltb_ge _ _) Hlen), Hv. done.
Qed.

Lemma well_guaranteed_split cs g : well_guaranteed cs g <->
  (coreOf g < CoresCount spec /\ ReportGuarantee_Validate spec g = None /\
   StronglySorted Z.lt (vs_ValidatorIndex <$> rg_Signatures g)) /\ properly_signed cs g.
Proof.
  split; [intros []|intros [(? & ? & ?) [[? ?] ?]]]; [|by split]. split; [done|]. split; [|done]. by split.
Qed.

Lemma ValidateWorkReports_ok cs gs : guarantee_input cs -> Forall (fun g => 0 <= coreOf g < CoresCount spec) gs ->
  exists e, ValidateWorkReports cs gs = Ret e /\ (e = None -> 
    (reportChecks spec cs gs = None <-> Forall (fits cs) (WorkReportSet gs) /\ NoDup (packageHash <$> WorkReportSet gs) /\
      Forall (anchored cs) (rp_Context <$> WorkReportSet gs) /\ Forall (fun w => ~ known cs (packageHash w)) (WorkReportSet gs) /\
      Forall (refers cs gs) (WorkReportSet gs))) /\ (e <> None -> ~ Forall (fits cs) (WorkReportSet gs)).
Proof.
  intros Hi Hc. unfold ValidateWorkReports.
  assert (Forall (fun w => 0 <= rp_CoreIndex w < CoresCount spec) (WorkReportSet gs)) as Hc' by by apply Forall_fmap.
  destruct (firstErrGo_total (ValidateWorkReport cs) (WorkReportSet gs)) as [e He].
  { eapply Forall_impl; [exact Hc'|]. cbv beta. intros w Hw. destruct (ValidateWorkReport_ok cs w Hi Hw) as (e & E & _). by exists e. }
  exists e. split; [done|]. assert (e = None <-> firstErrGo (ValidateWorkReport cs) (WorkReportSet gs) = Ret None) as Hn.
  { rewrite He. split; congruence. }
  rewrite firstErrGo_None in Hn. rewrite Forall_forall in Hc'. rewrite !Forall_forall in Hn. split.
  - intros Hall. rewrite reportChecks_ok. assert (Forall (fits cs) (WorkReportSet gs) <->
      Forall (fun w => Forall (fun r => wr_CodeHash r = serviceCodeHash (s_Delta (priorStates cs)) (wr_ServiceID r)) (rp_Results w))
        (WorkReportSet gs)) as ->; [|tauto].
    rewrite !Forall_forall. apply forall_proper. intros w. split; intros H' Hw; specialize (H' Hw).
    + by apply fits_split in H' as [_ H'].
    + apply fits_split. split; [|done]. destruct (ValidateWorkReport_ok cs w Hi (Hc' w Hw)) as (e' & E & Hfit). apply Hfit.
      apply Hn in Hw; [|done]. congruence.
  - intros Hne Hf. apply Hne, Hn. intros w Hw. rewrite Forall_forall in Hf. pose proof (proj1 (fits_split cs w) (Hf w Hw)) as Hfw.
    destruct (ValidateWorkReport_ok cs w Hi (Hc' w Hw)) as (e' & E & Hfit). rewrite E. f_equal. apply Hfit, Hfw.
Qed.

(** C2: Guarantees (11.18 to 11.43).  For well-formed input the processing
    never panics.  It accepts an extrinsic exactly if the cores ascend, every
    report is signed by at least two validators assigned to its core in the
    current or the previous rotation, none of them an offender, its core is
    free and authorizes it, its gas is within bounds, its package is new, its
    context is recent and all it refers to is known; otherwise nothing is
    written.  Accepted, each report takes its core, with the slot of the
    block, and the other cores keep theirs. *)
Theorem Guarantee_correct cs : guarantee_input cs ->
  let gs := ex_Guarantees (b_Extrinsic (latestBlock cs)) in
  (guaranteed cs gs ->
     Guarantee spec cs = Ret (onIntermediate (SetPresentWorkReports (WorkReportSet gs))
       (shareRho (writeRhoDoubleDagger
          (afterGuarantees (s_Tau (posteriorStates cs)) gs (RhoDoubleDagger (intermediateStates cs))) cs)), [])) /\
  (~ guaranteed cs gs -> exists err errs, Guarantee spec cs = Ret (cs, err :: errs)).
Proof.
  intros Hi gs. pose proof (gi_ok _ Hi) as Hok. fold gs in Hok. unfold Guarantee. fold gs.
  pose proof (formChecks_ok gs Hok) as Hform. destruct (orElse _ _) as [e|].
  { split; [|by do 2 eexists]. intros [Hs Hg _ _ _ _ _]. enough (Some e = None) by done. apply Hform. split; [done|].
    eapply Forall_impl; [exact Hg|]. intros g. by intros [? _]%well_guaranteed_split. }
  destruct (proj1 Hform eq_refl) as [Hs Hf]. clear Hform.
  destruct (signatureLoop_ok cs gs [] Hi Hok) as (errs & E & Hsig); [|done|].
  { eapply Forall_impl; [exact Hf|]. cbv beta. intros g (_ & Hv & _). by apply ReportGuarantee_Validate_spec in Hv as (_ & _ & Hv & _). }
  unfold Guarantees_ValidateSignatures. rewrite E, go_bind_ret. destruct errs as [|err errs].
  2: { split; [|by do 2 eexists]. intros [_ Hg _ _ _ _ _]. enough (err :: errs = []) by done. apply Hsig. split; [done|].
    eapply Forall_impl; [exact Hg|]. intros g. by intros [_ ?]%well_guaranteed_split. }
  destruct (proj1 Hsig eq_refl) as [_ Hp]. clear Hsig.
  assert (Forall (fun g => 0 <= coreOf g < CoresCount spec) gs) as Hc.
  { rewrite Forall_forall in Hok, Hf |- *. intros g Hg. destruct (Hok g Hg) as ((_ & _ & Hu & _) & _).
    destruct (Hf g Hg) as [? _]. unfold uint in Hu. unfold coreOf in *. lia. }
  destruct (ValidateWorkReports_ok cs gs Hi Hc) as (e & -> & Hn & Hsome). rewrite go_bind_ret. destruct e as [e|].
  { split; [|by do 2 eexists]. intros [_ _ Hfit _ _ _ _]. by apply Hsome in Hfit. }
  cbn [orElse]. specialize (Hn eq_refl). destruct (reportChecks spec cs gs) as [e|].
  { split; [|by do 2 eexists]. intros [_ _ ? ? ? ? ?]. enough (Some e = None) by done. by apply Hn. }
  destruct (proj1 Hn eq_refl) as (H1' & H2' & H3' & H4' & H5'). split.
  - intros _. unfold TransitionWorkReport. rewrite assignLoop_ok, go_bind_ret; [done|by rewrite (gi_rho _ Hi)|done].
  - intros Hng. exfalso. apply Hng. split; try done. rewrite Forall_forall in Hf, Hp |- *. intros g Hg.
    apply well_guaranteed_split. split; [by apply Hf|by apply Hp].
Qed.

End Guarantees.
