(* ===== verification/Statistics.v ===== *)
(** * Statistics

    src/internal/statistics/statistics.go: the activity of validators, cores
    and services (13.1 to 13.16).

    The three parts run concurrently; each writes its own field of the
    posterior statistics, so that their order does not matter. *)

From S2P Require Import Prelude Words Types Config Encode Crypto Store Assurances Guarantees.
Local Open Scope Z_scope.

(** ** Records *)

Definition zeroActivity : ValidatorActivityRecord := MkValidatorActivityRecord 0 0 0 0 0 0.

Definition addBlocks (r : ValidatorActivityRecord) : ValidatorActivityRecord :=
  MkValidatorActivityRecord (u32 (va_Blocks r + 1)) (va_Tickets r) (va_PreImages r) (va_PreImagesSize r) (va_Guarantees r) (va_Assurances r).
Definition addTickets (n : Z) (r : ValidatorActivityRecord) : ValidatorActivityRecord :=
  MkValidatorActivityRecord (va_Blocks r) (u32 (va_Tickets r + n)) (va_PreImages r) (va_PreImagesSize r) (va_Guarantees r) (va_Assurances r).
Definition addPreImages (n : Z) (r : ValidatorActivityRecord) : ValidatorActivityRecord :=
  MkValidatorActivityRecord (va_Blocks r) (va_Tickets r) (u32 (va_PreImages r + n)) (va_PreImagesSize r) (va_Guarantees r) (va_Assurances r).
Definition addPreImagesSize (n : Z) (r : ValidatorActivityRecord) : ValidatorActivityRecord :=
  MkValidatorActivityRecord (va_Blocks r) (va_Tickets r) (va_PreImages r) (u32 (va_PreImagesSize r + n)) (va_Guarantees r) (va_Assurances r).
Definition addGuarantees (r : ValidatorActivityRecord) : ValidatorActivityRecord :=
  MkValidatorActivityRecord (va_Blocks r) (va_Tickets r) (va_PreImages r) (va_PreImagesSize r) (u32 (va_Guarantees r + 1)) (va_Assurances r).
Definition addAssurances (r : ValidatorActivityRecord) : ValidatorActivityRecord :=
  MkValidatorActivityRecord (va_Blocks r) (va_Tickets r) (va_PreImages r) (va_PreImagesSize r) (va_Guarantees r) (u32 (va_Assurances r + 1)).

(** Updating the record at an index. *)
Definition bump {A} (f : A -> A) (i : Z) (l : list A) : go (list A) := r ← zindex l i; zupdate l i (f r).

(** ** Setters *)

Definition SetPiCurrent (v : list ValidatorActivityRecord) (s : State) : State :=
  SetPi (MkStatistics v (st_ValsLast (s_Pi s)) (st_Cores (s_Pi s)) (st_Services (s_Pi s))) s.
Definition SetPiLast (v : list ValidatorActivityRecord) (s : State) : State :=
  SetPi (MkStatistics (st_ValsCurr (s_Pi s)) v (st_Cores (s_Pi s)) (st_Services (s_Pi s))) s.
Definition SetCoresStatistics (v : list CoreActivityRecord) (s : State) : State :=
  SetPi (MkStatistics (st_ValsCurr (s_Pi s)) (st_ValsLast (s_Pi s)) v (st_Services (s_Pi s))) s.
Definition SetServicesStatistics (v : gmap Z ServiceActivityRecord) (s : State) : State :=
  SetPi (MkStatistics (st_ValsCurr (s_Pi s)) (st_ValsLast (s_Pi s)) (st_Cores (s_Pi s)) v) s.

(** ** Validators *)

Definition UpdateBlockStatistics (authorIndex : Z) (vals : list ValidatorActivityRecord) : go (list ValidatorActivityRecord) :=
  bump addBlocks authorIndex vals.

Definition UpdateTicketStatistics (authorIndex : Z) (tickets : list TicketEnvelope) (vals : list ValidatorActivityRecord)
  : go (list ValidatorActivityRecord) := bump (addTickets (u32 (lenOf tickets))) authorIndex vals.

Definition UpdatePreimageStatistics (authorIndex : Z) (preimages : list Preimage) (vals : list ValidatorActivityRecord)
  : go (list ValidatorActivityRecord) := bump (addPreImages (u32 (lenOf preimages))) authorIndex vals.

Fixpoint UpdatePreimageOctetStatistics (authorIndex : Z) (preimages : list Preimage) (vals : list ValidatorActivityRecord)
  : go (list ValidatorActivityRecord) :=
  match preimages with
  | [] => Ret vals
  | p :: preimages =>
      vals ← bump (addPreImagesSize (u32 (lenOf (p_Blob p)))) authorIndex vals;
      UpdatePreimageOctetStatistics authorIndex preimages vals
  end.

(** The keys of the validators that signed a guarantee. *)
Definition signerKeys (publicKeys : list Validator) (signatures : list ValidatorSignature) : list Bytes :=
  omap id (imap (fun k v => if bool_decide (u16 (Z.of_nat k) ∈ vs_ValidatorIndex <$> signatures)
                            then Some (v_Ed25519 v) else None) publicKeys).

(** Counting the validators in the set of reporters, from index [i] on. *)
Fixpoint reporterLoop (reportersSet : list Bytes) (i : Z) (validators : list Validator) (vals : list ValidatorActivityRecord)
  : go (list ValidatorActivityRecord) :=
  match validators with
  | [] => Ret vals
  | v :: validators =>
      vals ← if bool_decide (v_Ed25519 v ∈ reportersSet) then bump addGuarantees i vals else Ret vals;
      reporterLoop reportersSet (i + 1) validators vals
  end.

Fixpoint UpdateAvailabilityStatistics (assurances : list AvailAssurance) (vals : list ValidatorActivityRecord)
  : go (list ValidatorActivityRecord) :=
  match assurances with
  | [] => Ret vals
  | a :: assurances =>
      vals ← bump addAssurances (av_ValidatorIndex a) vals;
      UpdateAvailabilityStatistics assurances vals
  end.

(** ** Cores *)

Record Pi_C_R_Output := MkCoreResults {
  cr_Imports : Z; cr_ExtrinsicCount : Z; cr_ExtrinsicSize : Z; cr_Exports : Z; cr_GasUsed : Z; cr_BundleSize : Z }.

Abbreviation CoreWorkReportMap := (gmap Z WorkReport).

Definition SegmentSize : Z := 4104.

(** [Bitfield[coreIndex]] of each assurance, a [U16]. *)
Fixpoint popularityLoop (coreIndex : Z) (assurances : list AvailAssurance) (output : Z) : go Z :=
  match assurances with
  | [] => Ret output
  | a :: assurances =>
      b ← zindex (av_Bitfield a) coreIndex;
      popularityLoop coreIndex assurances (u16 (output + u16 b))
  end.

Definition CalculatePopularity (coreIndex : Z) (assurancesExtrinsic : list AvailAssurance) : go Z :=
  popularityLoop coreIndex assurancesExtrinsic 0.

Definition CalculateDALoad (coreIndex : Z) (WMap : CoreWorkReportMap) : Z :=
  match WMap !! coreIndex with
  | None => 0
  | Some workReport =>
      let ceilValue := u32 (u32 (ps_ExportsCount (rp_PackageSpec workReport) * 65) + 63) / 64 in
      u32 (ps_Length (rp_PackageSpec workReport) + u32 (SegmentSize * ceilValue))
  end.

Definition zeroCoreResults : Pi_C_R_Output := MkCoreResults 0 0 0 0 0 0.

Definition CalculateWorkResults (coreIndex : Z) (wMap : CoreWorkReportMap) : Pi_C_R_Output :=
  match wMap !! coreIndex with
  | None => zeroCoreResults
  | Some workReport =>
      let output := foldl (fun o r =>
        let l := wr_RefineLoad r in
        MkCoreResults (u16 (cr_Imports o + rl_Imports l)) (u16 (cr_ExtrinsicCount o + rl_ExtrinsicCount l))
          (u32 (cr_ExtrinsicSize o + rl_ExtrinsicSize l)) (u16 (cr_Exports o + rl_Exports l))
          (u64 (cr_GasUsed o + rl_GasUsed l)) (cr_BundleSize o)) zeroCoreResults (rp_Results workReport) in
      MkCoreResults (cr_Imports output) (cr_ExtrinsicCount output) (cr_ExtrinsicSize output) (cr_Exports output)
        (cr_GasUsed output) (ps_Length (rp_PackageSpec workReport))
  end.

Definition createWorkReportMap (workReports : list WorkReport) : CoreWorkReportMap :=
  foldl (fun m w => <[rp_CoreIndex w := w]> m) ∅ workReports.

Definition zeroCoreActivity : CoreActivityRecord := MkCoreActivityRecord 0 0 0 0 0 0 0 0.

(** The record of one core. *)
Definition coreActivity (wMap WMap : CoreWorkReportMap) (assurances : list AvailAssurance) (coreIndex : Z) : go CoreActivityRecord :=
  let R := CalculateWorkResults coreIndex wMap in
  let D := CalculateDALoad coreIndex WMap in
  p ← CalculatePopularity coreIndex assurances;
  Ret (MkCoreActivityRecord D p (cr_Imports R) (cr_ExtrinsicCount R) (cr_ExtrinsicSize R) (cr_Exports R) (cr_BundleSize R) (cr_GasUsed R)).

Fixpoint coreLoop (wMap WMap : CoreWorkReportMap) (assurances : list AvailAssurance) (js : list Z) (l : list CoreActivityRecord)
  : go (list CoreActivityRecord) :=
  match js with
  | [] => Ret l
  | i :: js =>
      let coreIndex := u16 i in
      r ← coreActivity wMap WMap assurances coreIndex;
      l ← zupdate l coreIndex r;
      coreLoop wMap WMap assurances js l
  end.

(** ** Services *)

Abbreviation ServiceWorkResultsMap := (gmap Z (list WorkResult)).

Record Pi_S_R_Output := MkServiceResults {
  sr_n : Z; sr_GasUsed : Z; sr_Imports : Z; sr_ExtrinsicCount : Z; sr_ExtrinsicSize : Z; sr_Exports : Z }.

Definition presentResults (cs : ChainState) : list WorkResult :=
  concat (rp_Results <$> PresentWorkReports (intermediateStates cs)).

Definition CreateServiceWorkResultsMap (cs : ChainState) : ServiceWorkResultsMap :=
  foldl (fun m r => <[wr_ServiceID r := default [] (m !! wr_ServiceID r) ++ [r]]> m) ∅ (presentResults cs).

Definition GetServicesFromPresentWorkReport (cs : ChainState) : list Z := wr_ServiceID <$> presentResults cs.

(** The keys of a Go map, of no order, are a set. *)
Definition GetServicesFromPreimagesExtrinsic (preimagesExtrinsic : list Preimage) : gset Z :=
  list_to_set (p_Requester <$> preimagesExtrinsic).

Definition GetServicesFromAccumulationStatistics (cs : ChainState) : gset Z := dom (AccumulationStatistics (intermediateStates cs)).

Definition GetAllServices (cs : ChainState) (preimagesExtrinsic : list Preimage) : gset Z :=
  list_to_set (GetServicesFromPresentWorkReport cs) ∪ GetServicesFromPreimagesExtrinsic preimagesExtrinsic ∪
  GetServicesFromAccumulationStatistics cs.

Definition zeroServiceResults : Pi_S_R_Output := MkServiceResults 0 0 0 0 0 0.

Definition CalculateServiceResults (serviceID : Z) (serviceWorkResultsMap : ServiceWorkResultsMap) : Pi_S_R_Output :=
  match serviceWorkResultsMap !! serviceID with
  | None => zeroServiceResults
  | Some workResults =>
      foldl (fun o r =>
        let l := wr_RefineLoad r in
        MkServiceResults (u32 (sr_n o + 1)) (u64 (sr_GasUsed o + rl_GasUsed l)) (u32 (sr_Imports o + rl_Imports l))
          (u32 (sr_ExtrinsicCount o + rl_ExtrinsicCount l)) (u32 (sr_ExtrinsicSize o + rl_ExtrinsicSize l))
          (u32 (sr_Exports o + rl_Exports l))) zeroServiceResults workResults
  end.

Definition CalculateAccumulationStatistics (serviceID : Z) (accumulationStatistics : gmap Z GasAndNumAccumulatedReports) : Z * Z :=
  match accumulationStatistics !! serviceID with
  | Some value => (u32 (gn_NumAccumulatedReports value), gn_Gas value)
  | None => (0, 0)
  end.

(** Number and size of the preimages of each service. *)
Definition preimageStatsMap (preimages : list Preimage) : gmap Z (Z * Z) :=
  foldl (fun m p => let '(count, size) := default (0, 0) (m !! p_Requester p) in
                    <[p_Requester p := (u16 (count + 1), u32 (size + u32 (lenOf (p_Blob p))))]> m) ∅ preimages.

Definition serviceActivity (cs : ChainState) (extrinsic : Extrinsic) (serviceID : Z) : ServiceActivityRecord :=
  let R := CalculateServiceResults serviceID (CreateServiceWorkResultsMap cs) in
  let '(count, size) := default (0, 0) (preimageStatsMap (ex_Preimages extrinsic) !! serviceID) in
  let '(accumulateCount, accumulateGasUsed) :=
    CalculateAccumulationStatistics serviceID (AccumulationStatistics (intermediateStates cs)) in
  MkServiceActivityRecord count size (sr_n R) (sr_GasUsed R) (sr_Imports R) (sr_ExtrinsicCount R) (sr_ExtrinsicSize R)
    (sr_Exports R) accumulateCount accumulateGasUsed.

Definition UpdateServiceActivityStatistics (extrinsic : Extrinsic) (cs : ChainState) : ChainState :=
  let s := GetAllServices cs (ex_Preimages extrinsic) in
  onPosterior (SetServicesStatistics (set_to_map (fun serviceID => (serviceID, serviceActivity cs extrinsic serviceID)) s)) cs.

Section Statistics.
Context `{HashFunctions} (spec : ChainSpec).

Definition GetEpochIndex (t : Z) : Z := t / u32 (EpochLength spec).

(** ** The current validators *)

(** The reporters, and the store: the assignments null the keys of offenders
    in the posterior validators, which the last loop reads. *)
Fixpoint reportersLoop (left : Z) (guarantorSame guarantorDiff : list Validator) (guarantees : list ReportGuarantee) : list Bytes :=
  match guarantees with
  | [] => []
  | g :: guarantees =>
      let right := Z.quot (rg_Slot g) (RotationPeriod spec) in
      let keys := if left =? right then guarantorSame else guarantorDiff in
      signerKeys keys (rg_Signatures g) ++ reportersLoop left guarantorSame guarantorDiff guarantees
  end.

Definition assignmentKeys (r : GuranatorAssignments + ReportError) : list Validator :=
  match r with inl g => PublicKeys g | inr _ => [] end.

Definition UpdateReportStatistics (guarantees : list ReportGuarantee) (tau : Z) (vals : list ValidatorActivityRecord) (cs : ChainState)
  : go (ChainState * list ValidatorActivityRecord) :=
  if lenOf guarantees =? 0 then Ret (cs, vals)
  else
    let left := Z.quot tau (RotationPeriod spec) in
    r ← GFunc spec [] cs;
    let '(cs, guarantorSame) := r in
    r ← GStarFunc spec [] cs;
    let '(cs, guarantorDiff) := r in
    let reportersSet := reportersLoop left (assignmentKeys guarantorSame) (assignmentKeys guarantorDiff) guarantees in
    vals ← reporterLoop reportersSet 0 (s_Kappa (posteriorStates cs)) vals;
    Ret (cs, vals).

(** [shared] says whether the current statistics are the slice of the prior
    state, which is then written too. *)
Definition UpdateCurrentStatistics (shared : bool) (extrinsic : Extrinsic) (cs : ChainState) : go ChainState :=
  let authorIndex := h_AuthorIndex (b_Header (latestBlock cs)) in
  let vals := st_ValsCurr (s_Pi (posteriorStates cs)) in
  let tau := s_Tau (posteriorStates cs) in
  vals ← UpdateBlockStatistics authorIndex vals;
  vals ← UpdateTicketStatistics authorIndex (ex_Tickets extrinsic) vals;
  vals ← UpdatePreimageStatistics authorIndex (ex_Preimages extrinsic) vals;
  vals ← UpdatePreimageOctetStatistics authorIndex (ex_Preimages extrinsic) vals;
  r ← UpdateReportStatistics (ex_Guarantees extrinsic) tau vals cs;
  let '(cs, vals) := r in
  vals ← UpdateAvailabilityStatistics (ex_Assurances extrinsic) vals;
  let cs := if shared then onPrior (SetPiCurrent vals) cs else cs in
  Ret (onPosterior (SetPiCurrent vals) cs).

Definition UpdateCoreActivityStatistics (extrinsic : Extrinsic) (cs : ChainState) : go ChainState :=
  let wMap := createWorkReportMap (PresentWorkReports (intermediateStates cs)) in
  let WMap := createWorkReportMap (AvailableWorkReports (intermediateStates cs)) in
  l ← coreLoop wMap WMap (ex_Assurances extrinsic) (cores spec) (replicate (Z.to_nat (CoresCount spec)) zeroCoreActivity);
  Ret (onPosterior (SetCoresStatistics l) cs).

Definition UpdateValidatorActivityStatistics (cs : ChainState) : go ChainState :=
  let extrinsic := b_Extrinsic (latestBlock cs) in
  let preEpochIndex := GetEpochIndex (s_Tau (priorStates cs)) in
  let postEpochIndex := GetEpochIndex (s_Tau (posteriorStates cs)) in
  let preStatistics := s_Pi (priorStates cs) in
  let shared := preEpochIndex =? postEpochIndex in
  let cs :=
    if shared then
      onPosterior (fun s => SetPiLast (st_ValsLast preStatistics) (SetPiCurrent (st_ValsCurr preStatistics) s)) cs
    else
      onPosterior (fun s => SetPiLast (st_ValsCurr preStatistics)
        (SetPiCurrent (replicate (Z.to_nat (ValidatorsCount spec)) zeroActivity) s)) cs in
  cs ← UpdateCurrentStatistics shared extrinsic cs;
  cs ← UpdateCoreActivityStatistics extrinsic cs;
  Ret (UpdateServiceActivityStatistics extrinsic cs).

End Statistics.
