(* ===== verification/StatisticsSpec.v ===== *)
(** * Correctness of the statistics

    What a block adds to the counters of the validators, and the records of
    cores and services. *)

From S2P Require Import Prelude Words Types Config Encode Roundtrip Crypto Store StoreLaws Shuffle Safrole SafroleSpec.
From S2P Require Import Validate Assurances Guarantees GuaranteesSpec Statistics.
Local Open Scope Z_scope.

(** ** Counters *)

(** Adding counts to a record, on 32-bit counters. *)
Definition plusCounts (r d : ValidatorActivityRecord) : ValidatorActivityRecord :=
  MkValidatorActivityRecord (u32 (va_Blocks r + va_Blocks d)) (u32 (va_Tickets r + va_Tickets d))
    (u32 (va_PreImages r + va_PreImages d)) (u32 (va_PreImagesSize r + va_PreImagesSize d))
    (u32 (va_Guarantees r + va_Guarantees d)) (u32 (va_Assurances r + va_Assurances d)).

(** The sum of counts. *)
Definition sumCounts (d e : ValidatorActivityRecord) : ValidatorActivityRecord :=
  MkValidatorActivityRecord (va_Blocks d + va_Blocks e) (va_Tickets d + va_Tickets e) (va_PreImages d + va_PreImages e)
    (va_PreImagesSize d + va_PreImagesSize e) (va_Guarantees d + va_Guarantees e) (va_Assurances d + va_Assurances e).

Definition counter_ok (r : ValidatorActivityRecord) : Prop :=
  uint 32 (va_Blocks r) /\ uint 32 (va_Tickets r) /\ uint 32 (va_PreImages r) /\ uint 32 (va_PreImagesSize r) /\
  uint 32 (va_Guarantees r) /\ uint 32 (va_Assurances r).
#[export] Instance counter_ok_dec r : Decision (counter_ok r).
Proof. unfold counter_ok. apply _. Defined.

Lemma u32_uint x : uint 32 (u32 x).
Proof. apply Z.mod_pos_bound. lia. Qed.

Lemma u32_id x : uint 32 x -> u32 x = x.
Proof. intros Hx. by apply Z.mod_small. Qed.

Lemma u32_add_l x y : u32 (u32 x + y) = u32 (x + y).
Proof. apply Zplus_mod_idemp_l. Qed.

Lemma u32_add_r x y : u32 (x + u32 y) = u32 (x + y).
Proof. apply Zplus_mod_idemp_r. Qed.

Lemma plus_ok r d : counter_ok (plusCounts r d).
Proof. unfold counter_ok, plusCounts. cbn. repeat split; apply u32_uint. Qed.

Lemma plus_zero r : counter_ok r -> plusCounts r zeroActivity = r.
Proof.
  intros (H1 & H2 & H3 & H4 & H5 & H6). unfold plusCounts, zeroActivity. cbn. rewrite !Z.add_0_r, !u32_id by done. by destruct r.
Qed.

Lemma plus_plus r d e : plusCounts (plusCounts r d) e = plusCounts r (sumCounts d e).
Proof. unfold plusCounts, sumCounts. cbn. by rewrite !u32_add_l, !Z.add_assoc. Qed.

(** [vals'] is [vals] with [d i] added to the record of each index [i]. *)
Definition adds (d : Z -> ValidatorActivityRecord) (vals vals' : list ValidatorActivityRecord) : Prop :=
  length vals' = length vals /\
  forall i r, zlookup vals i = Some r -> zlookup vals' i = Some (plusCounts r (d i)).

Lemma adds_ext d e vals vals' : (forall i, 0 <= i < lenOf vals -> d i = e i) -> adds d vals vals' -> adds e vals vals'.
Proof.
  intros He [Hl Ha]. split; [done|]. intros i r Hr. rewrite <- He; [by apply Ha|]. apply zlookup_Some in Hr. exact Hr.
Qed.

Lemma adds_trans d e v1 v2 v3 : adds d v1 v2 -> adds e v2 v3 -> adds (fun i => sumCounts (d i) (e i)) v1 v3.
Proof.
  intros [Hl1 H1] [Hl2 H2]. split; [congruence|]. intros i r Hr. rewrite <- plus_plus. by apply H2, H1.
Qed.

Lemma adds_ok d v v' : adds d v v' -> Forall counter_ok v'.
Proof.
  intros [Hl Ha]. apply Forall_lookup. intros i x Hx. destruct (lookup_lt_is_Some_2 v i) as [r Hr].
  { apply lookup_lt_Some in Hx. lia. }
  specialize (Ha (Z.of_nat i) r). unfold zlookup in Ha. rewrite (proj2 (Z.ltb_ge _ _)), Nat2Z.id in Ha by lia.
  specialize (Ha Hr). rewrite Hx in Ha. injection Ha as ->. apply plus_ok.
Qed.

Definition at_index (j : Z) (d : ValidatorActivityRecord) (i : Z) : ValidatorActivityRecord := if decide (i = j) then d else zeroActivity.

Lemma adds_refl v : Forall counter_ok v -> adds (fun _ => zeroActivity) v v.
Proof.
  intros Hv. split; [done|]. intros i r Hr. rewrite plus_zero; [done|]. rewrite Forall_forall in Hv.
  apply Hv. by eapply zlookup_elem_of.
Qed.

Lemma bump_adds f j d v : Forall counter_ok v -> 0 <= j < lenOf v -> (forall r, counter_ok r -> f r = plusCounts r d) ->
  exists v', bump f j v = Ret v' /\ adds (at_index j d) v v'.
Proof.
  intros Hv Hj Hf. destruct (zlookup_is_Some v j Hj) as [r Hr]. unfold bump.
  rewrite (proj2 (zindex_Ret _ _ _) Hr), go_bind_ret, zupdate_ok by exact Hj. eexists. split; [done|].
  split; [apply length_insert|]. intros i x Hx. unfold at_index. unfold zlookup in *. destruct (i <? 0) eqn:Ei; [done|].
  apply Z.ltb_ge in Ei. rewrite (proj2 (Z.ltb_ge _ _)) in Hr by lia. case_decide as Hd.
  - subst i. rewrite list_lookup_insert_eq by (apply lookup_lt_Some in Hr; done). rewrite Hr in Hx. injection Hx as ->.
    rewrite Hf; [done|]. rewrite Forall_forall in Hv. by eapply Hv, list_elem_of_lookup_2.
  - rewrite list_lookup_insert_ne by lia. rewrite Hx, plus_zero; [done|]. rewrite Forall_forall in Hv.
    by eapply Hv, list_elem_of_lookup_2.
Qed.

(** ** The counters of the author *)

(** What the author of a block gets for it. *)
Definition authored (ext : Extrinsic) : ValidatorActivityRecord :=
  MkValidatorActivityRecord 1 (lenOf (ex_Tickets ext)) (lenOf (ex_Preimages ext))
    (foldr (fun p n => lenOf (p_Blob p) + n) 0 (ex_Preimages ext)) 0 0.

Ltac counters := unfold plusCounts, addBlocks, addTickets, addPreImages, addPreImagesSize, addGuarantees, addAssurances, zeroActivity;
  intros; match goal with H : counter_ok _ |- _ => destruct H as (?&?&?&?&?&?) end; cbn;
  rewrite ?Z.add_0_r, ?u32_add_r; repeat match goal with H : uint 32 ?x |- context [u32 ?x] => rewrite (u32_id x H) end; reflexivity.

Lemma octets_adds author ps v : Forall counter_ok v -> 0 <= author < lenOf v ->
  exists v', UpdatePreimageOctetStatistics author ps v = Ret v' /\
    adds (at_index author (MkValidatorActivityRecord 0 0 0 (foldr (fun p n => lenOf (p_Blob p) + n) 0 ps) 0 0)) v v'.
Proof.
  revert v. induction ps as [|p ps IH]; intros v Hv Ha; cbn [UpdatePreimageOctetStatistics].
  { exists v. split; [done|]. eapply adds_ext; [|by apply adds_refl]. intros i _. unfold at_index. by case_decide. }
  destruct (bump_adds (addPreImagesSize (u32 (lenOf (p_Blob p)))) author
    (MkValidatorActivityRecord 0 0 0 (lenOf (p_Blob p)) 0 0) v Hv Ha) as (v1 & E1 & A1); [counters|].
  rewrite E1, go_bind_ret. destruct (IH v1) as (v2 & E2 & A2); [by eapply adds_ok| |].
  { unfold lenOf. rewrite (proj1 A1). exact Ha. }
  exists v2. split; [done|]. eapply adds_ext; [|exact (adds_trans _ _ _ _ _ A1 A2)]. intros i _. unfold at_index. by case_decide.
Qed.

Lemma author_adds author ext v : Forall counter_ok v -> 0 <= author < lenOf v ->
  exists v', (v ← UpdateBlockStatistics author v;
              v ← UpdateTicketStatistics author (ex_Tickets ext) v;
              v ← UpdatePreimageStatistics author (ex_Preimages ext) v;
              UpdatePreimageOctetStatistics author (ex_Preimages ext) v) = Ret v' /\
    adds (at_index author (authored ext)) v v'.
Proof.
  intros Hv Ha. unfold UpdateBlockStatistics, UpdateTicketStatistics, UpdatePreimageStatistics.
  destruct (bump_adds addBlocks author (MkValidatorActivityRecord 1 0 0 0 0 0) v Hv Ha) as (v1 & E1 & A1); [counters|].
  rewrite E1, go_bind_ret. assert (0 <= author < lenOf v1) as Ha1 by (unfold lenOf in *; by rewrite (proj1 A1)).
  destruct (bump_adds (addTickets (u32 (lenOf (ex_Tickets ext)))) author
    (MkValidatorActivityRecord 0 (lenOf (ex_Tickets ext)) 0 0 0 0) v1) as (v2 & E2 & A2); [by eapply adds_ok|done|counters|].
  rewrite E2, go_bind_ret. assert (0 <= author < lenOf v2) as Ha2 by (unfold lenOf in *; by rewrite (proj1 A2)).
  destruct (bump_adds (addPreImages (u32 (lenOf (ex_Preimages ext)))) author
    (MkValidatorActivityRecord 0 0 (lenOf (ex_Preimages ext)) 0 0 0) v2) as (v3 & E3 & A3); [by eapply adds_ok|done|counters|].
  rewrite E3, go_bind_ret. assert (0 <= author < lenOf v3) as Ha3 by (unfold lenOf in *; by rewrite (proj1 A3)).
  destruct (octets_adds author (ex_Preimages ext) v3) as (v4 & E4 & A4); [by eapply adds_ok|done|].
  exists v4. split; [done|]. eapply adds_ext; [|exact (adds_trans _ _ _ _ _ (adds_trans _ _ _ _ _ (adds_trans _ _ _ _ _ A1 A2) A3) A4)].
  intros i _. unfold at_index. case_decide; [|done]. unfold sumCounts, authored. cbn [va_Blocks va_Tickets va_PreImages va_PreImagesSize va_Guarantees va_Assurances]. f_equal; lia.
Qed.

(** ** Assurances and reports *)

Definition oneGuarantee : ValidatorActivityRecord := MkValidatorActivityRecord 0 0 0 0 1 0.

Definition assured (assurances : list AvailAssurance) (i : Z) : ValidatorActivityRecord :=
  MkValidatorActivityRecord 0 0 0 0 0 (lenOf (filter (fun a => av_ValidatorIndex a = i) assurances)).

Lemma availability_adds assurances v : Forall counter_ok v -> Forall (fun a => 0 <= av_ValidatorIndex a < lenOf v) assurances ->
  exists v', UpdateAvailabilityStatistics assurances v = Ret v' /\ adds (assured assurances) v v'.
Proof.
  revert v. induction assurances as [|a l IH]; intros v Hv Ha; cbn [UpdateAvailabilityStatistics].
  { exists v. split; [done|]. by apply adds_refl. }
  apply Forall_cons in Ha as [Ha Hl].
  destruct (bump_adds addAssurances (av_ValidatorIndex a) (MkValidatorActivityRecord 0 0 0 0 0 1) v Hv Ha) as (v1 & E1 & A1); [counters|].
  rewrite E1, go_bind_ret. destruct (IH v1) as (v2 & E2 & A2); [by eapply adds_ok| |].
  { unfold lenOf. rewrite (proj1 A1). exact Hl. }
  exists v2. split; [done|]. eapply adds_ext; [|exact (adds_trans _ _ _ _ _ A1 A2)]. intros i _. unfold at_index, assured, sumCounts.
  rewrite filter_cons. case_decide as Hd; [rewrite decide_True by congruence|rewrite decide_False by congruence]; cbn; f_equal.
  unfold lenOf. cbn [length]. lia.
Qed.

(** Whether the validator at an index is a reporter. *)
Definition reported (reporters : list Bytes) (vs : list Validator) (i : Z) : ValidatorActivityRecord :=
  match zlookup vs i with
  | Some v => if bool_decide (v_Ed25519 v ∈ reporters) then oneGuarantee else zeroActivity
  | None => zeroActivity
  end.

Lemma zlookup_cons {A} (x : A) l i : i <> 0 -> zlookup (x :: l) i = zlookup l (i - 1).
Proof.
  intros Hi. unfold zlookup. destruct (Z.ltb_spec i 0), (Z.ltb_spec (i - 1) 0); try done; try lia.
  replace (Z.to_nat i) with (S (Z.to_nat (i - 1))) by lia. done.
Qed.

Lemma reporterLoop_adds reporters vs i v : Forall counter_ok v -> 0 <= i -> i + lenOf vs <= lenOf v ->
  exists v', reporterLoop reporters i vs v = Ret v' /\ adds (fun j => reported reporters vs (j - i)) v v'.
Proof.
  revert i v. induction vs as [|x vs IH]; intros i v Hv Hi Hl; cbn [reporterLoop].
  { exists v. split; [done|]. eapply adds_ext; [|by apply adds_refl]. intros j _. unfold reported.
    destruct (zlookup [] (j - i)) as [y|] eqn:E; [|done]. apply zlookup_Some in E. cbn in E. lia. }
  assert (lenOf (x :: vs) = lenOf vs + 1) as Hlen by (unfold lenOf; cbn; lia).
  set (e := if bool_decide (v_Ed25519 x ∈ reporters) then oneGuarantee else zeroActivity).
  assert (exists v1, (if bool_decide (v_Ed25519 x ∈ reporters) then bump addGuarantees i v else Ret v) = Ret v1 /\
    adds (at_index i e) v v1) as (v1 & E1 & A1).
  { unfold e. destruct (bool_decide _).
    - apply bump_adds; [done|unfold lenOf in *; lia|]. unfold oneGuarantee. counters.
    - exists v. split; [done|]. eapply adds_ext; [|by apply adds_refl]. intros j _. unfold at_index. by case_decide. }
  rewrite E1, go_bind_ret. destruct (IH (i + 1) v1) as (v2 & E2 & A2); [by eapply adds_ok|lia| |].
  { unfold lenOf in *. rewrite (proj1 A1). lia. }
  exists v2. split; [done|]. eapply adds_ext; [|exact (adds_trans _ _ _ _ _ A1 A2)]. intros j _. unfold at_index.
  destruct (decide (j = i)) as [Hd|Hd].
  - subst j. rewrite Z.sub_diag. replace (i - (i + 1)) with (-1) by lia.
    assert (reported reporters vs (-1) = zeroActivity) as -> by done. assert (reported reporters (x :: vs) 0 = e) as -> by done.
    unfold e. by destruct (bool_decide _).
  - unfold reported. rewrite zlookup_cons by lia. replace (j - i - 1) with (j - (i + 1)) by lia.
    destruct (zlookup vs (j - (i + 1))) as [y|]; [|done]. destruct (bool_decide (v_Ed25519 y ∈ reporters)); done.
Qed.

(** ** Keys of the signers *)

Lemma signerKeys_elem pks sigs key : (length pks <= 2 ^ 16)%nat -> Forall (fun s => 0 <= vs_ValidatorIndex s) sigs ->
  key ∈ signerKeys pks sigs <->
  exists sig v, sig ∈ sigs /\ zlookup pks (vs_ValidatorIndex sig) = Some v /\ key = v_Ed25519 v.
Proof.
  intros Hl Hs. unfold signerKeys. rewrite list_elem_of_omap. rewrite Forall_forall in Hs.
  change (2 ^ 16)%nat with (Z.to_nat (2 ^ 16)) in Hl. split.
  - intros (o & Hin & Ho). cbn in Ho. subst o. apply list_elem_of_lookup_1 in Hin as [k Hk].
    rewrite list_lookup_imap_Some in Hk. destruct Hk as (v & Hv & Hk). case_bool_decide as Hd; [|done]. injection Hk as ->.
    apply list_elem_of_fmap in Hd as (sig & Hsig & Hin). exists sig, v. split_and!; [done| |done].
    pose proof (lookup_lt_Some _ _ _ Hv). unfold u16 in Hsig. rewrite Z.mod_small in Hsig by lia.
    rewrite <- Hsig. unfold zlookup. rewrite (proj2 (Z.ltb_ge _ _)), Nat2Z.id by lia. done.
  - intros (sig & v & Hin & Hv & ->). exists (Some (v_Ed25519 v)). split; [|done]. apply (list_elem_of_lookup_2 _ (Z.to_nat (vs_ValidatorIndex sig))).
    apply list_lookup_imap_Some. pose proof (zlookup_Some _ _ _ Hv) as Hr. unfold zlookup in Hv. rewrite (proj2 (Z.ltb_ge _ _)) in Hv by lia.
    exists v. split; [done|]. rewrite Z2Nat.id by lia. unfold u16. rewrite Z.mod_small by lia.
    rewrite bool_decide_true; [done|]. by apply list_elem_of_fmap_2.
Qed.

Section Statistics.
Context (spec : ChainSpec) (Hspec : wf_spec spec) `{HashLaws}.

Lemma not_banned vs : banned [] vs = false.
Proof. unfold banned. induction vs as [|v vs IH]; [done|]. cbn. rewrite IH, orb_false_r. by apply bool_decide_eq_false, not_elem_of_nil. Qed.

(** The offenders taken from an array. *)
Definition offendersOf (cs : ChainState) : list Bytes := dr_Offenders (s_Psi (posteriorStates cs)).
Definition nullArray (a : nat) (cs : ChainState) : ChainState := writeValidators a (without (offendersOf cs)) cs.

Lemma nullArray_coherent a cs : coherent cs -> coherent (nullArray a cs).
Proof. by apply coherent_write. Qed.

Lemma inArray_twice a b f v : (forall w, f (f w) = f w) -> inArray a b f (inArray a b f v) = inArray a b f v.
Proof. intros Hf. unfold inArray. by destruct (Nat.eqb b a). Qed.

Lemma nullArray_twice a cs : nullArray a (nullArray a cs) = nullArray a cs.
Proof.
  unfold nullArray at 1. change (offendersOf (nullArray a cs)) with (offendersOf cs). unfold nullArray, writeValidators, writeArrays, onPosterior, onPrior. cbn.
  by rewrite !(inArray_twice a _ _ _ (without_idem _)).
Qed.

Lemma without_length off vs : length (without off vs) = length vs.
Proof. apply length_fmap. Qed.

(** The assignments the statistics take, whose keys are written to the
    posterior validators. *)
Lemma assignment_keys cs e slot a vs : coherent cs -> (a, vs) ∈ slots cs -> 0 <= slot ->
  exists cores, NewGuranatorAssignments spec e slot a vs cs = Ret (nullArray a cs, MkGuranatorAssignments cores (without (offendersOf cs) vs)).
Proof.
  intros Hc Hin Hs. unfold NewGuranatorAssignments, ReplaceOffenderKeys. destruct (permute_balanced spec e slot Hspec Hs) as (cores & -> & _).
  rewrite go_bind_ret. exists cores. fold (offendersOf cs). by rewrite (write_self _ _ _ _ Hc Hin), nullOffenders_self.
Qed.

Lemma GFunc_keys cs : coherent cs -> 0 <= s_Tau (posteriorStates cs) ->
  exists cores, GFunc spec [] cs = Ret (nullArray (va_Kappa (posteriorArrays (sharing cs))) cs,
    inl (MkGuranatorAssignments cores (without (offendersOf cs) (s_Kappa (posteriorStates cs))))).
Proof.
  intros Hc Ht. unfold GFunc. rewrite not_banned.
  destruct (assignment_keys cs (etaAt (s_Eta (posteriorStates cs)) 2) (s_Tau (posteriorStates cs)) (va_Kappa (posteriorArrays (sharing cs)))
    (s_Kappa (posteriorStates cs)) Hc ltac:(slot) Ht) as (cores & ->). by exists cores.
Qed.

(** Whether the last rotation was in this epoch, the way the code computes
    it. *)
Definition lastInEpoch (cs : ChainState) : bool :=
  Z.quot (s_Tau (posteriorStates cs) - RotationPeriod spec) (EpochLength spec) =? Z.quot (s_Tau (posteriorStates cs)) (EpochLength spec).

Lemma GStarFunc_keys cs : coherent cs ->
  exists cores, GStarFunc spec [] cs =
    Ret (nullArray ((if lastInEpoch cs then va_Kappa else va_Lambda) (posteriorArrays (sharing cs))) cs,
      inl (MkGuranatorAssignments cores
        (without (offendersOf cs) (if lastInEpoch cs then s_Kappa (posteriorStates cs) else s_Lambda (posteriorStates cs))))).
Proof.
  intros Hc. unfold GStarFunc. fold (lastInEpoch cs). rewrite not_banned.
  set (slot := u32 _). assert (0 <= slot) as Hs by (apply Z.mod_pos_bound; lia).
  destruct (assignment_keys cs (if lastInEpoch cs then etaAt (s_Eta (posteriorStates cs)) 2 else etaAt (s_Eta (posteriorStates cs)) 3) slot
    ((if lastInEpoch cs then va_Kappa else va_Lambda) (posteriorArrays (sharing cs)))
    (if lastInEpoch cs then s_Kappa (posteriorStates cs) else s_Lambda (posteriorStates cs)) Hc) as (cores & ->); [|done|by exists cores].
  destruct (lastInEpoch cs); slot.
Qed.

(** The store after a block with guarantees: the offenders are taken from the
    slice of the current validators, and from that of the previous ones if
    they may guarantee; whatever else is one of these slices changes too. *)
Definition nulled (cs : ChainState) : ChainState :=
  let cs := nullArray (va_Kappa (posteriorArrays (sharing cs))) cs in
  if lastInEpoch cs then cs else nullArray (va_Lambda (posteriorArrays (sharing cs))) cs.

Lemma nulled_coherent cs : coherent cs -> coherent (nulled cs).
Proof. intros Hc. unfold nulled. destruct (lastInEpoch _); repeat apply nullArray_coherent; done. Qed.

(** The validators that may guarantee are without offenders. *)
Lemma nulled_kappa cs : s_Kappa (posteriorStates (nulled cs)) = without (offendersOf cs) (s_Kappa (posteriorStates cs)).
Proof.
  unfold nulled. change (lastInEpoch (nullArray _ cs)) with (lastInEpoch cs). destruct (lastInEpoch cs); cbn; unfold inArray; rewrite Nat.eqb_refl; [done|].
  destruct (Nat.eqb _ _); [apply without_idem|done].
Qed.
Lemma nulled_lambda cs : lastInEpoch cs = false -> s_Lambda (posteriorStates (nulled cs)) = without (offendersOf cs) (s_Lambda (posteriorStates cs)).
Proof.
  intros El. unfold nulled. change (lastInEpoch (nullArray _ cs)) with (lastInEpoch cs). rewrite El. cbn. unfold inArray. rewrite Nat.eqb_refl.
  destruct (Nat.eqb _ _); [apply without_idem|done].
Qed.

(** The validators the statistics take for the signers of a guarantee. *)
Definition signers (cs : ChainState) (g : ReportGuarantee) : list Validator :=
  if decide (Z.quot (s_Tau (posteriorStates cs)) (RotationPeriod spec) = Z.quot (rg_Slot g) (RotationPeriod spec)) then s_Kappa (posteriorStates (nulled cs))
  else if lastInEpoch cs then s_Kappa (posteriorStates (nulled cs)) else s_Lambda (posteriorStates (nulled cs)).

Definition reporters (cs : ChainState) (gs : list ReportGuarantee) : list Bytes :=
  concat ((fun g => signerKeys (signers cs g) (rg_Signatures g)) <$> gs).

Lemma reportersLoop_eq left same diff gs :
  reportersLoop spec left same diff gs =
  concat ((fun g => signerKeys (if decide (left = Z.quot (rg_Slot g) (RotationPeriod spec)) then same else diff) (rg_Signatures g)) <$> gs).
Proof.
  induction gs as [|g gs IH]; [done|]. cbn [reportersLoop]. rewrite IH, fmap_cons. cbn [concat]. f_equal. f_equal.
  destruct (Z.eqb_spec left (Z.quot (rg_Slot g) (RotationPeriod spec))); [by rewrite decide_True|by rewrite decide_False].
Qed.

(** What a block adds to the counter of guarantees. *)
Lemma reports_adds cs gs v : coherent cs -> 0 <= s_Tau (posteriorStates cs) -> gs <> [] -> Forall counter_ok v ->
  lenOf (s_Kappa (posteriorStates cs)) <= lenOf v ->
  exists v', UpdateReportStatistics spec gs (s_Tau (posteriorStates cs)) v cs = Ret (nulled cs, v') /\
    adds (reported (reporters cs gs) (s_Kappa (posteriorStates (nulled cs)))) v v'.
Proof.
  intros Hc Ht Hg Hv Hl. unfold UpdateReportStatistics. rewrite (proj2 (Z.eqb_neq _ _)) by (destruct gs; [done|unfold lenOf; cbn; lia]).
  destruct (GFunc_keys cs Hc Ht) as (cores1 & ->). rewrite go_bind_ret.
  set (k := without _ _). set (cs1 := nullArray _ cs). assert (coherent cs1) as Hc1 by by apply nullArray_coherent.
  destruct (GStarFunc_keys cs1 Hc1) as (cores2 & ->). rewrite go_bind_ret.
  change (lastInEpoch cs1) with (lastInEpoch cs). change (offendersOf cs1) with (offendersOf cs). cbn [assignmentKeys PublicKeys].
  set (diff := without _ _). set (cs2 := nullArray _ cs1).
  assert (cs2 = nulled cs) as Hcs2.
  { unfold cs2, nulled, cs1. change (lastInEpoch (nullArray _ cs)) with (lastInEpoch cs). destruct (lastInEpoch cs); [apply nullArray_twice|done]. }
  assert (k = s_Kappa (posteriorStates (nulled cs))) as Hkn by by rewrite nulled_kappa.
  assert (diff = if lastInEpoch cs then k else s_Lambda (posteriorStates (nulled cs))) as Hdiff.
  { unfold diff. destruct (lastInEpoch cs) eqn:El; cbn; unfold inArray.
    - rewrite Nat.eqb_refl. apply without_idem.
    - rewrite nulled_lambda by done. destruct (Nat.eqb _ _); [apply without_idem|done]. }
  rewrite reportersLoop_eq.
  assert (concat ((fun g => signerKeys (if decide (Z.quot (s_Tau (posteriorStates cs)) (RotationPeriod spec) = Z.quot (rg_Slot g) (RotationPeriod spec)) then k else diff)
    (rg_Signatures g)) <$> gs) = reporters cs gs) as ->.
  { unfold reporters. f_equal. apply list_fmap_ext. intros i g _. unfold signers. rewrite <- Hkn, Hdiff. reflexivity. }
  rewrite Hcs2. destruct (reporterLoop_adds (reporters cs gs) (s_Kappa (posteriorStates (nulled cs))) 0 v) as (v' & -> & A); [done|lia| |].
  { rewrite <- Hkn. unfold lenOf in *. unfold k. rewrite without_length. lia. }
  rewrite go_bind_ret. exists v'. split; [done|]. eapply adds_ext; [|exact A]. intros i _. cbv beta. by rewrite Z.sub_0_r.
Qed.

(** ** Cores *)

(** The report of a core, the last one if there are several. *)
Definition reportOf (ws : list WorkReport) (c : Z) : option WorkReport := last (filter (fun w => rp_CoreIndex w = c) ws).

Lemma createWorkReportMap_lookup ws c : createWorkReportMap ws !! c = reportOf ws c.
Proof.
  unfold createWorkReportMap, reportOf. induction ws as [|w ws IH] using rev_ind; [apply lookup_empty|].
  rewrite foldl_snoc, filter_app, filter_cons. cbv beta. destruct (decide (rp_CoreIndex w = c)) as [<-|Hn].
  - by rewrite lookup_insert_eq, filter_nil, last_snoc.
  - by rewrite lookup_insert_ne, IH, filter_nil, app_nil_r.
Qed.

Definition load (f : RefineLoad -> Z) (rs : list WorkResult) : Z := sumOf (fun r => f (wr_RefineLoad r)) rs.

Lemma wrap_add n x y : (x mod n + y) mod n = (x + y) mod n.
Proof. apply Zplus_mod_idemp_l. Qed.

(** The sums over the results of a report, on machine integers. *)
Lemma CalculateWorkResults_ok c m : CalculateWorkResults c m =
  match m !! c with
  | None => zeroCoreResults
  | Some w => MkCoreResults (u16 (load rl_Imports (rp_Results w))) (u16 (load rl_ExtrinsicCount (rp_Results w)))
      (u32 (load rl_ExtrinsicSize (rp_Results w))) (u16 (load rl_Exports (rp_Results w))) (u64 (load rl_GasUsed (rp_Results w)))
      (ps_Length (rp_PackageSpec w))
  end.
Proof.
  unfold CalculateWorkResults. destruct (m !! c) as [w|]; [|done]. set (step := fun o r => _).
  assert (forall l i x z e g b, foldl step (MkCoreResults (u16 i) (u16 x) (u32 z) (u16 e) (u64 g) b) l =
    MkCoreResults (u16 (i + load rl_Imports l)) (u16 (x + load rl_ExtrinsicCount l)) (u32 (z + load rl_ExtrinsicSize l))
      (u16 (e + load rl_Exports l)) (u64 (g + load rl_GasUsed l)) b) as Hs.
  { induction l as [|r l IH]; intros i x z e g b; cbn [foldl]; [cbn; by rewrite !Z.add_0_r|].
    assert (step (MkCoreResults (u16 i) (u16 x) (u32 z) (u16 e) (u64 g) b) r =
      let l := wr_RefineLoad r in MkCoreResults (u16 (i + rl_Imports l)) (u16 (x + rl_ExtrinsicCount l)) (u32 (z + rl_ExtrinsicSize l))
        (u16 (e + rl_Exports l)) (u64 (g + rl_GasUsed l)) b) as -> by (unfold step, u16, u32, u64; cbn; by rewrite !wrap_add).
    cbv zeta. rewrite IH. unfold load. cbn [sumOf foldr]. by rewrite !Z.add_assoc. }
  pose proof (Hs (rp_Results w) 0 0 0 0 0 0 : foldl step zeroCoreResults (rp_Results w) = _) as Hz. by rewrite Hz.
Qed.

Lemma popularity_ok c a : Forall (fun x => lenOf (av_Bitfield x) = CoresCount spec /\ Forall (fun b => b = 0 \/ b = 1) (av_Bitfield x)) a ->
  0 <= c < CoresCount spec -> CalculatePopularity c a = Ret (u16 (votes a (Z.to_nat c))).
Proof.
  intros Ha Hc. unfold CalculatePopularity. assert (forall n, popularityLoop c a (u16 n) = Ret (u16 (n + votes a (Z.to_nat c)))) as Hl; [|by apply (Hl 0)].
  induction Ha as [|x a [Hx Hb] _ IH]; intros n; cbn [popularityLoop]; [by rewrite Z.add_0_r|].
  destruct (lenOf_lookup _ _ _ Hx Hc) as [b Hlk]. rewrite (zindex_lookup _ _ _ (proj1 Hc) Hlk), go_bind_ret.
  assert (u16 (u16 n + u16 b) = u16 (n + b)) as -> by (unfold u16; by rewrite wrap_add, Zplus_mod_idemp_r).
  rewrite IH. f_equal. f_equal. unfold votes. rewrite filter_cons.
  rewrite Forall_forall in Hb. destruct (Hb b) as [->| ->]; [by eapply list_elem_of_lookup_2| |].
  - rewrite decide_False by (unfold assures; congruence). lia.
  - rewrite decide_True by exact Hlk. unfold lenOf. cbn [length]. lia.
Qed.

(** The record of a core: the sums over its incoming report, the load of its
    newly available report, and the number of assurances for it. *)
Definition core_record (present available : list WorkReport) (a : list AvailAssurance) (c : Z) : CoreActivityRecord :=
  let R := CalculateWorkResults c (createWorkReportMap present) in
  MkCoreActivityRecord (CalculateDALoad c (createWorkReportMap available)) (u16 (votes a (Z.to_nat c)))
    (cr_Imports R) (cr_ExtrinsicCount R) (cr_ExtrinsicSize R) (cr_Exports R) (cr_BundleSize R) (cr_GasUsed R).

Lemma coreLoop_ok present available a n i l :
  Forall (fun x => lenOf (av_Bitfield x) = CoresCount spec /\ Forall (fun b => b = 0 \/ b = 1) (av_Bitfield x)) a ->
  lenOf l = CoresCount spec -> Z.of_nat (i + n) = CoresCount spec ->
  exists l', coreLoop (createWorkReportMap present) (createWorkReportMap available) a (seqZ (Z.of_nat i) (Z.of_nat n)) l = Ret l' /\
    lenOf l' = CoresCount spec /\
    forall c, l' !! c = if decide (i <= c < i + n)%nat then Some (core_record present available a (Z.of_nat c)) else l !! c.
Proof.
  intros Ha. destruct Hspec as [HC _ _ _ _ _ _]. revert i l. induction n as [|n IH]; intros i l Hl Hi.
  { exists l. split_and!; [done|done|]. intros c. by rewrite decide_False by lia. }
  rewrite seqZ_cons by lia. replace (Z.pred (Z.of_nat (S n))) with (Z.of_nat n) by lia.
  replace (Z.succ (Z.of_nat i)) with (Z.of_nat (S i)) by lia. cbn [coreLoop]. unfold u16. rewrite Z.mod_small by lia.
  unfold coreActivity. rewrite popularity_ok by (done || lia). rewrite !go_bind_ret, zupdate_ok, go_bind_ret by (unfold lenOf in Hl; lia).
  destruct (IH (S i) (<[Z.to_nat (Z.of_nat i) := core_record present available a (Z.of_nat i)]> l)) as (l' & E & Hl' & Hlk).
  { unfold lenOf. by rewrite length_insert. }
  { lia. }
  exists l'. split_and!; [exact E|done|]. intros c. rewrite Hlk, Nat2Z.id. destruct (decide (c = i)) as [->|Hn].
  - rewrite decide_False, decide_True by lia. rewrite list_lookup_insert_eq by (unfold lenOf in Hl; lia). done.
  - rewrite list_lookup_insert_ne by done. repeat case_decide; try done; lia.
Qed.

Lemma cores_ok cs ext : Forall (fun x => lenOf (av_Bitfield x) = CoresCount spec /\ Forall (fun b => b = 0 \/ b = 1) (av_Bitfield x)) (ex_Assurances ext) ->
  exists l, UpdateCoreActivityStatistics spec ext cs = Ret (onPosterior (SetCoresStatistics l) cs) /\ lenOf l = CoresCount spec /\
    forall c, 0 <= c < CoresCount spec -> zlookup l c = Some (core_record (PresentWorkReports (intermediateStates cs))
      (AvailableWorkReports (intermediateStates cs)) (ex_Assurances ext) c).
Proof.
  intros Ha. destruct Hspec as [HC _ _ _ _ _ _]. unfold UpdateCoreActivityStatistics, cores.
  destruct (coreLoop_ok (PresentWorkReports (intermediateStates cs)) (AvailableWorkReports (intermediateStates cs)) (ex_Assurances ext)
    (Z.to_nat (CoresCount spec)) 0 (replicate (Z.to_nat (CoresCount spec)) zeroCoreActivity)) as (l & E & Hl & Hlk); [done|unfold lenOf; rewrite length_replicate; lia|lia|].
  change (Z.of_nat 0) with 0 in E. rewrite Z2Nat.id in E by lia. rewrite E, go_bind_ret. exists l. split_and!; [done|done|].
  intros c Hc. unfold zlookup. rewrite (proj2 (Z.ltb_ge _ _)), Hlk, decide_True, Z2Nat.id by lia. done.
Qed.

(** ** Services *)

Definition resultsOf (cs : ChainState) (s : Z) : list WorkResult := filter (fun r => wr_ServiceID r = s) (presentResults cs).

Lemma CreateServiceWorkResultsMap_lookup cs s : default [] (CreateServiceWorkResultsMap cs !! s) = resultsOf cs s.
Proof.
  unfold CreateServiceWorkResultsMap, resultsOf. induction (presentResults cs) as [|r l IH] using rev_ind; [reflexivity|].
  rewrite foldl_snoc, filter_app, filter_cons, filter_nil. cbv beta. destruct (decide (wr_ServiceID r = s)) as [<-|Hn].
  - by rewrite lookup_insert_eq, <- IH.
  - by rewrite lookup_insert_ne, IH, app_nil_r.
Qed.

Lemma CalculateServiceResults_ok s m : CalculateServiceResults s m =
  let rs := default [] (m !! s) in
  MkServiceResults (u32 (lenOf rs)) (u64 (load rl_GasUsed rs)) (u32 (load rl_Imports rs)) (u32 (load rl_ExtrinsicCount rs))
    (u32 (load rl_ExtrinsicSize rs)) (u32 (load rl_Exports rs)).
Proof.
  unfold CalculateServiceResults. destruct (m !! s) as [rs|]; [|done]. cbn [default from_option]. set (step := fun o r => _).
  assert (forall l n g i x z e, foldl step (MkServiceResults (u32 n) (u64 g) (u32 i) (u32 x) (u32 z) (u32 e)) l =
    MkServiceResults (u32 (n + lenOf l)) (u64 (g + load rl_GasUsed l)) (u32 (i + load rl_Imports l)) (u32 (x + load rl_ExtrinsicCount l))
      (u32 (z + load rl_ExtrinsicSize l)) (u32 (e + load rl_Exports l))) as Hs.
  { induction l as [|r l IH]; intros n g i x z e; cbn [foldl]; [cbn; by rewrite !Z.add_0_r|].
    assert (step (MkServiceResults (u32 n) (u64 g) (u32 i) (u32 x) (u32 z) (u32 e)) r =
      let l := wr_RefineLoad r in MkServiceResults (u32 (n + 1)) (u64 (g + rl_GasUsed l)) (u32 (i + rl_Imports l))
        (u32 (x + rl_ExtrinsicCount l)) (u32 (z + rl_ExtrinsicSize l)) (u32 (e + rl_Exports l))) as ->
      by (unfold step, u32, u64; cbn; by rewrite !wrap_add).
    cbv zeta. rewrite IH. unfold load. cbn [sumOf foldr]. rewrite !Z.add_assoc. do 2 f_equal. unfold lenOf. cbn [length]. lia. }
  exact (Hs rs 0 0 0 0 0 0).
Qed.

Lemma sumOf_app {A} (f : A -> Z) l x : sumOf f (l ++ [x]) = sumOf f l + f x.
Proof. unfold sumOf. rewrite foldr_app. cbn. induction l as [|y l IH]; cbn; lia. Qed.

Lemma lenOf_snoc {A} (l : list A) x : lenOf (l ++ [x]) = lenOf l + 1.
Proof. unfold lenOf. rewrite length_app. cbn. lia. Qed.

Lemma preimageStatsMap_lookup ps s : let mine := filter (fun p => p_Requester p = s) ps in
  default (0, 0) (preimageStatsMap ps !! s) = (u16 (lenOf mine), u32 (sumOf (fun p => lenOf (p_Blob p)) mine)).
Proof.
  cbv zeta. unfold preimageStatsMap. induction ps as [|p ps IH] using rev_ind; [reflexivity|].
  rewrite foldl_snoc, filter_app, filter_cons, filter_nil. cbv beta. destruct (decide (p_Requester p = s)) as [<-|Hn].
  - rewrite IH, lookup_insert_eq. cbn [default from_option]. rewrite sumOf_app, lenOf_snoc. unfold u16, u32.
    by rewrite !wrap_add, Zplus_mod_idemp_r.
  - destruct (default (0, 0) (_ !! p_Requester p)) as [count size]. rewrite lookup_insert_ne by done. by rewrite IH, app_nil_r.
Qed.

(** The record of a service: the sums over its results, its preimages, and
    what it accumulated. *)
Definition service_record (cs : ChainState) (ext : Extrinsic) (s : Z) : ServiceActivityRecord :=
  let rs := resultsOf cs s in
  let ps := filter (fun p => p_Requester p = s) (ex_Preimages ext) in
  let a := default (MkGasAndNum 0 0) (AccumulationStatistics (intermediateStates cs) !! s) in
  MkServiceActivityRecord (u16 (lenOf ps)) (u32 (sumOf (fun p => lenOf (p_Blob p)) ps)) (u32 (lenOf rs)) (u64 (load rl_GasUsed rs))
    (u32 (load rl_Imports rs)) (u32 (load rl_ExtrinsicCount rs)) (u32 (load rl_ExtrinsicSize rs)) (u32 (load rl_Exports rs))
    (u32 (gn_NumAccumulatedReports a)) (gn_Gas a).

Lemma serviceActivity_ok cs ext s : serviceActivity cs ext s = service_record cs ext s.
Proof.
  unfold serviceActivity, service_record. rewrite preimageStatsMap_lookup, CalculateServiceResults_ok, CreateServiceWorkResultsMap_lookup.
  unfold CalculateAccumulationStatistics. by destruct (AccumulationStatistics _ !! s).
Qed.

(** A service is recorded if it has results, preimages or accumulated. *)
Definition active (cs : ChainState) (ext : Extrinsic) (s : Z) : Prop :=
  s ∈ wr_ServiceID <$> presentResults cs \/ s ∈ p_Requester <$> ex_Preimages ext \/
  is_Some (AccumulationStatistics (intermediateStates cs) !! s).
#[global] Instance active_dec cs ext s : Decision (active cs ext s).
Proof. unfold active. apply _. Defined.

Lemma services_ok cs ext : exists m, UpdateServiceActivityStatistics ext cs = onPosterior (SetServicesStatistics m) cs /\
  forall s, m !! s = if decide (active cs ext s) then Some (service_record cs ext s) else None.
Proof.
  eexists. split; [done|]. intros s.
  assert (s ∈ GetAllServices cs (ex_Preimages ext) <-> active cs ext s) as Hs.
  { unfold GetAllServices, GetServicesFromPreimagesExtrinsic, GetServicesFromAccumulationStatistics, GetServicesFromPresentWorkReport, active.
    rewrite !elem_of_union, !elem_of_list_to_set, elem_of_dom. tauto. }
  case_decide as Hd.
  - apply lookup_set_to_map; [by intros ?? _ _|]. exists s. split; [by apply Hs|]. by rewrite serviceActivity_ok.
  - apply eq_None_not_Some. intros [x Hx]. apply lookup_set_to_map in Hx as (y & Hy & [= -> _]); [|by intros ?? _ _].
    by apply Hs in Hy.
Qed.

(** ** The whole update *)

Definition extrinsicOf (cs : ChainState) : Extrinsic := b_Extrinsic (latestBlock cs).
Definition authorOf (cs : ChainState) : Z := h_AuthorIndex (b_Header (latestBlock cs)).

(** The prior and the posterior slot are in the same epoch. *)
Definition withinEpoch (cs : ChainState) : bool :=
  GetEpochIndex spec (s_Tau (priorStates cs)) =? GetEpochIndex spec (s_Tau (posteriorStates cs)).

(** What the counters start from: those of the epoch, or zero in a new
    one. *)
Definition startVals (cs : ChainState) : list ValidatorActivityRecord :=
  if withinEpoch cs then st_ValsCurr (s_Pi (priorStates cs)) else replicate (Z.to_nat (ValidatorsCount spec)) zeroActivity.
Definition lastVals (cs : ChainState) : list ValidatorActivityRecord :=
  if withinEpoch cs then st_ValsLast (s_Pi (priorStates cs)) else st_ValsCurr (s_Pi (priorStates cs)).

Record statistics_input (cs : ChainState) : Prop := {
  si_curr : lenOf (st_ValsCurr (s_Pi (priorStates cs))) = ValidatorsCount spec;
  si_counters : Forall counter_ok (st_ValsCurr (s_Pi (priorStates cs)));
  si_kappa : lenOf (s_Kappa (posteriorStates cs)) = ValidatorsCount spec;
  si_tau : 0 <= s_Tau (posteriorStates cs);
  si_author : 0 <= authorOf cs < ValidatorsCount spec;
  si_assurers : Forall (fun a => 0 <= av_ValidatorIndex a < ValidatorsCount spec) (ex_Assurances (extrinsicOf cs));
  si_bits : Forall (fun x => lenOf (av_Bitfield x) = CoresCount spec /\ Forall (fun b => b = 0 \/ b = 1) (av_Bitfield x))
    (ex_Assurances (extrinsicOf cs)) }.

(** The store the counting leaves: guarantees null the keys of offenders. *)
Definition settled (cs : ChainState) : ChainState :=
  match ex_Guarantees (extrinsicOf cs) with [] => cs | _ => nulled cs end.

(** What a block adds to the counters of the validator at index [i] (13.5):
    its author's, a guarantee if it signed one, and its assurances. *)
Definition counts (cs : ChainState) (i : Z) : ValidatorActivityRecord :=
  sumCounts (sumCounts (at_index (authorOf cs) (authored (extrinsicOf cs)) i)
    (reported (reporters cs (ex_Guarantees (extrinsicOf cs))) (s_Kappa (posteriorStates (settled cs))) i))
    (assured (ex_Assurances (extrinsicOf cs)) i).

Lemma nulled_SetPi cs v : nulled (onPosterior (SetPi v) cs) = onPosterior (SetPi v) (nulled cs).
Proof.
  unfold nulled. change (lastInEpoch (nullArray _ (onPosterior (SetPi v) cs))) with (lastInEpoch cs).
  change (lastInEpoch (nullArray _ cs)) with (lastInEpoch cs). by destruct (lastInEpoch cs).
Qed.

Lemma settled_SetPi cs v : settled (onPosterior (SetPi v) cs) = onPosterior (SetPi v) (settled cs).
Proof.
  unfold settled. change (extrinsicOf (onPosterior _ cs)) with (extrinsicOf cs). destruct (ex_Guarantees _); [done|apply nulled_SetPi].
Qed.

Lemma settled_coherent cs : coherent cs -> coherent (settled cs).
Proof. intros Hc. unfold settled. destruct (ex_Guarantees _); [done|by apply nulled_coherent]. Qed.

Lemma counts_onPosterior cs v i : counts (onPosterior (SetPi v) cs) i = counts cs i.
Proof.
  unfold counts. rewrite settled_SetPi. change (s_Kappa (posteriorStates (onPosterior (SetPi v) (settled cs)))) with (s_Kappa (posteriorStates (settled cs))).
  do 3 f_equal. unfold reporters. f_equal. apply list_fmap_ext. intros k g _. f_equal.
  unfold signers. rewrite nulled_SetPi. reflexivity.
Qed.

Lemma report_counts cs v : coherent cs -> statistics_input cs -> Forall counter_ok v -> lenOf v = ValidatorsCount spec ->
  exists v', UpdateReportStatistics spec (ex_Guarantees (extrinsicOf cs)) (s_Tau (posteriorStates cs)) v cs = Ret (settled cs, v') /\
    adds (reported (reporters cs (ex_Guarantees (extrinsicOf cs))) (s_Kappa (posteriorStates (settled cs)))) v v'.
Proof.
  intros Hc Hi Hv Hl. unfold settled. destruct (ex_Guarantees (extrinsicOf cs)) as [|g gs] eqn:Eg.
  - exists v. split; [done|]. eapply adds_ext; [|by apply adds_refl]. intros i _. unfold reported, reporters.
    destruct (zlookup _ i) as [x|]; [|done]. by rewrite bool_decide_false by apply not_elem_of_nil.
  - apply reports_adds; [done|apply Hi|done|done|]. rewrite (si_kappa _ Hi). lia.
Qed.

Lemma counted cs shared : coherent cs -> statistics_input cs -> Forall counter_ok (st_ValsCurr (s_Pi (posteriorStates cs))) ->
  lenOf (st_ValsCurr (s_Pi (posteriorStates cs))) = ValidatorsCount spec ->
  exists vals, UpdateCurrentStatistics spec shared (extrinsicOf cs) cs =
      Ret (onPosterior (SetPiCurrent vals) (if (shared : bool) then onPrior (SetPiCurrent vals) (settled cs) else settled cs)) /\
    adds (counts cs) (st_ValsCurr (s_Pi (posteriorStates cs))) vals.
Proof.
  intros Hc Hi Hv Hl. unfold UpdateCurrentStatistics. fold (authorOf cs).
  destruct (author_adds (authorOf cs) (extrinsicOf cs) _ Hv) as (v1 & E1 & A1); [rewrite Hl; apply Hi|].
  destruct (report_counts cs v1 Hc Hi) as (v2 & E2 & A2); [by eapply adds_ok|unfold lenOf in *; by rewrite (proj1 A1)|].
  destruct (availability_adds (ex_Assurances (extrinsicOf cs)) v2) as (v3 & E3 & A3); [by eapply adds_ok| |].
  { unfold lenOf in *. rewrite (proj1 A2), (proj1 A1), Hl. apply Hi. }
  exists v3. split; [|exact (adds_trans _ _ _ _ _ (adds_trans _ _ _ _ _ A1 A2) A3)].
  apply go_bind_inv in E1 as (u1 & -> & E1). apply go_bind_inv in E1 as (u2 & Et & E1). apply go_bind_inv in E1 as (u3 & Ep & E1).
  rewrite go_bind_ret, Et, go_bind_ret, Ep, go_bind_ret, E1, go_bind_ret, E2, go_bind_ret. cbn [fst snd].
  by rewrite E3, go_bind_ret.
Qed.

Lemma statistics_ok cs : coherent cs -> statistics_input cs -> exists vals l m,
  UpdateValidatorActivityStatistics spec cs =
    Ret (onPosterior (SetPi (MkStatistics vals (lastVals cs) l m))
      (if withinEpoch cs then onPrior (SetPiCurrent vals) (settled cs) else settled cs)) /\
  adds (counts cs) (startVals cs) vals /\
  lenOf l = CoresCount spec /\
  (forall c, 0 <= c < CoresCount spec -> zlookup l c = Some (core_record (PresentWorkReports (intermediateStates cs))
    (AvailableWorkReports (intermediateStates cs)) (ex_Assurances (extrinsicOf cs)) c)) /\
  (forall s, m !! s = if decide (active cs (extrinsicOf cs) s) then Some (service_record cs (extrinsicOf cs) s) else None).
Proof.
  intros Hco Hi. unfold UpdateValidatorActivityStatistics. fold (withinEpoch cs) (extrinsicOf cs).
  set (cs1 := if withinEpoch cs then _ else _).
  set (v := MkStatistics (startVals cs) (lastVals cs) (st_Cores (s_Pi (posteriorStates cs))) (st_Services (s_Pi (posteriorStates cs)))).
  assert (cs1 = onPosterior (SetPi v) cs) as Hcs1 by (unfold cs1, v, lastVals, startVals; by destruct (withinEpoch cs)).
  clearbody cs1. subst cs1. set (cs1 := onPosterior _ cs).
  assert (statistics_input cs1) as Hi1 by (destruct Hi; by constructor).
  assert (coherent cs1) as Hco1 by by rewrite coherent_slots in *.
  destruct (counted cs1 (withinEpoch cs) Hco1 Hi1) as (vals & E & A).
  { cbn. unfold startVals. destruct (withinEpoch cs); [apply Hi|]. by apply Forall_replicate. }
  { cbn. unfold startVals. destruct (withinEpoch cs); [apply Hi|]. unfold lenOf. rewrite length_replicate.
    pose proof (wf_validators _ Hspec). lia. }
  change (extrinsicOf cs1) with (extrinsicOf cs) in E. rewrite E, go_bind_ret. unfold cs1 at 1 2. rewrite settled_SetPi.
  match goal with |- context [UpdateCoreActivityStatistics _ _ ?c] => destruct (cores_ok c _ (si_bits _ Hi)) as (l & -> & Hl & Hc) end.
  rewrite go_bind_ret. match goal with |- context [UpdateServiceActivityStatistics _ ?c] =>
    destruct (services_ok c (extrinsicOf cs)) as (m & -> & Hm) end.
  assert (intermediateStates (settled cs) = intermediateStates cs) as Hin.
  { unfold settled, nulled. destruct (ex_Guarantees _); [done|]. by destruct (lastInEpoch _). }
  exists vals, l, m. split_and!; [| |exact Hl| |].
  - f_equal. by destruct (withinEpoch cs).
  - eapply adds_ext; [|exact A]. intros i _. exact (counts_onPosterior cs v i).
  - intros c Hr. rewrite (Hc c Hr). destruct (withinEpoch cs); cbn; by rewrite Hin.
  - intros s. rewrite Hm. clear. unfold settled, nulled.
    destruct (withinEpoch cs), (ex_Guarantees (extrinsicOf cs)); try done; by destruct (lastInEpoch _).
Qed.

(** C15: counting a block (13.3 to 13.5). Of a state with a counter of each
    validator and a block whose author and assurers are validators, the
    update succeeds, and the counters of the posterior state are those of
    the epoch, or zero in a new epoch, with what the block adds, on 32-bit
    counters: one block, its tickets and its preimages to the author, one
    guarantee to each validator whose key signed a guarantee, and one
    assurance to each assurer. The previous counters are kept within an
    epoch and replaced by the current ones in a new epoch. A block with
    guarantees also takes the keys of offenders from the slices of the
    posterior current and, if they may guarantee, previous validators, and
    so from every validator set of the prior and of the posterior state that
    is one of these slices; within an epoch the counters of the prior state
    are written too. Nothing else of the two states changes. *)
Theorem validator_statistics cs : coherent cs -> statistics_input cs -> exists vals cs',
  UpdateValidatorActivityStatistics spec cs = Ret cs' /\
  adds (counts cs) (startVals cs) vals /\
  st_ValsCurr (s_Pi (posteriorStates cs')) = vals /\
  st_ValsLast (s_Pi (posteriorStates cs')) = lastVals cs /\
  SetPi (s_Pi (posteriorStates cs)) (posteriorStates cs') = posteriorStates (settled cs) /\
  priorStates cs' = (if withinEpoch cs then SetPiCurrent vals else id) (priorStates (settled cs)) /\
  sharing cs' = sharing cs /\ coherent cs'.
Proof.
  intros Hc Hi. destruct (statistics_ok cs Hc Hi) as (vals & l & m & -> & A & _). exists vals. eexists. split; [done|].
  assert (s_Pi (posteriorStates (settled cs)) = s_Pi (posteriorStates cs) /\ sharing (settled cs) = sharing cs) as [Hpi Hsh].
  { unfold settled, nulled. destruct (ex_Guarantees _); [done|]. by destruct (lastInEpoch _). }
  split_and!; [done|done|done| |by destruct (withinEpoch cs)|by destruct (withinEpoch cs)|].
  - transitivity (SetPi (s_Pi (posteriorStates cs)) (posteriorStates (settled cs))); [by destruct (withinEpoch cs)|].
    rewrite <- Hpi. by destruct (posteriorStates (settled cs)).
  - pose proof (settled_coherent cs Hc) as Hs. rewrite coherent_slots in *. by destruct (withinEpoch cs).
Qed.

(** The records of cores and services (13.8 to 13.16). The posterior
    state has a record for each core: the sums over the results of the last
    report guaranteed for it, each on its machine integer, the size of its
    newly available report with its segments, and the number of assurances
    with its bit; and a record for exactly the services with a result, a
    preimage or an accumulation in the block, with the sums over its
    results, the number and size of its preimages, and what it
    accumulated. *)
Theorem core_service_statistics cs cs' : coherent cs -> statistics_input cs -> UpdateValidatorActivityStatistics spec cs = Ret cs' ->
  lenOf (st_Cores (s_Pi (posteriorStates cs'))) = CoresCount spec /\
  (forall c, 0 <= c < CoresCount spec -> zlookup (st_Cores (s_Pi (posteriorStates cs'))) c =
    Some (core_record (PresentWorkReports (intermediateStates cs)) (AvailableWorkReports (intermediateStates cs))
      (ex_Assurances (extrinsicOf cs)) c)) /\
  (forall s, st_Services (s_Pi (posteriorStates cs')) !! s =
    if decide (active cs (extrinsicOf cs) s) then Some (service_record cs (extrinsicOf cs) s) else None).
Proof.
  intros Hco Hi E. destruct (statistics_ok cs Hco Hi) as (vals & l & m & E' & _ & Hl & Hc & Hm). rewrite E' in E. injection E as <-. done.
Qed.

End Statistics.
