(* ===== verification/StateSer.v ===== *)
(** * State serialization

    src/internal/utilities/merklization: the serialization of the state to
    key-value pairs (state_serialize.go, D.2), and back
    (state_deserialize.go, parse_state_key_vals.go).

    The accounts are encoded by concurrent goroutines, each over Go maps:
    [arrange] is the order in which their pairs arrive. The pairs are then
    sorted by their keys. A failed encoding is a nil value. *)

From stdpp Require Import sorting.
From S2P Require Import Prelude Words Types Config Codec Encode Decoders Trie Store.
Local Open Scope Z_scope.

(** ** Keys of the components *)

Definition encodeAlphaKey : Bytes := StateWrapper_StateKeyConstruct 1.
Definition encodeVarphiKey : Bytes := StateWrapper_StateKeyConstruct 2.
Definition encodeBetaKey : Bytes := StateWrapper_StateKeyConstruct 3.
Definition encodeGammaKey : Bytes := StateWrapper_StateKeyConstruct 4.
Definition encodePsiKey : Bytes := StateWrapper_StateKeyConstruct 5.
Definition encodeEtaKey : Bytes := StateWrapper_StateKeyConstruct 6.
Definition encodeIotaKey : Bytes := StateWrapper_StateKeyConstruct 7.
Definition encodeKappaKey : Bytes := StateWrapper_StateKeyConstruct 8.
Definition encodeLambdaKey : Bytes := StateWrapper_StateKeyConstruct 9.
Definition encodeRhoKey : Bytes := StateWrapper_StateKeyConstruct 10.
Definition encodeTauKey : Bytes := StateWrapper_StateKeyConstruct 11.
Definition encodeChiKey : Bytes := StateWrapper_StateKeyConstruct 12.
Definition encodePiKey : Bytes := StateWrapper_StateKeyConstruct 13.
Definition encodeVarthetaKey : Bytes := StateWrapper_StateKeyConstruct 14.
Definition encodeXiKey : Bytes := StateWrapper_StateKeyConstruct 15.
Definition encodeThetaKey : Bytes := StateWrapper_StateKeyConstruct 16.

(** [if err != nil { return nil }] *)
Definition valueOf (w : W) : go Bytes := o ← w; Ret (default [] o).

(** The version of the service information. *)
Definition ServiceInfoVersion : Z := 0.

Definition zeroServiceInfo : ServiceInfo := MkServiceInfo 0 (replicate 32 0) 0 0 0 0 0 0 0 0 0.

(** The account that the decoders make for a service they meet first. *)
Definition newServiceAccount : ServiceAccount := MkServiceAccount zeroServiceInfo ∅ ∅ ∅.

Definition accountAt (state : State) (serviceID : Z) : ServiceAccount := default newServiceAccount (s_Delta state !! serviceID).

Definition updateServiceInfo (state : State) (serviceID : Z) (serviceInfo : ServiceInfo) : State :=
  let a := accountAt state serviceID in
  SetDelta (<[serviceID := MkServiceAccount serviceInfo (ac_PreimageLookup a) (ac_LookupDict a) (ac_StorageDict a)]> (s_Delta state)) state.

Definition updatePreimage (state : State) (serviceID : Z) (preimageKey preimageValue : Bytes) : State :=
  let a := accountAt state serviceID in
  SetDelta (<[serviceID := MkServiceAccount (ac_ServiceInfo a) (<[preimageKey := preimageValue]> (ac_PreimageLookup a))
    (ac_LookupDict a) (ac_StorageDict a)]> (s_Delta state)) state.

Definition updateLookup (state : State) (serviceID : Z) (lookupKey : LookupMetaMapkey) (lookupValue : list Z) : State :=
  let a := accountAt state serviceID in
  SetDelta (<[serviceID := MkServiceAccount (ac_ServiceInfo a) (ac_PreimageLookup a) (<[lookupKey := lookupValue]> (ac_LookupDict a))
    (ac_StorageDict a)]> (s_Delta state)) state.

(** [0xFF] and zeros, but for the bytes of the service. *)
Definition IsServiceInfoKey (stateKey : Bytes) : bool :=
  match stateKey with
  | b :: l => (b =? 0xFF) && forallb (fun p => bool_decide (fst p ∈ [1; 3; 5; 7]) || (snd p =? 0)) (zip (seqZ 1 30) l)
  | [] => false
  end.

(** ** Differences *)

Record StateKeyValDiff := MkStateKeyValDiff { df_Key : Bytes; df_ExpectedValue : option Bytes; df_ActualValue : option Bytes }.

Definition keyValMap (l : list StateKeyVal) : gmap Bytes Bytes := foldl (fun m kv => <[Key kv := Value kv]> m) ∅ l.

(** In the order of the maps. *)
Definition GetStateKeyValsDiff (a b : list StateKeyVal) : list StateKeyValDiff :=
  let aMap := keyValMap a in
  let bMap := keyValMap b in
  omap (fun '(key, valueA) =>
    match bMap !! key with
    | Some valueB => if bool_decide (valueA = valueB) then None else Some (MkStateKeyValDiff key (Some valueA) (Some valueB))
    | None => Some (MkStateKeyValDiff key (Some valueA) None)
    end) (map_to_list aMap) ++
  ((fun '(key, valueB) => MkStateKeyValDiff key None (Some valueB)) <$> map_to_list (bMap ∖ aMap)).

(** A parser has the state so far, and the pairs not matched yet. *)
Abbreviation Parsed := (State * gmap Bytes Bytes)%type.

Section StateSer.
Context `{HashFunctions} (makeOK : Z -> bool) (spec : ChainSpec).

(** ** Values of the components *)

Definition encodeAlpha (alpha : list AuthPool) : go Bytes := valueOf (enc_AuthPools spec alpha).
Definition encodeVarphi (varphi : list (list Bytes)) : go Bytes := valueOf (enc_AuthQueues spec varphi).
Definition encodeBeta (beta : RecentBlocks) : go Bytes := valueOf (enc_RecentBlocks beta).
Definition encodeGamma (gamma : SafroleState) : go Bytes := valueOf (enc_SafroleState spec gamma).
Definition encodePsi (psi : DisputesRecords) : go Bytes := valueOf (enc_DisputesRecords psi).
Definition encodeEta (eta : list Bytes) : go Bytes := valueOf (enc_EntropyBuffer eta).
Definition encodeIota (iota : list Validator) : go Bytes := valueOf (enc_ValidatorsData spec iota).
Definition encodeKappa (kappa : list Validator) : go Bytes := valueOf (enc_ValidatorsData spec kappa).
Definition encodeLambda (lambda : list Validator) : go Bytes := valueOf (enc_ValidatorsData spec lambda).
Definition encodeRho (rho : list (option AvailabilityAssignment)) : go Bytes := valueOf (enc_AvailabilityAssignments spec rho).
Definition encodeTau (tau : Z) : go Bytes := valueOf (enc_TimeSlot tau).
Definition encodeChi (chi : Privileges) : go Bytes := valueOf (enc_Privileges chi).
Definition encodePi (pi : Statistics) : go Bytes := valueOf (enc_Statistics spec pi).
Definition encodeVartheta (vartheta : list ReadyQueueItem) : go Bytes := valueOf (enc_ReadyQueue spec vartheta).
Definition encodeXi (xi : list AccumulatedQueueItem) : go Bytes := valueOf (enc_AccumulatedQueue spec xi).
Definition encodeTheta (theta : list AccumulatedServiceHash) : go Bytes := valueOf (enc_LastAccOut theta).

(** The service information, at the version of the node. *)
Definition encodeDelta1 (serviceAccount : ServiceAccount) : go Bytes :=
  let s := ac_ServiceInfo serviceAccount in
  valueOf (cat [enc_U8 ServiceInfoVersion; enc_OpaqueHash (si_CodeHash s); enc_U64 (si_Balance s); enc_Gas (si_MinItemGas s);
    enc_Gas (si_MinMemoGas s); enc_U64 (si_Bytes s); enc_U64 (si_DepositOffset s); enc_U32 (si_Items s);
    enc_TimeSlot (si_CreationSlot s); enc_TimeSlot (si_LastAccumulationSlot s); enc_ServiceID (si_ParentService s)]).

(** ** Accounts *)

Definition encodeDelta1KeyVal (id : Z) (delta : ServiceAccount) : go StateKeyVal :=
  v ← encodeDelta1 delta; Ret (MkKV (StateServiceWrapper_StateKeyConstruct 255 id) v).

Definition delta2Prefix : Bytes := [0xFF; 0xFF; 0xFF; 0xFF].
Definition delta3Prefix : Bytes := [0xFE; 0xFF; 0xFF; 0xFF].

Definition encodeDelta2KeyVal (id : Z) (key value : Bytes) : go StateKeyVal :=
  k ← ServiceWrapper_StateKeyConstruct id (delta2Prefix ++ key); Ret (MkKV k value).

Definition WrapEncodeDelta2KeyVal (id : Z) (key value : Bytes) : go StateKeyVal := encodeDelta2KeyVal id key value.

Definition encodeDelta3KeyVal (id : Z) (key value : Bytes) : go StateKeyVal :=
  k ← ServiceWrapper_StateKeyConstruct id (delta3Prefix ++ key); Ret (MkKV k value).

(** The length in four bytes, and the hash. *)
Definition EncodeDelta4Key (id : Z) (key : LookupMetaMapkey) : go Bytes :=
  let v := u32 (lk_Length key) in
  ServiceWrapper_StateKeyConstruct id ([u8 v; u8 (shr v 8); u8 (shr v 16); u8 (shr v 24)] ++ lk_Hash key).

Definition EncodeDelta4KeyVal (id : Z) (key : LookupMetaMapkey) (value : list Z) : go StateKeyVal :=
  k ← EncodeDelta4Key id key;
  Ret (MkKV k (SerializeU64 (u64 (lenOf value)) ++ concat ((fun timeSlot => SerializeFixedLength (u64 timeSlot) 4) <$> value))).

(** The pairs of one account. *)
Definition accountKeyVals (id : Z) (account : ServiceAccount) : go (list StateKeyVal) :=
  d1 ← encodeDelta1KeyVal id account;
  d2 ← mapM (fun p => encodeDelta2KeyVal id (fst p) (snd p)) (map_to_list (ac_StorageDict account));
  d3 ← mapM (fun p => encodeDelta3KeyVal id (fst p) (snd p)) (map_to_list (ac_PreimageLookup account));
  d4 ← mapM (fun p => EncodeDelta4KeyVal id (fst p) (snd p)) (map_to_list (ac_LookupDict account));
  Ret (d1 :: d2 ++ d3 ++ d4).

(** The pairs of the sixteen components. *)
Definition componentKeyVals (state : State) : go (list StateKeyVal) :=
  v1 ← encodeAlpha (s_Alpha state); v2 ← encodeVarphi (s_Varphi state); v3 ← encodeBeta (s_Beta state);
  v4 ← encodeGamma (s_Gamma state); v5 ← encodePsi (s_Psi state); v6 ← encodeEta (s_Eta state);
  v7 ← encodeIota (s_Iota state); v8 ← encodeKappa (s_Kappa state); v9 ← encodeLambda (s_Lambda state);
  v10 ← encodeRho (s_Rho state); v11 ← encodeTau (s_Tau state); v12 ← encodeChi (s_Chi state);
  v13 ← encodePi (s_Pi state); v14 ← encodeVartheta (s_Vartheta state); v15 ← encodeXi (s_Xi state);
  v16 ← encodeTheta (s_Theta state);
  Ret [MkKV encodeAlphaKey v1; MkKV encodeVarphiKey v2; MkKV encodeBetaKey v3; MkKV encodeGammaKey v4; MkKV encodePsiKey v5;
       MkKV encodeEtaKey v6; MkKV encodeIotaKey v7; MkKV encodeKappaKey v8; MkKV encodeLambdaKey v9; MkKV encodeRhoKey v10;
       MkKV encodeTauKey v11; MkKV encodeChiKey v12; MkKV encodePiKey v13; MkKV encodeVarthetaKey v14; MkKV encodeXiKey v15;
       MkKV encodeThetaKey v16].

Definition entryLe (p q : StateKeyVal) : Prop := bytesLe (Key p) (Key q).
#[export] Instance entryLe_dec : RelDecision entryLe.
Proof. intros p q. unfold entryLe. apply _. Defined.

Definition StateEncoder (arrange : list StateKeyVal -> list StateKeyVal) (state : State) : go (list StateKeyVal) :=
  encoded ← componentKeyVals state;
  deltas ← mapM (fun p => accountKeyVals (fst p) (snd p)) (map_to_list (s_Delta state));
  Ret (merge_sort entryLe (encoded ++ arrange (concat deltas))).

(** ** Decoding *)

(** [decoder.Decode(encodedValue, &output)]: bytes left over are ignored. *)
Definition decodeValue {A} (d : D A) (encodedValue : Bytes) : go (option A) :=
  match d encodedValue with Ret o => Ret (fst <$> o) | Crash => Crash end.

Definition decodeAlpha : Bytes -> go (option (list AuthPool)) := decodeValue (dec_AuthPools makeOK spec).
Definition decodeVarphi : Bytes -> go (option (list (list Bytes))) := decodeValue (dec_AuthQueues makeOK spec).
Definition decodeBeta : Bytes -> go (option RecentBlocks) := decodeValue (dec_RecentBlocks makeOK).
Definition decodeGamma : Bytes -> go (option SafroleState) := decodeValue (dec_SafroleState makeOK spec).
Definition decodePsi : Bytes -> go (option DisputesRecords) := decodeValue (dec_DisputesRecords makeOK).
Definition decodeEta : Bytes -> go (option (list Bytes)) := decodeValue dec_EntropyBuffer.
Definition decodeIota : Bytes -> go (option (list Validator)) := decodeValue (dec_ValidatorsData makeOK spec).
Definition decodeKappa : Bytes -> go (option (list Validator)) := decodeValue (dec_ValidatorsData makeOK spec).
Definition decodeLambda : Bytes -> go (option (list Validator)) := decodeValue (dec_ValidatorsData makeOK spec).
Definition decodeRho : Bytes -> go (option (list (option AvailabilityAssignment))) := decodeValue (dec_AvailabilityAssignments makeOK spec).
Definition decodeTau : Bytes -> go (option Z) := decodeValue dec_TimeSlot.
Definition decodeChi : Bytes -> go (option Privileges) := decodeValue (dec_Privileges makeOK spec).
Definition decodePi : Bytes -> go (option Statistics) := decodeValue (dec_Statistics makeOK spec).
Definition decodeVartheta : Bytes -> go (option (list ReadyQueueItem)) := decodeValue (dec_ReadyQueue makeOK spec).
Definition decodeXi : Bytes -> go (option (list AccumulatedQueueItem)) := decodeValue (dec_AccumulatedQueue makeOK spec).
Definition decodeTheta : Bytes -> go (option (list AccumulatedServiceHash)) := decodeValue (dec_LastAccOut makeOK).
Definition DecodeServiceInfo : Bytes -> go (option ServiceInfo) := decodeValue dec_ServiceInfo.

(** [if err != nil { return nil, err }] *)
Definition andThen {A B} (f : A -> B) (m : go (option A)) : go (option B) := o ← m; Ret (option_map f o).

(** What a key decodes to: an [interface{}]. *)
Inductive StateComponent :=
  | CAlpha (v : list AuthPool) | CVarphi (v : list (list Bytes)) | CBeta (v : RecentBlocks) | CGamma (v : SafroleState)
  | CPsi (v : DisputesRecords) | CEta (v : list Bytes) | CIota (v : list Validator) | CKappa (v : list Validator)
  | CLambda (v : list Validator) | CRho (v : list (option AvailabilityAssignment)) | CTau (v : Z) | CChi (v : Privileges)
  | CPi (v : Statistics) | CVartheta (v : list ReadyQueueItem) | CXi (v : list AccumulatedQueueItem)
  | CTheta (v : list AccumulatedServiceHash) | CDelta (v : ServiceAccountState).

(** The component whose key this is: the cases of the switch, in order. *)
Definition componentIndex (stateKey : Bytes) : option Z := list_find (fun i => stateKey = C i) (seqZ 1 16) ≫= fun p => Some (snd p).

(** The value of the component with index [i]. *)
Definition decodeComponent (i : Z) (stateVal : Bytes) : go (option StateComponent) :=
  match i with
  | 1 => andThen CAlpha (decodeAlpha stateVal)
  | 2 => andThen CVarphi (decodeVarphi stateVal)
  | 3 => andThen CBeta (decodeBeta stateVal)
  | 4 => andThen CGamma (decodeGamma stateVal)
  | 5 => andThen CPsi (decodePsi stateVal)
  | 6 => andThen CEta (decodeEta stateVal)
  | 7 => andThen CIota (decodeIota stateVal)
  | 8 => andThen CKappa (decodeKappa stateVal)
  | 9 => andThen CLambda (decodeLambda stateVal)
  | 10 => andThen CRho (decodeRho stateVal)
  | 11 => andThen CTau (decodeTau stateVal)
  | 12 => andThen CChi (decodeChi stateVal)
  | 13 => andThen CPi (decodePi stateVal)
  | 14 => andThen CVartheta (decodeVartheta stateVal)
  | 15 => andThen CXi (decodeXi stateVal)
  | _ => andThen CTheta (decodeTheta stateVal)
  end.

Definition SingleKeyValToState (stateKey stateVal : Bytes) : go (option StateComponent) :=
  match componentIndex stateKey with
  | Some i => decodeComponent i stateVal
  | None =>
      if IsServiceInfoKey stateKey then
        serviceID ← DecodeServiceIDFromType2 stateKey;
        andThen (fun info => CDelta {[ serviceID := MkServiceAccount info ∅ ∅ ∅ ]}) (DecodeServiceInfo stateVal)
      else Ret None
  end.

(** ** The state of key-value pairs *)

Definition IsPreimage (stateKey stateVal : Bytes) : go bool :=
  serviceID ← DecodeServiceIDFromType3 stateKey;
  kv ← encodeDelta3KeyVal serviceID (Blake2bHash stateVal) stateVal;
  Ret (bool_decide (Key kv = stateKey)).

Definition IsLookup (stateKey stateVal : Bytes) : go bool :=
  serviceID ← DecodeServiceIDFromType3 stateKey;
  kv ← EncodeDelta4KeyVal serviceID (MkLookupMetaMapkey (Blake2bHash stateVal) (u32 (lenOf stateVal))) [];
  Ret (bool_decide (Key kv = stateKey)).

(** [state.Alpha = alpha], and so on. *)
Definition setComponent (c : StateComponent) (state : State) : State :=
  match c with
  | CAlpha v => SetAlpha v state | CVarphi v => SetVarphi v state | CBeta v => SetBeta v state | CGamma v => SetGamma v state
  | CPsi v => SetPsi v state | CEta v => SetEta v state | CIota v => SetIota v state | CKappa v => SetKappa v state
  | CLambda v => SetLambda v state | CRho v => SetRho v state | CTau v => SetTau v state | CChi v => SetChi v state
  | CPi v => SetPi v state | CVartheta v => SetVartheta v state | CXi v => SetXi v state | CTheta v => SetTheta v state
  | CDelta v => SetDelta v state
  end.

(** The default case: the key of a service, a preimage, or unknown yet. *)
Definition parseServiceKeyVal (stateKey stateVal : Bytes) (state : State) (unmatched : gmap Bytes Bytes) : go (option Parsed) :=
  if IsServiceInfoKey stateKey then
    serviceID ← DecodeServiceIDFromType2 stateKey;
    andThen (fun info => (updateServiceInfo state serviceID info, delete stateKey unmatched)) (DecodeServiceInfo stateVal)
  else
    serviceID ← DecodeServiceIDFromType3 stateKey;
    isPreimage ← IsPreimage stateKey stateVal;
    if isPreimage : bool then
      Ret (Some (updatePreimage state serviceID (Blake2bHash stateVal) stateVal, delete stateKey unmatched))
    else Ret (Some (state, unmatched)).

Definition parseKeyVal (keyVal : StateKeyVal) (p : Parsed) : go (option Parsed) :=
  let '(state, unmatched) := p in
  let stateKey := Key keyVal in
  let stateVal := Value keyVal in
  let unmatched := <[stateKey := stateVal]> unmatched in
  match componentIndex stateKey with
  | Some i =>
      andThen (fun c => (setComponent c state, delete stateKey unmatched)) (decodeComponent i stateVal)
  | None => parseServiceKeyVal stateKey stateVal state unmatched
  end.

(** [for _, x := range l], stopping at an error. *)
Fixpoint parseLoop {A} (f : A -> Parsed -> go (option Parsed)) (l : list A) (p : Parsed) : go (option Parsed) :=
  match l with
  | [] => Ret (Some p)
  | x :: l =>
      o ← f x p;
      match o with
      | Some p => parseLoop f l p
      | None => Ret None
      end
  end.

(** The lookup entry of a preimage of a service. *)
Definition parseLookup (x : Z * (Bytes * Bytes)) (p : Parsed) : go (option Parsed) :=
  let '(serviceID, (preimageKey, preimageValue)) := x in
  let '(state, unmatched) := p in
  let lookupKey := MkLookupMetaMapkey preimageKey (u32 (lenOf preimageValue)) in
  kv ← EncodeDelta4KeyVal serviceID lookupKey [];
  match unmatched !! Key kv with
  | Some lookupStateVal =>
      andThen (fun timeSlotSet => (updateLookup state serviceID lookupKey timeSlotSet, delete (Key kv) unmatched))
        (decodeValue (dec_TimeSlotSet makeOK) lookupStateVal)
  | None => Ret (Some p)
  end.

(** The zero value of [types.State] with an empty map of accounts. *)
Definition zeroState : State :=
  MkState [] [] (MkRecentBlocks [] []) zeroSafrole (MkDisputesRecords [] [] [] []) (replicate 4 (zeroArray 32)) [] [] []
    [] 0 zeroPrivileges (MkStatistics [] [] [] ∅) [] [] [] ∅.

(** The preimages of all the accounts, in the order of the maps. *)
Definition allPreimages (state : State) : list (Z * (Bytes * Bytes)) :=
  '(serviceID, serviceAccount) ← map_to_list (s_Delta state);
  (fun p => (serviceID, p)) <$> map_to_list (ac_PreimageLookup serviceAccount).

Definition StateKeyValsToState (stateKeyVals : list StateKeyVal) : go (option (State * list StateKeyVal)) :=
  o ← parseLoop parseKeyVal stateKeyVals (zeroState, ∅);
  match o with
  | None => Ret None
  | Some (state, unmatched) =>
      andThen (fun '(state, unmatched) => (state, (fun '(k, v) => MkKV k v) <$> map_to_list unmatched))
        (parseLoop parseLookup (allPreimages state) (state, unmatched))
  end.

End StateSer.
