(* ===== verification/StateSerSpec.v ===== *)
(** * Correctness of the state serialization

    A serialized state is parsed to the same components; what the parser
    cannot tell (the storage, and the requests of preimages that are not
    there) stays in the list of unmatched pairs. *)

From stdpp Require Import sorting.
From S2P Require Import Prelude Words Types Config Codec CodecSpec Encode Decoders Roundtrip ProtocolWf ProtocolSpec.
From S2P Require Import Trie TrieSpec Store StoreLaws StateSer.
Local Open Scope Z_scope.

(** ** Values *)

Section Values.
Context `{HashFunctions} (makeOK : Z -> bool) (spec : ChainSpec).

(** The components of a state fit their encodings. *)
Definition ok_components (s : State) : Prop :=
  exactly makeOK (CoresCount spec) (ok_AuthPool makeOK) (s_Alpha s) /\
  exactly makeOK (CoresCount spec) (exactly makeOK AuthQueueSize (arr 32)) (s_Varphi s) /\
  ok_RecentBlocks makeOK (s_Beta s) /\ ok_SafroleState makeOK spec (s_Gamma s) /\ ok_DisputesRecords makeOK (s_Psi s) /\
  sized 4 (arr 32) (s_Eta s) /\ ok_ValidatorsData makeOK spec (s_Iota s) /\ ok_ValidatorsData makeOK spec (s_Kappa s) /\
  ok_ValidatorsData makeOK spec (s_Lambda s) /\
  sized (CoresCount spec) (from_option (ok_AvailabilityAssignment makeOK) True) (s_Rho s) /\
  uint 32 (s_Tau s) /\ ok_Privileges makeOK spec (s_Chi s) /\ ok_Statistics makeOK spec (s_Pi s) /\
  exactly makeOK (EpochLength spec) (slice makeOK (ok_ReadyRecord makeOK)) (s_Vartheta s) /\
  exactly makeOK (EpochLength spec) (slice makeOK (arr 32)) (s_Xi s) /\
  slice makeOK ok_AccumulatedServiceHash (s_Theta s).
#[export] Instance ok_components_dec (s : State) : Decision (ok_components s).
Proof. unfold ok_components. apply _. Defined.

(** A value that is written by [m] and read back by [d]. *)
Definition value_ok {A} (m : go Bytes) (d : Bytes -> go (option A)) (y : A) : Prop :=
  exists v, m = Ret v /\ bytes_ok v /\ d v = Ret (Some y).

Lemma codes_value {A} (w : W) (d : D A) y : codes w d y -> value_ok (valueOf w) (decodeValue d) y.
Proof.
  intros (bs & -> & Hb & Hd). exists bs. split_and!; [done|done|]. specialize (Hd [] (List.Forall_nil _)).
  rewrite app_nil_r in Hd. unfold decodeValue. by rewrite Hd.
Qed.

#[local] Hint Resolve rt_AuthPool rt_RecentBlocks rt_SafroleState rt_DisputesRecords rt_Validator rt_AvailabilityAssignment
  rt_Privileges rt_Statistics rt_ReadyRecord rt_AccumulatedServiceHash rt_ServiceInfo codes_exactly_guarded codes_sized_guarded
  codes_exactly codes_sized codes_slice codes_opt : codec.
#[local] Hint Extern 2 (codes (put _) (readFull _) _) => apply codes_full : codec.
#[local] Hint Extern 2 (codes (put (EncodeUintWithLength _ _)) (readLE _) _) => apply codes_LE : codec.

Lemma components_ok s : ok_components s ->
  value_ok (encodeAlpha spec (s_Alpha s)) (decodeAlpha makeOK spec) (s_Alpha s) /\
  value_ok (encodeVarphi spec (s_Varphi s)) (decodeVarphi makeOK spec) (s_Varphi s) /\
  value_ok (encodeBeta (s_Beta s)) (decodeBeta makeOK) (s_Beta s) /\
  value_ok (encodeGamma spec (s_Gamma s)) (decodeGamma makeOK spec) (s_Gamma s) /\
  value_ok (encodePsi (s_Psi s)) (decodePsi makeOK) (s_Psi s) /\
  value_ok (encodeEta (s_Eta s)) decodeEta (s_Eta s) /\
  value_ok (encodeIota spec (s_Iota s)) (decodeIota makeOK spec) (s_Iota s) /\
  value_ok (encodeKappa spec (s_Kappa s)) (decodeKappa makeOK spec) (s_Kappa s) /\
  value_ok (encodeLambda spec (s_Lambda s)) (decodeLambda makeOK spec) (s_Lambda s) /\
  value_ok (encodeRho spec (s_Rho s)) (decodeRho makeOK spec) (s_Rho s) /\
  value_ok (encodeTau (s_Tau s)) decodeTau (s_Tau s) /\
  value_ok (encodeChi (s_Chi s)) (decodeChi makeOK spec) (s_Chi s) /\
  value_ok (encodePi spec (s_Pi s)) (decodePi makeOK spec) (s_Pi s) /\
  value_ok (encodeVartheta spec (s_Vartheta s)) (decodeVartheta makeOK spec) (s_Vartheta s) /\
  value_ok (encodeXi spec (s_Xi s)) (decodeXi makeOK spec) (s_Xi s) /\
  value_ok (encodeTheta (s_Theta s)) (decodeTheta makeOK) (s_Theta s).
Proof.
  intros Hs. hnf in Hs. unfold ok_ValidatorsData in Hs. destruct_and?. split_and!; apply codes_value; eauto 4 with codec.
Qed.

End Values.

(** ** The pairs of a state *)

(** The result of a computation that does not panic. *)
Definition ret {A} (d : A) (m : go A) : A := match m with Ret a => a | Crash => d end.

Lemma mapM_ok {A B} (f : A -> go B) (g : A -> B) l : Forall (fun x => f x = Ret (g x)) l -> mapM f l = Ret (g <$> l).
Proof.
  induction 1 as [|x l Hx _ IH]; [done|]. cbn [mapM fmap list_fmap]. change (mapM f l) with (mapM (M := go) f l).
  rewrite Hx, go_bind_ret, IH. done.
Qed.

Lemma andThen_ok {A B} (f : A -> B) m y : m = Ret (Some y) -> andThen f m = Ret (Some (f y)).
Proof. by intros ->. Qed.

Section Pairs.
Context `{HashLaws} (makeOK : Z -> bool) (spec : ChainSpec).

(** The value of a component, by its index. *)
Definition componentAt (s : State) (i : Z) : StateComponent :=
  match i with
  | 1 => CAlpha (s_Alpha s) | 2 => CVarphi (s_Varphi s) | 3 => CBeta (s_Beta s) | 4 => CGamma (s_Gamma s)
  | 5 => CPsi (s_Psi s) | 6 => CEta (s_Eta s) | 7 => CIota (s_Iota s) | 8 => CKappa (s_Kappa s) | 9 => CLambda (s_Lambda s)
  | 10 => CRho (s_Rho s) | 11 => CTau (s_Tau s) | 12 => CChi (s_Chi s) | 13 => CPi (s_Pi s) | 14 => CVartheta (s_Vartheta s)
  | 15 => CXi (s_Xi s) | _ => CTheta (s_Theta s)
  end.

Definition componentKVs (s : State) : list StateKeyVal := ret [] (componentKeyVals spec s).

Definition typeKey (id : Z) (h : Bytes) : Bytes := ret [] (ServiceWrapper_StateKeyConstruct id h).
Definition infoKV (id : Z) (a : ServiceAccount) : StateKeyVal := MkKV (StateServiceWrapper_StateKeyConstruct 255 id) (ret [] (encodeDelta1 a)).
Definition storageKV (id : Z) (p : Bytes * Bytes) : StateKeyVal := MkKV (typeKey id (delta2Prefix ++ fst p)) (snd p).
Definition preimageKV (id : Z) (p : Bytes * Bytes) : StateKeyVal := MkKV (typeKey id (delta3Prefix ++ fst p)) (snd p).
Definition lookupKey (id : Z) (k : LookupMetaMapkey) : Bytes := ret [] (EncodeDelta4Key id k).
Definition lookupKV (id : Z) (p : LookupMetaMapkey * list Z) : StateKeyVal :=
  ret (MkKV [] []) (EncodeDelta4KeyVal id (fst p) (snd p)).

Definition storageKVs (id : Z) (a : ServiceAccount) : list StateKeyVal := storageKV id <$> map_to_list (ac_StorageDict a).
Definition preimageKVs (id : Z) (a : ServiceAccount) : list StateKeyVal := preimageKV id <$> map_to_list (ac_PreimageLookup a).
Definition lookupKVs (id : Z) (a : ServiceAccount) : list StateKeyVal := lookupKV id <$> map_to_list (ac_LookupDict a).
Definition accountKVs (id : Z) (a : ServiceAccount) : list StateKeyVal :=
  infoKV id a :: storageKVs id a ++ preimageKVs id a ++ lookupKVs id a.
Definition accountsKVs (f : Z -> ServiceAccount -> list StateKeyVal) (s : State) : list StateKeyVal :=
  concat ((fun p => f (fst p) (snd p)) <$> map_to_list (s_Delta s)).

(** The pairs of a state, in some order. *)
Definition stateKVs (s : State) : list StateKeyVal := componentKVs s ++ accountsKVs accountKVs s.

(** An account: its preimages are found by their hashes, and its information
    has the version of the node. *)
Definition ok_account (id : Z) (a : ServiceAccount) : Prop :=
  uint 32 id /\ ok_ServiceInfo (ac_ServiceInfo a) /\ si_Version (ac_ServiceInfo a) = ServiceInfoVersion /\
  map_Forall (fun h b => h = Blake2bHash b) (ac_PreimageLookup a) /\
  map_Forall (fun _ ts => slice makeOK (uint 32) ts) (ac_LookupDict a).
#[export] Instance ok_account_dec id a : Decision (ok_account id a).
Proof. unfold ok_account. apply _. Defined.

Definition ok_accounts (s : State) : Prop := map_Forall ok_account (s_Delta s).

Lemma typeKey_ok id h : uint 32 id -> ServiceWrapper_StateKeyConstruct id h = Ret (typeKey id h) /\
  length (typeKey id h) = 31%nat /\ DecodeServiceIDFromType3 (typeKey id h) = Ret id.
Proof. intros Hi. unfold typeKey. destruct (ServiceWrapper_key id h Hi) as (k & -> & Hl & Hd). done. Qed.

Lemma storageKV_ok id p : uint 32 id -> encodeDelta2KeyVal id (fst p) (snd p) = Ret (storageKV id p).
Proof. intros Hi. unfold encodeDelta2KeyVal. by rewrite (proj1 (typeKey_ok _ _ Hi)). Qed.

Lemma preimageKV_ok id h b : uint 32 id -> encodeDelta3KeyVal id h b = Ret (preimageKV id (h, b)).
Proof. intros Hi. unfold encodeDelta3KeyVal. by rewrite (proj1 (typeKey_ok _ _ Hi)). Qed.

Lemma lookupKV_ok id k ts : uint 32 id -> EncodeDelta4KeyVal id k ts = Ret (lookupKV id (k, ts)) /\ Key (lookupKV id (k, ts)) = lookupKey id k.
Proof.
  intros Hi. unfold lookupKV, lookupKey, EncodeDelta4KeyVal, EncodeDelta4Key. cbv zeta. cbn [fst snd].
  by rewrite (proj1 (typeKey_ok _ _ Hi)).
Qed.

(** The value of a request is read back. *)
Lemma lookup_value id k ts : uint 32 id -> slice makeOK (uint 32) ts ->
  decodeValue (dec_TimeSlotSet makeOK) (Value (lookupKV id (k, ts))) = Ret (Some ts).
Proof.
  intros Hi Hts. destruct (codes_slice makeOK enc_TimeSlot dec_TimeSlot (uint 32) ts Hts) as (bs & E & _ & Hd).
  { intros x Hx. by apply codes_LE. }
  specialize (Hd [] (List.Forall_nil _)). rewrite app_nil_r in Hd. unfold decodeValue, dec_TimeSlotSet.
  assert (Value (lookupKV id (k, ts)) = bs) as ->; [|by rewrite Hd].
  unfold lookupKV, EncodeDelta4KeyVal, EncodeDelta4Key. cbv zeta. cbn [fst snd]. rewrite (proj1 (typeKey_ok _ _ Hi)). cbn [mbind go_bind ret Value fst snd].
  destruct Hts as [ [Hl _] Hts]. assert (u64 (lenOf ts) = lenOf ts) as -> by (apply Z.mod_small; unfold lenOf in *; lia).
  rewrite SerializeU64_ok by (unfold lenOf in *; lia).
  assert (each enc_TimeSlot ts = put (concat ((fun t => SerializeFixedLength (u64 t) 4) <$> ts))) as He.
  { clear E Hl Hd. induction Hts as [|t ts Ht Hts IH]; [done|]. unfold each in *. cbn [fmap list_fmap cat foldr concat].
    unfold cat in IH. rewrite IH. unfold enc_TimeSlot, SerializeFixedLength, EncodeUintWithLength. cbn.
    do 3 f_equal. unfold u64. by rewrite Z.mod_small by (unfold uint in Ht; lia). }
  unfold sequence in E. rewrite He in E. cbn in E. rewrite EncodeUint_ok, app_nil_r in E by (unfold lenOf in *; lia). by injection E.
Qed.

Lemma info_value id a : ok_account id a ->
  encodeDelta1KeyVal id a = Ret (infoKV id a) /\ DecodeServiceInfo (Value (infoKV id a)) = Ret (Some (ac_ServiceInfo a)).
Proof.
  intros (_ & Ho & Hv & _). destruct (codes_value _ _ _ (rt_ServiceInfo _ Ho)) as (v & E & _ & Hd).
  assert (encodeDelta1 a = Ret v) as Ev.
  { rewrite <- E. unfold encodeDelta1, enc_ServiceInfo. by rewrite Hv. }
  unfold encodeDelta1KeyVal, infoKV. by rewrite Ev.
Qed.

Lemma accountKeyVals_ok id a : ok_account id a -> accountKeyVals id a = Ret (accountKVs id a).
Proof.
  intros Ha. unfold accountKeyVals, accountKVs. rewrite (proj1 (info_value id a Ha)), go_bind_ret.
  destruct Ha as (Hi & _).
  rewrite (mapM_ok (fun p => encodeDelta2KeyVal id (fst p) (snd p)) (storageKV id)), go_bind_ret
    by (apply Forall_forall; intros p _; by apply storageKV_ok).
  rewrite (mapM_ok (fun p => encodeDelta3KeyVal id (fst p) (snd p)) (preimageKV id)), go_bind_ret
    by (apply Forall_forall; intros [h b] _; by apply preimageKV_ok).
  rewrite (mapM_ok (fun p => EncodeDelta4KeyVal id (fst p) (snd p)) (lookupKV id)), go_bind_ret
    by (apply Forall_forall; intros [k ts] _; by apply lookupKV_ok).
  done.
Qed.

(** The pairs of the components, each decoded to the component. *)
Lemma componentKVs_ok s : ok_components makeOK spec s ->
  componentKeyVals spec s = Ret (componentKVs s) /\
  Forall2 (fun i kv => Key kv = C i /\ decodeComponent makeOK spec i (Value kv) = Ret (Some (componentAt s i))) (seqZ 1 16) (componentKVs s).
Proof.
  intros Hs. pose proof (components_ok makeOK spec s Hs) as Hc. unfold componentKVs, componentKeyVals.
  repeat match type of Hc with _ /\ _ => destruct Hc as [ (? & -> & _ & ?) Hc] end. destruct Hc as (? & -> & _ & ?).
  rewrite !go_bind_ret. split; [done|]. unfold seqZ. cbn [Z.to_nat Pos.to_nat Pos.iter_op Nat.add seq fmap list_fmap ret].
  repeat apply Forall2_cons_2; try apply Forall2_nil_2; (split; [done|]);
    match goal with E : _ ?x = Ret (Some _) |- context [MkKV _ ?x] => exact (andThen_ok _ _ _ E) end.
Qed.

Lemma StateEncoder_ok arrange s : ok_components makeOK spec s -> ok_accounts s ->
  StateEncoder spec arrange s = Ret (merge_sort entryLe (componentKVs s ++ arrange (accountsKVs accountKVs s))).
Proof.
  intros Hs Ha. unfold StateEncoder. rewrite (proj1 (componentKVs_ok s Hs)), go_bind_ret.
  erewrite (mapM_ok _ (fun p => accountKVs (fst p) (snd p))); [done|]. apply Forall_forall. intros [id a] Hp.
  apply accountKeyVals_ok, (Ha id a). by apply elem_of_map_to_list.
Qed.

(** ** Parsing the pairs *)

Definition otherKVs (id : Z) (a : ServiceAccount) : list StateKeyVal := storageKVs id a ++ lookupKVs id a.

(** The request of a preimage. *)
Definition requestOf (h b : Bytes) : LookupMetaMapkey := MkLookupMetaMapkey h (u32 (lenOf b)).

(** All requests, of all accounts. *)
Definition allRequests (s : State) : list (Z * LookupMetaMapkey) :=
  concat ((fun p => (fun k => (fst p, fst k)) <$> map_to_list (ac_LookupDict (snd p))) <$> map_to_list (s_Delta s)).

(** The keys of a state tell its pairs apart: they are distinct, no hashed
    key looks like that of a service, or of a preimage that it is not, and
    only the request of a preimage has the key of one. *)
Record separate (s : State) : Prop := {
  sp_keys : NoDup (Key <$> stateKVs s);
  sp_kinds : Forall (fun kv => IsServiceInfoKey (Key kv) = false) (accountsKVs (fun id a => preimageKVs id a ++ otherKVs id a) s);
  sp_other : Forall (fun kv => IsPreimage (Key kv) (Value kv) = Ret false) (accountsKVs otherKVs s);
  sp_request : Forall (fun '(id, (h, b)) =>
    Forall (fun '(id', k) => lookupKey id' k = lookupKey id (requestOf h b) -> id' = id /\ k = requestOf h b) (allRequests s) /\
    Forall (fun kv => Key kv <> lookupKey id (requestOf h b)) (accountsKVs storageKVs s)) (allPreimages s) }.

(** What a pair stands for. *)
Inductive Entry := EComp (i : Z) | EInfo (id : Z) | EPre (id : Z) (h b : Bytes) | EOther.

Inductive classified (s : State) : Entry * StateKeyVal -> Prop :=
  | cl_comp i kv : i ∈ seqZ 1 16 -> Key kv = C i ->
      decodeComponent makeOK spec i (Value kv) = Ret (Some (componentAt s i)) -> classified s (EComp i, kv)
  | cl_info id a : s_Delta s !! id = Some a -> ok_account id a -> classified s (EInfo id, infoKV id a)
  | cl_pre id a h b : s_Delta s !! id = Some a -> ok_account id a -> ac_PreimageLookup a !! h = Some b ->
      componentIndex (typeKey id (delta3Prefix ++ h)) = None -> IsServiceInfoKey (typeKey id (delta3Prefix ++ h)) = false ->
      classified s (EPre id h b, preimageKV id (h, b))
  | cl_other id kv : componentIndex (Key kv) = None -> IsServiceInfoKey (Key kv) = false ->
      DecodeServiceIDFromType3 (Key kv) = Ret id -> IsPreimage (Key kv) (Value kv) = Ret false -> classified s (EOther, kv).

Definition applyEntry (s : State) (e : Entry * StateKeyVal) (p : Parsed) : Parsed :=
  match fst e with
  | EComp i => (setComponent (componentAt s i) (fst p), delete (Key (snd e)) (snd p))
  | EInfo id => (updateServiceInfo (fst p) id (ac_ServiceInfo (accountAt s id)), delete (Key (snd e)) (snd p))
  | EPre id h b => (updatePreimage (fst p) id h b, delete (Key (snd e)) (snd p))
  | EOther => (fst p, <[Key (snd e) := Value (snd e)]> (snd p))
  end.

Lemma componentIndex_C i : i ∈ seqZ 1 16 -> componentIndex (C i) = Some i.
Proof.
  intros Hi. unfold seqZ in Hi. cbn [Z.to_nat Pos.to_nat Pos.iter_op Nat.add seq fmap list_fmap] in Hi.
  repeat (apply elem_of_cons in Hi as [->|Hi]; [reflexivity|]). by apply elem_of_nil in Hi.
Qed.

Lemma componentIndex_None key : (forall i, i ∈ seqZ 1 16 -> key <> C i) -> componentIndex key = None.
Proof.
  intros Hk. unfold componentIndex. destruct (list_find _ _) as [ [n i] |] eqn:E; [|done].
  apply list_find_Some in E as (Hi & -> & _). exfalso. eapply Hk; [by eapply list_elem_of_lookup_2|done].
Qed.

Lemma infoKey id : uint 32 id -> let k := StateServiceWrapper_StateKeyConstruct 255 id in
  componentIndex k = None /\ IsServiceInfoKey k = true /\ DecodeServiceIDFromType2 k = Ret id.
Proof.
  intros Hi k. unfold k, StateServiceWrapper_StateKeyConstruct. destruct (encodeServiceID_bytes id Hi) as (a & b & c & d & -> & Hv).
  split_and!; [reflexivity|reflexivity|]. rewrite <- Hv. apply type2_decode.
Qed.

Lemma parse_step s e p : classified s e -> parseKeyVal makeOK spec (snd e) p = Ret (Some (applyEntry s e p)).
Proof.
  destruct p as [st u]. unfold parseKeyVal, parseServiceKeyVal, applyEntry. destruct 1 as [i kv Hi Hk Hd|id a Hs Ha|id a h b Hs Ha Hp Hc Hn|id kv Hc Hn Ht Hp]; cbn [fst snd].
  - rewrite Hk, componentIndex_C by done. erewrite andThen_ok by exact Hd. by rewrite delete_insert_eq.
  - destruct (info_value id a Ha) as [_ Hv]. destruct (infoKey id (proj1 Ha)) as (H1 & H2 & H3). cbn [infoKV Key] in *.
    unfold infoKV in *. cbn [Key Value] in *. rewrite H1, H2, H3, go_bind_ret. erewrite andThen_ok by exact Hv. rewrite delete_insert_eq.
    unfold accountAt. by rewrite Hs.
  - cbn [preimageKV Key Value fst snd]. destruct Ha as (Hi & _ & _ & Hh & _). pose proof (Hh h b Hp) as ->.
    rewrite Hc, Hn, (proj2 (proj2 (typeKey_ok _ _ Hi))), go_bind_ret. unfold IsPreimage.
    rewrite (proj2 (proj2 (typeKey_ok _ _ Hi))), go_bind_ret, preimageKV_ok, go_bind_ret by done. cbn [preimageKV Key fst].
    rewrite bool_decide_true, go_bind_ret by done. by rewrite delete_insert_eq.
  - by rewrite Hc, Hn, Ht, go_bind_ret, Hp, go_bind_ret.
Qed.

Lemma parse_entries s es p : Forall (classified s) es ->
  parseLoop (parseKeyVal makeOK spec) (snd <$> es) p = Ret (Some (foldl (fun p e => applyEntry s e p) p es)).
Proof.
  intros Hes. revert p. induction Hes as [|e es He _ IH]; intros p; [done|]. cbn [fmap list_fmap parseLoop foldl].
  rewrite (parse_step s e p He), go_bind_ret. apply IH.
Qed.

Lemma componentAt_set s st i j : i ∈ seqZ 1 16 -> j ∈ seqZ 1 16 ->
  componentAt (setComponent (componentAt s i) st) j = if decide (i = j) then componentAt s j else componentAt st j.
Proof.
  unfold seqZ. cbn [Z.to_nat Pos.to_nat Pos.iter_op Nat.add seq fmap list_fmap]. intros Hi Hj.
  repeat (apply elem_of_cons in Hi as [->|Hi]; [repeat (apply elem_of_cons in Hj as [->|Hj]; [reflexivity|]); by apply elem_of_nil in Hj|]).
  by apply elem_of_nil in Hi.
Qed.

Lemma setComponent_Delta s st i : s_Delta (setComponent (componentAt s i) st) = s_Delta st.
Proof. destruct i as [|p|p]; [done| |done]. repeat (destruct p as [p|p|]; try reflexivity). Qed.

(** What is known after the pairs [done]. *)
Record parsed (s : State) (done : list (Entry * StateKeyVal)) (p : Parsed) : Prop := {
  pa_comp : forall i, i ∈ seqZ 1 16 -> EComp i ∈ done.*1 -> componentAt (fst p) i = componentAt s i;
  pa_account : forall id, let x := accountAt (fst p) id in
    (EInfo id ∈ done.*1 -> is_Some (s_Delta (fst p) !! id) /\ ac_ServiceInfo x = ac_ServiceInfo (accountAt s id)) /\
    (forall h b, ac_PreimageLookup x !! h = Some b <-> EPre id h b ∈ done.*1) /\ ac_LookupDict x = ∅ /\ ac_StorageDict x = ∅;
  pa_dom : forall id, is_Some (s_Delta (fst p) !! id) -> is_Some (s_Delta s !! id);
  pa_unmatched : forall k v, snd p !! k = Some v <-> (EOther, MkKV k v) ∈ done }.

Lemma parsed_nil s : parsed s [] (zeroState, ∅).
Proof.
  split; cbn.
  - intros i _ Hi. by apply elem_of_nil in Hi.
  - intros id. unfold accountAt. cbn. rewrite lookup_empty. cbn. split_and!; [intros Hi; by apply elem_of_nil in Hi| |done|done].
    intros h b. rewrite lookup_empty. split; [done|]. intros Hi. by apply elem_of_nil in Hi.
  - intros id [x Hx]. by rewrite lookup_empty in Hx.
  - intros k v. rewrite lookup_empty. split; [done|]. intros Hi. by apply elem_of_nil in Hi.
Qed.

Lemma accountAt_insert st id x j : accountAt (SetDelta (<[id := x]> (s_Delta st)) st) j = if decide (id = j) then x else accountAt st j.
Proof. unfold accountAt. cbn. case_decide as Hd; [subst; by rewrite lookup_insert_eq|by rewrite lookup_insert_ne]. Qed.

Lemma entries_snoc (done : list (Entry * StateKeyVal)) e kv x : x ∈ (done ++ [(e, kv)]).*1 <-> x ∈ done.*1 \/ x = e.
Proof. rewrite fmap_app, elem_of_app. cbn. by rewrite list_elem_of_singleton. Qed.

Lemma unmatched_same (done : list (Entry * StateKeyVal)) (e : Entry) (kv : StateKeyVal) (u : gmap Bytes Bytes) : e <> EOther -> Key kv ∉ Key <$> done.*2 ->
  (forall k v, u !! k = Some v <-> (EOther, MkKV k v) ∈ done) ->
  forall k v, delete (Key kv) u !! k = Some v <-> (EOther, MkKV k v) ∈ done ++ [(e, kv)].
Proof.
  intros He Hk Hu k v. rewrite elem_of_app, list_elem_of_singleton, lookup_delete_Some, Hu. split.
  - intros [_ ?]. by left.
  - intros [Hin|Heq]; [|congruence]. split; [|done]. intros Heq. apply Hk. apply list_elem_of_fmap. exists (MkKV k v).
    split; [done|]. apply list_elem_of_fmap. by exists (EOther, MkKV k v).
Qed.

Lemma parsed_comp s done i kv p : parsed s done p -> i ∈ seqZ 1 16 -> Key kv ∉ Key <$> done.*2 ->
  parsed s (done ++ [(EComp i, kv)]) (applyEntry s (EComp i, kv) p).
Proof.
  intros [Hc Ha Hd Hu] Hi Hk. cbn [applyEntry fst snd]. split; cbn [fst snd].
  - intros j Hj. rewrite entries_snoc, componentAt_set by done. case_decide; [done|]. intros [Hin|?]; [by apply Hc|congruence].
  - intros id. unfold accountAt at 1 3 4 5. rewrite setComponent_Delta. specialize (Ha id). cbv zeta in *.
    rewrite entries_snoc. setoid_rewrite entries_snoc. destruct Ha as (H1 & H2 & H3). split_and!; [|intros h b|apply H3..].
    + intros [Hin|?]; [by apply H1|done].
    + rewrite H2. intuition congruence.
  - intros id. rewrite setComponent_Delta. apply Hd.
  - by apply unmatched_same.
Qed.

Lemma parsed_info s done id a p : parsed s done p -> s_Delta s !! id = Some a -> Key (infoKV id a) ∉ Key <$> done.*2 ->
  parsed s (done ++ [(EInfo id, infoKV id a)]) (applyEntry s (EInfo id, infoKV id a) p).
Proof.
  intros [Hc Ha Hd Hu] Hs Hk. unfold applyEntry, updateServiceInfo. split; cbn [fst snd].
  - intros j Hj. rewrite entries_snoc. intros [Hin|?]; [by apply Hc|congruence].
  - intros j. cbv zeta. rewrite accountAt_insert. rewrite entries_snoc. setoid_rewrite entries_snoc.
    destruct (Ha j) as (H1 & H2 & H3 & H4). cbn [s_Delta SetDelta]. case_decide as Hj; [subst j|]; cbn [ac_ServiceInfo ac_PreimageLookup ac_LookupDict ac_StorageDict].
    + split_and!; [|intros h b; rewrite H2; intuition congruence|done|done]. intros _. by rewrite lookup_insert_eq.
    + split_and!; [|intros h b; rewrite H2; intuition congruence|done|done]. rewrite lookup_insert_ne by done. intros [Hin|?]; [by apply H1|congruence].
  - intros j. cbn [s_Delta SetDelta]. rewrite lookup_insert_is_Some'. intros [<-|?]; [by rewrite Hs|by apply Hd].
  - by apply unmatched_same.
Qed.

Lemma parsed_pre s done id a h b p : parsed s done p -> s_Delta s !! id = Some a -> Key (preimageKV id (h, b)) ∉ Key <$> done.*2 ->
  (forall b', EPre id h b' ∈ done.*1 -> b' = b) ->
  parsed s (done ++ [(EPre id h b, preimageKV id (h, b))]) (applyEntry s (EPre id h b, preimageKV id (h, b)) p).
Proof.
  intros [Hc Ha Hd Hu] Hs Hk Hf. unfold applyEntry, updatePreimage. split; cbn [fst snd].
  - intros j Hj. rewrite entries_snoc. intros [Hin|?]; [by apply Hc|congruence].
  - intros j. cbv zeta. rewrite accountAt_insert. rewrite entries_snoc. setoid_rewrite entries_snoc.
    destruct (Ha j) as (H1 & H2 & H3 & H4). cbn [s_Delta SetDelta]. case_decide as Hj; [subst j|]; cbn [ac_ServiceInfo ac_PreimageLookup ac_LookupDict ac_StorageDict].
    + split_and!; [| |done|done].
      * rewrite lookup_insert_eq. intros [Hin|?]; [|done]. split; [done|by apply H1].
      * intros h' b'. destruct (decide (h = h')) as [<-|Hn]; [rewrite lookup_insert_eq|rewrite lookup_insert_ne, H2 by done; intuition congruence].
        split; [intros [= ->]; by right|]. intros [Hin|Heq]; [by rewrite (Hf b' Hin)|congruence].
    + split_and!; [|intros h' b'; rewrite H2; intuition congruence|done|done]. rewrite lookup_insert_ne by done. intros [Hin|?]; [by apply H1|congruence].
  - intros j. cbn [s_Delta SetDelta]. rewrite lookup_insert_is_Some'. intros [<-|?]; [by rewrite Hs|by apply Hd].
  - by apply unmatched_same.
Qed.

Lemma parsed_other s done kv p : parsed s done p -> Key kv ∉ Key <$> done.*2 ->
  parsed s (done ++ [(EOther, kv)]) (applyEntry s (EOther, kv) p).
Proof.
  intros [Hc Ha Hd Hu] Hk. cbn [applyEntry fst snd]. split; cbn [fst snd].
  - intros j Hj. rewrite entries_snoc. intros [Hin|?]; [by apply Hc|congruence].
  - intros id. cbv zeta. rewrite entries_snoc. setoid_rewrite entries_snoc. destruct (Ha id) as (H1 & H2 & H3 & H4).
    split_and!; [|intros h b; rewrite H2; intuition congruence|done|done]. intros [Hin|?]; [by apply H1|done].
  - exact Hd.
  - intros k v. rewrite elem_of_app, list_elem_of_singleton, lookup_insert_Some, Hu. destruct kv as [k' v']; cbn [Key Value] in *. split.
    + intros [[-> ->]|[_ ?]]; auto.
    + intros [Hin|[= -> ->]]; [|by left]. right. split; [|done]. intros ->. apply Hk. apply list_elem_of_fmap. exists (MkKV k v).
      split; [done|]. apply list_elem_of_fmap. by exists (EOther, MkKV k v).
Qed.

Lemma parsed_all s es : Forall (classified s) es -> NoDup (Key <$> es.*2) ->
  parsed s es (foldl (fun p e => applyEntry s e p) (zeroState, ∅) es).
Proof.
  induction es as [|[e kv] es IH] using rev_ind; [intros _ _; apply parsed_nil|]. rewrite Forall_app, Forall_singleton, !fmap_app, NoDup_app.
  intros [Hes He] (Hd & Hk & _). specialize (IH Hes Hd). rewrite foldl_snoc.
  assert (Key kv ∉ Key <$> es.*2) as Hn by (intros Hin; apply (Hk _ Hin); by left).
  inversion He as [i kv0 Hi|id a Hs Ha|id a h b Hs Ha Hp|id kv0]; subst.
  - by apply parsed_comp.
  - by eapply parsed_info.
  - eapply parsed_pre; [done|done|done|]. intros b' Hb. apply list_elem_of_fmap in Hb as ([e' kv'] & Heq & Hin).
    rewrite Forall_forall in Hes. apply Hes in Hin. cbn in Heq. subst e'. inversion Hin. congruence.
  - by apply parsed_other.
Qed.

(** ** The entries of a state *)

Definition accountEntries (id : Z) (a : ServiceAccount) : list (Entry * StateKeyVal) :=
  (EInfo id, infoKV id a) :: (pair EOther <$> storageKVs id a) ++
  ((fun p => (EPre id (fst p) (snd p), preimageKV id p)) <$> map_to_list (ac_PreimageLookup a)) ++ (pair EOther <$> lookupKVs id a).

Definition stateEntries (s : State) : list (Entry * StateKeyVal) :=
  zip_with (fun i kv => (EComp i, kv)) (seqZ 1 16) (componentKVs s) ++
  concat ((fun p => accountEntries (fst p) (snd p)) <$> map_to_list (s_Delta s)).

Lemma componentKVs_length s : ok_components makeOK spec s -> length (componentKVs s) = 16%nat.
Proof. intros Hs. by rewrite <- (Forall2_length _ _ _ (proj2 (componentKVs_ok s Hs))). Qed.

Lemma stateEntries_KVs s : ok_components makeOK spec s -> (stateEntries s).*2 = stateKVs s.
Proof.
  intros Hs. unfold stateEntries, stateKVs, accountsKVs. rewrite fmap_app, fmap_concat. f_equal.
  - apply fmap_zip_with_r; [done|]. by rewrite componentKVs_length.
  - f_equal. rewrite <- list_fmap_compose. apply list_fmap_ext. intros _ [id a] _. unfold accountEntries, accountKVs. cbn.
    rewrite !fmap_app, <- !list_fmap_compose. f_equal. f_equal; [apply list_fmap_id|f_equal; apply list_fmap_id].
Qed.

Lemma accounts_elem {A} (f : Z -> ServiceAccount -> list A) (s : State) x :
  x ∈ concat ((fun p => f (fst p) (snd p)) <$> map_to_list (s_Delta s)) <-> exists id a, s_Delta s !! id = Some a /\ x ∈ f id a.
Proof.
  rewrite concat_fmap_elem. split.
  - intros ([id a] & Hp%elem_of_map_to_list & Hx). eauto.
  - intros (id & a & Hp & Hx). exists (id, a). by rewrite elem_of_map_to_list.
Qed.

Lemma accountsKVs_elem f (s : State) kv : kv ∈ accountsKVs f s <-> exists id a, s_Delta s !! id = Some a /\ kv ∈ f id a.
Proof. apply accounts_elem. Qed.

Lemma account_entry_pre id a e : e ∈ accountEntries id a <->
  e = (EInfo id, infoKV id a) \/ (exists kv, kv ∈ otherKVs id a /\ e = (EOther, kv)) \/
  exists h b, ac_PreimageLookup a !! h = Some b /\ e = (EPre id h b, preimageKV id (h, b)).
Proof.
  unfold accountEntries, otherKVs. rewrite elem_of_cons, !elem_of_app, !list_elem_of_fmap. setoid_rewrite elem_of_app. split.
  - intros [?|[(kv & -> & ?)|[([h b] & -> & Hp%elem_of_map_to_list)|(kv & -> & ?)]]]; [by left| |right; right|]; eauto 10.
  - intros [?|[(kv & [?|?] & ->)|(h & b & Hp & ->)]]; [by left|eauto 10|eauto 10|]. do 2 right. left. exists (h, b).
    by rewrite elem_of_map_to_list.
Qed.

Lemma stateEntries_elem s e : e ∈ stateEntries s <->
  e ∈ zip_with (fun i kv => (EComp i, kv)) (seqZ 1 16) (componentKVs s) \/
  exists id a, s_Delta s !! id = Some a /\ (e = (EInfo id, infoKV id a) \/ (exists kv, kv ∈ otherKVs id a /\ e = (EOther, kv)) \/
    exists h b, ac_PreimageLookup a !! h = Some b /\ e = (EPre id h b, preimageKV id (h, b))).
Proof. unfold stateEntries. rewrite elem_of_app, accounts_elem. setoid_rewrite account_entry_pre. done. Qed.

Lemma component_entry s e : e ∈ zip_with (fun i kv => (EComp i, kv)) (seqZ 1 16) (componentKVs s) ->
  exists i kv n, seqZ 1 16 !! n = Some i /\ componentKVs s !! n = Some kv /\ e = (EComp i, kv).
Proof. intros [n Hn]%list_elem_of_lookup_1. apply lookup_zip_with_Some in Hn as (i & kv & -> & Hi & Hkv). eauto 10. Qed.

(** What the keys of the components are, and what they are not. *)
Lemma component_keys s key : ok_components makeOK spec s -> key ∈ Key <$> componentKVs s <-> exists i, i ∈ seqZ 1 16 /\ key = C i.
Proof.
  intros Hs. destruct (componentKVs_ok s Hs) as [_ H2]. rewrite list_elem_of_fmap. split.
  - intros (kv & -> & [n Hn]%list_elem_of_lookup_1). destruct (Forall2_lookup_r _ _ _ _ _ H2 Hn) as (i & Hi & Hk & _).
    exists i. split; [by eapply list_elem_of_lookup_2|done].
  - intros (i & [n Hn]%list_elem_of_lookup_1 & ->). destruct (Forall2_lookup_l _ _ _ _ _ H2 Hn) as (kv & Hkv & Hk & _).
    exists kv. split; [done|]. by eapply list_elem_of_lookup_2.
Qed.

Lemma stateEntries_classified s : ok_components makeOK spec s -> ok_accounts s -> separate s -> Forall (classified s) (stateEntries s).
Proof.
  intros Hs Ha [Hk Hi Ho _]. apply Forall_forall. intros e He. destruct (componentKVs_ok s Hs) as [_ H2].
  unfold stateKVs in Hk. rewrite fmap_app, NoDup_app in Hk. destruct Hk as (_ & Hk & _).
  assert (forall kv, kv ∈ accountsKVs accountKVs s -> componentIndex (Key kv) = None) as Hc.
  { intros kv Hkv. apply componentIndex_None. intros i Hin Heq. eapply (Hk (Key kv)); [|by apply list_elem_of_fmap_2].
    rewrite component_keys by done. eauto. }
  rewrite Forall_forall in Hi, Ho. apply stateEntries_elem in He as [He|(id & a & Hd & [->|[(kv & Hkv & ->)|(h & b & Hp & ->)]])].
  - apply component_entry in He as (i & kv & n & Hn & Hkv & ->). destruct (Forall2_lookup_lr _ _ _ _ _ _ H2 Hn Hkv) as [? ?].
    constructor; [by eapply list_elem_of_lookup_2|done|done].
  - constructor; [done|by apply Ha].
  - assert (kv ∈ accountsKVs otherKVs s) as Hin by (apply accounts_elem; eauto).
    apply (cl_other s id); [apply Hc| |destruct (Ha id a Hd) as (Hu & _)|by apply Ho].
    + apply accounts_elem. exists id, a. split; [done|]. unfold accountKVs, otherKVs in *. rewrite elem_of_cons, !elem_of_app in *. tauto.
    + apply Hi. apply accounts_elem. exists id, a. split; [done|]. apply elem_of_app. by right.
    + unfold otherKVs, storageKVs, lookupKVs in Hkv. apply elem_of_app in Hkv as [Hkv|Hkv]; apply list_elem_of_fmap in Hkv as ([k v] & -> & _).
      * apply (typeKey_ok id (delta2Prefix ++ k) Hu).
      * rewrite (proj2 (lookupKV_ok id k v Hu)). apply (typeKey_ok id _ Hu).
  - assert (preimageKV id (h, b) ∈ preimageKVs id a) as Hin by (apply list_elem_of_fmap; exists (h, b); by rewrite elem_of_map_to_list).
    apply (cl_pre s id a); [done|by apply Ha|done| |].
    + apply (Hc (preimageKV id (h, b))). apply accounts_elem. exists id, a. split; [done|]. unfold accountKVs. rewrite elem_of_cons, !elem_of_app. tauto.
    + apply (Hi (preimageKV id (h, b))). apply accounts_elem. exists id, a. split; [done|]. apply elem_of_app. by left.
Qed.

(** ** The first pass *)

(** An account without its requests and its storage. *)
Definition bareAccount (a : ServiceAccount) : ServiceAccount := MkServiceAccount (ac_ServiceInfo a) (ac_PreimageLookup a) ∅ ∅.

Lemma state_ext st s : (forall i, i ∈ seqZ 1 16 -> componentAt st i = componentAt s i) -> st = SetDelta (s_Delta st) s.
Proof.
  intros Hc. destruct st, s. unfold SetDelta. cbn.
  pose proof (Hc 1) as H1. pose proof (Hc 2) as H2. pose proof (Hc 3) as H3. pose proof (Hc 4) as H4. pose proof (Hc 5) as H5.
  pose proof (Hc 6) as H6. pose proof (Hc 7) as H7. pose proof (Hc 8) as H8. pose proof (Hc 9) as H9. pose proof (Hc 10) as H10.
  pose proof (Hc 11) as H11. pose proof (Hc 12) as H12. pose proof (Hc 13) as H13. pose proof (Hc 14) as H14. pose proof (Hc 15) as H15.
  pose proof (Hc 16) as H16. clear Hc. cbn in *.
  repeat match goal with Hx : _ ∈ seqZ 1 16 -> _ |- _ => specialize (Hx ltac:(by apply elem_of_seqZ)); injection Hx as -> end. done.
Qed.

Lemma first_pass s kvs : ok_components makeOK spec s -> ok_accounts s -> separate s -> kvs ≡ₚ stateKVs s ->
  exists u, parseLoop (parseKeyVal makeOK spec) kvs (zeroState, ∅) = Ret (Some (SetDelta (bareAccount <$> s_Delta s) s, u)) /\
    forall k v, u !! k = Some v <-> MkKV k v ∈ accountsKVs otherKVs s.
Proof.
  intros Hs Ha Hsep Hp. rewrite <- stateEntries_KVs in Hp by done. symmetry in Hp. apply Permutation_sym, Permutation_map_inv in Hp as (es & -> & Hp).
  pose proof (stateEntries_classified s Hs Ha Hsep) as Hcl. rewrite Hp in Hcl.
  assert (NoDup (Key <$> es.*2)) as Hnd by (rewrite <- Hp, stateEntries_KVs by done; apply Hsep).
  change (List.map snd es) with (snd <$> es). rewrite (parse_entries s es _ Hcl). pose proof (parsed_all s es Hcl Hnd) as [Hc Hacc Hd Hu].
  destruct (foldl _ _ es) as [st u]. cbn [fst snd] in *. exists u.
  assert (forall e, e ∈ es.*1 <-> exists kv, (e, kv) ∈ stateEntries s) as He.
  { intros e. rewrite list_elem_of_fmap. setoid_rewrite <- Hp. split; [intros ([e' kv] & -> & Hin); eauto|intros (kv & Hin); by exists (e, kv)]. }
  split.
  - do 3 f_equal. assert (st = SetDelta (s_Delta st) s) as Hst.
    { apply state_ext. intros i Hi. apply Hc; [done|]. apply He. apply list_elem_of_lookup_1 in Hi as [n Hn].
      destruct (componentKVs_ok s Hs) as [_ H2]. destruct (Forall2_lookup_l _ _ _ _ _ H2 Hn) as (kv & Hkv & _). exists kv.
      apply stateEntries_elem. left. apply (list_elem_of_lookup_2 _ n). apply lookup_zip_with_Some. eauto 10. }
    rewrite Hst. f_equal. apply map_eq. intros id. rewrite lookup_fmap. destruct (s_Delta s !! id) as [a|] eqn:E.
    + destruct (Hacc id) as (Hinfo & Hpre & Hl & Hsto). destruct Hinfo as [ [x Hx] Hinfo].
      { apply He. exists (infoKV id a). apply stateEntries_elem. right. exists id, a. auto. }
      unfold accountAt in *. rewrite Hx in *. rewrite E in Hinfo. cbn [default from_option] in *. cbn. f_equal. unfold bareAccount.
      destruct x as [xi xp xl xs]. cbn in *. subst. f_equal. apply map_eq. intros h. apply option_eq. intros b. rewrite Hpre, He. split.
      * intros (kv & Hin). apply stateEntries_elem in Hin as [Hin|(id' & a' & Hid & [Heq|[(kv' & _ & Heq)|(h' & b' & Hh & Heq)]])]; [|done..|].
        { apply component_entry in Hin as (? & ? & ? & _ & _ & ?). done. }
        injection Heq as -> -> -> _. congruence.
      * intros Hh. exists (preimageKV id (h, b)). apply stateEntries_elem. right. exists id, a. split; [done|]. eauto 10.
    + destruct (s_Delta st !! id) as [x|] eqn:Ex; [|done]. destruct (Hd id) as [y Hy]; [by rewrite Ex|congruence].
  - intros k v. rewrite Hu, <- Hp, stateEntries_elem, (accounts_elem otherKVs s). split.
    + intros [Hin|(id & a & Hid & [Heq|[(kv & Hkv & Heq)|(h & b & Hh & Heq)]])]; [|done| |done].
      { apply component_entry in Hin as (? & ? & ? & _ & _ & ?). done. }
      injection Heq as ->. eauto.
    + intros (id & a & Hid & Hkv). right. exists id, a. split; [done|]. right. left. eauto.
Qed.

(** ** The second pass *)

Lemma allPreimages_elem st id h b : (id, (h, b)) ∈ allPreimages st <-> exists a, s_Delta st !! id = Some a /\ ac_PreimageLookup a !! h = Some b.
Proof.
  unfold allPreimages. rewrite list_elem_of_bind. split.
  - intros ([id' a] & Hx & Hin%elem_of_map_to_list). apply list_elem_of_fmap in Hx as ([h' b'] & [= -> -> ->] & Hp%elem_of_map_to_list). eauto.
  - intros (a & Hid & Hp). exists (id, a). rewrite elem_of_map_to_list. split; [|done]. apply list_elem_of_fmap. exists (h, b).
    by rewrite elem_of_map_to_list.
Qed.

Lemma allRequests_elem s id k : (id, k) ∈ allRequests s <-> exists a, s_Delta s !! id = Some a /\ is_Some (ac_LookupDict a !! k).
Proof.
  unfold allRequests. rewrite (accounts_elem (fun id a => (fun p => (id, fst p)) <$> map_to_list (ac_LookupDict a))). split.
  - intros (id' & a & Hid & Hx). apply list_elem_of_fmap in Hx as ([k' ts] & [= -> ->] & Hp%elem_of_map_to_list). eauto.
  - intros (a & Hid & [ts Hts]). exists id, a. split; [done|]. apply list_elem_of_fmap. exists (k, ts). by rewrite elem_of_map_to_list.
Qed.

(** The request is of one of the preimages [ps]. *)
Definition requested (ps : list (Z * (Bytes * Bytes))) (id : Z) (k : LookupMetaMapkey) : Prop :=
  exists b, (id, (lk_Hash k, b)) ∈ ps /\ k = requestOf (lk_Hash k) b.

#[global] Instance requested_dec ps id k : Decision (requested ps id k).
Proof.
  refine (cast_if (decide (Exists (fun x => fst x = id /\ fst (snd x) = lk_Hash k /\ k = requestOf (lk_Hash k) (snd (snd x))) ps)));
    unfold requested; rewrite Exists_exists in *.
  - destruct e as ([i [h b]] & Hin & <- & Hh & Hk). cbn in *. subst h. eauto.
  - intros (b & Hin & Hk). apply n. exists (id, (lk_Hash k, b)). auto.
Defined.

(** What is known after the preimages [done]. *)
Record looked (s : State) (done : list (Z * (Bytes * Bytes))) (p : Parsed) : Prop := {
  lo_state : fst p = SetDelta (s_Delta (fst p)) s;
  lo_none : forall id, s_Delta s !! id = None -> s_Delta (fst p) !! id = None;
  lo_account : forall id a, s_Delta s !! id = Some a -> exists l, s_Delta (fst p) !! id =
    Some (MkServiceAccount (ac_ServiceInfo a) (ac_PreimageLookup a) l ∅) /\
    forall k ts, l !! k = Some ts <-> ac_LookupDict a !! k = Some ts /\ requested done id k;
  lo_unmatched : forall k v, snd p !! k = Some v <->
    MkKV k v ∈ accountsKVs otherKVs s /\ ~ exists id h b, (id, (h, b)) ∈ done /\ k = lookupKey id (requestOf h b) }.

Lemma requested_snoc done id h b id' k : requested (done ++ [(id, (h, b))]) id' k <->
  requested done id' k \/ id' = id /\ k = requestOf h b.
Proof.
  unfold requested. setoid_rewrite elem_of_app. setoid_rewrite list_elem_of_singleton. split.
  - intros (b' & [Hin|[= -> Hh ->]] & Hk); [left; eauto|right]. by rewrite Hh in Hk.
  - intros [(b' & Hin & Hk)|[-> ->]]; [eauto|]. exists b. cbn. auto.
Qed.

Lemma unmatched_snoc (s : State) (done : list (Z * (Bytes * Bytes))) (id : Z) (h b : Bytes) (u : gmap Bytes Bytes) :
  (forall k v, u !! k = Some v <-> MkKV k v ∈ accountsKVs otherKVs s /\ ~ exists id h b, (id, (h, b)) ∈ done /\ k = lookupKey id (requestOf h b)) ->
  forall k v, delete (lookupKey id (requestOf h b)) u !! k = Some v <->
    MkKV k v ∈ accountsKVs otherKVs s /\ ~ exists id' h' b', (id', (h', b')) ∈ done ++ [(id, (h, b))] /\ k = lookupKey id' (requestOf h' b').
Proof.
  intros Hu k v. rewrite lookup_delete_Some, Hu. setoid_rewrite elem_of_app. setoid_rewrite list_elem_of_singleton. split.
  - intros (Hk & Hin & Hn). split; [done|]. intros (id' & h' & b' & [Hd|[= -> -> ->]] & Heq); [|done]. apply Hn. eauto 10.
  - intros (Hin & Hn). split_and!; [|done|].
    + intros Hk. apply Hn. exists id, h, b. auto.
    + intros (id' & h' & b' & Hd & Heq). apply Hn. exists id', h', b'. auto.
Qed.

(** A pair with the key of a preimage's request is the request. *)
Lemma request_pair (s : State) (id : Z) (h b k v : Bytes) : ok_accounts s -> separate s -> (id, (h, b)) ∈ allPreimages s ->
  MkKV k v ∈ accountsKVs otherKVs s -> k = lookupKey id (requestOf h b) ->
  exists a ts, s_Delta s !! id = Some a /\ ac_LookupDict a !! requestOf h b = Some ts /\ MkKV k v = lookupKV id (requestOf h b, ts).
Proof.
  intros Ha [_ _ _ Hr] Hp Hin Hk. rewrite Forall_forall in Hr. specialize (Hr _ Hp). destruct Hr as [Hr Hst].
  apply accounts_elem in Hin as (id' & a & Hid & Hkv). unfold otherKVs in Hkv. apply elem_of_app in Hkv as [Hkv|Hkv].
  - exfalso. rewrite Forall_forall in Hst. apply (Hst (MkKV k v)); [|done]. apply accounts_elem. eauto.
  - unfold lookupKVs in Hkv. apply list_elem_of_fmap in Hkv as ([k' ts] & Heq & Hts%elem_of_map_to_list).
    assert (k = lookupKey id' k') as Hk'.
    { destruct (Ha id' a Hid) as (Hu & _). rewrite <- (proj2 (lookupKV_ok id' k' ts Hu)), <- Heq. done. }
    rewrite Forall_forall in Hr. destruct (Hr (id', k')) as [-> ->]; [apply allRequests_elem; eauto|congruence|]. eauto.
Qed.

Lemma request_done (s : State) (done : list (Z * (Bytes * Bytes))) (id : Z) (h b : Bytes) (u : gmap Bytes Bytes) (a : ServiceAccount) (t : list Z) : ok_accounts s -> separate s ->
  (forall x, x ∈ done -> x ∈ allPreimages s) ->
  (forall k v, u !! k = Some v <-> MkKV k v ∈ accountsKVs otherKVs s /\ ~ exists id h b, (id, (h, b)) ∈ done /\ k = lookupKey id (requestOf h b)) ->
  s_Delta s !! id = Some a -> ac_LookupDict a !! requestOf h b = Some t -> u !! lookupKey id (requestOf h b) = None ->
  requested done id (requestOf h b).
Proof.
  intros Ha [_ _ _ Hr] Hdone Hu Hid Ht Hnone. destruct (decide (requested done id (requestOf h b))) as [?|Hn]; [done|exfalso].
  destruct (Ha id a Hid) as (Hui & _). destruct (lookupKV_ok id (requestOf h b) t Hui) as [_ Hk].
  assert (u !! lookupKey id (requestOf h b) = Some (Value (lookupKV id (requestOf h b, t)))) as E; [|congruence].
  apply Hu. split.
  - rewrite <- Hk. apply accounts_elem. exists id, a. split; [done|]. unfold otherKVs. apply elem_of_app. right.
    apply list_elem_of_fmap. exists (requestOf h b, t). rewrite elem_of_map_to_list. split; [|done]. by destruct (lookupKV id (requestOf h b, t)).
  - intros (id' & h' & b' & Hd & Heq). rewrite Forall_forall in Hr. specialize (Hr _ (Hdone _ Hd)). destruct Hr as [Hr _].
    rewrite Forall_forall in Hr. destruct (Hr (id, requestOf h b)) as [-> Hreq]; [apply allRequests_elem; eauto|done|].
    apply Hn. exists b'. injection Hreq as -> Hb. split; [done|]. unfold requestOf. cbn. by rewrite Hb.
Qed.

Lemma look_step (s : State) (done : list (Z * (Bytes * Bytes))) (id : Z) (h b : Bytes) (p : Parsed) : ok_accounts s -> separate s -> (forall x, x ∈ done -> x ∈ allPreimages s) -> (id, (h, b)) ∈ allPreimages s ->
  looked s done p -> exists p', parseLookup makeOK (id, (h, b)) p = Ret (Some p') /\ looked s (done ++ [(id, (h, b))]) p'.
Proof.
  intros Ha Hsep Hdone Hp [Hst Hno Hacc Hu]. destruct p as [st u]. cbn [fst snd] in *. unfold parseLookup. fold (requestOf h b).
  destruct (proj1 (allPreimages_elem s id h b) Hp) as (a & Hid & _). destruct (Ha id a Hid) as (Hui & _ & _ & _ & Hts).
  destruct (lookupKV_ok id (requestOf h b) [] Hui) as [E K]. rewrite E, go_bind_ret, K. clear E K.
  pose proof (unmatched_snoc s done id h b u Hu) as Hu'. destruct (u !! lookupKey id (requestOf h b)) as [v|] eqn:Ev.
  - apply Hu in Ev as [Hin _]. destruct (request_pair s id h b _ v Ha Hsep Hp Hin eq_refl) as (a' & ts & Hid' & Hts' & Hkv).
    rewrite Hid in Hid'. injection Hid' as <-. assert (v = Value (lookupKV id (requestOf h b, ts))) as -> by (by rewrite <- Hkv).
    eexists. split; [apply andThen_ok, (lookup_value id _ _ Hui), (Hts _ _ Hts')|]. destruct (Hacc id a Hid) as (l & Hl & Hlk).
    unfold updateLookup, accountAt. rewrite Hl. cbn [default from_option ac_ServiceInfo ac_PreimageLookup ac_LookupDict ac_StorageDict].
    split; cbn [fst snd]; [by rewrite Hst| | |exact Hu'].
    + intros j Hj. cbn [s_Delta SetDelta]. rewrite lookup_insert_ne by congruence. by apply Hno.
    + intros j y Hj. cbn [s_Delta SetDelta]. setoid_rewrite requested_snoc. destruct (decide (id = j)) as [<-|Hn].
      * rewrite lookup_insert_eq. rewrite Hid in Hj. injection Hj as <-. eexists. split; [done|]. intros k t.
        destruct (decide (requestOf h b = k)) as [<-|Hk]; [rewrite lookup_insert_eq|rewrite lookup_insert_ne by done]; rewrite ?Hlk; [|intuition congruence].
        rewrite Hts'. intuition congruence.
      * rewrite lookup_insert_ne by done. destruct (Hacc j y Hj) as (l' & -> & Hlk'). exists l'. split; [done|]. intros k t. rewrite Hlk'. intuition congruence.
  - exists (st, u). split; [done|]. split; cbn [fst snd]; [done|done| |].
    + intros j y Hj. destruct (Hacc j y Hj) as (l & Hl & Hlk). exists l. split; [done|]. intros k t. rewrite Hlk, requested_snoc.
      split; [tauto|]. intros [Hkt [?|[-> ->]]]; [done|]. split; [done|]. rewrite Hid in Hj. injection Hj as <-.
      by apply (request_done s done id h b u a t).
    + rewrite delete_id in Hu' by done. exact Hu'.
Qed.

(** The request of an account is of one of its preimages. *)
Definition keptRequest (a : ServiceAccount) (p : LookupMetaMapkey * list Z) : Prop :=
  match ac_PreimageLookup a !! lk_Hash (fst p) with Some b => fst p = requestOf (lk_Hash (fst p)) b | None => False end.
#[global] Instance keptRequest_dec a p : Decision (keptRequest a p).
Proof. unfold keptRequest. destruct (_ !! _); apply _. Defined.

(** What the parser makes of an account, and of a state. *)
Definition parsedAccount (a : ServiceAccount) : ServiceAccount :=
  MkServiceAccount (ac_ServiceInfo a) (ac_PreimageLookup a) (filter (keptRequest a) (ac_LookupDict a)) ∅.
Definition parsedState (s : State) : State := SetDelta (parsedAccount <$> s_Delta s) s.

(** The pairs that stay unmatched. *)
Definition leftoverKVs (id : Z) (a : ServiceAccount) : list StateKeyVal :=
  storageKVs id a ++ (lookupKV id <$> filter (fun p => ~ keptRequest a p) (map_to_list (ac_LookupDict a))).

Lemma requested_kept (s : State) id a k ts : s_Delta s !! id = Some a -> requested (allPreimages s) id k <-> keptRequest a (k, ts).
Proof.
  intros Hid. unfold requested, keptRequest. setoid_rewrite allPreimages_elem. cbn [fst]. split.
  - intros (b & (a' & Hid' & Hp) & Hk). rewrite Hid in Hid'. injection Hid' as <-. by rewrite Hp.
  - destruct (ac_PreimageLookup a !! lk_Hash k) as [b|] eqn:E; [|done]. intros Hk. eauto 10.
Qed.

Lemma leftover_elem (s : State) kv : ok_accounts s -> separate s -> kv ∈ accountsKVs leftoverKVs s <->
  kv ∈ accountsKVs otherKVs s /\ ~ exists id h b, (id, (h, b)) ∈ allPreimages s /\ Key kv = lookupKey id (requestOf h b).
Proof.
  intros Ha [_ _ _ Hr]. rewrite !accountsKVs_elem. rewrite Forall_forall in Hr. unfold leftoverKVs, otherKVs, lookupKVs.
  setoid_rewrite elem_of_app. setoid_rewrite list_elem_of_fmap. setoid_rewrite list_elem_of_filter. split.
  - intros (id & a & Hid & Hkv). split.
    { exists id, a. split; [done|]. destruct Hkv as [?|(p & -> & _ & Hp)]; [by left|right; eauto]. }
    intros (id' & h & b & Hp & Hk). specialize (Hr _ Hp). destruct Hr as [Hr Hst]. rewrite Forall_forall in Hr. rewrite Forall_forall in Hst.
    destruct Hkv as [Hkv|([k ts] & -> & Hn & Hts%elem_of_map_to_list)].
    + apply (Hst kv); [|done]. apply accountsKVs_elem. exists id, a. split; [done|]. by apply list_elem_of_fmap.
    + rewrite (proj2 (lookupKV_ok id k ts (proj1 (Ha id a Hid)))) in Hk. destruct (Hr (id, k)) as [<- ->]; [apply allRequests_elem; eauto|done|].
      apply Hn. apply (requested_kept s id a _ ts Hid). exists b. by split.
  - intros [(id & a & Hid & Hkv) Hn]. exists id, a. split; [done|]. destruct Hkv as [?|([k ts] & -> & Hts)]; [by left|right].
    exists (k, ts). split; [done|]. split; [|done]. intros Hk. apply Hn. apply (requested_kept s id a _ ts Hid) in Hk as (b & Hp & Hk).
    exists id, (lk_Hash k), b. split; [done|]. rewrite (proj2 (lookupKV_ok id k ts (proj1 (Ha id a Hid)))). by rewrite <- Hk.
Qed.

Lemma look_all (s : State) ps done p : ok_accounts s -> separate s -> (forall x, x ∈ done ++ ps -> x ∈ allPreimages s) -> looked s done p ->
  exists p', parseLoop (parseLookup makeOK) ps p = Ret (Some p') /\ looked s (done ++ ps) p'.
Proof.
  intros Ha Hsep. revert done p. induction ps as [|[id [h b]] ps IH]; intros done p Hin Hl; [exists p; by rewrite app_nil_r|].
  destruct (look_step s done id h b p Ha Hsep) as (p1 & E & Hl1); [intros x Hx|..|done|].
  { apply Hin, elem_of_app. by left. }
  { apply Hin, elem_of_app. right. by left. }
  cbn [parseLoop]. rewrite E, go_bind_ret. destruct (IH (done ++ [(id, (h, b))]) p1) as (p2 & E2 & Hl2).
  { intros x Hx. rewrite <- app_assoc in Hx. by apply Hin. }
  { done. }
  exists p2. split; [done|]. by rewrite <- app_assoc in Hl2.
Qed.

Lemma bare_preimages (s : State) : allPreimages (SetDelta (bareAccount <$> s_Delta s) s) = allPreimages s.
Proof.
  unfold allPreimages. cbn [s_Delta SetDelta]. rewrite map_to_list_fmap, list_fmap_bind. apply list_bind_ext; [|done]. by intros [id a].
Qed.

Lemma second_pass (s : State) u : ok_accounts s -> separate s -> (forall k v, u !! k = Some v <-> MkKV k v ∈ accountsKVs otherKVs s) ->
  exists u', parseLoop (parseLookup makeOK) (allPreimages (SetDelta (bareAccount <$> s_Delta s) s)) (SetDelta (bareAccount <$> s_Delta s) s, u) =
    Ret (Some (parsedState s, u')) /\ forall k v, u' !! k = Some v <-> MkKV k v ∈ accountsKVs leftoverKVs s.
Proof.
  intros Ha Hsep Hu. rewrite bare_preimages. destruct (look_all s (allPreimages s) [] (SetDelta (bareAccount <$> s_Delta s) s, u)) as ([st u'] & E & [Hst Hno Hacc Hu']).
  - done.
  - done.
  - done.
  - split; cbn [fst snd s_Delta SetDelta]; [done| | |].
    + intros id Hid. by rewrite lookup_fmap, Hid.
    + intros id a Hid. rewrite lookup_fmap, Hid. exists ∅. split; [done|]. intros k ts. rewrite lookup_empty. split; [done|].
      intros [_ (b & Hb & _)]. by apply elem_of_nil in Hb.
    + intros k v. rewrite Hu. split; [intros Hin; split; [done|]|by intros [? _]]. intros (id & h & b & Hb & _). by apply elem_of_nil in Hb.
  - cbn [app fst snd] in *. exists u'. rewrite E. split.
    + do 3 f_equal. rewrite Hst. unfold parsedState. f_equal. apply map_eq. intros id. rewrite lookup_fmap.
      destruct (s_Delta s !! id) as [a|] eqn:Hid; [|by rewrite Hno]. destruct (Hacc id a Hid) as (l & -> & Hl). cbn. f_equal. unfold parsedAccount. f_equal.
      apply map_eq. intros k. apply option_eq. intros ts. by rewrite Hl, map_lookup_filter_Some, (requested_kept s id a k ts Hid).
    + intros k v. rewrite Hu', leftover_elem by done. done.
Qed.

(** ** The serialization of the parsed state *)

Lemma accountsKVs_ext f g s : (forall id a, s_Delta s !! id = Some a -> f id a ≡ₚ g id a) -> accountsKVs f s ≡ₚ accountsKVs g s.
Proof.
  intros Hfg. unfold accountsKVs.
  assert (forall x, x ∈ map_to_list (s_Delta s) -> f (fst x) (snd x) ≡ₚ g (fst x) (snd x)) as Hx
    by (intros [id a] Hin; by apply Hfg, elem_of_map_to_list).
  revert Hx. generalize (map_to_list (s_Delta s)). intros l Hx. induction l as [|x l IH]; [done|]. cbn [fmap list_fmap concat].
  rewrite (Hx x), IH; [done| |]; intros; [apply Hx|]; set_solver.
Qed.

Lemma accountsKVs_app f g s : accountsKVs (fun id a => f id a ++ g id a) s ≡ₚ accountsKVs f s ++ accountsKVs g s.
Proof.
  unfold accountsKVs. generalize (map_to_list (s_Delta s)). intros l. induction l as [|x l IH]; [done|]. cbn [fmap list_fmap concat].
  rewrite IH. solve_Permutation.
Qed.

Lemma accountsKVs_parsed s : accountsKVs accountKVs (parsedState s) = accountsKVs (fun id a => accountKVs id (parsedAccount a)) s.
Proof.
  unfold accountsKVs, parsedState. cbn [s_Delta SetDelta]. rewrite map_to_list_fmap, <- list_fmap_compose. f_equal.
Qed.

Lemma account_parsed id a : accountKVs id a ≡ₚ accountKVs id (parsedAccount a) ++ leftoverKVs id a.
Proof.
  unfold accountKVs, leftoverKVs. assert (infoKV id (parsedAccount a) = infoKV id a) as -> by done.
  assert (preimageKVs id (parsedAccount a) = preimageKVs id a) as -> by done.
  assert (storageKVs id (parsedAccount a) = []) as -> by (unfold storageKVs; cbn; by rewrite map_to_list_empty).
  assert (lookupKVs id a ≡ₚ lookupKVs id (parsedAccount a) ++ (lookupKV id <$> filter (fun p => ~ keptRequest a p) (map_to_list (ac_LookupDict a)))) as ->.
  { unfold lookupKVs, parsedAccount. cbn [ac_LookupDict]. rewrite map_filter_alt, map_to_list_to_map.
    - rewrite <- fmap_app. by rewrite filter_app_complement.
    - apply NoDup_fmap_fst; [|apply NoDup_filter, NoDup_map_to_list].
      intros k y1 y2 [_ H1]%list_elem_of_filter [_ H2]%list_elem_of_filter. exact (map_to_list_unique _ k y1 y2 H1 H2). }
  cbn [app]. constructor. solve_Permutation.
Qed.

Lemma stateKVs_parsed s : stateKVs s ≡ₚ stateKVs (parsedState s) ++ accountsKVs leftoverKVs s.
Proof.
  unfold stateKVs. assert (componentKVs (parsedState s) = componentKVs s) as -> by done.
  rewrite accountsKVs_parsed, <- app_assoc, <- accountsKVs_app. apply Permutation_app_head, accountsKVs_ext. intros id a _. apply account_parsed.
Qed.

(** ** Keys are bytes *)

Lemma leftover_keys s : separate s -> NoDup (Key <$> accountsKVs leftoverKVs s).
Proof. intros Hs. pose proof (sp_keys s Hs) as Hn. rewrite stateKVs_parsed, fmap_app in Hn. by apply NoDup_app in Hn as (_ & _ & ?). Qed.

Lemma setLoop_bytes n i0 st o : bytes_ok n -> bytes_ok o -> bytes_ok (setLoop n i0 st o).
Proof.
  intros Hn. revert i0 o. induction Hn as [|b n Hb _ IH]; intros i0 o Ho; [done|]. cbn [setLoop]. apply IH. by apply Forall_insert.
Qed.

Lemma zeroKey_bytes : bytes_ok zeroKey.
Proof. apply Forall_replicate. unfold is_byte. lia. Qed.

Lemma serviceID_bytes id : uint 32 id -> bytes_ok (encodeServiceID id).
Proof.
  intros Hi. unfold encodeServiceID. rewrite EncodeUintWithLength_le by lia. apply le_bytes_byte. lia.
Qed.

Lemma typeKey_bytes id h : uint 32 id -> bytes_ok (typeKey id h).
Proof.
  intros Hi. destruct (typeKey_ok id h Hi) as [E _]. revert E. unfold ServiceWrapper_StateKeyConstruct, Blake2bHashPartial.
  destruct (blake2b_hash h) as [Hl Hb]. unfold lslice. rewrite Hl. intros [= <-].
  assert (bytes_ok (take 27 (blake2b_Sum256 h))) by by apply Forall_take.
  apply setLoop_bytes; [by apply Forall_drop|]. apply setLoop_bytes; [by apply Forall_take|].
  change (bytes_ok (setLoop (encodeServiceID id) 0 2 zeroKey)). apply setLoop_bytes; [by apply serviceID_bytes|apply zeroKey_bytes].
Qed.

Lemma stateKVs_wf s : ok_components makeOK spec s -> ok_accounts s -> Forall wf_entry (stateKVs s).
Proof.
  intros Hs Ha. apply Forall_forall. intros kv Hkv. unfold stateKVs in Hkv. apply elem_of_app in Hkv as [Hkv|Hkv].
  - assert (Key kv ∈ Key <$> componentKVs s) as Hk by by apply list_elem_of_fmap_2. apply component_keys in Hk as (i & Hi & Hk); [|done].
    unfold wf_entry. rewrite Hk. split; [done|]. apply Forall_insert; [apply zeroKey_bytes|]. apply elem_of_seqZ in Hi. unfold is_byte. lia.
  - apply accountsKVs_elem in Hkv as (id & a & Hid & Hkv). destruct (Ha id a Hid) as (Hi & _). unfold wf_entry.
    assert (forall h, length (typeKey id h) = 31%nat /\ Forall is_byte (typeKey id h)) as Ht by (intros h; split; [apply (typeKey_ok id h Hi)|by apply typeKey_bytes]).
    unfold accountKVs, storageKVs, preimageKVs, lookupKVs in Hkv. rewrite elem_of_cons, !elem_of_app, !list_elem_of_fmap in Hkv.
    destruct Hkv as [->|[(p & -> & _)|[(p & -> & _)|([k ts] & -> & _)]]]; [|apply Ht..|].
    + cbn [Key infoKV]. unfold StateServiceWrapper_StateKeyConstruct. rewrite setLoop_length. split; [done|]. apply setLoop_bytes; [by apply serviceID_bytes|].
      apply Forall_insert; [apply zeroKey_bytes|]. unfold is_byte. lia.
    + rewrite (proj2 (lookupKV_ok id k ts Hi)). apply Ht.
Qed.

Lemma parsed_accounts_ok s : ok_accounts s -> ok_accounts (parsedState s).
Proof.
  intros Ha id x Hx. cbn [parsedState s_Delta SetDelta] in Hx. rewrite lookup_fmap in Hx. apply fmap_Some in Hx as (a & Hid & ->).
  destruct (Ha id a Hid) as (H1 & H2 & H3 & H4 & H5). split_and!; [done..|].
  intros k ts [Hk _]%map_lookup_filter_Some. by eapply H5.
Qed.

#[local] Instance entryLe_total : Total entryLe.
Proof. intros p q. apply (total bytesLe). Qed.

(** ** Single pairs and differences *)

(** Each pair of a component decodes to the component, that of a service to
    its information. *)
Lemma SingleKeyValToState_ok s : ok_components makeOK spec s -> ok_accounts s ->
  Forall2 (fun i kv => SingleKeyValToState makeOK spec (Key kv) (Value kv) = Ret (Some (componentAt s i))) (seqZ 1 16) (componentKVs s) /\
  forall id a, s_Delta s !! id = Some a -> SingleKeyValToState makeOK spec (Key (infoKV id a)) (Value (infoKV id a)) =
    Ret (Some (CDelta {[ id := MkServiceAccount (ac_ServiceInfo a) ∅ ∅ ∅ ]})).
Proof.
  intros Hs Ha. split.
  - destruct (componentKVs_ok s Hs) as [_ H2]. apply Forall2_lookup. intros n. pose proof (proj1 (Forall2_lookup _ _ _) H2 n) as Hn.
    destruct (seqZ 1 16 !! n) as [i|] eqn:Ei; inversion Hn as [? kv [Hk Hd]|]; subst; constructor. unfold SingleKeyValToState.
    by rewrite Hk, componentIndex_C by (by eapply list_elem_of_lookup_2).
  - intros id a Hid. pose proof (Ha id a Hid) as Hacc. destruct (infoKey id (proj1 Hacc)) as (H1 & H2 & H3).
    unfold SingleKeyValToState. cbn [infoKV Key Value] in *. rewrite H1, H2, H3, go_bind_ret.
    by erewrite andThen_ok by exact (proj2 (info_value id a Hacc)).
Qed.

(** There is no difference exactly if the lists give the same values to the
    same keys. *)
Lemma GetStateKeyValsDiff_nil a b : GetStateKeyValsDiff a b = [] <-> keyValMap a = keyValMap b.
Proof.
  unfold GetStateKeyValsDiff. set (A := keyValMap a). set (B := keyValMap b). split.
  - intros [H1 H2]%app_eq_nil. apply fmap_nil_inv, map_to_list_empty_iff in H2. apply map_eq. intros k.
    destruct (A !! k) as [v|] eqn:Ek.
    + destruct (decide (B !! k = Some v)) as [?|Hn]; [done|exfalso].
      assert (exists d, d ∈ ([] : list StateKeyValDiff)) as [d Hd]; [|by apply elem_of_nil in Hd]. rewrite <- H1.
      destruct (B !! k) as [w|] eqn:Eb; [exists (MkStateKeyValDiff k (Some v) (Some w))|exists (MkStateKeyValDiff k (Some v) None)];
        apply list_elem_of_omap; exists (k, v); rewrite elem_of_map_to_list, Eb; (split; [done|]); [|done].
      by rewrite bool_decide_false by congruence.
    + destruct (B !! k) as [w|] eqn:Eb; [|done]. assert ((B ∖ A) !! k = Some w) as E by (by apply lookup_difference_Some).
      by rewrite H2, lookup_empty in E.
  - intros <-. rewrite map_difference_diag, map_to_list_empty, app_nil_r.
    assert (forall l, (forall k v, (k, v) ∈ l -> A !! k = Some v) -> omap (fun '(key, valueA) => match A !! key with
      | Some valueB => if bool_decide (valueA = valueB) then None else Some (MkStateKeyValDiff key (Some valueA) (Some valueB))
      | None => Some (MkStateKeyValDiff key (Some valueA) None) end) l = []) as Hl; [|apply Hl; intros k v; by rewrite elem_of_map_to_list].
    induction l as [|[k v] l IH]; intros Hin; [done|]. cbn. rewrite (Hin k v) by (by left). rewrite bool_decide_true by done.
    apply IH. intros k' v' Hkv. apply Hin. by right.
Qed.

(** ** Serializing and parsing *)

(** C20: the state that is parsed from a serialized state has the same
    components and the same accounts, with their information, their
    preimages and the requests of these, but without their storage and
    their other requests, which are exactly the pairs that stay unmatched.
    Serialized again, with the unmatched pairs, it gives the same pairs and
    the same state root. The order in which the goroutines and the maps
    deliver the pairs, and the order in which they are parsed, do not
    matter. The keys must tell the pairs apart ([separate]): the keys of
    different things must not collide. *)
Theorem serialize_parse arrange arrange' s : (forall l, arrange l ≡ₚ l) -> (forall l, arrange' l ≡ₚ l) ->
  ok_components makeOK spec s -> ok_accounts s -> separate s ->
  exists kvs, StateEncoder spec arrange s = Ret kvs /\ Sorted entryLe kvs /\
  forall kvs', kvs' ≡ₚ kvs -> exists u kvs'',
    StateKeyValsToState makeOK spec kvs' = Ret (Some (parsedState s, u)) /\
    StateEncoder spec arrange' (parsedState s) = Ret kvs'' /\
    u ≡ₚ accountsKVs leftoverKVs s /\ kvs ≡ₚ kvs'' ++ u /\
    MerklizationSerializedState (kvs'' ++ u) = MerklizationSerializedState kvs.
Proof.
  intros Harr Harr' Hs Ha Hsep. eexists. split; [by apply StateEncoder_ok|]. set (kvs := merge_sort _ _).
  assert (kvs ≡ₚ stateKVs s) as Hk by (unfold kvs; by rewrite merge_sort_Permutation, Harr).
  split; [by apply (Sorted_merge_sort entryLe)|]. intros kvs' Hp. rewrite Hk in Hp.
  destruct (first_pass s kvs' Hs Ha Hsep Hp) as (u & E1 & Hu). destruct (second_pass s u Ha Hsep Hu) as (u' & E2 & Hu').
  assert (ok_accounts (parsedState s)) as Ha' by by apply parsed_accounts_ok.
  set (ul := (fun '(k, v) => MkKV k v) <$> map_to_list u'). exists ul. eexists. split; [|split; [by apply StateEncoder_ok|]].
  { unfold StateKeyValsToState. by rewrite E1, go_bind_ret, E2. }
  assert (ul ≡ₚ accountsKVs leftoverKVs s) as Hul.
  { apply NoDup_Permutation.
    - apply NoDup_fmap_2; [intros [] []; congruence|apply NoDup_map_to_list].
    - by eapply NoDup_fmap_1, leftover_keys.
    - intros [k v]. rewrite <- Hu'. unfold ul. rewrite list_elem_of_fmap. split.
      + intros ([k' v'] & [= -> ->] & Hin). by apply elem_of_map_to_list.
      + intros Hin. exists (k, v). by rewrite elem_of_map_to_list. }
  assert (kvs ≡ₚ merge_sort entryLe (componentKVs (parsedState s) ++ arrange' (accountsKVs accountKVs (parsedState s))) ++ ul) as Hall.
  { rewrite merge_sort_Permutation, Harr', Hul, Hk. apply stateKVs_parsed. }
  split_and!; [done|done|]. apply root_order; [|done]. rewrite Hk. by apply stateKVs_wf.
Qed.

End Pairs.
