(* ===== verification/Preimages.v ===== *)
(** * Preimages

    src/internal/accumulation/extrinsic_preimage.go: the checks of the
    preimages of a block and their integration into the accounts (12.35 to
    12.43), and those that accumulation provides; and
    src/internal/extrinsic/preimage_controller.go.

    A request of a preimage is in the account, or, when the state was parsed
    from its serialization, one of the unmatched pairs. The maps of an
    account are not nil: every account the node makes has them. *)

From stdpp Require Import sorting.
From S2P Require Import Prelude Words Types Config Codec Encode Roundtrip ProtocolWf Trie.
From S2P Require Import TrieSpec Crypto Store StoreLaws StateSer StateSerSpec.
Local Open Scope Z_scope.

Module PreimageErrorCode.
Definition PreimageUnneeded : Z := 0.
Definition PrimagesNotSortedUnique : Z := 1.
End PreimageErrorCode.

(** ** The controller *)

Definition Less (x y : Preimage) : bool :=
  if p_Requester x =? p_Requester y then negb (bool_decide (bytesLe (p_Blob y) (p_Blob x))) else p_Requester x <? p_Requester y.

(** [x] is not after [y]. *)
Definition preimageLe (x y : Preimage) : Prop := Less y x = false.
#[export] Instance preimageLe_dec : RelDecision preimageLe.
Proof. intros x y. unfold preimageLe. apply _. Defined.

Definition PreimageController_Sort (p : list Preimage) : list Preimage := merge_sort preimageLe p.

(** The loop over the rest, after the last element kept. *)
Fixpoint keepDistinct (last : Preimage) (l : list Preimage) : list Preimage :=
  match l with
  | [] => []
  | x :: l =>
      if negb (p_Requester x =? p_Requester last) || negb (bool_decide (p_Blob x = p_Blob last)) then x :: keepDistinct x l
      else keepDistinct last l
  end.

Definition PreimageController_RemoveDuplicates (p : list Preimage) : list Preimage :=
  match PreimageController_Sort p with
  | [] => []
  | x :: l => x :: keepDistinct x l
  end.

Definition PreimageController_Add (newPreimage : Preimage) (p : list Preimage) : list Preimage :=
  PreimageController_RemoveDuplicates (p ++ [newPreimage]).

Section Preimages.
Context `{HashFunctions}.

(** ** Whether a preimage is requested *)

(** The request has no time slots. *)
Definition emptyRequest (v : StateKeyVal) : bool := bool_decide (Value v = [0]).

Definition lookupInKeyVal (keyVals : list StateKeyVal) (lookupKey : LookupMetaMapkey) (serviceID : Z) : go bool :=
  if bool_decide (keyVals = []) then Ret false
  else
    lookupStateKey ← EncodeDelta4Key serviceID lookupKey;
    Ret (match list_find (fun v => Key v = lookupStateKey) keyVals with Some (_, v) => emptyRequest v | None => false end).

Definition lookupAndRemoveKeyVal (keyVals : list StateKeyVal) (lookupKey : LookupMetaMapkey) (serviceID : Z)
  : go (list StateKeyVal * bool) :=
  if bool_decide (keyVals = []) then Ret (keyVals, false)
  else
    lookupStateKey ← EncodeDelta4Key serviceID lookupKey;
    Ret (match list_find (fun v => Key v = lookupStateKey) keyVals with
         | Some (k, v) => if emptyRequest v then (take k keyVals ++ drop (S k) keyVals, true) else (keyVals, false)
         | None => (keyVals, false)
         end).

(** The pairs, from which a request is removed if [parseToState], and the
    answer. *)
Definition ShouldIntegratePreimage (d : ServiceAccountState) (s : Z) (h : Bytes) (l : Z) (keyVals : list StateKeyVal) (parseToState : bool)
  : go (list StateKeyVal * bool) :=
  match d !! s with
  | None => Ret (keyVals, false)
  | Some account =>
      let isInPreimageMap := bool_decide (is_Some (ac_PreimageLookup account !! h)) in
      let lookupKey := MkLookupMetaMapkey h l in
      match ac_LookupDict account !! lookupKey with
      | None =>
          if parseToState then lookupAndRemoveKeyVal keyVals lookupKey s
          else b ← lookupInKeyVal keyVals lookupKey s; Ret (keyVals, b)
      | Some timeSlotSet => Ret (keyVals, negb isInPreimageMap && (lenOf timeSlotSet =? 0))
      end
  end.

(** ** Validation *)

Definition validateSortUnique (eps : list Preimage) : option Z :=
  if existsAdjacent (fun x y => (p_Requester y <? p_Requester x) ||
       ((p_Requester x =? p_Requester y) && bool_decide (bytesLe (p_Blob y) (p_Blob x)))) eps
  then Some PreimageErrorCode.PrimagesNotSortedUnique else None.

Definition preimageLength (ep : Preimage) : Z := u32 (lenOf (p_Blob ep)).

Definition ValidatePreimageExtrinsics (eps : list Preimage) (delta : ServiceAccountState) (keyVals : list StateKeyVal) : go (option Z) :=
  if lenOf eps =? 0 then Ret None
  else
    match validateSortUnique eps with
    | Some e => Ret (Some e)
    | None =>
        firstErrGo (fun ep =>
          r ← ShouldIntegratePreimage delta (p_Requester ep) (Blake2bHash (p_Blob ep)) (preimageLength ep) keyVals false;
          Ret (if snd r : bool then None else Some PreimageErrorCode.PreimageUnneeded)) eps
    end.

(** ** Integration *)

Definition setLookup (d : ServiceAccountState) (s : Z) (a : ServiceAccount) (k : LookupMetaMapkey) (ts : list Z) : ServiceAccountState :=
  <[s := MkServiceAccount (ac_ServiceInfo a) (ac_PreimageLookup a) (<[k := ts]> (ac_LookupDict a)) (ac_StorageDict a)]> d.

(** The preimages to integrate, with an empty request in their accounts, and
    the pairs left. *)
Fixpoint filterLoop (eps : list Preimage) (d : ServiceAccountState) (keyVals : list StateKeyVal)
  : go (list Preimage * ServiceAccountState * list StateKeyVal) :=
  match eps with
  | [] => Ret ([], d, keyVals)
  | ep :: eps =>
      let preimageHash := Blake2bHash (p_Blob ep) in
      r ← ShouldIntegratePreimage d (p_Requester ep) preimageHash (preimageLength ep) keyVals true;
      let '(keyVals, ok) := r in
      if ok : bool then
        match d !! p_Requester ep with
        | Some requestService =>
            r ← filterLoop eps (setLookup d (p_Requester ep) requestService (MkLookupMetaMapkey preimageHash (preimageLength ep)) []) keyVals;
            let '(filtered, d, keyVals) := r in Ret (ep :: filtered, d, keyVals)
        | None => Crash
        end
      else filterLoop eps d keyVals
  end.

Definition filterPreimageExtrinsics (eps : list Preimage) (d : ServiceAccountState) (cs : ChainState)
  : go (list Preimage * ServiceAccountState * ChainState) :=
  r ← filterLoop eps d (postStateUnmatchedKeyVals cs);
  let '(filtered, d, copiedKeyVals) := r in
  Ret (filtered, d, SetPostStateUnmatchedKeyVals copiedKeyVals cs).

Definition integrate (d : ServiceAccountState) (s : Z) (a : ServiceAccount) (blob : Bytes) (k : LookupMetaMapkey) (tauPrime : Z) : ServiceAccountState :=
  <[s := MkServiceAccount (ac_ServiceInfo a) (<[lk_Hash k := blob]> (ac_PreimageLookup a)) (<[k := [tauPrime]]> (ac_LookupDict a)) (ac_StorageDict a)]> d.

(** The accounts as they were written, and whether there was no error. *)
Fixpoint UpdateDeltaWithExtrinsicPreimage (eps : list Preimage) (deltaDoubleDagger : ServiceAccountState) (tauPrime : Z)
  : ServiceAccountState * bool :=
  match eps with
  | [] => (deltaDoubleDagger, true)
  | ep :: eps =>
      match deltaDoubleDagger !! p_Requester ep with
      | None => (deltaDoubleDagger, false)
      | Some serviceAccount =>
          UpdateDeltaWithExtrinsicPreimage eps (integrate deltaDoubleDagger (p_Requester ep) serviceAccount (p_Blob ep)
            (MkLookupMetaMapkey (Blake2bHash (p_Blob ep)) (preimageLength ep)) tauPrime) tauPrime
      end
  end.

(** The accounts [DeltaDoubleDagger] are written to. Their inner maps are
    those of [DeltaDagger], from which [updateDeltaDoubleDagger] copied the
    accounts, and of the prior accounts that accumulation left alone. *)
Definition writeDoubleDagger (d : ServiceAccountState) (cs : ChainState) : ChainState :=
  writePriorMaps d (onIntermediate (fun i =>
    SetDeltaDagger (takeMaps (dom (DeltaDagger i)) d (DeltaDagger i)) (SetDeltaDoubleDagger d i)) cs).

(** The error of the update is only logged: the posterior accounts are then
    the nil map; else they are the map [DeltaDoubleDagger]. *)
Definition ProcessPreimageExtrinsics (cs : ChainState) : go ChainState :=
  let eps := ex_Preimages (b_Extrinsic (latestBlock cs)) in
  let tauPrime := s_Tau (posteriorStates cs) in
  r ← filterPreimageExtrinsics eps (DeltaDoubleDagger (intermediateStates cs)) cs;
  let '(filteredEps, updated, cs) := r in
  let '(d, ok) := UpdateDeltaWithExtrinsicPreimage filteredEps updated tauPrime in
  Ret (onPosterior (SetDelta (if ok : bool then d else ∅)) (writeDoubleDagger d cs)).

(** ** Preimages that accumulation provides *)

(** A pair of a service and a blob. *)
Fixpoint Provide (tauPrime : Z) (d : ServiceAccountState) (eps : list (Z * Bytes)) : ServiceAccountState :=
  match eps with
  | [] => d
  | (serviceID, blob) :: eps =>
      match d !! serviceID with
      | None => Provide tauPrime d eps
      | Some serviceAccount =>
          let lookupKey := MkLookupMetaMapkey (Blake2bHash blob) (u32 (lenOf blob)) in
          match ac_LookupDict serviceAccount !! lookupKey with
          | Some timeSlotSet =>
              if 0 <? lenOf timeSlotSet then Provide tauPrime d eps
              else Provide tauPrime (integrate d serviceID serviceAccount blob lookupKey tauPrime) eps
          | None => Provide tauPrime d eps
          end
      end
  end.

(** ** The step of the state transition *)

Definition UpdatePreimages (cs : ChainState) : go (ChainState * option Z) :=
  e ← ValidatePreimageExtrinsics (ex_Preimages (b_Extrinsic (latestBlock cs))) (s_Delta (priorStates cs)) (preStateUnmatchedKeyVals cs);
  match e with
  | Some e => Ret (cs, Some e)
  | None => cs ← ProcessPreimageExtrinsics cs; Ret (cs, None)
  end.

End Preimages.

(** * Correctness *)


(** ** The order of preimages *)

Definition preimageLt (x y : Preimage) : Prop :=
  p_Requester x < p_Requester y \/ p_Requester x = p_Requester y /\ bytesLt (p_Blob x) (p_Blob y).

#[export] Instance preimageLt_trans : Transitive preimageLt.
Proof.
  intros x y z [H1|[E1 H1]] [H2|[E2 H2]]; unfold preimageLt; try (left; lia). right. split; [lia|]. by transitivity (p_Blob y).
Qed.

#[export] Instance preimageLt_dec : RelDecision preimageLt.
Proof. intros x y. unfold preimageLt, bytesLt. apply _. Defined.

Lemma bytesLe_false a b : bool_decide (bytesLe b a) = false <-> bytesLt a b.
Proof.
  rewrite bool_decide_eq_false. unfold bytesLe, bytesLt. rewrite (bytesCompare_antisym a b).
  destruct (bytesCompare a b); cbn; (split; intros H; [|try done]); try done; try (exfalso; by apply H). intros Hc. by apply Hc.
Qed.

Lemma validateSortUnique_None eps : validateSortUnique eps = None <-> StronglySorted preimageLt eps.
Proof.
  unfold validateSortUnique. rewrite if_None, existsAdjacent_false.
  assert (forall x y, (p_Requester y <? p_Requester x) || ((p_Requester x =? p_Requester y) && bool_decide (bytesLe (p_Blob y) (p_Blob x))) = false
    <-> preimageLt x y) as He.
  { intros x y. rewrite orb_false_iff, andb_false_iff, bytesLe_false, Z.ltb_ge, Z.eqb_neq. unfold preimageLt. split.
    - intros [? [?|?]]; [left; lia|]. destruct (decide (p_Requester x = p_Requester y)); [by right|left; lia].
    - intros [?|[? ?]]; (split; [lia|]); [left; lia|by right]. }
  split.
  - intros Hs. apply Sorted_StronglySorted; [intros x y z; apply preimageLt_trans|]. eapply Sorted_weaken; [|exact Hs]. intros x y. apply He.
  - intros Hs%StronglySorted_Sorted. eapply Sorted_weaken; [|exact Hs]. intros x y. apply He.
Qed.

(** A check of all that has one error. *)
Lemma firstErrGo_decide {A} (P : A -> Prop) `{forall x, Decision (P x)} (f : A -> go (option Z)) e l :
  Forall (fun x => f x = Ret (if decide (P x) then None else Some e)) l ->
  firstErrGo f l = Ret (if decide (Forall P l) then None else Some e).
Proof.
  induction 1 as [|x l Hx _ IH]; [done|]. cbn [firstErrGo]. rewrite Hx, go_bind_ret. destruct (decide (P x)) as [Hp|Hp].
  - rewrite IH. f_equal. destruct (decide (Forall P l)) as [Hl|Hl]; [by rewrite decide_True by by constructor|].
    rewrite decide_False; [done|]. by intros [_ ?]%Forall_cons.
  - rewrite decide_False; [done|]. by intros [? _]%Forall_cons.
Qed.

Section Preimages.
Context `{HashLaws}.

(** The request that a preimage answers, and its key. *)
Definition epRequest (ep : Preimage) : LookupMetaMapkey := requestOf (Blake2bHash (p_Blob ep)) (p_Blob ep).
Definition epKey (ep : Preimage) : Bytes := lookupKey (p_Requester ep) (epRequest ep).

(** The first pair with a key. *)
Definition pairAt (kvs : list StateKeyVal) (key : Bytes) : option StateKeyVal := snd <$> list_find (fun kv => Key kv = key) kvs.

(** A preimage is requested: its account has an empty request of it, or has
    none, and one is among the unmatched pairs. *)
Definition requested (d : ServiceAccountState) (kvs : list StateKeyVal) (ep : Preimage) : Prop :=
  exists a, d !! p_Requester ep = Some a /\
    (ac_LookupDict a !! epRequest ep = Some [] \/ ac_LookupDict a !! epRequest ep = None /\ Value <$> pairAt kvs (epKey ep) = Some [0]).

(** The account has it already. *)
Definition present (d : ServiceAccountState) (ep : Preimage) : Prop :=
  exists a, d !! p_Requester ep = Some a /\ is_Some (ac_PreimageLookup a !! Blake2bHash (p_Blob ep)).

(** The request is one of the unmatched pairs. *)
Definition unparsed (d : ServiceAccountState) (ep : Preimage) : Prop :=
  match d !! p_Requester ep with None => False | Some a => ac_LookupDict a !! epRequest ep = None end.
#[global] Instance unparsed_dec d ep : Decision (unparsed d ep).
Proof. unfold unparsed. destruct (d !! _); apply _. Defined.

(** The condition of the protocol (12.36), and the preimages that the code
    takes though they are there: it does not look for one whose request is
    among the unmatched pairs. *)
Definition wanted (d : ServiceAccountState) (kvs : list StateKeyVal) (ep : Preimage) : Prop := requested d kvs ep /\ ~ present d ep.
Definition overlooked (d : ServiceAccountState) (kvs : list StateKeyVal) (ep : Preimage) : Prop :=
  requested d kvs ep /\ present d ep /\ unparsed d ep.

(** What the code answers, by cases of the account. *)
Definition needed (d : ServiceAccountState) (kvs : list StateKeyVal) (ep : Preimage) : Prop :=
  match d !! p_Requester ep with
  | None => False
  | Some a =>
      match ac_LookupDict a !! epRequest ep with
      | Some ts => ac_PreimageLookup a !! Blake2bHash (p_Blob ep) = None /\ ts = []
      | None => Value <$> pairAt kvs (epKey ep) = Some [0]
      end
  end.
#[global] Instance needed_dec d kvs ep : Decision (needed d kvs ep).
Proof. unfold needed. destruct (d !! _) as [a|]; [|apply _]. destruct (_ !! epRequest ep); apply _. Defined.

Lemma needed_iff d kvs ep : needed d kvs ep <-> wanted d kvs ep \/ overlooked d kvs ep.
Proof.
  unfold needed, wanted, overlooked, requested, present, unparsed. destruct (d !! p_Requester ep) as [a|].
  2: { split; [done|]. intros [[(? & ? & _) _]|[(? & ? & _) _]]; done. }
  assert (forall Q : ServiceAccount -> Prop, (exists a', Some a = Some a' /\ Q a') <-> Q a) as Hx.
  { intros Q. split; [by intros (? & [= <-] & ?)|eauto]. }
  rewrite !Hx. destruct (ac_LookupDict a !! epRequest ep) as [ts|].
  - rewrite <- eq_None_not_Some, (inj_iff Some). intuition congruence.
  - destruct (ac_PreimageLookup a !! _) as [b|] eqn:Eb; [|rewrite <- eq_None_not_Some]; intuition (eauto; congruence).
Qed.

#[global] Instance integrated_dec d kvs ep : Decision (wanted d kvs ep \/ overlooked d kvs ep).
Proof. destruct (decide (needed d kvs ep)) as [Hn|Hn]; [left|right]; by rewrite <- needed_iff. Defined.

Definition removeKey (key : Bytes) (kvs : list StateKeyVal) : list StateKeyVal :=
  match list_find (fun kv => Key kv = key) kvs with Some (k, _) => take k kvs ++ drop (S k) kvs | None => kvs end.

Lemma epKey_ok ep : uint 32 (p_Requester ep) ->
  EncodeDelta4Key (p_Requester ep) (MkLookupMetaMapkey (Blake2bHash (p_Blob ep)) (preimageLength ep)) = Ret (epKey ep).
Proof.
  intros Hr. unfold epKey, epRequest, requestOf, lookupKey. fold (preimageLength ep). unfold EncodeDelta4Key. cbv zeta.
  by rewrite (proj1 (typeKey_ok _ _ Hr)).
Qed.

Lemma find_nil (key : Bytes) (kvs : list StateKeyVal) : bool_decide (kvs = []) = true -> list_find (fun kv => Key kv = key) kvs = None.
Proof. intros ->%bool_decide_eq_true. done. Qed.

Lemma ShouldIntegrate_ok d kvs ep (parse : bool) : uint 32 (p_Requester ep) ->
  ShouldIntegratePreimage d (p_Requester ep) (Blake2bHash (p_Blob ep)) (preimageLength ep) kvs parse =
    Ret (if decide (parse = true /\ needed d kvs ep /\ unparsed d ep) then removeKey (epKey ep) kvs else kvs, bool_decide (needed d kvs ep)).
Proof.
  intros Hr. assert (needed d kvs ep <-> needed d kvs ep) as Hn by done. assert (unparsed d ep <-> unparsed d ep) as Hu by done.
  unfold needed at 2 in Hn. unfold unparsed at 2 in Hu.
  revert Hn Hu. generalize (needed_dec d kvs ep), (unparsed_dec d ep). generalize (needed d kvs ep), (unparsed d ep). intros N U dN dU Hn Hu.
  unfold ShouldIntegratePreimage. change (MkLookupMetaMapkey (Blake2bHash (p_Blob ep)) (preimageLength ep)) with (epRequest ep).
  destruct (d !! p_Requester ep) as [a|]; [|by rewrite decide_False, bool_decide_false by tauto].
  destruct (ac_LookupDict a !! epRequest ep) as [ts|].
  { rewrite decide_False by (intros (_ & _ & Hc); by apply Hu in Hc). do 2 f_equal. symmetry. destruct ts as [|t ts].
    - rewrite Z.eqb_refl, andb_true_r. destruct (ac_PreimageLookup a !! _) as [b|].
      + rewrite (bool_decide_true (is_Some _)) by eauto. apply bool_decide_eq_false. rewrite Hn. by intros [? _].
      + rewrite (bool_decide_false (is_Some _)) by (by intros [? ?]). apply bool_decide_eq_true. by apply Hn.
    - rewrite (proj2 (Z.eqb_neq _ _)) by (unfold lenOf; cbn; lia). rewrite andb_false_r. apply bool_decide_eq_false. rewrite Hn. by intros [_ ?]. }
  unfold lookupAndRemoveKeyVal, lookupInKeyVal, removeKey, emptyRequest. unfold pairAt in Hn. unfold epRequest at 1 2. rewrite epKey_ok, !go_bind_ret by done.
  destruct (bool_decide (kvs = [])) eqn:En; cbn beta iota.
  - rewrite (find_nil _ _ En) in *. assert (~ N) by by rewrite Hn.
    rewrite decide_False, bool_decide_false by tauto. by destruct parse.
  - destruct (list_find _ kvs) as [[k v]|]; cbn [fmap option_fmap option_map snd] in Hn.
    + destruct (decide (Value v = [0])) as [Hv|Hv].
      * assert N by (by apply Hn; rewrite Hv). assert U by by apply Hu. rewrite !bool_decide_true by done. destruct parse; [by rewrite decide_True by done|].
        by rewrite decide_False by (intros (? & _); done).
      * assert (~ N) by (rewrite Hn; congruence). rewrite !bool_decide_false by done. rewrite decide_False by tauto. by destruct parse.
    + assert (~ N) by (by rewrite Hn). rewrite decide_False, bool_decide_false by tauto. by destruct parse.
Qed.

(** The outcome of the check. *)
Definition checked (d : ServiceAccountState) (kvs : list StateKeyVal) (eps : list Preimage) : option Z :=
  if decide (StronglySorted preimageLt eps) then
    if decide (Forall (needed d kvs) eps) then None else Some PreimageErrorCode.PreimageUnneeded
  else Some PreimageErrorCode.PrimagesNotSortedUnique.

Lemma ValidatePreimage_decide delta kvs eps : Forall (fun ep => uint 32 (p_Requester ep)) eps ->
  ValidatePreimageExtrinsics eps delta kvs = Ret (checked delta kvs eps).
Proof.
  intros Hr. unfold ValidatePreimageExtrinsics, checked. destruct (lenOf eps =? 0) eqn:Ez.
  { destruct eps; [|done]. rewrite !decide_True by constructor. done. }
  destruct (validateSortUnique eps) as [e|] eqn:Es.
  - rewrite decide_False by (rewrite <- validateSortUnique_None, Es; done). f_equal. rewrite <- Es. unfold validateSortUnique in *.
    by destruct (existsAdjacent _ eps).
  - rewrite decide_True by by apply validateSortUnique_None. apply firstErrGo_decide. eapply Forall_impl; [exact Hr|].
    intros ep Hep. cbn beta. rewrite ShouldIntegrate_ok, go_bind_ret by done. cbn [snd].
    destruct (decide (needed delta kvs ep)); [by rewrite bool_decide_true|by rewrite bool_decide_false].
Qed.


(** ** Integration *)

Lemma filter_keep {A} (P : A -> Prop) `{forall x, Decision (P x)} l : Forall P l -> filter P l = l.
Proof. induction 1 as [|x l Hx _ IH]; [done|]. by rewrite filter_cons_True, IH. Qed.

Lemma filter_same {A} (P Q : A -> Prop) `{forall x, Decision (P x)} `{forall x, Decision (Q x)} l :
  Forall (fun x => P x <-> Q x) l -> filter P l = filter Q l.
Proof. induction 1 as [|x l Hx _ IH]; [done|]. rewrite !filter_cons, IH. by repeat case_decide; try tauto. Qed.

Lemma pairAt_cons kv kvs key : pairAt (kv :: kvs) key = if decide (Key kv = key) then Some kv else pairAt kvs key.
Proof. unfold pairAt. cbn. case_decide; [done|]. by destruct (list_find _ kvs) as [[]|]. Qed.

Lemma pairAt_removeKey key key' kvs : key <> key' -> pairAt (removeKey key kvs) key' = pairAt kvs key'.
Proof.
  intros Hk. unfold removeKey, pairAt. destruct (list_find _ kvs) as [[k v]|] eqn:Ef; [|done].
  apply list_find_Some in Ef as (Hv & Hkey & _). fold (pairAt (take k kvs ++ drop (S k) kvs) key'). fold (pairAt kvs key').
  rewrite <- (take_drop_middle kvs k v Hv) at 3. induction (take k kvs) as [|w l IH]; cbn [app].
  - by rewrite pairAt_cons, decide_False by congruence.
  - by rewrite !pairAt_cons, IH.
Qed.

Lemma removeKey_filter key kvs : NoDup (Key <$> kvs) -> removeKey key kvs = filter (fun kv => Key kv <> key) kvs.
Proof.
  intros Hn. unfold removeKey. destruct (list_find _ kvs) as [[k v]|] eqn:Ef.
  - apply list_find_Some in Ef as (Hv & Hkey & Hb). pose proof (take_drop_middle kvs k v Hv) as Et. rewrite <- Et at 3.
    rewrite filter_app, filter_cons_False by (by intros ?). rewrite <- Et, fmap_app, fmap_cons in Hn. apply NoDup_app in Hn as (_ & Hd & [Hv2 _]%NoDup_cons).
    rewrite Hkey in Hd, Hv2. f_equal; symmetry; apply filter_keep, Forall_forall; intros kv Hin E.
    + apply (Hd (Key kv)); [by apply list_elem_of_fmap_2|]. rewrite E. by left.
    + apply Hv2. rewrite <- E. by apply list_elem_of_fmap_2.
  - apply list_find_None in Ef. symmetry. by apply filter_keep.
Qed.

Lemma filter_keys key (kvs : list StateKeyVal) : filter (fun k => k <> key) (Key <$> kvs) = Key <$> filter (fun kv => Key kv <> key) kvs.
Proof. induction kvs as [|kv kvs IH]; [done|]. rewrite fmap_cons, !filter_cons, IH. by case_decide. Qed.

Lemma removeKeys_filter keys kvs : NoDup (Key <$> kvs) ->
  foldl (fun kvs key => removeKey key kvs) kvs keys = filter (fun kv => Key kv ∉ keys) kvs.
Proof.
  revert kvs. induction keys as [|key keys IH]; intros kvs Hn; cbn [foldl].
  - symmetry. apply filter_keep, Forall_forall. intros kv _. apply not_elem_of_nil.
  - rewrite removeKey_filter by done. rewrite IH.
    + rewrite list_filter_filter. apply list_filter_iff. intros kv. rewrite not_elem_of_cons. tauto.
    + apply (NoDup_filter (fun k => k <> key)) in Hn. by rewrite filter_keys in Hn.
Qed.

(** The effect of a preimage on an account: first its request is emptied,
    then its blob is stored and its request has the time slot. *)
Definition openRequest (a : ServiceAccount) (ep : Preimage) : ServiceAccount :=
  MkServiceAccount (ac_ServiceInfo a) (ac_PreimageLookup a) (<[epRequest ep := []]> (ac_LookupDict a)) (ac_StorageDict a).
Definition receive (tau : Z) (a : ServiceAccount) (ep : Preimage) : ServiceAccount :=
  MkServiceAccount (ac_ServiceInfo a) (<[Blake2bHash (p_Blob ep) := p_Blob ep]> (ac_PreimageLookup a)) (<[epRequest ep := [tau]]> (ac_LookupDict a))
    (ac_StorageDict a).

(** The preimages of a service. *)
Definition ofService (s : Z) (eps : list Preimage) : list Preimage := filter (fun ep => p_Requester ep = s) eps.

Definition openIn (d : ServiceAccountState) (ep : Preimage) : ServiceAccountState :=
  match d !! p_Requester ep with Some a => <[p_Requester ep := openRequest a ep]> d | None => d end.

Lemma openIn_needed d kvs ep x : epKey ep <> epKey x -> (needed (openIn d ep) kvs x <-> needed d kvs x) /\ (unparsed (openIn d ep) x <-> unparsed d x).
Proof.
  intros Hk. unfold needed, unparsed, openIn. destruct (d !! p_Requester ep) as [a|] eqn:Ea; [|done].
  destruct (decide (p_Requester ep = p_Requester x)) as [E|E].
  - rewrite E, lookup_insert_eq. rewrite E in Ea. rewrite Ea. cbn. rewrite lookup_insert_ne; [done|]. intros Er. apply Hk. unfold epKey. by rewrite E, Er.
  - by rewrite lookup_insert_ne by done.
Qed.

Lemma removeKey_needed d key kvs x : key <> epKey x -> needed d (removeKey key kvs) x <-> needed d kvs x.
Proof. intros Hk. unfold needed. by rewrite pairAt_removeKey. Qed.

Lemma filterLoop_ok eps d kvs : Forall (fun ep => uint 32 (p_Requester ep)) eps -> NoDup (epKey <$> eps) ->
  let F := filter (needed d kvs) eps in
  filterLoop eps d kvs = Ret (F, foldl openIn d F, foldl (fun kvs key => removeKey key kvs) kvs (epKey <$> filter (unparsed d) F)).
Proof.
  intros Hr. revert d kvs. induction Hr as [|ep eps Hep _ IH]; intros d kvs Hn; [done|]. cbn [filterLoop]. cbn zeta.
  rewrite fmap_cons in Hn. apply NoDup_cons in Hn as [Hni Hn].
  assert (forall x, x ∈ eps -> epKey ep <> epKey x) as Hk by (intros x Hx E; apply Hni; rewrite E; by apply list_elem_of_fmap_2).
  rewrite ShouldIntegrate_ok, go_bind_ret by done. cbn beta iota.
  destruct (decide (needed d kvs ep)) as [Hne|Hne].
  - rewrite bool_decide_true by done. destruct (d !! p_Requester ep) as [a|] eqn:Ea; [|unfold needed in Hne; by rewrite Ea in Hne].
    rewrite filter_cons_True by done.
    change (setLookup d (p_Requester ep) a _ []) with (<[p_Requester ep := openRequest a ep]> d).
    assert (<[p_Requester ep := openRequest a ep]> d = openIn d ep) as Eo by (unfold openIn; by rewrite Ea).
    rewrite Eo, IH, go_bind_ret by done.
    set (kvs' := if decide _ then _ else _).
    assert (filter (needed (openIn d ep) kvs') eps = filter (needed d kvs) eps) as EF.
    { apply filter_same,  Forall_forall. intros x Hx. rewrite (proj1 (openIn_needed _ _ _ _ (Hk x Hx))). unfold kvs'.
      destruct (decide _); [apply removeKey_needed; by apply Hk|done]. }
    rewrite EF. do 2 f_equal. rewrite (filter_same (unparsed (openIn d ep)) (unparsed d)).
    + unfold kvs'. destruct (decide (unparsed d ep)) as [Hu|Hu]; [rewrite decide_True, filter_cons_True by done|rewrite decide_False, filter_cons_False by tauto]; done.
    + apply Forall_forall. intros x [_ Hx]%list_elem_of_filter. by apply openIn_needed, Hk.
  - rewrite bool_decide_false, decide_False by tauto. by rewrite filter_cons_False, IH by done.
Qed.

(** The accounts after a change of one account for each preimage. *)
Lemma openAll_lookup F d s : foldl openIn d F !! s = (fun a => foldl openRequest a (ofService s F)) <$> d !! s.
Proof.
  revert d. induction F as [|ep F IH]; intros d; cbn [foldl ofService]; [by destruct (d !! s)|]. rewrite IH. unfold openIn, ofService.
  destruct (decide (p_Requester ep = s)) as [<-|Hs].
  - rewrite filter_cons_True by done. destruct (d !! p_Requester ep) as [a|] eqn:Ea; [by rewrite lookup_insert_eq|by rewrite Ea].
  - rewrite filter_cons_False by done. destruct (d !! p_Requester ep); [by rewrite lookup_insert_ne|done].
Qed.

Lemma UpdateDelta_ok F d tau : Forall (fun ep => is_Some (d !! p_Requester ep)) F ->
  exists d', UpdateDeltaWithExtrinsicPreimage F d tau = (d', true) /\ forall s, d' !! s = (fun a => foldl (receive tau) a (ofService s F)) <$> d !! s.
Proof.
  revert d. induction F as [|ep F IH]; intros d Hf; cbn [UpdateDeltaWithExtrinsicPreimage].
  { exists d. split; [done|]. intros s. by destruct (d !! s). }
  apply Forall_cons in Hf as [[a Ha] Hf]. rewrite Ha. change (integrate _ _ _ _ _ _) with (<[p_Requester ep := receive tau a ep]> d).
  destruct (IH (<[p_Requester ep := receive tau a ep]> d)) as (d' & -> & Hd').
  { eapply Forall_impl; [exact Hf|]. intros x Hx. cbn beta in *. apply lookup_insert_is_Some'. by right. }
  exists d'. split; [done|]. intros s. rewrite Hd'. unfold ofService. destruct (decide (p_Requester ep = s)) as [<-|Hs].
  - by rewrite filter_cons_True, lookup_insert_eq, Ha.
  - by rewrite filter_cons_False, lookup_insert_ne by done.
Qed.

Lemma foldl_insert_lookup {A} (f : A -> LookupMetaMapkey) (v : list Z) l (m : gmap LookupMetaMapkey (list Z)) k :
  foldl (fun m x => <[f x := v]> m) m l !! k = if decide (k ∈ f <$> l) then Some v else m !! k.
Proof.
  revert m. induction l as [|x l IH]; intros m; cbn [foldl]; [done|]. rewrite IH, fmap_cons. destruct (decide (k ∈ f <$> l)) as [Hk|Hk].
  - rewrite decide_True; [done|]. by right.
  - destruct (decide (f x = k)) as [<-|E]; [rewrite decide_True, lookup_insert_eq by by left|rewrite decide_False, lookup_insert_ne; [done|done|by intros [?|?]%elem_of_cons]]; done.
Qed.

Lemma receiveAll_open tau F a : foldl (receive tau) (foldl openRequest a F) F = foldl (receive tau) a F.
Proof.
  assert (forall a F, foldl (receive tau) a F = MkServiceAccount (ac_ServiceInfo a)
    (foldl (fun m ep => <[Blake2bHash (p_Blob ep) := p_Blob ep]> m) (ac_PreimageLookup a) F)
    (foldl (fun m ep => <[epRequest ep := [tau]]> m) (ac_LookupDict a) F) (ac_StorageDict a)) as Hr.
  { clear. intros a F. revert a. induction F as [|x F IH]; intros []; cbn; [done|]. by rewrite IH. }
  assert (forall a F, foldl openRequest a F = MkServiceAccount (ac_ServiceInfo a) (ac_PreimageLookup a)
    (foldl (fun m ep => <[epRequest ep := []]> m) (ac_LookupDict a) F) (ac_StorageDict a)) as Ho.
  { clear. intros a F. revert a. induction F as [|x F IH]; intros []; cbn; [done|]. by rewrite IH. }
  rewrite !Hr, Ho. cbn. f_equal. apply map_eq. intros k. rewrite !foldl_insert_lookup. by destruct (decide _).
Qed.


(** ** Preimages against a parsed state *)

(** A preimage is requested, in the accounts that have all their requests. *)
Definition requestedIn (d : ServiceAccountState) (ep : Preimage) : Prop :=
  exists a, d !! p_Requester ep = Some a /\ ac_PreimageLookup a !! Blake2bHash (p_Blob ep) = None /\ ac_LookupDict a !! epRequest ep = Some [].

(** The hash of the preimage, and the key of its request, are not those of
    something else in the state. *)
Record noCollision (s : State) (ep : Preimage) : Prop := {
  nc_hash : from_option (fun a => from_option (fun b => b = p_Blob ep) True (ac_PreimageLookup a !! Blake2bHash (p_Blob ep))) True
    (s_Delta s !! p_Requester ep);
  nc_request : Forall (fun '(id, k) => lookupKey id k = epKey ep -> id = p_Requester ep /\ k = epRequest ep) (allRequests s);
  nc_storage : Forall (fun kv => Key kv <> epKey ep) (accountsKVs storageKVs s) }.

Lemma pairAt_elem kvs key kv : NoDup (Key <$> kvs) -> kv ∈ kvs -> Key kv = key -> pairAt kvs key = Some kv.
Proof.
  intros Hn Hin Hk. induction kvs as [|x kvs IH]; [by apply elem_of_nil in Hin|]. rewrite pairAt_cons. apply NoDup_cons in Hn as [Hx Hn].
  apply elem_of_cons in Hin as [<-|Hin]; [by rewrite decide_True|]. rewrite decide_False; [by apply IH|].
  intros E. apply Hx. rewrite E, <- Hk. by apply list_elem_of_fmap_2.
Qed.

Lemma pairAt_Some kvs key kv : pairAt kvs key = Some kv -> kv ∈ kvs /\ Key kv = key.
Proof.
  unfold pairAt. destruct (list_find _ kvs) as [[k v]|] eqn:Ef; [|done]. intros [= ->]. apply list_find_Some in Ef as (Hv & Hkey & _).
  split; [by eapply list_elem_of_lookup_2|done].
Qed.

Context (makeOK : Z -> bool) (spec : ChainSpec).

(** The value of a request tells whether it is empty. *)
Lemma emptyRequest_value id k ts : uint 32 id -> slice makeOK (uint 32) ts -> Value (lookupKV id (k, ts)) = [0] <-> ts = [].
Proof.
  intros Hi Hts. pose proof (lookup_value makeOK id k ts Hi Hts) as Hd. split.
  - intros Ev. rewrite Ev in Hd. change (Ret (Some []) = Ret (Some ts)) in Hd. by injection Hd.
  - intros ->. unfold lookupKV, EncodeDelta4KeyVal, EncodeDelta4Key. cbv zeta. cbn [fst snd]. by rewrite (proj1 (typeKey_ok _ _ Hi)).
Qed.

Lemma needed_parsed s u ep : ok_accounts makeOK s -> separate spec s -> u ≡ₚ accountsKVs leftoverKVs s -> noCollision s ep ->
  needed (s_Delta (parsedState s)) u ep <-> requestedIn (s_Delta s) ep.
Proof.
  intros Ha Hs Hu [Hh Hk Hst]. rewrite Forall_forall in Hk. rewrite Forall_forall in Hst. unfold needed, requestedIn. cbn. rewrite lookup_fmap. destruct (s_Delta s !! p_Requester ep) as [a|] eqn:Ea; cbn [from_option] in Hh; cbn.
  2: { split; [done|]. by intros (? & ? & _). }
  assert (requestedIn (s_Delta s) ep <-> ac_PreimageLookup a !! Blake2bHash (p_Blob ep) = None /\ ac_LookupDict a !! epRequest ep = Some []) as Hr.
  { unfold requestedIn. rewrite Ea. split; [by intros (? & [= <-] & ?)|eauto]. }
  unfold requestedIn in Hr. rewrite Ea in Hr. rewrite Hr. clear Hr. destruct (Ha _ _ Ea) as (Hi & _ & _ & _ & Hts).
  rewrite map_lookup_filter. destruct (ac_LookupDict a !! epRequest ep) as [ts|] eqn:Ets; cbn.
  - destruct (decide (keptRequest a (epRequest ep, ts))) as [Hkept|Hkept]; [rewrite option_guard_True by done; cbn; by rewrite (inj_iff Some)|].
    rewrite option_guard_False by done. cbn.
    assert (ac_PreimageLookup a !! Blake2bHash (p_Blob ep) = None) as En.
    { destruct (_ !! Blake2bHash (p_Blob ep)) as [b|] eqn:Eb; [|done]. destruct Hkept. unfold keptRequest. cbn. rewrite Eb. cbn in Hh. by rewrite Hh. }
    rewrite (pairAt_elem _ _ (lookupKV (p_Requester ep) (epRequest ep, ts))).
    + cbn. rewrite (inj_iff Some), (emptyRequest_value _ _ _ Hi (Hts _ _ Ets)), (inj_iff Some). tauto.
    + rewrite Hu. by apply (leftover_keys spec).
    + rewrite Hu. apply accountsKVs_elem. exists (p_Requester ep), a. split; [done|]. apply elem_of_app. right. apply list_elem_of_fmap_2.
      apply list_elem_of_filter. split; [done|]. by apply elem_of_map_to_list.
    + by rewrite (proj2 (lookupKV_ok _ _ _ Hi)).
  - split; [|by intros [_ ?]]. destruct (pairAt u (epKey ep)) as [kv|] eqn:Ep; [|done]. intros _. exfalso.
    apply pairAt_Some in Ep as [Hin Hkey]. rewrite Hu in Hin. apply accountsKVs_elem in Hin as (id & a' & Ea' & [Hin|Hin]%elem_of_app).
    + apply (Hst kv); [|done]. apply accountsKVs_elem. by exists id, a'.
    + apply list_elem_of_fmap in Hin as ([k ts] & -> & [_ Hin%elem_of_map_to_list]%list_elem_of_filter).
      rewrite (proj2 (lookupKV_ok _ _ _ (proj1 (Ha _ _ Ea')))) in Hkey. destruct (Hk (id, k)) as [-> ->]; [|done|congruence].
      apply allRequests_elem. eauto.
Qed.

(** C26: the accounts of a state that was parsed from its serialization do
    not have the requests of missing preimages, these are among the
    unmatched pairs (12.35 is stated for the whole accounts). The check of
    the preimages against the parsed accounts and the unmatched pairs is the
    check against the whole accounts: it succeeds exactly if the preimages
    are in order and each is requested, with no time slot and not there yet,
    in the accounts that were serialized. *)
Theorem ValidatePreimageExtrinsics_refines s u eps : ok_accounts makeOK s -> separate spec s -> u ≡ₚ accountsKVs leftoverKVs s ->
  Forall (fun ep => uint 32 (p_Requester ep)) eps -> Forall (noCollision s) eps ->
  exists e, ValidatePreimageExtrinsics eps (s_Delta (parsedState s)) u = Ret e /\
    (e = None <-> StronglySorted preimageLt eps /\ Forall (requestedIn (s_Delta s)) eps).
Proof.
  intros Ha Hs Hu Hr Hn. eexists. split; [by apply ValidatePreimage_decide|].
  assert (Forall (needed (s_Delta (parsedState s)) u) eps <-> Forall (requestedIn (s_Delta s)) eps) as <-.
  { rewrite !Forall_forall. rewrite Forall_forall in Hn. split; intros Hf ep Hin; (apply (needed_parsed s u ep); [done..|by apply Hn|by apply Hf]). }
  unfold checked. repeat case_decide; intuition congruence.
Qed.

End Preimages.
