(* ===== verification/OuterAccumulation.v ===== *)
(** * Accumulation

    src/internal/accumulation/accumulation.go (12.16 to 12.20): a service is
    accumulated by [SingleServiceAccumulation], the services of a batch of
    reports in parallel by [ParallelizedAccumulation], and the batches one
    after the other by [OuterAccumulation]; and of deferred_transfers.go what
    runs the accumulation of a block and what becomes of its results (12.20
    to 12.30).

    The virtual machine is the interface [AccumulateVM], [PVM.Psi_A]. The
    goroutines of a batch work on copies of the state ([CloneForService]) and
    only read the rest, so each service has one result, whenever it is
    computed. The order in which the services of a batch, a Go map, are
    visited is [arrange], that of the merged unmatched pairs [arrangeKVs],
    and [sortBySender] is [sort.Slice] with the order of senders, which need
    not be stable.

    The accounts that a batch does not touch keep the maps of the prior
    state ([carriedAccounts]), to which [Provide] writes. What an earlier
    block left in the posterior and the intermediate states may share these
    maps too; it is replaced before it is read, and not followed here. *)

From stdpp Require Import sorting.
From S2P Require Import Prelude Words Types Config Codec Encode Crypto Store Accumulation Preimages.
Local Open Scope Z_scope.

(** ** Data *)

Record PartialStateSet := MkPartialState {
  pt_ServiceAccounts : ServiceAccountState; pt_ValidatorKeys : list Validator; pt_Authorizers : list (list Bytes);
  pt_Bless : Z; pt_Assign : list Z; pt_Designate : Z; pt_CreateAcct : Z; pt_AlwaysAccum : gmap Z Z }.

(** A service and a blob. *)
Abbreviation ServiceBlob := (Z * Bytes)%type.

#[export] Instance AccumulatedServiceHash_countable : Countable AccumulatedServiceHash.
Proof.
  apply (inj_countable' (fun x => (as_ServiceID x, as_Hash x)) (fun p => MkAccumulatedServiceHash (fst p) (snd p))). by intros [].
Defined.

(** A map of which only the keys matter. *)
Abbreviation AccumulatedServiceOutput := (gset AccumulatedServiceHash).

Record Psi_A_ReturnType := MkPsiA {
  pa_PartialStateSet : PartialStateSet; pa_DeferredTransfers : list DeferredTransfer; pa_Result : option Bytes;
  pa_Gas : Z; pa_ServiceBlobs : list ServiceBlob; pa_StorageKeyVal : list StateKeyVal }.

Record OuterAccumulationInput := MkOuterInput {
  oi_GasLimit : Z; oi_DeferredTransfers : list DeferredTransfer; oi_WorkReports : list WorkReport;
  oi_InitPartialStateSet : PartialStateSet; oi_ServicesWithFreeAccumulation : gmap Z Z }.

Record OuterAccumulationOutput := MkOuterOutput {
  oo_NumberOfWorkResultsAccumulated : Z; oo_PartialStateSet : PartialStateSet;
  oo_AccumulatedServiceOutput : AccumulatedServiceOutput; oo_ServiceGasUsedList : list ServiceGasUsed }.

Record ParallelizedAccumulationInput := MkParallelInput {
  pi_PartialStateSet : PartialStateSet; pi_DeferredTransfers : list DeferredTransfer;
  pi_WorkReports : list WorkReport; pi_AlwaysAccumulateMap : gmap Z Z }.

Record ParallelizedAccumulationOutput := MkParallelOutput {
  po_PartialStateSet : PartialStateSet; po_DeferredTransfers : list DeferredTransfer;
  po_AccumulatedServiceOutput : AccumulatedServiceOutput; po_ServiceGasUsedList : list ServiceGasUsed }.

Record SingleServiceAccumulationInput := MkSingleInput {
  si_PartialStateSet : PartialStateSet; si_DeferredTransfers : list DeferredTransfer; si_WorkReports : list WorkReport;
  si_AlwaysAccumulateMap : gmap Z Z; si_ServiceID : Z; si_UnmatchedKeyVals : list StateKeyVal }.

Record SingleServiceAccumulationOutput := MkSingleOutput {
  so_PartialStateSet : PartialStateSet; so_DeferredTransfers : list DeferredTransfer; so_AccumulationOutput : option Bytes;
  so_GasUsed : Z; so_ServiceBlobs : list ServiceBlob; so_UnmatchedKeyVals : list StateKeyVal }.

(** [PVM.Psi_A]: the state, the slot, the service, its gas, the operands and
    transfers, the entropy and the unmatched pairs. *)
Class AccumulateVM := Psi_A : PartialStateSet -> Z -> Z -> Z -> list OperandOrDeferredTransfer -> Bytes -> list StateKeyVal -> go Psi_A_ReturnType.

(** [sum += x] over a list, on [uint64]. *)
Definition addGas (sum : Z) (l : list Z) : Z := foldl (fun sum x => u64 (sum + x)) sum l.

Section Accumulate.
Context `{HashFunctions} `{AccumulateVM} (spec : ChainSpec).
Context (arrange : gset Z -> list Z) (arrangeKVs : list StateKeyVal -> list StateKeyVal).
Context (sortBySender : list DeferredTransfer -> list DeferredTransfer).

(** ** One service *)

(** The results of the reports that are for a service, as operands. *)
Definition operandsOf (s : Z) (r : list WorkReport) : list Operand :=
  concat ((fun w => (fun d => MkOperand (ps_Hash (rp_PackageSpec w)) (ps_ExportsRoot (rp_PackageSpec w)) (rp_AuthorizerHash w)
      (wr_PayloadHash d) (wr_AccumulateGas d) (wr_Result d) (rp_AuthOutput w)) <$>
    filter (fun d => wr_ServiceID d = s) (rp_Results w)) <$> r).

Definition SingleServiceAccumulation (cs : ChainState) (input : SingleServiceAccumulationInput) : go SingleServiceAccumulationOutput :=
  let s := si_ServiceID input in
  let g := default 0 (si_AlwaysAccumulateMap input !! s) in
  let iU := operandsOf s (si_WorkReports input) in
  let g := addGas g (op_GasLimit <$> iU) in
  let iT := filter (fun t => dt_ReceiverID t = s) (si_DeferredTransfers input) in
  let g := addGas g (dt_GasLimit <$> iT) in
  let iT := sortBySender iT in
  let pvmItems := ((fun t => MkOperandOrDeferredTransfer None (Some t)) <$> iT) ++ ((fun o => MkOperandOrDeferredTransfer (Some o) None) <$> iU) in
  let tauPrime := s_Tau (posteriorStates cs) in
  eta0 ← zindex (s_Eta (posteriorStates cs)) 0;
  pvmResult ← Psi_A (si_PartialStateSet input) tauPrime s g pvmItems eta0 (si_UnmatchedKeyVals input);
  Ret (MkSingleOutput (pa_PartialStateSet pvmResult) (pa_DeferredTransfers pvmResult) (pa_Result pvmResult) (pa_Gas pvmResult)
    (pa_ServiceBlobs pvmResult) (pa_StorageKeyVal pvmResult)).

(** ** A batch of reports *)

Definition R {T} `{EqDecision T} (o a b : T) : T := if bool_decide (a = o) then b else a.

Definition set_s (r : list WorkReport) (f : gmap Z Z) (t : list DeferredTransfer) : gset Z :=
  list_to_set (wr_ServiceID <$> concat (rp_Results <$> r)) ∪ dom f ∪ list_to_set (dt_ReceiverID <$> t).

Definition merge (d n m : ServiceAccountState) : ServiceAccountState := (n ∪ d) ∖ m.

Definition CloneForService (cs : ChainState) (input : ParallelizedAccumulationInput) (s : Z) : SingleServiceAccumulationInput :=
  MkSingleInput (pi_PartialStateSet input) (pi_DeferredTransfers input) (pi_WorkReports input) (pi_AlwaysAccumulateMap input) s
    (postStateUnmatchedKeyVals cs).

(** A service that is not in the cache is accumulated with the unmatched
    pairs of the store at that time. *)
Definition runSingleReplaceService (cs : ChainState) (input : ParallelizedAccumulationInput)
    (cache : gmap Z SingleServiceAccumulationOutput) (s : Z) : go SingleServiceAccumulationOutput :=
  match cache !! s with
  | Some out => Ret out
  | None => SingleServiceAccumulation cs (CloneForService cs input s)
  end.

(** The services that the accumulation of [service_id] created or changed
    itself. *)
Definition collectNew (d : ServiceAccountState) (n : ServiceAccountState) (out : Z * SingleServiceAccumulationOutput) : ServiceAccountState :=
  filter (fun p => fst p = fst out \/ d !! fst p = None) (pt_ServiceAccounts (so_PartialStateSet (snd out))) ∪ n.

(** The services that it removed. *)
Definition collectRemoved (d : ServiceAccountState) (m : ServiceAccountState) (out : Z * SingleServiceAccumulationOutput) : ServiceAccountState :=
  (d ∖ pt_ServiceAccounts (so_PartialStateSet (snd out))) ∪ m.

(** The pairs of a service: of pairs with the same key the first. *)
Definition serviceKeyVals (out : SingleServiceAccumulationOutput) : gmap Bytes StateKeyVal :=
  list_to_map ((fun kv => (Key kv, kv)) <$> so_UnmatchedKeyVals out).

(** The pairs whose key every service kept, with the value of the last. *)
Definition mergeUnmatched (outs : list (Z * SingleServiceAccumulationOutput)) : gmap Bytes StateKeyVal :=
  filter (fun p => Forall (fun out => is_Some (serviceKeyVals (snd out) !! fst p)) outs)
    (foldl (fun acc out => serviceKeyVals (snd out) ∪ acc) ∅ outs).

(** The slice of the validator keys is that of a copy. *)
Definition newIota : ChainState -> ChainState := onSharing (fun sh =>
  let a := posteriorArrays sh in
  MkSharing (priorArrays sh) (MkValidatorArrays (va_GammaK a) (nextArray sh) (va_Kappa a) (va_Lambda a)) (S (nextArray sh)) (carriedAccounts sh)).

(** The result, or [None] for the error of assigners that are not one per
    core. *)
Definition ParallelizedAccumulation (cs : ChainState) (input : ParallelizedAccumulationInput)
  : go (ChainState * option ParallelizedAccumulationOutput) :=
  let s := set_s (pi_WorkReports input) (pi_AlwaysAccumulateMap input) (pi_DeferredTransfers input) in
  let e := pi_PartialStateSet input in
  let d := pt_ServiceAccounts e in
  let a := pt_Assign e in
  outs ← mapM (fun s => out ← SingleServiceAccumulation cs (CloneForService cs input s); Ret (s, out)) (arrange s);
  let cache : gmap Z SingleServiceAccumulationOutput := list_to_map outs in
  let u := (fun out => MkServiceGasUsed (fst out) (so_GasUsed (snd out))) <$> outs in
  let b : AccumulatedServiceOutput :=
    list_to_set (omap (fun out => MkAccumulatedServiceHash (fst out) <$> so_AccumulationOutput (snd out)) outs) in
  let tPrime := concat ((fun out => so_DeferredTransfers (snd out)) <$> outs) in
  let n := foldl (collectNew d) ∅ outs in
  let m := foldl (collectRemoved d) ∅ outs in
  let p := concat ((fun out => so_ServiceBlobs (snd out)) <$> outs) in
  let cs := if decide (s = ∅) then cs
            else SetPostStateUnmatchedKeyVals (arrangeKVs (snd <$> map_to_list (mergeUnmatched outs))) cs in
  let run := runSingleReplaceService cs input cache in
  eStar ← so_PartialStateSet <$> run (pt_Bless e);
  if negb (lenOf a =? CoresCount spec) then Ret (cs, None)
  else
    aPrime ← mapM (fun '(c, serviceID) =>
      out ← run serviceID;
      star ← zindex (pt_Assign eStar) c;
      own ← zindex (pt_Assign (so_PartialStateSet out)) c;
      Ret (R serviceID star own)) (zip (seqZ 0 (CoresCount spec)) a);
    designate ← run (pt_Designate e);
    createAcct ← run (pt_CreateAcct e);
    let vPrime := R (pt_Designate e) (pt_Designate eStar) (pt_Designate (so_PartialStateSet designate)) in
    let rPrime := R (pt_CreateAcct e) (pt_CreateAcct eStar) (pt_CreateAcct (so_PartialStateSet createAcct)) in
    let iPrime := pt_ValidatorKeys (so_PartialStateSet designate) in
    qPrime ← mapM (fun '(c, serviceID) =>
      out ← run serviceID; zindex (pt_Authorizers (so_PartialStateSet out)) c) (zip (seqZ 0 (CoresCount spec)) a);
    let dPrime := Provide (s_Tau (posteriorStates cs)) (merge d n m) p in
    let cs := onSharing (fun sh => SetCarriedAccounts ((carriedAccounts sh ∖ dom n) ∩ dom dPrime) sh) cs in
    let cs := writePriorMaps dPrime cs in
    let tPrime := filter (fun t => is_Some (dPrime !! dt_SenderID t) /\ is_Some (dPrime !! dt_ReceiverID t)) tPrime in
    let mPrime := pt_Bless eStar in
    let zPrime := pt_AlwaysAccum eStar in
    let chi := MkPrivileges mPrime vPrime rPrime aPrime zPrime in
    let cs := newIota (onPosterior (fun st => SetDelta dPrime (SetIota iPrime (SetVarphi qPrime (SetChi chi st)))) cs) in
    Ret (cs, Some (MkParallelOutput (MkPartialState dPrime iPrime qPrime mPrime aPrime vPrime rPrime zPrime) tPrime b u)).

(** ** All reports *)

(** The reports whose gas, summed on [uint64], stays within the limit. *)
Fixpoint gasPrefix (g gasSum : Z) (r : list WorkReport) : nat :=
  match r with
  | [] => O
  | report :: r =>
      let gasSum := addGas gasSum (wr_AccumulateGas <$> rp_Results report) in
      if gasSum <=? g then S (gasPrefix g gasSum r) else O
  end.

(** [None] when the recursion exceeds [fuel]; an error is [None] in the
    result. *)
Fixpoint OuterAccumulation (fuel : nat) (cs : ChainState) (input : OuterAccumulationInput)
  : option (go (ChainState * option OuterAccumulationOutput)) :=
  match fuel with
  | O => None
  | S fuel =>
      let g := oi_GasLimit input in
      let t := oi_DeferredTransfers input in
      let r := oi_WorkReports input in
      let e := oi_InitPartialStateSet input in
      let f := oi_ServicesWithFreeAccumulation input in
      let i := gasPrefix g 0 r in
      let n := lenOf t + Z.of_nat i + Z.of_nat (size f) in
      if n =? 0 then Some (Ret (cs, Some (MkOuterOutput 0 e ∅ [])))
      else
        match ParallelizedAccumulation cs (MkParallelInput e t (take i r) f) with
        | Crash => Some Crash
        | Ret (cs, None) => Some (Ret (cs, None))
        | Ret (cs, Some star) =>
            let gStar := addGas g (dt_GasLimit <$> t) in
            let gasLimitForRecursion := foldl (fun g u => u64 (g - gu_Gas u)) gStar (po_ServiceGasUsedList star) in
            match OuterAccumulation fuel cs (MkOuterInput gasLimitForRecursion (po_DeferredTransfers star) (drop i r) (po_PartialStateSet star) ∅) with
            | Some (Ret (cs, Some output)) =>
                Some (Ret (cs, Some (MkOuterOutput (u64 (Z.of_nat i + oo_NumberOfWorkResultsAccumulated output)) (oo_PartialStateSet output)
                  (po_AccumulatedServiceOutput star ∪ oo_AccumulatedServiceOutput output)
                  (po_ServiceGasUsedList star ++ oo_ServiceGasUsedList output))))
            | other => other
            end
        end
  end.

(** ** The accumulation of a block *)

Definition updatePartialStateSetToPosteriorState (o : PartialStateSet) (cs : ChainState) : ChainState :=
  let cs := onPosterior (SetChi (MkPrivileges (pt_Bless o) (pt_Designate o) (pt_CreateAcct o) (pt_Assign o) (pt_AlwaysAccum o))) cs in
  let cs := onIntermediate (SetDeltaDagger (pt_ServiceAccounts o)) cs in
  onPosterior (fun st => SetVarphi (pt_Authorizers o) (SetIota (pt_ValidatorKeys o) st)) cs.

(** The order of the accumulation outputs: by service, then by hash. *)
Definition outputLe (x y : AccumulatedServiceHash) : Prop :=
  if decide (as_ServiceID x = as_ServiceID y) then bytesLe (as_Hash x) (as_Hash y) else as_ServiceID x < as_ServiceID y.
#[export] Instance outputLe_dec : RelDecision outputLe.
Proof. intros x y. unfold outputLe. case_decide; apply _. Defined.

(** Before the first batch the accounts are those of the prior state. *)
Definition fromPrior (cs : ChainState) : ChainState :=
  onSharing (SetCarriedAccounts (dom (s_Delta (priorStates cs)))) cs.

(** Without any batch, that is without a new slice, the validator keys are
    the slice of the prior state. *)
Definition shareIota (before cs : ChainState) : ChainState :=
  if Nat.eqb (nextArray (sharing cs)) (nextArray (sharing before)) then
    onSharing (fun sh => let a := posteriorArrays sh in
      SetPosteriorArrays (MkValidatorArrays (va_GammaK a) (va_Iota (priorArrays sh)) (va_Kappa a) (va_Lambda a)) sh) cs
  else cs.

Definition executeOuterAccumulation (fuel : nat) (cs : ChainState) : option (go (ChainState * option OuterAccumulationOutput)) :=
  let cs := fromPrior cs in
  let prior := priorStates cs in
  let chi := s_Chi prior in
  let partialStateSet := MkPartialState (s_Delta prior) (s_Iota prior) (s_Varphi prior) (pr_Bless chi) (pr_Assign chi) (pr_Designate chi)
    (pr_CreateAcct chi) (pr_AlwaysAccum chi) in
  let g := calculateMaxGasUsed spec (pr_AlwaysAccum chi) in
  match OuterAccumulation fuel cs (MkOuterInput g [] (AccumulatableWorkReports (intermediateStates cs)) partialStateSet (pr_AlwaysAccum chi)) with
  | Some (Ret (cs', Some output)) =>
      let cs := updatePartialStateSetToPosteriorState (oo_PartialStateSet output) (shareIota cs cs') in
      let thetaPrime := merge_sort outputLe (elements (oo_AccumulatedServiceOutput output)) in
      Some (Ret (onPosterior (SetTheta thetaPrime) cs, Some output))
  | other => other
  end.

(** Whether there is no error. *)
Definition DeferredTransfers (fuel : nat) (cs : ChainState) : option (go (ChainState * bool)) :=
  match executeOuterAccumulation fuel cs with
  | None => None
  | Some Crash => Some Crash
  | Some (Ret (cs, None)) => Some (Ret (cs, false))
  | Some (Ret (cs, Some output)) =>
      let n := oo_NumberOfWorkResultsAccumulated output in
      Some (S ← calculateAccumulationStatistics cs (oo_ServiceGasUsedList output) n;
            let cs := onIntermediate (SetAccumulationStatistics S) cs in
            let cs := updateDeltaDoubleDagger S cs in
            cs ← updateXi spec n cs;
            cs ← updateVartheta spec cs;
            Ret (cs, true))
  end.

Definition UpdateAccumlate (fuel : nat) (cs : ChainState) : option (go (ChainState * bool)) :=
  match ProcessAccumulation spec cs with
  | Crash => Some Crash
  | Ret cs => DeferredTransfers fuel cs
  end.

End Accumulate.
