(* ===== verification/ServiceAccounts.v ===== *)
(** * Service accounts

    src/internal/service_account/service_account.go: the code of an account,
    the preimages that were available at a time slot (9.5, 9.7), and the
    items, the octets and the balance an account needs (9.8). *)

From S2P Require Import Prelude Words Types Config Codec Encode Decoders.
Local Open Scope Z_scope.

Definition AdditionalMinBalancePerItem : Z := 10.
Definition AdditionalMinBalancePerOctet : Z := 1.
Definition BasicMinBalance : Z := 100.

(** ** Availability of preimages *)

Definition existsInLookupDict (account : ServiceAccount) (codeHash preimage : Bytes) : bool :=
  bool_decide (is_Some (ac_LookupDict account !! MkLookupMetaMapkey codeHash (u32 (lenOf preimage)))).

(** [I(l, t)]: whether a preimage with the history [l] is there at [t]. *)
Definition isValidTime (l : list Z) (t : Z) : bool :=
  match l with
  | [x] => x <=? t
  | [x; y] => (x <=? t) && (t <? y)
  | [x; y; z] => ((x <=? t) && (t <? y)) || (z <=? t)
  | _ => false
  end.

(** [None] is nil: no preimage, which the callers tell by its length. *)
Definition HistoricalLookup (account : ServiceAccount) (timestamp : Z) (hash : Bytes) : option Bytes :=
  let bytes := ac_PreimageLookup account !! hash in
  let l := default [] (ac_LookupDict account !! MkLookupMetaMapkey hash (u32 (lenOf (default [] bytes)))) in
  if isValidTime l timestamp then bytes else None.

(** ** Items, octets and balance *)

Definition CalcKeys (account : ServiceAccount) : Z :=
  u32 (2 * Z.of_nat (size (ac_LookupDict account)) + Z.of_nat (size (ac_StorageDict account))).

(** Of a Go map the order of the sum does not matter. *)
Definition CalcOctets (account : ServiceAccount) : Z :=
  u64 (map_fold (fun key _ sum => sum + (81 + lk_Length key)) 0 (ac_LookupDict account) +
       map_fold (fun x y sum => sum + (34 + lenOf y + lenOf x)) 0 (ac_StorageDict account)).

(** The balance of the items is a [uint32]. *)
Definition CalcThresholdBalance (aI aO aF : Z) : Z :=
  let storage := u64 (u64 (BasicMinBalance + u32 (AdditionalMinBalancePerItem * aI)) + u64 (AdditionalMinBalancePerOctet * aO)) in
  if storage <? aF then 0 else storage - aF.

Record ServiceAccountDerivatives := MkDerivatives { sd_Items : Z; sd_Bytes : Z; sd_Minbalance : Z }.

Definition GetServiceAccountDerivatives (account : ServiceAccount) : ServiceAccountDerivatives :=
  let Items := CalcKeys account in
  let Bytes := CalcOctets account in
  MkDerivatives Items Bytes (CalcThresholdBalance Items Bytes (si_DepositOffset (ac_ServiceInfo account))).

Definition CalcLookupItemfootprint (lookupItem : LookupMetaMapkey) : Z * Z := (2, 81 + lk_Length lookupItem).

Definition CalcStorageItemfootprint (storageRawKey storageData : Bytes) : Z * Z :=
  (1, u64 (34 + lenOf storageRawKey + lenOf storageData)).

(** ** Code *)

Section Code.
Context `{HashFunctions} (makeOK : Z -> bool).

(** [None] is an error. *)
Definition DecodeMetaCode (bytes : Bytes) : go (option (Bytes * Bytes)) :=
  ⟪ r ⟫ ⇠ dec_MetaCode makeOK bytes ⊘ Ret None;
  Ret (Some (mc_Metadata (fst r), mc_Code (fst r))).

(** Whether there is no error. *)
Definition ValidatePreimageLookupDict (account : ServiceAccount) : bool :=
  bool_decide (map_Forall (fun codeHash preimage =>
    codeHash = Blake2bHash preimage /\ existsInLookupDict account codeHash preimage = true) (ac_PreimageLookup account)).

Definition FetchCodeByHash (account : ServiceAccount) (codeHash : Bytes) : go (option (Bytes * Bytes)) :=
  match ac_PreimageLookup account !! codeHash with
  | Some bytes => DecodeMetaCode bytes
  | None => Ret (if ValidatePreimageLookupDict account then Some ([], []) else None)
  end.

End Code.
