(* ===== verification/HostGeneral.v ===== *)
(** * General host calls

    src/PVM/host_call_general.go: the arguments of the host calls and the
    calls that several invocations share: [fetch], [lookup], [read], [write],
    [info] and [logHostCall].  (The loop that dispatches them, [gas] and the
    generic calls are in Host.v.)

    The pointers of [GeneralArgs] are values here.  In an accumulation
    [ServiceAccountState] points to the accounts of the context X (B.7), and
    [StorageKeyVal] to its unmatched pairs, so both are fields of X only, and
    [ga_ServiceAccountState] is [None]; in a refinement it points to the
    accounts of the node.  [ServiceAccount] is a copy of the account of the
    service that shares its maps; [touch] writes to the maps of an account
    and so to both. ([lookup], [read], [write] and [info] are called in an
    accumulation only.) *)

From S2P Require Import Prelude Words ExitReasons Memory Program Types Config Codec Encode Decoders Host.
From S2P Require Import Trie Store Assurances Statistics StateSer OuterAccumulation ServiceAccounts.
Local Open Scope Z_scope.

(** ** Arguments *)

(** (B.7) *)
Record ResultContext := MkResultContext {
  xc_ServiceID : Z; xc_PartialState : PartialStateSet; xc_ImportServiceID : Z; xc_DeferredTransfers : list DeferredTransfer;
  xc_Exception : option Bytes; xc_ServiceBlobs : gmap Bytes ServiceBlob; xc_StorageKeyVal : list StateKeyVal }.

(** [None] is a nil pointer, but for the accounts (see above). *)
Record GeneralArgs := MkGeneralArgs {
  ga_ServiceAccount : option ServiceAccount; ga_ServiceID : option Z; ga_ServiceAccountState : option ServiceAccountState;
  ga_CoreID : option Z }.

Record AccumulateArgs := MkAccumulateArgs {
  aa_ResultContextX : ResultContext; aa_ResultContextY : ResultContext; aa_Timeslot : Z; aa_Eta : Bytes;
  aa_OperandOrDeferredTransfers : list OperandOrDeferredTransfer }.

(** An integrated machine (B.4). *)
Record IntegratedPVMType := MkIntegrated { im_ProgramCode : Bytes; im_Memory : Memory; im_PC : Z }.

Record RefineArgs := MkRefineArgs {
  ra_WorkItemIndex : option Z; ra_WorkPackage : option WorkPackage; ra_AuthOutput : option Bytes;
  ra_ImportSegments : list (list Bytes); ra_ExportSegmentOffset : Z; ra_IntegratedPVMMap : gmap Z IntegratedPVMType;
  ra_ExportSegment : list Bytes; ra_TimeSlot : Z; ra_Extrinsics : list (list ExtrinsicSpec) }.

(** [HostCallArgs] but for the embedded program. *)
Record CallArgs := MkCallArgs { generalArgs : GeneralArgs; accumulateArgs : AccumulateArgs; refineArgs : RefineArgs }.

Abbreviation Args := (HostCallArgs CallArgs).

(** ** Access to the arguments *)

Definition onRest (f : CallArgs -> CallArgs) (a : Args) : Args := MkArgs (argProgram a) (f (argRest a)).
Definition onGeneral (f : GeneralArgs -> GeneralArgs) : Args -> Args :=
  onRest (fun r => MkCallArgs (f (generalArgs r)) (accumulateArgs r) (refineArgs r)).
Definition onAccumulate (f : AccumulateArgs -> AccumulateArgs) : Args -> Args :=
  onRest (fun r => MkCallArgs (generalArgs r) (f (accumulateArgs r)) (refineArgs r)).

Definition gArgs (a : Args) : GeneralArgs := generalArgs (argRest a).
Definition aArgs (a : Args) : AccumulateArgs := accumulateArgs (argRest a).
Definition rArgs (a : Args) : RefineArgs := refineArgs (argRest a).
Definition ctxX (a : Args) : ResultContext := aa_ResultContextX (aArgs a).
Definition stateX (a : Args) : PartialStateSet := xc_PartialState (ctxX a).
Definition accountsX (a : Args) : ServiceAccountState := pt_ServiceAccounts (stateX a).

Definition onX (f : ResultContext -> ResultContext) : Args -> Args :=
  onAccumulate (fun x => MkAccumulateArgs (f (aa_ResultContextX x)) (aa_ResultContextY x) (aa_Timeslot x) (aa_Eta x) (aa_OperandOrDeferredTransfers x)).
Definition onStateX (f : PartialStateSet -> PartialStateSet) : Args -> Args :=
  onX (fun x => MkResultContext (xc_ServiceID x) (f (xc_PartialState x)) (xc_ImportServiceID x) (xc_DeferredTransfers x) (xc_Exception x)
    (xc_ServiceBlobs x) (xc_StorageKeyVal x)).
Definition onAccountsX (f : ServiceAccountState -> ServiceAccountState) : Args -> Args :=
  onStateX (fun e => MkPartialState (f (pt_ServiceAccounts e)) (pt_ValidatorKeys e) (pt_Authorizers e) (pt_Bless e) (pt_Assign e)
    (pt_Designate e) (pt_CreateAcct e) (pt_AlwaysAccum e)).
Definition SetStorageKeyVal (kvs : list StateKeyVal) : Args -> Args :=
  onX (fun x => MkResultContext (xc_ServiceID x) (xc_PartialState x) (xc_ImportServiceID x) (xc_DeferredTransfers x) (xc_Exception x)
    (xc_ServiceBlobs x) kvs).
Definition SetServiceAccount (v : option ServiceAccount) : Args -> Args :=
  onGeneral (fun g => MkGeneralArgs v (ga_ServiceID g) (ga_ServiceAccountState g) (ga_CoreID g)).

(** Dereferencing a pointer. *)
Definition deref {A} (p : option A) : go A := match p with Some x => Ret x | None => Crash end.

(** The accounts that [ServiceAccountState] points to. *)
Definition delta (a : Args) : ServiceAccountState := default (accountsX a) (ga_ServiceAccountState (gArgs a)).

Definition SetInfo (f : ServiceInfo -> ServiceInfo) (a : ServiceAccount) : ServiceAccount :=
  MkServiceAccount (f (ac_ServiceInfo a)) (ac_PreimageLookup a) (ac_LookupDict a) (ac_StorageDict a).
Definition SetStorage (f : gmap Bytes Bytes -> gmap Bytes Bytes) (a : ServiceAccount) : ServiceAccount :=
  MkServiceAccount (ac_ServiceInfo a) (ac_PreimageLookup a) (ac_LookupDict a) (f (ac_StorageDict a)).
Definition SetLookup (f : gmap LookupMetaMapkey (list Z) -> gmap LookupMetaMapkey (list Z)) (a : ServiceAccount) : ServiceAccount :=
  MkServiceAccount (ac_ServiceInfo a) (ac_PreimageLookup a) (f (ac_LookupDict a)) (ac_StorageDict a).
Definition SetFootprint (items octets : Z) : ServiceAccount -> ServiceAccount :=
  SetInfo (fun s => MkServiceInfo (si_Version s) (si_CodeHash s) (si_Balance s) (si_MinItemGas s) (si_MinMemoGas s) octets
    (si_DepositOffset s) items (si_CreationSlot s) (si_LastAccumulationSlot s) (si_ParentService s)).
Definition SetBalance (balance : Z) : ServiceAccount -> ServiceAccount :=
  SetInfo (fun s => MkServiceInfo (si_Version s) (si_CodeHash s) balance (si_MinItemGas s) (si_MinMemoGas s) (si_Bytes s)
    (si_DepositOffset s) (si_Items s) (si_CreationSlot s) (si_LastAccumulationSlot s) (si_ParentService s)).

(** Writing to a map of the account [id] of the context X, which the account
    of the general arguments shares. *)
Definition touch (id : Z) (f : ServiceAccount -> ServiceAccount) (a : Args) : Args :=
  let a := onAccountsX (alter f id) a in
  if bool_decide (ga_ServiceID (gArgs a) = Some id) then SetServiceAccount (f <$> ga_ServiceAccount (gArgs a)) a else a.

(** The assignment of [s] to the account [id] of the context X and to the
    account of the general arguments. *)
Definition putOwn (id : Z) (s : ServiceAccount) (a : Args) : Args :=
  SetServiceAccount (Some s) (onAccountsX (insert id s) a).

(** ** Registers and results *)

Definition OK : Z := 0.
Definition HUH : Z := 2 ^ 64 - 9.
Definition LOW : Z := 2 ^ 64 - 8.
Definition CASH : Z := 2 ^ 64 - 7.
Definition CORE : Z := 2 ^ 64 - 6.
Definition FULL : Z := 2 ^ 64 - 5.
Definition WHO : Z := 2 ^ 64 - 4.
Definition OOB : Z := 2 ^ 64 - 3.
Definition NONE : Z := 2 ^ 64 - 1.

(** The registers are an array of thirteen [uint64]. *)
Definition reg (vm : VMState) (i : Z) : Z := u64 (default 0 (zlookup (vmRegisters vm) i)).
Definition setReg (i v : Z) (vm : VMState) : VMState := MkVM (<[Z.to_nat i := v]> (vmRegisters vm)) (vmMemory vm) (vmGas vm).
Definition setMemory (m : Memory) (vm : VMState) : VMState := MkVM (vmRegisters vm) m (vmGas vm).

Abbreviation Outcome := (go (Z * VMState * Args)).

Definition continueWith (v : Z) (vm : VMState) (a : Args) : Outcome := Ret (ExitContinue, setReg 7 v vm, a).
Definition panicWith (v : Z) (vm : VMState) (a : Args) : Outcome := Ret (ExitPanic, setReg 7 v vm, a).
Definition panicPlain (vm : VMState) (a : Args) : Outcome := Ret (ExitPanic, vm, a).

(** What every host call starts with. *)
Definition charged (f : VMState -> Args -> Outcome) : Omega CallArgs := fun _ vm a =>
  let '(vm, oog) := chargeGasAndCheck vm in
  if oog then Ret (ExitOOG, vm, a) else f vm a.

(** [data[f:f+l]] written at [o]. *)
Definition writeOut (o f l : Z) (data : Bytes) (vm : VMState) : go VMState :=
  part ← lslice data f (f + l);
  m ← Write (vmMemory vm) o part;
  Ret (setMemory m vm).

(** ** Unmatched pairs *)

(** The list without the first pair of a key. *)
Definition removeKey (key : Bytes) (keyVal : list StateKeyVal) : list StateKeyVal :=
  match list_find (fun v => Key v = key) keyVal with
  | Some (k, _) => take k keyVal ++ drop (S k) keyVal
  | None => keyVal
  end.

(** The value of the first pair of a key. *)
Definition valueAt (key : Bytes) (keyVal : list StateKeyVal) : option Bytes :=
  (fun p => Value (snd p)) <$> list_find (fun v => Key v = key) keyVal.

Definition MinimumServiceIndex : Z := 65536.

(** (B.14); [fuel] bounds the search. *)
Fixpoint check (fuel : nat) (serviceID : Z) (serviceAccountState : ServiceAccountState) : option Z :=
  match serviceAccountState !! serviceID with
  | None => Some serviceID
  | Some _ =>
      match fuel with
      | O => None
      | S fuel =>
          check fuel (u32 (u32 (serviceID - MinimumServiceIndex + 1) mod (2 ^ 32 - 2 ^ 8 - MinimumServiceIndex) + MinimumServiceIndex)) serviceAccountState
      end
  end.

Section General.
Context `{HashFunctions} (spec : ChainSpec).

(** A pointer to the value of the pair. *)
Definition getStorageFromKeyVal (keyVal : list StateKeyVal) (serviceID : Z) (storageKey : Bytes) : go (option Bytes) :=
  requested ← WrapEncodeDelta2KeyVal serviceID storageKey [];
  Ret (valueAt (Key requested) keyVal).

Definition removeStorageFromKeyVal (keyVal : list StateKeyVal) (serviceID : Z) (storageKey : Bytes) : go (list StateKeyVal) :=
  requested ← WrapEncodeDelta2KeyVal serviceID storageKey [];
  Ret (removeKey (Key requested) keyVal).

(** The value of the pair, which is removed. *)
Definition getLookupItemFromKeyVal (keyVal : list StateKeyVal) (serviceID : Z) (lookupKey : LookupMetaMapkey)
  : go (option Bytes * list StateKeyVal) :=
  lookupStateKey ← EncodeDelta4Key serviceID lookupKey;
  Ret (valueAt lookupStateKey keyVal, removeKey lookupStateKey keyVal).

(** ** Fetch *)

(** [S] of the source: the encoding of a work item without its lists. *)
Definition S_item (item : WorkItem) : W :=
  cat [enc_U32 (wi_Service item); enc_OpaqueHash (wi_CodeHash item); enc_U64 (wi_RefineGasLimit item); enc_U64 (wi_AccumulateGasLimit item);
       enc_U16 (wi_ExportCount item); enc_U16 (u16 (lenOf (wi_ImportSegments item))); enc_U16 (u16 (lenOf (wi_Extrinsic item)));
       enc_U32 (u32 (lenOf (wi_Payload item)))].

Definition SlotPeriod : Z := 6.
Definition MaxServiceCodeSize : Z := 4000000.
Definition MaxIsAuthorizedCodeSize : Z := 64000.
Definition IsAuthorizedGas : Z := 50000000.
Definition TransferMemoSize : Z := 128.

(** The chain parameters. The source encodes them once, on the first use. *)
Definition getFetchConstantsData : W :=
  cat [enc_U64 AdditionalMinBalancePerItem; enc_U64 AdditionalMinBalancePerOctet; enc_U64 BasicMinBalance; enc_U16 (u16 (CoresCount spec));
       enc_U32 (u32 (UnreferencedPreimageTimeslots spec)); enc_U32 (u32 (EpochLength spec)); enc_U64 MaxAccumulateGas; enc_U64 IsAuthorizedGas;
       enc_U64 (u64 (MaxRefineGas spec)); enc_U64 (u64 (TotalGas spec)); enc_U16 MaxBlocksHistory; enc_U16 MaximumWorkItems;
       enc_U16 MaximumDependencyItems; enc_U16 (u16 (MaxTicketsPerBlock spec)); enc_U32 (u32 (MaxLookupAge spec));
       enc_U16 (u16 (TicketsPerValidator spec)); enc_U16 AuthPoolMaxSize; enc_U16 SlotPeriod; enc_U16 AuthQueueSize;
       enc_U16 (u16 (RotationPeriod spec)); enc_U16 MaxExtrinsics; enc_U16 WorkReportTimeout; enc_U16 (u16 (ValidatorsCount spec));
       enc_U32 MaxIsAuthorizedCodeSize; enc_U32 MaxTotalSize; enc_U32 MaxServiceCodeSize; enc_U32 (u32 (ECBasicSize spec));
       enc_U32 MaxImportCount; enc_U32 (u32 (ECPiecesPerSegment spec)); enc_U32 WorkReportOutputBlobsMaximumSize; enc_U32 TransferMemoSize;
       enc_U32 MaxExportCount; enc_U32 (u32 (SlotSubmissionEnd spec))].

(** [l[i]], if [i] is in range. *)
Definition atIndex {A} (l : list A) (i : Z) : option A := if i <? lenOf l then zlookup l i else None.

(** The encoding of a value, if there is one: [None] is a nil result or an
    error, after which [fetch] does the same. *)
Definition encodeSome {A} (enc : A -> W) (v : option A) : W := match v with Some x => enc x | None => fail end.

Definition fetchEta (eta : Bytes) : W := if bool_decide (eta = zeroArray 32) then fail else enc_Entropy eta.

(** The encoder gets a pointer to the pointer of the value, which does not
    implement its interface. *)
Definition fetchAuthOutput (r : RefineArgs) : W := fail.
Definition fetchWorkPackage (r : RefineArgs) : W := fail.

Definition fetchExtrinsicAt (vm : VMState) (r : RefineArgs) : W :=
  encodeSome enc_ExtrinsicSpec (atIndex (ra_Extrinsics r) (reg vm 11) ≫= (fun l => atIndex l (reg vm 12))).

(** The index of the work item is not checked. *)
Definition fetchExtrinsicForWorkItem (vm : VMState) (r : RefineArgs) : W :=
  match ra_WorkItemIndex r with
  | None => fail
  | Some i => if lenOf (ra_Extrinsics r) =? 0 then fail
              else l ← zindex (ra_Extrinsics r) i; encodeSome enc_ExtrinsicSpec (atIndex l (reg vm 11))
  end.

Definition fetchImportSegmentAt (vm : VMState) (r : RefineArgs) : W :=
  encodeSome enc_ExportSegment (atIndex (ra_ImportSegments r) (reg vm 11) ≫= (fun l => atIndex l (reg vm 12))).

Definition fetchImportSegmentForWorkItem (vm : VMState) (r : RefineArgs) : W :=
  match ra_WorkItemIndex r with
  | None => fail
  | Some i => if lenOf (ra_ImportSegments r) =? 0 then fail
              else l ← zindex (ra_ImportSegments r) i; encodeSome enc_ExportSegment (atIndex l (reg vm 11))
  end.

(** A decoded configuration of no bytes is the nil slice. *)
Definition fetchAuthorizerConfig (r : RefineArgs) : W :=
  match wp_AuthorizerConfig <$> ra_WorkPackage r with Some (_ :: _ as config) => put config | _ => fail end.

Definition fetchAuthorization (r : RefineArgs) : W := encodeSome (fun p => enc_ByteSequence (wp_Authorization p)) (ra_WorkPackage r).
Definition fetchWorkPackageContext (r : RefineArgs) : W := encodeSome (fun p => enc_RefineContext (wp_Context p)) (ra_WorkPackage r).
Definition fetchWorkPackageItems (r : RefineArgs) : W :=
  encodeSome (fun p => cat [wLength (lenOf (wp_Items p)); each S_item (wp_Items p)]) (ra_WorkPackage r).
Definition fetchWorkItemAt (vm : VMState) (r : RefineArgs) : W :=
  encodeSome S_item (ra_WorkPackage r ≫= (fun p => atIndex (wp_Items p) (reg vm 11))).
Definition fetchWorkItemPayload (vm : VMState) (r : RefineArgs) : W :=
  encodeSome (fun i => enc_ByteSequence (wi_Payload i)) (ra_WorkPackage r ≫= (fun p => atIndex (wp_Items p) (reg vm 11))).

Definition fetchOperandOrDeferredTransfers (o : list OperandOrDeferredTransfer) : W :=
  if lenOf o =? 0 then fail else cat [wLength (lenOf o); each enc_OperandOrDeferredTransfer o].
Definition fetchOperandOrDeferredTransferAt (vm : VMState) (o : list OperandOrDeferredTransfer) : W :=
  encodeSome enc_OperandOrDeferredTransfer (atIndex o (reg vm 11)).

(** The table [fetchHandlers]. *)
Definition fetchHandlers (idx : Z) (vm : VMState) (a : Args) : W :=
  let r := rArgs a in
  let o := aa_OperandOrDeferredTransfers (aArgs a) in
  match idx with
  | 0 => getFetchConstantsData | 1 => fetchEta (aa_Eta (aArgs a)) | 2 => fetchAuthOutput r | 3 => fetchExtrinsicAt vm r
  | 4 => fetchExtrinsicForWorkItem vm r | 5 => fetchImportSegmentAt vm r | 6 => fetchImportSegmentForWorkItem vm r
  | 7 => fetchWorkPackage r | 8 => fetchAuthorizerConfig r | 9 => fetchAuthorization r | 10 => fetchWorkPackageContext r
  | 11 => fetchWorkPackageItems r | 12 => fetchWorkItemAt vm r | 13 => fetchWorkItemPayload vm r
  | 14 => fetchOperandOrDeferredTransfers o | 15 => fetchOperandOrDeferredTransferAt vm o
  | _ => fail
  end.

Definition fetch : Omega CallArgs := charged (fun vm a =>
  v ← fetchHandlers (reg vm 10) vm a;
  match v with
  | None => continueWith NONE vm a
  | Some v =>
      let dataLength := lenOf v in
      let o := reg vm 7 in
      let f := Z.min (reg vm 8) dataLength in
      let l := Z.min (reg vm 9) (dataLength - f) in
      if l =? 0 then continueWith dataLength vm a
      else if negb (isWriteable o l (vmMemory vm)) then panicWith OOB vm a
      else vm ← writeOut o f l v vm; continueWith dataLength vm a
  end).

(** ** Accounts *)

Definition lookup : Omega CallArgs := charged (fun vm a =>
  serviceID ← deref (ga_ServiceID (gArgs a));
  serviceAccount ← deref (ga_ServiceAccount (gArgs a));
  let s := reg vm 7 in
  let account := if (s =? 2 ^ 64 - 1) || (s =? serviceID) then Some serviceAccount else delta a !! u32 s in
  let h := reg vm 8 in
  let o := reg vm 9 in
  if negb (isReadable h 32 (vmMemory vm)) then panicWith OOB vm a
  else
    preimageRawData ← Read (vmMemory vm) h 32;
    match account ≫= (fun account => ac_PreimageLookup account !! preimageRawData) with
    | None => continueWith NONE vm a
    | Some v =>
        let f := Z.min (reg vm 10) (lenOf v) in
        let l := Z.min (reg vm 11) (lenOf v - f) in
        if negb (isWriteable o l (vmMemory vm)) && negb (l =? 0) then panicWith OOB vm a
        else
          vm' ← if l =? 0 then Ret vm else writeOut o f l v vm;
          continueWith (lenOf v) vm' a
    end).

(** What [read] gives the program. *)
Definition readOut (v : Bytes) (vm : VMState) (a : Args) : Outcome :=
  let f := Z.min (reg vm 11) (lenOf v) in
  let l := Z.min (reg vm 12) (lenOf v - f) in
  let o := reg vm 10 in
  if l =? 0 then continueWith (lenOf v) vm a
  else if negb (isWriteable o l (vmMemory vm)) then panicWith OOB vm a
  else vm ← writeOut o f l v vm; continueWith (lenOf v) vm a.

(** A value of the unmatched pairs moves to the storage of the service when
    it reads its own. The own account need not be among the accounts: then
    its maps are nil. *)
Definition read : Omega CallArgs := charged (fun vm a =>
  callerServiceID ← deref (ga_ServiceID (gArgs a));
  let r7 := reg vm 7 in
  let sStar := if r7 =? 2 ^ 64 - 1 then callerServiceID else r7 in
  let ko := reg vm 8 in
  let kz := reg vm 9 in
  if negb (isReadable ko kz (vmMemory vm)) then panicWith OOB vm a
  else
    let serviceID := if sStar =? callerServiceID then callerServiceID else u32 sStar in
    let account := delta a !! serviceID in
    if negb (sStar =? callerServiceID) && bool_decide (account = None) then continueWith NONE vm a
    else
      storageRawKey ← Read (vmMemory vm) ko kz;
      let keyVal := xc_StorageKeyVal (ctxX a) in
      storageValueFromKeyVal ← getStorageFromKeyVal keyVal serviceID storageRawKey;
      match account ≫= (fun account => ac_StorageDict account !! storageRawKey), storageValueFromKeyVal with
      | Some v, _ => readOut v vm a
      | None, None => continueWith NONE vm a
      | None, Some v =>
          if callerServiceID =? serviceID then
            if bool_decide (account = None) then Crash
            else
              keyVal ← removeStorageFromKeyVal keyVal serviceID storageRawKey;
              readOut v vm (SetStorageKeyVal keyVal (touch serviceID (SetStorage (insert storageRawKey v)) a))
          else readOut v vm a
      end).

(** The account after [write], or the result of a write that fails. *)
Definition writeStorage (vm : VMState) (account : ServiceAccount) (storageRawKey : Bytes) (footprintItems footprintOctets : Z)
  : go (option (ServiceAccount + Z)) :=
  let info := ac_ServiceInfo account in
  let newItems := u32 (si_Items info - footprintItems) in
  let newOctets := u64 (si_Bytes info - footprintOctets) in
  let vo := reg vm 9 in
  let vz := reg vm 10 in
  if vz =? 0 then Ret (Some (inl (SetFootprint newItems newOctets (SetStorage (delete storageRawKey) account))))
  else if isReadable vo vz (vmMemory vm) then
    storageRawData ← Read (vmMemory vm) vo vz;
    let '(storageItems, storageOctets) := CalcStorageItemfootprint storageRawKey storageRawData in
    let newItems := u32 (newItems + storageItems) in
    let newOctets := u64 (newOctets + storageOctets) in
    let newMinBalance := CalcThresholdBalance newItems newOctets (si_DepositOffset info) in
    if si_Balance info <? newMinBalance then Ret (Some (inr FULL))
    else Ret (Some (inl (SetFootprint newItems newOctets (SetStorage (insert storageRawKey storageRawData) account))))
  else Ret None.

Definition write : Omega CallArgs := charged (fun vm a =>
  let ko := reg vm 7 in
  let kz := reg vm 8 in
  if negb (isReadable ko kz (vmMemory vm)) then panicWith OOB vm a
  else
    storageRawKey ← Read (vmMemory vm) ko kz;
    serviceID ← deref (ga_ServiceID (gArgs a));
    account ← deref (ga_ServiceAccount (gArgs a));
    let keyVal := xc_StorageKeyVal (ctxX a) in
    storageRawData ← getStorageFromKeyVal keyVal serviceID storageRawKey;
    let old := match ac_StorageDict account !! storageRawKey with Some value => Some value | None => storageRawData end in
    let '(footprintItems, footprintOctets) := match old with Some value => CalcStorageItemfootprint storageRawKey value | None => (0, 0) end in
    let l := match old with Some value => lenOf value | None => NONE end in
    r ← writeStorage vm account storageRawKey footprintItems footprintOctets;
    match r with
    | None => panicPlain vm a
    | Some (inr e) => continueWith e vm a
    | Some (inl account) =>
        keyVal ← removeStorageFromKeyVal keyVal serviceID storageRawKey;
        continueWith l vm (SetStorageKeyVal keyVal (putOwn serviceID account a))
    end).

(** The zero value of an account. *)
Definition zeroAccount : ServiceAccount := MkServiceAccount zeroServiceInfo ∅ ∅ ∅.

(** The encoding of the information of an account. *)
Definition infoData (account : ServiceAccount) : W :=
  let s := ac_ServiceInfo account in
  let minBalance := CalcThresholdBalance (si_Items s) (si_Bytes s) (si_DepositOffset s) in
  cat [enc_OpaqueHash (si_CodeHash s); enc_U64 (si_Balance s); enc_U64 minBalance; enc_Gas (si_MinItemGas s); enc_Gas (si_MinMemoGas s);
       enc_U64 (si_Bytes s); enc_U32 (si_Items s); enc_U64 (si_DepositOffset s); enc_TimeSlot (si_CreationSlot s);
       enc_TimeSlot (si_LastAccumulationSlot s); enc_ServiceID (si_ParentService s)].

Definition info : Omega CallArgs := charged (fun vm a =>
  serviceID ← deref (ga_ServiceID (gArgs a));
  let account :=
    if reg vm 7 =? 2 ^ 64 - 1 then Some (default zeroAccount (delta a !! serviceID)) else delta a !! u32 (reg vm 7) in
  match account with
  | None => continueWith NONE vm a
  | Some account =>
      v ← infoData account;
      let v := default [] v in
      let f := Z.min (reg vm 9) (lenOf v) in
      let l := Z.min (reg vm 10) (lenOf v - f) in
      let o := reg vm 8 in
      if l =? 0 then continueWith (lenOf v) vm a
      else if negb (isWriteable o l (vmMemory vm)) then panicWith OOB vm a
      else vm ← writeOut o f l v vm; continueWith (lenOf v) vm a
  end).

(** Only the reads, which may fail, are modelled of the message. *)
Definition logHostCall : Omega CallArgs := charged (fun vm a =>
  let level := reg vm 7 in
  let msgPtr := reg vm 10 in
  let msgLen := reg vm 11 in
  if negb (isReadable msgPtr msgLen (vmMemory vm)) then Ret (ExitContinue, vm, a)
  else
    _ ← Read (vmMemory vm) msgPtr msgLen;
    if 4 <? level then Ret (ExitContinue, vm, a)
    else if (reg vm 8 =? 0) && (reg vm 9 =? 0) then Ret (ExitContinue, vm, a)
    else if negb (isReadable (reg vm 8) (reg vm 9) (vmMemory vm)) then Ret (ExitContinue, vm, a)
    else _ ← Read (vmMemory vm) (reg vm 8) (reg vm 9); Ret (ExitContinue, vm, a)).

End General.
