(* ===== verification/HostAccumulate.v ===== *)
(** * Host calls of an accumulation

    src/PVM/host_call_accumulate.go: [bless] to [provide], which change the
    context X (B.7) of the service that is accumulated.

    [putOwn] writes the account of the service to the accounts of X and to
    the general arguments; [touch] writes to the maps of an account, which
    all its copies share. *)

From S2P Require Import Prelude Words ExitReasons Memory Types Config Codec Encode Decoders Host Store StateSer OuterAccumulation.
From S2P Require Import ServiceAccounts HostGeneral.
Local Open Scope Z_scope.

Section Accumulate.
Context `{HashFunctions} (makeOK : Z -> bool) (spec : ChainSpec).

Definition own (a : Args) : Z := xc_ServiceID (ctxX a).

(** ** Privileges *)

(** The entries of twelve bytes, of which later ones win; [None] is an error
    of the decoder. *)
Fixpoint alwaysAccumLoop (n : nat) (rawData : Bytes) (alwaysAccum : gmap Z Z) : go (option (gmap Z Z)) :=
  match n with
  | O => Ret (Some alwaysAccum)
  | S n =>
      ⟪ alwaysAccumServiceID ⟫ ⇠ decodeValue dec_ServiceID (take 4 rawData) ⊘ Ret None;
      ⟪ alwaysAccumServiceGas ⟫ ⇠ decodeValue dec_Gas (take 8 (drop 4 rawData)) ⊘ Ret None;
      alwaysAccumLoop n (drop 12 rawData) (<[alwaysAccumServiceID := alwaysAccumServiceGas]> alwaysAccum)
  end.

Definition setPrivileges (m : Z) (assignData : list Z) (v r : Z) (alwaysAccum : gmap Z Z) (e : PartialStateSet) : PartialStateSet :=
  MkPartialState (pt_ServiceAccounts e) (pt_ValidatorKeys e) (pt_Authorizers e) m assignData v r alwaysAccum.

Definition bless : Omega CallArgs := charged (fun vm a =>
  let m := reg vm 7 in
  let v := reg vm 9 in
  let r := reg vm 10 in
  let o := reg vm 11 in
  let offset := u64 (4 * CoresCount spec) in
  if negb (isReadable (reg vm 8) offset (vmMemory vm)) then panicWith OOB vm a
  else
    rawData ← Read (vmMemory vm) (reg vm 8) offset;
    ⟪ assignData ⟫ ⇠ decodeValue (dec_ServiceIDList makeOK spec) rawData ⊘ panicWith OOB vm a;
    let '(offset, overflow) := checkOverflow 12 (reg vm 12) in
    if overflow || negb (isReadable o offset (vmMemory vm)) then panicWith OOB vm a
    else
      rawData ← Read (vmMemory vm) o offset;
      ⟪ alwaysAccum ⟫ ⇠ alwaysAccumLoop (length rawData / 12) rawData ∅ ⊘ panicPlain vm a;
      if (2 ^ 32 <=? m) || (2 ^ 32 <=? v) || (2 ^ 32 <=? r) then continueWith WHO vm a
      else continueWith OK vm (onStateX (setPrivileges m assignData v r alwaysAccum) a)).

(** The queue and the assigner of core [c]. *)
Definition assignCore (c : Z) (authQueue : list Bytes) (assigner : Z) (e : PartialStateSet) : go PartialStateSet :=
  authorizers ← zupdate (pt_Authorizers e) c authQueue;
  assign ← zupdate (pt_Assign e) c assigner;
  Ret (MkPartialState (pt_ServiceAccounts e) (pt_ValidatorKeys e) authorizers (pt_Bless e) assign (pt_Designate e) (pt_CreateAcct e)
    (pt_AlwaysAccum e)).

Definition assign : Omega CallArgs := charged (fun vm a =>
  let c := reg vm 7 in
  let o := reg vm 8 in
  let offset := 32 * AuthQueueSize in
  if negb (isReadable o offset (vmMemory vm)) then panicWith OOB vm a
  else if u64 (CoresCount spec) <=? c then continueWith CORE vm a
  else
    assigner ← zindex (pt_Assign (stateX a)) c;
    if negb (own a =? assigner) then continueWith HUH vm a
    else if 2 ^ 32 <=? reg vm 9 then continueWith WHO vm a
    else
      rawData ← Read (vmMemory vm) o offset;
      ⟪ authQueue ⟫ ⇠ decodeValue (dec_AuthQueue makeOK) rawData ⊘ panicPlain vm a;
      e ← assignCore c authQueue (reg vm 9) (stateX a);
      continueWith OK vm (onStateX (fun _ => e) a)).

Definition setValidatorKeys (v : list Validator) (e : PartialStateSet) : PartialStateSet :=
  MkPartialState (pt_ServiceAccounts e) v (pt_Authorizers e) (pt_Bless e) (pt_Assign e) (pt_Designate e) (pt_CreateAcct e) (pt_AlwaysAccum e).

Definition designate : Omega CallArgs := charged (fun vm a =>
  let o := reg vm 7 in
  let offset := u64 (336 * ValidatorsCount spec) in
  if negb (isReadable o offset (vmMemory vm)) then panicWith OOB vm a
  else if negb (own a =? pt_Designate (stateX a)) then continueWith HUH vm a
  else
    rawData ← Read (vmMemory vm) o offset;
    ⟪ validatorsData ⟫ ⇠ decodeValue (dec_ValidatorsData makeOK spec) rawData ⊘ panicPlain vm a;
    continueWith OK vm (onStateX (setValidatorKeys validatorsData) a)).

(** The context X is copied in depth. *)
Definition checkpoint : Omega CallArgs := charged (fun vm a =>
  continueWith (u64 (vmGas vm)) vm
    (onAccumulate (fun x => MkAccumulateArgs (aa_ResultContextX x) (aa_ResultContextX x) (aa_Timeslot x) (aa_Eta x)
      (aa_OperandOrDeferredTransfers x)) a)).

(** ** Services *)

(** The account of a new service, with a request for its code. *)
Definition newAccount (a : Args) (c : Bytes) (l g m : Z) : ServiceAccount :=
  let account b items octets :=
    MkServiceAccount (MkServiceInfo 0 c b g m octets 0 items (aa_Timeslot (aArgs a)) 0 (own a)) ∅ {[ MkLookupMetaMapkey c (u32 l) := [] ]} ∅ in
  let derive := GetServiceAccountDerivatives (account 0 0 0) in
  account (sd_Minbalance derive) (sd_Items derive) (sd_Bytes derive).

(** The identifier the search for the next one starts from. *)
Definition nextServiceID (importServiceID : Z) : Z :=
  u32 (MinimumServiceIndex + u32 (importServiceID - MinimumServiceIndex + 42) mod (2 ^ 32 - MinimumServiceIndex - 2 ^ 8)).

Definition SetImportServiceID (i : Z) : Args -> Args :=
  onX (fun x => MkResultContext (xc_ServiceID x) (xc_PartialState x) i (xc_DeferredTransfers x) (xc_Exception x) (xc_ServiceBlobs x) (xc_StorageKeyVal x)).

(** The new account, then the account that pays; the latter goes to the
    general arguments if it is theirs. *)
Definition putNew (i : Z) (account : ServiceAccount) (serviceID : Z) (s : ServiceAccount) (a : Args) : go Args :=
  generalID ← deref (ga_ServiceID (gArgs a));
  let a := onAccountsX (insert i account) a in
  Ret (if serviceID =? generalID then putOwn serviceID s a else onAccountsX (insert serviceID s) a).

(** The balance of the service is a [uint64] difference. If every identifier
    is taken the search for the next one does not end ([Crash]). *)
Definition new : Omega CallArgs := charged (fun vm a =>
  let o := reg vm 7 in
  let l := reg vm 8 in
  let i := reg vm 12 in
  if negb (isReadable o 32 (vmMemory vm) && (l <? 2 ^ 32)) then panicPlain vm a
  else if negb (reg vm 11 =? 0) && negb (own a =? pt_Bless (xc_PartialState (aa_ResultContextY (aArgs a)))) then continueWith HUH vm a
  else
    c ← Read (vmMemory vm) o 32;
    let serviceID := own a in
    let s := default zeroAccount (accountsX a !! serviceID) in
    let account := newAccount a c l (reg vm 9) (reg vm 10) in
    let info := ac_ServiceInfo s in
    let newBalance := u64 (si_Balance info - si_Balance (ac_ServiceInfo account)) in
    let minBalance := CalcThresholdBalance (si_Items info) (si_Bytes info) (si_DepositOffset info) in
    if newBalance <? minBalance then continueWith CASH vm a
    else
      let registrar := (serviceID =? pt_CreateAcct (stateX a)) && (i <? MinimumServiceIndex) in
      if registrar && bool_decide (is_Some (accountsX a !! u32 i)) then continueWith FULL vm a
      else
        let s := SetBalance newBalance s in
        if registrar then a ← putNew (u32 i) account serviceID s a; continueWith i vm a
        else
          let importServiceID := xc_ImportServiceID (ctxX a) in
          match check (size (accountsX a)) (nextServiceID importServiceID) (accountsX a) with
          | None => Crash
          | Some iStar => a ← putNew importServiceID account serviceID s (SetImportServiceID iStar a); continueWith importServiceID vm a
          end).

Definition upgradeInfo (c : Bytes) (g m : Z) (s : ServiceInfo) : ServiceInfo :=
  MkServiceInfo (si_Version s) c (si_Balance s) g m (si_Bytes s) (si_DepositOffset s) (si_Items s) (si_CreationSlot s)
    (si_LastAccumulationSlot s) (si_ParentService s).

Definition upgrade : Omega CallArgs := charged (fun vm a =>
  let o := reg vm 7 in
  if negb (isReadable o 32 (vmMemory vm)) then panicWith OOB vm a
  else
    c ← Read (vmMemory vm) o 32;
    match accountsX a !! own a with
    | Some account => continueWith OK vm (putOwn (own a) (SetInfo (upgradeInfo c (reg vm 8) (reg vm 9)) account) a)
    | None => continueWith OK vm a
    end).

Definition appendTransfer (t : DeferredTransfer) : Args -> Args :=
  onX (fun x => MkResultContext (xc_ServiceID x) (xc_PartialState x) (xc_ImportServiceID x) (xc_DeferredTransfers x ++ [t]) (xc_Exception x)
    (xc_ServiceBlobs x) (xc_StorageKeyVal x)).

Definition setGas (g : Z) (vm : VMState) : VMState := MkVM (vmRegisters vm) (vmMemory vm) g.

(** The gas of the receiver is taken from the sender's. *)
Definition payTransfer (l : Z) (vm : VMState) (a : Args) : Outcome :=
  if u64 (vmGas vm) <? l then Ret (ExitOOG, setGas 0 vm, a)
  else continueWith OK (setGas (s64 (vmGas vm - s64 l)) vm) a.

Definition transfer : Omega CallArgs := charged (fun vm a =>
  let d := reg vm 7 in
  let amount := reg vm 8 in
  let l := reg vm 9 in
  let o := reg vm 10 in
  if negb (isReadable o TransferMemoSize (vmMemory vm)) then panicWith OOB vm a
  else
    rawData ← Read (vmMemory vm) o TransferMemoSize;
    match accountsX a !! u32 d with
    | None => continueWith WHO vm a
    | Some accountD =>
        if l <? si_MinMemoGas (ac_ServiceInfo accountD) then continueWith LOW vm a
        else
          let serviceID := own a in
          match accountsX a !! serviceID with
          | None => payTransfer l vm a
          | Some accountS =>
              let info := ac_ServiceInfo accountS in
              let b := u64 (si_Balance info - amount) in
              let minBalance := CalcThresholdBalance (si_Items info) (si_Bytes info) (si_DepositOffset info) in
              if (b <? minBalance) || (si_Balance info <? amount) then continueWith CASH vm a
              else
                payTransfer l vm (appendTransfer (MkDeferredTransfer serviceID (u32 d) amount rawData l)
                  (putOwn serviceID (SetBalance b accountS) a))
          end
    end).

(** Whether a preimage that is gone since [slot] may be removed: [int]
    arithmetic. *)
Definition expired (slot timeslot : Z) : bool := slot <? timeslot - UnreferencedPreimageTimeslots spec.

Definition eject : Omega CallArgs := charged (fun vm a =>
  let d := u32 (reg vm 7) in
  let o := reg vm 8 in
  if negb (isReadable o 32 (vmMemory vm)) then panicWith OOB vm a
  else
    h ← Read (vmMemory vm) o 32;
    let serviceID := own a in
    match accountsX a !! d with
    | None => continueWith WHO vm a
    | Some accountD =>
        let info := ac_ServiceInfo accountD in
        if d =? serviceID then continueWith WHO vm a
        else if negb (bool_decide (si_CodeHash info = SerializeFixedLength serviceID 32)) then continueWith WHO vm a
        else
          let l := Z.max 81 (si_Bytes info) - 81 in
          match ac_LookupDict accountD !! MkLookupMetaMapkey h (u32 l) with
          | Some lookupData =>
              if negb (si_Items info =? 2) then continueWith HUH vm a
              else
                match lookupData, accountsX a !! serviceID with
                | [_; y], Some accountS =>
                    if expired y (aa_Timeslot (aArgs a)) then
                      let balance := u64 (si_Balance (ac_ServiceInfo accountS) + si_Balance info) in
                      continueWith OK vm (onAccountsX (delete d) (putOwn serviceID (SetBalance balance accountS) a))
                    else continueWith HUH vm a
                | _, _ => continueWith HUH vm a
                end
          | None => continueWith HUH vm a
          end
    end).

(** ** Preimages *)

(** The request of a preimage that is among the unmatched pairs moves to the
    account, whose maps are nil if it does not exist; [None] is an error of
    the decoder. *)
Definition loadLookupTimeSlotSet (serviceID : Z) (lookupKey : LookupMetaMapkey) (a : Args) : go (Args * bool) :=
  r ← getLookupItemFromKeyVal (xc_StorageKeyVal (ctxX a)) serviceID lookupKey;
  let '(lookupTimeSlotSet, keyVal) := r in
  let a := SetStorageKeyVal keyVal a in
  match lookupTimeSlotSet with
  | None => Ret (a, true)
  | Some lookupTimeSlotSet =>
      ⟪ timeSlotSet ⟫ ⇠ decodeValue (dec_TimeSlotSet makeOK) lookupTimeSlotSet ⊘ Ret (a, false);
      if bool_decide (accountsX a !! serviceID = None) then Crash
      else Ret (touch serviceID (SetLookup (insert lookupKey timeSlotSet)) a, true)
  end.

Definition setReg2 (x y : Z) (vm : VMState) (a : Args) : Outcome := Ret (ExitContinue, setReg 8 y (setReg 7 x vm), a).

Definition query : Omega CallArgs := charged (fun vm a =>
  let o := reg vm 7 in
  let z := reg vm 8 in
  if negb (isReadable o 32 (vmMemory vm)) then panicWith OOB vm a
  else
    h ← Read (vmMemory vm) o 32;
    let lookupKey := MkLookupMetaMapkey h (u32 z) in
    r ← loadLookupTimeSlotSet (own a) lookupKey a;
    let '(a, ok) := r in
    if negb ok then panicPlain vm a
    else
      match accountsX a !! own a ≫= (fun account => ac_LookupDict account !! lookupKey) with
      | None => setReg2 NONE 0 vm a
      | Some [] => setReg2 0 0 vm a
      | Some [x] => setReg2 (1 + 2 ^ 32 * x) 0 vm a
      | Some [x; y] => setReg2 (2 + 2 ^ 32 * x) y vm a
      | Some [x; y; z] => setReg2 (3 + 2 ^ 32 * x) (y + 2 ^ 32 * z) vm a
      | Some _ => Ret (ExitContinue, vm, a)
      end).

(** The account after a request, or the error. *)
Definition processSolicitLookupData (account : ServiceAccount) (lookupKey : LookupMetaMapkey) (timeslot : Z) : ServiceAccount + Z :=
  let info := ac_ServiceInfo account in
  let '(itemFootprintItems, itemFootprintOctets) := CalcLookupItemfootprint lookupKey in
  match ac_LookupDict account !! lookupKey with
  | None =>
      let newFootprintItems := u32 (si_Items info + itemFootprintItems) in
      let newFootprintOctets := u64 (si_Bytes info + itemFootprintOctets) in
      let newMinBalance := CalcThresholdBalance newFootprintItems newFootprintOctets (si_DepositOffset info) in
      if si_Balance info <? newMinBalance then inr FULL
      else inl (SetFootprint newFootprintItems newFootprintOctets (SetLookup (insert lookupKey []) account))
  | Some [x; y] =>
      inl (SetFootprint (u32 (u32 (si_Items info - itemFootprintItems) + itemFootprintItems))
        (u64 (u64 (si_Bytes info - itemFootprintOctets) + itemFootprintOctets)) (SetLookup (insert lookupKey [x; y; timeslot]) account))
  | Some _ => inr HUH
  end.

Definition solicit : Omega CallArgs := charged (fun vm a =>
  let o := reg vm 7 in
  let z := reg vm 8 in
  if negb (isReadable o 32 (vmMemory vm)) then panicWith OOB vm a
  else
    h ← Read (vmMemory vm) o 32;
    if bool_decide (accountsX a !! own a = None) then Ret (ExitContinue, vm, a)
    else
      let lookupKey := MkLookupMetaMapkey h (u32 z) in
      r ← loadLookupTimeSlotSet (own a) lookupKey a;
      let '(a, ok) := r in
      if negb ok then panicPlain vm a
      else
        account ← deref (accountsX a !! own a);
        match processSolicitLookupData account lookupKey (aa_Timeslot (aArgs a)) with
        | inl account => continueWith OK vm (putOwn (own a) account a)
        | inr e => continueWith e vm a
        end).

Definition SetPreimages (f : gmap Bytes Bytes -> gmap Bytes Bytes) (a : ServiceAccount) : ServiceAccount :=
  MkServiceAccount (ac_ServiceInfo a) (f (ac_PreimageLookup a)) (ac_LookupDict a) (ac_StorageDict a).

(** The account after the end of a request; [None] is [HUH]. *)
Definition forgetLookup (account : ServiceAccount) (lookupKey : LookupMetaMapkey) (timeslot : Z) : option ServiceAccount :=
  let info := ac_ServiceInfo account in
  let '(itemFootprintItems, itemFootprintOctets) := CalcLookupItemfootprint lookupKey in
  let lessItems := u32 (si_Items info - itemFootprintItems) in
  let lessOctets := u64 (si_Bytes info - itemFootprintOctets) in
  let removed := SetFootprint lessItems lessOctets (SetPreimages (delete (lk_Hash lookupKey)) (SetLookup (delete lookupKey) account)) in
  let kept timeSlotSet := SetFootprint (u32 (lessItems + itemFootprintItems)) (u64 (lessOctets + itemFootprintOctets))
    (SetLookup (insert lookupKey timeSlotSet) account) in
  match ac_LookupDict account !! lookupKey with
  | Some [] => Some removed
  | Some [x] => Some (kept [x; timeslot])
  | Some [x; y] => if expired y timeslot then Some removed else None
  | Some [x; y; w] => if expired y timeslot then Some (kept [w; timeslot]) else None
  | _ => None
  end.

Definition forget : Omega CallArgs := charged (fun vm a =>
  let o := reg vm 7 in
  let z := reg vm 8 in
  if negb (isReadable o 32 (vmMemory vm)) then panicWith OOB vm a
  else
    h ← Read (vmMemory vm) o 32;
    if bool_decide (accountsX a !! own a = None) then Ret (ExitContinue, vm, a)
    else
      let lookupKey := MkLookupMetaMapkey h (u32 z) in
      r ← loadLookupTimeSlotSet (own a) lookupKey a;
      let '(a, ok) := r in
      if negb ok then panicPlain vm a
      else
        account ← deref (accountsX a !! own a);
        match forgetLookup account lookupKey (aa_Timeslot (aArgs a)) with
        | Some account => continueWith OK vm (putOwn (own a) account a)
        | None => continueWith HUH vm a
        end).

(** ** Results *)

Definition SetException (h : Bytes) : Args -> Args :=
  onX (fun x => MkResultContext (xc_ServiceID x) (xc_PartialState x) (xc_ImportServiceID x) (xc_DeferredTransfers x) (Some h)
    (xc_ServiceBlobs x) (xc_StorageKeyVal x)).

Definition yield : Omega CallArgs := charged (fun vm a =>
  let o := reg vm 7 in
  if negb (isReadable o 32 (vmMemory vm)) then panicWith OOB vm a
  else h ← Read (vmMemory vm) o 32; continueWith OK vm (SetException h a)).

(** The key of a blob, which Go cannot use as one. *)
Definition blobKey (s : Z) (i : Bytes) : go Bytes :=
  serialized ← enc_ServiceID s;
  encoded ← enc_ByteSequence i;
  Ret (Blake2bHash (default [] serialized ++ default [] encoded)).

Definition addBlob (hashKey : Bytes) (blob : ServiceBlob) : Args -> Args :=
  onX (fun x => MkResultContext (xc_ServiceID x) (xc_PartialState x) (xc_ImportServiceID x) (xc_DeferredTransfers x) (xc_Exception x)
    (<[hashKey := blob]> (xc_ServiceBlobs x)) (xc_StorageKeyVal x)).

Definition provide : Omega CallArgs := charged (fun vm a =>
  let o := reg vm 8 in
  let z := reg vm 9 in
  if negb (isReadable o z (vmMemory vm)) then panicWith OOB vm a
  else
    i ← Read (vmMemory vm) o z;
    let s := if reg vm 7 =? 2 ^ 64 - 1 then own a else u32 (reg vm 7) in
    if bool_decide (accountsX a !! s = None) then continueWith WHO vm a
    else
      let lookupKey := MkLookupMetaMapkey (Blake2bHash i) (u32 z) in
      r ← loadLookupTimeSlotSet s lookupKey a;
      let '(a, ok) := r in
      if negb ok then panicPlain vm a
      else
        match accountsX a !! s ≫= (fun account => ac_LookupDict account !! lookupKey) with
        | Some [] =>
            hashKey ← blobKey s i;
            if bool_decide (is_Some (xc_ServiceBlobs (ctxX a) !! hashKey)) then continueWith HUH vm a
            else continueWith OK vm (addBlob hashKey (s, i) a)
        | _ => continueWith HUH vm a
        end).

End Accumulate.
