(* ===== verification/AccumulateInvocation.v ===== *)
(** * The accumulate invocation

    src/PVM/accumulate_invocation.go: [Psi_A] (B.9) runs the code of a
    service with the host calls of an accumulation (B.11), from the initial
    context [I] (B.10) to the one that [C] (B.13, in Host.v) commits; and the
    tables of host calls of src/PVM/host_call_invocation.go.

    [arrangeBlobs] lists the provided blobs, a Go map. *)

From S2P Require Import Prelude Words ExitReasons Program Types Config Codec Encode Decoders Host Store StateSer.
From S2P Require Import OuterAccumulation ServiceAccounts HostGeneral HostAccumulate.
Local Open Scope Z_scope.

Section Invocation.
Context `{HashFunctions} (makeOK : Z -> bool) (spec : ChainSpec) (arrangeBlobs : gmap Bytes ServiceBlob -> list ServiceBlob).

(** ** Host calls *)

(** (B.12) *)
Definition G (serviceAccount : ServiceAccount) (a : Args) : Args := onAccountsX (insert (own a) serviceAccount) a.

(** The account that is written back is read after the call: the map of the
    accounts is the one the call wrote to. *)
Definition wrapWithG (original : Omega CallArgs) : Omega CallArgs := fun op vm a =>
  output ← original op vm a;
  let '(reason, vm, a) := output in
  Ret (reason, vm, G (default zeroAccount (accountsX a !! own a)) a).

Definition AccumulateOmegas : Omegas CallArgs :=
  [Some gas; Some (fetch spec); Some (wrapWithG lookup); Some (wrapWithG read); Some (wrapWithG write); Some (wrapWithG info)] ++
  replicate 8 None ++
  [Some (bless makeOK spec); Some (assign makeOK spec); Some (designate makeOK spec); Some checkpoint; Some new; Some upgrade; Some transfer;
   Some (eject spec); Some (query makeOK); Some (solicit makeOK); Some (forget makeOK spec); Some yield; Some (provide makeOK)] ++
  replicate 73 None ++ [Some logHostCall].

(** ** The context *)

Definition I (partialState : PartialStateSet) (serviceID ht : Z) (eta : Bytes) (storageKeyVal : list StateKeyVal) : go ResultContext :=
  let serialized := EncodeUint serviceID ++ eta ++ EncodeUint ht in
  ⟪ result ⟫ ⇠ decodeValue dec_ServiceID (Blake2bHash serialized) ⊘ Crash;
  let modValue := 2 ^ 32 - MinimumServiceIndex - 2 ^ 8 in
  match check (size (pt_ServiceAccounts partialState)) (u32 (result mod modValue + MinimumServiceIndex)) (pt_ServiceAccounts partialState) with
  | None => Crash
  | Some result => Ret (MkResultContext serviceID partialState result [] None ∅ storageKeyVal)
  end.

(** The parts that [C] commits, which it takes as they are. *)
Definition contextOf (x : ResultContext) : @Host.ResultContext PartialStateSet (list DeferredTransfer) ServiceBlob (list StateKeyVal) :=
  MkContext (xc_PartialState x) (xc_DeferredTransfers x) (xc_Exception x) (arrangeBlobs (xc_ServiceBlobs x)) (xc_StorageKeyVal x).

(** ** The invocation *)

(** What a service without code gives. *)
Definition noCode (e : PartialStateSet) (storageKeyVal : list StateKeyVal) : Psi_A_ReturnType := MkPsiA e [] None 0 [] storageKeyVal.

(** [sum += v.DeferredTransfer.Balance] *)
Definition transferBalances (items : list OperandOrDeferredTransfer) : Z :=
  addGas 0 (omap (fun v => dt_Balance <$> od_DeferredTransfer v) items).

Definition withAccount (serviceID : Z) (s : ServiceAccount) (e : PartialStateSet) : PartialStateSet :=
  MkPartialState (<[serviceID := s]> (pt_ServiceAccounts e)) (pt_ValidatorKeys e) (pt_Authorizers e) (pt_Bless e) (pt_Assign e)
    (pt_Designate e) (pt_CreateAcct e) (pt_AlwaysAccum e).

Definition zeroRefineArgs : RefineArgs := MkRefineArgs None None None [] 0 ∅ [] 0 [].

(** The arguments of the host calls at the start. The state of the context X
    and its pairs are copies, those of Y the ones that were given. *)
Definition addition (e : PartialStateSet) (timeslot serviceID : Z) (s : ServiceAccount) (items : list OperandOrDeferredTransfer) (eta : Bytes)
    (storageKeyVal : list StateKeyVal) : go Args :=
  x ← I e serviceID timeslot eta storageKeyVal;
  Ret (MkArgs None (MkCallArgs (MkGeneralArgs (Some s) (Some serviceID) None None) (MkAccumulateArgs x x timeslot eta items) zeroRefineArgs)).

(** [None] when the host calls exceed [fuel]. *)
Definition runPsi_A (fuel : nat) (partialState : PartialStateSet) (timeslot serviceID gasLimit : Z)
    (items : list OperandOrDeferredTransfer) (eta : Bytes) (storageKeyVal : list StateKeyVal) : option (go Psi_A_ReturnType) :=
  match pt_ServiceAccounts partialState !! serviceID with
  | None => Some (Ret (noCode partialState storageKeyVal))
  | Some s =>
      let s := SetBalance (u64 (si_Balance (ac_ServiceInfo s) + transferBalances items)) s in
      let partialState := withAccount serviceID s partialState in
      match FetchCodeByHash makeOK s (si_CodeHash (ac_ServiceInfo s)) with
      | Crash => Some Crash
      | Ret None => Some (Ret (noCode partialState storageKeyVal))
      | Ret (Some (_, code)) =>
          if (lenOf code =? 0) || (MaxServiceCodeSize <? lenOf code) then Some (Ret (noCode partialState storageKeyVal))
          else
            let serialized := EncodeUint timeslot ++ EncodeUint serviceID ++ EncodeUint (lenOf items) in
            match addition partialState timeslot serviceID s items eta storageKeyVal with
            | Crash => Some Crash
            | Ret a =>
                match Psi_M fuel (GSlice code []) 5 gasLimit (GSlice serialized []) AccumulateOmegas a with
                | None => None
                | Some Crash => Some Crash
                | Some (Ret (gas, reasonOrBytes, a)) =>
                    let '(e, transfers, result, gas, blobs, kvs) :=
                      C gas reasonOrBytes (contextOf (ctxX a)) (contextOf (aa_ResultContextY (aArgs a))) in
                    Some (Ret (MkPsiA e transfers result gas blobs kvs))
                end
            end
      end
  end.

(** Every host call costs gas, so that fuel above the gas is enough. *)
#[local] Instance PsiA : AccumulateVM := fun e timeslot serviceID gasLimit items eta kvs =>
  default Crash (runPsi_A (S (Z.to_nat gasLimit)) e timeslot serviceID gasLimit items eta kvs).

End Invocation.
