(* ===== verification/HostRefine.v ===== *)
(** * Refinement and authorization

    src/PVM/host_call_refine.go: the host calls of a refinement, which manage
    integrated machines (B.4) and export segments; src/PVM/refine_invocation.go
    ([RefineInvoke]) and src/PVM/is_authorized_invocation.go ([Psi_I]), which
    run a work item and an authorizer; and their tables of host calls
    (src/PVM/host_call_invocation.go).

    An integrated machine is a value of a map; its page map and its pages are
    shared by the copies of the value, of which the one in the map is the only
    that stays. *)

From S2P Require Import Prelude Words ExitReasons Opcodes Memory Decode Interp Program Types Config Codec Encode Decoders.
From S2P Require Import Invocation Host Store OuterAccumulation ServiceAccounts HostGeneral.
Local Open Scope Z_scope.

Definition onRefine (f : RefineArgs -> RefineArgs) : Args -> Args :=
  onRest (fun r => MkCallArgs (generalArgs r) (accumulateArgs r) (f (refineArgs r))).

Definition machines (a : Args) : gmap Z IntegratedPVMType := ra_IntegratedPVMMap (rArgs a).
Definition exported (a : Args) : list Bytes := ra_ExportSegment (rArgs a).

Definition onMachines (f : gmap Z IntegratedPVMType -> gmap Z IntegratedPVMType) : Args -> Args :=
  onRefine (fun r => MkRefineArgs (ra_WorkItemIndex r) (ra_WorkPackage r) (ra_AuthOutput r) (ra_ImportSegments r) (ra_ExportSegmentOffset r)
    (f (ra_IntegratedPVMMap r)) (ra_ExportSegment r) (ra_TimeSlot r) (ra_Extrinsics r)).
Definition appendSegment (segment : Bytes) : Args -> Args :=
  onRefine (fun r => MkRefineArgs (ra_WorkItemIndex r) (ra_WorkPackage r) (ra_AuthOutput r) (ra_ImportSegments r) (ra_ExportSegmentOffset r)
    (ra_IntegratedPVMMap r) (ra_ExportSegment r ++ [segment]) (ra_TimeSlot r) (ra_Extrinsics r)).

(** ** Preimages and segments *)

(** [emptyIsNil] tells whether an empty preimage of the accounts is the nil
    slice: it is when it was decoded from an extrinsic. *)
Definition historicalLookup (emptyIsNil : bool) : Omega CallArgs := charged (fun vm a =>
  let h := reg vm 8 in
  let o := reg vm 9 in
  if negb (isReadable h 32 (vmMemory vm)) then panicWith OOB vm a
  else
    codeHash ← Read (vmMemory vm) h 32;
    s ← deref (ga_ServiceID (gArgs a));
    let account :=
      match delta a !! s with
      | Some account => if reg vm 7 =? 2 ^ 64 - 1 then Some account else delta a !! u32 (reg vm 7)
      | None => delta a !! u32 (reg vm 7)
      end in
    let v := account ≫= (fun account => HistoricalLookup account (ra_TimeSlot (rArgs a)) codeHash) in
    let data := default [] v in
    let f := Z.min (reg vm 10) (lenOf data) in
    let l := Z.min (reg vm 11) (lenOf data - f) in
    if negb (isWriteable o l (vmMemory vm)) && negb (l =? 0) then panicWith OOB vm a
    else
      match v with
      | None => continueWith NONE vm a
      | Some v =>
          if emptyIsNil && (lenOf v =? 0) then continueWith NONE vm a
          else vm ← writeOut o f l v vm; continueWith (lenOf v) vm a
      end).

Definition SegmentSize : Z := 4104.

(** (14.17) *)
Definition zeroPadding (seq : Bytes) (n : Z) : Bytes :=
  let sub := (lenOf seq + n - 1) mod n + 1 in
  seq ++ replicate (Z.to_nat (n - sub)) 0.

Definition export : Omega CallArgs := charged (fun vm a =>
  let p := reg vm 7 in
  let z := Z.min (reg vm 8) SegmentSize in
  if negb (isReadable p z (vmMemory vm)) then panicWith OOB vm a
  else
    let segmentLength := u64 (ra_ExportSegmentOffset (rArgs a) + lenOf (exported a)) in
    if MaxExportCount <? segmentLength then continueWith FULL vm a
    else
      data ← Read (vmMemory vm) p z;
      let exportSegment := gcopy (replicate (Z.to_nat SegmentSize) 0) (zeroPadding data SegmentSize) in
      continueWith segmentLength vm (appendSegment exportSegment a)).

(** ** Integrated machines *)

(** The zero value; its page map is nil. *)
Definition zeroMemory : Memory := MkMemory ∅ 0 0.

(** A page map without pages is nil: it starts so, no page is ever removed,
    and the assignment of a page to a nil map is a run-time panic. *)
Definition nilPages (m : Memory) : bool := bool_decide (size (Pages m) = 0%nat).

Definition assignPage (i : Z) (p : Page) (m : Memory) : go Memory := if nilPages m then Crash else Ret (set_page m i p).

(** The loop over [n] pages from [i]. *)
Fixpoint assignPages (n : nat) (i : Z) (access : MemoryAccess) (m : Memory) : go Memory :=
  match n with
  | O => Ret m
  | S n => m ← assignPage i (MkPage (replicate (Z.to_nat ZP) 0) access) m; assignPages n (u32 (i + 1)) access m
  end.

(** The first number that is not a machine; [fuel] bounds the search. *)
Fixpoint freeMachine (fuel : nat) (n : Z) (m : gmap Z IntegratedPVMType) : Z :=
  match fuel with
  | O => n
  | S fuel => if bool_decide (is_Some (m !! n)) then freeMachine fuel (n + 1) m else n
  end.

Definition machine : Omega CallArgs := charged (fun vm a =>
  let po := reg vm 7 in
  let pz := reg vm 8 in
  let i := reg vm 9 in
  if negb (isReadable po pz (vmMemory vm)) then panicWith OOB vm a
  else
    p ← Read (vmMemory vm) po pz;
    let n := freeMachine (size (machines a)) 0 (machines a) in
    ⟪ _ ⟫ ⇠ DeBlobProgramCode (GSlice p []) ⊘ continueWith HUH vm a;
    continueWith n vm (onMachines (insert n (MkIntegrated p zeroMemory (u32 i))) a)).

Definition peek : Omega CallArgs := charged (fun vm a =>
  let o := reg vm 8 in
  let s := reg vm 9 in
  let z := reg vm 10 in
  if z =? 0 then continueWith OK vm a
  else if negb (isWriteable o z (vmMemory vm)) then panicWith OOB vm a
  else
    match machines a !! reg vm 7 with
    | None => continueWith WHO vm a
    | Some t =>
        if negb (isReadable s z (im_Memory t)) then continueWith OOB vm a
        else data ← Read (im_Memory t) s z; m ← Write (vmMemory vm) o data; continueWith OK (setMemory m vm) a
    end).

Definition setMachine (n : Z) (code : Bytes) (m : Memory) (pc : Z) : Args -> Args := onMachines (insert n (MkIntegrated code m pc)).

Definition poke : Omega CallArgs := charged (fun vm a =>
  let n := reg vm 7 in
  let s := reg vm 8 in
  let o := reg vm 9 in
  let z := reg vm 10 in
  if negb (isReadable s z (vmMemory vm)) then panicWith OOB vm a
  else
    match machines a !! n with
    | None => continueWith WHO vm a
    | Some t =>
        if negb (isWriteable o z (im_Memory t)) then panicWith OOB vm a
        else data ← Read (vmMemory vm) s z; m ← Write (im_Memory t) o data; continueWith OK vm (setMachine n (im_ProgramCode t) m (im_PC t) a)
    end).

Definition pages : Omega CallArgs := charged (fun vm a =>
  let n := reg vm 7 in
  let p := reg vm 8 in
  let c := reg vm 9 in
  let r := reg vm 10 in
  match machines a !! n with
  | None => continueWith WHO vm a
  | Some t =>
      let e := u64 (p + c) in
      if (4 <? r) || (p <? 16) || (2 ^ 32 / ZP <=? e) then continueWith HUH vm a
      else if (2 <? r) && negb (isReadable p c (im_Memory t)) then continueWith HUH vm a
      else
        let count := Z.to_nat (u32 e - u32 p) in
        m ← (if 3 <=? r then assignPages count (u32 p) MemoryInaccessible (im_Memory t) else Ret (im_Memory t));
        m ← (if (r =? 1) || (r =? 3) then assignPages count (u32 p) MemoryReadOnly m else Ret m);
        m ← (if (r =? 2) || (r =? 4) then assignPages count (u32 p) MemoryReadWrite m else Ret m);
        continueWith OK vm (setMachine n (im_ProgramCode t) m (im_PC t) a)
  end).

(** *** Running a machine *)

(** The program of a machine is its blob, taken as instructions. *)
Definition innerProgram (code : Bytes) : Program := MkProgram (GSlice code []) [] (MkJumpTable (GSlice [] []) 0 0) [] [] [].

(** Instructions are paid with gas, so that fuel above the gas is enough. *)
Definition runMachine (t : IntegratedPVMType) (w : list Z) (g : Z) : outcome :=
  default Crash (SingleStepInvoke (S (Z.to_nat (s64 g))) (MkInterp (innerProgram (im_ProgramCode t)) w (im_Memory t) (s64 g)) (im_PC t)).

Definition INNERHALT : Z := 0.
Definition INNERPANIC : Z := 1.
Definition INNERFAULT : Z := 2.
Definition INNERHOST : Z := 3.
Definition INNEROOG : Z := 4.

(** The registers after a run. *)
Definition innerResult (c : Z) (vm : VMState) : VMState :=
  let t := GetReasonType c in
  if t =? HOST_CALL then setReg 8 (GetHostCallID c) (setReg 7 INNERHOST vm)
  else if t =? PAGE_FAULT then setReg 8 (GetPageFaultAddress c) (setReg 7 INNERFAULT vm)
  else if t =? OUT_OF_GAS then setReg 7 INNEROOG vm
  else if t =? PANIC then setReg 7 INNERPANIC vm
  else if t =? HALT then setReg 7 INNERHALT vm
  else vm.

(** The gas and the registers of the machine, as the host call reads them. *)
Definition innerGas (data : Bytes) : Z := le_val (take 8 data).
Definition innerRegisters (data : Bytes) : list Z := (fun i => le_val (take 8 (drop (8 * i) data))) <$> seq 1 13.

(** The bytes the host call writes back: the encoder takes neither the gas nor
    a register, which are of basic types, and the error is dropped. *)
Definition innerState (i : Interpreter) : Bytes := replicate 112 0.

(** The counter after a host call skips by the bit mask of the outer
    program. *)
Definition nextCounter (c pc : Z) (a : Args) : go Z :=
  if GetReasonType c =? HOST_CALL then
    program ← deref (argProgram a);
    Ret (u32 (pc + 1 + skip pc (Bitmasks program)))
  else Ret pc.

Definition invoke : Omega CallArgs := charged (fun vm a =>
  let n := reg vm 7 in
  let o := reg vm 8 in
  if negb (isWriteable o 112 (vmMemory vm)) then panicWith OOB vm a
  else
    match machines a !! n with
    | None => continueWith WHO vm a
    | Some t =>
        data ← Read (vmMemory vm) o 112;
        '(i, c, pc) ← runMachine t (innerRegisters data) (innerGas data);
        if nilPages (im_Memory t) && negb (nilPages (Mem i)) then Crash
        else
          m ← Write (vmMemory vm) o (innerState i);
          pc ← nextCounter c pc a;
          Ret (ExitContinue, innerResult c (setMemory m vm), setMachine n (im_ProgramCode t) (Mem i) pc a)
    end).

Definition expunge : Omega CallArgs := charged (fun vm a =>
  let n := reg vm 7 in
  match machines a !! n with
  | None => continueWith WHO vm a
  | Some t => continueWith (im_PC t) vm (onMachines (delete n) a)
  end).

(** ** The tables of host calls *)

Section Refine.
Context `{HashFunctions} (makeOK : Z -> bool) (spec : ChainSpec) (emptyIsNil : bool).

Definition RefineOmegas : Omegas CallArgs :=
  [Some gas; Some (fetch spec)] ++ replicate 4 None ++
  [Some (historicalLookup emptyIsNil); Some export; Some machine; Some peek; Some poke; Some pages; Some invoke; Some expunge] ++
  replicate 86 None ++ [Some logHostCall].

Definition IsAuthorizedOmegas : Omegas CallArgs := [Some gas; Some (fetch spec)] ++ replicate 98 None ++ [Some logHostCall].

(** ** Refinement *)

Record RefineInput := MkRefineInput {
  rf_CoreIndex : Z; rf_WorkItemIndex : Z; rf_WorkPackage : WorkPackage; rf_AuthOutput : Bytes; rf_ImportSegments : list (list Bytes);
  rf_ExportSegmentOffset : Z; rf_ServiceAccounts : ServiceAccountState }.

Record RefineOutput := MkRefineOutput {
  ro_WorkResult : WorkExecResultType; ro_RefineOutput : Bytes; ro_ExportSegment : list Bytes; ro_Gas : Z }.

(** The bytes of an encoding whose error is dropped. *)
Definition encoded (w : W) : go Bytes := r ← w; Ret (default [] r).

Definition refineArgument (input : RefineInput) (workItem : WorkItem) : go Bytes :=
  codeHash ← encoded (enc_OpaqueHash (wi_CodeHash workItem));
  payload ← encoded (enc_ByteSequence (wi_Payload workItem));
  package ← encoded (enc_WorkPackage None (rf_WorkPackage input));
  Ret (EncodeUint (rf_CoreIndex input) ++ EncodeUint (rf_WorkItemIndex input) ++ codeHash ++ payload ++ Blake2bHash package).

Definition zeroContext : ResultContext := MkResultContext 0 (MkPartialState ∅ [] [] 0 [] 0 0 ∅) 0 [] None ∅ [].
Definition zeroAccumulateArgs : AccumulateArgs := MkAccumulateArgs zeroContext zeroContext 0 (zeroArray 32) [].

Definition refineAddition (input : RefineInput) (workItem : WorkItem) : Args :=
  MkArgs None (MkCallArgs (MkGeneralArgs None (Some (wi_Service workItem)) (Some (rf_ServiceAccounts input)) (Some (rf_CoreIndex input)))
    zeroAccumulateArgs
    (MkRefineArgs (Some (rf_WorkItemIndex input)) (Some (rf_WorkPackage input)) (Some (rf_AuthOutput input)) (rf_ImportSegments input)
      (rf_ExportSegmentOffset input) ∅ [] (rc_LookupAnchorSlot (wp_Context (rf_WorkPackage input))) (wi_Extrinsic <$> wp_Items (rf_WorkPackage input)))).

(** The preimage of the code of a work item, at the lookup anchor. *)
Definition serviceCode (input : RefineInput) (workItem : WorkItem) : Bytes :=
  default [] (rf_ServiceAccounts input !! wi_Service workItem ≫= (fun account =>
    HistoricalLookup account (rc_LookupAnchorSlot (wp_Context (rf_WorkPackage input))) (wi_CodeHash workItem))).

(** [None] when the host calls exceed [fuel]. *)
Definition runRefine (fuel : nat) (input : RefineInput) : option (go RefineOutput) :=
  match zindex (wp_Items (rf_WorkPackage input)) (rf_WorkItemIndex input) with
  | Crash => Some Crash
  | Ret workItem =>
      let lookupData := serviceCode input workItem in
      if lenOf lookupData =? 0 then Some (Ret (MkRefineOutput WorkExecResultBadCode [] [] 0))
      else if MaxServiceCodeSize <? lenOf lookupData then Some (Ret (MkRefineOutput WorkExecResultCodeOversize [] [] 0))
      else
        match (argument ← refineArgument input workItem; ⟪ metaCode ⟫ ⇠ DecodeMetaCode makeOK lookupData ⊘ Crash; Ret (argument, snd metaCode)) with
        | Crash => Some Crash
        | Ret (argument, code) =>
            match Psi_M fuel (GSlice code []) 0 (wi_RefineGasLimit workItem) (GSlice argument []) RefineOmegas (refineAddition input workItem) with
            | None => None
            | Some Crash => Some Crash
            | Some (Ret (g, reasonOrBytes, a)) =>
                let '(result, output) := refineResult reasonOrBytes in
                Some (Ret (MkRefineOutput result output (match result with WorkExecResultOk => exported a | _ => [] end) g))
            end
        end
  end.

(** The gas limit of the work item bounds the host calls. *)
Definition RefineInvoke (input : RefineInput) : go RefineOutput :=
  let limit := default 0 (wi_RefineGasLimit <$> zlookup (wp_Items (rf_WorkPackage input)) (rf_WorkItemIndex input)) in
  default Crash (runRefine (S (Z.to_nat limit)) input).

(** ** Authorization *)

Record Psi_I_ReturnType := MkPsiI { pi_WorkExecResult : WorkExecResultType; pi_WorkOutput : Bytes; pi_Gas : Z }.

Definition authorizeAddition (c : Z) : Args :=
  MkArgs None (MkCallArgs (MkGeneralArgs None None None (Some c)) zeroAccumulateArgs (MkRefineArgs None None None [] 0 ∅ [] 0 [])).

Definition runPsi_I (fuel : nat) (c : Z) (authorizerCode : Bytes) : option (go Psi_I_ReturnType) :=
  if lenOf authorizerCode =? 0 then Some (Ret (MkPsiI WorkExecResultBadCode [] 0))
  else if MaxIsAuthorizedCodeSize <? lenOf authorizerCode then Some (Ret (MkPsiI WorkExecResultCodeOversize [] 0))
  else
    match enc_CoreIndex c with
    | Crash | Ret None => Some Crash
    | Ret (Some argument) =>
        match Psi_M fuel (GSlice authorizerCode []) 0 IsAuthorizedGas (GSlice argument []) IsAuthorizedOmegas (authorizeAddition c) with
        | None => None
        | Some Crash => Some Crash
        | Some (Ret (g, reasonOrBytes, _)) =>
            let '(result, output) := isAuthorizedResult reasonOrBytes in Some (Ret (MkPsiI result output g))
        end
    end.

(** The work package is not used. *)
Definition Psi_I (p : WorkPackage) (c : Z) (authorizerCode : Bytes) : go Psi_I_ReturnType :=
  default Crash (runPsi_I (S (Z.to_nat IsAuthorizedGas)) c authorizerCode).

End Refine.
