(* ===== verification/OuterAccumulationSpec.v ===== *)
(** * Correctness of the accumulation

    The accumulation of a block ends, and what it does to the state does not
    depend on the order in which the goroutines and the maps deliver the
    services and the pairs. *)

From stdpp Require Import sorting.
From S2P Require Import Prelude Words Types Config Codec Encode Crypto Store Accumulation Preimages OuterAccumulation.
Local Open Scope Z_scope.

(** ** Sums and unions *)

Definition total (l : list Z) : Z := foldr Z.add 0 l.

Lemma total_cons x l : total (x :: l) = x + total l.
Proof. done. Qed.

Lemma total_perm l l' : l ≡ₚ l' -> total l = total l'.
Proof. induction 1; unfold total in *; cbn; lia. Qed.

Lemma total_app l l' : total (l ++ l') = total l + total l'.
Proof. induction l as [|x l IH]; [done|]. unfold total in *. cbn. lia. Qed.

Lemma addGas_perm g l l' : l ≡ₚ l' -> addGas g l = addGas g l'.
Proof.
  intros Hp. revert g. induction Hp as [|x l l' _ IH|x y l|l l' l'' _ IH1 _ IH2]; intros g; [done|apply IH| |by rewrite IH1].
  unfold addGas. cbn. f_equal. unfold u64. rewrite !Zplus_mod_idemp_l. f_equal. lia.
Qed.

Lemma addGas_small g l : 0 <= g -> Forall (fun x => 0 <= x) l -> g + total l < 2 ^ 64 -> addGas g l = g + total l.
Proof.
  intros Hg Hl. revert g Hg. induction Hl as [|x l Hx Hl IH]; intros g Hg Hs; [unfold total; cbn; lia|]. unfold total in *. cbn in *.
  assert (0 <= foldr Z.add 0 l) by (clear -Hl; induction Hl; cbn; lia). change (addGas (u64 (g + x)) l = g + (x + foldr Z.add 0 l)).
  assert (u64 (g + x) = g + x) as -> by (apply Z.mod_small; lia). rewrite IH by lia. lia.
Qed.

Lemma addGas_le g l : 0 <= g -> Forall (fun x => 0 <= x) l -> 0 <= addGas g l <= g + total l.
Proof.
  intros Hg Hl. revert g Hg. induction Hl as [|x l Hx Hl IH]; intros g Hg; [unfold total; cbn; lia|].
  change (addGas g (x :: l)) with (addGas (u64 (g + x)) l). pose proof (Z.mod_pos_bound (g + x) (2 ^ 64) ltac:(lia)).
  pose proof (Z.mod_le (g + x) (2 ^ 64) ltac:(lia) ltac:(lia)). specialize (IH (u64 (g + x))). unfold u64, total in *. cbn. lia.
Qed.

Section Unions.
Context {K A B : Type} `{Countable K}.

(** The maps agree where they overlap. *)
Definition agree (f : A -> gmap K B) (l : list A) : Prop :=
  forall x y k v w, x ∈ l -> y ∈ l -> f x !! k = Some v -> f y !! k = Some w -> v = w.

Lemma union_lookup (f : A -> gmap K B) l k v : agree f l ->
  foldl (fun m x => f x ∪ m) ∅ l !! k = Some v <-> exists x, x ∈ l /\ f x !! k = Some v.
Proof.
  intros Ha. enough (forall (m : gmap K B), foldl (fun m x => f x ∪ m) m l !! k = Some v <->
    (exists x, x ∈ l /\ f x !! k = Some v) \/ (forall x, x ∈ l -> f x !! k = None) /\ m !! k = Some v) as ->.
  { rewrite lookup_empty. split; [intros [?|[_ ?]]; done|by left]. }
  induction l as [|x l IH]; intros m; cbn [foldl].
  - split; [intros ?; right; split; [|done]; intros x Hx; by apply elem_of_nil in Hx|]. intros [(x & Hx & _)|[_ ?]]; [by apply elem_of_nil in Hx|done].
  - rewrite IH by (intros y z k' v' w' Hy Hz; apply Ha; by right). rewrite lookup_union_Some_raw. setoid_rewrite elem_of_cons. split.
    + intros [(y & Hy & Hv)|[Hn [Hv|[Hx Hv]]]]; [left; eauto|left; eauto|right]. split; [|done]. intros y [->|Hy]; [done|by apply Hn].
    + intros [(y & [->|Hy] & Hv)|[Hn Hv]]; [|left; eauto|].
      * destruct (decide (Exists (fun z => is_Some (f z !! k)) l)) as [(z & Hz & w & Hw)%Exists_exists|Hz].
        -- left. exists z. split; [done|]. rewrite Hw. f_equal. symmetry. apply (Ha x z k v w); [by left|by right|done|done].
        -- right. split; [|by left]. intros z Hzl. apply eq_None_not_Some. intros Hs. apply Hz, Exists_exists. eauto.
      * right. split; [intros y Hy; apply Hn; by right|]. right. split; [apply Hn; by left|done].
Qed.

Lemma union_perm (f : A -> gmap K B) l l' : agree f l -> l ≡ₚ l' -> foldl (fun m x => f x ∪ m) ∅ l = foldl (fun m x => f x ∪ m) ∅ l'.
Proof.
  intros Ha Hp. apply map_eq. intros k. apply option_eq. intros v. rewrite !union_lookup; [by setoid_rewrite Hp|intros x y k' v' w'|done].
  rewrite <- !Hp. apply Ha.
Qed.

End Unions.

(** ** Provided preimages *)

Section Provide.
Context `{HashFunctions} (tau : Z).

Definition blobKey (b : Bytes) : LookupMetaMapkey := MkLookupMetaMapkey (Blake2bHash b) (u32 (lenOf b)).

(** An account is given a blob, if it has an empty request of it. *)
Definition give (b : Bytes) (a : ServiceAccount) : ServiceAccount :=
  if decide (ac_LookupDict a !! blobKey b = Some []) then
    MkServiceAccount (ac_ServiceInfo a) (<[Blake2bHash b := b]> (ac_PreimageLookup a)) (<[blobKey b := [tau]]> (ac_LookupDict a)) (ac_StorageDict a)
  else a.

Lemma Provide_alter d eps : Provide tau d eps = foldl (fun d x => alter (give (snd x)) (fst x) d) d eps.
Proof.
  revert d. induction eps as [|[s b] eps IH]; intros d; [done|]. cbn [Provide foldl fst snd].
  fold (blobKey b). destruct (d !! s) as [a|] eqn:Ea.
  - assert (alter (give b) s d = <[s := give b a]> d) as Eal.
    { apply map_eq. intros k. destruct (decide (s = k)) as [<-|Hk]; [by rewrite lookup_alter_eq, lookup_insert_eq, Ea|].
      by rewrite lookup_alter_ne, lookup_insert_ne by done. }
    rewrite Eal, !IH. unfold give. destruct (ac_LookupDict a !! blobKey b) as [[|t ts]|] eqn:El.
    + by rewrite decide_True by done.
    + rewrite decide_False by done. rewrite insert_id by done. done.
    + rewrite decide_False by done. rewrite insert_id by done. done.
  - rewrite IH. f_equal. apply map_eq. intros k. destruct (decide (s = k)) as [<-|Hk]; [by rewrite lookup_alter_eq, Ea|by rewrite lookup_alter_ne].
Qed.

Lemma give_comm b b' a : (Blake2bHash b = Blake2bHash b' -> b = b') -> give b (give b' a) = give b' (give b a).
Proof.
  intros Hb. destruct (decide (b = b')) as [->|Hne]; [done|]. assert (Blake2bHash b <> Blake2bHash b') as Hh by tauto.
  assert (blobKey b <> blobKey b') as Hk by (intros [= E _]; done).
  unfold give at 2 4. destruct (decide (ac_LookupDict a !! blobKey b' = Some [])) as [H1|H1], (decide (ac_LookupDict a !! blobKey b = Some [])) as [H2|H2];
    unfold give; cbn; rewrite ?lookup_insert_ne by done; rewrite ?(decide_True _ _ H1), ?(decide_True _ _ H2), ?(decide_False _ _ H1), ?(decide_False _ _ H2); try done.
  cbn. f_equal; by apply insert_insert_ne.
Qed.

Lemma alter_give_comm x y (d : ServiceAccountState) : (Blake2bHash (snd x) = Blake2bHash (snd y) -> snd x = snd y) ->
  alter (give (snd x)) (fst x) (alter (give (snd y)) (fst y) d) = alter (give (snd y)) (fst y) (alter (give (snd x)) (fst x) d).
Proof.
  intros Hxy. apply map_eq. intros k. destruct (decide (fst x = fst y)) as [E|E].
  2: { destruct (decide (fst x = k)) as [<-|Hx]; [by rewrite lookup_alter_eq, !lookup_alter_ne, lookup_alter_eq by done|].
       rewrite lookup_alter_ne by done. destruct (decide (fst y = k)) as [<-|Hy]; [by rewrite !lookup_alter_eq, lookup_alter_ne by done|].
       by rewrite !lookup_alter_ne by done. }
  rewrite E.
  destruct (decide (fst y = k)) as [<-|Hk]; [|by rewrite !lookup_alter_ne by done]. rewrite !lookup_alter_eq. destruct (d !! fst y); [|done].
  cbn. f_equal. by apply give_comm.
Qed.

Lemma Provide_perm d eps eps' : (forall x y, x ∈ eps -> y ∈ eps -> Blake2bHash (snd x) = Blake2bHash (snd y) -> snd x = snd y) ->
  eps ≡ₚ eps' -> Provide tau d eps = Provide tau d eps'.
Proof.
  rewrite !Provide_alter. intros Hc Hp. revert d Hc. induction Hp as [|x l l' _ IH|x y l|l l' l'' H1 IH1 _ IH2]; intros d Hc; cbn [foldl].
  - done.
  - apply IH. intros y z Hy Hz. apply Hc; by right.
  - by rewrite alter_give_comm by (apply Hc; set_solver).
  - rewrite IH1 by done. apply IH2. intros y z. rewrite <- !H1. apply Hc.
Qed.

End Provide.

(** ** What accumulation relies on *)

Definition distinctKeys (kvs : list StateKeyVal) : Prop := NoDup (Key <$> kvs).

#[export] Instance distinctKeys_Proper : Proper (Permutation ==> iff) distinctKeys.
Proof. intros k l Hp. unfold distinctKeys. by rewrite Hp. Qed.

(** Results that differ only in the order of the unmatched pairs. *)
Definition psi_eq (x y : Psi_A_ReturnType) : Prop :=
  pa_PartialStateSet x = pa_PartialStateSet y /\ pa_DeferredTransfers x = pa_DeferredTransfers y /\ pa_Result x = pa_Result y /\
  pa_Gas x = pa_Gas y /\ pa_ServiceBlobs x = pa_ServiceBlobs y /\ pa_StorageKeyVal x ≡ₚ pa_StorageKeyVal y.

(** The gas that transfers cost the sender. *)
Definition transfersCost (t : list DeferredTransfer) : Z := total ((fun x => dt_GasLimit x + 10) <$> t).

(** The virtual machine looks pairs up by their keys and only removes some,
    its transfers are from the service and paid from its gas. *)
Class AccumulateVMLaws `{AccumulateVM} : Prop := {
  psi_order e tau s g items eta kvs kvs' : distinctKeys kvs -> kvs ≡ₚ kvs' -> go_rel psi_eq (Psi_A e tau s g items eta kvs) (Psi_A e tau s g items eta kvs');
  psi_pairs e tau s g items eta kvs r : distinctKeys kvs -> Psi_A e tau s g items eta kvs = Ret r -> pa_StorageKeyVal r ⊆+ kvs;
  psi_sender e tau s g items eta kvs r : Psi_A e tau s g items eta kvs = Ret r -> Forall (fun t => dt_SenderID t = s) (pa_DeferredTransfers r);
  psi_gas e tau s g items eta kvs r : 0 <= g < 2 ^ 63 -> Psi_A e tau s g items eta kvs = Ret r ->
    Forall (fun t => 0 <= dt_GasLimit t) (pa_DeferredTransfers r) /\ transfersCost (pa_DeferredTransfers r) <= pa_Gas r <= g }.

(** Transfers that differ only in the order of the senders. *)
Definition sameTransfers (t t' : list DeferredTransfer) : Prop :=
  forall s, filter (fun x => dt_SenderID x = s) t = filter (fun x => dt_SenderID x = s) t'.

Lemma filter_comm {A} (P Q : A -> Prop) `{forall x, Decision (P x)} `{forall x, Decision (Q x)} (l : list A) :
  filter P (filter Q l) = filter Q (filter P l).
Proof. rewrite !list_filter_filter. apply list_filter_iff. tauto. Qed.

Lemma sameTransfers_filter (P : DeferredTransfer -> Prop) `{forall x, Decision (P x)} t t' : sameTransfers t t' -> sameTransfers (filter P t) (filter P t').
Proof. intros Ht s. by rewrite !(filter_comm (fun x => dt_SenderID x = s) P), Ht. Qed.

(** The transfers of a list, sender by sender. *)
Lemma filter_senders (t : list DeferredTransfer) (ss : list Z) : NoDup ss -> (forall x, x ∈ t -> dt_SenderID x ∈ ss) ->
  t ≡ₚ concat ((fun s => filter (fun x => dt_SenderID x = s) t) <$> ss).
Proof.
  intros Hn. induction t as [|x t IH]; intros Hs.
  - clear Hs. induction ss; [done|]. cbn. apply NoDup_cons in Hn as [_ Hn]. by rewrite <- IHss.
  - assert (dt_SenderID x ∈ ss) as Hx by (apply Hs; by left). rewrite IH at 1 by (intros y Hy; apply Hs; by right). clear IH Hs.
    apply list_elem_of_split in Hx as (l1 & l2 & ->). rewrite !fmap_app, !fmap_cons, !concat_app. cbn [concat].
    rewrite (filter_cons_True (fun y => dt_SenderID y = dt_SenderID x)) by done. apply NoDup_app in Hn as (_ & H1 & Hn). apply NoDup_cons in Hn as [H2 _].
    assert (forall l : list Z, dt_SenderID x ∉ l -> ((fun s => filter (fun y => dt_SenderID y = s) (x :: t)) <$> l) =@{list (list DeferredTransfer)}
      ((fun s => filter (fun y => dt_SenderID y = s) t) <$> l)) as Hl.
    { intros l Hl. apply list_fmap_ext. intros i s Hs%list_elem_of_lookup_2. apply filter_cons_False. intros E. apply Hl. by rewrite E. }
    rewrite (Hl l1), (Hl l2); [|done|].
    + cbn [app]. apply Permutation_middle.
    + intros Hin. apply (H1 _ Hin). by left.
Qed.

Lemma sameTransfers_perm t t' : sameTransfers t t' -> t ≡ₚ t'.
Proof.
  intros Ht. set (ss := remove_dups (dt_SenderID <$> (t ++ t'))).
  rewrite (filter_senders t ss), (filter_senders t' ss); try apply NoDup_remove_dups; try (intros x Hx; apply elem_of_remove_dups, list_elem_of_fmap_2; set_solver).
  erewrite list_fmap_ext; [done|]. intros i s _. apply Ht.
Qed.

(** ** One service *)

Section Single.
Context `{HashFunctions} `{AccumulateVMLaws} (spec : ChainSpec).
Context (sortBySender : list DeferredTransfer -> list DeferredTransfer).

(** What [sort.Slice] promises: the order of equal elements is open. *)
Definition sorts : Prop := forall t, sortBySender t ≡ₚ t /\ Sorted (fun x y => dt_SenderID x <= dt_SenderID y) (sortBySender t).

(** No service sends two transfers to one service. *)
Definition oneEach (t : list DeferredTransfer) : Prop := NoDup ((fun x => (dt_SenderID x, dt_ReceiverID x)) <$> t).

Lemma oneEach_senders t s : oneEach t -> NoDup (dt_SenderID <$> filter (fun x => dt_ReceiverID x = s) t).
Proof.
  unfold oneEach. induction t as [|x t IH]; [constructor|]. rewrite fmap_cons. intros [Hx Hn]%NoDup_cons.
  rewrite filter_cons. destruct (decide (dt_ReceiverID x = s)) as [E|E]; [|by apply IH]. rewrite fmap_cons. apply NoDup_cons. split; [|by apply IH].
  intros (y & Ey & [Hr Hy]%list_elem_of_filter)%list_elem_of_fmap. apply Hx, list_elem_of_fmap. exists y. split; [congruence|done].
Qed.

(** Transfers of different senders are sorted in one way. *)
Lemma sort_same t t' : sorts -> NoDup (dt_SenderID <$> t) -> t ≡ₚ t' -> sortBySender t = sortBySender t'.
Proof.
  intros Hs Hn Hp. assert (forall l, StronglySorted (fun x y => dt_SenderID x <= dt_SenderID y) (sortBySender l)) as Hss.
  { intros l. apply Sorted_StronglySorted; [intros x y z; lia|apply Hs]. }
  assert (forall l, sortBySender l ≡ₚ l) as Hl by apply Hs.
  apply (StronglySorted_unique_strong (fun x y => dt_SenderID x <= dt_SenderID y)); [|apply Hss..|by rewrite !Hl].
  intros x y. rewrite !Hl, <- Hp. intros (i & Hi)%list_elem_of_lookup (j & Hj)%list_elem_of_lookup Ha Hb.
  assert (i = j) as ->; [|congruence]. eapply (NoDup_lookup _ i j (dt_SenderID x) Hn); rewrite list_lookup_fmap; [by rewrite Hi|].
  rewrite Hj. cbn. f_equal. lia.
Qed.

Definition out_eq (x y : SingleServiceAccumulationOutput) : Prop :=
  so_PartialStateSet x = so_PartialStateSet y /\ so_DeferredTransfers x = so_DeferredTransfers y /\ so_AccumulationOutput x = so_AccumulationOutput y /\
  so_GasUsed x = so_GasUsed y /\ so_ServiceBlobs x = so_ServiceBlobs y /\ so_UnmatchedKeyVals x ≡ₚ so_UnmatchedKeyVals y.

(** The gas of a service in a batch. *)
Definition serviceGas (input : SingleServiceAccumulationInput) : Z :=
  addGas (addGas (default 0 (si_AlwaysAccumulateMap input !! si_ServiceID input)) (op_GasLimit <$> operandsOf (si_ServiceID input) (si_WorkReports input)))
    (dt_GasLimit <$> filter (fun t => dt_ReceiverID t = si_ServiceID input) (si_DeferredTransfers input)).

(** A result is one of the virtual machine. *)
Lemma single_inv cs input out : SingleServiceAccumulation sortBySender cs input = Ret out ->
  exists items eta r, Psi_A (si_PartialStateSet input) (s_Tau (posteriorStates cs)) (si_ServiceID input) (serviceGas input) items eta (si_UnmatchedKeyVals input) = Ret r /\
    zlookup (s_Eta (posteriorStates cs)) 0 = Some eta /\
    out = MkSingleOutput (pa_PartialStateSet r) (pa_DeferredTransfers r) (pa_Result r) (pa_Gas r) (pa_ServiceBlobs r) (pa_StorageKeyVal r).
Proof.
  unfold SingleServiceAccumulation. intros (eta & He & Hp)%go_bind_inv. apply go_bind_inv in Hp as (r & Hr & [= <-]). do 3 eexists. split; [exact Hr|]. split; [|done].
  by apply zindex_Ret.
Qed.

Lemma single_equiv cs cs' e t t' r f s kvs kvs' : sorts -> oneEach t -> posteriorStates cs = posteriorStates cs' -> sameTransfers t t' ->
  distinctKeys kvs -> kvs ≡ₚ kvs' ->
  go_rel out_eq (SingleServiceAccumulation sortBySender cs (MkSingleInput e t r f s kvs)) (SingleServiceAccumulation sortBySender cs' (MkSingleInput e t' r f s kvs')).
Proof.
  intros Hsort Hone Hcs Ht Hk Hp. unfold SingleServiceAccumulation. cbn [si_PartialStateSet si_DeferredTransfers si_WorkReports si_AlwaysAccumulateMap si_ServiceID si_UnmatchedKeyVals].
  rewrite <- Hcs. destruct (zindex _ 0) as [eta|]; [|done]. cbn [mbind go_bind].
  assert (sameTransfers (filter (fun x => dt_ReceiverID x = s) t) (filter (fun x => dt_ReceiverID x = s) t')) as Hf by by apply sameTransfers_filter.
  pose proof (fmap_Permutation dt_GasLimit _ _ (sameTransfers_perm _ _ Hf)) as Hg. rewrite <- (sort_same _ _ Hsort (oneEach_senders _ _ Hone) (sameTransfers_perm _ _ Hf)), <- (addGas_perm _ _ _ Hg).
  apply (go_rel_bind psi_eq); [by apply psi_order|]. intros x y Hxy. exact Hxy.
Qed.

Lemma single_pairs cs input out : distinctKeys (si_UnmatchedKeyVals input) -> SingleServiceAccumulation sortBySender cs input = Ret out ->
  so_UnmatchedKeyVals out ⊆+ si_UnmatchedKeyVals input.
Proof. intros Hk (items & eta & r & Hr & _ & ->)%single_inv. by eapply psi_pairs. Qed.

Lemma single_sender cs input out : SingleServiceAccumulation sortBySender cs input = Ret out ->
  Forall (fun t => dt_SenderID t = si_ServiceID input) (so_DeferredTransfers out).
Proof. intros (items & eta & r & Hr & _ & ->)%single_inv. by eapply psi_sender. Qed.

End Single.

(** ** The services of a batch *)

Lemma mapM_rel {A B B'} (R : B -> B' -> Prop) (f : A -> go B) (f' : A -> go B') l :
  (forall x, x ∈ l -> go_rel R (f x) (f' x)) -> go_rel (Forall2 R) (mapM f l) (mapM f' l).
Proof.
  induction l as [|x l IH]; intros Hl; [by constructor|]. cbn [mapM]. apply (go_rel_bind R); [apply Hl; by left|]. intros y y' Hy.
  apply (go_rel_bind (Forall2 R)); [apply IH; intros z Hz; apply Hl; by right|]. intros k k' Hk. by constructor.
Qed.

Lemma mapM_perm {A B} (f : A -> go B) l l' : l ≡ₚ l' -> go_rel Permutation (mapM f l) (mapM f l').
Proof.
  induction 1 as [|x l l' _ IH|x y l|l l' l'' _ IH1 _ IH2]; cbn [mapM].
  - by constructor.
  - destruct (f x); [|done]. cbn. apply (go_rel_bind Permutation); [exact IH|]. intros k k' Hk. by constructor.
  - destruct (f x), (f y); try done. cbn. destruct (mapM f l); [|done]. cbn. by constructor.
  - destruct (mapM f l), (mapM f l'), (mapM f l''); try done. cbn in *. by etrans.
Qed.

Lemma mapM_inv {A B} (f : A -> go B) l k : mapM f l = Ret k -> Forall2 (fun x y => f x = Ret y) l k.
Proof.
  revert k. induction l as [|x l IH]; intros k; cbn [mapM]; [intros [= <-]; constructor|]. intros (y & Hy & Hk)%go_bind_inv.
  apply go_bind_inv in Hk as (k' & Hk' & [= <-]). constructor; [done|by apply IH].
Qed.

Lemma list_filter_all' {A} (P : A -> Prop) `{forall x, Decision (P x)} l : Forall P l -> filter P l = l.
Proof. induction 1 as [|x l Hx _ IH]; [done|]. by rewrite filter_cons_True, IH. Qed.

Lemma list_filter_none' {A} (P : A -> Prop) `{forall x, Decision (P x)} l : Forall (fun x => ~ P x) l -> filter P l = [].
Proof. induction 1 as [|x l Hx _ IH]; [done|]. by rewrite filter_cons_False, IH. Qed.

Lemma Permutation_concat_fmap {A B} (g : A -> list B) l l' : g <$> l ≡ₚ g <$> l' -> concat (g <$> l) ≡ₚ concat (g <$> l').
Proof.
  induction 1 as [| |x y|]; cbn; [done|by apply Permutation_app_head| |by etrans]. rewrite !(assoc_L (++)). apply Permutation_app_tail, Permutation_app_comm.
Qed.

Section Batch.
Context `{HashFunctions} `{AccumulateVMLaws} (spec : ChainSpec).
Context (sortBySender : list DeferredTransfer -> list DeferredTransfer).

Local Abbreviation Out := (Z * SingleServiceAccumulationOutput)%type.

(** The same services with the same results, in some order. *)
Definition sameOuts (outs outs' : list Out) : Prop :=
  exists mid, outs ≡ₚ mid /\ Forall2 (fun x y => fst x = fst y /\ out_eq (snd x) (snd y)) mid outs'.

(** A result without its unmatched pairs. *)
Definition strip (out : Out) : Out :=
  (fst out, MkSingleOutput (so_PartialStateSet (snd out)) (so_DeferredTransfers (snd out)) (so_AccumulationOutput (snd out)) (so_GasUsed (snd out))
    (so_ServiceBlobs (snd out)) []).

Lemma sameOuts_strip outs outs' : sameOuts outs outs' -> strip <$> outs ≡ₚ strip <$> outs'.
Proof.
  intros (mid & Hp & Hf). rewrite Hp. clear Hp. enough (strip <$> mid = strip <$> outs') as -> by done.
  induction Hf as [|[s x] [s' y] l l' [E (E1 & E2 & E3 & E4 & E5 & _)] _ IH]; [done|]. rewrite !fmap_cons, IH. unfold strip at 1 3. cbn in *. congruence.
Qed.

Lemma sameOuts_fst outs outs' : sameOuts outs outs' -> fst <$> outs ≡ₚ fst <$> outs'.
Proof. intros Hs%sameOuts_strip. apply (fmap_Permutation fst) in Hs. by rewrite <- !list_fmap_compose in Hs. Qed.

Lemma sameOuts_elem outs outs' s x : sameOuts outs outs' -> (s, x) ∈ outs -> exists y, (s, y) ∈ outs' /\ out_eq x y.
Proof.
  intros (mid & Hp & Hf). rewrite Hp. intros (i & Hi)%list_elem_of_lookup. destruct (Forall2_lookup_l _ _ _ _ _ Hf Hi) as ([s' y] & Hj & E & Ho).
  cbn in *. subst s'. exists y. split; [by eapply list_elem_of_lookup_2|done].
Qed.

Lemma sameOuts_elem' outs outs' s y : sameOuts outs outs' -> (s, y) ∈ outs' -> exists x, (s, x) ∈ outs /\ out_eq x y.
Proof.
  intros (mid & Hp & Hf) (i & Hi)%list_elem_of_lookup. destruct (Forall2_lookup_r _ _ _ _ _ Hf Hi) as ([s' x] & Hj & E & Ho).
  cbn in *. subst s'. exists x. rewrite Hp. split; [by eapply list_elem_of_lookup_2|done].
Qed.

(** The cached results. *)
Lemma sameOuts_cache outs outs' s : sameOuts outs outs' -> NoDup (fst <$> outs) ->
  option_Forall2 out_eq ((list_to_map outs : gmap Z SingleServiceAccumulationOutput) !! s) ((list_to_map outs' : gmap Z SingleServiceAccumulationOutput) !! s).
Proof.
  intros Hs Hn. assert (NoDup (fst <$> outs')) as Hn' by by rewrite <- (sameOuts_fst _ _ Hs).
  destruct ((list_to_map outs : gmap Z _) !! s) as [x|] eqn:Ex.
  - apply elem_of_list_to_map in Ex; [|done]. destruct (sameOuts_elem _ _ _ _ Hs Ex) as (y & Hy & Ho).
    apply (elem_of_list_to_map (M := gmap Z)) in Hy; [|done]. rewrite Hy. by constructor.
  - apply not_elem_of_list_to_map in Ex. rewrite (sameOuts_fst _ _ Hs) in Ex. apply (not_elem_of_list_to_map (M := gmap Z)) in Ex. rewrite Ex. constructor.
Qed.

(** ** Unmatched pairs *)

Lemma distinct_sub kvs kvs' : distinctKeys kvs -> kvs' ⊆+ kvs -> distinctKeys kvs'.
Proof.
  intros Hn Hs. unfold distinctKeys in *. apply (fmap_submseteq Key) in Hs. apply submseteq_Permutation in Hs as (k & Hk). rewrite Hk in Hn.
  by apply NoDup_app in Hn as (? & _).
Qed.

Lemma distinct_eq kvs x y : distinctKeys kvs -> x ∈ kvs -> y ∈ kvs -> Key x = Key y -> x = y.
Proof.
  intros Hn (i & Hi)%list_elem_of_lookup (j & Hj)%list_elem_of_lookup E. assert (i = j) as ->; [|congruence].
  eapply (NoDup_lookup _ i j (Key x) Hn); rewrite list_lookup_fmap; [by rewrite Hi|by rewrite Hj, E].
Qed.

Lemma serviceKeyVals_lookup out k v : distinctKeys (so_UnmatchedKeyVals out) -> serviceKeyVals out !! k = Some v <-> v ∈ so_UnmatchedKeyVals out /\ Key v = k.
Proof.
  intros Hn. unfold serviceKeyVals. rewrite <- (elem_of_list_to_map (M := gmap Bytes)) by by rewrite <- list_fmap_compose.
  rewrite list_elem_of_fmap. split; [intros (y & [= -> ->] & ?); done|]. intros [? <-]. eauto.
Qed.

Lemma mergeUnmatched_lookup kvs outs k v : distinctKeys kvs -> outs <> [] -> (forall o, o ∈ outs -> so_UnmatchedKeyVals (snd o) ⊆+ kvs) ->
  mergeUnmatched outs !! k = Some v <-> Key v = k /\ forall o, o ∈ outs -> v ∈ so_UnmatchedKeyVals (snd o).
Proof.
  intros Hn He Hs. assert (forall o, o ∈ outs -> distinctKeys (so_UnmatchedKeyVals (snd o))) as Hd by (intros o Ho; by eapply distinct_sub, Hs).
  assert (forall o, o ∈ outs -> forall v, v ∈ so_UnmatchedKeyVals (snd o) -> v ∈ kvs) as Hi.
  { intros o Ho w Hw. eapply elem_of_submseteq; [exact Hw|by apply Hs]. }
  unfold mergeUnmatched. rewrite map_lookup_filter_Some. cbn [fst]. rewrite Forall_forall, union_lookup.
  - split.
    + intros [(o & Ho & Hv) Hall]. apply serviceKeyVals_lookup in Hv as [Hv <-]; [|by apply Hd]. split; [done|]. intros o' Ho'. destruct (Hall o' Ho') as [w Hw].
      apply serviceKeyVals_lookup in Hw as [Hw E]; [|by apply Hd]. by rewrite (distinct_eq kvs v w Hn (Hi o Ho v Hv) (Hi o' Ho' w Hw)).
    + intros [<- Hall]. destruct outs as [|o outs]; [done|]. split.
      * exists o. split; [by left|]. apply serviceKeyVals_lookup; [apply Hd; by left|]. split; [apply Hall; by left|done].
      * intros o' Ho'. exists v. apply serviceKeyVals_lookup; [by apply Hd|]. split; [by apply Hall|done].
  - intros o o' k' w w' Ho Ho' Hw Hw'. apply serviceKeyVals_lookup in Hw as [Hw E]; [|by apply Hd]. apply serviceKeyVals_lookup in Hw' as [Hw' E']; [|by apply Hd].
    apply (distinct_eq kvs); [done|exact (Hi o Ho w Hw)|exact (Hi o' Ho' w' Hw')|congruence].
Qed.

Lemma mergeUnmatched_same kvs outs outs' : distinctKeys kvs -> outs <> [] -> (forall o, o ∈ outs -> so_UnmatchedKeyVals (snd o) ⊆+ kvs) ->
  sameOuts outs outs' -> mergeUnmatched outs = mergeUnmatched outs'.
Proof.
  intros Hn He Hs Ho. apply map_eq. intros k. apply option_eq. intros v. rewrite !(mergeUnmatched_lookup kvs); try done.
  - split; intros [? Hall]; (split; [done|]); intros [s x] Hx.
    + destruct (sameOuts_elem' _ _ _ _ Ho Hx) as (y & Hy & Hp). cbn. destruct Hp as (_ & _ & _ & _ & _ & Hp). rewrite <- Hp. apply (Hall (s, y) Hy).
    + destruct (sameOuts_elem _ _ _ _ Ho Hx) as (y & Hy & Hp). cbn. destruct Hp as (_ & _ & _ & _ & _ & Hp). rewrite Hp. apply (Hall (s, y) Hy).
  - intros ->. apply He. apply sameOuts_fst in Ho. destruct outs; [done|]. by apply Permutation_nil_r in Ho.
  - intros [s x] Hx. destruct (sameOuts_elem' _ _ _ _ Ho Hx) as (y & Hy & Hp). cbn. destruct Hp as (_ & _ & _ & _ & _ & Hp). rewrite <- Hp. apply (Hs (s, y) Hy).
Qed.

Lemma merged_distinct kvs outs : distinctKeys kvs -> outs <> [] -> (forall o, o ∈ outs -> so_UnmatchedKeyVals (snd o) ⊆+ kvs) ->
  distinctKeys (snd <$> map_to_list (mergeUnmatched outs)).
Proof.
  intros Hn He Hs. unfold distinctKeys. rewrite <- list_fmap_compose. erewrite list_fmap_ext; [apply NoDup_fst_map_to_list|].
  intros i [k v] Hi%list_elem_of_lookup_2. apply elem_of_map_to_list in Hi. apply (mergeUnmatched_lookup kvs) in Hi as [E _]; done.
Qed.

(** ** The batch *)

(** Stores that differ only in the order of the unmatched pairs. *)
Definition sameStore (cs cs' : ChainState) : Prop :=
  SetPostStateUnmatchedKeyVals [] cs = SetPostStateUnmatchedKeyVals [] cs' /\
  distinctKeys (postStateUnmatchedKeyVals cs) /\ postStateUnmatchedKeyVals cs ≡ₚ postStateUnmatchedKeyVals cs'.

Lemma sameStore_posterior cs cs' : sameStore cs cs' -> posteriorStates cs = posteriorStates cs'.
Proof. intros (E & _). by apply (f_equal posteriorStates) in E. Qed.

Lemma sameStore_set cs cs' : sameStore cs cs' -> cs' = SetPostStateUnmatchedKeyVals (postStateUnmatchedKeyVals cs') cs.
Proof. intros (E & _). destruct cs, cs'. unfold SetPostStateUnmatchedKeyVals in *. cbn in *. congruence. Qed.

(** A write that neither reads nor writes the unmatched pairs. *)
Lemma sameStore_write (F : ChainState -> ChainState) cs cs' : (forall k c, F (SetPostStateUnmatchedKeyVals k c) = SetPostStateUnmatchedKeyVals k (F c)) ->
  postStateUnmatchedKeyVals (F cs) = postStateUnmatchedKeyVals cs -> sameStore cs cs' -> sameStore (F cs) (F cs').
Proof.
  intros HF Hk Hcs. rewrite (sameStore_set _ _ Hcs), HF. destruct Hcs as (_ & Hd & Hp). split; [done|]. cbn. by rewrite Hk.
Qed.

(** The accounts that a service created. *)
Definition created (e : PartialStateSet) (out : Out) : gset Z :=
  dom (pt_ServiceAccounts (so_PartialStateSet (snd out))) ∖ dom (pt_ServiceAccounts e).

(** A batch without conflicts: its services do not create accounts with the
    same index, different blobs that they provide have different hashes, and
    no service was sent two transfers by one service. *)
Record clearBatch (e : PartialStateSet) (t : list DeferredTransfer) (outs : list Out) : Prop := {
  cl_created : Forall (fun x => Forall (fun y => fst x = fst y \/ created e x ∩ created e y = ∅) outs) outs;
  cl_blobs : let bs := concat ((fun out => so_ServiceBlobs (snd out)) <$> outs) in
    Forall (fun x => Forall (fun y => Blake2bHash (snd x) = Blake2bHash (snd y) -> snd x = snd y) bs) bs;
  cl_transfers : oneEach t }.

Lemma clearBatch_iff e t outs : clearBatch e t outs <->
  Forall (fun x => Forall (fun y => fst x = fst y \/ created e x ∩ created e y = ∅) outs) outs /\
  (let bs := concat ((fun out : Out => so_ServiceBlobs (snd out)) <$> outs) in
    Forall (fun x => Forall (fun y => Blake2bHash (snd x) = Blake2bHash (snd y) -> snd x = snd y) bs) bs) /\ oneEach t.
Proof. split; [by intros []|intros (? & ? & ?); by split]. Qed.

#[global] Instance clearBatch_dec e t outs : Decision (clearBatch e t outs).
Proof.
  destruct (decide (Forall (fun x => Forall (fun y => fst x = fst y \/ created e x ∩ created e y = ∅) outs) outs /\
    Forall (fun x => Forall (fun y => Blake2bHash (snd x) = Blake2bHash (snd y) -> snd x = snd y) (concat ((fun out : Out => so_ServiceBlobs (snd out)) <$> outs)))
      (concat ((fun out : Out => so_ServiceBlobs (snd out)) <$> outs)) /\ NoDup ((fun x => (dt_SenderID x, dt_ReceiverID x)) <$> t)));
    [left|right]; by rewrite clearBatch_iff.
Defined.

(** The results of a batch. *)
Definition results (cs : ChainState) (input : ParallelizedAccumulationInput) (l : list Z) : go (list Out) :=
  mapM (fun s => out ← SingleServiceAccumulation sortBySender cs (CloneForService cs input s); Ret (s, out)) l.

Lemma results_inv cs input l outs : results cs input l = Ret outs ->
  fst <$> outs = l /\ forall s o, (s, o) ∈ outs -> SingleServiceAccumulation sortBySender cs (CloneForService cs input s) = Ret o.
Proof.
  intros Hm%mapM_inv. split.
  - induction Hm as [|s [s' o] l k Hx _ IH]; [done|]. rewrite fmap_cons, IH. apply go_bind_inv in Hx as (o' & _ & [= <- <-]). done.
  - intros s o (i & Hi)%list_elem_of_lookup. destruct (Forall2_lookup_r _ _ _ _ _ Hm Hi) as (s' & _ & Hx). apply go_bind_inv in Hx as (o' & Ho & [= <- <-]). done.
Qed.

Lemma results_rel cs cs' e t t' r f l l' : sorts sortBySender -> oneEach t -> sameStore cs cs' -> sameTransfers t t' -> l ≡ₚ l' ->
  go_rel sameOuts (results cs (MkParallelInput e t r f) l) (results cs' (MkParallelInput e t' r f) l').
Proof.
  intros Hsort Hone Hcs Ht Hl. pose proof (mapM_perm (fun s => out ← SingleServiceAccumulation sortBySender cs (CloneForService cs (MkParallelInput e t r f) s); Ret (s, out)) _ _ Hl) as Hp.
  unfold results. assert (go_rel (Forall2 (fun x y => fst x = fst y /\ out_eq (snd x) (snd y)))
    (mapM (fun s => out ← SingleServiceAccumulation sortBySender cs (CloneForService cs (MkParallelInput e t r f) s); Ret (s, out)) l')
    (mapM (fun s => out ← SingleServiceAccumulation sortBySender cs' (CloneForService cs' (MkParallelInput e t' r f) s); Ret (s, out)) l')) as Hf.
  { apply mapM_rel. intros s _. apply (go_rel_bind out_eq); [|by intros x y Hxy; split].
    destruct Hcs as (E & Hd & Hk). apply single_equiv; try done. by apply (f_equal posteriorStates) in E. }
  destruct (mapM _ l), (mapM _ l'), (mapM _ l'); try done. by eexists.
Qed.

Lemma set_s_same t t' r f : sameTransfers t t' -> set_s r f t = set_s r f t'.
Proof. intros Ht%sameTransfers_perm. unfold set_s. f_equal. apply list_to_set_perm_L. by rewrite Ht. Qed.

Lemma run_rel cs cs' e t t' r f outs outs' s : sorts sortBySender -> oneEach t -> sameStore cs cs' -> sameTransfers t t' ->
  sameOuts outs outs' -> NoDup (fst <$> outs) ->
  go_rel out_eq (runSingleReplaceService sortBySender cs (MkParallelInput e t r f) (list_to_map outs) s)
    (runSingleReplaceService sortBySender cs' (MkParallelInput e t' r f) (list_to_map outs') s).
Proof.
  intros Hsort Hone Hcs Ht Ho Hn. unfold runSingleReplaceService. destruct (sameOuts_cache _ _ s Ho Hn); [done|].
  destruct Hcs as (E & Hd & Hk). apply single_equiv; try done. by apply (f_equal posteriorStates) in E.
Qed.

(** What a batch collects from its results. *)
Lemma foldl_strip {M} (g : M -> Out -> M) m outs : (forall m o, g m (strip o) = g m o) -> foldl g m (strip <$> outs) = foldl g m outs.
Proof. intros Hg. revert m. induction outs as [|o outs IH]; intros m; [done|]. cbn. by rewrite Hg, IH. Qed.

Lemma out_unique (outs : list Out) x y : NoDup (fst <$> outs) -> x ∈ outs -> y ∈ outs -> fst x = fst y -> x = y.
Proof.
  intros Hn (i & Hi)%list_elem_of_lookup (j & Hj)%list_elem_of_lookup E. assert (i = j) as ->; [|congruence].
  eapply (NoDup_lookup _ i j (fst x) Hn); rewrite list_lookup_fmap; [by rewrite Hi|by rewrite Hj, E].
Qed.

Lemma new_agree e t outs : clearBatch e t outs -> NoDup (fst <$> outs) ->
  agree (fun out : Out => filter (fun p => fst p = fst out \/ pt_ServiceAccounts e !! fst p = None) (pt_ServiceAccounts (so_PartialStateSet (snd out)))) outs.
Proof.
  intros [Hc _ _] Hn x y k v w Hx Hy Hv Hw. apply map_lookup_filter_Some in Hv as [Hv Cv]. apply map_lookup_filter_Some in Hw as [Hw Cw]. cbn [fst] in *.
  enough (fst x = fst y) as E. { rewrite (out_unique outs x y Hn Hx Hy E) in Hv. congruence. }
  destruct (decide (pt_ServiceAccounts e !! k = None)) as [Hd|Hd]; [|destruct Cv as [<-|?], Cw as [?|?]; done].
  rewrite Forall_forall in Hc. specialize (Hc _ Hx). rewrite Forall_forall in Hc. destruct (Hc _ Hy) as [|Hdis]; [done|]. exfalso.
  assert (k ∈ created e x ∩ created e y) as Hk; [|rewrite Hdis in Hk; by apply elem_of_empty in Hk].
  unfold created. apply elem_of_intersection; split; apply elem_of_difference; (split; [by eapply elem_of_dom_2|by apply not_elem_of_dom]).
Qed.

Lemma new_same e t outs outs' : clearBatch e t outs -> NoDup (fst <$> outs) -> sameOuts outs outs' ->
  foldl (collectNew (pt_ServiceAccounts e)) ∅ outs = foldl (collectNew (pt_ServiceAccounts e)) ∅ outs'.
Proof.
  intros Hc Hn Hs. rewrite <- (foldl_strip _ _ outs), <- (foldl_strip _ _ outs') by done.
  pose proof (new_agree _ _ _ Hc Hn) as Ha.
  apply (union_perm (fun out : Out => filter (fun p => fst p = fst out \/ pt_ServiceAccounts e !! fst p = None) (pt_ServiceAccounts (so_PartialStateSet (snd out)))));
    [|by apply sameOuts_strip].
  intros x y k v w (x' & -> & Hx)%list_elem_of_fmap (y' & -> & Hy)%list_elem_of_fmap Hv Hw. exact (Ha x' y' k v w Hx Hy Hv Hw).
Qed.

Lemma removed_same d outs outs' : sameOuts outs outs' -> foldl (collectRemoved d) ∅ outs = foldl (collectRemoved d) ∅ outs'.
Proof.
  intros Hs. rewrite <- (foldl_strip _ _ outs), <- (foldl_strip _ _ outs') by done.
  apply (union_perm (fun out : Out => d ∖ pt_ServiceAccounts (so_PartialStateSet (snd out)))); [|by apply sameOuts_strip].
  intros x y k v w _ _ [Hv _]%lookup_difference_Some [Hw _]%lookup_difference_Some. congruence.
Qed.

Lemma strip_fmap {B} (g : Out -> B) outs outs' : (forall o, g (strip o) = g o) -> sameOuts outs outs' -> g <$> outs ≡ₚ g <$> outs'.
Proof.
  intros Hg Hs%sameOuts_strip. apply (fmap_Permutation g) in Hs. rewrite <- !list_fmap_compose in Hs.
  assert (forall l, (g ∘ strip) <$> l = g <$> l) as E by (intros l; apply list_fmap_ext; intros; apply Hg). by rewrite !E in Hs.
Qed.

Lemma provided_same e t outs outs' tau d : clearBatch e t outs -> sameOuts outs outs' ->
  Provide tau d (concat ((fun out => so_ServiceBlobs (snd out)) <$> outs)) = Provide tau d (concat ((fun out => so_ServiceBlobs (snd out)) <$> outs')).
Proof.
  intros [_ Hc _] Hs. apply Provide_perm.
  - intros x y Hx Hy. cbv zeta in Hc. rewrite Forall_forall in Hc. specialize (Hc _ Hx). rewrite Forall_forall in Hc. by apply Hc.
  - apply Permutation_concat_fmap. by apply strip_fmap.
Qed.

(** A sender's transfers of a batch are those of its own result. *)
Lemma transfers_of outs s : NoDup (fst <$> outs) -> (forall s o, (s, o) ∈ outs -> Forall (fun t => dt_SenderID t = s) (so_DeferredTransfers o)) ->
  filter (fun t => dt_SenderID t = s) (concat ((fun out : Out => so_DeferredTransfers (snd out)) <$> outs)) =
  from_option so_DeferredTransfers [] ((list_to_map outs : gmap Z SingleServiceAccumulationOutput) !! s).
Proof.
  intros Hn Hf. induction outs as [|[s' o] outs IH]; [done|]. rewrite fmap_cons in Hn. apply NoDup_cons in Hn as [Hni Hn]. rewrite fmap_cons. cbn [concat].
  rewrite filter_app, IH by (done || (intros; apply Hf; by right)). rewrite list_to_map_cons. cbn [fst snd].
  assert (Forall (fun t => dt_SenderID t = s') (so_DeferredTransfers o)) as Ht by (apply Hf; by left). destruct (decide (s' = s)) as [->|Hs].
  - rewrite lookup_insert_eq. apply (not_elem_of_list_to_map (M := gmap Z)) in Hni. cbn [fst] in Hni. rewrite Hni. cbn. rewrite app_nil_r.
    apply list_filter_all'. done.
  - rewrite lookup_insert_ne by done. rewrite list_filter_none'; [done|]. eapply Forall_impl; [exact Ht|]. intros x Hx. cbn in *. congruence.
Qed.

Lemma transfers_same cs e t r f l outs outs' : NoDup l -> results cs (MkParallelInput e t r f) l = Ret outs -> sameOuts outs outs' ->
  sameTransfers (concat ((fun out => so_DeferredTransfers (snd out)) <$> outs)) (concat ((fun out => so_DeferredTransfers (snd out)) <$> outs')).
Proof.
  intros Hn [Hl Ho]%results_inv Hs s. rewrite <- Hl in Hn.
  assert (forall s o, (s, o) ∈ outs -> Forall (fun t => dt_SenderID t = s) (so_DeferredTransfers o)) as Hf by (intros ? ? Hin%Ho; by apply single_sender in Hin).
  rewrite !transfers_of; [|by rewrite <- (sameOuts_fst _ _ Hs)| |done|done].
  - destruct (sameOuts_cache _ _ s Hs Hn) as [x y Hxy|]; [|done]. by destruct Hxy as (_ & ? & _).
  - intros s' y Hy. destruct (sameOuts_elem' _ _ _ _ Hs Hy) as (x & Hx & Hxy). destruct Hxy as (_ & <- & _). by apply Hf.
Qed.

End Batch.

(** ** Any order gives the same result *)

Section Order.
Context `{HashFunctions} `{AccumulateVMLaws} (spec : ChainSpec).
Context (sortBySender : list DeferredTransfer -> list DeferredTransfer).
Context (arrange arrange' : gset Z -> list Z) (arrangeKVs arrangeKVs' : list StateKeyVal -> list StateKeyVal).

Record anyOrder : Prop := {
  ao_sort : sorts sortBySender;
  ao_services s : arrange s ≡ₚ elements s;
  ao_services' s : arrange' s ≡ₚ elements s;
  ao_pairs l : arrangeKVs l ≡ₚ l;
  ao_pairs' l : arrangeKVs' l ≡ₚ l }.

Context (Hao : anyOrder).

Definition parallel_eq (x y : ParallelizedAccumulationOutput) : Prop :=
  po_PartialStateSet x = po_PartialStateSet y /\ sameTransfers (po_DeferredTransfers x) (po_DeferredTransfers y) /\
  po_AccumulatedServiceOutput x = po_AccumulatedServiceOutput y /\ po_ServiceGasUsedList x ≡ₚ po_ServiceGasUsedList y.

(** The store with the pairs that all services of a batch kept. *)
Definition keepMerged (ar : list StateKeyVal -> list StateKeyVal) (s : gset Z) (outs : list (Z * SingleServiceAccumulationOutput)) (cs : ChainState) : ChainState :=
  if decide (s = ∅) then cs else SetPostStateUnmatchedKeyVals (ar (snd <$> map_to_list (mergeUnmatched outs))) cs.

Lemma keepMerged_same cs cs' e t r f s outs outs' : sameStore cs cs' ->
  results sortBySender cs (MkParallelInput e t r f) (arrange s) = Ret outs -> sameOuts outs outs' ->
  sameStore (keepMerged arrangeKVs s outs cs) (keepMerged arrangeKVs' s outs' cs').
Proof.
  intros Hcs Ho Hs. unfold keepMerged. destruct (decide (s = ∅)) as [|Hne]; [done|]. pose proof Hcs as (E & Hd & Hk).
  apply results_inv in Ho as [Hl Ho].
  assert (outs <> []) as He. { intros ->. apply Hne. pose proof (ao_services Hao s) as Hp. rewrite <- Hl in Hp. apply Permutation_nil_l in Hp. apply leibniz_equiv. by apply elements_empty_inv. }
  assert (forall o, o ∈ outs -> so_UnmatchedKeyVals (snd o) ⊆+ postStateUnmatchedKeyVals cs) as Hsub.
  { intros [k o] Hin%Ho. by apply single_pairs in Hin. }
  split; [exact E|]. cbn. rewrite <- (mergeUnmatched_same _ outs outs' Hd He Hsub Hs).
  rewrite (ao_pairs Hao), (ao_pairs' Hao). split; [|done]. by apply (merged_distinct (postStateUnmatchedKeyVals cs)).
Qed.

Lemma outputs_same outs outs' : sameOuts outs outs' ->
  (list_to_set (omap (fun out => MkAccumulatedServiceHash (fst out) <$> so_AccumulationOutput (snd out)) outs) : AccumulatedServiceOutput) =
  list_to_set (omap (fun out => MkAccumulatedServiceHash (fst out) <$> so_AccumulationOutput (snd out)) outs').
Proof.
  intros Hs. apply set_eq. intros h. rewrite !elem_of_list_to_set, !list_elem_of_omap. split.
  - intros ([s x] & Hx & Eh). destruct (sameOuts_elem _ _ _ _ Hs Hx) as (y & Hy & (_ & _ & Er & _)). exists (s, y). cbn in *. by rewrite <- Er.
  - intros ([s y] & Hy & Eh). destruct (sameOuts_elem' _ _ _ _ Hs Hy) as (x & Hx & (_ & _ & Er & _)). exists (s, x). cbn in *. by rewrite Er.
Qed.

Lemma go_rel_eq_refl {A} (x : go A) : go_rel eq x x.
Proof. by destruct x. Qed.

Lemma parallel_rel cs cs' e t t' r f : oneEach t ->
  (forall outs, results sortBySender cs (MkParallelInput e t r f) (arrange (set_s r f t)) = Ret outs -> clearBatch e t outs) ->
  sameStore cs cs' -> sameTransfers t t' ->
  go_rel (fun x y => sameStore (fst x) (fst y) /\ option_Forall2 parallel_eq (snd x) (snd y))
    (ParallelizedAccumulation spec arrange arrangeKVs sortBySender cs (MkParallelInput e t r f))
    (ParallelizedAccumulation spec arrange' arrangeKVs' sortBySender cs' (MkParallelInput e t' r f)).
Proof.
  intros Hone Hclear Hcs Ht. unfold ParallelizedAccumulation. cbn [pi_WorkReports pi_AlwaysAccumulateMap pi_DeferredTransfers pi_PartialStateSet].
  rewrite <- (set_s_same _ _ r f Ht). set (s := set_s r f t) in *.
  assert (arrange s ≡ₚ arrange' s) as Hl by (by rewrite (ao_services Hao), (ao_services' Hao)).
  assert (NoDup (arrange s)) as Hnd by (rewrite (ao_services Hao); apply NoDup_elements).
  pose proof (results_rel sortBySender cs cs' e t t' r f _ _ (ao_sort Hao) Hone Hcs Ht Hl) as Hrel. unfold results in Hrel.
  destruct (mapM _ (arrange s)) as [outs|] eqn:Eo, (mapM _ (arrange' s)) as [outs'|]; try done. rename Hrel into Hs. cbn [go_rel] in Hs. rewrite !go_bind_ret.
  pose proof (results_inv sortBySender cs (MkParallelInput e t r f) (arrange s) outs Eo) as [Hf _].
  assert (NoDup (fst <$> outs)) as Hno by by rewrite Hf. pose proof (Hclear outs Eo) as Hc.
  fold (keepMerged arrangeKVs s outs cs). fold (keepMerged arrangeKVs' s outs' cs').
  pose proof (keepMerged_same _ _ _ _ _ _ _ _ _ Hcs Eo Hs) as Hcs1.
  set (c := keepMerged arrangeKVs s outs cs) in *. set (c' := keepMerged arrangeKVs' s outs' cs') in *.
  assert (forall x, go_rel out_eq (runSingleReplaceService sortBySender c (MkParallelInput e t r f) (list_to_map outs) x)
    (runSingleReplaceService sortBySender c' (MkParallelInput e t' r f) (list_to_map outs') x)) as Hrun by (intros x; apply run_rel; [apply Hao|done..]).
  apply (go_rel_bind eq).
  { specialize (Hrun (pt_Bless e)). destruct (runSingleReplaceService _ c _ _ _), (runSingleReplaceService _ c' _ _ _); try done. cbn. by destruct Hrun. }
  intros eStar _ <-. destruct (negb _); [split; [done|constructor]|].
  apply (go_rel_bind eq).
  { match goal with |- go_rel _ ?x ?y => enough (go_rel (Forall2 eq) x y) as Hq by (destruct x, y; try done; by apply list_eq_Forall2) end.
    apply mapM_rel. intros [k v] _. apply (go_rel_bind out_eq); [apply Hrun|]. intros x y (Ep & _). rewrite Ep. apply go_rel_eq_refl. }
  intros aPrime _ <-. apply (go_rel_bind out_eq); [apply Hrun|]. intros dx dy (Ed & _). apply (go_rel_bind out_eq); [apply Hrun|]. intros rx ry (Er & _).
  apply (go_rel_bind eq).
  { match goal with |- go_rel _ ?x ?y => enough (go_rel (Forall2 eq) x y) as Hq by (destruct x, y; try done; by apply list_eq_Forall2) end.
    apply mapM_rel. intros [k v] _. apply (go_rel_bind out_eq); [apply Hrun|]. intros x y (Ep & _). rewrite Ep. apply go_rel_eq_refl. }
  intros qPrime _ <-. cbn zeta. rewrite <- Ed, <- Er, <- (new_same _ _ _ _ Hc Hno Hs), <- (removed_same _ _ _ Hs).
  rewrite <- (sameStore_posterior _ _ Hcs1).
  assert (posteriorStates c = posteriorStates cs) as Ec by (unfold c, keepMerged; by destruct (decide _)).
  rewrite Ec, <- (provided_same _ _ _ _ _ _ Hc Hs). split; [by apply (sameStore_write (fun c => newIota (onPosterior _ (writePriorMaps _ (onSharing _ c)))))|]. constructor. split_and!; cbn [po_PartialStateSet po_DeferredTransfers po_AccumulatedServiceOutput po_ServiceGasUsedList].
  - done.
  - apply sameTransfers_filter. by apply (transfers_same sortBySender cs e t r f (arrange s)).
  - by apply outputs_same.
  - by apply strip_fmap.
Qed.

Definition outer_eq (x y : OuterAccumulationOutput) : Prop :=
  oo_NumberOfWorkResultsAccumulated x = oo_NumberOfWorkResultsAccumulated y /\ oo_PartialStateSet x = oo_PartialStateSet y /\
  oo_AccumulatedServiceOutput x = oo_AccumulatedServiceOutput y /\ oo_ServiceGasUsedList x ≡ₚ oo_ServiceGasUsedList y.

Lemma subGas_perm g (u u' : list ServiceGasUsed) : u ≡ₚ u' -> foldl (fun g u => u64 (g - gu_Gas u)) g u = foldl (fun g u => u64 (g - gu_Gas u)) g u'.
Proof.
  intros Hp. revert g. induction Hp as [|x l l' _ IH|x y l|l l' l'' _ IH1 _ IH2]; intros g; [done|apply IH| |by rewrite IH1].
  cbn. f_equal. unfold u64. rewrite !Zminus_mod_idemp_l. f_equal. lia.
Qed.

(** The batch of a call, and the call for the rest. *)
Definition batchOf (input : OuterAccumulationInput) : ParallelizedAccumulationInput :=
  MkParallelInput (oi_InitPartialStateSet input) (oi_DeferredTransfers input)
    (take (gasPrefix (oi_GasLimit input) 0 (oi_WorkReports input)) (oi_WorkReports input)) (oi_ServicesWithFreeAccumulation input).
Definition restOf (input : OuterAccumulationInput) (star : ParallelizedAccumulationOutput) : OuterAccumulationInput :=
  MkOuterInput
    (foldl (fun g u => u64 (g - gu_Gas u)) (addGas (oi_GasLimit input) (dt_GasLimit <$> oi_DeferredTransfers input)) (po_ServiceGasUsedList star))
    (po_DeferredTransfers star) (drop (gasPrefix (oi_GasLimit input) 0 (oi_WorkReports input)) (oi_WorkReports input)) (po_PartialStateSet star) ∅.

(** The batches of a run in the first of the orders have no conflict. *)
Definition clearResults (cs : ChainState) (p : ParallelizedAccumulationInput) : Prop :=
  match results sortBySender cs p (arrange (set_s (pi_WorkReports p) (pi_AlwaysAccumulateMap p) (pi_DeferredTransfers p))) with
  | Ret outs => clearBatch (pi_PartialStateSet p) (pi_DeferredTransfers p) outs
  | Crash => oneEach (pi_DeferredTransfers p)
  end.

Lemma clearResults_ok cs p : clearResults cs p -> oneEach (pi_DeferredTransfers p) /\
  forall outs, results sortBySender cs p (arrange (set_s (pi_WorkReports p) (pi_AlwaysAccumulateMap p) (pi_DeferredTransfers p))) = Ret outs ->
    clearBatch (pi_PartialStateSet p) (pi_DeferredTransfers p) outs.
Proof. unfold clearResults. destruct (results _ _ _ _) as [outs|]; [intros Hc; split; [apply Hc|by intros ? [= <-]]|done]. Qed.

Fixpoint conflictFree (fuel : nat) (cs : ChainState) (input : OuterAccumulationInput) : Prop :=
  match fuel with
  | O => True
  | S fuel =>
      if lenOf (oi_DeferredTransfers input) + Z.of_nat (gasPrefix (oi_GasLimit input) 0 (oi_WorkReports input)) +
         Z.of_nat (size (oi_ServicesWithFreeAccumulation input)) =? 0 then True
      else clearResults cs (batchOf input) /\
        match ParallelizedAccumulation spec arrange arrangeKVs sortBySender cs (batchOf input) with
        | Ret (cs, Some star) => conflictFree fuel cs (restOf input star)
        | _ => True
        end
  end.

#[global] Instance conflictFree_dec fuel cs input : Decision (conflictFree fuel cs input).
Proof.
  revert cs input. induction fuel as [|fuel IH]; intros cs input; cbn [conflictFree]; [apply _|]. destruct (_ =? 0); [apply _|].
  apply and_dec.
  - unfold clearResults, oneEach. destruct (results _ _ _ _); apply _.
  - destruct (ParallelizedAccumulation _ _ _ _ _ _) as [[c [star|]]|]; [apply IH|apply _..].
Defined.

Lemma outer_rel fuel cs cs' g t t' r e f : conflictFree fuel cs (MkOuterInput g t r e f) -> sameStore cs cs' -> sameTransfers t t' ->
  option_Forall2 (go_rel (fun x y => sameStore (fst x) (fst y) /\ option_Forall2 outer_eq (snd x) (snd y)))
    (OuterAccumulation spec arrange arrangeKVs sortBySender fuel cs (MkOuterInput g t r e f))
    (OuterAccumulation spec arrange' arrangeKVs' sortBySender fuel cs' (MkOuterInput g t' r e f)).
Proof.
  revert cs cs' g t t' r e f. induction fuel as [|fuel IH]; intros cs cs' g t t' r e f Hcf Hcs Ht; [constructor|]. cbn [conflictFree] in Hcf. cbn [OuterAccumulation oi_GasLimit oi_DeferredTransfers oi_WorkReports oi_InitPartialStateSet oi_ServicesWithFreeAccumulation].
  pose proof (sameTransfers_perm _ _ Ht) as Hp. assert (lenOf t = lenOf t') as <- by (unfold lenOf; by rewrite Hp).
  cbn [oi_GasLimit oi_DeferredTransfers oi_WorkReports oi_ServicesWithFreeAccumulation] in Hcf.
  destruct (_ =? 0). { constructor. split; [done|]. by constructor. }
  destruct Hcf as [Hclear Hcf]. unfold batchOf in Hclear, Hcf.
  cbn [oi_GasLimit oi_DeferredTransfers oi_WorkReports oi_InitPartialStateSet oi_ServicesWithFreeAccumulation] in Hclear, Hcf.
  apply clearResults_ok in Hclear as [Hone Hclear].
  pose proof (parallel_rel cs cs' e t t' (take (gasPrefix g 0 r) r) f Hone Hclear Hcs Ht) as Hr.
  destruct (ParallelizedAccumulation spec arrange _ _ _ _) as [[c o]|], (ParallelizedAccumulation spec arrange' _ _ _ _) as [[c' o']|]; try done; [|by constructor].
  destruct Hr as [Hc Hoo]. cbn [fst snd] in *. destruct Hoo as [o o' (Ee & Et & Eb & Eu)|]; [|by repeat constructor; apply Hc].
  rewrite <- Ee, <- Eb, <- (addGas_perm _ _ _ (fmap_Permutation dt_GasLimit _ _ Hp)), <- (subGas_perm _ _ _ Eu).
  specialize (IH c c' (foldl (fun g u => u64 (g - gu_Gas u)) (addGas g (dt_GasLimit <$> t)) (po_ServiceGasUsedList o)) _ _ (drop (gasPrefix g 0 r) r) (po_PartialStateSet o) ∅ Hcf Hc Et).
  destruct IH as [x y Hxy|]; [|constructor]. destruct x as [[c1 o1]|], y as [[c1' o1']|]; try done; [|by constructor]. destruct Hxy as [Hc1 Ho1]. cbn [fst snd] in *.
  destruct Ho1 as [o1 o1' (En & Ep & Ea & Eg)|]; [|constructor; split; [done|constructor]]. constructor. split; [done|]. constructor.
  split_and!; cbn [oo_NumberOfWorkResultsAccumulated oo_PartialStateSet oo_AccumulatedServiceOutput oo_ServiceGasUsedList]; [by rewrite En|done|by rewrite Ea|by rewrite Eu, Eg].
Qed.

(** ** The block *)

Lemma sumGas_perm u u' : u ≡ₚ u' -> sumGas u = sumGas u'.
Proof.
  unfold sumGas. generalize (∅ : gmap Z Z). intros G Hp. revert G. induction Hp as [|x l l' _ IH|x y l|l l' l'' _ IH1 _ IH2]; intros G; [done|apply IH| |by rewrite IH1].
  cbn [foldl]. f_equal. destruct (decide (gu_ServiceID x = gu_ServiceID y)) as [E|E].
  - rewrite E, !lookup_insert_eq, !insert_insert_eq. cbn. f_equal. unfold u64. rewrite !Zplus_mod_idemp_l. f_equal. lia.
  - by rewrite !lookup_insert_ne, insert_insert_ne by done.
Qed.

(** A step that neither reads nor writes the unmatched pairs. *)
Lemma sameStore_step (F : ChainState -> go ChainState) cs cs' : (forall k c, F (SetPostStateUnmatchedKeyVals k c) = SetPostStateUnmatchedKeyVals k <$> F c) ->
  (forall c d, F c = Ret d -> postStateUnmatchedKeyVals d = postStateUnmatchedKeyVals c) -> sameStore cs cs' -> go_rel sameStore (F cs) (F cs').
Proof.
  intros HF Hk Hcs. rewrite (sameStore_set _ _ Hcs), HF. destruct (F cs) as [d|] eqn:Ed; [|done]. cbn. destruct Hcs as (_ & Hd & Hp).
  rewrite <- (Hk _ _ Ed) in Hd, Hp. split_and!; [done|done|]. by rewrite Hp.
Qed.

Ltac step_unmatched := intros; repeat match goal with
  | H : (_ ≫= _) = Ret _ |- _ => apply go_bind_inv in H as (? & ? & H)
  | H : Ret _ = Ret _ |- _ => injection H as <-
  end; try reflexivity.

Lemma updateXi_rel n cs cs' : sameStore cs cs' -> go_rel sameStore (updateXi spec n cs) (updateXi spec n cs').
Proof.
  apply sameStore_step.
  - intros k c. unfold updateXi. cbn [priorStates posteriorStates intermediateStates SetPostStateUnmatchedKeyVals].
    destruct (sliceTo _ _); [|done]. cbn. destruct (zupdate _ _ _); [|done]. cbn. by destruct (shiftLoop _ _ _ _).
  - unfold updateXi. step_unmatched.
Qed.

Lemma updateVartheta_rel cs cs' : sameStore cs cs' -> go_rel sameStore (updateVartheta spec cs) (updateVartheta spec cs').
Proof.
  apply sameStore_step.
  - intros k c. unfold updateVartheta. cbn [priorStates posteriorStates intermediateStates latestBlock SetPostStateUnmatchedKeyVals].
    by destruct (varthetaLoop _ _ _ _ _ _ _ _ _).
  - unfold updateVartheta. step_unmatched.
Qed.

Lemma ProcessAccumulation_rel cs cs' : sameStore cs cs' -> go_rel sameStore (ProcessAccumulation spec cs) (ProcessAccumulation spec cs').
Proof.
  apply sameStore_step.
  - intros k c. unfold ProcessAccumulation, UpdateAccumulatableWorkReports. cbn zeta.
    cbn [UpdateImmediatelyAccumulateWorkReports UpdateQueuedWorkReports onIntermediate priorStates intermediateStates latestBlock SetPostStateUnmatchedKeyVals].
    destruct (sliceFrom _ _); [|done]. cbn. by destruct (sliceTo _ _).
  - unfold ProcessAccumulation, UpdateAccumulatableWorkReports. step_unmatched.
Qed.

Lemma sameStore_on g h cs cs' : sameStore cs cs' -> sameStore (onIntermediate g (onPosterior h cs)) (onIntermediate g (onPosterior h cs')).
Proof. intros Hcs. rewrite (sameStore_set _ _ Hcs). destruct Hcs as (_ & Hd & Hp). split_and!; [done|done|by rewrite Hp]. Qed.

Definition sameResult {A} (x y : option (go (ChainState * A))) : Prop :=
  option_Forall2 (go_rel (fun x y => sameStore (fst x) (fst y) /\ snd x = snd y)) x y.

(** What the accumulation of a block starts with. *)
Definition blockInput (cs : ChainState) : OuterAccumulationInput :=
  let prior := priorStates cs in let chi := s_Chi prior in
  MkOuterInput (calculateMaxGasUsed spec (pr_AlwaysAccum chi)) [] (AccumulatableWorkReports (intermediateStates cs))
    (MkPartialState (s_Delta prior) (s_Iota prior) (s_Varphi prior) (pr_Bless chi) (pr_Assign chi) (pr_Designate chi)
      (pr_CreateAcct chi) (pr_AlwaysAccum chi)) (pr_AlwaysAccum chi).

(** The same for a block, whose reports are chosen first. *)
Definition conflictFreeBlock (fuel : nat) (cs : ChainState) : Prop :=
  match ProcessAccumulation spec cs with
  | Ret cs => conflictFree fuel (fromPrior cs) (blockInput cs)
  | Crash => True
  end.

#[global] Instance conflictFreeBlock_dec fuel cs : Decision (conflictFreeBlock fuel cs).
Proof. unfold conflictFreeBlock. destruct (ProcessAccumulation spec cs); apply _. Defined.

Lemma DeferredTransfers_rel fuel cs cs' : conflictFree fuel (fromPrior cs) (blockInput cs) -> sameStore cs cs' ->
  sameResult (DeferredTransfers spec arrange arrangeKVs sortBySender fuel cs) (DeferredTransfers spec arrange' arrangeKVs' sortBySender fuel cs').
Proof.
  intros Hcf Hcs. unfold sameResult, DeferredTransfers, executeOuterAccumulation.
  assert (sameStore (fromPrior cs) (fromPrior cs')) as Hfp by by apply sameStore_write.
  change (MkOuterInput _ [] _ _ (pr_AlwaysAccum (s_Chi (priorStates (fromPrior cs))))) with (blockInput cs).
  change (MkOuterInput _ [] _ _ (pr_AlwaysAccum (s_Chi (priorStates (fromPrior cs'))))) with (blockInput cs').
  assert (blockInput cs' = blockInput cs) as -> by by rewrite (sameStore_set _ _ Hcs).
  pose proof (outer_rel fuel (fromPrior cs) (fromPrior cs') _ [] [] _ _ _ Hcf Hfp ltac:(done)) as Hr.
  change (MkOuterInput _ [] _ _ (pr_AlwaysAccum (s_Chi (priorStates cs)))) with (blockInput cs) in Hr.
  destruct Hr as [x y Hxy|]; [|constructor]. destruct x as [[c o]|], y as [[c' o']|]; try done; [|by repeat constructor].
  destruct Hxy as [Hc Ho]. cbn [fst snd] in *. destruct Ho as [o o' (En & Ep & Ea & Eg)|]; [|constructor; split; [done|done]]. constructor.
  rewrite <- En, <- Ep, <- Ea. unfold calculateAccumulationStatistics. rewrite <- (sumGas_perm _ _ Eg).
  set (theta := merge_sort _ _).
  assert (shareIota (fromPrior cs') c' = shareIota (fromPrior cs) c') as -> by (unfold shareIota; by rewrite (sameStore_set _ _ Hfp)).
  set (F := fun c => onPosterior (SetTheta theta) (updatePartialStateSetToPosteriorState (oo_PartialStateSet o) (shareIota (fromPrior cs) c))).
  assert (sameStore (F c) (F c')) as Hc1.
  { apply sameStore_write; [|unfold F, shareIota; by destruct (Nat.eqb _ _)|done]. intros k d. unfold F, shareIota. cbn [sharing SetPostStateUnmatchedKeyVals].
    by destruct (Nat.eqb _ _). }
  fold (F c) (F c'). revert Hc1. generalize (F c), (F c'). intros d d' Hd.
  apply (go_rel_bind eq). { rewrite (sameStore_set _ _ Hd). apply go_rel_eq_refl. } intros S _ <-.
  apply (go_rel_bind sameStore).
  { apply updateXi_rel. rewrite (sameStore_set _ _ Hd). destruct Hd as (_ & Hd & Hp). split_and!; [done|done|by rewrite Hp]. }
  intros d1 d1' Hd1. apply (go_rel_bind sameStore); [by apply updateVartheta_rel|]. intros d2 d2' Hd2. by split.
Qed.


End Order.

(** ** Termination *)

Lemma Forall_filtered {A} (P Q : A -> Prop) `{forall x, Decision (P x)} l : Forall Q l -> Forall Q (filter P l).
Proof. rewrite !Forall_forall. intros Hl x [_ Hx]%list_elem_of_filter. by apply Hl. Qed.

(** Gas that is spread over services by a key. *)
Lemma spread_le {A} (key : A -> Z) (h : A -> Z) (xs : list A) (l : list Z) : NoDup l -> Forall (fun x => 0 <= h x) xs ->
  total ((fun s => total (h <$> filter (fun x => key x = s) xs)) <$> l) <= total (h <$> xs).
Proof.
  intros Hn Hx. induction Hx as [|x xs Hx Hxs IH].
  - clear Hn. induction l; [done|]. unfold total in *. cbn in *. lia.
  - assert (total ((fun s => total (h <$> filter (fun y => key y = s) (x :: xs))) <$> l) =
      total ((fun s => total (h <$> filter (fun y => key y = s) xs)) <$> l) + (if decide (key x ∈ l) then h x else 0)) as ->.
    { clear IH. induction Hn as [|s l Hs Hn IH]; [done|]. rewrite !fmap_cons, !total_cons, IH. clear IH. rewrite filter_cons. destruct (decide (key x = s)) as [<-|Hk].
      - rewrite (decide_True (P := key x ∈ key x :: l)) by by left. rewrite (decide_False (P := key x ∈ l)) by done. rewrite fmap_cons, total_cons. lia.
      - destruct (decide (key x ∈ l)) as [Hi|Hi]; [rewrite (decide_True (P := key x ∈ s :: l)) by (by right); lia|].
        rewrite (decide_False (P := key x ∈ s :: l)); [lia|]. by intros [?|?]%elem_of_cons. }
    unfold total in *. cbn. destruct (decide (key x ∈ l)); lia.
Qed.

Lemma total_nonneg l : Forall (fun x => 0 <= x) l -> 0 <= total l.
Proof. induction 1; unfold total in *; cbn; lia. Qed.

Lemma total_elem l x : Forall (fun x => 0 <= x) l -> x ∈ l -> x <= total l.
Proof.
  intros Hl. induction Hl as [|y l Hy Hl IH]; intros Hx; [by apply elem_of_nil in Hx|]. pose proof (total_nonneg l Hl). unfold total in *. cbn.
  apply elem_of_cons in Hx as [->|Hx]; [lia|]. specialize (IH Hx). lia.
Qed.

Lemma total_le {A} (f g : A -> Z) l : Forall (fun x => f x <= g x) l -> total (f <$> l) <= total (g <$> l).
Proof. induction 1; unfold total in *; cbn; lia. Qed.

Lemma total_add {A} (f g : A -> Z) l : total ((fun x => f x + g x) <$> l) = total (f <$> l) + total (g <$> l).
Proof. induction l; unfold total in *; cbn; lia. Qed.

Lemma operands_gas s r : op_GasLimit <$> operandsOf s r = wr_AccumulateGas <$> filter (fun d => wr_ServiceID d = s) (concat (rp_Results <$> r)).
Proof.
  unfold operandsOf. induction r as [|w r IH]; [done|]. cbn. rewrite fmap_app, IH, filter_app, fmap_app. f_equal. by rewrite <- list_fmap_compose.
Qed.

(** The gas of reports, of free services, and what transfers carry. *)
Definition reportsGas (r : list WorkReport) : Z := total (wr_AccumulateGas <$> concat (rp_Results <$> r)).
Definition freeGas (f : gmap Z Z) : Z := total (snd <$> map_to_list f).
Definition transfersGas (t : list DeferredTransfer) : Z := total (dt_GasLimit <$> t).

(** Gas amounts are not negative. *)
Definition gas_ok (t : list DeferredTransfer) (r : list WorkReport) (f : gmap Z Z) : Prop :=
  Forall (fun x => 0 <= dt_GasLimit x) t /\ Forall (fun d => 0 <= wr_AccumulateGas d) (concat (rp_Results <$> r)) /\ map_Forall (fun _ v => 0 <= v) f.
#[export] Instance gas_ok_dec t r f : Decision (gas_ok t r f).
Proof. unfold gas_ok. apply _. Defined.

Section Termination.
Context `{HashFunctions} `{AccumulateVMLaws} (spec : ChainSpec).
Context (sortBySender : list DeferredTransfer -> list DeferredTransfer) (arrange : gset Z -> list Z) (arrangeKVs : list StateKeyVal -> list StateKeyVal).
Context (Harrange : forall s, arrange s ≡ₚ elements s).

(** What a service may use at most. *)
Definition share (t : list DeferredTransfer) (r : list WorkReport) (f : gmap Z Z) (s : Z) : Z :=
  total (snd <$> filter (fun p => fst p = s) (map_to_list f)) + total (wr_AccumulateGas <$> filter (fun d => wr_ServiceID d = s) (concat (rp_Results <$> r))) +
  total (dt_GasLimit <$> filter (fun x => dt_ReceiverID x = s) t).

Lemma filter_nonneg {A} (h : A -> Z) (P : A -> Prop) `{forall x, Decision (P x)} l : Forall (fun x => 0 <= h x) l -> Forall (fun x => 0 <= x) (h <$> filter P l).
Proof. intros Hl. apply Forall_fmap, Forall_filtered. exact Hl. Qed.

Lemma free_nonneg f : map_Forall (fun _ v => 0 <= v) f -> Forall (fun p : Z * Z => 0 <= snd p) (map_to_list f).
Proof. intros Hf. apply Forall_forall. intros [k v] Hin%elem_of_map_to_list. exact (Hf k v Hin). Qed.

Lemma serviceGas_le e t r f s kvs : gas_ok t r f -> 0 <= serviceGas (MkSingleInput e t r f s kvs) <= share t r f s.
Proof.
  intros (Ht & Hr & Hf). unfold serviceGas, share. cbn [si_AlwaysAccumulateMap si_ServiceID si_WorkReports si_DeferredTransfers].
  assert (0 <= default 0 (f !! s) <= total (snd <$> filter (fun p => fst p = s) (map_to_list f))) as Hd.
  { pose proof (filter_nonneg snd (fun p => fst p = s) _ (free_nonneg f Hf)) as Hn. destruct (f !! s) as [v|] eqn:Ev; cbn; [|split; [lia|by apply total_nonneg]].
    split; [exact (Hf s v Ev)|]. apply total_elem; [done|]. apply list_elem_of_fmap. exists (s, v). split; [done|]. apply list_elem_of_filter.
    split; [done|]. by apply elem_of_map_to_list. }
  rewrite operands_gas. pose proof (addGas_le (default 0 (f !! s)) _ (proj1 Hd) (filter_nonneg wr_AccumulateGas (fun d => wr_ServiceID d = s) _ Hr)) as H2.
  pose proof (addGas_le _ _ (proj1 H2) (filter_nonneg dt_GasLimit (fun x => dt_ReceiverID x = s) _ Ht)). lia.
Qed.

Lemma shares_le t r f l : gas_ok t r f -> NoDup l -> total (share t r f <$> l) <= freeGas f + reportsGas r + transfersGas t.
Proof.
  intros (Ht & Hr & Hf) Hn. unfold share. rewrite !total_add.
  pose proof (spread_le fst snd (map_to_list f) l Hn (free_nonneg f Hf)). pose proof (spread_le wr_ServiceID wr_AccumulateGas _ l Hn Hr).
  pose proof (spread_le dt_ReceiverID dt_GasLimit t l Hn Ht). unfold freeGas, reportsGas, transfersGas. lia.
Qed.

Lemma cost_app t t' : transfersCost (t ++ t') = transfersCost t + transfersCost t'.
Proof. unfold transfersCost. by rewrite fmap_app, total_app. Qed.

Lemma cost_filter (P : DeferredTransfer -> Prop) `{forall x, Decision (P x)} t : Forall (fun x => 0 <= dt_GasLimit x) t -> transfersCost (filter P t) <= transfersCost t.
Proof.
  unfold transfersCost. induction 1 as [|x t Hx _ IH]; [done|]. rewrite filter_cons. destruct (decide (P x)); unfold total in *; cbn in *; lia.
Qed.

(** The transfers of a batch cost no more than the gas of the batch. *)
Lemma batch_gas cs e t r f outs l : gas_ok t r f -> freeGas f + reportsGas r + transfersGas t < 2 ^ 63 -> NoDup l ->
  results sortBySender cs (MkParallelInput e t r f) l = Ret outs ->
  Forall (fun x => 0 <= dt_GasLimit x) (concat ((fun out => so_DeferredTransfers (snd out)) <$> outs)) /\
  transfersCost (concat ((fun out => so_DeferredTransfers (snd out)) <$> outs)) <= freeGas f + reportsGas r + transfersGas t.
Proof.
  intros Hok Hmax Hn [Hl Ho]%results_inv. pose proof (shares_le t r f l Hok Hn) as Hsum.
  assert (forall s o, (s, o) ∈ outs -> Forall (fun x => 0 <= dt_GasLimit x) (so_DeferredTransfers o) /\ transfersCost (so_DeferredTransfers o) <= share t r f s) as Hs.
  { intros s o Hin. pose proof Hin as (items & eta & p & Hp & _ & ->)%Ho%single_inv.
    assert (0 <= serviceGas (CloneForService cs (MkParallelInput e t r f) s) <= share t r f s) as Hg by exact (serviceGas_le e t r f s _ Hok).
    assert (share t r f s <= total (share t r f <$> l)) as Hle.
    { apply total_elem; [|apply list_elem_of_fmap_2; rewrite <- Hl; exact (list_elem_of_fmap_2 fst outs (s, _) Hin)]. apply Forall_fmap, Forall_forall. intros s' _. cbn.
      pose proof (serviceGas_le e t r f s' [] Hok). lia. }
    apply psi_gas in Hp; [|split; [apply Hg|lia]]. cbn [so_DeferredTransfers]. destruct Hp as (Hp1 & Hp2 & Hp3). split; [exact Hp1|]. etrans; [exact Hp2|]. etrans; [exact Hp3|]. apply Hg. }
  clear Ho. rewrite <- Hl in Hsum. clear Hl Hn. split.
  - induction outs as [|[s o] outs IH]; [constructor|]. cbn. apply Forall_app. split; [apply (Hs s o); by left|]. apply IH; [|intros ? ? ?; apply Hs; by right].
    pose proof (serviceGas_le e t r f s [] Hok). cbn in Hsum. unfold total in *. cbn in *. lia.
  - etrans; [|exact Hsum]. clear Hsum. induction outs as [|[s o] outs IH]; [done|]. rewrite !fmap_cons. cbn [concat fst snd]. rewrite cost_app, total_cons.
    destruct (Hs s o) as [_ Hc]; [by left|]. specialize (IH ltac:(intros ? ? ?; apply Hs; by right)). lia.
Qed.

Lemma parallel_gas cs cs' e t r f star : gas_ok t r f -> freeGas f + reportsGas r + transfersGas t < 2 ^ 63 ->
  ParallelizedAccumulation spec arrange arrangeKVs sortBySender cs (MkParallelInput e t r f) = Ret (cs', Some star) ->
  Forall (fun x => 0 <= dt_GasLimit x) (po_DeferredTransfers star) /\ transfersCost (po_DeferredTransfers star) <= freeGas f + reportsGas r + transfersGas t.
Proof.
  intros Hok Hmax. unfold ParallelizedAccumulation. intros (outs & Ho & Hp)%go_bind_inv. cbn [pi_WorkReports pi_AlwaysAccumulateMap pi_DeferredTransfers pi_PartialStateSet] in Hp.
  apply batch_gas in Ho as [Hn Hc]; [|done|done|rewrite Harrange; apply NoDup_elements].
  apply go_bind_inv in Hp as (eStar & _ & Hp). destruct (negb _); [done|]. repeat (apply go_bind_inv in Hp as (? & _ & Hp)). injection Hp as _ <-.
  cbn [po_DeferredTransfers]. split; [by apply Forall_filtered|]. etrans; [by apply cost_filter|exact Hc].
Qed.

(** What is left to do: it gets smaller with every batch. *)
Definition remaining (t : list DeferredTransfer) (r : list WorkReport) (f : gmap Z Z) : Z :=
  transfersCost t + (reportsGas r + lenOf r) + (freeGas f + Z.of_nat (size f)).

Lemma reportsGas_take i r : reportsGas r = reportsGas (take i r) + reportsGas (drop i r).
Proof. unfold reportsGas. rewrite <- total_app, <- fmap_app, <- concat_app, <- fmap_app. by rewrite take_drop. Qed.

Lemma gasPrefix_le g sum r : (gasPrefix g sum r <= length r)%nat.
Proof. revert sum. induction r as [|w r IH]; intros sum; cbn; [done|]. destruct (_ <=? g); [|lia]. specialize (IH (addGas sum (wr_AccumulateGas <$> rp_Results w))). lia. Qed.

(** C17: the accumulation of a block ends. Every batch takes reports from the
    queue, serves a free service, or delivers transfers, whose gas, and the
    gas that it cost to send them, the sender has paid; the gas of the block
    bounds the number of batches. It is enough that no gas is negative and
    that all the gas together fits an [int64]. *)
Theorem OuterAccumulation_terminates fuel cs g t r e f : gas_ok t r f -> remaining t r f < 2 ^ 63 -> remaining t r f < Z.of_nat fuel ->
  is_Some (OuterAccumulation spec arrange arrangeKVs sortBySender fuel cs (MkOuterInput g t r e f)).
Proof.
  revert cs g t r e f. induction fuel as [|fuel IH]; intros cs g t r e f Hok Hmax Hfuel.
  { exfalso. destruct Hok as (Ht & Hr & Hf). unfold remaining, transfersCost, reportsGas, freeGas, lenOf in Hfuel.
    pose proof (total_nonneg ((fun x => dt_GasLimit x + 10) <$> t) ltac:(apply Forall_fmap; eapply Forall_impl; [exact Ht|intros; cbn in *; lia])).
    pose proof (total_nonneg _ (proj2 (Forall_fmap _ _ _) Hr)). pose proof (total_nonneg _ (proj2 (Forall_fmap _ _ _) (free_nonneg f Hf))). lia. }
  cbn [OuterAccumulation oi_GasLimit oi_DeferredTransfers oi_WorkReports oi_InitPartialStateSet oi_ServicesWithFreeAccumulation].
  set (i := gasPrefix g 0 r). destruct (lenOf t + Z.of_nat i + Z.of_nat (size f) =? 0) eqn:En; [by eexists|]. apply Z.eqb_neq in En.
  destruct (ParallelizedAccumulation _ _ _ _ _ _) as [[c [star|]]|] eqn:Ep; [|by eexists|by eexists].
  assert (gas_ok t (take i r) f /\ gas_ok [] (drop i r) ∅) as [Hok1 Hok2].
  { destruct Hok as (Ht & Hr & Hf). rewrite <- (take_drop i r), fmap_app, concat_app in Hr. apply Forall_app in Hr as [Hr1 Hr2]. split; split_and!; done. }
  assert (0 <= transfersGas t /\ transfersCost t = transfersGas t + 10 * lenOf t) as [Hgt Hct].
  { destruct Hok as (Ht & _). clear -Ht. unfold transfersGas, transfersCost, lenOf. induction Ht as [|x t Hx _ IH]; [done|]. unfold total in *. cbn in *. lia. }
  assert (0 <= reportsGas (drop i r)) as Hgr by (apply total_nonneg, Forall_fmap, Hok2).
  pose proof (reportsGas_take i r) as Hsplit. pose proof (gasPrefix_le g 0 r) as Hi. fold i in Hi.
  assert (lenOf (drop i r) = lenOf r - Z.of_nat i) as Hlen by (unfold lenOf; rewrite length_drop; lia).
  unfold remaining in *. apply parallel_gas in Ep as [Hn Hc]; [|done|unfold lenOf in *; lia].
  destruct (IH c (foldl (fun g u => u64 (g - gu_Gas u)) (addGas g (dt_GasLimit <$> t)) (po_ServiceGasUsedList star)) (po_DeferredTransfers star) (drop i r) (po_PartialStateSet star) ∅) as [x Hx].
  - split_and!; [done|apply Hok2|apply map_Forall_empty].
  - unfold freeGas. rewrite map_to_list_empty, map_size_empty. unfold lenOf, total in *. cbn. lia.
  - unfold freeGas. rewrite map_to_list_empty, map_size_empty. unfold lenOf, total in *. cbn. lia.
  - rewrite Hx. destruct x as [[? [?|]]|]; by eexists.
Qed.

End Termination.
