(* ===== verification/AccumulateInvocationSpec.v ===== *)
(** * The accumulate invocation keeps its contract

    [Psi_A] satisfies what the accumulation of a block relies on
    ([AccumulateVMLaws]): it looks the unmatched pairs up by their keys and
    only removes some, its transfers are from the service and paid from its
    gas. Every host call of an accumulation is one of three kinds: it leaves
    the transfers and the context Y alone ([framed]), it is [transfer], or it
    is [checkpoint]. *)

From S2P Require Import Prelude Words ExitReasons Memory Interp Program Types Config Codec Encode Decoders.
From S2P Require Import InvocationSpec Host HostSpec PreDecodeSpec Store StateSer Preimages OuterAccumulation.
From S2P Require Import OuterAccumulationSpec ServiceAccounts HostGeneral HostAccumulate AccumulateInvocation.
Local Open Scope Z_scope.

(** ** Unmatched pairs *)

Lemma removeKey_sub key kvs : HostGeneral.removeKey key kvs ⊆+ kvs.
Proof.
  unfold HostGeneral.removeKey. destruct (list_find _ kvs) as [[k p]|] eqn:E; [|done].
  apply sublist_submseteq. rewrite <- (take_drop k kvs) at 3. apply sublist_app; [done|].
  rewrite <- Nat.add_1_r, <- drop_drop. apply sublist_drop.
Qed.

Lemma removeKey_perm key kvs kvs' : distinctKeys kvs -> kvs ≡ₚ kvs' ->
  HostGeneral.removeKey key kvs ≡ₚ HostGeneral.removeKey key kvs'.
Proof.
  intros Hd Hp. change HostGeneral.removeKey with Preimages.removeKey.
  rewrite !removeKey_filter; [by apply filter_Permutation| |done]. by rewrite <- (distinctKeys_Proper _ _ Hp).
Qed.

Lemma valueAt_Some key kvs v : distinctKeys kvs -> valueAt key kvs = Some v <-> exists p, p ∈ kvs /\ Key p = key /\ Value p = v.
Proof.
  intros Hd. unfold valueAt. split.
  - destruct (list_find _ kvs) as [[k p]|] eqn:E; [|done]. intros [= <-]. apply list_find_Some in E as (Hk & Hp & _).
    exists p. split_and!; [by eapply list_elem_of_lookup_2|done|done].
  - intros (p & Hin & Hk & <-). destruct (list_find_elem_of (fun v => Key v = key) kvs p Hin Hk) as [[k q] E]. rewrite E. cbn.
    apply list_find_Some in E as (Hq & Hkq & _). f_equal. f_equal. apply (distinct_eq kvs q p Hd); [by eapply list_elem_of_lookup_2|done|congruence].
Qed.

Lemma valueAt_perm key kvs kvs' : distinctKeys kvs -> kvs ≡ₚ kvs' -> valueAt key kvs = valueAt key kvs'.
Proof.
  intros Hd Hp. apply option_eq. intros v. rewrite !valueAt_Some; [|by rewrite <- Hp|done]. by setoid_rewrite Hp.
Qed.

(** ** What a host call may change *)

Create HintDb host_calls discriminated.
#[export] Hint Constants Opaque : host_calls.

Record framed (a a' : Args) : Prop := {
  framed_own : own a' = own a;
  framed_pairs : xc_StorageKeyVal (ctxX a') ⊆+ xc_StorageKeyVal (ctxX a);
  framed_transfers : xc_DeferredTransfers (ctxX a') = xc_DeferredTransfers (ctxX a);
  framed_Y : aa_ResultContextY (aArgs a') = aa_ResultContextY (aArgs a) }.

#[export] Instance framed_PreOrder : PreOrder framed.
Proof. split; [by intros a|]. intros a b c [] []. split; [congruence|by etrans|congruence|congruence]. Qed.

Lemma framed_touch id f a : framed a (touch id f a).
Proof. unfold touch. by destruct (bool_decide _). Qed.

Lemma framed_pairs_only kvs a : kvs ⊆+ xc_StorageKeyVal (ctxX a) -> framed a (SetStorageKeyVal kvs a).
Proof. by split. Qed.

Lemma framed_move kvs id f a : kvs ⊆+ xc_StorageKeyVal (ctxX a) -> framed a (SetStorageKeyVal kvs (touch id f a)).
Proof. unfold touch. intros Hk. by destruct (bool_decide _); split. Qed.

(** The end of a host call: the gas is what is left of [g], the contexts are
    related by [rel]. *)
Section Ends.
Context (rel : Args -> Args -> Prop).

Definition ends (g : Z) (a : Args) (o : Outcome) : Prop := forall r vm' a', o = Ret (r, vm', a') ->
  rel a a' /\ (r = ExitContinue \/ r = ExitPanic) /\ vmGas vm' = g.

Lemma ends_ret g a a' r vm : vmGas vm = g -> r = ExitContinue \/ r = ExitPanic -> rel a a' -> ends g a (Ret (r, vm, a')).
Proof using. intros Hg Hr Hf r' vm' a'' [= <- <- <-]. auto. Qed.

Lemma ends_continue g a a' v vm : vmGas vm = g -> rel a a' -> ends g a (continueWith v vm a').
Proof using. intros Hg Hf. by apply ends_ret; [|left|]. Qed.

Lemma ends_panic g a a' v vm : vmGas vm = g -> rel a a' -> ends g a (panicWith v vm a').
Proof using. intros Hg Hf. by apply ends_ret; [|right|]. Qed.

Lemma ends_bind {A} g a (m : go A) k : (forall x, m = Ret x -> ends g a (k x)) -> ends g a (m ≫= k).
Proof using. destruct m as [x|]; cbn; [by intros Hk; apply Hk|by intros _ ???]. Qed.

Lemma ends_crash g a : ends g a Crash.
Proof using. by intros ???. Qed.

Lemma ends_write g a o f l data vm (k : VMState -> Outcome) : vmGas vm = g ->
  (forall vm', vmGas vm' = g -> ends g a (k vm')) -> ends g a (writeOut o f l data vm ≫= k).
Proof using.
  intros Hg Hk. apply ends_bind. intros vm'. unfold writeOut. intros (part & _ & H)%go_bind_inv.
  apply go_bind_inv in H as (m & _ & [= <-]). by apply Hk.
Qed.

(** A host call that spends at least what it must and keeps the relation. *)
Definition tame (o : Omega CallArgs) : Prop := forall op vm a r vm' a',
  0 <= vmGas vm < 2 ^ 63 -> o op vm a = Ret (r, vm', a') ->
  rel a a' /\ vmGas vm' <= vmGas vm /\ (r = ExitContinue /\ 0 <= vmGas vm' \/ r = ExitPanic \/ r = ExitOOG).

Lemma charged_tame `{!Reflexive rel} f : (forall vm a, ends (vmGas vm) a (f vm a)) -> tame (charged f).
Proof using.
  intros Hf op vm a r vm' a' Hg. unfold charged. pose proof (charge_gas vm Hg) as Hc.
  destruct (chargeGasAndCheck vm) as [vm1 oog] eqn:E. cbn [fst] in Hc.
  assert (oog = (vmGas vm1 <? 0)) as -> by by injection E as <- <-. destruct (Z.ltb_spec (vmGas vm1) 0) as [Hneg|Hpos].
  - intros [= <- <- <-]. split_and!; [done|lia|auto].
  - intros (Hfr & Hr & Hv)%Hf. split_and!; [done|lia|]. destruct Hr as [->| ->]; [left; split; [done|lia]|auto].
Qed.

Lemma gas_tame `{!Reflexive rel} : tame (@Host.gas CallArgs).
Proof using.
  intros op vm a r vm' a' Hg. unfold Host.gas. pose proof (charge_gas vm Hg) as Hc.
  destruct (chargeGasAndCheck vm) as [vm1 oog] eqn:E. cbn [fst] in Hc.
  assert (oog = (vmGas vm1 <? 0)) as -> by by injection E as <- <-. destruct (Z.ltb_spec (vmGas vm1) 0) as [Hneg|Hpos].
  - intros [= <- <- <-]. split_and!; [done|lia|auto].
  - unfold vmSetReg. destruct (zupdate _ _ _); cbn; [|done]. intros [= <- <- <-]. cbn. split_and!; [done|lia|left; lia].
Qed.

End Ends.

(** Host calls that leave the transfers and the context Y alone. *)
Definition plain (f : VMState -> Args -> Outcome) : Prop := forall vm a, ends framed (vmGas vm) a (f vm a).

Lemma framed_put id s a : framed a (putOwn id s a).
Proof. done. Qed.

Lemma removeStorage_sub `{HashFunctions} kvs s key kvs' : removeStorageFromKeyVal kvs s key = Ret kvs' -> kvs' ⊆+ kvs.
Proof. intros (p & _ & [= <-])%go_bind_inv. apply removeKey_sub. Qed.

Lemma framed_loadLookup `{HashFunctions} makeOK s key a a' ok : loadLookupTimeSlotSet makeOK s key a = Ret (a', ok) -> framed a a'.
Proof.
  intros ([v kvs] & Hg & Hl)%go_bind_inv. apply go_bind_inv in Hg as (k & _ & [= Hv <-]). cbv beta iota in Hl. clear Hv.
  pose proof (framed_pairs_only _ a (removeKey_sub k (xc_StorageKeyVal (ctxX a)))) as Hf.
  destruct v as [v|]; [|by injection Hl as <- _]. apply go_bind_inv in Hl as ([ts|] & _ & Hl); [|by injection Hl as <- _].
  destruct (bool_decide _); [done|]. injection Hl as <- _. etrans; [done|]. apply framed_touch.
Qed.

Lemma framed_putNew i account id s a a' : putNew i account id s a = Ret a' -> framed a a'.
Proof. intros (g & _ & [= <-])%go_bind_inv. by destruct (_ =? _). Qed.

Ltac framed_solve :=
  first
    [ done
    | by eapply framed_loadLookup
    | by eapply framed_putNew
    | by apply framed_pairs_only; eapply removeStorage_sub
    | etrans; [by eapply framed_loadLookup|]; framed_solve
    | etrans; [|by eapply framed_putNew]; framed_solve
    | split; [done|by eapply removeStorage_sub|done|done]
    | by apply framed_move; eapply removeStorage_sub ].

Ltac ends_step :=
  cbv zeta; lazymatch goal with
  | |- ends _ _ _ Crash => apply ends_crash
  | |- ends _ _ _ (continueWith _ _ _) => apply ends_continue; [done|]
  | |- ends _ _ _ (panicWith _ _ _) => apply ends_panic; [done|]
  | |- ends _ _ _ (panicPlain _ _) => apply ends_ret; [done|by right|]
  | |- ends _ _ _ (setReg2 _ _ _ _) => apply ends_ret; [done|by left|]
  | |- ends _ _ _ (Ret _) => apply ends_ret; [done|by left|]
  | |- ends _ _ _ (readOut _ _ _) => unfold readOut
  | |- ends _ _ _ (writeOut _ _ _ _ _ ≫= _) => apply ends_write; [done|intros ? ?]
  | |- ends _ _ _ ((if ?b then _ else _) ≫= _) => destruct b; cbn [mbind go_bind]
  | |- ends _ _ _ (_ ≫= _) => apply ends_bind; intros ? ?
  | |- ends _ _ _ (match ?x with _ => _ end) => destruct x eqn:?
  end.

Ltac plain_solve := intros vm a; repeat ends_step; framed_solve.


Section Calls.
Context `{HashFunctions} (makeOK : Z -> bool) (spec : ChainSpec).

Definition plain_omega : Omega CallArgs -> Prop := tame framed.

Lemma charged_plain f : plain f -> plain_omega (charged f).
Proof. by apply charged_tame. Qed.

Lemma wrap_plain o : plain_omega o -> plain_omega (wrapWithG o).
Proof.
  intros Ho op vm a r vm' a' Hg ([[r1 vm1] a1] & H1 & [= <- <- <-])%go_bind_inv.
  destruct (Ho _ _ _ _ _ _ Hg H1) as (Hf & Hr). split; [|done]. by etrans.
Qed.

Lemma gas_plain : plain_omega (@Host.gas CallArgs).
Proof. by apply gas_tame. Qed.

Lemma fetch_plain : plain_omega (fetch spec).
Proof. apply charged_plain. plain_solve. Qed.

Lemma lookup_plain : plain_omega lookup.
Proof. apply charged_plain. plain_solve. Qed.

Lemma write_plain : plain_omega write.
Proof. apply charged_plain. plain_solve. Qed.

Lemma read_plain : plain_omega read.
Proof. apply charged_plain. plain_solve. Qed.

Lemma info_plain : plain_omega info.
Proof. apply charged_plain. plain_solve. Qed.

Lemma log_plain : plain_omega logHostCall.
Proof. apply charged_plain. plain_solve. Qed.

Lemma bless_plain : plain_omega (bless makeOK spec).
Proof. apply charged_plain. plain_solve. Qed.

Lemma assign_plain : plain_omega (assign makeOK spec).
Proof. apply charged_plain. plain_solve. Qed.

Lemma designate_plain : plain_omega (designate makeOK spec).
Proof. apply charged_plain. plain_solve. Qed.

Lemma new_plain : plain_omega new.
Proof. apply charged_plain. plain_solve. Qed.

Lemma upgrade_plain : plain_omega upgrade.
Proof. apply charged_plain. plain_solve. Qed.

Lemma eject_plain : plain_omega (eject spec).
Proof. apply charged_plain. plain_solve. Qed.

Lemma query_plain : plain_omega (query makeOK).
Proof. apply charged_plain. plain_solve. Qed.

Lemma solicit_plain : plain_omega (solicit makeOK).
Proof. apply charged_plain. plain_solve. Qed.

Lemma forget_plain : plain_omega (forget makeOK spec).
Proof. apply charged_plain. plain_solve. Qed.

Lemma yield_plain : plain_omega yield.
Proof. apply charged_plain. plain_solve. Qed.

Lemma provide_plain : plain_omega (provide makeOK).
Proof. apply charged_plain. plain_solve. Qed.

(** What [payTransfer] leaves. *)
Lemma payTransfer_gas l vm a r vm' a' : 0 <= vmGas vm < 2 ^ 63 -> 0 <= l ->
  payTransfer l vm a = Ret (r, vm', a') -> a' = a /\
    (r = ExitContinue /\ vmGas vm' = vmGas vm - l /\ 0 <= vmGas vm' \/ r = ExitOOG /\ vmGas vm' = 0 /\ vmGas vm < l).
Proof.
  intros Hg Hl. unfold payTransfer. rewrite (uN_small 64) by lia. destruct (Z.ltb_spec (vmGas vm) l).
  - intros [= <- <- <-]. auto.
  - rewrite (sN_id 64 l) by lia. rewrite (sN_id 64) by lia. intros [= <- <- <-]. cbn. split; [done|left; lia].
Qed.

(** A transfer that is made is paid with its gas. *)
Lemma transfer_cases op vm a r vm' a' : 0 <= vmGas vm < 2 ^ 63 -> transfer op vm a = Ret (r, vm', a') ->
  own a' = own a /\ xc_StorageKeyVal (ctxX a') = xc_StorageKeyVal (ctxX a) /\ aa_ResultContextY (aArgs a') = aa_ResultContextY (aArgs a) /\
  vmGas vm' <= vmGas vm /\
  ((r = ExitPanic \/ r = ExitOOG) \/
   r = ExitContinue /\ 0 <= vmGas vm' /\ (xc_DeferredTransfers (ctxX a') = xc_DeferredTransfers (ctxX a) \/
     exists t, xc_DeferredTransfers (ctxX a') = xc_DeferredTransfers (ctxX a) ++ [t] /\ dt_SenderID t = own a /\
       0 <= dt_GasLimit t /\ vmGas vm' = vmGas vm - 10 - dt_GasLimit t)).
Proof.
  intros Hg. unfold transfer, charged. pose proof (charge_gas vm Hg) as Hc.
  destruct (chargeGasAndCheck vm) as [vm1 oog] eqn:E. cbn [fst] in Hc.
  assert (oog = (vmGas vm1 <? 0)) as -> by by injection E as <- <-. destruct (Z.ltb_spec (vmGas vm1) 0) as [Hneg|Hpos].
  { intros [= <- <- <-]. split_and!; try done; [lia|auto]. }
  cbv zeta. destruct (negb _); [intros [= <- <- <-]; cbn; split_and!; try done; [lia|auto]|].
  intros (memo & _ & Hx)%go_bind_inv. destruct (accountsX a !! _) as [d|]; [|injection Hx as <- <- <-; cbn; split_and!; try done; [lia|right; split_and!; [done|lia|auto]]].
  destruct (_ <? _); [injection Hx as <- <- <-; cbn; split_and!; try done; [lia|right; split_and!; [done|lia|auto]]|].
  pose proof (uN_range 64 (default 0 (zlookup (vmRegisters vm1) 9)) ltac:(lia)) as Hl. fold (HostGeneral.reg vm1 9) in Hl.
  destruct (accountsX a !! own a) as [s|].
  - destruct (_ || _); [injection Hx as <- <- <-; cbn; split_and!; try done; [lia|right; split_and!; [done|lia|auto]]|].
    apply payTransfer_gas in Hx as [-> Hr]; [|lia|lia]. split_and!; try done; [destruct Hr as [(_ & ? & _)|(_ & ? & _)]; lia|].
    destruct Hr as [(-> & Hv & H0)|(-> & _)]; [|auto]. right. split_and!; [done|lia|]. right. eexists. split; [reflexivity|]. cbn. split_and!; [done|lia|lia].
  - apply payTransfer_gas in Hx as [-> Hr]; [|lia|lia]. split_and!; try done; [destruct Hr as [(_ & ? & _)|(_ & ? & _)]; lia|].
    destruct Hr as [(-> & Hv & H0)|(-> & _)]; [|auto]. right. split_and!; [done|lia|auto].
Qed.

Lemma checkpoint_cases op vm a r vm' a' : 0 <= vmGas vm < 2 ^ 63 -> checkpoint op vm a = Ret (r, vm', a') ->
  ctxX a' = ctxX a /\ vmGas vm' <= vmGas vm /\
  (r = ExitContinue /\ 0 <= vmGas vm' /\ aa_ResultContextY (aArgs a') = ctxX a \/ r = ExitOOG /\ a' = a).
Proof.
  intros Hg. unfold checkpoint, charged. pose proof (charge_gas vm Hg) as Hc.
  destruct (chargeGasAndCheck vm) as [vm1 oog] eqn:E. cbn [fst] in Hc.
  assert (oog = (vmGas vm1 <? 0)) as -> by by injection E as <- <-. destruct (Z.ltb_spec (vmGas vm1) 0) as [Hneg|Hpos].
  - intros [= <- <- <-]. split_and!; [done|lia|auto].
  - intros [= <- <- <-]. cbn. split_and!; [done|lia|left; split_and!; [done|lia|done]].
Qed.

#[local] Hint Resolve wrap_plain gas_plain fetch_plain lookup_plain read_plain write_plain info_plain bless_plain assign_plain designate_plain
  new_plain upgrade_plain eject_plain query_plain solicit_plain forget_plain yield_plain provide_plain log_plain : host_calls.

(** ** The invariant of a run *)

Section Run.
Context (g0 s : Z) (kvs0 : list StateKeyVal).

(** A context whose transfers cost at most [b]. *)
Record ctx_ok (b : Z) (x : ResultContext) : Prop := {
  ctx_own : xc_ServiceID x = s;
  ctx_pairs : xc_StorageKeyVal x ⊆+ kvs0;
  ctx_senders : Forall (fun t => dt_SenderID t = s /\ 0 <= dt_GasLimit t) (xc_DeferredTransfers x);
  ctx_cost : transfersCost (xc_DeferredTransfers x) <= b }.

Lemma ctx_spend b b' x : b <= b' -> ctx_ok b x -> ctx_ok b' x.
Proof. intros Hb []. split; [done..|lia]. Qed.

Definition ctxY (a : Args) : ResultContext := aa_ResultContextY (aArgs a).

Definition run_inv (g : Z) (a : Args) : Prop := g <= g0 /\ ctx_ok (g0 - g) (ctxX a) /\ ctx_ok (g0 - g) (ctxY a).

(** At the end X counts after a halt only. *)
Definition run_fin (r g : Z) (a : Args) : Prop :=
  g <= g0 /\ (GetReasonType r = HALT -> ctx_ok (g0 - Z.max g 0) (ctxX a)) /\ ctx_ok (g0 - Z.max g 0) (ctxY a).

Lemma framed_ctx b a a' : framed a a' -> ctx_ok b (ctxX a) -> ctx_ok b (ctxX a').
Proof. intros [Ho Hp Ht _] []. split; [by rewrite <- ctx_own0|by etrans|by rewrite Ht|by rewrite Ht]. Qed.

Lemma fails_fin r g g' a a' : 0 <= g -> g' <= g -> r = ExitPanic \/ r = ExitOOG -> ctxY a' = ctxY a -> run_inv g a -> run_fin r g' a'.
Proof.
  intros H0 Hg Hr Hy (Hb & _ & HY). split_and!; [lia|by destruct Hr as [->| ->]|]. rewrite Hy. apply (ctx_spend (g0 - g)); [lia|done].
Qed.

Lemma plain_rule o : plain_omega o -> omega_rule run_inv run_fin o.
Proof.
  intros Ho op vm a r vm' a' Hg Hi Hc. destruct (Ho _ _ _ _ _ _ Hg Hc) as (Hf & Hle & Hr). pose proof Hi as (Hb & HX & HY).
  destruct Hr as [[-> H0]|Hr].
  - left. split_and!; [done|lia|lia|]. split_and!; [lia| |].
    + apply (ctx_spend (g0 - vmGas vm)); [lia|]. by eapply framed_ctx.
    + unfold ctxY. rewrite (framed_Y _ _ Hf). apply (ctx_spend (g0 - vmGas vm)); [lia|done].
  - right. split; [by destruct Hr as [->| ->]|]. apply (fails_fin _ (vmGas vm) _ a); [lia|done|done|by apply framed_Y|done].
Qed.

Lemma transfer_rule : omega_rule run_inv run_fin transfer.
Proof.
  intros op vm a r vm' a' Hg Hi Hc. destruct (transfer_cases _ _ _ _ _ _ Hg Hc) as (Ho & Hk & Hy & Hle & Hr). pose proof Hi as (Hb & HX & HY).
  destruct Hr as [Hr|(-> & H0 & Ht)].
  - right. split; [by destruct Hr as [->| ->]|]. by apply (fails_fin _ (vmGas vm) _ a); [lia|..].
  - left. split_and!; [done|lia|lia|]. split_and!; [lia| |unfold ctxY; rewrite Hy; apply (ctx_spend (g0 - vmGas vm)); [lia|done] ].
    destruct HX as [HX1 HX2 HX3 HX4]. destruct Ht as [Ht|(t & Ht & Hs & Hl & Hv)]; (split; [by rewrite <- HX1|by rewrite Hk|rewrite Ht..]).
    + done.
    + lia.
    + apply Forall_app. split; [done|]. apply Forall_singleton. split; [by rewrite <- HX1|done].
    + unfold transfersCost in *. rewrite fmap_app, total_app. unfold total at 2. cbn. lia.
Qed.

Lemma checkpoint_rule : omega_rule run_inv run_fin checkpoint.
Proof.
  intros op vm a r vm' a' Hg Hi Hc. destruct (checkpoint_cases _ _ _ _ _ _ Hg Hc) as (Hx & Hle & Hr). pose proof Hi as (Hb & HX & HY).
  destruct Hr as [(-> & H0 & Hy)|[-> ->]].
  - left. split_and!; [done|lia|lia|]. split_and!; [lia|rewrite Hx|unfold ctxY; rewrite Hy]; (apply (ctx_spend (g0 - vmGas vm)); [lia|done]).
  - right. split; [done|]. apply (fails_fin _ (vmGas vm) _ a); auto; lia.
Qed.

#[local] Hint Resolve plain_rule transfer_rule checkpoint_rule : host_calls.

Lemma table_rule : Forall (fun o => match o with Some omega => omega_rule run_inv run_fin omega | None => True end) (AccumulateOmegas makeOK spec).
Proof.
  unfold AccumulateOmegas. rewrite !Forall_app, !Forall_cons, !Forall_nil.
  split_and!; try done; try by apply Forall_replicate.
  all: eauto with host_calls.
Qed.

End Run.

Lemma plain_gas o : plain_omega o -> gas_bounded o.
Proof. intros Ho op vm a vm' a' Hg Hc. by destruct (Ho _ _ _ _ _ _ Hg Hc) as (_ & ? & _). Qed.

Lemma transfer_gas : gas_bounded transfer.
Proof. intros op vm a vm' a' Hg Hc. by destruct (transfer_cases _ _ _ _ _ _ Hg Hc) as (_ & _ & _ & ? & _). Qed.

Lemma checkpoint_gas : gas_bounded checkpoint.
Proof. intros op vm a vm' a' Hg Hc. by destruct (checkpoint_cases _ _ _ _ _ _ Hg Hc) as (_ & ? & _). Qed.

#[local] Hint Resolve plain_gas transfer_gas checkpoint_gas : host_calls.

Lemma table_gas : table_bounded (AccumulateOmegas makeOK spec).
Proof.
  unfold table_bounded, AccumulateOmegas. rewrite !Forall_app, !Forall_cons, !Forall_nil.
  split_and!; try done; try by apply Forall_replicate. all: eauto with host_calls.
Qed.

(** ** The end of a run *)

Section End_.
Context (arrangeBlobs : gmap Bytes ServiceBlob -> list ServiceBlob).

(** What the machine gives back: the gas is known when it is a number of
    63 bits. *)
Definition result_ok (s g : Z) (kvs : list StateKeyVal) (r : Psi_A_ReturnType) : Prop :=
  pa_StorageKeyVal r ⊆+ kvs /\ Forall (fun t => dt_SenderID t = s /\ 0 <= dt_GasLimit t) (pa_DeferredTransfers r) /\
  (0 <= g < 2 ^ 63 -> transfersCost (pa_DeferredTransfers r) <= pa_Gas r <= g).

Lemma run_ends fuel g p regs m a s kvs res : valid_instrs p -> g < 2 ^ 63 ->
  ctx_ok s kvs 0 (ctxX a) -> ctx_ok s kvs 0 (ctxY a) ->
  HostCall fuel (AccumulateOmegas makeOK spec) (MkInterp p regs m g) a 5 = Some (Ret res) ->
  exists b, (GetReasonType (psiReason res) = HALT -> ctx_ok s kvs b (ctxX (psiAddition res))) /\ ctx_ok s kvs b (ctxY (psiAddition res)) /\
    (0 <= g -> b = g - Z.max (vmGas (psiVM res)) 0 /\ vmGas (psiVM res) <= g).
Proof.
  intros Hv Hg HX HY Hh. destruct (Z.ltb_spec g 0) as [Hneg|Hpos].
  - destruct (HostCall_broke _ _ (MkInterp p regs m g) _ _ _ Hv Hneg Hh) as [-> _]. exists 0. split_and!; [done|done|lia].
  - destruct (HostCall_rule (AccumulateOmegas makeOK spec) (run_inv g s kvs) (run_fin g s kvs)) with (fuel := fuel)
      (interp := MkInterp p regs m g) (a := a) (pc := 5) (res := res) as (Hle & HX' & HY'); try done.
    + intros g1 g' a1 Hg' (Hb & HX1 & HY1). split_and!; [lia|apply (ctx_spend s kvs (g - g1)); [lia|done]..].
    + intros r g1 a1 _ Hg1 (Hb & HX1 & HY1). unfold run_fin. rewrite (Z.max_l g1 0) by lia. split_and!; [lia|done|done].
    + apply table_rule.
    + intros g1 a1 Hg1 Hi. split; (apply (fails_fin _ _ _ _ g1 _ a1); [lia|lia|auto|done|done]).
    + cbn. split_and!; [lia|by rewrite Z.sub_diag..].
    + exists (g - Z.max (vmGas (psiVM res)) 0). auto.
Qed.

Lemma addition_ctx e tau s acc items eta kvs a : addition e tau s acc items eta kvs = Ret a ->
  ctxX a = ctxY a /\ ctx_ok s kvs 0 (ctxX a).
Proof.
  intros (x & Hx & [= <-])%go_bind_inv. split; [done|]. change (ctx_ok s kvs 0 x). unfold I in Hx.
  apply go_bind_inv in Hx as ([id|] & _ & Hx); [|done]. destruct (check _ _ _); [|done]. injection Hx as <-.
  split; [done..|by apply List.Forall_nil|done].
Qed.

(** A context that is committed with the gas [u]. *)
Lemma committed_ok s g kvs b x exc u blobs : ctx_ok s kvs b x -> (0 <= g < 2 ^ 63 -> b <= u <= g) ->
  result_ok s g kvs (MkPsiA (xc_PartialState x) (xc_DeferredTransfers x) exc u blobs (xc_StorageKeyVal x)).
Proof. intros [_ Hk Hs Hc] Hu. split_and!; [done|done|]. intros Hg. specialize (Hu Hg). cbn [pa_DeferredTransfers pa_Gas]. lia. Qed.

Lemma C_ok s g kvs b u v a : (0 <= g < 2 ^ 63 -> b <= u <= g) -> ctx_ok s kvs b (ctxY a) ->
  (v = RType OUT_OF_GAS \/ v = RType PANIC \/ ctx_ok s kvs b (ctxX a)) ->
  let '(e, transfers, result, gas, blobs, kvs') := C u v (contextOf arrangeBlobs (ctxX a)) (contextOf arrangeBlobs (ctxY a)) in
  result_ok s g kvs (MkPsiA e transfers result gas blobs kvs').
Proof.
  intros Hu HY HX. unfold C. destruct HX as [->|[->|HX]]; [by eapply committed_ok..|].
  destruct v as [|bs|t|x]; [|destruct (negb _)|destruct (decide _)|destruct (decide _)]; by eapply committed_ok.
Qed.

Lemma runPsi_A_ok fuel e tau s g items eta kvs r :
  runPsi_A makeOK spec arrangeBlobs fuel e tau s g items eta kvs = Some (Ret r) -> result_ok s g kvs r.
Proof.
  assert (forall e', result_ok s g kvs (noCode e' kvs)) as Hn.
  { intros e'. split_and!; [done|by apply List.Forall_nil|]. intros Hg. cbn. unfold transfersCost, total. cbn. lia. }
  unfold runPsi_A. destruct (pt_ServiceAccounts e !! s) as [acc|]; [|intros [= <-]; apply Hn]. cbv zeta.
  destruct (FetchCodeByHash _ _ _) as [[[m code]|]|]; [|intros [= <-]; apply Hn|done].
  destruct (_ || _); [intros [= <-]; apply Hn|]. destruct (addition _ _ _ _ _ _ _) as [a|] eqn:Ha; [|done].
  apply addition_ctx in Ha as [Hxy HX]. pose proof HX as HY. rewrite Hxy in HY.
  destruct (Psi_M _ _ _ _ _ _ _) as [[[[u v] a']|]|] eqn:HM; [|done..]. intros Hr.
  apply Psi_M_inv in HM as [(-> & -> & ->)|(p & regs & mm & res & Hv & Hh & -> & -> & Hv')].
  - pose proof (C_ok s g kvs 0 0 (RExit ExitPanic) a ltac:(lia) HY (or_intror (or_intror HX))) as HC. unfold ctxY in HC.
    destruct (C _ _ _ _) as [[[[[e' t] res] gas] blobs] kvs']. by injection Hr as <-.
  - apply (run_ends _ _ _ _ _ _ s kvs) in Hh as (b & HXb & HYb & Hb); [|done|exact (proj2 (sN_range 64 g ltac:(lia)))|exact HX|exact HY].
    pose proof (C_ok s g kvs b (u64 (s64 (u64 (g - u64 (Z.max (vmGas (psiVM res)) 0))))) v (psiAddition res)) as HC. unfold ctxY in HC.
    destruct (C _ _ _ _) as [[[[[e' t] res'] gas] blobs] kvs']. injection Hr as <-. apply HC; [|done|].
    + intros Hg. rewrite sN_id in Hb by lia. destruct (Hb ltac:(lia)) as [-> Hle].
      rewrite (uN_small 64 (Z.max _ _)) by lia. rewrite (uN_small 64 (g - _)) by lia. rewrite sN_id by lia. rewrite uN_small by lia. lia.
    + destruct Hv' as [->|[->|[Hh _]]]; auto.
Qed.

End End_.

(** ** The order of the pairs does not matter *)

Definition setPairs (kvs : list StateKeyVal) (x : ResultContext) : ResultContext :=
  MkResultContext (xc_ServiceID x) (xc_PartialState x) (xc_ImportServiceID x) (xc_DeferredTransfers x) (xc_Exception x) (xc_ServiceBlobs x) kvs.

(** The arguments with other pairs. *)
Definition withPairs (kx ky : list StateKeyVal) : Args -> Args :=
  onAccumulate (fun x => MkAccumulateArgs (setPairs kx (aa_ResultContextX x)) (setPairs ky (aa_ResultContextY x)) (aa_Timeslot x) (aa_Eta x)
    (aa_OperandOrDeferredTransfers x)).

Definition reordered (a b : Args) : Prop := exists kx ky, b = withPairs kx ky a /\
  (distinctKeys (xc_StorageKeyVal (ctxX a)) /\ xc_StorageKeyVal (ctxX a) ≡ₚ kx) /\
  (distinctKeys (xc_StorageKeyVal (ctxY a)) /\ xc_StorageKeyVal (ctxY a) ≡ₚ ky).

Abbreviation rel_calls f := (forall vm a b, reordered a b -> go_rel (same_out reordered) (f vm a) (f vm b)).

Section Views.
Context (kx ky : list StateKeyVal) (a : Args).
Lemma withPairs_own : own (withPairs kx ky a) = own a. Proof. done. Qed.
Lemma withPairs_state : stateX (withPairs kx ky a) = stateX a. Proof. done. Qed.
Lemma withPairs_accounts : accountsX (withPairs kx ky a) = accountsX a. Proof. done. Qed.
Lemma withPairs_delta : delta (withPairs kx ky a) = delta a. Proof. done. Qed.
Lemma withPairs_general : gArgs (withPairs kx ky a) = gArgs a. Proof. done. Qed.
Lemma withPairs_refine : rArgs (withPairs kx ky a) = rArgs a. Proof. done. Qed.
Lemma withPairs_timeslot : aa_Timeslot (aArgs (withPairs kx ky a)) = aa_Timeslot (aArgs a). Proof. done. Qed.
Lemma withPairs_eta : aa_Eta (aArgs (withPairs kx ky a)) = aa_Eta (aArgs a). Proof. done. Qed.
Lemma withPairs_items : aa_OperandOrDeferredTransfers (aArgs (withPairs kx ky a)) = aa_OperandOrDeferredTransfers (aArgs a). Proof. done. Qed.
Lemma withPairs_import : xc_ImportServiceID (ctxX (withPairs kx ky a)) = xc_ImportServiceID (ctxX a). Proof. done. Qed.
Lemma withPairs_blobs : xc_ServiceBlobs (ctxX (withPairs kx ky a)) = xc_ServiceBlobs (ctxX a). Proof. done. Qed.
Lemma withPairs_stateY : xc_PartialState (aa_ResultContextY (aArgs (withPairs kx ky a))) = xc_PartialState (aa_ResultContextY (aArgs a)). Proof. done. Qed.
Lemma withPairs_new c l g m : newAccount (withPairs kx ky a) c l g m = newAccount a c l g m. Proof. done. Qed.
End Views.
Create Rewrite HintDb pairs.
#[local] Hint Rewrite withPairs_own withPairs_state withPairs_accounts withPairs_delta withPairs_general withPairs_refine withPairs_timeslot
  withPairs_eta withPairs_items withPairs_import withPairs_blobs withPairs_stateY withPairs_new : pairs.

(** What the calls make of the pairs. *)
Lemma reordered_remove key kx kx' : distinctKeys kx -> kx ≡ₚ kx' ->
  distinctKeys (HostGeneral.removeKey key kx) /\ HostGeneral.removeKey key kx ≡ₚ HostGeneral.removeKey key kx'.
Proof. intros Hd Hp. split; [exact (distinct_sub _ _ Hd (removeKey_sub _ _))|by apply removeKey_perm]. Qed.

Lemma withPairs_touch kx ky id f a : touch id f (withPairs kx ky a) = withPairs kx ky (touch id f a).
Proof.
  unfold touch. cbv zeta. change (gArgs (onAccountsX (alter f id) (withPairs kx ky a))) with (gArgs a).
  change (gArgs (onAccountsX (alter f id) a)) with (gArgs a). by destruct (bool_decide _).
Qed.

Lemma touch_pairs id f a : xc_StorageKeyVal (ctxX (touch id f a)) = xc_StorageKeyVal (ctxX a) /\ ctxY (touch id f a) = ctxY a.
Proof. unfold touch. by destruct (bool_decide _). Qed.

Lemma reordered_touch id f a b : reordered a b -> reordered (touch id f a) (touch id f b).
Proof.
  intros (kx & ky & -> & HX & HY). exists kx, ky. split; [by apply withPairs_touch|].
  by destruct (touch_pairs id f a) as [-> ->].
Qed.

Lemma load_rel s key a b : reordered a b ->
  go_rel (fun x y => reordered (fst x) (fst y) /\ snd x = snd y) (loadLookupTimeSlotSet makeOK s key a) (loadLookupTimeSlotSet makeOK s key b).
Proof.
  intros (kx & ky & -> & HX & HY). unfold loadLookupTimeSlotSet, getLookupItemFromKeyVal.
  destruct (EncodeDelta4Key s key) as [k|]; [|done]. cbn [mbind go_bind]. change (xc_StorageKeyVal (ctxX (withPairs kx ky a))) with kx.
  rewrite <- (valueAt_perm k _ _ (proj1 HX) (proj2 HX)).
  assert (reordered (SetStorageKeyVal (HostGeneral.removeKey k (xc_StorageKeyVal (ctxX a))) a) (SetStorageKeyVal (HostGeneral.removeKey k kx) (withPairs kx ky a))) as Hr.
  { exists (HostGeneral.removeKey k kx), ky. split; [done|]. split; [exact (reordered_remove k _ _ (proj1 HX) (proj2 HX))|exact HY]. }
  cbv beta iota zeta. destruct (valueAt _ _) as [v|]; [|exact (conj Hr eq_refl)].
  destruct (decodeValue _ _) as [[ts|]|]; cbn [mbind go_bind]; [|exact (conj Hr eq_refl)|done].
  change (accountsX (SetStorageKeyVal _ (withPairs kx ky a))) with (accountsX a). change (accountsX (SetStorageKeyVal _ a)) with (accountsX a).
  destruct (bool_decide _); [done|]. split; [by apply reordered_touch|done].
Qed.

Lemma putNew_rel i account id s a b : reordered a b -> go_rel reordered (putNew i account id s a) (putNew i account id s b).
Proof.
  intros (kx & ky & -> & HX & HY). unfold putNew. rewrite withPairs_general. destruct (deref _) as [g|]; [|done]. cbn [mbind go_bind].
  destruct (_ =? g); by exists kx, ky.
Qed.

Ltac rel_leaf := split; [done|]; match goal with HX : distinctKeys _ /\ _ ≡ₚ ?kx, HY : distinctKeys _ /\ _ ≡ₚ ?ky |- reordered _ _ => by exists kx, ky end.

Ltac rel_step :=
  cbv zeta; autorewrite with pairs;
  lazymatch goal with
  | |- go_rel _ (loadLookupTimeSlotSet _ _ _ _ ≫= _) _ =>
      eapply go_rel_bind; [apply load_rel; by eexists _, _|]; let Hr := fresh in intros [? ?] [? ?] Hr; cbn [fst snd] in Hr; destruct Hr as [(?kx & ?ky & -> & ?HX & ?HY) <-]
  | |- go_rel _ (putNew _ _ _ _ _ ≫= _) _ => eapply go_rel_bind; [apply putNew_rel; by eexists _, _|]; intros ? ? (?kx & ?ky & -> & ?HX & ?HY)
  | |- go_rel _ (if ?b then _ else _) _ => destruct b
  | |- go_rel _ (match ?x with _ => _ end) _ => destruct x
  | |- go_rel _ (?m ≫= _) _ => destruct m; cbn [mbind go_bind]; [|done]
  | |- go_rel _ Crash Crash => done
  | |- go_rel _ (readOut _ _ _) _ => unfold readOut
  | |- go_rel _ _ _ => rel_leaf
  end.

Ltac rel_solve := intros vm a b (kx & ky & -> & HX & HY); repeat rel_step.

Lemma charged_rel f : rel_calls f -> omega_rel reordered (charged f).
Proof. intros Hf op vm a b Hr. unfold charged. destruct (chargeGasAndCheck vm) as [vm1 [|] ]; [done|by apply Hf]. Qed.

Lemma wrap_rel o : omega_rel reordered o -> omega_rel reordered (wrapWithG o).
Proof.
  intros Ho op vm a b Hr. unfold wrapWithG. eapply go_rel_bind; [by apply Ho|]. intros [[r1 vm1] a1] [[r2 vm2] b1] [[= <- <-] Hr1].
  cbn [snd] in Hr1. destruct Hr1 as (kx & ky & -> & HX & HY). rel_leaf.
Qed.

Lemma gas_rel : omega_rel reordered (@Host.gas CallArgs).
Proof.
  intros op vm a b Hr. unfold Host.gas. destruct (chargeGasAndCheck vm) as [vm1 [|] ]; [done|].
  unfold vmSetReg. by destruct (zupdate _ _ _).
Qed.

Lemma bless_rel : omega_rel reordered (bless makeOK spec).
Proof. apply charged_rel. rel_solve. Qed.

Lemma assign_rel : omega_rel reordered (assign makeOK spec).
Proof. apply charged_rel. rel_solve. Qed.

Lemma designate_rel : omega_rel reordered (designate makeOK spec).
Proof. apply charged_rel. rel_solve. Qed.

Lemma checkpoint_rel : omega_rel reordered checkpoint.
Proof. apply charged_rel. intros vm a b (kx & ky & -> & HX & HY). split; [done|]. by exists kx, kx. Qed.

Lemma new_rel : omega_rel reordered new.
Proof. apply charged_rel. rel_solve. Qed.

Lemma payTransfer_rel l vm a b : reordered a b -> go_rel (same_out reordered) (payTransfer l vm a) (payTransfer l vm b).
Proof. intros Hr. unfold payTransfer. by destruct (_ <? l). Qed.

Lemma upgrade_rel : omega_rel reordered upgrade.
Proof. apply charged_rel. rel_solve. Qed.

Lemma transfer_rel : omega_rel reordered transfer.
Proof.
  apply charged_rel. intros vm a b (kx & ky & -> & HX & HY).
  repeat lazymatch goal with
  | |- go_rel _ (payTransfer _ _ _) _ => apply payTransfer_rel; by exists kx, ky
  | _ => rel_step
  end.
Qed.

Lemma eject_rel : omega_rel reordered (eject spec).
Proof. apply charged_rel. rel_solve. Qed.

Lemma query_rel : omega_rel reordered (query makeOK).
Proof. apply charged_rel. rel_solve. Qed.

Lemma solicit_rel : omega_rel reordered (solicit makeOK).
Proof. apply charged_rel. rel_solve. Qed.

Lemma forget_rel : omega_rel reordered (forget makeOK spec).
Proof. apply charged_rel. rel_solve. Qed.

Lemma yield_rel : omega_rel reordered yield.
Proof. apply charged_rel. rel_solve. Qed.

Lemma provide_rel : omega_rel reordered (provide makeOK).
Proof. apply charged_rel. rel_solve. Qed.

Lemma withPairs_fetch idx vm kx ky a : fetchHandlers spec idx vm (withPairs kx ky a) = fetchHandlers spec idx vm a.
Proof. done. Qed.
#[local] Hint Rewrite withPairs_fetch : pairs.

Lemma fetch_rel : omega_rel reordered (fetch spec).
Proof. apply charged_rel. rel_solve. Qed.

Lemma lookup_rel : omega_rel reordered lookup.
Proof. apply charged_rel. rel_solve. Qed.

Lemma info_rel : omega_rel reordered info.
Proof. apply charged_rel. rel_solve. Qed.

Lemma log_rel : omega_rel reordered logHostCall.
Proof. apply charged_rel. rel_solve. Qed.

(** Storage among the pairs. *)
Lemma getStorage_perm kx kx' s key : distinctKeys kx -> kx ≡ₚ kx' -> getStorageFromKeyVal kx s key = getStorageFromKeyVal kx' s key.
Proof. intros Hd Hp. unfold getStorageFromKeyVal. destruct (WrapEncodeDelta2KeyVal _ _ _); [|done]. cbn. by rewrite (valueAt_perm _ _ _ Hd Hp). Qed.

Lemma removeStorage_rel kx kx' s key : distinctKeys kx -> kx ≡ₚ kx' ->
  go_rel (fun x y => distinctKeys x /\ x ≡ₚ y) (removeStorageFromKeyVal kx s key) (removeStorageFromKeyVal kx' s key).
Proof. intros Hd Hp. unfold removeStorageFromKeyVal. destruct (WrapEncodeDelta2KeyVal _ _ _); [|done]. by apply reordered_remove. Qed.

Lemma withPairs_pairs kx ky a : xc_StorageKeyVal (ctxX (withPairs kx ky a)) = kx.
Proof. done. Qed.

Lemma read_rel : omega_rel reordered read.
Proof.
  apply charged_rel. intros vm a b (kx & ky & -> & HX & HY). cbv zeta. autorewrite with pairs. rewrite withPairs_pairs.
  destruct (deref _) as [caller|]; [|done]. cbn [mbind go_bind]. destruct (negb _); [rel_leaf|]. destruct (_ && _); [rel_leaf|].
  destruct (Read _ _ _) as [key|]; [|done]. cbn [mbind go_bind]. rewrite <- (getStorage_perm _ _ _ _ (proj1 HX) (proj2 HX)).
  destruct (getStorageFromKeyVal _ _ _) as [fromPairs|]; [|done]. cbn [mbind go_bind].
  destruct (_ ≫= _) as [v|]; [repeat rel_step|]. destruct fromPairs as [v|]; [|rel_leaf].
  destruct (caller =? _); [|repeat rel_step]. destruct (bool_decide _); [done|].
  eapply go_rel_bind; [exact (removeStorage_rel _ _ _ _ (proj1 HX) (proj2 HX))|]. intros k k' Hk. destruct HX as [_ _].
  match goal with |- context [touch ?i ?f a] => pose proof (touch_pairs i f a) as [_ Ht]; rewrite (withPairs_touch kx ky i f a);
    set (a1 := touch i f a) in *; change (SetStorageKeyVal k' (withPairs kx ky a1)) with (withPairs k' ky (SetStorageKeyVal k a1)) end.
  assert (distinctKeys (xc_StorageKeyVal (ctxY (SetStorageKeyVal k a1))) /\ xc_StorageKeyVal (ctxY (SetStorageKeyVal k a1)) ≡ₚ ky) as HY1.
  { change (ctxY (SetStorageKeyVal k a1)) with (ctxY a1). by rewrite Ht. }
  clear HY. change (distinctKeys (xc_StorageKeyVal (ctxX (SetStorageKeyVal k a1))) /\ xc_StorageKeyVal (ctxX (SetStorageKeyVal k a1)) ≡ₚ k') in Hk.
  repeat rel_step.
Qed.

Lemma write_rel : omega_rel reordered write.
Proof.
  apply charged_rel. intros vm a b (kx & ky & -> & HX & HY). cbv zeta. autorewrite with pairs. rewrite withPairs_pairs.
  destruct (negb _); [rel_leaf|]. destruct (Read _ _ _) as [key|]; [|done]. cbn [mbind go_bind].
  destruct (deref (ga_ServiceID _)) as [id|]; [|done]. cbn [mbind go_bind]. destruct (deref (ga_ServiceAccount _)) as [acc0|]; [|done]. cbn [mbind go_bind].
  rewrite <- (getStorage_perm _ _ _ _ (proj1 HX) (proj2 HX)). destruct (getStorageFromKeyVal _ _ _) as [fromPairs|]; [|done]. cbn [mbind go_bind].
  destruct (match _ with Some value => CalcStorageItemfootprint _ value | None => _ end) as [items octets].
  destruct (writeStorage _ _ _ _ _) as [[[acc|e]|]|]; cbn [mbind go_bind]; [|rel_leaf..|done].
  eapply go_rel_bind; [exact (removeStorage_rel _ _ _ _ (proj1 HX) (proj2 HX))|]. intros k k' Hk. split; [done|]. by exists k', ky.
Qed.

#[local] Hint Resolve wrap_rel gas_rel fetch_rel lookup_rel read_rel write_rel info_rel bless_rel assign_rel designate_rel checkpoint_rel
  new_rel upgrade_rel transfer_rel eject_rel query_rel solicit_rel forget_rel yield_rel provide_rel log_rel : host_calls.

Lemma table_rel : Forall (fun o => match o with Some omega => omega_rel reordered omega | None => True end) (AccumulateOmegas makeOK spec).
Proof.
  unfold AccumulateOmegas. rewrite !Forall_app, !Forall_cons, !Forall_nil.
  split_and!; try done; try by apply Forall_replicate. all: eauto with host_calls.
Qed.

Section Laws.
Context (arrangeBlobs : gmap Bytes ServiceBlob -> list ServiceBlob).

Lemma addition_rel e tau s acc items eta kvs kvs' : distinctKeys kvs -> kvs ≡ₚ kvs' ->
  go_rel reordered (addition e tau s acc items eta kvs) (addition e tau s acc items eta kvs').
Proof.
  intros Hd Hp. unfold addition, I. destruct (decodeValue _ _) as [[id|]|]; cbn [mbind go_bind]; [|done..].
  destruct (check _ _ _) as [id'|]; [|done]. cbn [mbind go_bind]. by exists kvs', kvs'.
Qed.

(** Committed contexts that differ in the order of their pairs. *)
Lemma C_rel u v x y kx ky : xc_StorageKeyVal x ≡ₚ kx -> xc_StorageKeyVal y ≡ₚ ky ->
  let pack '(e, transfers, result, gas, blobs, kvs) := MkPsiA e transfers result gas blobs kvs in
  psi_eq (pack (C u v (contextOf arrangeBlobs x) (contextOf arrangeBlobs y)))
    (pack (C u v (contextOf arrangeBlobs (setPairs kx x)) (contextOf arrangeBlobs (setPairs ky y)))).
Proof.
  intros Hx Hy pack. unfold C, psi_eq. destruct v as [|bs|t|e]; [|destruct (negb _)|destruct (decide _)|destruct (decide _)]; done.
Qed.

Lemma runPsi_A_rel fuel e tau s g items eta kvs kvs' : distinctKeys kvs -> kvs ≡ₚ kvs' ->
  option_Forall2 (go_rel psi_eq) (runPsi_A makeOK spec arrangeBlobs fuel e tau s g items eta kvs)
    (runPsi_A makeOK spec arrangeBlobs fuel e tau s g items eta kvs').
Proof.
  intros Hd Hp. assert (forall e', option_Forall2 (go_rel psi_eq) (Some (Ret (noCode e' kvs))) (Some (Ret (noCode e' kvs')))) as Hn.
  { intros e'. by constructor. }
  unfold runPsi_A. destruct (pt_ServiceAccounts e !! s) as [acc|]; [|apply Hn]. cbv zeta.
  destruct (FetchCodeByHash _ _ _) as [[[m code]|]|]; [|apply Hn|by constructor]. destruct (_ || _); [apply Hn|].
  pose proof (addition_rel (withAccount s (SetBalance (u64 (si_Balance (ac_ServiceInfo acc) + transferBalances items)) acc) e) tau s
    (SetBalance (u64 (si_Balance (ac_ServiceInfo acc) + transferBalances items)) acc) items eta kvs kvs' Hd Hp) as Ha.
  destruct (addition _ _ _ _ _ _ kvs) as [a|], (addition _ _ _ _ _ _ kvs') as [b|]; try done; [|by constructor].
  assert (forall p, reordered (MkArgs (Some p) (argRest a)) (MkArgs (Some p) (argRest b))) as Hprog.
  { destruct Ha as (kx & ky & -> & HX & HY). intros p. by exists kx, ky. }
  pose proof (fun code arg => Psi_M_rel (AccumulateOmegas makeOK spec) reordered fuel code 5 g arg a b table_rel Ha Hprog) as HM.
  match goal with |- context [Psi_M fuel ?c 5 g ?x _ a] => destruct (HM c x) as [[o|] [o'|] Ho|] end;
    [|by destruct Ho|by destruct Ho|by constructor|by constructor].
  destruct o as [[u v] a'], o' as [[u' v'] b']. destruct Ho as [[= <- <-] (kx & ky & Hb & HX & HY)]. cbn [snd] in *. subst b'.
  pose proof (C_rel u v (ctxX a') (ctxY a') kx ky (proj2 HX) (proj2 HY)) as HC. cbv zeta in HC.
  change (ctxX (withPairs kx ky a')) with (setPairs kx (ctxX a')).
  change (aa_ResultContextY (aArgs (withPairs kx ky a'))) with (setPairs ky (ctxY a')). change (aa_ResultContextY (aArgs a')) with (ctxY a').
  destruct (C u v _ _) as [[[[[e1 t1] r1] g1] b1] k1]. destruct (C u v _ _) as [[[[[e2 t2] r2] g2] b2] k2]. by constructor.
Qed.

(** C16: [Psi_A] ends: fuel above the gas is enough for a result, so that the
    machine of the accumulation is never cut short. *)
Theorem Psi_A_terminates e tau s g items eta kvs : 0 <= g < 2 ^ 63 ->
  runPsi_A makeOK spec arrangeBlobs (S (Z.to_nat g)) e tau s g items eta kvs =
    Some (@Psi_A (PsiA makeOK spec arrangeBlobs) e tau s g items eta kvs).
Proof.
  intros Hg. unfold Psi_A, PsiA. enough (is_Some (runPsi_A makeOK spec arrangeBlobs (S (Z.to_nat g)) e tau s g items eta kvs)) as [o ->] by done.
  unfold runPsi_A. destruct (pt_ServiceAccounts e !! s) as [acc|]; [|done]. cbv zeta.
  destruct (FetchCodeByHash _ _ _) as [[[m code]|]|]; [|done..]. destruct (_ || _); [done|].
  destruct (addition _ _ _ _ _ _ _) as [a|]; [|done].
  destruct (Psi_M_terminates (AccumulateOmegas makeOK spec) (GSlice code []) 5 g
    (GSlice (EncodeUint tau ++ EncodeUint s ++ EncodeUint (lenOf items)) []) a table_gas Hg) as [o ->].
  destruct o as [[[u v] a']|]; [|done]. by destruct (C _ _ _ _) as [[[[[? ?] ?] ?] ?] ?].
Qed.

Lemma PsiA_lawful : @AccumulateVMLaws (PsiA makeOK spec arrangeBlobs).
Proof.
  assert (forall e tau s g items eta kvs r, @Psi_A (PsiA makeOK spec arrangeBlobs) e tau s g items eta kvs = Ret r -> result_ok s g kvs r) as Hok.
  { intros e tau s g items eta kvs r. unfold Psi_A, PsiA. destruct (runPsi_A _ _ _ _ _ _ _ _ _ _ _) as [[r'|]|] eqn:E; [|done..].
    cbn. intros [= <-]. by eapply runPsi_A_ok. }
  split.
  - intros e tau s g items eta kvs kvs' Hd Hp. unfold Psi_A, PsiA. by destruct (runPsi_A_rel (S (Z.to_nat g)) e tau s g items eta kvs kvs' Hd Hp).
  - intros e tau s g items eta kvs r _ (Hk & _)%Hok. done.
  - intros e tau s g items eta kvs r (_ & Hs & _)%Hok. eapply Forall_impl; [exact Hs|]. by intros t [? _].
  - intros e tau s g items eta kvs r Hg (_ & Hs & Hc)%Hok. split; [|by apply Hc]. eapply Forall_impl; [exact Hs|]. by intros t [_ ?].
Qed.

(** C4: [Psi_A] keeps the contract the accumulation of a block relies on
    ([AccumulateVMLaws]): the order of the unmatched pairs does not matter,
    it only removes some, its transfers are from the service, and it has
    paid for their gas. *)
Theorem Psi_A_laws : @AccumulateVMLaws (PsiA makeOK spec arrangeBlobs).
Proof. exact PsiA_lawful. Qed.

End Laws.

End Calls.
