(* ===== verification/HostRefineSpec.v ===== *)
(** * Correctness of refinement and authorization

    A refinement and an authorization end within their gas; what a refinement
    may export; the integrated machines of a refinement never have memory. *)

From S2P Require Import Prelude Words ExitReasons Opcodes Memory MemorySpec Decode Interp Instructions Program Types Config Codec Encode Decoders.
From S2P Require Import HandlersSpec Invocation InvocationSpec PreDecodeSpec Host HostSpec Store OuterAccumulation ServiceAccounts HostGeneral.
From S2P Require Import AccumulateInvocationSpec HostRefine.
Local Open Scope Z_scope.

(** ** Instructions on a machine without memory *)

Definition bare (i : Interpreter) : Prop := Mem i = zeroMemory.

Definition stays_bare (o : outcome) : Prop := forall i r pc, o = Ret (i, r, pc) -> bare i.

Lemma bare_ret i r pc : bare i -> stays_bare (Ret (i, r, pc)).
Proof. by intros Hb i' r' pc' [= <- <- <-]. Qed.

Lemma bare_bind {A} (m : go A) k : (forall x, stays_bare (k x)) -> stays_bare (m ≫= k).
Proof. intros Hk. destruct m; cbn; [apply Hk|by intros ???]. Qed.

Lemma bare_setReg i d v k : bare i -> (forall i', bare i' -> stays_bare (k i')) -> stays_bare (Interp.setReg i d v ≫= k).
Proof. intros Hb Hk. unfold Interp.setReg. destruct (zupdate _ _ _); cbn; [by apply Hk|by intros ???]. Qed.

(** A store finds no page. *)
Lemma bare_store i n x v k : bare i -> (forall i' r, bare i' -> stays_bare (k (i', r))) -> stays_bare (interpStore i n x v ≫= k).
Proof.
  intros Hb Hk. unfold interpStore. rewrite Hb. unfold storeIntoMemory. cbn [zeroMemory Pages].
  destruct (_ <? _); [by apply Hk|]. rewrite lookup_empty. by apply Hk.
Qed.

(** The heap of a machine without memory cannot grow. *)
Lemma bare_sbrk i pc l : bare i -> stays_bare (instSbrk i pc l).
Proof.
  intros Hb. unfold instSbrk. apply bare_bind. intros [[rD rA]|]; [|by apply bare_ret]. unfold Interp.reg. destruct (zindex _ _) as [x|]; [|by intros ???].
  cbn [mbind go_bind]. destruct (x =? 0); [apply bare_setReg; [done|]; intros; by apply bare_ret|].
  rewrite Hb. cbn [zeroMemory heapPointer heapLimit Pages]. destruct (_ || _) eqn:E; [apply bare_setReg; [done|]; intros; by apply bare_ret|].
  apply orb_false_iff in E as [E1 E2]. apply Z.ltb_ge in E1, E2. replace (u64 (0 + x)) with 0 by lia. cbv zeta.
  change (pageUp (s64 0) <? 0) with false. cbv match. apply bare_setReg; [done|]. intros. by apply bare_ret.
Qed.

Definition byte_bare (op : Z) : Prop := forall h, keyed execInstructions op = Some h ->
  forall i pc skipLength, bare i -> stays_bare (h i pc skipLength).

Ltac bare_step :=
  cbn [mbind go_bind]; cbv beta zeta;
  match goal with
  | |- stays_bare (Ret _) => by apply bare_ret
  | |- stays_bare Crash => by intros ???
  | |- stays_bare (instSbrk _ _ _) => by apply bare_sbrk
  | |- stays_bare (mbind _ (mbind _ _)) => rewrite go_bind_assoc
  | |- stays_bare (mbind _ (Interp.setReg _ _ _)) => apply bare_setReg; [done|intros ? ?]
  | |- stays_bare (mbind _ (interpStore _ _ _ _)) => apply bare_store; [done|intros ? ? ?]
  | |- stays_bare (mbind _ (match ?x with _ => _ end)) => destruct x eqn:?
  | |- stays_bare (mbind _ _) => apply bare_bind; intros ?
  | |- stays_bare (match ?x with _ => _ end) => destruct x eqn:?
  end.

Ltac bare_byte :=
  let E := fresh in
  intros h E; lazy [keyed execInstructions Z.eqb Pos.eqb] in E; injection E as <-; intros i pc skipLength ?;
  match goal with
  | |- stays_bare (instSbrk _ _ _) => idtac
  | |- stays_bare (?h _ _ _) => unfold h
  end; repeat bare_step.

Lemma all_byte_bare : Forall byte_bare validOpcodes.
Proof.
  let l := eval vm_compute in validOpcodes in change validOpcodes with l.
  repeat (apply List.Forall_cons; [solve [bare_byte]|]). apply List.Forall_nil.
Qed.

Lemma step_bare i pc : bare i -> stays_bare (SingleStepStateTransition i pc).
Proof.
  intros Hb. unfold SingleStepStateTransition. destruct (_ <=? pc); [by apply bare_ret|]. apply bare_bind. intros op.
  destruct (_ <? 1); [by apply bare_ret|]. destruct (keyed execInstructions op) as [h|] eqn:E; [|by apply bare_ret].
  intros i' r pc' (((j, r1), pc1) & Hh & Hr)%go_bind_inv.
  pose proof (proj1 (Forall_forall _ _) all_byte_bare op (execInstructions_valid _ _ E) h E (charge i) pc _ Hb _ _ _ Hh) as Hj.
  by repeat case_match; simplify_eq.
Qed.

Lemma invoke_bare fuel i pc i' r pc' : bare i -> SingleStepInvoke fuel i pc = Some (Ret (i', r, pc')) -> bare i'.
Proof.
  revert i pc. induction fuel as [|fuel IH]; intros i pc Hb; cbn [SingleStepInvoke]; [done|].
  destruct (SingleStepStateTransition i pc) as [[[i1 r1] pc1]|] eqn:E; [|done]. apply step_bare in E; [|done].
  repeat case_match; intros; simplify_eq; eauto.
Qed.

(** ** The host calls of a refinement *)

(** The segments so far, counted from the offset of the work item, and the
    machines. [MaxExportCount] is W_X. *)
Record refining (offset : Z) (a : Args) : Prop := {
  rg_offset : ra_ExportSegmentOffset (rArgs a) = offset;
  rg_sizes : Forall (fun segment => lenOf segment = SegmentSize) (exported a);
  rg_count : exported a = [] \/ offset + lenOf (exported a) <= MaxExportCount + 1;
  rg_bare : map_Forall (fun _ t => im_Memory t = zeroMemory) (machines a) }.

Section Calls.
Context (offset : Z) (Hoffset : 0 <= offset < 2 ^ 64).

Definition keeps_refining (a a' : Args) : Prop := refining offset a -> refining offset a'.

#[local] Instance keeps_refining_PreOrder : PreOrder keeps_refining.
Proof. split; [intros a Ha; exact Ha|]. intros a b c Hab Hbc Ha. by apply Hbc, Hab. Qed.

Lemma refining_machines f a : (forall m, map_Forall (fun _ t => im_Memory t = zeroMemory) m -> map_Forall (fun _ t => im_Memory t = zeroMemory) (f m)) ->
  keeps_refining a (onMachines f a).
Proof using. intros Hf [H1 H2 H3 H4]. split; [exact H1|exact H2|exact H3|exact (Hf _ H4)]. Qed.

Lemma refining_insert n code pc a : keeps_refining a (setMachine n code zeroMemory pc a).
Proof using. apply refining_machines. intros m Hm. by apply map_Forall_insert_2. Qed.

Lemma lenOf_app {A} (l k : list A) : lenOf (l ++ k) = lenOf l + lenOf k.
Proof using. unfold lenOf. rewrite length_app. lia. Qed.

Lemma refining_append segment a : lenOf segment = SegmentSize -> u64 (offset + lenOf (exported a)) <= MaxExportCount ->
  keeps_refining a (appendSegment segment a).
Proof using Hoffset.
  intros Hs Hc [Ho Hz Hn Hb]. split; [exact Ho| | |exact Hb].
  - change (exported (appendSegment segment a)) with (exported a ++ [segment]). apply Forall_app. split; [done|]. by apply Forall_singleton.
  - right. change (exported (appendSegment segment a)) with (exported a ++ [segment]). rewrite lenOf_app. change (lenOf [segment]) with 1.
    revert Hc. destruct Hn as [->|Hn]; [change (lenOf []) with 0|pose proof (Nat2Z.is_nonneg (length (exported a))); unfold lenOf in *];
      change MaxExportCount with 3072 in *; rewrite uN_small by lia; lia.
Qed.

Lemma zeroPadding_segment data : lenOf (gcopy (replicate (Z.to_nat SegmentSize) 0) (zeroPadding data SegmentSize)) = SegmentSize.
Proof using. unfold lenOf. rewrite gcopy_length, length_replicate. done. Qed.

(** No page is ever assigned. *)
Lemma assignPages_bare n i access m : assignPages n i access zeroMemory = Ret m -> m = zeroMemory.
Proof using. destruct n; cbn; [by intros [=]|done]. Qed.

Lemma pages_bare (b : bool) n i access m m' : m = zeroMemory ->
  (if b then assignPages n i access m else Ret m) = Ret m' -> m' = zeroMemory.
Proof using. intros ->. destruct b; [apply assignPages_bare|by intros [=]]. Qed.

Lemma runMachine_bare t w g i c pc : im_Memory t = zeroMemory -> runMachine t w g = Ret (i, c, pc) -> Mem i = zeroMemory.
Proof using.
  intros Hm. unfold runMachine. destruct (SingleStepInvoke _ _ _) as [[o|]|] eqn:E; cbn; [|done..]. intros [= ->].
  apply invoke_bare in E; done.
Qed.

Lemma machine_bare n t a : machines a !! n = Some t -> refining offset a -> im_Memory t = zeroMemory.
Proof using. intros Ht [_ _ _ Hb]. exact (Hb _ _ Ht). Qed.

Lemma write_zeroMemory o data m : Write zeroMemory o data = Ret m -> m = zeroMemory.
Proof using. destruct data; cbn; [by intros [=]|done]. Qed.

Ltac refine_call := apply charged_tame; [apply _|]; intros vm a; repeat ends_step; try reflexivity.

Lemma fetch_tame `{HashFunctions} spec : tame keeps_refining (fetch spec).
Proof using. refine_call. Qed.

Lemma log_tame : tame keeps_refining logHostCall.
Proof using. refine_call. Qed.

Lemma historicalLookup_tame e : tame keeps_refining (historicalLookup e).
Proof using. refine_call. Qed.

Lemma export_tame : tame keeps_refining export.
Proof using Hoffset.
  refine_call. intros Ha. apply refining_append; [apply zeroPadding_segment| |exact Ha]. rewrite <- (rg_offset _ _ Ha). by apply Z.ltb_ge.
Qed.

Lemma machine_tame : tame keeps_refining machine.
Proof using. refine_call. apply refining_insert. Qed.

Lemma peek_tame : tame keeps_refining peek.
Proof using. refine_call. Qed.

Lemma poke_tame : tame keeps_refining poke.
Proof using.
  refine_call. intros Ha. match goal with Ht : machines a !! _ = Some ?t, Hw : Write _ _ _ = Ret ?m |- _ =>
    rewrite (machine_bare _ _ _ Ht Ha) in Hw; rewrite (write_zeroMemory _ _ _ Hw) end. by apply refining_insert.
Qed.

Lemma pages_tame : tame keeps_refining pages.
Proof using.
  apply charged_tame; [apply _|]. intros vm a. cbv zeta. destruct (machines a !! _) as [t|] eqn:Ht; [|by apply ends_continue].
  destruct (_ || _); [by apply ends_continue|]. destruct (_ && _); [by apply ends_continue|].
  apply ends_bind. intros m0 H0. apply ends_bind. intros m1 H1. apply ends_bind. intros m2 H2. apply ends_continue; [done|]. intros Ha.
  rewrite (pages_bare _ _ _ _ _ _ (pages_bare _ _ _ _ _ _ (pages_bare _ _ _ _ _ _ (machine_bare _ _ _ Ht Ha) H0) H1) H2).
  by apply refining_insert.
Qed.

Lemma innerResult_gas c vm : vmGas (innerResult c vm) = vmGas vm.
Proof using. unfold innerResult. by repeat case_match. Qed.

Lemma invoke_tame : tame keeps_refining invoke.
Proof using.
  apply charged_tame; [apply _|]. intros vm a. cbv zeta. destruct (negb _); [by apply ends_panic|].
  destruct (machines a !! _) as [t|] eqn:Ht; [|by apply ends_continue].
  apply ends_bind. intros data _. apply ends_bind. intros [[i c] pc] Hr. destruct (_ && _); [apply ends_crash|].
  apply ends_bind. intros m _. apply ends_bind. intros pc' _. apply ends_ret; [by rewrite innerResult_gas|by left|]. intros Ha.
  rewrite (runMachine_bare _ _ _ _ _ _ (machine_bare _ _ _ Ht Ha) Hr). by apply refining_insert.
Qed.

Lemma expunge_tame : tame keeps_refining expunge.
Proof using. refine_call. apply refining_machines. intros m Hm. by apply map_Forall_delete. Qed.

Lemma gas_refine : tame keeps_refining (@Host.gas CallArgs).
Proof using. by apply gas_tame; apply _. Qed.

(** ** The tables *)

Section Tables.
Context `{HashFunctions} (spec : ChainSpec) (emptyIsNil : bool).

Definition tame_entry (o : option (Omega CallArgs)) : Prop := match o with Some omega => tame keeps_refining omega | None => True end.

Lemma refine_table : Forall tame_entry (RefineOmegas spec emptyIsNil).
Proof using H Hoffset.
  unfold RefineOmegas. rewrite !Forall_app, !Forall_cons, !Forall_nil. cbn [tame_entry].
  split_and!; try (by apply Forall_replicate); eauto using gas_refine, fetch_tame, historicalLookup_tame, export_tame, machine_tame, peek_tame, poke_tame,
    pages_tame, invoke_tame, expunge_tame, log_tame.
Qed.

Lemma authorize_table : Forall tame_entry (IsAuthorizedOmegas spec).
Proof using H.
  unfold IsAuthorizedOmegas. rewrite !Forall_app, !Forall_cons, !Forall_nil. cbn [tame_entry].
  split_and!; try (by apply Forall_replicate); eauto using gas_refine, fetch_tame, log_tame.
Qed.

End Tables.

End Calls.

(** ** Runs *)

Section Runs.
Context (offset : Z) (omegas : Omegas CallArgs).
Hypothesis Htable : Forall (tame_entry offset) omegas.

Lemma tame_gas : table_bounded omegas.
Proof using Htable.
  eapply Forall_impl; [exact Htable|]. intros [omega|]; [|done]. intros Ho op vm a vm' a' Hg Hc. by destruct (Ho _ _ _ _ _ _ Hg Hc) as (_ & ? & _).
Qed.

Definition within (g0 g : Z) (a : Args) : Prop := g <= g0 /\ refining offset a.

Lemma tame_rule g0 o : tame (keeps_refining offset) o -> omega_rule (within g0) (fun _ => within g0) o.
Proof using.
  intros Ho op vm a r vm' a' Hg [Hle Hr] Hc. destruct (Ho _ _ _ _ _ _ Hg Hc) as (Hk & Hv & Hr'). specialize (Hk Hr).
  destruct Hr' as [[-> H0]|Hr']; [left; split_and!; [done|lia|lia|split; [lia|done] ]|].
  right. split; [by destruct Hr' as [->| ->]|]. split; [lia|done].
Qed.

Lemma refining_program p a : refining offset a -> refining offset (MkArgs (Some p) (argRest a)).
Proof using. intros [H1 H2 H3 H4]. split; [exact H1|exact H2|exact H3|exact H4]. Qed.

Lemma Psi_M_refining fuel code counter g argument a g' v a' : refining offset a -> 0 <= g < 2 ^ 63 ->
  Psi_M fuel code counter g argument omegas a = Some (Ret (g', v, a')) -> refining offset a' /\ 0 <= g' <= g.
Proof using Htable.
  intros Ha Hg HM. apply Psi_M_inv in HM as [(-> & -> & ->)|(p & regs & m & res & Hv & Hh & -> & -> & _)]; [split; [done|lia]|].
  rewrite sN_id in Hh by lia.
  assert (within g (vmGas (psiVM res)) (psiAddition res)) as [Hle Hr].
  { apply (HostCall_rule omegas (within g) (fun _ => within g)) with (fuel := fuel) (interp := MkInterp p regs m g) (a := MkArgs (Some p) (argRest a))
      (pc := counter) (res := res); try done.
    - intros g1 g2 a1 H12 [? ?]. split; [lia|done].
    - eapply Forall_impl; [exact Htable|]. intros [omega|]; [apply tame_rule|done].
    - intros g1 a1 H1 [? ?]. split; (split; [lia|done]).
    - split; [cbn; lia|by apply refining_program]. }
  split; [done|]. rewrite (uN_small 64 (Z.max _ _)) by lia. rewrite (uN_small 64 (g - _)) by lia. rewrite sN_id by lia. rewrite uN_small by lia. lia.
Qed.

End Runs.

Lemma refineResult_cases res : let '(result, output) := refineResult res in
  (result = WorkExecResultOk \/ result = WorkExecResultPanic \/ result = WorkExecResultOutOfGas) /\ (result <> WorkExecResultOk -> output = []).
Proof. unfold refineResult. repeat case_decide; split; auto; done. Qed.

Lemma isAuthorizedResult_cases res : let '(result, output) := isAuthorizedResult res in
  (result = WorkExecResultOk \/ result = WorkExecResultPanic \/ result = WorkExecResultOutOfGas) /\ (result <> WorkExecResultOk -> output = []).
Proof. unfold isAuthorizedResult. repeat case_decide; [split; auto; done..|]. by destruct res; split; auto. Qed.

Lemma refining_start input item : refining (rf_ExportSegmentOffset input) (refineAddition input item).
Proof. split; [done|by apply List.Forall_nil|by left|apply map_Forall_empty]. Qed.

Section Theorems.
Context `{HashFunctions} (makeOK : Z -> bool) (spec : ChainSpec) (emptyIsNil : bool).

(** C18: no integrated machine of a refinement ever has memory: whatever the
    host calls are and return, the memory of every machine is the zero
    value, and the segments have their size and number. *)
Theorem refine_calls_keep n omega op vm a r vm' a' offset : 0 <= offset < 2 ^ 64 ->
  RefineOmegas spec emptyIsNil !! n = Some (Some omega) -> 0 <= vmGas vm < 2 ^ 63 ->
  omega op vm a = Ret (r, vm', a') -> refining offset a -> refining offset a'.
Proof.
  intros Ho Hn Hg Hc Ha. pose proof (proj1 (Forall_lookup _ _) (refine_table offset Ho spec emptyIsNil) _ _ Hn) as Ht.
  destruct (Ht _ _ _ _ _ _ Hg Hc) as (Hk & _). by apply Hk.
Qed.

(** What a refinement returns. *)
Record refined (input : RefineInput) (item : WorkItem) (out : RefineOutput) : Prop := {
  rd_gas : 0 <= ro_Gas out <= wi_RefineGasLimit item;
  rd_sizes : Forall (fun segment => lenOf segment = SegmentSize) (ro_ExportSegment out);
  rd_count : ro_ExportSegment out = [] \/ rf_ExportSegmentOffset input + lenOf (ro_ExportSegment out) <= MaxExportCount + 1;
  rd_failed : ro_WorkResult out <> WorkExecResultOk -> ro_ExportSegment out = [] /\ ro_RefineOutput out = [];
  rd_result : ro_WorkResult out =
    if lenOf (serviceCode input item) =? 0 then WorkExecResultBadCode
    else if MaxServiceCodeSize <? lenOf (serviceCode input item) then WorkExecResultCodeOversize else ro_WorkResult out;
  rd_ran : lenOf (serviceCode input item) <> 0 -> lenOf (serviceCode input item) <= MaxServiceCodeSize ->
    ro_WorkResult out = WorkExecResultOk \/ ro_WorkResult out = WorkExecResultPanic \/ ro_WorkResult out = WorkExecResultOutOfGas }.

(** C11: a refinement ends within the gas limit of its work item; it uses at
    most that gas; a failed one exports nothing; the segments it exports
    have the size W_G and, from the offset of the work item, their number is
    at most one more than W_X; missing code, and only that, is BAD, and
    oversized code BIG. *)
Theorem RefineInvoke_spec input item :
  zlookup (wp_Items (rf_WorkPackage input)) (rf_WorkItemIndex input) = Some item ->
  0 <= wi_RefineGasLimit item < 2 ^ 63 -> 0 <= rf_ExportSegmentOffset input < 2 ^ 64 ->
  runRefine makeOK spec emptyIsNil (S (Z.to_nat (wi_RefineGasLimit item))) input = Some (RefineInvoke makeOK spec emptyIsNil input) /\
  forall out, RefineInvoke makeOK spec emptyIsNil input = Ret out -> refined input item out.
Proof.
  intros Hi Hg Ho. unfold RefineInvoke. rewrite Hi. cbn [fmap option_fmap option_map default id].
  pose proof (refine_table _ Ho spec emptyIsNil) as Ht. unfold runRefine, zindex. rewrite Hi.
  destruct (Z.eqb_spec (lenOf (serviceCode input item)) 0) as [E0|E0].
  { split; [done|]. intros out [= <-]. split; cbn; [lia|by apply List.Forall_nil|by left|done|by rewrite E0|done]. }
  destruct (Z.ltb_spec MaxServiceCodeSize (lenOf (serviceCode input item))) as [E1|E1].
  { split; [done|]. intros out [= <-]. split; cbn; [lia|by apply List.Forall_nil|by left|done| |lia].
    by rewrite (proj2 (Z.eqb_neq _ _) E0), (proj2 (Z.ltb_lt _ _) E1). }
  destruct (mbind _ _) as [[argument code]|]; [|done].
  destruct (Psi_M_terminates (RefineOmegas spec emptyIsNil) (GSlice code []) 0 (wi_RefineGasLimit item) (GSlice argument []) (refineAddition input item)
    (tame_gas _ _ Ht) Hg) as [[[[g v] a]|] HM]; rewrite HM; [|done].
  pose proof (refineResult_cases v) as Hv. destruct (refineResult v) as [result output] eqn:Er. destruct Hv as [Hres Hout]. split; [done|].
  apply (Psi_M_refining _ _ Ht) in HM as [[_ Hsize Hcount _] Hle]; [|apply refining_start|done].
  intros out [= <-]. split; cbn [ro_Gas ro_ExportSegment ro_WorkResult ro_RefineOutput].
  - done.
  - by destruct result; try apply List.Forall_nil.
  - by destruct result; try (by left).
  - intros Hr. split; [by destruct result|by apply Hout].
  - by rewrite (proj2 (Z.eqb_neq _ _) E0), (proj2 (Z.ltb_ge _ _) E1).
  - done.
Qed.

(** An authorization ends within its gas, whatever the code; only a
    successful one has an output; without code it is BAD, with too much BIG. *)
Theorem Psi_I_spec p c code : let out := Psi_I spec p c code in
  runPsi_I spec (S (Z.to_nat IsAuthorizedGas)) c code = Some out /\
  forall r, out = Ret r -> 0 <= pi_Gas r <= IsAuthorizedGas /\ (pi_WorkExecResult r <> WorkExecResultOk -> pi_WorkOutput r = []) /\
    (lenOf code = 0 -> pi_WorkExecResult r = WorkExecResultBadCode) /\
    (MaxIsAuthorizedCodeSize < lenOf code -> pi_WorkExecResult r = WorkExecResultCodeOversize).
Proof.
  cbv zeta. unfold Psi_I, runPsi_I.
  destruct (Z.eqb_spec (lenOf code) 0) as [E0|E0]; [split; [done|]; intros r [= <-]; cbn [pi_Gas pi_WorkExecResult pi_WorkOutput]; split_and!; try done; unfold MaxIsAuthorizedCodeSize, IsAuthorizedGas in *; intros; lia|].
  destruct (Z.ltb_spec MaxIsAuthorizedCodeSize (lenOf code)) as [E1|E1]; [split; [done|]; intros r [= <-]; cbn [pi_Gas pi_WorkExecResult pi_WorkOutput]; split_and!; try done; unfold MaxIsAuthorizedCodeSize, IsAuthorizedGas in *; intros; lia|].
  destruct (enc_CoreIndex c) as [[argument|]|]; [|done..].
  assert (refining 0 (authorizeAddition c)) as Hs by (split; [done|by apply List.Forall_nil|by left|apply map_Forall_empty]).
  pose proof (authorize_table 0 spec) as Ht.
  destruct (Psi_M_terminates (IsAuthorizedOmegas spec) (GSlice code []) 0 IsAuthorizedGas (GSlice argument []) (authorizeAddition c)
    (tame_gas _ _ Ht) ltac:(done)) as [[[[g v] a]|] HM]; rewrite HM; [|done].
  pose proof (isAuthorizedResult_cases v) as Hv. destruct (isAuthorizedResult v) as [result output]. destruct Hv as [_ Hout]. split; [done|].
  apply (Psi_M_refining _ _ Ht) in HM as [_ Hle]; [|done..]. intros r [= <-]. cbn. split_and!; [lia|lia|done|lia|lia].
Qed.

End Theorems.
