(* ===== verification/HostCallsSpec.v ===== *)
(** * The host calls of an accumulation

    What the host calls do to the accounts: the search for a service
    identifier ends at a free one; every call but [new] keeps the sum of the
    balances and of the transfers; the recorded footprint of an account
    follows its maps. *)

From S2P Require Import Prelude Words ExitReasons Memory Interp Program Types Config Codec Encode Decoders.
From S2P Require Import InvocationSpec Host HostSpec Store StateSer OuterAccumulation OuterAccumulationSpec.
From S2P Require Import ServiceAccounts HostGeneral HostAccumulate AccumulateInvocation AccumulateInvocationSpec.
Local Open Scope Z_scope.

(** ** The search for an identifier *)

(** The identifiers the search runs through, in a circle. *)
Definition circle : Z := 2 ^ 32 - 2 ^ 8 - MinimumServiceIndex.
Definition candidate (i : Z) (k : nat) : Z := MinimumServiceIndex + (i - MinimumServiceIndex + Z.of_nat k) mod circle.
Definition assignable (i : Z) : Prop := MinimumServiceIndex <= i < MinimumServiceIndex + circle.

Lemma candidate_assignable i k : assignable (candidate i k).
Proof. unfold candidate, assignable. pose proof (Z.mod_pos_bound (i - MinimumServiceIndex + Z.of_nat k) circle ltac:(done)). lia. Qed.

Lemma candidate_0 i : assignable i -> candidate i 0 = i.
Proof. unfold candidate, assignable. intros Hi. rewrite Z.mod_small by lia. lia. Qed.

Lemma candidate_add i j k : candidate (candidate i j) k = candidate i (j + k).
Proof.
  unfold candidate. f_equal. replace (MinimumServiceIndex + (i - MinimumServiceIndex + Z.of_nat j) mod circle - MinimumServiceIndex)
    with ((i - MinimumServiceIndex + Z.of_nat j) mod circle) by lia. rewrite Zplus_mod_idemp_l. f_equal. lia.
Qed.

Lemma next_candidate i : assignable i -> nextServiceID i = candidate i 42.
Proof.
  intros Hi. unfold nextServiceID, candidate, assignable, circle, MinimumServiceIndex in *. rewrite (uN_small 32 (i - 65536 + 42)) by lia.
  change (Z.of_nat 42) with 42. replace (2 ^ 32 - 65536 - 2 ^ 8) with (2 ^ 32 - 2 ^ 8 - 65536) by lia.
  pose proof (Z.mod_pos_bound (i - 65536 + 42) (2 ^ 32 - 2 ^ 8 - 65536) ltac:(done)). by rewrite uN_small by lia.
Qed.

Lemma candidate_step i : assignable i ->
  u32 (u32 (i - MinimumServiceIndex + 1) mod (2 ^ 32 - 2 ^ 8 - MinimumServiceIndex) + MinimumServiceIndex) = candidate i 1.
Proof.
  intros Hi. unfold assignable, candidate, circle, MinimumServiceIndex in *. rewrite (uN_small 32 (i - 65536 + 1)) by lia.
  change (Z.of_nat 1) with 1. pose proof (Z.mod_pos_bound (i - 65536 + 1) (2 ^ 32 - 2 ^ 8 - 65536) ltac:(done)). rewrite uN_small by lia. lia.
Qed.

Lemma candidate_inj i j k : assignable i -> (Z.of_nat j < circle) -> (Z.of_nat k < circle) -> candidate i j = candidate i k -> j = k.
Proof.
  intros Hi Hj Hk E. unfold candidate, assignable in *. apply Z.add_cancel_l in E.
  assert ((Z.of_nat j - Z.of_nat k) mod circle = 0) as Hz.
  { replace (Z.of_nat j - Z.of_nat k) with ((i - MinimumServiceIndex + Z.of_nat j) - (i - MinimumServiceIndex + Z.of_nat k)) by lia.
    rewrite Zminus_mod, E, Z.sub_diag. done. }
  apply Z.mod_divide in Hz; [|done]. destruct Hz as [q Hq]. change circle with 4294901504 in *. lia.
Qed.

Section Check.
Context (d : ServiceAccountState).

Lemma check_exhausted fuel i : assignable i -> check fuel i d = None -> forall k, (k <= fuel)%nat -> is_Some (d !! candidate i k).
Proof.
  revert i. induction fuel as [|fuel IH]; intros i Hi; cbn [check]; destruct (d !! i) as [acc|] eqn:E.
  - intros _ k Hk. assert (k = 0%nat) as -> by lia. rewrite candidate_0 by done. eauto.
  - discriminate.
  - rewrite candidate_step by done. intros Hc [|k] Hk; [rewrite candidate_0 by done; eauto|].
    change (S k) with (1 + k)%nat. rewrite <- candidate_add. apply (IH (candidate i 1)); [apply candidate_assignable|done|lia].
  - discriminate.
Qed.

Lemma check_Some fuel i j : assignable i -> check fuel i d = Some j ->
  exists k, j = candidate i k /\ (k <= fuel)%nat /\ d !! j = None /\ forall l, (l < k)%nat -> is_Some (d !! candidate i l).
Proof.
  revert i. induction fuel as [|fuel IH]; intros i Hi; cbn [check]; destruct (d !! i) as [acc|] eqn:E; try by intros [=].
  - intros [= <-]. exists 0%nat. rewrite candidate_0 by done. split_and!; [done|lia|done|intros; lia].
  - rewrite candidate_step by done. intros Hc. apply IH in Hc as (k & -> & Hk & Hf & Hl); [|apply candidate_assignable].
    exists (S k). change (S k) with (1 + k)%nat. rewrite <- candidate_add. split_and!; [done|lia|done|].
    intros [|l] Hlk; [rewrite candidate_0 by done; eauto|]. change (S l) with (1 + l)%nat. rewrite <- candidate_add. apply Hl. lia.
  - intros [= <-]. exists 0%nat. rewrite candidate_0 by done. split_and!; [done|lia|done|intros; lia].
Qed.

(** The search for a service identifier ends: as long as not every
    identifier of the circle is taken, it stops, after at most as many steps
    as there are accounts, at the first identifier that is free. *)
Theorem check_first_free i : assignable i -> Z.of_nat (size d) < circle ->
  exists j k, check (size d) i d = Some j /\ j = candidate i k /\ assignable j /\ d !! j = None /\
    forall l, (l < k)%nat -> is_Some (d !! candidate i l).
Proof.
  intros Hi Hs. destruct (check (size d) i d) as [j|] eqn:E.
  - apply check_Some in E as (k & -> & _ & Hf & Hl); [|done]. exists (candidate i k), k. eauto using candidate_assignable.
  - exfalso. pose proof (check_exhausted _ _ Hi E) as Hall. set (ids := candidate i <$> seq 0 (S (size d))).
    assert (NoDup ids) as Hn.
    { apply NoDup_fmap_2_strong; [|apply NoDup_seq]. intros x y [_ Hx]%elem_of_seq [_ Hy]%elem_of_seq. apply candidate_inj; [done|lia..]. }
    assert (list_to_set ids ⊆ dom d) as Hsub.
    { intros x (k & -> & [_ Hk]%elem_of_seq)%elem_of_list_to_set%list_elem_of_fmap. apply elem_of_dom, Hall. lia. }
    apply subseteq_size in Hsub. rewrite size_list_to_set, size_dom in Hsub by done. unfold ids in Hsub. rewrite length_fmap, length_seq in Hsub. lia.
Qed.

End Check.

(** ** Sums over a map *)

Section Sum.
Context {K A : Type} `{Countable K} (f : K -> A -> Z).

Definition sumMap (m : gmap K A) : Z := map_fold (fun k x sum => sum + f k x) 0 m.

Lemma sumMap_insert k x m : sumMap (<[k := x]> m) = sumMap (delete k m) + f k x.
Proof using.
  rewrite <- insert_delete_eq. unfold sumMap. rewrite map_fold_insert_L; [done| |apply lookup_delete_eq].
  intros. lia.
Qed.

Lemma sumMap_delete k x m : m !! k = Some x -> sumMap m = sumMap (delete k m) + f k x.
Proof using. intros Hx. rewrite <- sumMap_insert. by rewrite insert_id. Qed.

Lemma sumMap_alter g k m : (forall x, m !! k = Some x -> f k (g x) = f k x) -> sumMap (alter g k m) = sumMap m.
Proof using.
  intros Hg. destruct (m !! k) as [x|] eqn:E; [|by rewrite alter_id by (intros y Hy; congruence)].
  assert (alter g k m = <[k := g x]> m) as ->.
  { apply map_eq. intros j. destruct (decide (j = k)) as [->|Hj]; [by rewrite lookup_alter_eq, lookup_insert_eq, E|by rewrite lookup_alter_ne, lookup_insert_ne]. }
  rewrite sumMap_insert, (Hg _ eq_refl). symmetry. by apply sumMap_delete.
Qed.

Lemma sumMap_nonneg m : (forall k x, m !! k = Some x -> 0 <= f k x) -> 0 <= sumMap m.
Proof using.
  intros Hm. unfold sumMap. induction m as [|k x m Hk _ IH] using map_first_key_ind; [by rewrite map_fold_empty|].
  rewrite map_fold_insert_L; [|intros; lia|done]. pose proof (Hm k x ltac:(by rewrite lookup_insert_eq)).
  specialize (IH (fun j y Hj => Hm j y ltac:(rewrite lookup_insert_ne; [done|congruence]))). lia.
Qed.

End Sum.

(** ** Tokens *)

Definition balanceOf (a : ServiceAccount) : Z := si_Balance (ac_ServiceInfo a).

(** The balances of the accounts and of the transfers under way. *)
Definition wealth (a : Args) : Z :=
  sumMap (fun _ acc => balanceOf acc) (accountsX a) + total (dt_Balance <$> xc_DeferredTransfers (ctxX a)).

(** The arguments in an accumulation: the account of the service is there,
    and the general arguments hold the same; the identifier for the next
    service is free. *)
Record sound (a : Args) : Prop := {
  sound_id : ga_ServiceID (gArgs a) = Some (own a);
  sound_own : exists acc, ga_ServiceAccount (gArgs a) = Some acc /\ accountsX a !! own a = Some acc;
  sound_balances : forall id acc, accountsX a !! id = Some acc -> 0 <= balanceOf acc;
  sound_transfers : Forall (fun t => 0 <= dt_Balance t) (xc_DeferredTransfers (ctxX a));
  sound_import : assignable (xc_ImportServiceID (ctxX a)) /\ accountsX a !! xc_ImportServiceID (ctxX a) = None }.

(** From sound arguments to sound ones, with the same tokens. *)
Definition keeps (a a' : Args) : Prop := sound a -> wealth a < 2 ^ 64 -> sound a' /\ wealth a' = wealth a.

#[export] Instance keeps_PreOrder : PreOrder keeps.
Proof.
  split; [by intros a|]. intros a b c Hab Hbc Hs Hw. destruct (Hab Hs Hw) as [Hb E]. destruct (Hbc Hb ltac:(lia)) as [Hc E']. split; [done|lia].
Qed.

(** Changes of other fields. *)
Lemma keeps_same a a' : accountsX a' = accountsX a -> gArgs a' = gArgs a -> own a' = own a ->
  xc_DeferredTransfers (ctxX a') = xc_DeferredTransfers (ctxX a) -> xc_ImportServiceID (ctxX a') = xc_ImportServiceID (ctxX a) -> keeps a a'.
Proof. intros E1 E2 E3 E4 E5 [] _. split; [split|unfold wealth]; rewrite ?E1, ?E2, ?E3, ?E4, ?E5; done. Qed.

(** The account of the service is replaced by one with another balance. *)
Lemma put_sound id s a : sound a -> id = own a -> 0 <= balanceOf s -> sound (putOwn id s a).
Proof.
  intros [Hi (acc & Hg & Ho) Hb Ht [Ha Hn]] -> Hs. assert (own a <> xc_ImportServiceID (ctxX a)) as Hne by congruence.
  split; [done| | |done|].
  - exists s. split; [done|]. apply lookup_insert_eq.
  - intros i x. change (accountsX (putOwn (own a) s a)) with (<[own a := s]> (accountsX a)). intros [[_ <-]|[_ Hx]]%lookup_insert_Some; [done|by eapply Hb].
  - split; [done|]. change (accountsX (putOwn (own a) s a)) with (<[own a := s]> (accountsX a)). by rewrite lookup_insert_ne.
Qed.

Lemma put_wealth s acc a : accountsX a !! own a = Some acc -> wealth (putOwn (own a) s a) = wealth a - balanceOf acc + balanceOf s.
Proof.
  intros Ho. unfold wealth. change (accountsX (putOwn (own a) s a)) with (<[own a := s]> (accountsX a)).
  change (xc_DeferredTransfers (ctxX (putOwn (own a) s a))) with (xc_DeferredTransfers (ctxX a)).
  rewrite sumMap_insert, (sumMap_delete _ _ _ _ Ho). lia.
Qed.

Lemma keeps_put id s a : (sound a -> id = own a /\ exists acc, accountsX a !! own a = Some acc /\ balanceOf s = balanceOf acc) -> keeps a (putOwn id s a).
Proof.
  intros Hp Hs _. destruct (Hp Hs) as [-> (acc & Ho & Hb)]. pose proof (sound_balances _ Hs _ _ Ho). split.
  - apply put_sound; [done|done|lia].
  - rewrite (put_wealth _ acc) by done. lia.
Qed.

Lemma keeps_touch id f a : (forall acc, balanceOf (f acc) = balanceOf acc) -> keeps a (touch id f a).
Proof.
  intros Hf Hs _. destruct Hs as [Hi (acc & Hg & Ho) Hb Ht [Ha Hn]].
  assert (accountsX (touch id f a) = alter f id (accountsX a)) as Eacc by (unfold touch; by destruct (bool_decide _)).
  assert (ctxX (touch id f a) = ctxX (onAccountsX (alter f id) a)) as Ectx by (unfold touch; by destruct (bool_decide _)).
  assert (own (touch id f a) = own a) as Eown by (unfold own; by rewrite Ectx).
  split; [split|].
  - rewrite Eown, <- Hi. unfold touch. by destruct (bool_decide _).
  - rewrite Eacc, Eown. unfold touch. change (gArgs (onAccountsX (alter f id) a)) with (gArgs a). rewrite Hi.
    destruct (decide (own a = id)) as [<-|Hne].
    + rewrite bool_decide_true by done. exists (f acc). split; [cbn; by rewrite Hg|]. by rewrite lookup_alter_eq, Ho.
    + rewrite bool_decide_false by congruence. exists acc. by rewrite lookup_alter_ne.
  - intros i x. rewrite Eacc, lookup_alter_Some. intros [(<- & y & Hy & ->)|[_ Hx]]; [rewrite Hf|]; by eapply Hb.
  - by rewrite Ectx.
  - rewrite Ectx, Eacc. split; [done|]. cbn. rewrite lookup_alter_None. done.
  - unfold wealth. rewrite Ectx, Eacc. f_equal. apply sumMap_alter. intros x _. apply Hf.
Qed.

Section Conserve.
Context `{HF : HashFunctions} (makeOK : Z -> bool) (spec : ChainSpec).

Definition conserving (o : Omega CallArgs) : Prop := forall op vm a r vm' a', o op vm a = Ret (r, vm', a') -> keeps a a'.

Lemma charged_keeps f : (forall vm a, ends keeps (vmGas vm) a (f vm a)) -> conserving (charged f).
Proof using.
  intros Hf op vm a r vm' a'. unfold charged. destruct (chargeGasAndCheck vm) as [vm1 [|] ]; [by intros [= <- <- <-]|].
  by intros (Hk & _)%Hf.
Qed.

Lemma load_keeps s key a a' ok : loadLookupTimeSlotSet makeOK s key a = Ret (a', ok) -> keeps a a'.
Proof using.
  intros ([v kvs] & _ & Hl)%go_bind_inv. cbv beta iota in Hl. assert (keeps a (SetStorageKeyVal kvs a)) as Hk by by apply keeps_same.
  destruct v as [v|]; [|by injection Hl as <- _]. apply go_bind_inv in Hl as ([ts|] & _ & Hl); [|by injection Hl as <- _].
  destruct (bool_decide _); [done|]. injection Hl as <- _. etrans; [exact Hk|]. by apply keeps_touch.
Qed.

Lemma deref_Ret {A} (p : option A) x : deref p = Ret x -> p = Some x.
Proof using. destruct p; cbn; congruence. Qed.

Lemma keeps_putOwn_same s acc a : accountsX a !! own a = Some acc -> balanceOf s = balanceOf acc -> keeps a (putOwn (own a) s a).
Proof using. intros Ho Hb. apply keeps_put. intros _. eauto. Qed.

Lemma keeps_move kvs id f a : (forall acc, balanceOf (f acc) = balanceOf acc) -> keeps a (SetStorageKeyVal kvs (touch id f a)).
Proof using. intros Hf. etrans; [by apply keeps_touch|]. by apply keeps_same. Qed.

Lemma keeps_assign c q s e a : assignCore c q s (stateX a) = Ret e -> keeps a (onStateX (fun _ => e) a).
Proof using. intros (x & _ & H)%go_bind_inv. apply go_bind_inv in H as (y & _ & [= <-]). by apply keeps_same. Qed.

Lemma keeps_put_move kvs id s a : (sound a -> id = own a /\ exists acc, accountsX a !! own a = Some acc /\ balanceOf s = balanceOf acc) ->
  keeps a (SetStorageKeyVal kvs (putOwn id s a)).
Proof using. intros Hp. etrans; [by apply keeps_put|]. by apply keeps_same. Qed.

Ltac keeps_solve :=
  first
    [ done
    | by apply keeps_same
    | by eapply load_keeps
    | by eapply keeps_putOwn_same
    | by apply keeps_move
    | by eapply keeps_assign
    | etrans; [by eapply load_keeps|]; keeps_solve ].

Ltac keeps_calls := apply charged_keeps; intros vm a; repeat ends_step; try keeps_solve.

Lemma wrap_keeps o : conserving o -> conserving (wrapWithG o).
Proof using.
  intros Ho op vm a r vm' a' ([[r1 vm1] a1] & H1 & [= <- <- <-])%go_bind_inv. etrans; [by eapply Ho|].
  intros Hs Hw. destruct (sound_own _ Hs) as (acc & _ & Hacc). apply keeps_same; try done. rewrite Hacc. cbn [default].
  change (accountsX (G acc a1)) with (<[own a1 := acc]> (accountsX a1)). by apply insert_id.
Qed.

Lemma gas_keeps : conserving (@Host.gas CallArgs).
Proof using.
  intros op vm a r vm' a'. unfold Host.gas. destruct (chargeGasAndCheck vm) as [vm1 [|] ]; [by intros [= <- <- <-]|].
  unfold vmSetReg. destruct (zupdate _ _ _); cbn; [by intros [= <- <- <-]|done].
Qed.

Lemma fetch_keeps : conserving (fetch spec). Proof using. keeps_calls. Qed.
Lemma lookup_keeps : conserving lookup. Proof using. keeps_calls. Qed.
Lemma read_keeps : conserving read. Proof using. keeps_calls. Qed.
Lemma info_keeps : conserving info. Proof using. keeps_calls. Qed.
Lemma log_keeps : conserving logHostCall. Proof using. keeps_calls. Qed.
Lemma bless_keeps : conserving (bless makeOK spec). Proof using. keeps_calls. Qed.
Lemma assign_keeps : conserving (assign makeOK spec). Proof using. keeps_calls. Qed.
Lemma designate_keeps : conserving (designate makeOK spec). Proof using. keeps_calls. Qed.
Lemma checkpoint_keeps : conserving checkpoint. Proof using. keeps_calls. Qed.
Lemma upgrade_keeps : conserving upgrade. Proof using. keeps_calls. Qed.
Lemma query_keeps : conserving (query makeOK). Proof using. keeps_calls. Qed.
Lemma yield_keeps : conserving yield. Proof using. keeps_calls. Qed.
Lemma provide_keeps : conserving (provide makeOK). Proof using. keeps_calls. Qed.

Lemma writeStorage_balance vm acc key items octets acc' :
  writeStorage vm acc key items octets = Ret (Some (inl acc')) -> balanceOf acc' = balanceOf acc.
Proof using.
  unfold writeStorage. destruct (_ =? 0); [by intros [= <-]|]. destruct (isReadable _ _ _); [|done].
  intros (v & _ & H)%go_bind_inv. unfold CalcStorageItemfootprint in H. cbv zeta in H. destruct (_ <? _); [done|]. by injection H as <-.
Qed.

Lemma write_keeps : conserving write.
Proof using.
  keeps_calls. apply keeps_put_move. intros Hs.
  repeat match goal with H : deref _ = Ret _ |- _ => apply deref_Ret in H end.
  destruct (sound_own _ Hs) as (acc & Hg & Ho). pose proof (sound_id _ Hs) as Hi. split; [congruence|]. exists acc. split; [done|].
  match goal with H : writeStorage _ _ _ _ _ = _ |- _ => apply writeStorage_balance in H end. congruence.
Qed.

Lemma solicit_balance acc key t acc' : processSolicitLookupData acc key t = inl acc' -> balanceOf acc' = balanceOf acc.
Proof using.
  unfold processSolicitLookupData, CalcLookupItemfootprint. destruct (ac_LookupDict acc !! key) as [[|x [|y [|z l]]]|]; try done; [by intros [= <-]|].
  cbv zeta. destruct (_ <? _); [done|]. by intros [= <-].
Qed.

Lemma forget_balance acc key t acc' : forgetLookup spec acc key t = Some acc' -> balanceOf acc' = balanceOf acc.
Proof using.
  unfold forgetLookup, CalcLookupItemfootprint. destruct (ac_LookupDict acc !! key) as [[|x [|y [|z [|w l]]]]|]; cbv zeta; try done;
    try (by intros [= <-]); destruct (expired _ _ _); try done; by intros [= <-].
Qed.

Lemma solicit_keeps : conserving (solicit makeOK).
Proof using.
  keeps_calls. etrans; [by eapply load_keeps|].
  match goal with H : deref _ = Ret _ |- _ => apply deref_Ret in H end. eapply keeps_putOwn_same; [done|by eapply solicit_balance].
Qed.

Lemma forget_keeps : conserving (forget makeOK spec).
Proof using.
  keeps_calls. etrans; [by eapply load_keeps|].
  match goal with H : deref _ = Ret _ |- _ => apply deref_Ret in H end. eapply keeps_putOwn_same; [done|by eapply forget_balance].
Qed.

(** ** Calls that move tokens *)

Lemma transfers_nonneg a : sound a -> 0 <= total (dt_Balance <$> xc_DeferredTransfers (ctxX a)).
Proof using.
  intros [_ _ _ Ht _]. unfold total. induction (xc_DeferredTransfers (ctxX a)) as [|t l IH]; [done|]. apply Forall_cons in Ht as [? ?].
  cbn. specialize (IH H0). cbn in IH. lia.
Qed.

Lemma balance_le a id acc : sound a -> accountsX a !! id = Some acc -> balanceOf acc <= wealth a.
Proof using.
  intros Hs Ho. pose proof (transfers_nonneg _ Hs). unfold wealth. rewrite (sumMap_delete _ _ _ _ Ho).
  assert (0 <= sumMap (fun _ acc => balanceOf acc) (delete id (accountsX a))); [|lia].
  apply sumMap_nonneg. intros k x [_ Hx]%lookup_delete_Some. by eapply sound_balances.
Qed.

Lemma keeps_eject d accD accS a : d <> own a -> accountsX a !! d = Some accD -> accountsX a !! own a = Some accS ->
  keeps a (onAccountsX (delete d) (putOwn (own a) (SetBalance (u64 (balanceOf accS + balanceOf accD)) accS) a)).
Proof using.
  intros Hd HD HS Hs Hw. pose proof (sound_balances _ Hs _ _ HD) as H1. pose proof (sound_balances _ Hs _ _ HS) as H2.
  pose proof (transfers_nonneg _ Hs) as H3. set (rest := sumMap (fun _ acc => balanceOf acc) (delete d (delete (own a) (accountsX a)))).
  assert (wealth a = rest + balanceOf accD + balanceOf accS + total (dt_Balance <$> xc_DeferredTransfers (ctxX a))) as Ew.
  { unfold wealth. rewrite (sumMap_delete _ _ _ _ HS), (sumMap_delete _ d accD); [done|]. by rewrite lookup_delete_ne. }
  assert (0 <= rest) as H0.
  { apply sumMap_nonneg. intros k x [_ [_ Hx]%lookup_delete_Some]%lookup_delete_Some. by eapply sound_balances. }
  assert (u64 (balanceOf accS + balanceOf accD) = balanceOf accS + balanceOf accD) as Eu by (apply uN_small; lia).
  set (s := SetBalance (u64 (balanceOf accS + balanceOf accD)) accS).
  assert (balanceOf s = balanceOf accS + balanceOf accD) as Es by exact Eu.
  pose proof (put_sound (own a) s a Hs eq_refl ltac:(lia)) as Hp.
  assert (own (putOwn (own a) s a) = own a) as Eo by done. split.
  - destruct Hp as [Hi (acc & Hg & Ho) Hb Ht [Ha Hn]]. split; [done| | |done|].
    + exists acc. split; [done|]. change (accountsX (onAccountsX (delete d) (putOwn (own a) s a))) with (delete d (accountsX (putOwn (own a) s a))).
      rewrite Eo in Ho. by rewrite lookup_delete_ne.
    + intros k x. change (accountsX (onAccountsX (delete d) (putOwn (own a) s a))) with (delete d (accountsX (putOwn (own a) s a))).
      intros [_ Hx]%lookup_delete_Some. by eapply Hb.
    + split; [done|]. change (accountsX (onAccountsX (delete d) (putOwn (own a) s a))) with (delete d (accountsX (putOwn (own a) s a))).
      by apply lookup_delete_None; right.
  - rewrite Ew. unfold wealth. change (accountsX (onAccountsX (delete d) (putOwn (own a) s a))) with (delete d (<[own a := s]> (accountsX a))).
    change (xc_DeferredTransfers _) with (xc_DeferredTransfers (ctxX a)) at 1. rewrite delete_insert_ne by done. rewrite sumMap_insert, delete_delete, Es.
    fold rest. lia.
Qed.

Lemma eject_keeps : conserving (eject spec).
Proof using.
  keeps_calls. apply (keeps_eject _ s); [|done|done].
  match goal with H : (_ =? own a) = false |- _ => by apply Z.eqb_neq in H end.
Qed.

Lemma keeps_transfer t s acc a : accountsX a !! own a = Some acc -> 0 <= dt_Balance t <= balanceOf acc ->
  balanceOf s = balanceOf acc - dt_Balance t -> keeps a (appendTransfer t (putOwn (own a) s a)).
Proof using.
  intros Ho Ht Hb Hs _. pose proof (put_sound (own a) s a Hs eq_refl ltac:(lia)) as [Hi Hown Hbal Htr Himp]. split.
  - split; [done|done|done| |done]. apply Forall_app. split; [done|]. apply Forall_singleton. lia.
  - pose proof (put_wealth s acc a Ho) as Hw. unfold wealth in *.
    change (accountsX (appendTransfer t (putOwn (own a) s a))) with (accountsX (putOwn (own a) s a)).
    change (xc_DeferredTransfers (ctxX (appendTransfer t (putOwn (own a) s a)))) with (xc_DeferredTransfers (ctxX (putOwn (own a) s a)) ++ [t]).
    rewrite fmap_app, total_app. unfold total at 2. cbn [fmap list_fmap foldr]. lia.
Qed.

Lemma payTransfer_args l vm a r vm' a' : payTransfer l vm a = Ret (r, vm', a') -> a' = a.
Proof using. unfold payTransfer. destruct (_ <? l); by intros [= _ _ <-]. Qed.

Lemma transfer_keeps : conserving transfer.
Proof using.
  intros op vm a r vm' a'. unfold transfer, charged. destruct (chargeGasAndCheck vm) as [vm1 [|] ]; [by intros [= <- <- <-]|]. cbv zeta.
  destruct (negb _); [by intros [= <- <- <-]|]. intros (memo & _ & Hx)%go_bind_inv. destruct (accountsX a !! _) as [d|]; [|by injection Hx as <- <- <-].
  destruct (_ <? _); [by injection Hx as <- <- <-|]. destruct (accountsX a !! own a) as [acc|] eqn:Ho; [|by apply payTransfer_args in Hx as ->].
  destruct (_ || _) eqn:Hc; [by injection Hx as <- <- <-|]. apply payTransfer_args in Hx as ->.
  apply orb_false_iff in Hc as [_ Hc]. apply Z.ltb_ge in Hc.
  intros Hs Hw. pose proof (sound_balances _ Hs _ _ Ho) as Hb. fold (balanceOf acc) in *.
  pose proof (uN_range 64 (default 0 (zlookup (vmRegisters vm1) 8)) ltac:(lia)) as Hr. fold (HostGeneral.reg vm1 8) in Hr.
  pose proof (balance_le _ _ _ Hs Ho) as Hle.
  assert (u64 (balanceOf acc - HostGeneral.reg vm1 8) = balanceOf acc - HostGeneral.reg vm1 8) as Eu by (apply uN_small; lia).
  revert Hs Hw. apply (keeps_transfer _ _ acc); [done|cbn [dt_Balance]; lia|exact Eu].
Qed.

(** ** A new service *)

(** The token that a new service with a code of [l] octets takes. *)
Definition deposit (l : Z) : Z := 201 + l.

Lemma newAccount_balance a c l g m : 0 <= l < 2 ^ 32 -> balanceOf (newAccount a c l g m) = deposit l.
Proof using.
  intros Hl. unfold newAccount, GetServiceAccountDerivatives, balanceOf, CalcKeys, CalcOctets. cbn [ac_ServiceInfo si_Balance sd_Minbalance si_DepositOffset ac_LookupDict ac_StorageDict].
  rewrite map_size_singleton, map_fold_singleton, map_size_empty, !map_fold_empty. cbn [lk_Length].
  rewrite (uN_small 32 l) by lia. unfold CalcThresholdBalance, deposit, BasicMinBalance, AdditionalMinBalancePerItem, AdditionalMinBalancePerOctet.
  rewrite (uN_small 64 (0 + (81 + l) + 0)) by lia. change (u32 (2 * Z.of_nat 1 + Z.of_nat 0)) with 2. change (u32 (10 * 2)) with 20.
  change (u64 (100 + 20)) with 120. rewrite (uN_small 64 (1 * _)) by lia. rewrite (uN_small 64 (120 + _)) by lia.
  destruct (Z.ltb_spec (120 + 1 * (0 + (81 + l) + 0)) 0); lia.
Qed.

Lemma putNew_tokens i account s acc a a' : sound a -> accountsX a !! own a = Some acc -> accountsX a !! i = None ->
  i <> xc_ImportServiceID (ctxX a) -> 0 <= balanceOf account -> 0 <= balanceOf s -> putNew i account (own a) s a = Ret a' ->
  sound a' /\ wealth a' = wealth a + balanceOf account + balanceOf s - balanceOf acc.
Proof using.
  intros Hs Ho Hfree Hi Hb1 Hb2. pose proof Hs as [Hid (acc' & Hg & Ho') Hbal Ht [Ha Hn]].
  unfold putNew. rewrite Hid. cbn [deref mbind go_bind]. rewrite Z.eqb_refl. set (a1 := onAccountsX (insert i account) a).
  assert (i <> own a) as Hio by congruence.
  assert (accountsX a1 = <[i := account]> (accountsX a)) as E1 by done. assert (own a1 = own a) as E2 by done.
  assert (sound a1) as Hs1.
  { split; [done| | |done|].
    - exists acc'. split; [done|]. rewrite E1, E2. by rewrite lookup_insert_ne.
    - intros k x. rewrite E1. intros [[_ <-]|[_ Hx]]%lookup_insert_Some; [done|by eapply Hbal].
    - split; [done|]. rewrite E1. by rewrite lookup_insert_ne. }
  rewrite <- E2. intros [= <-]. split; [by apply put_sound|].
  rewrite (put_wealth s acc a1) by (rewrite E1, E2; by rewrite lookup_insert_ne). unfold wealth. rewrite E1.
  change (ctxX a1) with (ctxX (onAccountsX (insert i account) a)). change (xc_DeferredTransfers (ctxX (onAccountsX (insert i account) a))) with (xc_DeferredTransfers (ctxX a)).
  rewrite sumMap_insert, delete_id by done. lia.
Qed.

(** What the [uint64] difference of the balances adds to the tokens. *)
Lemma new_difference b l : 0 <= b < 2 ^ 64 -> 0 <= l < 2 ^ 32 -> u64 (b - deposit l) + deposit l - b = if b <? deposit l then 2 ^ 64 else 0.
Proof using.
  intros Hb Hl. unfold deposit. destruct (Z.ltb_spec b (201 + l)).
  - unfold u64, uN. rewrite <- (Z.mod_unique (b - (201 + l)) (2 ^ 64) (-1) (b - (201 + l) + 2 ^ 64)); lia.
  - rewrite (uN_small 64) by lia. lia.
Qed.

Lemma sound_import_next a j k : sound a -> Z.of_nat (size (accountsX a)) < 2 ^ 31 ->
  check (size (accountsX a)) (nextServiceID (xc_ImportServiceID (ctxX a))) (accountsX a) = Some j -> k = xc_ImportServiceID (ctxX a) ->
  sound (SetImportServiceID j a) /\ k <> j.
Proof using.
  intros Hs Hsize Hc ->. pose proof Hs as [H1 H2 H3 H4 [Ha Hn]]. rewrite next_candidate in Hc by done.
  apply check_Some in Hc as (n & -> & Hn' & Hf & _); [|apply candidate_assignable]. split.
  - split; [done..|]. split; [apply candidate_assignable|done].
  - rewrite candidate_add. intros E. rewrite <- (candidate_0 _ Ha) in E at 1.
    apply candidate_inj in E; [lia|done|done|]. change circle with 4294901504. lia.
Qed.

(** C19: [new] keeps the sum of the tokens, or, if the balance of the service
    is less than the deposit of the new one, adds [2^64] to it: the
    difference of the balances wraps and then passes the check. *)
Theorem new_tokens op vm a r vm' a' : sound a -> wealth a < 2 ^ 64 -> Z.of_nat (size (accountsX a)) < 2 ^ 31 ->
  new op vm a = Ret (r, vm', a') ->
  sound a' /\ (wealth a' = wealth a \/
    exists acc, accountsX a !! own a = Some acc /\ balanceOf acc < deposit (HostGeneral.reg vm 8) /\ wealth a' = wealth a + 2 ^ 64).
Proof using.
  intros Hs Hw Hsize. unfold new, charged. destruct (chargeGasAndCheck vm) as [vm1 oog] eqn:Eg.
  assert (vmRegisters vm1 = vmRegisters vm) as Er by by injection Eg as <- _.
  assert (HostGeneral.reg vm1 8 = HostGeneral.reg vm 8) as E8 by (unfold HostGeneral.reg; by rewrite Er). rewrite <- E8. clear Eg.
  destruct oog; [intros [= <- <- <-]; auto|]. cbv zeta.
  destruct (negb (_ && _)) eqn:Hc; [intros [= <- <- <-]; auto|]. apply negb_false_iff, andb_true_iff in Hc as [_ Hl]. apply Z.ltb_lt in Hl.
  destruct (_ && _); [intros [= <- <- <-]; auto|]. intros (c & _ & Hx)%go_bind_inv.
  destruct (sound_own _ Hs) as (acc & _ & Ho). rewrite Ho in Hx. cbn [default] in Hx.
  pose proof (uN_range 64 (default 0 (zlookup (vmRegisters vm1) 8)) ltac:(lia)) as Hr. fold (HostGeneral.reg vm1 8) in Hr.
  pose proof (newAccount_balance a c (HostGeneral.reg vm1 8) (HostGeneral.reg vm1 9) (HostGeneral.reg vm1 10) ltac:(lia)) as Hd.
  set (account := newAccount a c _ _ _) in *. change (si_Balance (ac_ServiceInfo account)) with (balanceOf account) in Hx.
  change (si_Balance (ac_ServiceInfo acc)) with (balanceOf acc) in Hx. rewrite Hd in Hx. set (l := HostGeneral.reg vm1 8) in *.
  destruct (_ <? CalcThresholdBalance _ _ _); [injection Hx as <- <- <-; auto|].
  destruct (_ && bool_decide _) eqn:Hfull; [injection Hx as <- <- <-; auto|].
  set (s := SetBalance (u64 (balanceOf acc - deposit l)) acc) in *.
  pose proof (sound_balances _ Hs _ _ Ho) as Hb. pose proof (balance_le _ _ _ Hs Ho) as Hle.
  assert (0 <= balanceOf s) as Hs0 by (change (balanceOf s) with (u64 (balanceOf acc - deposit l)); apply uN_range; lia).
  assert (0 <= balanceOf account) as Ha0 by (rewrite Hd; unfold deposit; lia).
  assert (sound a' /\ wealth a' = wealth a + balanceOf account + balanceOf s - balanceOf acc) as [Hs' Hw'].
  2: { split; [done|]. pose proof (new_difference (balanceOf acc) l ltac:(lia) ltac:(lia)) as Hn. change (balanceOf s) with (u64 (balanceOf acc - deposit l)) in Hw'.
       destruct (Z.ltb_spec (balanceOf acc) (deposit l)); [right; exists acc; split_and!; [done|done|lia]|left; lia]. }
  destruct ((own a =? _) && _) eqn:Hreg.
  - apply andb_true_iff in Hreg as [_ Hi]. apply Z.ltb_lt in Hi. apply bool_decide_eq_false in Hfull. apply go_bind_inv in Hx as (a1 & Hp & [= <- <- <-]). eapply putNew_tokens; try done; [by apply eq_None_not_Some|].
    destruct (sound_import _ Hs) as [[Hmin _] _]. pose proof (uN_range 64 (default 0 (zlookup (vmRegisters vm1) 12)) ltac:(lia)) as Hr12. fold (HostGeneral.reg vm1 12) in Hr12.
    unfold MinimumServiceIndex in *. rewrite (uN_small 32) by lia. lia.
  - destruct (check _ _ _) as [j|] eqn:Hj; [|done]. apply go_bind_inv in Hx as (a1 & Hp & [= <- <- <-]).
    destruct (sound_import_next a j _ Hs Hsize Hj eq_refl) as [Hs1 Hne]. destruct (sound_import _ Hs) as [_ Hfree].
    by apply (putNew_tokens (xc_ImportServiceID (ctxX a)) account s acc (SetImportServiceID j a)).
Qed.

#[local] Hint Resolve wrap_keeps gas_keeps fetch_keeps lookup_keeps read_keeps write_keeps info_keeps bless_keeps assign_keeps designate_keeps
  checkpoint_keeps upgrade_keeps transfer_keeps eject_keeps query_keeps solicit_keeps forget_keeps yield_keeps provide_keeps log_keeps : host_calls.

Lemma table_keeps : Forall (fun o => match o with Some omega => conserving omega | None => True end) (<[18%nat := None]> (AccumulateOmegas makeOK spec)).
Proof using.
  unfold AccumulateOmegas. cbn [replicate app insert list_insert]. rewrite !Forall_cons, Forall_nil. split_and!; try done. all: eauto with host_calls.
Qed.

(** C7: the host calls of an accumulation, all but [new] (number 18), keep
    the sum of the balances of all accounts and of the transfers under way,
    whatever they return: a transfer takes what it sends, an ejected
    account leaves its balance to the service, and nothing else moves
    tokens. *)
Theorem host_calls_conserve n omega op vm a r vm' a' :
  AccumulateOmegas makeOK spec !! n = Some (Some omega) -> n <> 18%nat -> omega op vm a = Ret (r, vm', a') ->
  sound a -> wealth a < 2 ^ 64 -> sound a' /\ wealth a' = wealth a.
Proof using.
  intros Hn Hne Hc. assert ((<[18%nat := None]> (AccumulateOmegas makeOK spec)) !! n = Some (Some omega)) as Hl.
  { etrans; [by apply list_lookup_insert_ne|done]. }
  pose proof (proj1 (Forall_lookup _ _) table_keeps _ _ Hl) as Hk. exact (Hk _ _ _ _ _ _ Hc).
Qed.

(** An accumulation starts with sound arguments. *)
Lemma addition_sound e tau s acc items eta kvs a : pt_ServiceAccounts e !! s = Some acc ->
  (forall id x, pt_ServiceAccounts e !! id = Some x -> 0 <= balanceOf x) -> Z.of_nat (size (pt_ServiceAccounts e)) < circle ->
  addition e tau s acc items eta kvs = Ret a -> sound a /\ own a = s /\ accountsX a = pt_ServiceAccounts e.
Proof using.
  intros Ho Hb Hs (x & Hx & [= <-])%go_bind_inv. unfold I in Hx. apply go_bind_inv in Hx as ([id|] & _ & Hx); [|done].
  assert (assignable (u32 (id mod (2 ^ 32 - MinimumServiceIndex - 2 ^ 8) + MinimumServiceIndex))) as Hid.
  { unfold assignable, circle, MinimumServiceIndex. pose proof (Z.mod_pos_bound id (2 ^ 32 - 65536 - 2 ^ 8) ltac:(done)). rewrite (uN_small 32) by lia. lia. }
  destruct (check_first_free _ _ Hid Hs) as (j & k & Hj & _ & Ha & Hf & _). rewrite Hj in Hx. injection Hx as <-.
  split_and!; [|done|done]. split; [done|by exists acc|exact Hb|by apply List.Forall_nil|done].
Qed.

End Conserve.

(** ** Footprints *)

(** What the recorded items and octets count beyond the maps of the account:
    the entries that are among the unmatched pairs. *)
Definition unlisted (a : ServiceAccount) : Z * Z :=
  (u32 (si_Items (ac_ServiceInfo a) - CalcKeys a), u64 (si_Bytes (ac_ServiceInfo a) - CalcOctets a)).

Definition lookupOctets (d : gmap LookupMetaMapkey (list Z)) : Z := sumMap (fun key _ => 81 + lk_Length key) d.
Definition storageOctets (d : gmap Bytes Bytes) : Z := sumMap (fun x y => 34 + lenOf y + lenOf x) d.

Lemma unlisted_eq a : unlisted a =
  (u32 (si_Items (ac_ServiceInfo a) - (2 * Z.of_nat (size (ac_LookupDict a)) + Z.of_nat (size (ac_StorageDict a)))),
   u64 (si_Bytes (ac_ServiceInfo a) - (lookupOctets (ac_LookupDict a) + storageOctets (ac_StorageDict a)))).
Proof. unfold unlisted, CalcKeys, CalcOctets. f_equal; apply Zminus_mod_idemp_r. Qed.

(** The recorded footprint changes with the maps by [k] items and [o] octets. *)
Lemma unlisted_moves a a' k o : 
  (si_Items (ac_ServiceInfo a') - si_Items (ac_ServiceInfo a) - k) mod 2 ^ 32 = 0 ->
  (si_Bytes (ac_ServiceInfo a') - si_Bytes (ac_ServiceInfo a) - o) mod 2 ^ 64 = 0 ->
  2 * Z.of_nat (size (ac_LookupDict a')) + Z.of_nat (size (ac_StorageDict a')) = 2 * Z.of_nat (size (ac_LookupDict a)) + Z.of_nat (size (ac_StorageDict a)) + k ->
  lookupOctets (ac_LookupDict a') + storageOctets (ac_StorageDict a') = lookupOctets (ac_LookupDict a) + storageOctets (ac_StorageDict a) + o ->
  unlisted a' = unlisted a.
Proof.
  intros Hi Hb Hk Ho. rewrite !unlisted_eq, Hk, Ho. f_equal.
  - apply Z.mod_divide in Hi as [q Hq]; [|done]. unfold u32, uN. rewrite <- (Z_mod_plus_full _ (- q) (2 ^ 32)). f_equal. lia.
  - apply Z.mod_divide in Hb as [q Hq]; [|done]. unfold u64, uN. rewrite <- (Z_mod_plus_full _ (- q) (2 ^ 64)). f_equal. lia.
Qed.

Lemma size_storage (k v : Bytes) (d : gmap Bytes Bytes) : Z.of_nat (size (<[k := v]> d)) = Z.of_nat (size (delete k d)) + 1.
Proof. rewrite <- insert_delete_eq, map_size_insert_None by apply lookup_delete_eq. lia. Qed.

Lemma size_listed {K A} `{Countable K} k (x : A) (d : gmap K A) : d !! k = Some x -> Z.of_nat (size d) = Z.of_nat (size (delete k d)) + 1.
Proof. intros Hx. rewrite map_size_delete_Some by eauto. pose proof (map_size_ne_0_lookup_2 d k ltac:(eauto)). lia. Qed.

Lemma wrap_sum n x y : (uN n (x + y) - x - y) mod 2 ^ n = 0.
Proof. unfold uN. rewrite <- Z.sub_add_distr, Zminus_mod_idemp_l, Z.sub_diag. apply Zmod_0_l. Qed.

Lemma wrap_sum' n x y z : (uN n (x + uN n (z + y)) - x - (z + y)) mod 2 ^ n = 0.
Proof. unfold uN. rewrite Zplus_mod_idemp_r, <- Z.sub_add_distr, Zminus_mod_idemp_l, Z.sub_diag. apply Zmod_0_l. Qed.

Lemma wrap_diff n x y : 0 <= n -> (x - uN n (x - y) - y) mod 2 ^ n = 0.
Proof.
  intros Hn. replace (x - uN n (x - y) - y) with ((x - y) / 2 ^ n * 2 ^ n) by (unfold uN; pose proof (Z.div_mod (x - y) (2 ^ n)); lia).
  apply Z.mod_mul. lia.
Qed.

Lemma wrap_diff' n x y z : 0 <= n -> (x - uN n (x - uN n (z + y)) - (z + y)) mod 2 ^ n = 0.
Proof. intros Hn. replace (uN n (x - uN n (z + y))) with (uN n (x - (z + y))); [by apply wrap_diff|]. unfold uN. by rewrite Zminus_mod_idemp_r. Qed.

Lemma wrap_back n x y : 0 <= n -> (uN n (uN n (x - y) + y) - x) mod 2 ^ n = 0.
Proof. intros Hn. unfold uN. rewrite Zplus_mod_idemp_l, Zminus_mod_idemp_l. replace (x - y + y - x) with 0 by lia. apply Zmod_0_l. Qed.

Lemma wrap_swap n x y z : uN n (uN n (x - y) - z) = uN n (uN n (x - z) - y).
Proof. unfold uN. rewrite !Zminus_mod_idemp_l. f_equal. lia. Qed.

(** The account without the entry of a key. *)
Definition withoutKey (key : Bytes) (items octets : Z) (a : ServiceAccount) : ServiceAccount :=
  SetFootprint (u32 (si_Items (ac_ServiceInfo a) - items)) (u64 (si_Bytes (ac_ServiceInfo a) - octets)) (SetStorage (delete key) a).

(** The account with the value of the key that the registers give: none, or
    what the memory holds. *)
Definition storedValue (vm : VMState) (key : Bytes) (acc acc' : ServiceAccount) : Prop :=
  (exists items octets f, acc' = SetFootprint items octets (SetStorage f acc)) /\
  if decide (reg vm 10 = 0) then ac_StorageDict acc' = delete key (ac_StorageDict acc)
  else exists v, Read (vmMemory vm) (reg vm 9) (reg vm 10) = Ret v /\ ac_StorageDict acc' = <[key := v]> (ac_StorageDict acc).

(** A value is stored that the balance does not cover. *)
Definition uncovered (vm : VMState) (acc : ServiceAccount) : Prop := let i := ac_ServiceInfo acc in
  reg vm 10 <> 0 /\ si_Balance i < CalcThresholdBalance (si_Items i) (si_Bytes i) (si_DepositOffset i).
#[global] Instance uncovered_dec vm acc : Decision (uncovered vm acc).
Proof. unfold uncovered. apply _. Defined.

Lemma writeStorage_cases vm acc key items octets r : writeStorage vm acc key items octets = Ret (Some r) ->
  exists acc', storedValue vm key acc acc' /\ unlisted acc' = unlisted (withoutKey key items octets acc) /\
    r = if decide (uncovered vm acc') then inr FULL else inl acc'.
Proof.
  unfold writeStorage, storedValue, uncovered. destruct (Z.eqb_spec (reg vm 10) 0) as [Hz|Hz].
  { intros [= <-]. eexists. split_and!; [do 3 eexists; reflexivity|by rewrite decide_True|reflexivity|]. rewrite decide_False; [done|]. tauto. }
  destruct (isReadable _ _ _); [|done]. intros (v & Ev & H)%go_bind_inv. unfold CalcStorageItemfootprint in H. cbv beta iota zeta in H.
  match type of H with (if _ then _ else Ret (Some (inl ?x))) = _ => exists x end. split_and!; [do 3 eexists; reflexivity| | |].
  - rewrite decide_False by done. by exists v.
  - apply (unlisted_moves _ _ 1 (34 + lenOf key + lenOf v)).
    + apply wrap_sum.
    + cbn. unfold u64. rewrite <- Z.add_assoc. apply wrap_sum'.
    + cbn. rewrite size_storage. lia.
    + cbn [ac_LookupDict ac_StorageDict withoutKey SetFootprint SetInfo SetStorage]. unfold storageOctets. rewrite sumMap_insert. lia.
  - revert H. destruct (Z.ltb_spec (si_Balance (ac_ServiceInfo acc))
      (CalcThresholdBalance (u32 (u32 (si_Items (ac_ServiceInfo acc) - items) + 1))
        (u64 (u64 (si_Bytes (ac_ServiceInfo acc) - octets) + u64 (34 + lenOf key + lenOf v))) (si_DepositOffset (ac_ServiceInfo acc)))) as [Hl|Hl];
      intros [= <-]; [by rewrite decide_True|]. rewrite decide_False; [done|]. cbn. intros [_ ?]. lia.
Qed.

(** Without the entry the account counts what it did, or less the entry if
    that was among the unmatched pairs. *)
Lemma withoutKey_unlisted key acc pair : let old := match ac_StorageDict acc !! key with Some value => Some value | None => pair end in
  let '(items, octets) := match old with Some value => CalcStorageItemfootprint key value | None => (0, 0) end in
  unlisted (withoutKey key items octets acc) = match ac_StorageDict acc !! key, pair with
    | None, Some value => (u32 (fst (unlisted acc) - 1), u64 (snd (unlisted acc) - (34 + lenOf key + lenOf value)))
    | _, _ => unlisted acc
    end.
Proof.
  cbv zeta. destruct (ac_StorageDict acc !! key) as [value|] eqn:E; [|destruct pair as [value|]]; unfold CalcStorageItemfootprint.
  - symmetry. apply (unlisted_moves _ _ 1 (34 + lenOf key + lenOf value)); cbn [withoutKey SetFootprint SetInfo SetStorage ac_ServiceInfo ac_LookupDict ac_StorageDict si_Items si_Bytes].
    + exact (wrap_diff 32 _ 1 ltac:(lia)).
    + exact (wrap_diff' 64 _ (lenOf value) (34 + lenOf key) ltac:(lia)).
    + rewrite (size_listed _ _ _ E). lia.
    + unfold storageOctets. rewrite (sumMap_delete _ _ _ _ E). lia.
  - rewrite !unlisted_eq. cbn [withoutKey SetFootprint SetInfo SetStorage ac_ServiceInfo ac_LookupDict ac_StorageDict si_Items si_Bytes fst snd].
    rewrite delete_id by done. f_equal; [apply wrap_swap|]. rewrite wrap_swap. unfold u64, uN. by rewrite Zminus_mod_idemp_r.
  - rewrite !unlisted_eq. cbn [withoutKey SetFootprint SetInfo SetStorage ac_ServiceInfo ac_LookupDict ac_StorageDict si_Items si_Bytes].
    rewrite delete_id, !Z.sub_0_r by done. unfold u32, u64, uN. by rewrite !Zminus_mod_idemp_l.
Qed.

(** C25: The host call [write] keeps the recorded footprint in step with the
    storage. When it continues, the key that it read has in the account of
    the service the value that it read, or none; the account counts beyond
    its maps what it did before, without the entry of the key if that was
    among the unmatched pairs, from which it is removed; and the answer is
    the length of the old value, or NONE. If the balance is below the
    threshold of the new footprint, nothing changes and the answer is FULL. *)
Theorem write_footprint `{HashFunctions} op vm a vm' a' : write op vm a = Ret (ExitContinue, vm', a') -> exists key serviceID acc pair kvs acc',
  Read (vmMemory vm) (reg vm 7) (reg vm 8) = Ret key /\ ga_ServiceID (gArgs a) = Some serviceID /\ ga_ServiceAccount (gArgs a) = Some acc /\
  getStorageFromKeyVal (xc_StorageKeyVal (ctxX a)) serviceID key = Ret pair /\
  removeStorageFromKeyVal (xc_StorageKeyVal (ctxX a)) serviceID key = Ret kvs /\
  storedValue vm key acc acc' /\
  unlisted acc' = match ac_StorageDict acc !! key, pair with
    | None, Some value => (u32 (fst (unlisted acc) - 1), u64 (snd (unlisted acc) - (34 + lenOf key + lenOf value)))
    | _, _ => unlisted acc
    end /\
  let answer (x : Z) := vmRegisters vm' = <[7%nat := x]> (vmRegisters vm) in
  if decide (uncovered vm acc') then a' = a /\ answer FULL
  else a' = SetStorageKeyVal kvs (putOwn serviceID acc' a) /\
    answer (match ac_StorageDict acc !! key, pair with Some value, _ | None, Some value => lenOf value | None, None => NONE end).
Proof.
  unfold write, charged, chargeGasAndCheck. cbv beta iota zeta. destruct (_ <? 0); [done|]. cbn [vmMemory vmRegisters].
  change (reg (MkVM (vmRegisters vm) ?m ?g)) with (reg vm). destruct (negb _); [done|]. intros (key & Ek & E)%go_bind_inv.
  apply go_bind_inv in E as (serviceID & Es & E). apply go_bind_inv in E as (acc & Ea & E). apply go_bind_inv in E as (pair & Ep & E).
  assert (forall {A} (p : option A) x, deref p = Ret x -> p = Some x) as Hd by (by intros A [y|] x [= ->]).
  apply Hd in Es, Ea. pose proof (withoutKey_unlisted key acc pair) as Hu. cbv zeta in Hu, E.
  set (old := match ac_StorageDict acc !! key with Some _ => _ | None => _ end) in *.
  destruct (match old with Some _ => _ | None => _ end) as [items octets]. apply go_bind_inv in E as ([r|] & Er & E); [|done].
  apply writeStorage_cases in Er as (acc' & Hs & Hn & ->). change (storedValue (MkVM _ _ _)) with (storedValue vm) in Hs.
  change (uncovered (MkVM _ _ _)) with (uncovered vm) in E. rewrite Hu in Hn. clear Hu.
  assert (exists kvs, removeStorageFromKeyVal (xc_StorageKeyVal (ctxX a)) serviceID key = Ret kvs) as [kvs Ekvs].
  { unfold getStorageFromKeyVal, removeStorageFromKeyVal in *. apply go_bind_inv in Ep as (q & -> & _). by eexists. }
  exists key, serviceID, acc, pair, kvs, acc'. split_and!; [done..|]. destruct (decide (uncovered vm acc')).
  - by injection E as <- <-.
  - rewrite Ekvs, go_bind_ret in E. injection E as <- <-. split; [done|]. unfold old. by destruct (ac_StorageDict acc !! key), pair.
Qed.

Lemma unlisted_kept acc key l l' : ac_LookupDict acc !! key = Some l' ->
  unlisted (SetFootprint (u32 (u32 (si_Items (ac_ServiceInfo acc) - 2) + 2))
    (u64 (u64 (si_Bytes (ac_ServiceInfo acc) - (81 + lk_Length key)) + (81 + lk_Length key))) (SetLookup (insert key l) acc)) = unlisted acc.
Proof.
  intros E. apply (unlisted_moves _ _ 0 0); cbn [SetFootprint SetInfo SetLookup ac_ServiceInfo ac_LookupDict ac_StorageDict si_Items si_Bytes].
  - rewrite Z.sub_0_r. exact (wrap_back 32 _ 2 ltac:(lia)).
  - rewrite Z.sub_0_r. exact (wrap_back 64 _ _ ltac:(lia)).
  - rewrite map_size_insert_Some by eauto. lia.
  - unfold lookupOctets. rewrite sumMap_insert, (sumMap_delete _ _ _ _ E). lia.
Qed.

Lemma unlisted_removed acc key l : ac_LookupDict acc !! key = Some l ->
  unlisted (SetFootprint (u32 (si_Items (ac_ServiceInfo acc) - 2)) (u64 (si_Bytes (ac_ServiceInfo acc) - (81 + lk_Length key)))
    (SetPreimages (delete (lk_Hash key)) (SetLookup (delete key) acc))) = unlisted acc.
Proof.
  intros E. symmetry. apply (unlisted_moves _ _ 2 (81 + lk_Length key));
    cbn [SetFootprint SetInfo SetLookup SetPreimages ac_ServiceInfo ac_LookupDict ac_StorageDict si_Items si_Bytes].
  - exact (wrap_diff 32 _ 2 ltac:(lia)).
  - exact (wrap_diff 64 _ _ ltac:(lia)).
  - rewrite (size_listed _ _ _ E). lia.
  - unfold lookupOctets. rewrite (sumMap_delete _ _ _ _ E). lia.
Qed.

Lemma unlisted_added acc key l : ac_LookupDict acc !! key = None ->
  unlisted (SetFootprint (u32 (si_Items (ac_ServiceInfo acc) + 2)) (u64 (si_Bytes (ac_ServiceInfo acc) + (81 + lk_Length key)))
    (SetLookup (insert key l) acc)) = unlisted acc.
Proof.
  intros E. apply (unlisted_moves _ _ 2 (81 + lk_Length key)); cbn [SetFootprint SetInfo SetLookup ac_ServiceInfo ac_LookupDict ac_StorageDict si_Items si_Bytes].
  - apply wrap_sum.
  - apply wrap_sum.
  - rewrite map_size_insert_None by done. lia.
  - unfold lookupOctets. rewrite sumMap_insert, delete_id by done. lia.
Qed.

(** A request for a preimage and its end keep the recorded footprint in
    step with the requests. *)
Theorem request_footprint spec acc key t :
  (forall acc', processSolicitLookupData acc key t = inl acc' -> unlisted acc' = unlisted acc) /\
  (forall acc', forgetLookup spec acc key t = Some acc' -> unlisted acc' = unlisted acc).
Proof.
  unfold processSolicitLookupData, forgetLookup, CalcLookupItemfootprint. cbv beta iota zeta.
  split; intros acc'; destruct (ac_LookupDict acc !! key) as [[|x [|y [|z [|w l]]]]|] eqn:E; try done;
    try (destruct (_ <? _); [done|]); try (destruct (expired _ _ _); [|done]); intros [= <-];
    eauto using unlisted_kept, unlisted_removed, unlisted_added.
Qed.
