(* ===== verification/Auditing.v ===== *)
(** * Auditing

    src/internal/auditing: which reports a validator audits in each tranche
    (auditing.go), the bus that brings the announcements and the judgments of
    other validators (audit_bus.go), the judgment of a report (judgement.go),
    and the life of an audit; safrole/validator_keys.go makes the handlers of
    the VRF.

    The bus is the two queues of its channels, and the network an argument:
    what has arrived when the queues are drained, and which wait for the end
    of a tranche is cancelled. [Broadcast...] do nothing in the code. The work
    package controller, which recomputes a report from its bundle, is an
    argument. The VRF handler and Ed25519 signing are those of libraries. *)

From S2P Require Import Prelude Words Types Config Codec Encode Crypto Shuffle Store StateSer.
Local Open Scope Z_scope.

Definition TranchePeriod : Z := 8.
Definition SlotPeriod : Z := 6.
Definition BiasFactor : Z := 2.
Definition JamAnnounce : Bytes := bytes_of_string "jam_announce".
Definition JamAudit : Bytes := bytes_of_string "jam_audit".

#[export] Instance WorkReport_eq_dec : EqDecision WorkReport.
Proof.
  assert (EqDecision WorkPackageSpec) by solve_decision. assert (EqDecision RefineContext) by solve_decision.
  assert (EqDecision SegmentRootLookupItem) by solve_decision. assert (EqDecision WorkExecResult) by solve_decision.
  assert (EqDecision RefineLoad) by solve_decision. assert (EqDecision WorkResult) by solve_decision. solve_decision.
Defined.

Record AuditReport := MkAuditReport {
  ar_CoreID : Z; ar_Report : WorkReport; ar_ValidatorID : Z; ar_AuditResult : bool; ar_Signature : Bytes }.

(** [audit.Report.PackageSpec.Hash] *)
Definition reportOf (audit : AuditReport) : Bytes := ps_Hash (rp_PackageSpec (ar_Report audit)).

Abbreviation AssignmentMap := (gmap Bytes (list Z)).
(** The entries of the inner maps are all true. *)
Abbreviation PositiveJudgers := (gmap Bytes (gset Z)).

(** ** Keys and signatures

    A handler of the library is made of a key and its secret. *)
Class AuditKeys := {
  (** [safrole.DeriveTinyValidator]: the Bandersnatch key and its secret. *)
  DeriveTinyValidator : Z -> option (Bytes * Bytes);
  vrf_NewHandler_ok : Bytes -> Bytes -> bool;
  (** secret, context *)
  vrf_IETFSign : Bytes -> Bytes -> option Bytes;
  handler_VRFIetfOutput : Bytes -> option Bytes;
  (** the private key of 64 bytes, message *)
  ed25519_Sign64 : Bytes -> Bytes -> Bytes }.

Section Keys.
Context `{AuditKeys}.

(** crypto/ed25519 panics for a private key of another size. *)
Definition ed25519_Sign (privateKey message : Bytes) : go Bytes :=
  if lenOf privateKey =? 64 then Ret (ed25519_Sign64 privateKey message) else Crash.

Fixpoint lookupSeed (indices : list Z) (bandersnatchKey : Bytes) : option Bytes :=
  match indices with
  | [] => None
  | i :: indices =>
      match DeriveTinyValidator i with
      | None => None
      | Some (key, secretSeed) => if bool_decide (key = bandersnatchKey) then Some secretSeed else lookupSeed indices bandersnatchKey
      end
  end.

Definition TinyValidatorCount : nat := 6.
Definition LookupBandersnatchSecretSeed (bandersnatchKey : Bytes) : option Bytes :=
  lookupSeed (Z.of_nat <$> seq 0 TinyValidatorCount) bandersnatchKey.

(** The secret of the handler. *)
Definition CreateVRFHandler (bandersnatchKey : Bytes) : option Bytes :=
  skBytes ← LookupBandersnatchSecretSeed bandersnatchKey;
  if vrf_NewHandler_ok bandersnatchKey skBytes then Some skBytes else None.

End Keys.

(** ** The bus (audit_bus.go) *)

Record CE144Announcement := MkAnnouncement {
  an_Header : Bytes; an_Tranche : Z; an_ValidatorIndex : Z; an_WorkReports : list Bytes; an_Signature : Bytes }.
Record CE145Judgment := MkJudgment { jd_WorkReportHash : Bytes; jd_ValidatorIndex : Z; jd_IsValid : bool; jd_Signature : Bytes }.

Record AuditMessageBus := MkBus { announcementCh : list CE144Announcement; judgmentCh : list CE145Judgment; bufferSize : Z }.

Definition NewAuditMessageBusWithSize (n : Z) : AuditMessageBus := MkBus [] [] n.
Definition defaultBusBufferSize : Z := 2048.
Definition NewAuditMessageBus : AuditMessageBus := NewAuditMessageBusWithSize defaultBusBufferSize.

(** A message to a full channel is dropped. *)
Definition OnAuditAnnouncementReceived (msg : CE144Announcement) (bus : AuditMessageBus) : AuditMessageBus :=
  if lenOf (announcementCh bus) <? bufferSize bus
  then MkBus (announcementCh bus ++ [msg]) (judgmentCh bus) (bufferSize bus) else bus.
Definition OnJudgmentReceived (msg : CE145Judgment) (bus : AuditMessageBus) : AuditMessageBus :=
  if lenOf (judgmentCh bus) <? bufferSize bus
  then MkBus (announcementCh bus) (judgmentCh bus ++ [msg]) (bufferSize bus) else bus.

(** A handler of the network. *)
Inductive BusMessage := Announced (msg : CE144Announcement) | Judged (msg : CE145Judgment).
Definition received (bus : AuditMessageBus) (m : BusMessage) : AuditMessageBus :=
  match m with Announced a => OnAuditAnnouncementReceived a bus | Judged j => OnJudgmentReceived j bus end.

Definition containsValidator (validators : list Z) (v : Z) : bool := existsb (fun existing => existing =? v) validators.

(** One report of an announcement. *)
Definition announce (v : Z) (m : AssignmentMap) (wpHash : Bytes) : AssignmentMap :=
  let assigned := default [] (m !! wpHash) in
  if containsValidator assigned v then m else <[wpHash := assigned ++ [v]]> m.

Definition SyncAssignmentMapFromBus (bus : option AuditMessageBus) (m : AssignmentMap) : option AuditMessageBus * AssignmentMap :=
  match bus with
  | None => (None, m)
  | Some b =>
      (Some (MkBus [] (judgmentCh b) (bufferSize b)),
       foldl (fun m msg => foldl (announce (an_ValidatorIndex msg)) m (an_WorkReports msg)) m (announcementCh b))
  end.

Definition addJudger (h : Bytes) (v : Z) (m : PositiveJudgers) : PositiveJudgers := <[h := {[v]} ∪ default ∅ (m !! h)]> m.

Definition SyncPositiveJudgersFromBus (bus : option AuditMessageBus) (m : PositiveJudgers) : option AuditMessageBus * PositiveJudgers :=
  match bus with
  | None => (None, m)
  | Some b =>
      (Some (MkBus (announcementCh b) [] (bufferSize b)),
       foldl (fun m msg => if jd_IsValid msg then addJudger (jd_WorkReportHash msg) (jd_ValidatorIndex msg) m else m) m (judgmentCh b))
  end.

(** ** Assignments and judgments (auditing.go) *)

Section Audit.
Context `{HashFunctions} `{AuditKeys} (spec : ChainSpec).

(** [[32]byte(d)] and [[96]byte(d)]: a panic for a shorter slice. *)
Definition toArray (n : nat) (d : Bytes) : go Bytes := if lenOf d <? Z.of_nat n then Crash else Ret (take n d).

Fixpoint collectLoop (available : Bytes -> bool) (index : Z) (rho : list (option AvailabilityAssignment)) (Q : list (option WorkReport)) :
    go (list (option WorkReport)) :=
  match rho with
  | [] => Ret Q
  | None :: rho => collectLoop available (index + 1) rho Q
  | Some assignment :: rho =>
      let report := aa_Report assignment in
      Q ← (if available (ps_Hash (rp_PackageSpec report)) then zupdate Q index (Some report) else Ret Q);
      collectLoop available (index + 1) rho Q
  end.

Definition CollectAuditReportCandidates (cs : ChainState) : go (list (option WorkReport)) :=
  let W := AvailableWorkReports (intermediateStates cs) in
  collectLoop (fun h => bool_decide (h ∈ (fun w => ps_Hash (rp_PackageSpec w)) <$> W)) 0 (s_Rho (priorStates cs))
    (replicate (Z.to_nat (CoresCount spec)) None).

(** (17.14) The output of the author's entropy source. *)
Definition ComputeAuthorEntropyVrfOutput (cs : ChainState) : go (option Bytes) :=
  let header := b_Header (processingBlock cs) in
  author ← zindex (s_Kappa (priorStates cs)) (h_AuthorIndex header);
  Ret (_ ← CreateVRFHandler (v_Bandersnatch author); handler_VRFIetfOutput (h_EntropySource header)).

(** (17.3). The output is returned as a signature. *)
Definition GenerateValidatorAuditSeed (validatorIndex : Z) (cs : ChainState) : go (option Bytes) :=
  ⟪ entropyHash ⟫ ⇠ ComputeAuthorEntropyVrfOutput cs ⊘ Ret None;
  let context := JamAudit ++ entropyHash in
  validator ← zindex (s_Kappa (priorStates cs)) validatorIndex;
  ⟪ s0 ⟫ ⇠ Ret (sk ← CreateVRFHandler (v_Bandersnatch validator);
                vrfSignature ← vrf_IETFSign sk context; handler_VRFIetfOutput vrfSignature) ⊘ Ret None;
  Some <$> toArray 96 s0.

(** The first ten cores of the order that have a candidate. *)
Fixpoint assignmentLoop (Q : list (option WorkReport)) (validatorIndex : Z) (shuffled : list Z) (a0 : list AuditReport) :
    go (list AuditReport) :=
  match shuffled with
  | [] => Ret a0
  | coreIdx :: shuffled =>
      report ← zindex Q coreIdx;
      match report with
      | None => assignmentLoop Q validatorIndex shuffled a0
      | Some report =>
          let a0 := a0 ++ [MkAuditReport (u16 coreIdx) report validatorIndex false (zeroArray 64)] in
          if lenOf a0 =? 10 then Ret a0 else assignmentLoop Q validatorIndex shuffled a0
      end
  end.

Definition buildInitialAuditAssignmentFromCoreOrder (Q : list (option WorkReport)) (validatorIndex : Z) (shuffled : list Z) :
    go (list AuditReport) := assignmentLoop Q validatorIndex shuffled [].

(** (17.3) to (17.7) *)
Definition ComputeInitialAuditAssignment (Q : list (option WorkReport)) (validatorIndex : Z) (cs : ChainState) : go (option (list AuditReport)) :=
  ⟪ s0 ⟫ ⇠ GenerateValidatorAuditSeed validatorIndex cs ⊘ Ret None;
  validator ← zindex (s_Kappa (priorStates cs)) validatorIndex;
  ⟪ vrfOutput ⟫ ⇠ Ret (_ ← CreateVRFHandler (v_Bandersnatch validator); handler_VRFIetfOutput s0) ⊘ Ret None;
  r ← toArray 32 vrfOutput;
  shuffled ← Shuffle (Z.of_nat <$> seq 0 (Z.to_nat (CoresCount spec))) r;
  Some <$> buildInitialAuditAssignmentFromCoreOrder Q validatorIndex shuffled.

(** (17.8) [now] is the time of the clock in seconds. *)
Definition GetTranchIndex (now : Z) (cs : ChainState) : Z :=
  let P_Ht := u64 (SlotPeriod * h_Slot (b_Header (processingBlock cs))) in
  if now <? P_Ht then 0 else u64 (now - P_Ht) / TranchePeriod.

(** The error of the encoder is dropped. *)
Definition hashOfReport (report : WorkReport) : go Bytes := encodedReport ← valueOf (enc_WorkReport report); Ret (Blake2bHash encodedReport).

Fixpoint announcementPayload (an : list AuditReport) : go Bytes :=
  match an with
  | [] => Ret []
  | audit :: an =>
      hashW ← hashOfReport (ar_Report audit); rest ← announcementPayload an;
      Ret (Codec.SerializeFixedLength (ar_CoreID audit) 2 ++ hashW ++ rest)
  end.

(** (17.9) to (17.11); the second codec writes bytes as they are. *)
Definition BuildAnnouncement (n : Z) (an : list AuditReport) (validatorPrivKey : Bytes) (cs : ChainState) : go (option Bytes) :=
  xn ← announcementPayload an;
  ⟪ serializedHeader ⟫ ⇠ enc_Header spec (b_Header (processingBlock cs)) ⊘ Ret None;
  Some <$> ed25519_Sign validatorPrivKey (((JamAnnounce ++ [n]) ++ xn) ++ Blake2bHash serializedHeader).

Definition GetAssignedValidators (w : WorkReport) (An : AssignmentMap) : list Z := default [] (An !! ps_Hash (rp_PackageSpec w)).

Definition UpdateAssignmentMap (A0 : list AuditReport) (An : AssignmentMap) : AssignmentMap :=
  foldl (fun An audit => <[reportOf audit := default [] (An !! reportOf audit) ++ [ar_ValidatorID audit]]> An) An A0.

(** The two sets of the validators of a report's judgments. *)
Definition classify (report : WorkReport) (pn : gset Z * gset Z) (j : AuditReport) : gset Z * gset Z :=
  if bool_decide (reportOf j = ps_Hash (rp_PackageSpec report)) then
    if ar_AuditResult j then ({[ar_ValidatorID j]} ∪ fst pn, snd pn) else (fst pn, {[ar_ValidatorID j]} ∪ snd pn)
  else pn.
Definition ClassifyJudgments (report : WorkReport) (judgments : list AuditReport) : gset Z * gset Z :=
  foldl (classify report) (∅, ∅) judgments.

Definition isAssignedByThreshold (snByte0 validatorsCount biasFactor noShowCount : Z) : bool :=
  snByte0 * validatorsCount / (256 * biasFactor) <? noShowCount.

(** [mₙ]: the assigned validators that have not judged positively. *)
Definition noShows (assignedValidators : list Z) (positiveJudged : gset Z) : Z :=
  lenOf (filter (fun vid => vid ∉ positiveJudged) assignedValidators).

(** (17.15): the first byte of the output for a report. *)
Definition trancheByte (n : Z) (Y_Hv sk : Bytes) (report : WorkReport) : go (option Z) :=
  Hw ← hashOfReport report;
  ⟪ sn_w ⟫ ⇠ Ret (signature ← vrf_IETFSign sk (((JamAudit ++ Y_Hv) ++ Hw) ++ Codec.SerializeFixedLength n 4);
                  handler_VRFIetfOutput signature) ⊘ Ret None;
  Some <$> zindex sn_w 0.

Fixpoint trancheLoop (n : Z) (priorAssignments : AssignmentMap) (positiveJudgers : PositiveJudgers) (validatorIndex : Z) (Y_Hv sk : Bytes)
    (Q : list (option WorkReport)) : go (option (list AuditReport)) :=
  match Q with
  | [] => Ret (Some [])
  | None :: Q => trancheLoop n priorAssignments positiveJudgers validatorIndex Y_Hv sk Q
  | Some report :: Q =>
      let h := ps_Hash (rp_PackageSpec report) in
      let noShowCount := noShows (default [] (priorAssignments !! h)) (default ∅ (positiveJudgers !! h)) in
      if noShowCount =? 0 then trancheLoop n priorAssignments positiveJudgers validatorIndex Y_Hv sk Q
      else
        ⟪ byte0 ⟫ ⇠ trancheByte n Y_Hv sk report ⊘ Ret None;
        ⟪ an ⟫ ⇠ trancheLoop n priorAssignments positiveJudgers validatorIndex Y_Hv sk Q ⊘ Ret None;
        Ret (Some (if isAssignedByThreshold byte0 (ValidatorsCount spec) BiasFactor noShowCount
                   then MkAuditReport (rp_CoreIndex report) report validatorIndex false (zeroArray 64) :: an else an))
  end.

Definition ComputeAnForValidator (n : Z) (Q : list (option WorkReport)) (priorAssignments : AssignmentMap) (positiveJudgers : PositiveJudgers)
    (validatorIndex : Z) (cs : ChainState) : go (option (list AuditReport)) :=
  ⟪ Y_Hv ⟫ ⇠ ComputeAuthorEntropyVrfOutput cs ⊘ Ret None;
  validator ← zindex (s_Kappa (priorStates cs)) validatorIndex;
  ⟪ sk ⟫ ⇠ Ret (CreateVRFHandler (v_Bandersnatch validator)) ⊘ Ret None;
  trancheLoop n priorAssignments positiveJudgers validatorIndex Y_Hv sk Q.

(** (17.17) *)
Definition signJudgement (validatorPrivKey : Bytes) (audit : AuditReport) : go AuditReport :=
  hashW ← hashOfReport (ar_Report audit);
  signature ← ed25519_Sign validatorPrivKey ((if ar_AuditResult audit then JamValid else JamInvalid) ++ hashW);
  Ret (MkAuditReport (ar_CoreID audit) (ar_Report audit) (ar_ValidatorID audit) (ar_AuditResult audit) signature).

Fixpoint BuildJudgements (auditReports : list AuditReport) (validatorPrivKey : Bytes) : go (list AuditReport) :=
  match auditReports with
  | [] => Ret []
  | audit :: rest => a ← signJudgement validatorPrivKey audit; l ← BuildJudgements rest validatorPrivKey; Ret (a :: l)
  end.

(** (17.19) *)
Definition IsWorkReportAudited (report : WorkReport) (judgments : list AuditReport) (assignedValidators : list Z) : bool :=
  let '(positiveJudges, negativeJudges) := ClassifyJudgments report judgments in
  if bool_decide (negativeJudges = ∅) && forallb (fun v => bool_decide (v ∈ positiveJudges)) assignedValidators then true
  else ValidatorsSuperMajority spec <=? Z.of_nat (size positiveJudges).

Definition FilterJudgments (judgments : list AuditReport) (targetHash : Bytes) : list AuditReport :=
  filter (fun j => reportOf j = targetHash) judgments.

(** (17.20) *)
Definition IsBlockAudited (workReports : list WorkReport) (allJudgments : list AuditReport) (assignmentMap : AssignmentMap) : bool :=
  forallb (fun report =>
    IsWorkReportAudited report (FilterJudgments allJudgments (ps_Hash (rp_PackageSpec report))) (GetAssignedValidators report assignmentMap))
    workReports.

Definition UpdatePositiveJudgersFromAudit (audits : list AuditReport) (m : PositiveJudgers) : PositiveJudgers :=
  foldl (fun m audit => if ar_AuditResult audit then addJudger (reportOf audit) (ar_ValidatorID audit) m else m) m audits.

(** ** The judgment of a report (judgement.go) *)

Context (FetchBundle : WorkReport -> option Bytes) (Process : Bytes -> Z -> go (option WorkReport)).

(** [DeepEqual] tells nil from empty slices, which are one list here. *)
Definition workReportsEqual (a b : WorkReport) : go bool :=
  encodedA ← enc_WorkReport a; encodedB ← enc_WorkReport b;
  Ret (match encodedA, encodedB with
       | Some ea, Some eb => bool_decide (ea = eb)
       | _, _ => bool_decide (a = b)
       end).

Definition GetJudgement (audit : AuditReport) : go bool :=
  let report := ar_Report audit in
  match FetchBundle report with
  | None => Ret false
  | Some bundleBytes =>
      recomputed ← Process bundleBytes (rp_CoreIndex report);
      match recomputed with None => Ret false | Some w => workReportsEqual w report end
  end.

(** [an[i].AuditResult = GetJudgement(an[i])] *)
Fixpoint judgeAll (an : list AuditReport) : go (list AuditReport) :=
  match an with
  | [] => Ret []
  | a :: an =>
      b ← GetJudgement a; l ← judgeAll an;
      Ret (MkAuditReport (ar_CoreID a) (ar_Report a) (ar_ValidatorID a) b (ar_Signature a) :: l)
  end.

(** ** The life of an audit *)

Record AuditState := MkAuditState {
  as_assignmentMap : AssignmentMap; as_positiveJudgers : PositiveJudgers; as_allJudgments : list AuditReport;
  as_bus : option AuditMessageBus }.

(** Messages arrive, and the queues are drained. *)
Definition syncBus (arrived : list BusMessage) (s : AuditState) : AuditState :=
  let bus := (fun b => foldl received b arrived) <$> as_bus s in
  let '(bus, m) := SyncAssignmentMapFromBus bus (as_assignmentMap s) in
  let '(bus, p) := SyncPositiveJudgersFromBus bus (as_positiveJudgers s) in
  MkAuditState m p (as_allJudgments s) bus.

(** The judgments of the validator are recorded and signed. *)
Definition recordJudgments (an : list AuditReport) (validatorPrivKey : Bytes) (s : AuditState) : go AuditState :=
  signed ← BuildJudgements an validatorPrivKey;
  Ret (MkAuditState (as_assignmentMap s) (UpdatePositiveJudgersFromAudit an (as_positiveJudgers s)) (as_allJudgments s ++ signed) (as_bus s)).

Context (validatorIndex : Z) (validatorPrivKey : Bytes) (cs : ChainState) (Q : list (option WorkReport)).

Definition candidates : list WorkReport := omap id Q.
Definition blockAudited (s : AuditState) : bool := IsBlockAudited candidates (as_allJudgments s) (as_assignmentMap s).

(** Tranche 0 after the assignment; [None] is an error. *)
Definition firstTranche (a0 : list AuditReport) (arrived : list BusMessage) (bus : option AuditMessageBus) : go (option AuditState) :=
  let assignmentMap := foldl (fun m audit => <[reportOf audit := default [] (m !! reportOf audit) ++ [validatorIndex]]> m) ∅ a0 in
  ⟪ _ ⟫ ⇠ BuildAnnouncement 0 a0 validatorPrivKey cs ⊘ Ret None;
  a0 ← judgeAll a0;
  s ← recordJudgments a0 validatorPrivKey (MkAuditState assignmentMap ∅ [] bus);
  Ret (Some (syncBus arrived s)).

(** A tranche after the first. *)
Definition nextTranche (tranche : Z) (arrived : list BusMessage) (s : AuditState) : go (option AuditState) :=
  let s := syncBus arrived s in
  ⟪ an ⟫ ⇠ ComputeAnForValidator tranche Q (as_assignmentMap s) (as_positiveJudgers s) validatorIndex cs ⊘ Ret None;
  an ← judgeAll an;
  ⟪ _ ⟫ ⇠ BuildAnnouncement tranche an validatorPrivKey cs ⊘ Ret None;
  Some <$> recordJudgments an validatorPrivKey s.

(** How an audit stands after the waits it has been given: it has returned
    without an error, with one, or it waits for the next tranche. *)
Inductive AuditOutcome := Finished (s : option AuditState) | Failed | Waiting (s : AuditState).

(** Each wait is cancelled or brings messages. *)
Fixpoint tranches (waits : list (option (list BusMessage))) (tranche : Z) (s : AuditState) : go AuditOutcome :=
  match waits with
  | [] => Ret (Waiting s)
  | None :: _ => Ret Failed
  | Some arrived :: waits =>
      ⟪ s ⟫ ⇠ nextTranche tranche arrived s ⊘ Ret Failed;
      if blockAudited s then Ret (Finished (Some s)) else tranches waits (u8 (tranche + 1)) s
  end.

(** The audit once the initial assignment is known. *)
Definition auditFrom (a0 : list AuditReport) (bus : option AuditMessageBus) (arrived : list BusMessage) (waits : list (option (list BusMessage))) :
    go AuditOutcome :=
  ⟪ s ⟫ ⇠ firstTranche a0 arrived bus ⊘ Ret Failed;
  if blockAudited s then Ret (Finished (Some s)) else tranches waits 1 s.

End Audit.

Definition SingleNodeAuditingAndPublish `{HashFunctions} `{AuditKeys} (spec : ChainSpec) (FetchBundle : WorkReport -> option Bytes)
    (Process : Bytes -> Z -> go (option WorkReport)) (validatorIndex : Z) (validatorPrivKey : Bytes) (bus : option AuditMessageBus)
    (cs : ChainState) (arrived : list BusMessage) (waits : list (option (list BusMessage))) : go AuditOutcome :=
  Q ← CollectAuditReportCandidates spec cs;
  match candidates Q with
  | [] => Ret (Finished None)
  | _ =>
      ⟪ a0 ⟫ ⇠ ComputeInitialAuditAssignment spec Q validatorIndex cs ⊘ Ret Failed;
      auditFrom spec FetchBundle Process validatorIndex validatorPrivKey cs Q a0 bus arrived waits
  end.

(** fetch_bundle.go, the fetcher of every node. *)
Definition StubBundleFetcher (report : WorkReport) : option Bytes := None.

(** * Theorems *)

(** ** Judgments *)

(** Some judgment of the report is by [v] and says [b]. *)
Definition judged_as (b : bool) (h : Bytes) (js : list AuditReport) (v : Z) : Prop :=
  exists j, j ∈ js /\ reportOf j = h /\ ar_ValidatorID j = v /\ ar_AuditResult j = b.

Lemma judged_as_nil b h v : ~ judged_as b h [] v.
Proof. intros (j & Hj & _). by apply elem_of_nil in Hj. Qed.

Lemma judged_as_cons b h j js v :
  judged_as b h (j :: js) v <-> (reportOf j = h /\ ar_ValidatorID j = v /\ ar_AuditResult j = b) \/ judged_as b h js v.
Proof.
  unfold judged_as. setoid_rewrite elem_of_cons. split.
  - intros (k & [->|Hk] & Hr); [by left|]. right. by exists k.
  - intros [Hr|(k & Hk & Hr)]; [exists j|exists k]; auto.
Qed.

Lemma judged_as_filter b h js v : judged_as b h (FilterJudgments js h) v <-> judged_as b h js v.
Proof. unfold judged_as, FilterJudgments. setoid_rewrite list_elem_of_filter. f_equiv. intros j. tauto. Qed.

Lemma classify_elem w js v p n :
  let h := ps_Hash (rp_PackageSpec w) in let r := foldl (classify w) (p, n) js in
  (v ∈ fst r <-> v ∈ p \/ judged_as true h js v) /\ (v ∈ snd r <-> v ∈ n \/ judged_as false h js v).
Proof.
  cbn zeta. revert p n. induction js as [|j js IH]; intros p n; cbn [foldl].
  { split; split; [by left|intros [|[]%judged_as_nil]; done|by left|intros [|[]%judged_as_nil]; done]. }
  rewrite !judged_as_cons.
  assert (classify w (p, n) j = if bool_decide (reportOf j = ps_Hash (rp_PackageSpec w)) then
    if ar_AuditResult j then ({[ar_ValidatorID j]} ∪ p, n) else (p, {[ar_ValidatorID j]} ∪ n) else (p, n)) as -> by done.
  case_bool_decide as Hh; [destruct (ar_AuditResult j)|]; edestruct IH as [-> ->]; rewrite ?elem_of_union, ?elem_of_singleton;
    split; intuition congruence.
Qed.

Lemma ClassifyJudgments_elem w js v :
  let h := ps_Hash (rp_PackageSpec w) in
  (v ∈ fst (ClassifyJudgments w js) <-> judged_as true h js v) /\ (v ∈ snd (ClassifyJudgments w js) <-> judged_as false h js v).
Proof. cbn zeta. destruct (classify_elem w js v ∅ ∅) as [-> ->]. split; [split; [intros []; done|by right]|split; [intros []; done|by right]]. Qed.

Section Decision.
Context (spec : ChainSpec).

(** The report is audited, by the judgments [js] and the assigned validators:
    nobody judged it invalid and all who are assigned judged it valid, or a
    supermajority judged it valid. *)
Definition report_audited (h : Bytes) (js : list AuditReport) (assigned : list Z) : Prop :=
  ((forall v, ~ judged_as false h js v) /\ Forall (judged_as true h js) assigned) \/
  (exists S : gset Z, set_Forall (judged_as true h js) S /\ ValidatorsSuperMajority spec <= Z.of_nat (size S)).

Lemma IsWorkReportAudited_spec w js assigned :
  IsWorkReportAudited spec w js assigned = true <-> report_audited (ps_Hash (rp_PackageSpec w)) js assigned.
Proof.
  unfold IsWorkReportAudited, report_audited. pose proof (ClassifyJudgments_elem w js) as He.
  destruct (ClassifyJudgments w js) as [P N]; cbn [fst snd] in He.
  assert (forall v, v ∈ P <-> judged_as true (ps_Hash (rp_PackageSpec w)) js v) as HP by (intros v; apply He).
  assert (forall v, v ∈ N <-> judged_as false (ps_Hash (rp_PackageSpec w)) js v) as HN by (intros v; apply He).
  clear He. transitivity ((N = ∅ /\ Forall (.∈ P) assigned) \/ ValidatorsSuperMajority spec <= Z.of_nat (size P)).
  - destruct (bool_decide (N = ∅)) eqn:E1; cbn [andb]; [apply bool_decide_eq_true in E1|apply bool_decide_eq_false in E1].
    + destruct (forallb _ assigned) eqn:E2.
      * rewrite forallb_forall in E2. split; [|done]. intros _. left. split; [done|]. apply Forall_forall. intros v Hv.
        apply (bool_decide_eq_true (v ∈ P)), E2. by apply list_elem_of_In.
      * rewrite Z.leb_le. split; [by right|]. intros [[_ Hf]|]; [|done]. exfalso. apply not_true_iff_false in E2. apply E2.
        apply forallb_forall. intros v Hv. apply bool_decide_eq_true. rewrite Forall_forall in Hf. by apply Hf, list_elem_of_In.
    + rewrite Z.leb_le. naive_solver.
  - f_equiv; [f_equiv|].
    + split; [intros -> v Hv%HN; set_solver|]. intros Hv. apply set_eq. intros v. rewrite HN. set_solver.
    + apply Forall_iff. intros v. apply HP.
    + split; [intros Hs; exists P; split; [intros v; by rewrite HP|done]|].
      intros (S & HS & Hsz). assert (S ⊆ P) as Hsub by (intros v Hv; apply HP; by apply HS). apply subseteq_size in Hsub. lia.
Qed.

(** C35: A block is audited iff every report is: nobody judged it invalid and all
    validators that are assigned to it judged it valid, or a supermajority of
    validators judged it valid (17.19, 17.20). *)
Theorem IsBlockAudited_correct ws js m :
  IsBlockAudited spec ws js m = true <->
  Forall (fun w => report_audited (ps_Hash (rp_PackageSpec w)) js (default [] (m !! ps_Hash (rp_PackageSpec w)))) ws.
Proof.
  unfold IsBlockAudited. rewrite forallb_forall, Forall_forall. setoid_rewrite <- list_elem_of_In.
  apply forall_proper. intros w. apply forall_proper. intros _. rewrite IsWorkReportAudited_spec.
  unfold report_audited, GetAssignedValidators, set_Forall. setoid_rewrite Forall_forall. by setoid_rewrite judged_as_filter.
Qed.

End Decision.

(** ** Assignments *)

Section Assignments.
Context `{HashFunctions} `{AuditKeys} (spec : ChainSpec).

(** The audit of a candidate by [v]. *)
Definition auditOf (v : Z) (Q : list (option WorkReport)) (c : Z) : option AuditReport :=
  (fun w => MkAuditReport (u16 c) w v false (zeroArray 64)) <$> mjoin (zlookup Q c).

Lemma assignmentLoop_ok Q v shuffled a0 : Forall (fun c => 0 <= c < lenOf Q) shuffled -> (length a0 < 10)%nat ->
  assignmentLoop Q v shuffled a0 = Ret (take 10 (a0 ++ omap (auditOf v Q) shuffled)).
Proof.
  intros Hs. revert a0. induction Hs as [|c shuffled Hc Hs IH]; intros a0 Ha; cbn [assignmentLoop].
  { cbn. rewrite app_nil_r, take_ge by lia. done. }
  destruct (zlookup_is_Some Q c Hc) as [r Hr]. unfold zindex. rewrite Hr. cbn [mbind go_bind].
  cbn [omap list_omap]. unfold auditOf at 1. rewrite Hr. destruct r as [w|]; cbn [mjoin option_join fmap option_fmap option_map]; [|by apply IH].
  set (x := MkAuditReport _ _ _ _ _). replace (a0 ++ x :: omap (auditOf v Q) shuffled) with ((a0 ++ [x]) ++ omap (auditOf v Q) shuffled) by by rewrite <- app_assoc.
  unfold lenOf. rewrite length_app. cbn [length]. destruct (Z.eqb_spec (Z.of_nat (length a0 + 1)) 10) as [E|E].
  - rewrite take_app_le, take_ge by (rewrite length_app; cbn; lia). done.
  - apply IH. rewrite length_app. cbn. lia.
Qed.

Lemma reports_auditOf Q v (l : list Z) : ar_Report <$> omap (auditOf v Q) l = omap id ((fun c => mjoin (zlookup Q c)) <$> l).
Proof.
  induction l as [|c l IH]; [done|]. cbn [omap list_omap fmap list_fmap]. unfold auditOf at 1, id at 1.
  destruct (mjoin (zlookup Q c)); cbn; by rewrite <- IH.
Qed.

Lemma all_slots (Q : list (option WorkReport)) : (fun c => mjoin (zlookup Q c)) <$> (Z.of_nat <$> seq 0 (length Q)) = Q.
Proof.
  apply list_eq. intros i. rewrite !list_lookup_fmap. destruct (lt_dec i (length Q)) as [Hi|Hi].
  - rewrite lookup_seq_lt by done. cbn. unfold zlookup. destruct (Z.ltb_spec (Z.of_nat i) 0); [lia|]. rewrite Nat2Z.id.
    destruct (lookup_lt_is_Some_2 Q i Hi) as [q ->]. done.
  - rewrite lookup_seq_ge by lia. symmetry. apply lookup_ge_None. lia.
Qed.

(** The reports of the audits in the order of the cores are the candidates. *)
Lemma reports_shuffled Q v shuffled : shuffled ≡ₚ Z.of_nat <$> seq 0 (length Q) ->
  ar_Report <$> omap (auditOf v Q) shuffled ≡ₚ candidates Q.
Proof. intros Hp. rewrite reports_auditOf, Hp, all_slots. done. Qed.

Lemma shuffled_range (Q : list (option WorkReport)) shuffled : shuffled ≡ₚ Z.of_nat <$> seq 0 (length Q) -> Forall (fun c => 0 <= c < lenOf Q) shuffled.
Proof.
  intros Hp. rewrite Hp. apply Forall_fmap, Forall_forall. intros i Hi%elem_of_seq. unfold lenOf. cbn. lia.
Qed.

(** Whatever the order of the cores, the initial assignment of a validator
    is the first ten candidates in that order: all candidates, each of them
    once, if there are at most ten, and ten of them otherwise (17.5). *)
Theorem buildInitialAuditAssignment_correct Q v shuffled :
  shuffled ≡ₚ Z.of_nat <$> seq 0 (length Q) ->
  exists a0, buildInitialAuditAssignmentFromCoreOrder Q v shuffled = Ret a0 /\ a0 = take 10 (omap (auditOf v Q) shuffled) /\
    length a0 = Nat.min 10 (length (candidates Q)) /\ (exists rest, (ar_Report <$> a0) ++ rest ≡ₚ candidates Q) /\
    ((length (candidates Q) <= 10)%nat -> ar_Report <$> a0 ≡ₚ candidates Q).
Proof.
  intros Hp. pose proof (reports_shuffled Q v _ Hp) as Hr.
  assert (length (omap (auditOf v Q) shuffled) = length (candidates Q)) as Hl by (rewrite <- Hr; by rewrite length_fmap).
  eexists. split_and!; [|done|..].
  - unfold buildInitialAuditAssignmentFromCoreOrder. rewrite assignmentLoop_ok; [done|by apply shuffled_range|cbn; lia].
  - by rewrite length_take, Hl.
  - exists (ar_Report <$> drop 10 (omap (auditOf v Q) shuffled)). by rewrite <- fmap_app, take_drop.
  - intros Hle. by rewrite take_ge by lia.
Qed.

(** The integer division of the code makes no difference. *)
Lemma isAssignedByThreshold_exact b V F m : 0 < F -> isAssignedByThreshold b V F m = true <-> b * V < m * (256 * F).
Proof.
  intros HF. unfold isAssignedByThreshold. rewrite Z.ltb_lt. split; intros H1.
  - pose proof (Z.div_mod (b * V) (256 * F)). pose proof (Z.mod_pos_bound (b * V) (256 * F)). nia.
  - apply Z.div_lt_upper_bound; lia.
Qed.

(** The tranche assigns the report. *)
Definition assigned_in (m : AssignmentMap) (p : PositiveJudgers) (byteOf : WorkReport -> Z) (w : WorkReport) : Prop :=
  let h := ps_Hash (rp_PackageSpec w) in
  byteOf w * ValidatorsCount spec < noShows (default [] (m !! h)) (default ∅ (p !! h)) * 512.

#[export] Instance assigned_in_dec m p byteOf w : Decision (assigned_in m p byteOf w).
Proof. unfold assigned_in. apply _. Defined.

(** In a later tranche a validator audits exactly the candidates whose
    number of assigned validators without a positive judgment is greater than
    V/512 times the first byte of its output for the report (17.16): the
    division of the code rounds nothing away, and a report without such
    validators is never assigned. *)
Theorem trancheLoop_correct n m p v Y_Hv sk Q byteOf :
  0 <= ValidatorsCount spec ->
  (forall w, w ∈ candidates Q -> trancheByte n Y_Hv sk w = Ret (Some (byteOf w)) /\ 0 <= byteOf w) ->
  trancheLoop spec n m p v Y_Hv sk Q =
    Ret (Some ((fun w => MkAuditReport (rp_CoreIndex w) w v false (zeroArray 64)) <$> filter (assigned_in m p byteOf) (candidates Q))).
Proof.
  intros HV. unfold candidates. induction Q as [|[w|] Q IH]; intros Hb; cbn [trancheLoop]; [done| |by apply IH].
  cbn [omap list_omap id] in *. unfold id at 1 in Hb. unfold id at 1. 
  assert (forall w', w' ∈ omap id Q -> trancheByte n Y_Hv sk w' = Ret (Some (byteOf w')) /\ 0 <= byteOf w') as Hb' by (intros w' Hw'; apply Hb; by right).
  destruct (Hb w ltac:(by left)) as [Hw Hp]. specialize (IH Hb').
  set (c := noShows _ _). assert (assigned_in m p byteOf w <-> byteOf w * ValidatorsCount spec < c * (256 * BiasFactor)) as Ha by done.
  assert (0 <= c) by apply Nat2Z.is_nonneg. rewrite filter_cons. destruct (Z.eqb_spec c 0) as [E|E].
  { rewrite decide_False; [done|]. rewrite Ha, E. nia. }
  rewrite Hw, IH. cbn [mbind go_bind]. rewrite <- (isAssignedByThreshold_exact _ _ BiasFactor _ ltac:(done)) in Ha.
  case_decide as Hd; destruct (isAssignedByThreshold _ _ _ _) eqn:Ht; [done|apply Ha in Hd; congruence|destruct Hd; by apply Ha|done].
Qed.

End Assignments.

(** ** The candidates *)

(** The report of the core, if it has become available. *)
Definition availableReport (available : Bytes -> bool) (a : option AvailabilityAssignment) : option WorkReport :=
  x ← a; if available (ps_Hash (rp_PackageSpec (aa_Report x))) then Some (aa_Report x) else None.

Lemma collectLoop_ok available rho : forall Q,
  collectLoop available (lenOf Q) rho (Q ++ replicate (length rho) None) = Ret (Q ++ (availableReport available <$> rho)).
Proof.
  induction rho as [|a rho IH]; intros Q; cbn [collectLoop length replicate fmap list_fmap]; [done|].
  assert (forall x, collectLoop available (lenOf Q + 1) rho (Q ++ x :: replicate (length rho) None) = Ret (Q ++ x :: (availableReport available <$> rho))) as Hs.
  { intros x. replace (Q ++ x :: replicate (length rho) None) with ((Q ++ [x]) ++ replicate (length rho) None) by by rewrite <- app_assoc.
    replace (lenOf Q + 1) with (lenOf (Q ++ [x])) by (unfold lenOf; rewrite length_app; cbn; lia). rewrite IH. by rewrite <- app_assoc. }
  destruct a as [a|]; [|by apply Hs]. cbn [availableReport mbind option_bind]. destruct (available _); [|by apply Hs].
  rewrite zupdate_ok by (unfold lenOf; rewrite length_app; cbn; lia). cbn [mbind go_bind].
  unfold lenOf at 2. rewrite Nat2Z.id. replace (length Q) with (length Q + 0)%nat at 1 by lia. rewrite insert_app_r. apply Hs.
Qed.

(** The candidates of a block are, core by core, the reports that were pending
    and whose packages have become available. *)
Lemma CollectAuditReportCandidates_spec spec cs : lenOf (s_Rho (priorStates cs)) = CoresCount spec ->
  CollectAuditReportCandidates spec cs = Ret
    (availableReport (fun h => bool_decide (h ∈ (fun w => ps_Hash (rp_PackageSpec w)) <$> AvailableWorkReports (intermediateStates cs)))
       <$> s_Rho (priorStates cs)).
Proof. intros Hl. unfold CollectAuditReportCandidates. rewrite <- Hl. unfold lenOf. rewrite Nat2Z.id. apply (collectLoop_ok _ _ []). Qed.

(** ** Whose judgments count *)

Section Loop.
Context `{HashFunctions} `{AuditKeys} (spec : ChainSpec) (FetchBundle : WorkReport -> option Bytes) (Process : Bytes -> Z -> go (option WorkReport)).
Context (v : Z) (validatorPrivKey : Bytes) (cs : ChainState) (Q : list (option WorkReport)).

Definition by_v (js : list AuditReport) : Prop := Forall (fun j => ar_ValidatorID j = v) js.

(** [u] is assigned to the package, so far as is known. *)
Definition knows (s : AuditState) (h : Bytes) (u : Z) : Prop := u ∈ default [] (as_assignmentMap s !! h).

(** From a state to a later one: the judgments stay those of [v], and
    what is known of the assignments stays known. *)
Definition later (s s' : AuditState) : Prop :=
  (by_v (as_allJudgments s) -> by_v (as_allJudgments s')) /\ forall h u, knows s h u -> knows s' h u.

#[export] Instance later_preorder : PreOrder later.
Proof. split; [by intros s|]. intros a b c [Ha Ka] [Hb Kb]. split; auto. Qed.

Lemma judgeAll_by an an' : judgeAll FetchBundle Process an = Ret an' -> by_v an -> by_v an'.
Proof.
  revert an'. induction an as [|a an IH]; cbn [judgeAll]; intros an'; [intros [= <-]; done|].
  intros (b & _ & (l & Hl & [= <-])%go_bind_inv)%go_bind_inv [Ha Han]%Forall_cons. constructor; [done|]. by apply IH.
Qed.

Lemma BuildJudgements_by an an' : BuildJudgements an validatorPrivKey = Ret an' -> by_v an -> by_v an'.
Proof.
  revert an'. induction an as [|a an IH]; cbn [BuildJudgements]; intros an'; [intros [= <-]; done|].
  intros (b & (? & _ & (? & _ & [= <-])%go_bind_inv)%go_bind_inv & (l & Hl & [= <-])%go_bind_inv)%go_bind_inv [Ha Han]%Forall_cons.
  constructor; [done|]. by apply IH.
Qed.

Lemma recordJudgments_later an s s' : recordJudgments an validatorPrivKey s = Ret s' -> by_v an -> later s s'.
Proof.
  intros (l & Hl & [= <-])%go_bind_inv Han. split; [|done]. intros Hs. apply Forall_app. split; [done|]. by eapply BuildJudgements_by.
Qed.

Lemma announce_elem u m h wp x : x ∈ default [] (m !! h) \/ x = u /\ wp = h -> x ∈ default [] (announce u m wp !! h).
Proof.
  unfold announce. intros Hx. destruct (containsValidator _ u) eqn:Hc.
  - destruct Hx as [|[-> ->]]; [done|]. apply existsb_exists in Hc as (y & Hy & ->%Z.eqb_eq). by apply list_elem_of_In.
  - destruct (decide (wp = h)) as [->|Hn]; [|rewrite lookup_insert_ne by done; tauto].
    rewrite lookup_insert_eq. cbn. apply elem_of_app. rewrite list_elem_of_singleton. tauto.
Qed.

Lemma announcement_elem u wps m h x : x ∈ default [] (m !! h) \/ x = u /\ h ∈ wps -> x ∈ default [] (foldl (announce u) m wps !! h).
Proof.
  revert m. induction wps as [|wp wps IH]; intros m Hx; cbn [foldl]; [destruct Hx as [|[_ []%elem_of_nil]]; done|].
  apply IH. rewrite elem_of_cons in Hx. destruct Hx as [Hx|[-> [->|Hx]]]; [left; by apply announce_elem; left|left; by apply announce_elem; right|by right].
Qed.

Lemma announcements_elem msgs m h x :
  x ∈ default [] (m !! h) \/ (exists a, a ∈ msgs /\ an_ValidatorIndex a = x /\ h ∈ an_WorkReports a) ->
  x ∈ default [] (foldl (fun m msg => foldl (announce (an_ValidatorIndex msg)) m (an_WorkReports msg)) m msgs !! h).
Proof.
  revert m. induction msgs as [|a msgs IH]; intros m Hx; cbn [foldl].
  { destruct Hx as [|(a & []%elem_of_nil & _)]. done. }
  apply IH. destruct Hx as [Hx|(a' & [->|Ha]%elem_of_cons & <- & Hh)].
  - left. by apply announcement_elem; left.
  - left. by apply announcement_elem; right.
  - right. by exists a'.
Qed.

(** The announcements that are heard when messages arrive: those that are
    queued, and of the ones that arrive as many as the channel has room for. *)
Definition announcements : list BusMessage -> list CE144Announcement := omap (fun m => match m with Announced a => Some a | Judged _ => None end).
Definition heardFrom (queued : list CE144Announcement) (size : Z) (ms : list BusMessage) : list CE144Announcement :=
  queued ++ take (Z.to_nat (size - lenOf queued)) (announcements ms).

(** All that is heard in tranche 0, with the messages [arrived], and after
    each of the waits [ws], before which the channel is empty. *)
Definition heard (bus : option AuditMessageBus) (arrived : list BusMessage) (ws : list (list BusMessage)) : list CE144Announcement :=
  match bus with
  | None => []
  | Some b => heardFrom (announcementCh b) (bufferSize b) arrived ++ (ws ≫= heardFrom [] (bufferSize b))
  end.

Lemma received_queue ms b : announcementCh (foldl received b ms) = heardFrom (announcementCh b) (bufferSize b) ms /\
  bufferSize (foldl received b ms) = bufferSize b.
Proof.
  revert b. induction ms as [|[a|j] ms IH]; intros b; cbn [foldl received].
  - unfold heardFrom. cbn. by rewrite take_nil, app_nil_r.
  - unfold OnAuditAnnouncementReceived. destruct (Z.ltb_spec (lenOf (announcementCh b)) (bufferSize b)) as [Hl|Hl]; destruct (IH b) as [IHa IHb].
    + destruct (IH (MkBus (announcementCh b ++ [a]) (judgmentCh b) (bufferSize b))) as [-> ->]. split; [|done]. unfold heardFrom, lenOf in *. cbn.
      rewrite length_app, <- app_assoc. cbn. f_equal.
      replace (Z.to_nat (bufferSize b - Z.of_nat (length (announcementCh b)))) with
        (S (Z.to_nat (bufferSize b - Z.of_nat (length (announcementCh b) + 1)))) by lia. done.
    + rewrite IHa, IHb. split; [|done]. unfold heardFrom. by replace (Z.to_nat (bufferSize b - lenOf (announcementCh b))) with O by lia.
  - assert (OnJudgmentReceived j b = b \/ exists q, OnJudgmentReceived j b = MkBus (announcementCh b) q (bufferSize b)) as [-> | [q ->]]
      by (unfold OnJudgmentReceived; case_match; eauto); [apply IH|].
    exact (IH (MkBus (announcementCh b) q (bufferSize b))).
Qed.

Lemma syncBus_later arrived s : later s (syncBus arrived s).
Proof.
  unfold syncBus. destruct (as_bus s) as [b|]; cbn; [|by destruct s]. split; [done|]. intros h u Hk. apply announcements_elem. by left.
Qed.

(** The announcements are known: [u] is assigned to all it announced. *)
Definition learnt (s : AuditState) (anns : list CE144Announcement) : Prop :=
  forall a h, a ∈ anns -> h ∈ an_WorkReports a -> knows s h (an_ValidatorIndex a).

Lemma learnt_later s s' anns : later s s' -> learnt s anns -> learnt s' anns.
Proof. intros [_ Hl] Hs a h Ha Hh. by apply Hl, Hs. Qed.

(** Both channels are empty. *)
Definition drained (size : Z) (s : AuditState) : Prop := as_bus s = Some (MkBus [] [] size).

(** What is heard is known once the bus is drained. *)
Lemma syncBus_learnt arrived s b : as_bus s = Some b -> 
  drained (bufferSize b) (syncBus arrived s) /\ learnt (syncBus arrived s) (heardFrom (announcementCh b) (bufferSize b) arrived).
Proof.
  intros Hb. destruct (received_queue arrived b) as [Hq Hs]. unfold syncBus, drained, learnt, knows. rewrite Hb. cbn. rewrite Hs. split; [done|].
  intros a h Ha Hh. apply announcements_elem. right. exists a. by rewrite Hq.
Qed.

Lemma trancheLoop_by n m p Y_Hv sk R an : trancheLoop spec n m p v Y_Hv sk R = Ret (Some an) -> by_v an.
Proof.
  revert an. induction R as [|[w|] R IH]; cbn [trancheLoop]; intros an; [intros [= <-]; constructor| |by apply IH].
  destruct (_ =? 0); [by apply IH|]. intros (o & _ & Hr)%go_bind_inv. destruct o as [b0|]; [|done].
  apply go_bind_inv in Hr as ([l|] & Hl & Hr); [|done]. injection Hr as <-.
  destruct (isAssignedByThreshold _ _ _ _); [constructor; [done|]|]; by apply IH.
Qed.

Lemma recordJudgments_bus an s s' : recordJudgments an validatorPrivKey s = Ret s' -> as_bus s' = as_bus s.
Proof. by intros (l & _ & [= <-])%go_bind_inv. Qed.

Lemma nextTranche_later n arrived s s' :
  nextTranche spec FetchBundle Process v validatorPrivKey cs Q n arrived s = Ret (Some s') -> later (syncBus arrived s) s' /\ as_bus s' = as_bus (syncBus arrived s).
Proof.
  unfold nextTranche. intros ([an|] & Han & Hr)%go_bind_inv; [|done].
  apply go_bind_inv in Hr as (an' & Hj & Hr). apply go_bind_inv in Hr as ([x|] & _ & Hr); [|done].
  unfold fmap, go_fmap in Hr. destruct (recordJudgments _ _ _) as [s0|] eqn:Hrec; [|done]. injection Hr as <-.
  split; [|by apply recordJudgments_bus in Hrec]. apply (recordJudgments_later _ _ _ Hrec). apply (judgeAll_by _ _ Hj).
  unfold ComputeAnForValidator in Han. apply go_bind_inv in Han as ([Y|] & _ & Han); [|done].
  apply go_bind_inv in Han as (val & _ & Han). apply go_bind_inv in Han as ([sk|] & _ & Han); [|done]. by eapply trancheLoop_by.
Qed.

Lemma nextTranche_learnt n arrived s s' size : drained size s ->
  nextTranche spec FetchBundle Process v validatorPrivKey cs Q n arrived s = Ret (Some s') ->
  later s s' /\ drained size s' /\ learnt s' (heardFrom [] size arrived).
Proof.
  intros Hd [Hl Hb]%nextTranche_later. destruct (syncBus_learnt arrived s _ Hd) as [Hd' Hk]. cbn in *. split_and!.
  - transitivity (syncBus arrived s); [apply syncBus_later|done].
  - unfold drained in *. congruence.
  - by eapply learnt_later.
Qed.

Abbreviation after := (tranches spec FetchBundle Process v validatorPrivKey cs Q).

(** Where the audit ended. *)
Definition ended (s0 : AuditState) (o : option AuditState) (anns : list CE144Announcement) : Prop :=
  exists s, o = Some s /\ later s0 s /\ learnt s anns /\ blockAudited spec Q s = true.

Lemma ended_later s0 s1 o anns anns' : later s0 s1 -> learnt s1 anns' -> ended s1 o anns -> ended s0 o (anns' ++ anns).
Proof.
  intros Hl Hk (s & -> & Hs & Hk' & Hb). exists s. split_and!; [done|by transitivity s1| |done].
  intros a h [Ha|Ha]%elem_of_app Hh; [|by apply Hk']. by apply (learnt_later s1 _ _ Hs Hk).
Qed.

(** It ended after some of the waits. *)
Lemma tranches_ended waits n s o size : drained size s -> after waits n s = Ret (Finished o) ->
  exists ws rest, waits = (Some <$> ws) ++ rest /\ ended s o (ws ≫= heardFrom [] size).
Proof.
  revert n s. induction waits as [|[arrived|] waits IH]; intros n s Hd; cbn [tranches]; [done| |done].
  intros ([s1|] & Hs1 & Hr)%go_bind_inv; [|done]. apply (nextTranche_learnt _ _ _ _ size) in Hs1 as (Hl & Hd1 & Hk); [|done].
  destruct (blockAudited _ _ s1) eqn:Hb.
  - injection Hr as <-. exists [arrived], waits. split; [done|]. cbn. eapply ended_later; [exact Hl|exact Hk|].
    exists s1. split_and!; [done..|intros ? ? []%elem_of_nil|done].
  - destruct (IH _ _ Hd1 Hr) as (ws & rest & -> & He). exists (arrived :: ws), rest. split; [done|]. cbn. by eapply ended_later.
Qed.

(** If not after the first waits, then with what those brought. *)
Lemma tranches_still ws rest n s o size : drained size s -> (forall o, after (Some <$> ws) n s <> Ret (Finished o)) ->
  after ((Some <$> ws) ++ rest) n s = Ret (Finished o) -> ended s o (ws ≫= heardFrom [] size).
Proof.
  revert n s. induction ws as [|arrived ws IH]; intros n s Hd Hnot.
  { cbn. intros (ws & rest' & _ & s' & -> & Hl & _ & Hb)%(tranches_ended _ _ _ _ size); [|done].
    exists s'. split_and!; [done..|intros ? ? []%elem_of_nil|done]. }
  cbn [fmap list_fmap app tranches mbind list_bind] in *. intros ([s1|] & Hs1 & Hr)%go_bind_inv; [|done]. rewrite Hs1, go_bind_ret in Hnot.
  apply (nextTranche_learnt _ _ _ _ size) in Hs1 as (Hl & Hd1 & Hk); [|done]. destruct (blockAudited _ _ s1) eqn:Hb; [by destruct (Hnot (Some s1))|].
  eapply ended_later; [exact Hl|exact Hk|]. by eapply IH.
Qed.

Lemma firstTranche_spec a0 arrived bus s :
  firstTranche spec FetchBundle Process v validatorPrivKey cs a0 arrived bus = Ret (Some s) -> by_v a0 ->
  by_v (as_allJudgments s) /\ forall b, bus = Some b -> drained (bufferSize b) s /\ learnt s (heardFrom (announcementCh b) (bufferSize b) arrived).
Proof.
  unfold firstTranche. intros ([x|] & _ & Hr)%go_bind_inv Ha0; [|done].
  apply go_bind_inv in Hr as (a1 & Hj & Hr). apply go_bind_inv in Hr as (s1 & Hrec & [= <-]). split.
  - apply syncBus_later. apply (recordJudgments_later _ _ _ Hrec); [by apply (judgeAll_by _ _ Hj)|constructor].
  - intros b ->. apply syncBus_learnt. by apply recordJudgments_bus in Hrec.
Qed.

(** With judgments of one validator only, a report is audited iff nobody else
    is assigned to it. *)
Lemma audited_alone h js assigned : 2 <= ValidatorsSuperMajority spec -> by_v js -> report_audited spec h js assigned ->
  ~ judged_as false h js v /\ Forall (fun u => u = v) assigned.
Proof.
  intros Hsm Hjs. unfold by_v in Hjs. rewrite Forall_forall in Hjs.
  assert (forall b u, judged_as b h js u -> u = v) as Hu by (intros b u (j & Hj & _ & <- & _); by apply Hjs).
  intros [[Hn Ha]|(S & HS & Hsz)].
  - split; [apply Hn|]. eapply Forall_impl; [exact Ha|]. intros u. apply Hu.
  - exfalso. assert (S ⊆ {[v]}) as Hsub by (intros u Hx; apply elem_of_singleton; by apply (Hu true), HS).
    apply subseteq_size in Hsub. rewrite size_singleton in Hsub. lia.
Qed.

Abbreviation run := (fun a0 bus arrived waits => auditFrom spec FetchBundle Process v validatorPrivKey cs Q a0 (Some bus) arrived waits).

(** A finished audit, with what was heard until then. *)
Lemma audit_ended a0 b arrived waits o : by_v a0 -> run a0 b arrived waits = Ret (Finished o) ->
  exists s ws rest, waits = (Some <$> ws) ++ rest /\ o = Some s /\ learnt s (heard (Some b) arrived ws) /\
    by_v (as_allJudgments s) /\ blockAudited spec Q s = true.
Proof.
  intros Ha0 ([s0|] & Hs0 & Hr)%go_bind_inv; [|done]. apply firstTranche_spec in Hs0 as [Hby Hk]; [|done]. destruct (Hk b eq_refl) as [Hd Hk0].
  destruct (blockAudited _ _ s0) eqn:Hb.
  - injection Hr as <-. exists s0, [], waits. cbn. by rewrite app_nil_r.
  - apply (tranches_ended _ _ _ _ (bufferSize b)) in Hr as (ws & rest & -> & He); [|done].
    destruct (ended_later s0 s0 _ _ _ (reflexivity _) Hk0 He) as (s & -> & [Hl _] & Hks & Hbs). exists s, ws, rest. split_and!; auto.
Qed.

Lemma audit_still a0 b arrived ws rest o : by_v a0 -> (forall o, run a0 b arrived (Some <$> ws) <> Ret (Finished o)) ->
  run a0 b arrived ((Some <$> ws) ++ rest) = Ret (Finished o) ->
  exists s, learnt s (heard (Some b) arrived ws) /\ by_v (as_allJudgments s) /\ blockAudited spec Q s = true.
Proof.
  intros Ha0 Hnot ([s0|] & Hs0 & Hr)%go_bind_inv; [|done]. unfold auditFrom in Hnot. rewrite Hs0, go_bind_ret in Hnot.
  apply firstTranche_spec in Hs0 as [Hby Hk]; [|done]. destruct (Hk b eq_refl) as [Hd Hk0].
  destruct (blockAudited _ _ s0) eqn:Hb; [by destruct (Hnot (Some s0))|].
  apply (tranches_still _ _ _ _ _ (bufferSize b)) in Hr; [|done..].
  destruct (ended_later s0 s0 _ _ _ (reflexivity _) Hk0 Hr) as (s & -> & [Hl _] & Hks & Hbs). exists s. split_and!; auto.
Qed.


End Loop.

(** ** The seed *)

(** A VRF output has 32 bytes, and the seed is converted to an array of 96: no
    initial assignment is ever made. *)
Lemma ComputeInitialAuditAssignment_panics `{HashFunctions} `{AuditKeys} spec Q v cs a0 :
  (forall signature output, handler_VRFIetfOutput signature = Some output -> length output = 32%nat) ->
  ComputeInitialAuditAssignment spec Q v cs <> Ret (Some a0).
Proof.
  intros Ho ([s0|] & Hs & Hr)%go_bind_inv; [clear Hr|discriminate Hr]. unfold GenerateValidatorAuditSeed in Hs.
  apply go_bind_inv in Hs as ([e|] & _ & Hs); [|done]. apply go_bind_inv in Hs as (x & _ & Hs).
  apply go_bind_inv in Hs as ([y|] & Hy & Hs); [|done]. injection Hy as Hy.
  apply bind_Some in Hy as (sk & _ & (sig & _ & Hout)%bind_Some). apply Ho in Hout.
  unfold toArray, lenOf in Hs. rewrite Hout in Hs. discriminate Hs.
Qed.
