(* ===== verification/Repository.v ===== *)
(** * The repository of blocks and states

    src/internal/database (the interfaces of a key-value database, and its
    memory provider) and src/internal/store (prefix.go, header.go, block.go,
    state.go, segment_erasure_map.go): the tables of headers, extrinsics,
    blocks, state roots and states in one database, told apart by the prefixes
    of their keys.

    [Tx T A] is a computation that writes to a [database.Writer] [T]: a
    database or a batch. The providers over Pebble and Redis call those
    libraries, so a persistent database is any instance of the classes. *)

From stdpp Require Import sorting.
From S2P Require Import Prelude Words Types Config Codec Encode Decoders Crypto Store StoreLaws StateSer CodecSpec Roundtrip ProtocolWf ProtocolSpec.
Local Open Scope Z_scope.

(** ** The interfaces (database.go)

    [None] is a returned error; [Some None] a key that is not there. *)
Class Reader (R : Type) := {
  Has : R -> Bytes -> option bool;
  Get : R -> Bytes -> option (option Bytes) }.

(** The flag is whether there is no error. *)
Class Writer (T : Type) := {
  Put : T -> Bytes -> Bytes -> go (T * bool);
  Delete : T -> Bytes -> go (T * bool) }.

(** The entries an iterator over a prefix gives, in its order. *)
Class Iterable (R : Type) := NewIterator : R -> Bytes -> Bytes -> option (list (Bytes * Bytes)).

(** ** Writing: a state and error monad *)

Definition Tx (T A : Type) : Type := T -> go (T * option A).

#[export] Instance Tx_ret T : MRet (Tx T) := fun A x t => Ret (t, Some x).
#[export] Instance Tx_bind T : MBind (Tx T) := fun A B f m t =>
  r ← m t; match snd r with Some x => f x (fst r) | None => Ret (fst r, None) end.

(** A computation that does not write. *)
Definition attempt {T A} (m : go (option A)) : Tx T A := fun t => o ← m; Ret (t, o).

Definition noError {T} (m : go (T * bool)) : go (T * option unit) := r ← m; Ret (fst r, if snd r : bool then Some () else None).

Definition putKV {T} `{Writer T} (key value : Bytes) : Tx T unit := fun t => noError (Put t key value).
Definition deleteKV {T} `{Writer T} (key : Bytes) : Tx T unit := fun t => noError (Delete t key).

(** ** The memory provider

    [None] is the nil map of a closed database: reading finds nothing, and
    writing panics. *)
Record memoryDB := MkMemoryDB { data : option (gmap Bytes Bytes) }.

Definition NewDatabase : memoryDB := MkMemoryDB (Some ∅).
Definition Close (db : memoryDB) : memoryDB := MkMemoryDB None.

Definition contents (db : memoryDB) : gmap Bytes Bytes := default ∅ (data db).

#[export] Instance memory_reader : Reader memoryDB := {
  Has db key := Some (bool_decide (is_Some (contents db !! key)));
  Get db key := Some (contents db !! key) }.

#[export] Instance memory_writer : Writer memoryDB := {
  Put db key value := match data db with None => Crash | Some m => Ret (MkMemoryDB (Some (<[key := value]> m)), true) end;
  Delete db key := Ret (MkMemoryDB (base.delete key <$> data db), true) }.

(** The keys that start with [start], sorted. *)
Definition hasPrefix (p key : Bytes) : bool := bool_decide (take (length p) key = p).

#[export] Instance memory_iterable : Iterable memoryDB := fun db pre start =>
  Some (filter (fun e => hasPrefix (pre ++ start) (fst e) = true) (sortedEntries bytesLe (contents db))).

(** ** Batches (provider/memory/batch.go) *)

Record writeOp := MkWriteOp { isDelete : bool; key : Bytes; value : Bytes }.
Definition batch : Type := list writeOp.
Definition NewBatch : batch := [].

#[export] Instance batch_writer : Writer batch := {
  Put b k v := Ret (b ++ [MkWriteOp false k v], true);
  Delete b k := Ret (b ++ [MkWriteOp true k []], true) }.

Definition applyOp (m : gmap Bytes Bytes) (op : writeOp) : gmap Bytes Bytes :=
  if isDelete op then base.delete (key op) m else <[key op := value op]> m.

(** An error if the database is closed. *)
Definition Commit (b : batch) (db : memoryDB) : memoryDB * bool :=
  match data db with
  | None => (db, false)
  | Some m => (MkMemoryDB (Some (foldl applyOp m b)), true)
  end.

(** repository.go *)
Definition WithBatch (fn : Tx batch unit) : Tx memoryDB unit := fun db =>
  r ← fn NewBatch;
  match snd r with
  | None => Ret (db, None)
  | Some _ => noError (Ret (Commit (fst r) db))
  end.

(** ** Keys (prefix.go) *)

Definition separator : Bytes := bytes_of_string ":".
Definition headerPrefix : Bytes := bytes_of_string "h:".
Definition headerHashPrefix : Bytes := bytes_of_string "hh:".
Definition headerTimeSlotPrefix : Bytes := bytes_of_string "ht:".
Definition finalizedHeaderHashPrefix : Bytes := bytes_of_string "fh:".
Definition extrinsicPrefix : Bytes := bytes_of_string "e:".
Definition blockByHashPrefix : Bytes := bytes_of_string "b:".
Definition hashSegmentMapPrefix : Bytes := bytes_of_string "segment_dict".
Definition segmentErasurePrefix : Bytes := bytes_of_string "segment_erasure:".
Definition stateRootPrefix : Bytes := bytes_of_string "sr:".
Definition stateDataPrefix : Bytes := bytes_of_string "sd:".

Definition headerKeyPrefix (slot : Z) : go Bytes :=
  timeSlotEncoded ← valueOf (enc_TimeSlot slot); Ret ((headerPrefix ++ timeSlotEncoded) ++ separator).
Definition headerKey (slot : Z) (hash : Bytes) : go Bytes := p ← headerKeyPrefix slot; Ret (p ++ hash).
Definition canocicalHeaderHashKey (slot : Z) : go Bytes :=
  encoded ← valueOf (enc_TimeSlot slot); Ret (headerHashPrefix ++ encoded).
Definition headerTimeSlotKey (hash : Bytes) : Bytes := headerTimeSlotPrefix ++ hash.
Definition extrinsicKeyPrefix (slot : Z) : go Bytes :=
  timeSlotEncoded ← valueOf (enc_TimeSlot slot); Ret ((extrinsicPrefix ++ timeSlotEncoded) ++ separator).
Definition extrinsicKey (slot : Z) (hash : Bytes) : go Bytes := p ← extrinsicKeyPrefix slot; Ret (p ++ hash).
Definition stateRootKey (headerHash : Bytes) : Bytes := stateRootPrefix ++ headerHash.
Definition stateDataKey (stateRoot : Bytes) : Bytes := stateDataPrefix ++ stateRoot.
Definition blockByHashKey (hash : Bytes) : Bytes := blockByHashPrefix ++ hash.
Definition hashSegmentMapKey : Bytes := hashSegmentMapPrefix.
Definition segmentErasureKey (segmentRoot : Bytes) : Bytes := segmentErasurePrefix ++ segmentRoot.

(** ** The repository *)

(** [types.HeaderHash(data)]: a panic for fewer than 32 bytes. *)
Definition toHash (d : Bytes) : go Bytes := if lenOf d <? 32 then Crash else Ret (take 32 d).

Section Repository.
Context `{HashFunctions} (makeOK : Z -> bool) (spec : ChainSpec).

(** hash.go *)
Definition ComputeBlockHeaderHash (header : Header) : go (option Bytes) :=
  o ← enc_Header spec header; Ret (option_map Blake2bHash o).

(** [Get] with its error, and the value if it is there. *)
Definition lookupKey {R} `{Reader R} (r : R) (k : Bytes) : go (option Bytes) := Ret (mjoin (Get r k)).

Section Read.
Context {R : Type} `{Reader R}.

(** [encoded, found, err := r.Get(k)], and decoding what is found. *)
Definition load {A} (d : D A) (r : R) (k : Bytes) : go (option A) :=
  ⟪ encoded ⟫ ⇠ lookupKey r k ⊘ Ret None; decodeValue d encoded.

Definition GetCanonicalHash (r : R) (slot : Z) : go (option Bytes) :=
  k ← canocicalHeaderHashKey slot; ⟪ d ⟫ ⇠ lookupKey r k ⊘ Ret None; Some <$> toHash d.

(** [found] is not looked at: the value is nil then. *)
Definition GetFinalizedHash (r : R) : go (option Bytes) :=
  match Get r finalizedHeaderHashPrefix with
  | None => Ret None
  | Some d => Some <$> toHash (default [] d)
  end.

Definition GetHeader (r : R) (hash : Bytes) (slot : Z) : go (option Header) :=
  k ← headerKey slot hash; load (dec_Header makeOK spec) r k.

Definition GetHeaderTimeSlot (r : R) (hash : Bytes) : go (option Z) := load dec_TimeSlot r (headerTimeSlotKey hash).

Definition GetHeaderHashesByTimeSlot `{Iterable R} (r : R) (slot : Z) : go (option (list Bytes)) :=
  p ← headerKeyPrefix slot;
  match NewIterator r p [] with
  | None => Ret None
  | Some entries => Ret (Some ((fun e => Blake2bHash (snd e)) <$> entries))
  end.

Definition GetExtrinsic (r : R) (hash : Bytes) (slot : Z) : go (option Extrinsic) :=
  k ← extrinsicKey slot hash; load (dec_Extrinsic makeOK spec) r k.

Definition GetBlock (r : R) (hash : Bytes) (slot : Z) : go (option Block) :=
  ⟪ header ⟫ ⇠ GetHeader r hash slot ⊘ Ret None;
  ⟪ extrinsic ⟫ ⇠ GetExtrinsic r hash slot ⊘ Ret None;
  Ret (Some (MkBlock header extrinsic)).

Definition GetBlockByHash (r : R) (hash : Bytes) : go (option Block) := load (dec_Block makeOK spec) r (blockByHashKey hash).

(** [copy(stateRoot[:], data)]. *)
Definition GetStateRootByHeaderHash (r : R) (headerHash : Bytes) : go (option Bytes) :=
  ⟪ d ⟫ ⇠ lookupKey r (stateRootKey headerHash) ⊘ Ret None; Ret (Some (gcopy (zeroArray 32) d)).

Definition GetStateData (r : R) (stateRoot : Bytes) : go (option (list StateKeyVal)) :=
  load (dec_StateKeyVals makeOK) r (stateDataKey stateRoot).

Definition GetStateDataByHeaderHash (r : R) (headerHash : Bytes) : go (option (list StateKeyVal)) :=
  ⟪ stateRoot ⟫ ⇠ GetStateRootByHeaderHash r headerHash ⊘ Ret None; GetStateData r stateRoot.

(** [now] is the time of the clock in seconds. *)
Definition GetSegmentErasureMap (now : Z) (r : R) (segmentRoot : Bytes) : go (option Bytes) :=
  match Get r (segmentErasureKey segmentRoot) with
  | None => Ret None
  | Some None => Ret (Some (zeroArray 32))
  | Some (Some d) =>
      if lenOf d <? 40 then Ret None
      else if sN 64 (le_val (reverse (take 8 (drop 32 d)))) <? now then Ret (Some (zeroArray 32))
      else Ret (Some (take 32 d))
  end.

End Read.

Section Write.
Context {T : Type} `{Writer T}.

Definition SaveCanonicalHash (hash : Bytes) (slot : Z) : Tx T unit := fun t =>
  k ← canocicalHeaderHashKey slot; putKV k hash t.

Definition SaveFinalizedHash (hash : Bytes) : Tx T unit := putKV finalizedHeaderHashPrefix hash.

Definition SaveHeaderTimeSlot (hash : Bytes) (slot : Z) : Tx T unit :=
  encoded ← attempt (enc_TimeSlot slot); putKV (headerTimeSlotKey hash) encoded.

Definition DeleteHeaderTimeSlot (hash : Bytes) : Tx T unit := deleteKV (headerTimeSlotKey hash).

Definition SaveHeader (header : Header) : Tx T Bytes :=
  encoded ← attempt (enc_Header spec header);
  let slot := h_Slot header in
  let hash := Blake2bHash encoded in
  SaveHeaderTimeSlot hash slot ≫= fun _ =>
  (k ← attempt (Some <$> headerKey slot hash); putKV k encoded) ≫= fun _ =>
  mret hash.

Definition DeleteHeader (hash : Bytes) (slot : Z) : Tx T unit :=
  DeleteHeaderTimeSlot hash ≫= fun _ => k ← attempt (Some <$> headerKey slot hash); deleteKV k.

Definition SaveExtrinsic (hash : Bytes) (slot : Z) (extrinsic : Extrinsic) : Tx T unit :=
  encoded ← attempt (enc_Extrinsic spec extrinsic);
  k ← attempt (Some <$> extrinsicKey slot hash); putKV k encoded.

Definition DeleteExtrinsic (hash : Bytes) (slot : Z) : Tx T unit :=
  k ← attempt (Some <$> extrinsicKey slot hash); deleteKV k.

Definition SaveBlock (block : Block) : Tx T unit :=
  headerHash ← SaveHeader (b_Header block);
  SaveExtrinsic headerHash (h_Slot (b_Header block)) (b_Extrinsic block).

Definition DeleteBlock (hash : Bytes) (slot : Z) : Tx T unit :=
  DeleteHeader hash slot ≫= fun _ => DeleteExtrinsic hash slot.

Definition SaveBlockByHash (hash : Bytes) (block : Block) : Tx T unit :=
  encoded ← attempt (enc_Block spec block); putKV (blockByHashKey hash) encoded.

Definition DeleteBlockByHash (hash : Bytes) : Tx T unit := deleteKV (blockByHashKey hash).

Definition SaveStateRootByHeaderHash (headerHash stateRoot : Bytes) : Tx T unit := putKV (stateRootKey headerHash) stateRoot.

Definition SaveStateData (stateRoot : Bytes) (stateKeyVals : list StateKeyVal) : Tx T unit :=
  d ← attempt (enc_StateKeyVals stateKeyVals); putKV (stateDataKey stateRoot) d.

Definition DeleteStateData (stateRoot : Bytes) : Tx T unit := deleteKV (stateDataKey stateRoot).

(** [expiresAt] is the time of the clock plus the time to live. *)
Definition SetSegmentErasureMap (segmentRoot erasureRoot : Bytes) (expiresAt : Z) : Tx T unit :=
  putKV (segmentErasureKey segmentRoot) (erasureRoot ++ reverse (le_bytes 8 (uN 64 expiresAt))).

End Write.
End Repository.

(** * Theorems *)

(** ** The tables

    The entries of the database by what they hold; the keys of the tables
    never meet. *)
Inductive Entry :=
  | EHeader (slot : Z) (hash : Bytes)
  | ESlot (hash : Bytes)
  | EExtrinsic (slot : Z) (hash : Bytes)
  | EBlock (hash : Bytes)
  | ECanonical (slot : Z)
  | EFinalized
  | ERoot (headerHash : Bytes)
  | EData (stateRoot : Bytes)
  | ESegmentMap
  | ESegment (segmentRoot : Bytes).

#[export] Instance Entry_eq_dec : EqDecision Entry.
Proof. solve_decision. Defined.

Definition entryKey (e : Entry) : Bytes :=
  match e with
  | EHeader slot hash => ((headerPrefix ++ le_bytes 4 slot) ++ separator) ++ hash
  | ESlot hash => headerTimeSlotPrefix ++ hash
  | EExtrinsic slot hash => ((extrinsicPrefix ++ le_bytes 4 slot) ++ separator) ++ hash
  | EBlock hash => blockByHashPrefix ++ hash
  | ECanonical slot => headerHashPrefix ++ le_bytes 4 slot
  | EFinalized => finalizedHeaderHashPrefix
  | ERoot headerHash => stateRootPrefix ++ headerHash
  | EData stateRoot => stateDataPrefix ++ stateRoot
  | ESegmentMap => hashSegmentMapPrefix
  | ESegment segmentRoot => segmentErasurePrefix ++ segmentRoot
  end.

(** The slots of the entry are 32-bit numbers. *)
Definition ok_Entry (e : Entry) : Prop :=
  match e with EHeader slot _ | EExtrinsic slot _ | ECanonical slot => uint 32 slot | _ => True end.

Lemma le_bytes_inj n a b : 0 <= n -> uint (8 * n) a -> uint (8 * n) b -> le_bytes n a = le_bytes n b -> a = b.
Proof.
  intros Hn Ha Hb He. apply (f_equal le_val) in He. rewrite !le_val_bytes in He by done.
  by rewrite !Z.mod_small in He.
Qed.

Lemma tagged_slot_inj (p : Bytes) a b x y : uint 32 a -> uint 32 b ->
  ((p ++ le_bytes 4 a) ++ separator) ++ x = ((p ++ le_bytes 4 b) ++ separator) ++ y -> a = b /\ x = y.
Proof.
  intros Ha Hb. rewrite <- !app_assoc. intros He%app_inv_head.
  apply app_inj_1 in He as [He [= Hxy]]; [|by rewrite !le_bytes_length].
  split; [by apply (le_bytes_inj 4)|done].
Qed.

Lemma entryKey_inj e e' : ok_Entry e -> ok_Entry e' -> entryKey e = entryKey e' -> e = e'.
Proof.
  destruct e, e'; cbn [ok_Entry entryKey]; intros Hs Hs' He;
    first [discriminate He
          |by apply app_inv_head in He as ->
          |by apply tagged_slot_inj in He as [-> ->]
          |by apply app_inv_head, (le_bytes_inj 4) in He as ->
          |reflexivity].
Qed.

(** ** What a computation writes

    [view t m] is the database [m] after the writes in [t]: for a database
    its contents, for a batch [m] with the operations of the batch. *)
Class WriterLaws (T : Type) `{Writer T} := {
  usable : T -> Prop;
  view : T -> gmap Bytes Bytes -> gmap Bytes Bytes;
  put_view t k v : usable t -> exists t', Put t k v = Ret (t', true) /\ usable t' /\ forall m, view t' m = <[k := v]> (view t m);
  delete_view t k : usable t -> exists t', Delete t k = Ret (t', true) /\ usable t' /\ forall m, view t' m = base.delete k (view t m) }.

Definition is_open (db : memoryDB) : Prop := is_Some (data db).

#[export] Program Instance memory_laws : WriterLaws memoryDB := {| usable := is_open; view db _ := contents db |}.
Next Obligation. intros [m] k v [m' Hm]. cbn in *. subst m. eexists. split_and!; [done|by eexists|done]. Qed.
Next Obligation. intros [m] k [m' Hm]. cbn in *. subst m. eexists. split_and!; [done|by eexists|done]. Qed.

#[export] Program Instance batch_laws : WriterLaws batch := {| usable _ := True; view b m := foldl applyOp m b |}.
Next Obligation. intros b k v _. eexists. split_and!; [done..|]. intros m. by rewrite foldl_app. Qed.
Next Obligation. intros b k _. eexists. split_and!; [done..|]. intros m. by rewrite foldl_app. Qed.

Section Writes.
Context {T : Type} `{Hlaws : WriterLaws T}.

(** The computation gives [x], and changes the database by [f]. *)
Definition writes {A : Type} (f : gmap Bytes Bytes -> gmap Bytes Bytes) (x : A) (tx : Tx T A) : Prop :=
  forall t, usable t -> exists t', tx t = Ret (t', Some x) /\ usable t' /\ forall m, view t' m = f (view t m).

Lemma writes_put k v : writes (insert k v) () (putKV k v).
Proof. intros t Ht. destruct (put_view t k v Ht) as (t' & E & Hu & Hv). exists t'. unfold putKV. by rewrite E. Qed.

Lemma writes_delete k : writes (base.delete k) () (deleteKV k).
Proof. intros t Ht. destruct (delete_view t k Ht) as (t' & E & Hu & Hv). exists t'. unfold deleteKV. by rewrite E. Qed.

Lemma writes_ret {A : Type} (x : A) : writes id x (mret x).
Proof. intros t Ht. by exists t. Qed.

Lemma writes_bind {A B : Type} f g (x : A) (y : B) m k : writes f x m -> writes g y (k x) -> writes (g ∘ f) y (m ≫= k).
Proof.
  intros Hm Hk t Ht. destruct (Hm t Ht) as (t1 & E1 & Hu1 & Hv1). destruct (Hk t1 Hu1) as (t2 & E2 & Hu2 & Hv2).
  exists t2. unfold mbind, Tx_bind. rewrite E1. cbn. rewrite E2. split_and!; [done..|]. intros m'. cbn. by rewrite Hv2, Hv1.
Qed.

(** What is only computed. *)
Lemma writes_attempt {A B : Type} f (x : A) (y : B) m k : m = Ret (Some x) -> writes f y (k x) -> writes f y (attempt m ≫= k).
Proof. intros -> Hk. exact (writes_bind id f x y _ _ (fun t Ht => ex_intro _ t (conj eq_refl (conj Ht (fun _ => eq_refl)))) Hk). Qed.

Lemma writes_ext {A : Type} f g (x : A) tx : (forall m, f m = g m) -> writes f x tx -> writes g x tx.
Proof. intros He Hw t Ht. destruct (Hw t Ht) as (t' & ? & ? & Hv). exists t'. split_and!; [done..|]. intros m. by rewrite Hv. Qed.

End Writes.

(** A batch that is committed has written what the computation would have
    written to the database. *)
Lemma batch_direct f (txb : Tx batch unit) (txm : Tx memoryDB unit) db :
  writes f () txb -> writes f () txm -> is_open db -> WithBatch txb db = txm db.
Proof.
  intros Hb Hm Hdb. destruct (Hb NewBatch Logic.I) as (b & Eb & _ & Hvb). destruct (Hm db Hdb) as (db' & Em & [m' Hm'] & Hvm).
  unfold WithBatch. rewrite Eb, Em. cbn. destruct Hdb as [m Hd]. unfold Commit. rewrite Hd. cbn. do 3 f_equal.
  specialize (Hvb m). specialize (Hvm m). cbn in Hvb, Hvm. unfold contents in Hvm. rewrite Hd, Hm' in Hvm. cbn in Hvm.
  destruct db'. cbn in *. by rewrite Hm', Hvm, Hvb.
Qed.

(** ** The keys as the code makes them *)

Lemma enc_TimeSlot_le slot : valueOf (enc_TimeSlot slot) = Ret (le_bytes 4 slot).
Proof. unfold valueOf, enc_TimeSlot, Encode.put. by rewrite EncodeUintWithLength_le. Qed.

Lemma headerKey_entry slot hash : headerKey slot hash = Ret (entryKey (EHeader slot hash)).
Proof. unfold headerKey, headerKeyPrefix. by rewrite enc_TimeSlot_le. Qed.

Lemma extrinsicKey_entry slot hash : extrinsicKey slot hash = Ret (entryKey (EExtrinsic slot hash)).
Proof. unfold extrinsicKey, extrinsicKeyPrefix. by rewrite enc_TimeSlot_le. Qed.

Lemma canonicalKey_entry slot : canocicalHeaderHashKey slot = Ret (entryKey (ECanonical slot)).
Proof. unfold canocicalHeaderHashKey. by rewrite enc_TimeSlot_le. Qed.

(** ** A database with given contents *)

Definition opened (m : gmap Bytes Bytes) : memoryDB := MkMemoryDB (Some m).

Lemma is_open_opened db : is_open db -> db = opened (contents db).
Proof. destruct db as [[m|]]; [done|]. by intros [? ?]. Qed.

(** The value [y] is stored under [k]. *)
Definition stored {A : Type} (m : gmap Bytes Bytes) (d : D A) (k : Bytes) (y : A) : Prop :=
  exists bs, m !! k = Some bs /\ decodeValue d bs = Ret (Some y).

Lemma load_stored {A : Type} m (d : D A) k y : stored m d k y -> load d (opened m) k = Ret (Some y).
Proof. intros (bs & E & Hd). unfold load, lookupKey. cbn. unfold contents. cbn. rewrite E. done. Qed.

Lemma codes_decoded {A : Type} (w : W) (d : D A) y : codes w d y -> exists bs, w = Ret (Some bs) /\ decodeValue d bs = Ret (Some y).
Proof.
  intros (bs & E & _ & Hd). exists bs. split; [done|]. specialize (Hd [] (Forall_nil_2 _)). rewrite app_nil_r in Hd.
  unfold decodeValue. by rewrite Hd.
Qed.

Section Theorems.
Context `{HashFunctions} (makeOK : Z -> bool) (spec : ChainSpec) (Hspec : codec_spec spec).

(** What saving a block with this encoding writes. *)
Definition savedBlock (slot : Z) (hash eh ee : Bytes) (m : gmap Bytes Bytes) : gmap Bytes Bytes :=
  <[entryKey (EExtrinsic slot hash) := ee]> (<[entryKey (EHeader slot hash) := eh]> (<[entryKey (ESlot hash) := le_bytes 4 slot]> m)).

Definition deletedBlock (slot : Z) (hash : Bytes) (m : gmap Bytes Bytes) : gmap Bytes Bytes :=
  base.delete (entryKey (EExtrinsic slot hash)) (base.delete (entryKey (EHeader slot hash)) (base.delete (entryKey (ESlot hash)) m)).

Section Writer.
Context {T : Type} `{Hlaws : WriterLaws T}.

Lemma SaveHeaderTimeSlot_writes hash slot :
  writes (insert (entryKey (ESlot hash)) (le_bytes 4 slot)) () (SaveHeaderTimeSlot (T := T) hash slot).
Proof. eapply writes_attempt; [unfold enc_TimeSlot, Encode.put; by rewrite EncodeUintWithLength_le|]. apply writes_put. Qed.

Lemma SaveBlock_writes b eh ee : enc_Header spec (b_Header b) = Ret (Some eh) -> enc_Extrinsic spec (b_Extrinsic b) = Ret (Some ee) ->
  writes (savedBlock (h_Slot (b_Header b)) (Blake2bHash eh) eh ee) () (SaveBlock (T := T) spec b).
Proof.
  intros Eh Ee. unfold SaveBlock. eapply writes_ext; cycle 1; [eapply writes_bind|].
  - unfold SaveHeader. eapply writes_attempt; [exact Eh|]. eapply writes_bind; [apply SaveHeaderTimeSlot_writes|].
    eapply writes_bind; [|apply writes_ret]. eapply writes_attempt; [by rewrite headerKey_entry|]. apply writes_put.
  - unfold SaveExtrinsic. eapply writes_attempt; [exact Ee|]. eapply writes_attempt; [by rewrite extrinsicKey_entry|]. apply writes_put.
  - done.
Qed.

Lemma DeleteBlock_writes hash slot : writes (deletedBlock slot hash) () (DeleteBlock (T := T) hash slot).
Proof.
  unfold DeleteBlock. eapply writes_ext; cycle 1; [eapply writes_bind|].
  - eapply writes_bind; [apply writes_delete|]. eapply writes_attempt; [by rewrite headerKey_entry|]. apply writes_delete.
  - eapply writes_attempt; [by rewrite extrinsicKey_entry|]. apply writes_delete.
  - done.
Qed.

Lemma SaveStateData_writes root kvs bs : enc_StateKeyVals kvs = Ret (Some bs) ->
  writes (insert (entryKey (EData root)) bs) () (SaveStateData (T := T) root kvs).
Proof. intros E. eapply writes_attempt; [exact E|]. apply writes_put. Qed.

Lemma SaveStateRoot_writes hash root : writes (insert (entryKey (ERoot hash)) root) () (SaveStateRootByHeaderHash (T := T) hash root).
Proof. apply writes_put. Qed.

End Writer.
End Theorems.

(** ** Reading back *)

Ltac entries := repeat first
  [rewrite lookup_insert_eq | rewrite lookup_delete_eq
  |rewrite lookup_insert_ne by (intros ?%entryKey_inj; [congruence|done..])
  |rewrite lookup_delete_ne by (intros ?%entryKey_inj; [congruence|done..])].

Lemma load_missing {A : Type} m (d : D A) k : m !! k = None -> load d (opened m) k = Ret None.
Proof. intros E. unfold load, lookupKey. cbn. unfold contents. cbn. by rewrite E. Qed.

Lemma lookupKey_opened m k : lookupKey (opened m) k = Ret (m !! k).
Proof. done. Qed.

Lemma Get_opened m k : Get (opened m) k = Some (m !! k).
Proof. done. Qed.

(** Only the entries of this list differ. *)
Definition differ_at (es : list Entry) (m m' : gmap Bytes Bytes) : Prop :=
  forall e, ok_Entry e -> e ∉ es -> m' !! entryKey e = m !! entryKey e.

Definition blockEntries (slot : Z) (hash : Bytes) : list Entry := [EHeader slot hash; ESlot hash; EExtrinsic slot hash].

Section Reading.
Context `{HashFunctions} (makeOK : Z -> bool) (spec : ChainSpec) (Hspec : codec_spec spec).

Lemma savedBlock_differ slot hash eh ee m : uint 32 slot -> differ_at (blockEntries slot hash) m (savedBlock slot hash eh ee m).
Proof.
  intros Hs e He Hne. unfold savedBlock, blockEntries in *. rewrite !not_elem_of_cons in Hne. destruct Hne as (?&?&?&_). by entries.
Qed.

Lemma deletedBlock_differ slot hash m : uint 32 slot -> differ_at (blockEntries slot hash) m (deletedBlock slot hash m).
Proof.
  intros Hs e He Hne. unfold deletedBlock, blockEntries in *. rewrite !not_elem_of_cons in Hne. destruct Hne as (?&?&?&_). by entries.
Qed.

(** A well-formed block has encodings that are read back. *)
Lemma block_codes b : ok_Block makeOK spec b -> exists eh ee,
  enc_Header spec (b_Header b) = Ret (Some eh) /\ decodeValue (dec_Header makeOK spec) eh = Ret (Some (b_Header b)) /\
  enc_Extrinsic spec (b_Extrinsic b) = Ret (Some ee) /\ decodeValue (dec_Extrinsic makeOK spec) ee = Ret (Some (b_Extrinsic b)) /\
  uint 32 (h_Slot (b_Header b)).
Proof.
  intros [Hh He]. destruct (codes_decoded _ _ _ (rt_Header makeOK spec _ Hh)) as (eh & ? & ?).
  destruct (codes_decoded _ _ _ (rt_Extrinsic makeOK spec Hspec _ He)) as (ee & ? & ?). exists eh, ee. split_and!; [done..|apply Hh].
Qed.

Lemma decode_slot slot : uint 32 slot -> decodeValue dec_TimeSlot (le_bytes 4 slot) = Ret (Some slot).
Proof.
  intros Hs. destruct (codes_decoded _ _ _ (codes_LE 4 4 slot eq_refl Hs)) as (bs & E & Hd).
  unfold Encode.put in E. rewrite EncodeUintWithLength_le in E by done. by injection E as <-.
Qed.

(** C28: A saved block is read back by its hash and slot, whether it is written
    to the database or to a batch, and the only entries that change are the
    three of the block. *)
Theorem SaveBlock_correct `{WriterLaws T} b (t : T) : ok_Block makeOK spec b -> usable t -> exists h t',
  ComputeBlockHeaderHash spec (b_Header b) = Ret (Some h) /\
  SaveBlock spec b t = Ret (t', Some ()) /\ usable t' /\
  forall m, GetBlock makeOK spec (opened (view t' m)) h (h_Slot (b_Header b)) = Ret (Some b) /\
    GetHeaderTimeSlot (opened (view t' m)) h = Ret (Some (h_Slot (b_Header b))) /\
    differ_at (blockEntries (h_Slot (b_Header b)) h) (view t m) (view t' m).
Proof.
  intros Hb Ht. destruct (block_codes b Hb) as (eh & ee & Eh & Dh & Ee & De & Hs).
  destruct (SaveBlock_writes spec b eh ee Eh Ee t Ht) as (t' & Es & Ht' & Hv). exists (Blake2bHash eh), t'.
  split_and!; [unfold ComputeBlockHeaderHash; by rewrite Eh|done..|]. intros m. rewrite Hv. split_and!.
  - unfold GetBlock, GetHeader, GetExtrinsic. rewrite headerKey_entry, extrinsicKey_entry. cbn [mbind go_bind].
    rewrite (load_stored _ (dec_Header makeOK spec) _ (b_Header b)); [|exists eh; split; [|exact Dh]; unfold savedBlock; by entries]. cbn [mbind go_bind].
    rewrite (load_stored _ (dec_Extrinsic makeOK spec) _ (b_Extrinsic b)); [|exists ee; split; [|exact De]; unfold savedBlock; by entries]. cbn. by destruct b.
  - apply load_stored. exists (le_bytes 4 (h_Slot (b_Header b))). split; [|by apply decode_slot].
    change (headerTimeSlotKey ?h) with (entryKey (ESlot h)). unfold savedBlock. by entries.
  - by apply savedBlock_differ.
Qed.

Lemma DeleteBlock_correct `{WriterLaws T} hash slot (t : T) : uint 32 slot -> usable t -> exists t',
  DeleteBlock hash slot t = Ret (t', Some ()) /\ usable t' /\
  forall m, GetBlock makeOK spec (opened (view t' m)) hash slot = Ret None /\
    GetHeaderTimeSlot (opened (view t' m)) hash = Ret None /\
    differ_at (blockEntries slot hash) (view t m) (view t' m).
Proof.
  intros Hs Ht. destruct (DeleteBlock_writes hash slot t Ht) as (t' & Es & Ht' & Hv). exists t'. split_and!; [done..|].
  intros m. rewrite Hv. split_and!; [| |by apply deletedBlock_differ].
  - unfold GetBlock, GetHeader. rewrite headerKey_entry. cbn [mbind go_bind].
    rewrite (load_missing _ (dec_Header makeOK spec)); [done|]. unfold deletedBlock. by entries.
  - apply load_missing. change (headerTimeSlotKey ?h) with (entryKey (ESlot h)). unfold deletedBlock. by entries.
Qed.

(** The pairs of a state as the codec represents them. *)
Definition ok_StateKeyVals (kvs : list StateKeyVal) : Prop := slice makeOK (ok_StateKeyVal makeOK) kvs.

(** Saving the root of a block, and the state with that root. *)
Definition saveState {T} `{Writer T} (hash root : Bytes) (kvs : list StateKeyVal) : Tx T unit :=
  SaveStateRootByHeaderHash hash root ≫= fun _ => SaveStateData root kvs.

Lemma saveState_writes `{WriterLaws T} hash root kvs bs : enc_StateKeyVals kvs = Ret (Some bs) ->
  writes (insert (entryKey (EData root)) bs ∘ insert (entryKey (ERoot hash)) root) () (saveState (T := T) hash root kvs).
Proof. intros E. unfold saveState. eapply writes_bind; [apply SaveStateRoot_writes|by apply SaveStateData_writes]. Qed.

Definition stateEntries (hash root : Bytes) : list Entry := [ERoot hash; EData root].

Lemma state_read m hash root kvs bs : length root = 32%nat -> m !! entryKey (ERoot hash) = Some root ->
  m !! entryKey (EData root) = Some bs -> decodeValue (dec_StateKeyVals makeOK) bs = Ret (Some kvs) ->
  GetStateRootByHeaderHash (opened m) hash = Ret (Some root) /\ GetStateDataByHeaderHash makeOK (opened m) hash = Ret (Some kvs).
Proof.
  intros Hl Er Ed Hd.
  assert (Hroot : GetStateRootByHeaderHash (opened m) hash = Ret (Some root)).
  { unfold GetStateRootByHeaderHash. rewrite lookupKey_opened. change (stateRootKey hash) with (entryKey (ERoot hash)).
    rewrite Er. cbn [mbind go_bind]. rewrite gcopy_full; [done|by rewrite Hl]. }
  split; [done|]. unfold GetStateDataByHeaderHash. rewrite Hroot. cbn [mbind go_bind]. apply load_stored. exists bs. split; [exact Ed|done].
Qed.

(** C34: A saved state is read back by the hash of its block, and the only
    entries that change are its root and its data. *)
Theorem SaveState_correct `{WriterLaws T} hash root kvs (t : T) :
  ok_StateKeyVals kvs -> length root = 32%nat -> usable t -> exists t',
  saveState hash root kvs t = Ret (t', Some ()) /\ usable t' /\
  forall m, GetStateRootByHeaderHash (opened (view t' m)) hash = Ret (Some root) /\
    GetStateDataByHeaderHash makeOK (opened (view t' m)) hash = Ret (Some kvs) /\
    differ_at (stateEntries hash root) (view t m) (view t' m).
Proof.
  intros Hk Hr Ht. destruct (codes_decoded _ _ _ (rt_StateKeyVals makeOK kvs Hk)) as (bs & Eb & Hd).
  destruct (saveState_writes hash root kvs bs Eb t Ht) as (t' & Es & Ht' & Hv).
  exists t'. split_and!; [done..|]. intros m. rewrite Hv. cbn [compose].
  destruct (state_read (<[entryKey (EData root) := bs]> (<[entryKey (ERoot hash) := root]> (view t m))) hash root kvs bs)
    as [? ?]; [done|by entries..|done|].
  split_and!; [done..|]. intros e He Hne. unfold stateEntries in Hne. rewrite !not_elem_of_cons in Hne. destruct Hne as (?&?&_). by entries.
Qed.

(** The lengths and widths of the segment map. *)
Lemma GetSegmentErasureMap_set now expiresAt segmentRoot erasureRoot m :
  length erasureRoot = 32%nat -> - 2 ^ 63 <= expiresAt < 2 ^ 63 -> exists db,
  SetSegmentErasureMap segmentRoot erasureRoot expiresAt (opened m) = Ret (db, Some ()) /\
  GetSegmentErasureMap now db segmentRoot = Ret (Some (if expiresAt <? now then zeroArray 32 else erasureRoot)).
Proof.
  intros Hl Hx. exists (opened (<[segmentErasureKey segmentRoot := erasureRoot ++ reverse (le_bytes 8 (uN 64 expiresAt))]> m)).
  split; [done|]. unfold GetSegmentErasureMap. rewrite Get_opened, lookup_insert_eq.
  assert (Hlen : length (le_bytes 8 (uN 64 expiresAt)) = 8%nat) by by rewrite le_bytes_length.
  assert (lenOf (erasureRoot ++ reverse (le_bytes 8 (uN 64 expiresAt))) = 40) as ->
    by (unfold lenOf; rewrite length_app, length_reverse; lia).
  cbn [Z.ltb Z.compare Pos.compare Pos.compare_cont]. rewrite drop_app_length', take_app_length' by done.
  rewrite take_ge by (rewrite length_reverse; lia). rewrite reverse_involutive, le_val_bytes by done.
  rewrite Z.mod_small by (apply uN_range; lia).
  assert (sN 64 (uN 64 expiresAt) = expiresAt) as ->; [|by destruct (expiresAt <? now)].
  rewrite <- (sN_id 64 expiresAt) at 2 by lia. unfold sN, uN. by rewrite Z.mod_mod by lia.
Qed.

End Reading.

(** ** The headers of a slot

    Every key with the prefix of the headers is that of the header under it. *)
Section Index.
Context `{HashFunctions}.

Definition indexed (m : gmap Bytes Bytes) : Prop := forall k v, m !! k = Some v -> hasPrefix headerPrefix k = true ->
  exists slot, uint 32 slot /\ k = entryKey (EHeader slot (Blake2bHash v)).

Lemma indexed_empty : indexed ∅.
Proof. intros k v. by rewrite lookup_empty. Qed.

Lemma indexed_delete k m : indexed m -> indexed (base.delete k m).
Proof. intros Hm k' v [_ Hk]%lookup_delete_Some. by apply Hm. Qed.

Lemma indexed_other e v m : (forall slot h, e <> EHeader slot h) -> indexed m -> indexed (<[entryKey e := v]> m).
Proof.
  intros He Hm k' v' [[<- _]|[_ Hk]]%lookup_insert_Some; [|by apply Hm]. intros Hp. exfalso.
  destruct e; [by eapply He|discriminate Hp..].
Qed.

Lemma indexed_header slot v m : uint 32 slot -> indexed m -> indexed (<[entryKey (EHeader slot (Blake2bHash v)) := v]> m).
Proof. intros Hs Hm k' v' [[<- <-]|[_ Hk]]%lookup_insert_Some; [|by apply Hm]. intros _. by exists slot. Qed.

Lemma indexed_savedBlock slot eh ee m : uint 32 slot -> indexed m -> indexed (savedBlock slot (Blake2bHash eh) eh ee m).
Proof. intros Hs Hm. unfold savedBlock. apply indexed_other; [done|]. apply indexed_header; [done|]. by apply indexed_other. Qed.

Lemma indexed_deletedBlock slot hash m : indexed m -> indexed (deletedBlock slot hash m).
Proof. intros Hm. unfold deletedBlock. by do 3 apply indexed_delete. Qed.

Lemma hasPrefix_app p k : hasPrefix p k = true <-> exists s, k = p ++ s.
Proof.
  unfold hasPrefix. rewrite bool_decide_eq_true. split; [|by intros [s ->]; rewrite take_app_length].
  intros E. exists (drop (length p) k). by rewrite <- E at 1; rewrite take_drop.
Qed.

(** The prefix of a slot is that of the keys of its headers only. *)
Lemma slot_prefix slot slot' h : uint 32 slot -> uint 32 slot' ->
  hasPrefix ((headerPrefix ++ le_bytes 4 slot) ++ separator) (entryKey (EHeader slot' h)) = true <-> slot' = slot.
Proof.
  intros Hs Hs'. rewrite hasPrefix_app. split; [|intros ->; by exists h].
  intros [s Hk]. cbn [entryKey] in Hk. by apply tagged_slot_inj in Hk as [-> _].
Qed.

(** The headers found for a slot are those stored under it, in a database
    whose headers are stored under their own hash; saving and deleting a block
    keeps that. *)
Theorem GetHeaderHashesByTimeSlot_correct m slot : indexed m -> uint 32 slot -> exists hashes,
  GetHeaderHashesByTimeSlot (opened m) slot = Ret (Some hashes) /\
  (forall h, h ∈ hashes <-> is_Some (m !! entryKey (EHeader slot h))) /\
  (forall eh ee, indexed (savedBlock slot (Blake2bHash eh) eh ee m)) /\
  (forall hash, indexed (deletedBlock slot hash m)).
Proof.
  intros Hm Hs. unfold GetHeaderHashesByTimeSlot, headerKeyPrefix. rewrite enc_TimeSlot_le. eexists. split; [reflexivity|].
  split_and!; [|intros; by apply indexed_savedBlock|intros; by apply indexed_deletedBlock].
  intros h. rewrite list_elem_of_fmap. setoid_rewrite list_elem_of_filter. setoid_rewrite (sortedEntries_perm _ _).
  setoid_rewrite elem_of_map_to_list'. rewrite app_nil_r. split.
  - intros ([k v] & -> & Hp & Hk). cbn [fst snd] in *. apply hasPrefix_app in Hp as Hx. destruct Hx as [s Hx].
    destruct (Hm k v Hk) as (slot' & Hs' & ->); [subst k; by apply hasPrefix_app; rewrite <- !app_assoc; eexists|].
    apply slot_prefix in Hp as ->; [|done..]. by eexists.
  - intros [v Hv]. exists (entryKey (EHeader slot h), v). cbn [fst snd].
    destruct (Hm _ _ Hv) as (slot' & Hs' & He); [by apply hasPrefix_app; cbn [entryKey]; rewrite <- !app_assoc; eexists|].
    apply entryKey_inj in He as [= <- ->]; [|done..]. split_and!; [done|by apply slot_prefix|done].
Qed.

End Index.

(** ** Batches *)

Section Batches.
Context `{HashFunctions} (makeOK : Z -> bool) (spec : ChainSpec) (Hspec : codec_spec spec).

(** Writing a block or a state through a batch that is then committed is
    writing it to the database. *)
Theorem batches_direct db : is_open db ->
  (forall b, ok_Block makeOK spec b -> WithBatch (SaveBlock spec b) db = SaveBlock spec b db) /\
  (forall hash slot, WithBatch (DeleteBlock hash slot) db = DeleteBlock hash slot db) /\
  (forall hash root kvs, ok_StateKeyVals makeOK kvs -> WithBatch (saveState hash root kvs) db = saveState hash root kvs db).
Proof.
  intros Hdb. split_and!.
  - intros b Hb. destruct (block_codes makeOK spec Hspec b Hb) as (eh & ee & Eh & _ & Ee & _).
    by eapply batch_direct; [apply (SaveBlock_writes spec b eh ee)..|].
  - intros hash slot. by eapply batch_direct; [apply DeleteBlock_writes..|].
  - intros hash root kvs Hk. destruct (codes_decoded _ _ _ (rt_StateKeyVals makeOK kvs Hk)) as (bs & Eb & _).
    by eapply batch_direct; [by apply saveState_writes..|].
Qed.

End Batches.
