(* ===== verification/Blockchain.v ===== *)
(** * The node's chain

    src/internal/blockchain/chain_state.go with unfinalized_blocks.go,
    ancestry.go and validators.go: the blocks the node holds, their
    finality, the ancestry, and the databases that keep blocks and states;
    committing a state, going back to that of an earlier block, and dropping
    old data.

    The states of the transition are the [ChainState] of Store.v, whose
    [latestBlock] is set from the list of blocks when the transition runs
    (FuzzTarget.v). The persistent database is an instance of the classes of
    Repository.v; as a target of the fuzzer the node has none, and its uses
    go to the memory database. An error that is only logged is dropped. *)

From stdpp Require Import sorting.
From S2P Require Import Prelude Words Types Config Codec Encode Decoders Crypto Store Trie StateSer Repository.
Local Open Scope Z_scope.

Definition FuzzPersistentRetainBlocks : Z := 24.

(** ** Blocks (unfinalized_blocks.go) *)

Definition zeroHeader : Header :=
  MkHeader (zeroArray 32) (zeroArray 32) (zeroArray 32) 0 None None 0 (zeroArray 96) [] (zeroArray 96).
Definition zeroExtrinsic : Extrinsic := MkExtrinsic [] [] [] [] (MkDisputesExtrinsic [] [] []).
Definition zeroBlock : Block := MkBlock zeroHeader zeroExtrinsic.

(** [for i := n - 1; i >= 0; i--]: the first index that [p] holds of. *)
Fixpoint searchDown {A} (p : A -> go bool) (l : list A) (n : nat) : go (option nat) :=
  match n with
  | O => Ret None
  | S i => x ← zindex l (Z.of_nat i); found ← p x; if found : bool then Ret (Some i) else searchDown p l i
  end.

Definition AddBlock_unfinalized (block : Block) (blocks : list Block) : list Block := blocks ++ [block].

Definition KeepRecent {A} (n : Z) (blocks : list A) : list A :=
  if n <? lenOf blocks then drop (Z.to_nat (lenOf blocks - n)) blocks else blocks.

Definition GetLatest (blocks : list Block) : go Block := zindex blocks (lenOf blocks - 1).

(** [SetHeader] and [SetExtrinsic] of the latest block. *)
Definition SetHeader (header : Header) (blocks : list Block) : go (list Block) :=
  b ← GetLatest blocks; zupdate blocks (lenOf blocks - 1) (MkBlock header (b_Extrinsic b)).
Definition SetExtrinsic (extrinsic : Extrinsic) (blocks : list Block) : go (list Block) :=
  b ← GetLatest blocks; zupdate blocks (lenOf blocks - 1) (MkBlock (b_Header b) extrinsic).

(** ** Ancestry (ancestry.go) *)

Section Ancestry.
Context (spec : ChainSpec).

Definition AncestryCache_AppendAncestry (newAncestry ancestry : list AncestryItem) : list AncestryItem :=
  match newAncestry with [] => ancestry | _ => KeepRecent (MaxLookupAge spec) (ancestry ++ newAncestry) end.

Definition AncestryCache_KeepAncestryUpTo (headerHash : Bytes) (ancestry : list AncestryItem) : go (list AncestryItem) :=
  i ← searchDown (fun a => Ret (bool_decide (an_HeaderHash a = headerHash))) ancestry (length ancestry);
  Ret (match i with None => [] | Some i => take (S i) ancestry end).

End Ancestry.

(** ** Validators (validators.go): an error is the full list. *)
Definition AddValidator (spec : ChainSpec) (validator : Validator) (vs : list Validator) : option (list Validator) :=
  if lenOf vs =? ValidatorsCount spec then None else Some (vs ++ [validator]).
Definition GetValidatorByIndex (index : Z) (vs : list Validator) : go Validator := zindex vs index.

(** ** The node *)

Record persistedEntry := MkPersistedEntry { pe_stateRoot : Bytes; pe_headerHash : Bytes; pe_slot : Z }.

Section Node.
Context {PDB : Type} `{!Reader PDB, !Writer PDB}.

(** [nd_persistentRepo] is [None] when [persistentRepo] is [repo]. *)
Record Node := MkNode {
  nd_repo : memoryDB;
  nd_persistentRepo : option PDB;
  nd_unfinalizedBlocks : list Block;
  nd_finalizedIndex : gset Bytes;
  nd_posteriorCurrentValidators : list Validator;
  nd_persistedEntries : list persistedEntry;
  nd_chain : ChainState;
  nd_keyLevelCache : KeyLevelCache }.

Definition setRepo (db : memoryDB) (n : Node) : Node :=
  MkNode db (nd_persistentRepo n) (nd_unfinalizedBlocks n) (nd_finalizedIndex n) (nd_posteriorCurrentValidators n)
    (nd_persistedEntries n) (nd_chain n) (nd_keyLevelCache n).
Definition setPersistent (db : option PDB) (n : Node) : Node :=
  MkNode (nd_repo n) db (nd_unfinalizedBlocks n) (nd_finalizedIndex n) (nd_posteriorCurrentValidators n)
    (nd_persistedEntries n) (nd_chain n) (nd_keyLevelCache n).
Definition setBlocks (bs : list Block) (n : Node) : Node :=
  MkNode (nd_repo n) (nd_persistentRepo n) bs (nd_finalizedIndex n) (nd_posteriorCurrentValidators n)
    (nd_persistedEntries n) (nd_chain n) (nd_keyLevelCache n).
Definition setFinalized (f : gset Bytes) (n : Node) : Node :=
  MkNode (nd_repo n) (nd_persistentRepo n) (nd_unfinalizedBlocks n) f (nd_posteriorCurrentValidators n)
    (nd_persistedEntries n) (nd_chain n) (nd_keyLevelCache n).
Definition setValidators (vs : list Validator) (n : Node) : Node :=
  MkNode (nd_repo n) (nd_persistentRepo n) (nd_unfinalizedBlocks n) (nd_finalizedIndex n) vs
    (nd_persistedEntries n) (nd_chain n) (nd_keyLevelCache n).
Definition setPersisted (es : list persistedEntry) (n : Node) : Node :=
  MkNode (nd_repo n) (nd_persistentRepo n) (nd_unfinalizedBlocks n) (nd_finalizedIndex n) (nd_posteriorCurrentValidators n)
    es (nd_chain n) (nd_keyLevelCache n).
Definition onChain (f : ChainState -> ChainState) (n : Node) : Node :=
  MkNode (nd_repo n) (nd_persistentRepo n) (nd_unfinalizedBlocks n) (nd_finalizedIndex n) (nd_posteriorCurrentValidators n)
    (nd_persistedEntries n) (f (nd_chain n)) (nd_keyLevelCache n).
Definition setCache (c : KeyLevelCache) (n : Node) : Node :=
  MkNode (nd_repo n) (nd_persistentRepo n) (nd_unfinalizedBlocks n) (nd_finalizedIndex n) (nd_posteriorCurrentValidators n)
    (nd_persistedEntries n) (nd_chain n) c.

(** fuzzenv.go *)
Definition Enabled (n : Node) : bool := match nd_persistentRepo n with None => true | Some _ => false end.

(** Writing to and reading from the databases. *)
Definition onRepo {A} (tx : Tx memoryDB A) : Tx Node A := fun n => r ← tx (nd_repo n); Ret (setRepo (fst r) n, snd r).

Definition onPersistent {A} (tx : forall T, Writer T -> Tx T A) : Tx Node A := fun n =>
  match nd_persistentRepo n with
  | None => onRepo (tx memoryDB _) n
  | Some db => r ← tx PDB _ db; Ret (setPersistent (Some (fst r)) n, snd r)
  end.

Definition readPersistent {A} (f : forall R, Reader R -> R -> go (option A)) (n : Node) : go (option A) :=
  match nd_persistentRepo n with None => f memoryDB _ (nd_repo n) | Some db => f PDB _ db end.

(** The error is logged. *)
Definition logged {A} (tx : Tx Node A) (n : Node) : go Node := r ← tx n; Ret (fst r).

(** Fields of the store of the transition. *)
Definition SetPriorStateUnmatchedKeyVals (v : list StateKeyVal) (cs : ChainState) : ChainState :=
  MkChainState (priorStates cs) (posteriorStates cs) (intermediateStates cs) (latestBlock cs) (processingBlock cs)
    v (postStateUnmatchedKeyVals cs) (ancestry cs) (verifierCache cs) (priorRhoShared cs) (posteriorRhoShared cs) (sharing cs).
Definition SetAncestry (v : list AncestryItem) (cs : ChainState) : ChainState :=
  MkChainState (priorStates cs) (posteriorStates cs) (intermediateStates cs) (latestBlock cs) (processingBlock cs)
    (preStateUnmatchedKeyVals cs) (postStateUnmatchedKeyVals cs) v (verifierCache cs) (priorRhoShared cs) (posteriorRhoShared cs) (sharing cs).
Definition SetLatestBlock (b : Block) (cs : ChainState) : ChainState :=
  MkChainState (priorStates cs) (posteriorStates cs) (intermediateStates cs) b (processingBlock cs)
    (preStateUnmatchedKeyVals cs) (postStateUnmatchedKeyVals cs) (ancestry cs) (verifierCache cs) (priorRhoShared cs) (posteriorRhoShared cs) (sharing cs).
(** [SetState] of the prior and of the posterior states, with a state of its own. *)
Definition SetPriorState (s : State) (cs : ChainState) : ChainState :=
  MkChainState s (posteriorStates cs) (intermediateStates cs) (latestBlock cs) (processingBlock cs)
    (preStateUnmatchedKeyVals cs) (postStateUnmatchedKeyVals cs) (ancestry cs) (verifierCache cs) false (posteriorRhoShared cs)
    (let sh := sharing cs in MkSharing (newArrays (nextArray sh)) (posteriorArrays sh) (nextArrays (nextArray sh)) ∅).
Definition SetPosteriorState (s : State) (cs : ChainState) : ChainState :=
  MkChainState (priorStates cs) s (intermediateStates cs) (latestBlock cs) (processingBlock cs)
    (preStateUnmatchedKeyVals cs) (postStateUnmatchedKeyVals cs) (ancestry cs) (verifierCache cs) (priorRhoShared cs) false
    (let sh := sharing cs in MkSharing (priorArrays sh) (newArrays (nextArray sh)) (nextArrays (nextArray sh)) (carriedAccounts sh)).

Section Operations.
Context `{HashFunctions} (makeOK : Z -> bool) (spec : ChainSpec) (arrange : list StateKeyVal -> list StateKeyVal).

(** [ResetInstance]: the persistent database, if there is one, stays. *)
Definition NewPriorStates : State :=
  MkState (replicate (Z.to_nat (CoresCount spec)) None) (replicate (Z.to_nat (CoresCount spec)) []) (MkRecentBlocks [] []) zeroSafrole
    (MkDisputesRecords [] [] [] []) (replicate 4 (zeroArray 32)) [] [] []
    (replicate (Z.to_nat (CoresCount spec)) None) 0 (MkPrivileges 0 0 0 (replicate (Z.to_nat (CoresCount spec)) 0) ∅)
    (MkStatistics [] [] [] ∅)
    (replicate (Z.to_nat (EpochLength spec)) []) [] (replicate (Z.to_nat (EpochLength spec)) []) ∅.

Definition NewIntermediateStates : IntermediateState :=
  MkIntermediate [] (replicate (Z.to_nat (CoresCount spec)) None) (replicate (Z.to_nat (CoresCount spec)) None) ∅ ∅
    [] [] [] [] [] ∅ (zeroArray 32).

Definition newChainState (persistent : option PDB) : Node :=
  MkNode NewDatabase persistent [] ∅ [] []
    (MkChainState NewPriorStates (NewPosteriorStates spec) NewIntermediateStates zeroBlock zeroBlock [] [] [] None false false noSharing)
    NewKeyLevelCache.

Definition ResetInstance (n : Node) : Node := newChainState (nd_persistentRepo n).

(** ** Ancestry *)

Definition AppendAncestry (a : list AncestryItem) (n : Node) : Node :=
  onChain (fun cs => SetAncestry (AncestryCache_AppendAncestry spec a (ancestry cs)) cs) n.

Definition KeepAncestryUpTo (headerHash : Bytes) (n : Node) : go Node :=
  a ← AncestryCache_KeepAncestryUpTo headerHash (ancestry (nd_chain n)); Ret (onChain (SetAncestry a) n).

Definition ClearAncestry (n : Node) : Node := onChain (SetAncestry []) n.

Definition AddAncestorHeader (header : Header) (n : Node) : go Node :=
  h ← ComputeBlockHeaderHash spec header;
  match h with None => Ret n | Some hash => Ret (AppendAncestry [MkAncestryItem (h_Slot header) hash] n) end.

(** ** Blocks *)

(** A header that cannot be encoded is passed over. *)
Definition hasHash (headerHash : Bytes) (b : Block) : go bool :=
  h ← ComputeBlockHeaderHash spec (b_Header b); Ret (bool_decide (h = Some headerHash)).

Definition KeepBlocksUpTo (headerHash : Bytes) (blocks : list Block) : go (list Block) :=
  i ← searchDown (hasHash headerHash) blocks (length blocks);
  Ret (match i with None => [] | Some i => take (S i) blocks end).

Definition GetLatestBlock (n : Node) : go Block := GetLatest (nd_unfinalizedBlocks n).

Definition SaveBlockByHashToPersistent (hash : Bytes) (block : Block) : Tx Node unit :=
  onPersistent (fun T _ => SaveBlockByHash spec hash block).

Definition persistBlockMapping (block : Block) : Tx Node unit := fun n =>
  (headerHash ← attempt (ComputeBlockHeaderHash spec (b_Header block));
   if Enabled n then
     onRepo (SaveBlock spec block) ≫= fun _ => onRepo (SaveHeaderTimeSlot headerHash (h_Slot (b_Header block)))
   else
     SaveBlockByHashToPersistent headerHash block ≫= fun _ =>
     onPersistent (fun T _ => SaveHeaderTimeSlot headerHash (h_Slot (b_Header block)))) n.

Definition AddBlock (block : Block) (n : Node) : go Node :=
  logged (persistBlockMapping block) (setBlocks (AddBlock_unfinalized block (nd_unfinalizedBlocks n)) n).

Definition StoreBlockByHash (hash : Bytes) (block : Block) (n : Node) : go Node := AddBlock block n.

(** The genesis block is final by the hash of its parent. *)
Definition GenerateGenesisBlock (block : Block) (n : Node) : go Node :=
  logged (persistBlockMapping block)
    (setFinalized ({[h_Parent (b_Header block)]} ∪ nd_finalizedIndex n) (setBlocks (nd_unfinalizedBlocks n ++ [block]) n)).

Definition TrimUnfinalizedBlocksForFuzz (n : Node) : Node :=
  if Enabled n then setBlocks (KeepRecent FuzzPersistentRetainBlocks (nd_unfinalizedBlocks n)) n else n.

(** *** Finality *)

Definition FinalizeBlock (blockHash : Bytes) (n : Node) : Node := setFinalized ({[blockHash]} ∪ nd_finalizedIndex n) n.
Definition IsBlockFinalized (n : Node) (blockHash : Bytes) : bool := bool_decide (blockHash ∈ nd_finalizedIndex n).

(** The last block whose parent is final. *)
Definition finalizedBlocksIdx (n : Node) : go (option nat) :=
  let allBlocks := nd_unfinalizedBlocks n in
  searchDown (fun b => Ret (IsBlockFinalized n (h_Parent (b_Header b)))) allBlocks (length allBlocks).

Definition GetFinalizedBlocks (n : Node) : go (list Block) :=
  i ← finalizedBlocksIdx n; Ret (match i with None => [] | Some i => take (S i) (nd_unfinalizedBlocks n) end).
Definition GetFinalizedBlock (n : Node) : go Block :=
  i ← finalizedBlocksIdx n; match i with None => Ret zeroBlock | Some i => zindex (nd_unfinalizedBlocks n) (Z.of_nat i) end.
Definition GetUnfinalizedBlocks (n : Node) : go (list Block) :=
  i ← finalizedBlocksIdx n; Ret (drop (match i with None => 0 | Some i => S i end) (nd_unfinalizedBlocks n)).
Definition GetLatestFinalizedBlock (n : Node) : go Block := GetFinalizedBlock n.

(** *** Retrieval *)

Definition GetBlockNumber (n : Node) (hash : Bytes) : go (option Z) := GetHeaderTimeSlot (nd_repo n) hash.
Definition GetBlockHashByNumber (n : Node) (number : Z) : go (option (list Bytes)) := GetHeaderHashesByTimeSlot (nd_repo n) number.

Definition GetGenesisBlockMaybe (n : Node) : go (option Block) :=
  ⟪ headerHash ⟫ ⇠ GetCanonicalHash (nd_repo n) 0 ⊘ Ret None; GetBlock makeOK spec (nd_repo n) headerHash 0.

(** An error is a panic. *)
Definition GetGenesisBlock (n : Node) : go Block := ⟪ b ⟫ ⇠ GetGenesisBlockMaybe n ⊘ Crash; Ret b.

Definition GenesisBlockHash (n : Node) : go Bytes :=
  genesisBlock ← GetGenesisBlock n; h ← ComputeBlockHeaderHash spec (b_Header genesisBlock); Ret (default (zeroArray 32) h).

Definition persistentBlock (n : Node) (headerHash : Bytes) : go (option Block) :=
  readPersistent (fun R _ r => Repository.GetBlockByHash makeOK spec r headerHash) n.

Definition GetBlockByHash (n : Node) (headerHash : Bytes) : go (option Block) :=
  ts ← GetHeaderTimeSlot (nd_repo n) headerHash;
  match ts with
  | None =>
      ⟪ _ ⟫ ⇠ readPersistent (fun R _ r => GetHeaderTimeSlot r headerHash) n ⊘ Ret None;
      persistentBlock n headerHash
  | Some timeSlot =>
      block ← GetBlock makeOK spec (nd_repo n) headerHash timeSlot;
      match block with Some b => Ret (Some b) | None => persistentBlock n headerHash end
  end.

(** ** States *)

Definition GenerateGenesisState (state : State) (n : Node) : Node := onChain (SetPosteriorState state) n.

(** [sort.Slice] by the key; the keys of a state differ. *)
Definition sortKeyVals (kvs : list StateKeyVal) : list StateKeyVal := merge_sort entryLe kvs.

Definition rootWithCache (kvs : list StateKeyVal) : Tx Node Bytes := fun n =>
  r ← merklizeWithKeyCache spec (nd_keyLevelCache n) kvs; Ret (setCache (snd r) n, Some (fst r)).

(** To the memory database, and to the persistent one if it is another. *)
Definition saveToDisk (stateRoot : Bytes) (kvs : list StateKeyVal) (n : Node) : go Node :=
  if Enabled n then Ret n else logged (onPersistent (fun T _ => SaveStateData stateRoot kvs)) n.

Definition saveStateData (stateRoot : Bytes) (kvs : list StateKeyVal) : Tx Node unit := fun n =>
  r ← onRepo (SaveStateData stateRoot kvs) n;
  match snd r with None => Ret r | Some _ => n ← saveToDisk stateRoot kvs (fst r); Ret (n, Some ()) end.

Definition PersistStateForBlock (blockHeaderHash : Bytes) (state : State) : Tx Node unit := fun n =>
  serializedState ← StateEncoder spec arrange state;
  (let fullStateKeyVals := sortKeyVals (serializedState ++ postStateUnmatchedKeyVals (nd_chain n)) in
   stateRoot ← rootWithCache fullStateKeyVals;
   onRepo (SaveStateRootByHeaderHash blockHeaderHash stateRoot) ≫= fun _ =>
   saveStateData stateRoot fullStateKeyVals) n.

(** A new item of the ancestry, unless there is none or it is the last. *)
Definition recordAncestry (slot : Z) (blockHeaderHash : Bytes) (n : Node) : Node :=
  match last (ancestry (nd_chain n)) with
  | None => n
  | Some item =>
      if negb (an_Slot item =? slot) || negb (bool_decide (an_HeaderHash item = blockHeaderHash))
      then AppendAncestry [MkAncestryItem slot blockHeaderHash] n else n
  end.

Definition StateCommit (n : Node) : go Node :=
  latest ← GetLatestBlock n;
  h ← ComputeBlockHeaderHash spec (b_Header latest);
  n ← match h with
      | None => Ret n
      | Some blockHeaderHash =>
          n ← logged (PersistStateForBlock blockHeaderHash (posteriorStates (nd_chain n))) n;
          n ← logged (onRepo (SaveBlock spec latest)) n;
          Ret (recordAncestry (h_Slot (b_Header latest)) blockHeaderHash n)
      end;
  Ret (onChain (Store.StateCommit spec) n).

Definition StateCommitWithPreComputedState (blockHeaderHash stateRoot : Bytes) (fullStateKeyVals : list StateKeyVal)
    (n : Node) : go Node :=
  let kvs := sortKeyVals fullStateKeyVals in
  n ← logged (onRepo (SaveStateRootByHeaderHash blockHeaderHash stateRoot)) n;
  n ← logged (onRepo (SaveStateData stateRoot kvs)) n;
  n ← saveToDisk stateRoot kvs n;
  latest ← GetLatestBlock n;
  n ← logged (onRepo (SaveBlock spec latest)) n;
  Ret (onChain (Store.StateCommit spec) (recordAncestry (h_Slot (b_Header latest)) blockHeaderHash n)).

Definition GetStateByBlockHash (n : Node) (blockHeaderHash : Bytes) : go (option (list StateKeyVal)) :=
  kvs ← GetStateDataByHeaderHash makeOK (nd_repo n) blockHeaderHash;
  match kvs with
  | Some kvs => Ret (Some kvs)
  | None => readPersistent (fun R _ r => GetStateDataByHeaderHash makeOK r blockHeaderHash) n
  end.

Definition GetStateRootByBlockHash (n : Node) (blockHeaderHash : Bytes) : go (option Bytes) :=
  root ← GetStateRootByHeaderHash (nd_repo n) blockHeaderHash;
  match root with
  | Some root => Ret (Some root)
  | None => readPersistent (fun R _ r => GetStateRootByHeaderHash r blockHeaderHash) n
  end.

(** [maxSize] of 0 is no limit. *)
Definition GetStateRange (n : Node) (headerHash keyStart keyEnd : Bytes) (maxSize : Z) : go (option (list StateKeyVal)) :=
  ⟪ kvs ⟫ ⇠ GetStateByBlockHash n headerHash ⊘ Ret None;
  let out := filter (fun kv => bytesCompare (Key kv) keyStart <> Lt /\ bytesCompare (Key kv) keyEnd = Lt) (sortKeyVals kvs) in
  Ret (Some (if 0 <? maxSize then take (Z.to_nat maxSize) out else out)).

(** ** Dropping old data *)

(** One entry, from both databases. *)
Definition pruneEntry (old : persistedEntry) (n : Node) : go Node :=
  n ← logged (onRepo (DeleteStateData (pe_stateRoot old))) n;
  n ← logged (onRepo (DeleteBlock (pe_headerHash old) (pe_slot old))) n;
  if Enabled n then Ret n
  else
    n ← logged (onPersistent (fun T _ => DeleteStateData (pe_stateRoot old))) n;
    n ← logged (onPersistent (fun T _ => DeleteBlockByHash (pe_headerHash old))) n;
    logged (onPersistent (fun T _ => DeleteHeaderTimeSlot (pe_headerHash old))) n.

Fixpoint pruneEntries (old : list persistedEntry) (n : Node) : go Node :=
  match old with [] => Ret n | e :: old => n ← pruneEntry e n; pruneEntries old n end.

Definition PruneOldData (stateRoot headerHash : Bytes) (slot : Z) (n : Node) : go Node :=
  let entries := nd_persistedEntries n ++ [MkPersistedEntry stateRoot headerHash slot] in
  if lenOf entries <=? FuzzPersistentRetainBlocks then Ret (setPersisted entries n)
  else
    let cutoff := Z.to_nat (lenOf entries - FuzzPersistentRetainBlocks) in
    n ← pruneEntries (take cutoff entries) (setPersisted entries n);
    Ret (setBlocks (KeepRecent FuzzPersistentRetainBlocks (nd_unfinalizedBlocks n)) (setPersisted (drop cutoff entries) n)).

(** ** Going back to an earlier block *)

Definition GetBlockAndState (n : Node) (blockHeaderHash : Bytes) : go (option (Block * list StateKeyVal)) :=
  ⟪ block ⟫ ⇠ GetBlockByHash n blockHeaderHash ⊘ Ret None;
  ⟪ state ⟫ ⇠ GetStateByBlockHash n blockHeaderHash ⊘ Ret None;
  Ret (Some (block, state)).

Definition restoreWithState (blockHeaderHash : Bytes) (block : Block) (state : State) (unmatchedKeyVals : list StateKeyVal)
    (n : Node) : go Node :=
  let n := onChain (fun cs => SetPostStateUnmatchedKeyVals unmatchedKeyVals
             (SetPriorStateUnmatchedKeyVals unmatchedKeyVals (SetPriorState state cs))) n in
  kept ← KeepBlocksUpTo blockHeaderHash (nd_unfinalizedBlocks n);
  let n := setBlocks kept n in
  isLatest ← match last kept with None => Ret false | Some b => hasHash blockHeaderHash b end;
  n ← (if isLatest : bool then Ret n else AddBlock block n);
  n ← KeepAncestryUpTo blockHeaderHash n;
  Ret (onChain (SetVerifierCache None) n).

Definition RestoreBlockAndState (blockHeaderHash : Bytes) : Tx Node unit := fun n =>
  ⟪ r ⟫ ⇠ GetBlockAndState n blockHeaderHash ⊘ Ret (n, None);
  ⟪ s ⟫ ⇠ StateKeyValsToState makeOK spec (snd r) ⊘ Ret (n, None);
  n ← restoreWithState blockHeaderHash (fst r) (fst s) (snd s) n; Ret (n, Some ()).

Definition RestoreStateFromSnapshot (blockHeaderHash : Bytes) (state : State) (unmatchedKeyVals : list StateKeyVal) : Tx Node unit :=
  fun n => ⟪ block ⟫ ⇠ GetBlockByHash n blockHeaderHash ⊘ Ret (n, None);
    n ← restoreWithState blockHeaderHash block state unmatchedKeyVals n; Ret (n, Some ()).

(** ** The genesis of a chain specification *)

Definition BuildStateRootInputKeyValsAndRoot (stateKeyVals : list StateKeyVal) : Tx Node (list StateKeyVal * Bytes) :=
  s ← attempt (StateKeyValsToState makeOK spec stateKeyVals);
  serializedState ← attempt (Some <$> StateEncoder spec arrange (fst s));
  stateRoot ← rootWithCache (snd s ++ serializedState);
  mret (snd s ++ serializedState, stateRoot).

Definition SeedGenesisToBackend (genesisHeader : Header) (stateKeyVals : list StateKeyVal) : Tx Node (Bytes * Bytes) :=
  genesisBlockHash ← attempt (ComputeBlockHeaderHash spec genesisHeader);
  r ← BuildStateRootInputKeyValsAndRoot stateKeyVals;
  if negb (bool_decide (h_ParentStateRoot genesisHeader = zeroArray 32)) && negb (bool_decide (snd r = h_ParentStateRoot genesisHeader))
  then attempt (Ret None)
  else
    onPersistent (fun T _ => SaveStateData (snd r) (fst r)) ≫= fun _ =>
    onPersistent (fun T _ => SaveStateRootByHeaderHash genesisBlockHash (snd r)) ≫= fun _ =>
    mret (genesisBlockHash, snd r).

Definition GetSegmentErasureMap (now : Z) (n : Node) (segmentRoot : Bytes) : go (option Bytes) :=
  readPersistent (fun R _ r => Repository.GetSegmentErasureMap now r segmentRoot) n.
Definition SetSegmentErasureMap (segmentRoot erasureRoot : Bytes) (expiresAt : Z) : Tx Node unit :=
  onPersistent (fun T _ => Repository.SetSegmentErasureMap segmentRoot erasureRoot expiresAt).

End Operations.
End Node.
Arguments Node : clear implicits.
