(* ===== verification/FuzzMessages.v ===== *)
(** * Messages of the fuzzing protocol

    src/internal/fuzz/messages.go and utils.go: the messages a fuzzer and the
    node exchange, and their encodings. A message is a length, a type and a
    payload; the payloads of blocks and states are those of the protocol
    codec, the others have a codec of their own, whose numbers are encoded by
    [compactEncode]. *)

From S2P Require Import Prelude Words Types Config Codec Encode Decoders StateSer CodecSpec Roundtrip ProtocolWf ProtocolSpec.
Local Open Scope Z_scope.

(** ** Numbers (utils.go) *)

Definition marshalUint32LE (value : Z) : Bytes := [u8 value; u8 (shr value 8); u8 (shr value 16); u8 (shr value 24)].

Definition unmarshalUint32LE (data : Bytes) : go Z :=
  a ← zindex data 0; b ← zindex data 1; c ← zindex data 2; d ← zindex data 3;
  Ret (Z.lor (Z.lor (Z.lor a (u32 (Z.shiftl b 8))) (u32 (Z.shiftl c 16))) (u32 (Z.shiftl d 24))).

Definition marshalUint8 (value : Z) : Bytes := [value].
Definition unmarshalUint8 (data : Bytes) : go Z := zindex data 0.

(** The smallest [l] below 8 with [2^(7l) <= x < 2^(7(l+1))]. *)
Fixpoint findLength (ls : list Z) (x : Z) : option Z :=
  match ls with
  | [] => None
  | i :: ls => if (shl64 1 (7 * i) <=? x) && (x <? shl64 1 (7 * (i + 1))) then Some i else findLength ls x
  end.

(** [byte(x >> (8 * i))] for [i] below [n]. *)
Definition shiftedBytes (n : nat) (x : Z) : Bytes := (fun i => u8 (shr x (8 * Z.of_nat i))) <$> seq 0 n.

Definition compactEncode (x : Z) : Bytes :=
  if x =? 0 then [0]
  else
    match findLength [0; 1; 2; 3; 4; 5; 6; 7] x with
    | Some l =>
        let prefix := u64 (u64 (shl64 1 8 - shl64 1 (8 - l)) + x / shl64 1 (8 * l)) in
        u8 prefix :: shiftedBytes (Z.to_nat l) (x mod shl64 1 (8 * l))
    | None => 0xFF :: shiftedBytes 8 x
    end.

(** [v |= uint64(data[1+i]) << (8 * i)] over [data[1:]]. *)
Fixpoint orBytes (i : Z) (data : Bytes) (v : Z) : Z :=
  match data with [] => v | b :: data => orBytes (i + 1) data (Z.lor v (shl64 b (8 * i))) end.

(** The position of the first 0 bit from the highest; 0 if there is none. *)
Fixpoint firstZeroBit (ls : list Z) (b : Z) : Z :=
  match ls with [] => 0 | i :: ls => if Z.land b (shr 128 i) =? 0 then i else firstZeroBit ls b end.

(** The value and the number of bytes read, 0 for an error. *)
Definition compactDecode (data : Bytes) : Z * Z :=
  match data with
  | [] => (0, 0)
  | b :: rest =>
      if b =? 0 then (0, 1)
      else if b =? 0xFF then
        if lenOf data <? 9 then (0, 0) else (orBytes 0 (take 8 rest) 0, 9)
      else
        let length := firstZeroBit [0; 1; 2; 3; 4; 5; 6; 7] b in
        let totalBytes := 1 + length in
        if lenOf data <? totalBytes then (0, 0)
        else
          let rem := Z.land b (u8 (shl64 1 (7 - length) - 1)) in
          if length =? 0 then (rem, 1)
          else (u64 (orBytes 0 (take (Z.to_nat length) rest) 0 + shl64 rem (8 * length)), totalBytes)
  end.

(** ** Versions *)

Record Version := MkVersion { Major : Z; Minor : Z; Patch : Z }.

(** [strings.Split(s, ".")]. *)
Fixpoint splitDots (s : Bytes) (part : Bytes) : list Bytes :=
  match s with
  | [] => [part]
  | c :: s => if c =? 46 then part :: splitDots s [] else splitDots s (part ++ [c])
  end.

(** [strconv.ParseUint(s, 10, 8)]: decimal digits of a number below 256. *)
Fixpoint parseDigits (s : Bytes) (n : Z) : option Z :=
  match s with
  | [] => Some n
  | c :: s => if (48 <=? c) && (c <=? 57) then parseDigits s (10 * n + (c - 48)) else None
  end.
Definition ParseUint8 (s : Bytes) : option Z :=
  match s with [] => None | _ => n ← parseDigits s 0; if n <? 256 then Some n else None end.

Definition Version_FromString (s : Bytes) : option Version :=
  match splitDots s [] with
  | [a; b; c] => a ← ParseUint8 a; b ← ParseUint8 b; c ← ParseUint8 c; Some (MkVersion a b c)
  | _ => None
  end.

(** [%d] of a number below 1000. *)
Definition formatUint (n : Z) : Bytes :=
  (if 100 <=? n then [48 + n / 100] else []) ++ (if 10 <=? n then [48 + n / 10 mod 10] else []) ++ [48 + n mod 10].

Definition Version_String (v : Version) : Bytes :=
  formatUint (Major v) ++ [46] ++ formatUint (Minor v) ++ [46] ++ formatUint (Patch v).

Definition Version_AppendBinary (v : Version) (data : Bytes) : Bytes := data ++ [Major v; Minor v; Patch v].

Definition Version_ReadFrom : D Version :=
  buffer ← readFull 3;
  match buffer with [a; b; c] => mret (MkVersion a b c) | _ => dfail end.

(** ** Messages *)

Record PeerInfo := MkPeerInfo {
  FuzzVersion : Z; FuzzFeatures : Z; JamVersion : Version; AppVersion : Version; AppName : Bytes }.

Record SetState := MkSetState { ss_Header : Header; ss_State : list StateKeyVal; ss_Ancestry : list AncestryItem }.

(** A nil pointer is [None]; a string is its bytes. *)
Record Message := MkMessage {
  mg_Type : Z;
  mg_PeerInfo : option PeerInfo;
  mg_ImportBlock : option Block;
  mg_SetState : option SetState;
  mg_GetState : option Bytes;
  mg_StateRoot : option Bytes;
  mg_State : option (list StateKeyVal);
  mg_Error : option Bytes }.

Definition MessageType_PeerInfo : Z := 0.
Definition MessageType_SetState : Z := 1.
Definition MessageType_StateRoot : Z := 2.
Definition MessageType_ImportBlock : Z := 3.
Definition MessageType_GetState : Z := 4.
Definition MessageType_State : Z := 5.
Definition MessageType_ErrorMessage : Z := 255.

Definition emptyMessage (ty : Z) : Message := MkMessage ty None None None None None None None.
Definition peerInfoMessage (p : PeerInfo) : Message := MkMessage MessageType_PeerInfo (Some p) None None None None None None.
Definition importBlockMessage (b : Block) : Message := MkMessage MessageType_ImportBlock None (Some b) None None None None None.
Definition setStateMessage (s : SetState) : Message := MkMessage MessageType_SetState None None (Some s) None None None None.
Definition getStateMessage (h : Bytes) : Message := MkMessage MessageType_GetState None None None (Some h) None None None.
Definition stateRootMessage (r : Bytes) : Message := MkMessage MessageType_StateRoot None None None None (Some r) None None.
Definition stateMessage (s : list StateKeyVal) : Message := MkMessage MessageType_State None None None None None (Some s) None.
Definition errorMessage (e : Bytes) : Message := MkMessage MessageType_ErrorMessage None None None None None None (Some e).

Section Messages.
Context (makeOK : Z -> bool) (spec : ChainSpec).

Definition ErrorMessage_MarshalBinary (e : Bytes) : W := put (compactEncode (lenOf e) ++ e).

(** [int(length)] and the sum wrap around. *)
Definition ErrorMessage_UnmarshalBinary (data : Bytes) : go (option Bytes) :=
  let '(length, bytesRead) := compactDecode data in
  if bytesRead =? 0 then Ret None
  else
    let stop := s64 (bytesRead + s64 length) in
    if lenOf data <? stop then Ret None else Some <$> lslice data bytesRead stop.

Definition Features_MarshalBinary (m : Z) : Bytes := marshalUint32LE m.
Definition Features_UnmarshalBinary (data : Bytes) : go Z := unmarshalUint32LE data.

Definition PeerInfo_FromValues (name strAppVersion strJamVersion : Bytes) (fuzzVersion fuzzFeatures : Z) : option PeerInfo :=
  appVersion ← Version_FromString strAppVersion;
  jamVersion ← Version_FromString strJamVersion;
  Some (MkPeerInfo fuzzVersion fuzzFeatures jamVersion appVersion (match name with [] => Crypto.bytes_of_string "JAM-Protocol" | _ => name end)).

Definition PeerInfo_MarshalBinary (m : PeerInfo) : W :=
  put (Version_AppendBinary (AppVersion m)
         (Version_AppendBinary (JamVersion m) (marshalUint8 (FuzzVersion m) ++ Features_MarshalBinary (FuzzFeatures m)))
       ++ compactEncode (lenOf (AppName m)) ++ AppName m).

(** What reads nothing. *)
Definition computed {A} (m : go A) : D A := fun buf => a ← m; Ret (Some (a, buf)).
Definition checked {A} (m : go (option A)) : D A := fun buf => o ← m; Ret (option_map (fun a => (a, buf)) o).

(** A number of the remaining bytes, which are skipped. *)
Definition readCompact : D Z := fun buf =>
  let '(n, bytesRead) := compactDecode buf in
  if bytesRead =? 0 then Ret None else Ret (Some (n, drop (Z.to_nat bytesRead) buf)).

(** [make([]byte, n)] and [io.ReadFull]. *)
Definition readMade (n : Z) : D Bytes := if makeOK n then readFull (Z.to_nat n) else dcrash.

Definition PeerInfo_UnmarshalBinary : D PeerInfo :=
  fuzzVersionBuffer ← readFull 1;
  fuzzFeaturesBuffer ← readFull 4;
  jamVersion ← Version_ReadFrom;
  appVersion ← Version_ReadFrom;
  nameLength ← readCompact;
  nameBuffer ← readMade nameLength;
  fuzzVersion ← computed (unmarshalUint8 fuzzVersionBuffer);
  fuzzFeatures ← computed (unmarshalUint32LE fuzzFeaturesBuffer);
  mret (MkPeerInfo fuzzVersion fuzzFeatures jamVersion appVersion nameBuffer).

Definition SetState_Encode (m : SetState) : W :=
  cat [enc_Header spec (ss_Header m); enc_StateKeyVals (ss_State m); enc_Ancestry (ss_Ancestry m)].

Definition SetState_Decode : D SetState :=
  a ← dec_Header makeOK spec; b ← dec_StateKeyVals makeOK; c ← dec_Ancestry makeOK spec; mret (MkSetState a b c).

(** The payload of the type; a method of a nil pointer panics. *)
Definition payloadOf {A} (f : A -> W) (m : option A) : W := match m with Some x => f x | None => Crash end.

Definition payload (m : Message) : W :=
  if mg_Type m =? MessageType_PeerInfo then payloadOf PeerInfo_MarshalBinary (mg_PeerInfo m)
  else if mg_Type m =? MessageType_ImportBlock then payloadOf (enc_Block spec) (mg_ImportBlock m)
  else if mg_Type m =? MessageType_SetState then payloadOf SetState_Encode (mg_SetState m)
  else if mg_Type m =? MessageType_GetState then payloadOf enc_HeaderHash (mg_GetState m)
  else if mg_Type m =? MessageType_StateRoot then payloadOf enc_StateRoot (mg_StateRoot m)
  else if mg_Type m =? MessageType_State then payloadOf enc_StateKeyVals (mg_State m)
  else if mg_Type m =? MessageType_ErrorMessage then payloadOf ErrorMessage_MarshalBinary (mg_Error m)
  else fail.

Definition Message_MarshalBinary (m : Message) : W :=
  ⟪ payload ⟫ ⇠ payload m ⊘ Ret None;
  let encodedMessageLength := u32 (lenOf payload + 1) in
  put ((le_bytes 4 encodedMessageLength ++ [u8 (mg_Type m)]) ++ payload).

Definition unmarshalAs {A} (f : A -> Message) (r : go (option A)) : go (option Message) := o ← r; Ret (option_map f o).

(** Bytes of the payload that are left over are ignored. *)
Definition unmarshal (ty : Z) (data : Bytes) : go (option Message) :=
  if ty =? MessageType_PeerInfo then unmarshalAs peerInfoMessage (decodeValue PeerInfo_UnmarshalBinary data)
  else if ty =? MessageType_ImportBlock then unmarshalAs importBlockMessage (decodeValue (dec_Block makeOK spec) data)
  else if ty =? MessageType_SetState then unmarshalAs setStateMessage (decodeValue SetState_Decode data)
  else if ty =? MessageType_GetState then unmarshalAs getStateMessage (decodeValue dec_HeaderHash data)
  else if ty =? MessageType_StateRoot then unmarshalAs stateRootMessage (decodeValue dec_StateRoot data)
  else if ty =? MessageType_ErrorMessage then unmarshalAs errorMessage (ErrorMessage_UnmarshalBinary data)
  else if ty =? MessageType_State then unmarshalAs stateMessage (decodeValue (dec_StateKeyVals makeOK) data)
  else Ret None.

Definition Message_ReadFrom : D Message :=
  encodedMessageLength ← readLE 4;
  ty ← ReadByte;
  data ← readMade (u32 (encodedMessageLength - 1));
  checked (unmarshal ty data).

End Messages.

(** * Theorems *)

(** ** Numbers *)

Lemma shiftedBytes_le n x : 0 <= x -> shiftedBytes n x = le_bytes (Z.of_nat n) x.
Proof.
  rewrite <- leLoop_le_bytes. revert x. induction n as [|n IH]; intros x Hx; [done|].
  unfold shiftedBytes. cbn [seq fmap list_fmap leLoop]. f_equal.
  - change 0xFF with (Z.ones 8). unfold uN, shr. by rewrite Z.mul_0_r, Z.shiftr_0_r, Z.land_ones by done.
  - rewrite <- IH by (apply Z.shiftr_nonneg; done). unfold shiftedBytes. 
    rewrite <- fmap_S_seq, <- list_fmap_compose. apply list_fmap_ext. intros i y _. cbn. unfold shr.
    rewrite Z.shiftr_shiftr by lia. do 2 f_equal. lia.
Qed.

Lemma serializeSearch_find ls x : (forall l, l ∈ ls -> 0 <= l <= 7) ->
  serializeSearch ls x = (fun l => u8 (u64 ((256 - shl64 1 (8 - l)) + x / shl64 1 (8 * l))) :: SerializeFixedLength (x mod shl64 1 (8 * l)) l)
    <$> findLength ls x.
Proof.
  induction ls as [|l ls IH]; intros Hl; [done|]. cbn [serializeSearch findLength].
  destruct (_ && _); [done|]. apply IH. intros k Hk. apply Hl. by right.
Qed.

Lemma findLength_elem ls x l : findLength ls x = Some l -> l ∈ ls.
Proof. induction ls as [|k ls IH]; [done|]. cbn. destruct (_ && _); [intros [= ->]; by left|]. right. by apply IH. Qed.

(** The encoding of the protocol codec. *)
Lemma compactEncode_ok x : 0 <= x < 2 ^ 64 -> compactEncode x = nat_encode x.
Proof.
  intros Hx. rewrite <- SerializeU64_ok by done. unfold compactEncode, SerializeU64. destruct (x =? 0); [done|].
  rewrite serializeSearch_find by (intros l; rewrite !elem_of_cons, elem_of_nil; lia).
  destruct (findLength _ x) as [l|] eqn:E; cbn [fmap option_fmap option_map].
  - apply findLength_elem in E. rewrite !elem_of_cons, elem_of_nil in E.
    rewrite shiftedBytes_le, Z2Nat.id by (rewrite ?(shl64_pow (8 * l)) by lia; lia || (apply Z.mod_pos_bound, Z.pow_pos_nonneg; lia)).
    rewrite SerializeFixedLength_le by lia. f_equal. f_equal. change (shl64 1 8) with 256.
    rewrite (uN_small 64 (256 - _)); [done|]. rewrite shl64_pow by lia.
    pose proof (Z.pow_le_mono_r 2 (8 - l) 8). pose proof (Z.pow_pos_nonneg 2 (8 - l)). lia.
  - by rewrite shiftedBytes_le, SerializeFixedLength_le by lia.
Qed.

Lemma orBytes_val d i v : Forall is_byte d -> 0 <= i -> i + lenOf d <= 8 -> 0 <= v < 2 ^ (8 * i) ->
  orBytes i d v = v + le_val d * 2 ^ (8 * i).
Proof.
  intros Hd. revert i v. unfold lenOf. induction Hd as [|b d Hb Hd IH]; intros i v Hi Hl Hv; cbn [orBytes].
  { change (le_val []) with 0. lia. }
  cbn [length] in Hl. unfold is_byte in Hb.
  assert (2 ^ (8 * (i + 1)) = 2 ^ 8 * 2 ^ (8 * i)) as Hp by (rewrite <- Z.pow_add_r by lia; f_equal; lia).
  assert (2 ^ (8 * (i + 1)) <= 2 ^ 64) by (apply Z.pow_le_mono_r; lia).
  rewrite Z.lor_comm, lor_shift_add by nia. rewrite IH by (lia || nia). rewrite le_val_cons by done. rewrite Hp. ring.
Qed.

Lemma firstZeroBit_ones b : is_byte b -> b <> 255 -> firstZeroBit [0; 1; 2; 3; 4; 5; 6; 7] b = leadingOnes8 b.
Proof.
  intros Hb Hn. unfold is_byte in Hb.
  assert (forallb (fun p => firstZeroBit [0; 1; 2; 3; 4; 5; 6; 7] p =? leadingOnes8 p) (seqZ 0 255) = true) as Hall by (vm_compute; reflexivity).
  apply Z.eqb_eq, (proj1 (forallb_forall _ _) Hall), list_elem_of_In, elem_of_seqZ. lia.
Qed.

(** The bits of a prefix after its ones. *)
Lemma prefix_rest b : is_byte b -> b <> 255 ->
  Z.land b (u8 (shl64 1 (7 - leadingOnes8 b) - 1)) = b - (256 - 2 ^ (8 - leadingOnes8 b)) /\ 0 <= leadingOnes8 b <= 7 /\
  0 <= b - (256 - 2 ^ (8 - leadingOnes8 b)) < 2 ^ (7 - leadingOnes8 b).
Proof.
  intros Hb Hn. unfold is_byte in Hb.
  set (f := fun b => (Z.land b (u8 (shl64 1 (7 - leadingOnes8 b) - 1)) =? b - (256 - 2 ^ (8 - leadingOnes8 b))) && (0 <=? leadingOnes8 b)
    && (leadingOnes8 b <=? 7) && (0 <=? b - (256 - 2 ^ (8 - leadingOnes8 b))) && (b - (256 - 2 ^ (8 - leadingOnes8 b)) <? 2 ^ (7 - leadingOnes8 b))).
  assert (forallb f (seqZ 0 255) = true) as Hall by (vm_compute; reflexivity).
  assert (f b = true) as Hf by (apply (proj1 (forallb_forall _ _) Hall), list_elem_of_In, elem_of_seqZ; lia).
  unfold f in Hf. rewrite !andb_true_iff in Hf. lia.
Qed.

(** What is decoded: the value of the reference decoder, where that takes it,
    and the bytes the prefix announces. *)
Lemma compactDecode_val p d x : is_byte p -> Forall is_byte d -> leadingOnes8 p <= lenOf d -> dec_val p d = Some x ->
  compactDecode (p :: d) = (x, 1 + leadingOnes8 p).
Proof.
  intros Hp Hd Hl Hx. unfold compactDecode, lenOf. cbn [length]. unfold lenOf in Hl. unfold dec_val in Hx.
  destruct (Z.eqb_spec p 0) as [->|H0]; [cbn in Hx; by injection Hx as <-|].
  destruct (Z.eqb_spec p 255) as [->|H255].
  { change (leadingOnes8 255) with 8 in *. destruct (Z.ltb_spec 255 128); [lia|].
    destruct (Z.ltb_spec (Z.of_nat (length d)) 8); [lia|]. injection Hx as <-.
    destruct (Z.ltb_spec (Z.of_nat (S (length d))) 9); [lia|]. rewrite orBytes_val;
      [|by apply Forall_take|done|unfold lenOf; rewrite length_take; lia|done].
    f_equal. lia. }
  rewrite firstZeroBit_ones by done. destruct (prefix_rest p Hp H255) as (-> & Hr & Hb). set (l := leadingOnes8 p) in *. clearbody l.
  destruct (Z.ltb_spec (Z.of_nat (S (length d))) (1 + l)); [lia|].
  destruct (Z.eqb_spec l 0) as [->|Hl0].
  - change (2 ^ (8 - 0)) with 256 in *. change (2 ^ (7 - 0)) with 128 in Hb.
    destruct (Z.ltb_spec p 128); [|lia]. injection Hx as <-. f_equal. lia.
  - destruct (Z.ltb_spec p 128).
    { exfalso. pose proof (Z.pow_le_mono_r 2 (8 - l) 7 ltac:(lia) ltac:(lia)). lia. }
    destruct (Z.ltb_spec (Z.of_nat (length d)) l); [lia|].
    destruct (_ <? _); [done|]. injection Hx as <-. f_equal.
    set (f := p - _) in *. clearbody f.
    assert (Forall is_byte (take (Z.to_nat l) d)) as Ht by by apply Forall_take.
    pose proof (le_val_range _ Ht) as Hv. rewrite length_take_le, Z2Nat.id in Hv by lia.
    assert (f * 2 ^ (8 * l) + 2 ^ (8 * l) <= 2 ^ 64).
    { assert (2 ^ (7 - l) * 2 ^ (8 * l) <= 2 ^ 64) by (rewrite <- Z.pow_add_r by lia; apply Z.pow_le_mono_r; lia). nia. }
    rewrite orBytes_val; [|done|done|unfold lenOf; rewrite length_take; lia|done].
    unfold shl64. destruct (Z.ltb_spec (8 * l) 64); [|lia]. rewrite Z.shiftl_mul_pow2 by lia.
    change (2 ^ (8 * 0)) with 1. rewrite (uN_small 64 (f * _)) by nia. rewrite uN_small by nia. lia.
Qed.

Lemma compactDecode_encode x rest : 0 <= x < 2 ^ 64 -> Forall is_byte rest ->
  compactDecode (compactEncode x ++ rest) = (x, lenOf (compactEncode x)).
Proof.
  intros Hx Hr. rewrite compactEncode_ok by done. destruct (nat_encode_dec x Hx) as (p & d & -> & Hp & Hd & Hlen & Hdec).
  cbn [app]. rewrite (compactDecode_val p (d ++ rest) x); [|done|by apply Forall_app|unfold lenOf; rewrite length_app; lia|apply Hdec].
  f_equal. unfold lenOf. cbn [length]. lia.
Qed.

(** The numbers of the fuzzing protocol are those of the protocol codec,
    and are read back whatever follows them. *)
Theorem compact_codec x rest : 0 <= x < 2 ^ 64 -> Forall is_byte rest ->
  compactEncode x = EncodeUint x /\
  compactDecode (compactEncode x ++ rest) = (x, lenOf (compactEncode x)) /\
  decodeUintFromReader (compactEncode x ++ rest) = Ret (Some x, rest).
Proof.
  intros Hx Hr. split_and!.
  - by rewrite compactEncode_ok, EncodeUint_ok.
  - by apply compactDecode_encode.
  - rewrite compactEncode_ok by done. by apply reader_encode.
Qed.

(** A number that is encoded with more bytes than it needs: the decoder of the
    protocol refuses it, this one does not. *)
Example compactDecode_lenient : compactDecode [128; 5] = (5, 2) /\ decodeUintFromReader [128; 5] = Ret (None, []).
Proof. split; vm_compute; reflexivity. Qed.

(** ** Versions *)

Lemma splitDots_part a s part : Forall (fun c => c <> 46) a -> splitDots (a ++ 46 :: s) part = (part ++ a) :: splitDots s [].
Proof.
  intros Ha. revert part. induction Ha as [|c a Hc Ha IH]; intros part; cbn; [by rewrite app_nil_r|].
  destruct (Z.eqb_spec c 46); [done|]. rewrite IH. by rewrite <- app_assoc.
Qed.

Lemma splitDots_last a part : Forall (fun c => c <> 46) a -> splitDots a part = [part ++ a].
Proof.
  intros Ha. revert part. induction Ha as [|c a Hc Ha IH]; intros part; cbn; [by rewrite app_nil_r|].
  destruct (Z.eqb_spec c 46); [done|]. rewrite IH. by rewrite <- app_assoc.
Qed.

Lemma formatUint_parses n : is_byte n -> ParseUint8 (formatUint n) = Some n /\ Forall (fun c => c <> 46) (formatUint n).
Proof.
  unfold is_byte. intros Hn.
  assert (forallb (fun n => bool_decide (ParseUint8 (formatUint n) = Some n) && forallb (fun c => negb (c =? 46)) (formatUint n)) (seqZ 0 256) = true)
    as Hall by (vm_compute; reflexivity).
  pose proof (proj1 (forallb_forall _ _) Hall n ltac:(apply list_elem_of_In, elem_of_seqZ; lia)) as Hf.
  apply andb_true_iff in Hf as [Hp Hd]. split; [by apply bool_decide_eq_true in Hp|].
  apply Forall_forall. intros c Hc. rewrite forallb_forall in Hd. apply list_elem_of_In, Hd in Hc.
  by destruct (Z.eqb_spec c 46).
Qed.

Definition ok_Version (v : Version) : Prop := is_byte (Major v) /\ is_byte (Minor v) /\ is_byte (Patch v).

Lemma Version_FromString_String v : ok_Version v -> Version_FromString (Version_String v) = Some v.
Proof.
  intros (Ha & Hb & Hc). destruct (formatUint_parses _ Ha) as [Pa Da]. destruct (formatUint_parses _ Hb) as [Pb Db].
  destruct (formatUint_parses _ Hc) as [Pc Dc]. unfold Version_FromString, Version_String. cbn [app].
  rewrite splitDots_part, splitDots_part, splitDots_last by done. cbn [app]. rewrite Pa, Pb, Pc. by destruct v.
Qed.

(** ** Messages *)

Lemma marshalUint32LE_le v : 0 <= v -> marshalUint32LE v = le_bytes 4 v.
Proof.
  intros Hv. rewrite <- (shiftedBytes_le 4) by done. unfold marshalUint32LE, shiftedBytes. cbn.
  unfold shr at 4. by rewrite Z.shiftr_0_r.
Qed.

Lemma unmarshalUint32LE_val a b c d : Forall is_byte [a; b; c; d] -> unmarshalUint32LE [a; b; c; d] = Ret (le_val [a; b; c; d]).
Proof.
  intros Hd. assert (E : orBytes 0 [a; b; c; d] 0 = 0 + le_val [a; b; c; d] * 2 ^ (8 * 0)) by (by apply orBytes_val).
  change (2 ^ (8 * 0)) with 1 in E. rewrite Z.mul_1_r, Z.add_0_l in E. rewrite <- E. unfold unmarshalUint32LE.
  change (zindex [a; b; c; d] 0) with (Ret a). change (zindex [a; b; c; d] 1) with (Ret b).
  change (zindex [a; b; c; d] 2) with (Ret c). change (zindex [a; b; c; d] 3) with (Ret d). cbn [mbind go_bind orBytes].
  repeat (apply Forall_cons in Hd as [? Hd]). unfold is_byte in *. unfold shl64. rewrite Z.lor_0_l.
  cbn [Z.ltb Z.compare Z.add Z.mul Pos.add Pos.mul Pos.compare Pos.compare_cont]. rewrite Z.shiftl_0_r.
  rewrite !Z.shiftl_mul_pow2 by lia. by rewrite !(uN_small 64), !(uN_small 32) by lia.
Qed.

Section Wf.
Context (makeOK : Z -> bool) (spec : ChainSpec) (Hspec : codec_spec spec).

Definition made (b : Bytes) : Prop := bytes_ok b /\ lenOf b < 2 ^ 64 /\ makeOK (lenOf b) = true.

Definition ok_PeerInfo (p : PeerInfo) : Prop :=
  is_byte (FuzzVersion p) /\ uint 32 (FuzzFeatures p) /\ ok_Version (JamVersion p) /\ ok_Version (AppVersion p) /\ made (AppName p).

Definition ok_Ancestry (a : list AncestryItem) : Prop := slice makeOK ok_AncestryItem a /\ lenOf a <= MaxLookupAge spec /\ makeOK 0 = true.

Definition ok_SetState (s : SetState) : Prop :=
  ok_Header makeOK spec (ss_Header s) /\ slice makeOK (ok_StateKeyVal makeOK) (ss_State s) /\ ok_Ancestry (ss_Ancestry s).

(** The messages of the protocol, with well-formed contents. *)
Inductive ok_Message : Message -> Prop :=
  | ok_peerInfo p : ok_PeerInfo p -> ok_Message (peerInfoMessage p)
  | ok_importBlock b : ok_Block makeOK spec b -> ok_Message (importBlockMessage b)
  | ok_setState s : ok_SetState s -> ok_Message (setStateMessage s)
  | ok_getState h : arr 32 h -> ok_Message (getStateMessage h)
  | ok_stateRoot r : arr 32 r -> ok_Message (stateRootMessage r)
  | ok_state s : slice makeOK (ok_StateKeyVal makeOK) s -> ok_Message (stateMessage s)
  | ok_error e : bytes_ok e -> lenOf e < 2 ^ 32 -> ok_Message (errorMessage e).

(** The length field has 32 bits. *)
Definition sendable (m : Message) : Prop := forall p, payload spec m = Ret (Some p) -> lenOf p + 1 < 2 ^ 32 /\ makeOK (lenOf p) = true.

Lemma codes_computed {A B : Type} (w : W) (m : go A) (a : A) (k : A -> D B) y :
  m = Ret a -> codes w (k a) y -> codes w (computed m ≫= k) y.
Proof. intros -> (bs & E & Hb & Hd). exists bs. split_and!; [done..|]. intros rest Hr. by apply Hd. Qed.

Lemma codes_compact n : 0 <= n < 2 ^ 64 -> codes (put (compactEncode n)) readCompact n.
Proof.
  intros Hn. exists (compactEncode n). split; [done|]. rewrite compactEncode_ok by done.
  split; [by apply nat_encode_bytes|]. intros rest Hr. unfold readCompact. rewrite <- compactEncode_ok by done.
  rewrite compactDecode_encode by done. rewrite compactEncode_ok by done.
  destruct (nat_encode_dec n Hn) as (p & d & -> & _). unfold lenOf. cbn [length].
  destruct (Z.eqb_spec (Z.of_nat (S (length d))) 0); [lia|]. rewrite Nat2Z.id. by rewrite drop_app_length'.
Qed.

Lemma codes_version v : ok_Version v -> codes (put [Major v; Minor v; Patch v]) Version_ReadFrom v.
Proof.
  intros (Ha & Hb & Hc). apply codes_of_cat. unfold Version_ReadFrom.
  eapply codes_bind; [apply (codes_full 3); split; [done|unfold bytes_ok; auto using Forall_cons_2, Forall_nil_2]|]. destruct v. apply codes_ret.
Qed.

Lemma codes_made b : made b -> codes (put b) (readMade makeOK (lenOf b)) b.
Proof. intros (Hb & _ & Hm). unfold readMade. rewrite Hm. unfold lenOf. rewrite Nat2Z.id. by apply codes_full. Qed.

Lemma codes_PeerInfo p : ok_PeerInfo p -> codes (PeerInfo_MarshalBinary p) (PeerInfo_UnmarshalBinary makeOK) p.
Proof.
  intros (Hv & Hf & Hj & Ha & Hn).
  assert (PeerInfo_MarshalBinary p = cat [put [FuzzVersion p]; put (le_bytes 4 (FuzzFeatures p)); put [Major (JamVersion p); Minor (JamVersion p); Patch (JamVersion p)];
    put [Major (AppVersion p); Minor (AppVersion p); Patch (AppVersion p)]; put (compactEncode (lenOf (AppName p))); put (AppName p)]) as ->.
  { unfold PeerInfo_MarshalBinary, Version_AppendBinary, marshalUint8, Features_MarshalBinary.
    rewrite marshalUint32LE_le by apply Hf. cbn. by rewrite <- !app_assoc, app_nil_r. }
  unfold PeerInfo_UnmarshalBinary. eapply codes_bind; [apply (codes_full 1); split; [done|unfold bytes_ok; auto using Forall_cons_2, Forall_nil_2]|].
  eapply codes_bind; [apply (codes_full 4); split; [by rewrite le_bytes_length|by apply le_bytes_byte]|].
  eapply codes_bind; [by apply codes_version|]. eapply codes_bind; [by apply codes_version|].
  eapply codes_bind; [apply codes_compact; unfold lenOf in *; destruct Hn as (_ & ? & _); unfold lenOf in *; lia|].
  eapply codes_bind; [by apply codes_made|].
  eapply codes_computed; [reflexivity|]. eapply codes_computed with (a := FuzzFeatures p); [|destruct p; apply codes_ret].
  pose proof (le_bytes_length 4 (FuzzFeatures p) ltac:(lia)) as Hl. pose proof (le_bytes_byte 4 (FuzzFeatures p) ltac:(lia)) as Hb.
  pose proof (le_val_bytes 4 (FuzzFeatures p) ltac:(lia)) as Hval.
  destruct (le_bytes 4 (FuzzFeatures p)) as [|a [|b [|c [|d [|]]]]]; try done.
  rewrite unmarshalUint32LE_val by done. rewrite Hval. f_equal. by apply Z.mod_small.
Qed.


Lemma codes_Ancestry a : ok_Ancestry a -> codes (enc_Ancestry a) (dec_Ancestry makeOK spec) a.
Proof.
  intros ((Hf & Ha) & Hl & H0). destruct Hf as [Hn Hm]. assert (0 <= lenOf a) by (unfold lenOf; lia). unfold enc_Ancestry, dec_Ancestry, sequence.
  eapply codes_bind; [by apply codes_length|]. destruct (Z.ltb_spec (MaxLookupAge spec) (lenOf a)); [lia|].
  apply codes_to_cat. unfold makeSlice.
  assert (makeOK (lenOf a) = true) as -> by (destruct a; [done|by apply Hm]).
  unfold lenOf. rewrite Nat2Z.id. apply codes_times. eapply Forall_impl; [exact Ha|]. apply rt_AncestryItem.
Qed.

Lemma codes_SetState s : ok_SetState s -> codes (SetState_Encode spec s) (SetState_Decode makeOK spec) s.
Proof.
  intros (Hh & Hs & Ha). unfold SetState_Encode, SetState_Decode. eapply codes_bind; [by apply rt_Header|].
  eapply codes_bind; [by apply rt_StateKeyVals|]. eapply codes_bind; [by apply codes_Ancestry|]. destruct s. apply codes_ret.
Qed.

(** The payload is read back by the branch of its type. *)
Definition reads (m : Message) : Prop := exists p, payload spec m = Ret (Some p) /\ bytes_ok p /\ unmarshal makeOK spec (mg_Type m) p = Ret (Some m).

Lemma reads_codes {A : Type} (f : A -> Message) (w : W) (d : D A) x :
  codes w d x -> payload spec (f x) = w -> (forall p, unmarshal makeOK spec (mg_Type (f x)) p = unmarshalAs f (decodeValue d p)) -> reads (f x).
Proof.
  intros (p & E & Hb & Hd) Hp Hu. exists p. rewrite Hp, Hu. split_and!; [done..|].
  specialize (Hd [] (Forall_nil_2 _)). rewrite app_nil_r in Hd. unfold decodeValue. by rewrite Hd.
Qed.

Lemma ErrorMessage_reads e : bytes_ok e -> lenOf e < 2 ^ 32 -> reads (errorMessage e).
Proof.
  intros Hb He. assert (0 <= lenOf e) as H0 by (unfold lenOf; lia).
  exists (compactEncode (lenOf e) ++ e). split; [done|]. rewrite compactEncode_ok by lia.
  split; [apply Forall_app; split; [apply nat_encode_bytes; lia|done]|]. rewrite <- compactEncode_ok by lia.
  cbn [mg_Type errorMessage]. change (unmarshal makeOK spec MessageType_ErrorMessage ?p) with (unmarshalAs errorMessage (ErrorMessage_UnmarshalBinary p)).
  unfold ErrorMessage_UnmarshalBinary. rewrite compactDecode_encode by (done || lia).
  set (l := lenOf (compactEncode (lenOf e))).
  assert (1 <= l <= 9) as Hl.
  { unfold l. rewrite compactEncode_ok by lia. destruct (nat_encode_dec (lenOf e) ltac:(lia)) as (p & d & -> & Hp & _ & Hlen & _).
    pose proof (leadingOnes8_range p Hp). unfold lenOf. cbn [length]. lia. }
  destruct (Z.eqb_spec l 0); [lia|].
  rewrite (sN_id 64 (lenOf e)), sN_id by lia.
  assert (lenOf (compactEncode (lenOf e) ++ e) = l + lenOf e) as Hlen by (unfold l, lenOf; rewrite length_app; lia).
  rewrite Hlen, Z.ltb_irrefl. unfold lslice. unfold lenOf in Hlen.
  destruct (_ && _) eqn:Eg; [|rewrite !andb_false_iff in Eg; unfold lenOf in *; lia].
  cbn. unfold l, lenOf. rewrite !Nat2Z.id. rewrite drop_app_length.
  replace (Z.to_nat (Z.of_nat (length (compactEncode (Z.of_nat (length e)))) + Z.of_nat (length e) - Z.of_nat (length (compactEncode (Z.of_nat (length e))))))
    with (length e) by lia. by rewrite take_ge.
Qed.

Lemma ok_Message_reads m : ok_Message m -> reads m.
Proof.
  destruct 1.
  - by eapply reads_codes; [apply codes_PeerInfo|..].
  - by eapply reads_codes; [apply rt_Block|..].
  - by eapply reads_codes; [apply codes_SetState|..].
  - by eapply reads_codes; [by apply (codes_full 32)|..].
  - by eapply reads_codes; [by apply (codes_full 32)|..].
  - by eapply reads_codes; [apply rt_StateKeyVals|..].
  - by apply ErrorMessage_reads.
Qed.

Lemma mg_Type_byte m : ok_Message m -> is_byte (mg_Type m).
Proof. by destruct 1. Qed.

Lemma message_codes m : ok_Message m -> sendable m -> codes (Message_MarshalBinary spec m) (Message_ReadFrom makeOK spec) m.
Proof.
  intros Hm Hs. destruct (ok_Message_reads m Hm) as (p & Ep & Hp & Hu). destruct (Hs p Ep) as [Hl Hmk].
  pose proof (mg_Type_byte m Hm) as Hb. assert (0 <= lenOf p) as H0 by (unfold lenOf; lia).
  assert (Message_MarshalBinary spec m = cat [put (EncodeUintWithLength (lenOf p + 1) 4); wByte (mg_Type m); put p]) as ->.
  { unfold Message_MarshalBinary. rewrite Ep. cbn [mbind go_bind]. rewrite (uN_small 32) by lia. unfold is_byte in Hb.
    rewrite (uN_small 8) by lia. rewrite EncodeUintWithLength_le by lia. cbn. by rewrite <- !app_assoc, app_nil_r. }
  unfold Message_ReadFrom. eapply codes_bind; [apply (codes_LE 4); [done|unfold uint; lia]|].
  eapply codes_flag; [exact Hb|reflexivity|].
  eapply codes_bind.
  { rewrite Z.add_simpl_r, (uN_small 32) by lia. apply codes_made. split_and!; [done|lia|done]. }
  exists []. split_and!; [done|constructor|]. intros rest _. unfold checked. by rewrite Hu.
Qed.

(** C27: Every message of the protocol is read back by the node that receives
    it, whatever bytes follow; and the strings of versions in the
    configuration are those the node prints. *)
Theorem message_roundtrip :
  (forall m, ok_Message m -> sendable m -> codes (Message_MarshalBinary spec m) (Message_ReadFrom makeOK spec) m) /\
  (forall v, ok_Version v -> Version_FromString (Version_String v) = Some v).
Proof. split; [exact message_codes|exact Version_FromString_String]. Qed.

(** A length of 0 makes a payload of 4 GiB less a byte. *)
Lemma ReadFrom_zero_length ty rest : is_byte ty -> makeOK (2 ^ 32 - 1) = false ->
  Message_ReadFrom makeOK spec (0 :: 0 :: 0 :: 0 :: ty :: rest) = Crash.
Proof.
  intros Ht Hm. unfold Message_ReadFrom. unfold mbind, D_bind. cbn [readLE]. unfold readLE, mbind, D_bind.
  assert (readFull 4 (0 :: 0 :: 0 :: 0 :: ty :: rest) = Ret (Some ([0; 0; 0; 0], ty :: rest))) as -> by done.
  cbn [mret D_ret]. cbn [ReadByte]. unfold readMade. change (u32 (le_val [0; 0; 0; 0] - 1)) with (2 ^ 32 - 1). by rewrite Hm.
Qed.

(** A message whose length field announces more than an [int] holds. *)
Example ErrorMessage_overflow :
  ErrorMessage_UnmarshalBinary (0xFF :: le_bytes 8 (2 ^ 64 - 1)) = Crash.
Proof. vm_compute. reflexivity. Qed.

End Wf.
