(* ===== verification/STF.v ===== *)
(** * The state transition

    src/internal/stf: [RunSTF] (sft.go), which runs the components of the
    transition one after the other on the store, the checks of the header
    (validate_header.go) and of the extrinsic (validate_extrinsic.go), and
    the hash of the extrinsic (utilities/block_serialization.go, 5.4 to 5.6).

    An error is told from its component; an error that is not a number of the
    protocol makes the type assertion to [ErrorCode] panic in the
    steps that use it. The schedules of the accumulation and the order in
    which the accounts are encoded are arguments, as in OuterAccumulation.v
    and StateSer.v. *)

From S2P Require Import Prelude Words Types Config Codec Encode Crypto Trie Store Accumulation.
From S2P Require Import RecentHistory Authorization Safrole Disputes Assurances Guarantees Statistics.
From S2P Require Import StateSer Preimages OuterAccumulation.
Local Open Scope Z_scope.

(** What a failed transition returns. *)
Inductive STFError :=
| SafroleError (c : Z)
| DisputesError (c : Z)
| PreimagesError (c : Z)
| AssurancesError (c : Z)
(** The errors of all checks, of which one is reported. *)
| ReportsError (errs : list ReportError)
| AccumulateError
| HistoryError
| AuthorizationsError (msg : string)
(** An error of the header that is not a number of the protocol. *)
| HeaderError.

(** Whether the error is a number of the protocol, by the step that returns
    it. *)
Definition IsProtocolError (e : STFError) : bool :=
  match e with AccumulateError | HistoryError | AuthorizationsError _ | HeaderError => false | _ => true end.

Section STF.
Context `{HashFunctions} `{Ed25519} `{VRF} `{AccumulateVM} (spec : ChainSpec).

(** ** The hash of the extrinsic *)

(** A guarantee, with the hash of its report. *)
Definition gItem (guarantee : ReportGuarantee) : W :=
  encodedReport ← enc_WorkReport (rg_Report guarantee);
  match encodedReport with
  | None => Ret None
  | Some encodedReport =>
      cat [put (Blake2bHash encodedReport); enc_TimeSlot (rg_Slot guarantee); wLength (lenOf (rg_Signatures guarantee));
           each enc_ValidatorSignature (rg_Signatures guarantee)]
  end.

(** [g] of the source. *)
Definition EncodeExtrinsicGuarantees (guaranteesExtrinsic : list ReportGuarantee) : W :=
  cat [wLength (lenOf guaranteesExtrinsic); each gItem guaranteesExtrinsic].

(** [None] is an error of an encoder. *)
Definition CreateExtrinsicHash (extrinsic : Extrinsic) : go (option Bytes) :=
  ⟪ encodedTickets ⟫ ⇠ enc_TicketsExtrinsic (ex_Tickets extrinsic) ⊘ Ret None;
  ⟪ encodedPreimages ⟫ ⇠ enc_PreimagesExtrinsic (ex_Preimages extrinsic) ⊘ Ret None;
  ⟪ encodedGuarantees ⟫ ⇠ EncodeExtrinsicGuarantees (ex_Guarantees extrinsic) ⊘ Ret None;
  ⟪ encodedAssurances ⟫ ⇠ enc_AssurancesExtrinsic spec (ex_Assurances extrinsic) ⊘ Ret None;
  ⟪ encodedDisputes ⟫ ⇠ enc_DisputesExtrinsic spec (ex_Disputes extrinsic) ⊘ Ret None;
  Ret (Some (Blake2bHash (Blake2bHash encodedTickets ++ Blake2bHash encodedPreimages ++ Blake2bHash encodedGuarantees ++
    Blake2bHash encodedAssurances ++ Blake2bHash encodedDisputes))).

(** ** The header *)

(** [Some None] is an error that is not a number of the protocol. *)
Definition validateExtrinsicHash (header : Header) (extrinsic : Extrinsic) : go (option (option Z)) :=
  actualExtrinsicHash ← CreateExtrinsicHash extrinsic;
  match actualExtrinsicHash with
  | None => Ret (Some None)
  | Some actualExtrinsicHash =>
      Ret (if bool_decide (actualExtrinsicHash = h_ExtrinsicHash header) then None else Some (Some SafroleErrorCode.InvalidExtrinsicHash))
  end.

Context (arrange : list StateKeyVal -> list StateKeyVal).

(** The error and the cache of leaf hashes. *)
Definition ValidateNonVRFHeader (cs : ChainState) (header : Header) (priorState : State) (extrinsic : Extrinsic) (cache : KeyLevelCache)
  : go (option (option Z) * KeyLevelCache) :=
  err ← ValidateHeaderTicketsMark spec header priorState;
  match orElse err (ValidateHeaderOffenderMarker cs header) with
  | Some err => Ret (Some (Some err), cache)
  | None =>
      err ← validateExtrinsicHash header extrinsic;
      match err with
      | Some err => Ret (Some err, cache)
      | None =>
          serializedState ← StateEncoder spec arrange priorState;
          r ← ComputeStateRootWithCache spec cache (serializedState ++ preStateUnmatchedKeyVals cs);
          let '(priorStateRoot, cache) := r in
          if negb (bool_decide (h_ParentStateRoot header = priorStateRoot)) then Ret (Some (Some SafroleErrorCode.InvalidParentStateRoot), cache)
          else if u16 (lenOf (s_Kappa priorState)) <=? h_AuthorIndex header then Ret (Some (Some SafroleErrorCode.AuthorIndexOutOfRange), cache)
          else Ret (None, cache)
      end
  end.

Definition ValidateHeaderVrf (header : Header) (priorState posteriorState : State) : go (option Z) :=
  match ValidateHeaderEpochMark spec header priorState posteriorState with
  | Some err => Ret (Some err)
  | None =>
      err ← ValidateHeaderSeal spec header posteriorState;
      match err with
      | Some err => Ret (Some err)
      | None => ValidateHeaderEntropy header posteriorState
      end
  end.

Definition ValidateExtrinsic (extrinsic : Extrinsic) (state : State) (unmatchedKeyVals : list StateKeyVal) : go (option Z) :=
  ValidatePreimageExtrinsics (ex_Preimages extrinsic) (s_Delta state) unmatchedKeyVals.

(** ** The steps *)

(** The store, the cache, and the error if there is one. *)
Definition Step : Type := ChainState * KeyLevelCache -> option (go ((ChainState * KeyLevelCache) * option STFError)).

(** A step on the store, with what its error means. *)
Definition onStore {E} (f : ChainState -> go (ChainState * option E)) (err : E -> go STFError) : Step := fun '(cs, cache) =>
  Some (r ← f cs; match snd r with None => Ret ((fst r, cache), None) | Some e => e ← err e; Ret ((fst r, cache), Some e) end).

(** The assertion that the error is an [ErrorCode]. *)
Definition errorCode (f : Z -> STFError) (e : option Z) : go STFError := match e with Some c => Ret (f c) | None => Crash end.

Definition reportsError (errs : list ReportError) : go STFError :=
  match errs with OtherError :: _ => Crash | _ => Ret (ReportsError errs) end.

(** A step that cannot fail, and one that only checks. *)
Definition always (f : ChainState -> ChainState) : Step := fun '(cs, cache) => Some (Ret ((f cs, cache), None)).
Definition checking (f : ChainState -> go (option Z)) (err : Z -> STFError) : Step :=
  onStore (fun cs => e ← f cs; Ret (cs, e)) (fun c => Ret (err c)).

Definition stepHeader (header : Header) (priorState : State) (extrinsic : Extrinsic) : Step := fun '(cs, cache) =>
  if bool_decide (h_Parent header = zeroArray 32) then Some (Ret ((cs, cache), None))
  else Some (r ← ValidateNonVRFHeader cs header priorState extrinsic cache;
    match fst r with
    | None => Ret ((cs, snd r), None)
    | Some e => e ← errorCode SafroleError e; Ret ((cs, snd r), Some e)
    end).

Definition UpdateDisputes (cs : ChainState) : go (ChainState * option Z) :=
  r ← Disputes spec cs; Ret (fst r, match snd r with inl _ => None | inr c => Some c end).

Definition UpdateReports (cs : ChainState) : go (ChainState * option (list ReportError)) :=
  r ← Guarantee spec cs; Ret (fst r, match snd r with [] => None | errs => Some errs end).

Definition UpdateStatistics (cs : ChainState) : go ChainState := UpdateValidatorActivityStatistics spec cs.

Context (arrangeServices : gset Z -> list Z) (arrangeKVs : list StateKeyVal -> list StateKeyVal).
Context (sortBySender : list DeferredTransfer -> list DeferredTransfer).

Definition stepAccumulate (fuel : nat) : Step := fun '(cs, cache) =>
  (fun m => r ← m; Ret ((fst r, cache), if snd r : bool then None else Some AccumulateError)) <$>
    UpdateAccumlate spec arrangeServices arrangeKVs sortBySender fuel cs.

Definition stepHistory : Step := fun '(cs, cache) =>
  Some (r ← STFBetaHDagger2BetaHPrime spec cs; Ret (match r with Some cs => ((cs, cache), None) | None => ((cs, cache), Some HistoryError) end)).

(** The steps in their order; the prior state, the header, the extrinsic and
    the unmatched pairs are those from before the first. What the checks read
    of that prior state, the slot, the entropy and the accounts, no step
    before them writes in place. *)
Definition stfSteps (fuel : nat) (priorState : State) (header : Header) (extrinsic : Extrinsic) (unmatchedKeyVals : list StateKeyVal) : list Step :=
  [ always (onPosterior (SetTau (h_Slot header)));
    stepHeader header priorState extrinsic;
    always STFBetaH2BetaHDagger;
    onStore UpdateDisputes (fun c => Ret (DisputesError c));
    onStore (OuterUsedSafrole spec) (fun c => Ret (SafroleError c));
    checking (fun cs => ValidateHeaderVrf header priorState (posteriorStates cs)) SafroleError;
    checking (fun _ => ValidateExtrinsic extrinsic priorState unmatchedKeyVals) PreimagesError;
    onStore (Assurance spec) (fun c => Ret (AssurancesError c));
    onStore UpdateReports reportsError;
    stepAccumulate fuel;
    stepHistory;
    onStore (fun cs => cs ← ProcessPreimageExtrinsics cs; Ret (cs, None)) (fun c => Ret (PreimagesError c));
    onStore (Authorization spec) (fun msg => Ret (AuthorizationsError msg));
    onStore (E := Z) (fun cs => cs ← UpdateStatistics cs; Ret (cs, None)) (fun c => Ret (SafroleError c)) ].

(** The steps up to the first that fails. *)
Fixpoint runSteps (steps : list Step) (s : ChainState * KeyLevelCache) : option (go ((ChainState * KeyLevelCache) * option STFError)) :=
  match steps with
  | [] => Some (Ret (s, None))
  | step :: steps =>
      match step s with
      | Some (Ret (s, None)) => runSteps steps s
      | other => other
      end
  end.

(** [fuel] bounds the batches of the accumulation. *)
Definition RunSTF (fuel : nat) (cs : ChainState) (cache : KeyLevelCache) : option (go ((ChainState * KeyLevelCache) * option STFError)) :=
  runSteps (stfSteps fuel (priorStates cs) (b_Header (latestBlock cs)) (b_Extrinsic (latestBlock cs)) (preStateUnmatchedKeyVals cs)) (cs, cache).

(** ** The transition with timing (stf_timing.go) *)

(** The error of the header as it is. *)
Definition timedHeader (header : Header) (priorState : State) (extrinsic : Extrinsic) : Step := fun '(cs, cache) =>
  if bool_decide (h_Parent header = zeroArray 32) then Some (Ret ((cs, cache), None))
  else Some (r ← ValidateNonVRFHeader cs header priorState extrinsic cache;
    Ret ((cs, snd r), match fst r with None => None | Some (Some c) => Some (SafroleError c) | Some None => Some HeaderError end)).

(** The times themselves are not modelled. *)
Definition timedSteps (fuel : nat) (priorState : State) (header : Header) (extrinsic : Extrinsic) (unmatchedKeyVals : list StateKeyVal) : list Step :=
  [ always (onPosterior (SetTau (h_Slot header)));
    timedHeader header priorState extrinsic;
    always STFBetaH2BetaHDagger;
    onStore UpdateDisputes (fun c => Ret (DisputesError c));
    onStore (OuterUsedSafrole spec) (fun c => Ret (SafroleError c));
    checking (fun cs => ValidateHeaderVrf header priorState (posteriorStates cs)) SafroleError;
    checking (fun _ => ValidateExtrinsic extrinsic priorState unmatchedKeyVals) PreimagesError;
    onStore (Assurance spec) (fun c => Ret (AssurancesError c));
    onStore UpdateReports (fun errs => Ret (ReportsError errs));
    stepAccumulate fuel;
    stepHistory;
    onStore (fun cs => cs ← ProcessPreimageExtrinsics cs; Ret (cs, None)) (fun c => Ret (PreimagesError c));
    onStore (Authorization spec) (fun msg => Ret (AuthorizationsError msg));
    onStore (E := Z) (fun cs => cs ← UpdateStatistics cs; Ret (cs, None)) (fun c => Ret (SafroleError c)) ].

(** The flag is whether there is an error, of whatever kind. *)
Definition RunSTFWithTiming (fuel : nat) (cs : ChainState) (cache : KeyLevelCache)
  : option (go ((ChainState * KeyLevelCache) * (bool * option STFError))) :=
  (fun m => r ← m; Ret (fst r, (bool_decide (is_Some (snd r)), snd r))) <$>
    runSteps (timedSteps fuel (priorStates cs) (b_Header (latestBlock cs)) (b_Extrinsic (latestBlock cs)) (preStateUnmatchedKeyVals cs)) (cs, cache).

End STF.
