(* ===== verification/STFSpec.v ===== *)

(** * Accepted blocks

    What a successful [RunSTF] means: every component succeeded on the store
    that the components before it left, and each part of the posterior state
    is the one that its component wrote. *)

From S2P Require Import Prelude Words Types Config Encode Crypto Trie TrieSpec Store Validate Accumulation.
From S2P Require Import StoreLaws RecentHistory Authorization Safrole SafroleSpec Disputes Assurances Guarantees GuaranteesSpec Statistics.
From S2P Require Import StateSer Preimages OuterAccumulation STF.
Local Open Scope Z_scope.

(** ** Frames *)

(** The posterior state after a step is the one before with the parts that
    [g] takes from the new one; the block stays. *)
Definition writes (g : State -> State -> State) (cs cs' : ChainState) : Prop :=
  posteriorStates cs' = g (posteriorStates cs') (posteriorStates cs) /\ latestBlock cs' = latestBlock cs.

Definition writesPsi (v : State) : State -> State := SetPsi (s_Psi v).
Definition writesSafrole (v s : State) : State :=
  SetGamma (s_Gamma v) (SetEta (s_Eta v) (SetIota (s_Iota v) (SetKappa (s_Kappa v) (SetLambda (s_Lambda v) s)))).
Definition writesRho (v : State) : State -> State := SetRho (s_Rho v).
Definition writesKeys (v s : State) : State :=
  SetGammaK (sf_GammaK (s_Gamma v)) (SetIota (s_Iota v) (SetKappa (s_Kappa v) (SetLambda (s_Lambda v) s))).
Definition writesAccounts (v s : State) : State :=
  SetChi (s_Chi v) (SetVarphi (s_Varphi v) (SetIota (s_Iota v) (SetTheta (s_Theta v) (SetXi (s_Xi v) (SetVartheta (s_Vartheta v) (SetDelta (s_Delta v) s)))))).
Definition writesBeta (v : State) : State -> State := SetBeta (s_Beta v).
Definition writesDelta (v : State) : State -> State := SetDelta (s_Delta v).
Definition writesAlpha (v : State) : State -> State := SetAlpha (s_Alpha v).
Definition writesPi (v s : State) : State := SetPi (s_Pi v) (writesKeys v s).

(** A step that writes what it takes from its result, twice. *)
Class Writer (g : State -> State -> State) : Prop := {
  writer_refl s : s = g s s;
  writer_trans a b c : b = g b a -> c = g c b -> c = g c a }.

Ltac writer := split; [intros [? ? ? [] ]; reflexivity|intros a b c Hb Hc; rewrite Hc, Hb; destruct a as [? ? ? [] ]; reflexivity].
#[export] Instance writer_psi : Writer writesPsi. Proof. writer. Qed.
#[export] Instance writer_safrole : Writer writesSafrole. Proof. writer. Qed.
#[export] Instance writer_rho : Writer writesRho. Proof. writer. Qed.
#[export] Instance writer_keys : Writer writesKeys. Proof. writer. Qed.
#[export] Instance writer_accounts : Writer writesAccounts. Proof. writer. Qed.
#[export] Instance writer_beta : Writer writesBeta. Proof. writer. Qed.
#[export] Instance writer_delta : Writer writesDelta. Proof. writer. Qed.
#[export] Instance writer_alpha : Writer writesAlpha. Proof. writer. Qed.
#[export] Instance writer_pi : Writer writesPi. Proof. writer. Qed.

Lemma writes_refl g `{!Writer g} cs : writes g cs cs.
Proof. split; [apply writer_refl|done]. Qed.
Lemma writes_trans g `{!Writer g} a b c : writes g a b -> writes g b c -> writes g a c.
Proof. intros [Ha Hb] [Hc Hd]. split; [by eapply writer_trans|congruence]. Qed.
(** A step that leaves the posterior state, and one that only writes to it. *)
Lemma writes_same g `{!Writer g} cs cs' : posteriorStates cs' = posteriorStates cs -> latestBlock cs' = latestBlock cs -> writes g cs cs'.
Proof. intros H ?. split; [rewrite H; apply writer_refl|done]. Qed.
Lemma writes_on g cs f : (forall s, f s = g (f s) s) -> writes g cs (onPosterior f cs).
Proof. intros H. by split; [apply H|]. Qed.

Ltac same := apply writes_same; [apply _|done|done].

Section STF.
Context `{HashLaws} `{Ed25519} `{VRF} `{AccumulateVM} (spec : ChainSpec).

Lemma disputes_writes cs cs' r : Disputes spec cs = Ret (cs', r) -> writes writesPsi cs cs'.
Proof.
  unfold Disputes. destruct (disputeChecks spec cs _); [intros [= <- _]; apply writes_refl, _|].
  intros (cs1 & E & H')%go_bind_inv. unfold ClearWorkReports in E. apply go_bind_inv in E as (rho & _ & [= <-]).
  assert (writes writesPsi cs (writePriorRho rho cs)) as Hw.
  { destruct (writePriorRho_ok rho cs) as (_ & Hq & _ & Hb). apply (writes_same _ _ _ Hq Hb). }
  revert Hw H'. generalize (writePriorRho rho cs). intros cs1 Hw H'. eapply writes_trans; [apply _|exact Hw|]. clear Hw.
  assert (writes writesPsi cs1 (fst (UpdatePsiGBW spec (GenerateVerdictSumSequence (de_Verdicts (ex_Disputes (b_Extrinsic (latestBlock cs))))) cs1))) as Hu.
  { unfold UpdatePsiGBW. destruct (CompareVerdictsWithPsi _ _); [|apply writes_refl, _]. cbn [fst]. apply writes_on. by intros []. }
  destruct (UpdatePsiGBW _ _ _) as [cs2 err]. cbn [fst] in Hu. destruct (orElse err _); injection H' as <- _; [exact Hu|].
  eapply writes_trans; [apply _|exact Hu|]. apply writes_on. by intros [].
Qed.

Lemma rotate_writes e e' cs : writes writesSafrole cs (KeyRotate e e' (UpdateEntropy e e' cs)).
Proof. unfold KeyRotate, UpdateEntropy. destruct (e <? e'); apply conj; try done; cbn; by destruct (posteriorStates cs) as [? ? ? [] ]. Qed.

Lemma verifier_writes e keys cs v cs' : GetVerifier spec e keys cs = (v, cs') -> writes writesSafrole cs cs'.
Proof. intros E. destruct (GetVerifier_ok spec e keys cs) as [c Hc]. rewrite E in Hc. cbn in Hc. subst cs'. same. Qed.

Lemma etaPrime0_writes cs : writes writesSafrole cs (UpdateEtaPrime0 cs).
Proof. unfold UpdateEtaPrime0. destruct (vrf_VRFIetfOutput _); [|apply writes_refl, _]. apply writes_on. by intros []. Qed.

Lemma tickets_writes verifier cs cs' : CreateNewTicketAccumulator spec verifier cs = Ret (cs', None) -> writes writesSafrole cs cs'.
Proof.
  unfold CreateNewTicketAccumulator. cbv zeta. destruct (orElse _ _); [done|]. intros ([ts err] & _ & H')%go_bind_inv.
  destruct (orElse err _); [done|]. destruct (VerifyTicketsDuplicate _); [done|]. injection H' as <-. apply writes_on. by intros [? ? ? [] ].
Qed.

Lemma safrole_writes cs cs' : OuterUsedSafrole spec cs = Ret (cs', None) -> writes writesSafrole cs cs'.
Proof.
  unfold OuterUsedSafrole, R. cbv zeta. destruct (_ <=? _); [done|]. intros (cs1 & E1 & Hr)%go_bind_inv.
  eapply writes_trans; [apply _|apply rotate_writes|]. apply UpdateSlotKeySequence_ok in E1 as (gS & -> & _).
  eapply writes_trans; [apply _|apply (writes_on _ _ (SetGammaS gS)); by intros [? ? ? [] ]|].
  destruct (GetVerifier _ _ _ _) as [v cs2] eqn:E2. eapply writes_trans; [apply _|by eapply verifier_writes|].
  apply go_bind_inv in Hr as (cs3 & E3 & Hr). apply updateGammaZ_ok in E3 as (z & -> & _).
  eapply writes_trans; [apply _|apply (writes_on _ _ (SetGammaZ z)); by intros [? ? ? [] ]|].
  eapply writes_trans; [apply _|apply etaPrime0_writes|]. apply go_bind_inv in Hr as ([cs4 [err|] ] & E4 & Hr); [done|].
  eapply writes_trans; [apply _|by eapply tickets_writes|]. apply go_bind_inv in Hr as (cs5 & E5 & [= <-]).
  eapply (writes_trans _ _ cs5); [|unfold CreateEpochMarker; destruct (_ <? _); same].
  unfold CreateWinningTickets in E5. cbv zeta in E5. destruct (_ && _) in E5; [apply go_bind_inv in E5 as (? & _ & E5)|]; injection E5 as <-; same.
Qed.

Lemma rhoDoubleDagger_writes v cs : writes writesRho cs (writeRhoDoubleDagger v cs).
Proof.
  destruct cs as [prior post inter lb pb pre po an vc ps qs sh]. destruct post, ps, qs; apply conj; reflexivity.
Qed.

Lemma assurance_writes cs cs' err : Assurance spec cs = Ret (cs', err) -> writes writesRho cs cs'.
Proof.
  unfold Assurance. destruct (orElse _ _); [intros [= <- _]; apply writes_refl, _|].
  intros ([e|] & _ & H')%go_bind_inv; [injection H' as <- _; apply writes_refl, _|].
  apply go_bind_inv in H' as ([e|] & _ & H'); [injection H' as <- _; apply writes_refl, _|].
  apply go_bind_inv in H' as (cs1 & E & [= <- _]). unfold FilterAvailableReports, UpdateNewlyAvailableWorkReports in E.
  apply go_bind_inv in E as ([ws cs2] & E2 & E). apply go_bind_inv in E2 as (? & _ & [= <- <-]).
  apply go_bind_inv in E as (rho & _ & [= <-]). eapply writes_trans; [apply _| |apply rhoDoubleDagger_writes]. same.
Qed.

(** What computing one of the assignments does to the store. *)
Lemma assignments_inv o cs cs' r : GFunc spec o cs = Ret (cs', r) \/ GStarFunc spec o cs = Ret (cs', r) ->
  cs' = cs \/ exists a vs, banned o vs = false /\ cs' = fst (ReplaceOffenderKeys a vs cs).
Proof.
  unfold GFunc, GStarFunc. cbv zeta. intros [H'|H']; revert H'; destruct (banned o _) eqn:Hb; (intros [= <- _]; by left) || intros H'; right;
    apply go_bind_inv in H' as ([cs1 g] & E & [= <- _]); unfold NewGuranatorAssignments in E; apply go_bind_inv in E as (c & _ & [= <- _]); eauto.
Qed.

Lemma assignments_writes o cs cs' r : GFunc spec o cs = Ret (cs', r) \/ GStarFunc spec o cs = Ret (cs', r) -> writes writesKeys cs cs'.
Proof.
  intros [->|(a & vs & _ & ->)]%assignments_inv; [apply writes_refl, _|]. apply conj; [|done]. cbn. by destruct (posteriorStates cs) as [? ? ? [] ].
Qed.

(** The offenders are no guarantors of the guarantees: nothing is written. *)
Lemma assignments_kept cs cs' r : let o := dr_Offenders (s_Psi (posteriorStates cs)) in
  GFunc spec o cs = Ret (cs', r) \/ GStarFunc spec o cs = Ret (cs', r) -> cs' = cs.
Proof.
  intros o [->|(a & vs & Hb & ->)]%assignments_inv; [done|]. by rewrite (ReplaceOffenderKeys_id _ _ _ Hb).
Qed.

Lemma signatures_kept guarantees tasks cs cs' errs : signatureLoop spec guarantees tasks cs = Ret (cs', errs) -> cs' = cs.
Proof.
  revert tasks cs. induction guarantees as [|g guarantees IH]; intros tasks cs; cbn [signatureLoop].
  { by intros (? & _ & [= <- _])%go_bind_inv. }
  intros ([cs1 r] & E & H')%go_bind_inv. unfold signatureTasks in E. cbv zeta in E. apply go_bind_inv in E as ([cs2 a] & E & Hr).
  assert (cs2 = cs) as ->.
  { eapply assignments_kept. destruct (_ =? _) in E; [left|right]; exact E. }
  assert (cs1 = cs) as ->.
  { destruct a as [a|e]; [|by injection Hr]. destruct (negb _) in Hr; [by injection Hr|]. destruct (negb _) in Hr; [by injection Hr|].
    apply go_bind_inv in Hr as ([m|] & _ & [= -> _]); done. }
  destruct r as [more|err]; [by eapply IH|]. by injection H' as <- _.
Qed.

Lemma guarantee_writes cs cs' errs : Guarantee spec cs = Ret (cs', errs) -> writes writesRho cs cs'.
Proof.
  unfold Guarantee. destruct (orElse _ _); [intros [= <- _]; apply writes_refl, _|]. intros ([cs1 e1] & E1 & H')%go_bind_inv.
  apply signatures_kept in E1 as ->. destruct e1; [|injection H' as <- _; apply writes_refl, _].
  apply go_bind_inv in H' as (err & _ & H'). destruct (orElse err _); [injection H' as <- _; apply writes_refl, _|].
  apply go_bind_inv in H' as (cs2 & E2 & [= <- _]). unfold TransitionWorkReport in E2. apply go_bind_inv in E2 as (rho & _ & [= <-]).
  destruct cs as [prior post inter lb pb pre po an vc ps qs sh]. destruct post, ps, qs; apply conj; reflexivity.
Qed.

Context (arrangeServices : gset Z -> list Z) (arrangeKVs : list StateKeyVal -> list StateKeyVal).
Context (sortBySender : list DeferredTransfer -> list DeferredTransfer).

Lemma parallel_writes cs input cs' o :
  ParallelizedAccumulation spec arrangeServices arrangeKVs sortBySender cs input = Ret (cs', o) -> writes writesAccounts cs cs'.
Proof.
  unfold ParallelizedAccumulation. cbv zeta. intros (outs & _ & H')%go_bind_inv. revert H'.
  set (cs1 := if decide _ then cs else _). assert (writes writesAccounts cs cs1) as Hw.
  { unfold cs1. case_decide; [apply writes_refl, _|]. same. }
  clearbody cs1. intros H'. apply go_bind_inv in H' as (e & _ & H'). destruct (negb _); [by injection H' as <- _|].
  repeat (apply go_bind_inv in H' as (? & _ & H')). injection H' as <- _. eapply writes_trans; [apply _|exact Hw|].
  apply conj; [|done]. cbn. by destruct (posteriorStates cs1).
Qed.

Lemma outer_writes fuel cs input cs' o :
  OuterAccumulation spec arrangeServices arrangeKVs sortBySender fuel cs input = Some (Ret (cs', o)) -> writes writesAccounts cs cs'.
Proof.
  revert cs input cs' o. induction fuel as [|fuel IH]; intros cs input cs' o; [done|]. cbn [OuterAccumulation].
  destruct (_ =? 0); [intros [= <- _]; apply writes_refl, _|].
  destruct (ParallelizedAccumulation _ _ _ _ _ _) as [[cs1 [star|] ]|] eqn:E1; [|intros [= <- _]; by eapply parallel_writes|done].
  apply parallel_writes in E1. destruct (OuterAccumulation _ _ _ _ _ _) as [[[cs2 [out|] ]|]|] eqn:E2; try done;
    intros [= <- _]; apply IH in E2; by eapply writes_trans; [apply _| |].
Qed.

Lemma accumulate_writes fuel cs cs' ok :
  UpdateAccumlate spec arrangeServices arrangeKVs sortBySender fuel cs = Some (Ret (cs', ok)) -> writes writesAccounts cs cs'.
Proof.
  unfold UpdateAccumlate. destruct (ProcessAccumulation spec cs) as [cs1|] eqn:E1; [|done].
  assert (writes writesAccounts cs cs1) as Hw.
  { revert E1. unfold ProcessAccumulation, UpdateAccumulatableWorkReports. intros (? & _ & E1)%go_bind_inv.
    apply go_bind_inv in E1 as (? & _ & [= <-]). same. }
  intros E. eapply writes_trans; [apply _|exact Hw|]. revert E. unfold DeferredTransfers.
  destruct (executeOuterAccumulation _ _ _ _ _ _) as [[[cs2 o]|]|] eqn:E2; [|done..].
  assert (writes writesAccounts cs1 cs2) as Hw2.
  { revert E2. unfold executeOuterAccumulation. cbv zeta. destruct (OuterAccumulation _ _ _ _ _ _ _) as [[[cs3 [out|] ]|]|] eqn:E3; [| |done..];
      apply outer_writes in E3; intros [= <- _]; [|exact E3]. eapply writes_trans; [apply _|exact E3|].
    unfold shareIota. destruct (Nat.eqb _ _); (apply conj; [|done]); cbn; by destruct (posteriorStates cs3). }
  destruct o as [out|]; [|intros [= <- _]; exact Hw2]. intros [= E4]. eapply writes_trans; [apply _|exact Hw2|].
  apply go_bind_inv in E4 as (S & _ & E4). apply go_bind_inv in E4 as (cs4 & Ex & E4). apply go_bind_inv in E4 as (cs5 & Ev & [= <- _]).
  unfold updateXi in Ex. repeat (apply go_bind_inv in Ex as (? & _ & Ex)). injection Ex as <-.
  unfold updateVartheta in Ev. apply go_bind_inv in Ev as (? & _ & [= <-]). apply conj; [|done]. cbn. by destruct (posteriorStates cs2).
Qed.

Lemma history_writes cs cs' : STFBetaHDagger2BetaHPrime spec cs = Ret (Some cs') -> writes writesBeta cs cs'.
Proof.
  unfold STFBetaHDagger2BetaHPrime. intros ([enc|] & _ & H')%go_bind_inv; [|done]. apply go_bind_inv in H' as (root & _ & H').
  apply go_bind_inv in H' as ([belt commitment] & _ & H'). apply go_bind_inv in H' as (h & _ & [= <-]).
  apply conj; [|done]. cbn. by destruct (posteriorStates cs).
Qed.

Lemma authorization_writes cs cs' err : Authorization spec cs = Ret (cs', err) -> writes writesAlpha cs cs'.
Proof.
  unfold Authorization. cbv zeta. destruct (AuthQueues_Validate _ _); [intros [= <- _]; apply writes_refl, _|].
  destruct (AuthPools_Validate _ _); [intros [= <- _]; apply writes_refl, _|]. intros ([post err'] & _ & H')%go_bind_inv.
  destruct err'; injection H' as <- _; [same|]. apply conj; [|done]. cbn. by destruct (posteriorStates cs).
Qed.

Lemma preimages_writes cs cs' : ProcessPreimageExtrinsics cs = Ret cs' -> writes writesDelta cs cs'.
Proof.
  unfold ProcessPreimageExtrinsics. cbv zeta. intros ([[eps d] cs1] & E & H')%go_bind_inv. unfold filterPreimageExtrinsics in E.
  apply go_bind_inv in E as ([[? ?] kvs] & _ & [= _ _ <-]).
  destruct (UpdateDeltaWithExtrinsicPreimage _ _ _) as [d' []]; injection H' as <-; (apply conj; [|done]); cbn; by destruct (posteriorStates cs).
Qed.

(** The four validator sets of a state, and keys of which some may have been
    nulled. *)
Definition validatorSets (s : State) : list (list Validator) := [sf_GammaK (s_Gamma s); s_Iota s; s_Kappa s; s_Lambda s].
Definition nulledKeys (old new : list Validator) : Prop := Forall2 (fun v v' => v' = v \/ v' = nullValidator) old new.
Definition nulledSets (s s' : State) : Prop := Forall2 nulledKeys (validatorSets s) (validatorSets s').

#[export] Instance nulledKeys_preorder : PreOrder nulledKeys.
Proof.
  split; [intros l; unfold nulledKeys; assert (Reflexive (fun v v' => v' = v \/ v' = nullValidator)) by (by left); reflexivity|].
  intros x y z. apply Forall2_trans. intros u v w [-> | ->] [-> | ->]; auto.
Qed.
#[export] Instance nulledSets_preorder : PreOrder nulledSets.
Proof. split; [intros s; unfold nulledSets; reflexivity|intros x y z; unfold nulledSets; apply transitivity]. Qed.

Lemma nullOffenders_nulled off vs old : nulledKeys old (nullOffenders off vs old).
Proof.
  apply Forall2_same_length_lookup_2; [by unfold nullOffenders; rewrite length_imap|]. intros i v v' Hv. unfold nullOffenders.
  rewrite list_lookup_imap, Hv. intros [= <-]. destruct (vs !! i) as [w|]; [|by left]. destruct (ValidatorIsOffender w off); auto.
Qed.

Lemma inArray_nulled a b off vs old : nulledKeys old (inArray a b (nullOffenders off vs) old).
Proof. unfold inArray. destruct (Nat.eqb b a); [apply nullOffenders_nulled|reflexivity]. Qed.

Lemma assignments_nulled o cs cs' r : GFunc spec o cs = Ret (cs', r) \/ GStarFunc spec o cs = Ret (cs', r) ->
  nulledSets (posteriorStates cs) (posteriorStates cs').
Proof.
  intros [->|(a & vs & _ & ->)]%assignments_inv; [reflexivity|]. cbn. repeat (constructor; [apply inArray_nulled|]). constructor.
Qed.

Lemma report_statistics_writes gs tau v cs cs' v' : UpdateReportStatistics spec gs tau v cs = Ret (cs', v') ->
  writes writesKeys cs cs' /\ nulledSets (posteriorStates cs) (posteriorStates cs') /\ (gs = [] -> cs' = cs).
Proof.
  unfold UpdateReportStatistics. destruct (Z.eqb_spec (lenOf gs) 0) as [E0|E0].
  { intros [= <- _]. split_and!; [apply writes_refl, _|reflexivity|done]. }
  cbv zeta. intros ([cs5 r1] & E5 & E4)%go_bind_inv. apply go_bind_inv in E4 as ([cs6 r2] & E6 & E4).
  apply go_bind_inv in E4 as (? & _ & [= <- _]). split_and!.
  - eapply writes_trans; [apply _|eapply assignments_writes; by left|eapply assignments_writes; by right].
  - etransitivity; [eapply assignments_nulled; by left|eapply assignments_nulled; by right].
  - by intros ->.
Qed.

Lemma statistics_writes cs cs' : UpdateStatistics spec cs = Ret cs' ->
  writes writesPi cs cs' /\ nulledSets (posteriorStates cs) (posteriorStates cs') /\
  (ex_Guarantees (b_Extrinsic (latestBlock cs)) = [] -> validatorSets (posteriorStates cs') = validatorSets (posteriorStates cs)).
Proof.
  unfold UpdateStatistics, UpdateValidatorActivityStatistics. cbv zeta.
  set (cs1 := if _ =? _ then _ else _).
  assert (writes writesPi cs cs1 /\ validatorSets (posteriorStates cs1) = validatorSets (posteriorStates cs)) as [Hw Hv].
  { unfold cs1. destruct (_ =? _); (split; [|done]); (apply conj; [|done]); cbn; by destruct (posteriorStates cs) as [? ? ? [] ]. }
  clearbody cs1. intros (cs2 & E2 & H')%go_bind_inv. apply go_bind_inv in H' as (cs3 & E3 & [= <-]).
  unfold UpdateCoreActivityStatistics in E3. apply go_bind_inv in E3 as (l & _ & [= <-]).
  unfold UpdateCurrentStatistics in E2. cbv zeta in E2. do 4 apply go_bind_inv in E2 as (? & _ & E2).
  apply go_bind_inv in E2 as ([cs4 vals] & (Hk & Hn & Hg)%report_statistics_writes & E2). apply go_bind_inv in E2 as (? & _ & [= <-]).
  split_and!.
  - eapply writes_trans; [apply _|exact Hw|]. destruct Hk as [Hk Hb]. apply (writes_trans _ _ cs4).
    + split; [|done]. rewrite Hk at 1. unfold writesPi. f_equal. rewrite Hk. by destruct (posteriorStates cs1) as [? ? ? [] ].
    + destruct (_ =? _); (apply conj; [|done]); cbn; by destruct (posteriorStates cs4) as [? ? ? [] ].
  - unfold nulledSets in *. rewrite <- Hv. by destruct (_ =? _).
  - intros ->%Hg. rewrite <- Hv. by destruct (_ =? _).
Qed.

(** ** Steps *)

Lemma runSteps_cons step steps s s' : runSteps (step :: steps) s = Some (Ret (s', None)) ->
  exists s1, step s = Some (Ret (s1, None)) /\ runSteps steps s1 = Some (Ret (s', None)).
Proof. cbn [runSteps]. destruct (step s) as [[[s1 [e|] ]|]|]; try done. eauto. Qed.

Lemma onStore_ok {E} (f : ChainState -> go (ChainState * option E)) err cs cache s1 :
  onStore f err (cs, cache) = Some (Ret (s1, None)) -> f cs = Ret (fst s1, None) /\ s1 = (fst s1, cache).
Proof.
  intros [= H']. apply go_bind_inv in H' as ([cs1 [e|] ] & -> & H'); cbn [fst snd] in H'.
  - by apply go_bind_inv in H' as (? & _ & ?).
  - by injection H' as <-.
Qed.

Lemma checking_ok f err cs cache s1 : checking f err (cs, cache) = Some (Ret (s1, None)) -> f cs = Ret None /\ s1 = (cs, cache).
Proof.
  intros [Hf ->]%onStore_ok. apply go_bind_inv in Hf as ([e|] & Hf & Hr); [by injection Hr|]. by injection Hr as <-.
Qed.

Lemma disputes_tau cs cs' r : Disputes spec cs = Ret (cs', r) -> s_Tau (priorStates cs') = s_Tau (priorStates cs).
Proof.
  unfold Disputes. destruct (disputeChecks spec cs _); [by intros [= <- _]|].
  intros (cs1 & E & H')%go_bind_inv. unfold ClearWorkReports in E. apply go_bind_inv in E as (rho & _ & [= <-]).
  assert (s_Tau (priorStates (writePriorRho rho cs)) = s_Tau (priorStates cs)) as <- by (by destruct (writePriorRho_ok rho cs) as [-> _]).
  unfold UpdatePsiGBW in H'. destruct (CompareVerdictsWithPsi _ _); [|cbn [orElse] in H'; by injection H' as <- _].
  destruct (orElse None _) in H'; by injection H' as <- _.
Qed.

Lemma safrole_tau cs cs' : OuterUsedSafrole spec cs = Ret (cs', None) -> s_Tau (priorStates cs) < s_Tau (posteriorStates cs).
Proof. unfold OuterUsedSafrole, R. destruct (Z.leb_spec (s_Tau (posteriorStates cs)) (s_Tau (priorStates cs))); [done|lia]. Qed.

(** ** The header *)

Context (arrange : list StateKeyVal -> list StateKeyVal).

(** The header of a block, checked against the state before it and its
    extrinsic. *)
Record header_checked (cs : ChainState) (cache cache' : KeyLevelCache) (header : Header) (ext : Extrinsic) : Prop := {
  hc_tickets : ValidateHeaderTicketsMark spec header (priorStates cs) = Ret None;
  hc_offenders : h_OffendersMark header = HeaderOffenders (de_Culprits (ex_Disputes ext)) (de_Faults (ex_Disputes ext));
  hc_extrinsic : CreateExtrinsicHash spec ext = Ret (Some (h_ExtrinsicHash header));
  hc_root : exists kvs, StateEncoder spec arrange (priorStates cs) = Ret kvs /\
    ComputeStateRootWithCache spec cache (kvs ++ preStateUnmatchedKeyVals cs) = Ret (h_ParentStateRoot header, cache');
  hc_author : h_AuthorIndex header < u16 (lenOf (s_Kappa (priorStates cs))) }.

Lemma header_ok cs cs1 cache s1 : let header := b_Header (latestBlock cs) in let ext := b_Extrinsic (latestBlock cs) in
  latestBlock cs1 = latestBlock cs -> preStateUnmatchedKeyVals cs1 = preStateUnmatchedKeyVals cs -> h_Parent header <> zeroArray 32 ->
  stepHeader spec arrange header (priorStates cs) ext (cs1, cache) = Some (Ret (s1, None)) ->
  fst s1 = cs1 /\ header_checked cs cache (snd s1) header ext.
Proof.
  intros header ext Hb Hpre Hp. unfold stepHeader. rewrite bool_decide_false by done. intros [= E].
  apply go_bind_inv in E as ([err cache1] & E & Hr). destruct err as [e|]; cbn [fst snd] in Hr; [by apply go_bind_inv in Hr as (? & _ & ?)|].
  injection Hr as <-. split; [done|]. cbn [snd]. unfold ValidateNonVRFHeader in E.
  apply go_bind_inv in E as ([e|] & Ht & E); [done|]. cbn [orElse] in E.
  destruct (ValidateHeaderOffenderMarker cs1 header) eqn:Ho; [done|]. apply go_bind_inv in E as ([e|] & Hx & E); [done|].
  apply go_bind_inv in E as (kvs & Hk & E). apply go_bind_inv in E as ([root cache2] & Hroot & E).
  destruct (bool_decide (h_ParentStateRoot header = root)) eqn:Hd; cbn [negb] in E; [|done]. apply bool_decide_eq_true in Hd. subst root.
  destruct (Z.leb_spec (u16 (lenOf (s_Kappa (priorStates cs)))) (h_AuthorIndex header)); [done|]. injection E as <-. rewrite Hpre in Hroot. split.
  - done.
  - unfold ValidateHeaderOffenderMarker in Ho. rewrite Hb, Z.eqb_refl in Ho. cbn [negb] in Ho. by case_bool_decide.
  - unfold validateExtrinsicHash in Hx. apply go_bind_inv in Hx as ([h|] & Hh & Hx); [|done]. case_bool_decide as Hd; [by rewrite Hh, Hd|done].
  - by exists kvs.
  - done.
Qed.

(** ** Blocks *)

Context (fuel : nat).

(** The stores that the components of an accepted block leave. *)
Record Stages := MkStages {
  disputed : ChainState; rotated : ChainState; assured : ChainState; reported : ChainState; accumulated : ChainState;
  recorded : ChainState; integrated : ChainState; authorized : ChainState }.

Record accepted (cs cs' : ChainState) (cache cache' : KeyLevelCache) (g : Stages) : Prop := {
  ac_block : Forall (fun c => latestBlock c = latestBlock cs)
    [disputed g; rotated g; assured g; reported g; accumulated g; recorded g; integrated g; authorized g; cs'];
  ac_slot : s_Tau (posteriorStates cs') = h_Slot (b_Header (latestBlock cs)) /\ s_Tau (priorStates cs) < s_Tau (posteriorStates cs');
  ac_header : h_Parent (b_Header (latestBlock cs)) <> zeroArray 32 ->
    header_checked cs cache cache' (b_Header (latestBlock cs)) (b_Extrinsic (latestBlock cs));
  ac_seal : ValidateHeaderVrf spec (b_Header (latestBlock cs)) (priorStates cs) (posteriorStates (rotated g)) = Ret None;
  ac_disputes : (exists mark, Disputes spec (STFBetaH2BetaHDagger (onPosterior (SetTau (h_Slot (b_Header (latestBlock cs)))) cs)) = Ret (disputed g, inl mark)) /\
    s_Psi (posteriorStates cs') = s_Psi (posteriorStates (disputed g));
  ac_safrole : OuterUsedSafrole spec (disputed g) = Ret (rotated g, None) /\ let post := posteriorStates cs' in let rot := posteriorStates (rotated g) in
    sf_GammaZ (s_Gamma post) = sf_GammaZ (s_Gamma rot) /\ sf_GammaS (s_Gamma post) = sf_GammaS (s_Gamma rot) /\
    sf_GammaA (s_Gamma post) = sf_GammaA (s_Gamma rot) /\ s_Eta post = s_Eta rot;
  ac_validated : ValidatePreimageExtrinsics (ex_Preimages (b_Extrinsic (latestBlock cs))) (s_Delta (priorStates cs)) (preStateUnmatchedKeyVals cs) = Ret None;
  ac_assurances : Assurance spec (rotated g) = Ret (assured g, None);
  ac_reports : Guarantee spec (assured g) = Ret (reported g, []) /\ s_Rho (posteriorStates cs') = s_Rho (posteriorStates (reported g));
  ac_accumulation : UpdateAccumlate spec arrangeServices arrangeKVs sortBySender fuel (reported g) = Some (Ret (accumulated g, true)) /\
    let post := posteriorStates cs' in let acc := posteriorStates (accumulated g) in
    s_Chi post = s_Chi acc /\ s_Varphi post = s_Varphi acc /\ s_Theta post = s_Theta acc /\
    s_Xi post = s_Xi acc /\ s_Vartheta post = s_Vartheta acc;
  ac_history : STFBetaHDagger2BetaHPrime spec (accumulated g) = Ret (Some (recorded g)) /\
    s_Beta (posteriorStates cs') = s_Beta (posteriorStates (recorded g));
  ac_preimages : ProcessPreimageExtrinsics (recorded g) = Ret (integrated g) /\
    s_Delta (posteriorStates cs') = s_Delta (posteriorStates (integrated g));
  ac_authorizations : Authorization spec (integrated g) = Ret (authorized g, None) /\
    s_Alpha (posteriorStates cs') = s_Alpha (posteriorStates (authorized g));
  ac_statistics : UpdateStatistics spec (authorized g) = Ret cs';
  ac_validators : let aut := posteriorStates (authorized g) in let rot := posteriorStates (rotated g) in
    validatorSets aut = [sf_GammaK (s_Gamma rot); s_Iota (posteriorStates (accumulated g)); s_Kappa rot; s_Lambda rot] /\
    nulledSets aut (posteriorStates cs') /\
    (ex_Guarantees (b_Extrinsic (latestBlock cs)) = [] -> validatorSets (posteriorStates cs') = validatorSets aut) }.

Lemma stepAccumulate_ok cs cs1 c c1 : stepAccumulate spec arrangeServices arrangeKVs sortBySender fuel (cs, c) = Some (Ret ((cs1, c1), None)) ->
  UpdateAccumlate spec arrangeServices arrangeKVs sortBySender fuel cs = Some (Ret (cs1, true)) /\ c1 = c.
Proof.
  unfold stepAccumulate. destruct (UpdateAccumlate _ _ _ _ _ _) as [m|]; [|done]. cbn [fmap option_fmap option_map]. intros [= E].
  apply go_bind_inv in E as ([cs2 []] & -> & E); cbn [fst snd] in E; [|done]. by injection E as <- <-.
Qed.

Lemma stepHistory_ok cs cs1 c c1 : stepHistory spec (cs, c) = Some (Ret ((cs1, c1), None)) ->
  STFBetaHDagger2BetaHPrime spec cs = Ret (Some cs1) /\ c1 = c.
Proof. intros [= E]. apply go_bind_inv in E as ([cs2|] & -> & E); [|done]. by injection E as <- <-. Qed.

Lemma plain_ok (m : go ChainState) cs1 (e : option Z) : (cs ← m; Ret (cs, e)) = Ret (cs1, None) -> m = Ret cs1.
Proof. intros (? & -> & [= -> _])%go_bind_inv. done. Qed.

Lemma updateDisputes_ok cs cs1 : UpdateDisputes spec cs = Ret (cs1, None) -> exists mark, Disputes spec cs = Ret (cs1, inl mark).
Proof. intros ([cs2 [mark|]] & -> & E)%go_bind_inv; [|done]. injection E as <-. by exists mark. Qed.

Lemma updateReports_ok cs cs1 : UpdateReports spec cs = Ret (cs1, None) -> Guarantee spec cs = Ret (cs1, []).
Proof. intros ([cs2 [|]] & -> & E)%go_bind_inv; [|done]. by injection E as <-. Qed.

(** The next step, one on the store. *)
Ltac store_step Hs c E := apply runSteps_cons in Hs as ([c ?] & [E [= ->] ]%onStore_ok & Hs); cbn [fst] in *.

(** What a step does not write stays. *)
Ltac kept f Ws := let rec go l := match l with
  | (?l', ?W) => let E := fresh in pose proof (f_equal f (proj1 W)) as E; cbn in E; go l'
  | _ => idtac end in go Ws; congruence.

(** C1: An accepted block.  When [RunSTF] succeeds, the slot has advanced to
    that of the header; the header of a block with a parent carries the hash
    of its extrinsic, the offenders of its disputes, the tickets mark, an
    author among the validators, and the root of the encoded prior state
    with its unmatched pairs; its seal and entropy are valid for the keys
    after the rotation; and disputes, Safrole, assurances, guarantees,
    accumulation, history, preimages, authorizations and statistics each
    succeeded, in this order, on the store that the one before left, with
    the same block.  Each part of the posterior state is the one that its
    component left.  The validator sets are those of Safrole and of the
    accumulation up to the statistics, which can null keys in place in any of
    them, but only when the block has guarantees. *)
Theorem RunSTF_accepts cs cs' cache cache' :
  RunSTF spec arrange arrangeServices arrangeKVs sortBySender fuel cs cache = Some (Ret ((cs', cache'), None)) ->
  exists g, accepted cs cs' cache cache' g.
Proof.
  unfold RunSTF, stfSteps. set (header := b_Header (latestBlock cs)). set (ext := b_Extrinsic (latestBlock cs)).
  intros (s0 & E & Hs)%runSteps_cons. injection E as <-. set (cs0 := onPosterior (SetTau (h_Slot header)) cs) in *.
  apply runSteps_cons in Hs as ([c0 cacheH] & Eh & Hs).
  assert (c0 = cs0 /\ (h_Parent header <> zeroArray 32 -> header_checked cs cache cacheH header ext)) as [-> Hheader].
  { destruct (decide (h_Parent header = zeroArray 32)) as [Hp|Hp].
    - unfold stepHeader in Eh. rewrite bool_decide_true in Eh by done. by injection Eh as <- <-.
    - by apply (header_ok cs cs0) in Eh as [? ?]. }
  clear Eh. apply runSteps_cons in Hs as (s & E & Hs). injection E as <-.
  store_step Hs cs2 E2. store_step Hs cs3 E3.
  apply runSteps_cons in Hs as (? & [E4 ->]%checking_ok & Hs). apply runSteps_cons in Hs as (? & [E5 ->]%checking_ok & Hs).
  store_step Hs cs6 E6. store_step Hs cs7 E7.
  apply runSteps_cons in Hs as ([cs8 ?] & E8 & Hs). apply runSteps_cons in Hs as ([cs9 ?] & E9 & Hs).
  store_step Hs cs10 E10. store_step Hs cs11 E11. store_step Hs cs12 E12. injection Hs as <- <-.
  apply updateDisputes_ok in E2 as (mark & E2). apply updateReports_ok in E7. apply stepAccumulate_ok in E8 as [E8 ->].
  apply stepHistory_ok in E9 as [E9 ->]. apply plain_ok in E10, E12.
  pose proof (safrole_tau _ _ E3) as Hslot. pose proof (disputes_tau _ _ _ E2) as Htau. exists (MkStages cs2 cs3 cs6 cs7 cs8 cs9 cs10 cs11).
  pose proof (disputes_writes _ _ _ E2) as W2. pose proof (safrole_writes _ _ E3) as W3. pose proof (assurance_writes _ _ _ E6) as W6.
  pose proof (guarantee_writes _ _ _ E7) as W7. pose proof (accumulate_writes _ _ _ _ E8) as W8. pose proof (history_writes _ _ E9) as W9.
  pose proof (preimages_writes _ _ E10) as W10. pose proof (authorization_writes _ _ _ E11) as W11. destruct (statistics_writes _ _ E12) as (W12 & Hn & Hg).
  assert (s_Tau (posteriorStates cs12) = h_Slot header) as Ht by kept s_Tau (tt, W2, W3, W6, W7, W8, W9, W10, W11, W12).
  assert (s_Tau (posteriorStates cs2) = h_Slot header) as Ht2 by kept s_Tau (tt, W2).
  split; cbn [disputed rotated assured reported accumulated recorded integrated authorized].
  - destruct W2 as [_ B2], W3 as [_ B3], W6 as [_ B6], W7 as [_ B7], W8 as [_ B8], W9 as [_ B9], W10 as [_ B10], W11 as [_ B11], W12 as [_ B12].
    cbn in B2. repeat constructor; congruence.
  - split; [exact Ht|]. cbn in Htau. lia.
  - exact Hheader.
  - exact E4.
  - split; [by exists mark|]. kept s_Psi (tt, W3, W6, W7, W8, W9, W10, W11, W12).
  - split; [exact E3|]. cbv zeta. split_and!; [kept (fun s => sf_GammaZ (s_Gamma s)) (tt, W6, W7, W8, W9, W10, W11, W12)
      |kept (fun s => sf_GammaS (s_Gamma s)) (tt, W6, W7, W8, W9, W10, W11, W12)
      |kept (fun s => sf_GammaA (s_Gamma s)) (tt, W6, W7, W8, W9, W10, W11, W12)|kept s_Eta (tt, W6, W7, W8, W9, W10, W11, W12)].
  - exact E5.
  - exact E6.
  - split; [exact E7|]. kept s_Rho (tt, W8, W9, W10, W11, W12).
  - split; [exact E8|]. cbv zeta. split_and!;
      [kept s_Chi (tt, W9, W10, W11, W12)|kept s_Varphi (tt, W9, W10, W11, W12)|kept s_Theta (tt, W9, W10, W11, W12)|kept s_Xi (tt, W9, W10, W11, W12)|kept s_Vartheta (tt, W9, W10, W11, W12)].
  - split; [exact E9|]. kept s_Beta (tt, W10, W11, W12).
  - split; [exact E10|]. kept s_Delta (tt, W11, W12).
  - split; [exact E11|]. kept s_Alpha (tt, W12).
  - exact E12.
  - assert (latestBlock cs11 = latestBlock cs) as Hl.
    { destruct W2 as [_ B2], W3 as [_ B3], W6 as [_ B6], W7 as [_ B7], W8 as [_ B8], W9 as [_ B9], W10 as [_ B10], W11 as [_ B11]. cbn in B2. congruence. }
    rewrite Hl in Hg. cbv zeta. split_and!; [|exact Hn|exact Hg]. unfold validatorSets.
    f_equal; [kept (fun s => sf_GammaK (s_Gamma s)) (tt, W6, W7, W8, W9, W10, W11)|]. f_equal; [kept s_Iota (tt, W9, W10, W11)|].
    f_equal; [kept s_Kappa (tt, W6, W7, W8, W9, W10, W11)|]. f_equal. kept s_Lambda (tt, W6, W7, W8, W9, W10, W11).
Qed.

End STF.

(** ** The transition with timing *)

(** [t] does what [s] does, unless that is a run-time panic. *)
Definition tolerates (s t : Step) : Prop := forall x, s x = Some Crash \/ t x = s x.

Lemma tolerates_refl s : tolerates s s.
Proof. by right. Qed.

Lemma tolerates_onStore {E} (f : ChainState -> go (ChainState * option E)) err err' :
  (forall e, err e = Crash \/ err' e = err e) -> tolerates (onStore f err) (onStore f err').
Proof.
  intros He [cs cache]. unfold onStore. destruct (f cs) as [[cs' [e|]]|]; cbn; [|by right..]. destruct (He e) as [->| ->]; auto.
Qed.

Lemma runSteps_tolerates ss ts : Forall2 tolerates ss ts -> forall x, runSteps ss x = Some Crash \/ runSteps ts x = runSteps ss x.
Proof.
  induction 1 as [|s t ss ts Hst _ IH]; intros x; [by right|]. cbn [runSteps]. destruct (Hst x) as [->| ->]; [by left|].
  destruct (s x) as [[[y [e|]]|]|]; auto.
Qed.

Section Timing.
Context `{HashFunctions} `{Ed25519} `{VRF} `{AccumulateVM} (spec : ChainSpec) (arrange : list StateKeyVal -> list StateKeyVal).
Context (arrangeServices : gset Z -> list Z) (arrangeKVs : list StateKeyVal -> list StateKeyVal).
Context (sortBySender : list DeferredTransfer -> list DeferredTransfer).

Lemma timedHeader_tolerates header priorState ext : tolerates (stepHeader spec arrange header priorState ext) (timedHeader spec arrange header priorState ext).
Proof.
  intros [cs cache]. unfold stepHeader, timedHeader. case_bool_decide; [by right|].
  destruct (ValidateNonVRFHeader _ _ _ _ _ _ _) as [[[[c|]|] cache']|]; cbn; auto.
Qed.

Lemma timedSteps_tolerate fuel priorState header ext kvs :
  Forall2 tolerates (stfSteps spec arrange arrangeServices arrangeKVs sortBySender fuel priorState header ext kvs)
    (timedSteps spec arrange arrangeServices arrangeKVs sortBySender fuel priorState header ext kvs).
Proof.
  unfold stfSteps, timedSteps. repeat (apply Forall2_cons; split; [first [apply tolerates_refl|apply timedHeader_tolerates|idtac]|]); [|by constructor].
  apply tolerates_onStore. intros [|[] errs]; cbn; auto.
Qed.

(** The transition with timing has the same effects and the same error
    as the one without, unless that panics; but it calls every error one of
    the protocol. *)
Theorem RunSTFWithTiming_agrees fuel cs cache :
  match RunSTF spec arrange arrangeServices arrangeKVs sortBySender fuel cs cache with
  | Some (Ret (s, e)) =>
      RunSTFWithTiming spec arrange arrangeServices arrangeKVs sortBySender fuel cs cache = Some (Ret (s, (bool_decide (is_Some e), e)))
  | Some Crash => True
  | None => RunSTFWithTiming spec arrange arrangeServices arrangeKVs sortBySender fuel cs cache = None
  end.
Proof.
  unfold RunSTF, RunSTFWithTiming.
  destruct (runSteps_tolerates _ _ (timedSteps_tolerate fuel (priorStates cs) (b_Header (latestBlock cs)) (b_Extrinsic (latestBlock cs))
    (preStateUnmatchedKeyVals cs)) (cs, cache)) as [->| ->]; [done|]. by destruct (runSteps _ _) as [[[s e]|]|].
Qed.

End Timing.
