(* ===== verification/FuzzTarget.v ===== *)
(** * The target of the fuzzer

    src/internal/fuzz/service.go and server.go: the requests of the fuzzer.
    [ImportBlock] finds the state a block builds on, going back to that of
    its parent if the last block is another, runs the transition, and commits
    the state; [SetState] starts a chain from a state; [GetState] gives the
    state of a block.

    The fuel, the orders of maps and the schedules are those of STF.v. The
    texts of errors are an argument. The requests of a connection are handled
    one after the other; connections share the node. *)

From stdpp Require Import sorting.
From S2P Require Import Prelude Words Types Config Codec Encode Decoders Crypto Trie Store StateSer Accumulation OuterAccumulation STF.
From S2P Require Import Repository Blockchain FuzzMessages.
Local Open Scope Z_scope.

(** Why a block is not imported. *)
Inductive ImportError :=
  | HeaderHashError
  | LatestHashError
  | NotFinalizedPart
  | LookupError
  | AlreadyFinalized
  | RestoreError
  (** An error of the transition that is not of the protocol, and one that is. *)
  | STFRuntimeError (e : STFError)
  | STFProtocolError (e : STFError).

Section Service.
Context {PDB : Type} `{!Reader PDB, !Writer PDB}.
Context `{HashFunctions} `{Ed25519} `{VRF} `{AccumulateVM} (makeOK : Z -> bool) (spec : ChainSpec).
Context (arrange : list StateKeyVal -> list StateKeyVal) (arrangeServices : gset Z -> list Z) (arrangeKVs : list StateKeyVal -> list StateKeyVal).
Context (sortBySender : list DeferredTransfer -> list DeferredTransfer).

Abbreviation Node := (Node PDB).

(** [stf.RunSTF] on the store, with the latest of the node's blocks. *)
Definition runSTF (fuel : nat) (n : Node) : option (go (Node * option STFError)) :=
  match GetLatestBlock n with
  | Crash => Some Crash
  | Ret latest =>
      (fun m => r ← m; let '((cs, cache), e) := r in Ret (setCache cache (onChain (fun _ => cs) n), e)) <$>
        RunSTF spec arrange arrangeServices arrangeKVs sortBySender fuel (SetLatestBlock latest (nd_chain n)) (nd_keyLevelCache n)
  end.

(** The state the block builds on is that of the node if the last block is
    its parent or the block itself; else that of its parent is restored. *)
Definition findParent (block : Block) (headerHash : Bytes) (n : Node) : go (Node * option ImportError) :=
  match nd_unfinalizedBlocks n with
  | [] => Ret (n, None)
  | _ =>
      latest ← GetLatestBlock n;
      ⟪ latestBlockHash ⟫ ⇠ ComputeBlockHeaderHash spec (b_Header latest) ⊘ Ret (n, Some LatestHashError);
      let latestSlot := from_option an_Slot 0 (last (ancestry (nd_chain n))) in
      let header := b_Header block in
      if bool_decide (latestBlockHash <> h_Parent header) && bool_decide (latestBlockHash <> headerHash) then
        if h_Slot header <? 1 then Ret (n, Some NotFinalizedPart)
        else if h_Slot header <? latestSlot then
          ⟪ finalizedHeaders ⟫ ⇠ GetBlockHashByNumber n (h_Slot header) ⊘ Ret (n, Some LookupError);
          Ret (n, Some (if bool_decide (headerHash ∈ finalizedHeaders) then AlreadyFinalized else NotFinalizedPart))
        else
          r ← RestoreBlockAndState makeOK spec (h_Parent header) n;
          Ret (fst r, match snd r with None => Some RestoreError | Some _ => None end)
      else Ret (n, None)
  end.

(** The state of the transition is committed under the header hash. *)
Definition commitPosterior (headerHash : Bytes) (slot : Z) (n : Node) : go (Node * Bytes) :=
  serializedState ← StateEncoder spec arrange (posteriorStates (nd_chain n));
  let combinedState := postStateUnmatchedKeyVals (nd_chain n) ++ serializedState in
  r ← ComputeStateRootWithCache spec (nd_keyLevelCache n) combinedState;
  let latestStateRoot := fst r in
  n ← StateCommitWithPreComputedState spec headerHash latestStateRoot combinedState (setCache (snd r) n);
  n ← (if Enabled n then PruneOldData latestStateRoot headerHash slot n else Ret n);
  Ret (n, latestStateRoot).

Definition importAdded (fuel : nat) (headerHash : Bytes) (block : Block) (n : Node) : option (go (Node * (Bytes + ImportError))) :=
  match AddBlock spec block n with
  | Crash => Some Crash
  | Ret n =>
      match runSTF fuel n with
      | None => None
      | Some Crash => Some Crash
      | Some (Ret (n, Some err)) => Some (Ret (n, inr (if IsProtocolError err then STFProtocolError err else STFRuntimeError err)))
      | Some (Ret (n, None)) => Some (r ← commitPosterior headerHash (h_Slot (b_Header block)) n; Ret (fst r, inl (snd r)))
      end
  end.

(** The blocks are trimmed whatever the outcome. *)
Definition ImportBlock (fuel : nat) (block : Block) (n : Node) : option (go (Node * (Bytes + ImportError))) :=
  match ComputeBlockHeaderHash spec (b_Header block) with
  | Crash => Some Crash
  | Ret None => Some (Ret (n, inr HeaderHashError))
  | Ret (Some headerHash) =>
      (fun m => r ← m; Ret (TrimUnfinalizedBlocksForFuzz (fst r), snd r)) <$>
      match findParent block headerHash n with
      | Crash => Some Crash
      | Ret (n, Some err) => Some (Ret (n, inr err))
      | Ret (n, None) => importAdded fuel headerHash block n
      end
  end.

(** The error of encoding the header is dropped; that of the state is
    returned. *)
Definition SetState (header : Header) (stateKeyVals : list StateKeyVal) (ancestry : list AncestryItem) : Tx Node Bytes := fun n =>
  let n := onChain (SetVerifierCache None) (ResetInstance spec n) in
  let n := AppendAncestry spec ancestry n in
  _ ← ComputeBlockHeaderHash spec header;
  ⟪ s ⟫ ⇠ StateKeyValsToState makeOK spec stateKeyVals ⊘ Ret (n, None);
  let '(state, unmatchedKeyVals) := s in
  let n := onChain (fun cs => SetPosteriorState state (SetPostStateUnmatchedKeyVals unmatchedKeyVals cs)) n in
  n ← AddBlock spec (MkBlock header zeroExtrinsic) n;
  n ← StateCommit spec arrange n;
  let n := onChain (SetPosteriorState (NewPosteriorStates spec)) n in
  serializedState ← StateEncoder spec arrange state;
  rootWithCache spec (unmatchedKeyVals ++ serializedState) n.

(** The block is only looked up for the log. *)
Definition GetState (headerHash : Bytes) (n : Node) : go (option (list StateKeyVal)) :=
  _ ← GetBlockByHash makeOK spec n headerHash; GetStateByBlockHash makeOK n headerHash.

(** ** The server *)

Context (config : Bytes * Bytes * Bytes * Z * Z) (errorText : ImportError -> Bytes).

Definition Handshake : option PeerInfo :=
  let '(name, appVersion, jamVersion, fuzzVersion, fuzzFeatures) := config in
  PeerInfo_FromValues name appVersion jamVersion fuzzVersion fuzzFeatures.

(** A runtime error of the transition closes the connection; any other is
    answered. The payload is there: the message was read. *)
Definition handleImportBlock (fuel : nat) (block : Block) (n : Node) : option (go (Node * option Message)) :=
  (fun m => r ← m;
     Ret (fst r, match snd r with
                 | inl root => Some (stateRootMessage root)
                 | inr (STFRuntimeError _) => None
                 | inr e => Some (errorMessage (errorText e))
                 end)) <$> ImportBlock fuel block n.

Definition handleSetState (s : FuzzMessages.SetState) : Tx Node Message := fun n =>
  r ← SetState (ss_Header s) (ss_State s) (ss_Ancestry s) n; Ret (fst r, option_map stateRootMessage (snd r)).

(** An error is only logged, and the answer is the nil state. *)
Definition handleGetState (h : Bytes) : Tx Node Message := fun n =>
  kvs ← GetState h n; Ret (n, Some (stateMessage (default [] kvs))).

Definition handlePeerInfo : Tx Node Message := fun n => Ret (n, option_map peerInfoMessage Handshake).

(** The handler of the type of the request. *)
Definition dispatch (fuel : nat) (req : Message) (n : Node) : option (go (Node * option Message)) :=
  if mg_Type req =? MessageType_PeerInfo then
    Some (match mg_PeerInfo req with Some _ => handlePeerInfo n | None => Crash end)
  else if mg_Type req =? MessageType_ImportBlock then
    match mg_ImportBlock req with Some b => handleImportBlock fuel b n | None => Some Crash end
  else if mg_Type req =? MessageType_SetState then
    Some (match mg_SetState req with Some s => handleSetState s n | None => Crash end)
  else if mg_Type req =? MessageType_GetState then
    Some (match mg_GetState req with Some h => handleGetState h n | None => Crash end)
  else Some (Ret (n, None)).

(** One request of the connection: the bytes left to read and the bytes
    written. An error or a panic, which is recovered from, ends the
    connection; the node keeps what was done. A panic leaves the node in a
    state that is not modelled. *)
Definition serveOneRequest (fuel : nat) (conn : Bytes) (n : Node) : option (go (Node * option (Bytes * Bytes))) :=
  match Message_ReadFrom makeOK spec conn with
  | Crash => Some Crash
  | Ret None => Some (Ret (n, None))
  | Ret (Some (req, rest)) =>
      (fun m => r ← m;
         match snd r with
         | None => Ret (fst r, None)
         | Some resp => respBytes ← Message_MarshalBinary spec resp; Ret (fst r, option_map (fun b => (rest, b)) respBytes)
         end) <$> dispatch fuel req n
  end.

End Service.
