(* ===== verification/FuzzTargetSpec.v ===== *)
(** * Correctness of the fuzzer's target

    What an import does to the store: a committed state is read back, a failed
    import leaves the committed states alone, the store stays bounded, and a
    fork starts from the committed state of its parent. All of it for a node
    without a persistent database, as the target runs. *)

From stdpp Require Import sorting.
From S2P Require Import Prelude Words Types Config Codec Encode Decoders Crypto Trie Store StoreLaws StateSer Accumulation OuterAccumulation STF.
From S2P Require Import CodecSpec Roundtrip ProtocolWf ProtocolSpec Repository Blockchain FuzzMessages FuzzTarget.
Local Open Scope Z_scope.

(** ** Writes that keep the states *)

Definition same_states (m m' : gmap Bytes Bytes) : Prop :=
  forall e, (exists h, e = ERoot h \/ e = EData h) -> m' !! entryKey e = m !! entryKey e.

Lemma same_states_trans m1 m2 m3 : same_states m1 m2 -> same_states m2 m3 -> same_states m1 m3.
Proof. intros H1 H2 e He. by rewrite H2, H1. Qed.

#[export] Instance same_states_pre : PreOrder same_states.
Proof. split; [by intros ??|intros ???; apply same_states_trans]. Qed.

(** A key outside the two tables of states. *)
Definition not_state (k : Bytes) : Prop := forall h, k <> entryKey (ERoot h) /\ k <> entryKey (EData h).

Lemma same_states_insert m k v : not_state k -> same_states m (<[k := v]> m).
Proof. intros Hk e [h [-> | ->]]; rewrite lookup_insert_ne; try done; apply (Hk h). Qed.

Lemma same_states_delete m k : not_state k -> same_states m (base.delete k m).
Proof. intros Hk e [h [-> | ->]]; rewrite lookup_delete_ne; try done; apply (Hk h). Qed.

Lemma not_state_entry e : match e with ERoot _ | EData _ => False | _ => True end -> not_state (entryKey e).
Proof. intros He h. destruct e; try done; split; discriminate. Qed.

(** Whatever a transaction returns, the states stay. *)
Definition keeps {A : Type} (tx : Tx memoryDB A) : Prop :=
  forall t t' o, tx t = Ret (t', o) -> is_open t -> is_open t' /\ same_states (contents t) (contents t').

Lemma keeps_ret {A : Type} (x : A) : keeps (mret x).
Proof. intros t t' o [= <- _] Ht. by split. Qed.

Lemma keeps_attempt {A : Type} (m : go (option A)) : keeps (attempt m).
Proof. intros t t' o (? & _ & [= <- _])%go_bind_inv Ht. by split. Qed.

Lemma Tx_bind_inv {T A B : Type} (m : Tx T A) (k : A -> Tx T B) t t' o : (m ≫= k) t = Ret (t', o) ->
  exists t1 x, m t = Ret (t1, x) /\ match x with Some x => k x t1 = Ret (t', o) | None => t' = t1 /\ o = None end.
Proof.
  intros E. change (((r ← m t; match snd r with Some x => k x (fst r) | None => Ret (fst r, None) end) : go _) = Ret (t', o)) in E.
  destruct (m t) as [[t1 [x|]]|]; [|by injection E as <- <-; exists t1, None|done]. by exists t1, (Some x).
Qed.

Lemma keeps_bind {A B : Type} (m : Tx memoryDB A) (k : A -> Tx memoryDB B) : keeps m -> (forall x, keeps (k x)) -> keeps (m ≫= k).
Proof.
  intros Hm Hk t t' o Eb Ht. apply Tx_bind_inv in Eb as (t1 & [x|] & E & E2); destruct (Hm _ _ _ E Ht) as [H1 H2].
  - destruct (Hk x _ _ _ E2 H1) as [H3 H4]. split; [done|by etransitivity].
  - by destruct E2 as [-> _].
Qed.

Lemma keeps_putKV k v : not_state k -> keeps (putKV k v).
Proof.
  intros Hk [[m|]] t' o E [m' Hm]; [|done]. cbn in E. injection E as <- _. split; [by eexists|]. by apply same_states_insert.
Qed.

Lemma keeps_delete k : not_state k -> keeps (deleteKV k).
Proof.
  intros Hk [[m|]] t' o E [m' Hm]; [|done]. cbn in E. injection E as <- _. split; [by eexists|]. by apply same_states_delete.
Qed.

Lemma keeps_key {A : Type} (m : go Bytes) (k : Bytes -> Tx memoryDB A) key : m = Ret key -> keeps (k key) -> keeps (attempt (Some <$> m) ≫= k).
Proof. intros -> Hk t t' o E. exact (Hk t t' o E). Qed.


Section Frames.
Context `{HashFunctions} (spec : ChainSpec).

Lemma keeps_SaveHeaderTimeSlot hash slot : keeps (SaveHeaderTimeSlot hash slot).
Proof.
  unfold SaveHeaderTimeSlot. apply keeps_bind; [apply keeps_attempt|]. intros x. apply keeps_putKV. by apply (not_state_entry (ESlot hash)).
Qed.

Lemma keeps_SaveBlock b : keeps (SaveBlock spec b).
Proof.
  unfold SaveBlock, SaveHeader, SaveExtrinsic. apply keeps_bind.
  - apply keeps_bind; [apply keeps_attempt|]. intros eh. apply keeps_bind; [apply keeps_SaveHeaderTimeSlot|]. intros _.
    apply keeps_bind; [|intros; apply keeps_ret]. eapply keeps_key; [apply headerKey_entry|]. apply keeps_putKV. by apply not_state_entry.
  - intros h. apply keeps_bind; [apply keeps_attempt|]. intros ee. eapply keeps_key; [apply extrinsicKey_entry|].
    apply keeps_putKV. by apply not_state_entry.
Qed.

Lemma keeps_DeleteBlock hash slot : keeps (DeleteBlock hash slot).
Proof.
  unfold DeleteBlock, DeleteHeader, DeleteExtrinsic, DeleteHeaderTimeSlot. apply keeps_bind.
  - apply keeps_bind; [apply keeps_delete; by apply (not_state_entry (ESlot hash))|]. intros _.
    eapply keeps_key; [apply headerKey_entry|]. apply keeps_delete. by apply not_state_entry.
  - intros _. eapply keeps_key; [apply extrinsicKey_entry|]. apply keeps_delete. by apply not_state_entry.
Qed.

End Frames.

(** ** Transactions of the node *)

Section Node.
Context {PDB : Type} `{!Reader PDB, !Writer PDB}.

(** A node of the target: no persistent database, and the other is open. *)
Definition target (n : Node PDB) : Prop := nd_persistentRepo n = None /\ is_open (nd_repo n).

Definition nodeDB (n : Node PDB) : gmap Bytes Bytes := contents (nd_repo n).

Lemma target_opened n : target n -> nd_repo n = opened (nodeDB n).
Proof. intros [_ Ho]. by apply is_open_opened. Qed.

(** What stays of a node when only blocks are written to its database. *)
Definition stays (n n' : Node PDB) : Prop :=
  target n' /\ same_states (nodeDB n) (nodeDB n') /\ nd_persistedEntries n' = nd_persistedEntries n.

Lemma stays_refl n : target n -> stays n n.
Proof. by split. Qed.

Lemma stays_trans n1 n2 n3 : stays n1 n2 -> stays n2 n3 -> stays n1 n3.
Proof. intros (_ & H1 & E1) (H2 & H3 & E2). split_and!; [done|by etransitivity|congruence]. Qed.

Lemma logged_repo {A : Type} (tx : Tx memoryDB A) (n n' : Node PDB) : logged (onRepo tx) n = Ret n' ->
  exists t' o, tx (nd_repo n) = Ret (t', o) /\ n' = setRepo t' n.
Proof.
  unfold logged, onRepo. intros ([n1 o] & E & [= <-])%go_bind_inv. apply go_bind_inv in E as ([t' o'] & E & [= <- <-]). by exists t', o'.
Qed.

Lemma logged_keeps {A : Type} (tx : Tx memoryDB A) (n n' : Node PDB) : keeps tx -> target n -> logged (onRepo tx) n = Ret n' ->
  stays n n' /\ exists t', n' = setRepo t' n.
Proof.
  intros Hk [Hn Ho] (t' & o & E & ->)%logged_repo. destruct (Hk _ _ _ E Ho) as [Ho' Hs]. split; [by split_and!|by exists t'].
Qed.

(** A write that is known to succeed. *)
Lemma logged_writes {A : Type} f (x : A) (tx : Tx memoryDB A) (n n' : Node PDB) : writes f x tx -> target n -> logged (onRepo tx) n = Ret n' ->
  n' = setRepo (opened (f (nodeDB n))) n.
Proof.
  intros Hw [Hn Ho] (t' & o & E & ->)%logged_repo. destruct (Hw _ Ho) as (t1 & E1 & Hu & Hv). rewrite E in E1. injection E1 as -> ->.
  f_equal. specialize (Hv ∅). cbn in Hv. unfold nodeDB. rewrite <- Hv. by apply is_open_opened.
Qed.

End Node.

Section NodeKeeps.
Context {PDB : Type} `{!Reader PDB, !Writer PDB} `{HashFunctions} (makeOK : Z -> bool) (spec : ChainSpec).
Context (arrange : list StateKeyVal -> list StateKeyVal).

(** Only the database differs, and not in its states. *)
Definition only_db (n n' : Node PDB) : Prop := stays n n' /\ exists t', n' = setRepo t' n.

Lemma only_db_trans n1 n2 n3 : only_db n1 n2 -> only_db n2 n3 -> only_db n1 n3.
Proof. intros [H1 [t1 ->]] [H2 [t2 ->]]. split; [by eapply stays_trans|by exists t2]. Qed.

Lemma only_db_refl n : target n -> only_db n n.
Proof. intros Hn. split; [by apply stays_refl|]. exists (nd_repo n). by destruct n. Qed.

Definition keepsN {A : Type} (tx : Tx (Node PDB) A) : Prop := forall n n' o, tx n = Ret (n', o) -> target n -> only_db n n'.

Lemma keepsN_onRepo {A : Type} (tx : Tx memoryDB A) : keeps tx -> keepsN (onRepo tx).
Proof.
  intros Hk n n' o ([t' x] & E & [= <- _])%go_bind_inv [Hn Ho]. destruct (Hk _ _ _ E Ho). by repeat split; [..|exists t'].
Qed.

Lemma keepsN_attempt {A : Type} (m : go (option A)) : keepsN (attempt m).
Proof. intros n n' o (? & _ & [= <- _])%go_bind_inv Hn. by apply only_db_refl. Qed.

Lemma keepsN_bind {A B : Type} (m : Tx (Node PDB) A) (k : A -> Tx (Node PDB) B) : keepsN m -> (forall x, keepsN (k x)) -> keepsN (m ≫= k).
Proof.
  intros Hm Hk n n' o (n1 & [x|] & E & E2)%Tx_bind_inv Hn; pose proof (Hm _ _ _ E Hn) as H1.
  - eapply only_db_trans; [exact H1|]. eapply Hk; [exact E2|]. apply H1.
  - by destruct E2 as [-> _].
Qed.

Lemma logged_keepsN {A : Type} (tx : Tx (Node PDB) A) n n' : keepsN tx -> target n -> logged tx n = Ret n' -> only_db n n'.
Proof. intros Hk Hn ([n1 o] & E & [= <-])%go_bind_inv. by eapply Hk. Qed.

Lemma target_Enabled (n : Node PDB) : target n -> Enabled n = true.
Proof. intros [E _]. unfold Enabled. by rewrite E. Qed.

Lemma persistBlockMapping_keeps b : keepsN (persistBlockMapping (PDB := PDB) spec b).
Proof.
  intros n n' o E Hn. unfold persistBlockMapping in E. rewrite (target_Enabled n Hn) in E. revert E Hn. revert n n' o.
  apply keepsN_bind; [apply keepsN_attempt|]. intros h. apply keepsN_bind.
  - apply keepsN_onRepo, keeps_SaveBlock.
  - intros _. apply keepsN_onRepo, keeps_SaveHeaderTimeSlot.
Qed.

(** Adding a block keeps the states, and the node but for its blocks. *)
Lemma AddBlock_keeps b n n' : target n -> AddBlock spec b n = Ret n' ->
  only_db (setBlocks (nd_unfinalizedBlocks n ++ [b]) n) n'.
Proof. intros Hn E. eapply logged_keepsN; [apply persistBlockMapping_keeps| |exact E]. exact Hn. Qed.

Lemma setBlocks_stays bs (n : Node PDB) : target n -> stays n (setBlocks bs n).
Proof. intros Hn. split_and!; [exact Hn|reflexivity|reflexivity]. Qed.

Lemma onChain_stays f (n : Node PDB) : target n -> stays n (onChain f n).
Proof. intros Hn. split_and!; [exact Hn|reflexivity|reflexivity]. Qed.

Lemma restoreWithState_stays h b s u n n' : target n -> restoreWithState spec h b s u n = Ret n' -> stays n n'.
Proof.
  intros Hn. unfold restoreWithState. intros (kept & _ & E)%go_bind_inv. apply go_bind_inv in E as (isLatest & _ & E).
  apply go_bind_inv in E as (n1 & E1 & E). apply go_bind_inv in E as (n2 & E2 & [= <-]).
  apply go_bind_inv in E2 as (a & _ & [= <-]).
  assert (stays n n1) as H1.
  { destruct isLatest; [by injection E1 as <-|]. apply AddBlock_keeps in E1 as [H1 _]; [|exact Hn]. exact H1. }
  exact H1.
Qed.

Lemma RestoreBlockAndState_stays h n n' o : target n -> RestoreBlockAndState makeOK spec h n = Ret (n', o) -> stays n n'.
Proof.
  intros Hn. unfold RestoreBlockAndState. intros ([r|] & _ & E)%go_bind_inv; [|injection E as <- _; by apply stays_refl].
  apply go_bind_inv in E as ([s|] & _ & E); [|injection E as <- _; by apply stays_refl].
  apply go_bind_inv in E as (n1 & E & [= <- _]). by eapply restoreWithState_stays.
Qed.

End NodeKeeps.

(** ** A committed block and its state *)

Section Committed.
Context {PDB : Type} `{!Reader PDB, !Writer PDB} `{HashFunctions} (makeOK : Z -> bool) (spec : ChainSpec) (Hspec : codec_spec spec).
Context (arrange : list StateKeyVal -> list StateKeyVal).

Definition committed (m : gmap Bytes Bytes) (h root : Bytes) (kvs : list StateKeyVal) (b : Block) : Prop :=
  m !! entryKey (ERoot h) = Some root /\ stored m (dec_StateKeyVals makeOK) (entryKey (EData root)) kvs /\
  stored m dec_TimeSlot (entryKey (ESlot h)) (h_Slot (b_Header b)) /\
  stored m (dec_Header makeOK spec) (entryKey (EHeader (h_Slot (b_Header b)) h)) (b_Header b) /\
  stored m (dec_Extrinsic makeOK spec) (entryKey (EExtrinsic (h_Slot (b_Header b)) h)) (b_Extrinsic b).

(** What the requests of the fuzzer give for it. *)
Definition gives (n : Node PDB) (h root : Bytes) (kvs : list StateKeyVal) (b : Block) : Prop :=
  GetStateByBlockHash makeOK n h = Ret (Some kvs) /\ GetStateRootByBlockHash n h = Ret (Some root) /\
  GetBlockByHash makeOK spec n h = Ret (Some b).

Lemma committed_gives n h root kvs b : target n -> length root = 32%nat -> committed (nodeDB n) h root kvs b -> gives n h root kvs b.
Proof.
  intros Hn Hl (Hr & Hd & Hs & Hh & He). pose proof (target_opened n Hn) as Eo. destruct Hd as (bs & Ed & Hd).
  destruct (state_read makeOK (nodeDB n) h root kvs bs Hl Hr Ed Hd) as [Groot Gdata].
  unfold gives, GetStateByBlockHash, GetStateRootByBlockHash, GetBlockByHash. rewrite Eo, Groot, Gdata. split_and!; [done..|].
  unfold GetHeaderTimeSlot. change (headerTimeSlotKey h) with (entryKey (ESlot h)). rewrite (load_stored _ _ _ _ Hs). cbn [mbind go_bind].
  unfold GetBlock, GetHeader, GetExtrinsic. rewrite headerKey_entry, extrinsicKey_entry. cbn [mbind go_bind].
  rewrite (load_stored _ _ _ _ Hh). cbn [mbind go_bind]. rewrite (load_stored _ _ _ _ He). cbn [mbind go_bind]. by destruct b.
Qed.

(** The keys of the blocks tell the hashes apart, whatever the slots. *)
Lemma header_hash_inj s s' h h' : entryKey (EHeader s h) = entryKey (EHeader s' h') -> h = h'.
Proof.
  cbn [entryKey]. rewrite <- !app_assoc. intros E%app_inv_head. apply app_inj_1 in E as [_ E]; [|by rewrite !le_bytes_length].
  by apply app_inv_head in E.
Qed.

Lemma extrinsic_hash_inj s s' h h' : entryKey (EExtrinsic s h) = entryKey (EExtrinsic s' h') -> h = h'.
Proof.
  cbn [entryKey]. rewrite <- !app_assoc. intros E%app_inv_head. apply app_inj_1 in E as [_ E]; [|by rewrite !le_bytes_length].
  by apply app_inv_head in E.
Qed.

(** Deleting what belongs to another root and another block. *)
Lemma stored_delete {A : Type} m (d : D A) k k' y : k <> k' -> stored m d k' y -> stored (base.delete k m) d k' y.
Proof. intros Hk (bs & E & Hd). exists bs. by rewrite lookup_delete_ne. Qed.

Ltac other_key := first [discriminate | intros E; first [apply header_hash_inj in E|apply extrinsic_hash_inj in E|apply app_inv_head in E]; congruence].

Lemma committed_delete m h root kvs b h' s' root' : h' <> h -> root' <> root -> committed m h root kvs b ->
  committed (deletedBlock s' h' (base.delete (entryKey (EData root')) m)) h root kvs b.
Proof.
  intros Hh Hr (H1 & H2 & H3 & H4 & H5). unfold deletedBlock. split_and!.
  - rewrite !lookup_delete_ne by other_key. done.
  - by repeat (apply stored_delete; [other_key|]).
  - by repeat (apply stored_delete; [other_key|]).
  - by repeat (apply stored_delete; [other_key|]).
  - by repeat (apply stored_delete; [other_key|]).
Qed.

(** Saving a block and its state commits them. *)
Lemma committed_saved m h root kvs b bs eh ee :
  decodeValue (dec_StateKeyVals makeOK) bs = Ret (Some kvs) -> decodeValue (dec_Header makeOK spec) eh = Ret (Some (b_Header b)) ->
  decodeValue (dec_Extrinsic makeOK spec) ee = Ret (Some (b_Extrinsic b)) -> uint 32 (h_Slot (b_Header b)) ->
  committed (savedBlock (h_Slot (b_Header b)) h eh ee (<[entryKey (EData root) := bs]> (<[entryKey (ERoot h) := root]> m))) h root kvs b.
Proof.
  intros Hd Hh He Hs. unfold savedBlock. split_and!; [by entries|eexists..]; (split; [by entries|]); try done. by apply decode_slot.
Qed.

End Committed.

(** ** Committing the posterior state *)

Section Commit.
Context {PDB : Type} `{!Reader PDB, !Writer PDB} `{HashFunctions} (makeOK : Z -> bool) (spec : ChainSpec) (Hspec : codec_spec spec).
Context (arrange : list StateKeyVal -> list StateKeyVal).

Lemma last_GetLatest (bs : list Block) b : GetLatest (bs ++ [b]) = Ret b.
Proof.
  unfold GetLatest. apply zindex_lookup; unfold lenOf; rewrite length_app; cbn [length]; [lia|].
  replace (Z.to_nat (Z.of_nat (length bs + 1) - 1)) with (length bs) by lia. by apply list_lookup_middle.
Qed.

Lemma recordAncestry_same slot h (n : Node PDB) : exists f, recordAncestry spec slot h n = onChain f n /\
  forall cs, priorStates (f cs) = priorStates cs /\ posteriorStates (f cs) = posteriorStates cs /\ postStateUnmatchedKeyVals (f cs) = postStateUnmatchedKeyVals cs.
Proof.
  unfold recordAncestry. destruct (last _) as [item|]; [|exists id; by destruct n].
  destruct (_ || _); [|exists id; by destruct n]. eexists. split; [reflexivity|done].
Qed.

Lemma commit_ok n n' h root full b eh ee : target n -> ok_StateKeyVals makeOK (sortKeyVals full) ->
  GetLatestBlock n = Ret b -> enc_Header spec (b_Header b) = Ret (Some eh) -> enc_Extrinsic spec (b_Extrinsic b) = Ret (Some ee) ->
  h = Blake2bHash eh -> StateCommitWithPreComputedState spec h root full n = Ret n' -> exists bs f,
  enc_StateKeyVals (sortKeyVals full) = Ret (Some bs) /\
  n' = onChain f (setRepo (opened (savedBlock (h_Slot (b_Header b)) h eh ee
         (<[entryKey (EData root) := bs]> (<[entryKey (ERoot h) := root]> (nodeDB n))))) n) /\
  priorStates (f (nd_chain n)) = posteriorStates (nd_chain n) /\
  preStateUnmatchedKeyVals (f (nd_chain n)) = postStateUnmatchedKeyVals (nd_chain n).
Proof.
  intros Hn Hk Hlast Eh Ee Hh E. destruct (codes_decoded _ _ _ (rt_StateKeyVals makeOK _ Hk)) as (bs & Eb & _). exists bs.
  unfold StateCommitWithPreComputedState in E. apply go_bind_inv in E as (n1 & E1 & E). apply go_bind_inv in E as (n2 & E2 & E).
  apply (logged_writes _ _ _ _ _ (SaveStateRoot_writes h root)) in E1; [|done]. subst n1.
  apply (logged_writes _ _ _ _ _ (SaveStateData_writes root _ bs Eb)) in E2; [|by split; [apply Hn|by eexists]]. subst n2.
  apply go_bind_inv in E as (n3 & E3 & E). unfold saveToDisk in E3. rewrite target_Enabled in E3 by (split; [apply Hn|by eexists]). injection E3 as <-.
  apply go_bind_inv in E as (b' & Eb' & E). change (GetLatestBlock _) with (GetLatestBlock n) in Eb'. rewrite Hlast in Eb'. injection Eb' as <-.
  apply go_bind_inv in E as (n4 & E4 & E). subst h.
  apply (logged_writes _ _ _ _ _ (SaveBlock_writes spec b eh ee Eh Ee)) in E4; [|by split; [apply Hn|by eexists]]. subst n4.
  injection E as <-. match goal with |- context [recordAncestry spec ?s ?h ?m] => destruct (recordAncestry_same s h m) as (f & -> & Hf) end.
  exists (fun cs => Store.StateCommit spec (f cs)). split_and!; [done|done|..]; cbn; destruct (Hf (nd_chain n)) as (_ & ? & ?); done.
Qed.

Lemma pruneEntry_ok e n n' : target n -> pruneEntry e n = Ret n' ->
  n' = setRepo (opened (deletedBlock (pe_slot e) (pe_headerHash e) (base.delete (entryKey (EData (pe_stateRoot e))) (nodeDB n)))) n.
Proof.
  intros Hn. unfold pruneEntry. intros (n1 & E1 & E)%go_bind_inv. apply go_bind_inv in E as (n2 & E2 & E).
  apply (logged_writes _ _ _ _ _ (writes_delete (entryKey (EData (pe_stateRoot e))))) in E1; [|done]. subst n1.
  apply (logged_writes _ _ _ _ _ (DeleteBlock_writes (pe_headerHash e) (pe_slot e))) in E2; [|by split; [apply Hn|by eexists]]. subst n2.
  rewrite target_Enabled in E by (split; [apply Hn|by eexists]). by injection E as <-.
Qed.

Lemma pruneEntries_ok es n n' h root kvs b : target n -> pruneEntries es n = Ret n' ->
  Forall (fun e => pe_headerHash e <> h /\ pe_stateRoot e <> root) es -> committed makeOK spec (nodeDB n) h root kvs b ->
  target n' /\ committed makeOK spec (nodeDB n') h root kvs b /\ exists t', n' = setRepo t' n.
Proof.
  intros Hn E Hes. revert n Hn E. induction Hes as [|e es [Hh Hr] _ IH]; intros n Hn E Hc.
  { injection E as <-. split_and!; [done..|]. exists (nd_repo n). by destruct n. }
  cbn [pruneEntries] in E. apply go_bind_inv in E as (n1 & E1%pruneEntry_ok & E); [|done]. subst n1.
  apply IH in E as (Ht & Hc' & [t' ->]); [|by split; [apply Hn|by eexists]|by apply committed_delete]. split_and!; [done..|by exists t'].
Qed.

End Commit.

(** ** Imports *)

Section Imports.
Context {PDB : Type} `{!Reader PDB, !Writer PDB} `{HashFunctions} `{Ed25519} `{VRF} `{AccumulateVM}.
Context (makeOK : Z -> bool) (spec : ChainSpec) (Hspec : codec_spec spec).
Context (arrange : list StateKeyVal -> list StateKeyVal) (arrangeServices : gset Z -> list Z) (arrangeKVs : list StateKeyVal -> list StateKeyVal).
Context (sortBySender : list DeferredTransfer -> list DeferredTransfer) (fuel : nat).

Abbreviation Node := (Node PDB).
Abbreviation import := (ImportBlock (PDB := PDB) makeOK spec arrange arrangeServices arrangeKVs sortBySender fuel).
Abbreviation runSTF := (runSTF (PDB := PDB) spec arrange arrangeServices arrangeKVs sortBySender fuel).
Abbreviation importAdded := (importAdded (PDB := PDB) spec arrange arrangeServices arrangeKVs sortBySender fuel).

(** The transition writes to its own store only. *)
Lemma runSTF_keeps n n' e : runSTF n = Some (Ret (n', e)) -> exists c cs, n' = setCache c (onChain (fun _ => cs) n).
Proof.
  unfold FuzzTarget.runSTF. destruct (GetLatestBlock n) as [latest|]; [|done].
  destruct (RunSTF _ _ _ _ _ _ _ _) as [m|]; [|done]. cbn. intros [= E]. apply go_bind_inv in E as ([[cs c] o] & _ & [= <- _]). by exists c, cs.
Qed.

(** Whether the node goes back to an earlier state for this block. *)
Definition forks (n : Node) (block : Block) (h : Bytes) : Prop :=
  exists latest lh, GetLatestBlock n = Ret latest /\ ComputeBlockHeaderHash spec (b_Header latest) = Ret (Some lh) /\
    lh <> h_Parent (b_Header block) /\ lh <> h.

Lemma findParent_cases block h (n n' : Node) o : findParent makeOK spec block h n = Ret (n', o) ->
  n' = n \/ (forks n block h /\ exists r, RestoreBlockAndState makeOK spec (h_Parent (b_Header block)) n = Ret (n', r) /\
              o = match r with None => Some RestoreError | Some _ => None end).
Proof.
  unfold findParent. destruct (nd_unfinalizedBlocks n) eqn:Ebs; [intros [= <- _]; by left|].
  intros (latest & El & E)%go_bind_inv. apply go_bind_inv in E as ([lh|] & Eh & E); [|injection E as <- _; by left].
  destruct (bool_decide (lh <> _)) eqn:E1; cbn [andb] in E; [|injection E as <- _; by left].
  destruct (bool_decide (lh <> h)) eqn:E2; cbn [andb] in E; [|injection E as <- _; by left].
  destruct (_ <? 1); [injection E as <- _; by left|]. destruct (_ <? _).
  { apply go_bind_inv in E as ([hs|] & _ & E); injection E as <- _; by left. }
  apply go_bind_inv in E as ([n1 r] & Er & [= <- <-]). right. split; [|by exists r].
  exists latest, lh. by apply bool_decide_eq_true in E1, E2.
Qed.

Lemma findParent_stays block h (n n' : Node) o : target n -> findParent makeOK spec block h n = Ret (n', o) -> stays n n'.
Proof. intros Hn [->|(_ & r & E & _)]%findParent_cases; [by apply stays_refl|by eapply RestoreBlockAndState_stays]. Qed.

Lemma findParent_errors block h (n n' : Node) err : findParent makeOK spec block h n = Ret (n', Some err) ->
  match err with STFProtocolError _ | STFRuntimeError _ => False | _ => True end.
Proof.
  unfold findParent. destruct (nd_unfinalizedBlocks n); [done|].
  intros (latest & _ & E)%go_bind_inv. apply go_bind_inv in E as ([lh|] & _ & E); [|by injection E as _ <-].
  destruct (_ && _); [|done]. destruct (_ <? 1); [by injection E as _ <-|]. destruct (_ <? _).
  { apply go_bind_inv in E as ([hs|] & _ & E); injection E as _ <-; [|done]. by case_bool_decide. }
  apply go_bind_inv in E as ([n1 [r|]] & _ & E); [done|]. by injection E as _ <-.
Qed.

(** The node before the blocks are trimmed. *)
Lemma import_inv block (n n' : Node) r h : ComputeBlockHeaderHash spec (b_Header block) = Ret (Some h) -> import block n = Some (Ret (n', r)) ->
  exists n1 n2 o, findParent makeOK spec block h n = Ret (n1, o) /\ n' = TrimUnfinalizedBlocksForFuzz n2 /\
  match o with Some err => n2 = n1 /\ r = inr err | None => importAdded h block n1 = Some (Ret (n2, r)) end.
Proof.
  intros Eh. unfold ImportBlock. rewrite Eh. destruct (findParent _ _ _ _ _) as [[n1 [err|]]|]; [| |done].
  - cbn. intros [= <- <-]. by exists n1, n1, (Some err).
  - destruct (FuzzTarget.importAdded _ _ _ _ _ _ _ _ _) as [m|] eqn:Em; [|done]. cbn. intros [= E]. apply go_bind_inv in E as ([n2 r'] & -> & [= <- <-]).
    by exists n1, n2, None.
Qed.

Lemma importAdded_inv h block (n n' : Node) r : target n -> importAdded h block n = Some (Ret (n', r)) ->
  exists n1 n2 e, stays n n1 /\ (nd_unfinalizedBlocks n1 = nd_unfinalizedBlocks n ++ [block] /\ nd_chain n1 = nd_chain n /\ nd_keyLevelCache n1 = nd_keyLevelCache n) /\
  runSTF n1 = Some (Ret (n2, e)) /\
  match e with
  | Some err => n' = n2 /\ r = inr (if IsProtocolError err then STFProtocolError err else STFRuntimeError err)
  | None => exists root, commitPosterior spec arrange h (h_Slot (b_Header block)) n2 = Ret (n', root) /\ r = inl root
  end.
Proof.
  intros Hn. unfold FuzzTarget.importAdded. destruct (AddBlock _ _ _) as [n1|] eqn:Ea; [|done].
  apply AddBlock_keeps in Ea as [Hs [t' ->]]; [|done]. set (n1 := setRepo _ _) in *.
  destruct (runSTF n1) as [[[n2 [err|]]|]|] eqn:Er; [| |done..].
  - intros [= <- <-]. exists n1, n2, (Some err). by split_and!.
  - intros [= E]. apply go_bind_inv in E as ([n3 root] & Ec & [= <- <-]). exists n1, n2, None. split_and!; [done..|by exists root].
Qed.

Lemma KeepRecent_last {A} k (l : list A) x : 0 < k -> exists l', KeepRecent k (l ++ [x]) = l' ++ [x].
Proof.
  intros Hk. unfold KeepRecent. destruct (Z.ltb_spec k (lenOf (l ++ [x]))) as [Hlt|]; [|by exists l].
  unfold lenOf in *. rewrite length_app in *. cbn [length] in *. rewrite drop_app_le by lia. by eexists.
Qed.

Lemma Trim_latest (n : Node) bs b : target n -> nd_unfinalizedBlocks n = bs ++ [b] -> GetLatestBlock (TrimUnfinalizedBlocksForFuzz n) = Ret b.
Proof.
  intros Hn E. unfold TrimUnfinalizedBlocksForFuzz. rewrite target_Enabled by done. unfold GetLatestBlock. cbn. rewrite E.
  destruct (KeepRecent_last FuzzPersistentRetainBlocks bs b ltac:(done)) as [l ->]. apply last_GetLatest.
Qed.

Lemma Trim_stays (n : Node) : target n -> stays n (TrimUnfinalizedBlocksForFuzz n).
Proof. intros Hn. unfold TrimUnfinalizedBlocksForFuzz. destruct (Enabled n); [exact (setBlocks_stays _ n Hn)|by apply stays_refl]. Qed.

(** The states of the databases are the states the fuzzer is given. *)
Lemma stays_states (n n' : Node) h : target n -> stays n n' -> GetStateByBlockHash makeOK n' h = GetStateByBlockHash makeOK n h.
Proof.
  intros Hn (Hn' & Hs & _). pose proof (target_opened n Hn) as E. pose proof (target_opened n' Hn') as E'.
  assert (forall h, GetStateDataByHeaderHash makeOK (nd_repo n') h = GetStateDataByHeaderHash makeOK (nd_repo n) h) as Hd.
  { intros h'. rewrite E, E'. unfold GetStateDataByHeaderHash, GetStateRootByHeaderHash. rewrite !lookupKey_opened.
    change (stateRootKey h') with (entryKey (ERoot h')). rewrite (Hs (ERoot h')) by (eexists; by left). cbn [mbind go_bind].
    destruct (nodeDB n !! entryKey (ERoot h')) as [d|]; [|done]. cbn [mbind go_bind]. unfold GetStateData, load. rewrite !lookupKey_opened.
    set (root := gcopy _ d). change (stateDataKey root) with (entryKey (EData root)). by rewrite (Hs (EData root)) by (eexists; by right). }
  unfold GetStateByBlockHash, readPersistent. destruct Hn as [-> _], Hn' as [-> _]. by rewrite Hd.
Qed.

(** C14: A block that is refused leaves every committed state and every entry
    of the recent blocks as it was; one that the transition refuses is the
    latest block of the node all the same. *)
Theorem failed_import_keeps block (n n' : Node) e : target n -> import block n = Some (Ret (n', inr e)) ->
  target n' /\ (forall h, GetStateByBlockHash makeOK n' h = GetStateByBlockHash makeOK n h) /\
  nd_persistedEntries n' = nd_persistedEntries n /\
  match e with STFProtocolError _ | STFRuntimeError _ => GetLatestBlock n' = Ret block | _ => True end.
Proof.
  intros Hn E. destruct (ComputeBlockHeaderHash spec (b_Header block)) as [[h|]|] eqn:Eh.
  2, 3: unfold ImportBlock in E; rewrite Eh in E; first [done|injection E as <- <-; by split_and!].
  destruct (import_inv _ _ _ _ _ Eh E) as (n1 & n2 & o & Ef & -> & Ho). apply findParent_stays in Ef as Hs1; [|done].
  assert (stays n n2 /\ match e with STFProtocolError _ | STFRuntimeError _ => exists bs, nd_unfinalizedBlocks n2 = bs ++ [block] | _ => True end) as [Hs2 Hl].
  { destruct o as [err|].
    - destruct Ho as [-> [= ->]]. split; [done|]. apply findParent_errors in Ef. by destruct err.
    - destruct (importAdded_inv _ _ _ _ _ (proj1 Hs1) Ho) as (n3 & n4 & e' & Hs3 & [Hb _] & (c & cs & ->)%runSTF_keeps & He).
      destruct e' as [err|]; [|by destruct He as (? & _ & ?)]. destruct He as [-> [= ->]].
      split; [eapply stays_trans; [exact Hs1|]; eapply stays_trans; [exact Hs3|]; exact (stays_refl _ (proj1 Hs3))|].
      destruct (IsProtocolError err); by exists (nd_unfinalizedBlocks n1). }
  pose proof (Trim_stays n2 (proj1 Hs2)) as Ht. pose proof (stays_trans _ _ _ Hs2 Ht) as Hall. destruct Hall as (H3 & H4 & H5).
  split_and!; [done|intros; by apply stays_states|done|]. destruct e; try done; destruct Hl as [bs Hl]; eapply Trim_latest; done || apply Hs2.
Qed.

(** What the transition leaves is what is committed. *)
Lemma commitPosterior_ok h slot b (n n' : Node) root : target n -> GetLatestBlock n = Ret b -> ok_Block makeOK spec b ->
  ComputeBlockHeaderHash spec (b_Header b) = Ret (Some h) ->
  Forall (fun e => pe_headerHash e <> h /\ pe_stateRoot e <> root) (nd_persistedEntries n) ->
  lenOf (nd_persistedEntries n) <= FuzzPersistentRetainBlocks ->
  commitPosterior spec arrange h slot n = Ret (n', root) -> exists ser c,
  StateEncoder spec arrange (posteriorStates (nd_chain n)) = Ret ser /\
  (let pairs := postStateUnmatchedKeyVals (nd_chain n) ++ ser in
   ComputeStateRootWithCache spec (nd_keyLevelCache n) pairs = Ret (root, c) /\
   (ok_StateKeyVals makeOK (sortKeyVals pairs) ->
    target n' /\ committed makeOK spec (nodeDB n') h root (sortKeyVals pairs) b /\
    priorStates (nd_chain n') = posteriorStates (nd_chain n) /\
    preStateUnmatchedKeyVals (nd_chain n') = postStateUnmatchedKeyVals (nd_chain n) /\
    (exists k, nd_unfinalizedBlocks n' = KeepRecent k (nd_unfinalizedBlocks n) /\ 0 < k) /\
    lenOf (nd_persistedEntries n') <= FuzzPersistentRetainBlocks)).
Proof.
  intros Hn Hlast Hb Hh Hes Hlen E. destruct (block_codes makeOK spec Hspec b Hb) as (eh & ee & Eh & Dh & Ee & De & Hslot).
  assert (h = Blake2bHash eh) as Hh' by (unfold ComputeBlockHeaderHash in Hh; rewrite Eh in Hh; by injection Hh).
  unfold commitPosterior in E. apply go_bind_inv in E as (ser & Es & E). apply go_bind_inv in E as ([root' c] & Er & E).
  apply go_bind_inv in E as (n1 & Ec & E). apply go_bind_inv in E as (n2 & Ep & [= <- ->]). cbn [fst snd] in *.
  exists ser, c. split_and!; [done..|]. intros Hk. set (pairs := _ ++ ser) in *.
  destruct (commit_ok makeOK spec (setCache c n) n1 h root pairs b eh ee Hn Hk Hlast Eh Ee Hh' Ec) as (bs & f & Eb & -> & Hpr & Hpu). clear Ec.
  assert (decodeValue (dec_StateKeyVals makeOK) bs = Ret (Some (sortKeyVals pairs))) as Hd.
  { destruct (codes_decoded _ _ _ (rt_StateKeyVals makeOK _ Hk)) as (bs' & Eb' & Hd). rewrite Eb in Eb'. by injection Eb' as <-. }
  set (m := savedBlock _ _ _ _ _) in *. set (n1 := onChain f _) in *.
  assert (target n1) as Hn1 by by split; [apply Hn|eexists].
  assert (committed makeOK spec (nodeDB n1) h root (sortKeyVals pairs) b) as Hc by by apply committed_saved.
  rewrite target_Enabled in Ep by done. unfold PruneOldData in Ep. change (nd_persistedEntries n1) with (nd_persistedEntries n) in Ep.
  set (entries := nd_persistedEntries n ++ _) in *.
  assert (lenOf entries = lenOf (nd_persistedEntries n) + 1) as Hle by (unfold entries, lenOf; rewrite length_app; cbn; lia).
  destruct (Z.leb_spec (lenOf entries) FuzzPersistentRetainBlocks) as [Hs|Hs].
  - injection Ep as <-. split_and!; [done..| |done]. exists (lenOf (nd_unfinalizedBlocks n) + 1). split; [|unfold lenOf; lia].
    unfold KeepRecent. destruct (Z.ltb_spec (lenOf (nd_unfinalizedBlocks n) + 1) (lenOf (nd_unfinalizedBlocks n))); [lia|done].
  - apply go_bind_inv in Ep as (n3 & Ep & [= <-]). set (cut := Z.to_nat _) in *.
    assert (take cut entries = take cut (nd_persistedEntries n)) as Ht.
    { unfold entries. apply take_app_le. unfold cut, lenOf, FuzzPersistentRetainBlocks in *. lia. }
    rewrite Ht in Ep. apply (pruneEntries_ok makeOK spec _ (setPersisted entries n1) n3 h root (sortKeyVals pairs) b) in Ep as (Hn3 & Hc3 & [t ->]);
      [|exact Hn1|by apply Forall_take|done].
    split_and!; [done..|by exists FuzzPersistentRetainBlocks|].
    cbn. unfold lenOf, cut in *. rewrite length_drop. unfold lenOf, FuzzPersistentRetainBlocks in *. lia.
Qed.

(** The transition of an import, on the store that [findParent] leaves. *)
Lemma runSTF_inv (n n' : Node) block : GetLatestBlock n = Ret block -> runSTF n = Some (Ret (n', None)) -> exists cs cache,
  RunSTF spec arrange arrangeServices arrangeKVs sortBySender fuel (SetLatestBlock block (nd_chain n)) (nd_keyLevelCache n) =
    Some (Ret ((cs, cache), None)) /\ n' = setCache cache (onChain (fun _ => cs) n).
Proof.
  unfold FuzzTarget.runSTF. intros ->. destruct (RunSTF _ _ _ _ _ _ _ _) as [m|]; [|done]. cbn. intros [= E].
  apply go_bind_inv in E as ([[cs c] o] & -> & [= <- ->]). by exists cs, c.
Qed.

(** C3: An accepted block is committed. It was looked up what the block
    builds on, and [RunSTF] accepted the block on that store. The posterior
    state that it left, with the unmatched pairs that it left, is the prior
    state of the next block; the root that is returned is theirs; and by the
    hash of the block the fuzzer is given the block, that root and these
    pairs, sorted. It is so if the entries that fall out of the window are of
    other blocks and other states. *)
Theorem import_commits block h (n n' : Node) root : target n -> ok_Block makeOK spec block ->
  ComputeBlockHeaderHash spec (b_Header block) = Ret (Some h) ->
  Forall (fun e => pe_headerHash e <> h /\ pe_stateRoot e <> root) (nd_persistedEntries n) ->
  lenOf (nd_persistedEntries n) <= FuzzPersistentRetainBlocks ->
  length root = 32%nat -> import block n = Some (Ret (n', inl root)) -> exists base cs cache ser cache',
  findParent makeOK spec block h n = Ret (base, None) /\
  RunSTF spec arrange arrangeServices arrangeKVs sortBySender fuel (SetLatestBlock block (nd_chain base)) (nd_keyLevelCache base) =
    Some (Ret ((cs, cache), None)) /\
  let pairs := postStateUnmatchedKeyVals cs ++ ser in
  StateEncoder spec arrange (posteriorStates cs) = Ret ser /\ ComputeStateRootWithCache spec cache pairs = Ret (root, cache') /\
  (ok_StateKeyVals makeOK (sortKeyVals pairs) ->
   priorStates (nd_chain n') = posteriorStates cs /\ preStateUnmatchedKeyVals (nd_chain n') = postStateUnmatchedKeyVals cs /\
   gives makeOK spec n' h root (sortKeyVals pairs) block /\ GetLatestBlock n' = Ret block /\ target n').
Proof.
  intros Hn Hb Hh Hes Hlen Hr E. destruct (import_inv _ _ _ _ _ Hh E) as (n1 & n2 & [err|] & Ef & -> & Ho); [by destruct Ho|].
  apply findParent_stays in Ef as Hs1; [|done]. destruct Hs1 as (Hn1 & _ & Hp1).
  destruct (importAdded_inv _ _ _ _ _ Hn1 Ho) as (n3 & n4 & [err|] & (Hn3 & _ & Hp3) & [Hbs Hsame] & Hrun & He); [by destruct He as (_ & ?)|].
  destruct He as (root' & Ec & [= <-]).
  assert (GetLatestBlock n3 = Ret block) as Hlast by (unfold GetLatestBlock; rewrite Hbs; apply last_GetLatest).
  destruct (runSTF_inv _ _ _ Hlast Hrun) as (cs & c & Hstf & ->). destruct Hsame as [Hch Hca]. rewrite Hch, Hca in Hstf.
  set (n4 := setCache _ _) in *. assert (nd_persistedEntries n4 = nd_persistedEntries n) as Hp4 by (change (nd_persistedEntries n4) with (nd_persistedEntries n3); congruence).
  destruct (commitPosterior_ok h (h_Slot (b_Header block)) block n4 n2 root Hn3 Hlast Hb Hh) as (ser & c' & Es & Er & Hok); [by rewrite Hp4|by rewrite Hp4|exact Ec|].
  exists n1, cs, c, ser, c'. split_and!; [done..|]. cbv zeta. split_and!; [done..|].
  intros Hk. destruct (Hok Hk) as (Hn2 & Hc & Hs & Hu & (k & Hkb & Hk0) & _).
  assert (exists t, TrimUnfinalizedBlocksForFuzz n2 = setBlocks t n2) as [t Ht].
  { unfold TrimUnfinalizedBlocksForFuzz. destruct (Enabled n2); [by eexists|]. exists (nd_unfinalizedBlocks n2). by destruct n2. }
  change (nd_unfinalizedBlocks n4) with (nd_unfinalizedBlocks n3) in Hkb. rewrite Hbs in Hkb.
  destruct (KeepRecent_last k (nd_unfinalizedBlocks n1) block Hk0) as [l Hl]. rewrite Hl in Hkb.
  pose proof (Trim_latest n2 l block Hn2 Hkb) as Hlt. rewrite Ht in *. split_and!; [done..| |done|done].
  by apply committed_gives.
Qed.

(** A fork that is followed was restored. *)
Lemma findParent_forks block h (n n' : Node) : forks n block h -> findParent makeOK spec block h n = Ret (n', None) ->
  RestoreBlockAndState makeOK spec (h_Parent (b_Header block)) n = Ret (n', Some tt).
Proof.
  intros (latest & lh & El & Eh & Hp & Hh). unfold findParent. rewrite El. destruct (nd_unfinalizedBlocks n) eqn:Ebs; [unfold GetLatestBlock in El; by rewrite Ebs in El|].
  rewrite go_bind_ret, Eh, go_bind_ret, !bool_decide_true by done. cbn [andb]. destruct (_ <? 1); [done|]. destruct (_ <? _).
  { by intros ([hs|] & _ & ?)%go_bind_inv. }
  by intros ([n1 [[]|]] & -> & [= <-])%go_bind_inv.
Qed.

(** The node is that of a block and its committed state, with nothing left
    of the blocks after it. *)
Definition restored (n n' : Node) (h : Bytes) : Prop := exists pb kvs s u,
  GetBlockByHash makeOK spec n h = Ret (Some pb) /\ GetStateByBlockHash makeOK n h = Ret (Some kvs) /\
  StateKeyValsToState makeOK spec kvs = Ret (Some (s, u)) /\
  priorStates (nd_chain n') = s /\ preStateUnmatchedKeyVals (nd_chain n') = u /\ postStateUnmatchedKeyVals (nd_chain n') = u /\
  verifierCache (nd_chain n') = None /\
  (exists b, last (nd_unfinalizedBlocks n') = Some b /\ (b = pb \/ ComputeBlockHeaderHash spec (b_Header b) = Ret (Some h))) /\
  forall h, GetStateByBlockHash makeOK n' h = GetStateByBlockHash makeOK n h.

Lemma RestoreBlockAndState_restored h (n n' : Node) : target n -> RestoreBlockAndState makeOK spec h n = Ret (n', Some tt) -> restored n n' h.
Proof.
  intros Hn Er. pose proof (RestoreBlockAndState_stays makeOK spec _ _ _ _ Hn Er) as Hs.
  unfold RestoreBlockAndState in Er. apply go_bind_inv in Er as ([[pb kvs]|] & Eg & Er); [|done].
  apply go_bind_inv in Er as ([[s u]|] & Eparse & Er); [|done]. cbn [fst snd] in *. apply go_bind_inv in Er as (n1 & Er & [= <-]).
  unfold GetBlockAndState in Eg. apply go_bind_inv in Eg as ([pb'|] & Epb & Eg); [|done]. apply go_bind_inv in Eg as ([kvs'|] & Ekvs & [= -> ->]).
  exists pb, kvs, s, u. split_and!; [done..| | | | | |].
  6: intros h'; by apply stays_states.
  all: unfold restoreWithState in Er; apply go_bind_inv in Er as (kept & Ek & Er); apply go_bind_inv in Er as (isl & El & Er);
    apply go_bind_inv in Er as (n2 & E2 & Er); apply go_bind_inv in Er as (n3 & E3 & [= <-]); apply go_bind_inv in E3 as (a & _ & [= <-]).
  all: destruct isl; [injection E2 as <-|apply AddBlock_keeps in E2 as [_ [t' ->]]; [|exact Hn]]; try done.
  - destruct (last kept) as [b|] eqn:Eb; [|done]. exists b. split; [done|]. right. unfold hasHash in El.
    apply go_bind_inv in El as (o & Eh & [= El%bool_decide_eq_true]). by subst o.
  - exists pb. cbn. by rewrite last_snoc; split; [|left].
Qed.


(** *** What is stored *)

(** A state is stored under its root. *)
Definition holdsState (m : gmap Bytes Bytes) (root : Bytes) : Prop := is_Some (m !! entryKey (EData root)).

(** Nothing of a block is stored but the root of its state. *)
Definition forgotten (m : gmap Bytes Bytes) (e : persistedEntry) : Prop :=
  ~ holdsState m (pe_stateRoot e) /\ m !! entryKey (ESlot (pe_headerHash e)) = None /\
  m !! entryKey (EHeader (pe_slot e) (pe_headerHash e)) = None /\ m !! entryKey (EExtrinsic (pe_slot e) (pe_headerHash e)) = None.

(** The stored states are those of the entries and the ones of [X]. *)
Definition tracked (X : list Bytes) (n : Node) : Prop :=
  forall root, holdsState (nodeDB n) root -> root ∈ X \/ root ∈ pe_stateRoot <$> nd_persistedEntries n.

Lemma stays_holds (n n' : Node) root : stays n n' -> holdsState (nodeDB n') root <-> holdsState (nodeDB n) root.
Proof. intros (_ & Hs & _). unfold holdsState. rewrite (Hs (EData root)); [done|]. eexists. by right. Qed.

Lemma stays_tracked X (n n' : Node) : stays n n' -> tracked X n -> tracked X n'.
Proof. intros Hs Hx root Hr%(stays_holds _ _ _ Hs). destruct Hs as (_ & _ & ->). by apply Hx. Qed.

(** One more state is stored. *)
Lemma saveData_holds root kvs t t' o : SaveStateData root kvs t = Ret (t', o) -> is_open t ->
  is_open t' /\ forall r, holdsState (contents t') r -> r = root \/ holdsState (contents t) r.
Proof.
  intros (t1 & [d|] & E & E2)%Tx_bind_inv Ht; apply go_bind_inv in E as (? & _ & [= <- _]).
  - destruct t as [[m|]]; [|by destruct Ht]. assert (t' = opened (<[entryKey (EData root) := d]> m)) as -> by by injection E2.
    split; [by eexists|]. intros r. unfold holdsState. destruct (decide (r = root)) as [->|Hr]; [by left|].
    change (contents (opened ?m)) with m. rewrite lookup_insert_ne; [by right|]. intros E%app_inv_head. congruence.
  - destruct E2 as [-> _]. split; [done|]. by right.
Qed.

Lemma commit_holds h root full (n n' : Node) : target n -> StateCommitWithPreComputedState spec h root full n = Ret n' ->
  target n' /\ nd_persistedEntries n' = nd_persistedEntries n /\
  forall r, holdsState (nodeDB n') r -> r = root \/ holdsState (nodeDB n) r.
Proof.
  intros Hn. unfold StateCommitWithPreComputedState. intros (n1 & E1 & E)%go_bind_inv.
  apply (logged_writes _ _ _ _ _ (SaveStateRoot_writes h root)) in E1; [|done]. subst n1. set (n1 := setRepo _ n) in *.
  assert (target n1) as Hn1 by by split; [apply Hn|eexists].
  assert (forall r, holdsState (nodeDB n1) r -> holdsState (nodeDB n) r) as Hroot.
  { intros r. unfold holdsState. change (nodeDB n1) with (<[entryKey (ERoot h) := root]> (nodeDB n)). by rewrite lookup_insert_ne by discriminate. }
  apply go_bind_inv in E as (n2 & (t2 & o & E2 & ->)%logged_repo & E). apply saveData_holds in E2 as [Ho2 Hd2]; [|apply Hn1].
  apply go_bind_inv in E as (n3 & E3 & E). set (n2 := setRepo t2 n1) in *. assert (target n2) as Hn2 by by split; [apply Hn|].
  unfold saveToDisk in E3. rewrite target_Enabled in E3 by done. injection E3 as <-.
  apply go_bind_inv in E as (b & _ & E). apply go_bind_inv in E as (n4 & E4 & [= <-]).
  apply (logged_keeps _ _ _ (keeps_SaveBlock spec b)) in E4 as [Hs4 [t4 ->]]; [|done].
  match goal with |- context [recordAncestry spec ?s ?h ?m] => destruct (recordAncestry_same spec s h m) as (f & -> & _) end.
  split_and!; [exact (proj1 Hs4)|done|]. intros r Hr. apply (stays_holds _ _ _ Hs4), Hd2 in Hr as [->|Hr]; [by left|right]. by apply Hroot.
Qed.

Lemma pruneEntries_gone es (n n' : Node) : target n -> pruneEntries es n = Ret n' ->
  target n' /\ (exists t, n' = setRepo t n) /\ Forall (forgotten (nodeDB n')) es /\ nodeDB n' ⊆ nodeDB n.
Proof.
  revert n. induction es as [|e es IH]; intros n Hn E.
  { injection E as <-. split_and!; [done| |constructor|done]. exists (nd_repo n). by destruct n. }
  cbn [pruneEntries] in E. apply go_bind_inv in E as (n1 & ->%pruneEntry_ok & E); [|done]. set (n1 := setRepo _ _) in *.
  apply IH in E as (Hn' & [t ->] & Hes & Hsub); [|by split; [apply Hn|eexists]].
  assert (nodeDB n1 ⊆ nodeDB n) as Hsub1 by (unfold nodeDB at 1; cbn; unfold deletedBlock; do 4 (etransitivity; [apply delete_subseteq|]); done).
  split_and!; [exact Hn'|by eexists| |by etransitivity]. constructor; [|exact Hes].
  assert (forall k, nodeDB n1 !! k = None -> nodeDB (setRepo t n1) !! k = None) as Hk by (intros k Hk; exact (lookup_weaken_None _ _ _ Hk Hsub)).
  unfold forgotten, holdsState. rewrite <- eq_None_not_Some. unfold n1, deletedBlock in Hk.
  split_and!; apply Hk; change (nodeDB (setRepo (opened ?m) n)) with m; by entries.
Qed.

(** An entry is added, and the oldest are dropped with what is stored of
    them. *)
Lemma PruneOldData_gone X root h slot (n n' : Node) : target n -> PruneOldData root h slot n = Ret n' ->
  (forall r, holdsState (nodeDB n) r -> r = root \/ r ∈ X \/ r ∈ pe_stateRoot <$> nd_persistedEntries n) ->
  target n' /\ tracked X n' /\ lenOf (nd_persistedEntries n') <= FuzzPersistentRetainBlocks /\
  Forall (fun e => e ∈ nd_persistedEntries n' \/ forgotten (nodeDB n') e) (nd_persistedEntries n).
Proof.
  intros Hn. unfold PruneOldData. set (entries := nd_persistedEntries n ++ _). intros E Hx.
  assert (forall r, holdsState (nodeDB n) r -> r ∈ X \/ r ∈ pe_stateRoot <$> entries) as Hx'.
  { intros r Hr. unfold entries. rewrite fmap_app, elem_of_app. cbn [fmap list_fmap pe_stateRoot]. rewrite list_elem_of_singleton. destruct (Hx r Hr) as [?|[?|?]]; auto. }
  revert E. destruct (Z.leb_spec (lenOf entries) FuzzPersistentRetainBlocks) as [Hl|Hl].
  { intros [= <-]. split_and!; [done|exact Hx'|done|]. apply Forall_forall. intros e He. left. apply elem_of_app. by left. }
  intros (n1 & (Hn1 & [t ->] & Hgone & Hsub)%pruneEntries_gone & [= <-])%go_bind_inv; [|exact Hn]. set (cut := Z.to_nat _) in *.
  split_and!; [exact Hn1| | |].
  - intros r Hr. destruct (Hx' r) as [?|Hin].
    + eapply lookup_weaken_is_Some; [exact Hr|exact Hsub].
    + by left.
    + right. rewrite <- (take_drop cut entries), fmap_app, elem_of_app in Hin. destruct Hin as [(e & -> & He)%list_elem_of_fmap|]; [|done].
      rewrite Forall_forall in Hgone. exfalso. by apply (proj1 (Hgone e He)).
  - unfold lenOf, cut in *. cbn. rewrite length_drop. unfold FuzzPersistentRetainBlocks, lenOf in *. lia.
  - apply Forall_forall. intros e He. assert (e ∈ take cut entries ++ drop cut entries) as [Ht|Hd]%elem_of_app
      by (rewrite take_drop; apply elem_of_app; by left); [right|by left]. rewrite Forall_forall in Hgone. by apply Hgone.
Qed.

(** C21: The node keeps at most 24 blocks and 24 entries, and the states in
    its database are those of the entries, and any that were there without
    one, as that of the genesis: with those of the entries that an import
    drops, the state, header and extrinsic of its block are deleted. *)
Theorem import_bounded X block (n n' : Node) r : target n -> lenOf (nd_persistedEntries n) <= FuzzPersistentRetainBlocks -> tracked X n ->
  import block n = Some (Ret (n', r)) -> r <> inr HeaderHashError ->
  lenOf (nd_unfinalizedBlocks n') <= FuzzPersistentRetainBlocks /\
  lenOf (nd_persistedEntries n') <= FuzzPersistentRetainBlocks /\ tracked X n' /\
  Forall (fun e => e ∈ nd_persistedEntries n' \/ forgotten (nodeDB n') e) (nd_persistedEntries n).
Proof.
  intros Hn Hlen Hx E Hr. destruct (ComputeBlockHeaderHash spec (b_Header block)) as [[h|]|] eqn:Eh.
  2, 3: unfold ImportBlock in E; rewrite Eh in E; first [done|by injection E as _ <-].
  destruct (import_inv _ _ _ _ _ Eh E) as (n1 & n2 & o & Ef & -> & Ho). apply findParent_stays in Ef as Hs1; [|done].
  assert (target n2 /\ lenOf (nd_persistedEntries n2) <= FuzzPersistentRetainBlocks /\ tracked X n2 /\
    Forall (fun e => e ∈ nd_persistedEntries n2 \/ forgotten (nodeDB n2) e) (nd_persistedEntries n)) as (Hn2 & Hp2 & Hx2 & Hf2).
  { assert (forall m, stays n m -> target m /\ lenOf (nd_persistedEntries m) <= FuzzPersistentRetainBlocks /\ tracked X m /\
      Forall (fun e => e ∈ nd_persistedEntries m \/ forgotten (nodeDB m) e) (nd_persistedEntries n)) as Hstay.
    { intros m Hs. split_and!; [apply Hs|by rewrite (proj2 (proj2 Hs))|by eapply stays_tracked|].
      apply Forall_forall. intros e He. left. by rewrite (proj2 (proj2 Hs)). }
    destruct o as [err|]; [destruct Ho as [-> _]; by apply Hstay|].
    destruct (importAdded_inv _ _ _ _ _ (proj1 Hs1) Ho) as (n3 & n4 & e & Hs3 & _ & (c & cs & ->)%runSTF_keeps & He).
    assert (stays n (setCache c (onChain (fun _ => cs) n3))) as Hs4.
    { eapply stays_trans; [exact Hs1|]. eapply stays_trans; [exact Hs3|]. exact (stays_refl _ (proj1 Hs3)). }
    destruct e as [err|]; [destruct He as [-> _]; by apply Hstay|].
    destruct He as (root & Ec & _). set (n4 := setCache _ _) in *. unfold commitPosterior in Ec. apply go_bind_inv in Ec as (ser & _ & Ec).
    apply go_bind_inv in Ec as ([root' c'] & _ & Ec). apply go_bind_inv in Ec as (n5 & (Hn5 & Hp5 & Hh5)%commit_holds & Ep); [|apply Hs4].
    apply go_bind_inv in Ep as (n6 & Ep & [= <- _]). rewrite target_Enabled in Ep by done.
    apply (PruneOldData_gone X) in Ep; [|done|].
    - assert (nd_persistedEntries n5 = nd_persistedEntries n) as Hp by (rewrite Hp5; exact (proj2 (proj2 Hs4))). rewrite Hp in Ep. destruct Ep as (? & ? & ? & ?). by split_and!.
    - intros q Hq. destruct (Hh5 q Hq) as [->|Hq']; [by left|right]. rewrite Hp5. exact (stays_tracked _ _ _ Hs4 Hx q Hq'). }
  unfold TrimUnfinalizedBlocksForFuzz. rewrite target_Enabled by done. cbn. split_and!; [|done..].
  unfold KeepRecent. destruct (Z.ltb_spec FuzzPersistentRetainBlocks (lenOf (nd_unfinalizedBlocks n2))); [|lia].
  unfold lenOf, FuzzPersistentRetainBlocks in *. rewrite length_drop. lia.
Qed.

End Imports.
