(* ===== verification/ChainExamples.v ===== *)
(** * Instances: protocol codec, shuffling, Merkle structures, state trie

    The theorems of ProtocolSpec.v, Shuffle.v, Mmr.v,
    MerkleTree.v and TrieSpec.v at concrete inputs, with a concrete
    function of the results' format for the hash functions. *)

From S2P Require Import Prelude Words Types Config Codec Encode Decoders Roundtrip ProtocolWf ProtocolSpec.
From S2P Require Import Shuffle Mmr MerkleTree Trie TrieSpec.
Local Open Scope Z_scope.

(** ** A hash function *)

Definition toyHash (x : list Z) : list Z :=
  le_bytes 32 (foldl (fun a b => Z.land (a * 257 + b + 1) (Z.ones 64)) 7 x * (2 ^ 192 + 2 ^ 128 + 2 ^ 64 + 1)).

Lemma toyHash_hash x : is_hash (toyHash x).
Proof.
  unfold toyHash. split; [|apply le_bytes_byte; lia].
  unfold le_bytes. apply Nat2Z.inj. rewrite length_Z_to_little_endian by lia. done.
Qed.

#[export] Instance toyHashFunctions : HashFunctions := { blake2b_Sum256 := toyHash; keccak256 := toyHash }.
#[export] Instance toyHashLaws : HashLaws.
Proof. split; apply toyHash_hash. Qed.

(** ** Codec *)

Definition anyMake (n : Z) : bool := true.

Lemma tiny_codec : codec_spec SetTinyMode.
Proof. split; cbn; lia. Qed.

Definition h32 (b : Z) : Bytes := replicate 32 b.

Definition ex_assurance : AvailAssurance := MkAvailAssurance (h32 1) [1; 0] 5 (replicate 64 9).

Definition ex_header : Header :=
  MkHeader (h32 1) (h32 2) (h32 3) 12 (Some (MkEpochMark (h32 4) (h32 5)
    (replicate 6 (MkEpochMarkValidatorKeys (h32 6) (h32 7))))) None 3 (replicate 96 8) [h32 9] (replicate 96 10).

Definition ex_block : Block :=
  MkBlock ex_header (MkExtrinsic [MkTicketEnvelope 2 (replicate 784 1)] [MkPreimage 70000 [1; 2; 3]] []
    [ex_assurance] (MkDisputesExtrinsic [] [] [MkFault (h32 1) true (h32 2) (replicate 64 3)])).

Lemma ex_block_ok : ok_Block anyMake SetTinyMode ex_block.
Proof. apply (bool_decide_unpack _). vm_compute. exact I. Qed.

Lemma block_roundtrip_witness :
  codes (enc_Block SetTinyMode ex_block) (dec_Block anyMake SetTinyMode) ex_block.
Proof. apply (block_roundtrip anyMake SetTinyMode tiny_codec ex_block ex_block_ok). Defined.

Lemma block_decoder_sound_witness : exists b,
  dec_Block anyMake SetTinyMode (default [] (match enc_Block SetTinyMode ex_block with Ret o => o | Crash => None end))
    = Ret (Some (b, [])) /\ ok_Block anyMake SetTinyMode b.
Proof.
  pose proof (block_decoder_sound anyMake SetTinyMode tiny_codec
    (default [] (match enc_Block SetTinyMode ex_block with Ret o => o | Crash => None end))) as Hd.
  exists ex_block. split; [vm_compute; reflexivity|].
  assert (dec_Block anyMake SetTinyMode (default [] (match enc_Block SetTinyMode ex_block with Ret o => o | Crash => None end))
    = Ret (Some (ex_block, []))) as E by (vm_compute; reflexivity).
  rewrite E in Hd. apply Hd. apply (bool_decide_unpack _). vm_compute. exact I.
Defined.

Definition ex_validator : Validator := MkValidator (h32 1) (h32 2) (replicate 144 3) (replicate 128 4).

Definition ex_account : ServiceAccount :=
  MkServiceAccount (MkServiceInfo 0 (h32 1) 100 10 10 200 0 3 5 6 7) {[ h32 1 := [1; 2; 3] ]}
    {[ MkLookupMetaMapkey (h32 1) 3 := [4; 5] ]} {[ [1] := [2; 3]; [] ++ [7; 8] := [] ]}.

Definition ex_activity : ValidatorActivityRecord := MkValidatorActivityRecord 1 2 3 4 5 6.

Definition ex_state : State :=
  MkState [Some [h32 1]; None] (replicate 2 (replicate 80 (h32 0)))
    (MkRecentBlocks [MkBlockInfo (h32 1) (h32 2) (h32 3) [MkReportedWorkPackage (h32 4) (h32 5)]] [None; Some (h32 6)])
    (MkSafroleState (replicate 6 ex_validator) (replicate 144 5) (MkTicketsOrKeys None (Some (replicate 12 (h32 7)))) [])
    (MkDisputesRecords [h32 1] [] [] []) (replicate 4 (h32 8)) (replicate 6 ex_validator) (replicate 6 ex_validator)
    (replicate 6 ex_validator) [None; None] 12 (MkPrivileges 1 2 3 [4; 5] {[ 6 := 700 ]})
    (MkStatistics (replicate 6 ex_activity) (replicate 6 ex_activity)
       (replicate 2 (MkCoreActivityRecord 1 2 3 4 5 6 7 8)) {[ 9 := MkServiceActivityRecord 1 2 3 4 5 6 7 8 9 10 ]})
    (replicate 12 []) [] (replicate 12 []) {[ 1 := ex_account; 300 := ex_account ]}.

Lemma state_roundtrip_witness : codes (enc_State SetTinyMode ex_state) (dec_State anyMake SetTinyMode) ex_state.
Proof.
  apply (state_roundtrip anyMake SetTinyMode). apply (bool_decide_unpack _). vm_compute. exact I.
Defined.

Definition ex_item (im : list ImportSpec) : WorkItem :=
  MkWorkItem 1 (h32 1) 10 20 3 [1; 2] im [MkExtrinsicSpec (h32 2) 4].

Lemma work_item_roundtrip_witness : exists bs extrinsics,
  enc_WorkItem (Some ∅) (ex_item []) = Ret (Some (bs ++ extrinsics)) /\
  dec_WorkItem anyMake (Some ∅) (bs ++ extrinsics ++ []) = Ret (Some (dropExtrinsics (ex_item []), extrinsics ++ [])).
Proof.
  destruct (work_item_roundtrip anyMake (Some ∅) (ex_item [])) as [_ Hw].
  - by eexists.
  - apply (bool_decide_unpack _). vm_compute. exact I.
  - destruct (Hw eq_refl) as (bs & xs & E & _ & Hd). exists bs, xs. split; [exact E|]. apply Hd. apply Forall_nil_2.
Defined.

Definition ex_bundle : WorkPackageBundle :=
  MkWorkPackageBundle
    (MkWorkPackage 1 (h32 1) (MkRefineContext (h32 1) (h32 2) (h32 3) (h32 4) 5 [h32 6]) [1] [2]
       [ex_item [MkImportSpec (h32 1) 40000; MkImportSpec (h32 2) 7] ])
    [ [1; 2] ] [ [replicate 4104 1] ] [ [h32 1; h32 2] ].

Lemma bundle_roundtrip_witness :
  codes (enc_WorkPackageBundle (Some {[ h32 1 := h32 3 ]}) ex_bundle)
    (dec_WorkPackageBundle anyMake (Some {[ h32 1 := h32 3 ]})) ex_bundle.
Proof.
  apply (bundle_roundtrip anyMake (Some {[ h32 1 := h32 3 ]})); [done|by eexists|].
  apply (bool_decide_unpack _). vm_compute. exact I.
Defined.

Lemma meta_code_decode_witness : exists bs, enc_MetaCode (MkMetaCode [] [1; 2]) = Ret (Some bs) /\
  dec_MetaCode anyMake bs = Ret (Some (MkMetaCode [] [], [1; 2])).
Proof.
  apply (meta_code_decode anyMake (MkMetaCode [] [1; 2])); try done;
    apply (bool_decide_unpack _); vm_compute; exact I.
Defined.

Lemma operand_or_transfer_panics_witness : exists bs,
  enc_OperandOrDeferredTransfer (MkOperandOrDeferredTransfer None (Some (MkDeferredTransfer 1 2 3 (replicate 128 0) 4)))
    = Ret (Some bs) /\ dec_OperandOrDeferredTransfer (bs ++ [1]) = Crash.
Proof.
  eexists. split; [vm_compute; reflexivity|].
  eapply (operand_or_transfer_panics (MkOperandOrDeferredTransfer None
    (Some (MkDeferredTransfer 1 2 3 (replicate 128 0) 4)))). vm_compute. reflexivity.
Defined.

(** ** Shuffling *)

Lemma FisherYatesShuffle_permutes_witness :
  exists out, FisherYatesShuffle [10; 20; 30] [5; 1; 9] = Ret (out, reverse out) /\ out ≡ₚ [10; 20; 30].
Proof.
  destruct (FisherYatesShuffle_permutes [10; 20; 30] [5; 1; 9]) as [Hp _].
  - cbn. lia.
  - repeat (apply List.Forall_cons; [unfold is_u32; lia|]). apply List.Forall_nil.
  - destruct (decide (length [10; 20; 30] <= length [5; 1; 9])%nat) as [_|Hn]; [exact Hp|cbn in Hn; lia].
Defined.

Lemma permute_balanced_witness : exists cores, permute SetTinyMode (h32 7) 17 = Ret cores /\ length cores = 6%nat.
Proof.
  destruct (permute_balanced SetTinyMode (h32 7) 17 tiny_wf) as (cores & Hp & Hl & _); [lia|].
  exists cores. split; [exact Hp|exact Hl].
Defined.

(** ** Merkle structures *)

Lemma SuperPeak_binding_witness :
  SuperPeak (mmr_peaks KeccakHash [h32 1; h32 2; h32 3]) = SuperPeak (mmr_peaks KeccakHash [h32 1; h32 2; h32 3]) /\
  ([h32 1; h32 2; h32 3] = [h32 1; h32 2; h32 3] \/ keccak_collision).
Proof.
  split; [reflexivity|].
  apply (SuperPeak_binding [h32 1; h32 2; h32 3] [h32 1; h32 2; h32 3]); try reflexivity;
    apply (bool_decide_unpack _); vm_compute; exact I.
Defined.

Definition ex_segments : list ByteSequence := Some <$> [ [1]; [2]; [3]; [4]; [5] ].

Lemma ex_short : (length ex_segments <= 2 ^ 31)%nat.
Proof.
  apply Nat.le_trans with (2 ^ 3)%nat; [cbn; lia|]. apply Nat.pow_le_mono_r; lia.
Qed.

Lemma page_proof_complete_witness :
  verifyLoop toyHash (reverse (Jx toyHash 1 ex_segments 2))
    (mtree toyHash 1 (padded 1 (Lx toyHash 1 ex_segments 2))) 2 = M toyHash ex_segments.
Proof.
  apply (page_proof_complete toyHash 1 ex_segments 2); [exact toyHash_hash|exact ex_short|cbn; lia|cbn; lia].
Defined.

Lemma VerifyMerkleProof_correct_witness :
  VerifyMerkleProof toyHash [3] (Jx toyHash 0 ex_segments 2) 2 (M toyHash ex_segments) = true.
Proof.
  apply (VerifyMerkleProof_correct toyHash ex_segments 2 (Some [3]) [3] (Jx toyHash 0 ex_segments 2));
    [exact toyHash_hash|exact ex_short|reflexivity|vm_compute; reflexivity|].
  apply (bool_decide_unpack _). vm_compute. exact I.
Defined.

(** ** State trie *)

Definition ex_kv (b v : Z) : StateKeyVal := MkKV (b :: replicate 30 0) (replicate (Z.to_nat v) 1).

Definition ex_entries : list StateKeyVal := [ex_kv 3 5; ex_kv 200 40; ex_kv 1 0].

Lemma ex_entries_wf : Forall wf_entry ex_entries.
Proof.
  repeat (apply List.Forall_cons; [split; [reflexivity|apply (bool_decide_unpack _); vm_compute; exact I] |]).
  apply List.Forall_nil.
Qed.

Definition ex_root : list Z := match MerklizationSerializedState ex_entries with Ret r => r | Crash => [] end.

Lemma ex_root_ok : MerklizationSerializedState ex_entries = Ret ex_root.
Proof. vm_compute. reflexivity. Qed.

Lemma state_root_order_witness :
  MerklizationSerializedState (reverse ex_entries) = MerklizationSerializedState ex_entries.
Proof.
  apply (state_root_order ex_entries (reverse ex_entries) ex_entries_wf). symmetry. apply reverse_Permutation.
Defined.

(** Eleven inputs are hashed for their root: three leaves, seven branches, and
    a value of 40 octets. No two hashes clash, also with those of the entries
    without the first. *)
Example ex_hashed : length (hashInputs ex_entries) = 11%nat /\ ~ clash (hashInputs ex_entries) (hashInputs (tail ex_entries)).
Proof. split; [vm_compute; reflexivity|]. apply (bool_decide_unpack _). vm_compute. exact I. Qed.

Lemma state_root_binding_witness : ~ clash (hashInputs ex_entries) (hashInputs (reverse ex_entries)) /\ ex_entries ≡ₚ reverse ex_entries.
Proof.
  assert (~ clash (hashInputs ex_entries) (hashInputs (reverse ex_entries))) as Hn by (apply (bool_decide_unpack _); vm_compute; exact I).
  split; [exact Hn|]. apply (state_root_binding ex_entries (reverse ex_entries) ex_root ex_entries_wf).
  - rewrite reverse_Permutation. exact ex_entries_wf.
  - exact Hn.
  - exact ex_root_ok.
  - vm_compute. reflexivity.
Defined.

Lemma cached_root_agrees_witness : exists r' c',
  ComputeStateRootWithCache SetTinyMode NewKeyLevelCache ex_entries = Ret (r', c') /\
  (r' = ex_root \/ blake_collision).
Proof.
  destruct (cached_root_agrees SetTinyMode NewKeyLevelCache ex_entries ex_root ex_entries_wf) as (r' & c' & E & _ & H).
  - intros k e He. discriminate He.
  - exact ex_root_ok.
  - exists r', c'. split; [exact E|exact H].
Defined.

Lemma state_keys_decode_witness :
  DecodeServiceIDFromType2 (StateServiceWrapper_StateKeyConstruct 255 70000) = Ret 70000.
Proof. apply (state_keys_decode 1 2 70000 3 (h32 1)); lia. Defined.
