(* ===== verification/StateExamples.v ===== *)
(** * Instances: the state transition

    The theorems on the chain state at a small chain of six validators and
    two cores, with concrete functions for the signatures and the VRF. *)

From stdpp Require Import sorting.
From S2P Require Import Prelude Words Types Config Codec Encode Roundtrip ProtocolWf.
From S2P Require Import ProtocolSpec Shuffle Mmr Crypto Store StoreLaws.
From S2P Require Import Accumulation AccumulationSpec Validate Authorization.
From S2P Require Import RecentHistory Safrole SafroleSpec Disputes.
From S2P Require Import Disputes Assurances Guarantees GuaranteesSpec.
From S2P Require Import Statistics StatisticsSpec ChainExamples.
Local Open Scope Z_scope.

(** ** Signatures and VRF *)

Definition toySign (key message : Bytes) : Bytes := toyHash (key ++ message) ++ toyHash (message ++ key).

#[export] Instance toyEd25519 : Ed25519 :=
  { ed25519_Verify := fun key message signature => bool_decide (signature = toySign key message) }.

Definition toyCommitment (ring : Bytes) : Bytes := take 144 (ring ++ replicate 144 0).

Lemma toyCommitment_length ring : length (toyCommitment ring) = 144%nat.
Proof. unfold toyCommitment. rewrite length_take, length_app, length_replicate. lia. Qed.

#[export] Instance toyVRF : VRF := {
  vrf_NewVerifier_ok v := lenOf (vf_Ring v) =? 32 * vf_RingSize v;
  vrf_GetCommitment v :=
    match v with Some v => Ret (Some (toyCommitment (vf_Ring v))) | None => Crash end;
  vrf_RingVerifyBatch v items :=
    match v with
    | Some _ => Ret (Some ((fun item => Some (toyHash (vi_Context item ++ vi_Signature item))) <$> items))
    | None => Crash
    end;
  vrf_VRFIetfOutput signature := Some (toyHash signature);
  vrf_IETFVerify context message signature key := Some (toyHash signature) }.

#[export] Instance toyVRFLaws : VRFLaws.
Proof.
  split.
  - intros v Hv. cbn. by apply Z.eqb_eq.
  - intros v. eexists. split; [reflexivity|]. intros c [= <-]. apply toyCommitment_length.
  - intros v items. eexists. split; [reflexivity|]. intros results [= <-]. split; [apply length_fmap|].
    apply Forall_fmap, Forall_true. intros item output [= <-]. apply toyHash_hash.
Qed.

(** ** A small chain *)

Definition valAt (i : Z) : Validator := MkValidator (h32 (i + 10)) (h32 (i + 20)) (replicate 144 3) (replicate 128 4).
Definition ex_keys : list Validator := valAt <$> seqZ 0 6.

(** Twelve tickets in ascending order. *)
Definition ex_tickets : list TicketBody := (fun i => MkTicketBody (h32 i) 1) <$> seqZ 1 12.

Definition ex_queue : list Bytes := h32 <$> seqZ 100 80.

Definition ex_history : list BlockInfo :=
  (fun i => MkBlockInfo (h32 i) (h32 (i + 1)) (h32 (i + 2)) [MkReportedWorkPackage (h32 (i + 3)) (h32 (i + 4))]) <$> seqZ 30 8.

Definition ex_roots : list Bytes := [h32 51; h32 52; h32 53].

(** A report of package [p] on [core] that depends on [deps]. *)
Definition report (p core : Z) (deps : list Bytes) : WorkReport :=
  MkWorkReport (MkWorkPackageSpec (h32 p) 10 (h32 1) (h32 2) 0)
    (MkRefineContext (h32 31) (h32 33) (h32 32) (h32 31) 5 deps) core (h32 100) 5 [1] []
    [MkWorkResult 1 (h32 1) (h32 2) 20 (MkWorkExecResult WorkExecResultOk [7]) (MkRefineLoad 1 2 3 4 5)].

Definition ex_prior : State :=
  MkState [Some [h32 100; h32 101]; Some [h32 100]] (replicate 2 ex_queue)
    (MkRecentBlocks ex_history (mmr_peaks toyHash ex_roots))
    (MkSafroleState ex_keys (replicate 144 5) (MkTicketsOrKeys None (Some (replicate 12 (h32 7)))) ex_tickets)
    (MkDisputesRecords [h32 1] [] [] []) (h32 <$> [60; 61; 62; 63]) ex_keys ex_keys ex_keys
    [Some (MkAvailabilityAssignment (report 80 0 []) 9); None] 11 (MkPrivileges 1 2 3 [4; 5] ∅)
    (MkStatistics [] [] [] ∅)
    (replicate 11 [] ++ [[MkReadyRecord (report 83 1 [h32 82]) [h32 82]]]) [] (replicate 11 [] ++ [[h32 70]])
    {[ 1 := ex_account ]}.

(** The posterior state of a block at slot 12, a new epoch. *)
Definition ex_posterior : State := SetTau 12 (SetVarphi (replicate 2 ex_queue) (NewPosteriorStates SetTinyMode)).

Definition ex_guarantee : ReportGuarantee := MkReportGuarantee (report 90 0 []) 12 [].

Definition noExtrinsic : Extrinsic := MkExtrinsic [] [] [] [] (MkDisputesExtrinsic [] [] []).

Definition chain (prior posterior : State) (inter : IntermediateState) (ext : Extrinsic) : ChainState :=
  MkChainState prior posterior inter (MkBlock ex_header ext) (MkBlock ex_header ext) [] [] [] None false false (MkSharing (newArrays 1) (newArrays 5) 9 ∅).

Definition ex_inter : IntermediateState :=
  MkIntermediate ex_history (s_Rho ex_prior) [None; None] ∅ ∅
    [report 80 0 []; report 81 1 [h32 80]; report 82 0 [h32 70; h32 81]; report 84 1 [h32 85] ] [] [] [] [] ∅ [].

Definition ex_chain : ChainState :=
  chain ex_prior ex_posterior ex_inter
    (MkExtrinsic [MkTicketEnvelope 2 (replicate 784 1); MkTicketEnvelope 1 (replicate 784 2)] [] [ex_guarantee] []
       (MkDisputesExtrinsic [] [] [])).

(** ** Accumulation *)

Lemma ex_queues : queues_sized SetTinyMode (priorStates ex_chain) /\ queues_sized SetTinyMode (posteriorStates ex_chain).
Proof. split; split; reflexivity. Qed.

(** The reports are chosen in the order of their dependencies, across the
    queue; the one whose dependency is unknown waits. *)
Lemma ProcessAccumulation_order_witness : exists cs', ProcessAccumulation SetTinyMode ex_chain = Ret cs' /\
  ExtractWorkReportHashes (AccumulatableWorkReports (intermediateStates cs')) = h32 <$> [80; 81; 82; 83] /\
  forall item, item ∈ concat (s_Vartheta (priorStates ex_chain)) ->
    (forall d, d ∈ rr_Dependencies item -> d ∈ ExtractWorkReportHashes (AccumulatableWorkReports (intermediateStates cs'))) ->
    recordHash item ∈ ExtractWorkReportHashes (AccumulatableWorkReports (intermediateStates cs')).
Proof.
  destruct (ProcessAccumulation_order SetTinyMode ltac:(cbn; lia) ex_chain (proj1 ex_queues)) as (cs' & E & _ & Hr & _).
  exists cs'. split; [exact E|]. split; [|exact Hr].
  assert (match ProcessAccumulation SetTinyMode ex_chain with
          | Ret c => ExtractWorkReportHashes (AccumulatableWorkReports (intermediateStates c)) | Crash => [] end
    = h32 <$> [80; 81; 82; 83]) as Hc by (vm_compute; reflexivity).
  rewrite E in Hc. exact Hc.
Defined.

Lemma ex_fresh : queue_fresh (priorStates ex_chain).
Proof.
  intros item Hi. assert (item = MkReadyRecord (report 83 1 [h32 82]) [h32 82]) as -> by (by apply list_elem_of_singleton in Hi).
  split; [|intros d Hd; apply list_elem_of_singleton in Hd as ->]; apply (bool_decide_unpack _); vm_compute; exact I.
Qed.

Lemma accumulation_keeps_queue_fresh_witness : exists cs1 cs2 cs3,
  ProcessAccumulation SetTinyMode ex_chain = Ret cs1 /\ updateXi SetTinyMode 2 cs1 = Ret cs2 /\
  updateVartheta SetTinyMode cs2 = Ret cs3 /\ queue_fresh (posteriorStates cs3).
Proof.
  destruct (accumulation_keeps_queue_fresh SetTinyMode ltac:(cbn; lia) ex_chain (proj1 ex_queues) (proj2 ex_queues) ex_fresh)
    as (cs1 & E & Hn).
  destruct (Hn 2) as (cs2 & cs3 & E2 & E3 & _ & Hf).
  - assert (match ProcessAccumulation SetTinyMode ex_chain with
            | Ret c => lenOf (AccumulatableWorkReports (intermediateStates c)) | Crash => 0 end = 4) as Hc by (vm_compute; reflexivity).
    rewrite E in Hc. rewrite Hc. lia.
  - exists cs1, cs2, cs3. split; [exact E|split; [exact E2|split; [exact E3|exact Hf]]].
Defined.

(** ** Recent history *)

Lemma ex_represents : represents ex_history ex_roots (s_Beta (priorStates ex_chain)).
Proof. split; reflexivity. Qed.

Definition ex_headser : Bytes := default [] (match enc_Header SetTinyMode ex_header with Ret o => o | Crash => None end).

Lemma recent_history_refines_witness : exists root cs',
  STFBetaHDagger2BetaHPrime SetTinyMode (STFBetaH2BetaHDagger ex_chain) = Ret (Some cs') /\
  represents (History2HistoryDagger ex_history (h32 2) ++
      [blockItem (Blake2bHash ex_headser) [ex_guarantee] (ex_roots ++ [root])]) (ex_roots ++ [root])
    (s_Beta (posteriorStates cs')).
Proof.
  destruct (recent_history_refines SetTinyMode ex_chain ex_history ex_roots ex_headser ex_represents) as (root & cs' & _ & E & _ & Hr).
  - vm_compute. reflexivity.
  - exists root, cs'. split; [exact E|exact Hr].
Defined.

(** ** Authorization *)

Lemma Authorization_correct_witness : exists alpha',
  Authorization SetTinyMode ex_chain = Ret (onPosterior (SetAlpha alpha') (onPrior (SetAlpha alpha') ex_chain), None) /\
  pools_ok SetTinyMode alpha' /\ alpha' !! 0%nat = Some (Some [h32 101; h32 112]).
Proof.
  destruct (Authorization_correct SetTinyMode ex_chain) as (alpha' & E & Hok & _).
  - cbn. lia.
  - split; [reflexivity|]. repeat (apply List.Forall_cons; [eexists; split; [reflexivity|vm_compute; congruence] |]). apply List.Forall_nil.
  - split; [reflexivity|]. repeat (apply List.Forall_cons; [reflexivity|]). apply List.Forall_nil.
  - apply List.Forall_cons; [vm_compute; split; congruence|apply List.Forall_nil].
  - exists alpha'. split; [exact E|]. split; [exact Hok|].
    assert (match Authorization SetTinyMode ex_chain with
            | Ret (c, _) => s_Alpha (posteriorStates c) !! 0%nat | Crash => None end = Some (Some [h32 101; h32 112])) as Hc
      by (vm_compute; reflexivity).
    rewrite E in Hc. exact Hc.
Defined.

(** ** Safrole *)

Lemma OutsideInSequencer_spec_witness : exists out, OutsideInSequencer SetTinyMode ex_tickets = Ret out /\
  out ≡ₚ ex_tickets /\ (tb_ID <$> out !! 3%nat) = Some (h32 11).
Proof.
  destruct (OutsideInSequencer_spec SetTinyMode ex_tickets eq_refl) as (out & E & Hp & Hl).
  exists out. split; [exact E|]. split; [exact Hp|]. rewrite (Hl 3%nat) by (vm_compute; lia). reflexivity.
Defined.

Definition ex_safrole : ChainState :=
  match OuterUsedSafrole SetTinyMode ex_chain with Ret (c, _) => c | Crash => ex_chain end.

Lemma ex_safrole_ok : OuterUsedSafrole SetTinyMode ex_chain = Ret (ex_safrole, None).
Proof. vm_compute. reflexivity. Qed.

Lemma ex_coherent : coherent ex_chain.
Proof. apply coherent_check. apply (bool_decide_unpack _). vm_compute. exact I. Qed.

Lemma OuterUsedSafrole_spec_witness :
  safrole_transition SetTinyMode ex_chain (priorStates ex_chain) (posteriorStates ex_safrole) /\
  tk_Tickets (sf_GammaS (s_Gamma (posteriorStates ex_safrole))) <> None.
Proof.
  destruct (OuterUsedSafrole_spec SetTinyMode ex_chain ex_safrole) as [Ht _].
  - cbn. lia.
  - exact ex_coherent.
  - exact ex_safrole_ok.
  - split; [exact Ht|]. vm_compute. congruence.
Defined.

(** The incoming keys of the last epoch are the slice of the pending ones, as
    after an epoch without new keys, and validator 2 is an offender: it is
    taken also from the new current keys, and from the prior incoming keys. *)
Definition ex_sharing : ChainState :=
  onSharing (SetPriorArrays (MkValidatorArrays 2 2 3 4)) (onPosterior (SetPsi (MkDisputesRecords [] [] [] [h32 22])) ex_chain).

Definition ex_shared : ChainState :=
  match OuterUsedSafrole SetTinyMode ex_sharing with Ret (c, _) => c | Crash => ex_chain end.

Example ex_sharing_coherent : coherent ex_sharing.
Proof. apply coherent_check. apply (bool_decide_unpack _). vm_compute. exact I. Qed.

Example ex_nulled_in_place :
  let nulled := <[2%nat := nullValidator]> ex_keys in
  OuterUsedSafrole SetTinyMode ex_sharing = Ret (ex_shared, None) /\
  sf_GammaK (s_Gamma (posteriorStates ex_shared)) = nulled /\ s_Kappa (posteriorStates ex_shared) = nulled /\
  s_Lambda (posteriorStates ex_shared) = ex_keys /\
  sf_GammaK (s_Gamma (priorStates ex_shared)) = nulled /\ s_Iota (priorStates ex_shared) = nulled.
Proof. split_and!; vm_compute; reflexivity. Qed.

(** The ticket accumulator after the keys have been rotated. *)
Definition ex_accumulator : ChainState :=
  match CreateNewTicketAccumulator SetTinyMode (Some (MkVerifier [] 0)) ex_chain with Ret (c, _) => c | Crash => ex_chain end.

Lemma CreateNewTicketAccumulator_spec_witness : exists acc,
  ex_accumulator = onPosterior (SetGammaA acc) ex_chain /\
  tickets_accepted SetTinyMode ex_chain (Some (MkVerifier [] 0)) acc.
Proof.
  destruct (CreateNewTicketAccumulator_spec SetTinyMode (Some (MkVerifier [] 0)) ex_chain ex_accumulator) as (acc & E & Ha).
  - cbn. lia.
  - vm_compute. reflexivity.
  - exists acc. split; [exact E|exact Ha].
Defined.

Lemma ex_keys_ok : keys_ok SetTinyMode ex_keys.
Proof. split; [reflexivity|]. repeat (apply List.Forall_cons; [reflexivity|]). apply List.Forall_nil. Qed.

Lemma ex_sized : safrole_sized SetTinyMode ex_prior.
Proof.
  split; try exact ex_keys_ok; try reflexivity. split; [|vm_compute; congruence].
  apply Sorted_StronglySorted; [intros a b c; apply bytesLt_trans|].
  repeat (apply Sorted_cons; [|first [apply HdRel_nil|apply HdRel_cons; vm_compute; reflexivity] ]). apply Sorted_nil.
Qed.

Lemma Ret_pair {A B} (a c : A) (b d : B) : Ret (a, b) = Ret (c, d) -> c = a /\ d = b.
Proof. by intros [= -> ->]. Qed.

Lemma OuterUsedSafrole_safe_witness : safrole_sized SetTinyMode (posteriorStates ex_safrole).
Proof.
  destruct (OuterUsedSafrole_safe SetTinyMode ex_chain) as (cs' & err & E & Hs).
  - cbn. lia.
  - cbn. lia.
  - exact ex_keys_ok.
  - exact ex_sized.
  - rewrite ex_safrole_ok in E. apply Ret_pair in E as [E1 E2]. rewrite <- E1. exact (Hs E2).
Defined.

(** * The extrinsics *)


(** ** Disputes *)

Definition keyAt (i : Z) : Bytes := v_Ed25519 (valAt i).

Definition judge (vote : bool) (target i : Z) : Judgement :=
  MkJudgement vote i (toySign (keyAt i) (judgementMessage vote (h32 target))).

(** A bad report and a good one. *)
Definition ex_disputes : DisputesExtrinsic :=
  MkDisputesExtrinsic
    [MkVerdict (h32 90) 0 (judge false 90 <$> seqZ 0 5); MkVerdict (h32 91) 0 (judge true 91 <$> seqZ 0 5)]
    ((fun i => MkCulprit (h32 90) (keyAt i) (toySign (keyAt i) (JamGuarantee ++ h32 90))) <$> [1; 2])
    [MkFault (h32 91) false (keyAt 3) (toySign (keyAt 3) (judgementMessage false (h32 91)))].

Definition ex_disputed : ChainState :=
  chain ex_prior ex_posterior ex_inter (MkExtrinsic [] [] [] [] ex_disputes).

Definition ex_judged : ChainState * (list Bytes + Z) :=
  match Disputes SetTinyMode ex_disputed with Ret r => r | Crash => (ex_disputed, inr 0) end.

Definition ex_mark : list Bytes := keyAt <$> [1; 2; 3].

Lemma ex_judged_ok : Disputes SetTinyMode ex_disputed = Ret (fst ex_judged, inl ex_mark).
Proof. vm_compute. reflexivity. Qed.

Lemma ex_psi_ok : psi_ok (s_Psi (priorStates ex_disputed)).
Proof. split; [apply (bool_decide_unpack _); vm_compute; exact I|apply SSorted_nil]. Qed.

Lemma Disputes_records_witness :
  psi_ok (s_Psi (posteriorStates (fst ex_judged))) /\
  s_Psi (posteriorStates (fst ex_judged)) = MkDisputesRecords [h32 1; h32 91] [h32 90] [] ex_mark.
Proof.
  destruct (Disputes_records SetTinyMode ex_disputed (fst ex_judged) ex_mark) as (offenders & rho & _ & _ & _ & _ & Hok & _).
  - cbn. lia.
  - exact ex_psi_ok.
  - exact ex_judged_ok.
  - split; [exact Hok|]. vm_compute. reflexivity.
Defined.

Lemma Disputes_backed_witness : disputes_checked SetTinyMode ex_disputed ex_disputes /\
  offences_valid ex_disputed (s_Psi (posteriorStates (fst ex_judged))) ex_disputes.
Proof.
  apply (Disputes_backed SetTinyMode ex_disputed (fst ex_judged) ex_mark).
  - cbn. lia.
  - exact ex_psi_ok.
  - exact ex_judged_ok.
Defined.

(** ** Assurances *)

Definition assure (i : Z) (bits : Bitfield) : AvailAssurance :=
  let a := MkAvailAssurance (h_Parent ex_header) bits i [] in
  match assuranceMessage SetTinyMode a with
  | Ret m => MkAvailAssurance (h_Parent ex_header) bits i (toySign (keyAt i) m)
  | Crash => a
  end.

Definition ex_assurances : list AvailAssurance := (fun i => assure i [1; 0]) <$> seqZ 0 5.

Definition ex_assured : ChainState :=
  chain ex_prior ex_posterior ex_inter (MkExtrinsic [] [] [] ex_assurances (MkDisputesExtrinsic [] [] [])).

Lemma ex_assurance_input : assurance_input SetTinyMode ex_assured.
Proof.
  split; try reflexivity.
  - intros [|[|c]] aa Hc; [|discriminate Hc..]. injection Hc as <-. reflexivity.
  - apply (bool_decide_unpack _). vm_compute. exact I.
Qed.

(** Five of six assurances make the report available. *)
Lemma Assurance_correct_witness : exists cs', Assurance SetTinyMode ex_assured = Ret (cs', None) /\
  ~ ~ accepted SetTinyMode ex_assured ex_assurances /\
  AvailableWorkReports (intermediateStates cs') = [report 80 0 []] /\ RhoDoubleDagger (intermediateStates cs') = [None; None].
Proof.
  destruct (Assurance_correct SetTinyMode tiny_codec ex_assured ex_assurance_input) as [_ Hn].
  assert (match Assurance SetTinyMode ex_assured with
          | Ret (c, e) => e = None /\ AvailableWorkReports (intermediateStates c) = [report 80 0 []] /\
                          RhoDoubleDagger (intermediateStates c) = [None; None]
          | Crash => False end) as Hc by (vm_compute; split; [reflexivity|split; reflexivity]).
  destruct (Assurance SetTinyMode ex_assured) as [[c e]|]; [|destruct Hc]. destruct Hc as (-> & Ha & Hr). exists c.
  split; [reflexivity|]. split; [|split; [exact Ha|exact Hr]]. intros Hna. destruct (Hn Hna) as [err E]. discriminate E.
Defined.

(** ** Guarantees *)

(** The validators of the first core, and their guarantee. *)
Definition ex_post : State :=
  SetEta (h32 <$> [60; 61; 62; 63]) (SetLambda ex_keys (SetKappa ex_keys ex_posterior)).

Definition signersOf (core : Z) : list Z :=
  match permute SetTinyMode (h32 62) 12 with
  | Ret cores => (fun i => Z.of_nat i) <$> filter (fun i => cores !! i = Some core) (seq 0 6)
  | Crash => []
  end.

Definition guaranteeOf (w : WorkReport) : ReportGuarantee :=
  match guaranteeMessage w with
  | Ret (Some m) =>
      MkReportGuarantee w 12 ((fun i => MkValidatorSignature i (toySign (keyAt i) m)) <$> take 2 (signersOf (rp_CoreIndex w)))
  | _ => MkReportGuarantee w 12 []
  end.

Definition ex_guaranteed : ChainState :=
  chain ex_prior ex_post ex_inter
    (MkExtrinsic [] [] [guaranteeOf (report 90 0 [h32 91]); guaranteeOf (report 91 1 [h32 33])] [] (MkDisputesExtrinsic [] [] [])).

Lemma ex_guarantee_input : guarantee_input SetTinyMode anyMake ex_guaranteed.
Proof.
  split; try reflexivity.
  - cbn. lia.
  - apply (bool_decide_unpack _). vm_compute. exact I.
Qed.

Definition slotsOf (rho : list (option AvailabilityAssignment)) : list (option Z) := option_map aa_AssignedSlot <$> rho.

(** Two guarantees, of which the first depends on the second. *)
Lemma Guarantee_correct_witness : exists cs', Guarantee SetTinyMode ex_guaranteed = Ret (cs', []) /\
  ~ ~ guaranteed SetTinyMode ex_guaranteed (ex_Guarantees (b_Extrinsic (latestBlock ex_guaranteed))) /\
  slotsOf (s_Rho (posteriorStates cs')) = [Some 12; Some 12].
Proof.
  destruct (Guarantee_correct SetTinyMode tiny_wf anyMake ex_guaranteed ex_guarantee_input) as [_ Hn].
  assert (match Guarantee SetTinyMode ex_guaranteed with
          | Ret (c, e) => e = [] /\ slotsOf (s_Rho (posteriorStates c)) = [Some 12; Some 12]
          | Crash => False end) as Hc by (vm_compute; split; reflexivity).
  destruct (Guarantee SetTinyMode ex_guaranteed) as [[c e]|]; [|destruct Hc]. destruct Hc as (-> & Hr). exists c.
  split; [reflexivity|]. split; [|exact Hr]. intros Hna. destruct (Hn Hna) as (err & errs & E). discriminate E.
Defined.

(** ** Statistics *)

Definition ex_counters : list ValidatorActivityRecord := replicate 6 (MkValidatorActivityRecord 1 2 3 4 5 (2 ^ 32 - 1)).

Definition ex_counting : ChainState :=
  chain (SetPi (MkStatistics ex_counters [] [] ∅) ex_prior) (SetTau 11 ex_post)
    (MkIntermediate ex_history (s_Rho ex_prior) [None; None] ∅ ∅ [report 80 0 []] [report 90 0 []; report 91 1 []] [] [] [] {[ 3 := MkGasAndNum 7 1 ]} [])
    (MkExtrinsic [MkTicketEnvelope 2 []] [MkPreimage 1 [7; 8]; MkPreimage 4 [9]]
      [guaranteeOf (report 90 0 [])] ex_assurances (MkDisputesExtrinsic [] [] [])).

Lemma ex_statistics_input : statistics_input SetTinyMode ex_counting.
Proof. split; try reflexivity; try (apply (bool_decide_unpack _); vm_compute; exact I); vm_compute; intuition congruence. Qed.

Lemma ex_counting_coherent : coherent ex_counting.
Proof. apply coherent_check. apply (bool_decide_unpack _). vm_compute. exact I. Qed.

(** The author's counters, and an assurer's, which wrap. *)
Lemma validator_statistics_witness : exists vals cs',
  UpdateValidatorActivityStatistics SetTinyMode ex_counting = Ret cs' /\
  adds (counts SetTinyMode ex_counting) (startVals SetTinyMode ex_counting) vals /\
  st_ValsCurr (s_Pi (posteriorStates cs')) = vals /\ st_ValsLast (s_Pi (posteriorStates cs')) = [] /\
  lenOf (filter (fun i => va_Guarantees (counts SetTinyMode ex_counting i) = 1) (seqZ 0 6)) = 2.
Proof.
  destruct (validator_statistics SetTinyMode tiny_wf ex_counting ex_counting_coherent ex_statistics_input) as (vals & cs' & E & A & Hc & Hl & _).
  exists vals, cs'. split; [exact E|]. split; [exact A|]. split; [exact Hc|]. split; [exact Hl|vm_compute; reflexivity].
Defined.

Definition ex_counted : ChainState :=
  match UpdateValidatorActivityStatistics SetTinyMode ex_counting with Ret cs => cs | Crash => ex_counting end.

Lemma ex_counted_ok : UpdateValidatorActivityStatistics SetTinyMode ex_counting = Ret ex_counted.
Proof. vm_compute. reflexivity. Qed.

Lemma core_service_statistics_witness :
  zlookup (st_Cores (s_Pi (posteriorStates ex_counted))) 0 = Some (MkCoreActivityRecord 10 5 2 3 4 5 10 1) /\
  st_Services (s_Pi (posteriorStates ex_counted)) !! 3 = Some (MkServiceActivityRecord 0 0 0 0 0 0 0 0 1 7).
Proof.
  destruct (core_service_statistics SetTinyMode tiny_wf ex_counting ex_counted ex_counting_coherent ex_statistics_input ex_counted_ok) as (_ & Hc & Hs).
  split; [|rewrite (Hs 3); vm_compute; reflexivity]. rewrite (Hc 0); [vm_compute; reflexivity|]. split; reflexivity || (cbn; lia).
Defined.
