(* ===== verification/TransitionExamples.v ===== *)
(** * Instances: the parts of a block

    The theorems on the serialization of the state, on preimages, on the
    accumulation and on whole blocks at concrete inputs. *)

From stdpp Require Import sorting.
From S2P Require Import Prelude Words Types Config Codec Encode Decoders Roundtrip ProtocolWf Trie TrieSpec.
From S2P Require Import Crypto Store StoreLaws Accumulation StateSer StateSerSpec Preimages.
From S2P Require Import OuterAccumulation OuterAccumulationSpec STF STFSpec ChainExamples StateExamples.
From S2P Require Import Memory Program Host ServiceAccounts HostGeneral HostAccumulate AccumulateInvocation HostRefine AccumulateInvocationSpec HostRefineSpec HostCallsSpec.
Local Open Scope Z_scope.

(** ** State serialization: a small state with two accounts *)

Definition ex_blob : Bytes := [7; 8].

(** An account with a preimage, its request, another request and an item
    of storage. *)
Definition ex_serialized_account : ServiceAccount :=
  MkServiceAccount (MkServiceInfo 0 (h32 1) 2 3 4 5 6 7 8 9 10) {[ Blake2bHash ex_blob := ex_blob ]}
    {[ MkLookupMetaMapkey (Blake2bHash ex_blob) 2 := [5]; MkLookupMetaMapkey (h32 9) 3 := [] ]} {[ [1; 2] := [3] ]}.

Definition ex_serialized : State :=
  SetTheta [MkAccumulatedServiceHash 1 (h32 3)] (SetDelta {[ 1 := ex_serialized_account; 300 := ex_serialized_account ]} ex_state).

Lemma ex_separate : separate SetTinyMode ex_serialized.
Proof. split; apply (bool_decide_unpack _); vm_compute; exact Logic.I. Qed.

(** The storage and the request without its preimage of both accounts stay
    unmatched. *)
Lemma serialize_parse_witness : exists kvs u, StateEncoder SetTinyMode reverse ex_serialized = Ret kvs /\
  StateKeyValsToState anyMake SetTinyMode kvs = Ret (Some (parsedState ex_serialized, u)) /\ length kvs = 26%nat /\ length u = 4%nat.
Proof.
  destruct (serialize_parse anyMake SetTinyMode reverse reverse ex_serialized) as (kvs & E & _ & Hp).
  - apply reverse_Permutation.
  - apply reverse_Permutation.
  - apply (bool_decide_unpack _). vm_compute. exact Logic.I.
  - apply (bool_decide_unpack _). vm_compute. exact Logic.I.
  - exact ex_separate.
  - destruct (Hp kvs (Permutation.Permutation_refl kvs)) as (u & kvs' & E' & _ & Hu & _). exists kvs, u. split; [exact E|].
    split; [exact E'|]. split; [|rewrite (Permutation.Permutation_length Hu); vm_compute; reflexivity].
    assert (length <$> StateEncoder SetTinyMode reverse ex_serialized = Ret 26%nat) as El by (vm_compute; reflexivity).
    rewrite E in El. by injection El.
Defined.

(** ** Preimages: one request is in the account, the other
    is one of the pairs that the parser could not match *)

Definition blobA : Bytes := [1; 2; 3].
Definition blobB : Bytes := [4; 5].

Definition requester : ServiceAccount :=
  MkServiceAccount (ac_ServiceInfo ex_serialized_account) {[ Blake2bHash ex_blob := ex_blob ]}
    {[ requestOf (Blake2bHash ex_blob) ex_blob := [5]; requestOf (Blake2bHash blobA) blobA := []; requestOf (Blake2bHash blobB) blobB := [] ]} {[ [1; 2] := [3] ]}.

Definition ex_asking : State := SetDelta {[ 1 := ex_serialized_account; 300 := requester ]} ex_serialized.

Lemma ex_asking_separate : separate SetTinyMode ex_asking.
Proof. split; apply (bool_decide_unpack _); vm_compute; exact Logic.I. Qed.

Definition ex_preimages : list Preimage := [MkPreimage 300 blobA; MkPreimage 300 blobB].

(** An account that has a preimage, whose request is an unmatched pair. *)
Definition ex_having : ServiceAccountState :=
  {[ 300 := MkServiceAccount (ac_ServiceInfo ex_serialized_account) {[ Blake2bHash blobA := blobA ]} ∅ ∅ ]}.
Definition ex_pair : StateKeyVal := MkKV (epKey (MkPreimage 300 blobA)) [0].


Definition ex_unmatched : list StateKeyVal := accountsKVs leftoverKVs ex_asking.

Lemma ValidatePreimageExtrinsics_refines_witness :
  ValidatePreimageExtrinsics ex_preimages (s_Delta (parsedState ex_asking)) ex_unmatched = Ret None /\
  Forall (requestedIn (s_Delta ex_asking)) ex_preimages.
Proof.
  destruct (ValidatePreimageExtrinsics_refines anyMake SetTinyMode ex_asking ex_unmatched ex_preimages) as (e & E & Hn).
  - apply (bool_decide_unpack _). vm_compute. exact Logic.I.
  - exact ex_asking_separate.
  - reflexivity.
  - apply (bool_decide_unpack _). vm_compute. exact Logic.I.
  - apply List.Forall_cons; [|apply List.Forall_cons; [|apply List.Forall_nil]]; (split; [vm_compute; exact Logic.I|apply (bool_decide_unpack _); vm_compute; exact Logic.I..]).
  - assert (ValidatePreimageExtrinsics ex_preimages (s_Delta (parsedState ex_asking)) ex_unmatched = Ret None) as C by (vm_compute; reflexivity).
    split; [exact C|]. rewrite C in E. injection E as <-. apply Hn. reflexivity.
Defined.

(** The request of the second preimage is in the account, that of the first
    is not; the account has the maps of the prior one. *)
Definition ex_receiving : ChainState :=
  SetPostStateUnmatchedKeyVals ex_unmatched (onSharing (SetCarriedAccounts {[ 300 ]})
    (chain ex_asking (SetTau 11 ex_post)
      (SetDeltaDoubleDagger (openIn (s_Delta (parsedState ex_asking)) (MkPreimage 300 blobB)) ex_inter)
      (MkExtrinsic [] ex_preimages [] [] (MkDisputesExtrinsic [] [] [])))).


(** ** Accumulation: a small virtual machine that uses all its gas, creates
    an account, provides a blob, drops an unmatched pair and, when it has an
    operand, sends a transfer to service 2 *)

Definition emptyAccount : ServiceAccount := MkServiceAccount (MkServiceInfo 0 (h32 1) 2 3 4 5 6 7 8 9 10) ∅ ∅ ∅.

Definition withAccounts (d : ServiceAccountState) (e : PartialStateSet) : PartialStateSet :=
  MkPartialState d (pt_ValidatorKeys e) (pt_Authorizers e) (pt_Bless e) (pt_Assign e) (pt_Designate e) (pt_CreateAcct e) (pt_AlwaysAccum e).

Definition toySent (s g : Z) (items : list OperandOrDeferredTransfer) : list DeferredTransfer :=
  if bool_decide (Exists (fun o => is_Some (od_Operand o)) items) && (12 <=? g) then [MkDeferredTransfer s 2 1 [] 2] else [].

#[export] Instance toyVM : AccumulateVM := fun e tau s g items eta kvs =>
  Ret (MkPsiA (withAccounts (<[s + 1000 := emptyAccount]> (pt_ServiceAccounts e)) e) (toySent s g items) (Some (h32 s)) g [(2, [7])]
    (filter (fun kv => Key kv <> [s]) kvs)).

#[export] Instance toyVM_laws : AccumulateVMLaws.
Proof.
  split; unfold Psi_A, toyVM.
  - intros e tau s g items eta kvs kvs' _ Hp. repeat split. cbn. by rewrite Hp.
  - intros e tau s g items eta kvs r _ [= <-]. apply sublist_submseteq, sublist_filter.
  - intros e tau s g items eta kvs r [= <-]. cbn. unfold toySent. destruct (_ && _); repeat constructor.
  - intros e tau s g items eta kvs r Hg [= <-]. cbn. unfold toySent. destruct (bool_decide _); cbn; [|split; [constructor|unfold transfersCost, total; cbn; lia]].
    destruct (Z.leb_spec 12 g); cbn; (split; [repeat constructor; cbn; lia|unfold transfersCost, total; cbn; lia]).
Qed.

(** A sort by sender. *)
Definition senderLe (x y : DeferredTransfer) : Prop := dt_SenderID x <= dt_SenderID y.
#[export] Instance senderLe_dec : RelDecision senderLe.
Proof. intros x y. unfold senderLe. apply _. Defined.
#[export] Instance senderLe_total : Total senderLe.
Proof. intros x y. unfold senderLe. lia. Qed.

Definition toySort (t : list DeferredTransfer) : list DeferredTransfer := merge_sort senderLe t.

Lemma toySort_sorts : sorts toySort.
Proof. intros t. split; [apply merge_sort_Permutation|apply Sorted_merge_sort, _]. Qed.

Definition backwards (s : gset Z) : list Z := reverse (elements s).

Lemma toy_anyOrder : anyOrder toySort elements backwards (fun l => l) (@reverse StateKeyVal).
Proof.
  split; [exact toySort_sorts|done|..]; intros; [apply reverse_Permutation|done|apply reverse_Permutation].
Qed.

(** *** A block *)

(** A report with one result. *)
Definition reportFor (p s gas : Z) : WorkReport :=
  MkWorkReport (MkWorkPackageSpec (h32 p) 10 (h32 1) (h32 2) 0)
    (MkRefineContext (h32 31) (h32 33) (h32 32) (h32 31) 5 []) 0 (h32 100) 5 [1] []
    [MkWorkResult s (h32 1) (h32 2) gas (MkWorkExecResult WorkExecResultOk [7]) (MkRefineLoad 1 2 3 4 5)].

Definition ex_accumulating : ChainState :=
  SetPostStateUnmatchedKeyVals [MkKV [1] [5]; MkKV [9] [6]; MkKV [8] [4]]
    (chain (SetChi (MkPrivileges 1 2 3 [4; 5] {[ 6 := 30 ]}) (SetDelta {[ 1 := emptyAccount; 2 := emptyAccount ]} ex_prior)) ex_posterior
      (MkIntermediate ex_history (s_Rho ex_prior) [None; None] ∅ ∅ [reportFor 180 1 20; reportFor 181 3 40] [] [] [] [] ∅ [])
      noExtrinsic).

Definition ex_state_set : PartialStateSet := MkPartialState {[ 1 := emptyAccount; 2 := emptyAccount ]} ex_keys (replicate 2 ex_queue) 1 [4; 5] 2 3 ∅.

(** Three batches, for which a fuel that the theorem allows is 140. *)
Lemma OuterAccumulation_terminates_witness :
  remaining [] [reportFor 180 1 20; reportFor 181 3 80] {[ 6 := 30 ]} = 133 /\
  is_Some (OuterAccumulation SetTinyMode elements (fun l => l) toySort 140 ex_accumulating
    (MkOuterInput 1000 [] [reportFor 180 1 20; reportFor 181 3 80] ex_state_set {[ 6 := 30 ]})).
Proof.
  assert (remaining [] [reportFor 180 1 20; reportFor 181 3 80] {[ 6 := 30 ]} = 133) as E by (vm_compute; reflexivity).
  split; [exact E|]. apply OuterAccumulation_terminates; [reflexivity|apply (bool_decide_unpack _); vm_compute; exact Logic.I|rewrite E; lia|rewrite E; lia].
Defined.

(** The gas that is left is a [uint64]: if the services of the first batch,
    of which one is free, use more than the limit, it wraps, and the limit no
    longer holds: with a limit of 100 units reports of 100 and of 5000 units
    are accumulated. *)
Lemma outer_gas_wraps :
  match OuterAccumulation SetTinyMode elements (fun l => l) toySort 4 ex_accumulating
    (MkOuterInput 100 [] [reportFor 180 2 100; reportFor 181 3 5000] ex_state_set {[ 6 := 30 ]}) with
  | Some (Ret (_, Some out)) => oo_NumberOfWorkResultsAccumulated out = 2
  | _ => False
  end.
Proof. vm_compute. reflexivity. Qed.

(** ** A block with a parent, in the middle of an epoch *)

(** The state at slot 3, with the keys of the fallback all of validator 0. *)
Definition ex_before : State :=
  SetTau 3 (SetPi (MkStatistics ex_counters ex_counters [] ∅)
    (SetGamma (MkSafroleState ex_keys (replicate 144 5) (MkTicketsOrKeys None (Some (replicate 12 (h32 10)))) []) ex_prior)).

Definition ex_root_before : Bytes :=
  match StateEncoder SetTinyMode reverse ex_before with
  | Ret kvs => match ComputeStateRootWithCache SetTinyMode NewKeyLevelCache kvs with Ret (r, _) => r | Crash => [] end
  | Crash => []
  end.

Definition ex_extrinsic_hash : Bytes :=
  match CreateExtrinsicHash SetTinyMode noExtrinsic with Ret (Some h) => h | _ => [] end.

Definition ex_block_header : Header :=
  MkHeader (h32 200) ex_root_before ex_extrinsic_hash 4 None None 0 (replicate 96 1) [] (replicate 96 2).

Definition ex_child : ChainState :=
  MkChainState ex_before (NewPosteriorStates SetTinyMode) ex_inter (MkBlock ex_block_header noExtrinsic) (MkBlock ex_block_header noExtrinsic)
    [] [] [] None false false (MkSharing (newArrays 1) nilArrays 5 ∅).

Definition ex_run : ChainState * KeyLevelCache :=
  match RunSTF SetTinyMode reverse elements (fun l => l) toySort 3 ex_child NewKeyLevelCache with Some (Ret (s, _)) => s | _ => (ex_child, NewKeyLevelCache) end.

Lemma ex_run_ok : RunSTF SetTinyMode reverse elements (fun l => l) toySort 3 ex_child NewKeyLevelCache = Some (Ret (ex_run, None)).
Proof.
  assert (match RunSTF SetTinyMode reverse elements (fun l => l) toySort 3 ex_child NewKeyLevelCache with
          | Some (Ret (_, None)) => True | _ => False end) as Hc by (vm_compute; exact Logic.I).
  unfold ex_run. destruct (RunSTF _ _ _ _ _ _ _ _) as [[[s [e|] ]|]|]; [destruct Hc|reflexivity|destruct Hc|destruct Hc].
Qed.

(** The author is validator 0, and the block starts with the root of the
    state before it. *)
Lemma RunSTF_accepts_witness : exists g,
  accepted SetTinyMode elements (fun l => l) toySort reverse 3 ex_child (fst ex_run) NewKeyLevelCache (snd ex_run) g /\
  header_checked SetTinyMode reverse ex_child NewKeyLevelCache (snd ex_run) ex_block_header noExtrinsic /\
  s_Tau (posteriorStates (fst ex_run)) = 4.
Proof.
  destruct (RunSTF_accepts SetTinyMode elements (fun l => l) toySort reverse 3 ex_child (fst ex_run) NewKeyLevelCache (snd ex_run)) as [g Hg].
  - rewrite <- surjective_pairing. exact ex_run_ok.
  - exists g. split; [exact Hg|]. split; [|exact (proj1 (ac_slot _ _ _ _ _ _ _ _ _ _ _ Hg))].
    apply (ac_header _ _ _ _ _ _ _ _ _ _ _ Hg). vm_compute. discriminate.
Defined.

(** ** The accumulate invocation *)

(** A standard program with the given instructions and their bit mask. *)
Definition programOf (instrs bits : list Z) : Bytes :=
  [0; 0; 0; 0; 0; 0; 0; 0; 0; 0; 0] ++ le_bytes 4 (3 + lenOf instrs + lenOf bits) ++ [0; 0; lenOf instrs] ++ instrs ++ bits.

(** Its entry, at 5, calls [new] with the registers it starts with, and halts. *)
Definition ex_service_code : Bytes := [1; 9] ++ programOf [0; 1; 1; 1; 1; 10; 18; 50; 0] [191; 0].

Definition ex_service (balance : Z) : ServiceAccount :=
  MkServiceAccount (MkServiceInfo 0 (Blake2bHash ex_service_code) balance 0 0 0 100000 0 1 1 1)
    {[ Blake2bHash ex_service_code := ex_service_code ]} {[ MkLookupMetaMapkey (h32 4) 6 := [3]; MkLookupMetaMapkey (h32 8) 9 := [1; 2] ]} {[ [1] := [2; 3] ]}.

Definition ex_services (balance : Z) : PartialStateSet :=
  MkPartialState {[ 5 := ex_service balance; 6 := ex_service 10 ]} [] [] 1 [] 2 3 ∅.

Definition mapBlobs (m : gmap Bytes ServiceBlob) : list ServiceBlob := snd <$> map_to_list m.

Definition exPsi (balance : Z) : go Psi_A_ReturnType :=
  @Psi_A (PsiA anyMake SetTinyMode mapBlobs) (ex_services balance) 7 5 1000 [] (h32 1) [].

Lemma Psi_A_terminates_witness :
  runPsi_A anyMake SetTinyMode mapBlobs 1001 (ex_services 1000) 7 5 1000 [] (h32 1) [] = Some (exPsi 1000) /\
  match exPsi 1000 with Ret r => pa_Gas r = 12 /\ size (pt_ServiceAccounts (pa_PartialStateSet r)) = 3%nat | Crash => False end.
Proof.
  split; [|vm_compute; done].
  exact (Psi_A_terminates anyMake SetTinyMode mapBlobs (ex_services 1000) 7 5 1000 [] (h32 1) [] ltac:(lia)).
Defined.

(** *** A block of two services, each of which makes an account *)

Definition realVM : AccumulateVM := PsiA anyMake SetTinyMode mapBlobs.

Definition ex_creating : ChainState :=
  SetPostStateUnmatchedKeyVals [MkKV [1] [5]; MkKV [9] [6]; MkKV [8] [4]]
    (chain (SetDelta {[ 5 := ex_service 1000; 6 := ex_service 2000 ]} ex_prior) ex_posterior
      (MkIntermediate ex_history (s_Rho ex_prior) [None; None] ∅ ∅ [reportFor 180 5 1000; reportFor 181 6 1000] [] [] [] [] ∅ [])
      noExtrinsic).

Lemma ex_creating_free : @conflictFreeBlock toyHashFunctions realVM SetTinyMode toySort elements (fun l => l) 3 ex_creating.
Proof.
  apply (@bool_decide_unpack _ (@conflictFreeBlock_dec toyHashFunctions realVM SetTinyMode toySort elements (fun l => l) 3 ex_creating)).
  vm_compute. exact Logic.I.
Qed.


(** A service with a balance of 3 makes one that takes a deposit of 204, and
    is rich: an accumulation makes [2^64] tokens out of nothing. *)
Lemma new_mints : match exPsi 3 with
  | Ret r => sumMap (fun _ => balanceOf) (pt_ServiceAccounts (pa_PartialStateSet r)) =
      sumMap (fun _ => balanceOf) (pt_ServiceAccounts (ex_services 3)) + 2 ^ 64
  | Crash => False end.
Proof. vm_compute. done. Qed.

(** *** Host calls *)

Definition ex_context (balance : Z) : HostGeneral.ResultContext := MkResultContext 5 (ex_services balance) 70000 [] None ∅ [].

Definition ex_args (balance : Z) : Args :=
  MkArgs None (MkCallArgs (MkGeneralArgs (Some (ex_service balance)) (Some 5) None None)
    (MkAccumulateArgs (ex_context balance) (ex_context balance) 7 (h32 1) []) zeroRefineArgs).

Definition ex_vm (r : list Z) : VMState := MkVM r (MkMemory {[ 16 := MkPage (replicate 4096 0) MemoryReadWrite ]} 0 0) 1000.

Lemma ex_args_sound balance : 0 <= balance -> sound (ex_args balance).
Proof.
  intros Hb. split; [done| | |by apply List.Forall_nil|split; [by split|done]].
  - exists (ex_service balance). split; [done|]. apply lookup_insert_eq.
  - intros id acc Ha. change (accountsX (ex_args balance)) with (<[5 := ex_service balance]> {[ 6 := ex_service 10 ]} : ServiceAccountState) in Ha.
    apply lookup_insert_Some in Ha as [[<- <-]|[_ [<- <-]%lookup_singleton_Some] ]; [exact Hb|]. cbn. lia.
Qed.

Lemma ex_args_wealth balance : wealth (ex_args balance) = balance + 10.
Proof.
  unfold wealth. change (accountsX (ex_args balance)) with (<[5 := ex_service balance]> {[ 6 := ex_service 10 ]} : ServiceAccountState).
  rewrite sumMap_insert. change (delete 5 _) with ({[ 6 := ex_service 10 ]} : ServiceAccountState).
  change (sumMap _ _) with 10. cbn. lia.
Qed.

Definition outcome (o : Outcome) : Z * VMState * Args := match o with Ret x => x | Crash => (0, ex_vm [], ex_args 0) end.

(** A transfer of 100 from service 5 to service 6. *)
Definition ex_transfer : Z * VMState * Args :=
  outcome (transfer 20 (ex_vm [0; 0; 0; 0; 0; 0; 0; 6; 100; 30; 65536; 0; 0]) (ex_args 1000)).

Lemma host_calls_conserve_witness : sound (snd ex_transfer) /\ wealth (snd ex_transfer) = 1010 /\
  xc_DeferredTransfers (ctxX (snd ex_transfer)) = [MkDeferredTransfer 5 6 100 (replicate 128 0) 30].
Proof.
  destruct (host_calls_conserve anyMake SetTinyMode 20 transfer 20 (ex_vm [0; 0; 0; 0; 0; 0; 0; 6; 100; 30; 65536; 0; 0]) (ex_args 1000)
    (fst (fst ex_transfer)) (snd (fst ex_transfer)) (snd ex_transfer)) as [Hs Hw].
  - reflexivity.
  - done.
  - vm_compute. reflexivity.
  - by apply ex_args_sound.
  - rewrite ex_args_wealth. lia.
  - split; [exact Hs|]. split; [rewrite Hw, ex_args_wealth; reflexivity|]. vm_compute. reflexivity.
Defined.


(** The service with 3 tokens makes one with a deposit of 201. *)
Definition ex_new : Z * VMState * Args := outcome (new 18 (ex_vm [0; 0; 0; 0; 0; 0; 0; 65536; 0; 1; 2; 0; 0]) (ex_args 3)).

Lemma new_tokens_witness : sound (snd ex_new) /\ wealth (snd ex_new) = 13 + 2 ^ 64.
Proof.
  destruct (new_tokens 18 (ex_vm [0; 0; 0; 0; 0; 0; 0; 65536; 0; 1; 2; 0; 0]) (ex_args 3) (fst (fst ex_new)) (snd (fst ex_new)) (snd ex_new)) as [Hs _].
  - by apply ex_args_sound.
  - rewrite ex_args_wealth. lia.
  - vm_compute. done.
  - vm_compute. reflexivity.
  - split; [exact Hs|]. vm_compute. reflexivity.
Defined.

(** Service 5 stores three bytes for the key [1], in place of two: the key
    and the value are read from the page of zeros, but for the first byte. *)
Definition ex_write_vm : VMState :=
  MkVM [0; 0; 0; 0; 0; 0; 0; 65536; 1; 65540; 3; 0; 0] (MkMemory {[ 16 := MkPage (1 :: replicate 4095 0) MemoryReadWrite ]} 0 0) 1000.

Definition ex_write : Z * VMState * Args := outcome (write 4 ex_write_vm (ex_args 1000)).

Definition ex_write_account : ServiceAccount := default (ex_service 0) (ga_ServiceAccount (gArgs (snd ex_write))).

Lemma write_footprint_witness : exists acc', ga_ServiceAccount (gArgs (snd ex_write)) = Some acc' /\
  unlisted acc' = unlisted (ex_service 1000) /\ ac_StorageDict acc' !! [1] = Some [0; 0; 0] /\
  si_Bytes (ac_ServiceInfo acc') = 1 /\ vmRegisters (snd (fst ex_write)) !! 7%nat = Some 2.
Proof.
  destruct (write_footprint 4 ex_write_vm (ex_args 1000) (snd (fst ex_write)) (snd ex_write)) as
    (key & serviceID & acc & pair & kvs & acc' & Ek & Es & Ea & Ep & Ekvs & Hs & Hu & Ho); [vm_compute; reflexivity|].
  assert (key = [1]) as -> by (vm_compute in Ek; by injection Ek). injection Es as <-. injection Ea as <-.
  exists acc'. cbv zeta in Ho. destruct (decide (uncovered ex_write_vm acc')) as [_|_].
  { destruct Ho as [_ Hf]. exfalso. vm_compute in Hf. discriminate Hf. }
  destruct Ho as [Ho Hr]. apply (f_equal (fun a => ga_ServiceAccount (gArgs a))) in Ho. split; [exact Ho|]. split; [exact Hu|].
  assert (acc' = ex_write_account) as -> by (unfold ex_write_account; rewrite Ho; reflexivity).
  split; [vm_compute; reflexivity|]. split; vm_compute; reflexivity.
Defined.

(** A request for a preimage, and the end of one that was available. *)
Definition ex_requested : ServiceAccount :=
  match processSolicitLookupData (ex_service 1000) (MkLookupMetaMapkey (h32 7) 5) 40 with inl acc => acc | inr _ => ex_service 0 end.

Definition ex_forgotten : ServiceAccount := default (ex_service 0) (forgetLookup SetTinyMode (ex_service 1000) (MkLookupMetaMapkey (h32 8) 9) 100).

Lemma request_footprint_witness :
  unlisted ex_requested = unlisted (ex_service 1000) /\ si_Items (ac_ServiceInfo ex_requested) = 2 /\
  unlisted ex_forgotten = unlisted (ex_service 1000) /\ size (ac_LookupDict ex_forgotten) = 1%nat.
Proof.
  split; [|split; [vm_compute; reflexivity|split; [|vm_compute; reflexivity] ] ].
  - apply (proj1 (request_footprint SetTinyMode (ex_service 1000) (MkLookupMetaMapkey (h32 7) 5) 40)). vm_compute. reflexivity.
  - apply (proj2 (request_footprint SetTinyMode (ex_service 1000) (MkLookupMetaMapkey (h32 8) 9) 100)). vm_compute. reflexivity.
Defined.

(** ** Refinement *)

(** Exports its argument, and halts. *)
Definition ex_refine_code : Bytes := [1; 9] ++ programOf [10; 7; 50; 0] [5].

Definition ex_refine_item : WorkItem := MkWorkItem 5 (Blake2bHash ex_refine_code) 1000 20 3 [1; 2] [] [].

Definition ex_refine : RefineInput :=
  MkRefineInput 1 0 (MkWorkPackage 1 (h32 1) (MkRefineContext (h32 1) (h32 2) (h32 3) (h32 4) 5 []) [1] [2] [ex_refine_item]) [4] [] 7
    {[ 5 := MkServiceAccount (ac_ServiceInfo (ex_service 1000)) {[ Blake2bHash ex_refine_code := ex_refine_code ]}
         {[ MkLookupMetaMapkey (Blake2bHash ex_refine_code) (lenOf ex_refine_code) := [3] ]} ∅ ]}.

Lemma RefineInvoke_spec_witness :
  match RefineInvoke anyMake SetTinyMode true ex_refine with
  | Ret out => refined ex_refine ex_refine_item out /\ ro_WorkResult out = WorkExecResultOk /\ length (ro_ExportSegment out) = 1%nat /\ ro_Gas out = 12
  | Crash => False end.
Proof.
  destruct (RefineInvoke_spec anyMake SetTinyMode true ex_refine ex_refine_item eq_refl ltac:(cbn; lia) ltac:(cbn; lia)) as [_ Hr].
  assert (match RefineInvoke anyMake SetTinyMode true ex_refine with
    | Ret out => ro_WorkResult out = WorkExecResultOk /\ length (ro_ExportSegment out) = 1%nat /\ ro_Gas out = 12 | Crash => False end) as Hc
    by (vm_compute; done).
  destruct (RefineInvoke anyMake SetTinyMode true ex_refine) as [out|]; [|done]. split; [by apply Hr|exact Hc].
Defined.

(** The call [machine] on an empty program. *)
Definition ex_refine_args : Args := refineAddition ex_refine ex_refine_item.
Definition ex_integrated : Z * VMState * Args := outcome (machine 8 (ex_vm [0; 0; 0; 0; 0; 0; 0; 65536; 3; 2; 0; 0; 0]) ex_refine_args).

Lemma refine_calls_keep_witness : refining 7 (snd ex_integrated) /\ machines (snd ex_integrated) !! 0 = Some (MkIntegrated [0; 0; 0] zeroMemory 2).
Proof.
  split; [|vm_compute; reflexivity].
  refine (refine_calls_keep SetTinyMode true 8 machine 8 (ex_vm [0; 0; 0; 0; 0; 0; 0; 65536; 3; 2; 0; 0; 0]) ex_refine_args
    (fst (fst ex_integrated)) (snd (fst ex_integrated)) (snd ex_integrated) 7 _ _ _ _ _).
  - lia.
  - reflexivity.
  - cbn. lia.
  - vm_compute. reflexivity.
  - exact (refining_start ex_refine ex_refine_item).
Defined.

(** A page cannot be given to a machine: the host crashes. *)
Lemma pages_crashes : pages 11 (ex_vm [0; 0; 0; 0; 0; 0; 0; 0; 16; 1; 2; 0; 0]) (snd ex_integrated) = Crash.
Proof. vm_compute. reflexivity. Qed.

(** A machine that is given 100 units of gas panics at its first instruction;
    the host call writes zeros over the gas that is left. *)
Definition ex_invoked : Z * VMState * Args := outcome (invoke 12
  (MkVM [0; 0; 0; 0; 0; 0; 0; 0; 65536; 0; 0; 0; 0] (MkMemory {[ 16 := MkPage (100 :: replicate 4095 0) MemoryReadWrite ]} 0 0) 1000) (snd ex_integrated)).

Lemma invoke_forgets : vmRegisters (snd (fst ex_invoked)) !! 7%nat = Some INNERPANIC /\ Read (vmMemory (snd (fst ex_invoked))) 65536 8 = Ret [0; 0; 0; 0; 0; 0; 0; 0].
Proof. split; vm_compute; reflexivity. Qed.
