(* ===== verification/NodeExamples.v ===== *)
(** * Instances: the node

    The theorems on the repository, the messages and the target of the fuzzer
    at concrete inputs: the block of TransitionExamples.v is imported into a
    node that holds its parent's state. *)

From stdpp Require Import sorting.
From S2P Require Import Prelude Words Types Config Codec Encode Decoders Crypto Trie Store StateSer Accumulation OuterAccumulation STF.
From S2P Require Import Roundtrip ProtocolWf ProtocolSpec Repository Blockchain FuzzMessages FuzzTarget FuzzTargetSpec.
From S2P Require Import Auditing ChainExamples StateExamples TransitionExamples.
Local Open Scope Z_scope.

Definition ex_next : Block := MkBlock ex_block_header noExtrinsic.

Definition ex_node : Node memoryDB := MkNode NewDatabase None [] ∅ [] [] ex_child NewKeyLevelCache.

Definition ex_import (b : Block) (n : Node memoryDB) : option (go (Node memoryDB * (Bytes + ImportError))) :=
  ImportBlock anyMake SetTinyMode reverse elements (fun l => l) toySort 3 b n.

Definition ex_hash (b : Block) : Bytes := match ComputeBlockHeaderHash SetTinyMode (b_Header b) with Ret (Some h) => h | _ => [] end.

Definition nodeOf (r : option (go (Node memoryDB * (Bytes + ImportError)))) : Node memoryDB := match r with Some (Ret (n, _)) => n | _ => ex_node end.
Definition rootOf (r : option (go (Node memoryDB * (Bytes + ImportError)))) : Bytes := match r with Some (Ret (_, inl root)) => root | _ => [] end.

Lemma ex_imported : ex_import ex_next ex_node = Some (Ret (nodeOf (ex_import ex_next ex_node), inl (rootOf (ex_import ex_next ex_node)))).
Proof.
  assert (match ex_import ex_next ex_node with Some (Ret (_, inl _)) => True | _ => False end) as Hc by (vm_compute; exact Logic.I).
  revert Hc. unfold nodeOf, rootOf. destruct (ex_import ex_next ex_node) as [[[n [r|e]]|]|]; [reflexivity|intros []..].
Qed.

Definition ex_node1 : Node memoryDB := nodeOf (ex_import ex_next ex_node).

Lemma ex_next_ok : ok_Block anyMake SetTinyMode ex_next.
Proof. apply (bool_decide_unpack _). vm_compute. exact Logic.I. Qed.

Lemma ex_next_hash : ComputeBlockHeaderHash SetTinyMode (b_Header ex_next) = Ret (Some (ex_hash ex_next)).
Proof. vm_compute. reflexivity. Qed.

Lemma target_bool {PDB : Type} (n : Node PDB) :
  match nd_persistentRepo n, data (nd_repo n) with None, Some _ => true | _, _ => false end = true -> target n.
Proof. unfold target, is_open. intros E. by destruct (nd_persistentRepo n), (data (nd_repo n)). Qed.

Lemma ex_node_target : target ex_node.
Proof. split; [reflexivity|]. by eexists. Qed.

(** The state that the transition of TransitionExamples.v leaves. *)
Definition ex_left : State := posteriorStates (fst ex_run).
Definition ex_left_pairs : list StateKeyVal :=
  postStateUnmatchedKeyVals (fst ex_run) ++ match StateEncoder SetTinyMode reverse ex_left with Ret ser => ser | Crash => [] end.

Lemma ex_left_pairs_ok : ok_StateKeyVals anyMake (sortKeyVals ex_left_pairs).
Proof. apply (bool_decide_unpack _). vm_compute. exact Logic.I. Qed.

Lemma import_commits_witness :
  priorStates (nd_chain ex_node1) = ex_left /\
  gives anyMake SetTinyMode ex_node1 (ex_hash ex_next) (rootOf (ex_import ex_next ex_node)) (sortKeyVals ex_left_pairs) ex_next /\
  GetLatestBlock ex_node1 = Ret ex_next.
Proof.
  destruct (import_commits anyMake SetTinyMode tiny_codec reverse elements (fun l => l) toySort 3 ex_next (ex_hash ex_next) ex_node
    ex_node1 (rootOf (ex_import ex_next ex_node))) as (base & cs & cache & ser & cache' & Eb & Er & Es & _ & Hc).
  - exact ex_node_target.
  - exact ex_next_ok.
  - exact ex_next_hash.
  - constructor.
  - vm_compute. discriminate.
  - vm_compute. reflexivity.
  - exact ex_imported.
  - injection Eb as <-.
    change (RunSTF SetTinyMode reverse elements (fun l => l) toySort 3 ex_child NewKeyLevelCache = Some (Ret ((cs, cache), None))) in Er.
    rewrite ex_run_ok in Er. assert (forall A B (x y : A) (e : B), Some (Ret (x, e)) = Some (Ret (y, e)) -> x = y) as Hi by (intros A B x y e [= ->]; reflexivity).
    pose proof (Hi _ _ _ _ _ Er) as Ex. clear Er.
    assert (postStateUnmatchedKeyVals cs ++ ser = ex_left_pairs) as Ep by (unfold ex_left_pairs, ex_left; rewrite Ex; cbn [fst]; rewrite Es; reflexivity).
    rewrite Ep in Hc. destruct (Hc ex_left_pairs_ok) as (H1 & _ & H2 & H3 & _). split; [|split; [exact H2|exact H3]].
    rewrite H1. unfold ex_left. rewrite Ex. reflexivity.
Defined.

(** Its state is given back: 24 pairs or so of the components of the state. *)
Example ex_state_given :
  match GetState anyMake SetTinyMode (ex_hash ex_next) ex_node1 with
  | Ret (Some kvs) => ok_StateKeyVals anyMake kvs /\ (16 <= length kvs)%nat
  | _ => False
  end.
Proof.
  assert (match GetState anyMake SetTinyMode (ex_hash ex_next) ex_node1 with
          | Ret (Some kvs) => bool_decide (ok_StateKeyVals anyMake kvs) && (16 <=? length kvs)%nat = true | _ => False end) as Hc
    by (vm_compute; reflexivity).
  destruct (GetState _ _ _ _) as [[kvs|]|]; [|destruct Hc..]. apply andb_prop in Hc as [H1 H2].
  split; [by apply bool_decide_eq_true in H1|by apply Nat.leb_le].
Qed.

(** A block with another state root than that of its parent is refused, and
    is the latest block all the same. *)
Definition ex_wrong : Block :=
  MkBlock (MkHeader (h32 200) (h32 1) ex_extrinsic_hash 4 None None 0 (replicate 96 1) [] (replicate 96 2)) noExtrinsic.

Definition ex_refused : option (go (Node memoryDB * (Bytes + ImportError))) := ex_import ex_wrong ex_node.

Lemma ex_refused_eq : exists e, ex_refused = Some (Ret (nodeOf ex_refused, inr (STFProtocolError e))).
Proof.
  assert (match ex_refused with Some (Ret (_, inr (STFProtocolError _))) => True | _ => False end) as Hc by (vm_compute; exact Logic.I).
  revert Hc. unfold nodeOf. destruct ex_refused as [[[n [r|[]]]|]|]; try (intros []). by eexists.
Qed.

Lemma failed_import_keeps_witness :
  target (nodeOf ex_refused) /\ (forall h, GetStateByBlockHash anyMake (nodeOf ex_refused) h = GetStateByBlockHash anyMake ex_node h) /\
  nd_persistedEntries (nodeOf ex_refused) = [] /\ GetLatestBlock (nodeOf ex_refused) = Ret ex_wrong.
Proof.
  destruct ex_refused_eq as [e E].
  exact (failed_import_keeps anyMake SetTinyMode reverse elements (fun l => l) toySort 3 ex_wrong ex_node _ _ ex_node_target E).
Defined.

(** Another block is added, and then a block whose parent is the first: the
    state of the first is restored. *)
Definition addTo (b : Block) (n : Node memoryDB) : Node memoryDB := match AddBlock SetTinyMode b n with Ret n => n | Crash => n end.
Definition ex_node2 : Node memoryDB := addTo ex_wrong ex_node1.

Definition ex_sibling : Block :=
  MkBlock (MkHeader (ex_hash ex_next) (h32 1) ex_extrinsic_hash 5 None None 0 (replicate 96 1) [] (replicate 96 2)) noExtrinsic.

Definition foundFor (b : Block) (n : Node memoryDB) : Node memoryDB :=
  match findParent anyMake SetTinyMode b (ex_hash b) n with Ret (n, _) => n | Crash => n end.
Definition ex_node3 : Node memoryDB := foundFor ex_sibling ex_node2.

Lemma ex_found : findParent anyMake SetTinyMode ex_sibling (ex_hash ex_sibling) ex_node2 = Ret (ex_node3, None).
Proof.
  assert (match findParent anyMake SetTinyMode ex_sibling (ex_hash ex_sibling) ex_node2 with Ret (_, None) => True | _ => False end) as Hc
    by (vm_compute; exact Logic.I).
  revert Hc. unfold ex_node3, foundFor. destruct (findParent _ _ _ _ _) as [[n [e|]]|]; [intros []|reflexivity|intros []].
Qed.

Lemma ex_node2_target : target ex_node2.
Proof. apply target_bool. vm_compute. reflexivity. Qed.

Lemma ex_forks : forks SetTinyMode ex_node2 ex_sibling (ex_hash ex_sibling).
Proof.
  exists ex_wrong, (ex_hash ex_wrong). split; [vm_compute; reflexivity|]. split; [vm_compute; reflexivity|].
  split; apply (bool_decide_unpack _); vm_compute; exact Logic.I.
Qed.


(** There were two blocks, and now there is the first. *)
Example ex_forked : length (nd_unfinalizedBlocks ex_node2) = 2%nat /\ nd_unfinalizedBlocks ex_node3 = [ex_next] /\ s_Tau (priorStates (nd_chain ex_node3)) = 4.
Proof. vm_compute. repeat split. Qed.

(** A node with 24 entries, of the first of which the state is stored. *)
Definition ex_oldest : persistedEntry := MkPersistedEntry (h32 1) (h32 2) 3.
Definition ex_crowded : Node memoryDB :=
  setRepo (opened {[ entryKey (EData (h32 1)) := [7] ]}) (setPersisted (ex_oldest :: replicate 23 (MkPersistedEntry (h32 4) (h32 5) 3)) ex_node).

Lemma ex_crowded_imported :
  ex_import ex_next ex_crowded = Some (Ret (nodeOf (ex_import ex_next ex_crowded), inl (rootOf (ex_import ex_next ex_crowded)))).
Proof.
  assert (match ex_import ex_next ex_crowded with Some (Ret (_, inl _)) => True | _ => False end) as Hc by (vm_compute; exact Logic.I).
  revert Hc. unfold nodeOf, rootOf. destruct (ex_import ex_next ex_crowded) as [[[n [r|e]]|]|]; [reflexivity|intros []..].
Qed.

Lemma ex_crowded_tracked : tracked [] ex_crowded.
Proof.
  intros root [v Hv]. right. change (({[ entryKey (EData (h32 1)) := [7] ]} : gmap Bytes Bytes) !! entryKey (EData root) = Some v) in Hv.
  apply lookup_singleton_Some in Hv as [E%app_inv_head _]. subst root. by left.
Qed.

#[local] Instance persistedEntry_eq_dec : EqDecision persistedEntry.
Proof. solve_decision. Defined.

Lemma import_bounded_witness : let n := nodeOf (ex_import ex_next ex_crowded) in
  lenOf (nd_persistedEntries n) <= FuzzPersistentRetainBlocks /\ lenOf (nd_unfinalizedBlocks n) <= FuzzPersistentRetainBlocks /\
  tracked [] n /\ forgotten (nodeDB n) ex_oldest.
Proof.
  intros n. destruct (import_bounded anyMake SetTinyMode reverse elements (fun l => l) toySort 3 [] ex_next ex_crowded n
    (inl (rootOf (ex_import ex_next ex_crowded)))) as (H1 & H2 & H3 & H4).
  - apply target_bool. vm_compute. reflexivity.
  - vm_compute. discriminate.
  - exact ex_crowded_tracked.
  - exact ex_crowded_imported.
  - discriminate.
  - split; [exact H2|]. split; [exact H1|]. split; [exact H3|]. destruct (List.Forall_inv H4) as [Hin|Hf]; [|exact Hf]. exfalso.
    assert (ex_oldest ∉ nd_persistedEntries n) as Hn by (apply (bool_decide_unpack _); vm_compute; exact Logic.I). exact (Hn Hin).
Defined.

(** The oldest of 24 entries has the state of the new block: the state that
    has just been committed is deleted. *)
Definition ex_full_node : Node memoryDB :=
  setPersisted (MkPersistedEntry (rootOf (ex_import ex_next ex_node)) (ex_hash ex_next) 4 ::
                replicate 23 (MkPersistedEntry (h32 1) (h32 2) 3)) ex_node.

(** The state of a block, read in the way the fuzzer asks for it, is not there. *)
Definition isLost (h : Bytes) (n : Node memoryDB) : bool :=
  match GetState anyMake SetTinyMode h n with Ret None => true | _ => false end.

Example ex_reimport_loses :
  rootOf (ex_import ex_next ex_full_node) = rootOf (ex_import ex_next ex_node) /\
  isLost (ex_hash ex_next) (nodeOf (ex_import ex_next ex_full_node)) = true.
Proof. split; vm_compute; reflexivity. Qed.

(** ** The repository *)

Lemma SaveBlock_correct_witness : exists h t',
  ComputeBlockHeaderHash SetTinyMode (b_Header ex_next) = Ret (Some h) /\
  SaveBlock SetTinyMode ex_next NewDatabase = Ret (t', Some ()) /\ usable t' /\
  forall m, GetBlock anyMake SetTinyMode (opened (view t' m)) h 4 = Ret (Some ex_next) /\
    GetHeaderTimeSlot (opened (view t' m)) h = Ret (Some 4) /\ differ_at (blockEntries 4 h) (view NewDatabase m) (view t' m).
Proof. apply (SaveBlock_correct anyMake SetTinyMode tiny_codec ex_next NewDatabase ex_next_ok). by eexists. Defined.

Definition ex_pairs : list StateKeyVal := [MkKV (replicate 31 1) [2; 3]; MkKV (replicate 31 2) []].

Lemma ex_pairs_ok : ok_StateKeyVals anyMake ex_pairs.
Proof. apply (bool_decide_unpack _). vm_compute. exact Logic.I. Qed.

Lemma SaveState_correct_witness : exists t',
  saveState (h32 1) (h32 2) ex_pairs NewDatabase = Ret (t', Some ()) /\ usable t' /\
  forall m, GetStateRootByHeaderHash (opened (view t' m)) (h32 1) = Ret (Some (h32 2)) /\
    GetStateDataByHeaderHash anyMake (opened (view t' m)) (h32 1) = Ret (Some ex_pairs) /\
    differ_at (stateEntries (h32 1) (h32 2)) (view NewDatabase m) (view t' m).
Proof. apply (SaveState_correct anyMake (h32 1) (h32 2) ex_pairs NewDatabase ex_pairs_ok eq_refl). by eexists. Defined.

Definition encoded (w : go (option Bytes)) : Bytes := match w with Ret (Some b) => b | _ => [] end.
Definition ex_eh : Bytes := encoded (enc_Header SetTinyMode (b_Header ex_next)).
Definition ex_db : gmap Bytes Bytes :=
  savedBlock 4 (Blake2bHash ex_eh) ex_eh (encoded (enc_Extrinsic SetTinyMode noExtrinsic)) ∅.

Lemma ex_db_indexed : indexed ex_db.
Proof. apply indexed_savedBlock; [vm_compute; split; [discriminate|reflexivity]|apply indexed_empty]. Qed.

Lemma GetHeaderHashesByTimeSlot_correct_witness : exists hashes,
  GetHeaderHashesByTimeSlot (opened ex_db) 4 = Ret (Some hashes) /\
  (forall h, h ∈ hashes <-> is_Some (ex_db !! entryKey (EHeader 4 h))) /\
  (forall eh ee, indexed (savedBlock 4 (Blake2bHash eh) eh ee ex_db)) /\ (forall hash, indexed (deletedBlock 4 hash ex_db)).
Proof. apply (GetHeaderHashesByTimeSlot_correct ex_db 4 ex_db_indexed). vm_compute. split; [discriminate|reflexivity]. Defined.

Lemma batches_direct_witness :
  (forall b, ok_Block anyMake SetTinyMode b -> WithBatch (SaveBlock SetTinyMode b) NewDatabase = SaveBlock SetTinyMode b NewDatabase) /\
  (forall hash slot, WithBatch (DeleteBlock hash slot) NewDatabase = DeleteBlock hash slot NewDatabase) /\
  (forall hash root kvs, ok_StateKeyVals anyMake kvs -> WithBatch (saveState hash root kvs) NewDatabase = saveState hash root kvs NewDatabase).
Proof. apply (batches_direct anyMake SetTinyMode tiny_codec NewDatabase). by eexists. Defined.

(** No hash is saved as the final one: reading it is a panic. *)
Example finalized_panics : GetFinalizedHash NewDatabase = Crash /\ GetCanonicalHash NewDatabase 0 = Ret None /\
  GenesisBlockHash anyMake SetTinyMode ex_node = Crash.
Proof. vm_compute. repeat split. Qed.

(** ** Messages *)

Lemma compact_codec_witness : compactEncode 300 = [129; 44] /\ compactEncode 300 = EncodeUint 300 /\
  compactDecode (compactEncode 300 ++ [7]) = (300, 2) /\ decodeUintFromReader (compactEncode 300 ++ [7]) = Ret (Some 300, [7]).
Proof.
  split; [vm_compute; reflexivity|].
  exact (compact_codec 300 [7] ltac:(split; [discriminate|reflexivity]) ltac:(repeat constructor; discriminate)).
Defined.

Definition ex_peer : PeerInfo := MkPeerInfo 1 2 (MkVersion 0 7 2) (MkVersion 0 1 0) [74; 65; 77].

Lemma message_roundtrip_witness :
  codes (Message_MarshalBinary SetTinyMode (peerInfoMessage ex_peer)) (Message_ReadFrom anyMake SetTinyMode) (peerInfoMessage ex_peer) /\
  Message_MarshalBinary SetTinyMode (peerInfoMessage ex_peer) = Ret (Some [16; 0; 0; 0; 0; 1; 2; 0; 0; 0; 0; 7; 2; 0; 1; 0; 3; 74; 65; 77]).
Proof.
  split; [|vm_compute; reflexivity]. apply (message_roundtrip anyMake SetTinyMode tiny_codec).
  - constructor. apply (bool_decide_unpack _). vm_compute. exact Logic.I.
  - intros p E. vm_compute in E. injection E as <-. split; reflexivity.
Defined.

(** A connection on which the fuzzer asks for the state of the block that was
    imported: the answer is the message with that state. *)
Example ex_served :
  let conn := encoded (Message_MarshalBinary SetTinyMode (getStateMessage (ex_hash ex_next))) in
  match serveOneRequest anyMake SetTinyMode reverse elements (fun l => l) toySort ([], [], [], 0, 0) (fun _ => []) 3 (conn ++ [1; 2]) ex_node1 with
  | Some (Ret (_, Some (rest, out))) =>
      rest = [1; 2] /\
      match Message_ReadFrom anyMake SetTinyMode out with
      | Ret (Some (m, [])) => mg_Type m = MessageType_State /\
          Ret (mg_State m) = GetState anyMake SetTinyMode (ex_hash ex_next) ex_node1
      | _ => False
      end
  | _ => False
  end.
Proof. vm_compute. repeat split. Qed.

(** ** Auditing *)

Instance toyKeys : AuditKeys := {
  DeriveTinyValidator i := (fun k => (v_Bandersnatch k, [i])) <$> zlookup ex_keys i;
  vrf_NewHandler_ok _ _ := true;
  vrf_IETFSign sk context := Some (take 96 (sk ++ context ++ replicate 96 0));
  handler_VRFIetfOutput signature := Some (toyHash signature);
  ed25519_Sign64 privateKey message := take 64 (privateKey ++ message) }.

Definition ex_audited : WorkReport := report 7 0 [].
Definition ex_candidates : list (option WorkReport) := [Some ex_audited; None].
Definition ex_a0 : list AuditReport := [MkAuditReport 0 ex_audited 2 false (zeroArray 64)].
(** Validator 1 announces that it audits the report, and judges it valid. *)
Definition ex_announcement : CE144Announcement := MkAnnouncement (h32 1) 0 1 [h32 7] (replicate 64 0).
Definition ex_valid : BusMessage := Judged (MkJudgment (h32 7) 1 true (replicate 64 0)).

Definition ex_audit (bus : AuditMessageBus) (arrived : list BusMessage) (waits : list (option (list BusMessage))) : go AuditOutcome :=
  auditFrom SetTinyMode (fun _ => Some []) (fun _ _ => Ret (Some ex_audited)) 2 (replicate 64 3) ex_child ex_candidates ex_a0 (Some bus) arrived waits.

Definition finished (o : go AuditOutcome) : bool := match o with Ret (Finished _) => true | _ => false end.
Definition waiting (o : go AuditOutcome) : bool := match o with Ret (Waiting _) => true | _ => false end.

Example ex_alone : finished (ex_audit NewAuditMessageBus [] []) = true.
Proof. vm_compute. reflexivity. Qed.

Example ex_both_judged : waiting (ex_audit (OnAuditAnnouncementReceived ex_announcement NewAuditMessageBus) [ex_valid] [Some [ex_valid]; Some []]) = true.
Proof. vm_compute. reflexivity. Qed.

